(* ===== verification/_CoqProject ===== *)
-Q . S2P
Prelude.v
StableSort.v
Lifecycle.v
DomainStates.v
JsNumber.v
NumOrder.v
Money.v
JsDate.v
EconomicsEngine.v
EconomicsProps.v
AuthzMatrix.v
Authz.v
Gf256.v
Shamir.v
Envelope.v
Receipt.v
Eligibility.v
MatchScoring.v
Evidence.v
Attribution.v
JsonText.v
Database.v
Tables.v
ApiShared.v
Idempotency.v
EconomicsRepositories.v
Transactions.v
EconomicsService.v
EconomicsInvariant.v
EconomicsBook.v
EconomicsSystem.v
EconomicsTheorems.v
EconomicsRequests.v
LockboxRepositories.v
LockboxService.v
LockboxSystem.v
LockboxTheorems.v
LockboxRequests.v
ClaimRepositories.v
ClaimService.v
ClaimSpec.v
ClaimInvariant.v
ClaimCommit.v
ClaimSystem.v
ClaimRequests.v
ClaimTheorems.v
TradeRepositories.v
RfqService.v
DealService.v
TradeSpec.v
TradeBook.v
TradeEffects.v
TradeSystem.v
TradeRequests.v
TradeResponses.v
TradeSample.v
TradeTheorems.v
PassportRepositories.v
PassportService.v
PassportSpec.v
PassportBook.v
PassportSystem.v
PassportRequests.v
PassportEffects.v
PassportTheorems.v
IdentityRepositories.v
IdentityService.v
IdentityBook.v
IdentitySystem.v
IdentityRequests.v
IdentityTheorems.v
SupplyRepositories.v
SupplyService.v
MarketService.v
SupplyBook.v
SupplySystem.v
SupplyRequests.v
SupplyFacts.v
SupplyTheorems.v
