(* ===== verification/Prelude.v ===== *)
(** * TOL platform: verification library (root file)

    A model of the TOL marketplace platform (a TypeScript monorepo: packages/,
    apps/api, apps/worker, apps/web) with the theorems that make it correct.
    This file is also the prelude: the exceptions of the source, the error
    monad [res], notations, tactics, the hint database [tol] and the lemmas on
    lists and sums the components share.

    ** The program

    Introducers, merchants and payment providers trade payment volume.  A
    contributor seals a relationship in a lockbox, files an attribution claim
    on an opportunity, quotes are requested and selected, a deal room opens,
    revenue accrues commissions to the claimants, and money is paid against a
    ledger.  packages/domain, matching, attribution, evidence, authz and crypto
    are pure; packages/db holds one repository per table over Prisma and
    PostgreSQL; apps/api has one service per resource, each mutation of which
    reads, authorizes with [can], validates a state transition, and then runs
    one transaction that writes rows, one audit event and one domain event;
    apps/worker runs idempotent jobs over the same tables.

    ** The files

    Language and libraries
    - [StableSort]: Array.prototype.sort as a stable sort, unique results.
    - [JsNumber], [NumOrder]: numbers as binary64 ([SpecFloat]), their rounding
      and order properties.
    - [JsonText]: JSON.stringify and JSON.parse, that they are inverse, and the
      shape guards of json-guards.ts.
    - [JsDate]: toISOString.

    Pure packages
    - [Lifecycle], [DomainStates]: packages/domain *-states.ts, every enum,
      transition table and guard.
    - [Money]: money.ts, volume-reconciliation.ts.
    - [EconomicsEngine], [EconomicsProps]: economics-engine.ts, the commission
      split and the accrual balance.
    - [AuthzMatrix] (generated from the literals of matrix.ts), [Authz]:
      packages/authz, [can] and the field policy.
    - [Gf256] (with polynomial interpolation), [Shamir], [Envelope], [Receipt]:
      packages/crypto.
    - [Eligibility], [MatchScoring]: packages/matching.
    - [Evidence]: packages/evidence.  [Attribution]: packages/attribution.

    Services over one database
    - [Database]: a record per table row of schema.prisma, the database [Db] as
      one list of rows per table, the transaction monad [Tx] and the query
      forms of Prisma; [Tables]: tables under insertion and update.
    - [ApiShared]: apps/api/src/shared (errors, audit and timeline writers);
      [Idempotency]: the idempotency keys and [withJobIdempotency].
    - [Transactions]: concurrent requests.  A [Handler] is the reads of a
      request before its transaction ([h_pre]), a read the transaction makes
      without a lock ([h_look]), the transaction ([h_tx]) and the response
      ([h_finish]); [step] interleaves any number of them with whatever else
      happens; rules for invariants, for facts about the answers
      given so far and for simulation.
    - [EconomicsRepositories], [EconomicsService]: the repositories and handlers
      of the economics service and the accrual job.  [EconomicsInvariant]: what
      each transaction writes and the sound ledger.  [EconomicsBook]: the
      abstract book of accounts.  [EconomicsSystem]: every transaction keeps the
      ledger sound and refines the book.  [EconomicsTheorems] (with a concrete
      run), [EconomicsRequests]: the theorems.
    - [LockboxRepositories], [LockboxService], [LockboxSystem],
      [LockboxTheorems], [LockboxRequests]: the lockbox service, the same way.
    - [ClaimRepositories], [ClaimService], [ClaimSpec], [ClaimInvariant],
      [ClaimCommit], [ClaimSystem], [ClaimRequests], [ClaimTheorems]: the
      attribution claims service and the history of decisions it refines.
    - [TradeRepositories], [RfqService], [DealService]: requests for quotes,
      quotes, deal rooms and the job that expires requests.  [TradeSpec]: the abstract market (auctions, bids, deals,
      seats and its steps); [TradeBook]: the market a database holds;
      [TradeEffects]: each transaction is a run of market steps;
      [TradeSystem]: both services and the job under one clock;
      [TradeRequests], [TradeResponses], [TradeTheorems], [TradeSample].
    - [PassportRepositories], [PassportService]: facts, evidence, computed
      readiness, and the readiness job.  [PassportSpec]: the abstract registry
      and its steps; [PassportBook]: the registry a database holds;
      [PassportSystem]: each transaction is a run of registry steps;
      [PassportRequests], [PassportEffects], [PassportTheorems].
    - [IdentityRepositories], [IdentityService]: users, memberships, sessions,
      the session hook of plugins/auth.ts, sign-in, the switch of organization
      and the memberships service.  [IdentityBook]: the abstract roster, its
      steps and the roster a database holds; [IdentitySystem]:
      each transaction is a run of roster steps; [IdentityRequests],
      [IdentityTheorems].
    - [SupplyRepositories], [SupplyService]: opportunities and their volume
      breakdowns, capacity profiles, matching runs and the capacity-freshness
      job; [MarketService]: the marketplace's redacted cards.  [SupplyBook]:
      the abstract exchange, its steps and the exchange a database holds;
      [SupplySystem]: each transaction is a run of exchange steps;
      [SupplyRequests] (with the matching engine on stored rows),
      [SupplyFacts] (with the cards of the market), [SupplyTheorems].

    ** How the model corresponds to the code

    A definition has the name of the function it models where Rocq allows it;
    methods of one object are prefixed with it.  A handler [f] of a service is
    [f_pre], [f_tx] and, where the response is computed after the
    transaction, [f_finish].  A thrown error is a value of [exn]: its class,
    its status and code, and a text that identifies the branch.  Each service
    is translated line by line, its guards in the order of the source.
    Optional values are [option]; [undefined] and [null] are both [None] where
    the code does not tell them apart.  Strings are UTF-8 bytes.  Prisma's
    bigint columns are [Z]; the wire formats' bounds are in [Money].

    Choices: a transaction takes effect at one instant. The transactions that
    check and then write hold the advisory lock of the object they change; the
    memberships service holds none, so what its transactions read is a step of
    its own, and is stale when others commit in between. A volume breakdown is
    deleted and inserted without a lock: two at once may leave cells of both,
    which [step_restate] and [supply_ok] admit, but no run here interleaves
    them. A [Date] is its [getTime()] value, [None] for an Invalid Date; all
    timestamps a transaction reads from the database are equal, those of [new
    Date()] come with the request; identifiers are distinct ([newId_inj]);
    queries without an order answer in the order of insertion; rows with equal
    timestamps sort in the order of insertion. The unique constraints the code
    relies on are modelled, and so are the ranges of the int4 and int8 columns
    of the supply tables, for which the contract sets no upper bound. The
    ranges of the economics tables are not: their invariants hold of the runs
    with wider amounts too, and what is said of an accepted payment is said of
    totals within int8. The integers of the other requests are bounded by the
    contract or stored as JSON. Primary keys, foreign keys (but the
    membership's user) and connection failures of PostgreSQL are not modelled.

    Parameters: AES-256-GCM, SHA-256 and HMAC of node:crypto, bcrypt's
    comparison, [Date.parse] and the identifier source ([Platform]). What is
    assumed of them is stated where it is used ([gcm_correct], [hmac_bytes],
    [newId_inj]) and met by the toy instances of the witnesses.

    Fuel: [readValue] and [readChars] of [JsonText] recur on the length of the
    text, [shortest] on 18 digits (17 always suffice); no other definition
    needs fuel.

    ** What the theorems show

    Economics: the ledger is sound and append-only under any interleaving, it
    refines the book of accounts whatever is sent, nobody is paid beyond what
    was credited except through an accepted batch that names the account
    twice (proved as a bug),
    every request succeeds exactly in the stated case, views show exactly what
    the viewer may see.  Lockboxes: what is released is what was sealed, once,
    by authority, never after a withdrawal; receipts verify; requests are
    exact.  Pure packages: exactness of every guard and of eligibility,
    totality and zero leakage of the split, tenant isolation and separation
    of duties of [can], Shamir's round trip and perfect secrecy, release fails
    closed, deterministic rankings, scores within their bounds.
    Claims: every decision is recorded, decided once and by authority, the
    stored claims refine the history of decisions, and requests are exact.
    Trade: under any interleaving of the two services with the expiry job the
    market stays well formed and refines the abstract market; a quote is shown
    only to its author, the request's owner and the platform; requests succeed
    exactly when stated and only for the parties entitled; the expiry job
    settles an overdue request once.
    Passports: a status is always backed by the readiness the engine computes
    on the present facts; the tables refine the abstract registry; only a
    reviewer's request verifies; the JSON columns keep their schema; requests
    are exact; the job computes what the API computes, once per key.
    Identity: the actor every other service is called with acts under a
    membership that is ACTIVE at that moment and its own user's; closed
    sessions stay closed; nobody becomes ACTIVE without a journal entry of
    someone entitled; the tables refine the abstract roster, which lets two
    overlapping invitations take an ACTIVE member back to INVITED (proved as a
    bug); requests are exact.
    Supply: breakdowns, profiles and matches stay well formed and refine the
    abstract exchange; requests are exact, the column ranges among their
    conditions; an evaluation is the engine's, is
    ranked and is what is listed; a breakdown is read back as it was sent; one
    bad profile stops every evaluation (proved as a bug); the market's cards
    depend on the safe columns alone; the job stores the class a reader
    computes.

    ** Not modelled

    The routes and plugins of apps/api other than those of auth, its wire
    schemas (zod) and servers; queues,
    locks, health checks and process handling of apps/worker; packages/config,
    contracts, events and queue; the seed and migrations of packages/db:
    configuration and input/output around the services.  apps/web: React
    views over the API.  The organizations service
    (one guarded update of a profile), reads of the journals, the API's
    idempotency keys and the mappers to wire objects are left out. *)

From stdpp Require Export base tactics list list_numbers strings gmap pretty sorting.
From Stdlib Require Export ZArith Lia.
From Stdlib Require Import Sorted.

#[global] Open Scope Z_scope.

(** ** Exceptions and the error monad

    A TypeScript function that may throw is a function into [res].  One
    constructor of [exn] per error class of the source; the [string] payload
    identifies the throwing branch (the template text of the message is not
    modelled, its identity is). *)

Inductive exn : Type :=
| MoneyInvariantError (what : string)
| EconomicsInvariantError (what : string)
| TransitionError (entity from to : string)
| EligibilityInputError (what : string)
| ClaimScoringInputError (what : string)
| ClaimRankingInputError (what : string)
| RankingInputError (what : string)
| ErrorError (what : string)
| CommissionAccrualInputError (what : string)
| CommissionComponentInputError (what : string)
| RevenueEventInputError (what : string)
| JobIdempotencyConflictError (scope key : string)
| PrismaKnownRequestError (code : string)
| PrismaClientValidationError (what : string)
| InsufficientSharesError (what : string)
| TamperOrWrongKeyError (what : string)
| MissingKeyMaterialError (what : string)
| JsonShapeError (what : string)
| DuplicateVolumeSliceCellError (cell : string)
| MatchResultInputError (what : string)
| TypeError (what : string)
| RangeError (what : string)
| ProblemError (status : Z) (code : string) (message : string) (retryable : bool).

#[global] Instance exn_eq_dec : EqDecision exn.
Proof. solve_decision. Defined.

Inductive res (A : Type) : Type :=
| Ok (a : A)
| Throw (e : exn).
Arguments Ok {A} a.
Arguments Throw {A} e.

Definition rbind {A B} (m : res A) (k : A -> res B) : res B :=
  match m with
  | Ok a => k a
  | Throw e => Throw e
  end.

Declare Scope tol_scope.
Delimit Scope tol_scope with tol.
Notation "'let!' x := m 'in' k" := (rbind m (fun x => k))
  (at level 200, x pattern, m at level 100, k at level 200, right associativity) : tol_scope.
Notation "'do!' m ';' k" := (rbind m (fun _ => k))
  (at level 200, m at level 100, k at level 200, right associativity) : tol_scope.
#[global] Open Scope tol_scope.

(** [if (b) throw e;] *)
Definition throw_if (b : bool) (e : exn) : res unit :=
  if b then Throw e else Ok tt.

Fixpoint mapM_res {A B} (f : A -> res B) (l : list A) : res (list B) :=
  match l with
  | [] => Ok []
  | x :: l' => let! y := f x in let! ys := mapM_res f l' in Ok (y :: ys)
  end.

Fixpoint foldM_res {A S} (f : S -> A -> res S) (s : S) (l : list A) : res S :=
  match l with
  | [] => Ok s
  | x :: l' => let! s' := f s x in foldM_res f s' l'
  end.

Definition is_ok {A} (m : res A) : bool :=
  match m with Ok _ => true | Throw _ => false end.

Lemma rbind_Ok {A B} (m : res A) (k : A -> res B) b :
  rbind m k = Ok b <-> exists a, m = Ok a /\ k a = Ok b.
Proof. destruct m; simpl; naive_solver. Qed.

Lemma throw_if_Ok b e u : throw_if b e = Ok u <-> b = false.
Proof. destruct u, b; simpl; naive_solver. Qed.

Lemma rbind_assoc {A B C} (m : res A) (f : A -> res B) (g : B -> res C) :
  rbind (rbind m f) g = rbind m (fun a => rbind (f a) g).
Proof. by destruct m. Qed.

Create HintDb tol discriminated.
#[export] Hint Rewrite @rbind_Ok @throw_if_Ok : tol.

(** [inv_ok] decomposes every hypothesis [.. = Ok _] about a monadic body. *)
Ltac inv_ok :=
  repeat match goal with
  | H : rbind _ _ = Ok _ |- _ =>
      apply rbind_Ok in H; let a := fresh "v" in destruct H as [a [? H]]; simpl in H
  | H : throw_if _ _ = Ok _ |- _ => apply throw_if_Ok in H
  | H : Ok _ = Ok _ |- _ => injection H; clear H; intros; subst
  | H : Throw _ = Ok _ |- _ => discriminate H
  | u : unit |- _ => destruct u
  end.

(** [solve_throw_if] evaluates a [throw_if] whose guard is known. *)
Ltac ok_step :=
  match goal with
  | |- context [throw_if ?b _] =>
      let H := fresh "Hg" in
      destruct b eqn:H; simpl
  end.

Lemma mapM_res_Ok {A B} (f : A -> res B) l ys :
  mapM_res f l = Ok ys <-> Forall2 (fun x y => f x = Ok y) l ys.
Proof.
  revert ys. induction l as [|x l IH]; intros ys; simpl.
  - split; [by intros [= <-]; constructor | by inversion 1].
  - rewrite rbind_Ok. setoid_rewrite rbind_Ok. setoid_rewrite IH. split.
    + intros (y & Hy & zs & Hzs & [= <-]). by constructor.
    + inversion 1; subst. eauto.
Qed.

Lemma mapM_res_pure {A B} (f : A -> res B) (g : A -> B) l :
  (forall x, x ∈ l -> f x = Ok (g x)) -> mapM_res f l = Ok (map g l).
Proof.
  intros H. apply mapM_res_Ok. apply Forall2_fmap_r, Forall_Forall2_diag.
  apply Forall_forall. exact H.
Qed.

(** ** Sums over lists *)

Definition sumZ (l : list Z) : Z := foldr Z.add 0 l.
Arguments sumZ : simpl never.

Lemma sumZ_app l1 l2 : sumZ (l1 ++ l2) = sumZ l1 + sumZ l2.
Proof. induction l1 as [|x l1 IH]; simpl; [done|]. unfold sumZ in *; simpl. lia. Qed.

#[global] Instance sumZ_proper : Proper ((≡ₚ) ==> (=)) sumZ.
Proof. induction 1; unfold sumZ in *; simpl in *; lia. Qed.

Lemma foldl_add_sumZ l z : foldl Z.add z l = z + sumZ l.
Proof.
  revert z. induction l as [|x l IH]; intros z; simpl; [unfold sumZ; simpl; lia|].
  rewrite IH. unfold sumZ; simpl. lia.
Qed.

Lemma sumZ_nonneg l : Forall (fun x => 0 <= x) l -> 0 <= sumZ l.
Proof. induction 1; unfold sumZ in *; simpl; lia. Qed.

Lemma sumZ_map_add {A} (f g : A -> Z) l :
  sumZ (map (fun x => f x + g x) l) = sumZ (map f l) + sumZ (map g l).
Proof. induction l as [|x l IH]; unfold sumZ in *; simpl in *; lia. Qed.

Lemma sumZ_map_mul_l {A} (k : Z) (f : A -> Z) l :
  sumZ (map (fun x => k * f x) l) = k * sumZ (map f l).
Proof. induction l as [|x l IH]; unfold sumZ in *; simpl in *; lia. Qed.

Lemma sumZ_cons x l : sumZ (x :: l) = x + sumZ l.
Proof. done. Qed.

#[export] Hint Rewrite sumZ_app sumZ_cons : tol.

(** ** Loops over lists that collect in a set

    [new Set(..)] with [has]/[add] in a loop: the first duplicate key. *)

Fixpoint has_duplicate (seen : gset string) (keys : list string) : bool :=
  match keys with
  | [] => false
  | k :: keys' => if bool_decide (k ∈ seen) then true else has_duplicate ({[k]} ∪ seen) keys'
  end.

Lemma has_duplicate_false seen keys :
  has_duplicate seen keys = false <-> NoDup keys /\ Forall (fun k => k ∉ seen) keys.
Proof.
  revert seen. induction keys as [|k keys IH]; intros seen; simpl.
  - split; [|done]. intros _. split; constructor.
  - rewrite NoDup_cons, Forall_cons. case_bool_decide as Hk; [naive_solver|].
    rewrite IH, !Forall_forall. split.
    + intros [Hnd Hall]. split_and!; try done; intros; set_solver.
    + intros [[Hni Hnd] [Hk' Hall]]. split; [done|]. intros j Hj. set_solver.
Qed.

Lemma elem_take {A} (x : A) k l : x ∈ take k l -> x ∈ l.
Proof. intros Hx. rewrite <- (take_drop k l). apply elem_of_app. by left. Qed.

Lemma elem_drop {A} (x : A) k l : x ∈ drop k l -> x ∈ l.
Proof. intros Hx. rewrite <- (take_drop k l). apply elem_of_app. by right. Qed.

#[export] Hint Resolve elem_take elem_drop : tol.

Lemma NoDup_take_l {A} k (l : list A) : NoDup l -> NoDup (take k l).
Proof. rewrite <- (take_drop k l) at 1. by intros [? _]%NoDup_app. Qed.

(** Elements of a list with distinct keys are determined by their key. *)
Lemma NoDup_map_inj {A B} (f : A -> B) l x y : NoDup (map f l) -> x ∈ l -> y ∈ l -> f x = f y -> x = y.
Proof.
  induction l as [|z l IH]; simpl; [set_solver|]. rewrite NoDup_cons, !elem_of_cons. intros [Hz Hl] Hx Hy E.
  assert (forall w, w ∈ l -> f w <> f z) as Hne.
  { intros w Hw Ew. apply Hz. rewrite <- Ew. apply list_elem_of_In, in_map, list_elem_of_In. exact Hw. }
  destruct Hx as [->|Hx], Hy as [->|Hy]; [done|by symmetry in E; apply Hne in E|by apply Hne in E|by apply IH].
Qed.

(** Membership in the Standard Library's boolean [filter]. *)
Lemma elem_of_filter_list {A} (p : A -> bool) (l : list A) x : x ∈ List.filter p l <-> x ∈ l /\ p x = true.
Proof. rewrite !list_elem_of_In. apply filter_In. Qed.

Lemma filter_none {A} (f : A -> bool) l : (forall x, x ∈ l -> f x = false) -> List.filter f l = [].
Proof. induction l as [|x l IH]; simpl; intros Hf; [done|]. rewrite Hf by set_solver. apply IH. intros; apply Hf; set_solver. Qed.

Lemma filter_all {A} (f : A -> bool) l : (forall x, x ∈ l -> f x = true) -> List.filter f l = l.
Proof. induction l as [|x l IH]; simpl; intros Hf; [done|]. rewrite Hf by set_solver. f_equal. apply IH. intros; apply Hf; set_solver. Qed.

Lemma Forall2_elem_l {A B} (P : A -> B -> Prop) l k x : Forall2 P l k -> x ∈ l -> exists y, y ∈ k /\ P x y.
Proof. induction 1 as [|a b l k Hab _ IH]; rewrite ?elem_of_cons; [set_solver|]. intros [->|Hx]; [|apply IH in Hx]; set_solver. Qed.

Lemma Forall2_elem_r {A B} (P : A -> B -> Prop) l k y : Forall2 P l k -> y ∈ k -> exists x, x ∈ l /\ P x y.
Proof. induction 1 as [|a b l k Hab _ IH]; rewrite ?elem_of_cons; [set_solver|]. intros [->|Hx]; [|apply IH in Hx]; set_solver. Qed.
