(* ===== verification/StableSort.v ===== *)
(** * Stable sorting with a comparator

    [Array.prototype.sort] is stable for a consistent comparator.  The
    comparator of the source returns a negative, zero or positive number; here
    it returns a [comparison].  [sort_by] is the stable insertion sort, the
    unique stable sorted arrangement for a total preorder.  The file proves
    that the result is a permutation, is sorted, is fixed on sorted input and,
    when the comparator only equates equal elements, depends on the multiset
    of elements alone. *)
From S2P Require Import Prelude.
From Stdlib Require Import Sorted.

Fixpoint insert_by {A} (cmp : A -> A -> comparison) (x : A) (l : list A) : list A :=
  match l with
  | [] => [x]
  | y :: l' =>
      match cmp x y with
      | Gt => y :: insert_by cmp x l'
      | _ => x :: l
      end
  end.

Definition sort_by {A} (cmp : A -> A -> comparison) (l : list A) : list A :=
  foldr (insert_by cmp) [] l.

(** The laws a comparator needs: swapping the arguments flips the sign, and
    "not greater" is transitive. *)
Class CmpOrder {A} (cmp : A -> A -> comparison) : Prop := {
  cmp_antisym : forall x y, cmp y x = CompOpp (cmp x y);
  cmp_trans : forall x y z, cmp x y <> Gt -> cmp y z <> Gt -> cmp x z <> Gt
}.

Definition cmp_le {A} (cmp : A -> A -> comparison) (x y : A) : Prop := cmp x y <> Gt.

(** ** Comparators of the source, composed *)

(** [if (a.k !== b.k) return ..; return next] *)
Definition cmp_then (c1 c2 : comparison) : comparison :=
  match c1 with Eq => c2 | _ => c1 end.

Definition cmp_on {A B} (f : A -> B) (c : B -> B -> comparison) (x y : A) : comparison :=
  c (f x) (f y).

Definition cmp_desc {A} (c : A -> A -> comparison) (x y : A) : comparison := c y x.

Definition cmp_lex {A} (c1 c2 : A -> A -> comparison) (x y : A) : comparison :=
  cmp_then (c1 x y) (c2 x y).

#[global] Typeclasses Opaque cmp_on cmp_desc cmp_lex.

#[global] Instance Zcompare_order : CmpOrder Z.compare.
Proof.
  split; [intros x y; by rewrite Z.compare_antisym|].
  intros x y z. rewrite !Z.compare_gt_iff. lia.
Qed.

Lemma ascii_compare_trans x y z : Ascii.compare x y <> Gt -> Ascii.compare y z <> Gt -> Ascii.compare x z <> Gt.
Proof. unfold Ascii.compare. rewrite !N.compare_gt_iff. lia. Qed.

Lemma string_compare_antisym x y : String.compare y x = CompOpp (String.compare x y).
Proof.
  revert y. induction x as [|a x IH]; intros [|b y]; simpl; try done.
  rewrite (Ascii.compare_antisym b a).
  destruct (Ascii.compare a b); simpl; auto.
Qed.

Lemma string_compare_eq x y : String.compare x y = Eq <-> x = y.
Proof.
  split; [apply String.compare_eq_iff|]. intros <-.
  induction x as [|a x IH]; simpl; [done|]. unfold Ascii.compare. by rewrite N.compare_refl.
Qed.

Lemma string_compare_trans x y z :
  String.compare x y <> Gt -> String.compare y z <> Gt -> String.compare x z <> Gt.
Proof.
  revert y z. induction x as [|a x IH]; intros [|b y] [|c z]; simpl; try done.
  destruct (Ascii.compare a b) eqn:Hab; [|intros _|done].
  - apply Ascii.compare_eq_iff in Hab as ->.
    destruct (Ascii.compare b c); [apply IH|done|done].
  - destruct (Ascii.compare b c) eqn:Hbc; [| |done].
    + apply Ascii.compare_eq_iff in Hbc as ->. by rewrite Hab.
    + intros _. unfold Ascii.compare in *.
      rewrite N.compare_lt_iff in Hab, Hbc.
      assert ((Ascii.N_of_ascii a ?= Ascii.N_of_ascii c)%N = Lt) as -> by (apply N.compare_lt_iff; lia).
      done.
Qed.

#[global] Instance string_compare_order : CmpOrder String.compare.
Proof. split; [exact string_compare_antisym | exact string_compare_trans]. Qed.

#[global] Instance cmp_on_order {A B} (f : A -> B) c : CmpOrder c -> CmpOrder (cmp_on f c).
Proof. intros [Ha Ht]. split; unfold cmp_on; eauto. Qed.

#[global] Instance cmp_desc_order {A} (c : A -> A -> comparison) : CmpOrder c -> CmpOrder (cmp_desc c).
Proof. intros [Ha Ht]. split; unfold cmp_desc; eauto. Qed.

Lemma cmp_eq_sym {A} (c : A -> A -> comparison) `{!CmpOrder c} x y : c x y = Eq -> c y x = Eq.
Proof. intros H. by rewrite cmp_antisym, H. Qed.

#[global] Instance cmp_lex_order {A} (c1 c2 : A -> A -> comparison) :
  CmpOrder c1 -> CmpOrder c2 -> CmpOrder (cmp_lex c1 c2).
Proof.
  intros H1 H2. split; unfold cmp_lex, cmp_then.
  - intros x y. rewrite (cmp_antisym (cmp := c1) x y), (cmp_antisym (cmp := c2) x y).
    by destruct (c1 x y).
  - intros x y z.
    pose proof (cmp_trans (cmp := c1) x y z) as T1.
    pose proof (cmp_trans (cmp := c1) z x y) as T2.
    pose proof (cmp_trans (cmp := c1) y z x) as T3.
    pose proof (cmp_trans (cmp := c2) x y z) as T4.
    rewrite (cmp_antisym (cmp := c1) x z), (cmp_antisym (cmp := c1) y z) in T2.
    rewrite (cmp_antisym (cmp := c1) x z), (cmp_antisym (cmp := c1) x y) in T3.
    destruct (c1 x y), (c1 y z), (c1 x z); simpl in *; naive_solver.
Qed.

(** ** Correctness of [sort_by] *)

Section Sort.
Context {A : Type} (cmp : A -> A -> comparison) `{!CmpOrder cmp}.

Lemma insert_by_perm x l : insert_by cmp x l ≡ₚ x :: l.
Proof.
  induction l as [|y l IH]; simpl; [done|].
  destruct (cmp x y); [done|done|]. rewrite IH. apply Permutation_swap.
Qed.

Lemma sort_by_perm l : sort_by cmp l ≡ₚ l.
Proof. induction l as [|x l IH]; simpl; [done|]. by rewrite insert_by_perm, IH. Qed.

Lemma insert_by_sorted x l :
  StronglySorted (cmp_le cmp) l -> StronglySorted (cmp_le cmp) (insert_by cmp x l).
Proof.
  induction 1 as [|y l Hl IH Hy]; simpl; [by repeat constructor|].
  assert (forall c, cmp x y = c -> c <> Gt -> StronglySorted (cmp_le cmp) (x :: y :: l)) as Hle.
  { intros c Hc Hne. subst c. constructor; [by constructor|]. constructor; [done|].
    eapply Forall_impl; [exact Hy|]. intros z Hz. by eapply cmp_trans. }
  destruct (cmp x y) eqn:E; [by apply (Hle Eq) | by apply (Hle Lt) |].
  constructor; [done|]. rewrite Forall_forall. intros z Hz.
  rewrite insert_by_perm, elem_of_cons in Hz. destruct Hz as [->|Hz].
  - unfold cmp_le. by rewrite cmp_antisym, E.
  - rewrite Forall_forall in Hy. by apply Hy.
Qed.

Lemma sort_by_sorted l : StronglySorted (cmp_le cmp) (sort_by cmp l).
Proof. induction l; simpl; [constructor|]. by apply insert_by_sorted. Qed.

Lemma sort_by_elem x l : x ∈ sort_by cmp l <-> x ∈ l.
Proof. by rewrite sort_by_perm. Qed.

Lemma sort_by_length l : length (sort_by cmp l) = length l.
Proof. by rewrite sort_by_perm. Qed.

(** Two sorted arrangements of the same multiset coincide when the
    comparator identifies only equal members. *)
Lemma sorted_unique l1 l2 :
  (forall x y, x ∈ l1 -> y ∈ l1 -> cmp x y = Eq -> x = y) ->
  l1 ≡ₚ l2 -> StronglySorted (cmp_le cmp) l1 -> StronglySorted (cmp_le cmp) l2 -> l1 = l2.
Proof.
  revert l2. induction l1 as [|x l1 IH]; intros l2 Heq Hp H1 H2.
  { by apply Permutation_nil_l in Hp. }
  destruct l2 as [|y l2]; [by symmetry in Hp; apply Permutation_nil_l in Hp|].
  inversion H1 as [|?? Hs1 Hx]; inversion H2 as [|?? Hs2 Hy]; subst.
  assert (x = y) as ->.
  { assert (y ∈ x :: l1) as Hy1 by (rewrite Hp; set_solver).
    assert (x ∈ y :: l2) as Hx2 by (rewrite <- Hp; set_solver).
    apply elem_of_cons in Hy1 as [->|Hy1]; [done|].
    apply elem_of_cons in Hx2 as [->|Hx2]; [done|].
    rewrite Forall_forall in Hx, Hy. specialize (Hx _ Hy1). specialize (Hy _ Hx2).
    apply Heq; [set_solver|set_solver|]. unfold cmp_le in *.
    rewrite cmp_antisym in Hy. by destruct (cmp x y). }
  f_equal. apply IH; [|by eapply Permutation_cons_inv|done|done].
  intros; apply Heq; set_solver.
Qed.

Lemma sort_by_unique l1 l2 :
  (forall x y, x ∈ l1 -> y ∈ l1 -> cmp x y = Eq -> x = y) ->
  l1 ≡ₚ l2 -> sort_by cmp l1 = sort_by cmp l2.
Proof.
  intros Heq Hp. apply sorted_unique.
  - intros x y. rewrite !sort_by_elem. apply Heq.
  - by rewrite !sort_by_perm.
  - apply sort_by_sorted.
  - apply sort_by_sorted.
Qed.

(** Elements before position [k] are not greater than those from [k] on. *)
Lemma sorted_take_drop k l x y :
  StronglySorted (cmp_le cmp) l -> x ∈ take k l -> y ∈ drop k l -> cmp x y <> Gt.
Proof.
  intros Hs. revert k. induction Hs as [|z l Hl IH Hz]; intros [|k]; simpl; try set_solver.
  rewrite elem_of_cons. intros [->|Hx] Hy; [|by eapply IH].
  rewrite Forall_forall in Hz. apply Hz. rewrite <- (take_drop k l). set_solver.
Qed.
End Sort.

(** The arrangement depends on the comparator's values on the members only. *)
Lemma insert_by_ext {A} (c1 c2 : A -> A -> comparison) x l :
  (forall y, y ∈ l -> c1 x y = c2 x y) -> insert_by c1 x l = insert_by c2 x l.
Proof.
  induction l as [|y l IH]; intros H; simpl; [done|]. rewrite (H y) by set_solver.
  destruct (c2 x y); try done. rewrite IH; [done|]. intros; apply H; set_solver.
Qed.

Lemma sort_by_ext {A} (c1 c2 : A -> A -> comparison) l :
  (forall x y, x ∈ l -> y ∈ l -> c1 x y = c2 x y) -> sort_by c1 l = sort_by c2 l.
Proof.
  induction l as [|x l IH]; intros H; simpl; [done|].
  change (insert_by c1 x (sort_by c1 l) = insert_by c2 x (sort_by c2 l)).
  rewrite IH by (intros; apply H; set_solver). apply insert_by_ext. intros y Hy. apply H; [set_solver|].
  apply elem_of_cons. right. rewrite sort_by_perm in Hy. exact Hy.
Qed.

#[export] Hint Resolve sort_by_sorted : tol.
