(* ===== verification/Lifecycle.v ===== *)
(** * String enums and transition tables

    Every [*-states.ts] file of packages/domain follows one pattern: an
    [as const] array of names, an [is*] membership test on an arbitrary
    string, a [Record] of [Set]s of legal successors, and an
    [assertValid*Transition] guard that receives strings at run time.  The
    pattern is stated once here as two type classes; the components
    instantiate it. *)
From S2P Require Import Prelude.

(** A closed union of string literals: the [as const] array and its names. *)
Class StringEnum (A : Type) `{EqDecision A} : Type := {
  enum_values : list A;
  enum_name : A -> string;
  enum_complete : forall a, a ∈ enum_values;
  enum_name_inj : Inj (=) (=) enum_name
}.
#[export] Existing Instance enum_name_inj.
#[export] Hint Resolve enum_complete : tol.

(** The transition table of a lifecycle. *)
Class Lifecycle (A : Type) `{StringEnum A} : Type := {
  successors : A -> list A
}.

(** [solve_enum] builds the proofs of a [StringEnum] instance. *)
Ltac solve_enum_complete := intros []; repeat (first [apply list_elem_of_here | apply list_elem_of_further]).
Ltac solve_enum_inj := intros [] [] Hname; first [reflexivity | discriminate Hname].

Section Enum.
Context {A : Type} `{StringEnum A}.

(** [(VALUES as readonly string[]).includes(value)] *)
Definition includes_name (value : string) : bool :=
  existsb (String.eqb value) (map enum_name enum_values).

(** The enum member a string denotes at run time, if any. *)
Definition enum_parse (value : string) : option A :=
  find (fun a => String.eqb value (enum_name a)) enum_values.

Lemma enum_parse_name a : enum_parse (enum_name a) = Some a.
Proof.
  unfold enum_parse.
  destruct (find (fun a' => String.eqb (enum_name a) (enum_name a')) enum_values) as [b|] eqn:E.
  - apply find_some in E as [_ E]. apply String.eqb_eq, enum_name_inj in E. by subst.
  - exfalso. eapply find_none in E; [|apply list_elem_of_In, (enum_complete a)].
    by rewrite String.eqb_refl in E.
Qed.

Lemma enum_parse_Some v a : enum_parse v = Some a <-> v = enum_name a.
Proof.
  split; [|intros ->; apply enum_parse_name].
  intros Hp. apply find_some in Hp as [_ E]. by apply String.eqb_eq in E.
Qed.

Lemma enum_parse_None v : enum_parse v = None <-> forall a, v <> enum_name a.
Proof.
  split.
  - intros Hn a ->. by rewrite enum_parse_name in Hn.
  - intros Hn. destruct (enum_parse v) eqn:E; [|done].
    apply enum_parse_Some in E. by destruct (Hn a).
Qed.

Lemma includes_name_parse v : includes_name v = bool_decide (is_Some (enum_parse v)).
Proof.
  unfold includes_name. apply eq_bool_prop_intro.
  rewrite bool_decide_spec, Is_true_true, existsb_exists. split.
  - intros (n & Hn & ->%String.eqb_eq). apply in_map_iff in Hn as (a & <- & _).
    rewrite enum_parse_name. eauto.
  - intros [a ->%enum_parse_Some]. exists (enum_name a).
    rewrite String.eqb_refl. split; [|done].
    apply in_map, list_elem_of_In, enum_complete.
Qed.

Lemma includes_name_true v : includes_name v = true <-> exists a, v = enum_name a.
Proof.
  rewrite includes_name_parse, bool_decide_eq_true. unfold is_Some.
  by setoid_rewrite enum_parse_Some.
Qed.

Lemma includes_name_member a : includes_name (enum_name a) = true.
Proof. apply includes_name_true. eauto. Qed.
End Enum.
Arguments includes_name A {_ _} value.
Arguments enum_parse A {_ _} value.

Section Guard.
Context (A : Type) `{Lifecycle A}.

(** One [assertValid*Transition] body: the out-of-enum check, the same-state
    check (absent from the RFQ guard: [strict = false]) and the [Set] lookup.
    Indexing the table with an unknown key is [undefined], and calling
    [.has] on it throws a raw [TypeError]. *)
Definition assertTransition (strict : bool) (entity from to : string) : res unit :=
  if negb (includes_name A from) || negb (includes_name A to)
  then Throw (TransitionError entity from to)
  else match enum_parse A from with
       | None => Throw (TypeError "Cannot read properties of undefined (reading 'has')")
       | Some f =>
           if (strict && String.eqb from to)
              || negb (existsb (String.eqb to) (map enum_name (successors f)))
           then Throw (TransitionError entity from to)
           else Ok tt
       end.

(** The step relation of the table. *)
Definition edge (f t : A) : Prop := t ∈ successors f.
Definition reachable : A -> A -> Prop := rtc edge.

#[export] Instance edge_dec f t : Decision (edge f t).
Proof. unfold edge. apply _. Defined.

Lemma successor_name_elem (f t : A) :
  existsb (String.eqb (enum_name t)) (map enum_name (successors f)) = bool_decide (edge f t).
Proof.
  apply eq_bool_prop_intro. rewrite bool_decide_spec, Is_true_true, existsb_exists. split.
  - intros (n & Hn & E%String.eqb_eq). subst n. apply in_map_iff in Hn as (b & E & Hb).
    apply enum_name_inj in E as ->. by apply list_elem_of_In.
  - intros He. exists (enum_name t). rewrite String.eqb_refl. split; [|done].
    by apply in_map, list_elem_of_In.
Qed.

(** On members of the enum the guard decides the edge relation. *)
Lemma assertTransition_names strict entity (f t : A) :
  assertTransition strict entity (enum_name f) (enum_name t)
  = if bool_decide (edge f t /\ (strict = true -> f <> t)) then Ok tt
    else Throw (TransitionError entity (enum_name f) (enum_name t)).
Proof.
  unfold assertTransition. rewrite !includes_name_member, enum_parse_name, successor_name_elem. simpl.
  destruct (decide (f = t)) as [->|Hft].
  - rewrite String.eqb_refl. destruct strict; simpl; repeat case_bool_decide; naive_solver.
  - assert (String.eqb (enum_name f) (enum_name t) = false) as ->.
    { apply String.eqb_neq. by intros ?%enum_name_inj. }
    rewrite andb_false_r. simpl. repeat case_bool_decide; naive_solver.
Qed.

(** The guard accepts exactly the edges of the table, between names of the
    enum; every other pair of strings gets the typed error. *)
Lemma assertTransition_spec strict entity from to :
  (assertTransition strict entity from to = Ok tt
   /\ exists f t, from = enum_name f /\ to = enum_name t /\ edge f t /\ (strict = true -> f <> t))
  \/ (assertTransition strict entity from to = Throw (TransitionError entity from to)
      /\ forall f t, from = enum_name f -> to = enum_name t -> edge f t -> strict = true /\ f = t).
Proof.
  destruct (enum_parse A from) as [f|] eqn:Hf; [apply enum_parse_Some in Hf as ->|].
  - destruct (enum_parse A to) as [t|] eqn:Ht; [apply enum_parse_Some in Ht as ->|].
    + rewrite assertTransition_names. case_bool_decide as Hd; [left; naive_solver|right].
      split; [done|]. intros f' t' ->%enum_name_inj ->%enum_name_inj He.
      destruct strict; [|naive_solver].
      destruct (decide (f' = t')); [done|naive_solver].
    + right. rewrite enum_parse_None in Ht. split; [|naive_solver].
      unfold assertTransition. rewrite includes_name_member, (includes_name_parse to).
      rewrite bool_decide_eq_false_2; [done|]. intros [a ?%enum_parse_Some]. naive_solver.
  - right. rewrite enum_parse_None in Hf. split; [|naive_solver].
    unfold assertTransition. rewrite (includes_name_parse from).
    rewrite bool_decide_eq_false_2; [done|]. intros [a ?%enum_parse_Some]. naive_solver.
Qed.

Lemma assertTransition_Ok strict entity f t :
  assertTransition strict entity (enum_name f) (enum_name t) = Ok tt
  <-> edge f t /\ (strict = true -> f <> t).
Proof. rewrite assertTransition_names. case_bool_decide; naive_solver. Qed.

(** A state without successors is never left. *)
Lemma terminal_absorbing f t : successors f = [] -> reachable f t -> t = f.
Proof.
  intros Hf Hr. inversion Hr as [|? y ? He]; subst; [done|].
  unfold edge in He. rewrite Hf in He. set_solver.
Qed.

(** Rule induction: a set of states closed under the table contains
    everything reachable from it. *)
Lemma reachable_closed (P : A -> Prop) :
  (forall f t, P f -> edge f t -> P t) -> forall f t, P f -> reachable f t -> P t.
Proof. intros Hstep f t Hf Hr. induction Hr; eauto. Qed.
End Guard.
Arguments edge {A _ _ _} f t.
Arguments reachable {A _ _ _} f t.

(** [enum_induction] discharges a closed statement over finitely many states
    by evaluation. *)
Ltac decide_edges := intros []; intros []; unfold edge; simpl; set_solver.
