(* ===== verification/DomainStates.v ===== *)
(** * The lifecycles of packages/domain

    One Module per entity, each with the enum of its [*-states.ts] file, the
    [is*] membership test, the transition table and the guard.  The Modules
    keep the enums apart: several share literals such as [DRAFT] or [QUOTED].
    The file also holds the pure helpers of those files: the release cascade
    and withdrawal test of a lockbox, the provisional expiry of a claim, the
    staleness test and recompute decision of a passport.

    A [Date] is its [getTime()] value, an integer number of milliseconds. *)
From S2P Require Import Prelude Lifecycle.

Module Opportunity.

(** packages/domain/src/opportunity-states.ts *)
Inductive OpportunityStatus : Type :=
| DRAFT
| READINESS_BLOCKED
| MATCH_READY
| INVITED
| QUOTED
| SELECTED
| ACTIVATING
| LIVE
| CLOSED.

#[global] Instance OpportunityStatus_eq_dec : EqDecision OpportunityStatus.
Proof. solve_decision. Defined.

Definition OpportunityStatus_name (x : OpportunityStatus) : string :=
  match x with
  | DRAFT => "DRAFT"
  | READINESS_BLOCKED => "READINESS_BLOCKED"
  | MATCH_READY => "MATCH_READY"
  | INVITED => "INVITED"
  | QUOTED => "QUOTED"
  | SELECTED => "SELECTED"
  | ACTIVATING => "ACTIVATING"
  | LIVE => "LIVE"
  | CLOSED => "CLOSED"
  end%string.

Definition OPPORTUNITY_STATUSES : list OpportunityStatus := [DRAFT; READINESS_BLOCKED; MATCH_READY; INVITED; QUOTED; SELECTED; ACTIVATING; LIVE; CLOSED].

#[global] Instance OpportunityStatus_enum : StringEnum OpportunityStatus.
Proof.
  refine {| enum_values := OPPORTUNITY_STATUSES; enum_name := OpportunityStatus_name |}.
  - solve_enum_complete.
  - solve_enum_inj.
Defined.

Definition isOpportunityStatus (value : string) : bool := includes_name OpportunityStatus value.

Definition OPPORTUNITY_TRANSITIONS (s : OpportunityStatus) : list OpportunityStatus :=
  match s with
  | DRAFT => [READINESS_BLOCKED; MATCH_READY]
  | READINESS_BLOCKED => [DRAFT; MATCH_READY]
  | MATCH_READY => [READINESS_BLOCKED; INVITED]
  | INVITED => [MATCH_READY; QUOTED]
  | QUOTED => [INVITED; SELECTED]
  | SELECTED => [ACTIVATING; QUOTED]
  | ACTIVATING => [LIVE; SELECTED]
  | LIVE => [CLOSED]
  | CLOSED => []
  end.

#[global] Instance OpportunityStatus_lifecycle : Lifecycle OpportunityStatus := {| successors := OPPORTUNITY_TRANSITIONS |}.

Definition assertValidOpportunityTransition (from to : string) : res unit :=
  assertTransition OpportunityStatus true "Opportunity" from to.

End Opportunity.

Module Rfq.

(** packages/domain/src/rfq-states.ts, the RFQ aggregate *)
Inductive RfqStatus : Type :=
| DRAFT
| SENT
| ACKNOWLEDGED
| QUESTIONS
| QUOTED
| EXPIRED
| DECLINED
| SELECTED.

#[global] Instance RfqStatus_eq_dec : EqDecision RfqStatus.
Proof. solve_decision. Defined.

Definition RfqStatus_name (x : RfqStatus) : string :=
  match x with
  | DRAFT => "DRAFT"
  | SENT => "SENT"
  | ACKNOWLEDGED => "ACKNOWLEDGED"
  | QUESTIONS => "QUESTIONS"
  | QUOTED => "QUOTED"
  | EXPIRED => "EXPIRED"
  | DECLINED => "DECLINED"
  | SELECTED => "SELECTED"
  end%string.

Definition RFQ_STATUSES : list RfqStatus := [DRAFT; SENT; ACKNOWLEDGED; QUESTIONS; QUOTED; EXPIRED; DECLINED; SELECTED].

#[global] Instance RfqStatus_enum : StringEnum RfqStatus.
Proof.
  refine {| enum_values := RFQ_STATUSES; enum_name := RfqStatus_name |}.
  - solve_enum_complete.
  - solve_enum_inj.
Defined.

Definition isRfqStatus (value : string) : bool := includes_name RfqStatus value.

Definition RFQ_TRANSITIONS (s : RfqStatus) : list RfqStatus :=
  match s with
  | DRAFT => [SENT]
  | SENT => [ACKNOWLEDGED; QUESTIONS; QUOTED; EXPIRED; DECLINED]
  | ACKNOWLEDGED => [QUESTIONS; QUOTED; EXPIRED; DECLINED]
  | QUESTIONS => [QUOTED; EXPIRED; DECLINED]
  | QUOTED => [SELECTED; QUOTED; EXPIRED; DECLINED]
  | EXPIRED => []
  | DECLINED => []
  | SELECTED => []
  end.

#[global] Instance RfqStatus_lifecycle : Lifecycle RfqStatus := {| successors := RFQ_TRANSITIONS |}.

Definition assertValidRfqTransition (from to : string) : res unit :=
  assertTransition RfqStatus false "RFQ" from to.

End Rfq.

Module RfqRecipient.

(** packages/domain/src/rfq-states.ts, one invited provider *)
Inductive RfqRecipientState : Type :=
| INVITED
| ACKNOWLEDGED
| DECLINED
| QUOTED
| EXPIRED.

#[global] Instance RfqRecipientState_eq_dec : EqDecision RfqRecipientState.
Proof. solve_decision. Defined.

Definition RfqRecipientState_name (x : RfqRecipientState) : string :=
  match x with
  | INVITED => "INVITED"
  | ACKNOWLEDGED => "ACKNOWLEDGED"
  | DECLINED => "DECLINED"
  | QUOTED => "QUOTED"
  | EXPIRED => "EXPIRED"
  end%string.

Definition RFQ_RECIPIENT_STATES : list RfqRecipientState := [INVITED; ACKNOWLEDGED; DECLINED; QUOTED; EXPIRED].

#[global] Instance RfqRecipientState_enum : StringEnum RfqRecipientState.
Proof.
  refine {| enum_values := RFQ_RECIPIENT_STATES; enum_name := RfqRecipientState_name |}.
  - solve_enum_complete.
  - solve_enum_inj.
Defined.

Definition isRfqRecipientState (value : string) : bool := includes_name RfqRecipientState value.

Definition RFQ_RECIPIENT_TRANSITIONS (s : RfqRecipientState) : list RfqRecipientState :=
  match s with
  | INVITED => [ACKNOWLEDGED; DECLINED; QUOTED; EXPIRED]
  | ACKNOWLEDGED => [DECLINED; QUOTED; EXPIRED]
  | DECLINED => []
  | QUOTED => [DECLINED; EXPIRED]
  | EXPIRED => []
  end.

#[global] Instance RfqRecipientState_lifecycle : Lifecycle RfqRecipientState := {| successors := RFQ_RECIPIENT_TRANSITIONS |}.

Definition assertValidRfqRecipientTransition (from to : string) : res unit :=
  assertTransition RfqRecipientState true "RFQRecipient" from to.

End RfqRecipient.

Module Quote.

(** packages/domain/src/rfq-states.ts, one quote version *)
Inductive QuoteStatus : Type :=
| SUBMITTED
| SELECTED
| REJECTED
| EXPIRED
| WITHDRAWN.

#[global] Instance QuoteStatus_eq_dec : EqDecision QuoteStatus.
Proof. solve_decision. Defined.

Definition QuoteStatus_name (x : QuoteStatus) : string :=
  match x with
  | SUBMITTED => "SUBMITTED"
  | SELECTED => "SELECTED"
  | REJECTED => "REJECTED"
  | EXPIRED => "EXPIRED"
  | WITHDRAWN => "WITHDRAWN"
  end%string.

Definition QUOTE_STATUSES : list QuoteStatus := [SUBMITTED; SELECTED; REJECTED; EXPIRED; WITHDRAWN].

#[global] Instance QuoteStatus_enum : StringEnum QuoteStatus.
Proof.
  refine {| enum_values := QUOTE_STATUSES; enum_name := QuoteStatus_name |}.
  - solve_enum_complete.
  - solve_enum_inj.
Defined.

Definition isQuoteStatus (value : string) : bool := includes_name QuoteStatus value.

Definition QUOTE_TRANSITIONS (s : QuoteStatus) : list QuoteStatus :=
  match s with
  | SUBMITTED => [SELECTED; REJECTED; EXPIRED; WITHDRAWN]
  | SELECTED => []
  | REJECTED => []
  | EXPIRED => []
  | WITHDRAWN => []
  end.

#[global] Instance QuoteStatus_lifecycle : Lifecycle QuoteStatus := {| successors := QUOTE_TRANSITIONS |}.

Definition assertValidQuoteTransition (from to : string) : res unit :=
  assertTransition QuoteStatus true "Quote" from to.

End Quote.

Module DealRoom.

(** packages/domain/src/deal-states.ts, the deal room *)
Inductive DealRoomStatus : Type :=
| OPEN
| CONDITIONS
| APPROVED
| DECLINED
| ACTIVATION
| LIVE
| ARCHIVED.

#[global] Instance DealRoomStatus_eq_dec : EqDecision DealRoomStatus.
Proof. solve_decision. Defined.

Definition DealRoomStatus_name (x : DealRoomStatus) : string :=
  match x with
  | OPEN => "OPEN"
  | CONDITIONS => "CONDITIONS"
  | APPROVED => "APPROVED"
  | DECLINED => "DECLINED"
  | ACTIVATION => "ACTIVATION"
  | LIVE => "LIVE"
  | ARCHIVED => "ARCHIVED"
  end%string.

Definition DEAL_ROOM_STATUSES : list DealRoomStatus := [OPEN; CONDITIONS; APPROVED; DECLINED; ACTIVATION; LIVE; ARCHIVED].

#[global] Instance DealRoomStatus_enum : StringEnum DealRoomStatus.
Proof.
  refine {| enum_values := DEAL_ROOM_STATUSES; enum_name := DealRoomStatus_name |}.
  - solve_enum_complete.
  - solve_enum_inj.
Defined.

Definition isDealRoomStatus (value : string) : bool := includes_name DealRoomStatus value.

Definition DEAL_ROOM_TRANSITIONS (s : DealRoomStatus) : list DealRoomStatus :=
  match s with
  | OPEN => [CONDITIONS; APPROVED; DECLINED]
  | CONDITIONS => [APPROVED; DECLINED]
  | APPROVED => [ACTIVATION; DECLINED]
  | DECLINED => []
  | ACTIVATION => [LIVE; DECLINED]
  | LIVE => [ARCHIVED]
  | ARCHIVED => []
  end.

#[global] Instance DealRoomStatus_lifecycle : Lifecycle DealRoomStatus := {| successors := DEAL_ROOM_TRANSITIONS |}.

Definition assertValidDealRoomTransition (from to : string) : res unit :=
  assertTransition DealRoomStatus true "DealRoom" from to.

End DealRoom.

Module DealCondition.

(** packages/domain/src/deal-states.ts, one condition *)
Inductive DealConditionState : Type :=
| PENDING
| SATISFIED
| WAIVED
| REJECTED.

#[global] Instance DealConditionState_eq_dec : EqDecision DealConditionState.
Proof. solve_decision. Defined.

Definition DealConditionState_name (x : DealConditionState) : string :=
  match x with
  | PENDING => "PENDING"
  | SATISFIED => "SATISFIED"
  | WAIVED => "WAIVED"
  | REJECTED => "REJECTED"
  end%string.

Definition DEAL_CONDITION_STATES : list DealConditionState := [PENDING; SATISFIED; WAIVED; REJECTED].

#[global] Instance DealConditionState_enum : StringEnum DealConditionState.
Proof.
  refine {| enum_values := DEAL_CONDITION_STATES; enum_name := DealConditionState_name |}.
  - solve_enum_complete.
  - solve_enum_inj.
Defined.

Definition isDealConditionState (value : string) : bool := includes_name DealConditionState value.

Definition DEAL_CONDITION_TRANSITIONS (s : DealConditionState) : list DealConditionState :=
  match s with
  | PENDING => [SATISFIED; WAIVED; REJECTED]
  | SATISFIED => []
  | WAIVED => []
  | REJECTED => [PENDING]
  end.

#[global] Instance DealConditionState_lifecycle : Lifecycle DealConditionState := {| successors := DEAL_CONDITION_TRANSITIONS |}.

Definition assertValidDealConditionTransition (from to : string) : res unit :=
  assertTransition DealConditionState true "DealCondition" from to.

(** packages/domain/src/deal-states.ts, decision kinds *)
Inductive DealDecisionType : Type :=
| QUOTE_SELECTED
| APPROVAL
| DECLINE
| EXCEPTION.

#[global] Instance DealDecisionType_eq_dec : EqDecision DealDecisionType.
Proof. solve_decision. Defined.

Definition DealDecisionType_name (x : DealDecisionType) : string :=
  match x with
  | QUOTE_SELECTED => "QUOTE_SELECTED"
  | APPROVAL => "APPROVAL"
  | DECLINE => "DECLINE"
  | EXCEPTION => "EXCEPTION"
  end%string.

Definition DEAL_DECISION_TYPES : list DealDecisionType := [QUOTE_SELECTED; APPROVAL; DECLINE; EXCEPTION].

#[global] Instance DealDecisionType_enum : StringEnum DealDecisionType.
Proof.
  refine {| enum_values := DEAL_DECISION_TYPES; enum_name := DealDecisionType_name |}.
  - solve_enum_complete.
  - solve_enum_inj.
Defined.

Definition isDealDecisionType (value : string) : bool := includes_name DealDecisionType value.

End DealCondition.

Module ClaimVocabulary.

(** packages/domain/src/claim-states.ts, directness of a relationship *)
Inductive DirectnessTier : Type :=
| D5
| D4
| D3
| D2
| D1
| D0.

#[global] Instance DirectnessTier_eq_dec : EqDecision DirectnessTier.
Proof. solve_decision. Defined.

Definition DirectnessTier_name (x : DirectnessTier) : string :=
  match x with
  | D5 => "D5"
  | D4 => "D4"
  | D3 => "D3"
  | D2 => "D2"
  | D1 => "D1"
  | D0 => "D0"
  end%string.

Definition DIRECTNESS_TIERS : list DirectnessTier := [D5; D4; D3; D2; D1; D0].

#[global] Instance DirectnessTier_enum : StringEnum DirectnessTier.
Proof.
  refine {| enum_values := DIRECTNESS_TIERS; enum_name := DirectnessTier_name |}.
  - solve_enum_complete.
  - solve_enum_inj.
Defined.

Definition isDirectnessTier (value : string) : bool := includes_name DirectnessTier value.

(** packages/domain/src/claim-states.ts, kinds of evidence *)
Inductive ClaimEvidenceType : Type :=
| CONTRACT
| COUNTERPARTY_ACKNOWLEDGMENT
| EMAIL_THREAD
| CRM_RECORD
| OTHER.

#[global] Instance ClaimEvidenceType_eq_dec : EqDecision ClaimEvidenceType.
Proof. solve_decision. Defined.

Definition ClaimEvidenceType_name (x : ClaimEvidenceType) : string :=
  match x with
  | CONTRACT => "CONTRACT"
  | COUNTERPARTY_ACKNOWLEDGMENT => "COUNTERPARTY_ACKNOWLEDGMENT"
  | EMAIL_THREAD => "EMAIL_THREAD"
  | CRM_RECORD => "CRM_RECORD"
  | OTHER => "OTHER"
  end%string.

Definition CLAIM_EVIDENCE_TYPES : list ClaimEvidenceType := [CONTRACT; COUNTERPARTY_ACKNOWLEDGMENT; EMAIL_THREAD; CRM_RECORD; OTHER].

#[global] Instance ClaimEvidenceType_enum : StringEnum ClaimEvidenceType.
Proof.
  refine {| enum_values := CLAIM_EVIDENCE_TYPES; enum_name := ClaimEvidenceType_name |}.
  - solve_enum_complete.
  - solve_enum_inj.
Defined.

Definition isClaimEvidenceType (value : string) : bool := includes_name ClaimEvidenceType value.

(** packages/domain/src/claim-states.ts, how evidence was verified *)
Inductive EvidenceVerificationState : Type :=
| SELF_REPORTED
| DOCUMENT_EXTRACTED
| API_VERIFIED
| COUNTERPARTY_CONFIRMED
| OPERATOR_VERIFIED.

#[global] Instance EvidenceVerificationState_eq_dec : EqDecision EvidenceVerificationState.
Proof. solve_decision. Defined.

Definition EvidenceVerificationState_name (x : EvidenceVerificationState) : string :=
  match x with
  | SELF_REPORTED => "SELF_REPORTED"
  | DOCUMENT_EXTRACTED => "DOCUMENT_EXTRACTED"
  | API_VERIFIED => "API_VERIFIED"
  | COUNTERPARTY_CONFIRMED => "COUNTERPARTY_CONFIRMED"
  | OPERATOR_VERIFIED => "OPERATOR_VERIFIED"
  end%string.

Definition EVIDENCE_VERIFICATION_STATES : list EvidenceVerificationState := [SELF_REPORTED; DOCUMENT_EXTRACTED; API_VERIFIED; COUNTERPARTY_CONFIRMED; OPERATOR_VERIFIED].

#[global] Instance EvidenceVerificationState_enum : StringEnum EvidenceVerificationState.
Proof.
  refine {| enum_values := EVIDENCE_VERIFICATION_STATES; enum_name := EvidenceVerificationState_name |}.
  - solve_enum_complete.
  - solve_enum_inj.
Defined.

Definition isEvidenceVerificationState (value : string) : bool := includes_name EvidenceVerificationState value.

End ClaimVocabulary.

Module Claim.

(** packages/domain/src/claim-states.ts, the claim *)
Inductive ClaimStatus : Type :=
| FILED
| SCORED
| VERIFIED
| PARTIAL
| DISPUTED
| REJECTED
| EXPIRED
| WITHDRAWN.

#[global] Instance ClaimStatus_eq_dec : EqDecision ClaimStatus.
Proof. solve_decision. Defined.

Definition ClaimStatus_name (x : ClaimStatus) : string :=
  match x with
  | FILED => "FILED"
  | SCORED => "SCORED"
  | VERIFIED => "VERIFIED"
  | PARTIAL => "PARTIAL"
  | DISPUTED => "DISPUTED"
  | REJECTED => "REJECTED"
  | EXPIRED => "EXPIRED"
  | WITHDRAWN => "WITHDRAWN"
  end%string.

Definition CLAIM_STATUSES : list ClaimStatus := [FILED; SCORED; VERIFIED; PARTIAL; DISPUTED; REJECTED; EXPIRED; WITHDRAWN].

#[global] Instance ClaimStatus_enum : StringEnum ClaimStatus.
Proof.
  refine {| enum_values := CLAIM_STATUSES; enum_name := ClaimStatus_name |}.
  - solve_enum_complete.
  - solve_enum_inj.
Defined.

Definition isClaimStatus (value : string) : bool := includes_name ClaimStatus value.

Definition CLAIM_TRANSITIONS (s : ClaimStatus) : list ClaimStatus :=
  match s with
  | FILED => [SCORED; WITHDRAWN]
  | SCORED => [VERIFIED; PARTIAL; REJECTED; DISPUTED; EXPIRED; WITHDRAWN]
  | VERIFIED => [DISPUTED]
  | PARTIAL => [DISPUTED]
  | DISPUTED => [VERIFIED; PARTIAL; REJECTED]
  | REJECTED => []
  | EXPIRED => []
  | WITHDRAWN => []
  end.

#[global] Instance ClaimStatus_lifecycle : Lifecycle ClaimStatus := {| successors := CLAIM_TRANSITIONS |}.

Definition assertValidClaimTransition (from to : string) : res unit :=
  assertTransition ClaimStatus true "Claim" from to.

(** The window of a SCORED claim has lapsed. *)
Definition isClaimProvisionalExpired (status : ClaimStatus) (provisionalExpiresAt : option Z) (now : Z) : bool :=
  if negb (bool_decide (status = SCORED)) then false
  else match provisionalExpiresAt with
       | None => false
       | Some e => e <? now
       end.

End Claim.

Module ClaimDispute.

(** packages/domain/src/claim-states.ts, the dispute *)
Inductive ClaimDisputeStatus : Type :=
| OPEN
| DECIDED.

#[global] Instance ClaimDisputeStatus_eq_dec : EqDecision ClaimDisputeStatus.
Proof. solve_decision. Defined.

Definition ClaimDisputeStatus_name (x : ClaimDisputeStatus) : string :=
  match x with
  | OPEN => "OPEN"
  | DECIDED => "DECIDED"
  end%string.

Definition CLAIM_DISPUTE_STATUSES : list ClaimDisputeStatus := [OPEN; DECIDED].

#[global] Instance ClaimDisputeStatus_enum : StringEnum ClaimDisputeStatus.
Proof.
  refine {| enum_values := CLAIM_DISPUTE_STATUSES; enum_name := ClaimDisputeStatus_name |}.
  - solve_enum_complete.
  - solve_enum_inj.
Defined.

Definition isClaimDisputeStatus (value : string) : bool := includes_name ClaimDisputeStatus value.

Definition CLAIM_DISPUTE_TRANSITIONS (s : ClaimDisputeStatus) : list ClaimDisputeStatus :=
  match s with
  | OPEN => [DECIDED]
  | DECIDED => []
  end.

#[global] Instance ClaimDisputeStatus_lifecycle : Lifecycle ClaimDisputeStatus := {| successors := CLAIM_DISPUTE_TRANSITIONS |}.

Definition assertValidClaimDisputeTransition (from to : string) : res unit :=
  assertTransition ClaimDisputeStatus true "ClaimDispute" from to.

(** packages/domain/src/claim-states.ts, how a dispute closes *)
Inductive ClaimDisputeResolution : Type :=
| UPHELD_ORIGINAL
| PARTIAL_ATTRIBUTION
| REJECTED_ORIGINAL.

#[global] Instance ClaimDisputeResolution_eq_dec : EqDecision ClaimDisputeResolution.
Proof. solve_decision. Defined.

Definition ClaimDisputeResolution_name (x : ClaimDisputeResolution) : string :=
  match x with
  | UPHELD_ORIGINAL => "UPHELD_ORIGINAL"
  | PARTIAL_ATTRIBUTION => "PARTIAL_ATTRIBUTION"
  | REJECTED_ORIGINAL => "REJECTED_ORIGINAL"
  end%string.

Definition CLAIM_DISPUTE_RESOLUTIONS : list ClaimDisputeResolution := [UPHELD_ORIGINAL; PARTIAL_ATTRIBUTION; REJECTED_ORIGINAL].

#[global] Instance ClaimDisputeResolution_enum : StringEnum ClaimDisputeResolution.
Proof.
  refine {| enum_values := CLAIM_DISPUTE_RESOLUTIONS; enum_name := ClaimDisputeResolution_name |}.
  - solve_enum_complete.
  - solve_enum_inj.
Defined.

Definition isClaimDisputeResolution (value : string) : bool := includes_name ClaimDisputeResolution value.

End ClaimDispute.

Module ClaimDecision.

(** packages/domain/src/claim-states.ts, a reviewer's outcome *)
Inductive ClaimDecisionOutcome : Type :=
| VERIFIED
| PARTIAL
| REJECTED.

#[global] Instance ClaimDecisionOutcome_eq_dec : EqDecision ClaimDecisionOutcome.
Proof. solve_decision. Defined.

Definition ClaimDecisionOutcome_name (x : ClaimDecisionOutcome) : string :=
  match x with
  | VERIFIED => "VERIFIED"
  | PARTIAL => "PARTIAL"
  | REJECTED => "REJECTED"
  end%string.

Definition CLAIM_DECISION_OUTCOMES : list ClaimDecisionOutcome := [VERIFIED; PARTIAL; REJECTED].

#[global] Instance ClaimDecisionOutcome_enum : StringEnum ClaimDecisionOutcome.
Proof.
  refine {| enum_values := CLAIM_DECISION_OUTCOMES; enum_name := ClaimDecisionOutcome_name |}.
  - solve_enum_complete.
  - solve_enum_inj.
Defined.

Definition isClaimDecisionOutcome (value : string) : bool := includes_name ClaimDecisionOutcome value.

(** packages/domain/src/claim-states.ts, appeal status *)
Inductive ClaimAppealStatus : Type :=
| NONE
| PENDING
| GRANTED
| DENIED.

#[global] Instance ClaimAppealStatus_eq_dec : EqDecision ClaimAppealStatus.
Proof. solve_decision. Defined.

Definition ClaimAppealStatus_name (x : ClaimAppealStatus) : string :=
  match x with
  | NONE => "NONE"
  | PENDING => "PENDING"
  | GRANTED => "GRANTED"
  | DENIED => "DENIED"
  end%string.

Definition CLAIM_APPEAL_STATUSES : list ClaimAppealStatus := [NONE; PENDING; GRANTED; DENIED].

#[global] Instance ClaimAppealStatus_enum : StringEnum ClaimAppealStatus.
Proof.
  refine {| enum_values := CLAIM_APPEAL_STATUSES; enum_name := ClaimAppealStatus_name |}.
  - solve_enum_complete.
  - solve_enum_inj.
Defined.

Definition isClaimAppealStatus (value : string) : bool := includes_name ClaimAppealStatus value.

End ClaimDecision.

Module Lockbox.

(** packages/domain/src/lockbox-states.ts, the lockbox *)
Inductive LockboxStatus : Type :=
| DRAFT
| SEALED
| COMMITTED
| FROZEN
| OPENED
| MATCH_ELIGIBLE
| WITHDRAWN
| DISPUTED.

#[global] Instance LockboxStatus_eq_dec : EqDecision LockboxStatus.
Proof. solve_decision. Defined.

Definition LockboxStatus_name (x : LockboxStatus) : string :=
  match x with
  | DRAFT => "DRAFT"
  | SEALED => "SEALED"
  | COMMITTED => "COMMITTED"
  | FROZEN => "FROZEN"
  | OPENED => "OPENED"
  | MATCH_ELIGIBLE => "MATCH_ELIGIBLE"
  | WITHDRAWN => "WITHDRAWN"
  | DISPUTED => "DISPUTED"
  end%string.

Definition LOCKBOX_STATUSES : list LockboxStatus := [DRAFT; SEALED; COMMITTED; FROZEN; OPENED; MATCH_ELIGIBLE; WITHDRAWN; DISPUTED].

#[global] Instance LockboxStatus_enum : StringEnum LockboxStatus.
Proof.
  refine {| enum_values := LOCKBOX_STATUSES; enum_name := LockboxStatus_name |}.
  - solve_enum_complete.
  - solve_enum_inj.
Defined.

Definition isLockboxStatus (value : string) : bool := includes_name LockboxStatus value.

Definition LOCKBOX_TRANSITIONS (s : LockboxStatus) : list LockboxStatus :=
  match s with
  | DRAFT => [SEALED]
  | SEALED => [COMMITTED; WITHDRAWN]
  | COMMITTED => [FROZEN; WITHDRAWN; DISPUTED]
  | FROZEN => [OPENED; DISPUTED]
  | OPENED => [MATCH_ELIGIBLE; DISPUTED]
  | MATCH_ELIGIBLE => [WITHDRAWN; DISPUTED]
  | DISPUTED => [FROZEN; WITHDRAWN]
  | WITHDRAWN => []
  end.

#[global] Instance LockboxStatus_lifecycle : Lifecycle LockboxStatus := {| successors := LOCKBOX_TRANSITIONS |}.

Definition assertValidLockboxTransition (from to : string) : res unit :=
  assertTransition LockboxStatus true "Lockbox" from to.

Definition LOCKBOX_RELEASE_CASCADE : list LockboxStatus := [SEALED; COMMITTED; FROZEN; OPENED].

(** [Array.prototype.indexOf]: -1 when absent. *)
Fixpoint index_from (i : Z) (x : string) (l : list string) : Z :=
  match l with
  | [] => -1
  | y :: l' => if String.eqb x y then i else index_from (i + 1) x l'
  end.

(** The loop over the remaining hops: [for (let i = startIdx; i < length - 1; i++)]. *)
Fixpoint assertCascade (hops : list LockboxStatus) : res unit :=
  match hops with
  | a :: (b :: _) as tl =>
      do! assertValidLockboxTransition (LockboxStatus_name a) (LockboxStatus_name b);
      assertCascade tl
  | _ => Ok tt
  end.

Definition assertValidLockboxReleaseCascade (currentStatus : string) : res unit :=
  let startIdx := index_from 0 currentStatus (map LockboxStatus_name LOCKBOX_RELEASE_CASCADE) in
  if startIdx =? Z.of_nat (length LOCKBOX_RELEASE_CASCADE) - 1 then
    Throw (TransitionError "Lockbox" currentStatus "OPENED (already released)")
  else if startIdx =? -1 then
    Throw (TransitionError "Lockbox" currentStatus "OPENED (via release cascade)")
  else assertCascade (drop (Z.to_nat startIdx) LOCKBOX_RELEASE_CASCADE).

Definition canWithdrawFrom (status : LockboxStatus) : bool :=
  bool_decide (WITHDRAWN ∈ LOCKBOX_TRANSITIONS status).

(** packages/domain/src/lockbox-states.ts, the key custodians *)
Inductive LockboxShareRole : Type :=
| SEALER
| OPERATOR
| ESCROW.

#[global] Instance LockboxShareRole_eq_dec : EqDecision LockboxShareRole.
Proof. solve_decision. Defined.

Definition LockboxShareRole_name (x : LockboxShareRole) : string :=
  match x with
  | SEALER => "SEALER"
  | OPERATOR => "OPERATOR"
  | ESCROW => "ESCROW"
  end%string.

Definition LOCKBOX_SHARE_ROLES : list LockboxShareRole := [SEALER; OPERATOR; ESCROW].

#[global] Instance LockboxShareRole_enum : StringEnum LockboxShareRole.
Proof.
  refine {| enum_values := LOCKBOX_SHARE_ROLES; enum_name := LockboxShareRole_name |}.
  - solve_enum_complete.
  - solve_enum_inj.
Defined.

Definition isLockboxShareRole (value : string) : bool := includes_name LockboxShareRole value.

(** packages/domain/src/lockbox-states.ts, what is sealed *)
Inductive LockboxRelationshipType : Type :=
| ACQUIRER_RELATIONSHIP
| PROCESSOR_RELATIONSHIP
| PSP_RELATIONSHIP
| MERCHANT_RELATIONSHIP
| BANKING_RELATIONSHIP
| INFRASTRUCTURE_RELATIONSHIP
| QUALIFIED_OPPORTUNITY.

#[global] Instance LockboxRelationshipType_eq_dec : EqDecision LockboxRelationshipType.
Proof. solve_decision. Defined.

Definition LockboxRelationshipType_name (x : LockboxRelationshipType) : string :=
  match x with
  | ACQUIRER_RELATIONSHIP => "ACQUIRER_RELATIONSHIP"
  | PROCESSOR_RELATIONSHIP => "PROCESSOR_RELATIONSHIP"
  | PSP_RELATIONSHIP => "PSP_RELATIONSHIP"
  | MERCHANT_RELATIONSHIP => "MERCHANT_RELATIONSHIP"
  | BANKING_RELATIONSHIP => "BANKING_RELATIONSHIP"
  | INFRASTRUCTURE_RELATIONSHIP => "INFRASTRUCTURE_RELATIONSHIP"
  | QUALIFIED_OPPORTUNITY => "QUALIFIED_OPPORTUNITY"
  end%string.

Definition LOCKBOX_RELATIONSHIP_TYPES : list LockboxRelationshipType := [ACQUIRER_RELATIONSHIP; PROCESSOR_RELATIONSHIP; PSP_RELATIONSHIP; MERCHANT_RELATIONSHIP; BANKING_RELATIONSHIP; INFRASTRUCTURE_RELATIONSHIP; QUALIFIED_OPPORTUNITY].

#[global] Instance LockboxRelationshipType_enum : StringEnum LockboxRelationshipType.
Proof.
  refine {| enum_values := LOCKBOX_RELATIONSHIP_TYPES; enum_name := LockboxRelationshipType_name |}.
  - solve_enum_complete.
  - solve_enum_inj.
Defined.

Definition isLockboxRelationshipType (value : string) : bool := includes_name LockboxRelationshipType value.

(** packages/domain/src/lockbox-states.ts, macro-regions *)
Inductive LockboxRegion : Type :=
| EU
| UK
| US
| LATAM
| APAC
| MENA
| GLOBAL.

#[global] Instance LockboxRegion_eq_dec : EqDecision LockboxRegion.
Proof. solve_decision. Defined.

Definition LockboxRegion_name (x : LockboxRegion) : string :=
  match x with
  | EU => "EU"
  | UK => "UK"
  | US => "US"
  | LATAM => "LATAM"
  | APAC => "APAC"
  | MENA => "MENA"
  | GLOBAL => "GLOBAL"
  end%string.

Definition LOCKBOX_REGIONS : list LockboxRegion := [EU; UK; US; LATAM; APAC; MENA; GLOBAL].

#[global] Instance LockboxRegion_enum : StringEnum LockboxRegion.
Proof.
  refine {| enum_values := LOCKBOX_REGIONS; enum_name := LockboxRegion_name |}.
  - solve_enum_complete.
  - solve_enum_inj.
Defined.

Definition isLockboxRegion (value : string) : bool := includes_name LockboxRegion value.

End Lockbox.

Module Passport.

(** packages/domain/src/passport-states.ts, the passport *)
Inductive PassportStatus : Type :=
| DRAFT
| INCOMPLETE
| READY
| VERIFIED
| STALE
| SUSPENDED.

#[global] Instance PassportStatus_eq_dec : EqDecision PassportStatus.
Proof. solve_decision. Defined.

Definition PassportStatus_name (x : PassportStatus) : string :=
  match x with
  | DRAFT => "DRAFT"
  | INCOMPLETE => "INCOMPLETE"
  | READY => "READY"
  | VERIFIED => "VERIFIED"
  | STALE => "STALE"
  | SUSPENDED => "SUSPENDED"
  end%string.

Definition PASSPORT_STATUSES : list PassportStatus := [DRAFT; INCOMPLETE; READY; VERIFIED; STALE; SUSPENDED].

#[global] Instance PassportStatus_enum : StringEnum PassportStatus.
Proof.
  refine {| enum_values := PASSPORT_STATUSES; enum_name := PassportStatus_name |}.
  - solve_enum_complete.
  - solve_enum_inj.
Defined.

Definition isPassportStatus (value : string) : bool := includes_name PassportStatus value.

Definition PASSPORT_TRANSITIONS (s : PassportStatus) : list PassportStatus :=
  match s with
  | DRAFT => [INCOMPLETE; READY; SUSPENDED]
  | INCOMPLETE => [READY; SUSPENDED]
  | READY => [INCOMPLETE; VERIFIED; STALE; SUSPENDED]
  | VERIFIED => [INCOMPLETE; READY; STALE; SUSPENDED]
  | STALE => [INCOMPLETE; READY; VERIFIED; SUSPENDED]
  | SUSPENDED => [INCOMPLETE]
  end.

#[global] Instance PassportStatus_lifecycle : Lifecycle PassportStatus := {| successors := PASSPORT_TRANSITIONS |}.

Definition assertValidPassportTransition (from to : string) : res unit :=
  assertTransition PassportStatus true "Passport" from to.

Definition MS_PER_DAY : Z := 24 * 60 * 60 * 1000.

(** [maxAgeDays] is an integer number of days, as every caller passes it. *)
Definition isPassportReadinessStale (status : PassportStatus) (lastComputedAt : option Z) (now maxAgeDays : Z) : res bool :=
  if maxAgeDays <=? 0 then Throw (TypeError "isPassportReadinessStale: maxAgeDays must be a positive, finite number")
  else if negb (bool_decide (status = READY)) && negb (bool_decide (status = VERIFIED)) then Ok false
  else match lastComputedAt with
       | None => Ok false
       | Some t => Ok (maxAgeDays * MS_PER_DAY <? now - t)
       end.

Definition targetStatusAfterRecompute (current : PassportStatus) (hasFacts blocked : bool) : PassportStatus :=
  if bool_decide (current = SUSPENDED) then current
  else if blocked then
    if bool_decide (current = DRAFT) && negb hasFacts then DRAFT else INCOMPLETE
  else if bool_decide (current = VERIFIED) then VERIFIED
  else READY.

End Passport.

Module Freshness.

(** packages/domain/src/passport-states.ts, freshness vocabulary *)
Inductive FreshnessClass : Type :=
| FRESH
| AGING
| STALE
| UNKNOWN.

#[global] Instance FreshnessClass_eq_dec : EqDecision FreshnessClass.
Proof. solve_decision. Defined.

Definition FreshnessClass_name (x : FreshnessClass) : string :=
  match x with
  | FRESH => "FRESH"
  | AGING => "AGING"
  | STALE => "STALE"
  | UNKNOWN => "UNKNOWN"
  end%string.

Definition FRESHNESS_CLASSES : list FreshnessClass := [FRESH; AGING; STALE; UNKNOWN].

#[global] Instance FreshnessClass_enum : StringEnum FreshnessClass.
Proof.
  refine {| enum_values := FRESHNESS_CLASSES; enum_name := FreshnessClass_name |}.
  - solve_enum_complete.
  - solve_enum_inj.
Defined.

Definition isFreshnessClass (value : string) : bool := includes_name FreshnessClass value.

End Freshness.

Module Provenance.

(** packages/domain/src/passport-states.ts, provenance vocabulary *)
Inductive FactProvenance : Type :=
| SELF_REPORTED
| DOCUMENT_EXTRACTED
| API_VERIFIED
| COUNTERPARTY_CONFIRMED
| OPERATOR_VERIFIED
| OUTCOME_LEARNED
| INFERRED.

#[global] Instance FactProvenance_eq_dec : EqDecision FactProvenance.
Proof. solve_decision. Defined.

Definition FactProvenance_name (x : FactProvenance) : string :=
  match x with
  | SELF_REPORTED => "SELF_REPORTED"
  | DOCUMENT_EXTRACTED => "DOCUMENT_EXTRACTED"
  | API_VERIFIED => "API_VERIFIED"
  | COUNTERPARTY_CONFIRMED => "COUNTERPARTY_CONFIRMED"
  | OPERATOR_VERIFIED => "OPERATOR_VERIFIED"
  | OUTCOME_LEARNED => "OUTCOME_LEARNED"
  | INFERRED => "INFERRED"
  end%string.

Definition FACT_PROVENANCE_STATES : list FactProvenance := [SELF_REPORTED; DOCUMENT_EXTRACTED; API_VERIFIED; COUNTERPARTY_CONFIRMED; OPERATOR_VERIFIED; OUTCOME_LEARNED; INFERRED].

#[global] Instance FactProvenance_enum : StringEnum FactProvenance.
Proof.
  refine {| enum_values := FACT_PROVENANCE_STATES; enum_name := FactProvenance_name |}.
  - solve_enum_complete.
  - solve_enum_inj.
Defined.

Definition isFactProvenance (value : string) : bool := includes_name FactProvenance value.

(** packages/domain/src/passport-states.ts, sections *)
Inductive PassportSectionType : Type :=
| IDENTITY
| RELATIONSHIP_HISTORY
| PROCESSING_METRICS
| RISK
| COMMERCIAL
| TECHNICAL.

#[global] Instance PassportSectionType_eq_dec : EqDecision PassportSectionType.
Proof. solve_decision. Defined.

Definition PassportSectionType_name (x : PassportSectionType) : string :=
  match x with
  | IDENTITY => "IDENTITY"
  | RELATIONSHIP_HISTORY => "RELATIONSHIP_HISTORY"
  | PROCESSING_METRICS => "PROCESSING_METRICS"
  | RISK => "RISK"
  | COMMERCIAL => "COMMERCIAL"
  | TECHNICAL => "TECHNICAL"
  end%string.

Definition PASSPORT_SECTION_TYPES : list PassportSectionType := [IDENTITY; RELATIONSHIP_HISTORY; PROCESSING_METRICS; RISK; COMMERCIAL; TECHNICAL].

#[global] Instance PassportSectionType_enum : StringEnum PassportSectionType.
Proof.
  refine {| enum_values := PASSPORT_SECTION_TYPES; enum_name := PassportSectionType_name |}.
  - solve_enum_complete.
  - solve_enum_inj.
Defined.

Definition isPassportSectionType (value : string) : bool := includes_name PassportSectionType value.

End Provenance.

Module Schedule.

(** packages/domain/src/economics-states.ts, a schedule version *)
Inductive CommissionScheduleStatus : Type :=
| DRAFT
| ACTIVE
| SUPERSEDED
| RETIRED.

#[global] Instance CommissionScheduleStatus_eq_dec : EqDecision CommissionScheduleStatus.
Proof. solve_decision. Defined.

Definition CommissionScheduleStatus_name (x : CommissionScheduleStatus) : string :=
  match x with
  | DRAFT => "DRAFT"
  | ACTIVE => "ACTIVE"
  | SUPERSEDED => "SUPERSEDED"
  | RETIRED => "RETIRED"
  end%string.

Definition COMMISSION_SCHEDULE_STATUSES : list CommissionScheduleStatus := [DRAFT; ACTIVE; SUPERSEDED; RETIRED].

#[global] Instance CommissionScheduleStatus_enum : StringEnum CommissionScheduleStatus.
Proof.
  refine {| enum_values := COMMISSION_SCHEDULE_STATUSES; enum_name := CommissionScheduleStatus_name |}.
  - solve_enum_complete.
  - solve_enum_inj.
Defined.

Definition isCommissionScheduleStatus (value : string) : bool := includes_name CommissionScheduleStatus value.

Definition COMMISSION_SCHEDULE_TRANSITIONS (s : CommissionScheduleStatus) : list CommissionScheduleStatus :=
  match s with
  | DRAFT => [ACTIVE; RETIRED]
  | ACTIVE => [SUPERSEDED; RETIRED]
  | SUPERSEDED => []
  | RETIRED => []
  end.

#[global] Instance CommissionScheduleStatus_lifecycle : Lifecycle CommissionScheduleStatus := {| successors := COMMISSION_SCHEDULE_TRANSITIONS |}.

Definition assertValidCommissionScheduleTransition (from to : string) : res unit :=
  assertTransition CommissionScheduleStatus true "CommissionSchedule" from to.

(** packages/domain/src/economics-states.ts, the calculation basis *)
Inductive CommissionBasis : Type :=
| GROSS_PROCESSING_VOLUME
| NET_PLATFORM_REVENUE
| RECEIVED_COMMISSION
| FIXED_FEE
| SETUP_FEE
| OTHER.

#[global] Instance CommissionBasis_eq_dec : EqDecision CommissionBasis.
Proof. solve_decision. Defined.

Definition CommissionBasis_name (x : CommissionBasis) : string :=
  match x with
  | GROSS_PROCESSING_VOLUME => "GROSS_PROCESSING_VOLUME"
  | NET_PLATFORM_REVENUE => "NET_PLATFORM_REVENUE"
  | RECEIVED_COMMISSION => "RECEIVED_COMMISSION"
  | FIXED_FEE => "FIXED_FEE"
  | SETUP_FEE => "SETUP_FEE"
  | OTHER => "OTHER"
  end%string.

Definition COMMISSION_BASIS_VALUES : list CommissionBasis := [GROSS_PROCESSING_VOLUME; NET_PLATFORM_REVENUE; RECEIVED_COMMISSION; FIXED_FEE; SETUP_FEE; OTHER].

#[global] Instance CommissionBasis_enum : StringEnum CommissionBasis.
Proof.
  refine {| enum_values := COMMISSION_BASIS_VALUES; enum_name := CommissionBasis_name |}.
  - solve_enum_complete.
  - solve_enum_inj.
Defined.

Definition isCommissionBasis (value : string) : bool := includes_name CommissionBasis value.

End Schedule.

Module Recipient.

(** packages/domain/src/economics-states.ts *)
Inductive CommissionRecipientType : Type :=
| CONTRIBUTOR
| PLATFORM
| OTHER.

#[global] Instance CommissionRecipientType_eq_dec : EqDecision CommissionRecipientType.
Proof. solve_decision. Defined.

Definition CommissionRecipientType_name (x : CommissionRecipientType) : string :=
  match x with
  | CONTRIBUTOR => "CONTRIBUTOR"
  | PLATFORM => "PLATFORM"
  | OTHER => "OTHER"
  end%string.

Definition COMMISSION_RECIPIENT_TYPES : list CommissionRecipientType := [CONTRIBUTOR; PLATFORM; OTHER].

#[global] Instance CommissionRecipientType_enum : StringEnum CommissionRecipientType.
Proof.
  refine {| enum_values := COMMISSION_RECIPIENT_TYPES; enum_name := CommissionRecipientType_name |}.
  - solve_enum_complete.
  - solve_enum_inj.
Defined.

Definition isCommissionRecipientType (value : string) : bool := includes_name CommissionRecipientType value.

End Recipient.

Module Ledger.

(** packages/domain/src/economics-states.ts *)
Inductive CommissionComponentType : Type :=
| PERCENTAGE_BPS
| FIXED_AMOUNT.

#[global] Instance CommissionComponentType_eq_dec : EqDecision CommissionComponentType.
Proof. solve_decision. Defined.

Definition CommissionComponentType_name (x : CommissionComponentType) : string :=
  match x with
  | PERCENTAGE_BPS => "PERCENTAGE_BPS"
  | FIXED_AMOUNT => "FIXED_AMOUNT"
  end%string.

Definition COMMISSION_COMPONENT_TYPES : list CommissionComponentType := [PERCENTAGE_BPS; FIXED_AMOUNT].

#[global] Instance CommissionComponentType_enum : StringEnum CommissionComponentType.
Proof.
  refine {| enum_values := COMMISSION_COMPONENT_TYPES; enum_name := CommissionComponentType_name |}.
  - solve_enum_complete.
  - solve_enum_inj.
Defined.

Definition isCommissionComponentType (value : string) : bool := includes_name CommissionComponentType value.

(** packages/domain/src/economics-states.ts *)
Inductive LedgerEntryType : Type :=
| ACCRUAL
| ADJUSTMENT
| PAYMENT
| REVERSAL.

#[global] Instance LedgerEntryType_eq_dec : EqDecision LedgerEntryType.
Proof. solve_decision. Defined.

Definition LedgerEntryType_name (x : LedgerEntryType) : string :=
  match x with
  | ACCRUAL => "ACCRUAL"
  | ADJUSTMENT => "ADJUSTMENT"
  | PAYMENT => "PAYMENT"
  | REVERSAL => "REVERSAL"
  end%string.

Definition LEDGER_ENTRY_TYPES : list LedgerEntryType := [ACCRUAL; ADJUSTMENT; PAYMENT; REVERSAL].

#[global] Instance LedgerEntryType_enum : StringEnum LedgerEntryType.
Proof.
  refine {| enum_values := LEDGER_ENTRY_TYPES; enum_name := LedgerEntryType_name |}.
  - solve_enum_complete.
  - solve_enum_inj.
Defined.

Definition isLedgerEntryType (value : string) : bool := includes_name LedgerEntryType value.

(** packages/domain/src/economics-states.ts *)
Inductive LedgerDirection : Type :=
| CREDIT
| DEBIT.

#[global] Instance LedgerDirection_eq_dec : EqDecision LedgerDirection.
Proof. solve_decision. Defined.

Definition LedgerDirection_name (x : LedgerDirection) : string :=
  match x with
  | CREDIT => "CREDIT"
  | DEBIT => "DEBIT"
  end%string.

Definition LEDGER_DIRECTIONS : list LedgerDirection := [CREDIT; DEBIT].

#[global] Instance LedgerDirection_enum : StringEnum LedgerDirection.
Proof.
  refine {| enum_values := LEDGER_DIRECTIONS; enum_name := LedgerDirection_name |}.
  - solve_enum_complete.
  - solve_enum_inj.
Defined.

Definition isLedgerDirection (value : string) : bool := includes_name LedgerDirection value.

(** packages/domain/src/economics-states.ts *)
Inductive AccrualDerivedStatus : Type :=
| ACCRUED
| ADJUSTED
| PARTIALLY_PAID
| PAID
| REVERSED.

#[global] Instance AccrualDerivedStatus_eq_dec : EqDecision AccrualDerivedStatus.
Proof. solve_decision. Defined.

Definition AccrualDerivedStatus_name (x : AccrualDerivedStatus) : string :=
  match x with
  | ACCRUED => "ACCRUED"
  | ADJUSTED => "ADJUSTED"
  | PARTIALLY_PAID => "PARTIALLY_PAID"
  | PAID => "PAID"
  | REVERSED => "REVERSED"
  end%string.

Definition ACCRUAL_DERIVED_STATUSES : list AccrualDerivedStatus := [ACCRUED; ADJUSTED; PARTIALLY_PAID; PAID; REVERSED].

#[global] Instance AccrualDerivedStatus_enum : StringEnum AccrualDerivedStatus.
Proof.
  refine {| enum_values := ACCRUAL_DERIVED_STATUSES; enum_name := AccrualDerivedStatus_name |}.
  - solve_enum_complete.
  - solve_enum_inj.
Defined.

Definition isAccrualDerivedStatus (value : string) : bool := includes_name AccrualDerivedStatus value.

End Ledger.

(** * What the lifecycles of packages/domain guarantee

    Properties of the guards and tables of DomainStates: the guards are exact
    and total on strings, terminal states absorb, a withdrawn lockbox is never
    opened, the release cascade follows the table, a recomputed passport only
    takes legal edges. *)

(** A guard with the enum and the step relation it is meant to decide. *)
Record Guard : Type := mkGuard {
  guard_state : Type;
  guard_name : guard_state -> string;
  guard_edge : guard_state -> guard_state -> Prop;
  guard_entity : string;
  guard_assert : string -> string -> res unit
}.

Definition all_guards : list Guard := [
  mkGuard _ Opportunity.OpportunityStatus_name edge "Opportunity" Opportunity.assertValidOpportunityTransition;
  mkGuard _ Rfq.RfqStatus_name edge "RFQ" Rfq.assertValidRfqTransition;
  mkGuard _ RfqRecipient.RfqRecipientState_name edge "RFQRecipient" RfqRecipient.assertValidRfqRecipientTransition;
  mkGuard _ Quote.QuoteStatus_name edge "Quote" Quote.assertValidQuoteTransition;
  mkGuard _ DealRoom.DealRoomStatus_name edge "DealRoom" DealRoom.assertValidDealRoomTransition;
  mkGuard _ DealCondition.DealConditionState_name edge "DealCondition" DealCondition.assertValidDealConditionTransition;
  mkGuard _ Claim.ClaimStatus_name edge "Claim" Claim.assertValidClaimTransition;
  mkGuard _ ClaimDispute.ClaimDisputeStatus_name edge "ClaimDispute" ClaimDispute.assertValidClaimDisputeTransition;
  mkGuard _ Lockbox.LockboxStatus_name edge "Lockbox" Lockbox.assertValidLockboxTransition;
  mkGuard _ Passport.PassportStatus_name edge "Passport" Passport.assertValidPassportTransition;
  mkGuard _ Schedule.CommissionScheduleStatus_name edge "CommissionSchedule" Schedule.assertValidCommissionScheduleTransition
]%string.

(** Exactness of one guard on arbitrary strings. *)
Definition guard_exact (g : Guard) : Prop :=
  forall from to,
    (guard_assert g from to = Ok tt
     /\ exists f t, from = guard_name g f /\ to = guard_name g t /\ guard_edge g f t)
    \/ (guard_assert g from to = Throw (TransitionError (guard_entity g) from to)
        /\ ~ exists f t, from = guard_name g f /\ to = guard_name g t /\ guard_edge g f t).

(** A table without self-loops loses nothing by the same-state check. *)
Lemma strict_guard_exact {A} `{Lifecycle A} entity from to :
  (forall a : A, ~ edge a a) ->
  (assertTransition A true entity from to = Ok tt
   /\ exists f t, from = enum_name f /\ to = enum_name t /\ edge f t)
  \/ (assertTransition A true entity from to = Throw (TransitionError entity from to)
      /\ ~ exists f t, from = enum_name f /\ to = enum_name t /\ edge f t).
Proof.
  intros Hirr. destruct (assertTransition_spec A true entity from to) as [[-> ?]|[-> Hno]]; [left; naive_solver|].
  right. split; [done|]. intros (f & t & Hf & Ht & He).
  destruct (Hno f t Hf Ht He) as [_ ->]. by eapply Hirr.
Qed.

Lemma loose_guard_exact {A} `{Lifecycle A} entity from to :
  (assertTransition A false entity from to = Ok tt
   /\ exists f t, from = enum_name f /\ to = enum_name t /\ edge f t)
  \/ (assertTransition A false entity from to = Throw (TransitionError entity from to)
      /\ ~ exists f t, from = enum_name f /\ to = enum_name t /\ edge f t).
Proof.
  destruct (assertTransition_spec A false entity from to) as [[-> ?]|[-> Hno]]; [left; naive_solver|].
  right. split; [done|]. intros (f & t & Hf & Ht & He). by destruct (Hno f t Hf Ht He).
Qed.

Ltac solve_guard :=
  lazymatch goal with
  | |- guard_exact (mkGuard ?A _ _ ?entity _) =>
      intros from to;
      first [ refine (strict_guard_exact (A := A) entity from to _);
              intros []; unfold edge; simpl; set_solver
            | exact (loose_guard_exact (A := A) entity from to) ]
  end.

(** Every transition guard of the domain accepts exactly the pairs of
    names joined by an edge of its table.  On any other pair of strings,
    including strings outside the enum, it throws the typed transition error
    carrying both strings, never a raw TypeError. *)
Theorem transition_guards_exact : Forall guard_exact all_guards.
Proof. unfold all_guards. repeat (apply Forall_cons; split; [solve_guard|]). constructor. Qed.

(** ** Lockbox *)

Import Lockbox.

Lemma lockbox_opened_only_from_frozen f : edge f OPENED -> f = FROZEN.
Proof. destruct f; unfold edge; simpl; set_solver. Qed.

(** Once withdrawn a lockbox stays withdrawn, so it is never opened; a
    frozen lockbox cannot be withdrawn; a lockbox is opened only from FROZEN;
    and the withdrawal test agrees with the table: it holds exactly in SEALED,
    COMMITTED, MATCH_ELIGIBLE and DISPUTED. *)
Theorem lockbox_lifecycle_safety :
  (forall t, reachable WITHDRAWN t -> t = WITHDRAWN)
  /\ ~ edge FROZEN WITHDRAWN
  /\ (forall f, edge f OPENED -> f = FROZEN)
  /\ (forall s, canWithdrawFrom s = true <-> edge s WITHDRAWN)
  /\ (forall s, canWithdrawFrom s = true <-> s ∈ [SEALED; COMMITTED; MATCH_ELIGIBLE; DISPUTED]).
Proof.
  split_and!.
  - intros t. by apply terminal_absorbing.
  - unfold edge; simpl. set_solver.
  - apply lockbox_opened_only_from_frozen.
  - intros s. unfold canWithdrawFrom, edge. by rewrite bool_decide_eq_true.
  - intros []; unfold canWithdrawFrom; rewrite bool_decide_eq_true; simpl; set_solver.
Qed.

(** The release cascade accepts exactly the statuses SEALED, COMMITTED and
    FROZEN, each of which reaches OPENED through the table's own edges, and
    refuses every other string (a status already OPENED and a string outside
    the enum included) with the transition error. *)
Theorem release_cascade_exact (current : string) :
  (assertValidLockboxReleaseCascade current = Ok tt
   <-> exists s, current = LockboxStatus_name s /\ s ∈ [SEALED; COMMITTED; FROZEN] /\ reachable s OPENED)
  /\ (assertValidLockboxReleaseCascade current <> Ok tt ->
      exists to, assertValidLockboxReleaseCascade current = Throw (TransitionError "Lockbox" current to)).
Proof.
  assert (reachable FROZEN OPENED) as Hf by (apply rtc_once; unfold edge; simpl; set_solver).
  assert (reachable COMMITTED OPENED) as Hc by (eapply rtc_l; [|exact Hf]; unfold edge; simpl; set_solver).
  assert (reachable SEALED OPENED) as Hs by (eapply rtc_l; [|exact Hc]; unfold edge; simpl; set_solver).
  unfold assertValidLockboxReleaseCascade. simpl.
  destruct (String.eqb_spec current "SEALED") as [->|N1];
    [split; [|done]; split; [intros _; exists SEALED; set_solver|done]|].
  destruct (String.eqb_spec current "COMMITTED") as [->|N2];
    [split; [|done]; split; [intros _; exists COMMITTED; set_solver|done]|].
  destruct (String.eqb_spec current "FROZEN") as [->|N3];
    [split; [|done]; split; [intros _; exists FROZEN; set_solver|done]|].
  assert (~ exists s, current = LockboxStatus_name s /\ s ∈ [SEALED; COMMITTED; FROZEN] /\ reachable s OPENED) as Hno.
  { intros (s & -> & Hin & _). rewrite !elem_of_cons in Hin.
    destruct Hin as [->|[->|[->|Hin]]]; [done|done|done|set_solver]. }
  destruct (String.eqb_spec current "OPENED") as [->|N4]; simpl; (split; [|eauto]); by split.
Qed.

(** ** Claim *)

(** A claim is decided only from SCORED or DISPUTED; REJECTED, EXPIRED and
    WITHDRAWN are final; a verified or partial claim can only be reopened
    through DISPUTED; and nothing returns to FILED. *)
Theorem claim_lifecycle_safety :
  (forall f t, edge f t -> t ∈ [Claim.VERIFIED; Claim.PARTIAL; Claim.REJECTED] -> f = Claim.SCORED \/ f = Claim.DISPUTED)
  /\ (forall f t, f ∈ [Claim.REJECTED; Claim.EXPIRED; Claim.WITHDRAWN] -> reachable f t -> t = f)
  /\ (forall f t, f = Claim.VERIFIED \/ f = Claim.PARTIAL -> edge f t -> t = Claim.DISPUTED)
  /\ (forall f t, f <> Claim.FILED -> reachable f t -> t <> Claim.FILED).
Proof.
  split_and!.
  - intros [] []; unfold edge; simpl; set_solver.
  - intros f t Hf. apply terminal_absorbing. destruct f; simpl; set_solver.
  - intros f []; unfold edge; intros [->| ->]; simpl; set_solver.
  - intros f t Hf. apply (reachable_closed _ (fun s => s <> Claim.FILED)); [|done].
    intros [] []; unfold edge; simpl; set_solver.
Qed.

Lemma claim_lifecycle_safety_witness :
  Claim.SCORED = Claim.SCORED \/ Claim.SCORED = Claim.DISPUTED.
Proof.
  apply (proj1 claim_lifecycle_safety Claim.SCORED Claim.VERIFIED);
    [unfold edge; simpl; set_solver | set_solver].
Defined.

(** ** Passport *)

(** The status a readiness recompute chooses is the current one or a legal
    successor of it, a suspended passport stays suspended, a blocked passport
    is never left READY or VERIFIED, and recomputing with the same facts again
    changes nothing. *)
Theorem passport_recompute_legal (current : Passport.PassportStatus) (hasFacts blocked : bool) :
  let target := Passport.targetStatusAfterRecompute current hasFacts blocked in
  (target = current \/ edge current target)
  /\ (current = Passport.SUSPENDED <-> target = Passport.SUSPENDED)
  /\ ~ (blocked = true /\ (target = Passport.READY \/ target = Passport.VERIFIED))
  /\ Passport.targetStatusAfterRecompute target hasFacts blocked = target.
Proof.
  destruct current, hasFacts, blocked; unfold Passport.targetStatusAfterRecompute, edge; simpl;
    split_and!; set_solver.
Qed.
