(* ===== verification/JsNumber.v ===== *)
(** * JavaScript numbers

    A [number] is an IEEE 754 binary64 value.  The model is the [spec_float]
    of Corelib, the executable specification of binary64 arithmetic, so that
    every [+], [*], [/] of the scoring engines rounds as the code does.

    Every finite binary64 value is an integer multiple of 2^-1074;
    [num_scaled] is that integer.  It gives the exact value of a number
    without real numbers, and the comparison operators are proved to be the
    comparison of exact values. *)
From S2P Require Import Prelude.
From Stdlib Require Export SpecFloat.

Abbreviation jsnum := spec_float.

Definition prec64 : Z := 53.
Definition emax64 : Z := 1024.

Definition num_valid (x : jsnum) : bool := valid_binary prec64 emax64 x.

(** Conversion of an integer, [Number(z)]: round to nearest, ties to even. *)
Definition num_of_Z (z : Z) : jsnum := binary_normalize prec64 emax64 z 0 false.

Definition nadd (x y : jsnum) : jsnum := SFadd prec64 emax64 x y.
Definition nsub (x y : jsnum) : jsnum := SFsub prec64 emax64 x y.
Definition nmul (x y : jsnum) : jsnum := SFmul prec64 emax64 x y.
Definition ndiv (x y : jsnum) : jsnum := SFdiv prec64 emax64 x y.
Definition nlt (x y : jsnum) : bool := SFltb x y.
Definition nle (x y : jsnum) : bool := SFleb x y.
Definition neq (x y : jsnum) : bool := SFeqb x y.

(** A decimal literal [n / 10^k] of the source: numerator and denominator are
    exact, so the quotient is the binary64 nearest the decimal. *)
Definition num_lit (n d : Z) : jsnum := ndiv (num_of_Z n) (num_of_Z d).

Definition nzero : jsnum := S754_zero false.

(** [Number.isFinite], [Number.isNaN], [Number.isInteger] *)
Definition num_isFinite (x : jsnum) : bool :=
  match x with S754_zero _ | S754_finite _ _ _ => true | _ => false end.

Definition num_isNaN (x : jsnum) : bool :=
  match x with S754_nan => true | _ => false end.

Definition num_isInteger (x : jsnum) : bool :=
  match x with
  | S754_zero _ => true
  | S754_finite _ m e => (0 <=? e) || (Z.pos m mod 2 ^ (- e) =? 0)
  | _ => false
  end.

(** [Math.min], [Math.max]: NaN is contagious and -0 is below +0. *)
Definition math_min (x y : jsnum) : jsnum :=
  if num_isNaN x || num_isNaN y then S754_nan
  else match SFcompare x y with
       | Some Gt => y
       | Some Eq => match x, y with S754_zero sx, S754_zero sy => S754_zero (sx || sy) | _, _ => x end
       | _ => x
       end.

Definition math_max (x y : jsnum) : jsnum :=
  if num_isNaN x || num_isNaN y then S754_nan
  else match SFcompare x y with
       | Some Lt => y
       | Some Eq => match x, y with S754_zero sx, S754_zero sy => S754_zero (sx && sy) | _, _ => x end
       | _ => x
       end.

(** [Math.round]: the nearest integer, ties towards +infinity. *)
Definition math_round (x : jsnum) : jsnum :=
  match x with
  | S754_finite s m e =>
      if 0 <=? e then x
      else
        let d := 2 ^ (- e) in
        let r := (2 * cond_Zopp s (Z.pos m) + d) / (2 * d) in
        if r =? 0 then S754_zero s else num_of_Z r
  | _ => x
  end.

(** [Math.abs] *)
Definition math_abs (x : jsnum) : jsnum := SFabs x.

(** The sign of a comparator's result, as [Array.prototype.sort] reads it:
    NaN counts as zero. *)
Definition cmp_of_num (v : jsnum) : comparison :=
  if nlt v nzero then Lt else if nlt nzero v then Gt else Eq.

(** Indexing an object literal of numbers with a string.  A name the literal
    does not own is looked up in [Object.prototype]: its members are functions
    or objects, which every arithmetic operation of the engines turns into
    NaN; any other name is [undefined]. *)
Definition Object_prototype_names : list string :=
  ["constructor"; "__defineGetter__"; "__defineSetter__"; "hasOwnProperty"; "__lookupGetter__"; "__lookupSetter__";
   "isPrototypeOf"; "propertyIsEnumerable"; "toString"; "valueOf"; "__proto__"; "toLocaleString"]%string.

Definition literal_index (o : list (string * jsnum)) (key : string) : option jsnum :=
  match find (fun kv => String.eqb key (fst kv)) o with
  | Some kv => Some (snd kv)
  | None => if existsb (String.eqb key) Object_prototype_names then Some S754_nan else None
  end.

(** The exact value of a finite number, as a multiple of 2^-1074. *)
Definition num_scaled (x : jsnum) : Z :=
  match x with
  | S754_finite s m e => cond_Zopp s (Z.pos m) * 2 ^ (e + 1074)
  | _ => 0
  end.

Definition num_one_scaled : Z := 2 ^ 1074.

(** ** Facts *)

Lemma digits2_pos_bounds m : 2 ^ (Z.pos (digits2_pos m) - 1) <= Z.pos m < 2 ^ Z.pos (digits2_pos m).
Proof.
  assert (forall p, 2 ^ (Z.pos (Pos.succ p) - 1) = 2 * 2 ^ (Z.pos p - 1)) as Hlo.
  { intros p. rewrite <- Z.pow_succ_r by lia. f_equal. lia. }
  assert (forall p, 2 ^ Z.pos (Pos.succ p) = 2 * 2 ^ Z.pos p) as Hhi.
  { intros p. rewrite <- Z.pow_succ_r by lia. f_equal. lia. }
  induction m as [m IH|m IH|]; simpl digits2_pos; [| |done];
    rewrite Hlo, Hhi; lia.
Qed.

Lemma bounded_spec m e :
  bounded prec64 emax64 m e = true ->
  -1074 <= e <= 971 /\ Z.pos (digits2_pos m) <= 53 /\ (e = -1074 \/ Z.pos (digits2_pos m) = 53).
Proof.
  unfold bounded, canonical_mantissa, fexp, emin, prec64, emax64.
  rewrite andb_true_iff, Z.eqb_eq, Z.leb_le.
  change (3 - 1024 - 53) with (-1074). change (1024 - 53) with 971.
  intros [H1 H2]. pose proof (Pos2Z.is_pos (digits2_pos m)).
  destruct (Z.max_spec (Z.pos (digits2_pos m) + e - 53) (-1074)); lia.
Qed.

(** Canonical mantissas: a larger exponent is a larger value. *)
Lemma canonical_exponent_lt m1 e1 m2 e2 :
  bounded prec64 emax64 m1 e1 = true -> bounded prec64 emax64 m2 e2 = true -> e1 < e2 ->
  Z.pos m1 * 2 ^ (e1 + 1074) < Z.pos m2 * 2 ^ (e2 + 1074).
Proof.
  intros (He1 & Hd1 & _)%bounded_spec (He2 & Hd2 & Hc2)%bounded_spec Hlt.
  destruct Hc2 as [->|Hc2]; [lia|].
  pose proof (digits2_pos_bounds m1) as [_ H1]. pose proof (digits2_pos_bounds m2) as [H2 _].
  rewrite Hc2 in H2.
  assert (Z.pos m1 < 2 ^ 53) as H1'.
  { eapply Z.lt_le_trans; [exact H1|]. by apply Z.pow_le_mono_r. }
  replace (e2 + 1074) with ((e1 + 1074) + (1 + (e2 - e1 - 1))) by lia.
  rewrite (Z.pow_add_r 2 (e1 + 1074)) by lia.
  pose proof (Z.pow_pos_nonneg 2 (e1 + 1074) ltac:(lia) ltac:(lia)).
  assert (2 <= 2 ^ (1 + (e2 - e1 - 1))) as HQ.
  { rewrite <- (Z.pow_1_r 2) at 1. apply Z.pow_le_mono_r; lia. }
  set (P := 2 ^ (e1 + 1074)) in *. set (Q := 2 ^ (1 + (e2 - e1 - 1))) in *.
  assert (Z.pos m1 < Z.pos m2 * Q) by (change (2 ^ 53) with (2 ^ (53 - 1) * 2) in H1'; nia).
  nia.
Qed.

Lemma pos_compare_scaled m1 m2 k :
  0 <= k -> Pos.compare_cont Eq m1 m2 = (Z.pos m1 * 2 ^ k ?= Z.pos m2 * 2 ^ k).
Proof.
  intros Hk. change (Pos.compare_cont Eq m1 m2) with (Z.compare (Z.pos m1) (Z.pos m2)).
  pose proof (Z.pow_pos_nonneg 2 k ltac:(lia) Hk).
  rewrite (Z.mul_comm (Z.pos m1)), (Z.mul_comm (Z.pos m2)).
  apply Zmult_compare_compat_l; lia.
Qed.

Lemma num_scaled_sign s m e :
  -1074 <= e -> num_scaled (S754_finite s m e) = if s then - (Z.pos m * 2 ^ (e + 1074)) else Z.pos m * 2 ^ (e + 1074).
Proof. intros _. simpl. destruct s; simpl; lia. Qed.

(** On valid finite numbers the comparison of the code is the comparison of
    exact values. *)
Lemma SFcompare_scaled x y :
  num_valid x = true -> num_valid y = true -> num_isFinite x = true -> num_isFinite y = true ->
  SFcompare x y = Some (num_scaled x ?= num_scaled y).
Proof.
  intros Vx Vy Fx Fy.
  assert (forall m e, bounded prec64 emax64 m e = true -> 0 < Z.pos m * 2 ^ (e + 1074)) as Hpos.
  { intros m e (He & _)%bounded_spec.
    pose proof (Z.pow_pos_nonneg 2 (e + 1074) ltac:(lia) ltac:(lia)). nia. }
  destruct x as [sx| | |sx mx ex], y as [sy| | |sy my ey]; try done; simpl in Vx, Vy.
  - pose proof (Hpos _ _ Vy). pose proof (bounded_spec _ _ Vy) as [? _].
    rewrite num_scaled_sign by lia. cbn [num_scaled SFcompare]. f_equal.
    destruct sy; symmetry; [apply Z.compare_gt_iff | apply Z.compare_lt_iff]; lia.
  - pose proof (Hpos _ _ Vx). pose proof (bounded_spec _ _ Vx) as [? _].
    rewrite num_scaled_sign by lia. cbn [num_scaled SFcompare]. f_equal.
    destruct sx; symmetry; [apply Z.compare_lt_iff | apply Z.compare_gt_iff]; lia.
  - pose proof (Hpos _ _ Vx) as Px. pose proof (Hpos _ _ Vy) as Py.
    pose proof (bounded_spec _ _ Vx) as [Ex _]. pose proof (bounded_spec _ _ Vy) as [Ey _].
    rewrite !num_scaled_sign by lia. cbn [SFcompare]. f_equal.
    pose proof (canonical_exponent_lt _ _ _ _ Vx Vy) as L1.
    pose proof (canonical_exponent_lt _ _ _ _ Vy Vx) as L2.
    set (a := Z.pos mx * 2 ^ (ex + 1074)) in *. set (b := Z.pos my * 2 ^ (ey + 1074)) in *.
    destruct sx, sy; symmetry.
    + destruct (Z.compare_spec ex ey) as [->|Hlt|Hlt].
      * rewrite (pos_compare_scaled mx my (ey + 1074)) by lia. fold a b.
        rewrite Z.compare_opp. apply Z.compare_antisym.
      * apply Z.compare_gt_iff. specialize (L1 Hlt). lia.
      * apply Z.compare_lt_iff. specialize (L2 Hlt). lia.
    + apply Z.compare_lt_iff. lia.
    + apply Z.compare_gt_iff. lia.
    + destruct (Z.compare_spec ex ey) as [->|Hlt|Hlt].
      * by rewrite (pos_compare_scaled mx my (ey + 1074)) by lia.
      * apply Z.compare_lt_iff. by apply L1.
      * apply Z.compare_gt_iff. by apply L2.
Qed.

Lemma nlt_scaled x y :
  num_valid x = true -> num_valid y = true -> num_isFinite x = true -> num_isFinite y = true ->
  nlt x y = (num_scaled x <? num_scaled y).
Proof.
  intros. unfold nlt, SFltb. rewrite SFcompare_scaled by done. by unfold Z.ltb.
Qed.

(** [Number.isInteger] tests that the exact value is a whole number. *)
Lemma num_isInteger_scaled x :
  num_valid x = true ->
  num_isInteger x = true <-> num_isFinite x = true /\ (num_one_scaled | num_scaled x).
Proof.
  intros V. destruct x as [s|s| |s m e]; simpl in *; try naive_solver.
  { split; [|done]. intros _. split; [done|]. apply Z.divide_0_r. }
  apply bounded_spec in V as [He _].
  assert ((num_one_scaled | cond_Zopp s (Z.pos m) * 2 ^ (e + 1074))
          <-> (num_one_scaled | Z.pos m * 2 ^ (e + 1074))) as ->.
  { destruct s; simpl; [|done]. rewrite Z.mul_opp_l. by rewrite Z.divide_opp_r. }
  unfold num_one_scaled. rewrite orb_true_iff, Z.leb_le, Z.eqb_eq.
  destruct (decide (0 <= e)) as [Hpos|Hneg].
  - split; [|tauto]. intros _. split; [done|].
    rewrite Z.add_comm, Z.pow_add_r by lia. exists (Z.pos m * 2 ^ e). ring.
  - assert (2 ^ 1074 = 2 ^ (- e) * 2 ^ (e + 1074)) as ->.
    { rewrite <- Z.pow_add_r by lia. f_equal. lia. }
    pose proof (Z.pow_pos_nonneg 2 (e + 1074) ltac:(lia) ltac:(lia)).
    pose proof (Z.pow_pos_nonneg 2 (- e) ltac:(lia) ltac:(lia)).
    rewrite Z.mul_divide_cancel_r by lia. rewrite Z.mod_divide by lia.
    intuition lia.
Qed.
