(* ===== verification/NumOrder.v ===== *)
(** * Rounding of binary64 arithmetic

    [SpecFloat] defines the operations but proves nothing about them.  Here
    each operation of [JsNumber] is shown to return the binary64 number
    nearest to the exact result, in integer arithmetic: a finite number is
    [num_scaled x / 2^1074].  The clients use the consequences: exact
    comparisons with representable bounds, signs, and monotonicity. *)
From S2P Require Import Prelude JsNumber.

#[local] Notation fexp64 := (fexp prec64 emax64).

Lemma fexp64_eq e : fexp64 e = Z.max (e - 53) (-1074).
Proof. reflexivity. Qed.

(** Binary length of a natural number. *)
Lemma Zdigits2_bounds m : 0 < m -> 2 ^ (Zdigits2 m - 1) <= m < 2 ^ Zdigits2 m /\ 0 < Zdigits2 m.
Proof.
  intros Hm. destruct m as [|p|p]; [lia| |lia]. simpl. split; [apply digits2_pos_bounds|lia].
Qed.

Lemma Zdigits2_nonneg m : 0 <= Zdigits2 m \/ m < 0.
Proof. destruct m; simpl; lia. Qed.

Lemma Zdigits2_le m d : 0 <= d -> 0 <= m < 2 ^ d -> Zdigits2 m <= d.
Proof.
  intros Hd [H0 Hm]. destruct (decide (m = 0)) as [->|]; [done|].
  destruct (Zdigits2_bounds m) as [[Hl _] Hp]; [lia|].
  assert (Zdigits2 m - 1 < d); [|lia]. apply (Z.pow_lt_mono_r_iff 2); lia.
Qed.

Lemma Zdigits2_ge m d : 0 <= d -> 2 ^ d <= m -> d < Zdigits2 m.
Proof.
  intros Hd Hm. pose proof (Z.pow_pos_nonneg 2 d ltac:(lia) Hd).
  destruct (Zdigits2_bounds m) as [[_ Hu] Hp]; [lia|].
  apply (Z.pow_lt_mono_r_iff 2); lia.
Qed.

(** ** Locations *)

(** Where [n / d] lies between its floor and the next integer. *)
Definition loc_of (n d : Z) : location :=
  if n mod d =? 0 then loc_Exact else loc_Inexact (2 * (n mod d) ?= d).

Definition at_loc (n d : Z) (mrs : shr_record) : Prop :=
  shr_m mrs = n / d /\ loc_of_shr_record mrs = loc_of n d.

Lemma record_of_loc n d : at_loc n d (shr_record_of_loc (n / d) (loc_of n d)).
Proof. unfold at_loc, loc_of. destruct (n mod d =? 0); [done|]. by destruct (2 * (n mod d) ?= d). Qed.

(** Halving: the bit shifted out becomes the round bit. *)
Lemma shr_1_loc n d mrs : 0 <= n -> 0 < d -> at_loc n d mrs -> at_loc n (d * 2) (shr_1 mrs).
Proof.
  intros Hn Hd [Hm Hl]. destruct mrs as [m r s]. simpl in Hm, Hl. subst m.
  pose proof (Z.div_mod n d ltac:(lia)) as E. pose proof (Z.mod_pos_bound n d Hd) as Hr.
  pose proof (Z.div_pos n d Hn Hd) as Hq. set (q := n / d) in *. set (t := n mod d) in *.
  assert ((r || s) = negb (t =? 0)) as Hrs.
  { unfold loc_of in Hl. fold t in Hl. destruct (t =? 0); destruct r, s; simpl in *; try done; by destruct (2 * t ?= d). }
  assert (forall h b, q = 2 * h + b -> 0 <= b <= 1 -> n / (d * 2) = h /\ n mod (d * 2) = b * d + t) as Hdiv.
  { intros h b Eq Hb. assert (n = d * 2 * h + (b * d + t)) as En by nia.
    split; [symmetry; apply (Z.div_unique n (d * 2) h (b * d + t)); [left; nia|done]|
            symmetry; apply (Z.mod_unique n (d * 2) h (b * d + t)); [left; nia|done]]. }
  assert (forall h b, q = 2 * h + b -> 0 <= b <= 1 ->
    at_loc n (d * 2) {| shr_m := h; shr_r := Z.eqb b 1; shr_s := r || s |}) as Hgen.
  { intros h b Eq Hb. destruct (Hdiv h b Eq Hb) as [E1 E2]. split; [done|]. unfold loc_of. rewrite E2, Hrs.
    destruct (Z.eqb_spec t 0) as [Ht|Ht]; simpl.
    - assert (b = 0 \/ b = 1) as [-> | ->] by lia; simpl.
      + destruct (Z.eqb_spec (0 * d + t) 0); [done|lia].
      + destruct (Z.eqb_spec (1 * d + t) 0); [lia|]. f_equal. symmetry. apply Z.compare_eq_iff. lia.
    - assert (b = 0 \/ b = 1) as [-> | ->] by lia; simpl.
      + destruct (Z.eqb_spec (0 * d + t) 0); [lia|]. f_equal. symmetry. apply Z.compare_lt_iff. lia.
      + destruct (Z.eqb_spec (1 * d + t) 0); [lia|]. f_equal. symmetry. apply Z.compare_gt_iff. lia. }
  unfold shr_1. destruct q as [|[p|p|]|]; [apply (Hgen 0 0)|apply (Hgen (Z.pos p) 1)|apply (Hgen (Z.pos p) 0)|apply (Hgen 0 1)|]; lia.
Qed.

Lemma pow2_xO p : 2 ^ Z.pos p~0 = 2 ^ Z.pos p * 2 ^ Z.pos p.
Proof. rewrite <- Z.pow_add_r by lia. f_equal. lia. Qed.

Lemma pow2_xI p : 2 ^ Z.pos p~1 = 2 * (2 ^ Z.pos p * 2 ^ Z.pos p).
Proof. rewrite <- Z.pow_add_r, <- Z.pow_succ_r by lia. f_equal. lia. Qed.

Lemma iter_pos_loc n p : 0 <= n -> forall d mrs, 0 < d -> at_loc n d mrs ->
  at_loc n (d * 2 ^ Z.pos p) (iter_pos shr_1 p mrs).
Proof.
  intros Hn. induction p as [p IH|p IH|]; intros d mrs Hd H; simpl iter_pos.
  - assert (d * 2 ^ Z.pos p~1 = d * 2 * 2 ^ Z.pos p * 2 ^ Z.pos p) as ->.
    { rewrite pow2_xI. ring. }
    pose proof (Z.pow_pos_nonneg 2 (Z.pos p) ltac:(lia) ltac:(lia)). apply IH; [nia|]. apply IH; [lia|]. by apply shr_1_loc.
  - assert (d * 2 ^ Z.pos p~0 = d * 2 ^ Z.pos p * 2 ^ Z.pos p) as ->.
    { rewrite pow2_xO. ring. }
    pose proof (Z.pow_pos_nonneg 2 (Z.pos p) ltac:(lia) ltac:(lia)). apply IH; [nia|]. by apply IH.
  - rewrite Z.pow_1_r. by apply shr_1_loc.
Qed.

(** The shift of [shr_fexp], when it is not to the left. *)
Lemma shr_fexp_loc n d e :
  0 <= n -> 0 < d -> e <= fexp64 (Zdigits2 (n / d) + e) ->
  exists k, 0 <= k /\ e + k = fexp64 (Zdigits2 (n / d) + e)
    /\ at_loc n (d * 2 ^ k) (shr_fexp prec64 emax64 (n / d) e (loc_of n d)).1
    /\ (shr_fexp prec64 emax64 (n / d) e (loc_of n d)).2 = e + k.
Proof.
  intros Hn Hd He. exists (fexp64 (Zdigits2 (n / d) + e) - e). split; [lia|]. split; [lia|].
  unfold shr_fexp, shr. pose proof (record_of_loc n d) as H0.
  destruct (fexp64 (Zdigits2 (n / d) + e) - e) as [|p|p] eqn:Ek; [|by split; [apply iter_pos_loc|]|lia].
  rewrite Z.pow_0_r, Z.mul_1_r. split; [done|simpl; lia].
Qed.

(** ** Rounding to nearest on the integer grid *)

Lemma round_nearest n d w :
  0 <= n -> 0 < d ->
  let R := round_nearest_even (n / d) (loc_of n d) in
  n / d <= R <= n / d + 1 /\ Z.abs (n - d * R) <= Z.abs (n - d * w).
Proof.
  intros Hn Hd. simpl. pose proof (Z.div_mod n d ltac:(lia)) as E. pose proof (Z.mod_pos_bound n d Hd) as Hr.
  set (q := n / d) in *. set (t := n mod d) in *.
  assert (forall R, (R = q /\ 2 * t <= d) \/ (R = q + 1 /\ d <= 2 * t) ->
            q <= R <= q + 1 /\ Z.abs (n - d * R) <= Z.abs (n - d * w)) as Hgen.
  { intros R HR. split; [lia|]. assert (w <= q \/ q + 1 <= w) as [Hw|Hw] by lia.
    - assert (d * w <= d * q) by nia. destruct HR as [[-> ?]|[-> ?]]; nia.
    - assert (d * (q + 1) <= d * w) by nia. destruct HR as [[-> ?]|[-> ?]]; nia. }
  apply Hgen. unfold loc_of, round_nearest_even. fold t. destruct (Z.eqb_spec t 0); [left; lia|].
  destruct (Z.compare_spec (2 * t) d); [destruct (Z.even q); lia|left; lia|right; lia].
Qed.

(** The number made of the rounded mantissa, after the carry. *)
Definition finish (s : bool) (R e : Z) : jsnum :=
  if R =? 0 then S754_zero s
  else
    let '(m, e') := if R =? 2 ^ 53 then (2 ^ 52, e + 1) else (R, e) in
    if e' <=? 971 then S754_finite s (Z.to_pos m) e' else S754_infinity s.

(** The second [shr_fexp] only absorbs the carry. *)
Lemma round_aux_finish s n d e :
  0 <= n -> 0 < d -> e <= fexp64 (Zdigits2 (n / d) + e) ->
  exists k, 0 <= k /\ e + k = fexp64 (Zdigits2 (n / d) + e)
    /\ binary_round_aux prec64 emax64 s (n / d) e (loc_of n d)
       = finish s (round_nearest_even (n / (d * 2 ^ k)) (loc_of n (d * 2 ^ k))) (e + k)
    /\ 0 <= n / (d * 2 ^ k) < 2 ^ 53.
Proof.
  intros Hn Hd He. destruct (shr_fexp_loc n d e Hn Hd He) as (k & Hk & Ek & Hat & E2). exists k.
  split; [done|]. split; [done|].
  pose proof (Z.pow_pos_nonneg 2 k ltac:(lia) Hk) as Pk. pose proof (Z.div_pos n d Hn Hd) as Hq.
  assert (0 <= n / (d * 2 ^ k) < 2 ^ 53) as Hb.
  { split; [apply Z.div_pos; nia|]. rewrite <- Z.div_div by lia. apply Z.div_lt_upper_bound; [lia|].
    rewrite fexp64_eq in Ek. rewrite <- Z.pow_add_r by lia.
    destruct (decide (n / d = 0)) as [->|]; [by apply Z.pow_pos_nonneg; lia|].
    destruct (Zdigits2_bounds (n / d)) as [[_ Hu] _]; [lia|]. eapply Z.lt_le_trans; [exact Hu|]. apply Z.pow_le_mono_r; lia. }
  split; [|done]. unfold binary_round_aux. destruct (shr_fexp _ _ _ _ _) as [mrs e1] eqn:Es. simpl in Hat, E2. subst e1.
  destruct Hat as [Hm Hl]. rewrite Hm, Hl.
  pose proof (round_nearest n (d * 2 ^ k) 0 Hn ltac:(nia)) as [HR _]. simpl in HR.
  set (R := round_nearest_even (n / (d * 2 ^ k)) (loc_of n (d * 2 ^ k))) in *. unfold finish.
  assert (-1074 <= e + k) as Hmin by (rewrite Ek, fexp64_eq; lia).
  unfold shr_fexp. simpl shr_record_of_loc. rewrite fexp64_eq.
  destruct (Z.eqb_spec R (2 ^ 53)) as [E|E].
  - rewrite E. change (Zdigits2 (2 ^ 53)) with 54. replace (Z.max (54 + (e + k) - 53) (-1074) - (e + k)) with 1 by lia.
    reflexivity.
  - assert (Zdigits2 R <= 53) by (apply Zdigits2_le; lia).
    assert (shr {| shr_m := R; shr_r := false; shr_s := false |} (e + k) (Z.max (Zdigits2 R + (e + k) - 53) (-1074) - (e + k))
            = ({| shr_m := R; shr_r := false; shr_s := false |}, e + k)) as ->.
    { unfold shr. destruct (Z.max (Zdigits2 R + (e + k) - 53) (-1074) - (e + k)) eqn:Ez; [done|lia|done]. }
    simpl shr_m. destruct R as [|p|p]; [done| |lia]. simpl. reflexivity.
Qed.

(** ** The nearest binary64 number *)

Definition is_double (v : jsnum) : Prop := num_valid v = true /\ num_isFinite v = true.

(** [z] is a binary64 number nearest to the rational [N / D], scaled. *)
Definition nearest (N D : Z) (z : jsnum) : Prop :=
  is_double z /\ forall v, is_double v -> Z.abs (num_scaled z * D - N) <= Z.abs (num_scaled v * D - N).

Lemma nearest_scale N D z c : 0 < c -> nearest (N * c) (D * c) z <-> nearest N D z.
Proof.
  intros Hc.
  assert (forall x, Z.abs (x * (D * c) - N * c) = Z.abs (x * D - N) * c) as E.
  { intros x. replace (x * (D * c) - N * c) with ((x * D - N) * c) by ring. rewrite Z.abs_mul. lia. }
  split; intros [Hz H]; (split; [done|]); intros v Hv; specialize (H v Hv); rewrite !E in *; nia.
Qed.

(** The largest finite binary64 number. *)
Definition max_scaled : Z := (2 ^ 53 - 1) * 2 ^ 2045.

Lemma double_form v : is_double v ->
  exists w e, -1074 <= e <= 971 /\ Z.abs w <= 2 ^ 53 - 1 /\ num_scaled v = w * 2 ^ (e + 1074).
Proof.
  intros [V F]. destruct v as [s| | |s m e]; try done.
  - exists 0, 0. simpl num_scaled. lia.
  - simpl in V. pose proof (bounded_spec _ _ V) as (He & Hd & _). exists (cond_Zopp s (Z.pos m)), e.
    split; [done|]. split; [|done]. pose proof (digits2_pos_bounds m) as [_ Hu].
    assert (2 ^ Z.pos (digits2_pos m) <= 2 ^ 53) by (apply Z.pow_le_mono_r; lia). destruct s; simpl; lia.
Qed.

Lemma double_scaled_max v : is_double v -> Z.abs (num_scaled v) <= max_scaled.
Proof.
  intros (w & e & He & Hw & ->)%double_form. unfold max_scaled. rewrite Z.abs_mul.
  assert (2 ^ (e + 1074) <= 2 ^ 2045) by (apply Z.pow_le_mono_r; lia).
  pose proof (Z.pow_pos_nonneg 2 (e + 1074) ltac:(lia) ltac:(lia)). rewrite (Z.abs_eq (2 ^ (e + 1074))) by lia. nia.
Qed.

(** No double is nearer than the grid of the rounded exponent. *)
Lemma grid n D E v :
  0 < D -> -1074 <= E -> (E = -1074 \/ 2 ^ 52 * D <= n) -> is_double v ->
  exists w, Z.abs (w * 2 ^ (E + 1074) * D - n * 2 ^ (E + 1074)) <= Z.abs (num_scaled v * D - n * 2 ^ (E + 1074)).
Proof.
  intros HD HE Hn (w & e & He & Hw & ->)%double_form. destruct (decide (E <= e)) as [Hle|Hgt].
  - exists (w * 2 ^ (e - E)). replace (e + 1074) with ((e - E) + (E + 1074)) by lia.
    rewrite (Z.pow_add_r 2 (e - E)) by lia. rewrite Z.mul_assoc. lia.
  - exists (2 ^ 52). destruct Hn as [|Hn]; [lia|].
    pose proof (Z.pow_pos_nonneg 2 (e + 1074) ltac:(lia) ltac:(lia)).
    assert (2 * 2 ^ (e + 1074) <= 2 ^ (E + 1074)) as HP.
    { rewrite <- Z.pow_succ_r by lia. apply Z.pow_le_mono_r; lia. }
    set (p := 2 ^ (e + 1074)) in *. set (P := 2 ^ (E + 1074)) in *.
    assert (w * p <= 2 ^ 52 * P) by nia.
    assert (w * p * D <= 2 ^ 52 * P * D) by (apply Z.mul_le_mono_nonneg_r; lia).
    assert (2 ^ 52 * P * D <= n * P) by (replace (2 ^ 52 * P * D) with (2 ^ 52 * D * P) by ring; apply Z.mul_le_mono_nonneg_r; lia). lia.
Qed.

Lemma cond_Zopp_mul s a b : cond_Zopp s a * b = cond_Zopp s (a * b).
Proof. destruct s; simpl; lia. Qed.

Lemma abs_cond_Zopp s a b D : Z.abs (cond_Zopp s a * D - cond_Zopp s b) = Z.abs (a * D - b).
Proof. destruct s; simpl; lia. Qed.

Definition num_opp (x : jsnum) : jsnum := SFopp x.

Lemma num_opp_double v : is_double v <-> is_double (num_opp v).
Proof. by destruct v. Qed.

Lemma num_opp_scaled v : num_scaled (num_opp v) = - num_scaled v.
Proof. destruct v as [| | |s m e]; try done. destruct s; simpl; lia. Qed.

(** It is enough to be nearest to a non-negative value, up to the sign. *)
Lemma nearest_sign s N D z z' :
  is_double z' -> num_scaled z' = cond_Zopp s (num_scaled z) -> nearest N D z -> nearest (cond_Zopp s N) D z'.
Proof.
  intros Hz' E [_ H]. split; [done|]. intros v Hv. rewrite E, abs_cond_Zopp. destruct s; simpl.
  - etrans; [apply (H (num_opp v)); by apply (num_opp_double v)|]. rewrite num_opp_scaled. lia.
  - by apply H.
Qed.

Lemma bounded_intro m e :
  -1074 <= e <= 971 -> Z.pos m < 2 ^ 53 -> (e = -1074 \/ 2 ^ 52 <= Z.pos m) -> bounded prec64 emax64 m e = true.
Proof.
  intros He Hm Hc. unfold bounded, canonical_mantissa. change (emax64 - prec64) with 971.
  assert (Z.pos (digits2_pos m) <= 53) by (apply (Zdigits2_le (Z.pos m)); lia).
  rewrite fexp64_eq, andb_true_iff, Z.eqb_eq, Z.leb_le. split; [|lia]. destruct Hc as [->|Hc]; [lia|].
  pose proof (Zdigits2_ge (Z.pos m) 52 ltac:(lia) Hc). simpl Zdigits2 in *. lia.
Qed.

Lemma finish_nearest s n D E :
  0 <= n -> 0 < D -> -1074 <= E -> n / D < 2 ^ 53 -> (E = -1074 \/ 2 ^ 52 * D <= n) ->
  n * 2 ^ (E + 1074) <= max_scaled * D ->
  nearest (cond_Zopp s (n * 2 ^ (E + 1074))) D (finish s (round_nearest_even (n / D) (loc_of n D)) E).
Proof.
  intros Hn HD HE Hlt Hc Hmax.
  pose proof (Z.pow_pos_nonneg 2 (E + 1074) ltac:(lia) ltac:(lia)) as HP.
  pose proof (fun w => round_nearest n D w Hn HD) as HR. simpl in HR. pose proof (Z.div_pos n D Hn HD) as Hq.
  pose proof (Z.div_mod n D ltac:(lia)) as En. pose proof (Z.mod_pos_bound n D HD) as Ht.
  set (R := round_nearest_even (n / D) (loc_of n D)) in *. destruct (HR 0) as [HRq _].
  assert (forall z, is_double z -> num_scaled z = cond_Zopp s (R * 2 ^ (E + 1074)) ->
    nearest (cond_Zopp s (n * 2 ^ (E + 1074))) D z) as Hgen.
  { intros z Hz Ez. split; [done|]. intros v Hv. rewrite Ez, abs_cond_Zopp.
    set (v' := if s then num_opp v else v).
    assert (is_double v') as Hv' by (unfold v'; destruct s; [by apply (num_opp_double v)|done]).
    assert (num_scaled v = cond_Zopp s (num_scaled v')) as ->.
    { unfold v'. destruct s; simpl; [rewrite num_opp_scaled; lia|done]. }
    rewrite abs_cond_Zopp. destruct (grid n D E v' HD HE Hc Hv') as [w Hw]. etrans; [|exact Hw].
    destruct (HR w) as [_ Hn']. replace (R * 2 ^ (E + 1074) * D - n * 2 ^ (E + 1074)) with ((- (n - D * R)) * 2 ^ (E + 1074)) by ring.
    replace (w * 2 ^ (E + 1074) * D - n * 2 ^ (E + 1074)) with ((- (n - D * w)) * 2 ^ (E + 1074)) by ring.
    rewrite !Z.abs_mul, !Z.abs_opp. apply Z.mul_le_mono_nonneg_r; [lia|done]. }
  assert (E <= 971) as HE1.
  { destruct (decide (E <= 971)); [done|]. destruct Hc as [|Hc]; [lia|].
    assert (2 ^ 2046 <= 2 ^ (E + 1074)) by (apply Z.pow_le_mono_r; lia). unfold max_scaled in Hmax.
    change (2 ^ 2046) with (2 * 2 ^ 2045) in *. set (T := 2 ^ 2045) in *. assert (0 < T) by (by apply Z.pow_pos_nonneg).
    clearbody T. nia. }
  unfold finish. destruct (Z.eqb_spec R 0) as [E0|E0].
  { apply Hgen; [done|]. rewrite E0. by destruct s. }
  destruct (Z.eqb_spec R (2 ^ 53)) as [E1|E1].
  - assert (E <> 971) as HE2.
    { intros ->. destruct (HR (2 ^ 53 - 1)) as [_ H1]. rewrite E1 in H1. unfold max_scaled in Hmax.
      change (971 + 1074) with 2045 in Hmax. set (T := 2 ^ 2045) in *. assert (0 < T) by (by apply Z.pow_pos_nonneg).
      clearbody T. assert (n <= (2 ^ 53 - 1) * D) by nia. lia. }
    destruct (Z.leb_spec (E + 1) 971); [|lia]. apply Hgen.
    + split; [|done]. simpl. apply bounded_intro; [lia|by vm_compute|right; by vm_compute].
    + cbn [num_scaled]. rewrite cond_Zopp_mul. f_equal. rewrite E1.
      replace (E + 1 + 1074) with (Z.succ (E + 1074)) by lia. rewrite Z.pow_succ_r by lia.
      change (Z.pos (Z.to_pos (2 ^ 52))) with (2 ^ 52). change (2 ^ 53) with (2 ^ 52 * 2). ring.
  - destruct (Z.leb_spec E 971); [|lia]. apply Hgen.
    + split; [|done]. simpl. apply bounded_intro; [lia|lia|]. destruct Hc as [->|Hc]; [by left|right].
      assert (2 ^ 52 <= n / D) by (apply Z.div_le_lower_bound; lia). lia.
    + cbn [num_scaled]. rewrite cond_Zopp_mul. f_equal. rewrite Z2Pos.id by lia. done.
Qed.

Lemma round_aux_nearest s n d e a :
  0 <= n -> 0 < d -> e <= fexp64 (Zdigits2 (n / d) + e) -> 0 <= a -> 0 <= a + e + 1074 ->
  n * 2 ^ (a + e + 1074) <= max_scaled * (d * 2 ^ a) ->
  nearest (cond_Zopp s (n * 2 ^ (a + e + 1074))) (d * 2 ^ a) (binary_round_aux prec64 emax64 s (n / d) e (loc_of n d)).
Proof.
  intros Hn Hd He Ha Hae Hmax. destruct (round_aux_finish s n d e Hn Hd He) as (k & Hk & Ek & -> & Hq).
  pose proof (Z.pow_pos_nonneg 2 k ltac:(lia) Hk) as Pk. pose proof (Z.pow_pos_nonneg 2 a ltac:(lia) Ha) as Pa.
  rewrite fexp64_eq in Ek.
  assert (n * 2 ^ (a + e + 1074) * 2 ^ k = n * 2 ^ (e + k + 1074) * 2 ^ a) as EN.
  { rewrite <- !Z.mul_assoc, <- !Z.pow_add_r by lia. do 2 f_equal. lia. }
  assert (d * 2 ^ a * 2 ^ k = d * 2 ^ k * 2 ^ a) as ED by ring.
  apply (nearest_scale _ _ _ (2 ^ k) Pk). rewrite cond_Zopp_mul, EN, ED, <- cond_Zopp_mul.
  apply (nearest_scale _ _ _ (2 ^ a) Pa). apply finish_nearest; [done|nia|lia|lia| |].
  - destruct (decide (e + k = -1074)) as [|Hne]; [by left|right].
    assert (Zdigits2 (n / d) = k + 53) as Hdig by lia. pose proof (Z.div_pos n d Hn Hd).
    destruct (Zdigits2_bounds (n / d)) as [[Hl _] _].
    { destruct (decide (n / d = 0)) as [E0|]; [rewrite E0 in Hdig; simpl in Hdig; lia|lia]. }
    rewrite Hdig in Hl. replace (k + 53 - 1) with (52 + k) in Hl by lia. rewrite Z.pow_add_r in Hl by lia.
    pose proof (Z.mul_div_le n d Hd). assert (d * (2 ^ 52 * 2 ^ k) <= d * (n / d)) by (apply Z.mul_le_mono_nonneg_l; lia). lia.
  - apply (Z.mul_le_mono_pos_r _ _ (2 ^ a) Pa). rewrite <- EN, <- (Z.mul_assoc max_scaled), <- ED, Z.mul_assoc.
    by apply Z.mul_le_mono_nonneg_r; [lia|].
Qed.

(** ** Integers and sums *)

Lemma iter_xO_pow m p : Z.pos (Pos.iter xO m p) = Z.pos m * 2 ^ Z.pos p.
Proof.
  induction p as [|p IH] using Pos.peano_ind; [rewrite Z.pow_1_r; simpl; lia|].
  rewrite Pos.iter_succ, Pos2Z.inj_xO, IH, Pos2Z.inj_succ, Z.pow_succ_r by lia. ring.
Qed.

Lemma shl_align_pow m e e' :
  exists k, 0 <= k /\ Z.pos (shl_align m e e').1 = Z.pos m * 2 ^ k /\ (shl_align m e e').2 = e - k /\ e - k = Z.min e e'.
Proof.
  unfold shl_align. destruct (e' - e) as [|p|p] eqn:Hp.
  - exists 0. simpl. lia.
  - exists 0. simpl. lia.
  - exists (Z.pos p). simpl fst. simpl snd. rewrite iter_xO_pow. lia.
Qed.

Lemma Zdigits2_unique m d : 0 < d -> 2 ^ (d - 1) <= m < 2 ^ d -> Zdigits2 m = d.
Proof.
  intros Hd [H1 H2]. pose proof (Z.pow_pos_nonneg 2 (d - 1) ltac:(lia) ltac:(lia)).
  pose proof (Zdigits2_le m d ltac:(lia) ltac:(lia)). pose proof (Zdigits2_ge m (d - 1) ltac:(lia) H1). lia.
Qed.

Lemma Zdigits2_mul_pow m k : 0 < m -> 0 <= k -> Zdigits2 (m * 2 ^ k) = Zdigits2 m + k.
Proof.
  intros Hm Hk. destruct (Zdigits2_bounds m Hm) as [[H1 H2] H3].
  pose proof (Z.pow_pos_nonneg 2 k ltac:(lia) Hk).
  apply Zdigits2_unique; [lia|]. replace (Zdigits2 m + k - 1) with ((Zdigits2 m - 1) + k) by lia.
  rewrite !Z.pow_add_r by lia. nia.
Qed.

Lemma loc_of_1 n : loc_of n 1 = loc_Exact.
Proof. unfold loc_of. by rewrite Z.mod_1_r. Qed.

Lemma normalize_nearest m e sz :
  -1074 <= e -> Z.abs m * 2 ^ (e + 1074) <= max_scaled ->
  nearest (m * 2 ^ (e + 1074)) 1 (binary_normalize prec64 emax64 m e sz).
Proof.
  intros He Hmax.
  assert (forall s p, Z.pos p * 2 ^ (e + 1074) <= max_scaled ->
    nearest (cond_Zopp s (Z.pos p * 2 ^ (e + 1074))) 1 (binary_round prec64 emax64 s p e)) as Hpos.
  { intros s p Hp. unfold binary_round.
    destruct (shl_align_pow p e (fexp64 (Z.pos (digits2_pos p) + e))) as (k & Hk & E1 & E2 & E3).
    destruct (shl_align p e _) as [mz ez]. cbn [fst snd] in *. subst ez.
    assert (Zdigits2 (Z.pos mz) = Z.pos (digits2_pos p) + k) as Hd.
    { rewrite E1. by rewrite Zdigits2_mul_pow by lia. }
    pose proof (round_aux_nearest s (Z.pos mz) 1 (e - k) 0) as H. rewrite loc_of_1, Z.div_1_r, Hd in H.
    assert (Z.pos mz * 2 ^ (0 + (e - k) + 1074) = Z.pos p * 2 ^ (e + 1074)) as EN.
    { rewrite E1, <- Z.mul_assoc. rewrite fexp64_eq in E3. rewrite <- Z.pow_add_r by lia. do 2 f_equal. lia. }
    rewrite EN in H. rewrite fexp64_eq in *. apply H; lia. }
  destruct m as [|p|p]; simpl binary_normalize.
  - split; [done|]. intros v _. simpl. lia.
  - apply (Hpos false p). simpl in Hmax. lia.
  - specialize (Hpos true p). simpl in Hpos. rewrite <- Pos2Z.opp_pos, Z.mul_opp_l. apply Hpos. simpl in Hmax. lia.
Qed.

Lemma shl_align_scaled s m e e' : -1074 <= e' <= e ->
  cond_Zopp s (Z.pos (shl_align m e e').1) * 2 ^ (e' + 1074) = num_scaled (S754_finite s m e).
Proof.
  intros He. destruct (shl_align_pow m e e') as (k & Hk & -> & _ & E). cbn [num_scaled].
  rewrite !cond_Zopp_mul. f_equal. rewrite <- Z.mul_assoc, <- Z.pow_add_r by lia. do 2 f_equal. lia.
Qed.

Lemma nearest_exact z N : is_double z -> num_scaled z = N -> nearest N 1 z.
Proof. intros Hz E. split; [done|]. intros v _. lia. Qed.

(** ** The operations *)

Lemma nadd_nearest x y : is_double x -> is_double y ->
  Z.abs (num_scaled x + num_scaled y) <= max_scaled -> nearest (num_scaled x + num_scaled y) 1 (nadd x y).
Proof.
  intros Hx Hy Hmax. pose proof Hx as [Vx Fx]. pose proof Hy as [Vy Fy].
  destruct x as [sx| | |sx mx ex], y as [sy| | |sy my ey]; try done.
  - apply nearest_exact; [by destruct sx, sy|by destruct sx, sy].
  - by apply nearest_exact.
  - apply nearest_exact; [done|]. simpl num_scaled. lia.
  - unfold nadd. cbn [SFadd]. simpl in Vx, Vy. apply bounded_spec in Vx as [? _], Vy as [? _].
    rewrite <- (shl_align_scaled sx mx ex (Z.min ex ey)), <- (shl_align_scaled sy my ey (Z.min ex ey)) in * by lia.
    rewrite <- Z.mul_add_distr_r in *. apply normalize_nearest; [lia|].
    rewrite Z.abs_mul in Hmax. rewrite (Z.abs_eq (2 ^ _)) in Hmax by (apply Z.pow_nonneg; lia). done.
Qed.

Lemma nsub_opp x y : is_double x -> is_double y -> num_scaled (nsub x y) = num_scaled (nadd x (num_opp y)) /\ (is_double (nsub x y) <-> is_double (nadd x (num_opp y))).
Proof.
  intros [Vx Fx] [Vy Fy]. destruct x as [sx| | |sx mx ex], y as [sy| | |sy my ey]; try done.
  - by destruct sx, sy.
  - unfold nsub, nadd, num_opp. cbn [SFsub SFadd SFopp].
    replace (cond_Zopp (negb sy) (Z.pos (shl_align my ey (Z.min ex ey)).1)) with (- cond_Zopp sy (Z.pos (shl_align my ey (Z.min ex ey)).1)) by (by destruct sy).
    done.
Qed.

Lemma nsub_nearest x y : is_double x -> is_double y ->
  Z.abs (num_scaled x - num_scaled y) <= max_scaled -> nearest (num_scaled x - num_scaled y) 1 (nsub x y).
Proof.
  intros Hx Hy Hmax. destruct (nsub_opp x y Hx Hy) as [E1 E2].
  assert (nearest (num_scaled x - num_scaled y) 1 (nadd x (num_opp y))) as [H1 H2].
  { pose proof (nadd_nearest x (num_opp y) Hx ltac:(by apply (num_opp_double y))) as H.
    rewrite num_opp_scaled in H. replace (num_scaled x - num_scaled y) with (num_scaled x + - num_scaled y) in * by lia. by apply H. }
  split; [by apply E2|]. intros v Hv. rewrite E1. by apply H2.
Qed.

Lemma num_of_Z_nearest z : Z.abs z * 2 ^ 1074 <= max_scaled -> nearest (z * 2 ^ 1074) 1 (num_of_Z z).
Proof. intros H. apply (normalize_nearest z 0 false); [lia|done]. Qed.

Lemma Zdigits2_mono m n : 0 <= m <= n -> Zdigits2 m <= Zdigits2 n.
Proof.
  intros H. destruct (decide (n = 0)) as [->|]; [by replace m with 0 by lia|].
  destruct (Zdigits2_bounds n) as [[_ Hu] ?]; [lia|]. apply Zdigits2_le; lia.
Qed.

Lemma finite_scaled s m e : num_scaled (S754_finite s m e) = cond_Zopp s (Z.pos m * 2 ^ (e + 1074)).
Proof. cbn [num_scaled]. apply cond_Zopp_mul. Qed.

Lemma cond_Zopp_xorb s t a b : cond_Zopp s a * cond_Zopp t b = cond_Zopp (xorb s t) (a * b).
Proof. destruct s, t; simpl; lia. Qed.

Lemma nearest_zero z N D : num_scaled z = 0 -> is_double z -> N = 0 -> nearest N D z.
Proof. intros E Hz ->. split; [done|]. intros v _. rewrite E. lia. Qed.

Lemma nmul_nearest x y : is_double x -> is_double y ->
  Z.abs (num_scaled x * num_scaled y) <= max_scaled * 2 ^ 1074 ->
  nearest (num_scaled x * num_scaled y) (2 ^ 1074) (nmul x y).
Proof.
  intros [Vx Fx] [Vy Fy] Hmax. destruct x as [sx| | |sx mx ex], y as [sy| | |sy my ey]; try done;
    try (apply nearest_zero; [done|done|simpl num_scaled; lia]).
  rewrite !finite_scaled, cond_Zopp_xorb in *. unfold nmul. cbn [SFmul]. simpl in Vx, Vy.
  apply bounded_spec in Vx as (Hx & Dx & Cx), Vy as (Hy & Dy & Cy).
  pose proof (round_aux_nearest (xorb sx sy) (Z.pos (mx * my)) 1 (ex + ey) 1074) as H.
  rewrite loc_of_1, Z.div_1_r, Z.mul_1_l in H.
  assert (Z.pos (mx * my) * 2 ^ (1074 + (ex + ey) + 1074) = Z.pos mx * 2 ^ (ex + 1074) * (Z.pos my * 2 ^ (ey + 1074))) as EN.
  { replace (1074 + (ex + ey) + 1074) with ((ex + 1074) + (ey + 1074)) by lia. rewrite Z.pow_add_r by lia. rewrite Pos2Z.inj_mul. ring. }
  rewrite EN in H. apply H; [lia|lia| |lia|lia|].
  - rewrite fexp64_eq.
    pose proof (Zdigits2_mono (Z.pos mx) (Z.pos (mx * my)) ltac:(nia)). pose proof (Zdigits2_mono (Z.pos my) (Z.pos (mx * my)) ltac:(nia)).
    simpl Zdigits2 in *. lia.
  - rewrite <- Z.abs_eq; [|lia]. etrans; [|exact Hmax]. destruct (xorb sx sy); simpl cond_Zopp; lia.
Qed.

Lemma new_location_loc n d : 0 < d -> new_location d (n mod d) = loc_of n d.
Proof.
  intros Hd. unfold new_location, new_location_even, new_location_odd, loc_of.
  destruct (Z.even d) eqn:E; [done|]. destruct (n mod d =? 0); [done|]. f_equal.
  assert (Z.Odd d) as [h Hh] by (apply Z.odd_spec; rewrite <- Z.negb_even; by rewrite E).
  set (t := n mod d) in *. destruct (Z.compare_spec (2 * t + 1) d), (Z.compare_spec (2 * t) d); lia || done.
Qed.

(** The length of a quotient is at least the difference of the lengths. *)
Lemma Zdigits2_div n d : 0 < n -> 0 < d -> Zdigits2 n - Zdigits2 d <= Zdigits2 (n / d).
Proof.
  intros Hn Hd. destruct (Zdigits2_bounds n Hn) as [[Hnl _] _]. destruct (Zdigits2_bounds d Hd) as [[_ Hmu] Hmp].
  pose proof (Z.div_pos n d ltac:(lia) ltac:(lia)).
  assert (0 <= Zdigits2 (n / d)) by (destruct (n / d); simpl; lia).
  destruct (decide (Zdigits2 n - Zdigits2 d <= 0)) as [|Hgt]; [lia|].
  pose proof (Zdigits2_ge (n / d) (Zdigits2 n - Zdigits2 d - 1) ltac:(lia)) as Hg.
  assert (2 ^ (Zdigits2 n - Zdigits2 d - 1) <= n / d); [|lia].
  apply Z.div_le_lower_bound; [lia|].
  replace (Zdigits2 n - 1) with ((Zdigits2 n - Zdigits2 d - 1) + Zdigits2 d) in Hnl by lia.
  rewrite Z.pow_add_r in Hnl by lia.
  pose proof (Z.pow_pos_nonneg 2 (Zdigits2 n - Zdigits2 d - 1) ltac:(lia) ltac:(lia)). nia.
Qed.

(** Division by a nonzero number; the denominator is its magnitude. *)
Lemma ndiv_nearest x y : is_double x -> is_double y -> num_scaled y <> 0 ->
  Z.abs (num_scaled x) * 2 ^ 1074 <= max_scaled * Z.abs (num_scaled y) ->
  nearest (Z.sgn (num_scaled y) * num_scaled x * 2 ^ 1074) (Z.abs (num_scaled y)) (ndiv x y).
Proof.
  intros [Vx Fx] [Vy Fy] Hy0 Hmax. destruct x as [sx| | |sx mx ex], y as [sy| | |sy my ey]; try done;
    try (apply nearest_zero; [done|done|simpl num_scaled; lia]).
  rewrite !finite_scaled in *. simpl in Vx, Vy.
  apply bounded_spec in Vx as (Hx & Dx & Cx), Vy as (Hy & Dy & Cy).
  pose proof (Z.pow_pos_nonneg 2 (ex + 1074) ltac:(lia) ltac:(lia)) as Px.
  pose proof (Z.pow_pos_nonneg 2 (ey + 1074) ltac:(lia) ltac:(lia)) as Py.
  set (X := Z.pos mx * 2 ^ (ex + 1074)) in *. set (Y := Z.pos my * 2 ^ (ey + 1074)) in *.
  assert (0 < X) as HX by (unfold X; nia). assert (0 < Y) as HY by (unfold Y; nia).
  assert (Z.abs (cond_Zopp sy Y) = Y) as EY by (destruct sy; simpl; lia). rewrite EY in *.
  assert (Z.abs (cond_Zopp sx X) = X) as EX by (destruct sx; simpl; lia). rewrite EX in Hmax.
  assert (Z.sgn (cond_Zopp sy Y) * cond_Zopp sx X = cond_Zopp (xorb sx sy) X) as ->.
  { destruct sx, sy; simpl cond_Zopp; rewrite ?Z.sgn_opp, (Z.sgn_pos Y) by done; cbn [xorb cond_Zopp]; lia. }
  unfold ndiv. cbn [SFdiv]. unfold SFdiv_core_binary.
  set (e' := Z.min (fexp64 (Zdigits2 (Z.pos mx) + ex - (Zdigits2 (Z.pos my) + ey))) (ex - ey)).
  assert (0 <= ex - ey - e') as Hs by (unfold e'; lia).
  assert (match ex - ey - e' with Z0 => Z.pos mx | Z.pos _ => Z.shiftl (Z.pos mx) (ex - ey - e') | Z.neg _ => 0 end
          = Z.pos mx * 2 ^ (ex - ey - e')) as ->.
  { destruct (ex - ey - e') eqn:Es; [rewrite Z.pow_0_r; lia|rewrite Z.shiftl_mul_pow2; lia|lia]. }
  pose proof (Z.pow_pos_nonneg 2 (ex - ey - e') ltac:(lia) ltac:(lia)) as Ps.
  set (n := Z.pos mx * 2 ^ (ex - ey - e')) in *. assert (0 < n) as Hn0 by (unfold n; nia).
  destruct (Z.div_eucl n (Z.pos my)) as [q r] eqn:Eq.
  assert (q = n / Z.pos my) as -> by (unfold Z.div; by rewrite Eq).
  assert (r = n mod Z.pos my) as -> by (unfold Z.modulo; by rewrite Eq).
  rewrite new_location_loc by lia.
  pose proof (round_aux_nearest (xorb sx sy) n (Z.pos my) e' (ey + 1074)) as H. fold Y in H.
  assert (-1074 <= fexp64 (Zdigits2 (Z.pos mx) + ex - (Zdigits2 (Z.pos my) + ey))) as Hf by (rewrite fexp64_eq; lia).
  assert (n * 2 ^ (ey + 1074 + e' + 1074) = X * 2 ^ 1074) as EN.
  { unfold n, X. rewrite <- !Z.mul_assoc, <- !Z.pow_add_r by lia. do 2 f_equal. lia. }
  rewrite EN in H. rewrite cond_Zopp_mul. apply H; [lia|lia| |lia|unfold e'; lia|exact Hmax].
  etrans; [apply Z.le_min_l|]. rewrite !fexp64_eq.
  pose proof (Zdigits2_mul_pow (Z.pos mx) (ex - ey - e') ltac:(lia) Hs) as Hn. fold n in Hn.
  pose proof (Zdigits2_div n (Z.pos my) Hn0 ltac:(lia)). lia.
Qed.

(** ** Consequences *)

(** Rounding is monotone, so a representable bound survives it. *)
Lemma nearest_le N D z v : 0 < D -> nearest N D z -> is_double v -> N <= num_scaled v * D -> num_scaled z <= num_scaled v.
Proof.
  intros HD [Hz H] Hv Hle. specialize (H v Hv).
  destruct (decide (num_scaled z <= num_scaled v)); [done|].
  assert (num_scaled v * D < num_scaled z * D) by (apply Z.mul_lt_mono_pos_r; lia). lia.
Qed.

Lemma nearest_ge N D z v : 0 < D -> nearest N D z -> is_double v -> num_scaled v * D <= N -> num_scaled v <= num_scaled z.
Proof.
  intros HD [Hz H] Hv Hle. specialize (H v Hv).
  destruct (decide (num_scaled v <= num_scaled z)); [done|].
  assert (num_scaled z * D < num_scaled v * D) by (apply Z.mul_lt_mono_pos_r; lia). lia.
Qed.

Lemma nearest_repr N D z v : 0 < D -> nearest N D z -> is_double v -> N = num_scaled v * D -> num_scaled z = num_scaled v.
Proof.
  intros HD H Hv E. apply Z.le_antisymm; [eapply nearest_le|eapply nearest_ge]; eauto; lia.
Qed.

(** A difference is representable enough to keep its sign. *)
Lemma nsub_sign x y : is_double x -> is_double y -> Z.abs (num_scaled x - num_scaled y) <= max_scaled ->
  is_double (nsub x y) /\ Z.sgn (num_scaled (nsub x y)) = Z.sgn (num_scaled x - num_scaled y).
Proof.
  intros Hx Hy Hmax. pose proof (nsub_nearest x y Hx Hy Hmax) as Hn. split; [apply Hn|].
  (* the smallest positive number is a lower bound of every positive value *)
  set (tiny := S754_finite false 1 (-1074)). assert (is_double tiny) as Ht by done.
  assert (num_scaled tiny = 1) as Et by done.
  assert (is_double (num_opp tiny)) as Ht' by done. assert (num_scaled (num_opp tiny) = -1) as Et' by done.
  destruct (Z.compare_spec (num_scaled x) (num_scaled y)) as [E|E|E].
  - rewrite E, Z.sub_diag in *. pose proof (nearest_repr _ _ _ nzero Z.lt_0_1 Hn ltac:(done) eq_refl) as ->. done.
  - pose proof (nearest_le _ _ _ (num_opp tiny) Z.lt_0_1 Hn Ht') as H. rewrite Et' in H. specialize (H ltac:(lia)). by rewrite !Z.sgn_neg by lia.
  - pose proof (nearest_ge _ _ _ tiny Z.lt_0_1 Hn Ht) as H. rewrite Et in H. specialize (H ltac:(lia)). by rewrite !Z.sgn_pos by lia.
Qed.

(** * Order properties of binary64 arithmetic

    Consequences of [NumOrder] for the scoring engines: every operation is
    monotone in the exact values, integers up to 2^53 are exact, and
    [Math.round], [Math.min], [Math.max] compute what they say. *)

(** Equal exact values: equal numbers, or zeros. *)
Lemma num_same x y : is_double x -> is_double y -> num_scaled x = num_scaled y ->
  x = y \/ exists s t, x = S754_zero s /\ y = S754_zero t.
Proof.
  intros [Vx Fx] [Vy Fy] E. pose proof (SFcompare_scaled x y Vx Vy Fx Fy) as H.
  rewrite E, Z.compare_refl in H. destruct x as [s| | |s m e], y as [t| | |t n f]; try done.
  - right. eauto.
  - by destruct t.
  - by destruct s.
  - left. simpl in H. destruct s, t; try done; destruct (Z.compare_spec e f) as [->| |]; try done;
      injection H as H; change (Pos.compare_cont Eq m n) with (Pos.compare m n) in H;
      destruct (Pos.compare_spec m n) as [->| |]; done.
Qed.

Lemma nearest_mono N1 D1 z1 N2 D2 z2 :
  0 < D1 -> 0 < D2 -> nearest N1 D1 z1 -> nearest N2 D2 z2 -> N1 * D2 < N2 * D1 -> num_scaled z1 <= num_scaled z2.
Proof.
  intros H1 H2 [Hz1 Hn1] [Hz2 Hn2] Hlt. specialize (Hn1 z2 Hz2). specialize (Hn2 z1 Hz1).
  destruct (decide (num_scaled z1 <= num_scaled z2)) as [|Hgt]; [done|].
  set (a := num_scaled z1) in *. set (b := num_scaled z2) in *.
  assert (b * D1 < a * D1) by (apply Z.mul_lt_mono_pos_r; lia).
  assert (b * D2 < a * D2) by (apply Z.mul_lt_mono_pos_r; lia).
  assert ((a + b) * D1 <= 2 * N1) as A1 by lia. assert (2 * N2 <= (a + b) * D2) as A2 by lia.
  assert ((a + b) * D1 * D2 <= 2 * N1 * D2) by (apply Z.mul_le_mono_nonneg_r; lia).
  assert (2 * N2 * D1 <= (a + b) * D2 * D1) by (apply Z.mul_le_mono_nonneg_r; lia).
  lia.
Qed.

(** The operations depend on exact values only, up to the sign of a zero. *)
Section SameValue.
Context (x x' y y' : jsnum) (Dx : is_double x) (Dx' : is_double x') (Dy : is_double y) (Dy' : is_double y').
Context (Ex : num_scaled x = num_scaled x') (Ey : num_scaled y = num_scaled y').

Lemma same_args (op : jsnum -> jsnum -> jsnum) :
  (forall s t u v, num_scaled (op (S754_zero s) (S754_zero t)) = num_scaled (op (S754_zero u) (S754_zero v))) ->
  (forall s t z, is_double z -> num_scaled (op (S754_zero s) z) = num_scaled (op (S754_zero t) z)) ->
  (forall s t z, is_double z -> num_scaled (op z (S754_zero s)) = num_scaled (op z (S754_zero t))) ->
  num_scaled (op x y) = num_scaled (op x' y').
Proof.
  intros H0 H1 H2.
  destruct (num_same _ _ Dx Dx' Ex) as [<-|(? & ? & -> & ->)], (num_same _ _ Dy Dy' Ey) as [<-|(? & ? & -> & ->)]; auto.
Qed.

Ltac by_cases_on_zeros :=
  apply same_args;
  [intros [] [] [] []; reflexivity|intros [] [] [[]| | |] [Hv Hf]; first [reflexivity|discriminate]
  |intros [] [] [[]| | |] [Hv Hf]; first [reflexivity|discriminate]].

Lemma nadd_same : num_scaled (nadd x y) = num_scaled (nadd x' y').
Proof. by_cases_on_zeros. Qed.

Lemma nsub_same : num_scaled (nsub x y) = num_scaled (nsub x' y').
Proof. by_cases_on_zeros. Qed.

Lemma nmul_same : num_scaled (nmul x y) = num_scaled (nmul x' y').
Proof. by_cases_on_zeros. Qed.
End SameValue.

Lemma ndiv_same x x' y : is_double x -> is_double x' -> num_scaled x = num_scaled x' -> num_scaled (ndiv x y) = num_scaled (ndiv x' y).
Proof. intros Dx Dx' E. destruct (num_same _ _ Dx Dx' E) as [->|(s & t & -> & ->)]; [done|]. by destruct y. Qed.

(** ** Monotonicity *)

Lemma nadd_mono x x' y y' : is_double x -> is_double x' -> is_double y -> is_double y' ->
  num_scaled x <= num_scaled x' -> num_scaled y <= num_scaled y' ->
  Z.abs (num_scaled x + num_scaled y) <= max_scaled -> Z.abs (num_scaled x' + num_scaled y') <= max_scaled ->
  num_scaled (nadd x y) <= num_scaled (nadd x' y').
Proof.
  intros Dx Dx' Dy Dy' Lx Ly M M'.
  destruct (decide (num_scaled x + num_scaled y < num_scaled x' + num_scaled y')).
  - eapply nearest_mono; [| |by apply nadd_nearest|by apply nadd_nearest|]; lia.
  - rewrite (nadd_same x x' y y'); done || lia.
Qed.

Lemma nsub_mono x x' y y' : is_double x -> is_double x' -> is_double y -> is_double y' ->
  num_scaled x <= num_scaled x' -> num_scaled y' <= num_scaled y ->
  Z.abs (num_scaled x - num_scaled y) <= max_scaled -> Z.abs (num_scaled x' - num_scaled y') <= max_scaled ->
  num_scaled (nsub x y) <= num_scaled (nsub x' y').
Proof.
  intros Dx Dx' Dy Dy' Lx Ly M M'.
  destruct (decide (num_scaled x - num_scaled y < num_scaled x' - num_scaled y')).
  - eapply nearest_mono; [| |by apply nsub_nearest|by apply nsub_nearest|]; lia.
  - rewrite (nsub_same x x' y y'); done || lia.
Qed.

Lemma nmul_mono_l x x' y : is_double x -> is_double x' -> is_double y ->
  num_scaled x <= num_scaled x' -> 0 <= num_scaled y ->
  Z.abs (num_scaled x * num_scaled y) <= max_scaled * 2 ^ 1074 -> Z.abs (num_scaled x' * num_scaled y) <= max_scaled * 2 ^ 1074 ->
  num_scaled (nmul x y) <= num_scaled (nmul x' y).
Proof.
  intros Dx Dx' Dy Lx Ly M M'. pose proof (Z.pow_pos_nonneg 2 1074 ltac:(lia) ltac:(lia)) as HU. set (U := 2 ^ 1074) in *.
  destruct (decide (num_scaled y = 0)) as [E0|E0].
  { destruct Dy as [V F], y as [t| | |t m e]; try discriminate F.
    - destruct Dx as [_ Fx], Dx' as [_ Fx']. destruct x, x'; first [discriminate Fx|discriminate Fx'|reflexivity].
    - exfalso. simpl in V. apply bounded_spec in V as [He _].
      pose proof (Z.pow_pos_nonneg 2 (e + 1074) ltac:(lia) ltac:(lia)).
      rewrite finite_scaled in E0. destruct t; simpl in E0; nia. }
  destruct (decide (num_scaled x = num_scaled x')) as [E|E].
  - rewrite (nmul_same x x' y y); done || lia.
  - eapply nearest_mono; [exact HU|exact HU|by apply nmul_nearest|by apply nmul_nearest|].
    apply Z.mul_lt_mono_pos_r; [done|]. apply Z.mul_lt_mono_pos_r; lia.
Qed.

Lemma ndiv_mono_l x x' y : is_double x -> is_double x' -> is_double y ->
  num_scaled x <= num_scaled x' -> 0 < num_scaled y ->
  Z.abs (num_scaled x) * 2 ^ 1074 <= max_scaled * num_scaled y -> Z.abs (num_scaled x') * 2 ^ 1074 <= max_scaled * num_scaled y ->
  num_scaled (ndiv x y) <= num_scaled (ndiv x' y).
Proof.
  intros Dx Dx' Dy Lx Ly M M'. pose proof (Z.pow_pos_nonneg 2 1074 ltac:(lia) ltac:(lia)) as HU. set (U := 2 ^ 1074) in *.
  destruct (decide (num_scaled x = num_scaled x')) as [E|E].
  - rewrite (ndiv_same x x' y); done || lia.
  - pose proof (ndiv_nearest x y Dx Dy) as H1. pose proof (ndiv_nearest x' y Dx' Dy) as H2. fold U in H1, H2.
    rewrite Z.sgn_pos, Z.mul_1_l, (Z.abs_eq (num_scaled y)) in H1, H2 by lia.
    eapply nearest_mono; [exact Ly|exact Ly|apply H1; lia|apply H2; lia|].
    apply Z.mul_lt_mono_pos_r; [done|]. apply Z.mul_lt_mono_pos_r; lia.
Qed.

(** ** Exact integers *)

Lemma int_double r : Z.abs r <= 2 ^ 53 -> is_double (num_of_Z r) /\ num_scaled (num_of_Z r) = r * 2 ^ 1074.
Proof.
  intros Hr. assert (2 ^ 53 * 2 ^ 1074 <= max_scaled) as Hmax.
  { unfold max_scaled. rewrite <- Z.pow_add_r by lia. change (2 ^ 2045) with (2 ^ (53 + 1074 + 918)).
    rewrite (Z.pow_add_r 2 (53 + 1074)) by lia. pose proof (Z.pow_pos_nonneg 2 (53 + 1074) ltac:(lia) ltac:(lia)).
    pose proof (Z.pow_pos_nonneg 2 918 ltac:(lia) ltac:(lia)). set (a := 2 ^ (53 + 1074)) in *. set (b := 2 ^ 918) in *. nia. }
  pose proof (Z.pow_pos_nonneg 2 1074 ltac:(lia) ltac:(lia)) as HU.
  pose proof (num_of_Z_nearest r) as Hn. set (U := 2 ^ 1074) in *.
  assert (nearest (r * U) 1 (num_of_Z r)) as Hnr.
  { apply Hn. assert (Z.abs r * U <= 2 ^ 53 * U) by (apply Z.mul_le_mono_nonneg_r; lia). lia. }
  split; [apply Hnr|].
  assert (exists v, is_double v /\ num_scaled v = r * U) as (v & Hv & Ev).
  { destruct (decide (r = 0)) as [->|Hr0]; [by exists nzero|].
    destruct (decide (Z.abs r = 2 ^ 53)) as [E53|].
    { exists (S754_finite (r <? 0) (Z.to_pos (2 ^ 52)) 1). split; [done|]. rewrite finite_scaled.
      change (Z.pos (Z.to_pos (2 ^ 52)) * 2 ^ (1 + 1074)) with (2 ^ 53 * U).
      destruct (Z.ltb_spec r 0); unfold cond_Zopp; rewrite <- E53; lia. }
    destruct (Zdigits2_bounds (Z.abs r) ltac:(lia)) as [[H1 H2] H3].
    assert (Zdigits2 (Z.abs r) <= 53) as H4 by (apply Zdigits2_le; lia).
    set (d := Zdigits2 (Z.abs r)) in *.
    pose proof (Z.pow_pos_nonneg 2 (53 - d) ltac:(lia) ltac:(lia)).
    exists (S754_finite (r <? 0) (Z.to_pos (Z.abs r * 2 ^ (53 - d))) (d - 53)).
    assert (Z.pos (Z.to_pos (Z.abs r * 2 ^ (53 - d))) = Z.abs r * 2 ^ (53 - d)) as Em by (rewrite Z2Pos.id; nia).
    split.
    - split; [|done]. simpl. apply bounded_intro; [lia| |right]; rewrite Em.
      + replace 53 with (d + (53 - d)) at 2 by lia. rewrite Z.pow_add_r by lia. nia.
      + change 52 with (53 - 1). replace (53 - 1) with ((d - 1) + (53 - d)) by lia. rewrite Z.pow_add_r by lia. nia.
    - rewrite finite_scaled, Em, <- Z.mul_assoc, <- Z.pow_add_r by lia.
      replace (53 - d + (d - 53 + 1074)) with 1074 by lia. fold U.
      destruct (Z.ltb_spec r 0); unfold cond_Zopp; lia. }
  rewrite <- Ev. eapply nearest_repr; [|exact Hnr|done|]; lia.
Qed.

(** ** Rounding to an integer, minimum and maximum *)

Lemma div_half_up k d : 0 < d -> (2 * (k * d) + d) / (2 * d) = k.
Proof. intros Hd. replace (2 * (k * d) + d) with (k * (2 * d) + d) by ring. rewrite Z.div_add_l by lia. rewrite Z.div_small by lia. lia. Qed.

(** [Math.round x] is the floor of [x + 1/2]. *)
Lemma math_round_spec x : is_double x ->
  is_double (math_round x) /\
  num_scaled (math_round x) = (2 * num_scaled x + num_one_scaled) / (2 * num_one_scaled) * num_one_scaled.
Proof.
  intros [V F]. unfold num_one_scaled. pose proof (Z.pow_pos_nonneg 2 1074 ltac:(lia) ltac:(lia)) as HU. set (U := 2 ^ 1074) in *.
  destruct x as [s| | |s m e]; try discriminate F.
  { split; [done|]. simpl num_scaled. rewrite Z.mul_0_r, Z.add_0_l, Z.div_small; lia. }
  simpl in V. pose proof (bounded_spec _ _ V) as (He & Hd & _). unfold math_round. destruct (Z.leb_spec 0 e) as [H0|H0].
  - split; [by split|]. cbn [num_scaled]. rewrite Z.add_comm, (Z.pow_add_r 2 1074) by lia. fold U.
    rewrite (Z.mul_comm U), Z.mul_assoc, div_half_up by done. done.
  - set (d := 2 ^ (- e)). pose proof (Z.pow_pos_nonneg 2 (- e) ltac:(lia) ltac:(lia)) as Hd0. fold d in Hd0.
    assert (2 <= d) as Hd2. { unfold d. rewrite <- (Z.pow_1_r 2) at 1. apply Z.pow_le_mono_r; lia. }
    set (z := cond_Zopp s (Z.pos m)).
    assert ((2 * num_scaled (S754_finite s m e) + U) / (2 * U) = (2 * z + d) / (2 * d)) as ->.
    { cbn [num_scaled]. fold z. pose proof (Z.pow_pos_nonneg 2 (e + 1074) ltac:(lia) ltac:(lia)) as HT.
      assert (U = d * 2 ^ (e + 1074)) as EU. { unfold U, d. rewrite <- Z.pow_add_r by lia. f_equal. lia. }
      rewrite EU. set (T := 2 ^ (e + 1074)) in *.
      replace (2 * (z * T) + d * T) with ((2 * z + d) * T) by ring. replace (2 * (d * T)) with (2 * d * T) by ring.
      apply Z.div_mul_cancel_r; lia. }
    set (r := (2 * z + d) / (2 * d)).
    assert (Z.abs z < 2 ^ 53) as Hz.
    { pose proof (digits2_pos_bounds m) as [_ Hu]. assert (2 ^ Z.pos (digits2_pos m) <= 2 ^ 53) by (apply Z.pow_le_mono_r; lia).
      unfold z. destruct s; simpl; lia. }
    assert (Z.abs r <= 2 ^ 53) as Hr.
    { unfold r. pose proof (Z.div_mod (2 * z + d) (2 * d) ltac:(lia)) as E. pose proof (Z.mod_pos_bound (2 * z + d) (2 * d) ltac:(lia)). nia. }
    destruct (Z.eqb_spec r 0) as [->|]; [by destruct s|]. by apply int_double.
Qed.

Lemma math_min_spec x y : is_double x -> is_double y ->
  is_double (math_min x y) /\ num_scaled (math_min x y) = Z.min (num_scaled x) (num_scaled y).
Proof.
  intros [Vx Fx] [Vy Fy]. unfold math_min.
  assert (num_isNaN x = false /\ num_isNaN y = false) as [-> ->] by (by destruct x, y). simpl.
  rewrite SFcompare_scaled by done.
  destruct (Z.compare_spec (num_scaled x) (num_scaled y)) as [E|E|E].
  - rewrite <- E, Z.min_id. destruct x, y; try done.
  - rewrite Z.min_l by lia. done.
  - rewrite Z.min_r by lia. done.
Qed.

Lemma math_max_spec x y : is_double x -> is_double y ->
  is_double (math_max x y) /\ num_scaled (math_max x y) = Z.max (num_scaled x) (num_scaled y).
Proof.
  intros [Vx Fx] [Vy Fy]. unfold math_max.
  assert (num_isNaN x = false /\ num_isNaN y = false) as [-> ->] by (by destruct x, y). simpl.
  rewrite SFcompare_scaled by done.
  destruct (Z.compare_spec (num_scaled x) (num_scaled y)) as [E|E|E].
  - rewrite <- E, Z.max_id. destruct x, y; try done.
  - rewrite Z.max_r by lia. done.
  - rewrite Z.max_l by lia. done.
Qed.

(** ** The order of finite numbers *)

Definition num_le (x y : jsnum) : Prop := is_double x /\ is_double y /\ num_scaled x <= num_scaled y.
Infix "⊑" := num_le (at level 70) : tol_scope.

Lemma num_le_refl x : is_double x -> x ⊑ x.
Proof. intros H. split_and!; done || lia. Qed.

Lemma num_le_trans x y z : x ⊑ y -> y ⊑ z -> x ⊑ z.
Proof. intros (? & ? & ?) (? & ? & ?). split_and!; done || lia. Qed.

Lemma num_le_double x y : x ⊑ y -> is_double x /\ is_double y.
Proof. by intros (? & ? & _). Qed.

Lemma nlt_false x y : is_double x -> is_double y -> nlt x y = false <-> y ⊑ x.
Proof.
  intros Hx Hy. pose proof Hx as [Vx Fx]. pose proof Hy as [Vy Fy]. rewrite nlt_scaled, Z.ltb_ge by done.
  unfold num_le. naive_solver.
Qed.

Lemma nle_true x y : is_double x -> is_double y -> nle x y = true <-> x ⊑ y.
Proof.
  intros Hx Hy. pose proof Hx as [Vx Fx]. pose proof Hy as [Vy Fy]. unfold nle, SFleb.
  rewrite SFcompare_scaled by done. unfold num_le.
  destruct (Z.compare_spec (num_scaled x) (num_scaled y)); split; intros; try done; try (split_and!; done || lia); lia.
Qed.

(** Far from the ends of the range, so that no operation overflows. *)
Definition tame (x : jsnum) : Prop := is_double x /\ Z.abs (num_scaled x) <= 2 ^ 128 * num_one_scaled.

Lemma tame_between a x b : tame a -> tame b -> a ⊑ x -> x ⊑ b -> tame x.
Proof. intros [_ Ha] [_ Hb] (_ & Hx & H1) (_ & _ & H2). split; [done|lia]. Qed.

Lemma max_scaled_large : 2 ^ 300 * num_one_scaled <= max_scaled.
Proof. apply Z.leb_le. vm_compute. reflexivity. Qed.

Lemma one_scaled_pos : 0 < num_one_scaled.
Proof. by apply Z.pow_pos_nonneg. Qed.

Section Monotone.
#[local] Opaque num_one_scaled max_scaled.

Lemma nmul_le x x' c : tame x -> tame x' -> tame c -> nzero ⊑ c -> x ⊑ x' -> nmul x c ⊑ nmul x' c.
Proof.
  intros [Dx Tx] [Dx' Tx'] [Dc Tc] (_ & _ & Hc) (_ & _ & Hle). simpl in Hc.
  pose proof max_scaled_large as HM. pose proof one_scaled_pos as HU. change (2 ^ 1074) with num_one_scaled in *.
  assert (forall z, Z.abs z <= 2 ^ 128 * num_one_scaled -> Z.abs (z * num_scaled c) <= max_scaled * num_one_scaled) as H.
  { intros z Hz. rewrite Z.abs_mul. change (2 ^ 300) with (2 ^ 128 * (2 ^ 128 * 2 ^ 44)) in HM.
    set (P := 2 ^ 128) in *. assert (0 < P) by done. 
    assert (Z.abs z * Z.abs (num_scaled c) <= (P * num_one_scaled) * (P * num_one_scaled)) by (apply Z.mul_le_mono_nonneg; lia).
    assert ((P * (P * 2 ^ 44) * num_one_scaled) * num_one_scaled <= max_scaled * num_one_scaled) by (apply Z.mul_le_mono_nonneg_r; lia). nia. }
  split; [|split]; [apply (nmul_nearest x c); auto|apply (nmul_nearest x' c); auto|].
  apply nmul_mono_l; auto.
Qed.

Lemma tame_max x : tame x -> Z.abs (num_scaled x) * num_one_scaled <= max_scaled * num_one_scaled /\ 2 * Z.abs (num_scaled x) <= max_scaled.
Proof.
  intros [_ H]. pose proof max_scaled_large as HM. pose proof one_scaled_pos as HU.
  assert (2 * (2 ^ 128 * num_one_scaled) <= 2 ^ 300 * num_one_scaled).
  { rewrite Z.mul_assoc. apply Z.mul_le_mono_nonneg_r; [lia|by vm_compute]. }
  split; [apply Z.mul_le_mono_nonneg_r; lia|lia].
Qed.

Lemma nadd_le x x' y y' : tame x -> tame x' -> tame y -> tame y' -> x ⊑ x' -> y ⊑ y' -> nadd x y ⊑ nadd x' y'.
Proof.
  intros Tx Tx' Ty Ty' (_ & _ & Hx) (_ & _ & Hy).
  pose proof (proj2 (tame_max _ Tx)). pose proof (proj2 (tame_max _ Tx')). pose proof (proj2 (tame_max _ Ty)). pose proof (proj2 (tame_max _ Ty')).
  destruct Tx as [Dx _], Tx' as [Dx' _], Ty as [Dy _], Ty' as [Dy' _].
  split_and!; [apply (nadd_nearest x y); auto; lia|apply (nadd_nearest x' y'); auto; lia|apply nadd_mono; auto; lia].
Qed.

Lemma nsub_le x x' y y' : tame x -> tame x' -> tame y -> tame y' -> x ⊑ x' -> y' ⊑ y -> nsub x y ⊑ nsub x' y'.
Proof.
  intros Tx Tx' Ty Ty' (_ & _ & Hx) (_ & _ & Hy).
  pose proof (proj2 (tame_max _ Tx)). pose proof (proj2 (tame_max _ Tx')). pose proof (proj2 (tame_max _ Ty)). pose proof (proj2 (tame_max _ Ty')).
  destruct Tx as [Dx _], Tx' as [Dx' _], Ty as [Dy _], Ty' as [Dy' _].
  split_and!; [apply (nsub_nearest x y); auto; lia|apply (nsub_nearest x' y'); auto; lia|apply nsub_mono; auto; lia].
Qed.

(** Division by a number that is at least one. *)
Lemma ndiv_le x x' c : num_of_Z 1 ⊑ c -> x ⊑ x' -> ndiv x c ⊑ ndiv x' c.
Proof.
  intros (_ & Dc & Hc) (Dx & Dx' & Hx).
  assert (num_scaled (num_of_Z 1) = num_one_scaled) as E1 by (by vm_compute). rewrite E1 in Hc.
  pose proof one_scaled_pos as HU.
  assert (forall z, is_double z -> Z.abs (num_scaled z) * num_one_scaled <= max_scaled * num_scaled c) as HM.
  { intros z Hz. pose proof (double_scaled_max z Hz). apply Z.mul_le_mono_nonneg; lia. }
  pose proof (HM x Dx). pose proof (HM x' Dx').
  pose proof (ndiv_nearest x c Dx Dc ltac:(lia)) as N1. pose proof (ndiv_nearest x' c Dx' Dc ltac:(lia)) as N2.
  pose proof (ndiv_mono_l x x' c Dx Dx' Dc Hx ltac:(lia)) as N3. change (2 ^ 1074) with num_one_scaled in *.
  rewrite (Z.abs_eq (num_scaled c)) in N1, N2 by lia.
  split_and!; [apply N1; lia|apply N2; lia|apply N3; lia].
Qed.

(** Differences of non-negative numbers do not overflow. *)
Lemma nsub_le_nonneg x x' y y' : nzero ⊑ x -> nzero ⊑ y' -> x ⊑ x' -> y' ⊑ y -> nsub x y ⊑ nsub x' y'.
Proof.
  intros (_ & _ & Px) (_ & _ & Py) (Dx & Dx' & Hx) (Dy' & Dy & Hy). simpl num_scaled in *.
  pose proof (double_scaled_max x Dx). pose proof (double_scaled_max x' Dx').
  pose proof (double_scaled_max y Dy). pose proof (double_scaled_max y' Dy').
  split_and!; [apply (nsub_nearest x y); auto; lia|apply (nsub_nearest x' y'); auto; lia|apply nsub_mono; auto; lia].
Qed.

Lemma math_round_le x x' : x ⊑ x' -> math_round x ⊑ math_round x'.
Proof.
  intros (Dx & Dx' & H). destruct (math_round_spec x Dx) as [D1 E1], (math_round_spec x' Dx') as [D2 E2].
  split_and!; [done|done|]. rewrite E1, E2. pose proof one_scaled_pos. apply Z.mul_le_mono_nonneg_r; [lia|].
  apply Z.div_le_mono; lia.
Qed.

Lemma math_min_le x x' c : is_double c -> x ⊑ x' -> math_min c x ⊑ math_min c x'.
Proof.
  intros Dc (Dx & Dx' & H). destruct (math_min_spec c x Dc Dx) as [D1 E1], (math_min_spec c x' Dc Dx') as [D2 E2].
  split_and!; [done|done|lia].
Qed.

Lemma math_max_le x x' c : is_double c -> x ⊑ x' -> math_max c x ⊑ math_max c x'.
Proof.
  intros Dc (Dx & Dx' & H). destruct (math_max_spec c x Dc Dx) as [D1 E1], (math_max_spec c x' Dc Dx') as [D2 E2].
  split_and!; [done|done|lia].
Qed.
End Monotone.

(** ** Ranges *)

(** Facts about constants are evaluated. *)
Ltac const_double := split; vm_compute; reflexivity.
Ltac const_le := split; [const_double|split; [const_double|vm_compute; discriminate]].
Ltac const_tame := split; [const_double|vm_compute; discriminate].

(** [x] lies between zero and the tame number [b]. *)
Definition upto (b x : jsnum) : Prop := tame b /\ nzero ⊑ x /\ x ⊑ b.

Lemma zero_tame : tame nzero.
Proof. const_tame. Qed.

Lemma upto_tame b x : upto b x -> tame x.
Proof. intros (Hb & H0 & H1). by apply (tame_between nzero x b zero_tame). Qed.

Lemma upto_weaken b b' x : tame b' -> b ⊑ b' -> upto b x -> upto b' x.
Proof. intros T L (Hb & H0 & H1). split_and!; [done..|by eapply num_le_trans]. Qed.

Lemma nadd_zero_l x : is_double x -> num_scaled (nadd nzero x) = num_scaled x.
Proof. intros [V F]. destruct x as [[]| | |]; try discriminate F; done. Qed.

Lemma upto_add a b c x y : upto a x -> upto b y -> tame c -> nadd a b ⊑ c -> upto c (nadd x y).
Proof.
  intros Hx Hy Tc Hc. pose proof (upto_tame _ _ Hx). pose proof (upto_tame _ _ Hy).
  destruct Hx as (Ta & X0 & X1), Hy as (Tb & Y0 & Y1). split_and!; [done| |].
  - eapply num_le_trans; [|by apply (nadd_le nzero x nzero y zero_tame)]. const_le.
  - eapply num_le_trans; [by apply (nadd_le x a y b)|done].
Qed.

Lemma upto_mul a b c x : upto a x -> tame c -> nzero ⊑ c -> tame b -> nmul a c ⊑ b -> upto b (nmul x c).
Proof.
  intros Hx Tc Pc Tb Hb. pose proof (upto_tame _ _ Hx). destruct Hx as (Ta & X0 & X1). split_and!; [done| |].
  - assert (is_double (nmul nzero c) /\ num_scaled (nmul nzero c) = 0) as [Dz Ez].
    { destruct Pc as (_ & [V F] & _). destruct c; try discriminate F; done. }
    destruct (nmul_le nzero x c zero_tame) as (_ & D2 & H2); try done. split_and!; [const_double|done|]. simpl num_scaled. lia.
  - eapply num_le_trans; [by apply (nmul_le x a c)|done].
Qed.

(** ** Clamping, and rounding to one decimal *)

Definition clamped (k x : jsnum) : jsnum := math_max (num_of_Z 0) (math_min k x).
Definition tenths (n : jsnum) : jsnum := ndiv (math_round (nmul n (num_of_Z 10))) (num_of_Z 10).

Lemma clamped_le k x x' : is_double k -> x ⊑ x' -> clamped k x ⊑ clamped k x'.
Proof. intros Dk H. apply math_max_le; [const_double|]. by apply math_min_le. Qed.

Lemma clamped_range k x : tame k -> nzero ⊑ k -> is_double x -> upto k (clamped k x).
Proof.
  intros Tk (_ & Dk & Pk) Dx. destruct (math_min_spec k x Dk Dx) as [D1 E1].
  destruct (math_max_spec (num_of_Z 0) _ ltac:(const_double) D1) as [D2 E2]. fold (clamped k x) in D2, E2. rewrite E1 in E2.
  change (num_scaled (num_of_Z 0)) with 0 in E2. change (num_scaled nzero) with 0 in Pk.
  split; [done|]. split; [split; [const_double|split; [done|]]; change (num_scaled nzero) with 0; lia|].
  split; [done|split; [done|lia]].
Qed.

Lemma tenths_le x x' : tame x -> tame x' -> x ⊑ x' -> tenths x ⊑ tenths x'.
Proof. intros T T' H. apply ndiv_le; [const_le|]. apply math_round_le, nmul_le; [done|done|const_tame|const_le|done]. Qed.

Lemma tenths_range a b x : upto a x -> tame b -> tenths a ⊑ b -> upto b (tenths x).
Proof.
  intros H Tb Hb. pose proof (upto_tame _ _ H) as Tx. destruct H as (Ta & H0 & H1). split; [done|]. split.
  - apply (num_le_trans _ (tenths nzero)); [const_le|]. apply tenths_le; [apply zero_tame|done|done].
  - eapply num_le_trans; [by apply (tenths_le x a)|done].
Qed.

(** ** Comparators of numbers *)

Lemma neq_true x y : is_double x -> is_double y -> neq x y = true <-> num_scaled x = num_scaled y.
Proof.
  intros [Vx Fx] [Vy Fy]. unfold neq, SFeqb. rewrite SFcompare_scaled by done.
  destruct (Z.compare_spec (num_scaled x) (num_scaled y)); split; intros; try done; lia.
Qed.

Lemma cmp_of_num_spec v : is_double v -> cmp_of_num v = (num_scaled v ?= 0).
Proof.
  intros [V F]. unfold cmp_of_num. rewrite !nlt_scaled by done. change (num_scaled nzero) with 0.
  destruct (Z.compare_spec (num_scaled v) 0), (Z.ltb_spec (num_scaled v) 0), (Z.ltb_spec 0 (num_scaled v)); done || lia.
Qed.

Lemma compare_sgn a b : Z.sgn a = Z.sgn b -> (a ?= 0) = (b ?= 0).
Proof. destruct a, b; done. Qed.

(** The sign of a difference orders the numbers. *)
Lemma cmp_nsub x y : tame x -> tame y -> is_double (nsub x y) /\ cmp_of_num (nsub x y) = (num_scaled x ?= num_scaled y).
Proof.
  intros Tx Ty. pose proof (proj2 (tame_max _ Tx)). pose proof (proj2 (tame_max _ Ty)). destruct Tx as [Dx _], Ty as [Dy _].
  destruct (nsub_sign x y Dx Dy ltac:(lia)) as [D E]. split; [done|]. rewrite cmp_of_num_spec by done.
  rewrite (compare_sgn _ _ E). rewrite <- Z.compare_sub. done.
Qed.

Lemma neq_false_cmp x y : tame x -> tame y -> neq x y = false -> cmp_of_num (nsub x y) <> Eq.
Proof.
  intros Tx Ty H. destruct (cmp_nsub x y Tx Ty) as [_ ->]. intros E%Z.compare_eq.
  destruct Tx as [Dx _], Ty as [Dy _]. apply (neq_true x y Dx Dy) in E. congruence.
Qed.

Lemma neq_zero_cmp d : is_double d -> neq d (num_of_Z 0) = true <-> cmp_of_num d = Eq.
Proof.
  intros D. rewrite (neq_true d (num_of_Z 0) D ltac:(const_double)), (cmp_of_num_spec d D).
  change (num_scaled (num_of_Z 0)) with 0. by rewrite Z.compare_eq_iff.
Qed.

(** A small integer. *)
Lemma int_tame z : Z.abs z <= 2 ^ 53 -> tame (num_of_Z z).
Proof.
  intros Hz. destruct (int_double z Hz) as [D E]. split; [done|]. rewrite E, Z.abs_mul.
  change (2 ^ 1074) with num_one_scaled. pose proof one_scaled_pos.
  rewrite (Z.abs_eq num_one_scaled) by lia. apply Z.mul_le_mono_nonneg_r; [lia|]. lia.
Qed.

#[global] Typeclasses Opaque num_le tame upto is_double.

(** ** Quotients and counts *)

(** Dividing a non-negative number by one or more shrinks it. *)
Lemma ndiv_shrink x c : nzero ⊑ x -> num_of_Z 1 ⊑ c -> nzero ⊑ ndiv x c /\ ndiv x c ⊑ x.
Proof.
  intros (_ & Dx & Px) Hc. assert (nzero ⊑ x) as Hx by (by split; [const_double|]).
  pose proof (ndiv_le nzero x c Hc Hx) as (_ & Dd & Hd). pose proof Hc as (_ & Dc & Pc).
  assert (num_scaled (num_of_Z 1) = num_one_scaled) as E1 by (by vm_compute). rewrite E1 in Pc.
  pose proof one_scaled_pos as HU. change (num_scaled nzero) with 0 in *.
  assert (num_scaled (ndiv nzero c) = 0) as E0 by (destruct Dc as [_ F]; destruct c; try discriminate F; try reflexivity).
  split; [split; [const_double|split; [done|]]; change (num_scaled nzero) with 0; lia|]. split; [done|split; [done|]].
  pose proof (double_scaled_max x Dx) as HM.
  pose proof (ndiv_nearest x c Dx Dc ltac:(lia)) as N1. change (2 ^ 1074) with num_one_scaled in *.
  rewrite Z.sgn_pos, Z.mul_1_l, (Z.abs_eq (num_scaled c)), (Z.abs_eq (num_scaled x)) in N1 by lia.
  apply (nearest_le (num_scaled x * num_one_scaled) (num_scaled c)); [lia|apply N1|done|].
  - apply Z.mul_le_mono_nonneg; lia.
  - apply Z.mul_le_mono_nonneg_l; lia.
Qed.

(** A number of at least one divided by itself is one. *)
Lemma ndiv_self x : num_of_Z 1 ⊑ x -> num_scaled (ndiv x x) = num_one_scaled /\ is_double (ndiv x x).
Proof.
  intros (_ & Dx & Px). assert (num_scaled (num_of_Z 1) = num_one_scaled) as E1 by (by vm_compute). rewrite E1 in Px.
  pose proof one_scaled_pos as HU. pose proof (double_scaled_max x Dx) as HM.
  pose proof (ndiv_nearest x x Dx Dx ltac:(lia)) as N1. change (2 ^ 1074) with num_one_scaled in *.
  rewrite Z.sgn_pos, Z.mul_1_l, (Z.abs_eq (num_scaled x)) in N1 by lia.
  assert (num_one_scaled <= max_scaled).
  { pose proof max_scaled_large. assert (1 * num_one_scaled <= 2 ^ 300 * num_one_scaled) by (apply Z.mul_le_mono_nonneg_r; [lia|by vm_compute]). lia. }
  assert (nearest (num_scaled x * num_one_scaled) (num_scaled x) (ndiv x x)) as N2.
  { apply N1. rewrite Z.mul_comm. apply Z.mul_le_mono_nonneg_r; lia. }
  split; [|apply N2]. rewrite <- E1. apply (nearest_repr (num_scaled x * num_one_scaled) (num_scaled x)); [lia|exact N2|const_double|]. rewrite E1. apply Z.mul_comm.
Qed.

(** Conversion of integers is monotone. *)
Lemma num_of_Z_le a b : 0 <= a <= b -> b <= 2 ^ 64 -> num_of_Z a ⊑ num_of_Z b.
Proof.
  intros Hab Hb. pose proof one_scaled_pos as HU. pose proof max_scaled_large as HM.
  assert (forall z, 0 <= z <= 2 ^ 64 -> nearest (z * num_one_scaled) 1 (num_of_Z z)) as Hn.
  { intros z Hz. apply num_of_Z_nearest. change (2 ^ 1074) with num_one_scaled. rewrite Z.abs_eq by lia.
    assert (z * num_one_scaled <= 2 ^ 300 * num_one_scaled); [|lia]. apply Z.mul_le_mono_nonneg_r; [lia|].
    assert (2 ^ 64 <= 2 ^ 300) by (by apply Z.pow_le_mono_r). lia. }
  pose proof (Hn a ltac:(lia)) as Na. pose proof (Hn b ltac:(lia)) as Nb.
  split; [apply Na|split; [apply Nb|]]. destruct (decide (a = b)) as [->|]; [done|].
  eapply (nearest_mono _ 1 _ _ 1); [done|done|exact Na|exact Nb|]. rewrite !Z.mul_1_r. apply Z.mul_lt_mono_pos_r; lia.
Qed.

Lemma num_of_Z_upto z b : 0 <= z <= b -> b <= 2 ^ 64 -> tame (num_of_Z b) -> upto (num_of_Z b) (num_of_Z z).
Proof. intros Hz Hb T. split; [done|]. split; [|by apply num_of_Z_le]. apply (num_of_Z_le 0 z); lia. Qed.

(** ** Interval propagation *)

Definition within (a b x : jsnum) : Prop := tame a /\ tame b /\ a ⊑ x /\ x ⊑ b.

Lemma within_tame a b x : within a b x -> tame x.
Proof. intros (Ta & Tb & H1 & H2). by apply (tame_between a x b). Qed.

Lemma upto_within b x : upto b x -> within nzero b x.
Proof. intros (T & H0 & H1). split; [apply zero_tame|done]. Qed.

Lemma within_sub_r a b x c : within a b x -> tame c -> tame (nsub a c) -> tame (nsub b c) -> within (nsub a c) (nsub b c) (nsub x c).
Proof.
  intros H Tc T1 T2. pose proof (within_tame _ _ _ H) as Tx. destruct H as (Ta & Tb & H1 & H2).
  pose proof (num_le_refl c (proj1 Tc)). split; [done|split; [done|split; by apply nsub_le]].
Qed.

Lemma within_sub_l a b x k : within a b x -> tame k -> tame (nsub k a) -> tame (nsub k b) -> within (nsub k b) (nsub k a) (nsub k x).
Proof.
  intros H Tk T1 T2. pose proof (within_tame _ _ _ H) as Tx. destruct H as (Ta & Tb & H1 & H2).
  pose proof (num_le_refl k (proj1 Tk)). split; [done|split; [done|split; by apply nsub_le]].
Qed.

Lemma within_div a b x c : within a b x -> num_of_Z 1 ⊑ c -> tame (ndiv a c) -> tame (ndiv b c) -> within (ndiv a c) (ndiv b c) (ndiv x c).
Proof. intros (Ta & Tb & H1 & H2) Hc T1 T2. split; [done|split; [done|split; by apply ndiv_le]]. Qed.

Lemma within_mul a b x c : within a b x -> tame c -> nzero ⊑ c -> tame (nmul a c) -> tame (nmul b c) -> within (nmul a c) (nmul b c) (nmul x c).
Proof.
  intros H Tc Pc T1 T2. pose proof (within_tame _ _ _ H) as Tx. destruct H as (Ta & Tb & H1 & H2).
  split; [done|split; [done|split; by apply nmul_le]].
Qed.

Lemma within_add a b x a' b' x' : within a b x -> within a' b' x' -> tame (nadd a a') -> tame (nadd b b') ->
  within (nadd a a') (nadd b b') (nadd x x').
Proof.
  intros H H' T1 T2. pose proof (within_tame _ _ _ H) as Tx. pose proof (within_tame _ _ _ H') as Tx'.
  destruct H as (Ta & Tb & H1 & H2), H' as (Ta' & Tb' & H1' & H2'). split; [done|split; [done|split; by apply nadd_le]].
Qed.

Lemma within_tenths a b x : within a b x -> tame (tenths a) -> tame (tenths b) -> within (tenths a) (tenths b) (tenths x).
Proof.
  intros H T1 T2. pose proof (within_tame _ _ _ H) as Tx. destruct H as (Ta & Tb & H1 & H2).
  split; [done|split; [done|split; by apply tenths_le]].
Qed.

Lemma within_const a : tame a -> within a a a.
Proof. intros T. pose proof (num_le_refl a (proj1 T)). by repeat (split; [done|]). Qed.
