(* ===== verification/Money.v ===== *)
(** * packages/domain/src/money.ts

    The guards on money values: integer minor units, bigint minor units,
    basis points, currency codes, and the parser of wire-format amounts.  A
    [number] argument is a [jsnum], a [bigint] is a [Z]. *)
From S2P Require Import Prelude JsNumber.
From Stdlib Require Import Ascii String.

Definition assertIntegerMinorUnits (value : jsnum) (fieldName : string) : res unit :=
  do! throw_if (negb (num_isFinite value)) (MoneyInvariantError (fieldName +:+ " must be a finite number"));
  do! throw_if (negb (num_isInteger value)) (MoneyInvariantError (fieldName +:+ " must be an integer in minor units"));
  do! throw_if (nlt value nzero) (MoneyInvariantError (fieldName +:+ " must not be negative"));
  Ok tt.

Definition assertBigIntMinorUnits (value : Z) (fieldName : string) : res unit :=
  do! throw_if (value <? 0) (MoneyInvariantError (fieldName +:+ " must not be negative"));
  Ok tt.

(** *** [BigInt(str)]

    ECMAScript's StringToBigInt: white space around the literal is dropped,
    the empty literal is [0n], then an optionally signed decimal literal or an
    unsigned literal with prefix 0x, 0o or 0b.  [None] is the SyntaxError. *)

Definition is_js_space (c : ascii) : bool :=
  let n := nat_of_ascii c in
  (Nat.leb 9 n && Nat.leb n 13) || Nat.eqb n 32 || Nat.eqb n 160.

Definition digit_value (c : ascii) : option Z :=
  let n := Z.of_nat (nat_of_ascii c) in
  if (48 <=? n) && (n <=? 57) then Some (n - 48)
  else if (65 <=? n) && (n <=? 90) then Some (n - 55)
  else if (97 <=? n) && (n <=? 122) then Some (n - 87)
  else None.

Fixpoint drop_spaces (l : list ascii) : list ascii :=
  match l with
  | c :: l' => if is_js_space c then drop_spaces l' else l
  | [] => []
  end.

Definition trim (l : list ascii) : list ascii := rev (drop_spaces (rev (drop_spaces l))).

Definition digit_below (base : Z) (c : ascii) : option Z :=
  match digit_value c with
  | Some d => if d <? base then Some d else None
  | None => None
  end.

Fixpoint digits_acc (base acc : Z) (l : list ascii) : option Z :=
  match l with
  | [] => Some acc
  | c :: l' =>
      match digit_below base c with
      | Some d => digits_acc base (acc * base + d) l'
      | None => None
      end
  end.

(** One or more digits. *)
Definition digits (base : Z) (l : list ascii) : option Z :=
  match l with
  | [] => None
  | _ => digits_acc base 0 l
  end.

Definition string_to_bigint (s : string) : option Z :=
  match trim (list_ascii_of_string s) with
  | [] => Some 0
  | "+"%char :: l => digits 10 l
  | "-"%char :: l => Z.opp <$> digits 10 l
  | "0"%char :: ("x"%char | "X"%char) :: l => digits 16 l
  | "0"%char :: ("o"%char | "O"%char) :: l => digits 8 l
  | "0"%char :: ("b"%char | "B"%char) :: l => digits 2 l
  | l => digits 10 l
  end.

Definition parseBigIntMinorUnits (value : option string) (fieldName : string) : res Z :=
  match value with
  | None => Ok 0
  | Some s =>
      match string_to_bigint s with
      | None => Throw (MoneyInvariantError (fieldName +:+ " must be a non-negative integer string"))
      | Some parsed => do! assertBigIntMinorUnits parsed fieldName; Ok parsed
      end
  end.

(** [max] defaults to one million. *)
Definition DEFAULT_MAX_BPS : jsnum := num_of_Z 1000000.

Definition assertIntegerBps (value : jsnum) (fieldName : string) (max : jsnum) : res unit :=
  do! throw_if (negb (num_isFinite value) || negb (num_isInteger value))
        (MoneyInvariantError (fieldName +:+ " must be an integer number of basis points"));
  do! throw_if (nlt value nzero) (MoneyInvariantError (fieldName +:+ " must not be negative"));
  do! throw_if (nlt max value) (MoneyInvariantError (fieldName +:+ " exceeds the allowed maximum"));
  Ok tt.

Definition is_upper (c : ascii) : bool :=
  let n := nat_of_ascii c in Nat.leb 65 n && Nat.leb n 90.

Definition assertCurrencyCode (value fieldName : string) : res unit :=
  match list_ascii_of_string value with
  | [a; b; c] =>
      throw_if (negb (is_upper a && is_upper b && is_upper c))
        (MoneyInvariantError (fieldName +:+ " must be a 3-letter uppercase ISO 4217 code"))
  | _ => Throw (MoneyInvariantError (fieldName +:+ " must be a 3-letter uppercase ISO 4217 code"))
  end.

(** ** Facts *)

Lemma assertBigIntMinorUnits_Ok v f : assertBigIntMinorUnits v f = Ok tt <-> 0 <= v.
Proof.
  unfold assertBigIntMinorUnits, throw_if. destruct (Z.ltb_spec v 0); simpl; split; try done; lia.
Qed.

Lemma assertBigIntMinorUnits_cases v f :
  assertBigIntMinorUnits v f
  = if v <? 0 then Throw (MoneyInvariantError (f +:+ " must not be negative")) else Ok tt.
Proof. unfold assertBigIntMinorUnits, throw_if. by destruct (v <? 0). Qed.

Lemma parseBigIntMinorUnits_nonneg v f n : parseBigIntMinorUnits v f = Ok n -> 0 <= n.
Proof.
  destruct v as [s|]; simpl; [|by intros [= <-]].
  destruct (string_to_bigint s); [|done]. intros H. inv_ok.
  by apply assertBigIntMinorUnits_Ok in H0.
Qed.

(** A decimal string of digits, most significant first. *)
Definition decimal (l : list ascii) : Prop := l <> [] /\ Forall (fun c => is_Some (digit_below 10 c)) l.

Lemma digit_below_range base c d : digit_below base c = Some d -> 0 <= d < base.
Proof.
  unfold digit_below, digit_value. repeat case_match; intros; simplify_eq;
    repeat match goal with H : _ && _ = true |- _ => apply andb_true_iff in H as [? ?] end;
    rewrite ?Z.leb_le, ?Z.ltb_lt in *; lia.
Qed.

Lemma digits_acc_app base acc l1 l2 :
  digits_acc base acc (l1 ++ l2)
  = match digits_acc base acc l1 with Some a => digits_acc base a l2 | None => None end.
Proof.
  revert acc. induction l1 as [|c l1 IH]; intros acc; simpl; [done|].
  destruct (digit_below base c); [apply IH|done].
Qed.

Lemma digits_acc_nonneg base acc l n : 0 <= acc -> 0 < base -> digits_acc base acc l = Some n -> 0 <= n.
Proof.
  revert acc. induction l as [|c l IH]; intros acc Ha Hb; simpl; [by intros [= <-]|].
  destruct (digit_below base c) eqn:E; [|done]. apply digit_below_range in E.
  apply IH; [|done]. nia.
Qed.

Lemma digit_not_space c : is_Some (digit_below 10 c) -> is_js_space c = false.
Proof.
  destruct c as [[] [] [] [] [] [] [] []]; vm_compute; first [done | by intros [? [=]]].
Qed.

Lemma trim_digits l : Forall (fun c => is_Some (digit_below 10 c)) l -> trim l = l.
Proof.
  intros Hl. unfold trim.
  assert (forall l', Forall (fun c => is_Some (digit_below 10 c)) l' -> drop_spaces l' = l') as Hd.
  { intros [|c l'] H; simpl; [done|]. inversion H; subst. by rewrite digit_not_space. }
  rewrite (Hd l) by done. rewrite Hd; [apply rev_involutive|].
  by apply Forall_rev.
Qed.

(** A decimal digit string is read as decimal: no digit collides with a sign
    or with a radix prefix. *)
Lemma string_to_bigint_decimal l :
  decimal l -> string_to_bigint (string_of_list_ascii l) = digits_acc 10 0 l.
Proof.
  intros [Hne Hl]. unfold string_to_bigint.
  rewrite list_ascii_of_string_of_list_ascii, trim_digits by done.
  destruct l as [|c1 l]; [done|]. apply Forall_cons in Hl as [Hc1 Hl].
  destruct l as [|c2 l].
  - destruct c1 as [[] [] [] [] [] [] [] []]; try done; vm_compute in Hc1; by destruct Hc1.
  - apply Forall_cons in Hl as [Hc2 Hl].
    destruct c1 as [[] [] [] [] [] [] [] []]; try done; try (vm_compute in Hc1; by destruct Hc1);
    destruct c2 as [[] [] [] [] [] [] [] []]; try done; vm_compute in Hc2; by destruct Hc2.
Qed.

(** ** Round trip with [bigint.toString()] *)

(** [String(n)] of a bigint. *)
Definition bigint_toString (n : Z) : string := pretty n.

Lemma pretty_N_char_digit (x : N) :
  (x < 10)%N -> digit_below 10 (pretty_N_char x) = Some (Z.of_N x).
Proof.
  intros Hx. destruct x as [|p]; [done|]. do 4 (destruct p as [p|p|]; [..|solve [reflexivity | lia]]); lia.
Qed.

Lemma digits_pretty_N_go (x : N) (s : string) :
  digits_acc 10 0 (list_ascii_of_string (pretty_N_go x s)) = digits_acc 10 (Z.of_N x) (list_ascii_of_string s).
Proof.
  revert s. induction (N.lt_wf_0 x) as [x _ IH]. intros s.
  destruct (decide (x = 0)%N) as [->|Hx]; [by rewrite pretty_N_go_0|].
  rewrite pretty_N_go_step by lia.
  rewrite IH by (apply N.div_lt; lia). simpl.
  rewrite pretty_N_char_digit by (apply N.mod_lt; lia).
  f_equal. pose proof (N.div_mod x 10 ltac:(lia)). lia.
Qed.

Lemma digits_acc_decimal acc l n :
  l <> [] -> digits_acc 10 acc l = Some n -> decimal l.
Proof.
  intros Hne H. split; [done|]. clear Hne. revert acc H. induction l as [|c l IH]; intros acc H; [constructor|].
  simpl in H. destruct (digit_below 10 c) eqn:E; [|done]. constructor; [by rewrite E|eauto].
Qed.

Lemma pretty_N_nonempty (p : positive) : list_ascii_of_string (pretty (N.pos p)) <> [].
Proof.
  assert (forall x s, s <> ""%string -> pretty_N_go x s <> ""%string) as Hgo.
  { intros x. induction (N.lt_wf_0 x) as [x _ IH]. intros s Hs.
    destruct (decide (x = 0)%N) as [->|Hx]; [by rewrite pretty_N_go_0|].
    rewrite pretty_N_go_step by lia. apply IH; [apply N.div_lt; lia|done]. }
  unfold pretty, pretty_N. case_decide; [done|].
  rewrite pretty_N_go_step by lia. intros E.
  apply (Hgo (N.pos p `div` 10)%N (String (pretty_N_char (N.pos p `mod` 10)) "")); [done|].
  by destruct (pretty_N_go _ _).
Qed.

Lemma string_to_bigint_toString n : 0 <= n -> string_to_bigint (bigint_toString n) = Some n.
Proof.
  intros Hn. destruct n as [|p|p]; [done| |lia].
  unfold bigint_toString. change (pretty (Z.pos p)) with (pretty (N.pos p)).
  pose proof (pretty_N_nonempty p) as Hne.
  assert (digits_acc 10 0 (list_ascii_of_string (pretty (N.pos p))) = Some (Z.pos p)) as Hd.
  { unfold pretty, pretty_N. case_decide; [done|]. by rewrite digits_pretty_N_go. }
  rewrite <- (string_of_list_ascii_of_string (pretty (N.pos p))).
  rewrite string_to_bigint_decimal; [done|]. by eapply digits_acc_decimal.
Qed.

Lemma trim_minus l : decimal l -> trim ("-"%char :: l) = "-"%char :: l.
Proof.
  intros [Hne Hl]. unfold trim. simpl.
  destruct (rev l) as [|c r] eqn:E; [by apply (f_equal (@rev _)) in E; rewrite rev_involutive in E|].
  simpl. rewrite digit_not_space.
  - change (c :: r ++ ["-"%char]) with ((c :: r) ++ ["-"%char]). rewrite <- E, rev_app_distr, rev_involutive. done.
  - rewrite Forall_forall in Hl. apply Hl, list_elem_of_In, in_rev. rewrite E. by left.
Qed.

Lemma string_to_bigint_toString_all n : string_to_bigint (bigint_toString n) = Some n.
Proof.
  destruct n as [|p|p]; [done|by apply string_to_bigint_toString|].
  unfold bigint_toString. change (pretty (Z.neg p)) with (String "-" (pretty (N.pos p))).
  assert (digits_acc 10 0 (list_ascii_of_string (pretty (N.pos p))) = Some (Z.pos p)) as Hd.
  { unfold pretty, pretty_N. case_decide; [done|]. by rewrite digits_pretty_N_go. }
  pose proof (pretty_N_nonempty p) as Hne. unfold string_to_bigint. simpl list_ascii_of_string.
  rewrite trim_minus by (by eapply digits_acc_decimal).
  unfold digits. destruct (list_ascii_of_string (pretty (N.pos p))); [done|]. by rewrite Hd.
Qed.

(** ** Properties *)

(** An amount printed with [toString] and parsed back by
    [parseBigIntMinorUnits] is the same amount when it is non-negative, and
    every negative amount is refused with the money error; an absent amount is
    zero.  No printed amount is ever refused as unparsable. *)
Theorem wire_amount_roundtrip (n : Z) (fieldName : string) :
  parseBigIntMinorUnits (Some (bigint_toString n)) fieldName
  = (if n <? 0 then Throw (MoneyInvariantError (fieldName +:+ " must not be negative")) else Ok n)
  /\ parseBigIntMinorUnits None fieldName = Ok 0.
Proof.
  split; [|done]. unfold parseBigIntMinorUnits.
  rewrite string_to_bigint_toString_all, assertBigIntMinorUnits_cases. by destruct (n <? 0).
Qed.

(** The two numeric guards reduce to the exact value of the number. *)
Lemma integer_guard v :
  num_valid v = true -> num_isFinite v = true ->
  num_isInteger v = true /\ nlt v nzero = false
  <-> exists n, 0 <= n /\ num_scaled v = n * num_one_scaled.
Proof.
  intros V F. rewrite num_isInteger_scaled by done. rewrite nlt_scaled by done.
  change (num_scaled nzero) with 0. rewrite Z.ltb_ge.
  assert (0 < num_one_scaled) as Hone by done. split.
  - intros [[_ [n Hn]] Hp]. exists n. split; [|done]. rewrite Hn in Hp.
    destruct (decide (0 <= n)); [done|]. nia.
  - intros (n & Hn & E). rewrite E. split; [split; [done|by exists n]|nia].
Qed.

(** [assertIntegerMinorUnits] accepts a number exactly when its value is a
    whole number at least zero, and [assertIntegerBps] exactly when it is one
    and does not exceed [max]; NaN, the infinities, fractions and negatives
    all get the money error.  The value is exact, so no rounding slips
    through. *)
Theorem number_guards_exact (v max : jsnum) (fieldName : string)
  (Hv : num_valid v = true) (Hm : num_valid max = true) (Hf : num_isFinite max = true) :
  (assertIntegerMinorUnits v fieldName = Ok tt
   <-> num_isFinite v = true /\ exists n, 0 <= n /\ num_scaled v = n * num_one_scaled)
  /\ (assertIntegerBps v fieldName max = Ok tt
      <-> num_isFinite v = true
          /\ exists n, 0 <= n /\ num_scaled v = n * num_one_scaled /\ num_scaled v <= num_scaled max).
Proof.
  unfold assertIntegerMinorUnits, assertIntegerBps, throw_if.
  destruct (num_isFinite v) eqn:F; simpl; [|split; split; [done|by intros [? _]|done|by intros [? _]]].
  pose proof (integer_guard v Hv F) as G.
  rewrite (nlt_scaled max v) by done.
  destruct (num_isInteger v), (nlt v nzero), (Z.ltb_spec (num_scaled max) (num_scaled v)); simpl;
    (split; split; [intros ?|intros [_ ?]|intros ?|intros [_ ?]]); try discriminate; try done; naive_solver lia.
Qed.

Lemma number_guards_exact_witness :
  (assertIntegerMinorUnits (num_of_Z 4999) "amount" = Ok tt
   <-> num_isFinite (num_of_Z 4999) = true
       /\ exists n, 0 <= n /\ num_scaled (num_of_Z 4999) = n * num_one_scaled)
  /\ assertIntegerBps (num_lit 25 2) "feeBps" DEFAULT_MAX_BPS <> Ok tt.
Proof.
  split.
  - exact (proj1 (number_guards_exact (num_of_Z 4999) DEFAULT_MAX_BPS "amount" eq_refl eq_refl eq_refl)).
  - vm_compute. discriminate.
Defined.

(** * Volume reconciliation

    packages/domain/src/volume-reconciliation.ts and its use in
    apps/api/src/modules/opportunities/service.ts: the check that an
    opportunity's finest-grain volume slices add up to the offered volume, and
    the selection of the slices that are stored.  Mismatches carry their code;
    message texts are not modelled. *)
#[local] Notation length := List.length.

Record VolumeSliceInput : Type := {
  jurisdiction : string;
  mcc : string;
  cardOrigin : string;
  channel : string;
  period : string;
  currency : string;
  amountMinor : Z
}.

Record OpportunityVolumeSummary : Type := {
  s_currency : string;
  offeredCardGpvMinor : Z;
  movableNowMinor : Z;
  movable30dMinor : Z;
  movable90dMinor : Z
}.

Inductive VolumeMismatchCode : Type :=
| duplicate_cell
| sum_mismatch
| movability_order
| currency_mismatch.

#[global] Instance VolumeMismatchCode_eq_dec : EqDecision VolumeMismatchCode.
Proof. solve_decision. Defined.

Record VolumeReconciliationResult : Type := {
  reconciled : bool;
  sliceTotalMinor : Z;
  r_offeredCardGpvMinor : Z;
  mismatches : list VolumeMismatchCode
}.

(** [`${jurisdiction}|${mcc}|${cardOrigin}|${channel}|${period}`] *)
Definition cellKey (s : VolumeSliceInput) : string :=
  jurisdiction s +:+ "|" +:+ mcc s +:+ "|" +:+ cardOrigin s +:+ "|" +:+ channel s +:+ "|" +:+ period s.

Record SliceLoop : Type := { seenCells : gset string; total : Z; found : list VolumeMismatchCode }.

(** One iteration of the loop over the slices. *)
Definition slice_step (cur : string) (st : SliceLoop) (s : VolumeSliceInput) : res SliceLoop :=
  if amountMinor s <? 0 then Throw (MoneyInvariantError "VolumeSlice.amountMinor must not be negative")
  else
    let key := cellKey s in
    let found1 := found st ++ (if bool_decide (key ∈ seenCells st) then [duplicate_cell] else []) in
    let seen1 := {[key]} ∪ seenCells st in
    if negb (String.eqb (currency s) cur)
    then Ok {| seenCells := seen1; total := total st; found := found1 ++ [currency_mismatch] |}
    else Ok {| seenCells := seen1; total := total st + amountMinor s; found := found1 |}.

Definition reconcileOpportunityVolume (slices : list VolumeSliceInput) (summary : OpportunityVolumeSummary)
    : res VolumeReconciliationResult :=
  let! st := foldM_res (slice_step (s_currency summary)) {| seenCells := ∅; total := 0; found := [] |} slices in
  let m1 := if negb (total st =? offeredCardGpvMinor summary) then [sum_mismatch] else [] in
  let m2 := if negb ((movableNowMinor summary <=? movable30dMinor summary)
                     && (movable30dMinor summary <=? movable90dMinor summary)
                     && (movable90dMinor summary <=? offeredCardGpvMinor summary))
            then [movability_order] else [] in
  let ms := found st ++ m1 ++ m2 in
  Ok {| reconciled := Nat.eqb (length ms) 0;
        sliceTotalMinor := total st;
        r_offeredCardGpvMinor := offeredCardGpvMinor summary;
        mismatches := ms |}.

(** The slices [replaceVolumeSlices] inserts: the first of each cell. *)
Fixpoint firstOfEachCell (seen : gset string) (slices : list VolumeSliceInput) : list VolumeSliceInput :=
  match slices with
  | [] => []
  | s :: rest =>
      if bool_decide (cellKey s ∈ seen) then firstOfEachCell seen rest
      else s :: firstOfEachCell ({[cellKey s]} ∪ seen) rest
  end.

(** ** The cell key is unambiguous *)

Fixpoint no_bar (s : string) : bool :=
  match s with
  | EmptyString => true
  | String c s' => negb (Ascii.eqb c "|"%char) && no_bar s'
  end.

Lemma bar_split a a' b b' :
  no_bar a = true -> no_bar a' = true ->
  a +:+ "|" +:+ b = a' +:+ "|" +:+ b' -> a = a' /\ b = b'.
Proof.
  revert a'. induction a as [|c a IH]; intros [|c' a']; simpl; intros Ha Ha' E.
  - by injection E.
  - injection E as <- _. by rewrite Ascii.eqb_refl in Ha'.
  - injection E as -> _. by rewrite Ascii.eqb_refl in Ha.
  - apply andb_true_iff in Ha as [_ Ha], Ha' as [_ Ha']. injection E as -> E.
    by destruct (IH a' Ha Ha' E) as [-> ->].
Qed.

(** The five identifying fields of a slice. *)
Definition cell (s : VolumeSliceInput) : string * string * string * string * string :=
  (jurisdiction s, mcc s, cardOrigin s, channel s, period s).

Definition clean (s : VolumeSliceInput) : Prop :=
  no_bar (jurisdiction s) = true /\ no_bar (mcc s) = true /\ no_bar (cardOrigin s) = true
  /\ no_bar (channel s) = true.

Lemma cellKey_cell s s' : clean s -> clean s' -> cellKey s = cellKey s' <-> cell s = cell s'.
Proof.
  intros (H1 & H2 & H3 & H4) (H1' & H2' & H3' & H4'). unfold cellKey, cell. split; [|by intros [= E1 E2 E3 E4 E5]; rewrite E1, E2, E3, E4, E5].
  intros E.
  apply bar_split in E as [E1 E]; [|done|done]. apply bar_split in E as [E2 E]; [|done|done].
  apply bar_split in E as [E3 E]; [|done|done]. apply bar_split in E as [E4 E5]; [|done|done]. congruence.
Qed.

Lemma NoDup_cellKey l : Forall clean l -> NoDup (map cellKey l) <-> NoDup (map cell l).
Proof.
  induction 1 as [|s l Hs Hl IH]; simpl; [by split; constructor|].
  rewrite !NoDup_cons, IH. do 2 f_equiv. rewrite !list_elem_of_fmap.
  rewrite Forall_forall in Hl. split; intros (s' & E & Hin); exists s'; (split; [|done]);
    by apply (cellKey_cell s s'); auto.
Qed.

(** ** The loop computed *)

(** The mismatches the loop reports, by the keys seen before. *)
Fixpoint loop_found (cur : string) (seen : gset string) (slices : list VolumeSliceInput) : list VolumeMismatchCode :=
  match slices with
  | [] => []
  | s :: rest =>
      (if bool_decide (cellKey s ∈ seen) then [duplicate_cell] else [])
      ++ (if negb (String.eqb (currency s) cur) then [currency_mismatch] else [])
      ++ loop_found cur ({[cellKey s]} ∪ seen) rest
  end.

Definition countedAmount (cur : string) (s : VolumeSliceInput) : Z :=
  if String.eqb (currency s) cur then amountMinor s else 0.

Lemma slice_loop cur slices st :
  Forall (fun s => 0 <= amountMinor s) slices ->
  exists seen', foldM_res (slice_step cur) st slices
  = Ok {| seenCells := seen'; total := total st + sumZ (map (countedAmount cur) slices);
          found := found st ++ loop_found cur (seenCells st) slices |}.
Proof.
  revert st. induction slices as [|s slices IH]; intros st Hnn; simpl.
  - exists (seenCells st). rewrite app_nil_r, Z.add_0_r. by destruct st.
  - apply Forall_cons in Hnn as [Hs Hnn]. unfold slice_step at 1, countedAmount at 1.
    destruct (Z.ltb_spec (amountMinor s) 0); [lia|].
    destruct (String.eqb (currency s) cur); simpl;
      edestruct IH as [seen' ->]; try done; exists seen'; simpl; rewrite sumZ_cons.
    + do 2 f_equal; [lia|]. by rewrite <- (assoc_L (++)).
    + do 2 f_equal. by rewrite <- !(assoc_L (++)).
Qed.

Lemma slice_loop_negative cur slices st :
  Exists (fun s => amountMinor s < 0) slices ->
  foldM_res (slice_step cur) st slices = Throw (MoneyInvariantError "VolumeSlice.amountMinor must not be negative").
Proof.
  intros H. revert st. induction slices as [|s slices IH]; intros st; [by apply Exists_nil in H|].
  simpl. unfold slice_step at 1. destruct (Z.ltb_spec (amountMinor s) 0) as [|Hge]; [done|].
  apply Exists_cons in H as [H|H]; [lia|].
  destruct (negb (String.eqb (currency s) cur)); simpl; by apply IH.
Qed.

Lemma loop_found_nil cur seen slices :
  loop_found cur seen slices = []
  <-> NoDup (map cellKey slices) /\ Forall (fun s => cellKey s ∉ seen) slices
      /\ Forall (fun s => currency s = cur) slices.
Proof.
  revert seen. induction slices as [|s slices IH]; intros seen; simpl.
  - split; [intros _; split_and!; constructor|done].
  - rewrite NoDup_cons, !Forall_cons.
    destruct (String.eqb_spec (currency s) cur) as [Hc|Hc]; simpl; case_bool_decide as Hk; simpl;
      try (split; [done|naive_solver]).
    rewrite IH, !Forall_forall. split.
    + intros (Hnd & Hall & Hcur). split_and!; try done; [|set_solver].
      rewrite list_elem_of_fmap. intros (s' & E & Hs'). apply (Hall s' Hs'). rewrite <- E. set_solver.
    + intros ([Hni Hnd] & [_ Hall] & [_ Hcur]). split_and!; try done.
      intros s' Hs'. rewrite elem_of_union, elem_of_singleton. intros [E|Hin]; [|by apply (Hall s')].
      apply Hni. rewrite <- E. apply list_elem_of_fmap. eauto.
Qed.

(** Grouping never changes a sum. *)
Lemma sum_by_group {A} (f : A -> Z) (g : A -> string) (l : list A) (keys : list string) :
  NoDup keys -> (forall x, x ∈ l -> g x ∈ keys) ->
  sumZ (map (fun k => sumZ (map f (filter (fun x => g x = k) l))) keys) = sumZ (map f l).
Proof.
  intros Hnd. induction l as [|x l IH]; intros Hk.
  - assert (map (fun k => sumZ (map f (filter (fun x => g x = k) ([] : list A)))) keys = map (fun _ => 0) keys) as -> by done.
    clear. induction keys; unfold sumZ in *; simpl in *; lia.
  - simpl map at 3. rewrite sumZ_cons, <- IH by (intros; apply Hk; set_solver).
    assert (g x ∈ keys) as Hx by (apply Hk; set_solver). clear Hk IH.
    induction Hnd as [|k keys Hni Hnd IH]; [set_solver|].
    simpl map. rewrite !sumZ_cons. rewrite filter_cons. apply elem_of_cons in Hx as [Hx|Hx].
    + rewrite decide_True by done. simpl map. rewrite sumZ_cons. rewrite <- Z.add_assoc. f_equal. f_equal. f_equal.
      apply map_ext_in. intros k' Hin. rewrite filter_cons, decide_False; [done|].
      intros E. apply list_elem_of_In in Hin. congruence.
    + rewrite IH by done. rewrite decide_False; [lia|]. intros E. by subst.
Qed.

Lemma countedAmount_all cur l :
  Forall (fun s => currency s = cur) l -> map (countedAmount cur) l = map amountMinor l.
Proof.
  induction 1 as [|s l <- Hl IH]; simpl; [done|]. rewrite IH. unfold countedAmount. by rewrite String.eqb_refl.
Qed.

(** The result on non-negative slices. *)
Lemma reconcile_value slices summary :
  Forall (fun s => 0 <= amountMinor s) slices ->
  let t := sumZ (map (countedAmount (s_currency summary)) slices) in
  let ms := loop_found (s_currency summary) ∅ slices
            ++ (if negb (t =? offeredCardGpvMinor summary) then [sum_mismatch] else [])
            ++ (if negb ((movableNowMinor summary <=? movable30dMinor summary)
                         && (movable30dMinor summary <=? movable90dMinor summary)
                         && (movable90dMinor summary <=? offeredCardGpvMinor summary))
                then [movability_order] else []) in
  reconcileOpportunityVolume slices summary
  = Ok {| reconciled := Nat.eqb (length ms) 0; sliceTotalMinor := t;
          r_offeredCardGpvMinor := offeredCardGpvMinor summary; mismatches := ms |}.
Proof.
  intros Hnn. unfold reconcileOpportunityVolume.
  destruct (slice_loop (s_currency summary) slices {| seenCells := ∅; total := 0; found := [] |} Hnn) as [seen' ->].
  done.
Qed.

(** A negative amount makes the check throw. *)
Lemma reconcile_negative slices summary :
  ~ Forall (fun s => 0 <= amountMinor s) slices ->
  reconcileOpportunityVolume slices summary = Throw (MoneyInvariantError "VolumeSlice.amountMinor must not be negative").
Proof.
  intros Hneg. apply not_Forall_Exists in Hneg; [|intros ?; apply _].
  unfold reconcileOpportunityVolume. rewrite slice_loop_negative; [done|].
  eapply Exists_impl; [exact Hneg|]. simpl. lia.
Qed.

Lemma reconciled_iff slices summary r :
  reconcileOpportunityVolume slices summary = Ok r ->
  reconciled r = true <->
    NoDup (map cellKey slices)
    /\ Forall (fun s => currency s = s_currency summary) slices
    /\ sumZ (map amountMinor slices) = offeredCardGpvMinor summary
    /\ movableNowMinor summary <= movable30dMinor summary <= movable90dMinor summary
    /\ movable90dMinor summary <= offeredCardGpvMinor summary.
Proof.
  intros Hr. destruct (decide (Forall (fun s => 0 <= amountMinor s) slices)) as [Hnn|Hneg];
    [|by rewrite reconcile_negative in Hr].
  rewrite reconcile_value in Hr by done. injection Hr as <-. simpl reconciled.
  rewrite Nat.eqb_eq, length_zero_iff_nil. split.
  - intros [Hl [Hs Hm]%app_eq_nil]%app_eq_nil. apply loop_found_nil in Hl as (Hnd & _ & Hc).
    rewrite countedAmount_all in * by done.
    repeat case_match; try discriminate. rewrite !negb_false_iff, !andb_true_iff, ?Z.eqb_eq, ?Z.leb_le in *.
    split_and!; tauto || lia.
  - intros (Hnd & Hc & Hs & Hm & Hm'). rewrite countedAmount_all, Hs, Z.eqb_refl by done.
    rewrite (proj2 (loop_found_nil _ _ _)) by (split_and!; [done| |done]; apply Forall_forall; set_solver).
    repeat (rewrite (proj2 (Z.leb_le _ _)) by lia). done.
Qed.

(** ** Properties *)

(** On slices whose identifying fields hold no separator bar, the check
    reports an opportunity as reconciled exactly when no two slices share a
    cell, every slice is in the opportunity's currency, the amounts add up to
    the offered volume and the movable figures are ordered below it; and it
    throws exactly when some amount is negative. *)
Theorem volume_reconciliation_exact (slices : list VolumeSliceInput) (summary : OpportunityVolumeSummary)
  (Hclean : Forall clean slices) :
  (is_ok (reconcileOpportunityVolume slices summary) = true <-> Forall (fun s => 0 <= amountMinor s) slices)
  /\ forall r, reconcileOpportunityVolume slices summary = Ok r ->
     (reconciled r = true <->
        NoDup (map cell slices)
        /\ Forall (fun s => currency s = s_currency summary) slices
        /\ sumZ (map amountMinor slices) = offeredCardGpvMinor summary
        /\ movableNowMinor summary <= movable30dMinor summary <= movable90dMinor summary
        /\ movable90dMinor summary <= offeredCardGpvMinor summary).
Proof.
  setoid_rewrite <- NoDup_cellKey; [|done]. split.
  - destruct (decide (Forall (fun s => 0 <= amountMinor s) slices)) as [Hnn|Hneg].
    + by rewrite reconcile_value.
    + by rewrite reconcile_negative.
  - intros r Hr. by apply reconciled_iff.
Qed.

Definition sample_slice (j m : string) (a : Z) : VolumeSliceInput :=
  {| jurisdiction := j; mcc := m; cardOrigin := "DOMESTIC"; channel := "ECOM"; period := "2026-08";
     currency := "EUR"; amountMinor := a |}.

Definition sample_summary : OpportunityVolumeSummary :=
  {| s_currency := "EUR"; offeredCardGpvMinor := 700; movableNowMinor := 100; movable30dMinor := 300;
     movable90dMinor := 700 |}.

Lemma volume_reconciliation_exact_witness :
  exists r, reconcileOpportunityVolume [sample_slice "DE" "5411" 300; sample_slice "FR" "5411" 400] sample_summary = Ok r
            /\ reconciled r = true.
Proof.
  eexists. split; [reflexivity|].
  apply (proj2 (volume_reconciliation_exact [sample_slice "DE" "5411" 300; sample_slice "FR" "5411" 400] sample_summary
           ltac:(repeat constructor)) _ eq_refl).
  split_and!; try (vm_compute; first [reflexivity|discriminate]).
  - apply NoDup_cons. split; [|apply NoDup_singleton]. vm_compute. intros H. inversion H as [|? ? ? H']; inversion H'.
  - repeat constructor.
Defined.

(** The three SUM checks of the specification are one: when the check
    reconciles, grouping the slices by any key at all (jurisdiction, category,
    the pair) and adding up the group totals again gives the offered volume. *)
Theorem volume_grouping_collapses (slices : list VolumeSliceInput) (summary : OpportunityVolumeSummary)
    (r : VolumeReconciliationResult) (key : VolumeSliceInput -> string)
  (Hr : reconcileOpportunityVolume slices summary = Ok r) (Hok : reconciled r = true) :
  sumZ (map (fun k => sumZ (map amountMinor (filter (fun s => key s = k) slices)))
            (remove_dups (map key slices)))
  = offeredCardGpvMinor summary.
Proof.
  rewrite sum_by_group; [|apply NoDup_remove_dups|].
  - by apply (reconciled_iff _ _ _ Hr) in Hok as (_ & _ & ? & _).
  - intros s Hs. apply elem_of_remove_dups, list_elem_of_fmap. eauto.
Qed.

Lemma volume_grouping_collapses_witness :
  sumZ (map (fun k => sumZ (map amountMinor
     (filter (fun s => mcc s = k) [sample_slice "DE" "5411" 300; sample_slice "FR" "5411" 400])))
     (remove_dups (map mcc [sample_slice "DE" "5411" 300; sample_slice "FR" "5411" 400]))) = 700.
Proof. eapply (volume_grouping_collapses _ sample_summary); vm_compute; reflexivity. Defined.

(** What [replaceVolumeSlices] stores. *)
Lemma firstOfEachCell_keys seen slices :
  NoDup (map cellKey (firstOfEachCell seen slices))
  /\ (forall k, k ∈ map cellKey (firstOfEachCell seen slices) <-> k ∈ map cellKey slices /\ k ∉ seen).
Proof.
  revert seen. induction slices as [|s slices IH]; intros seen; simpl.
  - split; [constructor|set_solver].
  - case_bool_decide as Hk.
    + destruct (IH seen) as [Hnd Hin]. split; [done|]. intros k. rewrite Hin. set_solver.
    + destruct (IH ({[cellKey s]} ∪ seen)) as [Hnd Hin]. simpl. split.
      * rewrite NoDup_cons, Hin. set_solver.
      * intros k. rewrite elem_of_cons, Hin, elem_of_cons.
        destruct (decide (k = cellKey s)); set_solver.
Qed.

Lemma firstOfEachCell_id seen slices :
  NoDup (map cellKey slices) -> Forall (fun s => cellKey s ∉ seen) slices -> firstOfEachCell seen slices = slices.
Proof.
  revert seen. induction slices as [|s slices IH]; intros seen; simpl; [done|].
  rewrite NoDup_cons, Forall_cons. intros [Hni Hnd] [Hs Hall]. rewrite bool_decide_eq_false_2 by done.
  f_equal. apply IH; [done|]. rewrite Forall_forall in *. intros s' Hs' [E%elem_of_singleton|Hin]%elem_of_union.
  - apply Hni. rewrite <- E. apply list_elem_of_fmap. eauto.
  - by apply (Hall s').
Qed.

(** The rows a replacement stores respect the unique constraint of the
    table and cover exactly the submitted cells; when the submitted slices
    reconcile they are all stored, so the stored rows reconcile too. *)
Theorem replace_slices_stored (slices : list VolumeSliceInput) (summary : OpportunityVolumeSummary) :
  NoDup (map cellKey (firstOfEachCell ∅ slices))
  /\ (forall k, k ∈ map cellKey (firstOfEachCell ∅ slices) <-> k ∈ map cellKey slices)
  /\ (forall r, reconcileOpportunityVolume slices summary = Ok r -> reconciled r = true ->
        reconcileOpportunityVolume (firstOfEachCell ∅ slices) summary = Ok r).
Proof.
  destruct (firstOfEachCell_keys ∅ slices) as [Hnd Hin]. split_and!.
  - done.
  - intros k. rewrite Hin. set_solver.
  - intros r Hr Hok. apply (reconciled_iff _ _ _ Hr) in Hok as [Hu _].
    rewrite firstOfEachCell_id; [done|done|apply Forall_forall; set_solver].
Qed.

Lemma replace_slices_stored_witness :
  exists r, reconcileOpportunityVolume (firstOfEachCell ∅ [sample_slice "DE" "5411" 300; sample_slice "FR" "5411" 400])
              sample_summary = Ok r.
Proof.
  eexists.
  refine (proj2 (proj2 (replace_slices_stored [sample_slice "DE" "5411" 300; sample_slice "FR" "5411" 400] sample_summary)) _ _ _);
    vm_compute; reflexivity.
Defined.
