(* ===== verification/EconomicsEngine.v ===== *)
(** * packages/domain/src/economics-engine.ts

    The commission split by largest remainder, the balance of one accrual, the
    reconciliation of a revenue event and the cap/floor disclosure.  Money is
    an unbounded [bigint], a [Z]; [bps] is the integer column of the schema.
    A [Date] is its [getTime()] value, [None] for an Invalid Date; message
    texts are not modelled. *)
From S2P Require Import Prelude StableSort DomainStates Money JsDate.
Import Ledger.

Definition ECONOMICS_ENGINE_VERSION : string := "economics-ledger-v1".

Record EconomicsComponentInput : Type := {
  componentId : string;
  recipientOrgId : string;
  componentType : CommissionComponentType;
  bps : option Z;
  fixedAmountMinor : option Z;
  claimId : option string;
  priority : Z
}.

Record ComputedLedgerEntry : Type := {
  e_componentId : string;
  e_recipientOrgId : string;
  e_claimId : option string;
  e_amountMinor : Z;
  e_direction : LedgerDirection
}.

Record ComputeCommissionSplitsInput : Type := {
  netDistributableMinor : Z;
  components : list EconomicsComponentInput;
  scheduleId : string;
  scheduleVersion : Z;
  now : option Z;
  inputVersions : option (list string)
}.

Record ComputeCommissionSplitsResult : Type := {
  entries : list ComputedLedgerEntry;
  calculationVersion : string;
  computedAt : string;
  r_inputVersions : list string
}.

Definition isFixed (c : EconomicsComponentInput) : bool :=
  bool_decide (componentType c = FIXED_AMOUNT).
Definition isBps (c : EconomicsComponentInput) : bool :=
  bool_decide (componentType c = PERCENTAGE_BPS).

Definition entryFor (c : EconomicsComponentInput) (amount : Z) : ComputedLedgerEntry :=
  {| e_componentId := componentId c; e_recipientOrgId := recipientOrgId c; e_claimId := claimId c;
     e_amountMinor := amount; e_direction := CREDIT |}.

(** The loop over the fixed components: null check, sign check, running total. *)
Definition fixed_step (fixedTotal : Z) (c : EconomicsComponentInput) : res Z :=
  match fixedAmountMinor c with
  | None => Throw (EconomicsInvariantError "FIXED_AMOUNT but fixedAmountMinor is null")
  | Some a => do! assertBigIntMinorUnits a "fixedAmountMinor"; Ok (fixedTotal + a)
  end.

(** The loop over the percentage components. *)
Definition bps_step (bpsTotal : Z) (c : EconomicsComponentInput) : res Z :=
  match bps c with
  | None => Throw (EconomicsInvariantError "PERCENTAGE_BPS but bps is missing or negative")
  | Some b =>
      if b <? 0 then Throw (EconomicsInvariantError "PERCENTAGE_BPS but bps is missing or negative")
      else Ok (bpsTotal + b)
  end.

Record Share : Type := { component : EconomicsComponentInput; floorShare : Z; remainder : Z }.

(** BigInt division and remainder truncate towards zero. *)
Definition shareOf (remainingAfterFixed : Z) (c : EconomicsComponentInput) : Share :=
  let numerator := remainingAfterFixed * default 0 (bps c) in
  {| component := c; floorShare := Z.quot numerator 10000; remainder := Z.rem numerator 10000 |}.

(** Largest remainder first, ties by component id. *)
Definition share_cmp : Share -> Share -> comparison :=
  cmp_lex (cmp_desc (cmp_on remainder Z.compare))
          (cmp_on (fun s => componentId (component s)) String.compare).

(** The distribution loop: one unit per share in rank order while any is left.
    Returns the bonus map and what is left over after one pass. *)
Fixpoint distribute (ranked : list Share) (leftoverPool : Z) (bonusUnits : gmap string Z) : gmap string Z * Z :=
  match ranked with
  | [] => (bonusUnits, leftoverPool)
  | s :: rest =>
      if 0 <? leftoverPool then
        let id := componentId (component s) in
        distribute rest (leftoverPool - 1) (<[id := default 0 (bonusUnits !! id) + 1]> bonusUnits)
      else (bonusUnits, leftoverPool)
  end.

(** The [else] branch: the split of the remainder over percentage components. *)
Definition splitBps (remainingAfterFixed : Z) (bpsComponents : list EconomicsComponentInput)
    : res (list ComputedLedgerEntry) :=
  let! bpsTotal := foldM_res bps_step 0 bpsComponents in
  do! throw_if (negb (bpsTotal =? 10000)) (EconomicsInvariantError "PERCENTAGE_BPS components do not sum to 10000");
  let shares := map (shareOf remainingAfterFixed) bpsComponents in
  let flooredTotal := foldl (fun acc s => acc + floorShare s) 0 shares in
  let leftoverPool := remainingAfterFixed - flooredTotal in
  do! throw_if (leftoverPool <? 0) (EconomicsInvariantError "internal error: leftoverPool went negative");
  let ranked := sort_by share_cmp shares in
  let '(bonusUnits, undistributed) := distribute ranked leftoverPool ∅ in
  do! throw_if (0 <? undistributed) (EconomicsInvariantError "internal error: leftoverPool exceeds one full pass");
  Ok (map (fun s => entryFor (component s) (floorShare s + default 0 (bonusUnits !! componentId (component s)))) shares).

(** [now.toISOString()]: an Invalid Date, [None], has no ISO form. *)
Definition isoOf (d : option Z) : res string :=
  match d with Some t => Ok (JsDate.toISOString t) | None => Throw (RangeError "Invalid time value") end.

Definition computeCommissionSplits (input : ComputeCommissionSplitsInput) : res ComputeCommissionSplitsResult :=
  let net := netDistributableMinor input in
  let comps := components input in
  do! assertBigIntMinorUnits net "netDistributableMinor";
  do! throw_if (Nat.eqb (length comps) 0) (EconomicsInvariantError "no components supplied");
  do! throw_if (has_duplicate ∅ (map componentId comps)) (EconomicsInvariantError "duplicate componentId");
  let fixedComponents := List.filter isFixed comps in
  let bpsComponents := List.filter isBps comps in
  let! fixedTotal := foldM_res fixed_step 0 fixedComponents in
  do! throw_if (net <? fixedTotal) (EconomicsInvariantError "sum of FIXED_AMOUNT components exceeds netDistributableMinor");
  let remainingAfterFixed := net - fixedTotal in
  let fixedEntries := map (fun c => entryFor c (default 0 (fixedAmountMinor c))) fixedComponents in
  let! bpsEntries :=
    match bpsComponents with
    | [] =>
        do! throw_if (negb (remainingAfterFixed =? 0))
              (EconomicsInvariantError "no PERCENTAGE_BPS components to absorb the remainder");
        Ok []
    | _ => splitBps remainingAfterFixed bpsComponents
    end in
  let all := fixedEntries ++ bpsEntries in
  let sumCheck := foldl (fun acc e => acc + e_amountMinor e) 0 all in
  do! throw_if (negb (sumCheck =? net)) (EconomicsInvariantError "internal error: zero-leakage invariant violated");
  let! at_ := isoOf (now input) in
  Ok {| entries := all;
        calculationVersion := ECONOMICS_ENGINE_VERSION;
        computedAt := at_;
        r_inputVersions := default ["schedule:" +:+ scheduleId input +:+ ":v" +:+ pretty (scheduleVersion input)]
                                   (inputVersions input) |}.

(** The components of a schedule that apply to one basis. *)
Definition selectComponentsForBasis (comps : list EconomicsComponentInput)
    (scheduleBasis targetBasis : Schedule.CommissionBasis)
    (componentBasisOverride : gmap string (option Schedule.CommissionBasis)) : list EconomicsComponentInput :=
  List.filter (fun c =>
    bool_decide (default scheduleBasis (mjoin (componentBasisOverride !! componentId c)) = targetBasis)) comps.

(** ** The accrual ledger *)

Record AccrualLedgerEntryLike : Type := {
  entryType : LedgerEntryType;
  direction : LedgerDirection;
  amountMinor : Z
}.

Record AccrualBalance : Type := {
  status : AccrualDerivedStatus;
  originalAmountMinor : Z;
  netAmountMinor : Z;
  paidAmountMinor : Z;
  outstandingAmountMinor : Z
}.

Definition signedAmount (e : AccrualLedgerEntryLike) : Z :=
  if bool_decide (direction e = CREDIT) then amountMinor e else - amountMinor e.

Record BalanceLoop : Type := { b_net : Z; b_paid : Z; b_adjusted : bool; b_reversed : bool }.

Definition balance_step (st : BalanceLoop) (e : AccrualLedgerEntryLike) : BalanceLoop :=
  match entryType e with
  | ADJUSTMENT => {| b_net := b_net st + signedAmount e; b_paid := b_paid st; b_adjusted := true; b_reversed := b_reversed st |}
  | PAYMENT => {| b_net := b_net st; b_paid := b_paid st + amountMinor e; b_adjusted := b_adjusted st; b_reversed := b_reversed st |}
  | REVERSAL => {| b_net := b_net st; b_paid := b_paid st; b_adjusted := b_adjusted st; b_reversed := true |}
  | ACCRUAL => st
  end.

Definition is_type (t : LedgerEntryType) (e : AccrualLedgerEntryLike) : bool := bool_decide (entryType e = t).

Definition computeAccrualBalance (es : list AccrualLedgerEntryLike) : res AccrualBalance :=
  match List.filter (is_type ACCRUAL) es with
  | [root] =>
      let original := amountMinor root in
      let st := foldl balance_step {| b_net := original; b_paid := 0; b_adjusted := false; b_reversed := false |} es in
      let outstanding := if b_reversed st then 0 else b_net st - b_paid st in
      let status :=
        if b_reversed st then REVERSED
        else if outstanding <=? 0 then PAID
        else if 0 <? b_paid st then PARTIALLY_PAID
        else if b_adjusted st then ADJUSTED
        else ACCRUED in
      Ok {| status := status; originalAmountMinor := original; netAmountMinor := b_net st;
            paidAmountMinor := b_paid st; outstandingAmountMinor := outstanding |}
  | _ => Throw (EconomicsInvariantError "expected exactly one ACCRUAL entry")
  end.

(** ** Reconciliation of a revenue event *)

Inductive RevenueEventMismatchCode : Type := basis_mismatch | distribution_mismatch.

Record RevenueEventReconciliationInput : Type := {
  i_grossAmountMinor : Z;
  i_deductionsMinor : Z;
  i_netDistributableMinor : Z;
  i_ledgerEntries : list AccrualLedgerEntryLike
}.

Record RevenueEventReconciliation : Type := {
  reconciled : bool;
  distributedMinor : Z;
  paidMinor : Z;
  outstandingMinor : Z;
  mismatches : list RevenueEventMismatchCode
}.

Record ReconcileLoop : Type := { l_distributed : Z; l_paid : Z; l_adjustmentNet : Z; l_reversed : Z }.

Definition reconcile_step (st : ReconcileLoop) (e : AccrualLedgerEntryLike) : ReconcileLoop :=
  match entryType e with
  | ACCRUAL => {| l_distributed := l_distributed st + amountMinor e; l_paid := l_paid st;
                  l_adjustmentNet := l_adjustmentNet st; l_reversed := l_reversed st |}
  | PAYMENT => {| l_distributed := l_distributed st; l_paid := l_paid st + amountMinor e;
                  l_adjustmentNet := l_adjustmentNet st; l_reversed := l_reversed st |}
  | ADJUSTMENT => {| l_distributed := l_distributed st; l_paid := l_paid st;
                     l_adjustmentNet := l_adjustmentNet st + signedAmount e; l_reversed := l_reversed st |}
  | REVERSAL => {| l_distributed := l_distributed st; l_paid := l_paid st;
                   l_adjustmentNet := l_adjustmentNet st; l_reversed := l_reversed st + amountMinor e |}
  end.

Definition reconcileRevenueEvent (input : RevenueEventReconciliationInput) : RevenueEventReconciliation :=
  let expectedNet := i_grossAmountMinor input - i_deductionsMinor input in
  let m1 := if negb (expectedNet =? i_netDistributableMinor input) then [basis_mismatch] else [] in
  let st := foldl reconcile_step {| l_distributed := 0; l_paid := 0; l_adjustmentNet := 0; l_reversed := 0 |}
                  (i_ledgerEntries input) in
  let m2 := if negb (l_distributed st =? i_netDistributableMinor input) then [distribution_mismatch] else [] in
  {| reconciled := Nat.eqb (length (m1 ++ m2)) 0;
     distributedMinor := l_distributed st;
     paidMinor := l_paid st;
     outstandingMinor := l_distributed st + l_adjustmentNet st - l_paid st - l_reversed st;
     mismatches := m1 ++ m2 |}.

(** ** Cap and floor of a schedule version *)

Record ScheduleCapFloorInput : Type := { capMinor : option Z; floorMinor : option Z; cumulativeDistributedMinor : Z }.

Record ScheduleCapFloorStatus : Type := {
  withinCap : bool;
  capExceededByMinor : option Z;
  withinFloor : bool;
  floorShortfallMinor : option Z
}.

Definition assert_opt (v : option Z) (f : string) : res unit :=
  match v with None => Ok tt | Some a => assertBigIntMinorUnits a f end.

Definition evaluateScheduleCapFloor (input : ScheduleCapFloorInput) : res ScheduleCapFloorStatus :=
  let cum := cumulativeDistributedMinor input in
  do! assertBigIntMinorUnits cum "cumulativeDistributedMinor";
  do! assert_opt (capMinor input) "capMinor";
  do! assert_opt (floorMinor input) "floorMinor";
  let exceeded := match capMinor input with Some c => if c <? cum then Some (cum - c) else None | None => None end in
  let shortfall := match floorMinor input with Some f => if cum <? f then Some (f - cum) else None | None => None end in
  Ok {| withinCap := bool_decide (exceeded = None); capExceededByMinor := exceeded;
        withinFloor := bool_decide (shortfall = None); floorShortfallMinor := shortfall |}.

Definition sample_component (id org : string) (t : CommissionComponentType) (b f : option Z) : EconomicsComponentInput :=
  {| componentId := id; recipientOrgId := org; componentType := t; bps := b; fixedAmountMinor := f;
     claimId := None; priority := 0 |}.

Definition sample_split (net : Z) (cs : list EconomicsComponentInput) : ComputeCommissionSplitsInput :=
  {| netDistributableMinor := net; components := cs; scheduleId := "sch"; scheduleVersion := 1; now := Some 0;
     inputVersions := None |}.

Example split_thirds :
  (fun r => map e_amountMinor (entries r)) <$>
  match computeCommissionSplits (sample_split 100
      [sample_component "a" "A" PERCENTAGE_BPS (Some 3333) None;
       sample_component "b" "B" PERCENTAGE_BPS (Some 3333) None;
       sample_component "c" "C" PERCENTAGE_BPS (Some 3334) None]) with Ok r => Some r | Throw _ => None end
  = Some [33; 33; 34].
Proof. vm_compute. reflexivity. Qed.

(** * Properties of the economics engine

    The commission split is total on valid schedules, leaks nothing, keeps
    every share within one minor unit of its exact quota and does not depend
    on the order of the components; the ledger arithmetic is a function of the
    multiset of entries and agrees across the engine's functions. *)
Import Ledger.

Definition bpsOf (c : EconomicsComponentInput) : Z := default 0 (bps c).
Definition fixedOf (c : EconomicsComponentInput) : Z := default 0 (fixedAmountMinor c).

(** A usable rate, a usable fixed amount. *)
Definition hasBps (c : EconomicsComponentInput) : Prop := exists b, bps c = Some b /\ 0 <= b.
Definition hasFixed (c : EconomicsComponentInput) : Prop := exists a, fixedAmountMinor c = Some a /\ 0 <= a.

#[global] Instance hasBps_dec c : Decision (hasBps c).
Proof.
  unfold hasBps. destruct (bps c) as [b|]; [|right; naive_solver].
  destruct (decide (0 <= b)); [left; eauto|right; naive_solver].
Defined.

#[global] Instance hasFixed_dec c : Decision (hasFixed c).
Proof.
  unfold hasFixed. destruct (fixedAmountMinor c) as [a|]; [|right; naive_solver].
  destruct (decide (0 <= a)); [left; eauto|right; naive_solver].
Defined.

Definition share_id (s : Share) : string := componentId (component s).

Definition rankedShares (R : Z) (cs : list EconomicsComponentInput) : list Share :=
  sort_by share_cmp (map (shareOf R) cs).

Definition leftover (R : Z) (cs : list EconomicsComponentInput) : Z :=
  R - sumZ (map floorShare (map (shareOf R) cs)).

(** What a percentage component receives: its floor and one more unit when it
    ranks among the first [leftover] remainders. *)
Definition shareAmount (R : Z) (cs : list EconomicsComponentInput) (c : EconomicsComponentInput) : Z :=
  floorShare (shareOf R c)
  + (if bool_decide (componentId c ∈ take (Z.to_nat (leftover R cs)) (map share_id (rankedShares R cs))) then 1 else 0).

#[global] Instance share_cmp_order : CmpOrder share_cmp.
Proof. unfold share_cmp. apply _. Qed.

Lemma share_cmp_eq s s' : share_cmp s s' = Eq -> share_id s = share_id s'.
Proof.
  unfold share_cmp, cmp_lex, cmp_then, cmp_desc, cmp_on.
  destruct (Z.compare _ _); [|done|done]. by intros ?%string_compare_eq.
Qed.

Lemma share_cmp_remainder s s' : share_cmp s s' <> Gt -> remainder s' <= remainder s.
Proof.
  unfold share_cmp, cmp_lex, cmp_then, cmp_desc, cmp_on.
  destruct (Z.compare_spec (remainder s') (remainder s)); [lia|lia|done].
Qed.

(** ** Floors and remainders *)

Lemma share_split R c :
  0 <= R -> 0 <= bpsOf c ->
  R * bpsOf c = 10000 * floorShare (shareOf R c) + remainder (shareOf R c)
  /\ 0 <= remainder (shareOf R c) < 10000 /\ 0 <= floorShare (shareOf R c).
Proof.
  intros HR Hb. unfold shareOf, bpsOf in *. simpl.
  assert (0 <= R * default 0 (bps c)) as Hn by nia.
  split_and!.
  - apply Z.quot_rem'.
  - apply Z.rem_nonneg; lia.
  - apply Z.rem_bound_pos; lia.
  - apply Z.quot_pos; lia.
Qed.

Definition goodBps (R : Z) (cs : list EconomicsComponentInput) : Prop :=
  0 <= R /\ Forall hasBps cs
  /\ sumZ (map bpsOf cs) = 10000 /\ NoDup (map componentId cs).

Lemma goodBps_nonneg R cs c : goodBps R cs -> c ∈ cs -> 0 <= bpsOf c.
Proof.
  intros (_ & Hb & _) Hc. rewrite Forall_forall in Hb. destruct (Hb c Hc) as (b & E & ?).
  unfold bpsOf. by rewrite E.
Qed.

(** The remainders add up to the leftover, in units of 1/10000. *)
Lemma remainders_sum R cs :
  goodBps R cs -> sumZ (map (fun c => remainder (shareOf R c)) cs) = 10000 * leftover R cs.
Proof.
  intros Hg. pose proof Hg as (HR & Hb & Hsum & _). unfold leftover. rewrite map_map.
  assert (sumZ (map (fun c => R * bpsOf c) cs)
          = 10000 * sumZ (map (fun c => floorShare (shareOf R c)) cs)
            + sumZ (map (fun c => remainder (shareOf R c)) cs)) as E.
  { rewrite <- sumZ_map_mul_l, <- sumZ_map_add. f_equal. apply map_ext_in. intros c Hc.
    apply list_elem_of_In in Hc. apply share_split; [done|]. by eapply goodBps_nonneg. }
  rewrite sumZ_map_mul_l, Hsum in E. lia.
Qed.

Lemma sumZ_map_lt_bound {A} (f : A -> Z) (k : Z) l :
  l <> [] -> (forall x, x ∈ l -> f x < k) -> sumZ (map f l) < k * Z.of_nat (length l).
Proof.
  intros Hne. induction l as [|x l IH]; [done|]. intros Hb. simpl map. rewrite sumZ_cons. simpl length.
  pose proof (Hb x ltac:(set_solver)). destruct l as [|y l]; [unfold sumZ; simpl; lia|].
  specialize (IH ltac:(done) ltac:(intros; apply Hb; set_solver)). lia.
Qed.

Lemma leftover_bounds R cs :
  goodBps R cs -> cs <> [] -> 0 <= leftover R cs < Z.of_nat (length cs).
Proof.
  intros Hg Hne. pose proof (remainders_sum R cs Hg) as E.
  assert (forall c, c ∈ cs -> 0 <= remainder (shareOf R c) < 10000) as Hr.
  { intros c Hc. apply share_split; [apply Hg|]. by eapply goodBps_nonneg. }
  assert (0 <= sumZ (map (fun c => remainder (shareOf R c)) cs)).
  { apply sumZ_nonneg. rewrite Forall_fmap. apply Forall_forall. intros c Hc. by apply Hr. }
  pose proof (sumZ_map_lt_bound (fun c => remainder (shareOf R c)) 10000 cs Hne ltac:(intros; by apply Hr)).
  lia.
Qed.

(** ** The distribution loop *)

Lemma distribute_spec ranked L b :
  0 <= L -> NoDup (map share_id ranked) -> (forall s, s ∈ ranked -> b !! share_id s = None) ->
  (distribute ranked L b).2 = Z.max 0 (L - Z.of_nat (length ranked))
  /\ forall id, default 0 ((distribute ranked L b).1 !! id)
                = default 0 (b !! id)
                  + (if bool_decide (id ∈ take (Z.to_nat L) (map share_id ranked)) then 1 else 0).
Proof.
  revert L b. induction ranked as [|s ranked IH]; intros L b HL Hnd Hb; simpl.
  - split; [lia|]. intros id. rewrite take_nil, bool_decide_eq_false_2 by set_solver. lia.
  - apply NoDup_cons in Hnd as [Hni Hnd]. destruct (Z.ltb_spec 0 L) as [Hpos|Hz].
    + destruct (IH (L - 1) (<[share_id s := default 0 (b !! share_id s) + 1]> b)) as [Hl Hd]; [lia|done| |].
      { intros s' Hs'. rewrite lookup_insert_ne; [apply Hb; set_solver|].
        intros E. apply Hni. rewrite E. apply list_elem_of_fmap. eauto. }
      split; [unfold share_id in Hl; rewrite Hl; lia|]. intros id. unfold share_id at 1 2 in Hd. rewrite Hd.
      destruct (Z.to_nat L) as [|k] eqn:Ek; [lia|]. replace (Z.to_nat (L - 1)) with k by lia. simpl take.
      rewrite (Hb s) in * by set_solver. fold (share_id s).
      destruct (decide (id = share_id s)) as [->|Hne].
      * rewrite lookup_insert_eq, (Hb s) by set_solver. simpl.
        rewrite bool_decide_eq_false_2, bool_decide_eq_true_2; [lia|set_solver|].
        intros Hin. apply Hni. by eapply elem_take.
      * rewrite lookup_insert_ne by done. f_equal.
        rewrite (bool_decide_ext (id ∈ share_id s :: _) (id ∈ take k (map share_id ranked))); [done|].
        rewrite elem_of_cons. naive_solver.
    + assert (L = 0) as -> by lia. change (Z.to_nat 0) with 0%nat. rewrite take_0.
      split; [simpl; lia|]. intros id. rewrite bool_decide_eq_false_2 by set_solver. simpl. lia.
Qed.

Lemma rankedShares_ids R cs : map share_id (rankedShares R cs) ≡ₚ map componentId cs.
Proof. unfold rankedShares. rewrite sort_by_perm, map_map. done. Qed.

(** Summing an indicator over a duplicate-free list counts the hits. *)
Lemma indicator_sum (l sub : list string) :
  NoDup l -> NoDup sub -> sub ⊆ l ->
  sumZ (map (fun x => if bool_decide (x ∈ sub) then 1 else 0) l) = Z.of_nat (length sub).
Proof.
  intros Hl Hs Hsub.
  assert (sumZ (map (fun x => if bool_decide (x ∈ sub) then 1 else 0) l)
          = Z.of_nat (length (filter (fun x => x ∈ sub) l))) as ->.
  { clear. induction l as [|x l IH]; [done|]. simpl map. rewrite sumZ_cons, filter_cons, IH.
    case_bool_decide; [rewrite decide_True by done; simpl; lia|rewrite decide_False by done; lia]. }
  f_equal. apply Permutation_length. apply NoDup_Permutation; [by apply NoDup_filter|done|].
  intros x. rewrite list_elem_of_filter. split; [tauto|]. intros Hx. split; [done|by apply Hsub].
Qed.

Lemma shareAmount_sum R cs :
  goodBps R cs -> cs <> [] -> sumZ (map (shareAmount R cs) cs) = R.
Proof.
  intros Hg Hne. pose proof (leftover_bounds R cs Hg Hne) as HL.
  unfold shareAmount. rewrite sumZ_map_add.
  pose proof (rankedShares_ids R cs) as Hp.
  set (ids := map share_id (rankedShares R cs)) in *.
  assert (NoDup (map componentId cs)) as Hnd by apply Hg.
  assert (NoDup ids) as Hndr by (by rewrite Hp).
  set (hit := fun x => if bool_decide (x ∈ take (Z.to_nat (leftover R cs)) ids) then 1 else 0).
  change (sumZ (map (fun c => floorShare (shareOf R c)) cs) + sumZ (map (fun c => hit (componentId c)) cs) = R).
  rewrite <- (map_map componentId hit cs). unfold hit.
  rewrite indicator_sum; [|done|by apply NoDup_take_l|].
  - rewrite length_take, (Permutation_length Hp), length_map. unfold leftover in *. rewrite map_map in *. lia.
  - intros x Hx. rewrite <- Hp. by eapply elem_take.
Qed.

(** ** The split over percentage components computed *)

Lemma bps_loop cs t :
  Forall hasBps cs -> foldM_res bps_step t cs = Ok (t + sumZ (map bpsOf cs)).
Proof.
  intros H. revert t. induction H as [|c cs (b & Hb & Hpos) Hcs IH]; intros t; simpl.
  - by rewrite Z.add_0_r.
  - unfold bps_step at 1. rewrite Hb. destruct (Z.ltb_spec b 0); [lia|]. simpl. rewrite IH, sumZ_cons.
    unfold bpsOf at 2. rewrite Hb. simpl. f_equal. lia.
Qed.

Lemma bps_loop_bad cs t :
  ~ Forall hasBps cs ->
  foldM_res bps_step t cs = Throw (EconomicsInvariantError "PERCENTAGE_BPS but bps is missing or negative").
Proof.
  revert t. induction cs as [|c cs IH]; intros t Hn; [by destruct Hn|]. simpl. unfold bps_step at 1.
  destruct (bps c) as [b|] eqn:E; [|done]. destruct (Z.ltb_spec b 0) as [|Hge]; [done|]. simpl. apply IH.
  intros Hall. apply Hn. constructor; [by exists b|done].
Qed.

Lemma fixed_loop cs t :
  Forall hasFixed cs ->
  foldM_res fixed_step t cs = Ok (t + sumZ (map fixedOf cs)).
Proof.
  intros H. revert t. induction H as [|c cs (a & Ha & Hpos) Hcs IH]; intros t; simpl.
  - by rewrite Z.add_0_r.
  - unfold fixed_step at 1. rewrite Ha, assertBigIntMinorUnits_cases. destruct (Z.ltb_spec a 0); [lia|]. simpl.
    rewrite IH, sumZ_cons. unfold fixedOf at 2. rewrite Ha. simpl. f_equal. lia.
Qed.

Lemma fixed_loop_bad cs t :
  ~ Forall hasFixed cs ->
  foldM_res fixed_step t cs = Throw (EconomicsInvariantError "FIXED_AMOUNT but fixedAmountMinor is null")
  \/ foldM_res fixed_step t cs = Throw (MoneyInvariantError "fixedAmountMinor must not be negative").
Proof.
  revert t. induction cs as [|c cs IH]; intros t Hn; [by destruct Hn|]. simpl. unfold fixed_step at 1 3.
  destruct (fixedAmountMinor c) as [a|] eqn:E; [|by left].
  rewrite assertBigIntMinorUnits_cases. destruct (Z.ltb_spec a 0) as [|Hge]; [by right|]. simpl. apply IH.
  intros Hall. apply Hn. constructor; [by exists a|done].
Qed.

Lemma foldl_floorShare l z : foldl (fun acc s => acc + floorShare s) z l = z + sumZ (map floorShare l).
Proof.
  revert z. induction l as [|s l IH]; intros z; simpl; [by rewrite Z.add_0_r|]. rewrite IH, sumZ_cons. lia.
Qed.

Lemma foldl_amount l z : foldl (fun acc e => acc + e_amountMinor e) z l = z + sumZ (map e_amountMinor l).
Proof.
  revert z. induction l as [|s l IH]; intros z; simpl; [by rewrite Z.add_0_r|]. rewrite IH, sumZ_cons. lia.
Qed.

(** On valid percentage components no internal check fires and every
    component receives its [shareAmount]. *)
Lemma splitBps_value R cs :
  goodBps R cs -> cs <> [] -> splitBps R cs = Ok (map (fun c => entryFor c (shareAmount R cs c)) cs).
Proof.
  intros Hg Hne. pose proof (leftover_bounds R cs Hg Hne) as HL.
  pose proof Hg as (HR & Hb & Hsum & Hnd). unfold splitBps.
  rewrite bps_loop, Hsum by done. simpl. rewrite foldl_floorShare.
  change (R - (0 + sumZ (map floorShare (map (shareOf R) cs)))) with (leftover R cs).
  unfold throw_if at 1. destruct (Z.ltb_spec (leftover R cs) 0); [lia|]. simpl.
  fold (rankedShares R cs).
  pose proof (distribute_spec (rankedShares R cs) (leftover R cs) ∅) as [Hleft Hbonus].
  { lia. } { by rewrite rankedShares_ids. } { intros; apply lookup_empty. }
  destruct (distribute (rankedShares R cs) (leftover R cs) ∅) as [bonus undist]. simpl in Hleft, Hbonus.
  assert (length (rankedShares R cs) = length cs) as Hlen.
  { unfold rankedShares. by rewrite sort_by_length, length_map. }
  rewrite Hlen in Hleft. rewrite Z.max_l in Hleft by lia. subst undist. simpl. f_equal.
  rewrite map_map. apply map_ext. intros c. unfold shareAmount. simpl.
  change (componentId (component (shareOf R c))) with (componentId c).
  by rewrite Hbonus, lookup_empty.
Qed.

Lemma splitBps_bad R cs :
  ~ (Forall hasBps cs /\ sumZ (map bpsOf cs) = 10000) ->
  splitBps R cs = Throw (EconomicsInvariantError "PERCENTAGE_BPS but bps is missing or negative")
  \/ splitBps R cs = Throw (EconomicsInvariantError "PERCENTAGE_BPS components do not sum to 10000").
Proof.
  intros Hn. unfold splitBps.
  destruct (decide (Forall hasBps cs)) as [Hb|Hb].
  - rewrite bps_loop by done. simpl. destruct (Z.eqb_spec (0 + sumZ (map bpsOf cs)) 10000) as [E|E]; simpl; [|by right].
    destruct Hn. split; [done|]. lia.
  - left. by rewrite bps_loop_bad.
Qed.

(** ** The whole split *)

Definition fixedComponents (comps : list EconomicsComponentInput) := List.filter isFixed comps.
Definition bpsComponents (comps : list EconomicsComponentInput) := List.filter isBps comps.
Definition fixedTotal (comps : list EconomicsComponentInput) : Z := sumZ (map fixedOf (fixedComponents comps)).

(** A schedule and amount the engine accepts. *)
Definition validParts (input : ComputeCommissionSplitsInput) : Prop :=
  let net := netDistributableMinor input in
  let comps := components input in
  0 <= net /\ comps <> [] /\ NoDup (map componentId comps)
  /\ Forall hasFixed (fixedComponents comps) /\ fixedTotal comps <= net
  /\ (bpsComponents comps = [] -> fixedTotal comps = net)
  /\ (bpsComponents comps <> [] ->
        Forall hasBps (bpsComponents comps) /\ sumZ (map bpsOf (bpsComponents comps)) = 10000).

(** An input the engine accepts: its date is valid as well. *)
Definition validSplit (input : ComputeCommissionSplitsInput) : Prop := validParts input /\ is_Some (now input).

(** The distribution the engine computes for a valid input. *)
Definition splitEntries (input : ComputeCommissionSplitsInput) : list ComputedLedgerEntry :=
  let comps := components input in
  let R := netDistributableMinor input - fixedTotal comps in
  map (fun c => entryFor c (fixedOf c)) (fixedComponents comps)
  ++ map (fun c => entryFor c (shareAmount R (bpsComponents comps) c)) (bpsComponents comps).

Lemma filter_ids_NoDup f comps :
  NoDup (map componentId comps) -> NoDup (map componentId (List.filter f comps)).
Proof.
  induction comps as [|c comps IH]; simpl; [done|]. rewrite NoDup_cons. intros [Hni Hnd].
  destruct (f c); simpl; [|by apply IH]. rewrite NoDup_cons. split; [|by apply IH].
  intros (c' & E & [Hin _]%list_elem_of_In%filter_In)%list_elem_of_fmap. apply Hni. rewrite E.
  apply list_elem_of_fmap. exists c'. split; [done|]. by apply list_elem_of_In.
Qed.

Lemma validParts_goodBps input :
  validParts input -> bpsComponents (components input) <> [] ->
  goodBps (netDistributableMinor input - fixedTotal (components input)) (bpsComponents (components input)).
Proof.
  intros (Hnet & _ & Hnd & _ & Hle & _ & Hb) Hne. destruct (Hb Hne) as [Hb1 Hb2].
  split_and!; [lia|done|done|]. by apply filter_ids_NoDup.
Qed.

Lemma splitEntries_sum input :
  validParts input -> sumZ (map e_amountMinor (splitEntries input)) = netDistributableMinor input.
Proof.
  intros Hv. unfold splitEntries. rewrite map_app, sumZ_app, !map_map. simpl.
  change (sumZ (map (fun c => fixedOf c) (fixedComponents (components input)))) with (fixedTotal (components input)).
  destruct (decide (bpsComponents (components input) = [])) as [E|Hne].
  - rewrite E. unfold sumZ at 1. simpl. destruct Hv as (_ & _ & _ & _ & _ & Hz & _). specialize (Hz E). lia.
  - rewrite shareAmount_sum; [lia|by apply validParts_goodBps|done].
Qed.

Definition splitResult (input : ComputeCommissionSplitsInput) : ComputeCommissionSplitsResult :=
  {| entries := splitEntries input;
     calculationVersion := ECONOMICS_ENGINE_VERSION;
     computedAt := from_option JsDate.toISOString "" (now input);
     r_inputVersions := default ["schedule:" +:+ scheduleId input +:+ ":v" +:+ pretty (scheduleVersion input)]
                                (inputVersions input) |}.

Lemma split_parts input :
  validParts input -> computeCommissionSplits input = let! _ := isoOf (now input) in Ok (splitResult input).
Proof.
  intros Hv. pose proof Hv as (Hnet & Hne & Hnd & Hfix & Hle & Hz & Hb).
  unfold computeCommissionSplits.
  rewrite assertBigIntMinorUnits_cases. destruct (Z.ltb_spec (netDistributableMinor input) 0); [lia|]. simpl.
  destruct (Nat.eqb_spec (length (components input)) 0) as [E|_]; [by apply length_zero_iff_nil in E|]. simpl.
  assert (has_duplicate ∅ (map componentId (components input)) = false) as ->.
  { apply has_duplicate_false. split; [done|]. apply Forall_forall. set_solver. }
  simpl. rewrite fixed_loop by done. simpl.
  change (0 + sumZ (map fixedOf (List.filter isFixed (components input)))) with (fixedTotal (components input)).
  unfold throw_if at 1. destruct (Z.ltb_spec (netDistributableMinor input) (fixedTotal (components input))); [lia|]. simpl.
  fold (bpsComponents (components input)).
  assert (forall ys, match bpsComponents (components input) with
          | [] => do! throw_if (negb (netDistributableMinor input - fixedTotal (components input) =? 0))
                      (EconomicsInvariantError "no PERCENTAGE_BPS components to absorb the remainder"); Ok []
          | _ => splitBps (netDistributableMinor input - fixedTotal (components input)) (bpsComponents (components input))
          end = Ok ys <-> ys = map (fun c => entryFor c (shareAmount (netDistributableMinor input - fixedTotal (components input))
                                   (bpsComponents (components input)) c)) (bpsComponents (components input))) as Hbody.
  { intros ys. pose proof (validParts_goodBps input Hv) as Hg.
    destruct (bpsComponents (components input)) as [|c cs] eqn:E.
    - specialize (Hz eq_refl). rewrite Hz, Z.sub_diag. simpl. naive_solver.
    - rewrite splitBps_value; [naive_solver|by apply Hg|done]. }
  rewrite (proj2 (Hbody _) eq_refl). simpl rbind.
  rewrite foldl_amount. fold (fixedComponents (components input)).
  change (map (fun c => entryFor c (default 0 (fixedAmountMinor c))) (fixedComponents (components input)) ++ _)
    with (splitEntries input).
  rewrite splitEntries_sum, Z.add_0_l, Z.eqb_refl by done. simpl. unfold splitResult. by destruct (now input).
Qed.

Lemma split_value input : validSplit input -> computeCommissionSplits input = Ok (splitResult input).
Proof. intros [Hv [t Ht]]. rewrite split_parts by done. by rewrite Ht. Qed.

(** The checks the source calls structurally unreachable. *)
Definition internalErrors : list exn := [
  EconomicsInvariantError "internal error: leftoverPool went negative";
  EconomicsInvariantError "internal error: leftoverPool exceeds one full pass";
  EconomicsInvariantError "internal error: zero-leakage invariant violated" ].

Ltac not_internal := eexists; split; [reflexivity|]; unfold internalErrors; rewrite !not_elem_of_cons; split_and!; [discriminate..|set_solver].

#[global] Instance validParts_dec input : Decision (validParts input).
Proof. unfold validParts. apply _. Defined.

Lemma parts_invalid input :
  ~ validParts input -> exists e, computeCommissionSplits input = Throw e /\ e ∉ internalErrors.
Proof.
  intros Hn. unfold computeCommissionSplits. rewrite assertBigIntMinorUnits_cases.
  destruct (Z.ltb_spec (netDistributableMinor input) 0) as [|Hnet]; [not_internal|]. simpl.
  destruct (Nat.eqb_spec (length (components input)) 0) as [|Hne]; simpl; [not_internal|].
  destruct (has_duplicate ∅ (map componentId (components input))) eqn:Hdup; simpl; [not_internal|].
  apply has_duplicate_false in Hdup as [Hnd _]. fold (fixedComponents (components input)).
  destruct (decide (Forall hasFixed (fixedComponents (components input)))) as [Hf|Hf].
  2: { destruct (fixed_loop_bad _ 0 Hf) as [-> | ->]; simpl; not_internal. }
  rewrite fixed_loop by done. simpl. fold (fixedTotal (components input)). rewrite Z.add_0_l.
  unfold throw_if at 1. destruct (Z.ltb_spec (netDistributableMinor input) (fixedTotal (components input))) as [|Hle];
    simpl; [not_internal|].
  fold (bpsComponents (components input)).
  destruct (bpsComponents (components input)) as [|c cs] eqn:E.
  - destruct (Z.eqb_spec (netDistributableMinor input - fixedTotal (components input)) 0) as [Hz|Hz]; simpl; [|not_internal].
    destruct Hn. unfold validParts. rewrite E. split_and!; try done; [intros E0; by rewrite E0 in Hne|lia].
  - destruct (splitBps_bad (netDistributableMinor input - fixedTotal (components input)) (c :: cs)) as [-> | ->];
      simpl; [|not_internal..].
    intros [Hb Hs]. destruct Hn. unfold validParts. rewrite E. split_and!; try done. intros E0. by rewrite E0 in Hne.
Qed.

Lemma split_invalid input :
  ~ validSplit input -> exists e, computeCommissionSplits input = Throw e /\ e ∉ internalErrors.
Proof.
  intros Hn'. destruct (now input) as [t|] eqn:Hnow.
  2: { destruct (decide (validParts input)) as [Hv|Hn]; [rewrite split_parts, Hnow by done; not_internal|by apply parts_invalid]. }
  apply parts_invalid. intros Hv. apply Hn'. by split; [|rewrite Hnow].
Qed.

(** ** Invariance under the order of the components *)

Lemma List_filter_perm {A} (f : A -> bool) l l' : l ≡ₚ l' -> List.filter f l ≡ₚ List.filter f l'.
Proof.
  induction 1 as [|x l l' H IH|x y l|l l' l'' H1 IH1 H2 IH2]; simpl; [done| | |by rewrite IH1].
  - destruct (f x); by rewrite IH.
  - destruct (f x), (f y); try done. apply Permutation_swap.
Qed.

Lemma share_id_inj R cs s s' :
  NoDup (map componentId cs) -> s ∈ map (shareOf R) cs -> s' ∈ map (shareOf R) cs -> share_id s = share_id s' -> s = s'.
Proof.
  intros Hnd (c & -> & Hc)%list_elem_of_fmap (c' & -> & Hc')%list_elem_of_fmap E.
  f_equal. unfold share_id in E. simpl in E. clear -Hnd Hc Hc' E.
  induction cs as [|x cs IH]; [set_solver|]. simpl in Hnd. apply NoDup_cons in Hnd as [Hni Hnd].
  apply elem_of_cons in Hc as [->|Hc], Hc' as [->|Hc']; [done| | |by apply IH];
    destruct Hni; apply list_elem_of_fmap; eauto.
Qed.

Lemma rankedShares_perm R cs cs' :
  NoDup (map componentId cs) -> cs ≡ₚ cs' -> rankedShares R cs = rankedShares R cs'.
Proof.
  intros Hnd Hp. apply sort_by_unique; [apply _| |by rewrite Hp].
  intros s s' Hs Hs' E. by eapply share_id_inj, share_cmp_eq.
Qed.

Lemma shareAmount_perm R cs cs' c :
  NoDup (map componentId cs) -> cs ≡ₚ cs' -> shareAmount R cs c = shareAmount R cs' c.
Proof.
  intros Hnd Hp. unfold shareAmount. rewrite (rankedShares_perm R cs cs') by done.
  assert (leftover R cs = leftover R cs') as ->; [|done]. unfold leftover. by rewrite Hp.
Qed.

Definition with_components (input : ComputeCommissionSplitsInput) (cs : list EconomicsComponentInput) :=
  {| netDistributableMinor := netDistributableMinor input; components := cs; scheduleId := scheduleId input;
     scheduleVersion := scheduleVersion input; now := now input; inputVersions := inputVersions input |}.

Lemma validSplit_perm input cs :
  components input ≡ₚ cs -> validSplit input -> validSplit (with_components input cs).
Proof.
  intros Hp [(Hnet & Hne & Hnd & Hf & Hle & Hz & Hb) Hd]. split; [|done]. unfold validParts. simpl.
  assert (fixedComponents (components input) ≡ₚ fixedComponents cs) as Pf by by apply List_filter_perm.
  assert (bpsComponents (components input) ≡ₚ bpsComponents cs) as Pb by by apply List_filter_perm.
  assert (fixedTotal (components input) = fixedTotal cs) as Ht by (unfold fixedTotal; by rewrite Pf).
  rewrite <- Ht. split_and!; try done.
  - intros ->. by apply Permutation_nil_r in Hp.
  - by rewrite <- Hp.
  - by rewrite <- Pf.
  - intros E. apply Hz. rewrite E in Pb. by apply Permutation_nil_r in Pb.
  - intros E. rewrite <- Pb. apply Hb. intros E'. apply E. rewrite E' in Pb. by apply Permutation_nil_l in Pb.
Qed.

(** ** The remainder rank: only inexact shares get a bonus unit *)

Lemma bonus_needs_remainder R cs c :
  goodBps R cs -> c ∈ cs ->
  componentId c ∈ take (Z.to_nat (leftover R cs)) (map share_id (rankedShares R cs)) ->
  0 < remainder (shareOf R c).
Proof.
  intros Hg Hc Hin. pose proof (leftover_bounds R cs Hg ltac:(by intros ->; set_solver)) as HL.
  set (k := Z.to_nat (leftover R cs)) in *. rewrite <- fmap_take in Hin.
  apply list_elem_of_fmap in Hin as (s & Es & Hs).
  assert (NoDup (map componentId cs)) as Hnd by apply Hg.
  assert (forall s, s ∈ rankedShares R cs -> s ∈ map (shareOf R) cs) as Hsub.
  { intros s'. unfold rankedShares. by rewrite sort_by_elem. }
  assert (s = shareOf R c) as ->.
  { eapply share_id_inj; [done| | |by symmetry].
    - apply Hsub. by eapply elem_take.
    - apply list_elem_of_fmap. eauto. }
  assert (forall s, s ∈ map (shareOf R) cs -> 0 <= remainder s < 10000) as Hr.
  { intros s' (c' & -> & Hc')%list_elem_of_fmap. apply share_split; [apply Hg|by eapply goodBps_nonneg]. }
  destruct (decide (0 < remainder (shareOf R c))) as [|Hz]; [done|exfalso].
  assert (sumZ (map remainder (drop k (rankedShares R cs))) <= 0) as Hdrop.
  { assert (forall s, s ∈ drop k (rankedShares R cs) -> remainder s <= 0) as Hd.
    { intros s' Hs'. pose proof (sorted_take_drop share_cmp k (rankedShares R cs) (shareOf R c) s'
        (sort_by_sorted share_cmp _) Hs Hs') as Hc'. apply share_cmp_remainder in Hc'. lia. }
    clear -Hd. induction (drop k (rankedShares R cs)) as [|x l IH]; [done|]. simpl map. rewrite sumZ_cons.
    pose proof (Hd x ltac:(set_solver)). specialize (IH ltac:(intros; apply Hd; set_solver)). lia. }
  assert (take k (rankedShares R cs) <> []) as Hne by (intros E; rewrite E in Hs; set_solver).
  pose proof (sumZ_map_lt_bound remainder 10000 (take k (rankedShares R cs)) Hne) as Htake.
  assert (sumZ (map remainder (take k (rankedShares R cs))) < 10000 * Z.of_nat (length (take k (rankedShares R cs)))) as Ht.
  { apply Htake. intros s' Hs'. apply Hr, Hsub. by eapply elem_take. }
  pose proof (remainders_sum R cs Hg) as Hsum.
  assert (sumZ (map remainder (rankedShares R cs)) = 10000 * leftover R cs) as Hall.
  { unfold rankedShares. rewrite sort_by_perm, map_map. exact Hsum. }
  rewrite <- (take_drop k (rankedShares R cs)), map_app, sumZ_app in Hall.
  rewrite length_take in Ht. lia.
Qed.

(** Every share is its exact quota rounded down or up. *)
Lemma shareAmount_quota R cs c :
  goodBps R cs -> c ∈ cs ->
  0 <= shareAmount R cs c /\ -10000 < 10000 * shareAmount R cs c - R * bpsOf c < 10000.
Proof.
  intros Hg Hc. destruct (share_split R c) as (E & Hr & Hf); [apply Hg|by eapply goodBps_nonneg|].
  unfold shareAmount. case_bool_decide as Hin; [|lia].
  apply bonus_needs_remainder in Hin; [lia|done|done].
Qed.
