(* ===== verification/EconomicsProps.v ===== *)
(** * Properties of the commission split and of the accrual ledger

    The theorems about packages/domain/src/economics-engine.ts, over the
    lemmas of [EconomicsEngine]. *)
From S2P Require Import Prelude StableSort DomainStates Money EconomicsEngine.
Import Ledger.

#[global] Instance validSplit_dec input : Decision (validSplit input).
Proof. unfold validSplit. apply _. Defined.

(** What a component of the schedule is owed exactly, in 1/10000 of a unit. *)
Definition exactQuota (input : ComputeCommissionSplitsInput) (c : EconomicsComponentInput) : Z :=
  match componentType c with
  | FIXED_AMOUNT => 10000 * fixedOf c
  | PERCENTAGE_BPS => (netDistributableMinor input - fixedTotal (components input)) * bpsOf c
  end.

Lemma split_inv input r :
  computeCommissionSplits input = Ok r -> validSplit input /\ r = splitResult input.
Proof.
  intros H. destruct (decide (validSplit input)) as [Hv|Hv].
  - rewrite split_value in H by done. naive_solver.
  - destruct (split_invalid input Hv) as (e & E & _). congruence.
Qed.

Lemma partition_perm {A B} (g : A -> B) (f1 f2 : A -> bool) (l : list A) :
  (forall x, f1 x = negb (f2 x)) ->
  map g (List.filter f1 l) ++ map g (List.filter f2 l) ≡ₚ map g l.
Proof.
  intros Hf. induction l as [|x l IH]; simpl; [done|]. rewrite Hf. destruct (f2 x); simpl.
  - rewrite <- IH. symmetry. apply Permutation_middle.
  - by rewrite IH.
Qed.

Lemma isFixed_isBps c : isFixed c = negb (isBps c).
Proof. unfold isFixed, isBps. by destruct (componentType c). Qed.

Lemma fixed_bps_elem comps c :
  c ∈ comps <-> c ∈ fixedComponents comps \/ c ∈ bpsComponents comps.
Proof.
  unfold fixedComponents, bpsComponents.
  pose proof (partition_perm id isFixed isBps comps isFixed_isBps) as Hp. rewrite !map_id in Hp.
  rewrite <- Hp at 1. apply elem_of_app.
Qed.

Lemma splitEntries_ids input :
  map e_componentId (splitEntries input) ≡ₚ map componentId (components input).
Proof.
  unfold splitEntries. rewrite map_app, !map_map. simpl.
  apply (partition_perm componentId isFixed isBps), isFixed_isBps.
Qed.

(** Every entry of a valid split comes from a component of the schedule. *)
Lemma splitEntries_elem input e :
  e ∈ splitEntries input ->
  exists c, c ∈ components input /\
    ((c ∈ fixedComponents (components input) /\ e = entryFor c (fixedOf c))
     \/ (c ∈ bpsComponents (components input) /\
         e = entryFor c (shareAmount (netDistributableMinor input - fixedTotal (components input))
                                     (bpsComponents (components input)) c))).
Proof.
  unfold splitEntries. rewrite elem_of_app.
  intros [(c & -> & Hc)%list_elem_of_fmap | (c & -> & Hc)%list_elem_of_fmap];
    exists c; (split; [apply fixed_bps_elem; tauto|]); [left|right]; done.
Qed.

Lemma fixed_elem_type comps c : c ∈ fixedComponents comps -> componentType c = FIXED_AMOUNT.
Proof. intros [_ H]%list_elem_of_In%filter_In. by apply bool_decide_eq_true_1 in H. Qed.

Lemma bps_elem_type comps c : c ∈ bpsComponents comps -> componentType c = PERCENTAGE_BPS.
Proof. intros [_ H]%list_elem_of_In%filter_In. by apply bool_decide_eq_true_1 in H. Qed.

Lemma fixed_elem_amount input c :
  validSplit input -> c ∈ fixedComponents (components input) -> 0 <= fixedOf c.
Proof.
  intros [(_ & _ & _ & Hf & _) _] Hc. rewrite Forall_forall in Hf.
  destruct (Hf c Hc) as (a & E & Ha). unfold fixedOf. by rewrite E.
Qed.

(** C36: the commission split is a total function of its input.  It returns a
    result exactly on the inputs of [validSplit] (a non-negative net, at
    least one component, distinct component ids, usable fixed amounts that fit
    in the net, rates that sum to 10000 basis points, and a valid date), on
    every other input it throws, and none of the three checks marked
    "structurally unreachable" in the source ever fires. *)
Theorem split_total (input : ComputeCommissionSplitsInput) :
  (is_ok (computeCommissionSplits input) = true <-> validSplit input)
  /\ (forall e, e ∈ internalErrors -> computeCommissionSplits input <> Throw e).
Proof.
  destruct (decide (validSplit input)) as [Hv|Hv].
  - rewrite split_value by done. naive_solver.
  - destruct (split_invalid input Hv) as (e & -> & He). naive_solver.
Qed.

(** Zero leakage.  Whenever the split returns, its entries sum to the net
    distributable amount to the last minor unit, every component of the
    schedule appears in exactly one entry, and every entry is a non-negative
    CREDIT to the recipient its component names. *)
Theorem split_zero_leakage (input : ComputeCommissionSplitsInput) (r : ComputeCommissionSplitsResult) :
  computeCommissionSplits input = Ok r ->
  sumZ (map e_amountMinor (entries r)) = netDistributableMinor input
  /\ map e_componentId (entries r) ≡ₚ map componentId (components input)
  /\ (forall e, e ∈ entries r ->
        0 <= e_amountMinor e /\ e_direction e = CREDIT
        /\ exists c, c ∈ components input /\ componentId c = e_componentId e
                     /\ recipientOrgId c = e_recipientOrgId e /\ claimId c = e_claimId e).
Proof.
  intros [Hv ->]%split_inv. split_and!; [by apply splitEntries_sum, Hv|apply splitEntries_ids|].
  intros e (c & Hc & [[Hf ->]|[Hb ->]])%splitEntries_elem; simpl.
  - split_and!; [by eapply fixed_elem_amount|done|by exists c].
  - split_and!; [|done|by exists c]. apply shareAmount_quota; [|done].
    apply validParts_goodBps; [apply Hv|]. intros E. rewrite E in Hb. set_solver.
Qed.

(** Largest-remainder fairness.  Every entry of a returned split is the
    exact quota of its component rounded down or up: a fixed component gets
    its fixed amount, a percentage component differs from
    remaining * bps / 10000 by less than one minor unit. *)
Theorem split_quota (input : ComputeCommissionSplitsInput) (r : ComputeCommissionSplitsResult) :
  computeCommissionSplits input = Ok r ->
  forall e, e ∈ entries r ->
  exists c, c ∈ components input /\ componentId c = e_componentId e
    /\ -10000 < 10000 * e_amountMinor e - exactQuota input c < 10000
    /\ (componentType c = FIXED_AMOUNT -> Some (e_amountMinor e) = fixedAmountMinor c).
Proof.
  intros [Hv ->]%split_inv e (c & Hc & [[Hf ->]|[Hb ->]])%splitEntries_elem; exists c; simpl; unfold exactQuota.
  - rewrite (fixed_elem_type _ _ Hf). split_and!; [done..|lia|lia|]. intros _.
    pose proof Hv as [(_ & _ & _ & Hall & _) _]. rewrite Forall_forall in Hall. destruct (Hall c Hf) as (a & E & _).
    unfold fixedOf. by rewrite E.
  - rewrite (bps_elem_type _ _ Hb).
    assert (goodBps (netDistributableMinor input - fixedTotal (components input)) (bpsComponents (components input))) as Hg.
    { apply validParts_goodBps; [apply Hv|]. intros E. rewrite E in Hb. set_solver. }
    split_and!; [done..|by apply shareAmount_quota|by apply shareAmount_quota|done].
Qed.

Lemma splitEntries_perm input cs :
  validSplit input -> components input ≡ₚ cs ->
  splitEntries input ≡ₚ splitEntries (with_components input cs).
Proof.
  intros Hv Hp. unfold splitEntries. simpl.
  assert (fixedComponents (components input) ≡ₚ fixedComponents cs) as Pf by by apply List_filter_perm.
  assert (bpsComponents (components input) ≡ₚ bpsComponents cs) as Pb by by apply List_filter_perm.
  assert (fixedTotal (components input) = fixedTotal cs) as Ht by (unfold fixedTotal; by rewrite Pf).
  rewrite <- Ht, <- Pf, <- Pb. apply Permutation_app_head. erewrite map_ext_in; [reflexivity|]. intros c Hc. simpl. f_equal.
  apply shareAmount_perm; [|done]. apply filter_ids_NoDup. apply Hv.
Qed.

(** The split does not depend on the order in which the components are
    read from the store: permuted components give the same entries up to the
    same permutation, so no tie is ever broken by query order. *)
Theorem split_order_independent (input : ComputeCommissionSplitsInput) (cs : list EconomicsComponentInput)
    (r : ComputeCommissionSplitsResult) :
  components input ≡ₚ cs -> computeCommissionSplits input = Ok r ->
  exists r', computeCommissionSplits (with_components input cs) = Ok r' /\ entries r ≡ₚ entries r'.
Proof.
  intros Hp [Hv ->]%split_inv. exists (splitResult (with_components input cs)). split.
  - apply split_value. by apply validSplit_perm.
  - by apply splitEntries_perm.
Qed.

Definition thirds : ComputeCommissionSplitsInput :=
  sample_split 100
    [sample_component "a" "A" PERCENTAGE_BPS (Some 3333) None;
     sample_component "b" "B" PERCENTAGE_BPS (Some 3333) None;
     sample_component "c" "C" PERCENTAGE_BPS (Some 3334) None;
     sample_component "d" "D" FIXED_AMOUNT None (Some 7)].

Definition thirds_result : ComputeCommissionSplitsResult :=
  Eval vm_compute in
    match computeCommissionSplits thirds with
    | Ok r => r
    | Throw _ => {| entries := []; calculationVersion := ""; computedAt := ""; r_inputVersions := [] |}
    end.

Lemma split_zero_leakage_witness : sumZ (map e_amountMinor (entries thirds_result)) = 100.
Proof. exact (proj1 (split_zero_leakage thirds thirds_result ltac:(vm_compute; reflexivity))). Defined.

Lemma split_quota_witness :
  exists c, c ∈ components thirds /\ componentId c = "c"
    /\ -10000 < 10000 * 31 - exactQuota thirds c < 10000
    /\ (componentType c = FIXED_AMOUNT -> Some 31 = fixedAmountMinor c).
Proof.
  exact (split_quota thirds thirds_result ltac:(vm_compute; reflexivity)
    {| e_componentId := "c"; e_recipientOrgId := "C"; e_claimId := None; e_amountMinor := 31; e_direction := CREDIT |}
    ltac:(unfold thirds_result; simpl; set_solver)).
Defined.

Lemma split_order_independent_witness :
  exists r', computeCommissionSplits (with_components thirds (rev (components thirds))) = Ok r'
             /\ entries thirds_result ≡ₚ entries r'.
Proof.
  exact (split_order_independent thirds (rev (components thirds)) thirds_result
           (Permutation_rev _) ltac:(vm_compute; reflexivity)).
Defined.

(** ** Ledger arithmetic *)

Definition sumBy (f : AccrualLedgerEntryLike -> Z) (t : LedgerEntryType) (es : list AccrualLedgerEntryLike) : Z :=
  sumZ (map f (List.filter (is_type t) es)).

Lemma sumBy_cons f t e es :
  sumBy f t (e :: es) = (if is_type t e then f e else 0) + sumBy f t es.
Proof. unfold sumBy. simpl. by destruct (is_type t e). Qed.

#[global] Instance sumBy_proper f t : Proper ((≡ₚ) ==> (=)) (sumBy f t).
Proof. intros l l' Hp. unfold sumBy. by rewrite (List_filter_perm (is_type t) l l' Hp). Qed.

Definition existsType (t : LedgerEntryType) (es : list AccrualLedgerEntryLike) : bool := existsb (is_type t) es.

Lemma balance_fold es st :
  foldl balance_step st es =
  {| b_net := b_net st + sumBy signedAmount ADJUSTMENT es;
     b_paid := b_paid st + sumBy amountMinor PAYMENT es;
     b_adjusted := b_adjusted st || existsType ADJUSTMENT es;
     b_reversed := b_reversed st || existsType REVERSAL es |}.
Proof.
  revert st. induction es as [|e es IH]; intros st; simpl foldl.
  - destruct st as [n p [] []]; unfold sumBy, sumZ; simpl; by rewrite !Z.add_0_r.
  - rewrite IH, !sumBy_cons. unfold balance_step, is_type, existsType, is_type. simpl existsb.
    destruct st as [n p a rv]. destruct (entryType e); simpl; f_equal; rewrite ?orb_true_r, ?orb_false_r; simpl; try lia.
    all: by destruct a || by destruct rv.
Qed.

Lemma reconcile_fold es st :
  foldl reconcile_step st es =
  {| l_distributed := l_distributed st + sumBy amountMinor ACCRUAL es;
     l_paid := l_paid st + sumBy amountMinor PAYMENT es;
     l_adjustmentNet := l_adjustmentNet st + sumBy signedAmount ADJUSTMENT es;
     l_reversed := l_reversed st + sumBy amountMinor REVERSAL es |}.
Proof.
  revert st. induction es as [|e es IH]; intros st; simpl foldl.
  - destruct st; unfold sumBy, sumZ; simpl; by rewrite !Z.add_0_r.
  - rewrite IH, !sumBy_cons. unfold reconcile_step, is_type. destruct (entryType e); simpl; f_equal; lia.
Qed.

Definition existsType_spec (t : LedgerEntryType) (es : list AccrualLedgerEntryLike) : Prop :=
  exists e, e ∈ es /\ entryType e = t.

Lemma existsType_true t es : existsType t es = true <-> existsType_spec t es.
Proof.
  unfold existsType, existsType_spec. rewrite existsb_exists. unfold is_type.
  setoid_rewrite bool_decide_eq_true. setoid_rewrite list_elem_of_In. done.
Qed.

#[global] Instance existsType_proper t : Proper ((≡ₚ) ==> (=)) (existsType t).
Proof.
  intros es es' Hp. apply eq_bool_prop_intro. rewrite !Is_true_true, !existsType_true. unfold existsType_spec.
  by setoid_rewrite Hp.
Qed.

(** The balance as a function of the totals of the ledger. *)
Definition balanceOf (original : Z) (es : list AccrualLedgerEntryLike) : AccrualBalance :=
  let net := original + sumBy signedAmount ADJUSTMENT es in
  let paid := sumBy amountMinor PAYMENT es in
  let outstanding := if existsType REVERSAL es then 0 else net - paid in
  {| status :=
       if existsType REVERSAL es then REVERSED
       else if outstanding <=? 0 then PAID
       else if 0 <? paid then PARTIALLY_PAID
       else if existsType ADJUSTMENT es then ADJUSTED else ACCRUED;
     originalAmountMinor := original; netAmountMinor := net; paidAmountMinor := paid;
     outstandingAmountMinor := outstanding |}.

Lemma balance_value es root :
  List.filter (is_type ACCRUAL) es = [root] -> computeAccrualBalance es = Ok (balanceOf (amountMinor root) es).
Proof. intros E. unfold computeAccrualBalance, balanceOf. rewrite E, balance_fold. reflexivity. Qed.

Lemma balance_inv es b :
  computeAccrualBalance es = Ok b ->
  exists root, List.filter (is_type ACCRUAL) es = [root] /\ b = balanceOf (amountMinor root) es.
Proof.
  intros H. destruct (List.filter (is_type ACCRUAL) es) as [|root [|r2 l]] eqn:E.
  1, 3: unfold computeAccrualBalance in H; by rewrite E in H.
  rewrite (balance_value es root E) in H. inv_ok. by exists root.
Qed.

Lemma balanceOf_perm o es es' : es ≡ₚ es' -> balanceOf o es = balanceOf o es'.
Proof.
  intros Hp. unfold balanceOf. by rewrite !Hp.
Qed.

(** The balance of an accrual is a conservation law.  Over a ledger with
    exactly one ACCRUAL entry the net amount is the original plus the signed
    adjustments, the paid amount the sum of the payments, and outstanding is
    net minus paid until a REVERSAL exists, which forces it to zero; the
    status is REVERSED exactly when a reversal exists and otherwise PAID
    exactly when nothing is outstanding. *)
Theorem accrual_balance_conservation (es : list AccrualLedgerEntryLike) (b : AccrualBalance) :
  computeAccrualBalance es = Ok b ->
  sumBy amountMinor ACCRUAL es = originalAmountMinor b
  /\ netAmountMinor b = originalAmountMinor b + sumBy signedAmount ADJUSTMENT es
  /\ paidAmountMinor b = sumBy amountMinor PAYMENT es
  /\ (status b = REVERSED <-> existsType_spec REVERSAL es)
  /\ (status b = REVERSED -> outstandingAmountMinor b = 0)
  /\ (status b <> REVERSED -> outstandingAmountMinor b = netAmountMinor b - paidAmountMinor b)
  /\ (status b = PAID <-> status b <> REVERSED /\ outstandingAmountMinor b <= 0)
  /\ (status b = PARTIALLY_PAID <-> status b <> REVERSED /\ 0 < outstandingAmountMinor b /\ 0 < paidAmountMinor b).
Proof.
  intros (root & E & ->)%balance_inv. unfold balanceOf. simpl.
  assert (sumBy amountMinor ACCRUAL es = amountMinor root) as Ho by (unfold sumBy; rewrite E; unfold sumZ; simpl; lia).
  split; [done|]. split; [done|]. split; [done|].
  rewrite <- existsType_true. destruct (existsType REVERSAL es); simpl; [split_and!; naive_solver|].
  destruct (Z.leb_spec (amountMinor root + sumBy signedAmount ADJUSTMENT es - sumBy amountMinor PAYMENT es) 0),
    (Z.ltb_spec 0 (sumBy amountMinor PAYMENT es)), (existsType ADJUSTMENT es);
    split_and!; try done; split; try done; try lia; intros; split_and!; try done; try lia; destruct_and?; lia.
Qed.

(** The balance of an accrual is a function of the multiset of its ledger
    entries: any order in which the store returns them gives the same balance
    or the same error. *)
Theorem accrual_balance_order_free (es es' : list AccrualLedgerEntryLike) :
  es ≡ₚ es' -> computeAccrualBalance es = computeAccrualBalance es'.
Proof.
  intros Hp. pose proof (List_filter_perm (is_type ACCRUAL) es es' Hp) as Hf.
  destruct (List.filter (is_type ACCRUAL) es) as [|root [|r2 l]] eqn:E.
  - apply Permutation_nil_l in Hf. unfold computeAccrualBalance. by rewrite E, <- Hf.
  - apply Permutation_singleton_l in Hf. rewrite (balance_value _ _ E), (balance_value _ _ (eq_sym Hf)).
    by rewrite (balanceOf_perm _ _ _ Hp).
  - apply Permutation_length in Hf. unfold computeAccrualBalance. rewrite E.
    destruct (List.filter (is_type ACCRUAL) es') as [|? [|? ?]]; simpl in Hf; [lia..|done].
Qed.

Definition sample_entry (t : LedgerEntryType) (d : LedgerDirection) (a : Z) : AccrualLedgerEntryLike :=
  {| entryType := t; direction := d; amountMinor := a |}.

Definition sample_ledger : list AccrualLedgerEntryLike :=
  [sample_entry ACCRUAL CREDIT 1000; sample_entry PAYMENT DEBIT 300; sample_entry ADJUSTMENT DEBIT 200].

Definition sample_balance : AccrualBalance :=
  {| status := PARTIALLY_PAID; originalAmountMinor := 1000; netAmountMinor := 800; paidAmountMinor := 300;
     outstandingAmountMinor := 500 |}.

Lemma accrual_balance_conservation_witness : netAmountMinor sample_balance = 1000 + -200.
Proof. exact (proj1 (proj2 (accrual_balance_conservation sample_ledger sample_balance ltac:(vm_compute; reflexivity)))). Defined.

Lemma accrual_balance_order_free_witness :
  computeAccrualBalance sample_ledger = computeAccrualBalance (rev sample_ledger).
Proof. exact (accrual_balance_order_free sample_ledger (rev sample_ledger) (Permutation_rev _)). Defined.

(** ** Payments against an accrual *)

Lemma sumBy_snoc f t es e : sumBy f t (es ++ [e]) = sumBy f t es + (if is_type t e then f e else 0).
Proof.
  rewrite (Permutation_app_comm es [e]). simpl. rewrite sumBy_cons. lia.
Qed.

Lemma existsType_snoc t es e : existsType t (es ++ [e]) = existsType t es || is_type t e.
Proof. unfold existsType. rewrite existsb_app. simpl. by rewrite orb_false_r. Qed.

Lemma filter_snoc_other t es e :
  is_type t e = false -> List.filter (is_type t) (es ++ [e]) = List.filter (is_type t) es.
Proof. intros H. rewrite List.filter_app. simpl. by rewrite H, app_nil_r. Qed.

(** A payment entry no larger than the outstanding amount lowers the
    outstanding amount by exactly what is paid and never makes it negative;
    the accrual becomes PAID exactly when the payment settles it in full and
    PARTIALLY_PAID otherwise. *)
Theorem payment_settles (es : list AccrualLedgerEntryLike) (b : AccrualBalance) (a : Z) (d : LedgerDirection) :
  computeAccrualBalance es = Ok b ->
  Forall (fun e => 0 <= amountMinor e) es ->
  status b <> REVERSED -> 0 < a <= outstandingAmountMinor b ->
  exists b', computeAccrualBalance (es ++ [sample_entry PAYMENT d a]) = Ok b'
    /\ outstandingAmountMinor b' = outstandingAmountMinor b - a
    /\ paidAmountMinor b' = paidAmountMinor b + a
    /\ 0 <= outstandingAmountMinor b'
    /\ status b' = (if a =? outstandingAmountMinor b then PAID else PARTIALLY_PAID).
Proof.
  intros (root & E & ->)%balance_inv Hpos Hs Ha.
  exists (balanceOf (amountMinor root) (es ++ [sample_entry PAYMENT d a])). split.
  { apply balance_value. by rewrite filter_snoc_other. }
  unfold balanceOf in *. cbn [status outstandingAmountMinor paidAmountMinor] in *.
  rewrite !sumBy_snoc, !existsType_snoc.
  change (is_type PAYMENT (sample_entry PAYMENT d a)) with true.
  change (is_type REVERSAL (sample_entry PAYMENT d a)) with false.
  change (is_type ADJUSTMENT (sample_entry PAYMENT d a)) with false.
  cbv iota. rewrite !orb_false_r.
  destruct (existsType REVERSAL es); [done|].
  assert (0 <= sumBy amountMinor PAYMENT es) as Hp.
  { apply sumZ_nonneg, Forall_fmap, Forall_forall. intros e [He _]%list_elem_of_In%filter_In.
    rewrite Forall_forall in Hpos. apply Hpos. by apply list_elem_of_In. }
  cbn [amountMinor sample_entry]. rewrite !Z.add_0_r.
  split; [lia|]. split; [lia|]. split; [lia|].
  destruct (Z.eqb_spec a (amountMinor root + sumBy signedAmount ADJUSTMENT es - sumBy amountMinor PAYMENT es));
  match goal with |- context [?x <=? 0] => destruct (Z.leb_spec x 0) end; try lia; [done|].
  match goal with |- context [0 <? ?x] => destruct (Z.ltb_spec 0 x) end; [done|lia].
Qed.

Lemma payment_settles_witness :
  exists b', computeAccrualBalance (sample_ledger ++ [sample_entry PAYMENT DEBIT 500]) = Ok b'
    /\ outstandingAmountMinor b' = 500 - 500 /\ paidAmountMinor b' = 300 + 500
    /\ 0 <= outstandingAmountMinor b' /\ status b' = PAID.
Proof.
  refine (payment_settles sample_ledger sample_balance 500 DEBIT _ _ _ _);
    [vm_compute; reflexivity|repeat constructor; simpl; lia|discriminate|simpl; lia].
Defined.

(** ** The split feeds the reconciliation *)

(** [commissionLedgerEntry.create] of the event transaction writes one ACCRUAL
    row per computed entry. *)
Definition accrualRow (e : ComputedLedgerEntry) : AccrualLedgerEntryLike :=
  {| entryType := ACCRUAL; direction := e_direction e; amountMinor := e_amountMinor e |}.

Lemma sumBy_accrualRows es t :
  sumBy amountMinor t (map accrualRow es)
  = if bool_decide (t = ACCRUAL) then sumZ (map e_amountMinor es) else 0.
Proof.
  induction es as [|e es IH]; simpl; [by case_bool_decide|].
  rewrite sumBy_cons, IH, sumZ_cons. unfold is_type. simpl. destruct t; done.
Qed.

Lemma sumBy_signed_accrualRows es : sumBy signedAmount ADJUSTMENT (map accrualRow es) = 0.
Proof. induction es as [|e es IH]; simpl; [done|]. by rewrite sumBy_cons, IH. Qed.

(** A revenue event whose ledger is exactly what the split computed
    reconciles: no mismatch is reported, the distributed total is the net
    amount and all of it is outstanding.  A basis mismatch is reported
    exactly when gross minus deductions differs from net. *)
Theorem split_reconciles (input : ComputeCommissionSplitsInput) (r : ComputeCommissionSplitsResult) (gross deductions : Z) :
  computeCommissionSplits input = Ok r ->
  let rec := reconcileRevenueEvent {| i_grossAmountMinor := gross; i_deductionsMinor := deductions;
               i_netDistributableMinor := netDistributableMinor input; i_ledgerEntries := map accrualRow (entries r) |} in
  (reconciled rec = true <-> gross - deductions = netDistributableMinor input)
  /\ (mismatches rec = [] \/ mismatches rec = [basis_mismatch])
  /\ distributedMinor rec = netDistributableMinor input /\ paidMinor rec = 0
  /\ outstandingMinor rec = netDistributableMinor input.
Proof.
  intros [Hv ->]%split_inv. unfold reconcileRevenueEvent.
  cbn [i_ledgerEntries i_grossAmountMinor i_deductionsMinor i_netDistributableMinor entries splitResult].
  rewrite reconcile_fold. cbn [l_distributed l_paid l_adjustmentNet l_reversed].
  rewrite !sumBy_accrualRows, sumBy_signed_accrualRows, splitEntries_sum by apply Hv. simpl.
  rewrite Z.eqb_refl. simpl. rewrite app_nil_r.
  destruct (Z.eqb_spec (gross - deductions) (netDistributableMinor input)) as [->|Hne]; simpl;
    split_and!; try done; try lia; try tauto.
Qed.

Lemma split_reconciles_witness :
  reconciled (reconcileRevenueEvent {| i_grossAmountMinor := 120; i_deductionsMinor := 20;
     i_netDistributableMinor := 100; i_ledgerEntries := map accrualRow (entries thirds_result) |}) = true.
Proof. exact (proj2 (proj1 (split_reconciles thirds thirds_result 120 20 ltac:(vm_compute; reflexivity))) eq_refl). Defined.

(** The reconciliation over a ledger made of several accruals: each accrual's
    own chain of entries, concatenated. *)
Lemma sumBy_concat f t (chains : list (list AccrualLedgerEntryLike)) :
  sumBy f t (concat chains) = sumZ (map (sumBy f t) chains).
Proof.
  induction chains as [|c cs IH]; [done|]. simpl. rewrite sumZ_cons, <- IH.
  unfold sumBy. by rewrite List.filter_app, map_app, sumZ_app.
Qed.

(** The event-level totals agree with the per-accrual balances.  When the
    ledger of a revenue event is the union of the entry chains of its
    accruals and none is reversed, the distributed, paid and outstanding
    totals of the reconciliation are the sums of the original, paid and
    outstanding amounts of the individual balances. *)
Theorem reconcile_sums_balances (chains : list (list AccrualLedgerEntryLike)) (bs : list AccrualBalance) (g d n : Z) :
  Forall2 (fun c b => computeAccrualBalance c = Ok b) chains bs ->
  Forall (fun b => status b <> REVERSED) bs ->
  let rec := reconcileRevenueEvent {| i_grossAmountMinor := g; i_deductionsMinor := d;
               i_netDistributableMinor := n; i_ledgerEntries := concat chains |} in
  distributedMinor rec = sumZ (map originalAmountMinor bs)
  /\ paidMinor rec = sumZ (map paidAmountMinor bs)
  /\ outstandingMinor rec = sumZ (map outstandingAmountMinor bs).
Proof.
  intros Hb Hs. unfold reconcileRevenueEvent. cbn [i_ledgerEntries].
  rewrite reconcile_fold, !sumBy_concat. cbn [l_distributed l_paid l_adjustmentNet l_reversed
    distributedMinor paidMinor outstandingMinor]. rewrite !Z.add_0_l.
  induction Hb as [|c b cs bs Hc Hcs IH]; [done|]. inversion_clear Hs as [|? ? Hb Hs']. specialize (IH Hs').
  destruct IH as (IH1 & IH2 & IH3). simpl map. rewrite !sumZ_cons.
  apply balance_inv in Hc as (root & E & ->). unfold balanceOf in *. simpl in *.
  assert (sumBy amountMinor ACCRUAL c = amountMinor root) as -> by (unfold sumBy; rewrite E; unfold sumZ; simpl; lia).
  assert (existsType REVERSAL c = false) as Hr by (by destruct (existsType REVERSAL c)).
  assert (sumBy amountMinor REVERSAL c = 0) as ->.
  { unfold sumBy. clear -Hr. induction c as [|e c IH]; [done|]. unfold existsType in *. simpl in *.
    by destruct (is_type REVERSAL e); [|apply IH]. }
  rewrite Hr. split_and!; lia.
Qed.

Lemma reconcile_sums_balances_witness :
  distributedMinor (reconcileRevenueEvent {| i_grossAmountMinor := 0; i_deductionsMinor := 0;
               i_netDistributableMinor := 0; i_ledgerEntries := concat [sample_ledger; sample_ledger] |}) = 2000.
Proof.
  refine (proj1 (reconcile_sums_balances [sample_ledger; sample_ledger] [sample_balance; sample_balance] 0 0 0 _ _));
    repeat (constructor; [vm_compute; first [reflexivity | discriminate]|]); constructor.
Defined.

(** The cap and floor disclosure is exact.  It throws exactly on a
    negative input; otherwise the cap (floor) is reported broken exactly when
    it is set and the cumulative amount is strictly above (below) it, the
    reported excess (shortfall) is the positive distance, and an unset bound
    is never broken. *)
Theorem cap_floor_exact (input : ScheduleCapFloorInput) :
  (is_ok (evaluateScheduleCapFloor input) = true <->
     0 <= cumulativeDistributedMinor input
     /\ from_option (fun c => 0 <= c) True (capMinor input) /\ from_option (fun f => 0 <= f) True (floorMinor input))
  /\ forall s, evaluateScheduleCapFloor input = Ok s ->
     (forall x, capExceededByMinor s = Some x <->
        0 < x /\ capMinor input = Some (cumulativeDistributedMinor input - x))
     /\ (forall x, floorShortfallMinor s = Some x <->
        0 < x /\ floorMinor input = Some (cumulativeDistributedMinor input + x))
     /\ (withinCap s = true <-> capExceededByMinor s = None)
     /\ (withinFloor s = true <-> floorShortfallMinor s = None).
Proof.
  unfold evaluateScheduleCapFloor. rewrite assertBigIntMinorUnits_cases. destruct input as [cap flr cum]. simpl.
  assert (forall v f, assert_opt v f = Ok tt <-> from_option (fun c => 0 <= c) True v) as Ha.
  { intros [v|] f; simpl; [|done]. rewrite assertBigIntMinorUnits_cases. destruct (Z.ltb_spec v 0); naive_solver lia. }
  destruct (Z.ltb_spec cum 0); simpl; [split; [split; [done|lia]|done]|].
  destruct (assert_opt cap "capMinor") as [[]|] eqn:E1; simpl.
  2: { split; [|done]. rewrite <- (Ha cap "capMinor"). split; [done|]. intros (_ & E & _). congruence. }
  destruct (assert_opt flr "floorMinor") as [[]|] eqn:E2; simpl.
  2: { split; [|done]. rewrite <- (Ha flr "floorMinor"). split; [done|]. intros (_ & _ & E). congruence. }
  apply Ha in E1, E2. split; [tauto|]. intros s [= <-]. simpl. rewrite !bool_decide_eq_true.
  split_and!; [| |done|done]; intros x.
  - destruct cap as [c|]; [|naive_solver]. destruct (Z.ltb_spec c cum); split; intros; destruct_and?; simplify_eq; split_and?; try f_equal; lia.
  - destruct flr as [f|]; [|naive_solver]. destruct (Z.ltb_spec cum f); split; intros; destruct_and?; simplify_eq; split_and?; try f_equal; lia.
Qed.
