(* ===== verification/AuthzMatrix.v ===== *)
(** * packages/authz: the vocabulary and the authority matrix

    Roles, disclosure classes (roles.ts), actions and resources (actions.ts)
    and the grant of every role (matrix.ts), one definition per role, with the
    checks matrix.ts runs when the module loads.  An action string such as
    "rfq.read" is the constructor [rfq_read]; a [ReadonlySet] is a list. *)
From S2P Require Import Prelude Lifecycle.

Module Roles.

Inductive PersonaRole : Type :=
| PLATFORM_OWNER
| MARKETPLACE_OPERATOR
| PARTNERSHIP_LEAD
| UNDERWRITING_ANALYST
| COMPLIANCE_REVIEWER
| FINANCE_OPERATOR
| CONTRIBUTOR_AGENT
| MERCHANT_PSP_USER
| ACQUIRER_PROVIDER_USER
| AUDITOR_READONLY.

#[global] Instance PersonaRole_eq_dec : EqDecision PersonaRole.
Proof. solve_decision. Defined.

Definition PersonaRole_name (x : PersonaRole) : string :=
  match x with
  | PLATFORM_OWNER => "PLATFORM_OWNER"
  | MARKETPLACE_OPERATOR => "MARKETPLACE_OPERATOR"
  | PARTNERSHIP_LEAD => "PARTNERSHIP_LEAD"
  | UNDERWRITING_ANALYST => "UNDERWRITING_ANALYST"
  | COMPLIANCE_REVIEWER => "COMPLIANCE_REVIEWER"
  | FINANCE_OPERATOR => "FINANCE_OPERATOR"
  | CONTRIBUTOR_AGENT => "CONTRIBUTOR_AGENT"
  | MERCHANT_PSP_USER => "MERCHANT_PSP_USER"
  | ACQUIRER_PROVIDER_USER => "ACQUIRER_PROVIDER_USER"
  | AUDITOR_READONLY => "AUDITOR_READONLY"
  end%string.

Definition PERSONA_ROLES : list PersonaRole := [PLATFORM_OWNER; MARKETPLACE_OPERATOR; PARTNERSHIP_LEAD; UNDERWRITING_ANALYST; COMPLIANCE_REVIEWER; FINANCE_OPERATOR; CONTRIBUTOR_AGENT; MERCHANT_PSP_USER; ACQUIRER_PROVIDER_USER; AUDITOR_READONLY].

#[global] Instance PersonaRole_enum : StringEnum PersonaRole.
Proof.
  refine {| enum_values := PERSONA_ROLES; enum_name := PersonaRole_name |}.
  - solve_enum_complete.
  - solve_enum_inj.
Defined.

Definition isPersonaRole (value : string) : bool := includes_name PersonaRole value.

Inductive DisclosureClass : Type :=
| PUBLIC_MARKET
| MEMBER_MARKET
| MATCH_SUMMARY
| DEAL_ROOM
| RESTRICTED
| SECRET.

#[global] Instance DisclosureClass_eq_dec : EqDecision DisclosureClass.
Proof. solve_decision. Defined.

Definition DisclosureClass_name (x : DisclosureClass) : string :=
  match x with
  | PUBLIC_MARKET => "PUBLIC_MARKET"
  | MEMBER_MARKET => "MEMBER_MARKET"
  | MATCH_SUMMARY => "MATCH_SUMMARY"
  | DEAL_ROOM => "DEAL_ROOM"
  | RESTRICTED => "RESTRICTED"
  | SECRET => "SECRET"
  end%string.

Definition DISCLOSURE_CLASSES : list DisclosureClass := [PUBLIC_MARKET; MEMBER_MARKET; MATCH_SUMMARY; DEAL_ROOM; RESTRICTED; SECRET].

#[global] Instance DisclosureClass_enum : StringEnum DisclosureClass.
Proof.
  refine {| enum_values := DISCLOSURE_CLASSES; enum_name := DisclosureClass_name |}.
  - solve_enum_complete.
  - solve_enum_inj.
Defined.

Definition isDisclosureClass (value : string) : bool := includes_name DisclosureClass value.

(** [DISCLOSURE_CLASSES.indexOf(cls)] on a run-time string. *)
Fixpoint indexOf (i : Z) (cls : string) (l : list DisclosureClass) : Z :=
  match l with
  | [] => -1
  | x :: l' => if String.eqb (DisclosureClass_name x) cls then i else indexOf (i + 1) cls l'
  end.

Definition disclosureRank (cls : string) : res Z :=
  let rank := indexOf 0 cls DISCLOSURE_CLASSES in
  if rank =? -1 then Throw (TypeError "disclosureRank: not a valid DisclosureClass") else Ok rank.

End Roles.

Module ResourceType.

Inductive t : Type :=
| organization
| membership
| person
| audit_event
| opportunity
| capacity_profile
| rfq
| deal_room
| lockbox
| claim
| passport
| match_result
| commission_schedule
| revenue_event
| commission_accrual.

#[global] Instance t_eq_dec : EqDecision t.
Proof. solve_decision. Defined.

End ResourceType.

Module Actions.
Import Roles.

Inductive Action : Type :=
| organization_read
| organization_list
| organization_update
| membership_read
| membership_list
| membership_create
| membership_update_role
| membership_update_status
| person_read
| person_update
| audit_read
| opportunity_create
| opportunity_read
| opportunity_list
| opportunity_update
| capacity_create
| capacity_read
| capacity_list
| rfq_create
| rfq_read
| rfq_list
| rfq_decline
| rfq_submit_quote
| rfq_withdraw_quote
| rfq_select_quote
| deal_read
| deal_list
| deal_post_condition
| deal_resolve_condition
| deal_record_decision
| lockbox_seal
| lockbox_read_receipt
| lockbox_withdraw
| lockbox_release
| claim_create
| claim_read
| claim_list
| claim_dispute
| claim_decide
| passport_create
| passport_read
| passport_list
| passport_update
| passport_verify
| opportunity_browse_market
| capacity_browse_market
| matching_evaluate
| match_read
| match_list
| schedule_read
| schedule_list
| schedule_manage
| economics_read
| economics_list
| economics_record
| ledger_read
| ledger_list
| ledger_record_payment
| ledger_adjust.

#[global] Instance Action_eq_dec : EqDecision Action.
Proof. solve_decision. Defined.

Definition Action_name (x : Action) : string :=
  match x with
  | organization_read => "organization.read"
  | organization_list => "organization.list"
  | organization_update => "organization.update"
  | membership_read => "membership.read"
  | membership_list => "membership.list"
  | membership_create => "membership.create"
  | membership_update_role => "membership.update_role"
  | membership_update_status => "membership.update_status"
  | person_read => "person.read"
  | person_update => "person.update"
  | audit_read => "audit.read"
  | opportunity_create => "opportunity.create"
  | opportunity_read => "opportunity.read"
  | opportunity_list => "opportunity.list"
  | opportunity_update => "opportunity.update"
  | capacity_create => "capacity.create"
  | capacity_read => "capacity.read"
  | capacity_list => "capacity.list"
  | rfq_create => "rfq.create"
  | rfq_read => "rfq.read"
  | rfq_list => "rfq.list"
  | rfq_decline => "rfq.decline"
  | rfq_submit_quote => "rfq.submit_quote"
  | rfq_withdraw_quote => "rfq.withdraw_quote"
  | rfq_select_quote => "rfq.select_quote"
  | deal_read => "deal.read"
  | deal_list => "deal.list"
  | deal_post_condition => "deal.post_condition"
  | deal_resolve_condition => "deal.resolve_condition"
  | deal_record_decision => "deal.record_decision"
  | lockbox_seal => "lockbox.seal"
  | lockbox_read_receipt => "lockbox.read_receipt"
  | lockbox_withdraw => "lockbox.withdraw"
  | lockbox_release => "lockbox.release"
  | claim_create => "claim.create"
  | claim_read => "claim.read"
  | claim_list => "claim.list"
  | claim_dispute => "claim.dispute"
  | claim_decide => "claim.decide"
  | passport_create => "passport.create"
  | passport_read => "passport.read"
  | passport_list => "passport.list"
  | passport_update => "passport.update"
  | passport_verify => "passport.verify"
  | opportunity_browse_market => "opportunity.browse_market"
  | capacity_browse_market => "capacity.browse_market"
  | matching_evaluate => "matching.evaluate"
  | match_read => "match.read"
  | match_list => "match.list"
  | schedule_read => "schedule.read"
  | schedule_list => "schedule.list"
  | schedule_manage => "schedule.manage"
  | economics_read => "economics.read"
  | economics_list => "economics.list"
  | economics_record => "economics.record"
  | ledger_read => "ledger.read"
  | ledger_list => "ledger.list"
  | ledger_record_payment => "ledger.record_payment"
  | ledger_adjust => "ledger.adjust"
  end%string.

Definition ACTIONS : list Action := [organization_read; organization_list; organization_update; membership_read; membership_list; membership_create; membership_update_role; membership_update_status; person_read; person_update; audit_read; opportunity_create; opportunity_read; opportunity_list; opportunity_update; capacity_create; capacity_read; capacity_list; rfq_create; rfq_read; rfq_list; rfq_decline; rfq_submit_quote; rfq_withdraw_quote; rfq_select_quote; deal_read; deal_list; deal_post_condition; deal_resolve_condition; deal_record_decision; lockbox_seal; lockbox_read_receipt; lockbox_withdraw; lockbox_release; claim_create; claim_read; claim_list; claim_dispute; claim_decide; passport_create; passport_read; passport_list; passport_update; passport_verify; opportunity_browse_market; capacity_browse_market; matching_evaluate; match_read; match_list; schedule_read; schedule_list; schedule_manage; economics_read; economics_list; economics_record; ledger_read; ledger_list; ledger_record_payment; ledger_adjust].

#[global] Instance Action_enum : StringEnum Action.
Proof.
  refine {| enum_values := ACTIONS; enum_name := Action_name |}.
  - solve_enum_complete.
  - solve_enum_inj.
Defined.

Record Actor : Type := {
  userId : string;
  organizationId : option string;
  role : option PersonaRole;
  membershipId : option string
}.

(** [privacyClass] is a string at run time: [redactFields] guards it. *)
Record Resource : Type := {
  type : ResourceType.t;
  id : option string;
  ownerOrgId : option string;
  privacyClass : option string
}.

Record AuthContext : Type := { isSelf : option bool; isParticipant : option bool }.

End Actions.

Module Matrix.
Import Roles Actions.

Record RoleGrant : Type := {
  allowedActions : list Action;
  crossOrgActions : list Action;
  participantActions : list Action;
  managesOtherPeopleInOwnOrg : bool
}.

Definition PLATFORM_OWNER_allowedActions : list Action :=
    [organization_read; organization_list; organization_update; membership_read; membership_list;
     membership_create; membership_update_role; membership_update_status; person_read;
     person_update; audit_read; opportunity_create; opportunity_update; opportunity_read;
     opportunity_list; capacity_create; capacity_read; capacity_list; rfq_create; rfq_read;
     rfq_list; rfq_decline; rfq_submit_quote; rfq_withdraw_quote; rfq_select_quote; deal_read;
     deal_list; deal_post_condition; deal_resolve_condition; deal_record_decision; lockbox_seal;
     lockbox_read_receipt; lockbox_withdraw; lockbox_release; claim_create; claim_read; claim_list;
     claim_dispute; claim_decide; passport_create; passport_read; passport_list; passport_update;
     passport_verify; opportunity_browse_market; capacity_browse_market; matching_evaluate;
     match_read; match_list; schedule_read; schedule_list; schedule_manage; economics_read;
     economics_list; economics_record; ledger_read; ledger_list; ledger_record_payment; ledger_adjust].

Definition PLATFORM_OWNER_crossOrgActions : list Action :=
    [organization_read; organization_list; organization_update; membership_read; membership_list;
     membership_create; membership_update_role; membership_update_status; person_read;
     person_update; audit_read; opportunity_create; opportunity_update; opportunity_read;
     opportunity_list; capacity_create; capacity_read; capacity_list; rfq_create; rfq_read;
     rfq_list; rfq_decline; rfq_submit_quote; rfq_withdraw_quote; rfq_select_quote; deal_read;
     deal_list; deal_post_condition; deal_resolve_condition; deal_record_decision; lockbox_seal;
     lockbox_read_receipt; lockbox_release; claim_read; claim_list; claim_decide; passport_read;
     passport_list; passport_verify; opportunity_browse_market; capacity_browse_market;
     matching_evaluate; match_read; match_list; schedule_read; schedule_list; schedule_manage;
     economics_read; economics_list; economics_record; ledger_read; ledger_list;
     ledger_record_payment; ledger_adjust].

Definition PLATFORM_OWNER_grant : RoleGrant := {|
  allowedActions := PLATFORM_OWNER_allowedActions;
  crossOrgActions := PLATFORM_OWNER_crossOrgActions;
  participantActions := [];
  managesOtherPeopleInOwnOrg := true
|}.

Definition MARKETPLACE_OPERATOR_grant : RoleGrant := {|
  allowedActions :=
    [organization_read; organization_list; membership_read; membership_list; membership_create;
     membership_update_status; person_read; audit_read; opportunity_read; opportunity_list;
     capacity_read; capacity_list; rfq_create; rfq_read; rfq_list; deal_read; deal_list;
     deal_post_condition; deal_resolve_condition; deal_record_decision; lockbox_read_receipt;
     lockbox_release; claim_read; claim_list; claim_decide; passport_read; passport_list;
     passport_verify; opportunity_browse_market; capacity_browse_market; matching_evaluate;
     match_read; match_list];
  crossOrgActions :=
    [organization_read; organization_list; membership_read; membership_list; membership_create;
     membership_update_status; person_read; audit_read; opportunity_read; opportunity_list;
     capacity_read; capacity_list; rfq_create; rfq_read; rfq_list; deal_read; deal_list;
     deal_post_condition; deal_resolve_condition; deal_record_decision; lockbox_read_receipt;
     lockbox_release; claim_read; claim_list; claim_decide; passport_read; passport_list;
     passport_verify; opportunity_browse_market; capacity_browse_market; matching_evaluate;
     match_read; match_list];
  participantActions :=
    [];
  managesOtherPeopleInOwnOrg := false
|}.

Definition PARTNERSHIP_LEAD_grant : RoleGrant := {|
  allowedActions :=
    [organization_read; membership_read; membership_list; person_read; person_update;
     capacity_create; capacity_read; capacity_list; claim_read; claim_list; claim_decide;
     passport_read; passport_list; opportunity_browse_market; capacity_browse_market; match_read;
     match_list];
  crossOrgActions :=
    [capacity_create; capacity_read; capacity_list; claim_read; claim_list; claim_decide;
     passport_read; passport_list; opportunity_browse_market; capacity_browse_market; match_read;
     match_list];
  participantActions :=
    [];
  managesOtherPeopleInOwnOrg := true
|}.

Definition UNDERWRITING_ANALYST_grant : RoleGrant := {|
  allowedActions :=
    [organization_read; person_read; opportunity_read; opportunity_list; claim_read; claim_list;
     passport_read; passport_list; opportunity_browse_market; capacity_browse_market; match_read;
     match_list];
  crossOrgActions :=
    [opportunity_read; opportunity_list; claim_read; claim_list; passport_read; passport_list;
     opportunity_browse_market; capacity_browse_market; match_read; match_list];
  participantActions :=
    [];
  managesOtherPeopleInOwnOrg := false
|}.

Definition COMPLIANCE_REVIEWER_grant : RoleGrant := {|
  allowedActions :=
    [organization_read; organization_list; membership_read; membership_list; person_read;
     audit_read; opportunity_read; opportunity_list; capacity_read; capacity_list; rfq_read;
     rfq_list; deal_read; deal_list; lockbox_read_receipt; claim_read; claim_list; claim_decide;
     passport_read; passport_list; passport_verify; opportunity_browse_market;
     capacity_browse_market; match_read; match_list];
  crossOrgActions :=
    [organization_read; organization_list; membership_read; membership_list; person_read;
     audit_read; opportunity_read; opportunity_list; capacity_read; capacity_list; rfq_read;
     rfq_list; deal_read; deal_list; lockbox_read_receipt; claim_read; claim_list; claim_decide;
     passport_read; passport_list; passport_verify; opportunity_browse_market;
     capacity_browse_market; match_read; match_list];
  participantActions :=
    [];
  managesOtherPeopleInOwnOrg := false
|}.

Definition FINANCE_OPERATOR_grant : RoleGrant := {|
  allowedActions :=
    [organization_read; membership_read; membership_list; claim_read; claim_list;
     opportunity_browse_market; capacity_browse_market; schedule_read; schedule_list;
     economics_read; economics_list; economics_record; ledger_read; ledger_list;
     ledger_record_payment; ledger_adjust];
  crossOrgActions :=
    [claim_read; claim_list; opportunity_browse_market; capacity_browse_market; schedule_read;
     schedule_list; economics_read; economics_list; economics_record; ledger_read; ledger_list;
     ledger_record_payment; ledger_adjust];
  participantActions :=
    [];
  managesOtherPeopleInOwnOrg := false
|}.

Definition CONTRIBUTOR_AGENT_grant : RoleGrant := {|
  allowedActions :=
    [organization_read; person_read; person_update; opportunity_create; opportunity_update;
     opportunity_read; opportunity_list; lockbox_seal; lockbox_read_receipt; lockbox_withdraw;
     claim_create; claim_read; claim_list; claim_dispute; passport_create; passport_read;
     passport_update; opportunity_browse_market; capacity_browse_market; ledger_read; ledger_list];
  crossOrgActions :=
    [opportunity_browse_market; capacity_browse_market];
  participantActions :=
    [claim_dispute; ledger_read; ledger_list];
  managesOtherPeopleInOwnOrg := false
|}.

Definition MERCHANT_PSP_USER_grant : RoleGrant := {|
  allowedActions :=
    [organization_read; organization_update; membership_read; membership_list; person_read;
     person_update; opportunity_create; opportunity_update; opportunity_read; opportunity_list;
     rfq_read; rfq_list; rfq_select_quote; deal_read; deal_list; deal_post_condition;
     deal_resolve_condition; deal_record_decision; lockbox_seal; lockbox_read_receipt;
     lockbox_withdraw; claim_create; claim_read; claim_list; claim_dispute; passport_create;
     passport_read; passport_update; opportunity_browse_market; capacity_browse_market; match_read;
     match_list; ledger_read; ledger_list];
  crossOrgActions :=
    [opportunity_browse_market; capacity_browse_market];
  participantActions :=
    [claim_dispute; ledger_read; ledger_list];
  managesOtherPeopleInOwnOrg := false
|}.

Definition ACQUIRER_PROVIDER_USER_grant : RoleGrant := {|
  allowedActions :=
    [organization_read; organization_update; membership_read; membership_list; person_read;
     person_update; capacity_create; capacity_read; capacity_list; rfq_read; rfq_list; rfq_decline;
     rfq_submit_quote; rfq_withdraw_quote; deal_read; deal_list; deal_post_condition;
     deal_resolve_condition; deal_record_decision; lockbox_seal; lockbox_read_receipt;
     lockbox_withdraw; claim_create; claim_read; claim_list; claim_dispute; passport_create;
     passport_read; passport_update; opportunity_browse_market; capacity_browse_market; match_read;
     match_list; ledger_read; ledger_list];
  crossOrgActions :=
    [opportunity_browse_market; capacity_browse_market];
  participantActions :=
    [rfq_read; rfq_list; rfq_decline; rfq_submit_quote; rfq_withdraw_quote; deal_read; deal_list;
     deal_post_condition; deal_resolve_condition; deal_record_decision; claim_dispute; match_read;
     match_list; ledger_read; ledger_list];
  managesOtherPeopleInOwnOrg := false
|}.

Definition AUDITOR_READONLY_grant : RoleGrant := {|
  allowedActions :=
    [organization_read; organization_list; membership_read; membership_list; person_read;
     audit_read; opportunity_read; opportunity_list; capacity_read; capacity_list; rfq_read;
     rfq_list; deal_read; deal_list; lockbox_read_receipt; claim_read; claim_list; passport_read;
     passport_list; opportunity_browse_market; capacity_browse_market; match_read; match_list;
     schedule_read; schedule_list; economics_read; economics_list; ledger_read; ledger_list];
  crossOrgActions :=
    [organization_read; organization_list; membership_read; membership_list; person_read;
     audit_read; opportunity_read; opportunity_list; capacity_read; capacity_list; rfq_read;
     rfq_list; deal_read; deal_list; lockbox_read_receipt; claim_read; claim_list; passport_read;
     passport_list; opportunity_browse_market; capacity_browse_market; match_read; match_list;
     schedule_read; schedule_list; economics_read; economics_list; ledger_read; ledger_list];
  participantActions :=
    [];
  managesOtherPeopleInOwnOrg := false
|}.

Definition AUTHORITY_MATRIX (role : PersonaRole) : RoleGrant :=
  match role with
  | PLATFORM_OWNER => PLATFORM_OWNER_grant
  | MARKETPLACE_OPERATOR => MARKETPLACE_OPERATOR_grant
  | PARTNERSHIP_LEAD => PARTNERSHIP_LEAD_grant
  | UNDERWRITING_ANALYST => UNDERWRITING_ANALYST_grant
  | COMPLIANCE_REVIEWER => COMPLIANCE_REVIEWER_grant
  | FINANCE_OPERATOR => FINANCE_OPERATOR_grant
  | CONTRIBUTOR_AGENT => CONTRIBUTOR_AGENT_grant
  | MERCHANT_PSP_USER => MERCHANT_PSP_USER_grant
  | ACQUIRER_PROVIDER_USER => ACQUIRER_PROVIDER_USER_grant
  | AUDITOR_READONLY => AUDITOR_READONLY_grant
  end.

Definition has (a : Action) (l : list Action) : bool := bool_decide (a ∈ l).

(** The loop over [Object.entries(AUTHORITY_MATRIX)] run when the module
    loads: the two loops of one role, then every role. *)
Definition check_cross (g : RoleGrant) (a : Action) : res unit :=
  throw_if (negb (has a (allowedActions g))) (TypeError "crossOrgActions not in allowedActions").

Definition check_participant (g : RoleGrant) (a : Action) : res unit :=
  do! throw_if (negb (has a (allowedActions g))) (TypeError "participantActions not in allowedActions");
  throw_if (has a (crossOrgActions g)) (TypeError "in BOTH crossOrgActions and participantActions").

Definition check_grant (g : RoleGrant) : res unit :=
  do! mapM_res (check_cross g) (crossOrgActions g);
  do! mapM_res (check_participant g) (participantActions g);
  Ok tt.

Definition check_matrix : res unit :=
  do! mapM_res (fun r => check_grant (AUTHORITY_MATRIX r)) PERSONA_ROLES; Ok tt.

(** can.ts: the resource type each action operates on. *)
Definition ACTION_RESOURCE_TYPE (action : Action) : ResourceType.t :=
  match action with
  | organization_read => ResourceType.organization
  | organization_list => ResourceType.organization
  | organization_update => ResourceType.organization
  | membership_read => ResourceType.membership
  | membership_list => ResourceType.membership
  | membership_create => ResourceType.membership
  | membership_update_role => ResourceType.membership
  | membership_update_status => ResourceType.membership
  | person_read => ResourceType.person
  | person_update => ResourceType.person
  | audit_read => ResourceType.audit_event
  | opportunity_create => ResourceType.opportunity
  | opportunity_read => ResourceType.opportunity
  | opportunity_list => ResourceType.opportunity
  | opportunity_update => ResourceType.opportunity
  | capacity_create => ResourceType.capacity_profile
  | capacity_read => ResourceType.capacity_profile
  | capacity_list => ResourceType.capacity_profile
  | rfq_create => ResourceType.rfq
  | rfq_read => ResourceType.rfq
  | rfq_list => ResourceType.rfq
  | rfq_decline => ResourceType.rfq
  | rfq_submit_quote => ResourceType.rfq
  | rfq_withdraw_quote => ResourceType.rfq
  | rfq_select_quote => ResourceType.rfq
  | deal_read => ResourceType.deal_room
  | deal_list => ResourceType.deal_room
  | deal_post_condition => ResourceType.deal_room
  | deal_resolve_condition => ResourceType.deal_room
  | deal_record_decision => ResourceType.deal_room
  | lockbox_seal => ResourceType.lockbox
  | lockbox_read_receipt => ResourceType.lockbox
  | lockbox_withdraw => ResourceType.lockbox
  | lockbox_release => ResourceType.lockbox
  | claim_create => ResourceType.claim
  | claim_read => ResourceType.claim
  | claim_list => ResourceType.claim
  | claim_dispute => ResourceType.claim
  | claim_decide => ResourceType.claim
  | passport_create => ResourceType.passport
  | passport_read => ResourceType.passport
  | passport_list => ResourceType.passport
  | passport_update => ResourceType.passport
  | passport_verify => ResourceType.passport
  | opportunity_browse_market => ResourceType.opportunity
  | capacity_browse_market => ResourceType.capacity_profile
  | matching_evaluate => ResourceType.match_result
  | match_read => ResourceType.match_result
  | match_list => ResourceType.match_result
  | schedule_read => ResourceType.commission_schedule
  | schedule_list => ResourceType.commission_schedule
  | schedule_manage => ResourceType.commission_schedule
  | economics_read => ResourceType.revenue_event
  | economics_list => ResourceType.revenue_event
  | economics_record => ResourceType.revenue_event
  | ledger_read => ResourceType.commission_accrual
  | ledger_list => ResourceType.commission_accrual
  | ledger_record_payment => ResourceType.commission_accrual
  | ledger_adjust => ResourceType.commission_accrual
  end.

End Matrix.
