(* ===== verification/Authz.v ===== *)
(** * packages/authz: [can] and the field policy

    can.ts decides every request of the API; field-policy.ts decides which
    fields of a record a viewer receives.  A decision carries the branch it
    came from instead of the message text. *)
From S2P Require Import Prelude Lifecycle AuthzMatrix.
Import Roles Actions Matrix.

Inductive Reason : Type :=
| wrong_resource_type
| no_active_membership
| not_granted
| own_person_record_only
| cross_org_authority
| participant_authority
| no_owner_path_for_ledger
| no_owner_to_compare
| tenant_isolation_mismatch
| own_organization.

Record AuthDecision : Type := { allowed : bool; reason : Reason }.

Definition deny (r : Reason) : AuthDecision := {| allowed := false; reason := r |}.
Definition allow (r : Reason) : AuthDecision := {| allowed := true; reason := r |}.

(** [if (context.flag)]: an absent flag is falsy. *)
Definition truthy (b : option bool) : bool := default false b.

(** The defensive [!grant] branch has no counterpart: the matrix is total on
    [PersonaRole]. *)
Definition can (actor : Actor) (action : Action) (resource : Resource) (context : AuthContext) : AuthDecision :=
  let expectedType := ACTION_RESOURCE_TYPE action in
  if bool_decide (type resource <> expectedType) then deny wrong_resource_type
  else match role actor, organizationId actor with
  | Some r, Some org =>
      let grant := AUTHORITY_MATRIX r in
      if negb (has action (allowedActions grant)) then deny not_granted
      else if bool_decide (action = person_update) && negb (truthy (isSelf context))
              && negb (managesOtherPeopleInOwnOrg grant) then deny own_person_record_only
      else if has action (crossOrgActions grant) then allow cross_org_authority
      else if truthy (isParticipant context) && has action (participantActions grant) then allow participant_authority
      else if bool_decide (type resource = ResourceType.commission_accrual) then deny no_owner_path_for_ledger
      else match ownerOrgId resource with
           | None => deny no_owner_to_compare
           | Some owner =>
               if negb (String.eqb owner org) then deny tenant_isolation_mismatch
               else allow own_organization
           end
  | _, _ => deny no_active_membership
  end.

Definition canBool (actor : Actor) (action : Action) (resource : Resource) (context : option AuthContext) : bool :=
  allowed (can actor action resource (default {| isSelf := None; isParticipant := None |} context)).

(** ** field-policy.ts *)

Record FieldPolicyResult : Type := { isOwnerView : bool; maxVisibleClass : DisclosureClass }.

Definition CROSS_ORG_CEILING (r : PersonaRole) : option DisclosureClass :=
  match r with
  | PLATFORM_OWNER => Some SECRET
  | MARKETPLACE_OPERATOR | COMPLIANCE_REVIEWER | AUDITOR_READONLY => Some RESTRICTED
  | _ => None
  end.

Definition fieldPolicy (actor : Actor) (resource : Resource) : FieldPolicyResult :=
  let isPlatformOwner := bool_decide (role actor = Some PLATFORM_OWNER) in
  let isOwner := bool_decide (ownerOrgId resource <> None /\ ownerOrgId resource = organizationId actor) in
  if isPlatformOwner || isOwner
  then {| isOwnerView := isPlatformOwner || isOwner; maxVisibleClass := SECRET |}
  else match role actor with
       | None => {| isOwnerView := false; maxVisibleClass := PUBLIC_MARKET |}
       | Some r => {| isOwnerView := false; maxVisibleClass := default MEMBER_MARKET (CROSS_ORG_CEILING r) |}
       end.

Definition isFieldVisible (actor : Actor) (resource : Resource) (fieldClass : string) : res bool :=
  let max := maxVisibleClass (fieldPolicy actor resource) in
  let! f := disclosureRank fieldClass in
  let! m := disclosureRank (DisclosureClass_name max) in
  Ok (f <=? m).

Definition DANGEROUS_KEYS : list string := ["__proto__"; "constructor"; "prototype"].

(** The keys every object literal inherits from [Object.prototype]: reading
    one of them from [fieldClasses] yields a function, which is no class. *)
Definition inherited_keys : list string :=
  ["hasOwnProperty"; "isPrototypeOf"; "propertyIsEnumerable"; "toLocaleString"; "toString"; "valueOf";
   "__defineGetter__"; "__defineSetter__"; "__lookupGetter__"; "__lookupSetter__"].

Definition classOf (fieldClasses : gmap string string) (fallback key : string) : string :=
  match fieldClasses !! key with
  | Some c => c
  | None => if bool_decide (key ∈ inherited_keys) then "function" else fallback
  end.

Section Redact.
Context {V : Type}.

(** One iteration of the loop over [Object.keys(fields)]. *)
Definition redact_step (fieldClasses : gmap string string) (fallback : string) (max : DisclosureClass)
    (out : list (string * V)) (field : string * V) : res (list (string * V)) :=
  if bool_decide (field.1 ∈ DANGEROUS_KEYS) then Ok out
  else let! f := disclosureRank (classOf fieldClasses fallback field.1) in
       let! m := disclosureRank (DisclosureClass_name max) in
       Ok (if f <=? m then out ++ [field] else out).

(** [fields] and the result are the own properties in key order. *)
Definition redactFields (actor : Actor) (resource : Resource) (fields : list (string * V))
    (fieldClasses : gmap string string) (defaultClass : option string) : res (list (string * V)) :=
  let max := maxVisibleClass (fieldPolicy actor resource) in
  let fallback := default (default "MEMBER_MARKET" (privacyClass resource)) defaultClass in
  foldM_res (redact_step fieldClasses fallback max) [] fields.

End Redact.

(** * Properties *)

(** A boolean fact about every role and action is checked by evaluation. *)
Lemma all_roles_actions (P : PersonaRole -> Action -> bool) :
  forallb (fun r => forallb (P r) ACTIONS) PERSONA_ROLES = true -> forall r a, P r a = true.
Proof.
  intros H r a. rewrite forallb_forall in H. specialize (H r (proj1 (list_elem_of_In _ _) (enum_complete r))).
  rewrite forallb_forall in H. exact (H a (proj1 (list_elem_of_In _ _) (enum_complete a))).
Qed.

Definition is_action (a b : Action) : bool := bool_decide (a = b).

Lemma has_true a l : has a l = true <-> a ∈ l.
Proof. apply bool_decide_eq_true. Qed.

(** A denying branch: the promised alternatives contradict the tests. *)
Ltac can_denied :=
  split; [done|]; intros (? & ? & ? & ? & ? & ? & ? & ?); destruct_or?; destruct_and?; simplify_eq; congruence.

(** [can] as one proposition: the branches that allow. *)
Lemma can_allowed actor action resource context :
  allowed (can actor action resource context) = true <->
  type resource = ACTION_RESOURCE_TYPE action
  /\ exists r org, role actor = Some r /\ organizationId actor = Some org
     /\ action ∈ allowedActions (AUTHORITY_MATRIX r)
     /\ (action = person_update -> truthy (isSelf context) = true \/ managesOtherPeopleInOwnOrg (AUTHORITY_MATRIX r) = true)
     /\ (action ∈ crossOrgActions (AUTHORITY_MATRIX r)
         \/ (truthy (isParticipant context) = true /\ action ∈ participantActions (AUTHORITY_MATRIX r))
         \/ (type resource <> ResourceType.commission_accrual /\ ownerOrgId resource = Some org)).
Proof.
  setoid_rewrite <- has_true. unfold can.
  case_bool_decide as Ht; [split; [done|tauto]|].
  destruct (role actor) as [r|] eqn:Er; [|naive_solver].
  destruct (organizationId actor) as [org|] eqn:Eo; [|naive_solver].
  destruct (has action (allowedActions (AUTHORITY_MATRIX r))) eqn:Ha; simpl; [|can_denied].
  destruct (bool_decide (action = person_update) && negb (truthy (isSelf context))
            && negb (managesOtherPeopleInOwnOrg (AUTHORITY_MATRIX r))) eqn:Hp; simpl.
  { apply andb_true_iff in Hp as [[Hp1%bool_decide_eq_true Hp2%negb_true_iff]%andb_true_iff Hp3%negb_true_iff].
    split; [done|]. intros (_ & r' & org' & [= <-] & _ & _ & Hself & _). destruct (Hself Hp1); congruence. }
  assert (action = person_update -> truthy (isSelf context) = true \/ managesOtherPeopleInOwnOrg (AUTHORITY_MATRIX r) = true) as Hself.
  { intros ->. rewrite bool_decide_eq_true_2 in Hp by done.
    destruct (truthy (isSelf context)), (managesOtherPeopleInOwnOrg (AUTHORITY_MATRIX r)); simpl in Hp; auto. }
  clear Hp.
  destruct (has action (crossOrgActions (AUTHORITY_MATRIX r))) eqn:Hc; simpl; [naive_solver|].
  destruct (truthy (isParticipant context)) eqn:Hpa; simpl;
    [destruct (has action (participantActions (AUTHORITY_MATRIX r))) eqn:Hpp; simpl; [naive_solver|]|].
  all: case_bool_decide as Hl; simpl; [can_denied|].
  all: destruct (ownerOrgId resource) as [owner|] eqn:Ew; simpl; [|can_denied].
  all: destruct (String.eqb_spec owner org) as [->|Hne]; simpl; [naive_solver|can_denied].
Qed.

(** The three ways an allowed request was granted. *)
Lemma can_paths actor action resource context :
  allowed (can actor action resource context) = true ->
  exists r org, role actor = Some r /\ organizationId actor = Some org
    /\ has action (allowedActions (AUTHORITY_MATRIX r)) = true
    /\ (has action (crossOrgActions (AUTHORITY_MATRIX r)) = true
        \/ (truthy (isParticipant context) = true /\ has action (participantActions (AUTHORITY_MATRIX r)) = true)
        \/ (type resource <> ResourceType.commission_accrual /\ ownerOrgId resource = Some org)).
Proof.
  intros (_ & r & org & Hr & Ho & Ha & _ & Hp)%can_allowed. exists r, org. rewrite !has_true. naive_solver.
Qed.

(** The roles of members outside the platform's own staff. *)
Definition isMemberRole (r : PersonaRole) : bool :=
  match r with CONTRIBUTOR_AGENT | MERCHANT_PSP_USER | ACQUIRER_PROVIDER_USER => true | _ => false end.

Definition browseActions : list Action := [opportunity_browse_market; capacity_browse_market].

(** What a verified participant may do on a record of another organization. *)
Definition participantCeiling (r : PersonaRole) : list Action :=
  match r with
  | CONTRIBUTOR_AGENT | MERCHANT_PSP_USER => [claim_dispute; ledger_read; ledger_list]
  | ACQUIRER_PROVIDER_USER =>
      [claim_dispute; ledger_read; ledger_list; rfq_read; rfq_list; rfq_decline; rfq_submit_quote; rfq_withdraw_quote;
       deal_read; deal_list; deal_post_condition; deal_resolve_condition; deal_record_decision; match_read; match_list]
  | _ => []
  end.

(** C37: tenant isolation.  Whatever the resource and the context, a member of
    a contributor, merchant or provider organization is allowed an action
    only on a resource owned by the actor's own active organization, or as
    one of the two market-browsing actions, or as a verified participant
    with one of the few actions its role lists for participants; and without
    an active membership nothing is allowed. *)
Theorem tenant_isolation (actor : Actor) (action : Action) (resource : Resource) (context : AuthContext) :
  allowed (can actor action resource context) = true ->
  exists r org, role actor = Some r /\ organizationId actor = Some org
    /\ (isMemberRole r = true ->
         ownerOrgId resource = Some org \/ action ∈ browseActions
         \/ (isParticipant context = Some true /\ action ∈ participantCeiling r)).
Proof.
  intros (r & org & Hr & Ho & _ & Hp)%can_paths. exists r, org. split_and!; [done..|]. intros Hm.
  rewrite <- !has_true. destruct Hp as [Hc|[[Hpa Hp]|[_ Hown]]]; [right; left|right; right|by left].
  - pose proof (all_roles_actions (fun r a => implb (isMemberRole r && has a (crossOrgActions (AUTHORITY_MATRIX r)))
      (has a browseActions)) ltac:(vm_compute; reflexivity) r action) as H. cbv beta in H. by rewrite Hm, Hc in H.
  - split; [by destruct (isParticipant context) as [[]|]|].
    pose proof (all_roles_actions (fun r a => implb (isMemberRole r && has a (participantActions (AUTHORITY_MATRIX r)))
      (has a (participantCeiling r))) ltac:(vm_compute; reflexivity) r action) as H. cbv beta in H. by rewrite Hm, Hp in H.
Qed.

Definition sample_actor (r : PersonaRole) (org : string) : Actor :=
  {| userId := "u"; organizationId := Some org; role := Some r; membershipId := Some "m" |}.
Definition sample_resource (t : ResourceType.t) (owner : option string) : Resource :=
  {| type := t; id := None; ownerOrgId := owner; privacyClass := None |}.
Definition no_context : AuthContext := {| isSelf := None; isParticipant := None |}.
Definition participant_context : AuthContext := {| isSelf := None; isParticipant := Some true |}.

Lemma tenant_isolation_witness :
  exists r org, role (sample_actor ACQUIRER_PROVIDER_USER "p") = Some r
    /\ organizationId (sample_actor ACQUIRER_PROVIDER_USER "p") = Some org
    /\ (isMemberRole r = true ->
         ownerOrgId (sample_resource ResourceType.rfq (Some "m")) = Some org \/ rfq_submit_quote ∈ browseActions
         \/ (isParticipant participant_context = Some true /\ rfq_submit_quote ∈ participantCeiling r)).
Proof.
  exact (tenant_isolation (sample_actor ACQUIRER_PROVIDER_USER "p") rfq_submit_quote
    (sample_resource ResourceType.rfq (Some "m")) participant_context ltac:(vm_compute; reflexivity)).
Defined.

(** The commission ledger has no owner path.  Access to a
    commission_accrual is granted only to the three oversight roles, or to a
    verified recipient who may read and list but never record a payment or
    an adjustment, even when a caller passes the merchant's organization as
    the owner. *)
Theorem ledger_has_no_owner_path (actor : Actor) (action : Action) (resource : Resource) (context : AuthContext) :
  allowed (can actor action resource context) = true -> type resource = ResourceType.commission_accrual ->
  (role actor ∈ [Some PLATFORM_OWNER; Some FINANCE_OPERATOR; Some AUDITOR_READONLY]
   /\ (action = ledger_record_payment \/ action = ledger_adjust -> role actor <> Some AUDITOR_READONLY))
  \/ (isParticipant context = Some true /\ (action = ledger_read \/ action = ledger_list)).
Proof.
  intros Hall Ht. pose proof (can_paths _ _ _ _ Hall) as (r & org & Hr & _ & _ & Hp).
  apply can_allowed in Hall as [Hty _]. rewrite Ht in Hty. symmetry in Hty.
  destruct Hp as [Hc|[[Hpa Hp]|[Hne _]]]; [left|right|done].
  - rewrite Hr. clear -Hc Hty. destruct action; try discriminate Hty; destruct r; try discriminate Hc;
      (split; [set_solver|intros [|]; congruence]).
  - split; [by destruct (isParticipant context) as [[]|]|].
    clear -Hp Hty. destruct action; try discriminate Hty; destruct r; try discriminate Hp; auto.
Qed.

Lemma ledger_has_no_owner_path_witness :
  (role (sample_actor FINANCE_OPERATOR "f") ∈ [Some PLATFORM_OWNER; Some FINANCE_OPERATOR; Some AUDITOR_READONLY]
   /\ (ledger_adjust = ledger_record_payment \/ ledger_adjust = ledger_adjust ->
        role (sample_actor FINANCE_OPERATOR "f") <> Some AUDITOR_READONLY))
  \/ (isParticipant no_context = Some true /\ (ledger_adjust = ledger_read \/ ledger_adjust = ledger_list)).
Proof.
  exact (ledger_has_no_owner_path (sample_actor FINANCE_OPERATOR "f") ledger_adjust
    (sample_resource ResourceType.commission_accrual None) no_context ltac:(vm_compute; reflexivity) eq_refl).
Defined.

(** The actions that only read: everything a read-only role may hold. *)
Definition readOnlyActions : list Action :=
  [organization_read; organization_list; membership_read; membership_list; person_read; audit_read;
   opportunity_read; opportunity_list; capacity_read; capacity_list; rfq_read; rfq_list; deal_read; deal_list;
   lockbox_read_receipt; claim_read; claim_list; passport_read; passport_list; opportunity_browse_market;
   capacity_browse_market; match_read; match_list; schedule_read; schedule_list; economics_read; economics_list;
   ledger_read; ledger_list].

(** The auditor inspects everything and changes nothing.  With an active
    membership, an AUDITOR_READONLY actor is allowed an action on a resource
    of the right type exactly when the action only reads, whoever owns the
    resource and whatever the context claims. *)
Theorem auditor_reads_everything_mutates_nothing (actor : Actor) (action : Action) (resource : Resource) (context : AuthContext) :
  role actor = Some AUDITOR_READONLY -> is_Some (organizationId actor) ->
  allowed (can actor action resource context) = true <->
  type resource = ACTION_RESOURCE_TYPE action /\ action ∈ readOnlyActions.
Proof.
  intros Hr [org Ho].
  pose proof (all_roles_actions (fun _ a =>
    eqb (has a (allowedActions AUDITOR_READONLY_grant)) (has a readOnlyActions)
    && eqb (has a (crossOrgActions AUDITOR_READONLY_grant)) (has a readOnlyActions)
    && negb (is_action a person_update && has a readOnlyActions)) ltac:(vm_compute; reflexivity) PLATFORM_OWNER action) as H.
  cbv beta in H. apply andb_true_iff in H as [[H1%eqb_prop H2%eqb_prop]%andb_true_iff H3%negb_true_iff].
  rewrite can_allowed, <- has_true. split.
  - intros (Ht & r & org' & Hr' & _ & Ha & _). split; [done|]. rewrite Hr in Hr'. injection Hr' as <-.
    apply has_true in Ha. by rewrite <- H1.
  - intros (Ht & Ha). split; [done|]. exists AUDITOR_READONLY, org. rewrite <- !has_true.
    change (AUTHORITY_MATRIX AUDITOR_READONLY) with AUDITOR_READONLY_grant. rewrite H1, H2.
    split_and!; [done..| |by left]. intros ->. by unfold is_action in H3; rewrite Ha, bool_decide_eq_true_2 in H3.
Qed.

Lemma auditor_witness :
  allowed (can (sample_actor AUDITOR_READONLY "aud") rfq_decline (sample_resource ResourceType.rfq (Some "aud")) participant_context) = true
  <-> ResourceType.rfq = ResourceType.rfq /\ rfq_decline ∈ readOnlyActions.
Proof.
  exact (auditor_reads_everything_mutates_nothing (sample_actor AUDITOR_READONLY "aud") rfq_decline
    (sample_resource ResourceType.rfq (Some "aud")) participant_context eq_refl (ex_intro _ "aud" eq_refl)).
Defined.

(** Acts that are only ever taken as the organization the record belongs to. *)
Definition ownOrgOnlyActions : list Action :=
  [lockbox_withdraw; claim_create; passport_create; passport_update].

(** Acts of authority reserved to named roles. *)
Definition reservedTo (a : Action) : option (list PersonaRole) :=
  match a with
  | membership_update_role | schedule_manage => Some [PLATFORM_OWNER]
  | matching_evaluate | lockbox_release => Some [PLATFORM_OWNER; MARKETPLACE_OPERATOR]
  | passport_verify => Some [PLATFORM_OWNER; MARKETPLACE_OPERATOR; COMPLIANCE_REVIEWER]
  | claim_decide => Some [PLATFORM_OWNER; MARKETPLACE_OPERATOR; PARTNERSHIP_LEAD; COMPLIANCE_REVIEWER]
  | economics_record | ledger_record_payment | ledger_adjust => Some [PLATFORM_OWNER; FINANCE_OPERATOR]
  | rfq_create => Some [PLATFORM_OWNER; MARKETPLACE_OPERATOR]
  | _ => None
  end.

Definition inOpt (o : option (list PersonaRole)) (r : PersonaRole) : bool :=
  match o with None => true | Some l => bool_decide (r ∈ l) end.

Lemma own_org_path (actor : Actor) (action : Action) (resource : Resource) (context : AuthContext) :
  allowed (can actor action resource context) = true -> action ∈ ownOrgOnlyActions -> ownerOrgId resource = organizationId actor.
Proof.
  intros (r & org & _ & Ho & _ & Hp)%can_paths Hin%has_true. pose proof (all_roles_actions (fun r a =>
    negb (has a ownOrgOnlyActions && (has a (crossOrgActions (AUTHORITY_MATRIX r)) || has a (participantActions (AUTHORITY_MATRIX r)))))
    ltac:(vm_compute; reflexivity) r action) as H1. cbv beta in H1. apply negb_true_iff in H1.
  rewrite Hin in H1. apply orb_false_iff in H1 as [H1c H1p]. destruct Hp as [?|[[? ?]|[_ ?]]]; congruence.
Qed.

Lemma reserved_path (actor : Actor) (action : Action) (resource : Resource) (context : AuthContext) rs :
  allowed (can actor action resource context) = true -> reservedTo action = Some rs -> exists r, role actor = Some r /\ r ∈ rs.
Proof.
  intros (r & org & Hr & _ & Ha & _)%can_paths Hrs. exists r. split; [done|]. pose proof (all_roles_actions (fun r a =>
    implb (has a (allowedActions (AUTHORITY_MATRIX r))) (inOpt (reservedTo a) r)) ltac:(vm_compute; reflexivity) r action) as H3.
  cbv beta in H3. rewrite Ha, Hrs in H3. simpl in H3. by apply bool_decide_eq_true in H3.
Qed.

(** Separation of duties.  Withdrawing a lockbox, filing a claim and
    authoring a passport are allowed only on records of the actor's own
    organization, for every role including the platform owner; disputing a
    claim needs ownership or verified standing; and the acts of authority
    (changing roles, setting rates, running a match, releasing a lockbox,
    deciding claims, verifying passports, recording revenue, payments and
    adjustments, creating an RFQ) are reserved to the roles listed for
    them. *)
Theorem separation_of_duties (actor : Actor) (action : Action) (resource : Resource) (context : AuthContext) :
  allowed (can actor action resource context) = true ->
  exists r org, role actor = Some r /\ organizationId actor = Some org
    /\ (action ∈ ownOrgOnlyActions -> ownerOrgId resource = Some org)
    /\ (action = claim_dispute -> ownerOrgId resource = Some org \/ isParticipant context = Some true)
    /\ (forall rs, reservedTo action = Some rs -> r ∈ rs).
Proof.
  intros Hal. pose proof Hal as (r & org & Hr & Ho & Ha & Hp)%can_paths. exists r, org. split_and!; [done|done| | |].
  - intros Hin. rewrite <- Ho. by eapply own_org_path.
  - intros ->. pose proof (all_roles_actions (fun r a => negb (is_action a claim_dispute && has a (crossOrgActions (AUTHORITY_MATRIX r))))
      ltac:(vm_compute; reflexivity) r claim_dispute) as H2. cbv beta in H2. apply negb_true_iff in H2.
    unfold is_action in H2. rewrite bool_decide_eq_true_2 in H2 by done. simpl in H2.
    destruct Hp as [?|[[Hpa ?]|[_ ?]]]; [congruence|right|by left]. by destruct (isParticipant context) as [[]|].
  - intros rs Hrs. destruct (reserved_path _ _ _ _ _ Hal Hrs) as (r' & Hr' & ?). congruence.
Qed.

Lemma separation_of_duties_witness :
  exists r org, role (sample_actor PLATFORM_OWNER "tol") = Some r /\ organizationId (sample_actor PLATFORM_OWNER "tol") = Some org
    /\ (lockbox_withdraw ∈ ownOrgOnlyActions -> ownerOrgId (sample_resource ResourceType.lockbox (Some "tol")) = Some org)
    /\ (lockbox_withdraw = claim_dispute -> ownerOrgId (sample_resource ResourceType.lockbox (Some "tol")) = Some org
                                          \/ isParticipant no_context = Some true)
    /\ (forall rs, reservedTo lockbox_withdraw = Some rs -> r ∈ rs).
Proof.
  exact (separation_of_duties (sample_actor PLATFORM_OWNER "tol") lockbox_withdraw
    (sample_resource ResourceType.lockbox (Some "tol")) no_context ltac:(vm_compute; reflexivity)).
Defined.

(** ** The matrix's load-time checks *)

Lemma mapM_check {A} (f : A -> res unit) (l : list A) :
  is_ok (mapM_res f l) = true <-> forall a, a ∈ l -> is_ok (f a) = true.
Proof.
  induction l as [|x l IH]; simpl; [set_solver|]. setoid_rewrite elem_of_cons.
  destruct (f x) as [[]|e] eqn:E; simpl; [|split; [done|]; intros H; rewrite <- (H x); [by rewrite E|by left]].
  destruct (mapM_res f l); simpl in *.
  - split; [|done]. intros _ y [->|Hy]; [by rewrite E|]. by apply IH.
  - split; [done|]. intros H. apply IH. intros y Hy. apply H. by right.
Qed.

Definition wellFormedGrant (g : RoleGrant) : Prop :=
  (forall a, a ∈ crossOrgActions g -> a ∈ allowedActions g)
  /\ (forall a, a ∈ participantActions g -> a ∈ allowedActions g /\ a ∉ crossOrgActions g).

(** The checks matrix.ts runs at import time are sound and complete for
    its three structural invariants (cross-org and participant actions are
    allowed actions, and the two access paths are disjoint), and the matrix
    passes them, so the module loads. *)
Theorem matrix_load_checks :
  (forall g, is_ok (check_grant g) = true <-> wellFormedGrant g)
  /\ check_matrix = Ok tt /\ (forall r, wellFormedGrant (AUTHORITY_MATRIX r)).
Proof.
  assert (forall g, is_ok (check_grant g) = true <-> wellFormedGrant g) as Hg.
  { intros g. unfold check_grant, wellFormedGrant.
    assert (is_ok (mapM_res (check_cross g) (crossOrgActions g)) = true <->
            forall a, a ∈ crossOrgActions g -> a ∈ allowedActions g) as H1.
    { rewrite mapM_check. unfold check_cross. setoid_rewrite <- has_true.
      split; intros H b Hb%H; destruct (has b (allowedActions g)); done. }
    assert (is_ok (mapM_res (check_participant g) (participantActions g)) = true <->
            forall a, a ∈ participantActions g -> a ∈ allowedActions g /\ a ∉ crossOrgActions g) as H2.
    { rewrite mapM_check. unfold check_participant. setoid_rewrite <- has_true.
      split; intros H b Hb%H; destruct (has b (allowedActions g)), (has b (crossOrgActions g)); simpl in *; naive_solver. }
    destruct (mapM_res (check_cross g) (crossOrgActions g)); simpl in *; [|naive_solver].
    destruct (mapM_res (check_participant g) (participantActions g)); simpl in *; naive_solver. }
  split; [done|]. split; [vm_compute; reflexivity|]. intros r. apply Hg. by destruct r; vm_compute.
Qed.

(** ** The context only adds authority *)

Definition flag_le (a b : option bool) : Prop := truthy a = true -> truthy b = true.

(** The context never takes authority away: raising [isSelf] or
    [isParticipant] keeps every allowed request allowed, and a platform-wide
    (cross-organization) grant does not depend on the participant flag or on
    who owns the resource. *)
Theorem context_monotone (actor : Actor) (action : Action) (resource : Resource) (c c' : AuthContext) :
  flag_le (isSelf c) (isSelf c') -> flag_le (isParticipant c) (isParticipant c') ->
  allowed (can actor action resource c) = true ->
  allowed (can actor action resource c') = true
  /\ (reason (can actor action resource c) = cross_org_authority ->
      forall owner p, allowed (can actor action
        {| type := type resource; id := id resource; ownerOrgId := owner; privacyClass := privacyClass resource |}
        {| isSelf := isSelf c; isParticipant := p |}) = true).
Proof.
  intros Hs Hp Hall. split.
  - rewrite can_allowed in *. unfold flag_le in *. naive_solver.
  - intros Hre owner p. pose proof Hall as Hall'. apply can_allowed in Hall as (Ht & r & org & Hr & Ho & Ha & Hself & _).
    apply can_allowed. split; [done|]. exists r, org. split_and!; try done. left.
    apply has_true. unfold can in Hre. rewrite Hr, Ho in Hre.
    repeat case_match; simpl in *; congruence.
Qed.

Lemma context_monotone_witness :
  allowed (can (sample_actor ACQUIRER_PROVIDER_USER "p") rfq_read (sample_resource ResourceType.rfq (Some "p")) participant_context) = true.
Proof.
  exact (proj1 (context_monotone (sample_actor ACQUIRER_PROVIDER_USER "p") rfq_read
    (sample_resource ResourceType.rfq (Some "p")) no_context participant_context
    ltac:(discriminate) ltac:(discriminate) ltac:(vm_compute; reflexivity))).
Defined.

(** ** Field redaction *)

(** Position of a class on the disclosure ladder. *)
Definition classRank (c : DisclosureClass) : Z :=
  match c with
  | PUBLIC_MARKET => 0 | MEMBER_MARKET => 1 | MATCH_SUMMARY => 2 | DEAL_ROOM => 3 | RESTRICTED => 4 | SECRET => 5
  end.

Lemma disclosureRank_name c : disclosureRank (DisclosureClass_name c) = Ok (classRank c).
Proof. by destruct c. Qed.

Lemma indexOf_missing i s l : (forall c, DisclosureClass_name c <> s) -> indexOf i s l = -1.
Proof.
  intros H. revert i. induction l as [|x l IH]; intros i; simpl; [done|].
  destruct (String.eqb_spec (DisclosureClass_name x) s) as [E|_]; [by apply H in E|apply IH].
Qed.

Lemma disclosureRank_ok s : is_ok (disclosureRank s) = isDisclosureClass s.
Proof.
  unfold isDisclosureClass. destruct (includes_name DisclosureClass s) eqn:Hin.
  - unfold includes_name in Hin. apply existsb_exists in Hin as (n & Hn & ->%String.eqb_eq).
    apply in_map_iff in Hn as (c & <- & _). by destruct c.
  - unfold disclosureRank. rewrite indexOf_missing; [done|]. intros c E.
    assert (includes_name DisclosureClass s = true); [|congruence]. apply existsb_exists.
    exists (DisclosureClass_name c). split; [|by rewrite E, String.eqb_refl].
    apply (in_map DisclosureClass_name), list_elem_of_In, (enum_complete c).
Qed.

(** What one viewer may see of one field. *)
Definition visibleTo (cls : string -> string) (max : DisclosureClass) (key : string) : bool :=
  negb (bool_decide (key ∈ DANGEROUS_KEYS))
  && match disclosureRank (cls key) with Ok r => r <=? classRank max | Throw _ => false end.

Lemma redact_fold {V} fc fb max (fields : list (string * V)) acc :
  match foldM_res (redact_step fc fb max) acc fields with
  | Ok out => out = acc ++ List.filter (fun f => visibleTo (classOf fc fb) max f.1) fields
              /\ forall f, f ∈ fields -> f.1 ∉ DANGEROUS_KEYS -> isDisclosureClass (classOf fc fb f.1) = true
  | Throw e => e = TypeError "disclosureRank: not a valid DisclosureClass"
               /\ exists f, f ∈ fields /\ f.1 ∉ DANGEROUS_KEYS /\ isDisclosureClass (classOf fc fb f.1) = false
  end.
Proof.
  revert acc. induction fields as [|[k v] fields IH]; intros acc; simpl.
  - rewrite app_nil_r. set_solver.
  - unfold redact_step at 1, visibleTo at 1. simpl. case_bool_decide as Hd; simpl.
    + specialize (IH acc). destruct (foldM_res _ acc fields).
      * destruct IH as [-> Hall]. split; [done|]. intros f [->|Hf]%elem_of_cons Hnd; [done|by apply Hall].
      * destruct IH as [-> (f & Hf & ?)]. split; [done|]. exists f. set_solver.
    + pose proof (disclosureRank_ok (classOf fc fb k)) as Hok.
      destruct (disclosureRank (classOf fc fb k)) as [r|e] eqn:Hr; simpl in *.
      * rewrite disclosureRank_name. simpl. specialize (IH (if r <=? classRank max then acc ++ [(k, v)] else acc)).
        destruct (foldM_res _ _ fields).
        -- destruct IH as [-> Hall]. split; [destruct (r <=? classRank max); [by rewrite <- app_assoc|done]|].
           intros f [->|Hf]%elem_of_cons Hnd; [done|by apply Hall].
        -- destruct IH as [-> (f & Hf & ?)]. split; [done|]. exists f. set_solver.
      * unfold disclosureRank in Hr. destruct (_ =? -1); [|done]. injection Hr as <-.
        split; [done|]. exists (k, v). split; [set_solver|]. done.
Qed.

Definition redactFallback (resource : Resource) (defaultClass : option string) : string :=
  default (default "MEMBER_MARKET" (privacyClass resource)) defaultClass.

(** Redaction is exact and fails closed.  [redactFields] throws exactly
    when some field (other than the three prototype-pollution keys, which are
    always dropped) has an unknown class; otherwise it returns, in order and
    unchanged, exactly the fields whose class is at or below the viewer's
    ceiling.  The owner and the platform owner have the top of the ladder as
    their ceiling; a viewer with no role sees PUBLIC_MARKET only; and a
    foreign viewer outside the operator, compliance and audit roles never
    receives a field classed above MEMBER_MARKET. *)
Theorem redaction_exact {V : Type} (actor : Actor) (resource : Resource) (fields : list (string * V))
    (fieldClasses : gmap string string) (defaultClass : option string) :
  let cls := classOf fieldClasses (redactFallback resource defaultClass) in
  let max := maxVisibleClass (fieldPolicy actor resource) in
  (is_ok (redactFields actor resource fields fieldClasses defaultClass) = true <->
     forall f, f ∈ fields -> f.1 ∉ DANGEROUS_KEYS -> isDisclosureClass (cls f.1) = true)
  /\ (forall out, redactFields actor resource fields fieldClasses defaultClass = Ok out ->
        out = List.filter (fun f => visibleTo cls max f.1) fields)
  /\ (role actor = Some PLATFORM_OWNER \/ (is_Some (ownerOrgId resource) /\ ownerOrgId resource = organizationId actor) ->
        max = SECRET)
  /\ (ownerOrgId resource <> organizationId actor -> role actor = None -> max = PUBLIC_MARKET)
  /\ (ownerOrgId resource <> organizationId actor ->
        role actor ∉ [Some PLATFORM_OWNER; Some MARKETPLACE_OPERATOR; Some COMPLIANCE_REVIEWER; Some AUDITOR_READONLY] ->
        classRank max <= classRank MEMBER_MARKET).
Proof.
  simpl. unfold redactFields. fold (redactFallback resource defaultClass).
  pose proof (redact_fold fieldClasses (redactFallback resource defaultClass)
    (maxVisibleClass (fieldPolicy actor resource)) fields []) as Hf.
  split_and!.
  - destruct (foldM_res _ [] fields); simpl.
    + split; [intros _; apply Hf|done].
    + split; [done|]. intros Hall. destruct Hf as (_ & f & Hin & Hnd & Hbad). rewrite Hall in Hbad; done.
  - intros out E. rewrite E in Hf. apply Hf.
  - unfold fieldPolicy. intros [E|[[o Ho] E]].
    + by rewrite (bool_decide_eq_true_2 (role actor = _)).
    + rewrite (bool_decide_eq_true_2 (_ /\ _)) by (split; [by rewrite Ho|done]). by rewrite orb_true_r.
  - unfold fieldPolicy. intros Hne Hr. rewrite Hr, bool_decide_eq_false_2 by done.
    rewrite bool_decide_eq_false_2 by naive_solver. done.
  - unfold fieldPolicy. intros Hne Hr. rewrite bool_decide_eq_false_2 by set_solver.
    rewrite bool_decide_eq_false_2 by naive_solver. simpl.
    destruct (role actor) as [[]|]; simpl; try lia; exfalso; apply Hr; set_solver.
Qed.
