(* ===== verification/Gf256.v ===== *)
(** * Lagrange interpolation over an arbitrary field

    The algebra behind packages/crypto/src/shamir.ts, independent of the
    representation of the field: a polynomial function of bounded degree is
    determined by its values at distinct points, and interpolating through
    the points recovers its value at zero. *)
From S2P Require Import Prelude.
From Stdlib Require Import Field.

Section Poly.
Context {F : Type} `{EqDecision F} (O I : F) (add mul sub : F -> F -> F) (opp : F -> F)
        (div : F -> F -> F) (inv : F -> F).
Context (Fth : field_theory O I add mul sub opp div inv (@eq F)).

Add Field Ffield : Fth.

Local Infix "+'" := add (at level 50, left associativity).
Local Infix "*'" := mul (at level 40, left associativity).
Local Infix "-'" := sub (at level 50, left associativity).

(** Horner evaluation of a coefficient list, constant term first. *)
Fixpoint peval (p : list F) (x : F) : F :=
  match p with
  | [] => O
  | a :: p' => a +' x *' peval p' x
  end.

Fixpoint padd (p q : list F) : list F :=
  match p, q with
  | [], _ => q
  | _, [] => p
  | a :: p', b :: q' => (a +' b) :: padd p' q'
  end.

Definition pscale (c : F) (p : list F) : list F := map (mul c) p.

(** Multiplication by the linear factor [a + b x]. *)
Definition plin (a b : F) (p : list F) : list F := padd (pscale a p) (O :: pscale b p).

(** Quotient of [p] by [x - a]. *)
Fixpoint pquot (a : F) (p : list F) : list F :=
  match p with
  | [] => []
  | [_] => []
  | _ :: p' => peval p' a :: pquot a p'
  end.

Lemma peval_padd p q x : peval (padd p q) x = peval p x +' peval q x.
Proof.
  revert q. induction p as [|a p IH]; intros [|b q]; simpl; try ring. rewrite IH. ring.
Qed.

Lemma peval_pscale c p x : peval (pscale c p) x = c *' peval p x.
Proof. unfold pscale. induction p as [|a p IH]; simpl; [ring|]. rewrite IH. ring. Qed.

Lemma peval_plin a b p x : peval (plin a b p) x = (a +' b *' x) *' peval p x.
Proof. unfold plin. rewrite peval_padd. simpl. rewrite !peval_pscale. ring. Qed.

Lemma padd_length p q : length (padd p q) = Nat.max (length p) (length q).
Proof. revert q. induction p as [|a p IH]; intros [|b q]; simpl; [done..|]. by rewrite IH. Qed.

Lemma plin_length a b p : (length (plin a b p) <= S (length p))%nat.
Proof. unfold plin. rewrite padd_length. simpl. unfold pscale. rewrite !length_map. lia. Qed.

Lemma pquot_length a p : (length (pquot a p) <= pred (length p))%nat.
Proof. induction p as [|b [|c p] IH]; simpl in *; lia. Qed.

Lemma pquot_spec a p x : peval p x = peval p a +' (x -' a) *' peval (pquot a p) x.
Proof.
  induction p as [|b [|c p] IH]; [simpl; ring|simpl; ring|].
  change (peval (b :: c :: p) x) with (b +' x *' peval (c :: p) x).
  change (peval (b :: c :: p) a) with (b +' a *' peval (c :: p) a).
  change (peval (pquot a (b :: c :: p)) x) with (peval (c :: p) a +' x *' peval (pquot a (c :: p)) x).
  rewrite IH. ring.
Qed.

Lemma mul_zero a b : a *' b = O -> a = O \/ b = O.
Proof.
  intros H. destruct (decide (a = O)) as [|Ha]; [by left|right].
  assert (b = div (a *' b) a) as -> by (field; done). rewrite H. by field.
Qed.

Lemma sub_zero a b : a -' b = O -> a = b.
Proof. intros H. assert (a = (a -' b) +' b) as -> by ring. rewrite H. ring. Qed.

(** A polynomial with as many distinct roots as coefficients is zero. *)
Lemma roots_zero (xs : list F) (p : list F) :
  NoDup xs -> (length p <= length xs)%nat -> (forall x, x ∈ xs -> peval p x = O) ->
  forall y, peval p y = O.
Proof.
  revert p. induction xs as [|a xs IH]; intros p Hnd Hlen Hroot y.
  - destruct p; [done|simpl in Hlen; lia].
  - apply NoDup_cons in Hnd as [Hni Hnd]. rewrite (pquot_spec a), Hroot by set_solver.
    assert (peval (pquot a p) y = O) as ->; [|ring]. apply IH; [done| |].
    + pose proof (pquot_length a p). simpl in Hlen. lia.
    + intros x Hx. pose proof (pquot_spec a p x) as Hq. rewrite !Hroot in Hq by set_solver.
      assert ((x -' a) *' peval (pquot a p) x = O) as Hz.
      { transitivity (O +' (x -' a) *' peval (pquot a p) x); [ring|by symmetry]. }
      apply mul_zero in Hz as [Hz%sub_zero|]; [subst; done|done].
Qed.

(** Equality everywhere forces the coefficients to agree. *)
Lemma peval_zero_coeffs (xs p : list F) :
  NoDup xs -> (length p <= length xs)%nat -> (forall x, x ∈ xs -> peval p x = O) -> Forall (fun c => c = O) p.
Proof.
  revert xs. induction p as [|a p IH]; intros xs Hnd Hlen Hroot; [constructor|].
  assert (forall y, a +' y *' peval p y = O) as Hz.
  { intros y. exact (roots_zero xs (a :: p) Hnd Hlen Hroot y). }
  assert (a = O) as -> by (specialize (Hz O); rewrite <- Hz; ring). constructor; [done|].
  apply (IH (filter (fun x => x <> O) xs)).
  - by apply NoDup_filter.
  - simpl in Hlen. destruct (decide (O ∈ xs)) as [Hin|Hni].
    + assert (xs ≡ₚ O :: filter (fun x => x <> O) xs) as Hp.
      { apply NoDup_Permutation; [done| |].
        - apply NoDup_cons. split; [|by apply NoDup_filter]. rewrite list_elem_of_filter. tauto.
        - intros x. rewrite elem_of_cons, list_elem_of_filter. destruct (decide (x = O)); naive_solver. }
      apply Permutation_length in Hp. simpl in Hp. lia.
    + assert (filter (fun x => x <> O) xs = xs) as ->; [|lia].
      clear -Hni. induction xs as [|x xs IH]; [done|]. rewrite filter_cons, decide_True by set_solver.
      f_equal. apply IH. set_solver.
  - intros x [Hx _]%list_elem_of_filter. specialize (Hz x).
    assert (x *' peval p x = O) as Hm by (rewrite <- Hz; ring). apply mul_zero in Hm as [|]; done.
Qed.

(** ** Interpolation *)

(** Sums and products over a list. *)
Definition fsum (l : list F) : F := foldr add O l.
Definition fprod (l : list F) : F := foldr mul I l.

(** The weight of point [xi] at [x] among the points [xs]. *)
Definition weight (xs : list F) (xi x : F) : F :=
  div (fprod (map (fun xj => xj -' x) (filter (fun xj => xj <> xi) xs)))
      (fprod (map (fun xj => xj -' xi) (filter (fun xj => xj <> xi) xs))).

Definition interp (xs : list F) (f : F -> F) (x : F) : F :=
  fsum (map (fun xi => f xi *' weight xs xi x) xs).

Lemma fprod_nonzero l : Forall (fun y => y <> O) l -> fprod l <> O.
Proof.
  induction 1 as [|y l Hy Hl IH]; simpl.
  - apply (F_1_neq_0 Fth).
  - intros Hz%mul_zero. tauto.
Qed.

Lemma weight_den_nonzero xs xi :
  fprod (map (fun xj => xj -' xi) (filter (fun xj => xj <> xi) xs)) <> O.
Proof.
  apply fprod_nonzero, Forall_fmap, Forall_forall. intros xj [Hne _]%list_elem_of_filter Hz. simpl in Hz.
  by apply sub_zero in Hz.
Qed.

Lemma weight_self xs xi : weight xs xi xi = I.
Proof. unfold weight. pose proof (weight_den_nonzero xs xi). by field. Qed.

Lemma fprod_zero l : O ∈ l -> fprod l = O.
Proof.
  induction l as [|y l IH]; [set_solver|]. simpl. intros [<-|Hl]%elem_of_cons; [ring|]. rewrite IH by done. ring.
Qed.

Lemma weight_other xs xi xk : xk ∈ xs -> xk <> xi -> weight xs xi xk = O.
Proof.
  intros Hk Hne. unfold weight. rewrite (fprod_zero (map (fun xj => xj -' xk) _)).
  - field. apply weight_den_nonzero.
  - apply list_elem_of_fmap. exists xk. split; [ring|]. by apply list_elem_of_filter.
Qed.

Lemma interp_at_point xs f xk : NoDup xs -> xk ∈ xs -> interp xs f xk = f xk.
Proof.
  intros Hnd Hk. unfold interp.
  assert (forall l, NoDup l -> (forall x, x ∈ l -> x ∈ xs) ->
    fsum (map (fun xi => f xi *' weight xs xi xk) l) = if decide (xk ∈ l) then f xk else O) as Hs.
  { induction l as [|x l IH]; intros Hndl Hsub; simpl; [done|]. apply NoDup_cons in Hndl as [Hni Hndl].
    rewrite IH by set_solver. destruct (decide (xk = x)) as [<-|Hne].
    - rewrite weight_self. rewrite decide_False by done. rewrite decide_True by set_solver. ring.
    - rewrite weight_other by done. destruct (decide (xk ∈ l)).
      + rewrite decide_True by set_solver. ring.
      + rewrite decide_False by set_solver. ring. }
  rewrite Hs by done. by rewrite decide_True.
Qed.

(** Polynomial functions with at most [n] coefficients. *)
Definition isPoly (n : nat) (f : F -> F) : Prop := exists p, (length p <= n)%nat /\ forall x, f x = peval p x.

Lemma isPoly_prod (l : list F) c : isPoly (S (length l)) (fun x => c *' fprod (map (fun xj => xj -' x) l)).
Proof.
  induction l as [|a l IH]; simpl.
  - exists [c]. split; [done|]. intros x. simpl. ring.
  - destruct IH as (p & Hp & Hx). exists (plin a (opp I) p). split.
    + pose proof (plin_length a (opp I) p). lia.
    + intros x. rewrite peval_plin, <- Hx. ring.
Qed.

Lemma isPoly_sum n (fs : list (F -> F)) : Forall (isPoly n) fs -> isPoly n (fun x => fsum (map (fun f => f x) fs)).
Proof.
  induction 1 as [|f fs (p & Hp & Hf) Hfs (q & Hq & Hg)]; simpl.
  - exists []. split; [simpl; lia|done].
  - exists (padd p q). split; [rewrite padd_length; lia|]. intros x. by rewrite peval_padd, <- Hf, <- Hg.
Qed.

Lemma filter_ne_length (xs : list F) xi :
  NoDup xs -> xi ∈ xs -> S (length (filter (fun xj => xj <> xi) xs)) = length xs.
Proof.
  intros Hnd Hi. assert (xs ≡ₚ xi :: filter (fun xj => xj <> xi) xs) as Hp.
  { apply NoDup_Permutation; [done| |].
    - apply NoDup_cons. split; [|by apply NoDup_filter]. rewrite list_elem_of_filter. tauto.
    - intros x. rewrite elem_of_cons, list_elem_of_filter. destruct (decide (x = xi)); naive_solver. }
  apply Permutation_length in Hp. simpl in Hp. by symmetry.
Qed.

Lemma isPoly_interp xs f : NoDup xs -> isPoly (length xs) (interp xs f).
Proof.
  intros Hnd. unfold interp.
  pose proof (isPoly_sum (length xs) (map (fun xi x => f xi *' weight xs xi x) xs)) as Hs.
  destruct Hs as (p & Hp & Hx).
  - apply Forall_fmap, Forall_forall. intros xi Hi. simpl.
    destruct (isPoly_prod (filter (fun xj => xj <> xi) xs)
      (f xi *' inv (fprod (map (fun xj => xj -' xi) (filter (fun xj => xj <> xi) xs))))) as (q & Hq & Hqx).
    exists q. split; [by rewrite <- (filter_ne_length xs xi)|]. intros x. rewrite <- Hqx. unfold weight.
    field. apply weight_den_nonzero.
  - exists p. split; [done|]. intros x. rewrite <- Hx. f_equal. by rewrite map_map.
Qed.

(** Interpolating a polynomial of low degree through enough points gives it back. *)
Lemma interp_exact xs p x : NoDup xs -> (length p <= length xs)%nat -> interp xs (peval p) x = peval p x.
Proof.
  intros Hnd Hlen. destruct (isPoly_interp xs (peval p) Hnd) as (q & Hq & Hqx).
  assert (forall y, peval (padd q (pscale (opp I) p)) y = O) as Hz.
  { apply (roots_zero xs); [done| |].
    - rewrite padd_length. unfold pscale. rewrite length_map. lia.
    - intros y Hy. rewrite peval_padd, peval_pscale, <- Hqx, interp_at_point by done. ring. }
  specialize (Hz x). rewrite peval_padd, peval_pscale, <- Hqx in Hz.
  apply sub_zero. rewrite <- Hz. ring.
Qed.

(** Through any values at distinct points passes exactly one polynomial with
    that many coefficients. *)
Lemma interp_unique_poly xs (f : F -> F) :
  NoDup xs -> exists p, length p = length xs /\ (forall x, x ∈ xs -> peval p x = f x)
    /\ forall q, length q = length xs -> (forall x, x ∈ xs -> peval q x = f x) -> q = p.
Proof.
  intros Hnd. destruct (isPoly_interp xs f Hnd) as (p & Hp & Hpx).
  set (p' := p ++ repeat O (length xs - length p)).
  assert (forall k x, peval (repeat O k) x = O) as Hrep.
  { intros k x. induction k as [|k IH]; simpl; [done|]. rewrite IH. ring. }
  assert (forall x, peval p' x = peval p x) as Hp'.
  { intros x. unfold p'. generalize (length xs - length p)%nat as k. intros k. clear -Hrep Fth.
    induction p as [|a p IH]; simpl; [apply Hrep|by rewrite IH]. }
  assert (length p' = length xs) as Hl by (unfold p'; rewrite length_app, repeat_length; lia).
  exists p'. split; [done|]. split.
  { intros x Hx. by rewrite Hp', <- Hpx, interp_at_point. }
  intros q Hq Hqx.
  assert (Forall (fun c => c = O) (padd q (pscale (opp I) p'))) as Hz.
  { apply (peval_zero_coeffs xs); [done| |].
    - rewrite padd_length. unfold pscale. rewrite length_map. lia.
    - intros y Hy. rewrite peval_padd, peval_pscale, Hqx, Hp', <- Hpx, interp_at_point by done. ring. }
  assert (length q = length p') as Hqp by lia. clear -Hz Hqp Fth. revert Hz Hqp. generalize p'. clear p' p. induction q as [|a q IH]; intros [|b p'] Hz Hl; simpl in *; try done.
  inversion_clear Hz as [|? ? Ha Hz']. f_equal.
  - apply sub_zero. rewrite <- Ha. ring.
  - apply IH; [done|lia].
Qed.

End Poly.

(** * packages/crypto/src/gf256.ts

    GF(2^8) by logarithm tables, as the module builds them at load time.  A
    byte is a [Z]; the operations are total functions on [Z] that are only
    meaningful on bytes (outside 0..255 the source reads [undefined]).  The
    tables are shown to compute polynomial multiplication modulo 0x11B, and
    the bytes to form a field. *)
From Stdlib Require Import Eqdep_dec.

Definition xtime (x : Z) : Z :=
  let shifted := Z.shiftl x 1 in
  if negb (Z.land x 0x80 =? 0) then Z.land (Z.lxor shifted 0x11b) 0xff else Z.land shifted 0xff.

Record Tables : Type := { EXP_ : list Z; LOG_ : list Z }.

(** The loop of [buildTables] over [i = 0 .. 254], [x] threaded. *)
Definition table_step (st : Tables * Z) (i : nat) : Tables * Z :=
  let '(t, x) := st in
  ({| EXP_ := <[i := x]> (EXP_ t); LOG_ := <[Z.to_nat x := Z.of_nat i]> (LOG_ t) |}, Z.lxor (xtime x) x).

Definition buildTables : Tables :=
  fst (foldl table_step ({| EXP_ := repeat 0 256; LOG_ := repeat 0 256 |}, 1) (seq 0 255)).

Definition EXP : list Z := Eval vm_compute in EXP_ buildTables.
Definition LOG : list Z := Eval vm_compute in LOG_ buildTables.

Definition read (t : list Z) (i : Z) : Z := nth (Z.to_nat i) t 0.

Definition gfAdd (a b : Z) : Z := Z.land (Z.lxor a b) 0xff.

Definition gfMul (a b : Z) : Z :=
  if (a =? 0) || (b =? 0) then 0 else read EXP (Z.rem (read LOG a + read LOG b) 255).

Definition gfDiv (a b : Z) : res Z :=
  if b =? 0 then Throw (RangeError "gfDiv: division by zero in GF(256)")
  else if a =? 0 then Ok 0
  else Ok (read EXP (Z.rem (read LOG a - read LOG b + 255) 255)).

(** ** The tables *)

Lemma tables_are_built : EXP = EXP_ buildTables /\ LOG = LOG_ buildTables.
Proof. split; vm_compute; reflexivity. Qed.

Definition is_byte (z : Z) : bool := (0 <=? z) && (z <? 256).

Lemma is_byte_spec z : is_byte z = true <-> 0 <= z < 256.
Proof. unfold is_byte. rewrite andb_true_iff, Z.leb_le, Z.ltb_lt. done. Qed.

Definition bytes : list Z := map Z.of_nat (seq 0 256).

Lemma bytes_elem z : 0 <= z < 256 -> In z bytes.
Proof. intros Hz. apply in_map_iff. exists (Z.to_nat z). rewrite in_seq. lia. Qed.

Lemma for_bytes (P : Z -> bool) : forallb P bytes = true -> forall z, 0 <= z < 256 -> P z = true.
Proof. intros H z Hz. rewrite forallb_forall in H. by apply H, bytes_elem. Qed.

Lemma for_byte_pairs (P : Z -> Z -> bool) :
  forallb (fun a => forallb (P a) bytes) bytes = true ->
  forall a b, 0 <= a < 256 -> 0 <= b < 256 -> P a b = true.
Proof. intros H a b Ha Hb. eapply for_bytes in H; [|exact Ha]. cbv beta in H. by apply (for_bytes _ H). Qed.

(** [LOG] inverts [EXP] on the nonzero bytes. *)
Lemma exp_log a : 0 < a < 256 -> read EXP (read LOG a) = a /\ 0 <= read LOG a < 255.
Proof.
  intros Ha. pose proof (for_bytes (fun a => (a =? 0) || ((read EXP (read LOG a) =? a) && (0 <=? read LOG a) && (read LOG a <? 255)))
    ltac:(vm_compute; reflexivity) a ltac:(lia)) as H. cbv beta in H.
  rewrite !orb_true_iff, !andb_true_iff, !Z.eqb_eq, Z.leb_le, Z.ltb_lt in H. lia.
Qed.

Lemma log_exp i : 0 <= i < 255 -> read LOG (read EXP i) = i /\ 0 < read EXP i < 256.
Proof.
  intros Hi. pose proof (for_bytes (fun i => (i =? 255) || ((read LOG (read EXP i) =? i) && (0 <? read EXP i) && (read EXP i <? 256)))
    ltac:(vm_compute; reflexivity) i ltac:(lia)) as H. cbv beta in H.
  rewrite !orb_true_iff, !andb_true_iff, !Z.eqb_eq, !Z.ltb_lt in H. lia.
Qed.

Lemma gfMul_log a b :
  0 < a < 256 -> 0 < b < 256 ->
  gfMul a b = read EXP ((read LOG a + read LOG b) mod 255)
  /\ 0 < gfMul a b < 256 /\ read LOG (gfMul a b) = (read LOG a + read LOG b) mod 255.
Proof.
  intros Ha Hb. destruct (exp_log a Ha) as [_ La], (exp_log b Hb) as [_ Lb]. unfold gfMul.
  destruct (Z.eqb_spec a 0), (Z.eqb_spec b 0); [lia..|]. simpl. rewrite Z.rem_mod_nonneg by lia.
  pose proof (Z.mod_pos_bound (read LOG a + read LOG b) 255 ltac:(lia)).
  destruct (log_exp ((read LOG a + read LOG b) mod 255)); [lia|]. split_and!; [done|lia|lia|done].
Qed.

Lemma gfMul_0_l b : gfMul 0 b = 0.
Proof. done. Qed.

Lemma gfMul_0_r a : gfMul a 0 = 0.
Proof. unfold gfMul. by rewrite orb_true_r. Qed.

Lemma gfMul_comm a b : gfMul a b = gfMul b a.
Proof. unfold gfMul. by rewrite orb_comm, Z.add_comm. Qed.

Lemma gfMul_byte a b : 0 <= a < 256 -> 0 <= b < 256 -> 0 <= gfMul a b < 256.
Proof.
  intros Ha Hb. destruct (decide (a = 0)) as [->|]; [by rewrite gfMul_0_l|].
  destruct (decide (b = 0)) as [->|]; [by rewrite gfMul_0_r|]. pose proof (gfMul_log a b ltac:(lia) ltac:(lia)). lia.
Qed.

Lemma read_inj a b : 0 < a < 256 -> 0 < b < 256 -> read LOG a = read LOG b -> a = b.
Proof. intros Ha Hb E. destruct (exp_log a Ha) as [<- _], (exp_log b Hb) as [<- _]. by rewrite E. Qed.

Lemma gfMul_assoc a b c :
  0 <= a < 256 -> 0 <= b < 256 -> 0 <= c < 256 -> gfMul a (gfMul b c) = gfMul (gfMul a b) c.
Proof.
  intros Ha Hb Hc. destruct (decide (a = 0)) as [->|]; [done|].
  destruct (decide (b = 0)) as [->|]; [rewrite gfMul_0_l, !gfMul_0_r, gfMul_0_l; reflexivity|].
  destruct (decide (c = 0)) as [->|]; [by rewrite !gfMul_0_r|].
  destruct (gfMul_log a b) as (_ & Hab & Eab); [lia..|]. destruct (gfMul_log b c) as (_ & Hbc & Ebc); [lia..|].
  destruct (gfMul_log a (gfMul b c)) as (_ & H1 & E1); [lia..|].
  destruct (gfMul_log (gfMul a b) c) as (_ & H2 & E2); [lia..|].
  apply read_inj; [done..|]. rewrite E1, E2, Ebc, Eab, Zplus_mod_idemp_r, Zplus_mod_idemp_l. f_equal. lia.
Qed.

Lemma gfMul_1_l a : 0 <= a < 256 -> gfMul 1 a = a.
Proof.
  intros Ha. pose proof (for_bytes (fun a => gfMul 1 a =? a) ltac:(vm_compute; reflexivity) a Ha) as H.
  by apply Z.eqb_eq in H.
Qed.

Lemma gfDiv_value a b :
  0 <= a < 256 -> 0 < b < 256 -> exists q, gfDiv a b = Ok q /\ 0 <= q < 256 /\ gfMul q b = a.
Proof.
  intros Ha Hb. unfold gfDiv. destruct (Z.eqb_spec b 0); [lia|].
  destruct (Z.eqb_spec a 0) as [->|]; [exists 0; by split_and!|].
  destruct (exp_log a) as [Ea La], (exp_log b) as [Eb Lb]; [lia..|].
  rewrite Z.rem_mod_nonneg by lia. set (q := read EXP _). exists q.
  pose proof (Z.mod_pos_bound (read LOG a - read LOG b + 255) 255 ltac:(lia)).
  destruct (log_exp ((read LOG a - read LOG b + 255) mod 255)) as [Lq Hq]; [lia|]. fold q in Lq, Hq.
  split_and!; [done|lia|lia|].
  destruct (gfMul_log q b) as (_ & Hm & Em); [lia..|].
  apply read_inj; [lia|lia|]. rewrite Em, Lq, Zplus_mod_idemp_l.
  replace (read LOG a - read LOG b + 255 + read LOG b) with (read LOG a + 1 * 255) by lia.
  rewrite Z_mod_plus_full, Z.mod_small; lia.
Qed.

(** ** The reference: polynomial multiplication modulo 0x11B *)

(** [x] doubled [i] times. *)
Definition xtimes (i : nat) (x : Z) : Z := Nat.iter i xtime x.

(** Sum (xor) of [a * 2^i] over the bits [i] of [b]. *)
Definition gfMulRef (a b : Z) : Z :=
  foldr (fun i acc => Z.lxor (if Z.testbit b (Z.of_nat i) then xtimes i a else 0) acc) 0 (seq 0 8).

Lemma gfMul_ref a b : 0 <= a < 256 -> 0 <= b < 256 -> gfMul a b = gfMulRef a b.
Proof.
  intros Ha Hb. pose proof (for_byte_pairs (fun a b => gfMul a b =? gfMulRef a b) ltac:(vm_compute; reflexivity) a b Ha Hb) as H.
  by apply Z.eqb_eq in H.
Qed.

Lemma gfMulRef_lxor a b c : gfMulRef a (Z.lxor b c) = Z.lxor (gfMulRef a b) (gfMulRef a c).
Proof.
  unfold gfMulRef. induction (seq 0 8) as [|i l IH]; simpl; [done|]. rewrite IH, Z.lxor_spec.
  set (x := xtimes i a). set (B := foldr _ _ l). set (C := foldr _ _ l). clearbody x B C.
  destruct (Z.testbit b (Z.of_nat i)), (Z.testbit c (Z.of_nat i)); simpl; rewrite ?Z.lxor_0_l.
  - rewrite (Z.lxor_comm x C), <- Z.lxor_assoc, (Z.lxor_assoc x B C), (Z.lxor_comm x _), Z.lxor_assoc, Z.lxor_nilpotent.
    by rewrite Z.lxor_0_r.
  - by rewrite Z.lxor_assoc.
  - by rewrite <- !Z.lxor_assoc, (Z.lxor_comm x B).
  - done.
Qed.

Lemma byte_land a : 0 <= a < 256 -> Z.land a 0xff = a.
Proof. intros Ha. change 0xff with (Z.ones 8). rewrite Z.land_ones by lia. by apply Z.mod_small. Qed.

Lemma gfAdd_byte a b : 0 <= gfAdd a b < 256.
Proof. unfold gfAdd. change 0xff with (Z.ones 8). rewrite Z.land_ones by lia. by apply Z.mod_pos_bound. Qed.

Lemma gfAdd_lxor a b : 0 <= a < 256 -> 0 <= b < 256 -> gfAdd a b = Z.lxor a b.
Proof.
  intros Ha Hb. unfold gfAdd. rewrite <- (byte_land a Ha) at 2. rewrite <- (byte_land b Hb) at 2.
  apply Z.bits_inj. intros n. rewrite Z.land_spec, !Z.lxor_spec, !Z.land_spec.
  by destruct (Z.testbit a n), (Z.testbit b n), (Z.testbit 255 n).
Qed.

Lemma gfAdd_comm a b : gfAdd a b = gfAdd b a.
Proof. unfold gfAdd. by rewrite Z.lxor_comm. Qed.

Lemma gfAdd_assoc a b c :
  0 <= a < 256 -> 0 <= b < 256 -> 0 <= c < 256 -> gfAdd a (gfAdd b c) = gfAdd (gfAdd a b) c.
Proof.
  intros. pose proof (gfAdd_byte a b). pose proof (gfAdd_byte b c).
  rewrite (gfAdd_lxor a), (gfAdd_lxor b c), (gfAdd_lxor _ c), (gfAdd_lxor a b) by done. by rewrite Z.lxor_assoc.
Qed.

Lemma gfMul_add_r a b c :
  0 <= a < 256 -> 0 <= b < 256 -> 0 <= c < 256 -> gfMul a (gfAdd b c) = gfAdd (gfMul a b) (gfMul a c).
Proof.
  intros Ha Hb Hc. pose proof (gfAdd_byte b c). pose proof (gfMul_byte a b Ha Hb). pose proof (gfMul_byte a c Ha Hc).
  rewrite (gfAdd_lxor (gfMul a b)), !gfMul_ref, gfAdd_lxor by done. apply gfMulRef_lxor.
Qed.

(** ** The field of bytes *)

Record gf : Type := mkGf { gf_val : Z; gf_ok : is_byte gf_val = true }.

Lemma gf_eq (a b : gf) : gf_val a = gf_val b -> a = b.
Proof.
  destruct a as [a Ha], b as [b Hb]. simpl. intros ->. f_equal. apply UIP_dec, Bool.bool_dec.
Qed.

Lemma gf_range (a : gf) : 0 <= gf_val a < 256.
Proof. apply is_byte_spec, gf_ok. Qed.

#[export] Hint Resolve gf_range gfAdd_byte gfMul_byte : tol.

#[global] Instance gf_eq_dec : EqDecision gf.
Proof.
  intros a b. destruct (decide (gf_val a = gf_val b)) as [E|E]; [left; by apply gf_eq|right; congruence].
Defined.

Program Definition gf_of (z : Z) : gf := {| gf_val := Z.land z 0xff |}.
Next Obligation.
  intros z. apply is_byte_spec. change 0xff with (Z.ones 8). rewrite Z.land_ones by lia. by apply Z.mod_pos_bound.
Qed.

Lemma gf_val_of z : 0 <= z < 256 -> gf_val (gf_of z) = z.
Proof. apply byte_land. Qed.

Lemma gf_of_val a : gf_of (gf_val a) = a.
Proof. apply gf_eq. simpl. apply byte_land, gf_range. Qed.

Definition f0 : gf := gf_of 0.
Definition f1 : gf := gf_of 1.
Definition fadd (a b : gf) : gf := gf_of (gfAdd (gf_val a) (gf_val b)).
Definition fmul (a b : gf) : gf := gf_of (gfMul (gf_val a) (gf_val b)).
Definition fdiv (a b : gf) : gf := gf_of (match gfDiv (gf_val a) (gf_val b) with Ok q => q | Throw _ => 0 end).
Definition finv (a : gf) : gf := fdiv f1 a.
Definition fopp (a : gf) : gf := a.

Arguments gf_val g : simpl never.
Arguments gf_of z : simpl never.
Arguments fadd a b : simpl never.
Arguments fmul a b : simpl never.
Arguments fdiv a b : simpl never.

Lemma val_fadd a b : gf_val (fadd a b) = gfAdd (gf_val a) (gf_val b).
Proof. apply gf_val_of, gfAdd_byte. Qed.

Lemma val_fmul a b : gf_val (fmul a b) = gfMul (gf_val a) (gf_val b).
Proof. apply gf_val_of. apply gfMul_byte; apply gf_range. Qed.

Lemma gf_nonzero a : a <> f0 <-> 0 < gf_val a < 256.
Proof.
  pose proof (gf_range a). split; [|intros Hp ->; change (gf_val f0) with 0 in Hp; lia].
  intros Hne. destruct (decide (gf_val a = 0)); [|lia]. destruct Hne. by apply gf_eq.
Qed.

Lemma val_fdiv a b : b <> f0 -> gfDiv (gf_val a) (gf_val b) = Ok (gf_val (fdiv a b)) /\ fmul (fdiv a b) b = a.
Proof.
  intros Hb%gf_nonzero. unfold fdiv. destruct (gfDiv_value (gf_val a) (gf_val b) (gf_range a) Hb) as (q & -> & Hq & E).
  rewrite gf_val_of by done. split; [done|]. apply gf_eq. by rewrite val_fmul, gf_val_of.
Qed.

Lemma fmul_comm a b : fmul a b = fmul b a.
Proof. apply gf_eq. rewrite !val_fmul. apply gfMul_comm. Qed.

Lemma fmul_assoc a b c : fmul a (fmul b c) = fmul (fmul a b) c.
Proof. apply gf_eq. rewrite !val_fmul. apply gfMul_assoc; apply gf_range. Qed.

Lemma fmul_1_l a : fmul f1 a = a.
Proof. apply gf_eq. rewrite val_fmul. apply gfMul_1_l, gf_range. Qed.

Lemma fdiv_mul a b : b <> f0 -> fdiv a b = fmul a (finv b).
Proof.
  intros Hb. destruct (val_fdiv a b Hb) as [_ E1], (val_fdiv f1 b Hb) as [_ E2]. unfold finv.
  transitivity (fmul (fdiv a b) (fmul (fdiv f1 b) b)); [by rewrite E2, fmul_comm, fmul_1_l|].
  by rewrite (fmul_comm (fdiv f1 b) b), fmul_assoc, E1.
Qed.

Lemma gf_field : field_theory f0 f1 fadd fmul fadd fopp fdiv finv (@eq gf).
Proof.
  constructor; [constructor|..].
  - intros a. apply gf_eq. rewrite val_fadd, gfAdd_lxor by (apply gf_range). by rewrite Z.lxor_0_l.
  - intros a b. apply gf_eq. rewrite !val_fadd. apply gfAdd_comm.
  - intros a b c. apply gf_eq. rewrite !val_fadd. apply gfAdd_assoc; apply gf_range.
  - apply fmul_1_l.
  - apply fmul_comm.
  - apply fmul_assoc.
  - intros a b c. rewrite (fmul_comm _ c), (fmul_comm a), (fmul_comm b). apply gf_eq.
    rewrite !val_fadd, !val_fmul, val_fadd. apply gfMul_add_r; apply gf_range.
  - done.
  - intros a. apply gf_eq. unfold fopp. rewrite val_fadd, gfAdd_lxor by apply gf_range. by rewrite Z.lxor_nilpotent.
  - intros E. apply (f_equal gf_val) in E. discriminate E.
  - intros a b. destruct (decide (b = f0)) as [->|Hb]; [|by apply fdiv_mul].
    apply gf_eq. rewrite val_fmul. simpl. by rewrite gfMul_0_r.
  - intros a Ha. by apply val_fdiv.
Qed.

(** The table arithmetic is the field GF(2^8) modulo 0x11B.  The tables
    built at load time are mutually inverse (3 generates all 255 nonzero
    elements), [gfMul] agrees with bit-by-bit polynomial multiplication on
    all 65,536 byte pairs and stays a byte, and [gfDiv] throws exactly on a
    zero divisor and otherwise returns the one byte whose product with the
    divisor is the dividend. *)
Theorem gf_arithmetic_correct (a b : Z) :
  0 <= a < 256 -> 0 <= b < 256 ->
  (forall i, 0 <= i < 255 -> read (LOG_ buildTables) (read (EXP_ buildTables) i) = i)
  /\ (0 < a -> read (EXP_ buildTables) (read (LOG_ buildTables) a) = a)
  /\ gfMul a b = gfMulRef a b /\ 0 <= gfMul a b < 256
  /\ (is_ok (gfDiv a b) = true <-> b <> 0)
  /\ (forall q, gfDiv a b = Ok q -> 0 <= q < 256 /\ gfMul q b = a
       /\ forall q', 0 <= q' < 256 -> gfMul q' b = a -> q' = q).
Proof.
  intros Ha Hb. destruct tables_are_built as [<- <-]. split_and!.
  - intros i Hi. by apply log_exp.
  - intros Hp. apply exp_log. lia.
  - by apply gfMul_ref.
  - by apply gfMul_byte.
  - by apply gfMul_byte.
  - unfold gfDiv. destruct (Z.eqb_spec b 0); [naive_solver|]. by destruct (a =? 0).
  - intros q Hq. destruct (Z.eqb_spec b 0) as [->|Hb0]; [done|].
    destruct (gfDiv_value a b Ha ltac:(lia)) as (q0 & E & Hr & Hm). rewrite E in Hq. injection Hq as <-.
    split_and!; [lia|lia|done|]. intros q' Hq' Hm'.
    assert (gf_of q' = gf_of q0) as Hgf.
    { assert (gf_of b <> f0) as Hne by (apply gf_nonzero; rewrite gf_val_of; lia).
      destruct (val_fdiv (gf_of a) (gf_of b) Hne) as [E1 E2].
      assert (forall x, 0 <= x < 256 -> gfMul x b = a -> gf_of x = fdiv (gf_of a) (gf_of b)) as Hx.
      { intros x Hxr Hx. rewrite fdiv_mul by done. apply gf_eq.
        assert (fmul (gf_of x) (gf_of b) = gf_of a) as <-.
        { apply gf_eq. by rewrite val_fmul, !gf_val_of, Hx by done. }
        rewrite <- fmul_assoc, (fmul_comm (gf_of b)). unfold finv. destruct (val_fdiv f1 (gf_of b) Hne) as [_ ->].
        by rewrite fmul_comm, fmul_1_l. }
      rewrite (Hx q' Hq' Hm'), (Hx q0 Hr Hm). reflexivity. }
    apply (f_equal gf_val) in Hgf. by rewrite !gf_val_of in Hgf.
Qed.

Lemma gf_arithmetic_correct_witness : gfMul 0x57 0x83 = 0xc1.
Proof.
  transitivity (gfMulRef 0x57 0x83); [|vm_compute; reflexivity].
  exact (proj1 (proj2 (proj2 (gf_arithmetic_correct 0x57 0x83 ltac:(lia) ltac:(lia))))).
Defined.
