(* ===== verification/Shamir.v ===== *)
(** * packages/crypto/src/shamir.ts

    Threshold sharing of a byte string over [Gf256].  [randomBytes] of
    node:crypto is a parameter: [rnd i] stands for the bytes drawn for the
    polynomial of secret byte [i]. *)
From S2P Require Import Prelude Gf256.
From Stdlib Require Import Field.

Add Field gf_ring : gf_field.

Record ShamirShare : Type := { index : Z; ys : list Z }.

#[global] Instance ShamirShare_eq_dec : EqDecision ShamirShare.
Proof. solve_decision. Defined.

(** The inner loop over the coefficients: [y] and [xPow] threaded. *)
Definition coeff_step (x : Z) (st : Z * Z) (c : Z) : Z * Z :=
  let '(y, xPow) := st in
  let xPow' := gfMul xPow x in
  (gfAdd y (gfMul c xPow'), xPow').

Definition evalShare (secretByte : Z) (coeffs : list Z) (x : Z) : Z :=
  fst (foldl (coeff_step x) (secretByte, 1) coeffs).

Definition splitSecret (rnd : nat -> list Z) (secret : list Z) (threshold n : Z) : res (list ShamirShare) :=
  do! throw_if (threshold <? 2) (RangeError "splitSecret: threshold must be >= 2");
  do! throw_if (n <? threshold) (RangeError "splitSecret: n must be >= threshold");
  do! throw_if (255 <? n) (RangeError "splitSecret: n must be <= 255");
  do! throw_if (Nat.eqb (length secret) 0) (RangeError "splitSecret: secret must be non-empty");
  Ok (map (fun shareIdx => {| index := shareIdx;
                              ys := imap (fun byteIdx secretByte => evalShare secretByte (rnd byteIdx) shareIdx) secret |})
          (seqZ 1 n)).

(** The validation loop over the shares. *)
Definition check_share (secretLength : nat) (s : ShamirShare) : res unit :=
  do! throw_if (negb (Nat.eqb (length (ys s)) secretLength))
        (InsufficientSharesError "combineShares: all shares must encode the same secret length");
  throw_if ((index s =? 0) || (255 <? index s)) (InsufficientSharesError "combineShares: share index out of range (1..255)").

(** The loop over [j] for one [i]: [num] and [den] threaded. *)
Definition weight_step (i : nat) (xi : Z) (st : Z * Z) (js : nat * ShamirShare) : Z * Z :=
  let '(num, den) := st in
  let '(j, s) := js in
  if Nat.eqb j i then (num, den)
  else (gfMul num (index s), gfMul den (gfAdd (index s) xi)).

Definition indexed (shares : list ShamirShare) : list (nat * ShamirShare) := imap pair shares.

(** The loop over [i] for one byte position: [acc] threaded. *)
Definition term_step (shares : list ShamirShare) (byteIdx : nat) (acc : Z) (is_ : nat * ShamirShare) : res Z :=
  let '(i, s) := is_ in
  let xi := index s in
  let yi := nth byteIdx (ys s) 0 in
  let '(num, den) := foldl (weight_step i xi) (1, 1) (indexed shares) in
  let! li0 := gfDiv num den in
  Ok (gfAdd acc (gfMul yi li0)).

Arguments term_step shares byteIdx acc is_ : simpl never.

Definition combineByte (shares : list ShamirShare) (byteIdx : nat) : res Z :=
  foldM_res (term_step shares byteIdx) 0 (indexed shares).

Definition combineShares (shares : list ShamirShare) : res (list Z) :=
  match shares with
  | s0 :: _ :: _ =>
      let secretLength := length (ys s0) in
      do! mapM_res (check_share secretLength) shares;
      let indexes := map index shares in
      do! throw_if (negb (Nat.eqb (size (list_to_set indexes : gset Z)) (length indexes)))
            (InsufficientSharesError "combineShares: duplicate share index");
      mapM_res (combineByte shares) (seq 0 secretLength)
  | _ => Throw (InsufficientSharesError "combineShares: need at least 2 shares")
  end.

(** ** Shares as points of polynomials over the field *)

Definition eval_gf := peval f0 fadd fmul.

Lemma coeff_loop x (coeffs : list Z) y xp :
  0 <= x < 256 -> Forall (fun c => 0 <= c < 256) coeffs -> 0 <= y < 256 -> 0 <= xp < 256 ->
  gf_of (fst (foldl (coeff_step x) (y, xp) coeffs))
  = fadd (gf_of y) (fmul (gf_of xp) (fmul (gf_of x) (eval_gf (map gf_of coeffs) (gf_of x))))
  /\ 0 <= fst (foldl (coeff_step x) (y, xp) coeffs) < 256.
Proof.
  intros Hx Hc. revert y xp. induction Hc as [|c coeffs Hc Hcs IH]; intros y xp Hy Hxp; simpl.
  - split; [|lia]. change (eval_gf [] (gf_of x)) with f0. ring.
  - destruct (IH (gfAdd y (gfMul c (gfMul xp x))) (gfMul xp x)) as [-> Hb];
      [apply gfAdd_byte|by apply gfMul_byte|]. split; [|done].
    assert (gf_of (gfMul xp x) = fmul (gf_of xp) (gf_of x)) as E1 by (apply gf_eq; by rewrite val_fmul, !gf_val_of by auto with tol).
    assert (gf_of (gfAdd y (gfMul c (gfMul xp x))) = fadd (gf_of y) (fmul (gf_of c) (fmul (gf_of xp) (gf_of x)))) as ->.
    { apply gf_eq. rewrite val_fadd, !val_fmul, !gf_val_of by auto with tol. done. }
    rewrite E1. unfold eval_gf at 2. simpl. fold eval_gf. generalize (eval_gf (map gf_of coeffs) (gf_of x)) as e. intros e.
    generalize (gf_of xp), (gf_of x), (gf_of c), (gf_of y). intros p q r s.
    ring.
Qed.

(** A share is the polynomial with the secret as constant term, at its index. *)
Lemma evalShare_poly s coeffs x :
  0 <= x < 256 -> 0 <= s < 256 -> Forall (fun c => 0 <= c < 256) coeffs ->
  0 <= evalShare s coeffs x < 256
  /\ gf_of (evalShare s coeffs x) = eval_gf (gf_of s :: map gf_of coeffs) (gf_of x).
Proof.
  intros Hx Hs Hc. destruct (coeff_loop x coeffs s 1 Hx Hc Hs ltac:(lia)) as [E Hb]. unfold evalShare. split; [done|].
  rewrite E. change (gf_of 1) with f1. by rewrite fmul_1_l.
Qed.

(** ** The interpolation loops *)

Definition fsub := fadd.
Definition weight_gf := weight f1 fmul fadd fdiv.
Definition interp_gf := interp f0 f1 fadd fmul fadd fdiv.
Definition point (s : ShamirShare) : gf := gf_of (index s).

Definition goodIndex (s : ShamirShare) : Prop := 0 < index s < 256.

Lemma point_val s : goodIndex s -> gf_val (point s) = index s.
Proof. intros [? ?]. apply gf_val_of. lia. Qed.

Lemma point_inj s s' : goodIndex s -> goodIndex s' -> point s = point s' -> index s = index s'.
Proof. intros Hs Hs' E. by rewrite <- (point_val s), <- (point_val s'), E. Qed.

(** The factors of one weight, at [x]. *)
Definition factors (pts : list gf) (xi x : gf) : list gf :=
  map (fun xj => fadd xj x) (filter (fun xj => xj <> xi) pts).

Lemma weight_loop i s l a b :
  goodIndex s -> (forall j t, (j, t) ∈ l -> goodIndex t /\ (j = i <-> index t = index s)) ->
  foldl (weight_step i (index s)) (gf_val a, gf_val b) l
  = (gf_val (fmul a (fprod f1 fmul (factors (map (point ∘ snd) l) (point s) f0))),
     gf_val (fmul b (fprod f1 fmul (factors (map (point ∘ snd) l) (point s) (point s))))).
Proof.
  intros Hs. revert a b. induction l as [|[j t] l IH]; intros a b Hl; simpl.
  - unfold factors, fprod. simpl. f_equal; f_equal; ring.
  - destruct (Hl j t ltac:(set_solver)) as [Ht Hj]. unfold factors. simpl. rewrite !filter_cons.
    destruct (Nat.eqb_spec j i) as [E|E].
    + rewrite !decide_False by (intros Hn; apply Hn; unfold point, compose; simpl; f_equal; tauto).
      apply IH. intros; apply Hl; set_solver.
    + rewrite !decide_True by (intros Hn%point_inj; tauto). simpl.
      assert (gfMul (gf_val a) (index t) = gf_val (fmul a (point t))) as -> by (by rewrite val_fmul, point_val).
      assert (gfMul (gf_val b) (gfAdd (index t) (index s)) = gf_val (fmul b (fadd (point t) (point s)))) as ->
        by (by rewrite val_fmul, val_fadd, !point_val).
      rewrite IH by (intros; apply Hl; set_solver). unfold factors, compose. simpl. f_equal; f_equal; ring.
Qed.

Lemma indexed_spec shares j t :
  (j, t) ∈ indexed shares <-> shares !! j = Some t.
Proof.
  unfold indexed. rewrite list_elem_of_lookup. setoid_rewrite list_lookup_imap. split.
  - intros (i & E). destruct (shares !! i) eqn:Ei; simpl in E; [|done]. injection E as <- <-. done.
  - intros E. exists j. by rewrite E.
Qed.

Lemma indexed_points shares : map (point ∘ snd) (indexed shares) = map point shares.
Proof.
  unfold indexed. apply list_eq. intros i. rewrite !list_lookup_fmap, list_lookup_imap.
  by destruct (shares !! i).
Qed.

Definition goodShares (shares : list ShamirShare) : Prop :=
  Forall goodIndex shares /\ NoDup (map index shares).

Lemma goodShares_same shares i j s t :
  goodShares shares -> shares !! i = Some s -> shares !! j = Some t -> (j = i <-> index t = index s).
Proof.
  intros [_ Hnd] Hi Hj. split; [intros ->; congruence|]. intros E.
  eapply (NoDup_lookup _ j i (index t) Hnd); rewrite list_lookup_fmap; [by rewrite Hj|by rewrite Hi, E].
Qed.

Lemma points_NoDup shares : goodShares shares -> NoDup (map point shares).
Proof.
  intros [Hg Hnd]. induction Hg as [|s shares Hs Hg IH]; [constructor|]. simpl in *.
  apply NoDup_cons in Hnd as [Hni Hnd]. apply NoDup_cons. split; [|by apply IH].
  intros (t & E & Ht)%list_elem_of_fmap. apply Hni. apply list_elem_of_fmap. exists t. split; [|done].
  rewrite Forall_forall in Hg. apply point_inj; auto.
Qed.

(** One term of the interpolation sum. *)
Lemma term_value shares byteIdx i s acc :
  goodShares shares -> shares !! i = Some s -> 0 <= nth byteIdx (ys s) 0 < 256 ->
  term_step shares byteIdx (gf_val acc) (i, s)
  = Ok (gf_val (fadd acc (fmul (gf_of (nth byteIdx (ys s) 0)) (weight_gf (map point shares) (point s) f0)))).
Proof.
  intros Hg Hi Hy. unfold term_step.
  assert (goodIndex s) as Hs by (eapply Forall_lookup_1; [apply Hg|done]).
  pose proof (weight_loop i s (indexed shares) f1 f1 Hs) as Hw.
  change (gf_val f1) with 1 in Hw. rewrite Hw.
  2: { intros j t Hj%indexed_spec. split; [eapply Forall_lookup_1; [apply Hg|done]|by eapply goodShares_same]. }
  rewrite indexed_points. set (num := fprod f1 fmul (factors _ _ f0)). set (den := fprod f1 fmul (factors _ _ (point s))).
  assert (den <> f0) as Hden.
  { unfold den, factors. apply (weight_den_nonzero f0 f1 fadd fmul fadd fopp fdiv finv gf_field). }
  rewrite !fmul_1_l. destruct (val_fdiv num den Hden) as [-> _]. simpl. f_equal.
  rewrite val_fadd, val_fmul, gf_val_of by done. reflexivity.
Qed.

(** The byte the loops compute is the interpolation at zero. *)
Lemma combineByte_value shares byteIdx (f : gf -> gf) :
  goodShares shares ->
  (forall s, s ∈ shares -> 0 <= nth byteIdx (ys s) 0 < 256 /\ gf_of (nth byteIdx (ys s) 0) = f (point s)) ->
  combineByte shares byteIdx = Ok (gf_val (interp_gf (map point shares) f f0)).
Proof.
  intros Hg Hf. unfold combineByte, interp_gf, interp. fold weight_gf. rewrite map_map.
  assert (forall l acc, (forall j t, (j, t) ∈ l -> shares !! j = Some t) ->
    foldM_res (term_step shares byteIdx) (gf_val acc) l
    = Ok (gf_val (fadd acc (fsum f0 fadd (map (fun t => fmul (f (point t.2)) (weight_gf (map point shares) (point t.2) f0)) l))))) as Hloop.
  { induction l as [|[j t] l IH]; intros acc Hl; simpl.
    - do 2 f_equal. ring.
    - pose proof (Hl j t ltac:(set_solver)) as Hj. destruct (Hf t) as [Hy Hft]; [by eapply list_elem_of_lookup_2|].
      rewrite term_value by done. simpl. rewrite IH by (intros; apply Hl; set_solver). rewrite Hft. do 2 f_equal. ring. }
  change 0 with (gf_val f0). rewrite Hloop by (intros; by apply indexed_spec). do 2 f_equal.
  assert (map (fun t => fmul (f (point t.2)) (weight_gf (map point shares) (point t.2) f0)) (indexed shares)
          = map (fun s => fmul (f (point s)) (weight_gf (map point shares) (point s) f0)) shares) as ->.
  { unfold indexed. apply list_eq. intros i. rewrite !list_lookup_fmap, list_lookup_imap. by destruct (shares !! i). }
  change (gf_val f0) with 0. ring.
Qed.

Lemma size_list_to_set_le (l : list Z) : (size (list_to_set l : gset Z) <= length l)%nat.
Proof.
  induction l as [|x l IH]; simpl; [done|].
  pose proof (size_union_alt ({[x]} : gset Z) (list_to_set l)) as E. rewrite size_singleton in E.
  pose proof (subseteq_size (list_to_set l ∖ {[x]} : gset Z) (list_to_set l) ltac:(set_solver)). lia.
Qed.

(** [new Set(indexes).size !== indexes.length] detects a duplicate. *)
Lemma size_list_to_set_eq (l : list Z) : Nat.eqb (size (list_to_set l : gset Z)) (length l) = true <-> NoDup l.
Proof.
  rewrite Nat.eqb_eq. split; [|apply size_list_to_set].
  induction l as [|x l IH]; simpl; intros E; [constructor|]. pose proof (size_list_to_set_le l) as Hle.
  destruct (decide (x ∈ l)) as [Hin|Hni].
  - assert (({[x]} ∪ list_to_set l : gset Z) = list_to_set l) as Es by set_solver. rewrite Es in E. lia.
  - apply NoDup_cons. split; [done|]. apply IH.
    rewrite size_union in E by set_solver. rewrite size_singleton in E. lia.
Qed.

(** What [combineShares] accepts. *)
Definition combinable (shares : list ShamirShare) : Prop :=
  (2 <= length shares)%nat
  /\ (forall s t, s ∈ shares -> t ∈ shares -> length (ys s) = length (ys t))
  /\ Forall goodIndex shares /\ NoDup (map index shares).

Definition shareBytes (s : ShamirShare) : Prop := 0 <= index s /\ Forall (fun y => 0 <= y < 256) (ys s).

Lemma check_share_ok len s :
  0 <= index s -> check_share len s = Ok tt <-> length (ys s) = len /\ goodIndex s.
Proof.
  intros Hs. unfold check_share, goodIndex. destruct (Nat.eqb_spec (length (ys s)) len) as [E|E]; simpl; [|naive_solver].
  destruct (Z.eqb_spec (index s) 0); simpl; [split; [done|lia]|].
  destruct (Z.ltb_spec 255 (index s)); simpl; [split; [done|lia]|]. split; [lia|done].
Qed.

Lemma check_share_cases len s :
  check_share len s = Ok tt \/ exists w, check_share len s = Throw (InsufficientSharesError w).
Proof. unfold check_share. destruct (negb _); simpl; [eauto|]. destruct (_ || _); simpl; eauto. Qed.

Lemma check_shares_cases len shares :
  mapM_res (check_share len) shares = Ok (map (fun _ => tt) shares) /\ Forall (fun s => check_share len s = Ok tt) shares
  \/ (exists w, mapM_res (check_share len) shares = Throw (InsufficientSharesError w))
     /\ ~ Forall (fun s => check_share len s = Ok tt) shares.
Proof.
  induction shares as [|s shares IH]; simpl; [left; by constructor|].
  destruct (check_share_cases len s) as [E|[w E]]; rewrite E; simpl.
  - destruct IH as [[-> Hall]|[[w ->] Hn]]; [left|right]; simpl.
    + split; [done|]. by constructor.
    + split; [eauto|]. inversion 1. done.
  - right. split; [eauto|]. inversion 1; subst. congruence.
Qed.

(** A function through the given values at distinct points. *)
Lemma values_function shares byteIdx :
  goodShares shares ->
  exists f : gf -> gf, forall s, s ∈ shares -> gf_of (nth byteIdx (ys s) 0) = f (point s).
Proof.
  intros Hg%points_NoDup. induction shares as [|s shares IH]; [exists (fun x => x); set_solver|].
  simpl in Hg. apply NoDup_cons in Hg as [Hni Hnd]. destruct (IH Hnd) as [f Hf].
  exists (fun x => if decide (x = point s) then gf_of (nth byteIdx (ys s) 0) else f x).
  intros t [->|Ht]%elem_of_cons; [by rewrite decide_True|]. rewrite decide_False; [by apply Hf|].
  intros E. apply Hni. rewrite <- E. apply list_elem_of_fmap. eauto.
Qed.

Lemma nth_byte (l : list Z) i : Forall (fun y => 0 <= y < 256) l -> 0 <= nth i l 0 < 256.
Proof.
  intros Hl. destruct (decide (i < length l)%nat) as [Hi|Hi].
  - rewrite Forall_forall in Hl. apply Hl, list_elem_of_In, nth_In, Hi.
  - rewrite nth_overflow by lia. lia.
Qed.

Lemma combineShares_unfold shares s :
  head shares = Some s -> (2 <= length shares)%nat ->
  combineShares shares =
    rbind (mapM_res (check_share (length (ys s))) shares) (fun _ =>
    rbind (throw_if (negb (Nat.eqb (size (list_to_set (map index shares) : gset Z)) (length (map index shares))))
             (InsufficientSharesError "combineShares: duplicate share index")) (fun _ =>
    mapM_res (combineByte shares) (seq 0 (length (ys s))))).
Proof. destruct shares as [|s1 [|s2 shares]]; simpl; intros [= <-] Hl; [lia|done]. Qed.

Lemma combineShares_value shares s0 :
  combinable shares -> s0 ∈ shares ->
  combineShares shares = mapM_res (combineByte shares) (seq 0 (length (ys s0))).
Proof.
  intros (Hlen & Hys & Hg & Hnd) Hs0. destruct (head shares) as [s|] eqn:Eh; [|destruct shares; simpl in *; [lia|done]].
  assert (s ∈ shares) as Hs by (destruct shares; simpl in Eh; [done|injection Eh as ->; set_solver]).
  rewrite (combineShares_unfold shares s) by done.
  destruct (check_shares_cases (length (ys s)) shares) as [[-> _]|[_ Hn]].
  - cbn [rbind]. rewrite (proj2 (size_list_to_set_eq (map index shares)) Hnd). cbn [negb throw_if rbind].
    by rewrite (Hys s s0).
  - destruct Hn. apply Forall_forall. intros t Ht. rewrite Forall_forall in Hg. specialize (Hg t Ht).
    apply check_share_ok; [unfold goodIndex in Hg; lia|]. split; [by apply Hys|done].
Qed.

(** Combining is total on well-formed shares and rejects the rest before
    any arithmetic.  On byte shares with non-negative indexes,
    [combineShares] returns a byte string of the shares' length exactly when
    there are at least two shares, all of one length, with distinct indexes
    in 1..255; on every other input it throws InsufficientSharesError, and
    the division by zero of [gfDiv] is never reached. *)
Theorem combine_total (shares : list ShamirShare) :
  Forall shareBytes shares ->
  (combinable shares <-> is_ok (combineShares shares) = true)
  /\ (forall secret, combineShares shares = Ok secret ->
        Forall (fun y => 0 <= y < 256) secret /\ forall s, s ∈ shares -> length secret = length (ys s))
  /\ (forall e, combineShares shares = Throw e -> exists w, e = InsufficientSharesError w).
Proof.
  intros Hb.
  assert (forall s0, combinable shares -> s0 ∈ shares -> exists g : nat -> gf,
    combineShares shares = Ok (map (fun i => gf_val (g i)) (seq 0 (length (ys s0))))) as Hval.
  { intros s0 Hc Hs0. rewrite (combineShares_value shares s0 Hc Hs0).
    assert (goodShares shares) as Hgs by (split; apply Hc).
    assert (forall i, exists v : gf, combineByte shares i = Ok (gf_val v)) as Hex.
    { intros i. destruct (values_function shares i Hgs) as [f Hf]. eexists. apply combineByte_value; [done|].
      intros s Hs. split; [|by apply Hf]. apply nth_byte. rewrite Forall_forall in Hb. by apply Hb. }
    exists (fun i => gf_of (match combineByte shares i with Ok v => v | Throw _ => 0 end)).
    apply mapM_res_pure. intros i _. destruct (Hex i) as [v ->]. by rewrite gf_of_val. }
  destruct (decide (2 <= length shares)%nat) as [Hlen|Hlen].
  2: { destruct shares as [|s [|s' shares]]; [..|simpl in Hlen; lia];
       (split_and!; [split; [intros [Hl _]; simpl in Hl; lia|done]|done|naive_solver]). }
  destruct (head shares) as [s|] eqn:Eh; [|destruct shares; simpl in *; [lia|done]].
  assert (s ∈ shares) as Hs by (destruct shares; simpl in Eh; [done|injection Eh as ->; set_solver]).
  assert (combinable shares \/ exists w, combineShares shares = Throw (InsufficientSharesError w)) as Hdec.
  { rewrite (combineShares_unfold shares s) by done.
    destruct (check_shares_cases (length (ys s)) shares) as [[E Hall]|[[w E] _]]; rewrite E; cbn [rbind]; [|right; eauto].
    destruct (Nat.eqb (size (list_to_set (map index shares) : gset Z)) (length (map index shares))) eqn:Es;
      cbn [negb throw_if rbind]; [left|right; eauto].
    apply size_list_to_set_eq in Es. rewrite Forall_forall in Hall, Hb.
    assert (forall t, t ∈ shares -> length (ys t) = length (ys s) /\ goodIndex t) as Ht.
    { intros t Ht. apply check_share_ok; [by apply Hb|by apply Hall]. }
    split_and!; [done| |apply Forall_forall; intros; by apply Ht|done].
    intros t t' H1%Ht H2%Ht. lia. }
  destruct Hdec as [Hc|[w E]].
  - destruct (Hval s Hc Hs) as [g Hg]. rewrite Hg. split_and!; [done| |done]. intros secret [= <-]. split.
    + apply Forall_fmap, Forall_forall. intros i _. apply gf_range.
    + intros t Ht. rewrite length_map, length_seq. by apply Hc.
  - rewrite E. split_and!; [|done|naive_solver]. split; [|done]. intros Hc. destruct (Hval s Hc Hs) as [g Hg]. congruence.
Qed.

(** ** Splitting *)

(** What [randomBytes(threshold - 1)] returns for every byte of the secret. *)
Definition goodRandom (rnd : nat -> list Z) (threshold : Z) : Prop :=
  forall i, Z.of_nat (length (rnd i)) = threshold - 1 /\ Forall (fun c => 0 <= c < 256) (rnd i).

Definition shareAt (rnd : nat -> list Z) (secret : list Z) (x : Z) : ShamirShare :=
  {| index := x; ys := imap (fun byteIdx secretByte => evalShare secretByte (rnd byteIdx) x) secret |}.

Lemma splitSecret_Ok rnd secret t n shares :
  splitSecret rnd secret t n = Ok shares <->
  (2 <= t <= n /\ n <= 255 /\ secret <> []) /\ shares = map (shareAt rnd secret) (seqZ 1 n).
Proof.
  unfold splitSecret, shareAt. destruct (Z.ltb_spec t 2); simpl; [split; [done|lia]|].
  destruct (Z.ltb_spec n t); simpl; [split; [done|lia]|]. destruct (Z.ltb_spec 255 n); simpl; [split; [done|lia]|].
  destruct secret as [|b secret]; simpl; [split; [done|naive_solver]|].
  split; [intros [= <-]; split_and!; done || lia|intros [_ ->]; done].
Qed.

Lemma nth_imap {A B} (f : nat -> A -> B) (l : list A) i d a :
  l !! i = Some a -> nth i (imap f l) d = f i a.
Proof.
  revert f i. induction l as [|x l IH]; intros f [|i] Hi; simpl in *; [done|done|congruence|].
  by rewrite (IH (f ∘ S)).
Qed.

Lemma evalShare_bytes secret rnd t x :
  Forall (fun y => 0 <= y < 256) secret -> goodRandom rnd t -> 0 <= x < 256 ->
  forall i b, secret !! i = Some b ->
  nth i (ys (shareAt rnd secret x)) 0 = evalShare b (rnd i) x /\ 0 <= b < 256 /\ 0 <= evalShare b (rnd i) x < 256.
Proof.
  intros Hs Hr Hx i b Hi. simpl. rewrite (nth_imap _ _ _ _ b) by done.
  assert (0 <= b < 256) as Hb by (by eapply (Forall_lookup_1 _ _ _ _ Hs)).
  split_and!; [done|lia|lia|..]; apply evalShare_poly; try done; apply Hr.
Qed.

Lemma map_nth_seq (l : list Z) : map (fun i => nth i l 0) (seq 0 (length l)) = l.
Proof.
  apply list_eq. intros i. rewrite list_lookup_fmap. destruct (decide (i < length l)%nat) as [Hi|Hi].
  - rewrite lookup_seq_lt by done. simpl. destruct (nth_lookup_or_length l i 0) as [->|]; [done|lia].
  - rewrite lookup_seq_ge, lookup_ge_None_2 by lia. done.
Qed.

(** C38: any threshold of the shares reconstructs the secret exactly.
    Whatever the random coefficients, every selection of at least [threshold]
    distinct shares of a split, in any order, combines to the secret. *)
Theorem shamir_roundtrip (rnd : nat -> list Z) (secret : list Z) (threshold n : Z) (shares sub : list ShamirShare) :
  Forall (fun y => 0 <= y < 256) secret -> goodRandom rnd threshold ->
  splitSecret rnd secret threshold n = Ok shares ->
  NoDup sub -> sub ⊆ shares -> threshold <= Z.of_nat (length sub) ->
  combineShares sub = Ok secret.
Proof.
  intros Hs Hr [(Ht & Hn & Hne) ->]%splitSecret_Ok Hnd Hsub Hlen.
  assert (forall s, s ∈ sub -> goodIndex s /\ s = shareAt rnd secret (index s)) as Hin.
  { intros s (x & -> & Hx%elem_of_seqZ)%Hsub%list_elem_of_fmap. unfold goodIndex. simpl. split; [lia|done]. }
  assert (goodShares sub) as Hg.
  { split; [apply Forall_forall; intros s Hx; by apply Hin|].
    clear -Hnd Hin. induction sub as [|s sub IH]; simpl; [constructor|]. apply NoDup_cons in Hnd as [Hni Hnd].
    apply NoDup_cons. split; [|apply IH; [done|intros; apply Hin; set_solver]].
    intros (s' & E & Hs')%list_elem_of_fmap. apply Hni.
    rewrite (proj2 (Hin s ltac:(set_solver))), E, <- (proj2 (Hin s' ltac:(set_solver))). done. }
  assert (forall s, s ∈ sub -> length (ys s) = length secret) as Hys.
  { intros s Hx. rewrite (proj2 (Hin s Hx)). simpl. apply length_imap. }
  destruct (head sub) as [s0|] eqn:Eh; [|destruct sub; simpl in *; [lia|done]].
  assert (s0 ∈ sub) as Hs0 by (destruct sub; simpl in Eh; [done|injection Eh as ->; set_solver]).
  assert (combinable sub) as Hcomb by (split_and!; [lia|intros; by rewrite !Hys|apply Hg|apply Hg]).
  rewrite (combineShares_value sub s0 Hcomb Hs0), (Hys s0 Hs0).
  rewrite <- (map_nth_seq secret) at 2. apply mapM_res_pure. intros i [_ Hi]%elem_of_seq.
  destruct (lookup_lt_is_Some_2 secret i ltac:(lia)) as [b Hb].
  rewrite (combineByte_value sub i (eval_gf (gf_of b :: map gf_of (rnd i)))); [|done|].
  - unfold interp_gf, eval_gf.
    rewrite (interp_exact f0 f1 fadd fmul fadd fopp fdiv finv gf_field).
    + assert (0 <= b < 256) as Hbb by (by eapply (Forall_lookup_1 _ _ _ _ Hs)).
      simpl. assert (forall v, fadd (gf_of b) (fmul f0 v) = gf_of b) as -> by (intros; ring).
      rewrite gf_val_of by done. f_equal. symmetry. by apply nth_lookup_Some.
    + by apply points_NoDup.
    + simpl. rewrite !length_map. destruct (Hr i) as [Hl _]. lia.
  - intros s Hx. destruct (Hin s Hx) as [Hgi Es]. unfold goodIndex in Hgi.
    destruct (evalShare_bytes secret rnd threshold (index s) Hs Hr ltac:(lia) i b Hb) as (E & Hbb & Hev).
    rewrite Es. rewrite E. split; [done|]. apply evalShare_poly; [lia|done|apply Hr].
Qed.

(** C39: fewer shares than the threshold reveal nothing.  For every view of
    [threshold - 1] shares at distinct indexes (the values observed for one
    byte) and every candidate secret byte, exactly one choice of random
    coefficients produces that view, so all 256 candidates are equally
    likely whatever is observed. *)
Theorem shamir_perfect_secrecy (threshold : Z) (view : list (Z * Z)) (candidate : Z) :
  2 <= threshold -> Z.of_nat (length view) = threshold - 1 ->
  Forall (fun v => 0 < v.1 < 256 /\ 0 <= v.2 < 256) view -> NoDup (map fst view) -> 0 <= candidate < 256 ->
  exists coeffs,
    (Z.of_nat (length coeffs) = threshold - 1 /\ Forall (fun c => 0 <= c < 256) coeffs
     /\ forall v, v ∈ view -> evalShare candidate coeffs v.1 = v.2)
    /\ forall coeffs', Z.of_nat (length coeffs') = threshold - 1 -> Forall (fun c => 0 <= c < 256) coeffs' ->
         (forall v, v ∈ view -> evalShare candidate coeffs' v.1 = v.2) -> coeffs' = coeffs.
Proof.
  intros Ht Hlen Hv Hnd Hc. rewrite Forall_forall in Hv.
  set (shares := map (fun v => {| index := v.1; ys := [v.2] |}) view).
  assert (goodShares shares) as Hg.
  { unfold shares. split; [apply Forall_fmap, Forall_forall; intros v Hvv; by apply Hv|]. by rewrite map_map. }
  destruct (values_function shares 0 Hg) as [f Hf].
  assert (forall v, v ∈ view -> gf_of v.2 = f (gf_of v.1)) as Hfv.
  { intros v Hvv. apply (Hf {| index := v.1; ys := [v.2] |}). apply list_elem_of_fmap. eauto. }
  set (xs := f0 :: map (fun v => gf_of v.1) view).
  assert (NoDup xs) as Hxs.
  { apply NoDup_cons. split.
    - intros (v & E & Hvv)%list_elem_of_fmap. destruct (Hv v Hvv) as [H1 _].
      apply (f_equal gf_val) in E. rewrite gf_val_of in E by lia. change (gf_val f0) with 0 in E. lia.
    - pose proof (points_NoDup shares Hg) as Hp. unfold shares in Hp. by rewrite map_map in Hp. }
  destruct (interp_unique_poly f0 f1 fadd fmul fadd fopp fdiv finv gf_field xs
    (fun x => if decide (x = f0) then gf_of candidate else f x) Hxs) as (p & Hpl & Hp & Huniq).
  assert (forall v, v ∈ view -> gf_of v.1 <> f0) as Hnz.
  { intros v Hvv E. apply NoDup_cons in Hxs as [Hni _]. apply Hni. rewrite <- E. by apply (list_elem_of_fmap_2 (fun v => gf_of v.1)). }
  destruct p as [|a p]; [done|].
  assert (a = gf_of candidate) as ->.
  { specialize (Hp f0 ltac:(unfold xs; set_solver)). cbv beta in Hp. rewrite decide_True in Hp by done. rewrite <- Hp. simpl. ring. }
  assert (forall cs, Forall (fun c => 0 <= c < 256) cs ->
    (forall v, v ∈ view -> evalShare candidate cs v.1 = v.2) <->
    (forall x, x ∈ xs -> eval_gf (gf_of candidate :: map gf_of cs) x = if decide (x = f0) then gf_of candidate else f x)) as Hiff.
  { intros cs Hcs. split.
    - intros He x [->|(v & -> & Hvv)%list_elem_of_fmap]%elem_of_cons.
      + rewrite decide_True by done. unfold eval_gf. simpl. ring.
      + rewrite decide_False by (by apply Hnz). destruct (Hv v Hvv) as [H1 H2].
        rewrite <- Hfv, <- (He v Hvv) by done. symmetry. apply evalShare_poly; [lia|done|done].
    - intros He v Hvv. destruct (Hv v Hvv) as [H1 H2].
      destruct (evalShare_poly candidate cs v.1 ltac:(lia) Hc Hcs) as [Hb E].
      rewrite He, decide_False in E; [|by apply Hnz|unfold xs; apply elem_of_cons; right; by apply (list_elem_of_fmap_2 (fun v => gf_of v.1))].
      rewrite <- Hfv in E by done. apply (f_equal gf_val) in E. by rewrite !gf_val_of in E. }
  assert (map gf_of (map gf_val p) = p) as Hpp.
  { rewrite map_map. rewrite <- (map_id p) at 2. apply map_ext. apply gf_of_val. }
  assert (Forall (fun c => 0 <= c < 256) (map gf_val p)) as Hpb by (apply Forall_fmap, Forall_forall; intros; apply gf_range).
  unfold xs in Hpl. simpl in Hpl. rewrite length_map in Hpl. injection Hpl as Hpl.
  exists (map gf_val p). split_and!; [rewrite length_map; lia|done|apply (proj2 (Hiff _ Hpb)); rewrite Hpp; exact Hp|].
  intros cs Hcl Hcb He. pose proof (proj1 (Hiff cs Hcb) He) as He'.
  assert (gf_of candidate :: map gf_of cs = gf_of candidate :: p) as [= <-].
  { apply Huniq; [|exact He']. unfold xs. simpl. rewrite !length_map. lia. }
  rewrite map_map. rewrite <- (map_id cs) at 1. apply map_ext_in. intros c Hcc%list_elem_of_In. symmetry. apply gf_val_of.
  rewrite Forall_forall in Hcb. by apply Hcb.
Qed.

Definition sample_rnd (i : nat) : list Z := [7 + Z.of_nat (i mod 4)].
Definition sample_secret : list Z := [0; 1; 2; 200; 255].
Definition sample_shares : list ShamirShare :=
  Eval vm_compute in match splitSecret sample_rnd sample_secret 2 3 with Ok s => s | Throw _ => [] end.

Lemma combine_total_witness : is_ok (combineShares (take 2 sample_shares)) = true.
Proof.
  refine (proj1 (proj1 (combine_total (take 2 sample_shares) _)) _).
  - repeat (constructor; [split; [vm_compute; discriminate|repeat (constructor; [split; [discriminate|reflexivity]|]); constructor]|]). constructor.
  - split_and!; [vm_compute; lia| |repeat (constructor; [split; reflexivity|]); constructor|].
    + intros s t Hs%list_elem_of_In Ht%list_elem_of_In. simpl in Hs, Ht. destruct_or?; by subst.
    + repeat (constructor; [vm_compute; set_solver|]). constructor.
Defined.

Lemma sample_rnd_good : goodRandom sample_rnd 2.
Proof.
  intros i. split; [done|]. unfold sample_rnd. constructor; [|constructor].
  pose proof (Nat.mod_upper_bound i 4 ltac:(lia)). lia.
Qed.

Lemma shamir_roundtrip_witness : combineShares (rev (drop 1 sample_shares)) = Ok sample_secret.
Proof.
  refine (shamir_roundtrip sample_rnd sample_secret 2 3 sample_shares _ _ sample_rnd_good _ _ _ _).
  - unfold sample_secret. repeat (constructor; [lia|]). constructor.
  - vm_compute. reflexivity.
  - vm_compute. repeat (constructor; [set_solver|]). constructor.
  - intros s Hs%list_elem_of_In. apply list_elem_of_In. vm_compute in Hs. vm_compute. tauto.
  - vm_compute. discriminate.
Defined.

Lemma shamir_perfect_secrecy_witness :
  exists coeffs,
    (Z.of_nat (length coeffs) = 2 - 1 /\ Forall (fun c => 0 <= c < 256) coeffs
     /\ forall v, v ∈ [(3, 77)] -> evalShare 42 coeffs v.1 = v.2)
    /\ forall coeffs', Z.of_nat (length coeffs') = 2 - 1 -> Forall (fun c => 0 <= c < 256) coeffs' ->
         (forall v, v ∈ [(3, 77)] -> evalShare 42 coeffs' v.1 = v.2) -> coeffs' = coeffs.
Proof.
  refine (shamir_perfect_secrecy 2 [(3, 77)] 42 _ _ _ _ _); [lia|done| | |lia].
  - constructor; [simpl; lia|constructor].
  - simpl. constructor; [set_solver|constructor].
Defined.
