(* ===== verification/Envelope.v ===== *)
(** * packages/crypto: keys.ts, aes-gcm.ts, envelope.ts

    Sealing a payload under a fresh key whose Shamir shares are wrapped per
    role, and releasing it from at least two of them.  AES-256-GCM and
    SHA-256 are node:crypto, so they are parameters; the bytes drawn by
    [randomBytes] are an argument.  Zeroing the key buffer in the [finally]
    blocks does not change a result and is not modelled. *)
From S2P Require Import Prelude Lifecycle DomainStates Money Gf256 Shamir.
From Stdlib Require Import Ascii.
Import Lockbox.

Definition AES_KEY_BYTES : nat := 32.
Definition GCM_IV_BYTES : nat := 12.
Definition GCM_AUTH_TAG_BYTES : nat := 16.

(** ** keys.ts *)

Fixpoint hex_pairs (l : list ascii) : option (list Z) :=
  match l with
  | [] => Some []
  | a :: b :: l' =>
      match digit_below 16 a, digit_below 16 b, hex_pairs l' with
      | Some x, Some y, Some r => Some (16 * x + y :: r)
      | _, _, _ => None
      end
  | [_] => None
  end.

(** [!hex] is true of [undefined] and of the empty string; the pattern accepts
    exactly 64 hexadecimal digits. *)
Definition parseKeyHex (hex : option string) (label : string) : res (list Z) :=
  match hex with
  | None => Throw (MissingKeyMaterialError (label +:+ " is missing"))
  | Some h =>
      do! throw_if (String.eqb h "") (MissingKeyMaterialError (label +:+ " is missing"));
      let trimmed := trim (String.list_ascii_of_string h) in
      match (if Nat.eqb (length trimmed) 64 then hex_pairs trimmed else None) with
      | Some key => Ok key
      | None => Throw (MissingKeyMaterialError (label +:+ " is malformed"))
      end
  end.

(** ** aes-gcm.ts and envelope.ts *)

Record AesGcmCiphertext : Type := { iv : list Z; ciphertext : list Z; authTag : list Z }.

Record WrappedShare : Type := { role : LockboxShareRole; w_index : Z; wrapped : AesGcmCiphertext }.

Record SealedEnvelope : Type := {
  s_ciphertext : list Z;
  s_iv : list Z;
  s_authTag : list Z;
  ciphertextHash : string;
  shares : list WrappedShare
}.

Record RoleKeks : Type := { k_SEALER : list Z; k_OPERATOR : list Z; k_ESCROW : list Z }.

Definition kekOf (keks : RoleKeks) (r : LockboxShareRole) : list Z :=
  match r with SEALER => k_SEALER keks | OPERATOR => k_OPERATOR keks | ESCROW => k_ESCROW keks end.

Definition LOCKBOX_SHARE_THRESHOLD : Z := 2.
Definition LOCKBOX_SHARE_TOTAL : Z := 3.

Definition roleToIndex (r : LockboxShareRole) : Z :=
  index_from 0 (LockboxShareRole_name r) (map LockboxShareRole_name LOCKBOX_SHARE_ROLES) + 1.

Definition indexToRole (index : Z) : res LockboxShareRole :=
  match (if index <=? 0 then None else LOCKBOX_SHARE_ROLES !! Z.to_nat (index - 1)) with
  | Some r => Ok r
  | None => Throw (RangeError "indexToRole: no role for index")
  end.

Definition assertKeyLength (key : list Z) : res unit :=
  throw_if (negb (Nat.eqb (length key) AES_KEY_BYTES)) (RangeError "AES-256-GCM key must be exactly 32 bytes").

(** The draws of one [sealPayload] call: the key, the payload's IV, the Shamir
    coefficients and the IV of each wrapped share. *)
Record SealRandom : Type := {
  d_dek : list Z;
  d_iv : list Z;
  d_coeffs : nat -> list Z;
  d_shareIv : Z -> list Z
}.

Section Crypto.
(** [gcm_encrypt key iv aad plaintext] is the ciphertext and the tag;
    [gcm_decrypt key iv aad ciphertext tag] is [None] when [final()] throws. *)
Context (gcm_encrypt : list Z -> list Z -> option (list Z) -> list Z -> list Z * list Z)
        (gcm_decrypt : list Z -> list Z -> option (list Z) -> list Z -> list Z -> option (list Z))
        (sha256_hex : list Z -> string).

Definition encrypt (ivDraw plaintext key : list Z) (aad : option (list Z)) : res AesGcmCiphertext :=
  do! assertKeyLength key;
  let '(ct, tag) := gcm_encrypt key ivDraw aad plaintext in
  Ok {| iv := ivDraw; ciphertext := ct; authTag := tag |}.

Definition decrypt (input : AesGcmCiphertext) (key : list Z) (aad : option (list Z)) : res (list Z) :=
  do! assertKeyLength key;
  do! throw_if (negb (Nat.eqb (length (authTag input)) GCM_AUTH_TAG_BYTES))
        (TamperOrWrongKeyError "malformed authTag length");
  match gcm_decrypt key (iv input) aad (ciphertext input) (authTag input) with
  | Some p => Ok p
  | None => Throw (TamperOrWrongKeyError "")
  end.

(** The callback of [rawShares.map]. *)
Definition wrapShare (rnd : SealRandom) (keks : RoleKeks) (share : ShamirShare) : res WrappedShare :=
  let! r := indexToRole (index share) in
  let! w := encrypt (d_shareIv rnd (index share)) (ys share) (kekOf keks r) None in
  Ok {| role := r; w_index := index share; wrapped := w |}.

Definition sealPayload (rnd : SealRandom) (plaintext : list Z) (keks : RoleKeks) (aad : option (list Z)) : res SealedEnvelope :=
  let dek := d_dek rnd in
  let! c := encrypt (d_iv rnd) plaintext dek aad in
  let hash := sha256_hex (ciphertext c) in
  let! rawShares := splitSecret (d_coeffs rnd) dek LOCKBOX_SHARE_THRESHOLD LOCKBOX_SHARE_TOTAL in
  let! ws := mapM_res (wrapShare rnd keks) rawShares in
  Ok {| s_ciphertext := ciphertext c; s_iv := iv c; s_authTag := authTag c; ciphertextHash := hash; shares := ws |}.

(** The callback of [wrappedShares.map]. *)
Definition unwrapShare (keks : RoleKeks) (s : WrappedShare) : res ShamirShare :=
  let! y := decrypt (wrapped s) (kekOf keks (role s)) None in
  Ok {| index := w_index s; ys := y |}.

Definition releasePayload (env : AesGcmCiphertext) (wrappedShares : list WrappedShare) (keks : RoleKeks)
    (aad : option (list Z)) : res (list Z) :=
  do! throw_if (Z.of_nat (length wrappedShares) <? LOCKBOX_SHARE_THRESHOLD)
        (InsufficientSharesError "releasePayload: need at least 2 shares");
  do! throw_if (negb (bool_decide (NoDup (map role wrappedShares))))
        (InsufficientSharesError "releasePayload: duplicate share roles supplied");
  let! unwrapped := mapM_res (unwrapShare keks) wrappedShares in
  let! dek := combineShares unwrapped in
  decrypt env dek aad.

Definition envelopeOf (e : SealedEnvelope) : AesGcmCiphertext :=
  {| iv := s_iv e; ciphertext := s_ciphertext e; authTag := s_authTag e |}.

(** ** What the code relies on of AES-GCM *)

(** Decrypting what was encrypted under the same key, IV and associated data
    returns the plaintext, and the tag has 16 bytes. *)
Definition gcm_correct : Prop :=
  forall key ivDraw aad p, length key = AES_KEY_BYTES ->
    length (gcm_encrypt key ivDraw aad p).2 = GCM_AUTH_TAG_BYTES
    /\ gcm_decrypt key ivDraw aad (gcm_encrypt key ivDraw aad p).1 (gcm_encrypt key ivDraw aad p).2 = Some p.

Definition goodKeks (keks : RoleKeks) : Prop := forall r, length (kekOf keks r) = AES_KEY_BYTES.

Definition goodSealRandom (rnd : SealRandom) : Prop :=
  length (d_dek rnd) = AES_KEY_BYTES /\ Forall (fun y => 0 <= y < 256) (d_dek rnd)
  /\ goodRandom (d_coeffs rnd) LOCKBOX_SHARE_THRESHOLD.

Lemma assertKeyLength_Ok key : length key = AES_KEY_BYTES -> assertKeyLength key = Ok tt.
Proof. intros E. unfold assertKeyLength. by rewrite E. Qed.

Lemma encrypt_Ok ivDraw p key aad :
  length key = AES_KEY_BYTES ->
  encrypt ivDraw p key aad = Ok {| iv := ivDraw; ciphertext := (gcm_encrypt key ivDraw aad p).1;
                                   authTag := (gcm_encrypt key ivDraw aad p).2 |}.
Proof. intros E. unfold encrypt. rewrite assertKeyLength_Ok by done. simpl. by destruct (gcm_encrypt _ _ _ _). Qed.

Lemma decrypt_encrypt ivDraw p key aad c :
  gcm_correct -> encrypt ivDraw p key aad = Ok c -> decrypt c key aad = Ok p.
Proof.
  intros Hg H. unfold encrypt, assertKeyLength in H.
  destruct (Nat.eqb_spec (length key) AES_KEY_BYTES) as [E|]; [|done]. simpl in H.
  destruct (Hg key ivDraw aad p E) as [Ht Hd]. destruct (gcm_encrypt key ivDraw aad p) as [ct tag]. injection H as <-.
  unfold decrypt. rewrite assertKeyLength_Ok by done. cbn [rbind authTag ciphertext iv]. simpl in Ht, Hd.
  by rewrite Ht, Hd.
Qed.

(** The wrapped share of every role, in order. *)
Lemma wrapShares_Ok rnd keks secret :
  goodKeks keks ->
  exists ws, mapM_res (wrapShare rnd keks) (map (shareAt (d_coeffs rnd) secret) (seqZ 1 3)) = Ok ws
    /\ Forall2 (fun s w => wrapShare rnd keks s = Ok w) (map (shareAt (d_coeffs rnd) secret) (seqZ 1 3)) ws
    /\ map role ws = LOCKBOX_SHARE_ROLES.
Proof.
  intros Hk. pose proof (Hk SEALER). pose proof (Hk OPERATOR). pose proof (Hk ESCROW). simpl in *.
  change (seqZ 1 3) with [1; 2; 3]. unfold shareAt. simpl. unfold wrapShare. simpl.
  rewrite !encrypt_Ok by done. simpl. eexists. split; [reflexivity|]. split; [|reflexivity].
  repeat constructor; simpl; by rewrite !encrypt_Ok by done.
Qed.

Lemma unwrap_wrap rnd keks s w :
  gcm_correct -> wrapShare rnd keks s = Ok w -> unwrapShare keks w = Ok s.
Proof.
  intros Hg H. unfold wrapShare in H. inv_ok. unfold unwrapShare. simpl.
  erewrite decrypt_encrypt by done. simpl. by destruct s.
Qed.

(** Any two wrapped shares of a sealed payload open it again. *)
Lemma seal_release (rnd : SealRandom) (plaintext : list Z) (keks : RoleKeks) (aad : option (list Z)) :
  gcm_correct -> goodKeks keks -> goodSealRandom rnd ->
  exists e, sealPayload rnd plaintext keks aad = Ok e /\ map role (shares e) = LOCKBOX_SHARE_ROLES
    /\ forall sel, NoDup sel -> sel ⊆ shares e -> (2 <= length sel)%nat ->
         releasePayload (envelopeOf e) sel keks aad = Ok plaintext.
Proof.
  intros Hg Hk (Hdek & Hbytes & Hrnd).
  destruct (wrapShares_Ok rnd keks (d_dek rnd) Hk) as (ws & Hws & Hall & Hroles).
  assert (splitSecret (d_coeffs rnd) (d_dek rnd) LOCKBOX_SHARE_THRESHOLD LOCKBOX_SHARE_TOTAL
          = Ok (map (shareAt (d_coeffs rnd) (d_dek rnd)) (seqZ 1 3))) as Hsplit.
  { apply splitSecret_Ok. split; [|done]. split_and!; try done. by intros E; rewrite E in Hdek. }
  eexists. split.
  { unfold sealPayload. rewrite encrypt_Ok by done. cbn [rbind]. rewrite Hsplit. cbn [rbind]. rewrite Hws. reflexivity. }
  cbn [shares]. split; [done|]. intros sel Hnd Hsub Hlen. unfold releasePayload.
  destruct (Z.ltb_spec (Z.of_nat (length sel)) LOCKBOX_SHARE_THRESHOLD) as [Hl|_]; [unfold LOCKBOX_SHARE_THRESHOLD in Hl; lia|].
  cbn [throw_if rbind].
  assert (forall w, w ∈ ws -> exists s, s ∈ map (shareAt (d_coeffs rnd) (d_dek rnd)) (seqZ 1 3) /\ unwrapShare keks w = Ok s
            /\ indexToRole (index s) = Ok (role w)) as Hun.
  { intros w (i & Hi)%list_elem_of_lookup. destruct (Forall2_lookup_r _ _ _ _ _ Hall Hi) as (s & Hs & Hw).
    exists s. split; [by eapply list_elem_of_lookup_2|]. split; [by eapply unwrap_wrap|].
    unfold wrapShare in Hw. inv_ok. simpl. done. }
  assert (forall w w', w ∈ ws -> w' ∈ ws -> role w = role w' -> w = w') as Hinj.
  { intros w w' (i & Hi)%list_elem_of_lookup (j & Hj)%list_elem_of_lookup E.
    assert (i = j) as ->; [|congruence].
    assert (NoDup (map role ws)) as Hndr by (rewrite Hroles; by apply (bool_decide_eq_true_1 (NoDup LOCKBOX_SHARE_ROLES))).
    eapply (NoDup_lookup _ i j (role w) Hndr); rewrite list_lookup_fmap; [by rewrite Hi|by rewrite Hj, E]. }
  rewrite bool_decide_eq_true_2.
  2: { clear Hlen Hws Hroles Hall Hsplit. induction sel as [|w sel IH]; simpl; [constructor|].
       apply NoDup_cons in Hnd as [Hni Hnd]. apply NoDup_cons. split; [|apply IH; [done|set_solver]].
       intros (w' & E & Hw')%list_elem_of_fmap. apply Hni. rewrite (Hinj w w'); [done|set_solver|set_solver|done]. }
  cbn [negb throw_if rbind].
  set (un := fun w => match unwrapShare keks w with Ok s => s | Throw _ => {| index := 0; ys := [] |} end).
  assert (mapM_res (unwrapShare keks) sel = Ok (map un sel)) as ->.
  { apply mapM_res_pure. intros w Hw. destruct (Hun w (Hsub w Hw)) as (s & _ & E & _). unfold un. by rewrite E. }
  cbn [rbind].
  assert (combineShares (map un sel) = Ok (d_dek rnd)) as ->.
  { eapply (shamir_roundtrip (d_coeffs rnd) (d_dek rnd) 2 3); [done|done|exact Hsplit| | |rewrite length_map; lia].
    - clear Hlen. induction sel as [|w sel IH]; simpl; [constructor|].
      apply NoDup_cons in Hnd as [Hni Hnd]. apply NoDup_cons. split; [|apply IH; [done|set_solver]].
      intros (w' & E & Hw')%list_elem_of_fmap. apply Hni.
      destruct (Hun w ltac:(set_solver)) as (s & _ & E1 & R1), (Hun w' ltac:(set_solver)) as (s' & _ & E2 & R2).
      unfold un in E. rewrite E1, E2 in E. subst s'. rewrite (Hinj w w'); [done|set_solver|set_solver|congruence].
    - intros s (w & -> & Hw)%list_elem_of_fmap. destruct (Hun w (Hsub w Hw)) as (s & Hs & E & _). unfold un. by rewrite E. }
  cbn [rbind]. unfold envelopeOf. cbn [s_iv s_ciphertext s_authTag iv ciphertext authTag].
  eapply decrypt_encrypt; [done|]. by rewrite encrypt_Ok.
Qed.

(** Sealing and releasing round-trip under the 2-of-3 rule.  With 32-byte
    role keys, sealing succeeds and produces one wrapped share per role; any
    selection of at least two of those wrapped shares, in any order, releases
    exactly the sealed payload under the same associated data. *)
Theorem envelope_roundtrip (rnd : SealRandom) (plaintext : list Z) (keks : RoleKeks) (aad : option (list Z)) :
  gcm_correct -> goodKeks keks -> goodSealRandom rnd ->
  exists e, sealPayload rnd plaintext keks aad = Ok e /\ map role (shares e) = LOCKBOX_SHARE_ROLES
    /\ forall sel, NoDup sel -> sel ⊆ shares e -> (2 <= length sel)%nat ->
         releasePayload (envelopeOf e) sel keks aad = Ok plaintext.
Proof. apply seal_release. Qed.

Lemma decrypt_inv c key aad p :
  decrypt c key aad = Ok p ->
  length key = AES_KEY_BYTES /\ length (authTag c) = GCM_AUTH_TAG_BYTES
  /\ gcm_decrypt key (iv c) aad (ciphertext c) (authTag c) = Some p.
Proof.
  unfold decrypt, assertKeyLength. destruct (Nat.eqb_spec (length key) AES_KEY_BYTES); [|done].
  destruct (Nat.eqb_spec (length (authTag c)) GCM_AUTH_TAG_BYTES); [|done]. simpl.
  destruct (gcm_decrypt _ _ _ _ _); naive_solver.
Qed.

(** Release fails closed.  Fewer than two shares, or two shares of one
    role, throw InsufficientSharesError before any decryption; a plaintext is
    returned only when AES-GCM authenticated every supplied share under the
    key of its role and then the payload, with the caller's associated data,
    under the key those shares combine to; and a payload AES-GCM rejects
    throws TamperOrWrongKeyError. *)
Theorem release_fails_closed (env : AesGcmCiphertext) (ws : list WrappedShare) (keks : RoleKeks) (aad : option (list Z)) :
  ((length ws < 2)%nat \/ ~ NoDup (map role ws) ->
     exists w, releasePayload env ws keks aad = Throw (InsufficientSharesError w))
  /\ (forall p, releasePayload env ws keks aad = Ok p ->
        (2 <= length ws)%nat /\ NoDup (map role ws)
        /\ exists us dek, Forall2 (fun w u => index u = w_index w
               /\ gcm_decrypt (kekOf keks (role w)) (iv (wrapped w)) None (ciphertext (wrapped w)) (authTag (wrapped w)) = Some (ys u)) ws us
           /\ combineShares us = Ok dek
           /\ gcm_decrypt dek (iv env) aad (ciphertext env) (authTag env) = Some p)
  /\ (forall us dek, (2 <= length ws)%nat -> NoDup (map role ws) -> mapM_res (unwrapShare keks) ws = Ok us ->
        combineShares us = Ok dek -> length dek = AES_KEY_BYTES ->
        gcm_decrypt dek (iv env) aad (ciphertext env) (authTag env) = None ->
        exists w, releasePayload env ws keks aad = Throw (TamperOrWrongKeyError w)).
Proof.
  unfold releasePayload, LOCKBOX_SHARE_THRESHOLD.
  destruct (Z.ltb_spec (Z.of_nat (length ws)) 2) as [Hl|Hl]; cbn [throw_if rbind].
  { split_and!; [eauto|done|intros; lia]. }
  destruct (decide (NoDup (map role ws))) as [Hnd|Hnd].
  2: { rewrite bool_decide_eq_false_2 by done. simpl. split_and!; [eauto|done|done]. }
  rewrite bool_decide_eq_true_2 by done. cbn [negb throw_if rbind]. split_and!.
  - intros [?|?]; [lia|done].
  - intros p H. split; [lia|]. split; [done|].
    apply rbind_Ok in H as (us & Hus & H). apply rbind_Ok in H as (dek & Hdek & H). exists us, dek.
    split_and!; [|done|by eapply decrypt_inv].
    apply mapM_res_Ok in Hus. eapply Forall2_impl; [exact Hus|]. intros w u Hu. unfold unwrapShare in Hu.
    apply rbind_Ok in Hu as (y & Hy & [= <-]). simpl. split; [done|]. by eapply decrypt_inv.
  - intros us dek _ _ -> Hdek Hlen Hnone. cbn [rbind]. rewrite Hdek. cbn [rbind]. unfold decrypt.
    rewrite assertKeyLength_Ok by done. cbn [rbind]. destruct (negb _); simpl; [eauto|]. rewrite Hnone. eauto.
Qed.

End Crypto.

(** ** A concrete instance of the parameters, for the examples: the tag is
    sixteen zero bytes, so decryption accepts exactly that tag. *)
Definition toy_encrypt (key ivDraw : list Z) (aad : option (list Z)) (p : list Z) : list Z * list Z := (p, repeat 0 16).
Definition toy_decrypt (key ivDraw : list Z) (aad : option (list Z)) (c tag : list Z) : option (list Z) :=
  if decide (tag = repeat 0 16) then Some c else None.

Lemma toy_correct : gcm_correct toy_encrypt toy_decrypt.
Proof. intros key ivDraw aad p _. split; [done|]. unfold toy_decrypt. simpl. done. Qed.

Definition toy_keks : RoleKeks := {| k_SEALER := repeat 1 32; k_OPERATOR := repeat 2 32; k_ESCROW := repeat 3 32 |}.
Definition toy_random : SealRandom :=
  {| d_dek := repeat 9 32; d_iv := repeat 4 12; d_coeffs := sample_rnd; d_shareIv := fun _ => repeat 5 12 |}.

Lemma envelope_roundtrip_witness :
  exists e, sealPayload toy_encrypt (fun _ => "h"%string) toy_random [72; 105] toy_keks (Some [1]) = Ok e
    /\ map role (shares e) = LOCKBOX_SHARE_ROLES
    /\ forall sel, NoDup sel -> sel ⊆ shares e -> (2 <= length sel)%nat ->
         releasePayload toy_decrypt (envelopeOf e) sel toy_keks (Some [1]) = Ok [72; 105].
Proof.
  refine (envelope_roundtrip toy_encrypt toy_decrypt (fun _ => "h"%string) toy_random [72; 105] toy_keks (Some [1]) toy_correct _ _).
  - by intros [].
  - split_and!; [done| |exact sample_rnd_good]. apply Forall_forall. intros y Hy%list_elem_of_In%repeat_spec. subst. lia.
Defined.

(** ** Key material *)

Lemma list_pairs_ind {A} (P : list A -> Prop) :
  P [] -> (forall a, P [a]) -> (forall a b l, P l -> P (a :: b :: l)) -> forall l, P l.
Proof.
  intros H0 H1 H2 l. enough (P l /\ forall a, P (a :: l)) by tauto.
  induction l as [|x l [IH1 IH2]]; split; auto.
Qed.

Lemma hex_pairs_spec l k :
  hex_pairs l = Some k -> length l = (2 * length k)%nat /\ Forall (fun y => 0 <= y < 256) k.
Proof.
  revert k. induction l as [|a|a b l IH] using list_pairs_ind; intros k Hk; simpl in Hk; [by injection Hk as <-|done|].
  destruct (digit_below 16 a) as [x|] eqn:Ea; [|done]. destruct (digit_below 16 b) as [y|] eqn:Eb; [|done].
  destruct (hex_pairs l) as [r|]; [|done]. injection Hk as <-. destruct (IH r eq_refl) as (Hl & Hb). simpl.
  split; [lia|]. constructor; [|done]. apply digit_below_range in Ea, Eb. lia.
Qed.

(** [buf.toString("hex")]. *)
Definition hex_char (n : Z) : ascii := ascii_of_nat (Z.to_nat (if n <? 10 then 48 + n else 87 + n)).
Definition toHex (bs : list Z) : list ascii := concat (map (fun b => [hex_char (b / 16); hex_char (b mod 16)]) bs).

Lemma hex_char_digit n : 0 <= n < 16 -> digit_below 16 (hex_char n) = Some n /\ is_js_space (hex_char n) = false.
Proof.
  intros Hn.
  pose proof (for_bytes (fun n => implb (n <? 16)
      (match digit_below 16 (hex_char n) with Some d => d =? n | None => false end && negb (is_js_space (hex_char n))))
    ltac:(vm_compute; reflexivity) n ltac:(lia)) as H. cbv beta in H.
  destruct (Z.ltb_spec n 16); [|lia]. simpl in H. apply andb_true_iff in H as [H1 H2%negb_true_iff]. split; [|done].
  destruct (digit_below 16 (hex_char n)); [|done]. apply Z.eqb_eq in H1. by subst.
Qed.

Lemma hex_pairs_toHex bs : Forall (fun y => 0 <= y < 256) bs -> hex_pairs (toHex bs) = Some bs.
Proof.
  induction 1 as [|b bs Hb Hbs IH]; [done|]. unfold toHex in *. simpl.
  assert (0 <= b / 16 < 16) as H1 by (split; [apply Z.div_pos; lia|apply Z.div_lt_upper_bound; lia]).
  assert (0 <= b mod 16 < 16) as H2 by (apply Z.mod_pos_bound; lia).
  rewrite (proj1 (hex_char_digit _ H1)), (proj1 (hex_char_digit _ H2)), IH. do 2 f_equal.
  pose proof (Z.div_mod b 16). lia.
Qed.

Lemma toHex_no_space bs c : Forall (fun y => 0 <= y < 256) bs -> c ∈ toHex bs -> is_js_space c = false.
Proof.
  intros Hbs. unfold toHex. intros Hc%list_elem_of_In%in_concat. destruct Hc as (l & Hl%in_map_iff & Hc).
  destruct Hl as (b & <- & Hb%list_elem_of_In). rewrite Forall_forall in Hbs. specialize (Hbs b Hb).
  assert (0 <= b / 16 < 16) as H1 by (split; [apply Z.div_pos; lia|apply Z.div_lt_upper_bound; lia]).
  assert (0 <= b mod 16 < 16) as H2 by (apply Z.mod_pos_bound; lia).
  destruct Hc as [<-|[<-|[]]]; by apply hex_char_digit.
Qed.

Lemma drop_spaces_app sp l :
  forallb is_js_space sp = true -> drop_spaces (sp ++ l) = drop_spaces l.
Proof. induction sp as [|c sp IH]; simpl; [done|]. intros [-> H]%andb_true_iff. by apply IH. Qed.

Lemma drop_spaces_id l : (forall c, head l = Some c -> is_js_space c = false) -> drop_spaces l = l.
Proof. destruct l as [|c l]; [done|]. intros H. simpl. by rewrite (H c). Qed.

Lemma head_elem {A} (l : list A) c : head l = Some c -> c ∈ l.
Proof. destruct l; simpl; [done|]. intros [= ->]. set_solver. Qed.

(** Surrounding white space is dropped, and nothing else. *)
Lemma trim_surrounded sp1 l sp2 :
  forallb is_js_space sp1 = true -> forallb is_js_space sp2 = true ->
  (forall c, c ∈ l -> is_js_space c = false) -> l <> [] -> trim (sp1 ++ l ++ sp2) = l.
Proof.
  intros H1 H2 Hl Hne. unfold trim. rewrite drop_spaces_app by done.
  rewrite (drop_spaces_id (l ++ sp2)).
  2: { intros c Hc. destruct l as [|x l]; [done|]. simpl in Hc. injection Hc as <-. apply Hl. set_solver. }
  rewrite rev_app_distr, drop_spaces_app.
  2: { rewrite forallb_forall in *. intros c Hc%in_rev. by apply H2. }
  rewrite drop_spaces_id, rev_involutive; [done|]. intros c Hc%head_elem. apply Hl. by apply list_elem_of_In, in_rev, list_elem_of_In.
Qed.

(** Key material is parsed exactly or refused.  [parseKeyHex] returns
    only 32-byte keys, throws MissingKeyMaterialError on anything else
    (including an absent or empty value), and reads back every 32-byte key
    from its hexadecimal form with any white space around it. *)
Theorem parseKeyHex_exact (hex : option string) (label : string) :
  (forall key, parseKeyHex hex label = Ok key ->
     length key = AES_KEY_BYTES /\ Forall (fun y => 0 <= y < 256) key)
  /\ (forall e, parseKeyHex hex label = Throw e -> exists w, e = MissingKeyMaterialError w)
  /\ (forall sp1 sp2 key, forallb is_js_space sp1 = true -> forallb is_js_space sp2 = true ->
        length key = AES_KEY_BYTES -> Forall (fun y => 0 <= y < 256) key ->
        parseKeyHex (Some (String.string_of_list_ascii (sp1 ++ toHex key ++ sp2))) label = Ok key).
Proof.
  split_and!.
  - intros key. unfold parseKeyHex. destruct hex as [h|]; [|done]. destruct (String.eqb h ""); simpl; [done|].
    destruct (Nat.eqb_spec (length (trim (String.list_ascii_of_string h))) 64) as [El|]; [|done].
    destruct (hex_pairs _) as [k|] eqn:E; [|done]. intros [= <-]. apply hex_pairs_spec in E as [Hl Hb].
    split; [unfold AES_KEY_BYTES; lia|done].
  - intros e. unfold parseKeyHex. destruct hex as [h|]; [|intros [= <-]; eauto].
    destruct (String.eqb h ""); simpl; [intros [= <-]; eauto|]. destruct (if Nat.eqb _ _ then _ else _); [done|].
    intros [= <-]. eauto.
  - intros sp1 sp2 key H1 H2 Hl Hb. pose proof (hex_pairs_toHex key Hb) as Hhex.
    pose proof (hex_pairs_spec _ _ Hhex) as [Hlen _].
    assert (toHex key <> []) as Hne by (intros E; rewrite E, Hl in Hlen; done).
    unfold parseKeyHex. rewrite String.list_ascii_of_string_of_list_ascii, trim_surrounded; try done.
    2: { intros c Hc. by eapply toHex_no_space. }
    rewrite Hlen, Hl, Hhex. simpl.
    destruct (String.eqb_spec (String.string_of_list_ascii (sp1 ++ toHex key ++ sp2)) "") as [E|]; [|done].
    apply (f_equal String.list_ascii_of_string) in E. rewrite String.list_ascii_of_string_of_list_ascii in E.
    simpl in E. destruct sp1; [|done]. by destruct (toHex key).
Qed.
