(* ===== verification/Receipt.v ===== *)
(** * packages/crypto/src/receipt.ts

    The tamper-evident receipt of a sealed lockbox: a canonical JSON text
    signed with HMAC-SHA256.  The HMAC is node:crypto, a parameter.  Strings
    are their UTF-8 bytes; [JSON.stringify] leaves well-formed non-ASCII text
    unescaped.  Numbers are left out of [json]: no field of a receipt holds
    one. *)
From S2P Require Import Prelude StableSort Money Envelope.
From Stdlib Require Import Ascii.

#[local] Notation text := (list ascii).
Definition txt (s : string) : text := String.list_ascii_of_string s.

Inductive json : Type :=
| JUndefined
| JNull
| JBool (b : bool)
| JString (s : string)
| JArray (l : list json)
| JObject (fields : list (string * json)).

Definition hex_low (n : nat) : ascii := hex_char (Z.of_nat n).

(** The double quote and the backslash, by code. *)
Definition dquote : ascii := ascii_of_nat 34.
Definition backslash : ascii := ascii_of_nat 92.

(** One character inside a quoted JSON string. *)
Definition escape (c : ascii) : text :=
  let n := nat_of_ascii c in
  if Nat.eqb n 34 then [backslash; dquote]
  else if Nat.eqb n 92 then [backslash; backslash]
  else if Nat.eqb n 8 then [backslash; "b"%char]
  else if Nat.eqb n 9 then [backslash; "t"%char]
  else if Nat.eqb n 10 then [backslash; "n"%char]
  else if Nat.eqb n 12 then [backslash; "f"%char]
  else if Nat.eqb n 13 then [backslash; "r"%char]
  else if Nat.ltb n 32 then [backslash; "u"%char; "0"%char; "0"%char; hex_low (n / 16); hex_low (n mod 16)]
  else [c].

(** [JSON.stringify] of a string. *)
Definition stringify (s : string) : text := dquote :: concat (map escape (txt s)) ++ [dquote].

(** [parts.join(",")] *)
Fixpoint join (parts : list text) : text :=
  match parts with
  | [] => []
  | [p] => p
  | p :: rest => p ++ ","%char :: join rest
  end.

(** [Object.keys(obj).sort()] orders the members by key. *)
Definition sort_fields (fs : list (string * text)) : list (string * text) :=
  sort_by (cmp_on fst String.compare) fs.

Fixpoint canonicalJson (value : json) : text :=
  match value with
  | JUndefined => txt "null"
  | JNull => txt "null"
  | JBool true => txt "true"
  | JBool false => txt "false"
  | JString s => stringify s
  | JArray l => "["%char :: join (map canonicalJson l) ++ ["]"%char]
  | JObject fields =>
      let members := sort_fields (map (fun kv => (fst kv, canonicalJson (snd kv))) fields) in
      "{"%char :: join (map (fun kv => stringify (fst kv) ++ ":"%char :: snd kv) members) ++ ["}"%char]
  end.

Record LockboxReceiptPayload : Type := {
  lockboxId : string;
  ciphertextHash : string;
  sealerOrgId : string;
  sealedAt : string;
  state : string
}.

Definition payload_fields (p : LockboxReceiptPayload) : list (string * json) :=
  [("lockboxId"%string, JString (lockboxId p)); ("ciphertextHash"%string, JString (ciphertextHash p));
   ("sealerOrgId"%string, JString (sealerOrgId p)); ("sealedAt"%string, JString (sealedAt p));
   ("state"%string, JString (state p))].

Section Hmac.
(** [createHmac("sha256", key).update(msg).digest()]. *)
Context (hmac : list Z -> text -> list Z).

Definition signReceipt (payload : list (string * json)) (hmacKey : list Z) : text :=
  toHex (hmac hmacKey (canonicalJson (JObject payload))).

Definition isHexText (s : text) : bool := forallb (fun c => bool_decide (is_Some (digit_below 16 c))) s.

(** [Buffer.from(s, "hex")] of a text the guard accepted. *)
Definition fromHex (s : text) : list Z := default [] (hex_pairs s).

Definition verifyReceipt (payload : list (string * json)) (signature : text) (hmacKey : list Z) : bool :=
  let expected := signReceipt payload hmacKey in
  let expectedBuf := fromHex expected in
  if negb (isHexText signature) || negb (Nat.even (length signature)) then false
  else let actualBuf := fromHex signature in
       if negb (Nat.eqb (length actualBuf) (length expectedBuf)) then false
       else bool_decide (expectedBuf = actualBuf).

(** The digest is a string of bytes. *)
Definition hmac_bytes : Prop := forall k m, Forall (fun y => 0 <= y < 256) (hmac k m).

Lemma hex_pairs_guard s :
  is_Some (hex_pairs s) <-> isHexText s = true /\ Nat.even (length s) = true.
Proof.
  induction s as [|a|a b s IH] using list_pairs_ind.
  - simpl. split; [done|eauto].
  - simpl. split; [by intros []|]. intros [_ H]. discriminate H.
  - change (Nat.even (length (a :: b :: s))) with (Nat.even (length s)).
    assert (isHexText (a :: b :: s) = true <->
            is_Some (digit_below 16 a) /\ is_Some (digit_below 16 b) /\ isHexText s = true) as Hc.
    { unfold isHexText. simpl. by rewrite !andb_true_iff, !bool_decide_eq_true. }
    rewrite Hc. simpl. destruct (digit_below 16 a) as [x|]; [|split; [by intros []|intros [[[] _] _]; done]].
    destruct (digit_below 16 b) as [y|]; [|split; [by intros []|intros [[_ [[] _]] _]; done]].
    destruct (hex_pairs s) as [r|]; split; intros H.
    + destruct (proj1 IH ltac:(eauto)). split_and!; eauto.
    + eauto.
    + by destruct H.
    + destruct (proj2 IH ltac:(tauto)) as [? ?]. done.
Qed.

Lemma verify_spec (payload : list (string * json)) (signature : text) (key : list Z) :
  hmac_bytes -> verifyReceipt payload signature key = true <->
     hex_pairs signature = Some (hmac key (canonicalJson (JObject payload))).
Proof.
  intros Hb. rename signature into sig. unfold verifyReceipt, signReceipt, fromHex.
    rewrite (hex_pairs_toHex (hmac key (canonicalJson (JObject payload))) (Hb _ _)). generalize (hmac key (canonicalJson (JObject payload))) as mac. intros mac.
    destruct (hex_pairs sig) as [bs|] eqn:E.
    - assert (isHexText sig = true /\ Nat.even (length sig) = true) as [-> ->] by (apply hex_pairs_guard; eauto).
      cbn [negb orb from_option]. unfold id.
      destruct (Nat.eqb_spec (length bs) (length mac)) as [El|El]; cbn [negb].
      + rewrite bool_decide_eq_true. naive_solver.
      + split; [done|]. intros [= ->]. done.
    - split; [|done]. destruct (negb (isHexText sig) || negb (Nat.even (length sig))) eqn:G; [done|].
      apply orb_false_iff in G as [G1%negb_false_iff G2%negb_false_iff].
      assert (is_Some (hex_pairs sig)) as [? ?] by (by apply hex_pairs_guard). congruence.
Qed.

Lemma verify_signed (payload : list (string * json)) (key : list Z) :
  hmac_bytes -> verifyReceipt payload (signReceipt payload key) key = true.
Proof. intros Hb. apply verify_spec; [done|]. unfold signReceipt. apply hex_pairs_toHex, Hb. Qed.

(** Receipt verification is exact and total.  Provided the HMAC yields
    bytes, [verifyReceipt] accepts a signature exactly when it is an
    even-length hexadecimal text (in either case) of the HMAC of the
    payload's canonical form; in particular it accepts what [signReceipt]
    produced and rejects every malformed signature. *)
Theorem verify_exact (payload : list (string * json)) (signature : text) (key : list Z) :
  hmac_bytes ->
  (verifyReceipt payload signature key = true <->
     hex_pairs signature = Some (hmac key (canonicalJson (JObject payload))))
  /\ verifyReceipt payload (signReceipt payload key) key = true.
Proof. intros Hb. split; [by apply verify_spec|by apply verify_signed]. Qed.

End Hmac.

(** ** The canonical form determines the payload *)

Definition unhex (a b : ascii) : option ascii :=
  match digit_below 16 a, digit_below 16 b with
  | Some x, Some y => Some (ascii_of_nat (Z.to_nat (16 * x + y)))
  | _, _ => None
  end.

(** Reads one escaped character back. *)
Definition unescape (l : text) : option (ascii * text) :=
  match l with
  | [] => None
  | c :: l' =>
      if Nat.eqb (nat_of_ascii c) 92 then
        match l' with
        | d :: l'' =>
            let n := nat_of_ascii d in
            if Nat.eqb n 34 then Some (dquote, l'')
            else if Nat.eqb n 92 then Some (backslash, l'')
            else if Nat.eqb n 98 then Some (ascii_of_nat 8, l'')
            else if Nat.eqb n 116 then Some (ascii_of_nat 9, l'')
            else if Nat.eqb n 110 then Some (ascii_of_nat 10, l'')
            else if Nat.eqb n 102 then Some (ascii_of_nat 12, l'')
            else if Nat.eqb n 114 then Some (ascii_of_nat 13, l'')
            else match l'' with
                 | _ :: _ :: a :: b :: r => match unhex a b with Some e => Some (e, r) | None => None end
                 | _ => None
                 end
        | [] => None
        end
      else if Nat.eqb (nat_of_ascii c) 34 then None
      else Some (c, l')
  end.

Lemma unescape_escape c r : unescape (escape c ++ r) = Some (c, r).
Proof. destruct c as [[] [] [] [] [] [] [] []]; reflexivity. Qed.

Lemma escape_prefix c c' r r' : escape c ++ r = escape c' ++ r' -> c = c' /\ r = r'.
Proof.
  intros E. pose proof (unescape_escape c r) as H. rewrite E, unescape_escape in H. by injection H as <- <-.
Qed.

Lemma escape_quote c r r' : escape c ++ r = dquote :: r' -> False.
Proof. intros E. pose proof (unescape_escape c r) as H. rewrite E in H. done. Qed.

(** A quoted string is self-delimiting. *)
Lemma stringify_prefix s s' r r' : stringify s ++ r = stringify s' ++ r' -> s = s' /\ r = r'.
Proof.
  unfold stringify. intros [= E]. rewrite <- !app_assoc in E. simpl in E.
  assert (txt s = txt s' /\ r = r') as [Es Er].
  { revert E. generalize (txt s), (txt s'). intros l. induction l as [|c l IH]; intros [|c' l'] E; simpl in *.
    - by injection E.
    - exfalso. eapply (escape_quote c' (concat (map escape l') ++ dquote :: r')). by rewrite app_assoc, <- E.
    - exfalso. eapply (escape_quote c (concat (map escape l) ++ dquote :: r)). by rewrite app_assoc, E.
    - rewrite <- !app_assoc in E. apply escape_prefix in E as [-> E]. apply IH in E as [-> ->]. done. }
  split; [|done]. rewrite <- (String.string_of_list_ascii_of_string s), <- (String.string_of_list_ascii_of_string s').
  unfold txt in Es. by rewrite Es.
Qed.

Definition member (k v : string) : text := stringify k ++ ":"%char :: stringify v.

Lemma canonical_object fs :
  canonicalJson (JObject fs) =
  "{"%char :: join (map (fun kv => stringify (fst kv) ++ ":"%char :: snd kv)
                 (sort_fields (map (fun kv => (fst kv, canonicalJson (snd kv))) fs))) ++ ["}"%char].
Proof. reflexivity. Qed.

Lemma canonical_payload p :
  canonicalJson (JObject (payload_fields p)) =
  "{"%char :: member "ciphertextHash" (ciphertextHash p) ++ ","%char :: member "lockboxId" (lockboxId p)
  ++ ","%char :: member "sealedAt" (sealedAt p) ++ ","%char :: member "sealerOrgId" (sealerOrgId p)
  ++ ","%char :: member "state" (state p) ++ ["}"%char].
Proof.
  rewrite canonical_object.
  assert (sort_fields (map (fun kv => (fst kv, canonicalJson (snd kv))) (payload_fields p)) =
    [("ciphertextHash"%string, stringify (ciphertextHash p)); ("lockboxId"%string, stringify (lockboxId p));
     ("sealedAt"%string, stringify (sealedAt p)); ("sealerOrgId"%string, stringify (sealerOrgId p));
     ("state"%string, stringify (state p))]) as -> by reflexivity.
  cbn [map join fst snd]. unfold member. do 12 (rewrite <- ?app_assoc; cbn [app]). reflexivity.
Qed.

Lemma member_prefix k v v' r r' : member k v ++ r = member k v' ++ r' -> v = v' /\ r = r'.
Proof.
  unfold member. rewrite <- !app_assoc. intros E%app_inv_head. cbn [app] in E. apply (f_equal (@tail ascii)) in E. cbn [tail] in E.
  by apply stringify_prefix.
Qed.

(** Peels the next separator and member off an equation of canonical texts. *)
Ltac next_member E Ev :=
  apply (f_equal (@tail ascii)) in E; cbn [tail] in E; apply member_prefix in E as [Ev E].

(** The signature covers every field.  The canonical text of a receipt
    determines the receipt, so two different payloads are never signed over
    the same text; and the text does not depend on the order in which the
    payload's members are written. *)
Theorem canonical_form_injective (p p' : LockboxReceiptPayload) :
  (canonicalJson (JObject (payload_fields p)) = canonicalJson (JObject (payload_fields p')) <-> p = p')
  /\ forall fs, fs ≡ₚ payload_fields p -> canonicalJson (JObject fs) = canonicalJson (JObject (payload_fields p)).
Proof.
  split.
  - split; [|by intros ->]. rewrite !canonical_payload. intros E.
    next_member E E1. next_member E E2. next_member E E3. next_member E E4. next_member E E5.
    destruct p, p'. simpl in *. congruence.
  - intros fs Hp. rewrite !canonical_object. do 4 f_equal. unfold sort_fields. apply sort_by_unique; [apply _| |by rewrite Hp].
    assert (NoDup (map (fun kv => fst kv) (map (fun kv : string * json => (kv.1, canonicalJson kv.2)) fs))) as Hnd.
    { rewrite map_map. simpl. rewrite Hp. by apply (bool_decide_eq_true_1 (NoDup (map fst (payload_fields p)))). }
    intros x y Hx Hy E. unfold cmp_on in E. apply string_compare_eq in E.
    clear Hp. induction (map (fun kv : string * json => (kv.1, canonicalJson kv.2)) fs) as [|z l IH]; [set_solver|].
    simpl in Hnd. apply NoDup_cons in Hnd as [Hni Hnd].
    apply elem_of_cons in Hx as [->|Hx], Hy as [->|Hy]; [done| | |by apply IH];
      destruct Hni; apply list_elem_of_fmap; eauto.
Qed.

Definition toy_hmac (k : list Z) (m : text) : list Z :=
  [fold_left (fun acc c => (acc * 31 + Z.of_nat (nat_of_ascii c)) mod 256) m (sumZ k mod 256)].

Lemma toy_hmac_bytes : hmac_bytes toy_hmac.
Proof.
  intros k m. unfold toy_hmac. constructor; [|constructor].
  assert (0 <= sumZ k mod 256 < 256) as H by (apply Z.mod_pos_bound; lia). revert H.
  generalize (sumZ k mod 256). induction m as [|c m IH]; intros z Hz; simpl; [done|].
  apply IH, Z.mod_pos_bound. lia.
Qed.

Definition sample_payload : LockboxReceiptPayload :=
  {| lockboxId := "lb-1"; ciphertextHash := "ab12"; sealerOrgId := "org"; sealedAt := "2026-01-01"; state := "SEALED" |}.

Lemma verify_exact_witness :
  verifyReceipt toy_hmac (payload_fields sample_payload) (signReceipt toy_hmac (payload_fields sample_payload) [1; 2]) [1; 2] = true.
Proof. exact (proj2 (verify_exact toy_hmac (payload_fields sample_payload) [] [1; 2] toy_hmac_bytes)). Defined.
