(* ===== verification/Eligibility.v ===== *)
(** * packages/matching: types.ts, config.ts, eligibility.ts

    The hard rules that decide whether a provider's capacity may be invited
    for an opportunity.  Numbers are binary64, money is an unbounded bigint,
    message texts are not modelled ([code] identifies the branch).  Freezing
    the configuration object has no counterpart: the constants are
    definitions. *)
From S2P Require Import Prelude Lifecycle JsNumber Money DomainStates.
Import Freshness Passport.

Inductive EligibilityRuleFamily : Type :=
| ROLE
| JURISDICTION
| MCC_PRODUCT
| VOLUME_TICKET
| EVIDENCE_LICENSE
| RISK
| SETTLEMENT
| TECHNICAL
| FRESHNESS
| COMPLIANCE_HOLD.

#[global] Instance EligibilityRuleFamily_eq_dec : EqDecision EligibilityRuleFamily.
Proof. solve_decision. Defined.

Definition EligibilityRuleFamily_name (x : EligibilityRuleFamily) : string :=
  match x with
  | ROLE => "ROLE"
  | JURISDICTION => "JURISDICTION"
  | MCC_PRODUCT => "MCC_PRODUCT"
  | VOLUME_TICKET => "VOLUME_TICKET"
  | EVIDENCE_LICENSE => "EVIDENCE_LICENSE"
  | RISK => "RISK"
  | SETTLEMENT => "SETTLEMENT"
  | TECHNICAL => "TECHNICAL"
  | FRESHNESS => "FRESHNESS"
  | COMPLIANCE_HOLD => "COMPLIANCE_HOLD"
  end%string.

Definition ELIGIBILITY_RULE_FAMILIES : list EligibilityRuleFamily := [ROLE; JURISDICTION; MCC_PRODUCT; VOLUME_TICKET; EVIDENCE_LICENSE; RISK; SETTLEMENT; TECHNICAL; FRESHNESS; COMPLIANCE_HOLD].

#[global] Instance EligibilityRuleFamily_enum : StringEnum EligibilityRuleFamily.
Proof.
  refine {| enum_values := ELIGIBILITY_RULE_FAMILIES; enum_name := EligibilityRuleFamily_name |}.
  - solve_enum_complete.
  - solve_enum_inj.
Defined.

Definition isEligibilityRuleFamily (value : string) : bool := includes_name EligibilityRuleFamily value.

Inductive RuleResultStatus : Type :=
| S_PASS
| S_INELIGIBLE
| S_BLOCKED
| S_REFRESH_REQUIRED
| S_UNKNOWN.

#[global] Instance RuleResultStatus_eq_dec : EqDecision RuleResultStatus.
Proof. solve_decision. Defined.

Definition RuleResultStatus_name (x : RuleResultStatus) : string :=
  match x with
  | S_PASS => "PASS"
  | S_INELIGIBLE => "INELIGIBLE"
  | S_BLOCKED => "BLOCKED"
  | S_REFRESH_REQUIRED => "REFRESH_REQUIRED"
  | S_UNKNOWN => "UNKNOWN"
  end%string.

Definition RULE_RESULT_STATUSES : list RuleResultStatus := [S_PASS; S_INELIGIBLE; S_BLOCKED; S_REFRESH_REQUIRED; S_UNKNOWN].

#[global] Instance RuleResultStatus_enum : StringEnum RuleResultStatus.
Proof.
  refine {| enum_values := RULE_RESULT_STATUSES; enum_name := RuleResultStatus_name |}.
  - solve_enum_complete.
  - solve_enum_inj.
Defined.

Definition isRuleResultStatus (value : string) : bool := includes_name RuleResultStatus value.

Record RuleResult : Type := {
  rule : EligibilityRuleFamily;
  code : string;
  status : RuleResultStatus;
  blocking : bool;
  overridable : bool
}.

Record MatchOpportunityInput : Type := {
  o_id : string;
  o_currency : string;
  o_jurisdictions : list string;
  mccs : list string;
  movable30dMinor : Z
}.

Inductive PricingModel : Type := blended | interchange_plus | flat.

Record MatchCommercialTerms : Type := { mdrBps : jsnum; fixedFeeMinor : jsnum; model : PricingModel }.

(** [freshnessClass] is a string at run time: [validateCapacity] guards it. *)
Record MatchCapacityInput : Type := {
  c_id : string;
  c_currency : string;
  c_jurisdictions : list string;
  mccsAccepted : list string;
  mccsExcluded : list string;
  acceptingNewVolume : bool;
  monthlyCapacityMinor : Z;
  minTicketMinor : jsnum;
  maxTicketMinor : jsnum;
  maxChargebackBps : jsnum;
  maxFraudBps : jsnum;
  maxRefundBps : jsnum;
  settlementRail : string;
  settlementCadenceDays : jsnum;
  freshnessClass : string;
  commercialTerms : option MatchCommercialTerms
}.

Record MerchantRiskProfileInput : Type := {
  chargebackBps : option jsnum;
  fraudBps : option jsnum;
  refundBps : option jsnum
}.

Record ComplianceHold : Type := { hold_active : bool; hold_reason : option string }.

(** A [Date] is its time value. *)
Record MatchContext : Type := {
  now : Z;
  providerPassportStatus : option PassportStatus;
  merchantRiskProfile : option MerchantRiskProfileInput;
  averageTicketMinor : option jsnum;
  requiredSettlementRail : option string;
  complianceHold : option ComplianceHold;
  ruleVersion : option string;
  inputVersions : option (list string)
}.

Record EligibilityResult : Type := {
  eligible : bool;
  results : list RuleResult;
  blockers : list RuleResult;
  warnings : list RuleResult;
  e_ruleVersion : string;
  e_inputVersions : list string;
  evaluatedAt : Z
}.

(** ** config.ts *)

Definition MATCHING_ruleVersion : string := "matching-eligibility-v1".

Definition volumeHeadroomRatioBand_min : jsnum := num_of_Z 1.

Definition overridableByCode : list (string * bool) :=
  [("ROLE_ASSUMED_COMPATIBLE", true);
   ("JURISDICTION_UNSPECIFIED", false);
   ("JURISDICTION_NO_OVERLAP", false);
   ("JURISDICTION_OVERLAP_OK", true);
   ("MCC_UNSPECIFIED", false);
   ("MCC_ACCEPTED_LIST_EMPTY", false);
   ("MCC_EXCLUDED", false);
   ("MCC_NOT_ACCEPTED", false);
   ("MCC_COVERED", true);
   ("VOLUME_NOT_ACCEPTING", true);
   ("VOLUME_CURRENCY_MISMATCH", true);
   ("VOLUME_INSUFFICIENT_HEADROOM", true);
   ("VOLUME_HEADROOM_OK", true);
   ("TICKET_SIZE_NOT_SUPPLIED", true);
   ("TICKET_SIZE_OUT_OF_RANGE", true);
   ("TICKET_SIZE_OK", true);
   ("EVIDENCE_LICENSE_NOT_READY", false);
   ("EVIDENCE_LICENSE_UNKNOWN", false);
   ("EVIDENCE_LICENSE_READY", true);
   ("RISK_NO_HISTORY", true);
   ("RISK_CEILING_EXCEEDED", true);
   ("RISK_WITHIN_CEILING", true);
   ("SETTLEMENT_CURRENCY_UNSUPPORTED", true);
   ("SETTLEMENT_RAIL_UNSUPPORTED", true);
   ("SETTLEMENT_OK", true);
   ("TECHNICAL_NOT_EVALUATED", true);
   ("FRESHNESS_STALE", true);
   ("FRESHNESS_UNKNOWN", false);
   ("FRESHNESS_AGING", true);
   ("FRESHNESS_FRESH", true);
   ("COMPLIANCE_HOLD_ACTIVE", false);
   ("COMPLIANCE_HOLD_NONE_KNOWN", true)]%string.

(** [overridableByCode[code] ?? false] *)
Definition overridableFor (code : string) : bool :=
  match find (fun kv => String.eqb (fst kv) code) overridableByCode with
  | Some kv => snd kv
  | None => false
  end.

(** ** eligibility.ts *)

Definition includes (l : list string) (x : string) : bool := existsb (String.eqb x) l.

Definition overlap (a b : list string) : list string := List.filter (includes b) a.

Definition assertFiniteNonNegative (value : jsnum) (fieldName : string) : res unit :=
  do! throw_if (negb (num_isFinite value)) (EligibilityInputError (fieldName +:+ " must be a finite number"));
  throw_if (nlt value nzero) (EligibilityInputError (fieldName +:+ " must be >= 0")).

Definition assertNonNegativeBigInt (value : Z) (fieldName : string) : res unit :=
  throw_if (value <? 0) (EligibilityInputError (fieldName +:+ " must be >= 0")).

(** [Number(numerator) / Number(denominator)]: both operands and the quotient
    are rounded to binary64. *)
Definition bigintRatio (numerator denominator : Z) : jsnum :=
  if denominator =? 0 then (if numerator =? 0 then num_of_Z 1 else S754_infinity false)
  else ndiv (num_of_Z numerator) (num_of_Z denominator).

(** A 3-letter currency: not empty and of length 3. *)
Definition bad_currency (c : string) : bool := String.eqb c "" || negb (Nat.eqb (String.length c) 3).

Definition validateOpportunity (opportunity : MatchOpportunityInput) : res unit :=
  do! throw_if (bad_currency (o_currency opportunity)) (EligibilityInputError "opportunity.currency");
  assertNonNegativeBigInt (movable30dMinor opportunity) "opportunity.movable30dMinor".

Definition isBlank (s : string) : bool :=
  String.eqb s "" || Nat.eqb (length (trim (String.list_ascii_of_string s))) 0.

Definition validateCapacity (capacity : MatchCapacityInput) : res unit :=
  do! throw_if (bad_currency (c_currency capacity)) (EligibilityInputError "capacity.currency");
  do! throw_if (isBlank (settlementRail capacity)) (EligibilityInputError "capacity.settlementRail");
  do! throw_if (negb (isFreshnessClass (freshnessClass capacity))) (EligibilityInputError "capacity.freshnessClass");
  do! assertNonNegativeBigInt (monthlyCapacityMinor capacity) "capacity.monthlyCapacityMinor";
  do! assertFiniteNonNegative (minTicketMinor capacity) "capacity.minTicketMinor";
  do! assertFiniteNonNegative (maxTicketMinor capacity) "capacity.maxTicketMinor";
  do! throw_if (negb (neq (maxTicketMinor capacity) nzero) && nlt (maxTicketMinor capacity) (minTicketMinor capacity))
        (EligibilityInputError "capacity.maxTicketMinor must not be less than capacity.minTicketMinor");
  do! assertFiniteNonNegative (maxChargebackBps capacity) "capacity.maxChargebackBps";
  do! assertFiniteNonNegative (maxFraudBps capacity) "capacity.maxFraudBps";
  do! assertFiniteNonNegative (maxRefundBps capacity) "capacity.maxRefundBps";
  assertFiniteNonNegative (settlementCadenceDays capacity) "capacity.settlementCadenceDays".

Definition pass (r : EligibilityRuleFamily) (c : string) : RuleResult :=
  {| rule := r; code := c; status := S_PASS; blocking := false; overridable := overridableFor c |}.

(** The object literal every non-passing branch returns. *)
Definition finding (r : EligibilityRuleFamily) (c : string) (s : RuleResultStatus) (b : bool) : RuleResult :=
  {| rule := r; code := c; status := s; blocking := b; overridable := overridableFor c |}.

Definition checkRole : RuleResult := pass ROLE "ROLE_ASSUMED_COMPATIBLE".

Definition checkJurisdiction (o : MatchOpportunityInput) (c : MatchCapacityInput) : RuleResult :=
  if Nat.eqb (length (o_jurisdictions o)) 0 || Nat.eqb (length (c_jurisdictions c)) 0
  then finding JURISDICTION "JURISDICTION_UNSPECIFIED" S_UNKNOWN true
  else if Nat.eqb (length (overlap (o_jurisdictions o) (c_jurisdictions c))) 0
  then finding JURISDICTION "JURISDICTION_NO_OVERLAP" S_INELIGIBLE true
  else pass JURISDICTION "JURISDICTION_OVERLAP_OK".

Definition checkMccProduct (o : MatchOpportunityInput) (c : MatchCapacityInput) : RuleResult :=
  if Nat.eqb (length (mccs o)) 0 then finding MCC_PRODUCT "MCC_UNSPECIFIED" S_UNKNOWN true
  else if Nat.eqb (length (mccsAccepted c)) 0 then finding MCC_PRODUCT "MCC_ACCEPTED_LIST_EMPTY" S_UNKNOWN true
  else if Nat.ltb 0 (length (List.filter (includes (mccsExcluded c)) (mccs o)))
  then finding MCC_PRODUCT "MCC_EXCLUDED" S_INELIGIBLE true
  else if Nat.ltb 0 (length (List.filter (fun m => negb (includes (mccsAccepted c) m)) (mccs o)))
  then finding MCC_PRODUCT "MCC_NOT_ACCEPTED" S_INELIGIBLE true
  else pass MCC_PRODUCT "MCC_COVERED".

Definition checkVolume (o : MatchOpportunityInput) (c : MatchCapacityInput) : RuleResult :=
  if negb (acceptingNewVolume c) then finding VOLUME_TICKET "VOLUME_NOT_ACCEPTING" S_INELIGIBLE true
  else if negb (String.eqb (o_currency o) (c_currency c)) then finding VOLUME_TICKET "VOLUME_CURRENCY_MISMATCH" S_UNKNOWN false
  else if nlt (bigintRatio (monthlyCapacityMinor c) (movable30dMinor o)) volumeHeadroomRatioBand_min
  then finding VOLUME_TICKET "VOLUME_INSUFFICIENT_HEADROOM" S_INELIGIBLE true
  else pass VOLUME_TICKET "VOLUME_HEADROOM_OK".

Definition checkTicket (c : MatchCapacityInput) (ctx : MatchContext) : res RuleResult :=
  match averageTicketMinor ctx with
  | None => Ok (finding VOLUME_TICKET "TICKET_SIZE_NOT_SUPPLIED" S_UNKNOWN false)
  | Some t =>
      do! assertFiniteNonNegative t "context.averageTicketMinor";
      let belowMin := nlt t (minTicketMinor c) in
      let aboveMax := nlt nzero (maxTicketMinor c) && nlt (maxTicketMinor c) t in
      Ok (if belowMin || aboveMax then finding VOLUME_TICKET "TICKET_SIZE_OUT_OF_RANGE" S_INELIGIBLE true
          else pass VOLUME_TICKET "TICKET_SIZE_OK")
  end.

Definition checkVolumeTicket (o : MatchOpportunityInput) (c : MatchCapacityInput) (ctx : MatchContext) : res (list RuleResult) :=
  let! t := checkTicket c ctx in Ok [checkVolume o c; t].

Definition checkEvidenceLicense (ctx : MatchContext) : RuleResult :=
  match providerPassportStatus ctx with
  | None => finding EVIDENCE_LICENSE "EVIDENCE_LICENSE_UNKNOWN" S_UNKNOWN true
  | Some READY | Some VERIFIED => pass EVIDENCE_LICENSE "EVIDENCE_LICENSE_READY"
  | Some _ => finding EVIDENCE_LICENSE "EVIDENCE_LICENSE_NOT_READY" S_BLOCKED true
  end.

(** One of the three ceilings: validated when supplied, then compared. *)
Definition checkCeiling (v : option jsnum) (max : jsnum) (fieldName : string) : res bool :=
  match v with
  | None => Ok false
  | Some x => do! assertFiniteNonNegative x fieldName; Ok (nlt max x)
  end.

Definition checkRisk (c : MatchCapacityInput) (ctx : MatchContext) : res RuleResult :=
  match merchantRiskProfile ctx with
  | None | Some {| chargebackBps := None; fraudBps := None; refundBps := None |} =>
      Ok (finding RISK "RISK_NO_HISTORY" S_UNKNOWN false)
  | Some rp =>
      let! b1 := checkCeiling (chargebackBps rp) (maxChargebackBps c) "context.merchantRiskProfile.chargebackBps" in
      let! b2 := checkCeiling (fraudBps rp) (maxFraudBps c) "context.merchantRiskProfile.fraudBps" in
      let! b3 := checkCeiling (refundBps rp) (maxRefundBps c) "context.merchantRiskProfile.refundBps" in
      Ok (if b1 || b2 || b3 then finding RISK "RISK_CEILING_EXCEEDED" S_INELIGIBLE true
          else pass RISK "RISK_WITHIN_CEILING")
  end.

Definition checkSettlement (o : MatchOpportunityInput) (c : MatchCapacityInput) (ctx : MatchContext) : RuleResult :=
  if negb (String.eqb (o_currency o) (c_currency c)) then finding SETTLEMENT "SETTLEMENT_CURRENCY_UNSUPPORTED" S_INELIGIBLE true
  else match requiredSettlementRail ctx with
       | Some rail =>
           if negb (String.eqb rail "") && negb (String.eqb rail (settlementRail c))
           then finding SETTLEMENT "SETTLEMENT_RAIL_UNSUPPORTED" S_INELIGIBLE true
           else pass SETTLEMENT "SETTLEMENT_OK"
       | None => pass SETTLEMENT "SETTLEMENT_OK"
       end.

Definition checkTechnical : RuleResult := finding TECHNICAL "TECHNICAL_NOT_EVALUATED" S_UNKNOWN false.

Definition checkFreshness (c : MatchCapacityInput) : res RuleResult :=
  match enum_parse FreshnessClass (freshnessClass c) with
  | Some FRESH => Ok (pass FRESHNESS "FRESHNESS_FRESH")
  | Some AGING => Ok (finding FRESHNESS "FRESHNESS_AGING" S_REFRESH_REQUIRED false)
  | Some Freshness.STALE => Ok (finding FRESHNESS "FRESHNESS_STALE" S_REFRESH_REQUIRED true)
  | Some Freshness.UNKNOWN => Ok (finding FRESHNESS "FRESHNESS_UNKNOWN" S_REFRESH_REQUIRED true)
  | None => Throw (EligibilityInputError "capacity.freshnessClass")
  end.

Definition checkComplianceHold (ctx : MatchContext) : RuleResult :=
  match complianceHold ctx with
  | Some h => if hold_active h then finding COMPLIANCE_HOLD "COMPLIANCE_HOLD_ACTIVE" S_BLOCKED true
              else pass COMPLIANCE_HOLD "COMPLIANCE_HOLD_NONE_KNOWN"
  | None => pass COMPLIANCE_HOLD "COMPLIANCE_HOLD_NONE_KNOWN"
  end.

Definition isPass (r : RuleResult) : bool := bool_decide (status r = S_PASS).

Definition evaluateEligibility (o : MatchOpportunityInput) (c : MatchCapacityInput) (ctx : MatchContext) : res EligibilityResult :=
  do! validateOpportunity o;
  do! validateCapacity c;
  let! volume := checkVolumeTicket o c ctx in
  let! risk := checkRisk c ctx in
  let! fresh := checkFreshness c in
  let rs := [checkRole; checkJurisdiction o c; checkMccProduct o c] ++ volume
            ++ [checkEvidenceLicense ctx; risk; checkSettlement o c ctx; checkTechnical; fresh; checkComplianceHold ctx] in
  let bs := List.filter (fun r => negb (isPass r) && blocking r) rs in
  let ws := List.filter (fun r => negb (isPass r) && negb (blocking r)) rs in
  Ok {| eligible := Nat.eqb (length bs) 0; results := rs; blockers := bs; warnings := ws;
        e_ruleVersion := default MATCHING_ruleVersion (ruleVersion ctx);
        e_inputVersions := default [] (inputVersions ctx);
        evaluatedAt := now ctx |}.

(** * Properties of the eligibility rules

    [evaluateEligibility] returns exactly on well-formed inputs, declares a
    capacity eligible exactly when every hard rule is met, and reports every
    rule family with the override policy of the configuration. *)
Import Freshness Passport.

(** A finding that stops the match. *)
Definition blocks (r : RuleResult) : bool := negb (isPass r) && blocking r.

Lemma blocks_pass f c : blocks (pass f c) = false.
Proof. done. Qed.

Lemma blocks_finding f c s b : s <> S_PASS -> blocks (finding f c s b) = b.
Proof. intros Hs. unfold blocks, isPass. simpl. by rewrite bool_decide_eq_false_2. Qed.

Lemma includes_true l x : includes l x = true <-> x ∈ l.
Proof.
  unfold includes. rewrite existsb_exists. setoid_rewrite String.eqb_eq. setoid_rewrite <- list_elem_of_In. naive_solver.
Qed.

Lemma filter_nil_iff {A} (f : A -> bool) l : Nat.eqb (length (List.filter f l)) 0 = true <-> forall x, x ∈ l -> f x = false.
Proof.
  induction l as [|y l IH]; simpl; [set_solver|]. setoid_rewrite elem_of_cons. destruct (f y) eqn:E; simpl.
  - split; [done|]. intros H. rewrite (H y) in E by auto. done.
  - rewrite IH. naive_solver.
Qed.

Lemma ltb0_eqb n : Nat.ltb 0 n = negb (Nat.eqb n 0).
Proof. by destruct n. Qed.

(** ** What every rule demands *)

Definition jurisdictionOk (o : MatchOpportunityInput) (c : MatchCapacityInput) : Prop :=
  exists j, j ∈ o_jurisdictions o /\ j ∈ c_jurisdictions c.

Definition mccOk (o : MatchOpportunityInput) (c : MatchCapacityInput) : Prop :=
  mccs o <> [] /\ forall m, m ∈ mccs o -> m ∈ mccsAccepted c /\ m ∉ mccsExcluded c.

Definition headroomOk (o : MatchOpportunityInput) (c : MatchCapacityInput) : Prop :=
  nlt (bigintRatio (monthlyCapacityMinor c) (movable30dMinor o)) (num_of_Z 1) = false.

Definition ticketOk (c : MatchCapacityInput) (ctx : MatchContext) : Prop :=
  forall t, averageTicketMinor ctx = Some t ->
    nlt t (minTicketMinor c) = false /\ (nlt nzero (maxTicketMinor c) = true -> nlt (maxTicketMinor c) t = false).

Definition underCeiling (v : option jsnum) (max : jsnum) : Prop := forall x, v = Some x -> nlt max x = false.

Definition riskOk (c : MatchCapacityInput) (ctx : MatchContext) : Prop :=
  forall rp, merchantRiskProfile ctx = Some rp ->
    underCeiling (chargebackBps rp) (maxChargebackBps c) /\ underCeiling (fraudBps rp) (maxFraudBps c)
    /\ underCeiling (refundBps rp) (maxRefundBps c).

Definition railOk (c : MatchCapacityInput) (ctx : MatchContext) : Prop :=
  forall rail, requiredSettlementRail ctx = Some rail -> rail = ""%string \/ rail = settlementRail c.

Definition holdOk (ctx : MatchContext) : Prop := forall h, complianceHold ctx = Some h -> hold_active h = false.

Definition admissible (o : MatchOpportunityInput) (c : MatchCapacityInput) (ctx : MatchContext) : Prop :=
  jurisdictionOk o c /\ mccOk o c /\ acceptingNewVolume c = true /\ o_currency o = c_currency c /\ headroomOk o c
  /\ ticketOk c ctx /\ (providerPassportStatus ctx = Some READY \/ providerPassportStatus ctx = Some VERIFIED)
  /\ riskOk c ctx /\ railOk c ctx
  /\ (freshnessClass c = "FRESH"%string \/ freshnessClass c = "AGING"%string) /\ holdOk ctx.

Lemma jurisdiction_blocks o c : blocks (checkJurisdiction o c) = false <-> jurisdictionOk o c.
Proof.
  unfold checkJurisdiction, jurisdictionOk, overlap.
  destruct (Nat.eqb_spec (length (o_jurisdictions o)) 0) as [E1|E1]; simpl.
  { apply length_zero_iff_nil in E1. rewrite E1. split; [done|set_solver]. }
  destruct (Nat.eqb_spec (length (c_jurisdictions c)) 0) as [E2|E2]; simpl.
  { apply length_zero_iff_nil in E2. rewrite E2. split; [done|set_solver]. }
  destruct (Nat.eqb (length (List.filter (includes (c_jurisdictions c)) (o_jurisdictions o))) 0) eqn:E.
  - split; [done|]. intros (j & H1 & H2%includes_true). rewrite filter_nil_iff in E. rewrite E in H2; done.
  - split; [|done]. intros _.
    destruct (List.filter (includes (c_jurisdictions c)) (o_jurisdictions o)) as [|j l] eqn:El; [done|].
    assert (In j (List.filter (includes (c_jurisdictions c)) (o_jurisdictions o))) as Hj by (rewrite El; by left).
    apply filter_In in Hj as [H1%list_elem_of_In H2%includes_true]. eauto.
Qed.

Lemma mcc_blocks o c : blocks (checkMccProduct o c) = false <-> mccOk o c.
Proof.
  unfold checkMccProduct, mccOk. rewrite !ltb0_eqb.
  destruct (Nat.eqb_spec (length (mccs o)) 0) as [E1|E1]; simpl.
  { apply length_zero_iff_nil in E1. rewrite E1. split; [done|tauto]. }
  assert (mccs o <> []) as Hne by (intros E; by rewrite E in E1).
  destruct (Nat.eqb_spec (length (mccsAccepted c)) 0) as [E2|E2]; simpl.
  { apply length_zero_iff_nil in E2. rewrite E2. split; [done|]. intros [_ H].
    destruct (mccs o) as [|m l]; [done|]. destruct (H m); set_solver. }
  destruct (Nat.eqb (length (List.filter (includes (mccsExcluded c)) (mccs o))) 0) eqn:E3; simpl.
  2: { split; [done|]. intros [_ H]. assert (Nat.eqb (length (List.filter (includes (mccsExcluded c)) (mccs o))) 0 = true); [|congruence].
       apply filter_nil_iff. intros m Hm. destruct (includes (mccsExcluded c) m) eqn:Ei; [|done].
       apply includes_true in Ei. by destruct (H m Hm). }
  rewrite filter_nil_iff in E3.
  destruct (Nat.eqb (length (List.filter (fun m => negb (includes (mccsAccepted c) m)) (mccs o))) 0) eqn:E4; simpl.
  - rewrite filter_nil_iff in E4. split; [|done]. intros _. split; [done|]. intros m Hm.
    specialize (E3 m Hm). specialize (E4 m Hm). apply negb_false_iff in E4. rewrite <- !includes_true, E3, E4. done.
  - split; [done|]. intros [_ H].
    assert (Nat.eqb (length (List.filter (fun m => negb (includes (mccsAccepted c) m)) (mccs o))) 0 = true); [|congruence].
    apply filter_nil_iff. intros m Hm. apply negb_false_iff, includes_true. by apply H.
Qed.

Lemma settlement_blocks o c ctx : blocks (checkSettlement o c ctx) = false <-> o_currency o = c_currency c /\ railOk c ctx.
Proof.
  unfold checkSettlement, railOk. destruct (String.eqb_spec (o_currency o) (c_currency c)) as [E|E]; simpl; [|naive_solver].
  destruct (requiredSettlementRail ctx) as [rail|]; [|naive_solver].
  destruct (String.eqb_spec rail ""), (String.eqb_spec rail (settlementRail c)); simpl; naive_solver.
Qed.

Lemma volume_blocks o c :
  o_currency o = c_currency c ->
  blocks (checkVolume o c) = false <-> acceptingNewVolume c = true /\ headroomOk o c.
Proof.
  intros E. unfold checkVolume, headroomOk, volumeHeadroomRatioBand_min. rewrite E, String.eqb_refl.
  destruct (acceptingNewVolume c); simpl; [|naive_solver].
  destruct (nlt _ _); simpl; naive_solver.
Qed.

Lemma ticket_blocks c ctx r :
  checkTicket c ctx = Ok r -> blocks r = false <-> ticketOk c ctx.
Proof.
  unfold checkTicket, ticketOk. destruct (averageTicketMinor ctx) as [t|]; [|intros [= <-]; naive_solver].
  intros H. inv_ok. destruct (nlt t (minTicketMinor c)) eqn:E1; simpl; [naive_solver congruence|].
  destruct (nlt nzero (maxTicketMinor c)) eqn:E2, (nlt (maxTicketMinor c) t) eqn:E3; simpl; naive_solver congruence.
Qed.

Lemma license_blocks ctx :
  blocks (checkEvidenceLicense ctx) = false <->
  providerPassportStatus ctx = Some READY \/ providerPassportStatus ctx = Some VERIFIED.
Proof. unfold checkEvidenceLicense. destruct (providerPassportStatus ctx) as [[]|]; simpl; naive_solver. Qed.

Lemma ceiling_value v max f b : checkCeiling v max f = Ok b -> b = false <-> underCeiling v max.
Proof.
  unfold checkCeiling, underCeiling. destruct v as [x|]; [|intros [= <-]; naive_solver].
  intros H. inv_ok. naive_solver.
Qed.

Lemma risk_blocks c ctx r : checkRisk c ctx = Ok r -> blocks r = false <-> riskOk c ctx.
Proof.
  unfold checkRisk, riskOk. destruct (merchantRiskProfile ctx) as [rp|]; [|intros [= <-]; naive_solver].
  assert (forall m, (let! b1 := checkCeiling (chargebackBps rp) (maxChargebackBps c) "context.merchantRiskProfile.chargebackBps" in
      let! b2 := checkCeiling (fraudBps rp) (maxFraudBps c) "context.merchantRiskProfile.fraudBps" in
      let! b3 := checkCeiling (refundBps rp) (maxRefundBps c) "context.merchantRiskProfile.refundBps" in
      Ok (if b1 || b2 || b3 then finding RISK "RISK_CEILING_EXCEEDED" S_INELIGIBLE true
          else pass RISK "RISK_WITHIN_CEILING")) = Ok m -> blocks m = false <->
      underCeiling (chargebackBps rp) (maxChargebackBps c) /\ underCeiling (fraudBps rp) (maxFraudBps c)
      /\ underCeiling (refundBps rp) (maxRefundBps c)) as Hgen.
  { intros m H. inv_ok.
    repeat match goal with H : checkCeiling _ _ _ = Ok _ |- _ => apply ceiling_value in H as <- end.
    destruct v, v0, v1; simpl; naive_solver. }
  destruct rp as [[x|] [y|] [z|]]; try (intros H; apply Hgen in H; rewrite H; naive_solver).
  intros [= <-]. unfold underCeiling. naive_solver.
Qed.

Lemma freshness_blocks c r :
  checkFreshness c = Ok r -> blocks r = false <-> freshnessClass c = "FRESH"%string \/ freshnessClass c = "AGING"%string.
Proof.
  unfold checkFreshness. destruct (enum_parse FreshnessClass (freshnessClass c)) as [f|] eqn:E; [|done].
  apply enum_parse_Some in E. rewrite E. destruct f; intros [= <-]; simpl; naive_solver.
Qed.

Lemma hold_blocks ctx : blocks (checkComplianceHold ctx) = false <-> holdOk ctx.
Proof.
  unfold checkComplianceHold, holdOk. destruct (complianceHold ctx) as [h|]; [|naive_solver].
  destruct (hold_active h) eqn:E; simpl; naive_solver congruence.
Qed.

(** The results of one evaluation, in order. *)
Lemma evaluate_inv o c ctx r :
  evaluateEligibility o c ctx = Ok r ->
  exists t k f, checkTicket c ctx = Ok t /\ checkRisk c ctx = Ok k /\ checkFreshness c = Ok f
    /\ results r = [checkRole; checkJurisdiction o c; checkMccProduct o c; checkVolume o c; t; checkEvidenceLicense ctx; k;
                    checkSettlement o c ctx; checkTechnical; f; checkComplianceHold ctx]
    /\ blockers r = List.filter blocks (results r)
    /\ warnings r = List.filter (fun x => negb (isPass x) && negb (blocking x)) (results r)
    /\ eligible r = Nat.eqb (length (blockers r)) 0.
Proof.
  unfold evaluateEligibility, checkVolumeTicket. intros H.
  apply rbind_Ok in H as (? & _ & H). apply rbind_Ok in H as (? & _ & H).
  apply rbind_Ok in H as (vol & Hv & H). apply rbind_Ok in Hv as (t & Ht & [= <-]).
  apply rbind_Ok in H as (k & Hk & H). apply rbind_Ok in H as (f & Hf & [= <-]).
  exists t, k, f. split_and!; done.
Qed.

(** Eligibility is exactly the conjunction of the hard rules.  When the
    evaluation returns, the capacity is eligible if and only if the
    jurisdictions overlap, every requested MCC is accepted and none excluded,
    the provider accepts volume in the opportunity's currency with headroom,
    the ticket size, risk ceilings and settlement rail fit where supplied,
    the provider's passport is READY or VERIFIED, the capacity is FRESH or
    AGING and no compliance hold is active; a missing jurisdiction, MCC list
    or passport status is never treated as a pass. *)
Theorem eligible_exact (o : MatchOpportunityInput) (c : MatchCapacityInput) (ctx : MatchContext) (r : EligibilityResult) :
  evaluateEligibility o c ctx = Ok r -> eligible r = true <-> admissible o c ctx.
Proof.
  intros (t & k & f & Ht & Hk & Hf & Hres & Hb & _ & ->)%evaluate_inv.
  rewrite Hb, filter_nil_iff, Hres. unfold admissible. repeat setoid_rewrite elem_of_cons.
  rewrite <- jurisdiction_blocks, <- mcc_blocks, <- (ticket_blocks _ _ _ Ht), <- license_blocks,
    <- (risk_blocks _ _ _ Hk), <- (freshness_blocks _ _ Hf), <- hold_blocks.
  pose proof (settlement_blocks o c ctx) as Hs. split.
  - intros H. assert (o_currency o = c_currency c /\ railOk c ctx) as [Hc Hr] by (apply Hs, H; tauto).
    pose proof (volume_blocks o c Hc) as Hv. destruct (proj1 Hv ltac:(apply H; tauto)).
    split_and!; try done; apply H; tauto.
  - intros (H1 & H2 & H3 & H4 & H5 & H6 & H7 & H8 & H9 & H10 & H11) x Hx.
    destruct_or? Hx; subst; try done; [apply volume_blocks; done|apply Hs; done|by apply not_elem_of_nil in Hx].
Qed.

(** ** Totality and errors *)

Definition finiteNonNeg (x : jsnum) : Prop := num_isFinite x = true /\ nlt x nzero = false.

Definition optFiniteNonNeg (v : option jsnum) : Prop := forall x, v = Some x -> finiteNonNeg x.

(** The structural conditions on the inputs. *)
Definition wellFormed (o : MatchOpportunityInput) (c : MatchCapacityInput) (ctx : MatchContext) : Prop :=
  String.length (o_currency o) = 3%nat /\ 0 <= movable30dMinor o
  /\ String.length (c_currency c) = 3%nat /\ isBlank (settlementRail c) = false
  /\ (exists f : FreshnessClass, freshnessClass c = FreshnessClass_name f)
  /\ 0 <= monthlyCapacityMinor c /\ finiteNonNeg (minTicketMinor c) /\ finiteNonNeg (maxTicketMinor c)
  /\ (neq (maxTicketMinor c) nzero = true \/ nlt (maxTicketMinor c) (minTicketMinor c) = false)
  /\ finiteNonNeg (maxChargebackBps c) /\ finiteNonNeg (maxFraudBps c) /\ finiteNonNeg (maxRefundBps c)
  /\ finiteNonNeg (settlementCadenceDays c)
  /\ optFiniteNonNeg (averageTicketMinor ctx)
  /\ (forall rp, merchantRiskProfile ctx = Some rp ->
        optFiniteNonNeg (chargebackBps rp) /\ optFiniteNonNeg (fraudBps rp) /\ optFiniteNonNeg (refundBps rp)).

(** A result that is a value or an [EligibilityInputError]. *)
Definition inputGuard {A} (m : res A) (P : Prop) : Prop :=
  (is_ok m = true <-> P) /\ forall e, m = Throw e -> exists w, e = EligibilityInputError w.

Lemma inputGuard_bind {A B} (m : res A) (k : A -> res B) P Q :
  inputGuard m P -> (forall a, m = Ok a -> inputGuard (k a) Q) -> inputGuard (rbind m k) (P /\ Q).
Proof.
  intros [Hm He] Hk. destruct m as [a|e]; simpl.
  - destruct (Hk a eq_refl) as [H1 H2]. split; [|done]. rewrite H1. tauto.
  - split; [|naive_solver]. split; [done|]. intros [Hp _]. apply Hm in Hp. done.
Qed.

Lemma inputGuard_throw_if b w : inputGuard (throw_if b (EligibilityInputError w)) (b = false).
Proof. unfold inputGuard. destruct b; simpl; naive_solver. Qed.

Lemma inputGuard_Ok {A} (a : A) : inputGuard (Ok a) True.
Proof. split; naive_solver. Qed.

Lemma inputGuard_iff {A} (m : res A) P Q : (P <-> Q) -> inputGuard m P -> inputGuard m Q.
Proof. intros H [H1 H2]. split; [by rewrite H1|done]. Qed.

Lemma finite_guard x f : inputGuard (assertFiniteNonNegative x f) (finiteNonNeg x).
Proof.
  unfold assertFiniteNonNegative, finiteNonNeg. eapply inputGuard_iff.
  2: { apply inputGuard_bind; [apply inputGuard_throw_if|intros; apply inputGuard_throw_if]. }
  by rewrite negb_false_iff.
Qed.

Lemma bigint_guard z f : inputGuard (assertNonNegativeBigInt z f) (0 <= z).
Proof. eapply inputGuard_iff; [|apply inputGuard_throw_if]. rewrite Z.ltb_ge. done. Qed.

Lemma currency_guard s w : inputGuard (throw_if (bad_currency s) (EligibilityInputError w)) (String.length s = 3%nat).
Proof.
  eapply inputGuard_iff; [|apply inputGuard_throw_if]. unfold bad_currency.
  rewrite orb_false_iff, negb_false_iff, Nat.eqb_eq, String.eqb_neq. split; [tauto|]. intros E. split; [|done]. by intros ->.
Qed.

Lemma freshness_guard c w :
  inputGuard (throw_if (negb (isFreshnessClass (freshnessClass c))) (EligibilityInputError w))
             (exists f : FreshnessClass, freshnessClass c = FreshnessClass_name f).
Proof.
  eapply inputGuard_iff; [|apply inputGuard_throw_if]. rewrite negb_false_iff. unfold isFreshnessClass.
  by rewrite includes_name_true.
Qed.

#[local] Hint Resolve finite_guard bigint_guard currency_guard freshness_guard inputGuard_throw_if inputGuard_Ok : guards.

Ltac guard_chain := repeat (apply inputGuard_bind; [solve [auto with guards]|intros _ _]); auto with guards.

Lemma opportunity_guard o :
  inputGuard (validateOpportunity o) (String.length (o_currency o) = 3%nat /\ 0 <= movable30dMinor o).
Proof. unfold validateOpportunity. guard_chain. Qed.

Lemma capacity_guard c :
  inputGuard (validateCapacity c)
   (String.length (c_currency c) = 3%nat /\ isBlank (settlementRail c) = false
    /\ (exists f : FreshnessClass, freshnessClass c = FreshnessClass_name f)
    /\ 0 <= monthlyCapacityMinor c /\ finiteNonNeg (minTicketMinor c) /\ finiteNonNeg (maxTicketMinor c)
    /\ (negb (neq (maxTicketMinor c) nzero) && nlt (maxTicketMinor c) (minTicketMinor c) = false)
    /\ finiteNonNeg (maxChargebackBps c) /\ finiteNonNeg (maxFraudBps c) /\ finiteNonNeg (maxRefundBps c)
    /\ finiteNonNeg (settlementCadenceDays c)).
Proof. unfold validateCapacity. guard_chain. Qed.

Lemma ticket_guard c ctx : inputGuard (checkTicket c ctx) (optFiniteNonNeg (averageTicketMinor ctx)).
Proof.
  unfold checkTicket, optFiniteNonNeg. destruct (averageTicketMinor ctx) as [t|].
  - eapply inputGuard_iff; [|guard_chain]. naive_solver.
  - eapply inputGuard_iff; [|guard_chain]. naive_solver.
Qed.

Lemma ceiling_guard v max f : inputGuard (checkCeiling v max f) (optFiniteNonNeg v).
Proof.
  unfold checkCeiling, optFiniteNonNeg. destruct v as [t|].
  - eapply inputGuard_iff; [|guard_chain]. naive_solver.
  - eapply inputGuard_iff; [|guard_chain]. naive_solver.
Qed.

Lemma risk_guard c ctx :
  inputGuard (checkRisk c ctx) (forall rp, merchantRiskProfile ctx = Some rp ->
    optFiniteNonNeg (chargebackBps rp) /\ optFiniteNonNeg (fraudBps rp) /\ optFiniteNonNeg (refundBps rp)).
Proof.
  unfold checkRisk. destruct (merchantRiskProfile ctx) as [rp|].
  2: { eapply inputGuard_iff; [|apply inputGuard_Ok]. naive_solver. }
  destruct rp as [[x|] [y|] [z|]]; cbn [chargebackBps fraudBps refundBps];
    try (eapply inputGuard_iff;
         [|do 3 (apply inputGuard_bind; [apply ceiling_guard|intros ? _]); apply inputGuard_Ok]; naive_solver).
  eapply inputGuard_iff; [|apply inputGuard_Ok]. unfold optFiniteNonNeg. naive_solver.
Qed.

(** The evaluation is total on well-formed inputs and throws only
    EligibilityInputError otherwise: [evaluateEligibility] returns exactly
    when both currencies have three letters, the rail is not blank, the
    freshness class is known, amounts are non-negative and every supplied
    number is finite and non-negative with an ordered ticket range. *)
Theorem eligibility_total (o : MatchOpportunityInput) (c : MatchCapacityInput) (ctx : MatchContext) :
  (is_ok (evaluateEligibility o c ctx) = true <-> wellFormed o c ctx)
  /\ forall e, evaluateEligibility o c ctx = Throw e -> exists w, e = EligibilityInputError w.
Proof.
  enough (inputGuard (evaluateEligibility o c ctx) (wellFormed o c ctx)) as [H1 H2] by done.
  unfold evaluateEligibility. eapply inputGuard_iff.
  2: { apply inputGuard_bind; [apply opportunity_guard|intros _ _].
       apply inputGuard_bind; [apply capacity_guard|intros [] Hc].
       apply inputGuard_bind; [|intros vol _; apply inputGuard_bind; [apply risk_guard|intros k _]].
       - unfold checkVolumeTicket. apply inputGuard_bind; [apply ticket_guard|intros; apply inputGuard_Ok].
       - apply inputGuard_bind; [|intros; apply inputGuard_Ok].
         assert (exists f : FreshnessClass, freshnessClass c = FreshnessClass_name f) as [f Hf].
         { apply capacity_guard. by rewrite Hc. }
         instantiate (1 := True). unfold checkFreshness.
         change (FreshnessClass_name f) with (enum_name f) in Hf. rewrite Hf, enum_parse_name.
         destruct f; apply inputGuard_Ok. }
  unfold wellFormed. rewrite andb_false_iff, negb_false_iff. tauto.
Qed.

(** ** The override policy *)

(** The rule families whose blockers no operator may override. *)
Definition prohibitedFamilies : list EligibilityRuleFamily := [JURISDICTION; MCC_PRODUCT; EVIDENCE_LICENSE; COMPLIANCE_HOLD].

Definition knownCode (c : string) : bool := existsb (fun kv => String.eqb (fst kv) c) overridableByCode.

(** The facts every reported result satisfies. *)
Definition policyOk (r : RuleResult) : bool :=
  knownCode (code r)
  && implb (blocks r) (eqb (overridable r)
       (negb (existsb (fun f => bool_decide (f = rule r)) prohibitedFamilies || String.eqb (code r) "FRESHNESS_UNKNOWN"))).

Lemma policy_all o c ctx t k f :
  checkTicket c ctx = Ok t -> checkRisk c ctx = Ok k -> checkFreshness c = Ok f ->
  Forall (fun r => policyOk r = true)
    [checkRole; checkJurisdiction o c; checkMccProduct o c; checkVolume o c; t; checkEvidenceLicense ctx; k;
     checkSettlement o c ctx; checkTechnical; f; checkComplianceHold ctx]
  /\ map rule [checkRole; checkJurisdiction o c; checkMccProduct o c; checkVolume o c; t; checkEvidenceLicense ctx; k;
     checkSettlement o c ctx; checkTechnical; f; checkComplianceHold ctx]
    = [ROLE; JURISDICTION; MCC_PRODUCT; VOLUME_TICKET; VOLUME_TICKET; EVIDENCE_LICENSE; RISK; SETTLEMENT; TECHNICAL; FRESHNESS;
       COMPLIANCE_HOLD].
Proof.
  intros Ht Hk Hf.
  assert (policyOk t = true /\ rule t = VOLUME_TICKET) as [Pt Rt].
  { unfold checkTicket in Ht. destruct (averageTicketMinor ctx); inv_ok; [|done]. by destruct (_ || _). }
  assert (policyOk k = true /\ rule k = RISK) as [Pk Rk].
  { unfold checkRisk in Hk. destruct (merchantRiskProfile ctx) as [[[x|] [y|] [z|]]|]; inv_ok; try done; by destruct (_ || _). }
  assert (policyOk f = true /\ rule f = FRESHNESS) as [Pf Rf].
  { unfold checkFreshness in Hf. destruct (enum_parse _ _) as [[]|]; inv_ok; done. }
  assert (policyOk (checkJurisdiction o c) = true /\ rule (checkJurisdiction o c) = JURISDICTION) as [Pj Rj]
    by (unfold checkJurisdiction; repeat case_match; done).
  assert (policyOk (checkMccProduct o c) = true /\ rule (checkMccProduct o c) = MCC_PRODUCT) as [Pm Rm]
    by (unfold checkMccProduct; repeat case_match; done).
  assert (policyOk (checkVolume o c) = true /\ rule (checkVolume o c) = VOLUME_TICKET) as [Pv Rv]
    by (unfold checkVolume; repeat case_match; done).
  assert (policyOk (checkEvidenceLicense ctx) = true /\ rule (checkEvidenceLicense ctx) = EVIDENCE_LICENSE) as [Pe Re]
    by (unfold checkEvidenceLicense; repeat case_match; done).
  assert (policyOk (checkSettlement o c ctx) = true /\ rule (checkSettlement o c ctx) = SETTLEMENT) as [Ps Rs]
    by (unfold checkSettlement; repeat case_match; done).
  assert (policyOk (checkComplianceHold ctx) = true /\ rule (checkComplianceHold ctx) = COMPLIANCE_HOLD) as [Pc Rc]
    by (unfold checkComplianceHold; repeat case_match; done).
  split; [repeat (constructor; [done|]); constructor|]. simpl. by rewrite Rj, Rm, Rv, Rt, Re, Rk, Rs, Rf, Rc.
Qed.

(** Every evaluation reports every rule family, in the specified order,
    splits what did not pass into blockers and warnings without losing or
    inventing a result, and follows the override policy: a blocker is
    overridable exactly when it is not a jurisdiction, MCC, evidence/license
    or compliance-hold finding and not an unknown freshness class; every
    code it uses has an explicit entry in the configuration. *)
Theorem eligibility_report (o : MatchOpportunityInput) (c : MatchCapacityInput) (ctx : MatchContext) (r : EligibilityResult) :
  evaluateEligibility o c ctx = Ok r ->
  map rule (results r) = [ROLE; JURISDICTION; MCC_PRODUCT; VOLUME_TICKET; VOLUME_TICKET; EVIDENCE_LICENSE; RISK; SETTLEMENT;
                          TECHNICAL; FRESHNESS; COMPLIANCE_HOLD]
  /\ results r ≡ₚ List.filter isPass (results r) ++ blockers r ++ warnings r
  /\ (forall b, b ∈ blockers r -> status b <> S_PASS /\ blocking b = true
        /\ (overridable b = false <-> rule b ∈ prohibitedFamilies \/ code b = "FRESHNESS_UNKNOWN"%string))
  /\ (forall x, x ∈ results r -> knownCode (code x) = true).
Proof.
  intros (t & k & f & Ht & Hk & Hf & Hres & Hb & Hw & _)%evaluate_inv.
  destruct (policy_all o c ctx t k f Ht Hk Hf) as [Hp Hr]. rewrite <- Hres in Hp, Hr. rewrite Forall_forall in Hp.
  split_and!; [done| | |].
  - rewrite Hb, Hw. clear. induction (results r) as [|x l IH]; simpl; [done|].
    unfold blocks. destruct (isPass x) eqn:E; simpl; [by rewrite <- IH|].
    destruct (blocking x); simpl; rewrite IH at 1; [by rewrite Permutation_middle|].
    by rewrite !app_assoc, <- Permutation_middle.
  - intros b Hin. rewrite Hb in Hin. apply list_elem_of_In, filter_In in Hin as [Hin%list_elem_of_In Hbl].
    specialize (Hp b Hin). unfold policyOk in Hp. rewrite Hbl in Hp. simpl in Hp.
    apply andb_true_iff in Hp as [_ Hp%eqb_prop]. unfold blocks in Hbl. apply andb_true_iff in Hbl as [H1%negb_true_iff H2].
    split; [by apply bool_decide_eq_false in H1|]. split; [done|]. rewrite Hp, negb_false_iff, !orb_true_iff.
    rewrite !bool_decide_eq_true, String.eqb_eq. unfold prohibitedFamilies. rewrite !elem_of_cons, elem_of_nil.
    split; intros; destruct_or?; subst; naive_solver.
  - intros x Hx%Hp. unfold policyOk in Hx. by apply andb_true_iff in Hx as [? _].
Qed.

Definition sample_opportunity : MatchOpportunityInput :=
  {| o_id := "o1"; o_currency := "EUR"; o_jurisdictions := ["DE"; "FR"]%string; mccs := ["5812"]%string; movable30dMinor := 100000 |}.

Definition sample_capacity : MatchCapacityInput :=
  {| c_id := "c1"; c_currency := "EUR"; c_jurisdictions := ["DE"]%string; mccsAccepted := ["5812"; "5999"]%string; mccsExcluded := [];
     acceptingNewVolume := true; monthlyCapacityMinor := 250000; minTicketMinor := num_of_Z 100; maxTicketMinor := num_of_Z 0;
     maxChargebackBps := num_of_Z 100; maxFraudBps := num_of_Z 50; maxRefundBps := num_of_Z 300; settlementRail := "SEPA";
     settlementCadenceDays := num_of_Z 2; freshnessClass := "FRESH"; commercialTerms := None |}.

Definition sample_context : MatchContext :=
  {| now := 1000; providerPassportStatus := Some READY; merchantRiskProfile := None; averageTicketMinor := Some (num_of_Z 5000);
     requiredSettlementRail := None; complianceHold := None; ruleVersion := None; inputVersions := None |}.

Definition sample_result : EligibilityResult :=
  Eval vm_compute in
    match evaluateEligibility sample_opportunity sample_capacity sample_context with
    | Ok r => r
    | Throw _ => {| eligible := false; results := []; blockers := []; warnings := []; e_ruleVersion := ""; e_inputVersions := [];
                    evaluatedAt := 0 |}
    end.

Lemma eligible_exact_witness : admissible sample_opportunity sample_capacity sample_context.
Proof.
  exact (proj1 (eligible_exact sample_opportunity sample_capacity sample_context sample_result
    ltac:(vm_compute; reflexivity)) ltac:(vm_compute; reflexivity)).
Defined.

Lemma eligibility_report_witness : length (results sample_result) = 11%nat.
Proof.
  rewrite <- (length_map rule).
  rewrite (proj1 (eligibility_report sample_opportunity sample_capacity sample_context sample_result ltac:(vm_compute; reflexivity))).
  reflexivity.
Defined.

(** Both amounts are rounded to binary64 before they are divided: a capacity
    one minor unit below the demand passes the headroom rule at 2^53. *)
Example headroom_rounds_at_2_53 :
  bigintRatio (2 ^ 53) (2 ^ 53 + 1) = num_of_Z 1 /\ nlt (bigintRatio (2 ^ 53) (2 ^ 53 + 1)) (num_of_Z 1) = false.
Proof. split; vm_compute; reflexivity. Qed.
