(* ===== verification/MatchScoring.v ===== *)
(** * packages/matching: scoring.ts, ranking.ts

    The nine explainable factors of a match, in binary64 arithmetic, and the
    ranking of the eligible capacities.  The notes that explain a factor in
    words are not modelled. *)
From S2P Require Import Prelude Lifecycle JsNumber StableSort Eligibility.

Inductive RankingFactor : Type :=
| mccProductFit
| geographyLicensingFit
| volumeTicketFit
| riskHistoryFit
| settlementCurrencyFit
| commercialUtility
| technicalLaunchFit
| providerReliabilityFreshness
| outcomeCalibratedLikelihood.

#[global] Instance RankingFactor_eq_dec : EqDecision RankingFactor.
Proof. solve_decision. Defined.

Definition RANKING_FACTORS : list RankingFactor :=
  [mccProductFit; geographyLicensingFit; volumeTicketFit; riskHistoryFit; settlementCurrencyFit; commercialUtility;
   technicalLaunchFit; providerReliabilityFreshness; outcomeCalibratedLikelihood].

Record RankingFactorContribution : Type := {
  factor : RankingFactor;
  score : jsnum;
  weight : jsnum;
  f_contribution : jsnum
}.

Record MatchRankingBreakdown : Type := {
  factors : list RankingFactorContribution;
  m_total : jsnum;
  m_algorithmVersion : string;
  m_inputVersions : list string
}.

Record RankedMatch : Type := {
  capacityId : string;
  m_rank : Z;
  breakdown : MatchRankingBreakdown;
  m_tiedWith : list string
}.

(** ** config.ts *)

Definition MATCHING_algorithmVersion : string := "matching-ranking-v1".

Definition rankingWeights (f : RankingFactor) : jsnum :=
  match f with
  | mccProductFit => num_lit 22 100
  | geographyLicensingFit => num_lit 17 100
  | volumeTicketFit => num_lit 13 100
  | riskHistoryFit => num_lit 13 100
  | settlementCurrencyFit => num_lit 1 10
  | commercialUtility => num_lit 1 10
  | technicalLaunchFit => num_lit 7 100
  | providerReliabilityFreshness => num_lit 5 100
  | outcomeCalibratedLikelihood => num_lit 3 100
  end.

Definition outcomeCalibratedLikelihoodPlaceholder : jsnum := num_of_Z 50.
Definition volumeHeadroomRatioBand_max : jsnum := num_of_Z 5.
Definition settlementCadenceDaysBand_min : jsnum := num_of_Z 1.
Definition settlementCadenceDaysBand_max : jsnum := num_of_Z 10.
Definition commercialUtilityFeeBpsBand_min : jsnum := num_of_Z 80.
Definition commercialUtilityFeeBpsBand_max : jsnum := num_of_Z 450.
Definition mccSpecificityPenaltyPerExtra : jsnum := num_of_Z 2.
Definition mccSpecificityPenaltyCap : jsnum := num_of_Z 20.
Definition technicalLaunchFitNeutralDefault : jsnum := num_of_Z 70.
Definition riskHistoryFitNeutralDefault : jsnum := num_of_Z 50.
Definition neutralFactorDefault : jsnum := num_of_Z 50.

(** ** scoring.ts *)

Definition assertRankingWeightsSumToOne (w : RankingFactor -> jsnum) : res unit :=
  let sum := nadd (nadd (nadd (nadd (nadd (nadd (nadd (nadd (w mccProductFit) (w geographyLicensingFit)) (w volumeTicketFit))
    (w riskHistoryFit)) (w settlementCurrencyFit)) (w commercialUtility)) (w technicalLaunchFit))
    (w providerReliabilityFreshness)) (w outcomeCalibratedLikelihood) in
  throw_if (nlt (num_lit 1 1000000000) (math_abs (nsub sum (num_of_Z 1)))) (ErrorError "MATCHING_CONFIG.rankingWeights must sum to 1").

Definition assertNeutralDefaultsInRange (entries : list (string * jsnum)) : res unit :=
  do! mapM_res (fun e => throw_if (negb (num_isFinite (snd e)) || nlt (snd e) (num_of_Z 0) || nlt (num_of_Z 100) (snd e))
                           (ErrorError (fst e +:+ " must be a finite number in [0, 100]"))) entries;
  Ok tt.

Definition neutralDefaults : list (string * jsnum) :=
  [("outcomeCalibratedLikelihoodPlaceholder", outcomeCalibratedLikelihoodPlaceholder);
   ("technicalLaunchFitNeutralDefault", technicalLaunchFitNeutralDefault);
   ("riskHistoryFitNeutralDefault", riskHistoryFitNeutralDefault);
   ("neutralFactorDefault", neutralFactorDefault)]%string.

Definition clamp0to100 (n : jsnum) : jsnum := math_max (num_of_Z 0) (math_min (num_of_Z 100) n).

Definition normalize (value min max : jsnum) : res jsnum :=
  if neq max min then Throw (RankingInputError "normalization band is degenerate")
  else Ok (clamp0to100 (nmul (ndiv (nsub value min) (nsub max min)) (num_of_Z 100))).

Definition normalizeInvert (value min max : jsnum) : res jsnum :=
  if neq max min then Throw (RankingInputError "normalization band is degenerate")
  else Ok (clamp0to100 (nmul (nsub (num_of_Z 1) (ndiv (nsub value min) (nsub max min))) (num_of_Z 100))).

Definition round1 (n : jsnum) : jsnum := ndiv (math_round (nmul n (num_of_Z 10))) (num_of_Z 10).

(** An array length, as a number. *)
Definition num_length {A} (l : list A) : jsnum := num_of_Z (Z.of_nat (length l)).

Definition overlapCount (a b : list string) : jsnum := num_length (List.filter (includes b) a).

Definition scoreMccProductFit (o : MatchOpportunityInput) (c : MatchCapacityInput) : jsnum :=
  if Nat.eqb (length (mccs o)) 0 then num_of_Z 0
  else
    let matched := overlapCount (mccs o) (mccsAccepted c) in
    let coverage := ndiv matched (num_length (mccs o)) in
    let extras := math_max (num_of_Z 0) (nsub (num_length (mccsAccepted c)) matched) in
    let penalty := math_min mccSpecificityPenaltyCap (nmul extras mccSpecificityPenaltyPerExtra) in
    round1 (clamp0to100 (nsub (nmul coverage (num_of_Z 100)) penalty)).

Definition scoreGeographyLicensingFit (o : MatchOpportunityInput) (c : MatchCapacityInput) : jsnum :=
  if Nat.eqb (length (o_jurisdictions o)) 0 then num_of_Z 0
  else
    let matched := overlapCount (o_jurisdictions o) (c_jurisdictions c) in
    let coverage := ndiv matched (num_length (o_jurisdictions o)) in
    round1 (nmul coverage (num_of_Z 100)).

Definition scoreVolumeTicketFit (o : MatchOpportunityInput) (c : MatchCapacityInput) : res jsnum :=
  if negb (String.eqb (o_currency o) (c_currency c)) then Ok neutralFactorDefault
  else if movable30dMinor o =? 0 then Ok neutralFactorDefault
  else
    let ratio := bigintRatio (monthlyCapacityMinor c) (movable30dMinor o) in
    let! score := (if num_isFinite ratio then normalize ratio volumeHeadroomRatioBand_min volumeHeadroomRatioBand_max
                   else Ok (num_of_Z 100)) in
    Ok (round1 score).

(** One optional utilization: present when the rate is known and its ceiling
    is positive. *)
Definition utilization (rate : option jsnum) (ceiling : jsnum) : list jsnum :=
  match rate with
  | Some r => if nlt (num_of_Z 0) ceiling then [ndiv r ceiling] else []
  | None => []
  end.

Definition utilizations (c : MatchCapacityInput) (ctx : MatchContext) : list jsnum :=
  match merchantRiskProfile ctx with
  | Some rp => utilization (chargebackBps rp) (maxChargebackBps c) ++ utilization (fraudBps rp) (maxFraudBps c)
               ++ utilization (refundBps rp) (maxRefundBps c)
  | None => []
  end.

Definition scoreRiskHistoryFit (c : MatchCapacityInput) (ctx : MatchContext) : jsnum :=
  let us := utilizations c ctx in
  if Nat.eqb (length us) 0 then riskHistoryFitNeutralDefault
  else
    let avgUtilization := ndiv (foldl nadd (num_of_Z 0) us) (num_length us) in
    round1 (clamp0to100 (nmul (nsub (num_of_Z 1) avgUtilization) (num_of_Z 100))).

Definition scoreSettlementCurrencyFit (o : MatchOpportunityInput) (c : MatchCapacityInput) : res jsnum :=
  if negb (String.eqb (o_currency o) (c_currency c)) then Ok (num_of_Z 0)
  else
    let! score := normalizeInvert (settlementCadenceDays c) settlementCadenceDaysBand_min settlementCadenceDaysBand_max in
    Ok (round1 score).

Definition scoreCommercialUtility (c : MatchCapacityInput) : res jsnum :=
  match commercialTerms c with
  | None => Ok neutralFactorDefault
  | Some terms =>
      let! score := normalizeInvert (mdrBps terms) commercialUtilityFeeBpsBand_min commercialUtilityFeeBpsBand_max in
      Ok (round1 score)
  end.

Definition scoreTechnicalLaunchFit : jsnum := technicalLaunchFitNeutralDefault.

Definition scoreByFreshness : list (string * jsnum) :=
  [("FRESH", num_of_Z 100); ("AGING", num_of_Z 60); ("STALE", num_of_Z 20); ("UNKNOWN", num_of_Z 0)]%string.

Definition scoreProviderReliabilityFreshness (c : MatchCapacityInput) : res jsnum :=
  match literal_index scoreByFreshness (freshnessClass c) with
  | Some s => Ok s
  | None => Throw (RankingInputError "capacity.freshnessClass is not recognized")
  end.

Definition scoreOutcomeCalibratedLikelihood : jsnum := outcomeCalibratedLikelihoodPlaceholder.

(** One entry of the [factors] array. *)
Definition contribute (f : RankingFactor) (s : jsnum) : RankingFactorContribution :=
  {| factor := f; score := s; weight := rankingWeights f; f_contribution := round1 (nmul s (rankingWeights f)) |}.

(** [factors.reduce((sum, f) => sum + f.contribution, 0)] *)
Definition scoreSum (fs : list RankingFactorContribution) : jsnum := foldl (fun sum f => nadd sum (f_contribution f)) (num_of_Z 0) fs.

(** The object returned for the nine factors. *)
Definition breakdownOf (fs : list RankingFactorContribution) (versions : option (list string)) : MatchRankingBreakdown :=
  {| factors := fs;
     m_total := round1 (scoreSum fs);
     m_algorithmVersion := MATCHING_algorithmVersion;
     m_inputVersions := default [] versions |}.

Definition scoreMatch (o : MatchOpportunityInput) (c : MatchCapacityInput) (ctx : MatchContext) : res MatchRankingBreakdown :=
  let mcc := scoreMccProductFit o c in
  let geo := scoreGeographyLicensingFit o c in
  let! vol := scoreVolumeTicketFit o c in
  let risk := scoreRiskHistoryFit c ctx in
  let! settle := scoreSettlementCurrencyFit o c in
  let! comm := scoreCommercialUtility c in
  let tech := scoreTechnicalLaunchFit in
  let! fresh := scoreProviderReliabilityFreshness c in
  let outcome := scoreOutcomeCalibratedLikelihood in
  let fs := [contribute mccProductFit mcc; contribute geographyLicensingFit geo; contribute volumeTicketFit vol;
             contribute riskHistoryFit risk; contribute settlementCurrencyFit settle; contribute commercialUtility comm;
             contribute technicalLaunchFit tech; contribute providerReliabilityFreshness fresh;
             contribute outcomeCalibratedLikelihood outcome] in
  Ok (breakdownOf fs (inputVersions ctx)).

(** ** ranking.ts *)

Definition compareMatches (a b : string * MatchRankingBreakdown) : jsnum :=
  if negb (neq (m_total (snd b)) (m_total (snd a))) then nsub (m_total (snd b)) (m_total (snd a))
  else match String.compare (fst a) (fst b) with Lt => num_of_Z (-1) | Gt => num_of_Z 1 | Eq => num_of_Z 0 end.

Definition tiedMatch (entry other : string * MatchRankingBreakdown) : bool :=
  negb (String.eqb (fst other) (fst entry)) && neq (m_total (snd other)) (m_total (snd entry)).

Fixpoint rankMatchEntries (sorted : list (string * MatchRankingBreakdown)) (i : Z) (l : list (string * MatchRankingBreakdown)) : list RankedMatch :=
  match l with
  | [] => []
  | entry :: l' =>
      {| capacityId := fst entry; m_rank := i + 1; breakdown := snd entry;
         m_tiedWith := map fst (List.filter (tiedMatch entry) sorted) |} :: rankMatchEntries sorted (i + 1) l'
  end.

Definition rankMatches (o : MatchOpportunityInput) (eligibleCapacities : list MatchCapacityInput) (ctx : MatchContext) : res (list RankedMatch) :=
  let! scored := mapM_res (fun c => let! b := scoreMatch o c ctx in Ok (c_id c, b)) eligibleCapacities in
  let sorted := sort_by (fun a b => cmp_of_num (compareMatches a b)) scored in
  Ok (rankMatchEntries sorted 0 sorted).

(** * Properties of the match scoring

    Every factor of a match lies in [0, 100] and the total between 6.4 and
    96.4, whatever the inputs the database columns can hold; the ranking
    orders the eligible capacities by total and identifier, independently of
    the order of the input. *)
From S2P Require Import NumOrder.
From Stdlib Require Import Sorted.

Example matching_module_loads :
  assertRankingWeightsSumToOne rankingWeights = Ok tt /\ assertNeutralDefaultsInRange neutralDefaults = Ok tt.
Proof. split; vm_compute; reflexivity. Qed.

Notation hundred := (num_of_Z 100).
Notation columnMax := (num_of_Z (2 ^ 63)).

(** The numbers of a database column: not negative and below 2^63. *)
Definition columnNumber (x : jsnum) : Prop := upto columnMax x.

(** A ceiling column holds an integer: zero, or at least one. *)
Definition ceilingColumn (m : jsnum) : Prop := nlt (num_of_Z 0) m = true -> num_of_Z 1 ⊑ m.

Definition rateColumn (r : option jsnum) : Prop := forall x, r = Some x -> columnNumber x.

(** An array is shorter than 2^32. *)
Definition arrayLength {A} (l : list A) : Prop := Z.of_nat (length l) < 2 ^ 32.

Definition rankable (o : MatchOpportunityInput) (c : MatchCapacityInput) (ctx : MatchContext) : Prop :=
  arrayLength (mccs o) /\ arrayLength (mccsAccepted c) /\ arrayLength (o_jurisdictions o)
  /\ 0 <= movable30dMinor o <= 2 ^ 63 /\ 0 <= monthlyCapacityMinor c <= 2 ^ 63
  /\ columnNumber (settlementCadenceDays c) /\ (forall t, commercialTerms c = Some t -> columnNumber (mdrBps t))
  /\ ceilingColumn (maxChargebackBps c) /\ ceilingColumn (maxFraudBps c) /\ ceilingColumn (maxRefundBps c)
  /\ (forall rp, merchantRiskProfile ctx = Some rp -> rateColumn (chargebackBps rp) /\ rateColumn (fraudBps rp) /\ rateColumn (refundBps rp)).

(** ** The factors *)

Lemma factor_round1_range x : upto hundred x -> upto hundred (round1 x).
Proof. intros H. apply (tenths_range hundred); [done|const_tame|const_le]. Qed.

Lemma clamp_range x : is_double x -> upto hundred (clamp0to100 x).
Proof. apply (clamped_range hundred); [const_tame|const_le]. Qed.

Lemma count_range {A} (l : list A) : arrayLength l -> upto (num_of_Z (2 ^ 32)) (num_length l).
Proof. intros H. apply num_of_Z_upto; [unfold arrayLength in H; lia|lia|const_tame]. Qed.

Lemma overlap_le a b : (length (List.filter (includes b) a) <= length a)%nat.
Proof. apply filter_length_le. Qed.

Lemma overlap_range a b : arrayLength a -> upto (num_of_Z (2 ^ 32)) (overlapCount a b) /\ overlapCount a b ⊑ num_length a.
Proof.
  intros H. pose proof (overlap_le a b). unfold arrayLength in H. split.
  - apply num_of_Z_upto; [lia|lia|const_tame].
  - apply num_of_Z_le; lia.
Qed.

Lemma nonempty_length {A} (l : list A) : arrayLength l -> length l <> 0%nat -> num_of_Z 1 ⊑ num_length l.
Proof. intros H Hl. unfold arrayLength in H. apply num_of_Z_le; lia. Qed.

(** The share of a list that is covered. *)
Lemma coverage_range a b : arrayLength a -> length a <> 0%nat -> upto (num_of_Z 1) (ndiv (overlapCount a b) (num_length a)).
Proof.
  intros H Ha. destruct (overlap_range a b H) as [(_ & H0 & _) H1]. pose proof (nonempty_length a H Ha) as H2.
  split; [const_tame|]. split; [by apply ndiv_shrink|].
  eapply num_le_trans; [by apply (ndiv_le _ _ _ H2 H1)|]. destruct (ndiv_self _ H2) as [E D].
  split; [done|split; [const_double|]]. rewrite E. vm_compute. discriminate.
Qed.

Lemma coverage_percent a b : arrayLength a -> length a <> 0%nat -> upto hundred (nmul (ndiv (overlapCount a b) (num_length a)) hundred).
Proof. intros H Ha. eapply upto_mul; [by apply coverage_range|const_tame|const_le|const_tame|const_le]. Qed.

Lemma zero_upto : upto hundred (num_of_Z 0).
Proof. split; [const_tame|split; const_le]. Qed.

Lemma fifty_upto : upto hundred (num_of_Z 50).
Proof. split; [const_tame|split; const_le]. Qed.

#[local] Hint Resolve zero_upto fifty_upto : core.

Lemma mcc_range o c : arrayLength (mccs o) -> arrayLength (mccsAccepted c) -> upto hundred (scoreMccProductFit o c).
Proof.
  intros Ho Hc. unfold scoreMccProductFit. destruct (Nat.eqb_spec (length (mccs o)) 0) as [|Hn]; [done|].
  pose proof (upto_tame _ _ (coverage_percent (mccs o) (mccsAccepted c) Ho Hn)) as Tcov.
  destruct (overlap_range (mccs o) (mccsAccepted c) Ho) as [Hm _]. pose proof (count_range _ Hc) as Hl.
  set (matched := overlapCount (mccs o) (mccsAccepted c)) in *. set (len := num_length (mccsAccepted c)) in *.
  assert (nsub len matched ⊑ num_of_Z (2 ^ 32)) as Hex.
  { pose proof (upto_tame _ _ Hm). pose proof (upto_tame _ _ Hl). destruct Hm as (_ & M0 & _), Hl as (_ & _ & L1).
    apply (num_le_trans _ (nsub (num_of_Z (2 ^ 32)) nzero)); [|const_le]. apply nsub_le; [done|const_tame|done|const_tame|done|done]. }
  assert (upto (num_of_Z (2 ^ 32)) (math_max (num_of_Z 0) (nsub len matched))) as Hx.
  { destruct (math_max_spec (num_of_Z 0) (nsub len matched) ltac:(const_double) (proj1 (num_le_double _ _ Hex))) as [D E].
    destruct Hex as (_ & _ & Hex). change (num_scaled (num_of_Z 0)) with 0 in E.
    split; [const_tame|split]; (split; [first [done|const_double]|split; [first [done|const_double]|]]).
    - change (num_scaled nzero) with 0. lia.
    - assert (0 <= num_scaled (num_of_Z (2 ^ 32))) by (vm_compute; discriminate). lia. }
  assert (upto (num_of_Z (2 ^ 33)) (nmul (math_max (num_of_Z 0) (nsub len matched)) mccSpecificityPenaltyPerExtra)) as Hp
    by (eapply upto_mul; [exact Hx|const_tame|const_le|const_tame|const_le]).
  pose proof (upto_tame _ _ Hp) as Tp. set (p := nmul _ mccSpecificityPenaltyPerExtra) in *.
  apply factor_round1_range, clamp_range.
  destruct (math_min_spec mccSpecificityPenaltyCap p ltac:(const_double) (proj1 Tp)) as [D E].
  assert (tame (math_min mccSpecificityPenaltyCap p)) as Tm.
  { split; [done|]. destruct Tp as [_ Tp]. assert (tame mccSpecificityPenaltyCap) as [_ Tc] by const_tame. lia. }
  exact (proj1 (num_le_double _ _ (nsub_le _ _ _ _ Tcov Tcov Tm Tm (num_le_refl _ (proj1 Tcov)) (num_le_refl _ D)))).
Qed.

Lemma geo_range o c : arrayLength (o_jurisdictions o) -> upto hundred (scoreGeographyLicensingFit o c).
Proof.
  intros H. unfold scoreGeographyLicensingFit. destruct (Nat.eqb_spec (length (o_jurisdictions o)) 0) as [|Hn]; [done|].
  by apply factor_round1_range, coverage_percent.
Qed.

Lemma ratio_range n d : 0 <= n <= 2 ^ 63 -> 0 < d <= 2 ^ 63 -> upto columnMax (bigintRatio n d).
Proof.
  intros Hn Hd. unfold bigintRatio. destruct (Z.eqb_spec d 0); [lia|].
  assert (upto columnMax (num_of_Z n)) as (Tm & H0 & H1) by (apply num_of_Z_upto; [lia|lia|const_tame]).
  destruct (ndiv_shrink (num_of_Z n) (num_of_Z d) H0) as [L U]; [apply num_of_Z_le; lia|].
  split; [done|split; [done|by eapply num_le_trans]].
Qed.

(** The interval of an expression with constant coefficients. *)
Ltac prop_within := first
  [ apply upto_within; eassumption
  | eapply within_mul; [prop_within|const_tame|const_le|const_tame|const_tame]
  | eapply within_div; [prop_within|const_le|const_tame|const_tame]
  | eapply within_sub_r; [prop_within|const_tame|const_tame|const_tame]
  | eapply within_sub_l; [prop_within|const_tame|const_tame|const_tame] ].

Lemma volume_range o c : 0 <= movable30dMinor o <= 2 ^ 63 -> 0 <= monthlyCapacityMinor c <= 2 ^ 63 ->
  exists s, scoreVolumeTicketFit o c = Ok s /\ upto hundred s.
Proof.
  intros Ho Hc. unfold scoreVolumeTicketFit. destruct (String.eqb _ _); simpl negb; [|by eexists].
  destruct (Z.eqb_spec (movable30dMinor o) 0); [by eexists|].
  pose proof (ratio_range (monthlyCapacityMinor c) (movable30dMinor o) Hc ltac:(lia)) as Hr.
  set (r := bigintRatio _ _) in *. assert (num_isFinite r = true) as -> by apply (proj1 (upto_tame _ _ Hr)).
  eexists. split; [reflexivity|]. apply factor_round1_range, clamp_range.
  eapply proj1, within_tame. prop_within.
Qed.

Lemma settlement_range o c : columnNumber (settlementCadenceDays c) ->
  exists s, scoreSettlementCurrencyFit o c = Ok s /\ upto hundred s.
Proof.
  intros Hd. unfold scoreSettlementCurrencyFit. destruct (String.eqb _ _); simpl negb; [|by eexists].
  eexists. split; [reflexivity|]. apply factor_round1_range, clamp_range. eapply proj1, within_tame. prop_within.
Qed.

Lemma commercial_range c : (forall t, commercialTerms c = Some t -> columnNumber (mdrBps t)) ->
  exists s, scoreCommercialUtility c = Ok s /\ upto hundred s.
Proof.
  intros H. unfold scoreCommercialUtility. destruct (commercialTerms c) as [t|]; [|by eexists].
  specialize (H t eq_refl). eexists. split; [reflexivity|]. apply factor_round1_range, clamp_range. eapply proj1, within_tame. prop_within.
Qed.

Lemma utilization_range r m : rateColumn r -> ceilingColumn m -> Forall columnNumber (utilization r m) /\ (length (utilization r m) <= 1)%nat.
Proof.
  intros Hr Hm. unfold utilization. destruct r as [x|]; [|split; [apply Forall_nil_2|simpl; lia]].
  destruct (nlt (num_of_Z 0) m) eqn:E; [|split; [apply Forall_nil_2|simpl; lia]].
  split; [|simpl; lia]. apply Forall_cons_2; [|apply Forall_nil_2]. destruct (Hr x eq_refl) as (Tm & H0 & H1).
  destruct (ndiv_shrink x m H0 (Hm E)) as [L U]. split; [done|split; [done|by eapply num_le_trans]].
Qed.

(** A sum of at most three column numbers. *)
Lemma utilization_sum_range us : Forall columnNumber us -> (length us <= 3)%nat -> upto (num_of_Z (2 ^ 65)) (foldl nadd (num_of_Z 0) us).
Proof.
  intros H Hl. assert (upto nzero (num_of_Z 0)) as H0 by (split; [apply zero_tame|split; const_le]).
  destruct us as [|x [|y [|z [|w us]]]]; cbn [length foldl] in *; [| | | |lia]; rewrite ?Forall_cons in H.
  - split; [const_tame|split; const_le].
  - destruct H as (Hx & _). eapply upto_add; [exact H0|exact Hx|const_tame|const_le].
  - destruct H as (Hx & Hy & _). eapply upto_add; [eapply (upto_add _ _ columnMax); [exact H0|exact Hx|const_tame|const_le]|exact Hy|const_tame|const_le].
  - destruct H as (Hx & Hy & Hz & _). eapply upto_add; [|exact Hz|const_tame|].
    + eapply (upto_add _ _ (num_of_Z (2 ^ 64))); [eapply (upto_add _ _ columnMax); [exact H0|exact Hx|const_tame|const_le]|exact Hy|const_tame|const_le].
    + const_le.
Qed.

Lemma risk_range o c ctx : rankable o c ctx -> upto hundred (scoreRiskHistoryFit c ctx).
Proof.
  intros (_ & _ & _ & _ & _ & _ & _ & C1 & C2 & C3 & Hrp). unfold scoreRiskHistoryFit.
  destruct (Nat.eqb_spec (length (utilizations c ctx)) 0) as [|Hn]; [done|].
  assert (Forall columnNumber (utilizations c ctx) /\ (length (utilizations c ctx) <= 3)%nat) as [Hu Hl].
  { unfold utilizations. destruct (merchantRiskProfile ctx) as [rp|]; [|split; [apply Forall_nil_2|simpl; lia]].
    destruct (Hrp rp eq_refl) as (R1 & R2 & R3).
    destruct (utilization_range _ _ R1 C1), (utilization_range _ _ R2 C2), (utilization_range _ _ R3 C3).
    rewrite !Forall_app, !length_app. split; [done|lia]. }
  pose proof (utilization_sum_range _ Hu Hl) as (Ts & S0 & S1).
  assert (num_of_Z 1 ⊑ num_length (utilizations c ctx)) as H1 by (apply nonempty_length; [unfold arrayLength; lia|done]).
  destruct (ndiv_shrink _ _ S0 H1) as [L U]. set (avg := ndiv _ _) in *.
  assert (upto (num_of_Z (2 ^ 65)) avg) as Ha by (split; [done|split; [done|by eapply num_le_trans]]).
  apply factor_round1_range, clamp_range. eapply proj1, within_tame. prop_within.
Qed.

(** The freshness score is that of the class, or the input is rejected. *)
Lemma freshness_score c : freshnessClass c ∈ map fst scoreByFreshness ->
  exists s, scoreProviderReliabilityFreshness c = Ok s /\ upto hundred s.
Proof.
  unfold scoreProviderReliabilityFreshness. intros H. simpl in H.
  repeat (apply elem_of_cons in H as [->|H]; [eexists; split; [reflexivity|split; [const_tame|split; const_le]]|]).
  by apply elem_of_nil in H.
Qed.

Lemma freshness_rejected c : freshnessClass c ∉ map fst scoreByFreshness -> freshnessClass c ∉ Object_prototype_names ->
  exists w, scoreProviderReliabilityFreshness c = Throw (RankingInputError w).
Proof.
  intros H Hp. unfold scoreProviderReliabilityFreshness, literal_index.
  destruct (find _ scoreByFreshness) as [kv|] eqn:E.
  { exfalso. apply find_some in E as [Hin Heq]. apply String.eqb_eq in Heq. apply H. rewrite Heq.
    apply list_elem_of_In, in_map, Hin. }
  destruct (existsb _ _) eqn:Ex; [|by eexists]. exfalso. apply Hp.
  apply existsb_exists in Ex as (x & Hx & Hxe). apply String.eqb_eq in Hxe as ->. by apply list_elem_of_In.
Qed.

(** ** The total *)

(** The least and the greatest contribution of each factor. *)
Lemma contribution_range f s : upto hundred s -> within nzero (round1 (nmul hundred (rankingWeights f))) (f_contribution (contribute f s)).
Proof.
  intros H. apply upto_within in H.
  assert (within (nmul nzero (rankingWeights f)) (nmul hundred (rankingWeights f)) (nmul s (rankingWeights f))) as Hm
    by (apply within_mul; [exact H|destruct f; const_tame|destruct f; const_le|destruct f; const_tame|destruct f; const_tame]).
  apply within_tenths in Hm; [|destruct f; const_tame|destruct f; const_tame].
  assert (tenths (nmul nzero (rankingWeights f)) = nzero) as E by (destruct f; vm_compute; reflexivity).
  rewrite E in Hm. exact Hm.
Qed.

Lemma tech_upto : upto hundred scoreTechnicalLaunchFit.
Proof. split; [const_tame|split; const_le]. Qed.

Lemma outcome_upto : upto hundred scoreOutcomeCalibratedLikelihood.
Proof. split; [const_tame|split; const_le]. Qed.

(** A well-formed entry of the explanation: a score in [0, 100], the weight
    of the table, and the weighted score rounded to one decimal. *)
Definition factorOk (f : RankingFactorContribution) : Prop :=
  upto hundred (score f) /\ weight f = rankingWeights (factor f) /\ f_contribution f = round1 (nmul (score f) (weight f)).

Lemma contribute_ok f s : upto hundred s -> factorOk (contribute f s).
Proof. intros H. unfold factorOk, contribute. cbn [score weight factor f_contribution]. split; [exact H|split; reflexivity]. Qed.

(** The greatest contribution of a factor, as the table gives it. *)
Definition topContribution (f : RankingFactor) : jsnum :=
  match f with
  | mccProductFit => num_of_Z 22
  | geographyLicensingFit => num_of_Z 17
  | volumeTicketFit | riskHistoryFit => num_of_Z 13
  | settlementCurrencyFit | commercialUtility => num_of_Z 10
  | technicalLaunchFit => num_of_Z 7
  | providerReliabilityFreshness => num_of_Z 5
  | outcomeCalibratedLikelihood => num_of_Z 3
  end.

Lemma contribution_top f s : upto hundred s -> within nzero (topContribution f) (f_contribution (contribute f s)).
Proof.
  intros H. destruct (contribution_range f s H) as (T0 & _ & L & U). split; [done|]. split; [destruct f; const_tame|].
  split; [done|]. eapply num_le_trans; [exact U|]. destruct f; const_le.
Qed.

(** The sum of nine contributions, interval by interval. *)
Lemma sum_within x1 x2 x3 x4 x5 x6 x7 x8 x9 :
  within nzero (num_of_Z 22) x1 -> within nzero (num_of_Z 17) x2 -> within nzero (num_of_Z 13) x3 -> within nzero (num_of_Z 13) x4 ->
  within nzero (num_of_Z 10) x5 -> within nzero (num_of_Z 10) x6 -> within (num_lit 49 10) (num_lit 49 10) x7 ->
  within nzero (num_of_Z 5) x8 -> within (num_lit 15 10) (num_lit 15 10) x9 ->
  exists a b, num_lit 64 10 ⊑ a /\ b ⊑ num_lit 964 10
    /\ within a b (tenths (nadd (nadd (nadd (nadd (nadd (nadd (nadd (nadd (nadd (num_of_Z 0) x1) x2) x3) x4) x5) x6) x7) x8) x9)).
Proof.
  intros H1 H2 H3 H4 H5 H6 H7 H8 H9.
  assert (within (num_of_Z 0) (num_of_Z 0) (num_of_Z 0)) as H0 by (apply within_const; const_tame).
  pose proof (within_add _ _ _ _ _ _ H0 H1 ltac:(const_tame) ltac:(const_tame)) as S1.
  pose proof (within_add _ _ _ _ _ _ S1 H2 ltac:(const_tame) ltac:(const_tame)) as S2.
  pose proof (within_add _ _ _ _ _ _ S2 H3 ltac:(const_tame) ltac:(const_tame)) as S3.
  pose proof (within_add _ _ _ _ _ _ S3 H4 ltac:(const_tame) ltac:(const_tame)) as S4.
  pose proof (within_add _ _ _ _ _ _ S4 H5 ltac:(const_tame) ltac:(const_tame)) as S5.
  pose proof (within_add _ _ _ _ _ _ S5 H6 ltac:(const_tame) ltac:(const_tame)) as S6.
  pose proof (within_add _ _ _ _ _ _ S6 H7 ltac:(const_tame) ltac:(const_tame)) as S7.
  pose proof (within_add _ _ _ _ _ _ S7 H8 ltac:(const_tame) ltac:(const_tame)) as S8.
  pose proof (within_add _ _ _ _ _ _ S8 H9 ltac:(const_tame) ltac:(const_tame)) as S9.
  eexists _, _. split; [|split; [|apply (within_tenths _ _ _ S9); const_tame]]; const_le.
Qed.

(** The rounded sum of nine contributions, unfolded. *)
Lemma scoreSum_nine c1 c2 c3 c4 c5 c6 c7 c8 c9 :
  round1 (scoreSum [c1; c2; c3; c4; c5; c6; c7; c8; c9]) =
  tenths (nadd (nadd (nadd (nadd (nadd (nadd (nadd (nadd (nadd (num_of_Z 0) (f_contribution c1)) (f_contribution c2)) (f_contribution c3))
    (f_contribution c4)) (f_contribution c5)) (f_contribution c6)) (f_contribution c7)) (f_contribution c8)) (f_contribution c9)).
Proof. unfold scoreSum, round1, tenths. cbn [foldl]. reflexivity. Qed.

Lemma fixed_contributions :
  within (num_lit 49 10) (num_lit 49 10) (f_contribution (contribute technicalLaunchFit scoreTechnicalLaunchFit))
  /\ within (num_lit 15 10) (num_lit 15 10) (f_contribution (contribute outcomeCalibratedLikelihood scoreOutcomeCalibratedLikelihood)).
Proof. split; (split; [const_tame|split; [const_tame|split; const_le]]). Qed.

Lemma total_range mcc geo vol risk settle comm fresh :
  upto hundred mcc -> upto hundred geo -> upto hundred vol -> upto hundred risk -> upto hundred settle -> upto hundred comm -> upto hundred fresh ->
  exists a b, num_lit 64 10 ⊑ a /\ b ⊑ num_lit 964 10
    /\ within a b (round1 (scoreSum [contribute mccProductFit mcc; contribute geographyLicensingFit geo; contribute volumeTicketFit vol;
             contribute riskHistoryFit risk; contribute settlementCurrencyFit settle; contribute commercialUtility comm;
             contribute technicalLaunchFit scoreTechnicalLaunchFit; contribute providerReliabilityFreshness fresh;
             contribute outcomeCalibratedLikelihood scoreOutcomeCalibratedLikelihood])).
Proof.
  intros Hmcc Hgeo Hvol Hrisk Hset Hcom Hfr. rewrite scoreSum_nine. destruct fixed_contributions as [H7 H9].
  apply (sum_within _ _ _ _ _ _ _ _ _ (contribution_top mccProductFit _ Hmcc) (contribution_top geographyLicensingFit _ Hgeo)
    (contribution_top volumeTicketFit _ Hvol) (contribution_top riskHistoryFit _ Hrisk) (contribution_top settlementCurrencyFit _ Hset)
    (contribution_top commercialUtility _ Hcom) H7 (contribution_top providerReliabilityFreshness _ Hfr) H9).
Qed.

Lemma factors_of fs v : factors (breakdownOf fs v) = fs.
Proof. reflexivity. Qed.

Lemma total_of fs v : m_total (breakdownOf fs v) = round1 (scoreSum fs).
Proof. reflexivity. Qed.

(** A match whose freshness class is known is scored. *)
Lemma match_scored o c ctx : rankable o c ctx -> freshnessClass c ∈ map fst scoreByFreshness ->
  exists b, scoreMatch o c ctx = Ok b
     /\ map factor (factors b) = RANKING_FACTORS /\ Forall factorOk (factors b) /\ m_total b = round1 (scoreSum (factors b))
     /\ num_lit 64 10 ⊑ m_total b /\ m_total b ⊑ num_lit 964 10.
Proof.
  intros Hrankable Hf. pose proof (risk_range o c ctx Hrankable) as Hrisk.
  destruct Hrankable as (Lm & Lc & Lj & Hmov & Hcap & Hdays & Hterms & _).
  pose proof (mcc_range o c Lm Lc) as Hmcc. pose proof (geo_range o c Lj) as Hgeo.
  destruct (volume_range o c Hmov Hcap) as (vol & Evol & Hvol). destruct (settlement_range o c Hdays) as (set & Eset & Hset).
  destruct (commercial_range c Hterms) as (com & Ecom & Hcom). destruct (freshness_score c Hf) as (fr & Efr & Hfr).
  set (mcc := scoreMccProductFit o c) in *. set (geo := scoreGeographyLicensingFit o c) in *. set (risk := scoreRiskHistoryFit c ctx) in *.
  unfold scoreMatch. fold mcc geo risk. rewrite Evol, Eset, Ecom. cbn [rbind]. rewrite Efr. cbn [rbind]. eexists. split; [reflexivity|].
  rewrite total_of, factors_of. split; [reflexivity|]. split; [|split; [reflexivity|]].
  { apply Forall_cons_2; [exact (contribute_ok _ _ Hmcc)|]. apply Forall_cons_2; [exact (contribute_ok _ _ Hgeo)|].
    apply Forall_cons_2; [exact (contribute_ok _ _ Hvol)|]. apply Forall_cons_2; [exact (contribute_ok _ _ Hrisk)|].
    apply Forall_cons_2; [exact (contribute_ok _ _ Hset)|]. apply Forall_cons_2; [exact (contribute_ok _ _ Hcom)|].
    apply Forall_cons_2; [exact (contribute_ok _ _ tech_upto)|]. apply Forall_cons_2; [exact (contribute_ok _ _ Hfr)|].
    apply Forall_cons_2; [exact (contribute_ok _ _ outcome_upto)|]. apply Forall_nil_2. }
  destruct (total_range mcc geo vol risk set com fr Hmcc Hgeo Hvol Hrisk Hset Hcom Hfr) as (lo & hi & Hlo & Hhi & _ & _ & L & U).
  split; [exact (num_le_trans _ _ _ Hlo L)|exact (num_le_trans _ _ _ U Hhi)].
Qed.

Lemma match_rejected o c ctx : rankable o c ctx -> freshnessClass c ∉ map fst scoreByFreshness -> freshnessClass c ∉ Object_prototype_names ->
  exists w, scoreMatch o c ctx = Throw (RankingInputError w).
Proof.
  intros (_ & _ & _ & Hmov & Hcap & Hdays & Hterms & _) Hf Hown.
  destruct (volume_range o c Hmov Hcap) as (vol & Evol & _). destruct (settlement_range o c Hdays) as (set & Eset & _).
  destruct (commercial_range c Hterms) as (com & Ecom & _). destruct (freshness_rejected c Hf Hown) as [w Ew].
  exists w. unfold scoreMatch. rewrite Evol, Eset, Ecom. cbn [rbind]. by rewrite Ew.
Qed.

(** C40: on the values the database columns can hold, a match is scored
    exactly when the freshness class is known (otherwise the engine throws
    its input error); the nine factors appear in the order of the table with
    their weights, every score is in [0, 100], every contribution is the
    weighted score rounded to one decimal, and the total is the rounded sum
    and lies between 6.4 and 96.4. *)
Theorem match_score_exact (o : MatchOpportunityInput) (c : MatchCapacityInput) (ctx : MatchContext)
  (Hrankable : rankable o c ctx) (Hown : freshnessClass c ∉ Object_prototype_names) :
  (freshnessClass c ∈ map fst scoreByFreshness /\ exists b, scoreMatch o c ctx = Ok b
     /\ map factor (factors b) = RANKING_FACTORS
     /\ Forall factorOk (factors b)
     /\ m_total b = round1 (scoreSum (factors b))
     /\ num_lit 64 10 ⊑ m_total b /\ m_total b ⊑ num_lit 964 10)
  \/ (freshnessClass c ∉ map fst scoreByFreshness /\ exists w, scoreMatch o c ctx = Throw (RankingInputError w)).
Proof.
  destruct (decide (freshnessClass c ∈ map fst scoreByFreshness)) as [Hf|Hf]; [left|right]; (split; [done|]).
  - by apply match_scored.
  - by apply match_rejected.
Qed.

(** ** A concrete match *)

Definition sample_match_opportunity : MatchOpportunityInput :=
  {| o_id := "o"; o_currency := "EUR"; o_jurisdictions := ["DE"; "FR"]; mccs := ["5411"]; movable30dMinor := 1000000 |}%string.

Definition sample_match_capacity (id : string) : MatchCapacityInput :=
  {| c_id := id; c_currency := "EUR"; c_jurisdictions := ["DE"]; mccsAccepted := ["5411"; "5812"]; mccsExcluded := [];
     acceptingNewVolume := true; monthlyCapacityMinor := 3000000; minTicketMinor := num_of_Z 0; maxTicketMinor := num_of_Z 50000;
     maxChargebackBps := num_of_Z 100; maxFraudBps := num_of_Z 50; maxRefundBps := num_of_Z 0; settlementRail := "SEPA";
     settlementCadenceDays := num_of_Z 2; freshnessClass := "FRESH";
     commercialTerms := Some {| mdrBps := num_of_Z 150; fixedFeeMinor := num_of_Z 10; model := blended |} |}%string.

Definition sample_match_context : MatchContext :=
  {| now := 0; providerPassportStatus := None;
     merchantRiskProfile := Some {| chargebackBps := Some (num_of_Z 40); fraudBps := None; refundBps := Some (num_of_Z 5) |};
     averageTicketMinor := None; requiredSettlementRail := None; complianceHold := None; ruleVersion := None; inputVersions := None |}.

Lemma sample_rankable id : rankable sample_match_opportunity (sample_match_capacity id) sample_match_context.
Proof.
  assert (forall z, 0 <= z <= 2 ^ 63 -> columnNumber (num_of_Z z)) as Hn by (intros; apply num_of_Z_upto; [done|lia|const_tame]).
  unfold rankable. cbn -[num_of_Z Z.pow columnNumber].
  split; [by vm_compute|]. split; [by vm_compute|]. split; [by vm_compute|]. split; [lia|]. split; [lia|].
  split; [change (columnNumber (num_of_Z 2)); apply Hn; lia|].
  split; [intros t [= <-]; change (columnNumber (num_of_Z 150)); apply Hn; lia|]. split; [intros _; const_le|]. split; [intros _; const_le|].
  split; [intros H; vm_compute in H; discriminate H|].
  intros rp [= <-]. unfold rateColumn. cbn -[num_of_Z Z.pow columnNumber].
  split; [intros x [= <-]; change (columnNumber (num_of_Z 40)); apply Hn; lia|].
  split; [intros x [=]|]. intros x [= <-]. change (columnNumber (num_of_Z 5)). apply Hn. lia.
Qed.

Lemma match_score_exact_witness : exists b, scoreMatch sample_match_opportunity (sample_match_capacity "a") sample_match_context = Ok b
  /\ num_lit 64 10 ⊑ m_total b.
Proof.
  destruct (match_score_exact sample_match_opportunity (sample_match_capacity "a") sample_match_context (sample_rankable "a"))
    as [(_ & b & E & _ & _ & _ & L & _)|(Hn & _)].
  - apply (bool_decide_eq_true_1 _). vm_compute. reflexivity.
  - exists b. split; [exact E|exact L].
  - exfalso. apply Hn. apply (bool_decide_eq_true_1 _). vm_compute. reflexivity.
Defined.

(** * The ranking of eligible capacities

    [rankMatches] ranks exactly the capacities it is given, by total score
    and then by identifier, whatever the order in which they are given. *)

Notation entry := (string * MatchRankingBreakdown)%type.

Definition matchTotal (e : entry) : Z := num_scaled (m_total (snd e)).

(** The specified order: higher total, then identifier. *)
Definition matchOrder : entry -> entry -> comparison :=
  cmp_lex (cmp_desc (cmp_on matchTotal Z.compare)) (cmp_on fst String.compare).

#[local] Instance matchOrder_order : CmpOrder matchOrder.
Proof. unfold matchOrder. apply _. Qed.

(** A scored capacity: its total is far from the ends of the range. *)
Definition scoredEntry (e : entry) : Prop := tame (m_total (snd e)).

Lemma compareMatches_order a b : scoredEntry a -> scoredEntry b -> cmp_of_num (compareMatches a b) = matchOrder a b.
Proof.
  intros Ta Tb. unfold scoredEntry, compareMatches, matchOrder, cmp_lex, cmp_desc, cmp_on, matchTotal, cmp_then in *.
  destruct (neq (m_total (snd b)) (m_total (snd a))) eqn:E; cbn [negb].
  - apply (neq_true _ _ (proj1 Tb) (proj1 Ta)) in E. rewrite E, Z.compare_refl. by destruct (String.compare (fst a) (fst b)).
  - pose proof (neq_false_cmp _ _ Tb Ta E) as Hne. destruct (cmp_nsub _ _ Tb Ta) as [_ Ec]. rewrite <- Ec.
    by destruct (cmp_of_num (nsub (m_total (snd b)) (m_total (snd a)))).
Qed.

Definition sortedMatches (l : list entry) : list entry := sort_by (fun a b => cmp_of_num (compareMatches a b)) l.

Lemma sortedMatches_order l : Forall scoredEntry l -> sortedMatches l = sort_by matchOrder l.
Proof. intros H. rewrite Forall_forall in H. apply sort_by_ext. intros. apply compareMatches_order; auto. Qed.

Lemma sortedMatches_unique l1 l2 : Forall scoredEntry l1 -> NoDup (map fst l1) -> l1 ≡ₚ l2 -> sortedMatches l1 = sortedMatches l2.
Proof.
  intros Hs Hnd Hc. rewrite !sortedMatches_order by (done || by rewrite <- Hc).
  apply (sort_by_unique matchOrder); [|done]. intros x y Hx Hy E. apply (NoDup_map_inj fst l1); [done|done|done|].
  unfold matchOrder, cmp_lex, cmp_desc, cmp_on, cmp_then in E.
  destruct (matchTotal y ?= matchTotal x); try discriminate E. by apply string_compare_eq.
Qed.

Lemma rankMatchEntries_lookup srt l i k : rankMatchEntries srt i l !! k =
  (fun e => {| capacityId := fst e; m_rank := i + Z.of_nat k + 1; breakdown := snd e;
               m_tiedWith := map fst (List.filter (tiedMatch e) srt) |}) <$> (l !! k).
Proof.
  revert i k. induction l as [|e l IH]; intros i [|k]; simpl; try done.
  - do 2 f_equal. lia.
  - rewrite IH. destruct (l !! k); simpl; [|done]. do 2 f_equal. lia.
Qed.

Lemma rankMatchEntries_length srt l i : length (rankMatchEntries srt i l) = length l.
Proof. revert i. induction l as [|e l IH]; intros i; simpl; [done|]. by rewrite IH. Qed.

Lemma tied_match_iff srt e id : e ∈ srt -> Forall scoredEntry srt ->
  id ∈ map fst (List.filter (tiedMatch e) srt) <-> exists o, o ∈ srt /\ fst o = id /\ id <> fst e /\ matchTotal o = matchTotal e.
Proof.
  intros He Hs. rewrite Forall_forall in Hs.
  assert (forall o, o ∈ srt -> tiedMatch e o = true <-> fst o <> fst e /\ matchTotal o = matchTotal e) as Ht.
  { intros o Ho. unfold tiedMatch. rewrite andb_true_iff, negb_true_iff, String.eqb_neq.
    by rewrite (neq_true _ _ (proj1 (Hs _ Ho)) (proj1 (Hs _ He))). }
  rewrite list_elem_of_In, in_map_iff. setoid_rewrite filter_In. setoid_rewrite <- list_elem_of_In. split.
  - intros (o & <- & Ho & E). apply Ht in E as (? & ?); [|done]. by exists o.
  - intros (o & Ho & <- & ? & ?). exists o. split; [done|]. split; [done|]. by apply Ht.
Qed.

(** ** Scoring the candidates *)

Section Candidates.
Context (o : MatchOpportunityInput) (ctx : MatchContext).

(** What the eligibility step guarantees about a candidate, with the ranges
    of the database columns. *)
Definition candidate (c : MatchCapacityInput) : Prop := rankable o c ctx /\ freshnessClass c ∈ map fst scoreByFreshness.

Definition scoredBy (c : MatchCapacityInput) (e : entry) : Prop := fst e = c_id c /\ scoreMatch o c ctx = Ok (snd e).

Lemma candidate_scored c : candidate c -> exists b, scoreMatch o c ctx = Ok b /\ tame (m_total b).
Proof.
  intros [Hr Hf]. destruct (match_scored o c ctx Hr Hf) as (b & E & _ & _ & _ & L & U).
  exists b. split; [done|]. by eapply tame_between; [| |exact L|exact U]; const_tame.
Qed.

Lemma candidates_scored cs : Forall candidate cs ->
  exists es, mapM_res (fun c => let! b := scoreMatch o c ctx in Ok (c_id c, b)) cs = Ok es
    /\ Forall2 scoredBy cs es /\ Forall scoredEntry es /\ map fst es = map c_id cs.
Proof.
  induction 1 as [|c cs Hc Hcs IH]; [by exists []|]. destruct (candidate_scored c Hc) as (b & E & T).
  destruct IH as (es & Ees & H2 & Hs & Hids). exists ((c_id c, b) :: es). simpl. rewrite E. simpl. rewrite Ees. simpl.
  split; [done|]. split; [by constructor|]. split; [by constructor|]. by rewrite Hids.
Qed.

(** The scored entries of a permutation are a permutation. *)
Lemma scored_perm cs cs' : cs ≡ₚ cs' -> forall es es', Forall2 scoredBy cs es -> Forall2 scoredBy cs' es' -> es ≡ₚ es'.
Proof.
  assert (forall c e1 e2, scoredBy c e1 -> scoredBy c e2 -> e1 = e2) as Hfun.
  { intros c [i1 b1] [i2 b2] [E1 S1] [E2 S2]. simpl in *. congruence. }
  assert (forall cs es es', Forall2 scoredBy cs es -> Forall2 scoredBy cs es' -> es = es') as Hdet.
  { intros l es es' H. revert es'. induction H as [|c e l es Hc H IH]; intros es' H'; inversion H'; subst; [done|].
    f_equal; [by eapply Hfun|by apply IH]. }
  intros Hp es es' H H'. destruct (Permutation_Forall2 Hp H) as (es2 & Hp2 & H2).
  rewrite Hp2. by rewrite (Hdet _ _ _ H2 H').
Qed.
End Candidates.

(** The capacities that passed the eligibility step are ranked without
    failing, each of them and no other: the entries are a permutation of the
    given capacities, ordered by descending total and then by identifier,
    with consecutive ranks; an entry lists as tied exactly the other
    capacities with the same total; and when the identifiers are distinct
    the ranking does not depend on the order of the input. *)
Theorem rank_matches_exact (o : MatchOpportunityInput) (ctx : MatchContext) (caps : list MatchCapacityInput)
  (Hcand : Forall (candidate o ctx) caps) :
  exists sorted entries,
    rankMatches o caps ctx = Ok entries
    /\ map fst sorted ≡ₚ map c_id caps /\ StronglySorted (cmp_le matchOrder) sorted /\ length entries = length caps
    /\ (forall e, e ∈ sorted -> exists c, c ∈ caps /\ scoredBy o ctx c e)
    /\ (forall k e r, sorted !! k = Some e -> entries !! k = Some r ->
          capacityId r = fst e /\ m_rank r = Z.of_nat k + 1 /\ breakdown r = snd e
          /\ (forall id, id ∈ m_tiedWith r <-> exists e', e' ∈ sorted /\ fst e' = id /\ id <> fst e /\ matchTotal e' = matchTotal e))
    /\ (forall caps', caps' ≡ₚ caps -> NoDup (map c_id caps) -> rankMatches o caps' ctx = Ok entries).
Proof.
  destruct (candidates_scored o ctx caps Hcand) as (es & Ees & H2 & Hs & Hids).
  exists (sortedMatches es), (rankMatchEntries (sortedMatches es) 0 (sortedMatches es)).
  assert (sortedMatches es ≡ₚ es) as Hperm by (rewrite sortedMatches_order by done; apply sort_by_perm).
  split; [unfold rankMatches; by rewrite Ees|]. split; [by rewrite Hperm, Hids|].
  split; [rewrite sortedMatches_order by done; apply (sort_by_sorted matchOrder)|].
  split; [rewrite rankMatchEntries_length, Hperm; symmetry; by eapply Forall2_length|].
  split; [|split].
  - intros e He. rewrite Hperm in He. apply list_elem_of_lookup in He as [k Hk].
    destruct (Forall2_lookup_r _ _ _ _ _ H2 Hk) as (c & Hc & Hsc). exists c. split; [by eapply list_elem_of_lookup_2|done].
  - intros k e r He Hr. rewrite rankMatchEntries_lookup, He in Hr. injection Hr as <-. simpl.
    split; [done|]. split; [lia|]. split; [done|]. intros id. apply tied_match_iff; [by eapply list_elem_of_lookup_2|by rewrite Hperm].
  - intros caps' Hc Hnd. destruct (candidates_scored o ctx caps') as (es' & Ees' & H2' & Hs' & _); [by rewrite Hc|].
    unfold rankMatches. rewrite Ees'. cbn [rbind].
    change (Ok (rankMatchEntries (sortedMatches es') 0 (sortedMatches es')) = Ok (rankMatchEntries (sortedMatches es) 0 (sortedMatches es))).
    rewrite (sortedMatches_unique es' es); [done|done| |by eapply scored_perm].
    assert (es' ≡ₚ es) as -> by (by eapply scored_perm). by rewrite Hids.
Qed.

(** Two identical capacities are tied and ordered by identifier. *)
Lemma rank_matches_exact_witness :
  exists entries, rankMatches sample_match_opportunity [sample_match_capacity "b"; sample_match_capacity "a"] sample_match_context = Ok entries
    /\ rankMatches sample_match_opportunity [sample_match_capacity "a"; sample_match_capacity "b"] sample_match_context = Ok entries.
Proof.
  assert (Forall (candidate sample_match_opportunity sample_match_context) [sample_match_capacity "b"; sample_match_capacity "a"]) as Hc.
  { repeat (apply Forall_cons_2; [split; [apply sample_rankable|apply (bool_decide_eq_true_1 _); vm_compute; reflexivity]|]). apply Forall_nil_2. }
  destruct (rank_matches_exact sample_match_opportunity sample_match_context _ Hc) as (srt & es & E & _ & _ & _ & _ & _ & H).
  exists es. split; [exact E|]. apply H; [apply Permutation_swap|]. apply (bool_decide_eq_true_1 _). vm_compute. reflexivity.
Defined.
