(* ===== verification/Evidence.v ===== *)
(** * packages/evidence: config.ts, freshness.ts, readiness.ts

    Freshness of capacities and facts, and the readiness of a passport.  A
    [Date] is its time value in milliseconds; ages are divided in binary64 as
    the source does. *)
From S2P Require Import Prelude Lifecycle JsNumber DomainStates.
Import Freshness Provenance.

Definition MS_PER_DAY : jsnum := num_of_Z (24 * 60 * 60 * 1000).

(** ** freshness.ts *)

Record Windows : Type := { w_fresh : jsnum; w_aging : jsnum }.

Definition capacityFreshnessWindowDays : Windows := {| w_fresh := num_of_Z 30; w_aging := num_of_Z 90 |}.
Definition factFreshnessWarnWithinDays : jsnum := num_of_Z 30.

Record CapacityFreshnessInput : Type := { asOf : Z; sourceType : string }.

Definition classifyCapacityFreshness (input : CapacityFreshnessInput) (now : Z) (windows : Windows) : FreshnessClass :=
  if negb (String.eqb (sourceType input) "PLATFORM") then UNKNOWN
  else
    let ageMs := nsub (num_of_Z now) (num_of_Z (asOf input)) in
    if nlt ageMs nzero then FRESH
    else
      let ageDays := ndiv ageMs MS_PER_DAY in
      if nle ageDays (w_fresh windows) then FRESH
      else if nle ageDays (w_aging windows) then AGING
      else STALE.

Definition classifyFactFreshness (expiresAt : option Z) (now : Z) (warnWithinDays : jsnum) : FreshnessClass :=
  match expiresAt with
  | None => UNKNOWN
  | Some t =>
      let msUntilExpiry := nsub (num_of_Z t) (num_of_Z now) in
      if nlt msUntilExpiry nzero then STALE
      else if nle (ndiv msUntilExpiry MS_PER_DAY) warnWithinDays then AGING
      else FRESH
  end.

(** ** readiness.ts *)

Record FactSnapshot : Type := {
  fieldKey : string;
  sectionType : PassportSectionType;
  hasValue : bool;
  verification : FactProvenance;
  expiresAt : option Z;
  updatedAt : Z
}.

Record RequiredFact : Type := {
  r_fieldKey : string;
  r_sectionType : PassportSectionType;
  r_blocking : bool;
  label : string
}.

(** The four messages of the engine. *)
Inductive NoticeKind : Type := missing_fact | evidence_expired | approaching_expiry | self_reported_only.

#[global] Instance NoticeKind_eq_dec : EqDecision NoticeKind.
Proof. solve_decision. Defined.

(** A [ReadinessBlocker] or [ReadinessWarning]. *)
Record Notice : Type := { n_fieldKey : string; n_sectionType : PassportSectionType; n_message : string }.

Record ReadinessResultShape : Type := {
  score : jsnum;
  blockers : list Notice;
  warnings : list Notice;
  ruleVersion : string;
  algorithmVersion : string;
  r_inputVersions : list string
}.

Definition EVIDENCE_algorithmVersion : string := "evidence-readiness-v1".
Definition EVIDENCE_ruleVersion : string := "evidence-rules-v1".

Definition required (k : string) (s : PassportSectionType) (b : bool) (l : string) : RequiredFact :=
  {| r_fieldKey := k; r_sectionType := s; r_blocking := b; label := l |}.

Definition requiredFacts : list RequiredFact := [
  required "legalEntityConfirmed" IDENTITY true "Legal entity / registration confirmed";
  required "primaryContactConfirmed" IDENTITY true "Named, verified primary contact";
  required "processingHistorySummary" PROCESSING_METRICS true "Processing history summary";
  required "riskProfileSummary" RISK true "Risk profile summary (CB / fraud / refund posture)";
  required "settlementCapability" COMMERCIAL true "Settlement capability (currency / rail / cadence)";
  required "technicalIntegrationProfile" TECHNICAL true "Technical integration profile";
  required "priorAcquirerRelationships" RELATIONSHIP_HISTORY false "Prior acquirer / provider relationships";
  required "chargebackHistoryDetail" RISK false "Detailed chargeback history"].

Definition messageOf (req : RequiredFact) (k : NoticeKind) : string :=
  match k with
  | missing_fact => "Missing " +:+ (if r_blocking req then "required" else "recommended") +:+ " fact: " +:+ label req
  | evidence_expired => label req +:+ " evidence has expired"
  | approaching_expiry => label req +:+ " evidence is approaching expiry"
  | self_reported_only => label req +:+ " is self-reported only, never independently verified"
  end.

Definition notice (req : RequiredFact) (k : NoticeKind) : Notice :=
  {| n_fieldKey := r_fieldKey req; n_sectionType := r_sectionType req; n_message := messageOf req k |}.

Record ReadinessLoop : Type := { l_blockers : list Notice; l_warnings : list Notice; presentCount : Z }.

Definition push_blocker (n : Notice) (st : ReadinessLoop) : ReadinessLoop :=
  {| l_blockers := l_blockers st ++ [n]; l_warnings := l_warnings st; presentCount := presentCount st |}.
Definition push_warning (n : Notice) (st : ReadinessLoop) : ReadinessLoop :=
  {| l_blockers := l_blockers st; l_warnings := l_warnings st ++ [n]; presentCount := presentCount st |}.
Definition count_present (st : ReadinessLoop) : ReadinessLoop :=
  {| l_blockers := l_blockers st; l_warnings := l_warnings st; presentCount := presentCount st + 1 |}.

(** [(req.blocking ? blockers : warnings).push(..)] *)
Definition push_target (req : RequiredFact) (n : Notice) (st : ReadinessLoop) : ReadinessLoop :=
  if r_blocking req then push_blocker n st else push_warning n st.

(** [new Map(facts.map(f => [f.fieldKey, f]))] *)
Definition factByKey (facts : list FactSnapshot) : gmap string FactSnapshot :=
  foldl (fun m f => <[fieldKey f := f]> m) ∅ facts.

(** One iteration over the required facts. *)
Definition readiness_step (m : gmap string FactSnapshot) (now : Z) (st : ReadinessLoop) (req : RequiredFact) : ReadinessLoop :=
  match m !! r_fieldKey req with
  | Some fact =>
      if hasValue fact then
        let st := count_present st in
        let st :=
          match classifyFactFreshness (expiresAt fact) now factFreshnessWarnWithinDays with
          | STALE => push_target req (notice req evidence_expired) st
          | AGING => push_warning (notice req approaching_expiry) st
          | _ => st
          end in
        if bool_decide (verification fact = SELF_REPORTED) then push_warning (notice req self_reported_only) st else st
      else push_target req (notice req missing_fact) st
  | None => push_target req (notice req missing_fact) st
  end.

Definition computeReadiness (facts : list FactSnapshot) (now : Z) (inputVersions : list string)
    (reqs : list RequiredFact) : res ReadinessResultShape :=
  do! throw_if (has_duplicate ∅ (map fieldKey facts)) (TypeError "computeReadiness: duplicate fieldKey");
  let st := foldl (readiness_step (factByKey facts) now) {| l_blockers := []; l_warnings := []; presentCount := 0 |} reqs in
  let score := if Nat.eqb (length reqs) 0 then num_of_Z 100
               else nmul (ndiv (num_of_Z (presentCount st)) (num_of_Z (Z.of_nat (length reqs)))) (num_of_Z 100) in
  Ok {| score := score; blockers := l_blockers st; warnings := l_warnings st; ruleVersion := EVIDENCE_ruleVersion;
        algorithmVersion := EVIDENCE_algorithmVersion; r_inputVersions := inputVersions |}.

Definition isReadinessBlocked (result : ReadinessResultShape) : bool := Nat.ltb 0 (length (blockers result)).

(** * Properties *)

(** The fact that satisfies a requirement, if any. *)
Definition presentFact (facts : list FactSnapshot) (req : RequiredFact) (f : FactSnapshot) : Prop :=
  f ∈ facts /\ fieldKey f = r_fieldKey req /\ hasValue f = true.

Lemma factByKey_snoc facts f : factByKey (facts ++ [f]) = <[fieldKey f := f]> (factByKey facts).
Proof. unfold factByKey. by rewrite foldl_app. Qed.

Lemma factByKey_lookup facts k f :
  NoDup (map fieldKey facts) -> factByKey facts !! k = Some f <-> f ∈ facts /\ fieldKey f = k.
Proof.
  induction facts as [|g facts IH] using rev_ind; [unfold factByKey; simpl; set_solver|].
  rewrite map_app, NoDup_app. intros (Hnd & Hdis & _). rewrite factByKey_snoc, elem_of_app, list_elem_of_singleton.
  destruct (decide (k = fieldKey g)) as [->|Hne].
  - rewrite lookup_insert_eq. split; [intros [= ->]; auto|]. intros [[Hf|Hf] E]; [|by subst].
    exfalso. apply (Hdis (fieldKey g)); [|simpl; set_solver]. rewrite <- E. by apply (list_elem_of_fmap_2 fieldKey).
  - rewrite lookup_insert_ne, IH by done. naive_solver.
Qed.

(** What one requirement contributes, read off the facts. *)
Definition contribution (m : gmap string FactSnapshot) (now : Z) (req : RequiredFact) : list Notice * list Notice * Z :=
  match m !! r_fieldKey req with
  | Some fact =>
      if hasValue fact then
        let fresh := classifyFactFreshness (expiresAt fact) now factFreshnessWarnWithinDays in
        let expired := if bool_decide (fresh = STALE) then [notice req evidence_expired] else [] in
        ((if r_blocking req then expired else []),
         (if r_blocking req then [] else expired)
         ++ (if bool_decide (fresh = AGING) then [notice req approaching_expiry] else [])
         ++ (if bool_decide (verification fact = SELF_REPORTED) then [notice req self_reported_only] else []), 1)
      else if r_blocking req then ([notice req missing_fact], [], 0) else ([], [notice req missing_fact], 0)
  | None => if r_blocking req then ([notice req missing_fact], [], 0) else ([], [notice req missing_fact], 0)
  end.

Lemma readiness_step_contribution m now st req :
  readiness_step m now st req =
  {| l_blockers := l_blockers st ++ (contribution m now req).1.1;
     l_warnings := l_warnings st ++ (contribution m now req).1.2;
     presentCount := presentCount st + (contribution m now req).2 |}.
Proof.
  destruct st as [b w p]. unfold readiness_step, contribution, push_target, push_blocker, push_warning, count_present.
  destruct (m !! r_fieldKey req) as [f|]; [|destruct (r_blocking req); simpl; by rewrite ?app_nil_r, ?Z.add_0_r].
  destruct (hasValue f); [|destruct (r_blocking req); simpl; by rewrite ?app_nil_r, ?Z.add_0_r].
  destruct (classifyFactFreshness _ _ _), (r_blocking req), (bool_decide (verification f = SELF_REPORTED)); simpl;
    rewrite ?app_nil_r, <- ?app_assoc; done.
Qed.

Lemma readiness_loop m now reqs st :
  foldl (readiness_step m now) st reqs =
  {| l_blockers := l_blockers st ++ concat (map (fun r => (contribution m now r).1.1) reqs);
     l_warnings := l_warnings st ++ concat (map (fun r => (contribution m now r).1.2) reqs);
     presentCount := presentCount st + sumZ (map (fun r => (contribution m now r).2) reqs) |}.
Proof.
  revert st. induction reqs as [|r reqs IH]; intros st; simpl.
  - destruct st. by rewrite !app_nil_r, Z.add_0_r.
  - rewrite IH, readiness_step_contribution, sumZ_cons. simpl. f_equal; [by rewrite <- app_assoc..|lia].
Qed.

(** A blocking requirement is met by a present fact that has not expired. *)
Definition requirementMet (facts : list FactSnapshot) (now : Z) (req : RequiredFact) : Prop :=
  exists f, presentFact facts req f
    /\ classifyFactFreshness (expiresAt f) now factFreshnessWarnWithinDays <> STALE.

Lemma contribution_blockers facts now req :
  NoDup (map fieldKey facts) ->
  (contribution (factByKey facts) now req).1.1 = [] <-> (r_blocking req = true -> requirementMet facts now req).
Proof.
  intros Hnd. unfold contribution, requirementMet, presentFact.
  destruct (factByKey facts !! r_fieldKey req) as [f|] eqn:E.
  - apply factByKey_lookup in E as [Hf Ek]; [|done].
    assert (forall g, g ∈ facts -> fieldKey g = r_fieldKey req -> g = f) as Huniq.
    { intros g Hg Eg. assert (factByKey facts !! r_fieldKey req = Some g) as H1 by (by apply factByKey_lookup).
      assert (factByKey facts !! r_fieldKey req = Some f) as H2 by (by apply factByKey_lookup). congruence. }
    destruct (hasValue f) eqn:Hv, (r_blocking req); simpl; try (split; [done|]; naive_solver).
    + case_bool_decide as Hst; split; try done; [|intros _ _; eauto].
      intros H. destruct (H eq_refl) as (g & (Hg & Eg & _) & Hns). by rewrite (Huniq g Hg Eg) in Hns.
    + split; [done|]. intros H. destruct (H eq_refl) as (g & (Hg & Eg & Hgv) & _). rewrite (Huniq g Hg Eg) in Hgv. congruence.
  - assert (forall g, g ∈ facts -> fieldKey g = r_fieldKey req -> False) as Hnone.
    { intros g Hg Eg. assert (factByKey facts !! r_fieldKey req = Some g) as H1 by (by apply factByKey_lookup). congruence. }
    destruct (r_blocking req); simpl; [|naive_solver]. split; [done|]. intros H.
    destruct (H eq_refl) as (g & (Hg & Eg & _) & _). by destruct (Hnone g Hg Eg).
Qed.

Lemma concat_nil_iff {A B} (f : A -> list B) l : concat (map f l) = [] <-> forall x, x ∈ l -> f x = [].
Proof.
  induction l as [|y l IH]; simpl; [set_solver|]. setoid_rewrite elem_of_cons. rewrite app_nil, IH. naive_solver.
Qed.

(** When the engine answers, and what unblocks it. *)
Lemma readiness_spec (facts : list FactSnapshot) (now : Z) (versions : list string) (reqs : list RequiredFact) :
  (is_ok (computeReadiness facts now versions reqs) = true <-> NoDup (map fieldKey facts))
  /\ forall r, computeReadiness facts now versions reqs = Ok r ->
     (isReadinessBlocked r = false <->
        forall req, req ∈ reqs -> r_blocking req = true -> requirementMet facts now req)
     /\ (forall n, n ∈ blockers r -> exists req, req ∈ reqs /\ r_blocking req = true /\ ~ requirementMet facts now req
           /\ (n = notice req missing_fact \/ n = notice req evidence_expired)).
Proof.
  unfold computeReadiness.
  destruct (has_duplicate ∅ (map fieldKey facts)) eqn:Hd; simpl.
  { split; [|done]. split; [done|]. intros Hnd.
    assert (has_duplicate ∅ (map fieldKey facts) = false); [|congruence].
    apply has_duplicate_false. split; [done|]. apply Forall_forall. set_solver. }
  apply has_duplicate_false in Hd as [Hnd _]. split; [done|]. intros r [= <-]. unfold isReadinessBlocked. simpl.
  rewrite readiness_loop. simpl. split.
  - transitivity (concat (map (fun r => (contribution (factByKey facts) now r).1.1) reqs) = []).
    { destruct (concat _); simpl; [done|]. split; done. }
    rewrite concat_nil_iff. split; intros H req Hreq; [by apply contribution_blockers, H|].
    apply contribution_blockers; [done|]. by apply H.
  - intros n Hn%list_elem_of_In%in_concat. destruct Hn as (l & Hl%in_map_iff & Hn).
    destruct Hl as (req & <- & Hreq%list_elem_of_In). exists req.
    assert (r_blocking req = true /\ (n = notice req missing_fact \/ n = notice req evidence_expired)) as [Hb Hk].
    { unfold contribution in Hn. repeat case_match; simpl in Hn; naive_solver. }
    split_and!; [done|done| |done]. intros Hmet.
    assert ((contribution (factByKey facts) now req).1.1 = []) as E by (by apply contribution_blockers).
    by rewrite E in Hn.
Qed.

(** Readiness is decided by the blocking requirements alone.  On facts
    with distinct keys [computeReadiness] returns (and it throws TypeError
    exactly on a repeated key); the result is unblocked if and only if every
    blocking requirement has a present fact whose evidence has not expired;
    and every blocker names a blocking requirement that is missing or
    expired, so warnings never gate a passport. *)
Theorem readiness_exact (facts : list FactSnapshot) (now : Z) (versions : list string) (reqs : list RequiredFact) :
  (is_ok (computeReadiness facts now versions reqs) = true <-> NoDup (map fieldKey facts))
  /\ forall r, computeReadiness facts now versions reqs = Ok r ->
     (isReadinessBlocked r = false <->
        forall req, req ∈ reqs -> r_blocking req = true -> requirementMet facts now req)
     /\ (forall n, n ∈ blockers r -> exists req, req ∈ reqs /\ r_blocking req = true /\ ~ requirementMet facts now req
           /\ (n = notice req missing_fact \/ n = notice req evidence_expired)).
Proof. apply readiness_spec. Qed.

Definition isPresent (facts : list FactSnapshot) (req : RequiredFact) : bool :=
  match factByKey facts !! r_fieldKey req with Some f => hasValue f | None => false end.

Definition scoreOf (present total : Z) : jsnum :=
  if total =? 0 then num_of_Z 100 else nmul (ndiv (num_of_Z present) (num_of_Z total)) (num_of_Z 100).

Lemma readiness_score facts now versions reqs r :
  computeReadiness facts now versions reqs = Ok r ->
  score r = scoreOf (Z.of_nat (length (List.filter (isPresent facts) reqs))) (Z.of_nat (length reqs)).
Proof.
  unfold computeReadiness. destruct (throw_if _ _); cbn [rbind]; [|done]. intros [= <-]. cbn [score].
  rewrite readiness_loop. cbn [presentCount]. rewrite Z.add_0_l.
  assert (sumZ (map (fun q => (contribution (factByKey facts) now q).2) reqs)
          = Z.of_nat (length (List.filter (isPresent facts) reqs))) as ->.
  { induction reqs as [|q reqs IH]; [done|]. simpl map. rewrite sumZ_cons, IH. simpl List.filter.
    unfold isPresent at 2, contribution. destruct (factByKey facts !! r_fieldKey q) as [f|]; [destruct (hasValue f)|];
      destruct (r_blocking q); simpl length; simpl snd; lia. }
  unfold scoreOf. by destruct reqs.
Qed.

(** The default score is the exact share of present requirements.  With
    the eight configured requirements the score is 12.5 times the number of
    requirements with a present fact, computed without rounding error. *)
Theorem readiness_score_exact (facts : list FactSnapshot) (now : Z) (versions : list string) (r : ReadinessResultShape) :
  computeReadiness facts now versions requiredFacts = Ok r ->
  exists k, 0 <= k <= 8 /\ num_scaled (score r) * 2 = 25 * k * num_one_scaled
    /\ k = Z.of_nat (length (List.filter (isPresent facts) requiredFacts)).
Proof.
  intros ->%readiness_score. change (Z.of_nat (length requiredFacts)) with 8.
  assert (length (List.filter (isPresent facts) requiredFacts) <= 8)%nat as Hle by apply filter_length_le.
  exists (Z.of_nat (length (List.filter (isPresent facts) requiredFacts))). split; [lia|]. split; [|done].
  revert Hle. generalize (length (List.filter (isPresent facts) requiredFacts)) as n. intros n Hle.
  destruct n as [|[|[|[|[|[|[|[|[|n]]]]]]]]]; [vm_compute; reflexivity..|lia].
Qed.

Definition sample_fact (k : string) : FactSnapshot :=
  {| fieldKey := k; sectionType := IDENTITY; hasValue := true; verification := OPERATOR_VERIFIED; expiresAt := None; updatedAt := 0 |}.

Definition sample_facts : list FactSnapshot := map (fun q => sample_fact (r_fieldKey q)) (take 6 requiredFacts).

Definition sample_readiness : ReadinessResultShape :=
  Eval vm_compute in
    match computeReadiness sample_facts 0 [] requiredFacts with
    | Ok r => r
    | Throw _ => {| score := nzero; blockers := []; warnings := []; ruleVersion := ""; algorithmVersion := ""; r_inputVersions := [] |}
    end.

Lemma readiness_score_exact_witness :
  exists k, 0 <= k <= 8 /\ num_scaled (score sample_readiness) * 2 = 25 * k * num_one_scaled
    /\ k = Z.of_nat (length (List.filter (isPresent sample_facts) requiredFacts)).
Proof. exact (readiness_score_exact sample_facts 0 [] sample_readiness ltac:(vm_compute; reflexivity)). Defined.
