(* ===== verification/Attribution.v ===== *)
(** * packages/attribution: types.ts, config.ts, scoring.ts, tier.ts, ranking.ts

    The claim scoring engine in binary64 arithmetic, and the ranking of the
    competing claims.  Freezing the configuration has no counterpart: the
    constants are definitions.  Labels and message texts are not modelled. *)
From S2P Require Import Prelude Lifecycle JsNumber StableSort.

(** ** types.ts: the closed vocabularies, as the strings they are *)

Definition DIRECTNESS_TIERS : list string := ["D5"; "D4"; "D3"; "D2"; "D1"; "D0"]%string.
Definition isDirectnessTier (value : string) : bool := existsb (String.eqb value) DIRECTNESS_TIERS.

Definition CLAIM_EVIDENCE_TYPES : list string :=
  ["CONTRACT"; "COUNTERPARTY_ACKNOWLEDGMENT"; "EMAIL_THREAD"; "CRM_RECORD"; "OTHER"]%string.
Definition isClaimEvidenceType (value : string) : bool := existsb (String.eqb value) CLAIM_EVIDENCE_TYPES.

Definition EVIDENCE_VERIFICATION_STATES : list string :=
  ["SELF_REPORTED"; "DOCUMENT_EXTRACTED"; "API_VERIFIED"; "COUNTERPARTY_CONFIRMED"; "OPERATOR_VERIFIED"]%string.
Definition isEvidenceVerificationState (value : string) : bool := existsb (String.eqb value) EVIDENCE_VERIFICATION_STATES.

Record ClaimEvidenceInput : Type := { evidenceType : string; verificationState : string }.

Record ClaimEvidenceContribution : Type := {
  index : Z;
  c_evidenceType : string;
  c_verificationState : string;
  basePoints : jsnum;
  multiplier : jsnum;
  contribution : jsnum
}.

Record ClaimScoringInput : Type := {
  priorCommercialHistoryMonths : jsnum;
  directnessTier : string;
  evidenceItems : list ClaimEvidenceInput;
  submissionLagDays : jsnum;
  inputVersions : option (list string)
}.

Record ClaimScoreBreakdown : Type := {
  history : jsnum;
  proximity : jsnum;
  evidence : jsnum;
  time : jsnum;
  weighted : jsnum;
  total : jsnum;
  cappedFrom : option jsnum;
  evidenceRawTotal : option jsnum;
  evidenceBreakdown : list ClaimEvidenceContribution;
  algorithmVersion : string;
  b_inputVersions : list string
}.

(** ** config.ts: ATTRIBUTION_CONFIG *)

Definition ATTRIBUTION_algorithmVersion : string := "attribution-v1".

Record Weights : Type := { w_history : jsnum; w_proximity : jsnum; w_evidence : jsnum; w_time : jsnum }.

Definition weights : Weights :=
  {| w_history := num_lit 4 10; w_proximity := num_lit 3 10; w_evidence := num_lit 2 10; w_time := num_lit 1 10 |}.

Record Band : Type := { b_min : jsnum; b_max : jsnum }.

Definition historyMonthsBand : Band := {| b_min := num_of_Z 0; b_max := num_of_Z 36 |}.
Definition submissionLagDaysBand : Band := {| b_min := num_of_Z 0; b_max := num_of_Z 60 |}.

Definition proximityScoreByTier : list (string * jsnum) :=
  [("D5", num_of_Z 100); ("D4", num_of_Z 80); ("D3", num_of_Z 60); ("D2", num_of_Z 35); ("D1", num_of_Z 15); ("D0", num_of_Z 0)]%string.

Definition evidenceBasePoints : list (string * jsnum) :=
  [("CONTRACT", num_of_Z 40); ("COUNTERPARTY_ACKNOWLEDGMENT", num_of_Z 35); ("EMAIL_THREAD", num_of_Z 20);
   ("CRM_RECORD", num_of_Z 15); ("OTHER", num_of_Z 5)]%string.

Definition evidenceVerificationMultiplier : list (string * jsnum) :=
  [("SELF_REPORTED", num_lit 4 10); ("DOCUMENT_EXTRACTED", num_lit 7 10); ("API_VERIFIED", num_lit 9 10);
   ("COUNTERPARTY_CONFIRMED", num_of_Z 1); ("OPERATOR_VERIFIED", num_of_Z 1)]%string.

Definition evidenceScoreCeiling : jsnum := num_of_Z 100.

Definition zeroAttributionTiers : list string := ["D0"]%string.

Definition tierThreshold_strong : jsnum := num_of_Z 70.
Definition tierThreshold_moderate : jsnum := num_of_Z 40.

(** ** scoring.ts *)

(** [1e-9] *)
Definition epsilon : jsnum := num_lit 1 1000000000.

Definition assertWeightsSumToOne (w : Weights) : res unit :=
  let sum := nadd (nadd (nadd (w_history w) (w_proximity w)) (w_evidence w)) (w_time w) in
  throw_if (nlt epsilon (math_abs (nsub sum (num_of_Z 1)))) (ErrorError "ATTRIBUTION_CONFIG.weights must sum to 1").

Definition clamp01 (n : jsnum) : jsnum := math_max (num_of_Z 0) (math_min (num_of_Z 1) n).

Definition normalize (value min max : jsnum) : res jsnum :=
  if neq max min then Throw (ClaimScoringInputError "normalization band is degenerate")
  else Ok (nmul (clamp01 (ndiv (nsub value min) (nsub max min))) (num_of_Z 100)).

Definition normalizeInvert (value min max : jsnum) : res jsnum :=
  if neq max min then Throw (ClaimScoringInputError "normalization band is degenerate")
  else Ok (nmul (clamp01 (nsub (num_of_Z 1) (ndiv (nsub value min) (nsub max min)))) (num_of_Z 100)).

Definition round1 (n : jsnum) : jsnum := ndiv (math_round (nmul n (num_of_Z 10))) (num_of_Z 10).

Definition assertFiniteNonNegative (value : jsnum) (fieldName : string) : res unit :=
  do! throw_if (negb (num_isFinite value)) (ClaimScoringInputError (fieldName +:+ " must be a finite number"));
  throw_if (nlt value nzero) (ClaimScoringInputError (fieldName +:+ " must be >= 0")).

Record EvidenceScoreResult : Type := {
  e_total : jsnum;
  rawTotal : jsnum;
  items : list ClaimEvidenceContribution
}.

(** One item of [items.map]. *)
Definition scoreItem (ix : Z) (item : ClaimEvidenceInput) : res ClaimEvidenceContribution :=
  match literal_index evidenceBasePoints (evidenceType item) with
  | None => Throw (ClaimScoringInputError "evidenceItems[].evidenceType is not a recognized ClaimEvidenceType")
  | Some bp =>
      match literal_index evidenceVerificationMultiplier (verificationState item) with
      | None => Throw (ClaimScoringInputError "evidenceItems[].verificationState is not a recognized EvidenceVerificationState")
      | Some mu =>
          Ok {| index := ix; c_evidenceType := evidenceType item; c_verificationState := verificationState item;
                basePoints := bp; multiplier := mu; contribution := round1 (nmul bp mu) |}
      end
  end.

Fixpoint mapItems (ix : Z) (l : list ClaimEvidenceInput) : res (list ClaimEvidenceContribution) :=
  match l with
  | [] => Ok []
  | item :: l' => let! c := scoreItem ix item in let! cs := mapItems (ix + 1) l' in Ok (c :: cs)
  end.

Definition scoreEvidence (l : list ClaimEvidenceInput) : res EvidenceScoreResult :=
  let! contributions := mapItems 0 l in
  let raw := round1 (foldl (fun sum c => nadd sum (contribution c)) (num_of_Z 0) contributions) in
  Ok {| e_total := math_min evidenceScoreCeiling raw; rawTotal := raw; items := contributions |}.

(** The tier is an own key of [proximityScoreByTier] once the guard passed. *)
Definition scoreClaim (input : ClaimScoringInput) : res ClaimScoreBreakdown :=
  do! assertFiniteNonNegative (priorCommercialHistoryMonths input) "priorCommercialHistoryMonths";
  do! assertFiniteNonNegative (submissionLagDays input) "submissionLagDays";
  do! throw_if (negb (isDirectnessTier (directnessTier input))) (ClaimScoringInputError "directnessTier is not a recognized DirectnessTier");
  let! h := normalize (priorCommercialHistoryMonths input) (b_min historyMonthsBand) (b_max historyMonthsBand) in
  let p := default S754_nan (literal_index proximityScoreByTier (directnessTier input)) in
  let! ev := scoreEvidence (evidenceItems input) in
  let! t := normalizeInvert (submissionLagDays input) (b_min submissionLagDaysBand) (b_max submissionLagDaysBand) in
  let w := nadd (nadd (nadd (nmul h (w_history weights)) (nmul p (w_proximity weights)))
                      (nmul (e_total ev) (w_evidence weights))) (nmul t (w_time weights)) in
  let isZeroAttributionTier := existsb (String.eqb (directnessTier input)) zeroAttributionTiers in
  let roundedWeighted := round1 w in
  Ok {| history := round1 h; proximity := round1 p; evidence := round1 (e_total ev); time := round1 t;
        weighted := roundedWeighted;
        total := if isZeroAttributionTier then num_of_Z 0 else roundedWeighted;
        cappedFrom := if isZeroAttributionTier && nlt nzero roundedWeighted then Some roundedWeighted else None;
        evidenceRawTotal := if nlt (e_total ev) (rawTotal ev) then Some (rawTotal ev) else None;
        evidenceBreakdown := items ev;
        algorithmVersion := ATTRIBUTION_algorithmVersion;
        b_inputVersions := default [] (inputVersions input) |}.

(** ** tier.ts *)

Inductive AttributionTier : Type := strong | moderate | negligible.

Definition attributionTier (t : jsnum) : AttributionTier :=
  if nle tierThreshold_strong t then strong
  else if nle tierThreshold_moderate t then moderate
  else negligible.

(** ** ranking.ts *)

Record RankableClaim : Type := { claimId : string; s_total : jsnum; submittedAt : string }.

Record ClaimRankEntry : Type := { r_claimId : string; rank : Z; r_total : jsnum; tiedWith : list string }.

Section Ranking.
(** [Date.parse]: the time value of a date string, or NaN. *)
Variable Date_parse : string -> jsnum.

(** The comparator of [sort]. *)
Definition compareClaims (a b : RankableClaim) : jsnum :=
  if negb (neq (s_total b) (s_total a)) then nsub (s_total b) (s_total a)
  else
    let submittedDelta := nsub (Date_parse (submittedAt a)) (Date_parse (submittedAt b)) in
    if negb (neq submittedDelta (num_of_Z 0)) then submittedDelta
    else match String.compare (claimId a) (claimId b) with Lt => num_of_Z (-1) | Gt => num_of_Z 1 | Eq => num_of_Z 0 end.

Definition tiedTo (claim other : RankableClaim) : bool :=
  negb (String.eqb (claimId other) (claimId claim)) && neq (s_total other) (s_total claim)
  && neq (Date_parse (submittedAt other)) (Date_parse (submittedAt claim)).

Fixpoint rankEntries (sorted : list RankableClaim) (i : Z) (l : list RankableClaim) : list ClaimRankEntry :=
  match l with
  | [] => []
  | claim :: l' =>
      {| r_claimId := claimId claim; rank := i + 1; r_total := s_total claim;
         tiedWith := map claimId (List.filter (tiedTo claim) sorted) |} :: rankEntries sorted (i + 1) l'
  end.

Definition rankClaims (claims : list RankableClaim) : res (list ClaimRankEntry) :=
  do! mapM_res (fun claim => throw_if (num_isNaN (Date_parse (submittedAt claim)))
                               (ClaimRankingInputError (claimId claim +:+ " has an unparseable submittedAt"))) claims;
  let sorted := sort_by (fun a b => cmp_of_num (compareClaims a b)) claims in
  Ok (rankEntries sorted 0 sorted).
End Ranking.

(** * Properties of the attribution engine

    Every factor and the total of a claim lie in [0, 100], the total grows
    with history, proximity and evidence and falls with the submission lag,
    public knowledge never earns attribution, and the ranking is the
    specified total order whatever the order of the input. *)
From S2P Require Import NumOrder DomainStates.
From Stdlib Require Import Sorted.

(** The package's vocabularies are the domain's. *)
Example vocabularies_agree :
  DIRECTNESS_TIERS = map enum_name ClaimVocabulary.DIRECTNESS_TIERS
  /\ CLAIM_EVIDENCE_TYPES = map enum_name ClaimVocabulary.CLAIM_EVIDENCE_TYPES
  /\ EVIDENCE_VERIFICATION_STATES = map enum_name ClaimVocabulary.EVIDENCE_VERIFICATION_STATES.
Proof. done. Qed.

(** The check that runs when the module is loaded passes. *)
Example module_loads : assertWeightsSumToOne weights = Ok tt.
Proof. vm_compute. reflexivity. Qed.

Notation hundred := (num_of_Z 100).

(** ** Normalization and rounding *)

Lemma clamp01_le x x' : x ⊑ x' -> clamp01 x ⊑ clamp01 x'.
Proof. apply (clamped_le (num_of_Z 1)). const_double. Qed.

Lemma clamp01_range x : is_double x -> upto (num_of_Z 1) (clamp01 x).
Proof. apply (clamped_range (num_of_Z 1)); [const_tame|const_le]. Qed.

Lemma hundredfold_range x : is_double x -> upto hundred (nmul (clamp01 x) hundred).
Proof. intros Dx. apply (upto_mul (num_of_Z 1)); [by apply clamp01_range|const_tame|const_le|const_tame|const_le]. Qed.

Lemma hundredfold_le x x' : x ⊑ x' -> nmul (clamp01 x) hundred ⊑ nmul (clamp01 x') hundred.
Proof.
  intros H. destruct (num_le_double _ _ H) as [Dx Dx'].
  apply nmul_le; [eapply upto_tame, clamp01_range; done|eapply upto_tame, clamp01_range; done|const_tame|const_le|by apply clamp01_le].
Qed.

(** The position of a non-negative value in a band that starts at zero. *)
Definition band_position (v max : jsnum) : jsnum := ndiv (nsub v (num_of_Z 0)) (nsub max (num_of_Z 0)).

Lemma band_position_le v v' max :
  num_of_Z 1 ⊑ nsub max (num_of_Z 0) -> nzero ⊑ v -> v ⊑ v' -> band_position v max ⊑ band_position v' max.
Proof.
  intros Hm H0 H. apply ndiv_le; [done|]. apply nsub_le_nonneg; [done|const_le|done|const_le].
Qed.

Lemma band_position_nonneg v max : num_of_Z 1 ⊑ nsub max (num_of_Z 0) -> nzero ⊑ v -> nzero ⊑ band_position v max.
Proof.
  intros Hm H0. pose proof (band_position_le nzero v max Hm ltac:(const_le) H0) as H.
  eapply num_le_trans; [|exact H]. destruct (num_le_double _ _ H) as [Dz _].
  split_and!; [const_double|done|]. unfold band_position. change (nsub nzero (num_of_Z 0)) with (S754_zero false).
  destruct Hm as (_ & [V F] & _). destruct (nsub max (num_of_Z 0)); done.
Qed.

Definition historyScore (v : jsnum) : jsnum := nmul (clamp01 (band_position v (num_of_Z 36))) hundred.
Definition timeScore (v : jsnum) : jsnum := nmul (clamp01 (nsub (num_of_Z 1) (band_position v (num_of_Z 60)))) hundred.

Lemma history_normalize v : normalize v (b_min historyMonthsBand) (b_max historyMonthsBand) = Ok (historyScore v).
Proof. reflexivity. Qed.

Lemma time_normalize v : normalizeInvert v (b_min submissionLagDaysBand) (b_max submissionLagDaysBand) = Ok (timeScore v).
Proof. reflexivity. Qed.

Lemma history_le v v' : nzero ⊑ v -> v ⊑ v' -> historyScore v ⊑ historyScore v'.
Proof. intros H0 H. apply hundredfold_le, band_position_le; [const_le|done|done]. Qed.

Lemma time_le v v' : nzero ⊑ v -> v ⊑ v' -> timeScore v' ⊑ timeScore v.
Proof.
  intros H0 H. apply hundredfold_le, nsub_le_nonneg; [const_le| |const_le|].
  - apply band_position_nonneg; [const_le|done].
  - apply band_position_le; [const_le|done|done].
Qed.

Lemma history_range v : nzero ⊑ v -> upto hundred (historyScore v).
Proof. intros H. apply hundredfold_range. eapply num_le_double, band_position_nonneg; [const_le|done]. Qed.

Lemma time_range v : nzero ⊑ v -> upto hundred (timeScore v).
Proof.
  intros H. apply hundredfold_range.
  assert (band_position nzero (num_of_Z 60) ⊑ band_position v (num_of_Z 60)) as Hp by (apply band_position_le; [const_le|const_le|done]).
  refine (proj1 (num_le_double _ _ (nsub_le_nonneg (num_of_Z 1) (num_of_Z 1) _ (band_position nzero (num_of_Z 60)) _ _ _ Hp))); const_le.
Qed.

Lemma round1_le x x' : tame x -> tame x' -> x ⊑ x' -> round1 x ⊑ round1 x'.
Proof. exact (tenths_le x x'). Qed.

Lemma round1_range a b x : upto a x -> tame b -> round1 a ⊑ b -> upto b (round1 x).
Proof. exact (tenths_range a b x). Qed.

(** ** Evidence *)

Definition recognizedItem (it : ClaimEvidenceInput) : Prop :=
  isClaimEvidenceType (evidenceType it) = true /\ isEvidenceVerificationState (verificationState it) = true.

Lemma existsb_eqb l x : existsb (String.eqb x) l = true <-> x ∈ l.
Proof.
  rewrite existsb_exists. setoid_rewrite String.eqb_eq. setoid_rewrite <- list_elem_of_In.
  split; [by intros (? & ? & ->)|eauto].
Qed.

(** The largest contribution of an item, and a bound no sum of them leaves:
    adding 40 to 2^59 rounds back. *)
Notation forty := (num_of_Z 40).
Notation sumBound := (num_of_Z (2 ^ 59)).

Lemma scoreItem_recognized ix it : recognizedItem it ->
  exists c, scoreItem ix it = Ok c /\ upto forty (contribution c).
Proof.
  intros [Ht Hv]. apply existsb_eqb in Ht, Hv. destruct it as [t v]. simpl in *. unfold scoreItem. simpl.
  unfold CLAIM_EVIDENCE_TYPES, EVIDENCE_VERIFICATION_STATES in *.
  repeat (apply elem_of_cons in Ht as [->|Ht]; [|]); [..|by apply elem_of_nil in Ht];
    repeat (apply elem_of_cons in Hv as [->|Hv]; [|]); try (by apply elem_of_nil in Hv);
    eexists; (split; [reflexivity|]); (split; [const_tame|split; const_le]).
Qed.

Lemma mapItems_recognized l : Forall recognizedItem l -> forall ix,
  exists cs, mapItems ix l = Ok cs /\ Forall (fun c => upto forty (contribution c)) cs.
Proof.
  induction 1 as [|it l Hit Hl IH]; intros ix; simpl; [by eexists|].
  destruct (scoreItem_recognized ix it Hit) as (c & -> & Hc). destruct (IH (ix + 1)) as (cs & -> & Hcs). simpl. eauto.
Qed.

Lemma mapItems_app ix l1 l2 cs : mapItems ix (l1 ++ l2) = Ok cs ->
  exists cs1 cs2, mapItems ix l1 = Ok cs1 /\ cs = cs1 ++ cs2.
Proof.
  revert ix cs. induction l1 as [|it l1 IH]; intros ix cs H; simpl in *; [by exists [], cs|].
  inv_ok. destruct (IH _ _ H1) as (cs1 & cs2 & -> & ->). rewrite H0. simpl. by exists (v :: cs1), cs2.
Qed.

Definition addContribution (s : jsnum) (c : ClaimEvidenceContribution) : jsnum := nadd s (contribution c).

Lemma sum_range cs s : Forall (fun c => upto forty (contribution c)) cs -> upto sumBound s -> upto sumBound (foldl addContribution s cs).
Proof.
  intros H. revert s. induction H as [|c cs Hc Hcs IH]; intros s Hs; simpl; [done|]. apply IH.
  eapply upto_add; [exact Hs|exact Hc|const_tame|const_le].
Qed.

(** Adding more items never lowers the sum. *)
Lemma sum_grows cs s : Forall (fun c => upto forty (contribution c)) cs -> upto sumBound s -> s ⊑ foldl addContribution s cs.
Proof.
  intros H. revert s. induction H as [|c cs Hc Hcs IH]; intros s Hs; simpl.
  { apply num_le_refl. by destruct Hs as (_ & (_ & ? & _) & _). }
  assert (upto sumBound (addContribution s c)) as Hs' by (eapply upto_add; [exact Hs|exact Hc|const_tame|const_le]).
  eapply num_le_trans; [|by apply IH].
  pose proof (upto_tame _ _ Hs) as Ts. pose proof (upto_tame _ _ Hc) as Tc. destruct Hs as (_ & (_ & Ds & Ps) & _), Hc as (_ & Pc & _).
  pose proof (nadd_le s s nzero (contribution c) Ts Ts zero_tame Tc (num_le_refl _ Ds) Pc) as (_ & D2 & H2).
  split_and!; [done|done|]. unfold addContribution. etrans; [|exact H2]. destruct s as [[]| | |]; done.
Qed.

Lemma raw_range s : upto sumBound s -> upto sumBound (round1 s).
Proof. intros H. eapply round1_range; [exact H|const_tame|const_le]. Qed.

Lemma scoreEvidence_recognized l : Forall recognizedItem l ->
  exists r, scoreEvidence l = Ok r /\ upto hundred (e_total r) /\ upto sumBound (rawTotal r)
    /\ num_scaled (e_total r) = Z.min (num_scaled hundred) (num_scaled (rawTotal r)).
Proof.
  intros H. unfold scoreEvidence. destruct (mapItems_recognized l H 0) as (cs & -> & Hcs). simpl. eexists. split; [done|]. simpl.
  change (foldl (fun sum c => nadd sum (contribution c))) with (foldl addContribution).
  assert (upto sumBound (foldl addContribution (num_of_Z 0) cs)) as Hs.
  { apply sum_range; [done|]. split_and!; [const_tame|const_le|const_le]. }
  pose proof (raw_range _ Hs) as Hr. set (raw := round1 (foldl addContribution (num_of_Z 0) cs)) in *.
  assert (is_double raw) as Dr by (by destruct Hr as (_ & (_ & ? & _) & _)).
  destruct (math_min_spec evidenceScoreCeiling raw ltac:(const_double) Dr) as [D E].
  split; [split; [const_tame|split]|split; [exact Hr|exact E]].
  - destruct Hr as (_ & (_ & _ & P) & _). split; [const_double|split; [exact D|]].
    change (num_scaled nzero <= num_scaled (math_min evidenceScoreCeiling raw)). rewrite E.
    assert (0 <= num_scaled evidenceScoreCeiling) by (vm_compute; discriminate). change (num_scaled nzero) with 0 in *. lia.
  - split; [exact D|split; [const_double|]].
    change (num_scaled (math_min evidenceScoreCeiling raw) <= num_scaled hundred). rewrite E. apply Z.le_min_l.
Qed.

(** Supplying further items never lowers the evidence factor. *)
Lemma scoreEvidence_grows l1 l2 r1 r2 : Forall recognizedItem (l1 ++ l2) ->
  scoreEvidence l1 = Ok r1 -> scoreEvidence (l1 ++ l2) = Ok r2 -> e_total r1 ⊑ e_total r2.
Proof.
  intros H. unfold scoreEvidence. destruct (mapItems_recognized _ H 0) as (cs & E & Hcs).
  destruct (mapItems_app _ _ _ _ E) as (cs1 & cs2 & E1 & ->). rewrite E, E1. simpl. intros [= <-] [= <-]. simpl.
  change (foldl (fun sum c => nadd sum (contribution c))) with (foldl addContribution).
  rewrite foldl_app. apply Forall_app in Hcs as [H1 H2].
  assert (upto sumBound (foldl addContribution (num_of_Z 0) cs1)) as Hs.
  { apply sum_range; [done|]. split_and!; [const_tame|const_le|const_le]. }
  apply math_min_le; [const_double|]. apply round1_le; [by eapply upto_tame| |by apply sum_grows].
  eapply upto_tame, sum_range; [done|exact Hs].
Qed.

(** ** The claim score *)

Definition weightedSum (h p e t : jsnum) : jsnum :=
  nadd (nadd (nadd (nmul h (w_history weights)) (nmul p (w_proximity weights))) (nmul e (w_evidence weights))) (nmul t (w_time weights)).

Lemma weighted_parts h p e t : upto hundred h -> upto hundred p -> upto hundred e -> upto hundred t ->
  upto (num_of_Z 40) (nmul h (w_history weights)) /\ upto (num_of_Z 30) (nmul p (w_proximity weights))
  /\ upto (num_of_Z 20) (nmul e (w_evidence weights)) /\ upto (num_of_Z 10) (nmul t (w_time weights)).
Proof.
  intros Hh Hp He Ht. split; [|split; [|split]]; (eapply upto_mul; [eassumption|const_tame|const_le|const_tame|const_le]).
Qed.

Lemma weighted_range h p e t : upto hundred h -> upto hundred p -> upto hundred e -> upto hundred t ->
  upto (num_of_Z 70) (nadd (nmul h (w_history weights)) (nmul p (w_proximity weights)))
  /\ upto (num_of_Z 90) (nadd (nadd (nmul h (w_history weights)) (nmul p (w_proximity weights))) (nmul e (w_evidence weights)))
  /\ upto hundred (weightedSum h p e t).
Proof.
  intros Hh Hp He Ht. destruct (weighted_parts h p e t Hh Hp He Ht) as (H1 & H2 & H3 & H4).
  assert (upto (num_of_Z 70) (nadd (nmul h (w_history weights)) (nmul p (w_proximity weights)))) as H5
    by (eapply upto_add; [exact H1|exact H2|const_tame|const_le]).
  assert (upto (num_of_Z 90) (nadd (nadd (nmul h (w_history weights)) (nmul p (w_proximity weights))) (nmul e (w_evidence weights)))) as H6
    by (eapply upto_add; [exact H5|exact H3|const_tame|const_le]).
  split; [done|split; [done|]]. eapply upto_add; [exact H6|exact H4|const_tame|const_le].
Qed.

Lemma weighted_le h p e t h' p' e' t' :
  upto hundred h -> upto hundred p -> upto hundred e -> upto hundred t ->
  upto hundred h' -> upto hundred p' -> upto hundred e' -> upto hundred t' ->
  h ⊑ h' -> p ⊑ p' -> e ⊑ e' -> t ⊑ t' -> weightedSum h p e t ⊑ weightedSum h' p' e' t'.
Proof.
  intros Hh Hp He Ht Hh' Hp' He' Ht' Lh Lp Le Lt.
  destruct (weighted_parts h p e t Hh Hp He Ht) as (A1 & A2 & A3 & A4), (weighted_parts h' p' e' t' Hh' Hp' He' Ht') as (B1 & B2 & B3 & B4).
  destruct (weighted_range h p e t Hh Hp He Ht) as (A5 & A6 & _), (weighted_range h' p' e' t' Hh' Hp' He' Ht') as (B5 & B6 & _).
  assert (forall x x' c, upto hundred x -> upto hundred x' -> tame c -> nzero ⊑ c -> x ⊑ x' -> nmul x c ⊑ nmul x' c) as Hm
    by (intros; apply nmul_le; [by eapply upto_tame|by eapply upto_tame|done|done|done]).
  apply nadd_le; [by eapply upto_tame|by eapply upto_tame|by eapply upto_tame|by eapply upto_tame| |apply Hm; [done|done|const_tame|const_le|done]].
  apply nadd_le; [by eapply upto_tame|by eapply upto_tame|by eapply upto_tame|by eapply upto_tame| |apply Hm; [done|done|const_tame|const_le|done]].
  apply nadd_le; [by eapply upto_tame|by eapply upto_tame|by eapply upto_tame|by eapply upto_tame|apply Hm|apply Hm];
    try done; first [const_tame|const_le].
Qed.

(** The numbers the guards accept. *)
Definition finiteNonNeg (x : jsnum) : Prop := num_isFinite x = true /\ nlt x nzero = false.

Lemma finiteNonNeg_le x : num_valid x = true -> finiteNonNeg x -> nzero ⊑ x.
Proof. intros V [F H]. apply nlt_false in H; [done|by split|const_double]. Qed.

Definition scorable (i : ClaimScoringInput) : Prop :=
  finiteNonNeg (priorCommercialHistoryMonths i) /\ finiteNonNeg (submissionLagDays i) /\ isDirectnessTier (directnessTier i) = true.

(** The binary64 inputs are canonical and the evidence vocabulary is the closed one. *)
Definition wellTyped (i : ClaimScoringInput) : Prop :=
  num_valid (priorCommercialHistoryMonths i) = true /\ num_valid (submissionLagDays i) = true /\ Forall recognizedItem (evidenceItems i).

Definition proximityScore (tier : string) : jsnum := default S754_nan (literal_index proximityScoreByTier tier).

Lemma proximity_range tier : isDirectnessTier tier = true -> upto hundred (proximityScore tier).
Proof.
  intros H%existsb_eqb. unfold DIRECTNESS_TIERS in H.
  repeat (apply elem_of_cons in H as [->|H]; [split; [const_tame|split; const_le]|]). by apply elem_of_nil in H.
Qed.

Lemma existsb_D0 tier : existsb (String.eqb tier) zeroAttributionTiers = bool_decide (tier = "D0"%string).
Proof. unfold zeroAttributionTiers. simpl. rewrite orb_false_r. destruct (String.eqb_spec tier "D0"); by case_bool_decide. Qed.

(** What [scoreClaim] computes on an accepted input. *)
Lemma scoreClaim_value i : wellTyped i -> scorable i ->
  exists ev b, scoreEvidence (evidenceItems i) = Ok ev /\ scoreClaim i = Ok b
    /\ history b = round1 (historyScore (priorCommercialHistoryMonths i)) /\ proximity b = round1 (proximityScore (directnessTier i))
    /\ evidence b = round1 (e_total ev) /\ time b = round1 (timeScore (submissionLagDays i))
    /\ weighted b = round1 (weightedSum (historyScore (priorCommercialHistoryMonths i)) (proximityScore (directnessTier i)) (e_total ev) (timeScore (submissionLagDays i)))
    /\ total b = (if bool_decide (directnessTier i = "D0"%string) then num_of_Z 0 else weighted b)
    /\ cappedFrom b = (if bool_decide (directnessTier i = "D0"%string) && nlt nzero (weighted b) then Some (weighted b) else None)
    /\ upto hundred (e_total ev).
Proof.
  intros (Vm & Vl & Hit) ((Fm & Nm) & (Fl & Nl) & Ht).
  destruct (scoreEvidence_recognized _ Hit) as (ev & Eev & Hev & _).
  exists ev. unfold scoreClaim, assertFiniteNonNegative. rewrite Fm, Fl, Nm, Nl, Ht. cbn [negb throw_if rbind].
  rewrite history_normalize, time_normalize. cbn [rbind]. rewrite Eev. cbn [rbind]. rewrite existsb_D0.
  eexists. split; [done|]. split; [reflexivity|]. cbn [history proximity evidence time weighted total cappedFrom].
  do 7 (split; [reflexivity|]). exact Hev.
Qed.

#[global] Instance finiteNonNeg_dec x : Decision (finiteNonNeg x).
Proof. unfold finiteNonNeg. apply _. Defined.

#[global] Instance scorable_dec i : Decision (scorable i).
Proof. unfold scorable. apply _. Defined.

(** Each guard fails in one way only. *)
Lemma scoreClaim_rejects i : ~ scorable i -> exists w, scoreClaim i = Throw (ClaimScoringInputError w).
Proof.
  intros H. unfold scoreClaim, assertFiniteNonNegative.
  destruct (num_isFinite (priorCommercialHistoryMonths i)) eqn:Fm; [|by eexists].
  destruct (nlt (priorCommercialHistoryMonths i) nzero) eqn:Nm; [by eexists|].
  destruct (num_isFinite (submissionLagDays i)) eqn:Fl; [|by eexists].
  destruct (nlt (submissionLagDays i) nzero) eqn:Nl; [by eexists|].
  destruct (isDirectnessTier (directnessTier i)) eqn:Ht; [|by eexists].
  exfalso. apply H. by repeat split.
Qed.

(** The factors of an accepted claim are in range. *)
Lemma score_range i b : wellTyped i -> scorable i -> scoreClaim i = Ok b ->
  Forall (upto hundred) [history b; proximity b; evidence b; time b; weighted b].
Proof.
  intros Ht Hs Hb. destruct (scoreClaim_value i Ht Hs) as (ev & b' & _ & Eb & E1 & E2 & E3 & E4 & E5 & _ & _ & Hev).
  rewrite Hb in Eb. injection Eb as <-. destruct Ht as (Vm & Vl & _), Hs as (Fm & Fl & Htier).
  pose proof (history_range _ (finiteNonNeg_le _ Vm Fm)) as H1. pose proof (time_range _ (finiteNonNeg_le _ Vl Fl)) as H2.
  pose proof (proximity_range _ Htier) as H3.
  assert (forall x, upto hundred x -> upto hundred (round1 x)) as Hr by (intros x Hx; eapply round1_range; [exact Hx|const_tame|const_le]).
  rewrite E1, E2, E3, E4, E5.
  repeat (apply Forall_cons_2; [apply Hr; first [done|by apply weighted_range]|]). apply Forall_nil_2.
Qed.

(** A claim is scored exactly when its history and lag are finite and
    not negative and its tier is known, and otherwise the engine throws its
    input error; a scored claim has all four factors, the weighted score and
    the total in [0, 100]; public knowledge (D0) scores zero and reports the
    score it was capped from exactly when that is positive, and every other
    tier keeps its weighted score. *)
Theorem score_claim_exact (i : ClaimScoringInput) (Htyped : wellTyped i) :
  (scorable i /\ exists b, scoreClaim i = Ok b
     /\ Forall (upto hundred) [history b; proximity b; evidence b; time b; weighted b; total b]
     /\ (directnessTier i = "D0"%string -> total b = num_of_Z 0 /\ (cappedFrom b = Some (weighted b) <-> nlt nzero (weighted b) = true))
     /\ (directnessTier i <> "D0"%string -> total b = weighted b /\ cappedFrom b = None))
  \/ (~ scorable i /\ exists w, scoreClaim i = Throw (ClaimScoringInputError w)).
Proof.
  destruct (decide (scorable i)) as [Hs|Hs]; [left|right; split; [done|by apply scoreClaim_rejects]]. split; [done|].
  destruct (scoreClaim_value i Htyped Hs) as (ev & b & _ & Eb & _ & _ & _ & _ & _ & E6 & E7 & _).
  exists b. split; [done|]. pose proof (score_range i b Htyped Hs Eb) as Hr. split; [|split].
  - change [history b; proximity b; evidence b; time b; weighted b; total b] with ([history b; proximity b; evidence b; time b; weighted b] ++ [total b]).
    apply Forall_app. split; [done|]. constructor; [|done]. rewrite E6. case_bool_decide; [split; [const_tame|split; const_le]|].
    rewrite Forall_forall in Hr. apply Hr. set_solver.
  - intros Hd. rewrite bool_decide_eq_true_2 in E6, E7 by done. split; [done|]. rewrite E7. by destruct (nlt nzero (weighted b)).
  - intros Hd. by rewrite bool_decide_eq_false_2 in E6, E7 by done.
Qed.

Lemma accepted_scorable i b : scoreClaim i = Ok b -> scorable i.
Proof. intros Hb. destruct (decide (scorable i)) as [|Hn]; [done|]. destruct (scoreClaim_rejects i Hn) as [w Hw]. congruence. Qed.

(** The only tier without proximity points. *)
Lemma zero_proximity tier : isDirectnessTier tier = true -> proximityScore tier ⊑ proximityScore "D0" -> tier = "D0"%string.
Proof.
  intros H%existsb_eqb (_ & _ & Hle). unfold DIRECTNESS_TIERS in H.
  repeat (apply elem_of_cons in H as [->|H]; [first [reflexivity|by vm_compute in Hle]|]). by apply elem_of_nil in H.
Qed.

(** A better claim never scores lower.  Longer history, a tier with at
    least the same proximity points, further evidence items and a shorter
    lag leave the total at least as high. *)
Theorem score_claim_monotone (i j : ClaimScoringInput) (more : list ClaimEvidenceInput) (b c : ClaimScoreBreakdown)
  (Hi : wellTyped i) (Hj : wellTyped j)
  (Hmonths : priorCommercialHistoryMonths i ⊑ priorCommercialHistoryMonths j)
  (Hlag : submissionLagDays j ⊑ submissionLagDays i)
  (Hprox : proximityScore (directnessTier i) ⊑ proximityScore (directnessTier j))
  (Hitems : evidenceItems j = evidenceItems i ++ more)
  (Hb : scoreClaim i = Ok b) (Hc : scoreClaim j = Ok c) :
  total b ⊑ total c.
Proof.
  pose proof (accepted_scorable i b Hb) as Si. pose proof (accepted_scorable j c Hc) as Sj.
  pose proof (score_range i b Hi Si Hb) as Ri. pose proof (score_range j c Hj Sj Hc) as Rj.
  destruct (scoreClaim_value i Hi Si) as (ev & b' & Ev & Eb & _ & _ & _ & _ & Wb & Tb & _ & Rev).
  destruct (scoreClaim_value j Hj Sj) as (fv & c' & Fv & Ec & _ & _ & _ & _ & Wc & Tc & _ & Rfv).
  rewrite Hb in Eb. injection Eb as <-. rewrite Hc in Ec. injection Ec as <-.
  destruct Hi as (Vm & Vl & Hit), Hj as (Vm' & Vl' & Hit'), Si as (Fm & Fl & Ht), Sj as (Fm' & Fl' & Ht').
  assert (weighted b ⊑ weighted c) as Hw.
  { rewrite Wb, Wc.
    pose proof (history_range _ (finiteNonNeg_le _ Vm Fm)). pose proof (time_range _ (finiteNonNeg_le _ Vl Fl)).
    pose proof (history_range _ (finiteNonNeg_le _ Vm' Fm')). pose proof (time_range _ (finiteNonNeg_le _ Vl' Fl')).
    pose proof (proximity_range _ Ht). pose proof (proximity_range _ Ht').
    apply round1_le; [eapply upto_tame; by apply weighted_range|eapply upto_tame; by apply weighted_range|].
    apply weighted_le; try done; [by apply history_le; [apply finiteNonNeg_le|]| |by apply time_le; [apply finiteNonNeg_le|]].
    rewrite Hitems in Hit', Fv. by eapply scoreEvidence_grows. }
  rewrite Tb, Tc. destruct (decide (directnessTier i = "D0"%string)) as [Di|Di], (decide (directnessTier j = "D0"%string)) as [Dj|Dj];
    rewrite ?(bool_decide_eq_true_2 _ Di), ?(bool_decide_eq_true_2 _ Dj), ?(bool_decide_eq_false_2 _ Di), ?(bool_decide_eq_false_2 _ Dj).
  - const_le.
  - rewrite !Forall_cons in Rj. destruct Rj as (_ & _ & _ & _ & (_ & R & _) & _). exact R.
  - rewrite Dj in Hprox. by apply zero_proximity in Hprox.
  - done.
Qed.

(** ** Tiers *)

Lemma attributionTier_grows t t' : t ⊑ t' -> attributionTier t = strong -> attributionTier t' = strong.
Proof.
  intros H. destruct (num_le_double _ _ H) as [D D']. unfold attributionTier.
  destruct (nle tierThreshold_strong t) eqn:E; [|by destruct (nle tierThreshold_moderate t)].
  intros _. apply nle_true in E; [|const_double|done].
  assert (nle tierThreshold_strong t' = true) as ->; [|done]. apply nle_true; [const_double|done|by eapply num_le_trans].
Qed.

(** ** Concrete claims *)

Definition sample_item : ClaimEvidenceInput := {| evidenceType := "CONTRACT"; verificationState := "API_VERIFIED" |}.

Definition sample_claim : ClaimScoringInput :=
  {| priorCommercialHistoryMonths := num_of_Z 12; directnessTier := "D3"; evidenceItems := [sample_item];
     submissionLagDays := num_of_Z 5; inputVersions := None |}.

(** The same claim with two years more of history, a direct decision-maker,
    a second contract and no lag. *)
Definition better_claim : ClaimScoringInput :=
  {| priorCommercialHistoryMonths := num_of_Z 36; directnessTier := "D4"; evidenceItems := [sample_item] ++ [sample_item];
     submissionLagDays := num_of_Z 0; inputVersions := None |}.

Lemma sample_typed : wellTyped sample_claim.
Proof. repeat split; vm_compute; repeat constructor. Defined.

Lemma better_typed : wellTyped better_claim.
Proof. repeat split; vm_compute; repeat constructor. Defined.

Lemma score_claim_exact_witness : exists b, scoreClaim sample_claim = Ok b /\ total b = weighted b /\ upto hundred (total b).
Proof.
  destruct (score_claim_exact sample_claim sample_typed) as [(_ & b & E & R & _ & H)|(Hn & _)].
  - exists b. split; [exact E|]. split; [apply H; discriminate|]. rewrite !Forall_cons in R. apply R.
  - exfalso. apply Hn. repeat split; vm_compute; reflexivity.
Defined.

Lemma score_claim_monotone_witness : exists b c, scoreClaim sample_claim = Ok b /\ scoreClaim better_claim = Ok c /\ total b ⊑ total c.
Proof.
  destruct (scoreClaim sample_claim) as [b|w] eqn:Eb; [|vm_compute in Eb; discriminate Eb].
  destruct (scoreClaim better_claim) as [c|w] eqn:Ec; [|vm_compute in Ec; discriminate Ec].
  exists b, c. split; [reflexivity|]. split; [reflexivity|].
  refine (score_claim_monotone sample_claim better_claim [sample_item] b c sample_typed better_typed _ _ _ eq_refl Eb Ec); const_le.
Defined.

(** An evidence type that names a member of [Object.prototype] is not
    rejected: the claim is scored NaN. *)
Lemma inherited_evidence_type_scores_nan :
  exists b, scoreClaim {| priorCommercialHistoryMonths := num_of_Z 12; directnessTier := "D3";
      evidenceItems := [{| evidenceType := "constructor"; verificationState := "API_VERIFIED" |}];
      submissionLagDays := num_of_Z 5; inputVersions := None |} = Ok b /\ total b = S754_nan.
Proof. eexists. split; vm_compute; reflexivity. Qed.

(** * The ranking of competing claims

    [rankClaims] sorts with a comparator of binary64 differences.  On scores
    in [0, 100] and time values it is the specified total order, so the
    ranking does not depend on the order of the input, and the ties it
    reports are the claims with the same score and instant. *)

Section Ranking.
Variable Date_parse : string -> jsnum.

(** [Date.parse] returns NaN or a time value: a whole number of milliseconds
    within 100,000,000 days of the epoch. *)
Definition time_values : Prop :=
  forall s, Date_parse s = S754_nan \/ exists t, Z.abs t <= 8640000000000000 /\ Date_parse s = num_of_Z t.

Hypothesis Htime : time_values.

Definition parseable (c : RankableClaim) : Prop := num_isNaN (Date_parse (submittedAt c)) = false.
Definition scored (c : RankableClaim) : Prop := upto hundred (s_total c).

Lemma parseable_tame c : parseable c -> tame (Date_parse (submittedAt c)).
Proof.
  unfold parseable. destruct (Htime (submittedAt c)) as [->|(t & Ht & ->)]; [done|]. intros _. apply int_tame. lia.
Qed.

Definition totalOf (c : RankableClaim) : Z := num_scaled (s_total c).
Definition instantOf (c : RankableClaim) : Z := num_scaled (Date_parse (submittedAt c)).

(** The specified order: higher total, then earlier instant, then identifier. *)
Definition claimOrder : RankableClaim -> RankableClaim -> comparison :=
  cmp_lex (cmp_desc (cmp_on totalOf Z.compare)) (cmp_lex (cmp_on instantOf Z.compare) (cmp_on claimId String.compare)).

#[local] Instance claimOrder_order : CmpOrder claimOrder.
Proof. unfold claimOrder. apply _. Qed.

Lemma compareClaims_order a b : scored a -> scored b -> parseable a -> parseable b ->
  cmp_of_num (compareClaims Date_parse a b) = claimOrder a b.
Proof.
  intros Sa Sb Pa Pb. pose proof (upto_tame _ _ Sa) as Ta. pose proof (upto_tame _ _ Sb) as Tb.
  pose proof (parseable_tame a Pa) as Ia. pose proof (parseable_tame b Pb) as Ib.
  unfold compareClaims, claimOrder, cmp_lex, cmp_desc, cmp_on, totalOf, instantOf, cmp_then.
  destruct (neq (s_total b) (s_total a)) eqn:E; cbn [negb].
  - apply (neq_true _ _ (proj1 Tb) (proj1 Ta)) in E. rewrite E, Z.compare_refl.
    destruct (cmp_nsub _ _ Ia Ib) as [D Ec]. rewrite <- Ec.
    pose proof (neq_zero_cmp _ D) as Hz. set (d := nsub _ _) in *.
    destruct (neq d (num_of_Z 0)) eqn:E0; cbn [negb].
    + rewrite (proj1 Hz eq_refl). by destruct (String.compare (claimId a) (claimId b)).
    + destruct (cmp_of_num d) eqn:Ecmp; try done. by discriminate (proj2 Hz eq_refl).
  - pose proof (neq_false_cmp _ _ Tb Ta E) as Hne. destruct (cmp_nsub _ _ Tb Ta) as [_ Ec]. rewrite <- Ec.
    by destruct (cmp_of_num (nsub (s_total b) (s_total a))).
Qed.

(** ** The sorted arrangement *)

Definition sortedClaims (l : list RankableClaim) : list RankableClaim :=
  sort_by (fun a b => cmp_of_num (compareClaims Date_parse a b)) l.

Lemma sortedClaims_order l : Forall scored l -> Forall parseable l -> sortedClaims l = sort_by claimOrder l.
Proof.
  intros Hs Hp. apply sort_by_ext. intros x y Hx Hy. rewrite Forall_forall in Hs, Hp. apply compareClaims_order; auto.
Qed.

Lemma rankEntries_lookup srt l i k : rankEntries Date_parse srt i l !! k =
  (fun c => {| r_claimId := claimId c; rank := i + Z.of_nat k + 1; r_total := s_total c;
               tiedWith := map claimId (List.filter (tiedTo Date_parse c) srt) |}) <$> (l !! k).
Proof.
  revert i k. induction l as [|c l IH]; intros i [|k]; simpl; try done.
  - do 2 f_equal. lia.
  - rewrite IH. destruct (l !! k); simpl; [|done]. do 2 f_equal. lia.
Qed.

Lemma rankEntries_length srt l i : length (rankEntries Date_parse srt i l) = length l.
Proof. revert i. induction l as [|c l IH]; intros i; simpl; [done|]. by rewrite IH. Qed.

Lemma tied_iff srt c id : c ∈ srt -> Forall scored srt -> Forall parseable srt ->
  id ∈ map claimId (List.filter (tiedTo Date_parse c) srt) <->
  exists o, o ∈ srt /\ claimId o = id /\ id <> claimId c /\ totalOf o = totalOf c /\ instantOf o = instantOf c.
Proof.
  intros Hc Hs Hp. rewrite Forall_forall in Hs, Hp.
  assert (forall o, o ∈ srt -> tiedTo Date_parse c o = true <-> claimId o <> claimId c /\ totalOf o = totalOf c /\ instantOf o = instantOf c) as Ht.
  { intros o Ho. unfold tiedTo. rewrite !andb_true_iff, negb_true_iff, String.eqb_neq.
    pose proof (upto_tame _ _ (Hs _ Hc)) as [D1 _]. pose proof (upto_tame _ _ (Hs _ Ho)) as [D2 _].
    pose proof (parseable_tame _ (Hp _ Hc)) as [D3 _]. pose proof (parseable_tame _ (Hp _ Ho)) as [D4 _].
    rewrite (neq_true _ _ D2 D1), (neq_true _ _ D4 D3). unfold totalOf, instantOf. tauto. }
  rewrite list_elem_of_In, in_map_iff. setoid_rewrite filter_In. setoid_rewrite <- list_elem_of_In. split.
  - intros (o & <- & Ho & E). apply Ht in E as (? & ? & ?); [|done]. by exists o.
  - intros (o & Ho & <- & ? & ? & ?). exists o. split; [done|]. split; [done|]. by apply Ht.
Qed.

Lemma rankClaims_parseable l : Forall parseable l -> rankClaims Date_parse l = Ok (rankEntries Date_parse (sortedClaims l) 0 (sortedClaims l)).
Proof.
  intros H. unfold rankClaims. erewrite mapM_res_pure with (g := fun _ => tt); [done|].
  intros c Hc. rewrite Forall_forall in H. by rewrite (H c Hc).
Qed.

Lemma rankClaims_unparseable l : ~ Forall parseable l ->
  exists c, c ∈ l /\ ~ parseable c /\ rankClaims Date_parse l = Throw (ClaimRankingInputError (claimId c +:+ " has an unparseable submittedAt")).
Proof.
  unfold rankClaims. intros H.
  assert (exists c, c ∈ l /\ ~ parseable c /\ mapM_res (fun claim => throw_if (num_isNaN (Date_parse (submittedAt claim)))
     (ClaimRankingInputError (claimId claim +:+ " has an unparseable submittedAt"))) l = Throw (ClaimRankingInputError (claimId c +:+ " has an unparseable submittedAt"))) as (c & ? & ? & ->); [|by exists c].
  induction l as [|c l IH]; simpl; [by destruct H|]. destruct (num_isNaN (Date_parse (submittedAt c))) eqn:E; simpl.
  - exists c. split; [set_solver|]. split; [|done]. unfold parseable. by rewrite E.
  - destruct IH as (d & Hd & Hn & ->); [intros Hl; apply H; by constructor|]. exists d. split; [set_solver|done].
Qed.

#[global] Instance parseable_dec c : Decision (parseable c).
Proof. unfold parseable. apply _. Defined.

(** With distinct identifiers the arrangement depends on the set alone. *)
Lemma sortedClaims_unique l1 l2 : Forall scored l1 -> Forall parseable l1 -> NoDup (map claimId l1) -> l1 ≡ₚ l2 ->
  sortedClaims l1 = sortedClaims l2.
Proof.
  intros Hs Hp Hnd Hc. rewrite !sortedClaims_order by (done || by rewrite <- Hc).
  apply (sort_by_unique claimOrder); [|done]. intros x y Hx Hy E. apply (NoDup_map_inj claimId l1); [done|done|done|].
  unfold claimOrder, cmp_lex, cmp_desc, cmp_on, cmp_then in E.
  destruct (totalOf y ?= totalOf x); try discriminate E. destruct (instantOf x ?= instantOf y); try discriminate E.
  by apply string_compare_eq.
Qed.

(** Claims with scores in [0, 100] are ranked when every timestamp
    parses and otherwise the ranking throws its input error for one that
    does not.  The entries follow the order "higher total, then earlier
    instant, then identifier", carry consecutive ranks, and list as tied
    exactly the other claims with the same total and instant; and when the
    identifiers are distinct the result does not depend on the order in
    which the claims are given. *)
Theorem rank_claims_exact (claims : list RankableClaim) (Hscored : Forall scored claims) :
  (Forall parseable claims /\ exists sorted entries,
     rankClaims Date_parse claims = Ok entries
     /\ sorted ≡ₚ claims /\ StronglySorted (cmp_le claimOrder) sorted /\ length entries = length claims
     /\ (forall k c e, sorted !! k = Some c -> entries !! k = Some e ->
           r_claimId e = claimId c /\ rank e = Z.of_nat k + 1 /\ r_total e = s_total c
           /\ (forall id, id ∈ tiedWith e <-> exists o, o ∈ claims /\ claimId o = id /\ id <> claimId c
                                                /\ totalOf o = totalOf c /\ instantOf o = instantOf c))
     /\ (forall claims', claims' ≡ₚ claims -> NoDup (map claimId claims) -> rankClaims Date_parse claims' = Ok entries))
  \/ (exists c, c ∈ claims /\ ~ parseable c
        /\ rankClaims Date_parse claims = Throw (ClaimRankingInputError (claimId c +:+ " has an unparseable submittedAt"))).
Proof.
  destruct (decide (Forall parseable claims)) as [Hp|Hp]; [left|right; by apply rankClaims_unparseable].
  split; [done|]. exists (sortedClaims claims), (rankEntries Date_parse (sortedClaims claims) 0 (sortedClaims claims)).
  pose proof (sortedClaims_order claims Hscored Hp) as Eo.
  assert (sortedClaims claims ≡ₚ claims) as Hperm by (rewrite Eo; apply sort_by_perm).
  split; [by apply rankClaims_parseable|]. split; [done|]. split; [rewrite Eo; apply (sort_by_sorted claimOrder)|].
  split; [|split].
  - by rewrite rankEntries_length, Hperm.
  - intros k c e Hc He. rewrite rankEntries_lookup, Hc in He. injection He as <-. simpl.
    split; [done|]. split; [lia|]. split; [done|]. intros id.
    rewrite tied_iff; [|by eapply list_elem_of_lookup_2|by rewrite Hperm|by rewrite Hperm].
    split; intros (o & Ho & Hrest); exists o; (split; [|done]); [by rewrite <- Hperm|by rewrite Hperm].
  - intros claims' Hc Hnd. rewrite rankClaims_parseable by (by rewrite Hc).
    rewrite (sortedClaims_unique claims' claims); [done|by rewrite Hc|by rewrite Hc|by rewrite Hc|done].
Qed.
End Ranking.

(** ** A concrete ranking *)

(** [Date.parse] on two timestamps. *)
Definition sample_parse (s : string) : jsnum :=
  if String.eqb s "2026-01-01T00:00:00.000Z" then num_of_Z 1767225600000
  else if String.eqb s "2026-01-01T00:00:00.000+00:00" then num_of_Z 1767225600000
  else S754_nan.

Lemma sample_parse_values : time_values sample_parse.
Proof.
  intros s. unfold sample_parse. destruct (String.eqb s _); [right; exists 1767225600000; split; [lia|reflexivity]|].
  destruct (String.eqb s _); [right; exists 1767225600000; split; [lia|reflexivity]|by left].
Qed.

Definition sample_claims : list RankableClaim :=
  [{| claimId := "b"; s_total := num_of_Z 70; submittedAt := "2026-01-01T00:00:00.000Z" |};
   {| claimId := "a"; s_total := num_of_Z 70; submittedAt := "2026-01-01T00:00:00.000+00:00" |}].

Lemma rank_claims_exact_witness :
  exists entries, rankClaims sample_parse sample_claims = Ok entries /\ rankClaims sample_parse (rev sample_claims) = Ok entries.
Proof.
  assert (Forall scored sample_claims) as Hs.
  { apply Forall_cons_2; [split; [const_tame|split; const_le]|]. apply Forall_cons_2; [split; [const_tame|split; const_le]|]. apply Forall_nil_2. }
  destruct (rank_claims_exact sample_parse sample_parse_values sample_claims Hs) as [(_ & srt & es & E & _ & _ & _ & _ & H)|(c & Hc & Hp & _)].
  - exists es. split; [exact E|]. apply H; [symmetry; apply (Permutation_rev sample_claims)|].
    apply (bool_decide_eq_true_1 _). vm_compute. reflexivity.
  - exfalso. apply elem_of_cons in Hc as [->|Hc]; [by apply Hp|]. apply elem_of_cons in Hc as [->|Hc]; [by apply Hp|]. by apply elem_of_nil in Hc.
Defined.
