(* ===== verification/JsonText.v ===== *)
(** * JSON values and their text

    The JSON values the services store, hash and seal; [JSON.stringify] and
    [JSON.parse] as ECMAScript defines them.  Strings are UTF-8 bytes; an
    escaped lone surrogate, which has no UTF-8 form, is read as its three-byte
    encoding.  The members of an object are kept in the order of the text
    (integer-like keys, which JavaScript enumerates first, do not occur as keys
    of the objects the services build).  A number is an integer where it is one
    that binary64 holds exactly, and a binary64 value otherwise. *)
From S2P Require Import Prelude Money JsNumber Receipt.
From Stdlib Require Import Ascii.

#[local] Notation text := (list ascii).

Inductive Json : Type :=
| JNull
| JBool (b : bool)
| JNum (n : Z)
| JFloat (x : jsnum)
| JStr (s : string)
| JArr (l : list Json)
| JObj (l : list (string * Json)).

Definition JOpt (o : option string) : Json := match o with Some s => JStr s | None => JNull end.

(** ** Numbers as text

    Number::toString: the shortest digits [s] and the exponent [p] such that
    [s * 10^p] rounds to the number.  The numbers that round to
    [m * 2^e] are between the midpoints to its neighbours, which are counted
    here in units of [2^(e-2)], and include the midpoints when [m] is even. *)

Definition scaled_num (a e2 p : Z) : Z := a * 2 ^ Z.max e2 0 * 10 ^ Z.max (- p) 0.
Definition scaled_den (e2 p : Z) : Z := 2 ^ Z.max (- e2) 0 * 10 ^ Z.max p 0.

Definition round_half_even (a d : Z) : Z :=
  let q := a / d in
  let r := a mod d in
  match Z.compare (2 * r) d with
  | Lt => q
  | Gt => q + 1
  | Eq => if Z.even q then q else q + 1
  end.

(** The digits for one exponent, if there are any. *)
Definition digits_at (m e p : Z) : option Z :=
  let lo := if (m =? 2 ^ 52) && (-1074 <? e) then 4 * m - 1 else 4 * m - 2 in
  let hi := 4 * m + 2 in
  let d := scaled_den (e - 2) p in
  let l := scaled_num lo (e - 2) p in
  let h := scaled_num hi (e - 2) p in
  let smin := if Z.even m then (l + d - 1) / d else l / d + 1 in
  let smax := if Z.even m then h / d else (h + d - 1) / d - 1 in
  if (smin <=? smax) && (1 <=? smax)
  then Some (Z.max (Z.max smin 1) (Z.min smax (round_half_even (scaled_num (4 * m) (e - 2) p) d)))
  else None.

Fixpoint shortest (fuel : nat) (m e p : Z) : Z * Z :=
  match fuel with
  | O => (m, p)
  | S fuel' =>
      match digits_at m e p with
      | Some s => (s, p)
      | None => shortest fuel' m e (p - 1)
      end
  end.

(** An exponent no smaller than the one sought; at most 17 digits follow. *)
Definition topExponent (m e : Z) : Z := (Z.log2 m + e + 1) * 30103 / 100000 + 2.

Definition zeroText (n : Z) : text := repeat "0"%char (Z.to_nat n).

Definition formatDigits (s p : Z) : text :=
  let digits := txt (pretty s) in
  let k := Z.of_nat (length digits) in
  let n := k + p in
  if (k <=? n) && (n <=? 21) then digits ++ zeroText (n - k)
  else if (0 <? n) && (n <=? 21) then take (Z.to_nat n) digits ++ "."%char :: drop (Z.to_nat n) digits
  else if (-6 <? n) && (n <=? 0) then "0"%char :: "."%char :: zeroText (- n) ++ digits
  else
    let exponent := (if 0 <=? n - 1 then "+"%char else "-"%char) :: txt (pretty (Z.abs (n - 1))) in
    match digits with
    | d :: ((_ :: _) as ds) => d :: "."%char :: ds ++ "e"%char :: exponent
    | _ => digits ++ "e"%char :: exponent
    end.

(** [JSON.stringify] of a number. *)
Definition numberText (x : jsnum) : text :=
  match x with
  | S754_zero _ => txt "0"
  | S754_finite sign m e =>
      let '(s, p) := shortest 25 (Z.pos m) e (topExponent (Z.pos m) e) in
      (if sign then ["-"%char] else []) ++ formatDigits s p
  | _ => txt "null"
  end.

Definition integerText (n : Z) : text :=
  if Z.abs n <=? 2 ^ 53 then txt (pretty n) else numberText (num_of_Z n).

(** [JSON.stringify] *)
Fixpoint jsonText (v : Json) : text :=
  match v with
  | JNull => txt "null"
  | JBool true => txt "true"
  | JBool false => txt "false"
  | JNum n => integerText n
  | JFloat x => numberText x
  | JStr s => stringify s
  | JArr l => "["%char :: join (map jsonText l) ++ ["]"%char]
  | JObj l => "{"%char :: join (map (fun kv => stringify (fst kv) ++ ":"%char :: jsonText (snd kv)) l) ++ ["}"%char]
  end.

Example number_texts :
  map (fun x => String.string_of_list_ascii (numberText x))
    [num_lit 1 10; num_lit 625 10; ndiv (num_of_Z 1) (num_of_Z 3); num_of_Z (10 ^ 21); num_lit 1 10000000; num_lit (-15) 1000000; num_of_Z (2 ^ 60);
     S754_finite false 1 (-1074); S754_finite false (2 ^ 53 - 1) 971; S754_zero true; S754_nan]
  = ["0.1"; "62.5"; "0.3333333333333333"; "1e+21"; "1e-7"; "-0.000015"; "1152921504606847000"; "5e-324"; "1.7976931348623157e+308"; "0"; "null"]%string.
Proof. vm_compute. reflexivity. Qed.

(** ** JSON.parse *)

Definition code (c : ascii) : Z := Z.of_nat (nat_of_ascii c).
Definition byte (n : Z) : ascii := ascii_of_nat (Z.to_nat n).

Definition is_ws (c : ascii) : bool := (code c =? 32) || (code c =? 9) || (code c =? 10) || (code c =? 13).

Fixpoint skipWs (l : text) : text :=
  match l with
  | c :: l' => if is_ws c then skipWs l' else l
  | [] => []
  end.

(** The UTF-8 bytes of a code point. *)
Definition utf8 (n : Z) : text :=
  if n <? 128 then [byte n]
  else if n <? 2048 then [byte (192 + n / 64); byte (128 + n mod 64)]
  else if n <? 65536 then [byte (224 + n / 4096); byte (128 + n / 64 mod 64); byte (128 + n mod 64)]
  else [byte (240 + n / 262144); byte (128 + n / 4096 mod 64); byte (128 + n / 64 mod 64); byte (128 + n mod 64)].

(** Four hexadecimal digits. *)
Definition readHex4 (l : text) : option (Z * text) :=
  match l with
  | a :: b :: c :: d :: r =>
      match digits_acc 16 0 [a; b; c; d] with Some n => Some (n, r) | None => None end
  | _ => None
  end.

(** After [\u]: one code unit, or two that form a surrogate pair. *)
Definition readUnit (l : text) : option (text * text) :=
  match readHex4 l with
  | None => None
  | Some (hi, r) =>
      let alone := Some (utf8 hi, r) in
      if (55296 <=? hi) && (hi <? 56320) then
        match r with
        | b :: u :: r' =>
            if Ascii.eqb b backslash && Ascii.eqb u "u"%char then
              match readHex4 r' with
              | Some (lo, r'') =>
                  if (56320 <=? lo) && (lo <? 57344) then Some (utf8 (65536 + (hi - 55296) * 1024 + (lo - 56320)), r'') else alone
              | None => alone
              end
            else alone
        | _ => alone
        end
      else alone
  end.

(** One character of a string, escaped or not. *)
Definition readChar (l : text) : option (text * text) :=
  match l with
  | [] => None
  | c :: l' =>
      if Ascii.eqb c backslash then
        match l' with
        | [] => None
        | d :: r =>
            let n := code d in
            if (n =? 34) || (n =? 92) || (n =? 47) then Some ([d], r)
            else if n =? 98 then Some ([byte 8], r)
            else if n =? 116 then Some ([byte 9], r)
            else if n =? 110 then Some ([byte 10], r)
            else if n =? 102 then Some ([byte 12], r)
            else if n =? 114 then Some ([byte 13], r)
            else if n =? 117 then readUnit r
            else None
        end
      else if code c <? 32 then None
      else Some ([c], l')
  end.

(** The characters up to the closing quote. *)
Fixpoint readChars (fuel : nat) (l : text) : option (text * text) :=
  match fuel, l with
  | S fuel', c :: l' =>
      if Ascii.eqb c dquote then Some ([], l')
      else match readChar l with
           | Some (b, r) => match readChars fuel' r with Some (bs, r') => Some (b ++ bs, r') | None => None end
           | None => None
           end
  | _, _ => None
  end.

Definition readString (l : text) : option (string * text) :=
  match readChars (length l) l with Some (bs, r) => Some (String.string_of_list_ascii bs, r) | None => None end.

Fixpoint spanDigits (l : text) : text * text :=
  match l with
  | c :: l' => match digit_below 10 c with Some _ => let '(ds, r) := spanDigits l' in (c :: ds, r) | None => ([], l) end
  | [] => ([], [])
  end.

(** The binary64 nearest to [± m * 10^e]: a quotient of more than 54 bits with
    a sticky bit rounds as the exact one. *)
Definition decimalValue (negative : bool) (m e : Z) : jsnum :=
  let sgn n := if negative then - n else n in
  let size := e + Z.log2 m * 30103 / 100000 in
  if m =? 0 then S754_zero negative
  else if 400 <? size then S754_infinity negative
  else if size <? -400 then S754_zero negative
  else if 0 <=? e then num_of_Z (sgn (m * 10 ^ e))
  else
    let d := 10 ^ (- e) in
    let b := Z.max 0 (64 + Z.log2 d - Z.log2 m) in
    let q := m * 2 ^ b / d in
    let sticky := if m * 2 ^ b mod d =? 0 then 0 else 1 in
    binary_normalize prec64 emax64 (sgn (2 * q + sticky)) (- (b + 1)) false.

Definition jsonNumber (x : jsnum) : Json :=
  let z := num_scaled x / num_one_scaled in
  match x with
  | S754_zero true => JFloat x
  | _ => if num_isInteger x && (Z.abs z <=? 2 ^ 53) then JNum z else JFloat x
  end.

Definition validIntegerPart (ds : text) : bool :=
  match ds with
  | [] => false
  | [_] => true
  | c :: _ => negb (Ascii.eqb c "0"%char)
  end.

(** The fraction: its digits, after a point. *)
Definition readFraction (l : text) : option (option text * text) :=
  match l with
  | c :: l' =>
      if Ascii.eqb c "."%char then
        match spanDigits l' with
        | ([], _) => None
        | (ds, r) => Some (Some ds, r)
        end
      else Some (None, l)
  | [] => Some (None, [])
  end.

Definition readExponent (l : text) : option (option Z * text) :=
  match l with
  | c :: l' =>
      if Ascii.eqb c "e"%char || Ascii.eqb c "E"%char then
        let '(negative, l'') := match l' with
                                | s :: t => if Ascii.eqb s "-"%char then (true, t) else if Ascii.eqb s "+"%char then (false, t) else (false, l')
                                | [] => (false, [])
                                end in
        let '(ds, r) := spanDigits l'' in
        match digits 10 ds with
        | Some n => Some (Some (if negative then - n else n), r)
        | None => None
        end
      else Some (None, l)
  | [] => Some (None, [])
  end.

Definition integerValue (negative : bool) (n : Z) : Json :=
  if negative && (n =? 0) then JFloat (S754_zero true)
  else if n <=? 2 ^ 53 then JNum (if negative then - n else n)
  else JFloat (num_of_Z (if negative then - n else n)).

Definition readNumber (l : text) : option (Json * text) :=
  let '(negative, l1) := match l with c :: t => if Ascii.eqb c "-"%char then (true, t) else (false, l) | [] => (false, []) end in
  let '(ip, l2) := spanDigits l1 in
  if negb (validIntegerPart ip) then None else
  match readFraction l2 with
  | None => None
  | Some (fp, l3) =>
      match readExponent l3 with
      | None => None
      | Some (ex, l4) =>
          match digits 10 (ip ++ default [] fp), fp, ex with
          | Some n, None, None => Some (integerValue negative n, l4)
          | Some n, _, _ =>
              Some (jsonNumber (decimalValue negative n (default 0 ex - Z.of_nat (length (default [] fp)))), l4)
          | None, _, _ => None
          end
      end
  end.

(** A repeated key overwrites the value and keeps the first position. *)
Fixpoint setMember (k : string) (v : Json) (l : list (string * Json)) : list (string * Json) :=
  match l with
  | [] => [(k, v)]
  | (k', v') :: l' => if String.eqb k k' then (k, v) :: l' else (k', v') :: setMember k v l'
  end.

Definition readKeyword (w : string) (v : Json) (l : text) : option (Json * text) :=
  let n := length (txt w) in
  if bool_decide (take n l = txt w) then Some (v, drop n l) else None.

(** The fuel is the nesting and the number of values: the length of the text
    is enough. *)
Fixpoint readValue (fuel : nat) (l : text) : option (Json * text) :=
  match fuel with
  | O => None
  | S fuel' =>
      match skipWs l with
      | [] => None
      | c :: r =>
          if Ascii.eqb c dquote then match readString r with Some (s, r') => Some (JStr s, r') | None => None end
          else if Ascii.eqb c "["%char then
            match skipWs r with
            | c' :: r' => if Ascii.eqb c' "]"%char then Some (JArr [], r')
                          else match readElements fuel' r with Some (vs, r'') => Some (JArr vs, r'') | None => None end
            | [] => None
            end
          else if Ascii.eqb c "{"%char then
            match skipWs r with
            | c' :: r' => if Ascii.eqb c' "}"%char then Some (JObj [], r')
                          else match readMembers fuel' [] r with Some (ms, r'') => Some (JObj ms, r'') | None => None end
            | [] => None
            end
          else if Ascii.eqb c "t"%char then readKeyword "true" (JBool true) (c :: r)
          else if Ascii.eqb c "f"%char then readKeyword "false" (JBool false) (c :: r)
          else if Ascii.eqb c "n"%char then readKeyword "null" JNull (c :: r)
          else readNumber (c :: r)
      end
  end
with readElements (fuel : nat) (l : text) : option (list Json * text) :=
  match fuel with
  | O => None
  | S fuel' =>
      match readValue fuel' l with
      | None => None
      | Some (v, r) =>
          match skipWs r with
          | c :: r' =>
              if Ascii.eqb c ","%char then
                match readElements fuel' r' with Some (vs, r'') => Some (v :: vs, r'') | None => None end
              else if Ascii.eqb c "]"%char then Some ([v], r')
              else None
          | [] => None
          end
      end
  end
with readMembers (fuel : nat) (acc : list (string * Json)) (l : text) : option (list (string * Json) * text) :=
  match fuel with
  | O => None
  | S fuel' =>
      match skipWs l with
      | q :: l1 =>
          if negb (Ascii.eqb q dquote) then None else
          match readString l1 with
          | None => None
          | Some (k, l2) =>
              match skipWs l2 with
              | c :: l3 =>
                  if negb (Ascii.eqb c ":"%char) then None else
                  match readValue fuel' l3 with
                  | None => None
                  | Some (v, l4) =>
                      match skipWs l4 with
                      | d :: l5 =>
                          if Ascii.eqb d ","%char then readMembers fuel' (setMember k v acc) l5
                          else if Ascii.eqb d "}"%char then Some (setMember k v acc, l5)
                          else None
                      | [] => None
                      end
                  end
              | [] => None
              end
          end
      | [] => None
      end
  end.

Definition jsonParse (l : text) : option Json :=
  match readValue (S (length l)) l with
  | Some (v, r) => match skipWs r with [] => Some v | _ => None end
  | None => None
  end.

Definition parseText (s : string) : option Json := jsonParse (txt s).

Definition quoted (l : list string) : string := String.concat (String (ascii_of_nat 34) EmptyString) l.

Example parses :
  parseText (quoted [" { "; "a"; " : [ 1, -2.5e1 ,0.1,true,null ], "; "\u00e9\ud83d\ude00\n"; ":{}, "; "a"; ":"; "x"; " } "])
  = Some (JObj [("a", JStr "x"); (String (byte 195) (String (byte 169) (String (byte 240) (String (byte 159) (String (byte 152) (String (byte 128)
      (String (byte 10) EmptyString)))))), JObj [])])%string
  /\ parseText "[1, -2.5e1 ,0.1, 123456789012345678901, -0, 1e400]" = Some (JArr [JNum 1; JNum (-25); JFloat (num_lit 1 10);
       JFloat (num_of_Z 123456789012345678901); JFloat (S754_zero true); JFloat (S754_infinity false)])
  /\ parseText "[1,]" = None /\ parseText "01" = None /\ parseText "nul" = None /\ parseText "1 2" = None.
Proof. vm_compute. repeat split. Qed.

(** ** The text of a value reads back *)

Section Induction.
Context (P : Json -> Prop)
  (HNull : P JNull) (HBool : forall b, P (JBool b)) (HNum : forall n, P (JNum n)) (HFloat : forall x, P (JFloat x))
  (HStr : forall s, P (JStr s)) (HArr : forall l, Forall P l -> P (JArr l))
  (HObj : forall l, Forall (fun kv => P (snd kv)) l -> P (JObj l)).

Fixpoint Json_nested (v : Json) : P v :=
  match v with
  | JNull => HNull
  | JBool b => HBool b
  | JNum n => HNum n
  | JFloat x => HFloat x
  | JStr s => HStr s
  | JArr l => HArr l ((fix all l := match l return Forall P l with
                                    | [] => List.Forall_nil _
                                    | x :: l' => List.Forall_cons _ _ _ (Json_nested x) (all l')
                                    end) l)
  | JObj l => HObj l ((fix all l := match l return Forall (fun kv => P (snd kv)) l with
                                    | [] => List.Forall_nil _
                                    | x :: l' => List.Forall_cons _ _ _ (Json_nested (snd x)) (all l')
                                    end) l)
  end.
End Induction.

(** No fractions, integers that binary64 holds exactly, distinct keys. *)
Fixpoint plain (v : Json) : bool :=
  match v with
  | JNum n => Z.abs n <=? 2 ^ 53
  | JFloat _ => false
  | JArr l => forallb plain l
  | JObj l => bool_decide (NoDup (map fst l)) && forallb (fun kv => plain (snd kv)) l
  | _ => true
  end.

(** What may follow a number. *)
Definition delimited (r : text) : Prop :=
  match r with [] => True | c :: _ => c = ","%char \/ c = "]"%char \/ c = "}"%char end.

Lemma readChar_escape c r : readChar (escape c ++ r) = Some ([c], r).
Proof. destruct c as [[] [] [] [] [] [] [] []]; reflexivity. Qed.

Lemma escape_not_quote c : exists d t, escape c = d :: t /\ Ascii.eqb d dquote = false.
Proof. destruct c as [[] [] [] [] [] [] [] []]; eexists _, _; split; reflexivity. Qed.

Lemma readChars_escaped l r fuel : (length l < fuel)%nat ->
  readChars fuel (concat (map escape l) ++ dquote :: r) = Some (l, r).
Proof.
  revert fuel. induction l as [|c l IH]; intros [|fuel] Hf; simpl in Hf; try lia; [done|].
  cbn [map concat]. rewrite <- app_assoc. destruct (escape_not_quote c) as (d & t & E & Hd). cbn [readChars].
  pose proof (readChar_escape c (concat (map escape l) ++ dquote :: r)) as R. rewrite E in *. cbn [app] in *.
  rewrite Hd, R, IH by lia. done.
Qed.

Lemma escaped_length l : (length l <= length (concat (map escape l)))%nat.
Proof.
  induction l as [|c l IH]; simpl; [lia|]. rewrite length_app. destruct (escape_not_quote c) as (d & t & -> & _). simpl. lia.
Qed.

Lemma readString_stringify s r : readString (tail (stringify s ++ r)) = Some (s, r).
Proof.
  unfold readString, stringify. cbn [tail app]. rewrite <- app_assoc. cbn [app].
  rewrite readChars_escaped; [by rewrite String.string_of_list_ascii_of_string|].
  rewrite length_app. simpl. pose proof (escaped_length (txt s)). lia.
Qed.

(** *** Integers *)

Lemma spanDigits_app ds r : Forall (fun c => is_Some (digit_below 10 c)) ds -> delimited r -> spanDigits (ds ++ r) = (ds, r).
Proof.
  intros Hds Hr. induction Hds as [|c ds [d Hc] _ IH].
  - destruct r as [|c r]; [done|]. simpl. by destruct Hr as [->|[->| ->]].
  - simpl. by rewrite Hc, IH.
Qed.

Lemma pretty_N_go_leading x s : (0 < x)%N -> exists c s', pretty_N_go x s = String c s' /\ c <> "0"%char.
Proof.
  revert s. induction (N.lt_wf_0 x) as [x _ IH]; intros s Hx. rewrite pretty_N_go_step by done.
  destruct (decide (x < 10)%N) as [Hs|Hs].
  - rewrite N.div_small, pretty_N_go_0, N.mod_small by done. eexists _, _. split; [done|].
    assert (x = 1 \/ x = 2 \/ x = 3 \/ x = 4 \/ x = 5 \/ x = 6 \/ x = 7 \/ x = 8 \/ x = 9)%N as Hc by lia.
    by repeat destruct Hc as [->|Hc]; [..|subst x].
  - apply IH; [apply N.div_lt; lia|]. apply N.div_str_pos. lia.
Qed.

Lemma pretty_pos_digits p : exists c ds, txt (pretty (Z.pos p)) = c :: ds /\ c <> "0"%char /\ decimal (c :: ds)
  /\ digits_acc 10 0 (c :: ds) = Some (Z.pos p).
Proof.
  change (pretty (Z.pos p)) with (pretty (N.pos p)). pose proof (digits_pretty_N_go (N.pos p) "") as D.
  change (pretty (N.pos p)) with (pretty_N_go (N.pos p) ""). destruct (pretty_N_go_leading (N.pos p) "" ltac:(lia)) as (c & s' & E & Hc).
  rewrite E in *. exists c, (txt s'). split; [done|]. split; [done|]. simpl in D.
  assert (digits_acc 10 0 (c :: txt s') = Some (Z.pos p)) as D' by exact D.
  split; [by eapply digits_acc_decimal|done].
Qed.

Lemma pretty_neg p : txt (pretty (Z.neg p)) = "-"%char :: txt (pretty (Z.pos p)).
Proof. done. Qed.

Lemma digit_not_minus c : is_Some (digit_below 10 c) -> Ascii.eqb c "-"%char = false.
Proof. destruct c as [[] [] [] [] [] [] [] []]; intros [d H]; try done; vm_compute in H; discriminate. Qed.

Lemma tail_fraction r : delimited r -> readFraction r = Some (None, r).
Proof. destruct r as [|c r]; [done|]. by intros [->|[->| ->]]. Qed.

Lemma tail_exponent r : delimited r -> readExponent r = Some (None, r).
Proof. destruct r as [|c r]; [done|]. by intros [->|[->| ->]]. Qed.

Lemma readNumber_pos p r (negative : bool) : Z.pos p <= 2 ^ 53 -> delimited r ->
  readNumber ((if negative then ["-"%char] else []) ++ txt (pretty (Z.pos p)) ++ r)
  = Some (JNum (if negative then Z.neg p else Z.pos p), r).
Proof.
  intros Hp Hr. destruct (pretty_pos_digits p) as (c & ds & -> & Hc & [_ Hd] & D). unfold readNumber.
  pose proof (spanDigits_app (c :: ds) r Hd Hr) as S. cbn [app] in S.
  assert (validIntegerPart (c :: ds) = true) as V.
  { destruct ds; [done|]. cbn. by destruct (Ascii.eqb_spec c "0"%char). }
  assert (integerValue negative (Z.pos p) = JNum (if negative then Z.neg p else Z.pos p)) as I.
  { unfold integerValue. rewrite andb_false_r, (proj2 (Z.leb_le _ _)) by done. by destruct negative. }
  destruct negative.
  - cbn [app]. change (Ascii.eqb "-" "-") with true. cbn iota. rewrite S, V. cbn [negb].
    rewrite tail_fraction, tail_exponent by done. cbn [default]. rewrite app_nil_r.
    change (digits 10 (c :: ds)) with (digits_acc 10 0 (c :: ds)). by rewrite D, I.
  - cbn [app]. rewrite digit_not_minus by (by inversion Hd). cbn iota. rewrite S, V. cbn [negb].
    rewrite tail_fraction, tail_exponent by done. cbn [default]. rewrite app_nil_r.
    change (digits 10 (c :: ds)) with (digits_acc 10 0 (c :: ds)). by rewrite D, I.
Qed.

Lemma readNumber_integer n r : Z.abs n <= 2 ^ 53 -> delimited r -> readNumber (txt (pretty n) ++ r) = Some (JNum n, r).
Proof.
  intros Hn Hr. destruct n as [|p|p].
  - unfold readNumber. change (txt (pretty 0)) with ["0"%char]. cbn [app]. change (Ascii.eqb "0" "-") with false. cbn iota.
    change ("0"%char :: r) with (["0"%char] ++ r). rewrite spanDigits_app by (done || by repeat constructor).
    cbn [validIntegerPart negb]. by rewrite tail_fraction, tail_exponent.
  - by apply (readNumber_pos p r false).
  - rewrite pretty_neg. by apply (readNumber_pos p r true).
Qed.

(** *** Values *)

(** No value starts with a space or a closing bracket. *)
Definition opens (c : ascii) : Prop :=
  is_ws c = false /\ Ascii.eqb c "]"%char = false /\ Ascii.eqb c "}"%char = false.

Definition reads (v : Json) : Prop :=
  forall fuel r, (length (jsonText v) <= fuel)%nat -> delimited r -> readValue fuel (jsonText v ++ r) = Some (v, r).

Lemma opens_digit c : is_Some (digit_below 10 c) -> opens c.
Proof. destruct c as [[] [] [] [] [] [] [] []]; intros [d H]; try (by repeat split); vm_compute in H; discriminate. Qed.

Lemma integerText_plain n : plain (JNum n) = true -> integerText n = txt (pretty n).
Proof. simpl. unfold integerText. by intros ->. Qed.

Lemma text_opens v : plain v = true -> exists c t, jsonText v = c :: t /\ opens c.
Proof.
  destruct v as [|[]|n|x|s|l|l]; intros Hv; [eexists _, _; split; [reflexivity|by repeat split] ..| |done| | |];
    try (eexists _, _; split; [reflexivity|by repeat split]).
  cbn [jsonText]. rewrite integerText_plain by done. destruct n as [|p|p].
  - eexists _, _. split; [reflexivity|by repeat split].
  - destruct (pretty_pos_digits p) as (c & ds & -> & _ & [_ Hd] & _). eexists _, _. split; [done|].
    apply opens_digit. by inversion Hd.
  - rewrite pretty_neg. eexists _, _. split; [done|by repeat split].
Qed.

Lemma skipWs_opens c r : is_ws c = false -> skipWs (c :: r) = c :: r.
Proof. intros H. simpl. by rewrite H. Qed.

(** Dispatch on the first character of a number. *)
Lemma readValue_number c t fuel : is_Some (digit_below 10 c) \/ c = "-"%char -> readValue (S fuel) (c :: t) = readNumber (c :: t).
Proof. destruct c as [[] [] [] [] [] [] [] []]; intros [[d H]|H]; try done; vm_compute in H; discriminate. Qed.

Lemma reads_number n : plain (JNum n) = true -> reads (JNum n).
Proof.
  intros Hn fuel r Hf Hr. cbn [jsonText] in *. rewrite integerText_plain in * by done. simpl in Hn. apply Z.leb_le in Hn.
  pose proof (readNumber_integer n r Hn Hr) as R. destruct n as [|p|p].
  - destruct fuel as [|fuel]; [simpl in Hf; lia|]. done.
  - destruct (pretty_pos_digits p) as (c & ds & E & _ & [_ Hd] & _). rewrite E in *. destruct fuel as [|fuel]; [simpl in Hf; lia|].
    cbn [app] in *. rewrite readValue_number; [done|]. left. by inversion Hd.
  - rewrite pretty_neg in *. destruct fuel as [|fuel]; [simpl in Hf; lia|]. cbn [app] in *. rewrite readValue_number; [done|]. by right.
Qed.

Lemma reads_elements l : l <> [] -> Forall reads l -> forall fuel r, (length (join (map jsonText l)) < fuel)%nat ->
  readElements fuel (join (map jsonText l) ++ "]"%char :: r) = Some (l, r).
Proof.
  intros Hne Hl. induction Hl as [|v l Hv Hl IH]; [done|]. intros [|fuel] r Hf; [lia|]. destruct l as [|v' l].
  - cbn [map join] in *. cbn [readElements]. rewrite Hv; [done|lia|by right; left].
  - change (join (map jsonText (v :: v' :: l))) with (jsonText v ++ ","%char :: join (map jsonText (v' :: l))) in *.
    rewrite length_app in Hf. cbn [length] in Hf. rewrite <- app_assoc. cbn [app readElements]. rewrite Hv; [|lia|by left].
    rewrite skipWs_opens by done. change (Ascii.eqb "," ",") with true. cbn iota. rewrite IH; [done..|lia].
Qed.

Definition memberText (kv : string * Json) : text := stringify (fst kv) ++ ":"%char :: jsonText (snd kv).

Lemma setMember_new k v l : k ∉ map fst l -> setMember k v l = l ++ [(k, v)].
Proof.
  induction l as [|[k' v'] l IH]; [done|]. simpl. rewrite not_elem_of_cons. intros [Hne Hni].
  destruct (String.eqb_spec k k'); [done|]. by rewrite IH.
Qed.

Lemma reads_members l : l <> [] -> Forall (fun kv => reads (snd kv)) l -> NoDup (map fst l) -> forall fuel acc r,
  (length (join (map memberText l)) < fuel)%nat -> (forall k, k ∈ map fst acc -> k ∉ map fst l) ->
  readMembers fuel acc (join (map memberText l) ++ "}"%char :: r) = Some (acc ++ l, r).
Proof.
  intros Hne Hl. induction Hl as [|[k v] l Hv Hl IH]; [done|]. intros [Hk Hnd]%NoDup_cons [|fuel] acc r Hf Hacc; [lia|].
  assert (setMember k v acc = acc ++ [(k, v)]) as Hset.
  { apply setMember_new. intros Hin. apply (Hacc k Hin). simpl. apply elem_of_cons. by left. }
  simpl in Hv. assert (length (memberText (k, v)) = length (stringify k) + S (length (jsonText v)))%nat as Hlen
    by (unfold memberText; simpl; by rewrite length_app).
  assert (forall t, readMembers (S fuel) acc (memberText (k, v) ++ t)
    = match readValue fuel (jsonText v ++ t) with
      | None => None
      | Some (v, l4) =>
          match skipWs l4 with
          | d :: l5 => if Ascii.eqb d ","%char then readMembers fuel (setMember k v acc) l5
                       else if Ascii.eqb d "}"%char then Some (setMember k v acc, l5) else None
          | [] => None
          end
      end) as Step.
  { intros t. unfold memberText. cbn [fst snd]. rewrite <- app_assoc. cbn [app].
    pose proof (readString_stringify k (":"%char :: jsonText v ++ t)) as R. unfold stringify at 1 in R.
    cbn [app tail] in R. unfold stringify at 1. cbn [app readMembers]. rewrite skipWs_opens by done.
    change (Ascii.eqb dquote dquote) with true. cbn [negb]. rewrite R. rewrite skipWs_opens by done. done. }
  destruct l as [|kv' l].
  - cbn [map join] in *. rewrite Step, Hv; [|lia|by right; right]. rewrite skipWs_opens by done. cbn. by rewrite Hset.
  - change (join (map memberText ((k, v) :: kv' :: l))) with (memberText (k, v) ++ ","%char :: join (map memberText (kv' :: l))) in *.
    rewrite length_app in Hf. cbn [length] in Hf. rewrite <- app_assoc, Step. cbn [app]. rewrite Hv; [|lia|by left].
    rewrite skipWs_opens by done. change (Ascii.eqb "," ",") with true. cbn iota. rewrite Hset, IH; [by rewrite <- app_assoc|done..|lia|].
    intros x. rewrite map_app, elem_of_app. simpl. rewrite list_elem_of_singleton. intros [Hx|<-]; [|done].
    specialize (Hacc x Hx). simpl in Hacc. rewrite not_elem_of_cons in Hacc. tauto.
Qed.

Lemma forallb_Forall_impl {A} (f : A -> bool) (P : A -> Prop) l :
  Forall (fun x => f x = true -> P x) l -> forallb f l = true -> Forall P l.
Proof.
  induction 1 as [|x l Hx Hl IH]; [done|]. simpl. rewrite andb_true_iff. intros [H1 H2]. constructor; auto.
Qed.

Lemma reads_plain v : plain v = true -> reads v.
Proof.
  induction v as [|b|n|x|s|l IH|l IH] using Json_nested; intros Hv; [| |by apply reads_number|done| | |];
    intros [|fuel] r Hf Hr; try (by simpl in Hf; try destruct b; simpl in Hf; lia).
  - done.
  - by destruct b.
  - cbn [jsonText]. pose proof (readString_stringify s r) as R. unfold stringify in *. cbn [app tail] in *. cbn [readValue].
    rewrite skipWs_opens by done. change (Ascii.eqb dquote dquote) with true. cbn iota. by rewrite R.
  - simpl in Hv. pose proof (forallb_Forall_impl _ _ _ IH Hv) as Hl. cbn [jsonText] in *. cbn [app]. rewrite <- app_assoc. cbn [app].
    cbn [readValue]. rewrite skipWs_opens by done. change (Ascii.eqb "[" dquote) with false. change (Ascii.eqb "[" "[") with true. cbn iota.
    destruct l as [|v l]; [done|]. assert (plain v = true) as Hpv by (simpl in Hv; by apply andb_true_iff in Hv as []).
    destruct (text_opens v Hpv) as (c & t & E & Hw & Hc & _).
    assert (exists t', join (map jsonText (v :: l)) ++ "]"%char :: r = c :: t') as [t' E'].
    { destruct l; simpl; rewrite E; simpl; eauto. }
    rewrite E', skipWs_opens by done. rewrite Hc, <- E'. rewrite reads_elements; [done..|].
    simpl length in Hf. rewrite length_app in Hf. simpl in Hf. simpl. lia.
  - simpl in Hv. apply andb_true_iff in Hv as [Hnd%bool_decide_eq_true Hv]. pose proof (forallb_Forall_impl _ _ _ IH Hv) as Hl.
    cbn [jsonText] in *. change (map (fun kv => stringify (fst kv) ++ ":"%char :: jsonText (snd kv)) l) with (map memberText l) in *.
    cbn [app]. rewrite <- app_assoc. cbn [app].
    cbn [readValue]. rewrite skipWs_opens by done. change (Ascii.eqb "{" dquote) with false. change (Ascii.eqb "{" "[") with false.
    change (Ascii.eqb "{" "{") with true. cbn iota.
    destruct l as [|kv l]; [done|].
    assert (exists t', join (map memberText (kv :: l)) ++ "}"%char :: r = dquote :: t') as [t' E'].
    { destruct l; simpl; eauto. }
    rewrite E', skipWs_opens by done. change (Ascii.eqb dquote "}") with false. cbn iota. rewrite <- E'.
    rewrite reads_members; [done..| |by intros k []%elem_of_nil].
    cbn [length] in Hf. rewrite length_app in Hf. cbn [length] in Hf. lia.
Qed.

(** Parsing what was stringified returns the value, for every value without
    fractional numbers whose integers are exact and whose keys are distinct. *)
Lemma json_roundtrip v : plain v = true -> jsonParse (jsonText v) = Some v.
Proof.
  intros Hv. unfold jsonParse. pose proof (reads_plain v Hv (S (length (jsonText v))) [] ltac:(lia) I) as R.
  rewrite app_nil_r in R. by rewrite R.
Qed.

(** * packages/db/src/json-guards.ts

    The shape checks before a Json column is written.  A [Json] value has
    neither functions, symbols, bigints nor cycles, so of
    [assertJsonSerializable] the checks of numbers and of key names remain. *)

Definition DANGEROUS_JSON_KEYS : list string := ["__proto__"; "constructor"; "prototype"].

(** [assertStringArray]: the message names the first offending item. *)
Definition assertStringArray (value : Json) (fieldName : string) : res unit :=
  match value with
  | JArr l =>
      do! mapM_res (fun item => match item with
                                | JStr _ => Ok tt
                                | _ => Throw (JsonShapeError (fieldName +:+ "[] must be a string"))
                                end) l;
      Ok tt
  | _ => Throw (JsonShapeError (fieldName +:+ " must be an array"))
  end.

Fixpoint assertJsonSerializable (value : Json) (path : string) : res unit :=
  match value with
  | JNull | JStr _ | JBool _ | JNum _ => Ok tt
  | JFloat x => throw_if (negb (num_isFinite x)) (JsonShapeError (path +:+ " must be a finite number"))
  | JArr l =>
      (fix items (l : list Json) : res unit :=
         match l with
         | [] => Ok tt
         | item :: rest => do! assertJsonSerializable item (path +:+ "[]"); items rest
         end) l
  | JObj l =>
      (fix members (l : list (string * Json)) : res unit :=
         match l with
         | [] => Ok tt
         | (key, item) :: rest =>
             do! throw_if (bool_decide (key ∈ DANGEROUS_JSON_KEYS)) (JsonShapeError (path +:+ "." +:+ key +:+ " uses a reserved key name"));
             do! assertJsonSerializable item (path +:+ "." +:+ key);
             members rest
         end) l
  end.

Definition assertJsonSafePlainObject (value : Json) (fieldName : string) : res unit :=
  match value with
  | JObj _ => assertJsonSerializable value fieldName
  | _ => Throw (JsonShapeError (fieldName +:+ " must be a plain object"))
  end.

Definition assertJsonSafeObjectArray (value : Json) (fieldName : string) : res unit :=
  match value with
  | JArr l => do! mapM_res (fun item => assertJsonSafePlainObject item (fieldName +:+ "[]")) l; Ok tt
  | _ => Throw (JsonShapeError (fieldName +:+ " must be an array"))
  end.

(** For a fact's value: present, and serializable. *)
Definition assertJsonSerializableValue (value : option Json) (fieldName : string) : res unit :=
  match value with
  | None | Some JNull => Throw (JsonShapeError (fieldName +:+ " must not be null/undefined"))
  | Some v => assertJsonSerializable v fieldName
  end.

(** ** What the guards accept *)

Fixpoint json_safe (v : Json) : bool :=
  match v with
  | JFloat x => num_isFinite x
  | JArr l => forallb json_safe l
  | JObj l => forallb (fun kv => negb (bool_decide (fst kv ∈ DANGEROUS_JSON_KEYS)) && json_safe (snd kv)) l
  | _ => true
  end.

Definition is_object (v : Json) : bool := match v with JObj _ => true | _ => false end.

Lemma assertJsonSerializable_spec v : forall path, assertJsonSerializable v path = Ok tt <-> json_safe v = true.
Proof.
  induction v as [| | | x | |l IH|l IH] using Json_nested; intros path; cbn [assertJsonSerializable json_safe]; try done.
  - by destruct (num_isFinite x).
  - induction IH as [|v l Hv _ IHl]; [done|]. cbn [forallb]. rewrite andb_true_iff, <- (Hv (path +:+ "[]")), <- IHl.
    destruct (assertJsonSerializable v _) as [[]|]; simpl; [tauto|]. split; [done|by intros []].
  - induction IH as [|[k v] l Hv _ IHl]; [done|]. cbn [forallb fst snd] in *. rewrite !andb_true_iff, <- (Hv (path +:+ "." +:+ k)), <- IHl.
    destruct (bool_decide _); simpl; [split; [done|by intros [[] _]]|].
    destruct (assertJsonSerializable v _) as [[]|]; simpl; [tauto|]. split; [done|]. intros [[_ ?] _]. done.
Qed.

Lemma safe_object_spec v f : assertJsonSafePlainObject v f = Ok tt <-> is_object v = true /\ json_safe v = true.
Proof.
  unfold assertJsonSafePlainObject. destruct v; try (split; [done|by intros []]). rewrite assertJsonSerializable_spec. by split; [|intros []].
Qed.

Lemma mapM_res_unit {A} (f : A -> res unit) (p : A -> bool) l : (forall a, f a = Ok tt <-> p a = true) ->
  (exists us, mapM_res f l = Ok us) <-> forallb p l = true.
Proof.
  intros Hf. induction l as [|a l IH]; cbn [mapM_res forallb]; [split; eauto|]. rewrite andb_true_iff, <- Hf, <- IH.
  destruct (f a) as [[]|]; cbn [rbind]; [|split; [by intros []|by intros []]].
  destruct (mapM_res f l) as [us|]; cbn [rbind]; split; try (intros [? ?]; done); intros _; [split; eauto|eauto].
Qed.

Lemma safe_array_spec v f : assertJsonSafeObjectArray v f = Ok tt <->
  exists l, v = JArr l /\ forallb (fun x => is_object x && json_safe x) l = true.
Proof.
  unfold assertJsonSafeObjectArray. destruct v as [| | | | |l|l]; try (split; [done|by intros (? & ? & _)]).
  assert ((exists us, mapM_res (fun item => assertJsonSafePlainObject item (f +:+ "[]")) l = Ok us)
    <-> forallb (fun x => is_object x && json_safe x) l = true) as H.
  { apply mapM_res_unit. intros a. by rewrite safe_object_spec, andb_true_iff. }
  destruct (mapM_res _ l) as [us|]; cbn [rbind]; split.
  - intros _. exists l. split; [done|]. apply H. eauto.
  - done.
  - done.
  - intros (l' & [= <-] & Hl). apply H in Hl as [? ?]. done.
Qed.

Lemma string_array_spec v f : assertStringArray v f = Ok tt <-> exists l, v = JArr (map JStr l).
Proof.
  unfold assertStringArray. destruct v as [| | | | |l|l]; try (split; [done|by intros (? & ?)]).
  induction l as [|v l IH]; cbn [mapM_res]; [split; [by exists []|done]|].
  destruct v; cbn [rbind]; try (split; [done|by intros ([|? ?] & ?)]).
  destruct (mapM_res _ l) as [us|]; cbn [rbind] in *; split.
  - intros _. destruct (proj1 IH eq_refl) as (l' & [= ->]). by exists (s :: l').
  - done.
  - done.
  - intros ([|s' l'] & [= -> ->]). destruct (proj2 IH); [by exists l'|done].
Qed.
