(* ===== verification/Database.v ===== *)
(** * packages/db: the database as the services see it

    prisma/schema.prisma's models as Records (a Module per model), a table as
    the list of its rows in the order of insertion, and the database as the
    Record of its tables with one update function per table.  [base] holds the
    bookkeeping columns every model repeats.  The columns that no service
    reads or writes (most updatedAt, effectiveFrom, effectiveTo, retiredAt, the
    RecordStatus default) are left out.  [Db] also holds what the platform
    supplies: the clock and how many identifiers have been drawn.

    A query is [List.find] or [List.filter] with the source's [where], ordered
    by the stable [sort_by] where the source orders: rows with equal
    timestamps come in insertion order.  Generated from the schema by hand;
    [Row] is the interface the generic queries use. *)
From S2P Require Import Prelude StableSort DomainStates AuthzMatrix JsNumber Eligibility MatchScoring Attribution JsonText.
From Stdlib Require Import Sorted.

(** ** Values of the platform *)

(** Identifiers and date parsing are the platform's: [newId n] is the result
    of the [n]-th call of packages/db/src/ids.ts's [newId] (its 74 random bits
    make collisions negligible, here impossible), and [parseDate] is the time
    value of [new Date(str)], [None] for an Invalid Date.  [collate] is the
    order in which PostgreSQL sorts text. *)
Class Platform := {
  newId : nat -> string;
  newId_inj :: Inj (=) (=) newId;
  newId_nonempty : forall n, newId n <> "";
  parseDate : string -> option Z;
  collate : string -> string -> comparison
}.

(** The columns shared by every model. *)
Module SourceType.
Inductive t : Type := PLATFORM | IMPORT | CONNECTOR | MIGRATION | SYSTEM.
End SourceType.

(** The enums only the database knows. *)
Module OrganizationType.
Inductive t : Type := PLATFORM | MERCHANT | PSP | ACQUIRER | PROVIDER | PARTNER | OTHER.
End OrganizationType.

Module VerificationStatus.
Inductive t : Type := UNVERIFIED | PENDING | VERIFIED | REJECTED.
End VerificationStatus.

Module OpportunityType.
Inductive t : Type := ACQUIRING | PSP_ROUTING | BACKUP_PROCESSING.
End OpportunityType.

Module PacketType.
Inductive t : Type := MATCH_SUMMARY | QUALIFIED_RFQ | DUE_DILIGENCE | RESTRICTED.
End PacketType.

Module EvidenceSourceKind.
Inductive t : Type := FILE | API | ATTESTATION.
Definition name (k : t) : string := match k with FILE => "FILE" | API => "API" | ATTESTATION => "ATTESTATION" end.
End EvidenceSourceKind.

Module ParticipantRole.
Inductive t : Type := MERCHANT | PROVIDER | OPERATOR.
End ParticipantRole.

Module UserStatus.
Inductive t : Type := ACTIVE | SUSPENDED | INVITED.
End UserStatus.

Module MembershipStatus.
Inductive t : Type := INVITED | ACTIVE | SUSPENDED | REVOKED.
Definition name (s : t) : string :=
  match s with INVITED => "INVITED" | ACTIVE => "ACTIVE" | SUSPENDED => "SUSPENDED" | REVOKED => "REVOKED" end.
#[global] Instance t_eq_dec : EqDecision t.
Proof. solve_decision. Defined.
End MembershipStatus.

Module RecordStatus.
Inductive t : Type := ACTIVE | RETIRED.
#[global] Instance t_eq_dec : EqDecision t.
Proof. solve_decision. Defined.
End RecordStatus.

(** CapacityProfile.commercialTerms, a JSON column of CommercialTermsSchema's shape. *)
Record CommercialTerms : Type := { ct_mdrBps : Z; ct_fixedFeeMinor : Z; ct_model : PricingModel }.

Record Base : Type := {
  createdAt : Z;
  createdByUserId : option string;
  createdByOrgId : option string;
  updatedByUserId : option string;
  version : Z;
  privacyClass : Roles.DisclosureClass;
  sourceType : SourceType.t;
  sourceReference : option string
}.

(** [updatedByUserId] set and [version: { increment: 1 }] *)
Definition touch (b : Base) (updatedBy : option string) : Base :=
  {| createdAt := createdAt b; createdByUserId := createdByUserId b; createdByOrgId := createdByOrgId b;
     updatedByUserId := updatedBy; version := version b + 1; privacyClass := privacyClass b;
     sourceType := sourceType b; sourceReference := sourceReference b |}.

Class Row (R : Type) := { row_id : R -> string; row_createdAt : R -> Z }.

Module DealRoomRow.
Record t : Type := {
  id : string;
  opportunityId : string;
  rfqId : string;
  selectedQuoteId : string;
  merchantOrgId : string;
  providerOrgId : string;
  status : DealRoom.DealRoomStatus;
  nextAction : option string;
  base : Base
}.
#[export] Instance row : Row t := {| row_id := id; row_createdAt r := createdAt (base r) |}.
End DealRoomRow.

Module CommissionScheduleRow.
Record t : Type := {
  id : string;
  dealRoomId : string;
  scheduleFamilyId : string;
  versionNumber : Z;
  previousVersionId : option string;
  basis : Schedule.CommissionBasis;
  status : Schedule.CommissionScheduleStatus;
  capMinor : option Z;
  floorMinor : option Z;
  survivalMonths : option Z;
  description : option string;
  base : Base
}.
#[export] Instance row : Row t := {| row_id := id; row_createdAt r := createdAt (base r) |}.
End CommissionScheduleRow.

Module CommissionComponentRow.
Record t : Type := {
  id : string;
  scheduleId : string;
  recipientType : Recipient.CommissionRecipientType;
  recipientOrgId : string;
  componentType : Ledger.CommissionComponentType;
  bps : option Z;
  fixedAmountMinor : option Z;
  calculationBasis : option Schedule.CommissionBasis;
  priority : Z;
  claimId : option string;
  base : Base
}.
#[export] Instance row : Row t := {| row_id := id; row_createdAt r := createdAt (base r) |}.
End CommissionComponentRow.

Module RevenueEventRow.
Record t : Type := {
  id : string;
  dealRoomId : string;
  scheduleId : string;
  basis : Schedule.CommissionBasis;
  period : string;
  source : string;
  grossAmountMinor : Z;
  deductionsMinor : Z;
  netDistributableMinor : Z;
  currency : string;
  recognizedAt : Z;
  base : Base
}.
#[export] Instance row : Row t := {| row_id := id; row_createdAt r := createdAt (base r) |}.
End RevenueEventRow.

Module CommissionAccrualRow.
Record t : Type := {
  id : string;
  accrualRootId : string;
  entryType : Ledger.LedgerEntryType;
  direction : Ledger.LedgerDirection;
  amountMinor : Z;
  currency : string;
  dealRoomId : string;
  revenueEventId : string;
  scheduleId : string;
  scheduleVersion : Z;
  componentId : string;
  recipientOrgId : string;
  claimId : option string;
  paymentId : option string;
  reason : option string;
  approverUserId : option string;
  approverOrgId : option string;
  calculationVersion : string;
  inputVersions : list string;
  computedAt : Z;
  base : Base
}.
#[export] Instance row : Row t := {| row_id := id; row_createdAt r := createdAt (base r) |}.
End CommissionAccrualRow.

Module CommissionPaymentRow.
Record t : Type := {
  id : string;
  dealRoomId : string;
  recipientOrgId : string;
  totalAmountMinor : Z;
  currency : string;
  paidAt : Z;
  reference : string;
  evidenceRef : option string;
  base : Base
}.
#[export] Instance row : Row t := {| row_id := id; row_createdAt r := createdAt (base r) |}.
End CommissionPaymentRow.

Module OrganizationRow.
Record t : Type := {
  id : string;
  legalName : string;
  displayName : string;
  entityType : OrganizationType.t;
  country : string;
  registrationId : option string;
  website : option string;
  verificationStatus : VerificationStatus.t;
  base : Base
}.
#[export] Instance row : Row t := {| row_id := id; row_createdAt r := createdAt (base r) |}.
End OrganizationRow.

Module OpportunityRow.
Record t : Type := {
  id : string;
  ownerOrgId : string;
  opportunityType : OpportunityType.t;
  requestedService : string;
  status : Opportunity.OpportunityStatus;
  currency : string;
  totalPaymentVolumeMinor : Z;
  totalCardGpvMinor : Z;
  eligibleCardGpvMinor : Z;
  offeredCardGpvMinor : Z;
  movableNowMinor : Z;
  movable30dMinor : Z;
  movable90dMinor : Z;
  jurisdictions : list string;
  mccs : list string;
  base : Base
}.
#[export] Instance row : Row t := {| row_id := id; row_createdAt r := createdAt (base r) |}.
End OpportunityRow.

Module ClaimRow.
Record t : Type := {
  id : string;
  claimantOrgId : string;
  claimantUserId : string;
  subjectOrgId : string;
  relationshipType : string;
  directnessTier : ClaimVocabulary.DirectnessTier;
  opportunityId : option string;
  claimScope : Json;
  status : Claim.ClaimStatus;
  priorCommercialHistoryMonths : Z;
  submissionLagDays : Z;
  scoreBreakdown : option ClaimScoreBreakdown;
  scoreTotal : option jsnum;
  algorithmVersion : option string;
  inputVersions : list string;
  scoredAt : option Z;
  provisionalExpiresAt : option Z;
  base : Base
}.
#[export] Instance row : Row t := {| row_id := id; row_createdAt r := createdAt (base r) |}.
End ClaimRow.

Module ClaimEvidenceRow.
Record t : Type := {
  id : string;
  claimId : string;
  evidenceType : ClaimVocabulary.ClaimEvidenceType;
  assertedFact : string;
  verificationState : ClaimVocabulary.EvidenceVerificationState;
  evidenceRef : option string;
  base : Base
}.
#[export] Instance row : Row t := {| row_id := id; row_createdAt r := createdAt (base r) |}.
End ClaimEvidenceRow.

Module ClaimDecisionRow.
Record t : Type := {
  id : string;
  claimId : string;
  disputeId : option string;
  decision : ClaimDecision.ClaimDecisionOutcome;
  scoreBreakdown : ClaimScoreBreakdown;
  algorithmVersion : string;
  ruleVersion : string;
  reviewerUserId : string;
  reviewerOrgId : string;
  reason : string;
  appealStatus : ClaimDecision.ClaimAppealStatus;
  effectiveFrom : Z;
  effectiveTo : option Z;
  base : Base
}.
#[export] Instance row : Row t := {| row_id := id; row_createdAt r := createdAt (base r) |}.
End ClaimDecisionRow.

Module ClaimDisputeRow.
Record t : Type := {
  id : string;
  claimId : string;
  challengerOrgId : string;
  challengerUserId : string;
  basis : string;
  evidence : list Json;
  status : ClaimDispute.ClaimDisputeStatus;
  resolution : option ClaimDispute.ClaimDisputeResolution;
  base : Base
}.
#[export] Instance row : Row t := {| row_id := id; row_createdAt r := createdAt (base r) |}.
End ClaimDisputeRow.

Module LockboxRow.
Record t : Type := {
  id : string;
  sealerOrgId : string;
  relationshipType : Lockbox.LockboxRelationshipType;
  region : Lockbox.LockboxRegion;
  status : Lockbox.LockboxStatus;
  metadataSummary : option string;
  iv : list Z;
  ciphertext : list Z;
  authTag : list Z;
  aad : option (list Z);
  ciphertextHash : string;
  sealedAt : Z;
  withdrawnAt : option Z;
  withdrawnByUserId : option string;
  withdrawReason : option string;
  recipientOrgId : option string;
  releasedAt : option Z;
  conditionRef : option string;
  base : Base
}.
#[export] Instance row : Row t := {| row_id := id; row_createdAt r := createdAt (base r) |}.
End LockboxRow.

Module RFQRow.
Record t : Type := {
  id : string;
  opportunityId : string;
  status : Rfq.RfqStatus;
  dueAt : Z;
  currentVersionNumber : Z;
  base : Base
}.
#[export] Instance row : Row t := {| row_id := id; row_createdAt r := createdAt (base r) |}.
End RFQRow.

Module RFQVersionRow.
Record t : Type := {
  id : string;
  rfqId : string;
  versionNumber : Z;
  packetType : PacketType.t;
  disclosureSnapshot : Json;
  changeSummary : option string;
  base : Base
}.
#[export] Instance row : Row t := {| row_id := id; row_createdAt r := createdAt (base r) |}.
End RFQVersionRow.

Module RFQRecipientRow.
Record t : Type := {
  id : string;
  rfqId : string;
  providerOrgId : string;
  state : RfqRecipient.RfqRecipientState;
  acknowledgedAt : option Z;
  declineReason : option string;
  base : Base
}.
#[export] Instance row : Row t := {| row_id := id; row_createdAt r := createdAt (base r) |}.
End RFQRecipientRow.

Module QuoteRow.
Record t : Type := {
  id : string;
  rfqId : string;
  rfqRecipientId : string;
  providerOrgId : string;
  quoteVersion : Z;
  currency : string;
  status : Quote.QuoteStatus;
  validUntil : Z;
  submittedAt : Z;
  terms : Json;
  base : Base
}.
#[export] Instance row : Row t := {| row_id := id; row_createdAt r := createdAt (base r) |}.
End QuoteRow.

Module DealRoomParticipantRow.
Record t : Type := {
  id : string;
  dealRoomId : string;
  organizationId : string;
  participantRole : ParticipantRole.t;
  base : Base
}.
#[export] Instance row : Row t := {| row_id := id; row_createdAt r := createdAt (base r) |}.
End DealRoomParticipantRow.

Module DealConditionRow.
Record t : Type := {
  id : string;
  dealRoomId : string;
  description : string;
  ownerOrgId : string;
  evidenceRef : option string;
  dueAt : option Z;
  state : DealCondition.DealConditionState;
  blocking : bool;
  resolutionNote : option string;
  base : Base
}.
#[export] Instance row : Row t := {| row_id := id; row_createdAt r := createdAt (base r) |}.
End DealConditionRow.

Module DealDecisionRow.
Record t : Type := {
  id : string;
  dealRoomId : string;
  decisionType : DealCondition.DealDecisionType;
  reason : string;
  relatedQuoteId : option string;
  comparisonSnapshot : option Json;
  decidedAt : Z;
  actorUserId : option string;
  actorOrgId : option string;
  actorRole : option Roles.PersonaRole;
  base : Base
}.
#[export] Instance row : Row t := {| row_id := id; row_createdAt r := createdAt (base r) |}.
End DealDecisionRow.

Module PassportRow.
Record t : Type := {
  id : string;
  organizationId : string;
  status : Passport.PassportStatus;
  updatedAt : Z;
  base : Base
}.
#[export] Instance row : Row t := {| row_id := id; row_createdAt r := createdAt (base r) |}.
End PassportRow.

Module FactRow.
Record t : Type := {
  id : string;
  passportId : string;
  sectionType : Provenance.PassportSectionType;
  fieldKey : string;
  normalizedValue : Json;
  verification : Provenance.FactProvenance;
  evidenceId : option string;
  updatedAt : Z;
  base : Base
}.
#[export] Instance row : Row t := {| row_id := id; row_createdAt r := createdAt (base r) |}.
End FactRow.

Module EvidenceRow.
Record t : Type := {
  id : string;
  passportId : string;
  type : EvidenceSourceKind.t;
  objectRef : string;
  checksum : option string;
  issuer : option string;
  collectedAt : Z;
  expiresAt : option Z;
  base : Base
}.
#[export] Instance row : Row t := {| row_id := id; row_createdAt r := createdAt (base r) |}.
End EvidenceRow.

Module ReadinessResultRow.
Record t : Type := {
  id : string;
  passportId : string;
  score : jsnum;
  blockers : list Json;
  warnings : list Json;
  ruleVersion : string;
  algorithmVersion : string;
  inputVersions : list string;
  computedAt : Z;
  base : Base
}.
#[export] Instance row : Row t := {| row_id := id; row_createdAt r := createdAt (base r) |}.
End ReadinessResultRow.

Module UserRow.
Record t : Type := {
  id : string;
  email : string;
  passwordHash : string;
  status : UserStatus.t;
  mfaEnabled : bool;
  lastLoginAt : option Z;
  base : Base
}.
#[export] Instance row : Row t := {| row_id := id; row_createdAt r := createdAt (base r) |}.
End UserRow.

Module MembershipRow.
Record t : Type := {
  id : string;
  organizationId : string;
  userId : string;
  role : Roles.PersonaRole;
  status : MembershipStatus.t;
  invitationSource : option string;
  effectiveFrom : Z;
  effectiveTo : option Z;
  retiredAt : option Z;
  base : Base
}.
#[export] Instance row : Row t := {| row_id := id; row_createdAt r := createdAt (base r) |}.
End MembershipRow.

Module CapacityProfileRow.
Record t : Type := {
  id : string;
  providerOrgId : string;
  asOf : Z;
  freshnessClass : Freshness.FreshnessClass;
  acceptingNewVolume : bool;
  jurisdictions : list string;
  mccsAccepted : list string;
  mccsExcluded : list string;
  currency : string;
  monthlyCapacityMinor : Z;
  minTicketMinor : Z;
  maxTicketMinor : Z;
  maxChargebackBps : Z;
  maxFraudBps : Z;
  maxRefundBps : Z;
  settlementRail : string;
  settlementCadenceDays : Z;
  commercialTerms : option CommercialTerms;
  status : RecordStatus.t;
  base : Base
}.
#[export] Instance row : Row t := {| row_id := id; row_createdAt r := createdAt (base r) |}.
End CapacityProfileRow.

Module VolumeSliceRow.
Record t : Type := {
  id : string;
  opportunityId : string;
  jurisdiction : string;
  mcc : string;
  cardOrigin : string;
  channel : string;
  currency : string;
  amountMinor : Z;
  period : string;
  base : Base
}.
#[export] Instance row : Row t := {| row_id := id; row_createdAt r := createdAt (base r) |}.
End VolumeSliceRow.

Module MatchResultRow.
Record t : Type := {
  id : string;
  opportunityId : string;
  capacityId : string;
  eligible : bool;
  eligibilityResults : list RuleResult;
  ruleVersion : string;
  rankingBreakdown : option MatchRankingBreakdown;
  rank : option Z;
  totalScore : option jsnum;
  algorithmVersion : option string;
  inputVersions : list string;
  evaluatedAt : Z;
  base : Base
}.
#[export] Instance row : Row t := {| row_id := id; row_createdAt r := createdAt (base r) |}.
End MatchResultRow.

Module SessionRow.
Record t : Type := {
  id : string;
  userId : string;
  tokenHash : string;
  activeMembershipId : option string;
  createdAt : Z;
  expiresAt : Z;
  revokedAt : option Z;
  lastSeenAt : option Z;
  ipClass : option string;
  userAgentClass : option string
}.
#[export] Instance row : Row t := {| row_id := id; row_createdAt := createdAt |}.
End SessionRow.

Module LockboxKeyShareRow.
Record t : Type := {
  id : string;
  lockboxId : string;
  holderRole : Lockbox.LockboxShareRole;
  shareIndex : Z;
  threshold : Z;
  totalShares : Z;
  wrappedShare : option (list Z);
  shareIv : option (list Z);
  shareAuthTag : option (list Z);
  keyVersion : Z;
  createdAt : Z;
  destroyedAt : option Z;
  destroyedReason : option string
}.
#[export] Instance row : Row t := {| row_id := id; row_createdAt := createdAt |}.
End LockboxKeyShareRow.

Module LockboxReceiptRow.
Record t : Type := {
  id : string;
  lockboxId : string;
  version : Z;
  ciphertextHash : string;
  sealerOrgId : string;
  sealedAt : Z;
  signature : string;
  algorithm : string;
  createdAt : Z
}.
#[export] Instance row : Row t := {| row_id := id; row_createdAt := createdAt |}.
End LockboxReceiptRow.

Module LockboxReleaseEvidenceRow.
Record t : Type := {
  id : string;
  lockboxId : string;
  recipientOrgId : string;
  releasedAt : Z;
  authorizedByUserId : string;
  authorizedRoles : list string;
  conditionRef : string;
  ciphertextHash : string;
  receiptId : option string;
  createdAt : Z
}.
#[export] Instance row : Row t := {| row_id := id; row_createdAt := createdAt |}.
End LockboxReleaseEvidenceRow.

Module AuditEventRow.
Record t : Type := {
  id : string;
  occurredAt : Z;
  actorUserId : option string;
  actorOrgId : option string;
  actorRole : option Roles.PersonaRole;
  subjectOrgId : option string;
  action : string;
  resourceType : string;
  resourceId : option string;
  beforeValue : option Json;
  afterValue : option Json;
  requestId : option string;
  correlationId : option string;
  ipClass : option string;
  userAgentClass : option string;
  reason : option string;
  metadata : option Json
}.
#[export] Instance row : Row t := {| row_id := id; row_createdAt := occurredAt |}.
End AuditEventRow.

Module DomainEventRow.
Record t : Type := {
  id : string;
  eventType : string;
  aggregateType : string;
  aggregateId : string;
  payload : option Json;
  occurredAt : Z;
  actorUserId : option string;
  actorOrgId : option string;
  actorRole : option Roles.PersonaRole;
  requestId : option string;
  correlationId : option string
}.
#[export] Instance row : Row t := {| row_id := id; row_createdAt := occurredAt |}.
End DomainEventRow.

Module IdempotencyKeyRow.
Record t : Type := {
  id : string;
  key : string;
  scope : string;
  requestHash : string;
  responseStatus : option Z;
  responseBody : option Json;
  organizationId : option string;
  userId : option string;
  createdAt : Z;
  expiresAt : Z
}.
#[export] Instance row : Row t := {| row_id := id; row_createdAt := createdAt |}.
End IdempotencyKeyRow.

Export (hints) DealRoomRow CommissionScheduleRow CommissionComponentRow RevenueEventRow CommissionAccrualRow CommissionPaymentRow OrganizationRow OpportunityRow ClaimRow ClaimEvidenceRow ClaimDecisionRow ClaimDisputeRow LockboxRow RFQRow RFQVersionRow RFQRecipientRow QuoteRow DealRoomParticipantRow DealConditionRow DealDecisionRow PassportRow FactRow EvidenceRow ReadinessResultRow UserRow MembershipRow CapacityProfileRow VolumeSliceRow MatchResultRow SessionRow LockboxKeyShareRow LockboxReceiptRow LockboxReleaseEvidenceRow AuditEventRow DomainEventRow IdempotencyKeyRow.

(** ** The database *)

Record Db : Type := {
  clock : Z;
  drawn : nat;
  dealRooms : list DealRoomRow.t;
  commissionSchedules : list CommissionScheduleRow.t;
  commissionComponents : list CommissionComponentRow.t;
  revenueEvents : list RevenueEventRow.t;
  commissionAccruals : list CommissionAccrualRow.t;
  commissionPayments : list CommissionPaymentRow.t;
  organizations : list OrganizationRow.t;
  opportunities : list OpportunityRow.t;
  claims : list ClaimRow.t;
  claimEvidence : list ClaimEvidenceRow.t;
  claimDecisions : list ClaimDecisionRow.t;
  claimDisputes : list ClaimDisputeRow.t;
  lockboxes : list LockboxRow.t;
  rfqs : list RFQRow.t;
  rfqVersions : list RFQVersionRow.t;
  rfqRecipients : list RFQRecipientRow.t;
  quotes : list QuoteRow.t;
  dealRoomParticipants : list DealRoomParticipantRow.t;
  dealConditions : list DealConditionRow.t;
  dealDecisions : list DealDecisionRow.t;
  passports : list PassportRow.t;
  facts : list FactRow.t;
  passportEvidence : list EvidenceRow.t;
  readinessResults : list ReadinessResultRow.t;
  users : list UserRow.t;
  organizationMemberships : list MembershipRow.t;
  capacityProfiles : list CapacityProfileRow.t;
  volumeSlices : list VolumeSliceRow.t;
  matchResults : list MatchResultRow.t;
  sessions : list SessionRow.t;
  lockboxKeyShares : list LockboxKeyShareRow.t;
  lockboxReceipts : list LockboxReceiptRow.t;
  lockboxReleaseEvidence : list LockboxReleaseEvidenceRow.t;
  auditEvents : list AuditEventRow.t;
  domainEvents : list DomainEventRow.t;
  idempotencyKeys : list IdempotencyKeyRow.t
}.

Definition set_clock (v : Z) (db : Db) : Db :=
  {| clock := v; drawn := drawn db; dealRooms := dealRooms db; commissionSchedules := commissionSchedules db; commissionComponents := commissionComponents db; revenueEvents := revenueEvents db; commissionAccruals := commissionAccruals db; commissionPayments := commissionPayments db; organizations := organizations db; opportunities := opportunities db; claims := claims db; claimEvidence := claimEvidence db; claimDecisions := claimDecisions db; claimDisputes := claimDisputes db; lockboxes := lockboxes db; rfqs := rfqs db; rfqVersions := rfqVersions db; rfqRecipients := rfqRecipients db; quotes := quotes db; dealRoomParticipants := dealRoomParticipants db; dealConditions := dealConditions db; dealDecisions := dealDecisions db; passports := passports db; facts := facts db; passportEvidence := passportEvidence db; readinessResults := readinessResults db; users := users db; organizationMemberships := organizationMemberships db; capacityProfiles := capacityProfiles db; volumeSlices := volumeSlices db; matchResults := matchResults db; sessions := sessions db; lockboxKeyShares := lockboxKeyShares db; lockboxReceipts := lockboxReceipts db; lockboxReleaseEvidence := lockboxReleaseEvidence db; auditEvents := auditEvents db; domainEvents := domainEvents db; idempotencyKeys := idempotencyKeys db |}.

Definition set_drawn (v : nat) (db : Db) : Db :=
  {| clock := clock db; drawn := v; dealRooms := dealRooms db; commissionSchedules := commissionSchedules db; commissionComponents := commissionComponents db; revenueEvents := revenueEvents db; commissionAccruals := commissionAccruals db; commissionPayments := commissionPayments db; organizations := organizations db; opportunities := opportunities db; claims := claims db; claimEvidence := claimEvidence db; claimDecisions := claimDecisions db; claimDisputes := claimDisputes db; lockboxes := lockboxes db; rfqs := rfqs db; rfqVersions := rfqVersions db; rfqRecipients := rfqRecipients db; quotes := quotes db; dealRoomParticipants := dealRoomParticipants db; dealConditions := dealConditions db; dealDecisions := dealDecisions db; passports := passports db; facts := facts db; passportEvidence := passportEvidence db; readinessResults := readinessResults db; users := users db; organizationMemberships := organizationMemberships db; capacityProfiles := capacityProfiles db; volumeSlices := volumeSlices db; matchResults := matchResults db; sessions := sessions db; lockboxKeyShares := lockboxKeyShares db; lockboxReceipts := lockboxReceipts db; lockboxReleaseEvidence := lockboxReleaseEvidence db; auditEvents := auditEvents db; domainEvents := domainEvents db; idempotencyKeys := idempotencyKeys db |}.

Definition set_dealRooms (v : list DealRoomRow.t) (db : Db) : Db :=
  {| clock := clock db; drawn := drawn db; dealRooms := v; commissionSchedules := commissionSchedules db; commissionComponents := commissionComponents db; revenueEvents := revenueEvents db; commissionAccruals := commissionAccruals db; commissionPayments := commissionPayments db; organizations := organizations db; opportunities := opportunities db; claims := claims db; claimEvidence := claimEvidence db; claimDecisions := claimDecisions db; claimDisputes := claimDisputes db; lockboxes := lockboxes db; rfqs := rfqs db; rfqVersions := rfqVersions db; rfqRecipients := rfqRecipients db; quotes := quotes db; dealRoomParticipants := dealRoomParticipants db; dealConditions := dealConditions db; dealDecisions := dealDecisions db; passports := passports db; facts := facts db; passportEvidence := passportEvidence db; readinessResults := readinessResults db; users := users db; organizationMemberships := organizationMemberships db; capacityProfiles := capacityProfiles db; volumeSlices := volumeSlices db; matchResults := matchResults db; sessions := sessions db; lockboxKeyShares := lockboxKeyShares db; lockboxReceipts := lockboxReceipts db; lockboxReleaseEvidence := lockboxReleaseEvidence db; auditEvents := auditEvents db; domainEvents := domainEvents db; idempotencyKeys := idempotencyKeys db |}.

Definition set_commissionSchedules (v : list CommissionScheduleRow.t) (db : Db) : Db :=
  {| clock := clock db; drawn := drawn db; dealRooms := dealRooms db; commissionSchedules := v; commissionComponents := commissionComponents db; revenueEvents := revenueEvents db; commissionAccruals := commissionAccruals db; commissionPayments := commissionPayments db; organizations := organizations db; opportunities := opportunities db; claims := claims db; claimEvidence := claimEvidence db; claimDecisions := claimDecisions db; claimDisputes := claimDisputes db; lockboxes := lockboxes db; rfqs := rfqs db; rfqVersions := rfqVersions db; rfqRecipients := rfqRecipients db; quotes := quotes db; dealRoomParticipants := dealRoomParticipants db; dealConditions := dealConditions db; dealDecisions := dealDecisions db; passports := passports db; facts := facts db; passportEvidence := passportEvidence db; readinessResults := readinessResults db; users := users db; organizationMemberships := organizationMemberships db; capacityProfiles := capacityProfiles db; volumeSlices := volumeSlices db; matchResults := matchResults db; sessions := sessions db; lockboxKeyShares := lockboxKeyShares db; lockboxReceipts := lockboxReceipts db; lockboxReleaseEvidence := lockboxReleaseEvidence db; auditEvents := auditEvents db; domainEvents := domainEvents db; idempotencyKeys := idempotencyKeys db |}.

Definition set_commissionComponents (v : list CommissionComponentRow.t) (db : Db) : Db :=
  {| clock := clock db; drawn := drawn db; dealRooms := dealRooms db; commissionSchedules := commissionSchedules db; commissionComponents := v; revenueEvents := revenueEvents db; commissionAccruals := commissionAccruals db; commissionPayments := commissionPayments db; organizations := organizations db; opportunities := opportunities db; claims := claims db; claimEvidence := claimEvidence db; claimDecisions := claimDecisions db; claimDisputes := claimDisputes db; lockboxes := lockboxes db; rfqs := rfqs db; rfqVersions := rfqVersions db; rfqRecipients := rfqRecipients db; quotes := quotes db; dealRoomParticipants := dealRoomParticipants db; dealConditions := dealConditions db; dealDecisions := dealDecisions db; passports := passports db; facts := facts db; passportEvidence := passportEvidence db; readinessResults := readinessResults db; users := users db; organizationMemberships := organizationMemberships db; capacityProfiles := capacityProfiles db; volumeSlices := volumeSlices db; matchResults := matchResults db; sessions := sessions db; lockboxKeyShares := lockboxKeyShares db; lockboxReceipts := lockboxReceipts db; lockboxReleaseEvidence := lockboxReleaseEvidence db; auditEvents := auditEvents db; domainEvents := domainEvents db; idempotencyKeys := idempotencyKeys db |}.

Definition set_revenueEvents (v : list RevenueEventRow.t) (db : Db) : Db :=
  {| clock := clock db; drawn := drawn db; dealRooms := dealRooms db; commissionSchedules := commissionSchedules db; commissionComponents := commissionComponents db; revenueEvents := v; commissionAccruals := commissionAccruals db; commissionPayments := commissionPayments db; organizations := organizations db; opportunities := opportunities db; claims := claims db; claimEvidence := claimEvidence db; claimDecisions := claimDecisions db; claimDisputes := claimDisputes db; lockboxes := lockboxes db; rfqs := rfqs db; rfqVersions := rfqVersions db; rfqRecipients := rfqRecipients db; quotes := quotes db; dealRoomParticipants := dealRoomParticipants db; dealConditions := dealConditions db; dealDecisions := dealDecisions db; passports := passports db; facts := facts db; passportEvidence := passportEvidence db; readinessResults := readinessResults db; users := users db; organizationMemberships := organizationMemberships db; capacityProfiles := capacityProfiles db; volumeSlices := volumeSlices db; matchResults := matchResults db; sessions := sessions db; lockboxKeyShares := lockboxKeyShares db; lockboxReceipts := lockboxReceipts db; lockboxReleaseEvidence := lockboxReleaseEvidence db; auditEvents := auditEvents db; domainEvents := domainEvents db; idempotencyKeys := idempotencyKeys db |}.

Definition set_commissionAccruals (v : list CommissionAccrualRow.t) (db : Db) : Db :=
  {| clock := clock db; drawn := drawn db; dealRooms := dealRooms db; commissionSchedules := commissionSchedules db; commissionComponents := commissionComponents db; revenueEvents := revenueEvents db; commissionAccruals := v; commissionPayments := commissionPayments db; organizations := organizations db; opportunities := opportunities db; claims := claims db; claimEvidence := claimEvidence db; claimDecisions := claimDecisions db; claimDisputes := claimDisputes db; lockboxes := lockboxes db; rfqs := rfqs db; rfqVersions := rfqVersions db; rfqRecipients := rfqRecipients db; quotes := quotes db; dealRoomParticipants := dealRoomParticipants db; dealConditions := dealConditions db; dealDecisions := dealDecisions db; passports := passports db; facts := facts db; passportEvidence := passportEvidence db; readinessResults := readinessResults db; users := users db; organizationMemberships := organizationMemberships db; capacityProfiles := capacityProfiles db; volumeSlices := volumeSlices db; matchResults := matchResults db; sessions := sessions db; lockboxKeyShares := lockboxKeyShares db; lockboxReceipts := lockboxReceipts db; lockboxReleaseEvidence := lockboxReleaseEvidence db; auditEvents := auditEvents db; domainEvents := domainEvents db; idempotencyKeys := idempotencyKeys db |}.

Definition set_commissionPayments (v : list CommissionPaymentRow.t) (db : Db) : Db :=
  {| clock := clock db; drawn := drawn db; dealRooms := dealRooms db; commissionSchedules := commissionSchedules db; commissionComponents := commissionComponents db; revenueEvents := revenueEvents db; commissionAccruals := commissionAccruals db; commissionPayments := v; organizations := organizations db; opportunities := opportunities db; claims := claims db; claimEvidence := claimEvidence db; claimDecisions := claimDecisions db; claimDisputes := claimDisputes db; lockboxes := lockboxes db; rfqs := rfqs db; rfqVersions := rfqVersions db; rfqRecipients := rfqRecipients db; quotes := quotes db; dealRoomParticipants := dealRoomParticipants db; dealConditions := dealConditions db; dealDecisions := dealDecisions db; passports := passports db; facts := facts db; passportEvidence := passportEvidence db; readinessResults := readinessResults db; users := users db; organizationMemberships := organizationMemberships db; capacityProfiles := capacityProfiles db; volumeSlices := volumeSlices db; matchResults := matchResults db; sessions := sessions db; lockboxKeyShares := lockboxKeyShares db; lockboxReceipts := lockboxReceipts db; lockboxReleaseEvidence := lockboxReleaseEvidence db; auditEvents := auditEvents db; domainEvents := domainEvents db; idempotencyKeys := idempotencyKeys db |}.

Definition set_organizations (v : list OrganizationRow.t) (db : Db) : Db :=
  {| clock := clock db; drawn := drawn db; dealRooms := dealRooms db; commissionSchedules := commissionSchedules db; commissionComponents := commissionComponents db; revenueEvents := revenueEvents db; commissionAccruals := commissionAccruals db; commissionPayments := commissionPayments db; organizations := v; opportunities := opportunities db; claims := claims db; claimEvidence := claimEvidence db; claimDecisions := claimDecisions db; claimDisputes := claimDisputes db; lockboxes := lockboxes db; rfqs := rfqs db; rfqVersions := rfqVersions db; rfqRecipients := rfqRecipients db; quotes := quotes db; dealRoomParticipants := dealRoomParticipants db; dealConditions := dealConditions db; dealDecisions := dealDecisions db; passports := passports db; facts := facts db; passportEvidence := passportEvidence db; readinessResults := readinessResults db; users := users db; organizationMemberships := organizationMemberships db; capacityProfiles := capacityProfiles db; volumeSlices := volumeSlices db; matchResults := matchResults db; sessions := sessions db; lockboxKeyShares := lockboxKeyShares db; lockboxReceipts := lockboxReceipts db; lockboxReleaseEvidence := lockboxReleaseEvidence db; auditEvents := auditEvents db; domainEvents := domainEvents db; idempotencyKeys := idempotencyKeys db |}.

Definition set_opportunities (v : list OpportunityRow.t) (db : Db) : Db :=
  {| clock := clock db; drawn := drawn db; dealRooms := dealRooms db; commissionSchedules := commissionSchedules db; commissionComponents := commissionComponents db; revenueEvents := revenueEvents db; commissionAccruals := commissionAccruals db; commissionPayments := commissionPayments db; organizations := organizations db; opportunities := v; claims := claims db; claimEvidence := claimEvidence db; claimDecisions := claimDecisions db; claimDisputes := claimDisputes db; lockboxes := lockboxes db; rfqs := rfqs db; rfqVersions := rfqVersions db; rfqRecipients := rfqRecipients db; quotes := quotes db; dealRoomParticipants := dealRoomParticipants db; dealConditions := dealConditions db; dealDecisions := dealDecisions db; passports := passports db; facts := facts db; passportEvidence := passportEvidence db; readinessResults := readinessResults db; users := users db; organizationMemberships := organizationMemberships db; capacityProfiles := capacityProfiles db; volumeSlices := volumeSlices db; matchResults := matchResults db; sessions := sessions db; lockboxKeyShares := lockboxKeyShares db; lockboxReceipts := lockboxReceipts db; lockboxReleaseEvidence := lockboxReleaseEvidence db; auditEvents := auditEvents db; domainEvents := domainEvents db; idempotencyKeys := idempotencyKeys db |}.

Definition set_claims (v : list ClaimRow.t) (db : Db) : Db :=
  {| clock := clock db; drawn := drawn db; dealRooms := dealRooms db; commissionSchedules := commissionSchedules db; commissionComponents := commissionComponents db; revenueEvents := revenueEvents db; commissionAccruals := commissionAccruals db; commissionPayments := commissionPayments db; organizations := organizations db; opportunities := opportunities db; claims := v; claimEvidence := claimEvidence db; claimDecisions := claimDecisions db; claimDisputes := claimDisputes db; lockboxes := lockboxes db; rfqs := rfqs db; rfqVersions := rfqVersions db; rfqRecipients := rfqRecipients db; quotes := quotes db; dealRoomParticipants := dealRoomParticipants db; dealConditions := dealConditions db; dealDecisions := dealDecisions db; passports := passports db; facts := facts db; passportEvidence := passportEvidence db; readinessResults := readinessResults db; users := users db; organizationMemberships := organizationMemberships db; capacityProfiles := capacityProfiles db; volumeSlices := volumeSlices db; matchResults := matchResults db; sessions := sessions db; lockboxKeyShares := lockboxKeyShares db; lockboxReceipts := lockboxReceipts db; lockboxReleaseEvidence := lockboxReleaseEvidence db; auditEvents := auditEvents db; domainEvents := domainEvents db; idempotencyKeys := idempotencyKeys db |}.

Definition set_claimEvidence (v : list ClaimEvidenceRow.t) (db : Db) : Db :=
  {| clock := clock db; drawn := drawn db; dealRooms := dealRooms db; commissionSchedules := commissionSchedules db; commissionComponents := commissionComponents db; revenueEvents := revenueEvents db; commissionAccruals := commissionAccruals db; commissionPayments := commissionPayments db; organizations := organizations db; opportunities := opportunities db; claims := claims db; claimEvidence := v; claimDecisions := claimDecisions db; claimDisputes := claimDisputes db; lockboxes := lockboxes db; rfqs := rfqs db; rfqVersions := rfqVersions db; rfqRecipients := rfqRecipients db; quotes := quotes db; dealRoomParticipants := dealRoomParticipants db; dealConditions := dealConditions db; dealDecisions := dealDecisions db; passports := passports db; facts := facts db; passportEvidence := passportEvidence db; readinessResults := readinessResults db; users := users db; organizationMemberships := organizationMemberships db; capacityProfiles := capacityProfiles db; volumeSlices := volumeSlices db; matchResults := matchResults db; sessions := sessions db; lockboxKeyShares := lockboxKeyShares db; lockboxReceipts := lockboxReceipts db; lockboxReleaseEvidence := lockboxReleaseEvidence db; auditEvents := auditEvents db; domainEvents := domainEvents db; idempotencyKeys := idempotencyKeys db |}.

Definition set_claimDecisions (v : list ClaimDecisionRow.t) (db : Db) : Db :=
  {| clock := clock db; drawn := drawn db; dealRooms := dealRooms db; commissionSchedules := commissionSchedules db; commissionComponents := commissionComponents db; revenueEvents := revenueEvents db; commissionAccruals := commissionAccruals db; commissionPayments := commissionPayments db; organizations := organizations db; opportunities := opportunities db; claims := claims db; claimEvidence := claimEvidence db; claimDecisions := v; claimDisputes := claimDisputes db; lockboxes := lockboxes db; rfqs := rfqs db; rfqVersions := rfqVersions db; rfqRecipients := rfqRecipients db; quotes := quotes db; dealRoomParticipants := dealRoomParticipants db; dealConditions := dealConditions db; dealDecisions := dealDecisions db; passports := passports db; facts := facts db; passportEvidence := passportEvidence db; readinessResults := readinessResults db; users := users db; organizationMemberships := organizationMemberships db; capacityProfiles := capacityProfiles db; volumeSlices := volumeSlices db; matchResults := matchResults db; sessions := sessions db; lockboxKeyShares := lockboxKeyShares db; lockboxReceipts := lockboxReceipts db; lockboxReleaseEvidence := lockboxReleaseEvidence db; auditEvents := auditEvents db; domainEvents := domainEvents db; idempotencyKeys := idempotencyKeys db |}.

Definition set_claimDisputes (v : list ClaimDisputeRow.t) (db : Db) : Db :=
  {| clock := clock db; drawn := drawn db; dealRooms := dealRooms db; commissionSchedules := commissionSchedules db; commissionComponents := commissionComponents db; revenueEvents := revenueEvents db; commissionAccruals := commissionAccruals db; commissionPayments := commissionPayments db; organizations := organizations db; opportunities := opportunities db; claims := claims db; claimEvidence := claimEvidence db; claimDecisions := claimDecisions db; claimDisputes := v; lockboxes := lockboxes db; rfqs := rfqs db; rfqVersions := rfqVersions db; rfqRecipients := rfqRecipients db; quotes := quotes db; dealRoomParticipants := dealRoomParticipants db; dealConditions := dealConditions db; dealDecisions := dealDecisions db; passports := passports db; facts := facts db; passportEvidence := passportEvidence db; readinessResults := readinessResults db; users := users db; organizationMemberships := organizationMemberships db; capacityProfiles := capacityProfiles db; volumeSlices := volumeSlices db; matchResults := matchResults db; sessions := sessions db; lockboxKeyShares := lockboxKeyShares db; lockboxReceipts := lockboxReceipts db; lockboxReleaseEvidence := lockboxReleaseEvidence db; auditEvents := auditEvents db; domainEvents := domainEvents db; idempotencyKeys := idempotencyKeys db |}.

Definition set_lockboxes (v : list LockboxRow.t) (db : Db) : Db :=
  {| clock := clock db; drawn := drawn db; dealRooms := dealRooms db; commissionSchedules := commissionSchedules db; commissionComponents := commissionComponents db; revenueEvents := revenueEvents db; commissionAccruals := commissionAccruals db; commissionPayments := commissionPayments db; organizations := organizations db; opportunities := opportunities db; claims := claims db; claimEvidence := claimEvidence db; claimDecisions := claimDecisions db; claimDisputes := claimDisputes db; lockboxes := v; rfqs := rfqs db; rfqVersions := rfqVersions db; rfqRecipients := rfqRecipients db; quotes := quotes db; dealRoomParticipants := dealRoomParticipants db; dealConditions := dealConditions db; dealDecisions := dealDecisions db; passports := passports db; facts := facts db; passportEvidence := passportEvidence db; readinessResults := readinessResults db; users := users db; organizationMemberships := organizationMemberships db; capacityProfiles := capacityProfiles db; volumeSlices := volumeSlices db; matchResults := matchResults db; sessions := sessions db; lockboxKeyShares := lockboxKeyShares db; lockboxReceipts := lockboxReceipts db; lockboxReleaseEvidence := lockboxReleaseEvidence db; auditEvents := auditEvents db; domainEvents := domainEvents db; idempotencyKeys := idempotencyKeys db |}.

Definition set_rfqs (v : list RFQRow.t) (db : Db) : Db :=
  {| clock := clock db; drawn := drawn db; dealRooms := dealRooms db; commissionSchedules := commissionSchedules db; commissionComponents := commissionComponents db; revenueEvents := revenueEvents db; commissionAccruals := commissionAccruals db; commissionPayments := commissionPayments db; organizations := organizations db; opportunities := opportunities db; claims := claims db; claimEvidence := claimEvidence db; claimDecisions := claimDecisions db; claimDisputes := claimDisputes db; lockboxes := lockboxes db; rfqs := v; rfqVersions := rfqVersions db; rfqRecipients := rfqRecipients db; quotes := quotes db; dealRoomParticipants := dealRoomParticipants db; dealConditions := dealConditions db; dealDecisions := dealDecisions db; passports := passports db; facts := facts db; passportEvidence := passportEvidence db; readinessResults := readinessResults db; users := users db; organizationMemberships := organizationMemberships db; capacityProfiles := capacityProfiles db; volumeSlices := volumeSlices db; matchResults := matchResults db; sessions := sessions db; lockboxKeyShares := lockboxKeyShares db; lockboxReceipts := lockboxReceipts db; lockboxReleaseEvidence := lockboxReleaseEvidence db; auditEvents := auditEvents db; domainEvents := domainEvents db; idempotencyKeys := idempotencyKeys db |}.

Definition set_rfqVersions (v : list RFQVersionRow.t) (db : Db) : Db :=
  {| clock := clock db; drawn := drawn db; dealRooms := dealRooms db; commissionSchedules := commissionSchedules db; commissionComponents := commissionComponents db; revenueEvents := revenueEvents db; commissionAccruals := commissionAccruals db; commissionPayments := commissionPayments db; organizations := organizations db; opportunities := opportunities db; claims := claims db; claimEvidence := claimEvidence db; claimDecisions := claimDecisions db; claimDisputes := claimDisputes db; lockboxes := lockboxes db; rfqs := rfqs db; rfqVersions := v; rfqRecipients := rfqRecipients db; quotes := quotes db; dealRoomParticipants := dealRoomParticipants db; dealConditions := dealConditions db; dealDecisions := dealDecisions db; passports := passports db; facts := facts db; passportEvidence := passportEvidence db; readinessResults := readinessResults db; users := users db; organizationMemberships := organizationMemberships db; capacityProfiles := capacityProfiles db; volumeSlices := volumeSlices db; matchResults := matchResults db; sessions := sessions db; lockboxKeyShares := lockboxKeyShares db; lockboxReceipts := lockboxReceipts db; lockboxReleaseEvidence := lockboxReleaseEvidence db; auditEvents := auditEvents db; domainEvents := domainEvents db; idempotencyKeys := idempotencyKeys db |}.

Definition set_rfqRecipients (v : list RFQRecipientRow.t) (db : Db) : Db :=
  {| clock := clock db; drawn := drawn db; dealRooms := dealRooms db; commissionSchedules := commissionSchedules db; commissionComponents := commissionComponents db; revenueEvents := revenueEvents db; commissionAccruals := commissionAccruals db; commissionPayments := commissionPayments db; organizations := organizations db; opportunities := opportunities db; claims := claims db; claimEvidence := claimEvidence db; claimDecisions := claimDecisions db; claimDisputes := claimDisputes db; lockboxes := lockboxes db; rfqs := rfqs db; rfqVersions := rfqVersions db; rfqRecipients := v; quotes := quotes db; dealRoomParticipants := dealRoomParticipants db; dealConditions := dealConditions db; dealDecisions := dealDecisions db; passports := passports db; facts := facts db; passportEvidence := passportEvidence db; readinessResults := readinessResults db; users := users db; organizationMemberships := organizationMemberships db; capacityProfiles := capacityProfiles db; volumeSlices := volumeSlices db; matchResults := matchResults db; sessions := sessions db; lockboxKeyShares := lockboxKeyShares db; lockboxReceipts := lockboxReceipts db; lockboxReleaseEvidence := lockboxReleaseEvidence db; auditEvents := auditEvents db; domainEvents := domainEvents db; idempotencyKeys := idempotencyKeys db |}.

Definition set_quotes (v : list QuoteRow.t) (db : Db) : Db :=
  {| clock := clock db; drawn := drawn db; dealRooms := dealRooms db; commissionSchedules := commissionSchedules db; commissionComponents := commissionComponents db; revenueEvents := revenueEvents db; commissionAccruals := commissionAccruals db; commissionPayments := commissionPayments db; organizations := organizations db; opportunities := opportunities db; claims := claims db; claimEvidence := claimEvidence db; claimDecisions := claimDecisions db; claimDisputes := claimDisputes db; lockboxes := lockboxes db; rfqs := rfqs db; rfqVersions := rfqVersions db; rfqRecipients := rfqRecipients db; quotes := v; dealRoomParticipants := dealRoomParticipants db; dealConditions := dealConditions db; dealDecisions := dealDecisions db; passports := passports db; facts := facts db; passportEvidence := passportEvidence db; readinessResults := readinessResults db; users := users db; organizationMemberships := organizationMemberships db; capacityProfiles := capacityProfiles db; volumeSlices := volumeSlices db; matchResults := matchResults db; sessions := sessions db; lockboxKeyShares := lockboxKeyShares db; lockboxReceipts := lockboxReceipts db; lockboxReleaseEvidence := lockboxReleaseEvidence db; auditEvents := auditEvents db; domainEvents := domainEvents db; idempotencyKeys := idempotencyKeys db |}.

Definition set_dealRoomParticipants (v : list DealRoomParticipantRow.t) (db : Db) : Db :=
  {| clock := clock db; drawn := drawn db; dealRooms := dealRooms db; commissionSchedules := commissionSchedules db; commissionComponents := commissionComponents db; revenueEvents := revenueEvents db; commissionAccruals := commissionAccruals db; commissionPayments := commissionPayments db; organizations := organizations db; opportunities := opportunities db; claims := claims db; claimEvidence := claimEvidence db; claimDecisions := claimDecisions db; claimDisputes := claimDisputes db; lockboxes := lockboxes db; rfqs := rfqs db; rfqVersions := rfqVersions db; rfqRecipients := rfqRecipients db; quotes := quotes db; dealRoomParticipants := v; dealConditions := dealConditions db; dealDecisions := dealDecisions db; passports := passports db; facts := facts db; passportEvidence := passportEvidence db; readinessResults := readinessResults db; users := users db; organizationMemberships := organizationMemberships db; capacityProfiles := capacityProfiles db; volumeSlices := volumeSlices db; matchResults := matchResults db; sessions := sessions db; lockboxKeyShares := lockboxKeyShares db; lockboxReceipts := lockboxReceipts db; lockboxReleaseEvidence := lockboxReleaseEvidence db; auditEvents := auditEvents db; domainEvents := domainEvents db; idempotencyKeys := idempotencyKeys db |}.

Definition set_dealConditions (v : list DealConditionRow.t) (db : Db) : Db :=
  {| clock := clock db; drawn := drawn db; dealRooms := dealRooms db; commissionSchedules := commissionSchedules db; commissionComponents := commissionComponents db; revenueEvents := revenueEvents db; commissionAccruals := commissionAccruals db; commissionPayments := commissionPayments db; organizations := organizations db; opportunities := opportunities db; claims := claims db; claimEvidence := claimEvidence db; claimDecisions := claimDecisions db; claimDisputes := claimDisputes db; lockboxes := lockboxes db; rfqs := rfqs db; rfqVersions := rfqVersions db; rfqRecipients := rfqRecipients db; quotes := quotes db; dealRoomParticipants := dealRoomParticipants db; dealConditions := v; dealDecisions := dealDecisions db; passports := passports db; facts := facts db; passportEvidence := passportEvidence db; readinessResults := readinessResults db; users := users db; organizationMemberships := organizationMemberships db; capacityProfiles := capacityProfiles db; volumeSlices := volumeSlices db; matchResults := matchResults db; sessions := sessions db; lockboxKeyShares := lockboxKeyShares db; lockboxReceipts := lockboxReceipts db; lockboxReleaseEvidence := lockboxReleaseEvidence db; auditEvents := auditEvents db; domainEvents := domainEvents db; idempotencyKeys := idempotencyKeys db |}.

Definition set_dealDecisions (v : list DealDecisionRow.t) (db : Db) : Db :=
  {| clock := clock db; drawn := drawn db; dealRooms := dealRooms db; commissionSchedules := commissionSchedules db; commissionComponents := commissionComponents db; revenueEvents := revenueEvents db; commissionAccruals := commissionAccruals db; commissionPayments := commissionPayments db; organizations := organizations db; opportunities := opportunities db; claims := claims db; claimEvidence := claimEvidence db; claimDecisions := claimDecisions db; claimDisputes := claimDisputes db; lockboxes := lockboxes db; rfqs := rfqs db; rfqVersions := rfqVersions db; rfqRecipients := rfqRecipients db; quotes := quotes db; dealRoomParticipants := dealRoomParticipants db; dealConditions := dealConditions db; dealDecisions := v; passports := passports db; facts := facts db; passportEvidence := passportEvidence db; readinessResults := readinessResults db; users := users db; organizationMemberships := organizationMemberships db; capacityProfiles := capacityProfiles db; volumeSlices := volumeSlices db; matchResults := matchResults db; sessions := sessions db; lockboxKeyShares := lockboxKeyShares db; lockboxReceipts := lockboxReceipts db; lockboxReleaseEvidence := lockboxReleaseEvidence db; auditEvents := auditEvents db; domainEvents := domainEvents db; idempotencyKeys := idempotencyKeys db |}.

Definition set_passports (v : list PassportRow.t) (db : Db) : Db :=
  {| clock := clock db; drawn := drawn db; dealRooms := dealRooms db; commissionSchedules := commissionSchedules db; commissionComponents := commissionComponents db; revenueEvents := revenueEvents db; commissionAccruals := commissionAccruals db; commissionPayments := commissionPayments db; organizations := organizations db; opportunities := opportunities db; claims := claims db; claimEvidence := claimEvidence db; claimDecisions := claimDecisions db; claimDisputes := claimDisputes db; lockboxes := lockboxes db; rfqs := rfqs db; rfqVersions := rfqVersions db; rfqRecipients := rfqRecipients db; quotes := quotes db; dealRoomParticipants := dealRoomParticipants db; dealConditions := dealConditions db; dealDecisions := dealDecisions db; passports := v; facts := facts db; passportEvidence := passportEvidence db; readinessResults := readinessResults db; users := users db; organizationMemberships := organizationMemberships db; capacityProfiles := capacityProfiles db; volumeSlices := volumeSlices db; matchResults := matchResults db; sessions := sessions db; lockboxKeyShares := lockboxKeyShares db; lockboxReceipts := lockboxReceipts db; lockboxReleaseEvidence := lockboxReleaseEvidence db; auditEvents := auditEvents db; domainEvents := domainEvents db; idempotencyKeys := idempotencyKeys db |}.

Definition set_facts (v : list FactRow.t) (db : Db) : Db :=
  {| clock := clock db; drawn := drawn db; dealRooms := dealRooms db; commissionSchedules := commissionSchedules db; commissionComponents := commissionComponents db; revenueEvents := revenueEvents db; commissionAccruals := commissionAccruals db; commissionPayments := commissionPayments db; organizations := organizations db; opportunities := opportunities db; claims := claims db; claimEvidence := claimEvidence db; claimDecisions := claimDecisions db; claimDisputes := claimDisputes db; lockboxes := lockboxes db; rfqs := rfqs db; rfqVersions := rfqVersions db; rfqRecipients := rfqRecipients db; quotes := quotes db; dealRoomParticipants := dealRoomParticipants db; dealConditions := dealConditions db; dealDecisions := dealDecisions db; passports := passports db; facts := v; passportEvidence := passportEvidence db; readinessResults := readinessResults db; users := users db; organizationMemberships := organizationMemberships db; capacityProfiles := capacityProfiles db; volumeSlices := volumeSlices db; matchResults := matchResults db; sessions := sessions db; lockboxKeyShares := lockboxKeyShares db; lockboxReceipts := lockboxReceipts db; lockboxReleaseEvidence := lockboxReleaseEvidence db; auditEvents := auditEvents db; domainEvents := domainEvents db; idempotencyKeys := idempotencyKeys db |}.

Definition set_passportEvidence (v : list EvidenceRow.t) (db : Db) : Db :=
  {| clock := clock db; drawn := drawn db; dealRooms := dealRooms db; commissionSchedules := commissionSchedules db; commissionComponents := commissionComponents db; revenueEvents := revenueEvents db; commissionAccruals := commissionAccruals db; commissionPayments := commissionPayments db; organizations := organizations db; opportunities := opportunities db; claims := claims db; claimEvidence := claimEvidence db; claimDecisions := claimDecisions db; claimDisputes := claimDisputes db; lockboxes := lockboxes db; rfqs := rfqs db; rfqVersions := rfqVersions db; rfqRecipients := rfqRecipients db; quotes := quotes db; dealRoomParticipants := dealRoomParticipants db; dealConditions := dealConditions db; dealDecisions := dealDecisions db; passports := passports db; facts := facts db; passportEvidence := v; readinessResults := readinessResults db; users := users db; organizationMemberships := organizationMemberships db; capacityProfiles := capacityProfiles db; volumeSlices := volumeSlices db; matchResults := matchResults db; sessions := sessions db; lockboxKeyShares := lockboxKeyShares db; lockboxReceipts := lockboxReceipts db; lockboxReleaseEvidence := lockboxReleaseEvidence db; auditEvents := auditEvents db; domainEvents := domainEvents db; idempotencyKeys := idempotencyKeys db |}.

Definition set_readinessResults (v : list ReadinessResultRow.t) (db : Db) : Db :=
  {| clock := clock db; drawn := drawn db; dealRooms := dealRooms db; commissionSchedules := commissionSchedules db; commissionComponents := commissionComponents db; revenueEvents := revenueEvents db; commissionAccruals := commissionAccruals db; commissionPayments := commissionPayments db; organizations := organizations db; opportunities := opportunities db; claims := claims db; claimEvidence := claimEvidence db; claimDecisions := claimDecisions db; claimDisputes := claimDisputes db; lockboxes := lockboxes db; rfqs := rfqs db; rfqVersions := rfqVersions db; rfqRecipients := rfqRecipients db; quotes := quotes db; dealRoomParticipants := dealRoomParticipants db; dealConditions := dealConditions db; dealDecisions := dealDecisions db; passports := passports db; facts := facts db; passportEvidence := passportEvidence db; readinessResults := v; users := users db; organizationMemberships := organizationMemberships db; capacityProfiles := capacityProfiles db; volumeSlices := volumeSlices db; matchResults := matchResults db; sessions := sessions db; lockboxKeyShares := lockboxKeyShares db; lockboxReceipts := lockboxReceipts db; lockboxReleaseEvidence := lockboxReleaseEvidence db; auditEvents := auditEvents db; domainEvents := domainEvents db; idempotencyKeys := idempotencyKeys db |}.

Definition set_users (v : list UserRow.t) (db : Db) : Db :=
  {| clock := clock db; drawn := drawn db; dealRooms := dealRooms db; commissionSchedules := commissionSchedules db; commissionComponents := commissionComponents db; revenueEvents := revenueEvents db; commissionAccruals := commissionAccruals db; commissionPayments := commissionPayments db; organizations := organizations db; opportunities := opportunities db; claims := claims db; claimEvidence := claimEvidence db; claimDecisions := claimDecisions db; claimDisputes := claimDisputes db; lockboxes := lockboxes db; rfqs := rfqs db; rfqVersions := rfqVersions db; rfqRecipients := rfqRecipients db; quotes := quotes db; dealRoomParticipants := dealRoomParticipants db; dealConditions := dealConditions db; dealDecisions := dealDecisions db; passports := passports db; facts := facts db; passportEvidence := passportEvidence db; readinessResults := readinessResults db; users := v; organizationMemberships := organizationMemberships db; capacityProfiles := capacityProfiles db; volumeSlices := volumeSlices db; matchResults := matchResults db; sessions := sessions db; lockboxKeyShares := lockboxKeyShares db; lockboxReceipts := lockboxReceipts db; lockboxReleaseEvidence := lockboxReleaseEvidence db; auditEvents := auditEvents db; domainEvents := domainEvents db; idempotencyKeys := idempotencyKeys db |}.

Definition set_organizationMemberships (v : list MembershipRow.t) (db : Db) : Db :=
  {| clock := clock db; drawn := drawn db; dealRooms := dealRooms db; commissionSchedules := commissionSchedules db; commissionComponents := commissionComponents db; revenueEvents := revenueEvents db; commissionAccruals := commissionAccruals db; commissionPayments := commissionPayments db; organizations := organizations db; opportunities := opportunities db; claims := claims db; claimEvidence := claimEvidence db; claimDecisions := claimDecisions db; claimDisputes := claimDisputes db; lockboxes := lockboxes db; rfqs := rfqs db; rfqVersions := rfqVersions db; rfqRecipients := rfqRecipients db; quotes := quotes db; dealRoomParticipants := dealRoomParticipants db; dealConditions := dealConditions db; dealDecisions := dealDecisions db; passports := passports db; facts := facts db; passportEvidence := passportEvidence db; readinessResults := readinessResults db; users := users db; organizationMemberships := v; capacityProfiles := capacityProfiles db; volumeSlices := volumeSlices db; matchResults := matchResults db; sessions := sessions db; lockboxKeyShares := lockboxKeyShares db; lockboxReceipts := lockboxReceipts db; lockboxReleaseEvidence := lockboxReleaseEvidence db; auditEvents := auditEvents db; domainEvents := domainEvents db; idempotencyKeys := idempotencyKeys db |}.

Definition set_capacityProfiles (v : list CapacityProfileRow.t) (db : Db) : Db :=
  {| clock := clock db; drawn := drawn db; dealRooms := dealRooms db; commissionSchedules := commissionSchedules db; commissionComponents := commissionComponents db; revenueEvents := revenueEvents db; commissionAccruals := commissionAccruals db; commissionPayments := commissionPayments db; organizations := organizations db; opportunities := opportunities db; claims := claims db; claimEvidence := claimEvidence db; claimDecisions := claimDecisions db; claimDisputes := claimDisputes db; lockboxes := lockboxes db; rfqs := rfqs db; rfqVersions := rfqVersions db; rfqRecipients := rfqRecipients db; quotes := quotes db; dealRoomParticipants := dealRoomParticipants db; dealConditions := dealConditions db; dealDecisions := dealDecisions db; passports := passports db; facts := facts db; passportEvidence := passportEvidence db; readinessResults := readinessResults db; users := users db; organizationMemberships := organizationMemberships db; capacityProfiles := v; volumeSlices := volumeSlices db; matchResults := matchResults db; sessions := sessions db; lockboxKeyShares := lockboxKeyShares db; lockboxReceipts := lockboxReceipts db; lockboxReleaseEvidence := lockboxReleaseEvidence db; auditEvents := auditEvents db; domainEvents := domainEvents db; idempotencyKeys := idempotencyKeys db |}.

Definition set_volumeSlices (v : list VolumeSliceRow.t) (db : Db) : Db :=
  {| clock := clock db; drawn := drawn db; dealRooms := dealRooms db; commissionSchedules := commissionSchedules db; commissionComponents := commissionComponents db; revenueEvents := revenueEvents db; commissionAccruals := commissionAccruals db; commissionPayments := commissionPayments db; organizations := organizations db; opportunities := opportunities db; claims := claims db; claimEvidence := claimEvidence db; claimDecisions := claimDecisions db; claimDisputes := claimDisputes db; lockboxes := lockboxes db; rfqs := rfqs db; rfqVersions := rfqVersions db; rfqRecipients := rfqRecipients db; quotes := quotes db; dealRoomParticipants := dealRoomParticipants db; dealConditions := dealConditions db; dealDecisions := dealDecisions db; passports := passports db; facts := facts db; passportEvidence := passportEvidence db; readinessResults := readinessResults db; users := users db; organizationMemberships := organizationMemberships db; capacityProfiles := capacityProfiles db; volumeSlices := v; matchResults := matchResults db; sessions := sessions db; lockboxKeyShares := lockboxKeyShares db; lockboxReceipts := lockboxReceipts db; lockboxReleaseEvidence := lockboxReleaseEvidence db; auditEvents := auditEvents db; domainEvents := domainEvents db; idempotencyKeys := idempotencyKeys db |}.

Definition set_matchResults (v : list MatchResultRow.t) (db : Db) : Db :=
  {| clock := clock db; drawn := drawn db; dealRooms := dealRooms db; commissionSchedules := commissionSchedules db; commissionComponents := commissionComponents db; revenueEvents := revenueEvents db; commissionAccruals := commissionAccruals db; commissionPayments := commissionPayments db; organizations := organizations db; opportunities := opportunities db; claims := claims db; claimEvidence := claimEvidence db; claimDecisions := claimDecisions db; claimDisputes := claimDisputes db; lockboxes := lockboxes db; rfqs := rfqs db; rfqVersions := rfqVersions db; rfqRecipients := rfqRecipients db; quotes := quotes db; dealRoomParticipants := dealRoomParticipants db; dealConditions := dealConditions db; dealDecisions := dealDecisions db; passports := passports db; facts := facts db; passportEvidence := passportEvidence db; readinessResults := readinessResults db; users := users db; organizationMemberships := organizationMemberships db; capacityProfiles := capacityProfiles db; volumeSlices := volumeSlices db; matchResults := v; sessions := sessions db; lockboxKeyShares := lockboxKeyShares db; lockboxReceipts := lockboxReceipts db; lockboxReleaseEvidence := lockboxReleaseEvidence db; auditEvents := auditEvents db; domainEvents := domainEvents db; idempotencyKeys := idempotencyKeys db |}.

Definition set_sessions (v : list SessionRow.t) (db : Db) : Db :=
  {| clock := clock db; drawn := drawn db; dealRooms := dealRooms db; commissionSchedules := commissionSchedules db; commissionComponents := commissionComponents db; revenueEvents := revenueEvents db; commissionAccruals := commissionAccruals db; commissionPayments := commissionPayments db; organizations := organizations db; opportunities := opportunities db; claims := claims db; claimEvidence := claimEvidence db; claimDecisions := claimDecisions db; claimDisputes := claimDisputes db; lockboxes := lockboxes db; rfqs := rfqs db; rfqVersions := rfqVersions db; rfqRecipients := rfqRecipients db; quotes := quotes db; dealRoomParticipants := dealRoomParticipants db; dealConditions := dealConditions db; dealDecisions := dealDecisions db; passports := passports db; facts := facts db; passportEvidence := passportEvidence db; readinessResults := readinessResults db; users := users db; organizationMemberships := organizationMemberships db; capacityProfiles := capacityProfiles db; volumeSlices := volumeSlices db; matchResults := matchResults db; sessions := v; lockboxKeyShares := lockboxKeyShares db; lockboxReceipts := lockboxReceipts db; lockboxReleaseEvidence := lockboxReleaseEvidence db; auditEvents := auditEvents db; domainEvents := domainEvents db; idempotencyKeys := idempotencyKeys db |}.

Definition set_lockboxKeyShares (v : list LockboxKeyShareRow.t) (db : Db) : Db :=
  {| clock := clock db; drawn := drawn db; dealRooms := dealRooms db; commissionSchedules := commissionSchedules db; commissionComponents := commissionComponents db; revenueEvents := revenueEvents db; commissionAccruals := commissionAccruals db; commissionPayments := commissionPayments db; organizations := organizations db; opportunities := opportunities db; claims := claims db; claimEvidence := claimEvidence db; claimDecisions := claimDecisions db; claimDisputes := claimDisputes db; lockboxes := lockboxes db; rfqs := rfqs db; rfqVersions := rfqVersions db; rfqRecipients := rfqRecipients db; quotes := quotes db; dealRoomParticipants := dealRoomParticipants db; dealConditions := dealConditions db; dealDecisions := dealDecisions db; passports := passports db; facts := facts db; passportEvidence := passportEvidence db; readinessResults := readinessResults db; users := users db; organizationMemberships := organizationMemberships db; capacityProfiles := capacityProfiles db; volumeSlices := volumeSlices db; matchResults := matchResults db; sessions := sessions db; lockboxKeyShares := v; lockboxReceipts := lockboxReceipts db; lockboxReleaseEvidence := lockboxReleaseEvidence db; auditEvents := auditEvents db; domainEvents := domainEvents db; idempotencyKeys := idempotencyKeys db |}.

Definition set_lockboxReceipts (v : list LockboxReceiptRow.t) (db : Db) : Db :=
  {| clock := clock db; drawn := drawn db; dealRooms := dealRooms db; commissionSchedules := commissionSchedules db; commissionComponents := commissionComponents db; revenueEvents := revenueEvents db; commissionAccruals := commissionAccruals db; commissionPayments := commissionPayments db; organizations := organizations db; opportunities := opportunities db; claims := claims db; claimEvidence := claimEvidence db; claimDecisions := claimDecisions db; claimDisputes := claimDisputes db; lockboxes := lockboxes db; rfqs := rfqs db; rfqVersions := rfqVersions db; rfqRecipients := rfqRecipients db; quotes := quotes db; dealRoomParticipants := dealRoomParticipants db; dealConditions := dealConditions db; dealDecisions := dealDecisions db; passports := passports db; facts := facts db; passportEvidence := passportEvidence db; readinessResults := readinessResults db; users := users db; organizationMemberships := organizationMemberships db; capacityProfiles := capacityProfiles db; volumeSlices := volumeSlices db; matchResults := matchResults db; sessions := sessions db; lockboxKeyShares := lockboxKeyShares db; lockboxReceipts := v; lockboxReleaseEvidence := lockboxReleaseEvidence db; auditEvents := auditEvents db; domainEvents := domainEvents db; idempotencyKeys := idempotencyKeys db |}.

Definition set_lockboxReleaseEvidence (v : list LockboxReleaseEvidenceRow.t) (db : Db) : Db :=
  {| clock := clock db; drawn := drawn db; dealRooms := dealRooms db; commissionSchedules := commissionSchedules db; commissionComponents := commissionComponents db; revenueEvents := revenueEvents db; commissionAccruals := commissionAccruals db; commissionPayments := commissionPayments db; organizations := organizations db; opportunities := opportunities db; claims := claims db; claimEvidence := claimEvidence db; claimDecisions := claimDecisions db; claimDisputes := claimDisputes db; lockboxes := lockboxes db; rfqs := rfqs db; rfqVersions := rfqVersions db; rfqRecipients := rfqRecipients db; quotes := quotes db; dealRoomParticipants := dealRoomParticipants db; dealConditions := dealConditions db; dealDecisions := dealDecisions db; passports := passports db; facts := facts db; passportEvidence := passportEvidence db; readinessResults := readinessResults db; users := users db; organizationMemberships := organizationMemberships db; capacityProfiles := capacityProfiles db; volumeSlices := volumeSlices db; matchResults := matchResults db; sessions := sessions db; lockboxKeyShares := lockboxKeyShares db; lockboxReceipts := lockboxReceipts db; lockboxReleaseEvidence := v; auditEvents := auditEvents db; domainEvents := domainEvents db; idempotencyKeys := idempotencyKeys db |}.

Definition set_auditEvents (v : list AuditEventRow.t) (db : Db) : Db :=
  {| clock := clock db; drawn := drawn db; dealRooms := dealRooms db; commissionSchedules := commissionSchedules db; commissionComponents := commissionComponents db; revenueEvents := revenueEvents db; commissionAccruals := commissionAccruals db; commissionPayments := commissionPayments db; organizations := organizations db; opportunities := opportunities db; claims := claims db; claimEvidence := claimEvidence db; claimDecisions := claimDecisions db; claimDisputes := claimDisputes db; lockboxes := lockboxes db; rfqs := rfqs db; rfqVersions := rfqVersions db; rfqRecipients := rfqRecipients db; quotes := quotes db; dealRoomParticipants := dealRoomParticipants db; dealConditions := dealConditions db; dealDecisions := dealDecisions db; passports := passports db; facts := facts db; passportEvidence := passportEvidence db; readinessResults := readinessResults db; users := users db; organizationMemberships := organizationMemberships db; capacityProfiles := capacityProfiles db; volumeSlices := volumeSlices db; matchResults := matchResults db; sessions := sessions db; lockboxKeyShares := lockboxKeyShares db; lockboxReceipts := lockboxReceipts db; lockboxReleaseEvidence := lockboxReleaseEvidence db; auditEvents := v; domainEvents := domainEvents db; idempotencyKeys := idempotencyKeys db |}.

Definition set_domainEvents (v : list DomainEventRow.t) (db : Db) : Db :=
  {| clock := clock db; drawn := drawn db; dealRooms := dealRooms db; commissionSchedules := commissionSchedules db; commissionComponents := commissionComponents db; revenueEvents := revenueEvents db; commissionAccruals := commissionAccruals db; commissionPayments := commissionPayments db; organizations := organizations db; opportunities := opportunities db; claims := claims db; claimEvidence := claimEvidence db; claimDecisions := claimDecisions db; claimDisputes := claimDisputes db; lockboxes := lockboxes db; rfqs := rfqs db; rfqVersions := rfqVersions db; rfqRecipients := rfqRecipients db; quotes := quotes db; dealRoomParticipants := dealRoomParticipants db; dealConditions := dealConditions db; dealDecisions := dealDecisions db; passports := passports db; facts := facts db; passportEvidence := passportEvidence db; readinessResults := readinessResults db; users := users db; organizationMemberships := organizationMemberships db; capacityProfiles := capacityProfiles db; volumeSlices := volumeSlices db; matchResults := matchResults db; sessions := sessions db; lockboxKeyShares := lockboxKeyShares db; lockboxReceipts := lockboxReceipts db; lockboxReleaseEvidence := lockboxReleaseEvidence db; auditEvents := auditEvents db; domainEvents := v; idempotencyKeys := idempotencyKeys db |}.

Definition set_idempotencyKeys (v : list IdempotencyKeyRow.t) (db : Db) : Db :=
  {| clock := clock db; drawn := drawn db; dealRooms := dealRooms db; commissionSchedules := commissionSchedules db; commissionComponents := commissionComponents db; revenueEvents := revenueEvents db; commissionAccruals := commissionAccruals db; commissionPayments := commissionPayments db; organizations := organizations db; opportunities := opportunities db; claims := claims db; claimEvidence := claimEvidence db; claimDecisions := claimDecisions db; claimDisputes := claimDisputes db; lockboxes := lockboxes db; rfqs := rfqs db; rfqVersions := rfqVersions db; rfqRecipients := rfqRecipients db; quotes := quotes db; dealRoomParticipants := dealRoomParticipants db; dealConditions := dealConditions db; dealDecisions := dealDecisions db; passports := passports db; facts := facts db; passportEvidence := passportEvidence db; readinessResults := readinessResults db; users := users db; organizationMemberships := organizationMemberships db; capacityProfiles := capacityProfiles db; volumeSlices := volumeSlices db; matchResults := matchResults db; sessions := sessions db; lockboxKeyShares := lockboxKeyShares db; lockboxReceipts := lockboxReceipts db; lockboxReleaseEvidence := lockboxReleaseEvidence db; auditEvents := auditEvents db; domainEvents := domainEvents db; idempotencyKeys := v |}.

Definition emptyDb : Db :=
  {| clock := 0; drawn := 0%nat; dealRooms := []; commissionSchedules := []; commissionComponents := []; revenueEvents := []; commissionAccruals := []; commissionPayments := []; organizations := []; opportunities := []; claims := []; claimEvidence := []; claimDecisions := []; claimDisputes := []; lockboxes := []; rfqs := []; rfqVersions := []; rfqRecipients := []; quotes := []; dealRoomParticipants := []; dealConditions := []; dealDecisions := []; passports := []; facts := []; passportEvidence := []; readinessResults := []; users := []; organizationMemberships := []; capacityProfiles := []; volumeSlices := []; matchResults := []; sessions := []; lockboxKeyShares := []; lockboxReceipts := []; lockboxReleaseEvidence := []; auditEvents := []; domainEvents := []; idempotencyKeys := [] |}.

(** ** Queries *)

Definition findUnique {R} (where_ : R -> bool) (t : list R) : option R := List.find where_ t.

Definition byId {R} `{Row R} (x : string) (r : R) : bool := String.eqb (row_id r) x.

Definition findById {R} `{Row R} (t : list R) (x : string) : option R := findUnique (byId x) t.

Definition asc {R} (key : R -> Z) : R -> R -> comparison := cmp_on key Z.compare.
Definition desc {R} (key : R -> Z) : R -> R -> comparison := cmp_desc (cmp_on key Z.compare).

#[global] Instance asc_order {R} (key : R -> Z) : CmpOrder (asc key).
Proof. unfold asc. apply _. Qed.
#[global] Instance desc_order {R} (key : R -> Z) : CmpOrder (desc key).
Proof. unfold desc. apply _. Qed.

Definition findMany {R} (order : R -> R -> comparison) (where_ : R -> bool) (t : list R) : list R :=
  sort_by order (List.filter where_ t).

(** [update({ where: { id } })]: Prisma raises P2025 when no row matches. *)
Definition updateById {R} `{Row R} (x : string) (f : R -> R) (t : list R) : res (R * list R) :=
  match findById t x with
  | None => Throw (PrismaKnownRequestError "P2025")
  | Some r => Ok (f r, map (fun r' => if byId x r' then f r' else r') t)
  end.

(** ** Transactions

    The body of a [withTransaction] is a state-passing function that may
    throw; throwing discards the state, which is the rollback. *)
Definition Tx (A : Type) : Type := Db -> res (A * Db).

Definition tret {A} (a : A) : Tx A := fun db => Ok (a, db).
Definition tbind {A B} (m : Tx A) (k : A -> Tx B) : Tx B :=
  fun db => match m db with Ok (a, db') => k a db' | Throw e => Throw e end.
(** a query inside the transaction *)
Definition treads {A} (f : Db -> A) : Tx A := fun db => Ok (f db, db).
(** a computation that may throw *)
Definition tlift {A} (m : res A) : Tx A := fun db => match m with Ok a => Ok (a, db) | Throw e => Throw e end.
Definition tmodify (f : Db -> Db) : Tx unit := fun db => Ok (tt, f db).

Notation "'let*' x := m 'in' k" := (tbind m (fun x => k))
  (at level 200, x pattern, m at level 100, k at level 200, right associativity) : tol_scope.
Notation "'do*' m ';' k" := (tbind m (fun _ => k))
  (at level 200, m at level 100, k at level 200, right associativity) : tol_scope.

(** [for (const input of inputs) rows.push(await f(input))] *)
Fixpoint tmapM {A B} (f : A -> Tx B) (l : list A) : Tx (list B) :=
  match l with
  | [] => tret []
  | x :: l' => let* y := f x in let* ys := tmapM f l' in tret (y :: ys)
  end.

Section Ids.
Context `{Platform}.

(** [newId()] *)
Definition freshId : Tx string :=
  fun db => Ok (newId (drawn db), set_drawn (S (drawn db)) db).

(** The [base] columns of a new row: [@default(now())] is the database clock. *)
Definition newBase (user org : option string) (cls : Roles.DisclosureClass) (db : Db) : Base :=
  {| createdAt := clock db; createdByUserId := user; createdByOrgId := org; updatedByUserId := None;
     version := 1; privacyClass := cls; sourceType := SourceType.PLATFORM; sourceReference := None |}.

End Ids.

(** ** Reasoning about queries and transactions *)

Lemma tbind_Ok {A B} (m : Tx A) (k : A -> Tx B) db b db' :
  tbind m k db = Ok (b, db') <-> exists a db1, m db = Ok (a, db1) /\ k a db1 = Ok (b, db').
Proof. unfold tbind. destruct (m db) as [[a db1]|e]; naive_solver. Qed.

(** Running a body forwards, one bind at a time. *)
Lemma tbind_run {A B} (m : Tx A) (k : A -> Tx B) db a db1 : m db = Ok (a, db1) -> tbind m k db = k a db1.
Proof. unfold tbind. by intros ->. Qed.

Lemma tbind_throw {A B} (m : Tx A) (k : A -> Tx B) db e : m db = Throw e -> tbind m k db = Throw e.
Proof. unfold tbind. by intros ->. Qed.

Lemma tlift_Ok {A} (m : res A) db a db' : tlift m db = Ok (a, db') <-> m = Ok a /\ db' = db.
Proof. unfold tlift. destruct m; naive_solver. Qed.

(** Decomposes [.. = Ok (_, _)] about a transaction body. *)
Ltac inv_tx :=
  repeat match goal with
  | H : tbind _ _ _ = Ok (_, _) |- _ =>
      apply tbind_Ok in H; let a := fresh "v" in let d := fresh "db" in destruct H as (a & d & ? & H)
  | H : tlift _ _ = Ok (_, _) |- _ => apply tlift_Ok in H; destruct H as [H ->]
  | H : tret _ _ = Ok (_, _) |- _ => unfold tret in H; simplify_eq H; clear H; intros; subst
  | H : treads _ _ = Ok (_, _) |- _ => unfold treads in H; simplify_eq H; clear H; intros; subst
  | H : freshId _ = Ok (_, _) |- _ => unfold freshId in H; simplify_eq H; clear H; intros; subst
  | H : throw_if _ _ = Ok _ |- _ => apply throw_if_Ok in H
  end.

Lemma findById_Some {R} `{Row R} (t : list R) x r : findById t x = Some r -> r ∈ t /\ row_id r = x.
Proof.
  unfold findById, findUnique, byId. intros [Hin Heq]%find_some. split; [by apply list_elem_of_In|]. by apply String.eqb_eq.
Qed.

Lemma findById_None {R} `{Row R} (t : list R) x r : findById t x = None -> r ∈ t -> row_id r <> x.
Proof.
  unfold findById, findUnique, byId. intros Hn Hr E. apply list_elem_of_In in Hr.
  pose proof (find_none _ _ Hn r Hr) as Hf. simpl in Hf. rewrite E, String.eqb_refl in Hf. discriminate.
Qed.

(** Rows in insertion order carry non-decreasing timestamps: ordering by
    [createdAt] ascending then changes nothing. *)
Definition chronological {R} `{Row R} (t : list R) : Prop :=
  StronglySorted (fun a b => row_createdAt a <= row_createdAt b) t.

Lemma chronological_filter {R} `{Row R} (p : R -> bool) t : chronological t -> chronological (List.filter p t).
Proof.
  induction 1 as [|r t Ht IH Hr]; simpl; [constructor|]. destruct (p r); [|done]. constructor; [done|].
  rewrite Forall_forall in *. intros x [Hx _]%elem_of_filter_list. by apply Hr.
Qed.

Lemma sort_chronological {R} `{Row R} (t : list R) : chronological t -> sort_by (asc row_createdAt) t = t.
Proof.
  induction 1 as [|r t Ht IH Hr]; [done|]. simpl in *. rewrite IH. destruct t as [|r' t]; [done|]. simpl.
  apply Forall_inv in Hr. unfold asc, cmp_on. by destruct (Z.compare_spec (row_createdAt r) (row_createdAt r')); [..|lia].
Qed.

Lemma findMany_elem {R} order (p : R -> bool) t r : r ∈ findMany order p t -> r ∈ t /\ p r = true.
Proof. unfold findMany. rewrite sort_by_elem. intros [Hin Hp]%list_elem_of_In%filter_In. split; [by apply list_elem_of_In|done]. Qed.

Lemma findMany_chronological {R} `{Row R} (p : R -> bool) t :
  chronological t -> findMany (asc row_createdAt) p t = List.filter p t.
Proof. intros. unfold findMany. by apply sort_chronological, chronological_filter. Qed.

Lemma chronological_app {R} `{Row R} (t u : list R) (c : Z) :
  chronological t -> chronological u -> Forall (fun r => row_createdAt r <= c) t -> Forall (fun r => c <= row_createdAt r) u ->
  chronological (t ++ u).
Proof.
  intros Ht Hu Hc. induction Ht as [|r t Ht IH Hr]; intros Hcu; simpl; [done|].
  apply Forall_cons in Hc as [Hrc Hc]. constructor; [by apply IH|]. rewrite Forall_app. split; [done|].
  eapply Forall_impl; [exact Hcu|]. simpl. lia.
Qed.

(** Identifiers drawn between two counts. *)
Definition drawnIn `{Platform} (lo hi : nat) (x : string) : Prop := exists n, (lo <= n < hi)%nat /\ x = newId n.

Lemma drawnIn_disjoint `{Platform} lo mid hi x y : drawnIn lo mid x -> drawnIn mid hi y -> x <> y.
Proof. intros (n & Hn & ->) (m & Hm & ->) E. apply newId_inj in E. lia. Qed.

Lemma drawnIn_weaken `{Platform} lo hi lo' hi' x : (lo' <= lo)%nat -> (hi <= hi')%nat -> drawnIn lo hi x -> drawnIn lo' hi' x.
Proof. intros ?? (n & Hn & ->). exists n. split; [lia|done]. Qed.
