(* ===== verification/Tables.v ===== *)
(** * Tables under insertion and update

    A table is [table_ok] when its rows were inserted in sequence: identifiers
    drawn so far, no two alike, timestamps in order.  Appending [fresh_rows]
    and updating by identifier keep it so.  [book] is a table as a map from
    identifiers; [map_later] and [unique] are what such maps may become and
    keep. *)
From S2P Require Import Prelude StableSort Database.
From Stdlib Require Import Sorted.

Section Tables.
Context `{Platform}.

(** New rows have identifiers drawn during the transaction, no two alike, and
    its timestamp. *)
Record fresh_rows {R} `{Row R} (db db' : Db) (rows : list R) : Prop := {
  fresh_ids : Forall (fun r => drawnIn (drawn db) (drawn db') (row_id r)) rows;
  fresh_distinct : NoDup (map row_id rows);
  fresh_clock : Forall (fun r => row_createdAt r = clock db) rows
}.

Lemma fresh_nil {R} `{Row R} db db' : fresh_rows (R := R) db db' [].
Proof. repeat constructor. Qed.

Lemma fresh_weaken {R} `{Row R} db db1 db2 (rows : list R) :
  (drawn db1 <= drawn db2)%nat -> fresh_rows db db1 rows -> fresh_rows db db2 rows.
Proof.
  intros Hle [F1 F2 F3]. split; [|done|done]. eapply Forall_impl; [exact F1|].
  intros r Hr. by eapply drawnIn_weaken; [| |exact Hr].
Qed.

(** A table whose rows were inserted in sequence. *)
Record table_ok {R} `{Row R} (db : Db) (t : list R) : Prop := {
  tb_ids : Forall (fun r => drawnIn 0 (drawn db) (row_id r)) t;
  tb_distinct : NoDup (map row_id t);
  tb_order : chronological t;
  tb_clock : Forall (fun r => row_createdAt r <= clock db) t
}.

Lemma table_old_new {R1 R2} `{Row R1, Row R2} db db' (t : list R1) (rows : list R2) r x :
  table_ok db t -> fresh_rows db db' rows -> r ∈ t -> x ∈ rows -> row_id r <> row_id x.
Proof.
  intros [T1 _ _ _] [F1 _ _] Hr Hx. eapply drawnIn_disjoint.
  - exact (proj1 (Forall_forall _ _) T1 r Hr).
  - exact (proj1 (Forall_forall _ _) F1 x Hx).
Qed.

Lemma table_append {R} `{Row R} db db' (t rows : list R) :
  table_ok db t -> fresh_rows db db' rows -> (drawn db <= drawn db')%nat -> clock db' = clock db -> table_ok db' (t ++ rows).
Proof.
  intros T F Hd Hc. pose proof T as [T1 T2 T3 T4]. pose proof F as [F1 F2 F3]. split.
  - rewrite Forall_app. split; [eapply Forall_impl; [exact T1|]|eapply Forall_impl; [exact F1|]];
      intros r Hr; (eapply drawnIn_weaken; [| |exact Hr]; lia).
  - rewrite map_app. apply NoDup_app. split_and!; [done| |done].
    intros y (r & -> & Hr)%list_elem_of_fmap (x & E & Hx)%list_elem_of_fmap. by eapply table_old_new.
  - assert (chronological rows) as Hrows.
    { clear F F1 F2. induction F3 as [|r rows Hr F3 IH]; [constructor|]. constructor; [done|].
      eapply Forall_impl; [exact F3|]. simpl. lia. }
    eapply (chronological_app _ _ (clock db)); [done|done|done|]. eapply Forall_impl; [exact F3|]. simpl. lia.
  - rewrite Forall_app, Hc. split; [done|]. eapply Forall_impl; [exact F3|]. simpl. lia.
Qed.

Lemma table_same {R} `{Row R} db db' (t : list R) :
  table_ok db t -> (drawn db <= drawn db')%nat -> clock db <= clock db' -> table_ok db' t.
Proof.
  intros [T1 T2 T3 T4] Hd Hc. split; [|done|done|].
  - eapply Forall_impl; [exact T1|]. intros r Hr. eapply drawnIn_weaken; [| |exact Hr]; lia.
  - eapply Forall_impl; [exact T4|]. simpl. lia.
Qed.

(** ** Updates by identifier *)

Lemma findById_app_new {R} `{Row R} (l : list R) x r : (forall y, y ∈ l -> row_id y <> x) -> row_id r = x -> findById (l ++ [r]) x = Some r.
Proof.
  intros Hl Hr. unfold findById, findUnique, byId. induction l as [|y l IH]; simpl.
  - by rewrite Hr, String.eqb_refl.
  - rewrite (proj2 (String.eqb_neq _ _)) by (apply Hl; left). apply IH. intros; apply Hl; by right.
Qed.

Lemma map_update_other {R} `{Row R} (f : R -> R) (l : list R) x : (forall y, y ∈ l -> row_id y <> x) ->
  map (fun r' => if byId x r' then f r' else r') l = l.
Proof.
  intros Hl. induction l as [|y l IH]; [done|]. simpl. unfold byId at 1. rewrite (proj2 (String.eqb_neq _ _)) by (apply Hl; left).
  f_equal. apply IH. intros; apply Hl; by right.
Qed.

(** The row just inserted is the one updated. *)
Lemma updateById_new {R} `{Row R} (f : R -> R) (l : list R) r : (forall y, y ∈ l -> row_id y <> row_id r) ->
  updateById (row_id r) f (l ++ [r]) = Ok (f r, l ++ [f r]).
Proof.
  intros Hl. unfold updateById. rewrite (findById_app_new l (row_id r) r Hl eq_refl), map_app. rewrite (map_update_other f l _ Hl).
  simpl. unfold byId. by rewrite String.eqb_refl.
Qed.

Lemma updateById_Ok {R} `{Row R} (f : R -> R) (l : list R) x r l' : updateById x f l = Ok (r, l') ->
  exists r0, findById l x = Some r0 /\ r = f r0 /\ l' = map (fun r' => if byId x r' then f r' else r') l.
Proof. unfold updateById. destruct (findById l x) as [r0|]; [|done]. intros [= <- <-]. by exists r0. Qed.

(** *** Updating in place *)

Definition updating {R} `{Row R} (x : string) (f : R -> R) (r : R) : R := if byId x r then f r else r.

(** What an update must leave alone. *)
Definition keeps_identity {R} `{Row R} (f : R -> R) : Prop :=
  forall r, row_id (f r) = row_id r /\ row_createdAt (f r) = row_createdAt r.

Lemma updating_id {R} `{Row R} x (f : R -> R) r : keeps_identity f -> row_id (updating x f r) = row_id r.
Proof. intros K. unfold updating. destruct (byId x r); [apply K|done]. Qed.

Lemma table_update {R} `{Row R} db (t : list R) x f : keeps_identity f -> table_ok db t -> table_ok db (map (updating x f) t).
Proof.
  intros K [T1 T2 T3 T4].
  assert (forall r, row_createdAt (updating x f r) = row_createdAt r) as Kc.
  { intros r. unfold updating. destruct (byId x r); [apply K|done]. }
  split.
  - rewrite Forall_map. eapply Forall_impl; [exact T1|]. intros r. simpl. by rewrite updating_id.
  - rewrite map_map. rewrite (map_ext _ row_id); [done|]. intros r. by apply updating_id.
  - unfold chronological in *. clear T1 T2 T4. induction T3 as [|r t T3 IH Hr]; [constructor|]. simpl. constructor; [done|]. rewrite Forall_map. eapply Forall_impl; [exact Hr|].
    intros r'. simpl. by rewrite !Kc.
  - rewrite Forall_map. eapply Forall_impl; [exact T4|]. intros r. simpl. by rewrite Kc.
Qed.

Lemma updating_elem {R} `{Row R} (t : list R) x f r : r ∈ map (updating x f) t ->
  (r ∈ t /\ row_id r <> x) \/ exists r0, r0 ∈ t /\ row_id r0 = x /\ r = f r0.
Proof.
  intros (r0 & -> & Hr)%list_elem_of_fmap. unfold updating, byId. destruct (String.eqb_spec (row_id r0) x); [right|left]; eauto.
Qed.

Lemma updating_hit {R} `{Row R} x (f : R -> R) r : row_id r = x -> updating x f r = f r.
Proof. unfold updating, byId. by intros ->%String.eqb_eq. Qed.

Lemma updating_miss {R} `{Row R} x (f : R -> R) r : row_id r <> x -> updating x f r = r.
Proof. unfold updating, byId. by intros ->%String.eqb_neq. Qed.

Lemma findById_cons {R} `{Row R} a (t : list R) x : findById (a :: t) x = if String.eqb (row_id a) x then Some a else findById t x.
Proof. done. Qed.

Lemma findById_updating {R} `{Row R} (t : list R) x f r : keeps_identity f -> findById t x = Some r ->
  findById (map (updating x f) t) x = Some (f r).
Proof.
  intros K. induction t as [|a t IH]; [done|]. cbn [map]. rewrite !findById_cons, (updating_id x f a K).
  destruct (String.eqb_spec (row_id a) x) as [E|E]; [|apply IH]. intros [= ->]. by rewrite updating_hit.
Qed.

Lemma findById_updating_other {R} `{Row R} (t : list R) x y f : keeps_identity f -> x <> y ->
  findById (map (updating x f) t) y = findById t y.
Proof.
  intros K Hne. induction t as [|a t IH]; [done|]. cbn [map]. rewrite !findById_cons, (updating_id x f a K), IH.
  destruct (String.eqb_spec (row_id a) y) as [E|E]; [|done]. rewrite updating_miss by congruence. done.
Qed.

Lemma updating_twice {R} `{Row R} (t : list R) x f g : keeps_identity f ->
  map (updating x g) (map (updating x f) t) = map (updating x (fun r => g (f r))) t.
Proof.
  intros K. rewrite map_map. apply map_ext. intros r. unfold updating, byId. destruct (String.eqb_spec (row_id r) x) as [E|E].
  - by rewrite (proj1 (K r)), E, String.eqb_refl.
  - by rewrite (proj2 (String.eqb_neq _ _) E).
Qed.

Lemma findById_elem {R} `{Row R} db (t : list R) r : table_ok db t -> r ∈ t -> findById t (row_id r) = Some r.
Proof.
  intros [_ Nd _ _]. unfold findById, findUnique, byId. induction t as [|a t IH]; [by intros ?%elem_of_nil|].
  simpl in *. apply NoDup_cons in Nd as [Ha Nd]. intros [->|Hr]%elem_of_cons; [by rewrite String.eqb_refl|].
  rewrite (proj2 (String.eqb_neq _ _)); [by apply IH|]. intros E. apply Ha. rewrite E. by apply list_elem_of_fmap_2.
Qed.

Lemma findById_app_other {R} `{Row R} (t u : list R) x r : findById t x = Some r -> findById (t ++ u) x = Some r.
Proof. unfold findById, findUnique. induction t as [|a t IH]; [done|]. simpl. by destruct (byId x a). Qed.

Lemma table_fresh {R} `{Row R} db (t : list R) r : table_ok db t -> row_id r = newId (drawn db) -> findById t (row_id r) = None.
Proof.
  intros [T _ _ _] E. destruct (findById t (row_id r)) as [a|] eqn:Hf; [|done]. apply findById_Some in Hf as [Ha Ea].
  pose proof (proj1 (Forall_forall _ _) T a Ha) as (n & Hn & En). rewrite Ea, E in En. apply newId_inj in En. lia.
Qed.

Lemma table_snoc {R} `{Row R} db db' (t : list R) r : table_ok db t -> row_id r = newId (drawn db) -> row_createdAt r = clock db ->
  drawn db' = S (drawn db) -> clock db' = clock db -> table_ok db' (t ++ [r]).
Proof.
  intros T Ei Ec Hd Hc. eapply table_append; [exact T| |lia|done]. split; [|apply NoDup_singleton|by repeat constructor].
  repeat constructor. exists (drawn db). split; [lia|done].
Qed.

End Tables.

(** ** A table as a map from identifiers *)

Section Book.
Context {R : Type} `{Row R} {V : Type} (f : R -> V).

Definition book (t : list R) : gmap string V := list_to_map (map (fun r => (row_id r, f r)) t).

Lemma book_lookup t x : book t !! x = f <$> findById t x.
Proof.
  unfold book. induction t as [|r t IH]; [done|]. rewrite findById_cons. cbn [map list_to_map foldr fst snd].
  destruct (String.eqb_spec (row_id r) x) as [->|Hne]; [by rewrite lookup_insert_eq|by rewrite lookup_insert_ne].
Qed.

Lemma book_Some t x v : book t !! x = Some v <-> exists r, findById t x = Some r /\ v = f r.
Proof. rewrite book_lookup, fmap_Some. done. Qed.

Lemma book_row `{Platform} db t r : table_ok db t -> r ∈ t -> book t !! row_id r = Some (f r).
Proof. intros T Hr. rewrite book_lookup, (findById_elem db t r T Hr). done. Qed.

Lemma findById_snoc t r x : findById (t ++ [r]) x = match findById t x with Some a => Some a | None => if String.eqb (row_id r) x then Some r else None end.
Proof. induction t as [|a t IH]; [done|]. cbn [app]. rewrite !findById_cons. by destruct (String.eqb (row_id a) x). Qed.

Lemma book_snoc t r : book t !! row_id r = None -> book (t ++ [r]) = <[row_id r := f r]> (book t).
Proof.
  intros Hn. apply map_eq. intros x. rewrite book_lookup, findById_snoc. destruct (decide (row_id r = x)) as [<-|Hne].
  - rewrite lookup_insert_eq. rewrite book_lookup in Hn. apply fmap_None in Hn as ->. by rewrite String.eqb_refl.
  - rewrite lookup_insert_ne, book_lookup by done. rewrite (proj2 (String.eqb_neq _ _) Hne). by destruct (findById t x).
Qed.

Lemma book_updating t x g r : keeps_identity g -> findById t x = Some r -> book (map (updating x g) t) = <[x := f (g r)]> (book t).
Proof.
  intros K Hr. apply map_eq. intros y. rewrite book_lookup. destruct (decide (x = y)) as [<-|Hne].
  - by rewrite lookup_insert_eq, (findById_updating _ _ _ _ K Hr).
  - by rewrite lookup_insert_ne, book_lookup, (findById_updating_other _ _ _ _ K Hne).
Qed.
End Book.

Lemma book_ext {R} `{Row R} {V} (f g : R -> V) t : (forall r, r ∈ t -> f r = g r) -> book f t = book g t.
Proof. intros E. unfold book. f_equal. apply map_ext_in. intros r Hr%list_elem_of_In. by rewrite (E r Hr). Qed.

Lemma book_new `{Platform} {R} `{Row R} {V} (f : R -> V) db t r : table_ok db t -> row_id r = newId (drawn db) ->
  book f t !! row_id r = None /\ book f (t ++ [r]) = <[row_id r := f r]> (book f t).
Proof.
  intros T E. assert (book f t !! row_id r = None) as Hn by (by rewrite book_lookup, (table_fresh db t r T E)).
  split; [done|by apply book_snoc].
Qed.

(** ** What a table may become *)

Section MapLater.
Context {V : Type} (R : V -> V -> Prop) `{!PreOrder R}.

(** Rows stay, and each changes by [R] only. *)
Definition map_later (t t' : gmap string V) : Prop := forall x v, t !! x = Some v -> exists v', t' !! x = Some v' /\ R v v'.

#[local] Instance map_later_preorder : PreOrder map_later.
Proof.
  split.
  - intros t x v Hv. exists v. by split.
  - intros t1 t2 t3 H1 H2 x v (v2 & Hv2 & R2)%H1. destruct (H2 x v2 Hv2) as (v3 & Hv3 & R3). exists v3. split; [done|by etransitivity].
Qed.

Lemma map_later_new t x v : t !! x = None -> map_later t (<[x := v]> t).
Proof. intros Hx y w Hw. exists w. rewrite lookup_insert_ne by congruence. by split. Qed.

Lemma map_later_new2 t x y v w : t !! x = None -> t !! y = None -> x <> y -> map_later t (<[y := w]> (<[x := v]> t)).
Proof. intros Hx Hy Hne. etransitivity; [by apply (map_later_new t x v)|]. apply map_later_new. by rewrite lookup_insert_ne. Qed.

Lemma map_later_set t x v v' : t !! x = Some v -> R v v' -> map_later t (<[x := v']> t).
Proof.
  intros Hx Hv y w Hw. destruct (decide (x = y)) as [<-|Hne].
  - exists v'. rewrite lookup_insert_eq. split; [done|]. congruence.
  - exists w. rewrite lookup_insert_ne by done. by split.
Qed.
End MapLater.
#[export] Existing Instance map_later_preorder.

Lemma same_rows {V} (R : V -> V -> Prop) `{!PreOrder R} t : map_later R t t.
Proof. reflexivity. Qed.
(** ** Unique keys *)

(** No row of the table has this key. *)
Definition free {V K} (key : V -> option K) (t : gmap string V) (k : K) : Prop := forall x v, t !! x = Some v -> key v <> Some k.

Definition unique {V K} (key : V -> option K) (t : gmap string V) : Prop :=
  forall x y v w k, t !! x = Some v -> t !! y = Some w -> key v = Some k -> key w = Some k -> x = y.

Lemma unique_new {V K} (key : V -> option K) t x v : unique key t -> (forall k, key v = Some k -> free key t k) -> unique key (<[x := v]> t).
Proof.
  intros U F y z a b k [[<- <-]|[Hy Ha]]%lookup_insert_Some [[<- <-]|[Hz Hb]]%lookup_insert_Some Ka Kb; [done|..].
  - by destruct (F k Ka z b Hb).
  - by destruct (F k Kb y a Ha).
  - by apply (U y z a b k).
Qed.

Lemma unique_set {V K} (key : V -> option K) t x v v' : unique key t -> t !! x = Some v -> key v' = key v -> unique key (<[x := v']> t).
Proof.
  intros U Hx E y z a b k Ha Hb Ka Kb.
  assert (forall y a, <[x := v']> t !! y = Some a -> exists a0, t !! y = Some a0 /\ key a0 = key a) as Old.
  { intros y' a' [[<- <-]|[_ Ha']]%lookup_insert_Some; [exists v|exists a']; by split. }
  destruct (Old y a Ha) as (a0 & Ha0 & Ea), (Old z b Hb) as (b0 & Hb0 & Eb). apply (U y z a0 b0 k); congruence.
Qed.
