(* ===== verification/ApiShared.v ===== *)
(** * apps/api/src/shared: errors, audit and timeline writers

    [ProblemError]'s factories, the request context, and the two writers every
    mutation calls inside its transaction with the repositories behind them.
    An argument the source leaves out ([undefined]) is [None]. *)
From S2P Require Import Prelude DomainStates AuthzMatrix Authz JsonText Database.

(** ** errors.ts *)

Definition badRequest (message : string) : exn := ProblemError 400 "bad_request" message false.
Definition unauthorized (message : string) : exn := ProblemError 401 "unauthorized" message false.
Definition forbidden (message : string) : exn := ProblemError 403 "forbidden" message false.
Definition notFound (message : string) : exn := ProblemError 404 "not_found" message false.
Definition conflict (message : string) (retryable : bool) : exn := ProblemError 409 "conflict" message retryable.
Definition tooManyRequests (message : string) : exn := ProblemError 429 "rate_limited" message true.
Definition internal (message : string) : exn := ProblemError 500 "internal_error" message true.

(** [decision.reason], one tag per branch of [can]. *)
Definition reason_message (r : Reason) : string :=
  match r with
  | wrong_resource_type => "wrong_resource_type"
  | no_active_membership => "no_active_membership"
  | not_granted => "not_granted"
  | own_person_record_only => "own_person_record_only"
  | cross_org_authority => "cross_org_authority"
  | participant_authority => "participant_authority"
  | no_owner_path_for_ledger => "no_owner_path_for_ledger"
  | no_owner_to_compare => "no_owner_to_compare"
  | tenant_isolation_mismatch => "tenant_isolation_mismatch"
  | own_organization => "own_organization"
  end.

(** [if (!decision.allowed) throw ProblemError.forbidden(decision.reason)] *)
Definition require (d : AuthDecision) : res unit :=
  throw_if (negb (allowed d)) (forbidden (reason_message (reason d))).

(** ** request-context.ts *)

Record RequestContext : Type := {
  requestId : string;
  correlationId : string;
  ipClass : string;
  userAgentClass : string
}.

(** ** The writers *)

Record AuditWriteInput : Type := {
  a_actorUserId : option string;
  a_actorOrgId : option string;
  a_actorRole : option Roles.PersonaRole;
  a_subjectOrgId : option string;
  a_action : string;
  a_resourceType : string;
  a_resourceId : option string;
  a_beforeValue : option Json;
  a_afterValue : option Json;
  a_reason : option string
}.

Record TimelineWriteInput : Type := {
  t_eventType : string;
  t_aggregateType : string;
  t_aggregateId : string;
  t_payload : option Json;
  t_actorUserId : option string;
  t_actorOrgId : option string;
  t_actorRole : option Roles.PersonaRole
}.

Section Writers.
Context `{Platform}.

(** audit.repository.ts [write]; the context is absent in worker jobs. *)
Definition auditRepository_write (input : AuditWriteInput) (context : option RequestContext) : Tx AuditEventRow.t :=
  let* i := freshId in
  fun db =>
    let row := {|
      AuditEventRow.id := i;
      AuditEventRow.occurredAt := clock db;
      AuditEventRow.actorUserId := a_actorUserId input;
      AuditEventRow.actorOrgId := a_actorOrgId input;
      AuditEventRow.actorRole := a_actorRole input;
      AuditEventRow.subjectOrgId := a_subjectOrgId input;
      AuditEventRow.action := a_action input;
      AuditEventRow.resourceType := a_resourceType input;
      AuditEventRow.resourceId := a_resourceId input;
      AuditEventRow.beforeValue := a_beforeValue input;
      AuditEventRow.afterValue := a_afterValue input;
      AuditEventRow.requestId := requestId <$> context;
      AuditEventRow.correlationId := correlationId <$> context;
      AuditEventRow.ipClass := ipClass <$> context;
      AuditEventRow.userAgentClass := userAgentClass <$> context;
      AuditEventRow.reason := a_reason input;
      AuditEventRow.metadata := None |} in
    Ok (row, set_auditEvents (auditEvents db ++ [row]) db).

(** domain-event.repository.ts [write] *)
Definition domainEventRepository_write (input : TimelineWriteInput) (context : option RequestContext) : Tx DomainEventRow.t :=
  let* i := freshId in
  fun db =>
    let row := {|
      DomainEventRow.id := i;
      DomainEventRow.eventType := t_eventType input;
      DomainEventRow.aggregateType := t_aggregateType input;
      DomainEventRow.aggregateId := t_aggregateId input;
      DomainEventRow.payload := t_payload input;
      DomainEventRow.occurredAt := clock db;
      DomainEventRow.actorUserId := t_actorUserId input;
      DomainEventRow.actorOrgId := t_actorOrgId input;
      DomainEventRow.actorRole := t_actorRole input;
      DomainEventRow.requestId := requestId <$> context;
      DomainEventRow.correlationId := correlationId <$> context |} in
    Ok (row, set_domainEvents (domainEvents db ++ [row]) db).

Definition auditWriter (context : RequestContext) (input : AuditWriteInput) : Tx AuditEventRow.t :=
  auditRepository_write input (Some context).

Definition timelineWriter (context : RequestContext) (input : TimelineWriteInput) : Tx DomainEventRow.t :=
  domainEventRepository_write input (Some context).

End Writers.

(** [runUniqueConstraintSafe]: P2002 becomes a retryable conflict. *)
Definition runUniqueConstraintSafe {A} (m : res A) (conflictMessage : string) : res A :=
  match m with
  | Throw (PrismaKnownRequestError "P2002") => Throw (conflict conflictMessage true)
  | _ => m
  end.

(** [str ? f(str) : otherwise] on an optional string: [""] is falsy. *)
Definition when_present {A} (s : option string) (f : string -> A) (otherwise : A) : A :=
  match s with
  | Some v => if String.eqb v "" then otherwise else f v
  | None => otherwise
  end.

Arguments when_present : simpl never.

(** truthiness of [string | null | undefined] *)
Definition present (s : option string) : bool := when_present s (fun _ => true) false.

(** ** What every handler is called with *)

Import Roles Actions.

Record Call : Type := { actor : Actor; context : RequestContext; now : Z }.

Definition has_role (roles : list PersonaRole) (r : option PersonaRole) : bool :=
  match r with Some r => bool_decide (r ∈ roles) | None => false end.

Definition resource (t : ResourceType.t) (owner : option string) : Resource :=
  {| type := t; id := None; ownerOrgId := owner; privacyClass := None |}.
Definition resourceOf (t : ResourceType.t) (x : string) (owner : option string) : Resource :=
  {| type := t; id := Some x; ownerOrgId := owner; privacyClass := None |}.
Definition noContext : AuthContext := {| isSelf := None; isParticipant := None |}.

(** [str ? new Date(str) : new Date()]; [None] is an Invalid Date. *)
Definition dateOr `{Platform} (s : option string) (now : Z) : option Z := when_present s parseDate (Some now).

Definition audit_of (c : Call) (subject : option string) (action resourceType resourceId : string) (after : Json) : AuditWriteInput :=
  {| a_actorUserId := Some (userId (actor c)); a_actorOrgId := organizationId (actor c); a_actorRole := role (actor c);
     a_subjectOrgId := subject; a_action := action; a_resourceType := resourceType; a_resourceId := Some resourceId;
     a_beforeValue := None; a_afterValue := Some after; a_reason := None |}.

Definition event_of (c : Call) (eventType aggregateType aggregateId : string) (payload : Json) : TimelineWriteInput :=
  {| t_eventType := eventType; t_aggregateType := aggregateType; t_aggregateId := aggregateId; t_payload := Some payload;
     t_actorUserId := Some (userId (actor c)); t_actorOrgId := organizationId (actor c); t_actorRole := role (actor c) |}.

(** the same with the optional [reason] *)
Definition audit_because (c : Call) (subject : option string) (action resourceType resourceId : string) (why : option string) (after : Json)
    : AuditWriteInput :=
  {| a_actorUserId := Some (userId (actor c)); a_actorOrgId := organizationId (actor c); a_actorRole := role (actor c);
     a_subjectOrgId := subject; a_action := action; a_resourceType := resourceType; a_resourceId := Some resourceId;
     a_beforeValue := None; a_afterValue := Some after; a_reason := why |}.

(** ** Facts *)

Lemma require_Ok d u : require d = Ok u <-> allowed d = true.
Proof. unfold require. rewrite throw_if_Ok. by destruct (allowed d). Qed.

Lemma runUniqueConstraintSafe_Ok {A} (m : res A) msg a : runUniqueConstraintSafe m msg = Ok a <-> m = Ok a.
Proof. unfold runUniqueConstraintSafe. destruct m as [|[]]; try naive_solver. by repeat case_match. Qed.

Section Journal.
Context `{Platform}.

(** One audit event and one domain event later. *)
Definition journalled (a : AuditEventRow.t) (e : DomainEventRow.t) (db : Db) : Db :=
  set_domainEvents (domainEvents db ++ [e]) (set_auditEvents (auditEvents db ++ [a]) (set_drawn (S (S (drawn db))) db)).

Lemma journal_Ok {A} ai ei ac ec (k : Tx A) db a db' :
  (do* auditRepository_write ai ac; do* domainEventRepository_write ei ec; k) db = Ok (a, db') ->
  exists au ev, k (journalled au ev db) = Ok (a, db') /\ a_action ai = AuditEventRow.action au /\ t_eventType ei = DomainEventRow.eventType ev.
Proof.
  unfold auditRepository_write, domainEventRepository_write. intros E. inv_tx. simplify_eq. eexists _, _.
  split; [exact E|done].
Qed.

(** A body that commits whatever it finds. *)
Definition commits {A} (m : Tx A) : Prop := forall db, exists a db', m db = Ok (a, db').

Lemma commits_ret {A} (a : A) : commits (tret a).
Proof. intros db. by eexists _, _. Qed.

Lemma commits_bind {A B} (m : Tx A) (k : A -> Tx B) : commits m -> (forall a, commits (k a)) -> commits (tbind m k).
Proof. intros Hm Hk db. destruct (Hm db) as (a & db1 & E). rewrite (tbind_run _ _ _ _ _ E). apply Hk. Qed.

Lemma commits_audit i c : commits (auditRepository_write i c).
Proof. intros db. by eexists _, _. Qed.

Lemma commits_event i c : commits (domainEventRepository_write i c).
Proof. intros db. by eexists _, _. Qed.

Lemma commits_mapM {A B} (f : A -> Tx B) l : (forall a, commits (f a)) -> commits (tmapM f l).
Proof.
  intros Hf. induction l as [|a l IH]; [apply commits_ret|]. apply commits_bind; [apply Hf|]. intros b.
  apply commits_bind; [exact IH|]. intros bs. apply commits_ret.
Qed.

End Journal.

Create HintDb commits.
#[export] Hint Resolve commits_ret commits_bind commits_audit commits_event commits_mapM : commits.
