(* ===== verification/Idempotency.v ===== *)
(** * Idempotency keys

    idempotency.repository.ts, the worker's [withJobIdempotency]
    (apps/worker/src/shared/job-idempotency.ts) and the stages of the API's
    [withIdempotency] (apps/api/src/shared/idempotency.ts).  SHA-256 is
    node:crypto's, a parameter. *)
From S2P Require Import Prelude StableSort Receipt JsonText Database ApiShared.
From Stdlib Require Import Ascii.
#[local] Notation text := (list ascii).

(** ** idempotencyRepository *)

Record ReserveInput : Type := {
  ri_key : string;
  ri_scope : string;
  ri_requestHash : string;
  ri_organizationId : option string;
  ri_userId : option string;
  ri_expiresAt : Z
}.

Definition sameKey (scope key : string) (k : IdempotencyKeyRow.t) : bool :=
  String.eqb (IdempotencyKeyRow.scope k) scope && String.eqb (IdempotencyKeyRow.key k) key.

Definition idempotency_find (db : Db) (scope key : string) : option IdempotencyKeyRow.t :=
  findUnique (sameKey scope key) (idempotencyKeys db).

Definition completeRow (status : Z) (body : Json) (k : IdempotencyKeyRow.t) : IdempotencyKeyRow.t :=
  {| IdempotencyKeyRow.id := IdempotencyKeyRow.id k; IdempotencyKeyRow.key := IdempotencyKeyRow.key k;
     IdempotencyKeyRow.scope := IdempotencyKeyRow.scope k; IdempotencyKeyRow.requestHash := IdempotencyKeyRow.requestHash k;
     IdempotencyKeyRow.responseStatus := Some status; IdempotencyKeyRow.responseBody := Some body;
     IdempotencyKeyRow.organizationId := IdempotencyKeyRow.organizationId k; IdempotencyKeyRow.userId := IdempotencyKeyRow.userId k;
     IdempotencyKeyRow.createdAt := IdempotencyKeyRow.createdAt k; IdempotencyKeyRow.expiresAt := IdempotencyKeyRow.expiresAt k |}.

Definition idempotency_complete (x : string) (status : Z) (body : Json) : Tx IdempotencyKeyRow.t :=
  fun db =>
    let! (row, t) := updateById x (completeRow status body) (idempotencyKeys db) in
    Ok (row, set_idempotencyKeys t db).

Definition KEY_TTL_MS : Z := 24 * 60 * 60 * 1000.

Section Keys.
Context `{Platform}.

(** [(scope, key)] is unique. *)
Definition idempotency_reserve (input : ReserveInput) : Tx IdempotencyKeyRow.t :=
  let* i := freshId in
  fun db =>
    match idempotency_find db (ri_scope input) (ri_key input) with
    | Some _ => Throw (PrismaKnownRequestError "P2002")
    | None =>
        let row := {|
          IdempotencyKeyRow.id := i; IdempotencyKeyRow.key := ri_key input; IdempotencyKeyRow.scope := ri_scope input;
          IdempotencyKeyRow.requestHash := ri_requestHash input; IdempotencyKeyRow.responseStatus := None;
          IdempotencyKeyRow.responseBody := None; IdempotencyKeyRow.organizationId := ri_organizationId input;
          IdempotencyKeyRow.userId := ri_userId input; IdempotencyKeyRow.createdAt := clock db;
          IdempotencyKeyRow.expiresAt := ri_expiresAt input |} in
        Ok (row, set_idempotencyKeys (idempotencyKeys db ++ [row]) db)
    end.

(** ** withJobIdempotency *)

Context (sha256_hex : text -> string).

Record JobIdempotencyInfo : Type := { ji_scope : string; ji_key : string; ji_requestPayload : Json }.

Definition hashPayload (payload : Json) : string := sha256_hex (jsonText payload).

(** The result is recorded after the handler ran; P2002 while recording means
    another attempt recorded it first and is swallowed. *)
Definition recordResult (info : JobIdempotencyInfo) (now : Z) (result : Json) : Tx Json :=
  fun db =>
    match idempotency_reserve {| ri_key := ji_key info; ri_scope := ji_scope info;
            ri_requestHash := hashPayload (ji_requestPayload info); ri_organizationId := None; ri_userId := None;
            ri_expiresAt := now + KEY_TTL_MS |} db with
    | Ok (reservation, db1) =>
        match idempotency_complete (IdempotencyKeyRow.id reservation) 200 result db1 with
        | Ok (_, db2) => Ok (result, db2)
        | Throw e => Throw e
        end
    | Throw (PrismaKnownRequestError "P2002") => Ok (result, db)
    | Throw e => Throw e
    end.

Definition withJobIdempotency (info : JobIdempotencyInfo) (now : Z) (handler : Tx Json) : Tx Json :=
  let run := let* result := handler in recordResult info now result in
  fun db =>
    match idempotency_find db (ji_scope info) (ji_key info) with
    | None => run db
    | Some existing =>
        match IdempotencyKeyRow.responseStatus existing with
        | None => run db
        | Some _ =>
            do! throw_if (negb (String.eqb (IdempotencyKeyRow.requestHash existing) (hashPayload (ji_requestPayload info))))
                  (JobIdempotencyConflictError (ji_scope info) (ji_key info));
            Ok (default JNull (IdempotencyKeyRow.responseBody existing), db)
        end
    end.

(** ** What only the journals and the keys see *)

(** Audit events, domain events and idempotency keys were written, nothing else. *)
Definition aside (db db' : Db) : Prop :=
  exists a e k n, (drawn db <= n)%nat /\
    db' = set_idempotencyKeys k (set_domainEvents e (set_auditEvents a (set_drawn n db))).

Lemma aside_refl db : aside db db.
Proof. exists (auditEvents db), (domainEvents db), (idempotencyKeys db), (drawn db). split; [done|by destruct db]. Qed.

Lemma aside_trans db1 db2 db3 : aside db1 db2 -> aside db2 db3 -> aside db1 db3.
Proof. intros (a & e & k & n & Hn & ->) (a' & e' & k' & n' & Hn' & ->). exists a', e', k', n'. split; [cbn in Hn'; lia|done]. Qed.

Lemma audit_aside i c db a db' : auditRepository_write i c db = Ok (a, db') -> aside db db'.
Proof.
  unfold auditRepository_write. intros E. inv_tx. simplify_eq. eexists (auditEvents db ++ [_]), (domainEvents db), (idempotencyKeys db), (S (drawn db)). split; [lia|reflexivity].
Qed.

Lemma event_aside i c db e db' : domainEventRepository_write i c db = Ok (e, db') -> aside db db'.
Proof.
  unfold domainEventRepository_write. intros E. inv_tx. simplify_eq. eexists (auditEvents db), (domainEvents db ++ [_]), (idempotencyKeys db), (S (drawn db)). split; [lia|reflexivity].
Qed.

Lemma recordResult_aside info t r db v db' : recordResult info t r db = Ok (v, db') -> aside db db'.
Proof.
  unfold recordResult, idempotency_reserve, idempotency_complete. unfold tbind at 1. cbn [freshId].
  destruct (idempotency_find _ _ _); cbn; [intros [= <- <-]; apply aside_refl|].
  destruct (updateById _ _ _) as [[row t']|]; [|done]. cbn. intros [= <- <-].
  eexists (auditEvents db), (domainEvents db), _, (S (drawn db)). split; [lia|reflexivity].
Qed.

(** The journal entries in the middle of a body. *)
Lemma journal_aside {A} ai ei ac ec (k : Tx A) db a db' :
  (do* auditRepository_write ai ac; do* domainEventRepository_write ei ec; k) db = Ok (a, db') ->
  exists db1, aside db db1 /\ k db1 = Ok (a, db').
Proof.
  intros E. apply tbind_Ok in E as (? & d1 & A1%audit_aside & E). apply tbind_Ok in E as (? & d2 & A2%event_aside & E).
  exists d2. split; [by eapply aside_trans|done].
Qed.

(** Run, replayed, or rejected. *)
Lemma withJobIdempotency_Ok info t m db v db' : withJobIdempotency info t m db = Ok (v, db') ->
  db' = db \/ exists r db1, m db = Ok (r, db1) /\ aside db1 db'.
Proof.
  unfold withJobIdempotency. assert (forall v d, tbind m (recordResult info t) db = Ok (v, d) -> exists r db1, m db = Ok (r, db1) /\ aside db1 d) as Run.
  { intros w d (r & d1 & E1 & E2%recordResult_aside)%tbind_Ok. eauto. }
  destruct (idempotency_find _ _ _) as [x|]; [|intros E; right; by eapply Run].
  destruct (IdempotencyKeyRow.responseStatus x); [|intros E; right; by eapply Run].
  destruct (throw_if _ _); [|done]. cbn. intros [= _ <-]. by left.
Qed.

End Keys.
