(* ===== verification/EconomicsRepositories.v ===== *)
(** * packages/db: the repositories of the economics tables

    commission-schedule, commission-component, revenue-event,
    commission-accrual and commission-payment: every query and every insert
    with its input validation, over [Db].  A unique index raises Prisma's
    P2002 before the row is added. *)
From S2P Require Import Prelude StableSort JsNumber DomainStates AuthzMatrix Database ApiShared.

Section Repositories.
Context `{Platform}.

(** ** dealRoomRepository *)

Definition dealRoom_findById (db : Db) (x : string) : option DealRoomRow.t := findById (dealRooms db) x.

(** ** commissionScheduleRepository *)

Record CreateScheduleRow : Type := {
  cs_dealRoomId : string;
  cs_basis : Schedule.CommissionBasis;
  cs_status : Schedule.CommissionScheduleStatus;
  cs_capMinor : option Z;
  cs_floorMinor : option Z;
  cs_survivalMonths : option Z;
  cs_description : option string;
  cs_previousVersionId : option string;
  cs_createdByUserId : option string;
  cs_createdByOrgId : option string
}.

Definition schedule_findById (db : Db) (x : string) : option CommissionScheduleRow.t :=
  findById (commissionSchedules db) x.

(** [orderBy: [{ scheduleFamilyId: "asc" }, { versionNumber: "desc" }]] *)
Definition schedule_listByDealRoom (db : Db) (dealRoomId : string) : list CommissionScheduleRow.t :=
  findMany (cmp_lex (cmp_on CommissionScheduleRow.scheduleFamilyId String.compare)
                    (desc CommissionScheduleRow.versionNumber))
           (fun s => String.eqb (CommissionScheduleRow.dealRoomId s) dealRoomId) (commissionSchedules db).

Definition isActive (s : CommissionScheduleRow.t) : bool :=
  bool_decide (CommissionScheduleRow.status s = Schedule.ACTIVE).

Definition schedule_listActiveByDealRoom (db : Db) (dealRoomId : string) : list CommissionScheduleRow.t :=
  findMany (desc row_createdAt)
           (fun s => String.eqb (CommissionScheduleRow.dealRoomId s) dealRoomId && isActive s) (commissionSchedules db).

(** [findUniqueOrThrow] raises P2025; a first version starts its own family. *)
Definition schedule_lineage (db : Db) (fresh : string) (previousVersionId : option string) : res (string * Z) :=
  match previousVersionId with
  | Some p =>
      if String.eqb p "" then Ok (fresh, 1) else
      match schedule_findById db p with
      | None => Throw (PrismaKnownRequestError "P2025")
      | Some previous => Ok (CommissionScheduleRow.scheduleFamilyId previous, CommissionScheduleRow.versionNumber previous + 1)
      end
  | None => Ok (fresh, 1)
  end.

Definition newScheduleRow (i family : string) (versionNumber : Z) (base : Base) (input : CreateScheduleRow) : CommissionScheduleRow.t :=
  {|
     CommissionScheduleRow.id := i;
     CommissionScheduleRow.dealRoomId := cs_dealRoomId input;
     CommissionScheduleRow.scheduleFamilyId := family;
     CommissionScheduleRow.versionNumber := versionNumber;
     CommissionScheduleRow.previousVersionId := cs_previousVersionId input;
     CommissionScheduleRow.basis := cs_basis input;
     CommissionScheduleRow.status := cs_status input;
     CommissionScheduleRow.capMinor := cs_capMinor input;
     CommissionScheduleRow.floorMinor := cs_floorMinor input;
     CommissionScheduleRow.survivalMonths := cs_survivalMonths input;
     CommissionScheduleRow.description := cs_description input;
     CommissionScheduleRow.base := base |}.

Definition schedule_create (input : CreateScheduleRow) : Tx CommissionScheduleRow.t :=
  let* i := freshId in
  let* (family, versionNumber) := fun db => tlift (schedule_lineage db i (cs_previousVersionId input)) db in
  fun db =>
    let row := newScheduleRow i family versionNumber (newBase (cs_createdByUserId input) (cs_createdByOrgId input) Roles.RESTRICTED db) input in
    Ok (row, set_commissionSchedules (commissionSchedules db ++ [row]) db).

Definition withStatus (st : Schedule.CommissionScheduleStatus) (user : option string) (s : CommissionScheduleRow.t) : CommissionScheduleRow.t :=
  {| CommissionScheduleRow.id := CommissionScheduleRow.id s;
     CommissionScheduleRow.dealRoomId := CommissionScheduleRow.dealRoomId s;
     CommissionScheduleRow.scheduleFamilyId := CommissionScheduleRow.scheduleFamilyId s;
     CommissionScheduleRow.versionNumber := CommissionScheduleRow.versionNumber s;
     CommissionScheduleRow.previousVersionId := CommissionScheduleRow.previousVersionId s;
     CommissionScheduleRow.basis := CommissionScheduleRow.basis s;
     CommissionScheduleRow.status := st;
     CommissionScheduleRow.capMinor := CommissionScheduleRow.capMinor s;
     CommissionScheduleRow.floorMinor := CommissionScheduleRow.floorMinor s;
     CommissionScheduleRow.survivalMonths := CommissionScheduleRow.survivalMonths s;
     CommissionScheduleRow.description := CommissionScheduleRow.description s;
     CommissionScheduleRow.base := touch (CommissionScheduleRow.base s) user |}.

Definition schedule_updateStatus (x : string) (st : Schedule.CommissionScheduleStatus) (user : option string)
    : Tx CommissionScheduleRow.t :=
  fun db =>
    let! (row, t) := updateById x (withStatus st user) (commissionSchedules db) in
    Ok (row, set_commissionSchedules t db).

(** ** commissionComponentRepository *)

Record CreateComponentRow : Type := {
  cc_scheduleId : string;
  cc_recipientType : Recipient.CommissionRecipientType;
  cc_recipientOrgId : string;
  cc_componentType : Ledger.CommissionComponentType;
  cc_bps : option Z;
  cc_fixedAmountMinor : option Z;
  cc_calculationBasis : option Schedule.CommissionBasis;
  cc_priority : Z;
  cc_claimId : option string;
  cc_createdByUserId : option string;
  cc_createdByOrgId : option string
}.

(** [bps] is a [number] of the source that its contract keeps integral. *)
Definition validateComponentTypeFields (input : CreateComponentRow) : res unit :=
  match cc_componentType input with
  | Ledger.PERCENTAGE_BPS =>
      match cc_bps input with
      | None => Throw (CommissionComponentInputError "PERCENTAGE_BPS requires bps")
      | Some b =>
          do! throw_if (negb (num_isInteger (num_of_Z b)) || (b <? 0) || (10000 <? b))
                (CommissionComponentInputError "bps must be an integer 0-10000");
          throw_if (bool_decide (is_Some (cc_fixedAmountMinor input)))
            (CommissionComponentInputError "PERCENTAGE_BPS must not carry a non-null fixedAmountMinor")
      end
  | Ledger.FIXED_AMOUNT =>
      match cc_fixedAmountMinor input with
      | None => Throw (CommissionComponentInputError "FIXED_AMOUNT requires fixedAmountMinor")
      | Some a =>
          do! throw_if (a <? 0) (CommissionComponentInputError "fixedAmountMinor must not be negative");
          throw_if (bool_decide (is_Some (cc_bps input)))
            (CommissionComponentInputError "FIXED_AMOUNT must not carry a non-null bps")
      end
  end.

Definition component_listBySchedule (db : Db) (scheduleId : string) : list CommissionComponentRow.t :=
  findMany (asc CommissionComponentRow.priority)
           (fun c => String.eqb (CommissionComponentRow.scheduleId c) scheduleId) (commissionComponents db).

Definition newComponentRow (i : string) (base : Base) (input : CreateComponentRow) : CommissionComponentRow.t :=
  {|
     CommissionComponentRow.id := i;
     CommissionComponentRow.scheduleId := cc_scheduleId input;
     CommissionComponentRow.recipientType := cc_recipientType input;
     CommissionComponentRow.recipientOrgId := cc_recipientOrgId input;
     CommissionComponentRow.componentType := cc_componentType input;
     CommissionComponentRow.bps := cc_bps input;
     CommissionComponentRow.fixedAmountMinor := cc_fixedAmountMinor input;
     CommissionComponentRow.calculationBasis := cc_calculationBasis input;
     CommissionComponentRow.priority := cc_priority input;
     CommissionComponentRow.claimId := cc_claimId input;
     CommissionComponentRow.base := base |}.

Definition component_create (input : CreateComponentRow) : Tx CommissionComponentRow.t :=
  do* tlift (validateComponentTypeFields input);
  let* i := freshId in
  fun db =>
    let row := newComponentRow i (newBase (cc_createdByUserId input) (cc_createdByOrgId input) Roles.RESTRICTED db) input in
    Ok (row, set_commissionComponents (commissionComponents db ++ [row]) db).

Definition component_createMany : list CreateComponentRow -> Tx (list CommissionComponentRow.t) :=
  tmapM component_create.

(** ** revenueEventRepository *)

(** [recognizedAt] is a [Date]: [None] is an Invalid Date, which Prisma
    refuses. *)
Record CreateRevenueEventRow : Type := {
  cr_dealRoomId : string;
  cr_scheduleId : string;
  cr_basis : Schedule.CommissionBasis;
  cr_period : string;
  cr_source : string;
  cr_grossAmountMinor : Z;
  cr_deductionsMinor : Z;
  cr_netDistributableMinor : Z;
  cr_currency : string;
  cr_recognizedAt : option Z;
  cr_createdByUserId : option string;
  cr_createdByOrgId : option string
}.

Definition validDate (d : option Z) : res Z :=
  match d with
  | Some t => Ok t
  | None => Throw (PrismaClientValidationError "Invalid Date")
  end.

Definition revenueEvent_findById (db : Db) (x : string) : option RevenueEventRow.t := findById (revenueEvents db) x.

Definition sameDealPeriodSource (dealRoomId period source : string) (e : RevenueEventRow.t) : bool :=
  String.eqb (RevenueEventRow.dealRoomId e) dealRoomId && String.eqb (RevenueEventRow.period e) period
  && String.eqb (RevenueEventRow.source e) source.

Definition revenueEvent_findByDealPeriodSource (db : Db) (dealRoomId period source : string) : option RevenueEventRow.t :=
  findUnique (sameDealPeriodSource dealRoomId period source) (revenueEvents db).

Definition revenueEvent_listByDealRoom (db : Db) (dealRoomId : string) : list RevenueEventRow.t :=
  findMany (desc RevenueEventRow.recognizedAt)
           (fun e => String.eqb (RevenueEventRow.dealRoomId e) dealRoomId) (revenueEvents db).

Definition newRevenueEventRow (i : string) (recognizedAt : Z) (base : Base) (input : CreateRevenueEventRow) : RevenueEventRow.t :=
  {|
     RevenueEventRow.id := i;
     RevenueEventRow.dealRoomId := cr_dealRoomId input;
     RevenueEventRow.scheduleId := cr_scheduleId input;
     RevenueEventRow.basis := cr_basis input;
     RevenueEventRow.period := cr_period input;
     RevenueEventRow.source := cr_source input;
     RevenueEventRow.grossAmountMinor := cr_grossAmountMinor input;
     RevenueEventRow.deductionsMinor := cr_deductionsMinor input;
     RevenueEventRow.netDistributableMinor := cr_netDistributableMinor input;
     RevenueEventRow.currency := cr_currency input;
     RevenueEventRow.recognizedAt := recognizedAt;
     RevenueEventRow.base := base |}.

Definition revenueEvent_create (input : CreateRevenueEventRow) : Tx RevenueEventRow.t :=
  do* tlift (throw_if (cr_grossAmountMinor input <? 0) (RevenueEventInputError "grossAmountMinor must not be negative"));
  do* tlift (throw_if (cr_deductionsMinor input <? 0) (RevenueEventInputError "deductionsMinor must not be negative"));
  do* tlift (throw_if (cr_netDistributableMinor input <? 0) (RevenueEventInputError "netDistributableMinor must not be negative"));
  let* i := freshId in
  let* recognizedAt := tlift (validDate (cr_recognizedAt input)) in
  fun db =>
    match revenueEvent_findByDealPeriodSource db (cr_dealRoomId input) (cr_period input) (cr_source input) with
    | Some _ => Throw (PrismaKnownRequestError "P2002")
    | None =>
      let row := newRevenueEventRow i recognizedAt (newBase (cr_createdByUserId input) (cr_createdByOrgId input) Roles.RESTRICTED db) input in
      Ok (row, set_revenueEvents (revenueEvents db ++ [row]) db)
    end.

(** ** commissionAccrualRepository *)

Record CreateAccrualRow : Type := {
  ca_accrualRootId : option string;
  ca_entryType : Ledger.LedgerEntryType;
  ca_direction : Ledger.LedgerDirection;
  ca_amountMinor : Z;
  ca_currency : string;
  ca_dealRoomId : string;
  ca_revenueEventId : string;
  ca_scheduleId : string;
  ca_scheduleVersion : Z;
  ca_componentId : string;
  ca_recipientOrgId : string;
  ca_claimId : option string;
  ca_paymentId : option string;
  ca_reason : option string;
  ca_approverUserId : option string;
  ca_approverOrgId : option string;
  ca_calculationVersion : string;
  ca_inputVersions : list string;
  ca_computedAt : option Z;
  ca_createdByUserId : option string;
  ca_createdByOrgId : option string
}.

Definition accrual_listByAccrualRoot (db : Db) (root : string) : list CommissionAccrualRow.t :=
  findMany (asc row_createdAt) (fun e => String.eqb (CommissionAccrualRow.accrualRootId e) root) (commissionAccruals db).

Definition accrual_listByRevenueEvent (db : Db) (revenueEventId : string) : list CommissionAccrualRow.t :=
  findMany (asc row_createdAt) (fun e => String.eqb (CommissionAccrualRow.revenueEventId e) revenueEventId) (commissionAccruals db).

Definition accrual_listByDealRoom (db : Db) (dealRoomId : string) : list CommissionAccrualRow.t :=
  findMany (desc row_createdAt) (fun e => String.eqb (CommissionAccrualRow.dealRoomId e) dealRoomId) (commissionAccruals db).

Definition isAccrualRow (e : CommissionAccrualRow.t) : bool :=
  bool_decide (CommissionAccrualRow.entryType e = Ledger.ACCRUAL).

Definition accrual_sumAccrualAmountByScheduleId (db : Db) (scheduleId : string) : Z :=
  sumZ (map CommissionAccrualRow.amountMinor
    (List.filter (fun e => String.eqb (CommissionAccrualRow.scheduleId e) scheduleId && isAccrualRow e) (commissionAccruals db))).

Definition is_entry (input : CreateAccrualRow) (t : Ledger.LedgerEntryType) : bool := bool_decide (ca_entryType input = t).
Definition is_debit (input : CreateAccrualRow) : bool := bool_decide (ca_direction input = Ledger.DEBIT).

(** The guards of [create], in the order of the source; [inputVersions] is an
    array of strings by its type. *)
Definition accrual_validate (input : CreateAccrualRow) : res unit :=
  do! throw_if (bool_decide (ca_inputVersions input = [])) (CommissionAccrualInputError "inputVersions must not be empty");
  if is_entry input Ledger.ACCRUAL then
    do! throw_if (present (ca_paymentId input) || present (ca_reason input)
                  || present (ca_approverUserId input) || present (ca_approverOrgId input))
          (CommissionAccrualInputError "ACCRUAL must not carry paymentId/reason/approverUserId/approverOrgId");
    throw_if (is_debit input) (CommissionAccrualInputError "ACCRUAL must have direction CREDIT")
  else
    do! throw_if (negb (present (ca_accrualRootId input))) (CommissionAccrualInputError "requires accrualRootId");
    do! throw_if (is_entry input Ledger.PAYMENT && negb (present (ca_paymentId input)))
          (CommissionAccrualInputError "PAYMENT requires paymentId");
    do! throw_if (is_entry input Ledger.PAYMENT && negb (is_debit input))
          (CommissionAccrualInputError "PAYMENT must have direction DEBIT");
    do! throw_if (is_entry input Ledger.REVERSAL && negb (is_debit input))
          (CommissionAccrualInputError "REVERSAL must have direction DEBIT");
    throw_if ((is_entry input Ledger.ADJUSTMENT || is_entry input Ledger.REVERSAL) && negb (present (ca_reason input)))
      (CommissionAccrualInputError "requires a reason").

Definition newAccrualRow (i : string) (computedAt : Z) (base : Base) (input : CreateAccrualRow) : CommissionAccrualRow.t :=
  {|
     CommissionAccrualRow.id := i;
     CommissionAccrualRow.accrualRootId := if is_entry input Ledger.ACCRUAL then i else default "" (ca_accrualRootId input);
     CommissionAccrualRow.entryType := ca_entryType input;
     CommissionAccrualRow.direction := ca_direction input;
     CommissionAccrualRow.amountMinor := ca_amountMinor input;
     CommissionAccrualRow.currency := ca_currency input;
     CommissionAccrualRow.dealRoomId := ca_dealRoomId input;
     CommissionAccrualRow.revenueEventId := ca_revenueEventId input;
     CommissionAccrualRow.scheduleId := ca_scheduleId input;
     CommissionAccrualRow.scheduleVersion := ca_scheduleVersion input;
     CommissionAccrualRow.componentId := ca_componentId input;
     CommissionAccrualRow.recipientOrgId := ca_recipientOrgId input;
     CommissionAccrualRow.claimId := ca_claimId input;
     CommissionAccrualRow.paymentId := ca_paymentId input;
     CommissionAccrualRow.reason := ca_reason input;
     CommissionAccrualRow.approverUserId := ca_approverUserId input;
     CommissionAccrualRow.approverOrgId := ca_approverOrgId input;
     CommissionAccrualRow.calculationVersion := ca_calculationVersion input;
     CommissionAccrualRow.inputVersions := ca_inputVersions input;
     CommissionAccrualRow.computedAt := computedAt;
     CommissionAccrualRow.base := base |}.

Definition accrual_create (input : CreateAccrualRow) : Tx CommissionAccrualRow.t :=
  do* tlift (accrual_validate input);
  let* i := freshId in
  let* computedAt := tlift (validDate (ca_computedAt input)) in
  fun db =>
    let row := newAccrualRow i computedAt (newBase (ca_createdByUserId input) (ca_createdByOrgId input) Roles.RESTRICTED db) input in
    Ok (row, set_commissionAccruals (commissionAccruals db ++ [row]) db).

Definition accrual_createMany : list CreateAccrualRow -> Tx (list CommissionAccrualRow.t) := tmapM accrual_create.

(** ** commissionPaymentRepository *)

Record CreatePaymentRow : Type := {
  cp_dealRoomId : string;
  cp_recipientOrgId : string;
  cp_totalAmountMinor : Z;
  cp_currency : string;
  cp_paidAt : option Z;
  cp_reference : string;
  cp_evidenceRef : option string;
  cp_createdByUserId : option string;
  cp_createdByOrgId : option string
}.

(** [reference] is unique. *)
Definition newPaymentRow (i : string) (paidAt : Z) (base : Base) (input : CreatePaymentRow) : CommissionPaymentRow.t :=
  {|
     CommissionPaymentRow.id := i;
     CommissionPaymentRow.dealRoomId := cp_dealRoomId input;
     CommissionPaymentRow.recipientOrgId := cp_recipientOrgId input;
     CommissionPaymentRow.totalAmountMinor := cp_totalAmountMinor input;
     CommissionPaymentRow.currency := cp_currency input;
     CommissionPaymentRow.paidAt := paidAt;
     CommissionPaymentRow.reference := cp_reference input;
     CommissionPaymentRow.evidenceRef := cp_evidenceRef input;
     CommissionPaymentRow.base := base |}.

Definition payment_create (input : CreatePaymentRow) : Tx CommissionPaymentRow.t :=
  let* i := freshId in
  let* paidAt := tlift (validDate (cp_paidAt input)) in
  fun db =>
    if existsb (fun p => String.eqb (CommissionPaymentRow.reference p) (cp_reference input)) (commissionPayments db)
    then Throw (PrismaKnownRequestError "P2002")
    else
      let row := newPaymentRow i paidAt (newBase (cp_createdByUserId input) (cp_createdByOrgId input) Roles.RESTRICTED db) input in
      Ok (row, set_commissionPayments (commissionPayments db ++ [row]) db).

End Repositories.
