(* ===== verification/Transactions.v ===== *)
(** * Concurrent requests over one database

    A mutation of the services reads outside its transaction ([h_pre]), then
    runs one transaction ([h_tx]) that commits or rolls back as a whole, then
    computes its response ([h_finish]).  Requests of several clients overlap:
    between the reads of one and its transaction any number of others may
    commit.  [step] is one event of such a run; a transaction is one step
    because PostgreSQL makes its writes visible at once, and because a
    handler that checks in its transaction before it writes holds an advisory
    lock while it does.  A handler that checks there without a lock has the
    check in its plan instead: [h_look] is that read, done at any moment before
    the commit, and what it saw may be stale by then.  [env_step] is anything
    else that changes the database (the clock, other services).

    The two rules of the file: an invariant that every transaction preserves
    given a fact about its plan, where the fact survives what others commit,
    holds in every reachable configuration; and a run is simulated by an
    abstract transition system when every transaction and every [env_step] is. *)
From S2P Require Import Prelude Database.
From stdpp Require Import relations.

Record Handler : Type := {
  Req : Type;
  Plan : Req -> Type;
  Out : Req -> Type;
  Resp : Req -> Type;
  h_pre : forall r, Db -> res (Plan r);
  h_look : forall r, Plan r -> Db -> Plan r;
  h_tx : forall r, Plan r -> Tx (Out r);
  h_finish : forall r, Plan r -> Out r -> res (Resp r)
}.
Arguments h_pre _ _ _ : assert.
Arguments h_look _ _ _ _ : assert.
Arguments h_tx _ _ _ _ : assert.

(** One request on its own: what a client sees when nobody else is active. *)
Definition serve (h : Handler) (r : Req h) (db : Db) : Db * res (Resp h r) :=
  match h_pre h r db with
  | Throw e => (db, Throw e)
  | Ok p =>
      match h_tx h r p db with
      | Throw e => (db, Throw e)
      | Ok (out, db') => (db', h_finish h r p out)
      end
  end.

Section Run.
(** [sent] is the set of requests the clients may send. *)
Context (h : Handler) (env_step : Db -> Db -> Prop) (sent : Req h -> Prop).

(** a request between its reads and its transaction *)
Definition Started : Type := {r : Req h & Plan h r}.
Definition Answer : Type := {r : Req h & res (Resp h r)}.
Definition started (r : Req h) (p : Plan h r) : Started := existT r p.
Definition answer (r : Req h) (a : res (Resp h r)) : Answer := existT r a.

Record Config : Type := {
  store : Db;
  inflight : list Started;
  answered : list Answer
}.

Definition start (db : Db) : Config := {| store := db; inflight := []; answered := [] |}.

Inductive step : Config -> Config -> Prop :=
| step_read s r p :
    sent r ->
    h_pre h r (store s) = Ok p ->
    step s {| store := store s; inflight := inflight s ++ [started r p]; answered := answered s |}
| step_refuse s r e :
    sent r ->
    h_pre h r (store s) = Throw e ->
    step s {| store := store s; inflight := inflight s; answered := answered s ++ [answer r (Throw e)] |}
| step_look s l1 l2 r p :
    inflight s = l1 ++ started r p :: l2 ->
    step s {| store := store s; inflight := l1 ++ started r (h_look h r p (store s)) :: l2; answered := answered s |}
| step_commit s l1 l2 r p out db' :
    inflight s = l1 ++ started r p :: l2 ->
    h_tx h r p (store s) = Ok (out, db') ->
    step s {| store := db'; inflight := l1 ++ l2; answered := answered s ++ [answer r (h_finish h r p out)] |}
| step_rollback s l1 l2 r p e :
    inflight s = l1 ++ started r p :: l2 ->
    h_tx h r p (store s) = Throw e ->
    step s {| store := store s; inflight := l1 ++ l2; answered := answered s ++ [answer r (Throw e)] |}
| step_env s db' :
    env_step (store s) db' ->
    step s {| store := db'; inflight := inflight s; answered := answered s |}.

Definition reaches (db : Db) (s : Config) : Prop := rtc step (start db) s.

(** Requests served one after another are a run. *)
Definition serveAll (rs : list (Req h)) (db : Db) : Db := foldl (fun db r => fst (serve h r db)) db rs.

Fixpoint answersAll (rs : list (Req h)) (db : Db) : list Answer :=
  match rs with
  | [] => []
  | r :: rest => answer r (snd (serve h r db)) :: answersAll rest (fst (serve h r db))
  end.

(** Only what was sent is answered. *)
Lemma answersAll_asked rs db a : a ∈ answersAll rs db -> projT1 a ∈ rs.
Proof.
  revert db. induction rs as [|r rs IH]; intros db; cbn [answersAll]; [by intros ?%elem_of_nil|].
  intros [->|Hin]%elem_of_cons; [left|right; by eapply IH].
Qed.

Lemma serve_steps s r : sent r -> inflight s = [] ->
  rtc step s {| store := fst (serve h r (store s)); inflight := []; answered := answered s ++ [answer r (snd (serve h r (store s)))] |}.
Proof.
  intros Hs Hi. unfold serve. destruct (h_pre h r (store s)) as [p|e] eqn:Ep.
  - pose proof (step_read s r p Hs Ep) as S1. rewrite Hi in S1. simpl in S1.
    destruct (h_tx h r p (store s)) as [[out db']|e] eqn:Et; (eapply rtc_l; [exact S1|]); apply rtc_once.
    + exact (step_commit {| store := store s; inflight := [started r p]; answered := answered s |} [] [] r p out db' eq_refl Et).
    + exact (step_rollback {| store := store s; inflight := [started r p]; answered := answered s |} [] [] r p e eq_refl Et).
  - pose proof (step_refuse s r e Hs Ep) as S1. rewrite Hi in S1. simpl. apply rtc_once. exact S1.
Qed.

Lemma serveAll_steps rs s : Forall sent rs -> inflight s = [] ->
  rtc step s {| store := serveAll rs (store s); inflight := []; answered := answered s ++ answersAll rs (store s) |}.
Proof.
  intros Hs. revert s. induction Hs as [|r rs Hr Hrs IH]; intros s Hi.
  - cbn [serveAll foldl answersAll]. rewrite app_nil_r. destruct s; simpl in *. by rewrite Hi.
  - pose proof (serve_steps s r Hr Hi) as R1. etransitivity; [exact R1|].
    pose proof (IH {| store := fst (serve h r (store s)); inflight := []; answered := answered s ++ [answer r (snd (serve h r (store s)))] |} eq_refl) as R2.
    cbn [store answered] in R2. rewrite <- app_assoc in R2. exact R2.
Qed.

(** The same while other requests are in flight. *)
Lemma serve_steps_among s r : sent r -> exists ans,
  rtc step s {| store := fst (serve h r (store s)); inflight := inflight s; answered := ans |}.
Proof.
  intros Hs. unfold serve. destruct (h_pre h r (store s)) as [p|e] eqn:Ep.
  - pose proof (step_read s r p Hs Ep) as S1. destruct (h_tx h r p (store s)) as [[out db']|e] eqn:Et; eexists; (eapply rtc_l; [exact S1|]); apply rtc_once.
    + pose proof (step_commit {| store := store s; inflight := inflight s ++ [started r p]; answered := answered s |} (inflight s) [] r p out db' eq_refl Et) as S2.
      rewrite app_nil_r in S2. exact S2.
    + pose proof (step_rollback {| store := store s; inflight := inflight s ++ [started r p]; answered := answered s |} (inflight s) [] r p e eq_refl Et) as S2.
      rewrite app_nil_r in S2. exact S2.
  - eexists. apply rtc_once. exact (step_refuse s r e Hs Ep).
Qed.

Lemma serveAll_steps_among rs s : Forall sent rs -> exists ans,
  rtc step s {| store := serveAll rs (store s); inflight := inflight s; answered := ans |}.
Proof.
  intros Hs. revert s. induction Hs as [|r rs Hr Hrs IH]; intros s.
  - exists (answered s). by destruct s.
  - destruct (serve_steps_among s r Hr) as [a1 R1]. match type of R1 with rtc _ _ ?s1 => destruct (IH s1) as [a2 R2] end.
    exists a2. etransitivity; [exact R1|exact R2].
Qed.

(** A request whose transaction commits only after those of [rs], all read and
    committed since its own reads. *)
Definition delayed (r : Req h) (rs : list (Req h)) (db : Db) : option Db :=
  match h_pre h r db with
  | Ok p => match h_tx h r p (serveAll rs db) with Ok (_, db') => Some db' | Throw _ => None end
  | Throw _ => None
  end.

Lemma delayed_reaches r rs db db' : sent r -> Forall sent rs -> delayed r rs db = Some db' ->
  exists ans, rtc step (start db) {| store := db'; inflight := []; answered := ans |}.
Proof.
  unfold delayed. intros Hr Hrs. destruct (h_pre h r db) as [p|] eqn:Ep; [|done].
  destruct (h_tx h r p (serveAll rs db)) as [[out d]|] eqn:Et; [|done]. intros [= ->].
  pose proof (step_read (start db) r p Hr Ep) as S1. match type of S1 with step _ ?s1 => destruct (serveAll_steps_among rs s1 Hrs) as [a R] end.
  pose proof (step_commit {| store := serveAll rs db; inflight := [started r p]; answered := a |} [] [] r p out db' eq_refl Et) as S2.
  eexists. eapply rtc_l; [exact S1|]. eapply rtc_r; [exact R|exact S2].
Qed.

Lemma serveAll_answers rs db : Forall sent rs ->
  reaches db {| store := serveAll rs db; inflight := []; answered := answersAll rs db |}.
Proof. intros Hs. by apply (serveAll_steps rs (start db)). Qed.

Lemma serveAll_reaches rs db : Forall sent rs -> exists ans,
  reaches db {| store := serveAll rs db; inflight := []; answered := ans |}.
Proof. intros Hs. eexists. by apply serveAll_answers. Qed.

(** Two overlapping requests: both read, then the first commits, then the
    second runs its transaction.  [None] when they do not get that far. *)
Definition overlap (r1 r2 : Req h) (db : Db) : option (Db * res (Resp h r2)) :=
  match h_pre h r1 db, h_pre h r2 db with
  | Ok p1, Ok p2 =>
      match h_tx h r1 p1 db with
      | Ok (_, db1) =>
          Some match h_tx h r2 p2 db1 with
               | Ok (out, db2) => (db2, h_finish h r2 p2 out)
               | Throw e => (db1, Throw e)
               end
      | Throw _ => None
      end
  | _, _ => None
  end.

Lemma overlap_steps s r1 r2 db' a : sent r1 -> sent r2 -> inflight s = [] -> overlap r1 r2 (store s) = Some (db', a) ->
  exists ans, rtc step s {| store := db'; inflight := []; answered := ans ++ [answer r2 a] |}.
Proof.
  intros S1 S2 Hi. unfold overlap. destruct (h_pre h r1 (store s)) as [p1|] eqn:E1; [|done].
  destruct (h_pre h r2 (store s)) as [p2|] eqn:E2; [|done]. destruct (h_tx h r1 p1 (store s)) as [[o1 db1]|] eqn:E3; [|done].
  pose proof (step_read s r1 p1 S1 E1) as T1. rewrite Hi in T1. simpl in T1.
  pose proof (step_read _ r2 p2 S2 (E2 : h_pre h r2 (store {| store := store s; inflight := [started r1 p1]; answered := answered s |}) = Ok p2)) as T2.
  pose proof (step_commit {| store := store s; inflight := [started r1 p1; started r2 p2]; answered := answered s |} []
    [started r2 p2] r1 p1 o1 db1 eq_refl E3) as T3. simpl in T2, T3.
  set (mid := {| store := db1; inflight := _; answered := _ |}) in T3.
  assert (rtc step s mid) as R by (eapply rtc_l; [exact T1|]; eapply rtc_l; [exact T2|]; by apply rtc_once).
  destruct (h_tx h r2 p2 db1) as [[o2 db2]|e] eqn:E4; intros [= <- <-]; exists (answered s ++ [answer r1 (h_finish h r1 p1 o1)]);
    (eapply rtc_r; [exact R|]).
  - exact (step_commit mid [] [] r2 p2 o2 db2 eq_refl E4).
  - exact (step_rollback mid [] [] r2 p2 e eq_refl E4).
Qed.

(** ** Invariants *)

Section Invariant.
Variable I : Db -> Prop.
(** what a plan still says about the database after others have committed *)
Variable J : forall r, Plan h r -> Db -> Prop.

Hypothesis J_pre : forall db r p, sent r -> I db -> h_pre h r db = Ok p -> J r p db.
Hypothesis J_look : forall db r p, I db -> J r p db -> J r (h_look h r p db) db.
Hypothesis I_tx : forall db r p out db', I db -> J r p db -> h_tx h r p db = Ok (out, db') -> I db'.
Hypothesis I_env : forall db db', I db -> env_step db db' -> I db'.
Hypothesis J_tx : forall db r p out db' r' p', I db -> J r p db -> h_tx h r p db = Ok (out, db') -> J r' p' db -> J r' p' db'.
Hypothesis J_env : forall db db' r p, I db -> env_step db db' -> J r p db -> J r p db'.

Definition planned (db : Db) (x : Started) : Prop := J (projT1 x) (projT2 x) db.
Definition wf (s : Config) : Prop := I (store s) /\ Forall (planned (store s)) (inflight s).

Lemma wf_commit_plan s l1 l2 r p : wf s -> inflight s = l1 ++ started r p :: l2 ->
  J r p (store s) /\ Forall (planned (store s)) (l1 ++ l2).
Proof. intros [_ HJ] E. rewrite E, Forall_app, Forall_cons in HJ. rewrite Forall_app. unfold planned in *. simpl in *. tauto. Qed.

Lemma wf_step s s' : wf s -> step s s' -> wf s'.
Proof.
  intros W St. pose proof W as [HI HJ].
  destruct St as [s r p Hs Hp|s r e Hs He|s l1 l2 r p E|s l1 l2 r p out db' E Htx|s l1 l2 r p e E Htx|s db' Henv]; split; simpl; try done.
  - rewrite Forall_app, Forall_singleton. split; [done|]. unfold planned. simpl. by apply J_pre.
  - destruct (wf_commit_plan _ _ _ _ _ W E) as [Hr [H1 H2]%Forall_app]. rewrite Forall_app, Forall_cons. split_and!; [done| |done].
    unfold planned. simpl. by apply J_look.
  - eapply I_tx; [done| |done]. by eapply wf_commit_plan.
  - destruct (wf_commit_plan _ _ _ _ _ W E) as [Hr Hrest]. eapply Forall_impl; [exact Hrest|].
    intros [r' p'] HJ'. by eapply (J_tx (store s) r p out db' r' p').
  - by eapply wf_commit_plan.
  - by eapply I_env.
  - eapply Forall_impl; [exact HJ|]. intros [r p] Hr. unfold planned in *. by eapply J_env.
Qed.

Lemma wf_reaches db s : I db -> reaches db s -> wf s.
Proof.
  intros HI R. assert (wf (start db)) as W by (split; [done|constructor]).
  unfold reaches in R. remember (start db) as s0 eqn:E0. clear E0. induction R as [s|s0 s1 s St _ IH]; [done|].
  apply IH. by eapply wf_step.
Qed.

Lemma invariant_reaches db s : I db -> reaches db s -> I (store s).
Proof. intros HI R. by destruct (wf_reaches db s HI R). Qed.

(** ** Facts about the answers given so far *)

Section Answers.
Variable K : list Answer -> Db -> Prop.

Hypothesis K_tx : forall ans db r p out db', sent r -> I db -> J r p db -> h_tx h r p db = Ok (out, db') ->
  K ans db -> K (ans ++ [answer r (h_finish h r p out)]) db'.
Hypothesis K_failed : forall ans db r e, K ans db -> K (ans ++ [answer r (Throw e)]) db.
Hypothesis K_env : forall ans db db', I db -> env_step db db' -> K ans db -> K ans db'.

Definition asked (s : Config) : Prop := Forall (fun x => sent (projT1 x)) (inflight s).

Lemma asked_step s s' : asked s -> step s s' -> asked s'.
Proof.
  unfold asked. intros HA St. destruct St as [s r p Hs Hp|s r e Hs He|s l1 l2 r p E|s l1 l2 r p out db' E Htx|s l1 l2 r p e E Htx|s db' Henv]; simpl; try done.
  - rewrite Forall_app, Forall_singleton. done.
  - rewrite E, Forall_app, Forall_cons in HA. rewrite Forall_app, Forall_cons. exact HA.
  - rewrite E, Forall_app, Forall_cons in HA. rewrite Forall_app. tauto.
  - rewrite E, Forall_app, Forall_cons in HA. rewrite Forall_app. tauto.
Qed.

Lemma answers_step s s' : wf s -> asked s -> K (answered s) (store s) -> step s s' -> K (answered s') (store s').
Proof.
  intros W HA HK St. pose proof W as [HI HJ].
  destruct St as [s r p Hs Hp|s r e Hs He|s l1 l2 r p E|s l1 l2 r p out db' E Htx|s l1 l2 r p e E Htx|s db' Henv]; simpl; try done.
  - by apply K_failed.
  - eapply K_tx; [|done| |done|done]; [|by eapply wf_commit_plan].
    unfold asked in HA. rewrite E, Forall_app, Forall_cons in HA. simpl in HA. tauto.
  - by apply K_failed.
  - by eapply K_env.
Qed.

Lemma answers_reaches db s : I db -> K [] db -> reaches db s -> K (answered s) (store s).
Proof.
  intros HI HK R. assert (wf (start db)) as W by (split; [done|constructor]).
  assert (asked (start db)) as HA by constructor. change (K (answered (start db)) (store (start db))) in HK.
  unfold reaches in R. remember (start db) as s0 eqn:E0. clear E0. induction R as [s|s0 s1 s St _ IH]; [done|].
  apply IH; [by eapply answers_step|by eapply wf_step|by eapply asked_step].
Qed.
End Answers.

(** ** Simulation by an abstract transition system *)

Section Simulation.
Context {Spec : Type} (spec_step : Spec -> Spec -> Prop) (alpha : Db -> Spec).

Hypothesis sim_tx : forall db r p out db', I db -> J r p db -> h_tx h r p db = Ok (out, db') ->
  rtc spec_step (alpha db) (alpha db').
Hypothesis sim_env : forall db db', I db -> env_step db db' -> rtc spec_step (alpha db) (alpha db').

Lemma simulation_step s s' : wf s -> step s s' -> rtc spec_step (alpha (store s)) (alpha (store s')).
Proof.
  intros W St. pose proof W as [HI HJ].
  destruct St as [s r p Hs Hp|s r e Hs He|s l1 l2 r p E|s l1 l2 r p out db' E Htx|s l1 l2 r p e E Htx|s db' Henv]; simpl; try done.
  - eapply sim_tx; [done| |done]. by eapply wf_commit_plan.
  - by apply sim_env.
Qed.

(** Between any two moments of a run. *)
Lemma simulation_between s s' : wf s -> rtc step s s' -> rtc spec_step (alpha (store s)) (alpha (store s')).
Proof.
  intros W R. induction R as [s|s s1 s2 St R IH]; [done|].
  etransitivity; [by apply simulation_step|]. apply IH. by eapply wf_step.
Qed.

Lemma simulation db s : I db -> reaches db s -> rtc spec_step (alpha db) (alpha (store s)).
Proof. intros HI R. apply (simulation_between (start db) s); [by split; [|constructor]|exact R]. Qed.
End Simulation.
End Invariant.
End Run.

Arguments store {_} _.
Arguments inflight {_} _.
Arguments answered {_} _.
Arguments started {_} _ _.
Arguments answer {_} _ _.
Arguments start {_} _.
