(* ===== verification/EconomicsService.v ===== *)
(** * apps/api/src/modules/economics/service.ts

    Every handler of [economicsService].  A mutation is three functions: [_pre]
    reads the database before the transaction opens and decides what to do (the
    plan), [_tx] is the body of [withTransaction], and the response is computed
    from what the transaction returned.  The request types are those of
    packages/contracts/src/economics.ts after parsing.  [new Date()] is the
    clock reading [now] of the call. *)
From S2P Require Import Prelude StableSort JsNumber JsDate DomainStates Money AuthzMatrix Authz.
From S2P Require Import EconomicsEngine JsonText Database ApiShared EconomicsRepositories.
Import Roles Actions.

(** ** Requests and responses *)

Record ComponentInput : Type := {
  ci_recipientType : Recipient.CommissionRecipientType;
  ci_recipientOrgId : string;
  ci_componentType : Ledger.CommissionComponentType;
  ci_bps : option Z;
  ci_fixedAmountMinor : option string;
  ci_calculationBasis : option Schedule.CommissionBasis;
  ci_priority : Z;
  ci_claimId : option string
}.

Record CreateScheduleRequest : Type := {
  sr_basis : Schedule.CommissionBasis;
  sr_capMinor : option string;
  sr_floorMinor : option string;
  sr_survivalMonths : option Z;
  sr_description : option string;
  sr_supersedesScheduleId : option string;
  sr_components : list ComponentInput
}.

Record RecordRevenueEventRequest : Type := {
  rr_basis : Schedule.CommissionBasis;
  rr_period : string;
  rr_source : string;
  rr_grossAmountMinor : string;
  rr_deductionsMinor : option string;
  rr_currency : string;
  rr_recognizedAt : option string
}.

Record PaymentItem : Type := { pi_accrualRootId : string; pi_amountMinor : string }.

Record RecordPaymentRequest : Type := {
  pr_payments : list PaymentItem;
  pr_reference : string;
  pr_evidenceRef : option string;
  pr_paidAt : option string
}.

Record AdjustLedgerRequest : Type := {
  ar_direction : Ledger.LedgerDirection;
  ar_amountMinor : string;
  ar_reason : string
}.

Record ScheduleDetail : Type := {
  d_schedule : CommissionScheduleRow.t;
  d_components : list CommissionComponentRow.t;
  d_capFloorStatus : option ScheduleCapFloorStatus
}.

Record AccrualWithBalance : Type := {
  w_accrualRootId : string;
  w_dealRoomId : string;
  w_revenueEventId : string;
  w_scheduleId : string;
  w_componentId : string;
  w_recipientOrgId : string;
  w_claimId : option string;
  w_currency : string;
  w_balance : AccrualBalance;
  w_entries : list CommissionAccrualRow.t
}.

(** ** Shared helpers *)

Definition CROSS_ORG_ECONOMICS_ROLES : list PersonaRole := [PLATFORM_OWNER; FINANCE_OPERATOR; AUDITOR_READONLY].
Definition LEDGER_PARTY_ROLES : list PersonaRole := [CONTRIBUTOR_AGENT; MERCHANT_PSP_USER; ACQUIRER_PROVIDER_USER].
Definition ECONOMICS_ELIGIBLE_DEAL_STATUSES : list DealRoom.DealRoomStatus :=
  [DealRoom.ACTIVATION; DealRoom.LIVE; DealRoom.ARCHIVED].

Definition loadDealRoom (db : Db) (dealRoomId : string) : res DealRoomRow.t :=
  match dealRoom_findById db dealRoomId with
  | None => Throw (notFound "Deal room not found.")
  | Some d => Ok d
  end.

(** The columns the engine reads. *)
Definition entryLike (e : CommissionAccrualRow.t) : AccrualLedgerEntryLike :=
  {| entryType := CommissionAccrualRow.entryType e; direction := CommissionAccrualRow.direction e;
     amountMinor := CommissionAccrualRow.amountMinor e |}.

Definition balanceOfChain (chain : list CommissionAccrualRow.t) : res AccrualBalance :=
  computeAccrualBalance (map entryLike chain).

Record LoadedPayment : Type := { lp_accrualRootId : string; lp_amountMinor : Z; lp_root : CommissionAccrualRow.t }.

(** One element of the batch: the chain must start on this deal room, must not
    be reversed, and must owe at least the positive amount. *)
Definition loadPayment (db : Db) (dealRoomId : string) (p : PaymentItem) : res LoadedPayment :=
  let chain := accrual_listByAccrualRoot db (pi_accrualRootId p) in
  match chain with
  | [] => Throw (badRequest "does not reference an accrual on this deal room")
  | root :: _ =>
      do! throw_if (negb (String.eqb (CommissionAccrualRow.dealRoomId root) dealRoomId))
            (badRequest "does not reference an accrual on this deal room");
      let! balance := balanceOfChain chain in
      do! throw_if (bool_decide (status balance = Ledger.REVERSED)) (badRequest "has been REVERSED");
      let! amount := parseBigIntMinorUnits (Some (pi_amountMinor p)) "payment.amountMinor" in
      do! throw_if (amount <=? 0) (badRequest "Payment amount must be positive");
      do! throw_if (outstandingAmountMinor balance <? amount) (badRequest "exceeds its outstanding balance");
      Ok {| lp_accrualRootId := pi_accrualRootId p; lp_amountMinor := amount; lp_root := root |}
  end.

(** [Promise.all]: the first rejection is reported; the batch is scanned in
    order. *)
Definition loadAndValidatePayments (db : Db) (dealRoomId : string) (payments : list PaymentItem) : res (list LoadedPayment) :=
  mapM_res (loadPayment db dealRoomId) payments.

(** [new Set(..).size > 1] *)
Definition several (l : list string) : bool := Nat.ltb 1 (size (list_to_set (C := gset string) l)).

Definition validateSingleRecipientAndCurrency (loaded : list LoadedPayment) : res (string * string) :=
  do! throw_if (several (map (fun l => CommissionAccrualRow.recipientOrgId (lp_root l)) loaded))
        (badRequest "A single payment batch must cover accruals for exactly one recipient organization.");
  do! throw_if (several (map (fun l => CommissionAccrualRow.currency (lp_root l)) loaded))
        (badRequest "A single payment batch must cover accruals in exactly one currency.");
  match loaded with
  | l :: _ => Ok (CommissionAccrualRow.recipientOrgId (lp_root l), CommissionAccrualRow.currency (lp_root l))
  | [] => Throw (TypeError "Cannot read properties of undefined (reading 'root')")
  end.

(** The [Map] keyed by root, in order of first insertion. *)
Fixpoint addToGroup (row : CommissionAccrualRow.t) (groups : list (string * list CommissionAccrualRow.t))
    : list (string * list CommissionAccrualRow.t) :=
  match groups with
  | [] => [(CommissionAccrualRow.accrualRootId row, [row])]
  | (k, g) :: rest =>
      if String.eqb k (CommissionAccrualRow.accrualRootId row) then (k, g ++ [row]) :: rest
      else (k, g) :: addToGroup row rest
  end.

Definition groupByRoot (rows : list CommissionAccrualRow.t) : list (string * list CommissionAccrualRow.t) :=
  foldl (fun groups row => addToGroup row groups) [] rows.

(** One group; [None] is the [continue] of a group without a root row. *)
Definition accrualOfGroup (group : string * list CommissionAccrualRow.t) : res (option AccrualWithBalance) :=
  let '(accrualRootId, entries) := group in
  match List.find isAccrualRow entries with
  | None => Ok None
  | Some root =>
      let sorted := sort_by (asc row_createdAt) entries in
      let! balance := balanceOfChain sorted in
      Ok (Some {| w_accrualRootId := accrualRootId;
                  w_dealRoomId := CommissionAccrualRow.dealRoomId root;
                  w_revenueEventId := CommissionAccrualRow.revenueEventId root;
                  w_scheduleId := CommissionAccrualRow.scheduleId root;
                  w_componentId := CommissionAccrualRow.componentId root;
                  w_recipientOrgId := CommissionAccrualRow.recipientOrgId root;
                  w_claimId := CommissionAccrualRow.claimId root;
                  w_currency := CommissionAccrualRow.currency root;
                  w_balance := balance;
                  w_entries := sorted |})
  end.

Definition groupIntoAccruals (rows : list CommissionAccrualRow.t) : res (list AccrualWithBalance) :=
  let! accruals := mapM_res accrualOfGroup (groupByRoot rows) in
  Ok (omap (fun x => x) accruals).

Definition toCapFloorStatus (schedule : CommissionScheduleRow.t) (cumulativeDistributedMinor : Z) : res (option ScheduleCapFloorStatus) :=
  match CommissionScheduleRow.capMinor schedule, CommissionScheduleRow.floorMinor schedule with
  | None, None => Ok None
  | cap, floor =>
      let! s := evaluateScheduleCapFloor {| capMinor := cap; floorMinor := floor;
                                            cumulativeDistributedMinor := cumulativeDistributedMinor |} in
      Ok (Some s)
  end.

(** The engine's view of the stored components, and their basis overrides. *)
Definition componentInput (c : CommissionComponentRow.t) : EconomicsComponentInput :=
  {| componentId := CommissionComponentRow.id c;
     recipientOrgId := CommissionComponentRow.recipientOrgId c;
     componentType := CommissionComponentRow.componentType c;
     bps := CommissionComponentRow.bps c;
     fixedAmountMinor := CommissionComponentRow.fixedAmountMinor c;
     claimId := CommissionComponentRow.claimId c;
     priority := CommissionComponentRow.priority c |}.

Definition basisOverrides (cs : list CommissionComponentRow.t) : gmap string (option Schedule.CommissionBasis) :=
  foldl (fun m c => <[CommissionComponentRow.id c := CommissionComponentRow.calculationBasis c]> m) ∅ cs.

Definition targetedComponents (db : Db) (schedule : CommissionScheduleRow.t) (basis : Schedule.CommissionBasis)
    : list EconomicsComponentInput :=
  let all := component_listBySchedule db (CommissionScheduleRow.id schedule) in
  selectComponentsForBasis (map componentInput all) (CommissionScheduleRow.basis schedule) basis (basisOverrides all).

(** [bigint.toString()] in a payload *)
Definition JBig (n : Z) : Json := JStr (bigint_toString n).

Section Service.
Context `{Platform}.

(** ** createSchedule *)

Record SchedulePlan : Type := {
  sp_dealRoom : DealRoomRow.t;
  sp_capMinor : option Z;
  sp_floorMinor : option Z;
  sp_previous : option CommissionScheduleRow.t
}.

Definition parseOptional (s : option string) (field : string) : res (option Z) :=
  when_present s (fun v => let! n := parseBigIntMinorUnits (Some v) field in Ok (Some n)) (Ok None).

Definition capBelowFloor (cap floor : option Z) : bool :=
  match cap, floor with Some c, Some f => c <? f | _, _ => false end.

Definition loadSuperseded (db : Db) (dealRoomId x : string) : res (option CommissionScheduleRow.t) :=
  match schedule_findById db x with
  | None => Throw (badRequest "supersedesScheduleId does not reference an existing schedule for this deal room.")
  | Some previous =>
      do! throw_if (negb (String.eqb (CommissionScheduleRow.dealRoomId previous) dealRoomId))
            (badRequest "supersedesScheduleId does not reference an existing schedule for this deal room.");
      do! throw_if (negb (isActive previous)) (badRequest "Cannot supersede a schedule that is not ACTIVE");
      do! Schedule.assertValidCommissionScheduleTransition
            (Schedule.CommissionScheduleStatus_name (CommissionScheduleRow.status previous)) "SUPERSEDED";
      Ok (Some previous)
  end.

Definition createSchedule_pre (c : Call) (dealRoomId : string) (input : CreateScheduleRequest) (db : Db) : res SchedulePlan :=
  let! dealRoom := loadDealRoom db dealRoomId in
  do! require (can (actor c) schedule_manage (resource ResourceType.commission_schedule (Some (DealRoomRow.merchantOrgId dealRoom))) noContext);
  let! cap := parseOptional (sr_capMinor input) "capMinor" in
  let! floor := parseOptional (sr_floorMinor input) "floorMinor" in
  do! throw_if (capBelowFloor cap floor) (badRequest "capMinor must not be less than floorMinor");
  let! previous := when_present (sr_supersedesScheduleId input) (loadSuperseded db dealRoomId) (Ok None) in
  Ok {| sp_dealRoom := dealRoom; sp_capMinor := cap; sp_floorMinor := floor; sp_previous := previous |}.

Definition assertComponentBps (c : ComponentInput) : res unit :=
  match ci_bps c with
  | None => Ok tt
  | Some b => assertIntegerBps (num_of_Z b) "component.bps" (num_of_Z 10000)
  end.

Definition componentRow (c : Call) (scheduleId : string) (ci : ComponentInput) : res CreateComponentRow :=
  let! fixed := parseOptional (ci_fixedAmountMinor ci) "component.fixedAmountMinor" in
  Ok {| cc_scheduleId := scheduleId; cc_recipientType := ci_recipientType ci; cc_recipientOrgId := ci_recipientOrgId ci;
        cc_componentType := ci_componentType ci; cc_bps := ci_bps ci; cc_fixedAmountMinor := fixed;
        cc_calculationBasis := ci_calculationBasis ci; cc_priority := ci_priority ci; cc_claimId := ci_claimId ci;
        cc_createdByUserId := Some (userId (actor c)); cc_createdByOrgId := organizationId (actor c) |}.

Definition supersede (c : Call) (previous : option CommissionScheduleRow.t) : Tx unit :=
  match previous with
  | None => tret tt
  | Some p => do* schedule_updateStatus (CommissionScheduleRow.id p) Schedule.SUPERSEDED (Some (userId (actor c))); tret tt
  end.

Definition createSchedule_tx (c : Call) (dealRoomId : string) (input : CreateScheduleRequest) (p : SchedulePlan) : Tx ScheduleDetail :=
  let* schedule := schedule_create {|
    cs_dealRoomId := dealRoomId; cs_basis := sr_basis input; cs_status := Schedule.DRAFT;
    cs_capMinor := sp_capMinor p; cs_floorMinor := sp_floorMinor p;
    cs_survivalMonths := sr_survivalMonths input; cs_description := sr_description input;
    cs_previousVersionId := CommissionScheduleRow.id <$> sp_previous p;
    cs_createdByUserId := Some (userId (actor c)); cs_createdByOrgId := organizationId (actor c) |} in
  do* tlift (Schedule.assertValidCommissionScheduleTransition "DRAFT" "ACTIVE");
  let* activated := schedule_updateStatus (CommissionScheduleRow.id schedule) Schedule.ACTIVE (Some (userId (actor c))) in
  do* tlift (mapM_res assertComponentBps (sr_components input));
  let* rows := tlift (mapM_res (componentRow c (CommissionScheduleRow.id schedule)) (sr_components input)) in
  let* components := component_createMany rows in
  do* supersede c (sp_previous p);
  do* auditWriter (context c) (audit_of c (Some (DealRoomRow.merchantOrgId (sp_dealRoom p))) "economics.schedule_created" "commission_schedule"
        (CommissionScheduleRow.id activated)
        (JObj [("dealRoomId", JStr dealRoomId); ("basis", JStr (Schedule.CommissionBasis_name (CommissionScheduleRow.basis activated)));
               ("versionNumber", JNum (CommissionScheduleRow.versionNumber activated));
               ("componentCount", JNum (Z.of_nat (length components)));
               ("supersedes", JOpt (CommissionScheduleRow.id <$> sp_previous p))]));
  do* timelineWriter (context c) (event_of c
        (if sp_previous p then "economics.schedule_superseded" else "economics.schedule_created") "deal_room" dealRoomId
        (JObj [("scheduleId", JStr (CommissionScheduleRow.id activated));
               ("versionNumber", JNum (CommissionScheduleRow.versionNumber activated));
               ("basis", JStr (Schedule.CommissionBasis_name (CommissionScheduleRow.basis activated)))]));
  let* capFloor := tlift (toCapFloorStatus activated 0) in
  tret {| d_schedule := activated; d_components := components; d_capFloorStatus := capFloor |}.

(** ** listSchedules *)

Definition scheduleDetail (db : Db) (schedule : CommissionScheduleRow.t) : res ScheduleDetail :=
  let components := component_listBySchedule db (CommissionScheduleRow.id schedule) in
  let cumulative :=
    match CommissionScheduleRow.capMinor schedule, CommissionScheduleRow.floorMinor schedule with
    | None, None => 0
    | _, _ => accrual_sumAccrualAmountByScheduleId db (CommissionScheduleRow.id schedule)
    end in
  let! capFloor := toCapFloorStatus schedule cumulative in
  Ok {| d_schedule := schedule; d_components := components; d_capFloorStatus := capFloor |}.

Definition listSchedules (a : Actor) (dealRoomId : string) (db : Db) : res (list ScheduleDetail) :=
  let! dealRoom := loadDealRoom db dealRoomId in
  do! require (can a schedule_list (resource ResourceType.commission_schedule (Some (DealRoomRow.merchantOrgId dealRoom))) noContext);
  mapM_res (scheduleDetail db) (schedule_listByDealRoom db dealRoomId).

(** ** recordRevenueEvent *)

Record RevenuePlan : Type := {
  rp_dealRoom : DealRoomRow.t;
  rp_schedule : CommissionScheduleRow.t;
  rp_grossAmountMinor : Z;
  rp_deductionsMinor : Z;
  rp_netDistributableMinor : Z;
  rp_recognizedAt : option Z;
  rp_split : ComputeCommissionSplitsResult
}.

(** [catch (err)]: an [EconomicsInvariantError] is the operator's problem. *)
Definition invariantAsBadRequest {A} (m : res A) : res A :=
  match m with
  | Throw (EconomicsInvariantError e) => Throw (badRequest ("Cannot compute the commission split: " +:+ e))
  | _ => m
  end.

Definition recordRevenueEvent_pre (c : Call) (dealRoomId : string) (input : RecordRevenueEventRequest) (db : Db) : res RevenuePlan :=
  let! dealRoom := loadDealRoom db dealRoomId in
  do! require (can (actor c) economics_record (resource ResourceType.revenue_event (Some (DealRoomRow.merchantOrgId dealRoom))) noContext);
  do! throw_if (negb (bool_decide (DealRoomRow.status dealRoom ∈ ECONOMICS_ELIGIBLE_DEAL_STATUSES)))
        (badRequest "Deal room must be ACTIVATION, LIVE, or ARCHIVED before economics can engage");
  do! assertCurrencyCode (rr_currency input) "currency";
  do! throw_if (bool_decide (is_Some (revenueEvent_findByDealPeriodSource db dealRoomId (rr_period input) (rr_source input))))
        (conflict "A RevenueEvent already exists" false);
  match List.find (fun s => bool_decide (CommissionScheduleRow.basis s = rr_basis input)) (schedule_listActiveByDealRoom db dealRoomId) with
  | None => Throw (badRequest "No ACTIVE CommissionSchedule covers basis")
  | Some schedule =>
      let! gross := parseBigIntMinorUnits (Some (rr_grossAmountMinor input)) "grossAmountMinor" in
      let! deductions := when_present (rr_deductionsMinor input) (fun s => parseBigIntMinorUnits (Some s) "deductionsMinor") (Ok 0) in
      let net := gross - deductions in
      do! throw_if (net <? 0) (badRequest "deductionsMinor must not exceed grossAmountMinor.");
      let targeted := targetedComponents db schedule (rr_basis input) in
      do! throw_if (Nat.eqb (length targeted) 0) (badRequest "zero components covering basis");
      let recognizedAt := dateOr (rr_recognizedAt input) (now c) in
      let! split := invariantAsBadRequest (computeCommissionSplits {|
        netDistributableMinor := net; components := targeted; scheduleId := CommissionScheduleRow.id schedule;
        scheduleVersion := CommissionScheduleRow.versionNumber schedule; EconomicsEngine.now := recognizedAt;
        inputVersions := None |}) in
      Ok {| rp_dealRoom := dealRoom; rp_schedule := schedule; rp_grossAmountMinor := gross; rp_deductionsMinor := deductions;
            rp_netDistributableMinor := net; rp_recognizedAt := recognizedAt; rp_split := split |}
  end.

(** The ACCRUAL row of one entry of a split, shared with the worker's job. *)
Definition accrualRowOf (dealRoomId revenueEventId currency : string) (schedule : CommissionScheduleRow.t)
    (split : ComputeCommissionSplitsResult) (computedAt : option Z) (user org : option string) (e : ComputedLedgerEntry) : CreateAccrualRow :=
  {| ca_accrualRootId := None; ca_entryType := Ledger.ACCRUAL; ca_direction := e_direction e; ca_amountMinor := e_amountMinor e;
     ca_currency := currency; ca_dealRoomId := dealRoomId; ca_revenueEventId := revenueEventId;
     ca_scheduleId := CommissionScheduleRow.id schedule; ca_scheduleVersion := CommissionScheduleRow.versionNumber schedule;
     ca_componentId := e_componentId e; ca_recipientOrgId := e_recipientOrgId e; ca_claimId := e_claimId e;
     ca_paymentId := None; ca_reason := None; ca_approverUserId := None; ca_approverOrgId := None;
     ca_calculationVersion := calculationVersion split; ca_inputVersions := r_inputVersions split; ca_computedAt := computedAt;
     ca_createdByUserId := user; ca_createdByOrgId := org |}.

Definition recordRevenueEvent_tx (c : Call) (dealRoomId : string) (input : RecordRevenueEventRequest) (p : RevenuePlan)
    : Tx (RevenueEventRow.t * list CommissionAccrualRow.t) :=
  let* revenueEvent := revenueEvent_create {|
    cr_dealRoomId := dealRoomId; cr_scheduleId := CommissionScheduleRow.id (rp_schedule p); cr_basis := rr_basis input;
    cr_period := rr_period input; cr_source := rr_source input; cr_grossAmountMinor := rp_grossAmountMinor p;
    cr_deductionsMinor := rp_deductionsMinor p; cr_netDistributableMinor := rp_netDistributableMinor p;
    cr_currency := rr_currency input; cr_recognizedAt := rp_recognizedAt p;
    cr_createdByUserId := Some (userId (actor c)); cr_createdByOrgId := organizationId (actor c) |} in
  let* ledgerEntries := accrual_createMany
    (map (accrualRowOf dealRoomId (RevenueEventRow.id revenueEvent) (rr_currency input) (rp_schedule p) (rp_split p) (rp_recognizedAt p)
            (Some (userId (actor c))) (organizationId (actor c))) (entries (rp_split p))) in
  do* auditWriter (context c) (audit_of c (Some (DealRoomRow.merchantOrgId (rp_dealRoom p))) "commission.accrued" "revenue_event" (RevenueEventRow.id revenueEvent)
        (JObj [("dealRoomId", JStr dealRoomId); ("period", JStr (rr_period input)); ("source", JStr (rr_source input));
               ("netDistributableMinor", JBig (rp_netDistributableMinor p)); ("entryCount", JNum (Z.of_nat (length ledgerEntries)));
               ("calculationVersion", JStr (calculationVersion (rp_split p)))]));
  do* timelineWriter (context c) (event_of c "commission.accrued" "deal_room" dealRoomId
        (JObj [("revenueEventId", JStr (RevenueEventRow.id revenueEvent)); ("scheduleId", JStr (CommissionScheduleRow.id (rp_schedule p)));
               ("netDistributableMinor", JBig (rp_netDistributableMinor p)); ("entryCount", JNum (Z.of_nat (length ledgerEntries)))]));
  tret (revenueEvent, ledgerEntries).

Record RecordRevenueEventResponse : Type := {
  re_revenueEvent : RevenueEventRow.t;
  re_ledgerEntries : list CommissionAccrualRow.t;
  re_reconciliation : RevenueEventReconciliation;
  re_enqueued : string
}.

(** After the commit the reconciliation job is enqueued ([re_enqueued] is its
    payload) and the event is reconciled against the rows just written. *)
Definition recordRevenueEvent_finish (out : RevenueEventRow.t * list CommissionAccrualRow.t) : RecordRevenueEventResponse :=
  let '(revenueEvent, ledgerEntries) := out in
  {| re_revenueEvent := revenueEvent; re_ledgerEntries := ledgerEntries;
     re_reconciliation := reconcileRevenueEvent {|
       i_grossAmountMinor := RevenueEventRow.grossAmountMinor revenueEvent;
       i_deductionsMinor := RevenueEventRow.deductionsMinor revenueEvent;
       i_netDistributableMinor := RevenueEventRow.netDistributableMinor revenueEvent;
       i_ledgerEntries := map entryLike ledgerEntries |};
     re_enqueued := RevenueEventRow.id revenueEvent |}.

Definition listRevenueEvents (a : Actor) (dealRoomId : string) (db : Db) : res (list RevenueEventRow.t) :=
  let! dealRoom := loadDealRoom db dealRoomId in
  do! require (can a economics_list (resource ResourceType.revenue_event (Some (DealRoomRow.merchantOrgId dealRoom))) noContext);
  Ok (revenueEvent_listByDealRoom db dealRoomId).

(** ** getLedger *)

Definition ownRow (a : Actor) (r : CommissionAccrualRow.t) : bool :=
  bool_decide (Some (CommissionAccrualRow.recipientOrgId r) = organizationId a).

Definition getLedger (a : Actor) (dealRoomId : string) (db : Db) : res (list AccrualWithBalance) :=
  do! loadDealRoom db dealRoomId;
  let isCrossOrg := has_role CROSS_ORG_ECONOMICS_ROLES (role a) in
  let allRows := accrual_listByDealRoom db dealRoomId in
  let isRecipient := existsb (ownRow a) allRows in
  let isParticipant := negb isCrossOrg && has_role LEDGER_PARTY_ROLES (role a) && isRecipient in
  do! require (can a ledger_list (resource ResourceType.commission_accrual None) {| isSelf := None; isParticipant := Some isParticipant |});
  let visibleRows := if isCrossOrg then allRows else List.filter (ownRow a) allRows in
  groupIntoAccruals visibleRows.

(** ** recordPayment *)

Record PaymentPlan : Type := { pp_dealRoom : DealRoomRow.t; pp_paidAt : option Z }.

Definition recordPayment_pre (c : Call) (dealRoomId : string) (input : RecordPaymentRequest) (db : Db) : res PaymentPlan :=
  let! dealRoom := loadDealRoom db dealRoomId in
  do! require (can (actor c) ledger_record_payment (resource ResourceType.commission_accrual None) noContext);
  let! loaded := loadAndValidatePayments db dealRoomId (pr_payments input) in
  do! validateSingleRecipientAndCurrency loaded;
  Ok {| pp_dealRoom := dealRoom; pp_paidAt := dateOr (pr_paidAt input) (now c) |}.

Definition paymentRow (c : Call) (dealRoomId currency paymentId : string) (paidAt : option Z) (l : LoadedPayment) : CreateAccrualRow :=
  {| ca_accrualRootId := Some (lp_accrualRootId l); ca_entryType := Ledger.PAYMENT; ca_direction := Ledger.DEBIT;
     ca_amountMinor := lp_amountMinor l; ca_currency := currency; ca_dealRoomId := dealRoomId;
     ca_revenueEventId := CommissionAccrualRow.revenueEventId (lp_root l);
     ca_scheduleId := CommissionAccrualRow.scheduleId (lp_root l);
     ca_scheduleVersion := CommissionAccrualRow.scheduleVersion (lp_root l);
     ca_componentId := CommissionAccrualRow.componentId (lp_root l);
     ca_recipientOrgId := CommissionAccrualRow.recipientOrgId (lp_root l);
     ca_claimId := CommissionAccrualRow.claimId (lp_root l);
     ca_paymentId := Some paymentId; ca_reason := None; ca_approverUserId := None; ca_approverOrgId := None;
     ca_calculationVersion := ECONOMICS_ENGINE_VERSION; ca_inputVersions := ["payment:" +:+ paymentId]; ca_computedAt := paidAt;
     ca_createdByUserId := Some (userId (actor c)); ca_createdByOrgId := organizationId (actor c) |}.

(** The body under the advisory lock of the deal room. *)
Definition recordPayment_body (c : Call) (dealRoomId : string) (input : RecordPaymentRequest) (p : PaymentPlan)
    : Tx (CommissionPaymentRow.t * list CommissionAccrualRow.t) :=
  let* freshLoaded := fun db => tlift (loadAndValidatePayments db dealRoomId (pr_payments input)) db in
  let* (recipientOrgId, currency) := tlift (validateSingleRecipientAndCurrency freshLoaded) in
  let totalAmountMinor := foldl (fun sum l => sum + lp_amountMinor l) 0 freshLoaded in
  let* payment := payment_create {|
    cp_dealRoomId := dealRoomId; cp_recipientOrgId := recipientOrgId; cp_totalAmountMinor := totalAmountMinor; cp_currency := currency;
    cp_paidAt := pp_paidAt p; cp_reference := pr_reference input; cp_evidenceRef := pr_evidenceRef input;
    cp_createdByUserId := Some (userId (actor c)); cp_createdByOrgId := organizationId (actor c) |} in
  let* ledgerEntries := accrual_createMany
    (map (paymentRow c dealRoomId currency (CommissionPaymentRow.id payment) (pp_paidAt p)) freshLoaded) in
  do* auditWriter (context c) (audit_of c (Some (DealRoomRow.merchantOrgId (pp_dealRoom p))) "commission.paid" "commission_accrual" (CommissionPaymentRow.id payment)
        (JObj [("dealRoomId", JStr dealRoomId); ("recipientOrgId", JStr recipientOrgId); ("totalAmountMinor", JBig totalAmountMinor);
               ("accrualCount", JNum (Z.of_nat (length freshLoaded))); ("reference", JStr (pr_reference input))]));
  do* timelineWriter (context c) (event_of c "commission.paid" "deal_room" dealRoomId
        (JObj [("paymentId", JStr (CommissionPaymentRow.id payment)); ("recipientOrgId", JStr recipientOrgId);
               ("totalAmountMinor", JBig totalAmountMinor);
               ("accrualRootIds", JArr (map (fun l => JStr (lp_accrualRootId l)) freshLoaded))]));
  tret (payment, ledgerEntries).

Definition recordPayment_tx (c : Call) (dealRoomId : string) (input : RecordPaymentRequest) (p : PaymentPlan)
    : Tx (CommissionPaymentRow.t * list CommissionAccrualRow.t) :=
  fun db => runUniqueConstraintSafe (recordPayment_body c dealRoomId input p db)
              ("A payment with reference " +:+ pr_reference input +:+ " already exists.").

(** ** adjustLedger *)

Record AdjustPlan : Type := { ap_dealRoom : DealRoomRow.t; ap_amountMinor : Z }.

(** The chain of an accrual of this deal room that is not reversed, with its
    first row. *)
Definition loadAdjustable (db : Db) (dealRoomId accrualRootId : string)
    : res (CommissionAccrualRow.t * list CommissionAccrualRow.t) :=
  let chain := accrual_listByAccrualRoot db accrualRootId in
  match chain with
  | [] => Throw (notFound "Accrual not found on this deal room.")
  | root :: _ =>
      do! throw_if (negb (String.eqb (CommissionAccrualRow.dealRoomId root) dealRoomId)) (notFound "Accrual not found on this deal room.");
      let! balance := balanceOfChain chain in
      do! throw_if (bool_decide (status balance = Ledger.REVERSED)) (badRequest "has been REVERSED");
      Ok (root, chain)
  end.

Definition adjustLedger_pre (c : Call) (dealRoomId accrualRootId : string) (input : AdjustLedgerRequest) (db : Db) : res AdjustPlan :=
  let! dealRoom := loadDealRoom db dealRoomId in
  do! require (can (actor c) ledger_adjust (resource ResourceType.commission_accrual None) noContext);
  do! loadAdjustable db dealRoomId accrualRootId;
  let! amount := parseBigIntMinorUnits (Some (ar_amountMinor input)) "amountMinor" in
  do! throw_if (amount <=? 0) (badRequest "Adjustment amountMinor must be positive.");
  Ok {| ap_dealRoom := dealRoom; ap_amountMinor := amount |}.

Definition adjustmentRow (c : Call) (dealRoomId accrualRootId : string) (input : AdjustLedgerRequest) (amount : Z)
    (freshRoot : CommissionAccrualRow.t) : CreateAccrualRow :=
  {| ca_accrualRootId := Some accrualRootId; ca_entryType := Ledger.ADJUSTMENT; ca_direction := ar_direction input;
     ca_amountMinor := amount; ca_currency := CommissionAccrualRow.currency freshRoot; ca_dealRoomId := dealRoomId;
     ca_revenueEventId := CommissionAccrualRow.revenueEventId freshRoot;
     ca_scheduleId := CommissionAccrualRow.scheduleId freshRoot;
     ca_scheduleVersion := CommissionAccrualRow.scheduleVersion freshRoot;
     ca_componentId := CommissionAccrualRow.componentId freshRoot;
     ca_recipientOrgId := CommissionAccrualRow.recipientOrgId freshRoot;
     ca_claimId := CommissionAccrualRow.claimId freshRoot;
     ca_paymentId := None; ca_reason := Some (ar_reason input);
     ca_approverUserId := Some (userId (actor c)); ca_approverOrgId := organizationId (actor c);
     ca_calculationVersion := ECONOMICS_ENGINE_VERSION;
     ca_inputVersions := ["adjustment:" +:+ accrualRootId +:+ ":" +:+ toISOString (now c)]; ca_computedAt := Some (now c);
     ca_createdByUserId := Some (userId (actor c)); ca_createdByOrgId := organizationId (actor c) |}.

Definition adjustLedger_tx (c : Call) (dealRoomId accrualRootId : string) (input : AdjustLedgerRequest) (p : AdjustPlan)
    : Tx (CommissionAccrualRow.t * list CommissionAccrualRow.t) :=
  let* (freshRoot, freshChain) := fun db => tlift (loadAdjustable db dealRoomId accrualRootId) db in
  let* ledgerEntry := accrual_create (adjustmentRow c dealRoomId accrualRootId input (ap_amountMinor p) freshRoot) in
  do* auditWriter (context c) (audit_of c (Some (DealRoomRow.merchantOrgId (ap_dealRoom p))) "commission.adjusted" "commission_accrual" (CommissionAccrualRow.id ledgerEntry)
        (JObj [("accrualRootId", JStr accrualRootId); ("direction", JStr (Ledger.LedgerDirection_name (ar_direction input)));
               ("amountMinor", JBig (ap_amountMinor p)); ("reason", JStr (ar_reason input))]));
  do* timelineWriter (context c) (event_of c "commission.adjusted" "deal_room" dealRoomId
        (JObj [("accrualRootId", JStr accrualRootId); ("direction", JStr (Ledger.LedgerDirection_name (ar_direction input)));
               ("amountMinor", JBig (ap_amountMinor p))]));
  tret (ledgerEntry, freshChain).

(** The balance returned is computed from the chain read under the lock. *)
Definition adjustLedger_finish (out : CommissionAccrualRow.t * list CommissionAccrualRow.t)
    : res (CommissionAccrualRow.t * AccrualBalance) :=
  let '(ledgerEntry, chain) := out in
  let! balance := balanceOfChain (chain ++ [ledgerEntry]) in
  Ok (ledgerEntry, balance).

End Service.

(** * apps/worker/src/jobs/economics-accrual.job.ts

    The reconciliation pass the API enqueues for every revenue event: it
    accrues the event unless entries exist already.  The advisory lock on the
    event is part of the transaction being one step. *)
From S2P Require Import Receipt.
From S2P Require Import Idempotency.
From Stdlib Require Import Ascii.

Inductive JobStatus : Type := already_accrued | accrued | skipped_no_active_schedule.

Record EconomicsAccrualJobResult : Type := { j_status : JobStatus; j_entryCount : Z }.

Definition JobStatus_name (s : JobStatus) : string :=
  match s with
  | already_accrued => "already_accrued"
  | accrued => "accrued"
  | skipped_no_active_schedule => "skipped_no_active_schedule"
  end.

(** the result as the JSON the key table stores *)
Definition resultJson (r : EconomicsAccrualJobResult) : Json :=
  JObj [("status", JStr (JobStatus_name (j_status r))); ("entryCount", JNum (j_entryCount r))].

Definition skipped : EconomicsAccrualJobResult := {| j_status := skipped_no_active_schedule; j_entryCount := 0 |}.

(** [catch (err)]: an [EconomicsInvariantError] fails the job with a plain
    [Error]. *)
Definition invariantAsError {A} (m : res A) : res A :=
  match m with
  | Throw (EconomicsInvariantError e) => Throw (ErrorError ("economics-accrual: cannot compute the commission split: " +:+ e))
  | _ => m
  end.

Section Job.
Context `{Platform} (sha256_hex : list ascii -> string).

(** What runs under [withJobIdempotency]. *)
Definition accrueEvent (revenueEvent : RevenueEventRow.t) (dealRoom : DealRoomRow.t) (schedule : CommissionScheduleRow.t) : Tx Json :=
  let* targeted := treads (fun db => targetedComponents db schedule (RevenueEventRow.basis revenueEvent)) in
  do* tlift (throw_if (Nat.eqb (length targeted) 0) (ErrorError "economics-accrual: zero components covering basis"));
  let* split := tlift (invariantAsError (computeCommissionSplits {|
    netDistributableMinor := RevenueEventRow.netDistributableMinor revenueEvent; components := targeted;
    scheduleId := CommissionScheduleRow.id schedule; scheduleVersion := CommissionScheduleRow.versionNumber schedule;
    EconomicsEngine.now := Some (RevenueEventRow.recognizedAt revenueEvent); inputVersions := None |})) in
  let* ledgerEntries := accrual_createMany
    (map (accrualRowOf (RevenueEventRow.dealRoomId revenueEvent) (RevenueEventRow.id revenueEvent) (RevenueEventRow.currency revenueEvent)
            schedule split (Some (RevenueEventRow.recognizedAt revenueEvent)) None None) (entries split)) in
  do* auditRepository_write
    {| a_actorUserId := None; a_actorOrgId := None; a_actorRole := None;
       a_subjectOrgId := Some (DealRoomRow.merchantOrgId dealRoom); a_action := "commission.accrued"; a_resourceType := "revenue_event";
       a_resourceId := Some (RevenueEventRow.id revenueEvent); a_beforeValue := None;
       a_afterValue := Some (JObj [("dealRoomId", JStr (RevenueEventRow.dealRoomId revenueEvent));
         ("netDistributableMinor", JBig (RevenueEventRow.netDistributableMinor revenueEvent));
         ("entryCount", JNum (Z.of_nat (length ledgerEntries))); ("calculationVersion", JStr (calculationVersion split));
         ("trigger", JStr "worker_reconciliation")]);
       a_reason := None |} None;
  do* domainEventRepository_write
    {| t_eventType := "commission.accrued"; t_aggregateType := "deal_room"; t_aggregateId := RevenueEventRow.dealRoomId revenueEvent;
       t_payload := Some (JObj [("revenueEventId", JStr (RevenueEventRow.id revenueEvent)); ("scheduleId", JStr (CommissionScheduleRow.id schedule));
         ("netDistributableMinor", JBig (RevenueEventRow.netDistributableMinor revenueEvent));
         ("entryCount", JNum (Z.of_nat (length ledgerEntries)))]);
       t_actorUserId := None; t_actorOrgId := None; t_actorRole := None |} None;
  tret (resultJson {| j_status := accrued; j_entryCount := Z.of_nat (length ledgerEntries) |}).

(** The body of the transaction, under the lock on [revenueEventId]; [now] is
    the worker's clock. *)
Definition accrualJob_tx (revenueEventId : string) (now : Z) : Tx Json :=
  fun db =>
    match revenueEvent_findById db revenueEventId with
    | None => Ok (resultJson skipped, db)
    | Some revenueEvent =>
        let existing := accrual_listByRevenueEvent db revenueEventId in
        if Nat.ltb 0 (length existing)
        then Ok (resultJson {| j_status := already_accrued; j_entryCount := Z.of_nat (length existing) |}, db)
        else
          match dealRoom_findById db (RevenueEventRow.dealRoomId revenueEvent) with
          | None => Throw (ErrorError "economics-accrual: references DealRoom which does not exist")
          | Some dealRoom =>
              match schedule_findById db (RevenueEventRow.scheduleId revenueEvent) with
              | None => Ok (resultJson skipped, db)
              | Some schedule =>
                  if negb (isActive schedule) then Ok (resultJson skipped, db)
                  else withJobIdempotency sha256_hex
                    {| ji_scope := "worker.economics-accrual"; ji_key := revenueEventId;
                       ji_requestPayload := JObj [("revenueEventId", JStr revenueEventId); ("scheduleId", JStr (CommissionScheduleRow.id schedule));
                                                  ("scheduleVersion", JNum (CommissionScheduleRow.versionNumber schedule))] |}
                    now (accrueEvent revenueEvent dealRoom schedule) db
              end
          end
    end.

(** The existence check before the transaction: [None] skips it. *)
Definition accrualJob_pre (revenueEventId : string) (db : Db) : bool :=
  bool_decide (is_Some (revenueEvent_findById db revenueEventId)).

(** The whole job, run alone. *)
Definition economicsAccrualJob (revenueEventId : string) (now : Z) : Tx Json :=
  fun db => if accrualJob_pre revenueEventId db then accrualJob_tx revenueEventId now db else Ok (resultJson skipped, db).

End Job.
