(* ===== verification/EconomicsInvariant.v ===== *)
(** * What each economics transaction writes

    For every transaction of the economics service and of the accrual job, the
    rows it appends to the accruals, payments and revenue events, given that
    it commits.  [effect] states it; one lemma per handler proves it. *)
From S2P Require Import Prelude StableSort DomainStates AuthzMatrix Money EconomicsEngine Database Tables ApiShared.
From S2P Require Import EconomicsRepositories EconomicsService Receipt Idempotency.
From Stdlib Require Import Ascii.
#[local] Open Scope Z_scope.

Section Effects.
Context `{Platform}.

Record effect (db db' : Db) (A : list CommissionAccrualRow.t) (P : list CommissionPaymentRow.t) (E : list RevenueEventRow.t) : Prop := {
  eff_accruals : commissionAccruals db' = commissionAccruals db ++ A;
  eff_payments : commissionPayments db' = commissionPayments db ++ P;
  eff_events : revenueEvents db' = revenueEvents db ++ E;
  eff_dealRooms : dealRooms db' = dealRooms db;
  eff_clock : clock db' = clock db;
  eff_drawn : (drawn db <= drawn db')%nat;
  eff_fresh_accruals : fresh_rows db db' A;
  eff_fresh_payments : fresh_rows db db' P;
  eff_fresh_events : fresh_rows db db' E
}.

(** ** The rows of a batch of accruals *)

(** The rows [createMany] appends: identifiers in sequence. *)
Fixpoint batchRows (d : nat) (at_ : Z) (inputs : list (CreateAccrualRow * Z)) : list CommissionAccrualRow.t :=
  match inputs with
  | [] => []
  | (i, t) :: rest =>
      newAccrualRow (newId d) t
        {| createdAt := at_; createdByUserId := ca_createdByUserId i; createdByOrgId := ca_createdByOrgId i; updatedByUserId := None;
           version := 1; privacyClass := Roles.RESTRICTED; sourceType := SourceType.PLATFORM; sourceReference := None |} i
      :: batchRows (S d) at_ rest
  end.

Definition appendAccruals (rows : list CommissionAccrualRow.t) (db : Db) : Db :=
  set_commissionAccruals (commissionAccruals db ++ rows) (set_drawn (length rows + drawn db) db).

Lemma appendAccruals_nil db : appendAccruals [] db = db.
Proof. destruct db. unfold appendAccruals, set_commissionAccruals, set_drawn. simpl. by rewrite app_nil_r. Qed.

Lemma accrual_create_Ok input db row db' : accrual_create input db = Ok (row, db') ->
  accrual_validate input = Ok tt /\ exists t, ca_computedAt input = Some t /\
    batchRows (drawn db) (clock db) [(input, t)] = [row] /\ db' = appendAccruals [row] db.
Proof.
  unfold accrual_create. intros E. inv_tx. destruct v. split; [done|].
  destruct (ca_computedAt input) as [t|] eqn:Et; [|done]. simplify_eq/=. eexists. split; [reflexivity|]. split; [done|].
  destruct db. done.
Qed.

Lemma accrual_createMany_Ok inputs db rows db' : accrual_createMany inputs db = Ok (rows, db') ->
  Forall (fun i => accrual_validate i = Ok tt) inputs /\
  exists ts, map Some ts = map ca_computedAt inputs /\ rows = batchRows (drawn db) (clock db) (combine inputs ts) /\
    db' = appendAccruals rows db.
Proof.
  revert db rows db'. induction inputs as [|i inputs IH]; intros db rows db' E.
  { unfold accrual_createMany in E. simpl in E. inv_tx. split; [done|]. exists []. by rewrite appendAccruals_nil. }
  unfold accrual_createMany in E. simpl in E. inv_tx.
  apply accrual_create_Ok in H0 as (Hv & t & Ht & Hrow & ->).
  apply IH in H1 as (Hvs & ts & Hts & -> & ->). split; [by constructor|].
  exists (t :: ts). simpl in *. injection Hrow as <-. split; [by rewrite Ht, Hts|]. split; [done|].
  destruct db. unfold appendAccruals, set_commissionAccruals, set_drawn. simpl. rewrite <- app_assoc. simpl.
  f_equal. lia.
Qed.

Lemma batchRows_length d c inputs : length (batchRows d c inputs) = length inputs.
Proof. revert d. induction inputs as [|[i t] inputs IH]; intros d; simpl; [done|]. by rewrite IH. Qed.

Lemma batchRows_ids d c inputs : map row_id (batchRows d c inputs) = map newId (seq d (length inputs)).
Proof. revert d. induction inputs as [|[i t] inputs IH]; intros d; simpl; [done|]. by rewrite IH. Qed.

Lemma batchRows_elem d c inputs r : r ∈ batchRows d c inputs ->
  exists i t x, (i, t) ∈ inputs /\ (d <= x < d + length inputs)%nat /\ batchRows x c [(i, t)] = [r].
Proof.
  revert d. induction inputs as [|[i t] inputs IH]; intros d; simpl; [set_solver|].
  intros [->|Hr]%elem_of_cons.
  - exists i, t, d. split; [set_solver|]. split; [lia|done].
  - apply IH in Hr as (i' & t' & x & Hin & Hx & E). exists i', t', x. split; [set_solver|]. split; [lia|done].
Qed.

Lemma batchRows_clock d c inputs : Forall (fun r => row_createdAt r = c) (batchRows d c inputs).
Proof. revert d. induction inputs as [|[i t] inputs IH]; intros d; simpl; constructor; [done|]. apply IH. Qed.

Lemma newIds_NoDup d n : NoDup (map newId (seq d n)).
Proof. apply NoDup_fmap; [apply newId_inj|]. apply NoDup_seq. Qed.

Lemma batchRows_fresh db db' (d : nat) inputs :
  (drawn db <= d)%nat -> (d + length inputs <= drawn db')%nat -> fresh_rows db db' (batchRows d (clock db) inputs).
Proof.
  intros Hlo Hhi. split.
  - rewrite Forall_forall. intros r (i & t & x & _ & Hx & E)%batchRows_elem. simpl in E. injection E as <-.
    exists x. split; [lia|done].
  - rewrite batchRows_ids. apply newIds_NoDup.
  - apply batchRows_clock.
Qed.

(** ** The journal *)

Lemma effect_journalled au ev db db' A P E : effect db db' A P E -> effect db (journalled au ev db') A P E.
Proof.
  intros []. split; simpl; try done; [lia|..]; (eapply fresh_weaken; [|done]; simpl; lia).
Qed.

(** ** recordPayment *)

Lemma combine_same_date {A} (f : A -> CreateAccrualRow) (t : Z) (l : list A) ts :
  (forall x, x ∈ l -> ca_computedAt (f x) = Some t) -> map Some ts = map ca_computedAt (map f l) ->
  combine (map f l) ts = map (fun x => (f x, t)) l.
Proof.
  revert ts. induction l as [|x l IH]; intros [|t' ts] Hf; simpl; try done.
  rewrite (Hf x) by set_solver. intros [= -> Hts]. f_equal. apply IH; [|done]. intros; apply Hf; set_solver.
Qed.

Definition paymentRows (c : Call) (dealRoomId currency : string) (d : nat) (at_ paidAt : Z) (loaded : list LoadedPayment)
    : list CommissionAccrualRow.t :=
  batchRows (S d) at_ (map (fun l => (paymentRow c dealRoomId currency (newId d) (Some paidAt) l, paidAt)) loaded).

Lemma recordPayment_effect c dealRoomId input p db pay rows db' :
  recordPayment_tx c dealRoomId input p db = Ok ((pay, rows), db') ->
  exists loaded recipient currency paidAt,
    loadAndValidatePayments db dealRoomId (pr_payments input) = Ok loaded /\
    validateSingleRecipientAndCurrency loaded = Ok (recipient, currency) /\
    pp_paidAt p = Some paidAt /\
    rows = paymentRows c dealRoomId currency (drawn db) (clock db) paidAt loaded /\
    CommissionPaymentRow.id pay = newId (drawn db) /\
    CommissionPaymentRow.dealRoomId pay = dealRoomId /\
    CommissionPaymentRow.recipientOrgId pay = recipient /\
    CommissionPaymentRow.currency pay = currency /\
    CommissionPaymentRow.totalAmountMinor pay = sumZ (map lp_amountMinor loaded) /\
    CommissionPaymentRow.reference pay = pr_reference input /\
    (forall q, q ∈ commissionPayments db -> CommissionPaymentRow.reference q <> pr_reference input) /\
    effect db db' rows [pay] [].
Proof.
  unfold recordPayment_tx. rewrite runUniqueConstraintSafe_Ok. unfold recordPayment_body. intros E.
  apply tbind_Ok in E as (loaded & db1 & [Hl ->]%tlift_Ok & E).
  apply tbind_Ok in E as ([recipient currency] & db1 & [Hv ->]%tlift_Ok & E).
  apply tbind_Ok in E as (payment & db1 & Hp & E).
  apply tbind_Ok in E as (entries & db2 & Hr & E).
  apply journal_Ok in E as (au & ev & E & _). inv_tx. simplify_eq.
  unfold payment_create in Hp. inv_tx. simpl in *.
  destruct (pp_paidAt p) as [paidAt|] eqn:Hpaid; [|done]. simplify_eq/=.
  destruct (existsb _ _) eqn:Hex; [done|]. simplify_eq/=.
  apply accrual_createMany_Ok in Hr as (_ & ts & Hts & -> & ->). simpl in *.
  rewrite (combine_same_date _ v0) by done.
  eexists loaded, recipient, currency, v0. split_and!; try done.
  - rewrite <- (Z.add_0_l (sumZ _)), <- foldl_add_sumZ. by rewrite foldl_fmap.
  - intros q Hq E. rewrite <- not_true_iff_false in Hex. apply Hex, existsb_exists.
    exists q. split; [by apply list_elem_of_In|]. by apply String.eqb_eq.
  - apply effect_journalled. split; simpl; try done; try lia; try apply fresh_nil.
    + by rewrite app_nil_r.
    + apply batchRows_fresh; simpl; rewrite ?batchRows_length; lia.
    + split; simpl; [|repeat constructor; set_solver|by repeat constructor].
      constructor; [|constructor]. exists (drawn db). split; [lia|done].
Qed.

(** ** adjustLedger *)

Lemma adjustLedger_effect c dealRoomId root input p db entry chain db' :
  adjustLedger_tx c dealRoomId root input p db = Ok ((entry, chain), db') ->
  exists freshRoot,
    loadAdjustable db dealRoomId root = Ok (freshRoot, chain) /\
    batchRows (drawn db) (clock db) [(adjustmentRow c dealRoomId root input (ap_amountMinor p) freshRoot, now c)] = [entry] /\
    effect db db' [entry] [] [].
Proof.
  unfold adjustLedger_tx. intros E.
  apply tbind_Ok in E as ([freshRoot fc] & db1 & [Hl ->]%tlift_Ok & E).
  apply tbind_Ok in E as (row & db1 & Hr & E).
  apply journal_Ok in E as (au & ev & E & _). inv_tx. simplify_eq.
  apply accrual_create_Ok in Hr as (_ & t & [= <-] & Hrow & ->).
  exists freshRoot. split_and!; [done|done|]. apply effect_journalled.
  assert (fresh_rows db (appendAccruals [entry] db) [entry]) as Hfresh.
  { rewrite <- Hrow at 2. apply batchRows_fresh; simpl; lia. }
  split; simpl; try done; try lia; try apply fresh_nil; by rewrite app_nil_r.
Qed.

(** ** recordRevenueEvent *)

Definition splitRows (c : Call) (dealRoomId currency : string) (schedule : CommissionScheduleRow.t) (split : ComputeCommissionSplitsResult)
    (d : nat) (at_ recognizedAt : Z) : list CommissionAccrualRow.t :=
  batchRows (S d) at_ (map (fun e => (accrualRowOf dealRoomId (newId d) currency schedule split (Some recognizedAt)
    (Some (Actions.userId (actor c))) (Actions.organizationId (actor c)) e, recognizedAt)) (entries split)).

Lemma recordRevenueEvent_effect c dealRoomId input p db ev rows db' :
  recordRevenueEvent_tx c dealRoomId input p db = Ok ((ev, rows), db') ->
  exists recognizedAt,
    rp_recognizedAt p = Some recognizedAt /\
    rows = splitRows c dealRoomId (rr_currency input) (rp_schedule p) (rp_split p) (drawn db) (clock db) recognizedAt /\
    RevenueEventRow.id ev = newId (drawn db) /\
    RevenueEventRow.dealRoomId ev = dealRoomId /\
    RevenueEventRow.scheduleId ev = CommissionScheduleRow.id (rp_schedule p) /\
    RevenueEventRow.period ev = rr_period input /\
    RevenueEventRow.source ev = rr_source input /\
    RevenueEventRow.currency ev = rr_currency input /\
    RevenueEventRow.grossAmountMinor ev = rp_grossAmountMinor p /\
    RevenueEventRow.deductionsMinor ev = rp_deductionsMinor p /\
    RevenueEventRow.netDistributableMinor ev = rp_netDistributableMinor p /\
    (forall e, e ∈ revenueEvents db -> sameDealPeriodSource dealRoomId (rr_period input) (rr_source input) e = false) /\
    effect db db' rows [] [ev].
Proof.
  unfold recordRevenueEvent_tx. intros E.
  apply tbind_Ok in E as (event & db1 & He & E).
  apply tbind_Ok in E as (ledger & db2 & Hr & E).
  apply journal_Ok in E as (au & j & E & _). inv_tx. simplify_eq.
  unfold revenueEvent_create in He. inv_tx. simpl in *.
  destruct (rp_recognizedAt p) as [recognizedAt|] eqn:Hrec; [|done]. simplify_eq/=.
  destruct (revenueEvent_findByDealPeriodSource _ _ _ _) eqn:Hf; [done|]. simplify_eq/=.
  apply accrual_createMany_Ok in Hr as (_ & ts & Hts & -> & ->). simpl in *.
  rewrite (combine_same_date _ v3) by done.
  exists v3. split_and!; try done.
  - intros e He. apply list_elem_of_In in He. apply (find_none _ _ Hf) in He. exact He.
  - apply effect_journalled. split; simpl; try done; try lia; try apply fresh_nil.
    + by rewrite app_nil_r.
    + apply batchRows_fresh; simpl; rewrite ?batchRows_length; lia.
    + split; simpl; [|repeat constructor; set_solver|by repeat constructor].
      constructor; [|constructor]. exists (drawn db). split; [lia|done].
Qed.

(** ** The accrual job *)

(** On an event that has entries, or on none, the job writes nothing. *)
Lemma accrualJob_noop sha revenueEventId now db j db' :
  (forall e, e ∈ revenueEvents db -> RevenueEventRow.id e = revenueEventId ->
     accrual_listByRevenueEvent db revenueEventId <> []) ->
  accrualJob_tx sha revenueEventId now db = Ok (j, db') -> db' = db.
Proof.
  intros Hall. unfold accrualJob_tx. destruct (revenueEvent_findById db revenueEventId) as [e|] eqn:Hf; [|by intros [= _ <-]].
  apply findById_Some in Hf as [Hin Hid]. specialize (Hall e Hin Hid).
  destruct (accrual_listByRevenueEvent db revenueEventId); [done|]. simpl. by intros [= _ <-].
Qed.

End Effects.

(** * The invariant of the commission ledger

    What holds of the accruals, payments and revenue events between any two
    transactions, and the one lemma that re-establishes it after a transaction
    that appends rows. *)
From S2P Require Import EconomicsProps.
From Stdlib Require Import Sorted.
Import CommissionAccrualRow.

Section Inv.
Context `{Platform}.

(** ** Chains of one accrual *)

(** Every row of an accrual, oldest first. *)
Definition chain (db : Db) (x : string) : list t :=
  List.filter (fun e => String.eqb (accrualRootId e) x) (commissionAccruals db).

(** The columns every row copies from its root. *)
Definition statics (r : t) :=
  (dealRoomId r, revenueEventId r, scheduleId r, scheduleVersion r, componentId r, recipientOrgId r, claimId r, currency r).

(** The root row first, then its payments and adjustments. *)
Definition chain_wf (x : string) (l : list t) : Prop :=
  l = [] \/ exists root rest, l = root :: rest /\ id root = x /\ entryType root = Ledger.ACCRUAL /\
    Forall (fun e => (entryType e = Ledger.PAYMENT \/ entryType e = Ledger.ADJUSTMENT) /\ statics e = statics root) rest.

(** A row that starts a chain, or continues one of [db]. *)
Definition continues (db : Db) (r : t) : Prop :=
  (entryType r = Ledger.ACCRUAL /\ accrualRootId r = id r)
  \/ ((entryType r = Ledger.PAYMENT \/ entryType r = Ledger.ADJUSTMENT) /\
      exists root rest, chain db (accrualRootId r) = root :: rest /\ statics r = statics root).

Lemma chain_elem db x r : r ∈ chain db x <-> r ∈ commissionAccruals db /\ accrualRootId r = x.
Proof. unfold chain. rewrite elem_of_filter_list. by rewrite String.eqb_eq. Qed.

Lemma chain_append db db' A P E x : effect db db' A P E ->
  chain db' x = chain db x ++ List.filter (fun e => String.eqb (accrualRootId e) x) A.
Proof. intros [Ha _ _ _ _ _ _ _ _]. unfold chain. by rewrite Ha, List.filter_app. Qed.

Lemma chain_wf_append db db' A P E x :
  table_ok db (commissionAccruals db) -> effect db db' A P E -> Forall (continues db) A ->
  chain_wf x (chain db x) -> chain_wf x (chain db' x).
Proof.
  intros T Heff Hc Hx. rewrite (chain_append _ _ _ _ _ x Heff). pose proof (eff_fresh_accruals _ _ _ _ _ Heff) as F.
  set (new := List.filter _ A).
  assert (forall r, r ∈ new -> r ∈ A /\ accrualRootId r = x) as Hnew.
  { intros r [Hr E']%elem_of_filter_list. by rewrite String.eqb_eq in E'. }
  destruct Hx as [E0|(root & rest & E0 & Hid & Hty & Hrest)]; rewrite E0; simpl.
  - (* no such accrual yet: at most the new root *)
    assert (forall r, r ∈ new -> entryType r = Ledger.ACCRUAL /\ id r = x) as Hroot.
    { intros r (Hr & Hx)%Hnew. rewrite Forall_forall in Hc. destruct (Hc r Hr) as [[? Heq]|[_ (? & ? & Hch & _)]].
      - split; [done|congruence].
      - rewrite Hx, E0 in Hch. discriminate. }
    assert (NoDup (map row_id new)) as Hnd.
    { destruct F as [_ F2 _]. clear -F2. unfold new. induction A as [|a A IH]; simpl in *; [done|].
      apply NoDup_cons in F2 as [Fa F2]. destruct (String.eqb _ x); simpl; [|by apply IH]. apply NoDup_cons. split; [|by apply IH].
      intros (y & E' & [Hy _]%elem_of_filter_list)%list_elem_of_fmap. apply Fa. rewrite E'. apply list_elem_of_fmap. by exists y. }
    destruct new as [|r [|r2 new]]; [by left| |].
    + right. exists r, []. destruct (Hroot r ltac:(set_solver)) as [? ?]. split_and!; [done..|constructor].
    + destruct (Hroot r ltac:(set_solver)) as [_ I1], (Hroot r2 ltac:(set_solver)) as [_ I2].
      simpl in Hnd. apply NoDup_cons in Hnd as [Hnd _]. exfalso. apply Hnd. rewrite I1, I2. left.
  - right. exists root, (rest ++ new). split_and!; [done..|]. rewrite Forall_app. split; [done|].
    rewrite Forall_forall. intros r (Hr & Hx)%Hnew. rewrite Forall_forall in Hc.
    destruct (Hc r Hr) as [[Hacc Hroot]|[Hk (root' & rest' & Hch & Hst)]].
    + exfalso. assert (root ∈ commissionAccruals db) as Hold.
      { assert (root ∈ chain db x) as Hin%chain_elem by (rewrite E0; left). tauto. }
      apply (table_old_new db db' (commissionAccruals db) A root r T F Hold Hr). simpl. congruence.
    + rewrite Hx, E0 in Hch. injection Hch as <- <-. done.
Qed.

(** ** Rows and what they refer to *)

(** One ledger row against the events and payments it names. *)
Record row_ok (db : Db) (r : t) : Prop := {
  row_amount : 0 <= amountMinor r /\ (entryType r <> Ledger.ACCRUAL -> 0 < amountMinor r);
  row_credit : entryType r = Ledger.ACCRUAL -> direction r = Ledger.CREDIT;
  row_debit : entryType r = Ledger.PAYMENT -> direction r = Ledger.DEBIT;
  row_event : exists e, e ∈ revenueEvents db /\ RevenueEventRow.id e = revenueEventId r /\
    RevenueEventRow.dealRoomId e = dealRoomId r /\ RevenueEventRow.currency e = currency r;
  row_payment : forall q, paymentId r = Some q -> exists p, p ∈ commissionPayments db /\ CommissionPaymentRow.id p = q /\
    CommissionPaymentRow.dealRoomId p = dealRoomId r /\ CommissionPaymentRow.recipientOrgId p = recipientOrgId r /\
    CommissionPaymentRow.currency p = currency r;
  row_paid : entryType r = Ledger.PAYMENT <-> is_Some (paymentId r)
}.

Lemma row_ok_mono db db' A P E r : effect db db' A P E -> row_ok db r -> row_ok db' r.
Proof.
  intros [_ HP HE _ _ _ _ _ _] [R1 R2 R3 (e & He & R4) R5 R6]. split; try done.
  - exists e. rewrite HE. split; [set_solver|done].
  - intros q Hq. destruct (R5 q Hq) as (p & Hp & R7). exists p. rewrite HP. split; [set_solver|done].
Qed.

(** ACCRUAL rows of one event; rows of one payment. *)
Definition accruedRows (db : Db) (event : string) : list t :=
  List.filter (fun r => String.eqb (revenueEventId r) event && isAccrualRow r) (commissionAccruals db).
Definition paidRows (db : Db) (payment : string) : list t :=
  List.filter (fun r => bool_decide (paymentId r = Some payment)) (commissionAccruals db).

(** A recorded event is fully accrued: its ACCRUAL rows exist and sum to its
    net amount, which is what gross and deductions leave. *)
Definition event_settled (db : Db) (e : RevenueEventRow.t) : Prop :=
  RevenueEventRow.netDistributableMinor e = RevenueEventRow.grossAmountMinor e - RevenueEventRow.deductionsMinor e
  /\ 0 <= RevenueEventRow.netDistributableMinor e
  /\ accruedRows db (RevenueEventRow.id e) <> []
  /\ sumZ (map amountMinor (accruedRows db (RevenueEventRow.id e))) = RevenueEventRow.netDistributableMinor e.

(** A recorded payment is what its PAYMENT rows add up to. *)
Definition payment_traced (db : Db) (p : CommissionPaymentRow.t) : Prop :=
  sumZ (map amountMinor (paidRows db (CommissionPaymentRow.id p))) = CommissionPaymentRow.totalAmountMinor p.

Definition eventKey (e : RevenueEventRow.t) : string * string * string :=
  (RevenueEventRow.dealRoomId e, RevenueEventRow.period e, RevenueEventRow.source e).

Record ledger_ok (db : Db) : Prop := {
  lo_accruals : table_ok db (commissionAccruals db);
  lo_payments : table_ok db (commissionPayments db);
  lo_events : table_ok db (revenueEvents db);
  lo_rows : Forall (row_ok db) (commissionAccruals db);
  lo_chains : forall x, chain_wf x (chain db x);
  lo_settled : Forall (event_settled db) (revenueEvents db);
  lo_traced : Forall (payment_traced db) (commissionPayments db);
  lo_keys : NoDup (map eventKey (revenueEvents db));
  lo_references : NoDup (map CommissionPaymentRow.reference (commissionPayments db))
}.

(** The rows a transaction may append: they continue chains, refer to what
    exists, belong to a new event if they accrue and to a new payment if they
    pay, and settle the new event and the new payment. *)
Record appendable (db db' : Db) (A : list t) (P : list CommissionPaymentRow.t) (E : list RevenueEventRow.t) : Prop := {
  ap_continues : Forall (continues db) A;
  ap_rows : Forall (row_ok db') A;
  ap_accrues : forall r, r ∈ A -> entryType r = Ledger.ACCRUAL -> exists e, e ∈ E /\ RevenueEventRow.id e = revenueEventId r;
  ap_pays : forall r q, r ∈ A -> paymentId r = Some q -> exists p, p ∈ P /\ CommissionPaymentRow.id p = q;
  ap_settled : Forall (event_settled db') E;
  ap_traced : Forall (payment_traced db') P;
  ap_keys : NoDup (map eventKey E) /\ forall e e', e ∈ E -> e' ∈ revenueEvents db -> eventKey e <> eventKey e';
  ap_references : NoDup (map CommissionPaymentRow.reference P) /\
    forall p p', p ∈ P -> p' ∈ commissionPayments db -> CommissionPaymentRow.reference p <> CommissionPaymentRow.reference p'
}.

Lemma NoDup_map_app {A B} (f : A -> B) l1 l2 :
  NoDup (map f l1) -> NoDup (map f l2) -> (forall x y, x ∈ l2 -> y ∈ l1 -> f x <> f y) -> NoDup (map f (l1 ++ l2)).
Proof.
  intros H1 H2 Hne. rewrite map_app. apply NoDup_app. split_and!; [done| |done].
  intros z (x & -> & Hx)%list_elem_of_fmap (y & E & Hy)%list_elem_of_fmap. by apply (Hne y x).
Qed.

Lemma ledger_append db db' A P E :
  ledger_ok db -> effect db db' A P E -> appendable db db' A P E -> ledger_ok db'.
Proof.
  intros L Heff Ha. pose proof L as [LA LP LE LR LC LS LT LK LF].
  pose proof Heff as [EA EP EE _ Ec Ed FA FP FE].
  split; rewrite ?EA, ?EP, ?EE.
  - by apply (table_append db).
  - by apply (table_append db).
  - by apply (table_append db).
  - rewrite Forall_app. split; [|by apply Ha]. eapply Forall_impl; [exact LR|]. intros r. by eapply row_ok_mono.
  - intros x. eapply chain_wf_append; eauto. apply Ha.
  - rewrite Forall_app. split; [|by apply Ha]. rewrite Forall_forall in LS |- *. intros e He.
    destruct (LS e He) as (S1 & S2 & S3 & S4). unfold event_settled, accruedRows. rewrite EA, List.filter_app.
    rewrite (filter_none _ A); [by rewrite app_nil_r|]. intros r Hr. unfold isAccrualRow.
    case_bool_decide as Hacc; [|by rewrite andb_false_r]. rewrite andb_true_r. apply String.eqb_neq. intros E0.
    destruct (ap_accrues _ _ _ _ _ Ha r Hr Hacc) as (e' & He' & E1).
    apply (table_old_new db db' _ _ e e' LE FE He He'). simpl. congruence.
  - rewrite Forall_app. split; [|by apply Ha]. rewrite Forall_forall in LT |- *. intros p Hp.
    unfold payment_traced, paidRows. rewrite EA, List.filter_app. rewrite (filter_none _ A); [rewrite app_nil_r; by apply LT|].
    intros r Hr. apply bool_decide_eq_false. intros Hq. destruct (ap_pays _ _ _ _ _ Ha r _ Hr Hq) as (p' & Hp' & E1).
    apply (table_old_new db db' _ _ p p' LP FP Hp Hp'). simpl. congruence.
  - destruct Ha as [_ _ _ _ _ _ [K1 K2] _]. by apply NoDup_map_app.
  - destruct Ha as [_ _ _ _ _ _ _ [K1 K2]]. by apply NoDup_map_app.
Qed.

(** Nothing but the passage of time and drawn identifiers. *)
Lemma ledger_same db db' :
  ledger_ok db -> commissionAccruals db' = commissionAccruals db -> commissionPayments db' = commissionPayments db ->
  revenueEvents db' = revenueEvents db -> (drawn db <= drawn db')%nat -> clock db <= clock db' -> ledger_ok db'.
Proof.
  intros [LA LP LE LR LC LS LT LK LF] EA EP EE Hd Hc.
  assert (forall r, row_ok db r -> row_ok db' r) as Hrow by (intros r []; split; rewrite ?EE, ?EP; done).
  split; rewrite ?EA, ?EP, ?EE; try done; try (by apply (table_same db)).
  - eapply Forall_impl; [exact LR|exact Hrow].
  - intros x. unfold chain. rewrite EA. apply LC.
  - eapply Forall_impl; [exact LS|]. intros e. unfold event_settled, accruedRows. by rewrite EA.
  - eapply Forall_impl; [exact LT|]. intros p. unfold payment_traced, paidRows. by rewrite EA.
Qed.

Lemma ledger_effect_nil db db' : ledger_ok db -> effect db db' [] [] [] -> ledger_ok db'.
Proof.
  intros L [EA EP EE _ Ec Ed _ _ _]. apply (ledger_same db); rewrite ?EA, ?EP, ?EE, ?app_nil_r; try done. lia.
Qed.

End Inv.
