(* ===== verification/EconomicsBook.v ===== *)
(** * What the commission ledger promises

    The ledger as a map from accrual to account, with the three operations a
    finance team knows: accrue an event, pay a batch, adjust one account.  No
    reads before writes, no interleaving: an operation checks and acts on the
    present state.  A batch is checked entry by entry: each pays no more than
    was outstanding before the batch, so an account named once is safe and one
    named twice need not be.  Safety follows by rule induction; the service
    refines the book ([EconomicsSystem]). *)
From S2P Require Import Prelude DomainStates.
From stdpp Require Import relations.
#[local] Open Scope Z_scope.

Record Account : Type := {
  ac_deal : string;
  ac_event : string;
  ac_recipient : string;
  ac_currency : string;
  ac_credited : Z;
  ac_debited : Z;
  ac_paid : Z
}.

Definition outstanding (a : Account) : Z := ac_credited a - ac_debited a - ac_paid a.

Definition pay (amount : Z) (a : Account) : Account :=
  {| ac_deal := ac_deal a; ac_event := ac_event a; ac_recipient := ac_recipient a; ac_currency := ac_currency a;
     ac_credited := ac_credited a; ac_debited := ac_debited a; ac_paid := ac_paid a + amount |}.

Definition adjust (d : Ledger.LedgerDirection) (amount : Z) (a : Account) : Account :=
  {| ac_deal := ac_deal a; ac_event := ac_event a; ac_recipient := ac_recipient a; ac_currency := ac_currency a;
     ac_credited := ac_credited a + (if bool_decide (d = Ledger.CREDIT) then amount else 0);
     ac_debited := ac_debited a + (if bool_decide (d = Ledger.CREDIT) then 0 else amount);
     ac_paid := ac_paid a |}.

Notation Book := (gmap string Account).

(** What a batch pays to one account in total. *)
Definition due (batch : list (string * Z)) (x : string) : Z :=
  sumZ (map snd (List.filter (fun p => String.eqb (fst p) x) batch)).

Definition payAll (batch : list (string * Z)) (m : Book) : Book :=
  map_imap (fun x a => Some (pay (due batch x) a)) m.

(** One step, with batches of the kind [P]. *)
Inductive spec_step (P : list (string * Z) -> Prop) : Book -> Book -> Prop :=
| spec_accrue m new event :
    new <> ∅ -> m ##ₘ new ->
    (forall x a, m !! x = Some a -> ac_event a <> event) ->
    (forall x a, new !! x = Some a -> ac_event a = event /\ 0 <= ac_credited a /\ ac_debited a = 0 /\ ac_paid a = 0) ->
    spec_step P m (m ∪ new)
| spec_pay m batch deal recipient currency :
    batch <> [] -> P batch ->
    (forall x n, (x, n) ∈ batch -> exists a, m !! x = Some a /\ ac_deal a = deal /\ ac_recipient a = recipient /\
       ac_currency a = currency /\ 0 < n <= outstanding a) ->
    spec_step P m (payAll batch m)
| spec_adjust m x a d amount :
    m !! x = Some a -> 0 < amount ->
    spec_step P m (<[x := adjust d amount a]> m).

(** Batches that name no account twice, and all batches. *)
Definition once_each (batch : list (string * Z)) : Prop := NoDup (map fst batch).
Definition any_batch (batch : list (string * Z)) : Prop := True.

Lemma spec_step_mono (P Q : list (string * Z) -> Prop) m m' : (forall b, P b -> Q b) -> spec_step P m m' -> spec_step Q m m'.
Proof. intros PQ [m0 new ev H1 H2 H3 H4|m0 batch d r c H1 H2 H3|m0 x a d n H1 H2]; econstructor; eauto. Qed.

Lemma lookup_payAll batch m x : payAll batch m !! x = pay (due batch x) <$> m !! x.
Proof. unfold payAll. rewrite map_lookup_imap. by destruct (m !! x). Qed.

Lemma due_absent batch x : x ∉ map fst batch -> due batch x = 0.
Proof.
  unfold due. induction batch as [|[y n] batch IH]; [done|]. simpl. rewrite not_elem_of_cons. intros [Hne Hx].
  destruct (String.eqb_spec y x); [congruence|]. by apply IH.
Qed.

(** [x] occurs twice in [l]. *)
Definition twice (x : string) (l : list string) : Prop := exists l1 l2, l = l1 ++ x :: l2 /\ x ∈ l2.

Lemma twice_cons x y l : twice x l -> twice x (y :: l).
Proof. intros (l1 & l2 & -> & Hx). by exists (y :: l1), l2. Qed.

Lemma twice_head x l : x ∈ l -> twice x (x :: l).
Proof. by exists [], l. Qed.

Lemma once_not_twice x l : NoDup l -> ~ twice x l.
Proof. intros Nd (l1 & l2 & -> & Hx). apply NoDup_app in Nd as (_ & _ & Nd). by apply NoDup_cons in Nd as [Hn _]. Qed.

Lemma due_cons y n batch x : due ((y, n) :: batch) x = (if String.eqb y x then n else 0) + due batch x.
Proof. unfold due. cbn. by destruct (String.eqb y x). Qed.

(** What one entry pays is all that is due, unless the account is named twice. *)
Lemma due_entry batch x n : (x, n) ∈ batch -> due batch x = n \/ twice x (map fst batch).
Proof.
  induction batch as [|[y k] batch IH]; [by intros ?%elem_of_nil|]. rewrite due_cons. cbn [map fst]. intros [[= -> ->]|Hin]%elem_of_cons.
  - rewrite String.eqb_refl. destruct (decide (y ∈ map fst batch)) as [Hy|Hy]; [right; by apply twice_head|left]. rewrite due_absent by done. lia.
  - destruct (String.eqb_spec y x) as [->|_]; [right; apply twice_head, list_elem_of_fmap; by exists (x, n)|].
    destruct (IH Hin) as [<-|Ht]; [left; lia|right; by apply twice_cons].
Qed.

Lemma due_nonneg batch x : (forall n, (x, n) ∈ batch -> 0 < n) -> 0 <= due batch x.
Proof.
  intros Hn. induction batch as [|[y k] batch IH]; [done|]. rewrite due_cons. assert (0 <= due batch x) by (apply IH; intros n Hin; apply Hn; by right).
  destruct (String.eqb_spec y x) as [->|_]; [|lia]. specialize (Hn k ltac:(left)). lia.
Qed.

(** ** One step, account by account *)

(** Nobody is paid more than was ever credited to the account. *)
Definition account_safe (a : Account) : Prop := 0 <= ac_paid a <= ac_credited a /\ 0 <= ac_debited a.
Definition book_safe (m : Book) : Prop := map_Forall (fun _ a => account_safe a) m.

(** An account keeps its identity and its totals only grow. *)
Definition account_le (a a' : Account) : Prop :=
  ac_deal a' = ac_deal a /\ ac_event a' = ac_event a /\ ac_recipient a' = ac_recipient a /\ ac_currency a' = ac_currency a /\
  ac_credited a <= ac_credited a' /\ ac_debited a <= ac_debited a' /\ ac_paid a <= ac_paid a'.

Definition book_le (m m' : Book) : Prop := forall x a, m !! x = Some a -> exists a', m' !! x = Some a' /\ account_le a a'.

#[global] Instance account_le_preorder : PreOrder account_le.
Proof.
  split; [intros a; unfold account_le; split_and!; (done || lia)|].
  intros a1 a2 a3 H1 H2. unfold account_le in *. destruct_and!. split_and!; (congruence || lia).
Qed.

#[global] Instance book_le_preorder : PreOrder book_le.
Proof.
  split; [intros m x a Hx; by exists a|].
  intros m1 m2 m3 H1 H2 x a Hx. destruct (H1 x a Hx) as (a2 & Hx2 & L2). destruct (H2 x a2 Hx2) as (a3 & Hx3 & L3).
  exists a3. split; [done|by etransitivity].
Qed.

(** What a batch that passes its check does to one account. *)
Lemma paid_account P batch x a :
  P batch -> (forall n, (x, n) ∈ batch -> 0 < n <= outstanding a) ->
  account_le a (pay (due batch x) a) /\ (account_safe a -> account_safe (pay (due batch x) a) \/ exists b, P b /\ twice x (map fst b)).
Proof.
  intros HP Hb. assert (0 <= due batch x) as Hd by (apply due_nonneg; intros n Hn; apply (Hb n Hn)).
  split; [unfold account_le; cbn; split_and!; (done || lia)|]. intros [S1 S2]. destruct (decide (x ∈ map fst batch)) as [Hin|Hin].
  - apply list_elem_of_fmap in Hin as ([y n] & E & Hin). cbn in E. subst y. destruct (due_entry _ _ _ Hin) as [->|Ht]; [left|right; by exists batch].
    pose proof (Hb n Hin) as Ho. unfold outstanding in Ho. split; cbn; lia.
  - left. rewrite due_absent by done. split; cbn; lia.
Qed.

(** Every account of the new book is a safe new one, or an old one grown, and
    safe if it was safe and no batch named it twice. *)
Lemma spec_step_account P m m' x a' : spec_step P m m' -> m' !! x = Some a' ->
  (m !! x = None /\ account_safe a') \/
  exists a, m !! x = Some a /\ account_le a a' /\ (account_safe a -> account_safe a' \/ exists b, P b /\ twice x (map fst b)).
Proof.
  intros St. destruct St as [m new ev _ Hdisj _ Hnew|m batch d r c Hne HP Hb|m y a dir amount Hy Hamt].
  - intros [Hm|[Hm Hn]]%lookup_union_Some_raw; [right; exists a'; split_and!; [done|done|by left]|left].
    split; [done|]. destruct (Hnew x a' Hn) as (_ & ? & E1 & E2). split; lia.
  - rewrite lookup_payAll. intros (a & Ha & ->)%fmap_Some. right. exists a. split; [done|]. apply (paid_account P); [done|].
    intros n Hn. destruct (Hb x n Hn) as (a0 & Ha0 & _ & _ & _ & Hdue). rewrite Ha in Ha0. by injection Ha0 as <-.
  - intros [[<- <-]|[_ Hm]]%lookup_insert_Some; [|right; exists a'; split_and!; [done|done|by left]]. right. exists a. split; [done|].
    split; [unfold account_le, adjust; cbn; case_bool_decide; split_and!; (done || lia)|].
    intros [S1 S2]. left. unfold adjust. case_bool_decide; split; cbn; lia.
Qed.

Lemma spec_step_grows P m m' : spec_step P m m' -> book_le m m'.
Proof.
  intros St x a Ha. assert (is_Some (m' !! x)) as [a' Ha'].
  { destruct St as [m new ev _ Hdisj _ Hnew|m batch d r c Hne HP Hb|m y b dir amount Hy Hamt].
    - eexists. by apply lookup_union_Some_l.
    - rewrite lookup_payAll, Ha. by eexists.
    - destruct (decide (y = x)) as [->|Hne]; [rewrite lookup_insert_eq|rewrite lookup_insert_ne by done]; by eexists. }
  exists a'. split; [done|]. destruct (spec_step_account _ _ _ _ _ St Ha') as [[Hn _]|(b & Hb & L & _)]; congruence.
Qed.

(** ** The ledger is append-only, and safe when no batch names an account twice *)

Lemma spec_grows P m m' : rtc (spec_step P) m m' -> book_le m m'.
Proof. induction 1 as [m|m m1 m2 St _ IH]; [done|]. etransitivity; [by eapply spec_step_grows|done]. Qed.

Lemma spec_step_safe m m' : book_safe m -> spec_step once_each m m' -> book_safe m'.
Proof.
  intros Hm St x a' Ha'. destruct (spec_step_account _ _ _ _ _ St Ha') as [[_ S]|(a & Ha & _ & Hs)]; [done|].
  destruct (Hs (Hm x a Ha)) as [S|(b & Nd & Ht)]; [done|]. by destruct (once_not_twice x _ Nd).
Qed.

Lemma spec_safe m m' : book_safe m -> rtc (spec_step once_each) m m' -> book_safe m'.
Proof. intros Hm R. induction R as [m|m m1 m2 St _ IH]; [done|]. apply IH. by eapply spec_step_safe. Qed.

(** * The ledger tables as a book of accounts

    The abstraction of the accrual table to [EconomicsBook]'s book, and what the
    service's reads return in its terms. *)
From S2P Require Import StableSort AuthzMatrix Money EconomicsEngine.
From S2P Require Import EconomicsProps Database Tables ApiShared EconomicsRepositories.
From S2P Require Import EconomicsService EconomicsInvariant.
Import CommissionAccrualRow.
#[local] Open Scope Z_scope.

(** ** One chain as an account *)

Definition is_adjustment (d : Ledger.LedgerDirection) (r : t) : bool :=
  bool_decide (entryType r = Ledger.ADJUSTMENT) && bool_decide (direction r = d).
Definition is_payment (r : t) : bool := bool_decide (entryType r = Ledger.PAYMENT).

Definition amounts (f : t -> bool) (l : list t) : Z := sumZ (map amountMinor (List.filter f l)).

Definition accountOf (root : t) (l : list t) : Account :=
  {| ac_deal := dealRoomId root; ac_event := revenueEventId root; ac_recipient := recipientOrgId root; ac_currency := currency root;
     ac_credited := amountMinor root + amounts (is_adjustment Ledger.CREDIT) l;
     ac_debited := amounts (is_adjustment Ledger.DEBIT) l;
     ac_paid := amounts is_payment l |}.

Definition account (l : list t) : option Account :=
  match l with [] => None | root :: _ => Some (accountOf root l) end.

Lemma amounts_app f l1 l2 : amounts f (l1 ++ l2) = amounts f l1 + amounts f l2.
Proof. unfold amounts. by rewrite List.filter_app, map_app, sumZ_app. Qed.

Lemma amounts_cons f r l : amounts f (r :: l) = (if f r then amountMinor r else 0) + amounts f l.
Proof. unfold amounts. simpl. by destruct (f r). Qed.

Lemma sumBy_entryLike_payments l : sumBy EconomicsEngine.amountMinor Ledger.PAYMENT (map entryLike l) = amounts is_payment l.
Proof.
  induction l as [|r l IH]; [done|]. simpl. rewrite sumBy_cons, amounts_cons, IH. unfold is_type, is_payment. simpl. done.
Qed.

Lemma sumBy_entryLike_adjustments l :
  sumBy signedAmount Ledger.ADJUSTMENT (map entryLike l)
  = amounts (is_adjustment Ledger.CREDIT) l - amounts (is_adjustment Ledger.DEBIT) l.
Proof.
  induction l as [|r l IH]; [done|]. simpl. rewrite sumBy_cons, !amounts_cons, IH.
  unfold is_type, is_adjustment, signedAmount. simpl. destruct (entryType r), (direction r); simpl; lia.
Qed.

Section Book.
Context `{Platform}.

(** The engine's balance of a chain is the account's. *)
Lemma balanceOfChain_wf x root rest : chain_wf x (root :: rest) ->
  exists b, balanceOfChain (root :: rest) = Ok b /\ status b <> Ledger.REVERSED /\
    outstandingAmountMinor b = outstanding (accountOf root (root :: rest)) /\
    paidAmountMinor b = ac_paid (accountOf root (root :: rest)) /\
    originalAmountMinor b = amountMinor root.
Proof.
  intros [|(root' & rest' & [= <- <-] & _ & Hty & Hrest)]; [done|].
  assert (Forall (fun e => entryType e <> Ledger.ACCRUAL /\ entryType e <> Ledger.REVERSAL) rest) as Hk.
  { eapply Forall_impl; [exact Hrest|]. intros e [[->| ->] _]; done. }
  exists (balanceOf (amountMinor root) (map entryLike (root :: rest))). split.
  { unfold balanceOfChain. change (amountMinor root) with (EconomicsEngine.amountMinor (entryLike root)). apply balance_value.
    simpl. unfold is_type at 1. simpl. rewrite Hty. rewrite bool_decide_true by done. f_equal.
    apply filter_none. intros e (r & -> & Hr)%list_elem_of_fmap. rewrite Forall_forall in Hk. destruct (Hk r Hr).
    unfold is_type. simpl. by apply bool_decide_eq_false. }
  assert (existsType Ledger.REVERSAL (map entryLike (root :: rest)) = false) as Hrev.
  { apply not_true_iff_false. rewrite existsType_true. intros (e & (r & -> & Hr)%list_elem_of_fmap & E). simpl in E.
    apply elem_of_cons in Hr as [->|Hr]; [congruence|]. rewrite Forall_forall in Hk. by destruct (Hk r Hr). }
  unfold balanceOf. rewrite Hrev. cbn [status outstandingAmountMinor paidAmountMinor].
  rewrite sumBy_entryLike_adjustments, sumBy_entryLike_payments. unfold outstanding, accountOf. cbn [ac_credited ac_debited ac_paid].
  split; [|split_and!; (done || lia)]. repeat case_match; done.
Qed.

Lemma chain_wf_root x root rest : chain_wf x (root :: rest) -> id root = x.
Proof. by intros [|(? & ? & [= <- <-] & ? & _)]. Qed.

Lemma listByAccrualRoot_chain db x : ledger_ok db -> accrual_listByAccrualRoot db x = chain db x.
Proof. intros L. unfold accrual_listByAccrualRoot. apply findMany_chronological. apply L. Qed.

(** ** The book *)

Definition book (db : Db) : Book :=
  list_to_map (map (fun r => (id r, accountOf r (chain db (id r)))) (List.filter isAccrualRow (commissionAccruals db))).

Lemma accrual_is_root db r : ledger_ok db -> r ∈ commissionAccruals db -> entryType r = Ledger.ACCRUAL ->
  exists rest, chain db (id r) = r :: rest.
Proof.
  intros L Hr Hty. pose proof (lo_chains _ L (accrualRootId r)) as Hc.
  assert (r ∈ chain db (accrualRootId r)) as Hin by (by apply chain_elem).
  destruct Hc as [E|(root & rest & E & Hid & Hty' & Hrest)]; rewrite E in Hin; [set_solver|].
  apply elem_of_cons in Hin as [<-|Hin].
  - exists rest. by rewrite Hid.
  - rewrite Forall_forall in Hrest. destruct (Hrest r Hin) as [[?|?] _]; congruence.
Qed.

Lemma chain_root db x root rest : ledger_ok db -> chain db x = root :: rest ->
  root ∈ commissionAccruals db /\ id root = x /\ entryType root = Ledger.ACCRUAL.
Proof.
  intros L E. pose proof (lo_chains _ L x) as Hc. rewrite E in Hc. pose proof (chain_wf_root _ _ _ Hc) as Hid.
  destruct Hc as [|(? & ? & [= <- <-] & _ & Hty & _)]; [done|].
  assert (root ∈ chain db x) as [Hin _]%chain_elem by (rewrite E; left). done.
Qed.

Lemma lookup_book db x : ledger_ok db -> book db !! x = account (chain db x).
Proof.
  intros L. unfold book. pose proof (lo_accruals _ L) as [_ Hnd _ _].
  assert (NoDup (map fst (map (fun r => (id r, accountOf r (chain db (id r)))) (List.filter isAccrualRow (commissionAccruals db))))) as Hnd'.
  { rewrite map_map. simpl. clear -Hnd. induction (commissionAccruals db) as [|r l IH]; simpl in *; [constructor|].
    apply NoDup_cons in Hnd as [Hr Hnd]. destruct (isAccrualRow r); [|by apply IH]. simpl. constructor; [|by apply IH].
    intros (y & E & [Hy _]%elem_of_filter_list)%list_elem_of_fmap. apply Hr. apply list_elem_of_fmap. by exists y. }
  destruct (chain db x) as [|root rest] eqn:E; simpl.
  - apply not_elem_of_list_to_map_1. rewrite map_map. simpl. intros (r & -> & [Hr Hty]%elem_of_filter_list)%list_elem_of_fmap.
    apply bool_decide_eq_true in Hty. destruct (accrual_is_root db r L Hr Hty) as (rest & E'). congruence.
  - apply elem_of_list_to_map_1; [done|]. destruct (chain_root db x root rest L E) as (Hin & Hid & Hty).
    apply list_elem_of_fmap. exists root. rewrite Hid, E. split; [done|].
    apply elem_of_filter_list. split; [done|]. by apply bool_decide_eq_true.
Qed.

Lemma lookup_book_Some db x a : ledger_ok db -> book db !! x = Some a ->
  exists root rest, chain db x = root :: rest /\ a = accountOf root (root :: rest).
Proof.
  intros L. rewrite lookup_book by done. destruct (chain db x) as [|root rest]; simpl; [done|]. intros [= <-]. eauto.
Qed.

Lemma accountOf_app root l1 l2 :
  accountOf root (l1 ++ l2) =
  {| ac_deal := dealRoomId root; ac_event := revenueEventId root; ac_recipient := recipientOrgId root; ac_currency := currency root;
     ac_credited := ac_credited (accountOf root l1) + amounts (is_adjustment Ledger.CREDIT) l2;
     ac_debited := ac_debited (accountOf root l1) + amounts (is_adjustment Ledger.DEBIT) l2;
     ac_paid := ac_paid (accountOf root l1) + amounts is_payment l2 |}.
Proof. unfold accountOf. simpl. rewrite !amounts_app. f_equal; lia. Qed.

End Book.
