(* ===== verification/EconomicsSystem.v ===== *)
(** * The economics service under concurrency

    The handlers of the service and the accrual job as one [Handler], run by
    any number of clients at once.  Every transaction preserves [ledger_ok]
    and refines [EconomicsBook]; what follows for all reachable configurations is
    in [EconomicsTheorems]. *)
From S2P Require Import Prelude StableSort DomainStates AuthzMatrix Money EconomicsEngine.
From S2P Require Import EconomicsProps JsonText Database Tables ApiShared EconomicsRepositories.
From S2P Require Import EconomicsService Receipt Idempotency Transactions EconomicsInvariant.
From S2P Require Import EconomicsBook.
From stdpp Require Import relations.
From Stdlib Require Import Ascii.
#[local] Open Scope Z_scope.

Section System.
Context `{Platform} (sha256_hex : list ascii -> string).

(** ** The requests *)

Inductive EcoReq : Type :=
| CreateSchedule (c : Call) (dealRoomId : string) (input : CreateScheduleRequest)
| RecordRevenueEvent (c : Call) (dealRoomId : string) (input : RecordRevenueEventRequest)
| RecordPayment (c : Call) (dealRoomId : string) (input : RecordPaymentRequest)
| AdjustLedger (c : Call) (dealRoomId accrualRootId : string) (input : AdjustLedgerRequest)
| AccrualJob (revenueEventId : string) (now : Z).

Definition eco_plan (r : EcoReq) : Type :=
  match r with
  | CreateSchedule _ _ _ => SchedulePlan
  | RecordRevenueEvent _ _ _ => RevenuePlan
  | RecordPayment _ _ _ => PaymentPlan
  | AdjustLedger _ _ _ _ => AdjustPlan
  | AccrualJob _ _ => bool
  end.

Definition eco_out (r : EcoReq) : Type :=
  match r with
  | CreateSchedule _ _ _ => ScheduleDetail
  | RecordRevenueEvent _ _ _ => RevenueEventRow.t * list CommissionAccrualRow.t
  | RecordPayment _ _ _ => CommissionPaymentRow.t * list CommissionAccrualRow.t
  | AdjustLedger _ _ _ _ => CommissionAccrualRow.t * list CommissionAccrualRow.t
  | AccrualJob _ _ => Json
  end.

Definition eco_resp (r : EcoReq) : Type :=
  match r with
  | CreateSchedule _ _ _ => ScheduleDetail
  | RecordRevenueEvent _ _ _ => RecordRevenueEventResponse
  | RecordPayment _ _ _ => CommissionPaymentRow.t * list CommissionAccrualRow.t
  | AdjustLedger _ _ _ _ => CommissionAccrualRow.t * AccrualBalance
  | AccrualJob _ _ => Json
  end.

Definition eco_pre (r : EcoReq) (db : Db) : res (eco_plan r) :=
  match r with
  | CreateSchedule c d i => createSchedule_pre c d i db
  | RecordRevenueEvent c d i => recordRevenueEvent_pre c d i db
  | RecordPayment c d i => recordPayment_pre c d i db
  | AdjustLedger c d x i => adjustLedger_pre c d x i db
  | AccrualJob e _ => Ok (accrualJob_pre e db)
  end.

Definition eco_tx (r : EcoReq) : eco_plan r -> Tx (eco_out r) :=
  match r with
  | CreateSchedule c d i => createSchedule_tx c d i
  | RecordRevenueEvent c d i => recordRevenueEvent_tx c d i
  | RecordPayment c d i => recordPayment_tx c d i
  | AdjustLedger c d x i => adjustLedger_tx c d x i
  | AccrualJob e now => fun p => if p then accrualJob_tx sha256_hex e now else tret (resultJson skipped)
  end.

Definition eco_finish (r : EcoReq) : eco_plan r -> eco_out r -> res (eco_resp r) :=
  match r with
  | CreateSchedule _ _ _ => fun _ out => Ok out
  | RecordRevenueEvent _ _ _ => fun _ out => Ok (recordRevenueEvent_finish out)
  | RecordPayment _ _ _ => fun _ out => Ok out
  | AdjustLedger _ _ _ _ => fun _ out => adjustLedger_finish out
  | AccrualJob _ _ => fun _ out => Ok out
  end.

Definition economics : Handler :=
  {| Req := EcoReq; Plan := eco_plan; Out := eco_out; Resp := eco_resp;
     h_pre := eco_pre; h_look := fun _ p _ => p; h_tx := eco_tx; h_finish := eco_finish |}.

(** Everything else that happens on the platform: time passes, other services
    write their own tables and draw identifiers. *)
Record elsewhere (db db' : Db) : Prop := {
  el_accruals : commissionAccruals db' = commissionAccruals db;
  el_payments : commissionPayments db' = commissionPayments db;
  el_events : revenueEvents db' = revenueEvents db;
  el_drawn : (drawn db <= drawn db')%nat;
  el_clock : clock db <= clock db'
}.

(** ** createSchedule leaves the ledger alone *)

Lemma elsewhere_trans db1 db2 db3 : elsewhere db1 db2 -> elsewhere db2 db3 -> elsewhere db1 db3.
Proof. intros [] []. split; (congruence || lia). Qed.

Lemma elsewhere_refl db : elsewhere db db.
Proof. split; (done || lia). Qed.

(** A transaction body that never touches the ledger tables. *)
Definition off_ledger {A} (m : Tx A) : Prop := forall db a db', m db = Ok (a, db') -> elsewhere db db'.

Lemma off_bind {A B} (m : Tx A) (k : A -> Tx B) : off_ledger m -> (forall a, off_ledger (k a)) -> off_ledger (tbind m k).
Proof.
  intros Hm Hk db b db' (a & db1 & H1 & H2)%tbind_Ok. eapply elsewhere_trans; [by eapply Hm|by eapply Hk].
Qed.

Lemma off_lift {A} (f : Db -> res A) : off_ledger (fun db => tlift (f db) db).
Proof. intros db a db' [_ ->]%tlift_Ok. apply elsewhere_refl. Qed.

Lemma off_ret {A} (a : A) : off_ledger (tret a).
Proof. intros db b db' [= _ <-]. apply elsewhere_refl. Qed.

Lemma off_fresh : off_ledger freshId.
Proof. intros db a db' [= _ <-]. split; simpl; (done || lia). Qed.

Lemma off_mapM {A B} (f : A -> Tx B) l : (forall x, off_ledger (f x)) -> off_ledger (tmapM f l).
Proof.
  intros Hf. induction l as [|x l IH]; simpl; [apply off_ret|]. apply off_bind; [done|]. intros y.
  apply off_bind; [done|]. intros. apply off_ret.
Qed.

Lemma off_audit i c : off_ledger (auditRepository_write i c).
Proof. apply off_bind; [apply off_fresh|]. intros x db a db' [= _ <-]. split; simpl; (done || lia). Qed.

Lemma off_event i c : off_ledger (domainEventRepository_write i c).
Proof. apply off_bind; [apply off_fresh|]. intros x db a db' [= _ <-]. split; simpl; (done || lia). Qed.

Lemma off_updateStatus x st u : off_ledger (schedule_updateStatus x st u).
Proof.
  intros db a db'. unfold schedule_updateStatus. destruct (updateById _ _ _) as [[r t]|]; [|done]. intros [= _ <-].
  split; simpl; (done || lia).
Qed.

Lemma off_component i : off_ledger (component_create i).
Proof.
  apply off_bind; [apply (off_lift (fun _ => validateComponentTypeFields i))|]. intros _. apply off_bind; [apply off_fresh|].
  intros x db a db' [= _ <-]. split; simpl; (done || lia).
Qed.

Lemma off_schedule i : off_ledger (schedule_create i).
Proof.
  apply off_bind; [apply off_fresh|]. intros x. apply off_bind; [apply (off_lift (fun db => schedule_lineage db x _))|].
  intros [f v] db a db' [= _ <-]. split; simpl; (done || lia).
Qed.

Lemma createSchedule_off c d i p : off_ledger (createSchedule_tx c d i p).
Proof.
  unfold createSchedule_tx. apply off_bind; [apply off_schedule|]. intros sch.
  apply off_bind; [apply (off_lift (fun _ => Schedule.assertValidCommissionScheduleTransition "DRAFT" "ACTIVE"))|]. intros _.
  apply off_bind; [apply off_updateStatus|]. intros act.
  apply off_bind; [apply (off_lift (fun _ => mapM_res assertComponentBps (sr_components i)))|]. intros _.
  apply off_bind; [apply (off_lift (fun _ => mapM_res _ (sr_components i)))|]. intros rows.
  apply off_bind; [by apply off_mapM, off_component|]. intros comps.
  apply off_bind.
  { unfold supersede. destruct (sp_previous p); [|apply off_ret].
    apply off_bind; [apply off_updateStatus|]. intros. apply off_ret. }
  intros _. apply off_bind; [apply off_audit|]. intros _. apply off_bind; [apply off_event|]. intros _.
  apply off_bind; [apply (off_lift (fun _ => toCapFloorStatus act 0))|]. intros. apply off_ret.
Qed.

End System.

(** * Each economics transaction preserves the ledger and refines its spec

    Per handler: what its plan guarantees, that the rows it appends are
    [appendable], and which operation of [EconomicsBook] it is. *)
Import CommissionAccrualRow.
#[local] Open Scope Z_scope.

Section Commit.
Context `{Platform}.

(** ** Plans *)

(** The split of a plan hands out exactly the net amount, as credits. *)
Definition good_revenue (p : RevenuePlan) : Prop :=
  rp_netDistributableMinor p = rp_grossAmountMinor p - rp_deductionsMinor p
  /\ 0 <= rp_netDistributableMinor p
  /\ entries (rp_split p) <> []
  /\ sumZ (map e_amountMinor (entries (rp_split p))) = rp_netDistributableMinor p
  /\ Forall (fun e => 0 <= e_amountMinor e /\ e_direction e = Ledger.CREDIT) (entries (rp_split p)).

Lemma split_entries_good input r : computeCommissionSplits input = Ok r ->
  entries r <> [] /\ sumZ (map e_amountMinor (entries r)) = netDistributableMinor input
  /\ Forall (fun e => 0 <= e_amountMinor e /\ e_direction e = Ledger.CREDIT) (entries r).
Proof.
  intros [Hv ->]%split_inv. pose proof Hv as [(_ & Hne & _) _]. split_and!.
  - intros E. pose proof (splitEntries_ids input) as Hp. simpl in E. rewrite E in Hp. symmetry in Hp.
    apply Permutation_nil_r in Hp. apply Hne. by destruct (components input).
  - by apply splitEntries_sum, Hv.
  - rewrite Forall_forall. intros e (c & Hc & [[Hf ->]|[Hb ->]])%splitEntries_elem; simpl; (split; [|done]).
    + by eapply fixed_elem_amount.
    + apply shareAmount_quota; [|done]. apply validParts_goodBps; [apply Hv|]. intros E. rewrite E in Hb. set_solver.
Qed.

Lemma invariantAsBadRequest_Ok {A} (m : res A) a : invariantAsBadRequest m = Ok a -> m = Ok a.
Proof. by destruct m as [|[]]. Qed.

Lemma recordRevenueEvent_plan c d i db p : recordRevenueEvent_pre c d i db = Ok p -> good_revenue p.
Proof.
  unfold recordRevenueEvent_pre. intros E. inv_ok. destruct (List.find _ _) as [schedule|]; [|done]. inv_ok.
  match goal with E : invariantAsBadRequest _ = Ok _ |- _ => apply invariantAsBadRequest_Ok, split_entries_good in E; simpl in E end.
  destruct_and!. rewrite Z.ltb_ge in *. unfold good_revenue. simpl. split_and!; try done; lia.
Qed.

Lemma adjustLedger_plan c d x i db p : adjustLedger_pre c d x i db = Ok p -> 0 < ap_amountMinor p.
Proof. unfold adjustLedger_pre. intros E. inv_ok. simpl. rewrite Z.leb_gt in *. done. Qed.

(** ** recordRevenueEvent *)

Lemma splitRows_elem c d cur sch split n at_ t0 r : r ∈ splitRows c d cur sch split n at_ t0 ->
  exists e, e ∈ entries split /\ entryType r = Ledger.ACCRUAL /\ direction r = e_direction e /\ amountMinor r = e_amountMinor e /\
    accrualRootId r = id r /\ revenueEventId r = newId n /\ dealRoomId r = d /\ currency r = cur /\ paymentId r = None.
Proof.
  unfold splitRows. intros (i & t1 & x & Hin & _ & E)%batchRows_elem. apply list_elem_of_fmap in Hin as (e & [= -> ->] & He).
  simpl in E. injection E as <-. exists e. done.
Qed.

Lemma splitRows_sum c d cur sch split n at_ t0 :
  sumZ (map amountMinor (splitRows c d cur sch split n at_ t0)) = sumZ (map e_amountMinor (entries split)).
Proof.
  unfold splitRows. generalize (S n) as k. induction (entries split) as [|e es IH]; intros k; [done|].
  simpl. rewrite !sumZ_cons, IH. done.
Qed.

Lemma recordRevenueEvent_appendable c d i p db ev rows db' :
  ledger_ok db -> good_revenue p -> recordRevenueEvent_tx c d i p db = Ok ((ev, rows), db') ->
  effect db db' rows [] [ev] /\ appendable db db' rows [] [ev].
Proof.
  intros L (G1 & G2 & G3 & G4 & G5) E.
  apply recordRevenueEvent_effect in E as (t0 & _ & -> & Hid & Hd & _ & Hper & Hsrc & Hcur & Hg & Hded & Hnet & Hnone & Heff).
  split; [done|]. set (rows := splitRows _ _ _ _ _ _ _ _) in *.
  assert (forall r, r ∈ rows -> exists e, e ∈ entries (rp_split p) /\ entryType r = Ledger.ACCRUAL /\ direction r = e_direction e /\
    amountMinor r = e_amountMinor e /\ accrualRootId r = id r /\ revenueEventId r = RevenueEventRow.id ev /\ dealRoomId r = d /\
    currency r = rr_currency i /\ paymentId r = None) as Hrows by (intros r Hr; rewrite Hid; by eapply splitRows_elem).
  pose proof Heff as [EA EP EE _ _ _ _ _ FE].
  assert (accruedRows db' (RevenueEventRow.id ev) = rows) as Hacc.
  { unfold accruedRows. rewrite EA, List.filter_app, filter_none, filter_all; [done| |].
    - intros r Hr. destruct (Hrows r Hr) as (e & _ & Hty & _ & _ & _ & Hev & _). rewrite Hev, String.eqb_refl. simpl.
      by apply bool_decide_eq_true.
    - intros r Hr. apply andb_false_iff. left. apply String.eqb_neq. intros E0. pose proof (lo_rows _ L) as LR.
      rewrite Forall_forall in LR. destruct (row_event _ _ (LR r Hr)) as (e & He & Heid & _).
      apply (table_old_new db db' _ [ev] e ev (lo_events _ L) FE He); [set_solver|]. simpl. congruence. }
  split.
  - rewrite Forall_forall. intros r Hr. left. destruct (Hrows r Hr) as (e & ? & ? & ? & ? & ? & _). done.
  - rewrite Forall_forall. intros r Hr. destruct (Hrows r Hr) as (e & He & Hty & Hdir & Ham & Hroot & Hev & Hdeal & Hc & Hp).
    rewrite Forall_forall in G5. destruct (G5 e He) as [G6 G7]. split; try congruence.
    + rewrite Ham, Hty. split; [done|congruence].
    + exists ev. rewrite EE. split_and!; [set_solver|done|congruence|congruence].
    + rewrite Hty, Hp. split; [done|]. by intros [? ?].
  - intros r Hr _. destruct (Hrows r Hr) as (e & _ & _ & _ & _ & _ & Hev & _). exists ev. split; [set_solver|done].
  - intros r q Hr Hq. destruct (Hrows r Hr) as (e & _ & _ & _ & _ & _ & _ & _ & _ & Hp). congruence.
  - constructor; [|constructor]. unfold event_settled. rewrite Hacc, Hnet, Hg, Hded. split_and!; [done|done| |].
    + intros E0. apply G3. apply (f_equal length) in E0. unfold rows, splitRows in E0.
      rewrite batchRows_length, length_map in E0. by apply length_zero_iff_nil in E0.
    + unfold rows. by rewrite splitRows_sum.
  - constructor.
  - split; [repeat constructor; set_solver|]. intros e e' ->%list_elem_of_singleton He' Hk. unfold eventKey in Hk.
    specialize (Hnone e' He'). unfold sameDealPeriodSource in Hnone. injection Hk as K1 K2 K3.
    rewrite <- K1, <- K2, <- K3, Hd, Hper, Hsrc, !String.eqb_refl in Hnone. done.
  - split; [constructor|]. set_solver.
Qed.

(** ** recordPayment *)

(** The element of a batch that passed validation: it names the root of an
    accrual of this deal room that owes at least the amount. *)
Definition payable (db : Db) (d : string) (l : LoadedPayment) : Prop :=
  exists rest, chain db (lp_accrualRootId l) = lp_root l :: rest /\ dealRoomId (lp_root l) = d /\
    0 < lp_amountMinor l <= outstanding (accountOf (lp_root l) (chain db (lp_accrualRootId l))).

Lemma loadPayment_Ok db d item l : ledger_ok db -> loadPayment db d item = Ok l ->
  payable db d l /\ lp_accrualRootId l = pi_accrualRootId item.
Proof.
  intros L. unfold loadPayment. rewrite (listByAccrualRoot_chain db _ L).
  destruct (chain db (pi_accrualRootId item)) as [|root rest] eqn:Ec; [done|]. intros E. inv_ok.
  pose proof (lo_chains _ L (pi_accrualRootId item)) as Hc. rewrite Ec in Hc.
  destruct (balanceOfChain_wf _ _ _ Hc) as (b & Hb & _ & Hout & _ & _).
  match goal with E : balanceOfChain _ = Ok ?b', G : (outstandingAmountMinor ?b' <? _) = false |- _ =>
    rewrite Hb in E; injection E as <-; rewrite Hout in G end.
  rewrite Z.ltb_ge, Z.leb_gt, negb_false_iff, String.eqb_eq in *.
  split; [|done]. exists rest. simpl. rewrite Ec. done.
Qed.

Lemma loadAndValidatePayments_Ok db d items loaded : ledger_ok db -> loadAndValidatePayments db d items = Ok loaded ->
  Forall (payable db d) loaded /\ map lp_accrualRootId loaded = map pi_accrualRootId items.
Proof.
  intros L. unfold loadAndValidatePayments. rewrite mapM_res_Ok. induction 1 as [|i l items loaded Hl _ [IH1 IH2]]; [done|].
  apply loadPayment_Ok in Hl as [Hp Hid]; [|done]. split; [by constructor|]. simpl. by rewrite Hid, IH2.
Qed.

Lemma several_false l : several l = false -> forall x y, x ∈ l -> y ∈ l -> x = y.
Proof.
  unfold several. rewrite Nat.ltb_ge. intros Hs x y Hx Hy.
  assert (x ∈ list_to_set (C := gset string) l) as Hx' by (by apply elem_of_list_to_set).
  assert (y ∈ list_to_set (C := gset string) l) as Hy' by (by apply elem_of_list_to_set).
  destruct (decide (size (list_to_set (C := gset string) l) = 1%nat)) as [E|E].
  - exact (size_singleton_inv _ _ _ E Hx' Hy').
  - assert (size (list_to_set (C := gset string) l) = 0%nat) as E0 by lia. apply size_empty_inv in E0. set_solver.
Qed.

Lemma validateSingle_Ok loaded recipient cur : validateSingleRecipientAndCurrency loaded = Ok (recipient, cur) ->
  loaded <> [] /\ Forall (fun l => recipientOrgId (lp_root l) = recipient /\ currency (lp_root l) = cur) loaded.
Proof.
  unfold validateSingleRecipientAndCurrency. intros E. inv_ok. destruct loaded as [|l loaded]; [done|]. injection E as <- <-.
  split; [done|]. rewrite Forall_forall. intros x Hx.
  assert (forall f, several (map f (l :: loaded)) = false -> f x = f l) as Hf.
  { intros f Hs. apply (several_false _ Hs); apply list_elem_of_fmap; eexists; (split; [reflexivity|]); [done|left]. }
  split; [by apply (Hf (fun l => recipientOrgId (lp_root l)))|by apply (Hf (fun l => currency (lp_root l)))].
Qed.

Lemma paymentRows_elem c d cur n at_ t0 loaded r : r ∈ paymentRows c d cur n at_ t0 loaded ->
  exists l, l ∈ loaded /\ entryType r = Ledger.PAYMENT /\ direction r = Ledger.DEBIT /\ amountMinor r = lp_amountMinor l /\
    accrualRootId r = lp_accrualRootId l /\ paymentId r = Some (newId n) /\
    statics r = (d, revenueEventId (lp_root l), scheduleId (lp_root l), scheduleVersion (lp_root l), componentId (lp_root l),
                 recipientOrgId (lp_root l), claimId (lp_root l), cur).
Proof.
  unfold paymentRows. intros (i & t1 & x & Hin & _ & E)%batchRows_elem. apply list_elem_of_fmap in Hin as (l & [= -> ->] & Hl).
  simpl in E. injection E as <-. exists l. done.
Qed.

Lemma paymentRows_sum c d cur n at_ t0 loaded :
  sumZ (map amountMinor (paymentRows c d cur n at_ t0 loaded)) = sumZ (map lp_amountMinor loaded).
Proof.
  unfold paymentRows. generalize (S n) as k. induction loaded as [|l loaded IH]; intros k; [done|].
  simpl. rewrite !sumZ_cons, IH. done.
Qed.

(** The batch as the spec sees it. *)
Definition batchOf (loaded : list LoadedPayment) : list (string * Z) :=
  map (fun l => (lp_accrualRootId l, lp_amountMinor l)) loaded.

Lemma paymentRows_due c d cur n at_ t0 loaded x :
  amounts is_payment (List.filter (fun e => String.eqb (accrualRootId e) x) (paymentRows c d cur n at_ t0 loaded)) = due (batchOf loaded) x
  /\ forall dir, amounts (is_adjustment dir) (List.filter (fun e => String.eqb (accrualRootId e) x) (paymentRows c d cur n at_ t0 loaded)) = 0.
Proof.
  unfold paymentRows, due. generalize (S n) as k. induction loaded as [|l loaded IH]; intros k; [done|].
  destruct (IH (S k)) as [IH1 IH2]. simpl. destruct (String.eqb (lp_accrualRootId l) x); [|by split].
  simpl. rewrite amounts_cons, sumZ_cons, IH1. split; [done|]. intros dir. rewrite amounts_cons. unfold is_adjustment at 1. simpl. apply IH2.
Qed.

Lemma payable_static db d l recipient cur : payable db d l -> recipientOrgId (lp_root l) = recipient -> currency (lp_root l) = cur ->
  (d, revenueEventId (lp_root l), scheduleId (lp_root l), scheduleVersion (lp_root l), componentId (lp_root l),
   recipientOrgId (lp_root l), claimId (lp_root l), cur) = statics (lp_root l).
Proof. intros (rest & _ & Hd & _) Hr Hc. unfold statics. by rewrite Hd, Hc. Qed.

Lemma recordPayment_appendable c d i p db pay rows db' :
  ledger_ok db -> recordPayment_tx c d i p db = Ok ((pay, rows), db') ->
  effect db db' rows [pay] [] /\ appendable db db' rows [pay] [].
Proof.
  intros L E.
  apply recordPayment_effect in E as (loaded & rcp & cur & t0 & Hl & Hv & _ & -> & Hid & Hd & Hr & Hc & Htot & Href & Hfree & Heff).
  split; [done|]. apply loadAndValidatePayments_Ok in Hl as [Hpay _]; [|done]. apply validateSingle_Ok in Hv as [_ Hsame].
  rewrite Forall_forall in Hpay, Hsame. set (rows := paymentRows _ _ _ _ _ _ _) in *.
  assert (forall r, r ∈ rows -> exists l, l ∈ loaded /\ entryType r = Ledger.PAYMENT /\ direction r = Ledger.DEBIT /\
    amountMinor r = lp_amountMinor l /\ accrualRootId r = lp_accrualRootId l /\ paymentId r = Some (CommissionPaymentRow.id pay) /\
    statics r = statics (lp_root l)) as Hrows.
  { intros r Hr'. rewrite Hid. destruct (paymentRows_elem _ _ _ _ _ _ _ _ Hr') as (l & Hl & ? & ? & ? & ? & ? & Hst).
    exists l. destruct (Hsame l Hl). rewrite <- (payable_static db d l rcp cur) by auto. done. }
  pose proof Heff as [EA EP EE _ _ _ _ FP _].
  split.
  - rewrite Forall_forall. intros r Hr'. right. destruct (Hrows r Hr') as (l & Hl & Hty & _ & _ & Hroot & _ & Hst).
    destruct (Hpay l Hl) as (rest & Hch & _). split; [by left|]. exists (lp_root l), rest. by rewrite Hroot.
  - rewrite Forall_forall. intros r Hr'. destruct (Hrows r Hr') as (l & Hl & Hty & Hdir & Ham & Hroot & Hp & Hst).
    destruct (Hpay l Hl) as (rest & Hch & Hdl & Hpos), (Hsame l Hl) as [Hrl Hcl]. unfold statics in Hst.
    injection Hst as S1 S2 _ _ _ S6 _ S8. split; try congruence.
    + rewrite Ham. split; [lia|]. intros _. lia.
    + destruct (chain_root db _ _ _ L Hch) as (Hin & _ & _). pose proof (lo_rows _ L) as LR. rewrite Forall_forall in LR.
      destruct (row_event _ _ (LR _ Hin)) as (e & He & R1 & R2 & R3). exists e. rewrite EE, app_nil_r.
      split_and!; [done|congruence|congruence|congruence].
    + intros q Hq. exists pay. rewrite EP. split_and!; [set_solver|congruence|congruence|congruence|congruence].
    + rewrite Hty, Hp. split; [eauto|done].
  - intros r Hr' Hty. destruct (Hrows r Hr') as (l & _ & Hty' & _). congruence.
  - intros r q Hr' Hq. destruct (Hrows r Hr') as (l & _ & _ & _ & _ & _ & Hp & _). exists pay. split; [set_solver|congruence].
  - constructor.
  - constructor; [|constructor]. unfold payment_traced, paidRows. rewrite EA, List.filter_app, filter_none, filter_all.
    + rewrite Htot. apply paymentRows_sum.
    + intros r Hr'. apply bool_decide_eq_true. by destruct (Hrows r Hr') as (l & _ & _ & _ & _ & _ & Hp & _).
    + intros r Hr'. apply bool_decide_eq_false. intros Hq. pose proof (lo_rows _ L) as LR. rewrite Forall_forall in LR.
      destruct (row_payment _ _ (LR r Hr') _ Hq) as (q & Hqin & Hqid & _).
      apply (table_old_new db db' _ [pay] q pay (lo_payments _ L) FP Hqin); [set_solver|]. simpl. congruence.
  - split; [constructor|]. set_solver.
  - split; [repeat constructor; set_solver|]. intros q q' ->%list_elem_of_singleton Hq'. rewrite Href. intros E.
    by apply (Hfree q' Hq').
Qed.

(** ** adjustLedger *)

Lemma loadAdjustable_Ok db d x root l : ledger_ok db -> loadAdjustable db d x = Ok (root, l) ->
  l = chain db x /\ (exists rest, chain db x = root :: rest) /\ dealRoomId root = d.
Proof.
  intros L. unfold loadAdjustable. rewrite (listByAccrualRoot_chain db _ L).
  destruct (chain db x) as [|root' rest] eqn:Ec; [done|]. intros E. inv_ok.
  rewrite negb_false_iff, String.eqb_eq in *. split_and!; [done|by exists rest|done].
Qed.

Lemma adjustLedger_appendable c d x i p db entry l db' :
  ledger_ok db -> 0 < ap_amountMinor p -> adjustLedger_tx c d x i p db = Ok ((entry, l), db') ->
  effect db db' [entry] [] [] /\ appendable db db' [entry] [] [] /\
  exists root rest, l = root :: rest /\ chain db x = root :: rest /\ entryType entry = Ledger.ADJUSTMENT /\
    direction entry = ar_direction i /\ amountMinor entry = ap_amountMinor p /\ accrualRootId entry = x.
Proof.
  intros L Hpos E. apply adjustLedger_effect in E as (root & Hl & Hrow & Heff). split; [done|].
  apply loadAdjustable_Ok in Hl as (-> & (rest & Hch) & Hd); [|done].
  simpl in Hrow. injection Hrow as Hrow. pose proof Heff as [EA EP EE _ _ _ _ _ _].
  destruct (chain_root db _ _ _ L Hch) as (Hin & _ & _). pose proof (lo_rows _ L) as LR. rewrite Forall_forall in LR.
  destruct (row_event _ _ (LR _ Hin)) as (e & He & R1 & R2 & R3).
  assert (entryType entry = Ledger.ADJUSTMENT /\ direction entry = ar_direction i /\ amountMinor entry = ap_amountMinor p /\
    accrualRootId entry = x /\ paymentId entry = None /\ statics entry = statics root) as (Hty & Hdir & Ham & Hx & Hp & Hst).
  { rewrite <- Hrow. unfold statics. simpl. by rewrite Hd. }
  unfold statics in Hst. pose proof Hst as Hst'. injection Hst' as S1 S2 _ _ _ S6 _ S8.
  split; [|by exists root, rest].
  split; try (by constructor); try (split; [constructor|set_solver]); try apply Forall_singleton.
  - right. split; [by right|]. exists root, rest. by rewrite Hx.
  - split; try congruence.
    + rewrite Ham. split; [lia|]. intros _. lia.
    + exists e. rewrite EE, app_nil_r. split_and!; [done|congruence|congruence|congruence].
    + rewrite Hty, Hp. split; [done|]. by intros [? ?].
  - intros r ->%list_elem_of_singleton Hacc. congruence.
  - intros r q ->%list_elem_of_singleton Hq. congruence.
Qed.

End Commit.

(** * Refinement of the ledger specification, transaction by transaction *)
Import CommissionAccrualRow.
#[local] Open Scope Z_scope.

Section Refine.
Context `{Platform}.

Lemma amounts_zero f l : (forall r, r ∈ l -> f r = false) -> amounts f l = 0.
Proof. intros Hf. unfold amounts. by rewrite filter_none. Qed.

Lemma amounts_one f r : amounts f [r] = if f r then amountMinor r else 0.
Proof. rewrite amounts_cons. unfold amounts, sumZ. simpl. lia. Qed.

Lemma book_same db db' : commissionAccruals db' = commissionAccruals db -> book db' = book db.
Proof. intros E. unfold book, chain. by rewrite E. Qed.

(** A chain that exists is only extended; one that does not starts with a
    new root. *)
Lemma old_chain db db' A P E x root rest : ledger_ok db -> effect db db' A P E -> chain db x = root :: rest ->
  forall r, r ∈ A -> accrualRootId r = x -> accrualRootId r <> id r.
Proof.
  intros L Heff Ec r Hr Hx Hid. destruct (chain_root db x root rest L Ec) as (Hin & Hroot & _).
  apply (table_old_new db db' _ A root r (lo_accruals _ L) (eff_fresh_accruals _ _ _ _ _ Heff) Hin Hr). simpl. congruence.
Qed.

(** ** Accrual *)

Lemma recordRevenueEvent_refines P c d i p db ev rows db' :
  ledger_ok db -> good_revenue p -> recordRevenueEvent_tx c d i p db = Ok ((ev, rows), db') -> spec_step P (book db) (book db').
Proof.
  intros L G E. destruct (recordRevenueEvent_appendable _ _ _ _ _ _ _ _ L G E) as [Heff Happ].
  pose proof (ledger_append _ _ _ _ _ L Heff Happ) as L'. destruct G as (_ & _ & G3 & _ & G5).
  apply recordRevenueEvent_effect in E as (t0 & _ & Erows & Hid & _).
  assert (forall r, r ∈ rows -> entryType r = Ledger.ACCRUAL /\ accrualRootId r = id r /\ 0 <= amountMinor r /\ revenueEventId r = RevenueEventRow.id ev) as Hrows.
  { intros r Hr. rewrite Erows in Hr. apply splitRows_elem in Hr as (e & He & ? & _ & Ham & ? & ? & _).
    rewrite Forall_forall in G5. destruct (G5 e He). split_and!; (congruence || lia). }
  assert (forall x root rest, chain db x = root :: rest -> chain db' x = chain db x) as Hold.
  { intros x root rest Ec. rewrite (chain_append _ _ _ _ _ x Heff), filter_none; [by rewrite app_nil_r|].
    intros r Hr. apply String.eqb_neq. intros Hx. exact (old_chain _ _ _ _ _ x root rest L Heff Ec r Hr Hx (proj1 (proj2 (Hrows r Hr)))). }
  assert (book db ⊆ book db') as Hsub.
  { apply map_subseteq_spec. intros x a Ha. apply lookup_book_Some in Ha as (root & rest & Ec & ->); [|done].
    rewrite lookup_book, (Hold _ _ _ Ec), Ec by done. done. }
  rewrite <- (map_difference_union _ _ Hsub). apply spec_accrue with (event := RevenueEventRow.id ev).
  - assert (exists r0, r0 ∈ rows) as [r0 Hr0].
    { destruct rows as [|r0 rows]; [|exists r0; left]. exfalso. apply G3. symmetry in Erows. unfold splitRows in Erows.
      apply (f_equal length) in Erows. rewrite batchRows_length, length_map in Erows. by apply length_zero_iff_nil in Erows. }
    destruct (Hrows r0 Hr0) as (Hty & Hroot & _).
    intros E0. assert (book db' !! id r0 = book db !! id r0) as E1.
    { rewrite <- (map_difference_union _ _ Hsub), E0. by rewrite (right_id_L ∅ (∪)). }
    rewrite !lookup_book in E1 by done. destruct (chain db (id r0)) as [|root rest] eqn:Ec.
    + destruct (accrual_is_root db' r0 L') as (rest & Ec'); [|done|by rewrite Ec' in E1].
      rewrite (eff_accruals _ _ _ _ _ Heff). set_solver.
    + exact (old_chain _ _ _ _ _ _ _ _ L Heff Ec r0 Hr0 Hroot Hroot).
  - by apply map_disjoint_difference_r1.
  - intros x a Ha. apply lookup_book_Some in Ha as (root & rest & Ec & ->); [|done]. simpl. intros E0.
    destruct (chain_root db _ _ _ L Ec) as (Hin & _ & _). pose proof (lo_rows _ L) as LR. rewrite Forall_forall in LR.
    destruct (row_event _ _ (LR _ Hin)) as (e & He & Heid & _).
    apply (table_old_new db db' _ [ev] e ev (lo_events _ L) (eff_fresh_events _ _ _ _ _ Heff) He); [set_solver|]. simpl. congruence.
  - intros x a [Ha Hnone]%lookup_difference_Some. apply lookup_book_Some in Ha as (root & rest & Ec' & ->); [|done].
    rewrite lookup_book in Hnone by done. rewrite (chain_append _ _ _ _ _ x Heff) in Ec'.
    destruct (chain db x) as [|? ?]; [|done]. simpl in Ec'.
    assert (forall r, r ∈ root :: rest -> r ∈ rows) as Hin.
    { intros r. rewrite <- Ec'. by intros [Hr _]%elem_of_filter_list. }
    destruct (Hrows root (Hin root ltac:(left))) as (_ & _ & Hpos & Hev). simpl.
    rewrite !amounts_zero; [split_and!; (done || lia)| | |];
      intros r Hr%Hin; destruct (Hrows r Hr) as (Hty & _); unfold is_payment, is_adjustment; by rewrite Hty.
Qed.

(** ** Payment *)

(** The book after a committed payment: every account paid its total due. *)
Lemma recordPayment_book c d i p db pay rows db' :
  ledger_ok db -> recordPayment_tx c d i p db = Ok ((pay, rows), db') ->
  exists loaded, loadAndValidatePayments db d (pr_payments i) = Ok loaded /\ Forall (payable db d) loaded /\ map lp_accrualRootId loaded = map pi_accrualRootId (pr_payments i) /\
    loaded <> [] /\ Forall (fun l => recipientOrgId (lp_root l) = CommissionPaymentRow.recipientOrgId pay /\
                                     currency (lp_root l) = CommissionPaymentRow.currency pay) loaded /\
    book db' = payAll (batchOf loaded) (book db).
Proof.
  intros L E. destruct (recordPayment_appendable _ _ _ _ _ _ _ _ L E) as [Heff Happ].
  pose proof (ledger_append _ _ _ _ _ L Heff Happ) as L'.
  apply recordPayment_effect in E as (loaded & rcp & cur & t0 & Hl & Hv & _ & Erows & _ & _ & Hrcp & Hcur & _).
  pose proof Hl as Hload. apply loadAndValidatePayments_Ok in Hl as [Hpay Hids]; [|done]. apply validateSingle_Ok in Hv as [Hne Hsame].
  exists loaded. split_and!; try done; [by rewrite Hrcp, Hcur|].
  apply map_eq. intros x. rewrite lookup_payAll, !lookup_book by done. rewrite (chain_append _ _ _ _ _ x Heff).
  destruct (paymentRows_due c d cur (drawn db) (clock db) t0 loaded x) as [Hdue Hadj]. rewrite <- Erows in Hdue, Hadj.
  destruct (chain db x) as [|root rest] eqn:Ec.
  - rewrite filter_none; [done|]. intros r Hr. apply String.eqb_neq. intros Hx. rewrite Erows in Hr.
    apply paymentRows_elem in Hr as (l & Hl & _ & _ & _ & Hroot & _). rewrite Forall_forall in Hpay.
    destruct (Hpay l Hl) as (rest & Hch & _). rewrite <- Hroot, Hx, Ec in Hch. discriminate.
  - simpl. rewrite app_comm_cons, accountOf_app, Hdue, !Hadj. simpl. unfold EconomicsBook.pay. simpl. do 2 f_equal; lia.
Qed.

(** The batch a payment request names. *)
Definition batch_of (i : RecordPaymentRequest) (batch : list (string * Z)) : Prop := map fst batch = map pi_accrualRootId (pr_payments i).

Lemma recordPayment_refines c d i p db pay rows db' :
  ledger_ok db -> recordPayment_tx c d i p db = Ok ((pay, rows), db') -> spec_step (batch_of i) (book db) (book db').
Proof.
  intros L E. destruct (recordPayment_book _ _ _ _ _ _ _ _ L E) as (loaded & _ & Hpay & Hids & Hne & Hsame & ->).
  apply spec_pay with (deal := d) (recipient := CommissionPaymentRow.recipientOrgId pay) (currency := CommissionPaymentRow.currency pay).
  { by destruct loaded. }
  { unfold batch_of, batchOf. rewrite map_map. exact Hids. }
  intros x n (l & [= -> ->] & Hl)%list_elem_of_fmap. rewrite Forall_forall in Hpay, Hsame.
  destruct (Hpay l Hl) as (rest & Hch & Hd & Hamt), (Hsame l Hl) as [Hr Hc].
  exists (accountOf (lp_root l) (chain db (lp_accrualRootId l))). rewrite lookup_book, Hch by done. split; [done|].
  split; [done|]. split; [done|]. split; [done|]. by rewrite <- Hch.
Qed.

(** ** Adjustment *)

Lemma adjustLedger_refines c d x i p db entry l db' :
  ledger_ok db -> 0 < ap_amountMinor p -> adjustLedger_tx c d x i p db = Ok ((entry, l), db') ->
  exists a, book db !! x = Some a /\ book db' = <[x := adjust (ar_direction i) (ap_amountMinor p) a]> (book db).
Proof.
  intros L Hpos E.
  destruct (adjustLedger_appendable _ _ _ _ _ _ _ _ _ L Hpos E) as (Heff & Happ & root & rest & _ & Hch & Hty & Hdir & Ham & Hx).
  pose proof (ledger_append _ _ _ _ _ L Heff Happ) as L'.
  exists (accountOf root (root :: rest)). rewrite lookup_book, Hch by done. split; [done|].
  apply map_eq. intros y. rewrite lookup_book, (chain_append _ _ _ _ _ y Heff) by done. simpl. rewrite Hx.
  destruct (decide (x = y)) as [<-|Hne].
  - rewrite lookup_insert_eq, String.eqb_refl, Hch. change (account ((root :: rest) ++ [entry]) = Some (adjust (ar_direction i) (ap_amountMinor p) (accountOf root (root :: rest)))).
    cbn [account app]. rewrite app_comm_cons, accountOf_app, !amounts_one. unfold adjust, is_adjustment, is_payment. rewrite Hty, Hdir, Ham.
    f_equal. simpl. destruct (ar_direction i); simpl; f_equal; lia.
  - rewrite lookup_insert_ne, lookup_book by done. rewrite (proj2 (String.eqb_neq x y)) by done. by rewrite app_nil_r.
Qed.

End Refine.
