(* ===== verification/EconomicsTheorems.v ===== *)
(** * A concrete run of the economics service

    One deal room, one schedule with a single full-rate component, one revenue
    event of 1000 and requests against it: the inputs of the witnesses and of
    the counterexamples. *)
From S2P Require Import Prelude DomainStates AuthzMatrix Authz EconomicsEngine Database ApiShared.
From S2P Require Import EconomicsRepositories EconomicsService Transactions EconomicsSystem.
From Stdlib Require Import Ascii.
Import Roles Actions.
#[local] Open Scope Z_scope.

#[global] Instance sampleId_inj : Inj (=) (=) (fun n : nat => "id-" +:+ pretty n).
Proof. intros n m E. by apply (inj _), (inj _) in E. Qed.

#[export] Instance samplePlatform : Platform.
Proof. refine {| newId n := "id-" +:+ pretty n; parseDate _ := None; collate := String.compare |}. by intros n E. Defined.

Definition sampleSha (t : list ascii) : string := "hash".

Definition sampleBase : Base :=
  {| createdAt := 0; createdByUserId := None; createdByOrgId := None; updatedByUserId := None; version := 1;
     Database.privacyClass := RESTRICTED; sourceType := SourceType.PLATFORM; sourceReference := None |}.

Definition sampleDeal : DealRoomRow.t :=
  {| DealRoomRow.id := "deal"; DealRoomRow.opportunityId := "opp"; DealRoomRow.rfqId := "rfq"; DealRoomRow.selectedQuoteId := "quote";
     DealRoomRow.merchantOrgId := "merchant"; DealRoomRow.providerOrgId := "provider"; DealRoomRow.status := DealRoom.LIVE;
     DealRoomRow.nextAction := None; DealRoomRow.base := sampleBase |}.

Definition sampleDb : Db := set_dealRooms [sampleDeal] emptyDb.

Definition sampleCall (r : PersonaRole) (org : string) (at_ : Z) : Call :=
  {| actor := {| userId := "user"; organizationId := Some org; role := Some r; membershipId := Some "m" |};
     context := {| requestId := "req"; correlationId := "cor"; ApiShared.ipClass := "private"; ApiShared.userAgentClass := "browser" |};
     now := at_ |}.

Definition owner : Call := sampleCall PLATFORM_OWNER "platform" 1000.

Definition sampleSchedule : CreateScheduleRequest :=
  {| sr_basis := Schedule.NET_PLATFORM_REVENUE; sr_capMinor := None; sr_floorMinor := None; sr_survivalMonths := None;
     sr_description := None; sr_supersedesScheduleId := None;
     sr_components := [ {| ci_recipientType := Recipient.CONTRIBUTOR; ci_recipientOrgId := "agent"; ci_componentType := Ledger.PERCENTAGE_BPS;
       ci_bps := Some 10000; ci_fixedAmountMinor := None; ci_calculationBasis := None; ci_priority := 0; ci_claimId := None |} ] |}.

Definition sampleRevenue : RecordRevenueEventRequest :=
  {| rr_basis := Schedule.NET_PLATFORM_REVENUE; rr_period := "2026-08"; rr_source := "volume"; rr_grossAmountMinor := "1000";
     rr_deductionsMinor := None; rr_currency := "EUR"; rr_recognizedAt := None |}.

Definition samplePayment (reference : string) (items : list (string * string)) : RecordPaymentRequest :=
  {| pr_payments := map (fun p => {| pi_accrualRootId := fst p; pi_amountMinor := snd p |}) items;
     pr_reference := reference; pr_evidenceRef := None; pr_paidAt := None |}.

Definition sampleAdjustment (d : Ledger.LedgerDirection) (amount : string) : AdjustLedgerRequest :=
  {| ar_direction := d; ar_amountMinor := amount; ar_reason := "correction" |}.

Notation sampleEco := (economics sampleSha).

Definition after (r : EcoReq) (db : Db) : Db := fst (serve sampleEco r db).

(** The schedule, then the event: the accrual's id is the one drawn after the
    event's. *)
Definition scheduledDb : Db := Eval vm_compute in after (CreateSchedule owner "deal" sampleSchedule) sampleDb.
Definition accruedDb : Db := Eval vm_compute in after (RecordRevenueEvent owner "deal" sampleRevenue) scheduledDb.

(** * What the economics service guarantees under concurrency *)
From S2P Require Import StableSort Money.
From S2P Require Import EconomicsProps JsonText Tables.
From S2P Require Import Receipt Idempotency EconomicsInvariant.
From S2P Require Import EconomicsBook.
From stdpp Require Import relations.
#[local] Open Scope Z_scope.

Section Theorems.
Context `{Platform} (sha256_hex : list ascii -> string).

#[local] Notation eco := (economics sha256_hex).

(** A payment batch that names no accrual twice. *)
Definition distinct_batch (r : EcoReq) : Prop :=
  match r with
  | RecordPayment _ _ i => NoDup (map pi_accrualRootId (pr_payments i))
  | _ => True
  end.

(** What the plan of a request guarantees, whatever commits in between. *)
Definition plan_ok (r : EcoReq) : eco_plan r -> Prop :=
  match r with
  | RecordRevenueEvent _ _ _ => good_revenue
  | AdjustLedger _ _ _ _ => fun p => 0 < ap_amountMinor p
  | CreateSchedule _ _ _ | RecordPayment _ _ _ | AccrualJob _ _ => fun _ => True
  end.

Lemma plan_ok_pre r db p : eco_pre r db = Ok p -> plan_ok r p.
Proof.
  destruct r as [c d i|c d i|c d i|c d x i|e now]; simpl; intros E; try done.
  - by eapply recordRevenueEvent_plan.
  - by eapply adjustLedger_plan.
Qed.

Lemma elsewhere_ledger db db' : ledger_ok db -> elsewhere db db' -> ledger_ok db'.
Proof. intros L []. by apply (ledger_same db). Qed.

Lemma elsewhere_book db db' : elsewhere db db' -> book db' = book db.
Proof. intros []. by apply book_same. Qed.

Lemma listByRevenueEvent_nonempty db e : ledger_ok db -> e ∈ revenueEvents db ->
  accrual_listByRevenueEvent db (RevenueEventRow.id e) <> [].
Proof.
  intros L He E. pose proof (lo_settled _ L) as LS. rewrite Forall_forall in LS. destruct (LS e He) as (_ & _ & Hne & _).
  unfold accrual_listByRevenueEvent in E. rewrite findMany_chronological in E by apply L.
  apply Hne. unfold accruedRows. apply filter_none. intros r Hr.
  destruct (String.eqb _ _) eqn:Eq; [|done]. exfalso.
  assert (r ∈ []) as Hin; [|set_solver]. rewrite <- E. by apply elem_of_filter_list.
Qed.

Lemma job_noop r now db j db' : ledger_ok db -> eco_tx sha256_hex (AccrualJob r now) true db = Ok (j, db') -> db' = db.
Proof.
  intros L. simpl. apply accrualJob_noop. intros e He <-. by apply listByRevenueEvent_nonempty.
Qed.

Lemma eco_tx_ledger r p db out db' :
  ledger_ok db -> plan_ok r p -> eco_tx sha256_hex r p db = Ok (out, db') -> ledger_ok db'.
Proof.
  intros L Hp E. destruct r as [c d i|c d i|c d i|c d x i|e now].
  - eapply elsewhere_ledger; [done|]. by eapply createSchedule_off.
  - destruct out as [ev rows]. simpl in E. destruct (recordRevenueEvent_appendable _ _ _ _ _ _ _ _ L Hp E).
    by eapply ledger_append.
  - destruct out as [pay rows]. simpl in E. destruct (recordPayment_appendable _ _ _ _ _ _ _ _ L E). by eapply ledger_append.
  - destruct out as [entry l]. simpl in E. destruct (adjustLedger_appendable _ _ _ _ _ _ _ _ _ L Hp E) as (? & ? & _).
    by eapply ledger_append.
  - destruct p; [|by injection E as _ <-]. apply job_noop in E; [by subst|done].
Qed.

(** The batches a request may pay. *)
Definition request_batch (r : EcoReq) (batch : list (string * Z)) : Prop :=
  match r with RecordPayment _ _ i => batch_of i batch | _ => False end.

Lemma request_once r batch : distinct_batch r -> request_batch r batch -> once_each batch.
Proof. destruct r; cbn; try done. unfold batch_of, once_each. by intros Nd ->. Qed.

Lemma eco_tx_refines r p db out db' : ledger_ok db -> plan_ok r p -> eco_tx sha256_hex r p db = Ok (out, db') ->
  book db' = book db \/ spec_step (request_batch r) (book db) (book db').
Proof.
  intros L Hp E. destruct r as [c d i|c d i|c d i|c d x i|e now].
  - left. apply elsewhere_book. by eapply createSchedule_off.
  - destruct out as [ev rows]. right. by eapply recordRevenueEvent_refines.
  - destruct out as [pay rows]. right. by eapply recordPayment_refines.
  - destruct out as [entry l]. destruct (adjustLedger_refines _ _ _ _ _ _ _ _ _ L Hp E) as (a & Ha & ->). right. by apply spec_adjust.
  - left. destruct p; [|simpl in E; unfold tret in E; inversion E; reflexivity]. apply job_noop in E as ->; [reflexivity|done].
Qed.

#[local] Notation run sent := (reaches eco elsewhere sent).

Lemma reachable_ledger sent db s : ledger_ok db -> run sent db s -> ledger_ok (store s).
Proof.
  intros L R. apply (invariant_reaches eco elsewhere sent ledger_ok (fun r p _ => plan_ok r p)) with (db := db); try done.
  - intros db0 r p _ _ E. exact (plan_ok_pre _ _ _ E).
  - intros db0 r p out db' L0 Hp E. exact (eco_tx_ledger _ _ _ _ _ L0 Hp E).
  - intros db0 db' L0 Hs. by eapply elsewhere_ledger.
Qed.

(** With requests whose batches are all of the kind [P]. *)
Lemma reachable_book sent (P : list (string * Z) -> Prop) db s : (forall r batch, sent r -> request_batch r batch -> P batch) ->
  ledger_ok db -> run sent db s -> rtc (spec_step P) (book db) (book (store s)).
Proof.
  intros HP L R.
  apply (simulation eco elsewhere sent ledger_ok (fun r p _ => sent r /\ plan_ok r p)) with (spec_step := spec_step P) (alpha := book) (db := db) (s := s); try done.
  - intros db0 r p Hs _ E. split; [done|]. exact (plan_ok_pre _ _ _ E).
  - intros db0 r p out db' L0 [_ Hp] E. exact (eco_tx_ledger _ _ _ _ _ L0 Hp E).
  - intros db0 db' L0 Hs. by eapply elsewhere_ledger.
  - intros db0 r p out db' L0 [Hs Hp] E. destruct (eco_tx_refines _ _ _ _ _ L0 Hp E) as [->|St]; [done|].
    apply rtc_once. eapply spec_step_mono; [|exact St]. intros b. by apply HP.
  - intros db0 db' L0 Hs. by rewrite (elsewhere_book _ _ Hs).
Qed.

(** *** Who was paid too much *)

(** An accepted payment request named the accrual twice. *)
Definition named_twice (ans : list (Answer eco)) (x : string) : Prop :=
  exists c d i out, @answer eco (RecordPayment c d i) (Ok out) ∈ ans /\ twice x (map pi_accrualRootId (pr_payments i)).

Lemma named_more ans a x : named_twice ans x -> named_twice (ans ++ [a]) x.
Proof. intros (c & d & i & out & Hin & Ht). exists c, d, i, out. split; [apply elem_of_app; by left|done]. Qed.

(** What the book and the answers say of each account. *)
Definition accountable (ans : list (Answer eco)) (db : Db) : Prop :=
  map_Forall (fun x a => 0 <= ac_paid a /\ (account_safe a \/ named_twice ans x)) (book db).

Lemma accountable_more ans a db : accountable ans db -> accountable (ans ++ [a]) db.
Proof. intros K x v Hv. destruct (K x v Hv) as [H0 [S|N]]; (split; [done|]); [by left|right; by apply named_more]. Qed.

Lemma accountable_tx ans db r p out db' : ledger_ok db -> plan_ok r p -> eco_tx sha256_hex r p db = Ok (out, db') ->
  accountable ans db -> accountable (ans ++ [@answer eco r (eco_finish r p out)]) db'.
Proof.
  intros L Hp E K. destruct (eco_tx_refines _ _ _ _ _ L Hp E) as [Eb|St].
  { apply (accountable_more _ _ db') . unfold accountable in *. by rewrite Eb. }
  intros x a' Ha'. destruct (spec_step_account _ _ _ _ _ St Ha') as [[_ S]|(a & Ha & Le & Hs)]; [split; [apply S|by left]|].
  destruct (K x a Ha) as [H0 Ka]. split; [unfold account_le in Le; lia|].
  destruct Ka as [S|N]; [|right; by apply named_more]. destruct (Hs S) as [S'|(b & Hb & Ht)]; [by left|right].
  destruct r as [c d i|c d i|c d i|c d y i|e now]; try done. exists c, d, i, out.
  split; [apply elem_of_app; right; left|]. by rewrite <- Hb.
Qed.

Lemma reachable_accountable sent db s : ledger_ok db -> book_safe (book db) -> run sent db s -> accountable (answered s) (store s).
Proof.
  intros L Hsafe R. apply (answers_reaches eco elsewhere sent ledger_ok (fun r p _ => plan_ok r p)) with (db := db); try done.
  - intros db0 r p _ _ E. exact (plan_ok_pre _ _ _ E).
  - intros db0 r p out db' L0 Hp E. exact (eco_tx_ledger _ _ _ _ _ L0 Hp E).
  - intros db0 db' L0 Hs. by eapply elsewhere_ledger.
  - intros ans db0 r p out db' _ L0 Hp E. by eapply accountable_tx.
  - intros ans db0 r e. apply accountable_more.
  - intros ans db0 db' _ Hs K. unfold accountable in *. by rewrite (elsewhere_book _ _ Hs).
  - intros x a Ha. split; [apply (Hsafe x a Ha)|left; exact (Hsafe x a Ha)].
Qed.

(** Rows are only ever appended. *)
Definition extends (db db' : Db) : Prop :=
  commissionAccruals db `prefix_of` commissionAccruals db' /\
  commissionPayments db `prefix_of` commissionPayments db' /\
  revenueEvents db `prefix_of` revenueEvents db'.

#[local] Instance extends_preorder : PreOrder extends.
Proof.
  split; [by intros db|]. intros d1 d2 d3 (? & ? & ?) (? & ? & ?). split_and!; by etransitivity.
Qed.

Lemma elsewhere_extends db db' : elsewhere db db' -> extends db db'.
Proof. intros []. unfold extends. split_and!; by apply reflexive_eq. Qed.

Lemma effect_extends db db' A P E : effect db db' A P E -> extends db db'.
Proof. intros []. unfold extends. split_and!; eexists; eauto. Qed.

Lemma eco_tx_extends r p db out db' :
  ledger_ok db -> plan_ok r p -> eco_tx sha256_hex r p db = Ok (out, db') -> extends db db'.
Proof.
  intros L Hp E. destruct r as [c d i|c d i|c d i|c d x i|e now].
  - apply elsewhere_extends. by eapply createSchedule_off.
  - destruct out as [ev rows]. simpl in E. destruct (recordRevenueEvent_appendable _ _ _ _ _ _ _ _ L Hp E).
    by eapply effect_extends.
  - destruct out as [pay rows]. simpl in E. destruct (recordPayment_appendable _ _ _ _ _ _ _ _ L E). by eapply effect_extends.
  - destruct out as [entry l]. simpl in E. destruct (adjustLedger_appendable _ _ _ _ _ _ _ _ _ L Hp E) as (? & ? & _).
    by eapply effect_extends.
  - destruct p; [|by injection E as _ <-]. apply job_noop in E as ->; [reflexivity|done].
Qed.

(** C1: the commission ledger is sound in every configuration that any number
    of concurrent clients, the accrual job and the rest of the platform can
    reach: every accrual is one ACCRUAL row followed by its payments and
    adjustments, which copy its deal, event, schedule, recipient and currency;
    every recorded revenue event has ACCRUAL rows that sum to its net amount,
    which is gross minus deductions; every payment is the sum of the PAYMENT
    rows that name it; no event key and no payment reference occurs twice; and
    what was recorded before is a prefix of what is recorded now. *)
Theorem ledger_always_sound (sent : EcoReq -> Prop) (db : Db) (s : Config eco) :
  ledger_ok db -> run sent db s -> ledger_ok (store s) /\ extends db (store s).
Proof.
  intros L R.
  assert (ledger_ok db /\ extends db db) as L0 by (split; [done|reflexivity]).
  apply (invariant_reaches eco elsewhere sent (fun d => ledger_ok d /\ extends db d) (fun r p _ => plan_ok r p)) with (db := db); try done.
  - intros db0 r p _ _ E. exact (plan_ok_pre _ _ _ E).
  - intros db0 r p out db' [L1 X1] Hp E. split; [exact (eco_tx_ledger _ _ _ _ _ L1 Hp E)|].
    etransitivity; [exact X1|exact (eco_tx_extends _ _ _ _ _ L1 Hp E)].
  - intros db0 db' [L1 X1] Hs. split; [by eapply elsewhere_ledger|]. etransitivity; [exact X1|by apply elsewhere_extends].
Qed.

(** C2: the service refines the abstract ledger.  Every run, whatever the
    clients send, is a sequence of atomic operations of [EconomicsBook] on the
    book of accounts: accrue one event once, pay a batch each entry of which is
    within what was outstanding before the batch, adjust one account; so no
    account is lost, changes its deal, event, recipient or currency, or has a
    total reduced.  Reading before the transaction, the re-check under the
    advisory lock and any interleaving of clients are invisible.  If no batch
    sent names an accrual twice, neither does any batch of the sequence (whose
    steps then keep the book safe, [spec_safe]). *)
Theorem ledger_refines_spec (sent : EcoReq -> Prop) (db : Db) (s : Config eco) :
  ledger_ok db -> run sent db s ->
  rtc (spec_step any_batch) (book db) (book (store s)) /\ book_le (book db) (book (store s)) /\
  ((forall r, sent r -> distinct_batch r) -> rtc (spec_step once_each) (book db) (book (store s))).
Proof.
  intros L R. assert (rtc (spec_step any_batch) (book db) (book (store s))) as Run by (by apply (reachable_book sent)).
  split_and!; [done|by eapply spec_grows|]. intros Hd. apply (reachable_book sent); [|done|done].
  intros r batch Hs. by apply request_once, Hd.
Qed.

(** C3: who is overpaid was named twice.  From a ledger where nobody is
    overpaid, whatever the clients send and however they interleave, for every
    recorded row the engine computes the balance of its accrual (it never
    throws), what was paid is not negative, and it is at most everything ever
    credited, the original amount plus the CREDIT adjustments; unless a payment
    request that was accepted names this very accrual twice, the one way the
    service lets an accrual be overpaid ([duplicate_roots_overpay]). *)
Theorem never_overpaid (sent : EcoReq -> Prop) (db : Db) (s : Config eco) (r : CommissionAccrualRow.t) :
  ledger_ok db -> book_safe (book db) -> run sent db s -> r ∈ commissionAccruals (store s) ->
  exists b, balanceOfChain (accrual_listByAccrualRoot (store s) (CommissionAccrualRow.accrualRootId r)) = Ok b
    /\ 0 <= paidAmountMinor b
    /\ (paidAmountMinor b <= originalAmountMinor b
           + amounts (is_adjustment Ledger.CREDIT) (accrual_listByAccrualRoot (store s) (CommissionAccrualRow.accrualRootId r))
        \/ exists c d i out, @answer eco (RecordPayment c d i) (Ok out) ∈ answered s /\
             twice (CommissionAccrualRow.accrualRootId r) (map pi_accrualRootId (pr_payments i))).
Proof.
  intros L Hsafe R Hr. pose proof (reachable_ledger _ _ _ L R) as L'. rewrite listByAccrualRoot_chain by done.
  set (x := CommissionAccrualRow.accrualRootId r).
  destruct (chain (store s) x) as [|root rest] eqn:Hch.
  { assert (r ∈ chain (store s) x) as Hin by (by apply chain_elem). rewrite Hch in Hin. set_solver. }
  pose proof (lo_chains _ L' x) as Hc. rewrite Hch in Hc.
  destruct (balanceOfChain_wf _ _ _ Hc) as (b & Hb & _ & _ & Hpaid & Horig). exists b. split; [done|]. rewrite Hpaid, Horig.
  assert (book (store s) !! x = Some (accountOf root (root :: rest))) as Hx by (by rewrite lookup_book, Hch).
  destruct (reachable_accountable sent db s L Hsafe R _ _ Hx) as [H0 [[Hs _]|N]]; (split; [exact H0|]); [left; apply Hs|right; exact N].
Qed.

(** The accrual job never accrues twice.  In every reachable configuration
    the job, for any recorded event and at any time, returns already_accrued
    with the number of its entries and changes nothing. *)
Theorem accrual_job_idempotent (sent : EcoReq -> Prop) (db : Db) (s : Config eco) (e : RevenueEventRow.t) (now : Z) :
  ledger_ok db -> run sent db s -> e ∈ revenueEvents (store s) ->
  exists n, 0 < n /\ economicsAccrualJob sha256_hex (RevenueEventRow.id e) now (store s)
    = Ok (resultJson {| j_status := already_accrued; j_entryCount := n |}, store s).
Proof.
  intros L R He. pose proof (reachable_ledger _ _ _ L R) as L'.
  pose proof (listByRevenueEvent_nonempty _ _ L' He) as Hne.
  exists (Z.of_nat (length (accrual_listByRevenueEvent (store s) (RevenueEventRow.id e)))).
  assert (revenueEvent_findById (store s) (RevenueEventRow.id e) <> None) as Hf.
  { intros Hf. exact (findById_None _ _ e Hf He eq_refl). }
  unfold economicsAccrualJob, accrualJob_pre, accrualJob_tx.
  destruct (revenueEvent_findById _ _) as [e'|]; [|done]. rewrite bool_decide_true by eauto.
  destruct (accrual_listByRevenueEvent _ _); [done|]. simpl. split; [lia|done].
Qed.

End Theorems.

(** ** The guarantees at a concrete run *)

Lemma sampleDb_ok : ledger_ok sampleDb.
Proof. split; repeat constructor. Qed.

Definition sampleRun : list EcoReq :=
  [CreateSchedule owner "deal" sampleSchedule; RecordRevenueEvent owner "deal" sampleRevenue;
   RecordPayment owner "deal" (samplePayment "wire-1" [("id-5", "400")]);
   AdjustLedger owner "deal" "id-5" (sampleAdjustment Ledger.CREDIT "50")].

Definition settledDb : Db := serveAll sampleEco sampleRun sampleDb.

Lemma settled_reaches (sent : EcoReq -> Prop) : Forall sent sampleRun ->
  exists s, reaches sampleEco elsewhere sent sampleDb s /\ store s = settledDb.
Proof.
  intros Hs. destruct (serveAll_reaches sampleEco elsewhere sent sampleRun sampleDb Hs) as [ans R].
  exists {| store := serveAll sampleEco sampleRun sampleDb; inflight := []; answered := ans |}. split; [exact R|].
  unfold settledDb. cbn [store]. reflexivity.
Qed.

Lemma sampleRun_distinct : Forall distinct_batch sampleRun.
Proof. repeat constructor; set_solver. Qed.

Lemma settled_ok : ledger_ok settledDb.
Proof.
  destruct (settled_reaches (fun _ => True) ltac:(repeat constructor)) as (s & R & E). rewrite <- E.
  exact (@reachable_ledger samplePlatform sampleSha (fun _ => True) sampleDb s sampleDb_ok R).
Qed.

Lemma sampleDb_book : book sampleDb = ∅.
Proof. reflexivity. Qed.

Lemma ledger_always_sound_witness : length (commissionAccruals settledDb) = 3%nat /\ ledger_ok settledDb /\ extends sampleDb settledDb.
Proof.
  split; [vm_compute; reflexivity|]. destruct (settled_reaches (fun _ => True) ltac:(repeat constructor)) as (s & R & E).
  pose proof (@ledger_always_sound samplePlatform sampleSha (fun _ => True) sampleDb _ sampleDb_ok R) as W. rewrite E in W. exact W.
Defined.

Lemma ledger_refines_spec_witness : rtc (spec_step once_each) (book sampleDb) (book settledDb) /\ book settledDb <> ∅.
Proof.
  split; [|vm_compute; discriminate]. destruct (settled_reaches distinct_batch sampleRun_distinct) as (s & R & E).
  pose proof (proj2 (proj2 (@ledger_refines_spec samplePlatform sampleSha distinct_batch sampleDb _ sampleDb_ok R)) (fun r Hr => Hr)) as W. rewrite E in W. exact W.
Defined.

Lemma settled_answers : exists s, reaches sampleEco elsewhere (fun _ => True) sampleDb s /\ store s = settledDb /\
  answered s = answersAll sampleEco sampleRun sampleDb.
Proof.
  pose proof (serveAll_answers sampleEco elsewhere (fun _ => True) sampleRun sampleDb (Forall_true _ _ (fun _ => I))) as R.
  eexists. split; [exact R|]. split; [unfold settledDb; cbn [store]; reflexivity|]. cbn [answered]. reflexivity.
Qed.

(** The same run: no request names an accrual twice. *)
Lemma never_overpaid_witness :
  Forall (fun r => exists b, balanceOfChain (accrual_listByAccrualRoot settledDb (CommissionAccrualRow.accrualRootId r)) = Ok b
    /\ 0 <= paidAmountMinor b <= originalAmountMinor b
         + amounts (is_adjustment Ledger.CREDIT) (accrual_listByAccrualRoot settledDb (CommissionAccrualRow.accrualRootId r)))
    (commissionAccruals settledDb)
  /\ length (commissionAccruals settledDb) = 3%nat.
Proof.
  split; [|vm_compute; reflexivity].
  destruct settled_answers as (s & R & E & Ea). rewrite <- E. apply Forall_forall. intros r Hr.
  assert (book_safe (book sampleDb)) as Hsafe by (rewrite sampleDb_book; apply map_Forall_empty).
  destruct (@never_overpaid samplePlatform sampleSha (fun _ => True) sampleDb s r sampleDb_ok Hsafe R Hr) as (b & Hb & H0 & [H1|(c & d & i & out & Hin & Ht)]).
  - exists b. split; [exact Hb|]. split; [exact H0|exact H1].
  - exfalso. assert (distinct_batch (RecordPayment c d i)) as Hd.
    { rewrite Ea in Hin. pose proof (answersAll_asked sampleEco sampleRun sampleDb _ Hin) as Hr'. exact (proj1 (Forall_forall _ _) sampleRun_distinct _ Hr'). }
    exact (once_not_twice _ _ Hd Ht).
Defined.

Lemma accrual_job_idempotent_witness :
  Forall (fun e => exists n, 0 < n /\ economicsAccrualJob sampleSha (RevenueEventRow.id e) 0 settledDb
    = Ok (resultJson {| j_status := already_accrued; j_entryCount := n |}, settledDb)) (revenueEvents settledDb)
  /\ length (revenueEvents settledDb) = 1%nat.
Proof.
  split; [|vm_compute; reflexivity]. destruct (settled_reaches (fun _ => True) ltac:(repeat constructor)) as (s & R & E).
  rewrite <- E. apply Forall_forall. intros e He. pose proof (@accrual_job_idempotent samplePlatform sampleSha (fun _ => True) sampleDb _ e 0 sampleDb_ok R He) as W. exact W.
Defined.

(** The re-check under the lock is per element of the batch.  A batch that
    names the same accrual twice, each time within what is outstanding, is
    accepted, and the accrual is paid beyond what it owes: the exception of
    [never_overpaid] does occur. *)
Theorem duplicate_roots_overpay :
  exists s : Config sampleEco, reaches sampleEco elsewhere (fun _ => True) sampleDb s /\
    exists b, balanceOfChain (accrual_listByAccrualRoot (store s) "id-5") = Ok b
      /\ originalAmountMinor b = 1000 /\ paidAmountMinor b = 1400 /\ outstandingAmountMinor b = -400.
Proof.
  destruct (serveAll_reaches sampleEco elsewhere (fun _ => True)
    [CreateSchedule owner "deal" sampleSchedule; RecordRevenueEvent owner "deal" sampleRevenue;
     RecordPayment owner "deal" (samplePayment "wire-1" [("id-5", "700"); ("id-5", "700")])] sampleDb ltac:(repeat constructor)) as [ans R].
  eexists. split; [exact R|]. eexists. split; [vm_compute; reflexivity|]. done.
Qed.
