(* ===== verification/EconomicsRequests.v ===== *)
(** * recordPayment: exactly which batches are accepted *)
From S2P Require Import Prelude StableSort DomainStates AuthzMatrix Authz Money EconomicsEngine.
From S2P Require Import EconomicsProps Database Tables ApiShared EconomicsRepositories.
From S2P Require Import EconomicsService Transactions EconomicsInvariant EconomicsBook.
From S2P Require Import EconomicsSystem EconomicsTheorems.
From Stdlib Require Import Ascii.
Import CommissionAccrualRow.
#[local] Open Scope Z_scope.

Section Payment.
Context `{Platform} (sha256_hex : list ascii -> string).

(** The root a batch element names, if it names an accrual. *)
Definition rootOf (db : Db) (x : string) : option t := head (chain db x).

(** One element: a positive amount, within what an accrual of this deal room
    still owes. *)
Definition item_ok (db : Db) (d : string) (item : PaymentItem) : Prop :=
  exists root n, rootOf db (pi_accrualRootId item) = Some root /\ dealRoomId root = d /\
    parseBigIntMinorUnits (Some (pi_amountMinor item)) "payment.amountMinor" = Ok n /\
    0 < n <= outstanding (accountOf root (chain db (pi_accrualRootId item))).

Definition itemAmount (item : PaymentItem) : Z :=
  match parseBigIntMinorUnits (Some (pi_amountMinor item)) "payment.amountMinor" with Ok n => n | Throw _ => 0 end.

Definition items_loaded (db : Db) (items : list PaymentItem) (loaded : list LoadedPayment) : Prop :=
  Forall2 (fun i l => lp_accrualRootId l = pi_accrualRootId i /\ lp_amountMinor l = itemAmount i /\ rootOf db (pi_accrualRootId i) = Some (lp_root l))
    items loaded.

(** What the request must satisfy. *)
Record payment_acceptable (c : Call) (d : string) (i : RecordPaymentRequest) (db : Db) : Prop := {
  pa_deal : is_Some (dealRoom_findById db d);
  pa_allowed : allowed (can (actor c) Actions.ledger_record_payment (resource ResourceType.commission_accrual None) noContext) = true;
  pa_nonempty : pr_payments i <> [];
  pa_items : Forall (item_ok db d) (pr_payments i);
  pa_single : forall i1 i2 r1 r2, i1 ∈ pr_payments i -> i2 ∈ pr_payments i ->
    rootOf db (pi_accrualRootId i1) = Some r1 -> rootOf db (pi_accrualRootId i2) = Some r2 ->
    recipientOrgId r1 = recipientOrgId r2 /\ currency r1 = currency r2;
  pa_date : is_Some (dateOr (pr_paidAt i) (now c))
}.

Definition reference_free (i : RecordPaymentRequest) (db : Db) : Prop :=
  pr_reference i ∉ map CommissionPaymentRow.reference (commissionPayments db).

(** ** Loading the batch *)

Lemma rootOf_Some db x root : rootOf db x = Some root -> exists rest, chain db x = root :: rest.
Proof. unfold rootOf. destruct (chain db x) as [|r rest]; [done|]. simpl. intros [= ->]. by exists rest. Qed.

Lemma loadPayment_iff db d item l : ledger_ok db ->
  loadPayment db d item = Ok l <->
  item_ok db d item /\ lp_accrualRootId l = pi_accrualRootId item /\ lp_amountMinor l = itemAmount item /\
  rootOf db (pi_accrualRootId item) = Some (lp_root l).
Proof.
  intros L. unfold loadPayment, item_ok, itemAmount, rootOf. rewrite (listByAccrualRoot_chain db _ L).
  destruct (chain db (pi_accrualRootId item)) as [|root rest] eqn:Ec; [split; [done|naive_solver]|].
  pose proof (lo_chains _ L (pi_accrualRootId item)) as Hc. rewrite Ec in Hc.
  destruct (balanceOfChain_wf _ _ _ Hc) as (b & -> & Hst & Hout & _). cbn [rbind].
  rewrite (bool_decide_eq_false_2 _ Hst), Hout.
  destruct (String.eqb_spec (dealRoomId root) d) as [Hd|Hd]; cbn [negb throw_if rbind]; [|split; [done|naive_solver]].
  destruct (parseBigIntMinorUnits _ _) as [n|e]; cbn [rbind]; [|split; [done|naive_solver]].
  destruct (Z.leb_spec n 0); cbn [throw_if rbind]; [split; [done|intros ((r & m & [= <-] & _ & [= <-] & ?) & _); lia]|].
  destruct (Z.ltb_spec (outstanding (accountOf root (root :: rest))) n); cbn [throw_if rbind];
    [split; [done|intros ((r & m & [= <-] & _ & [= <-] & ?) & _); lia]|].
  split.
  - intros [= <-]. simpl. split_and!; try done. exists root, n. split_and!; (done || lia).
  - intros (_ & E1 & E2 & [= E3]). destruct l. simpl in *. by subst.
Qed.

Lemma load_iff db d items loaded : ledger_ok db ->
  loadAndValidatePayments db d items = Ok loaded <-> Forall (item_ok db d) items /\ items_loaded db items loaded.
Proof.
  intros L. unfold loadAndValidatePayments, items_loaded. rewrite mapM_res_Ok. split.
  - intros Hall. split; [|eapply Forall2_impl; [exact Hall|]; intros i l Hl; apply (loadPayment_iff _ _ _ _ L) in Hl as [_ Hl]; exact Hl].
    induction Hall as [|i l items loaded Hl _ IH]; constructor; [|done]. apply (loadPayment_iff _ _ _ _ L) in Hl as [Hl _]. exact Hl.
  - intros [Hok Hl]. induction Hl as [|i l items loaded Hl _ IH]; constructor; inversion Hok; subst; [|by apply IH].
    by apply (loadPayment_iff _ _ _ _ L).
Qed.

Lemma load_exists db items d : Forall (item_ok db d) items -> exists loaded, items_loaded db items loaded.
Proof.
  induction 1 as [|i items (root & n & Hr & _) _ (loaded & IH)]; [by exists []; constructor|].
  exists ({| lp_accrualRootId := pi_accrualRootId i; lp_amountMinor := itemAmount i; lp_root := root |} :: loaded).
  by constructor.
Qed.

Lemma several_same l : (forall x y, x ∈ l -> y ∈ l -> x = y) -> several l = false.
Proof.
  intros Hs. unfold several. apply Nat.ltb_ge.
  assert (list_to_set (C := gset string) l ⊆ match l with [] => ∅ | x :: _ => {[x]} end) as Hsub.
  { intros y Hy%elem_of_list_to_set. destruct l as [|x l]; [set_solver|]. apply elem_of_singleton. apply Hs; [done|left]. }
  apply subseteq_size in Hsub. destruct l; [rewrite size_empty in Hsub|rewrite size_singleton in Hsub]; lia.
Qed.

Lemma validateSingle_iff db items loaded : items_loaded db items loaded -> items <> [] ->
  is_ok (validateSingleRecipientAndCurrency loaded) = true <->
  forall i1 i2 r1 r2, i1 ∈ items -> i2 ∈ items ->
    rootOf db (pi_accrualRootId i1) = Some r1 -> rootOf db (pi_accrualRootId i2) = Some r2 ->
    recipientOrgId r1 = recipientOrgId r2 /\ currency r1 = currency r2.
Proof.
  intros Hl Hne. split.
  - intros Hok. destruct (validateSingleRecipientAndCurrency loaded) as [[rc cu]|] eqn:E; [|done].
    apply validateSingle_Ok in E as [_ Hs]. rewrite Forall_forall in Hs.
    assert (forall i r, i ∈ items -> rootOf db (pi_accrualRootId i) = Some r -> recipientOrgId r = rc /\ currency r = cu) as Hall.
    { intros i r Hi Hr. destruct (Forall2_elem_l _ _ _ _ Hl Hi) as (l & Hin & _ & _ & E). rewrite Hr in E. injection E as ->. by apply Hs. }
    intros i1 i2 r1 r2 H1 H2 E1 E2. destruct (Hall i1 r1 H1 E1), (Hall i2 r2 H2 E2). split; congruence.
  - intros Hs. unfold validateSingleRecipientAndCurrency.
    assert (forall f, (forall r1 r2, recipientOrgId r1 = recipientOrgId r2 /\ currency r1 = currency r2 -> f r1 = f r2) ->
      several (map (fun l => f (lp_root l)) loaded) = false) as Hsev.
    { intros f Hf. apply several_same. intros x y (l1 & -> & H1)%list_elem_of_fmap (l2 & -> & H2)%list_elem_of_fmap.
      destruct (Forall2_elem_r _ _ _ _ Hl H1) as (i1 & Hi1 & _ & _ & E1), (Forall2_elem_r _ _ _ _ Hl H2) as (i2 & Hi2 & _ & _ & E2).
      apply Hf. exact (Hs i1 i2 _ _ Hi1 Hi2 E1 E2). }
    rewrite (Hsev recipientOrgId), (Hsev currency) by naive_solver. simpl.
    destruct loaded; [|done]. apply Forall2_nil_inv_r in Hl. done.
Qed.

(** ** Committing the batch *)

Lemma createMany_total inputs t db :
  Forall (fun i => accrual_validate i = Ok tt /\ ca_computedAt i = Some t) inputs ->
  exists rows db', accrual_createMany inputs db = Ok (rows, db').
Proof.
  intros Hall. revert db. induction Hall as [|i inputs [Hv Hd] _ IH]; intros db; [by eexists _, _|].
  assert (exists row db1, accrual_create i db = Ok (row, db1)) as (row & db1 & E1).
  { unfold accrual_create, tbind, tlift, freshId. rewrite Hv, Hd. by eexists _, _. }
  destruct (IH db1) as (rows & db2 & E2). exists (row :: rows), db2. unfold accrual_createMany in *. simpl.
  by rewrite (tbind_run _ _ _ _ _ E1), (tbind_run _ _ _ _ _ E2).
Qed.

Lemma present_some x : x <> "" -> present (Some x) = true.
Proof. intros Hx. unfold present, when_present. by rewrite (proj2 (String.eqb_neq x "")). Qed.

Lemma paymentRow_valid c d cur n date l : lp_accrualRootId l <> "" -> accrual_validate (paymentRow c d cur (newId n) date l) = Ok tt.
Proof.
  intros Hx. unfold accrual_validate. cbn -[present]. by rewrite (present_some _ Hx), (present_some _ (newId_nonempty n)).
Qed.

Lemma rootOf_nonempty db x root : ledger_ok db -> rootOf db x = Some root -> x <> "".
Proof.
  intros L (rest & Hch)%rootOf_Some. destruct (chain_root db x root rest L Hch) as (Hin & <- & _).
  pose proof (tb_ids _ _ (lo_accruals _ L)) as Hids. rewrite Forall_forall in Hids. destruct (Hids _ Hin) as (n & _ & E).
  simpl in E. rewrite E. apply newId_nonempty.
Qed.

Lemma payment_create_cases input t db : cp_paidAt input = Some t ->
  if bool_decide (cp_reference input ∉ map CommissionPaymentRow.reference (commissionPayments db))
  then exists row db', payment_create input db = Ok (row, db')
  else payment_create input db = Throw (PrismaKnownRequestError "P2002").
Proof.
  intros Ht. unfold payment_create, tbind, freshId, tlift. rewrite Ht. simpl.
  destruct (existsb _ _) eqn:Ex; case_bool_decide as Hf; try done; [|by eexists _, _|].
  - exfalso. apply existsb_exists in Ex as (q & Hq & E). apply String.eqb_eq in E. apply Hf. rewrite <- E.
    apply list_elem_of_fmap. exists q. split; [done|]. by apply list_elem_of_In.
  - exfalso. apply list_elem_of_fmap in Hf as (q & E & Hq). rewrite <- not_true_iff_false in Ex. apply Ex, existsb_exists.
    exists q. split; [by apply list_elem_of_In|]. by apply String.eqb_eq.
Qed.

Lemma payment_create_id input db row db' : payment_create input db = Ok (row, db') -> exists n, CommissionPaymentRow.id row = newId n.
Proof. unfold payment_create. intros E. inv_tx. destruct (existsb _ _); [done|]. injection E as <- _. by eexists. Qed.

Lemma recordPayment_tx_total c d i p db loaded rc cu :
  loadAndValidatePayments db d (pr_payments i) = Ok loaded -> validateSingleRecipientAndCurrency loaded = Ok (rc, cu) ->
  Forall (fun l => lp_accrualRootId l <> "") loaded -> is_Some (pp_paidAt p) ->
  if bool_decide (reference_free i db) then exists out db', recordPayment_tx c d i p db = Ok (out, db')
  else recordPayment_tx c d i p db = Throw (conflict ("A payment with reference " +:+ pr_reference i +:+ " already exists.") true).
Proof.
  intros Hl Hv Hne [t Ht]. unfold recordPayment_tx, recordPayment_body.
  rewrite (tbind_run _ _ db loaded db) by (unfold tlift; by rewrite Hl).
  rewrite (tbind_run _ _ db (rc, cu) db) by (unfold tlift; by rewrite Hv).
  match goal with |- context [payment_create ?inp] => set (input := inp) end.
  pose proof (payment_create_cases input t db Ht) as Hc. unfold reference_free. change (pr_reference i) with (cp_reference input).
  case_bool_decide as Hf.
  - destruct Hc as (pay & db1 & Ep). rewrite (tbind_run _ _ _ _ _ Ep).
    match goal with |- context [accrual_createMany ?ins] => destruct (createMany_total ins t db1) as (rows & db2 & Er) end.
    { apply Forall_fmap. eapply Forall_impl; [exact Hne|]. intros l Hx. simpl. split; [|done].
      destruct (payment_create_id _ _ _ _ Ep) as (n & ->). by apply paymentRow_valid. }
    rewrite (tbind_run _ _ _ _ _ Er). by eexists _, _.
  - by rewrite (tbind_throw _ _ _ _ Hc).
Qed.

(** ** The whole request *)

#[local] Notation eco := (economics sha256_hex).

Lemma recordPayment_pre_iff c d i db : ledger_ok db ->
  (exists p, recordPayment_pre c d i db = Ok p /\ is_Some (pp_paidAt p)) <-> payment_acceptable c d i db.
Proof.
  intros L. split.
  - intros (p & E & Hd). unfold recordPayment_pre in E. inv_ok. simpl in Hd.
    match goal with E : loadDealRoom _ _ = Ok _ |- _ => unfold loadDealRoom in E; destruct (dealRoom_findById db d) eqn:Ed; [|done] end.
    match goal with E : require _ = Ok _ |- _ => unfold require in E; apply throw_if_Ok, negb_false_iff in E end.
    match goal with E : loadAndValidatePayments _ _ _ = Ok _ |- _ => apply (load_iff _ _ _ _ L) in E as [Hok Hl] end.
    assert (pr_payments i <> []) as Hne.
    { intros E0. rewrite E0 in Hl. apply Forall2_nil_inv_l in Hl as ->. done. }
    split; try done. apply (validateSingle_iff db _ _ Hl Hne).
    match goal with E : validateSingleRecipientAndCurrency _ = Ok _ |- _ => by rewrite E end.
  - intros [[dr Hdr] Hal Hne Hok Hs Hd]. unfold recordPayment_pre, loadDealRoom, require. rewrite Hdr, Hal. simpl.
    destruct (load_exists _ _ _ Hok) as (loaded & Hl).
    rewrite (proj2 (load_iff db d (pr_payments i) loaded L) (conj Hok Hl)). simpl.
    pose proof (proj2 (validateSingle_iff db _ _ Hl Hne) Hs) as Hv.
    destruct (validateSingleRecipientAndCurrency loaded) as [x|]; [|done]. simpl. eexists. split; [reflexivity|done].
Qed.

(** RecordPayment accepts exactly the batches it should.  On a sound
    ledger and a valid date the request succeeds if and only if the deal room
    exists, the actor may record payments, the batch is not empty, every
    element is a positive amount within what the named accrual of this deal
    room still owes, all accruals have one recipient and one currency, and the
    reference is unused.  A used reference is answered with a retryable 409; a
    failed request leaves the database as it was; a successful one adds one
    payment whose total is the sum of the batch and pays every account its
    share. *)
Theorem record_payment_exact (c : Call) (d : string) (i : RecordPaymentRequest) (db : Db) :
  ledger_ok db -> is_Some (dateOr (pr_paidAt i) (now c)) ->
  let '(db', answer) := serve eco (RecordPayment c d i) db in
  (is_ok answer = true <-> payment_acceptable c d i db /\ reference_free i db)
  /\ (payment_acceptable c d i db -> ~ reference_free i db -> exists m, answer = Throw (conflict m true))
  /\ (is_ok answer = false -> db' = db)
  /\ (forall pay rows, answer = Ok (pay, rows) ->
       commissionPayments db' = commissionPayments db ++ [pay] /\
       commissionAccruals db' = commissionAccruals db ++ rows /\
       CommissionPaymentRow.reference pay = pr_reference i /\
       CommissionPaymentRow.totalAmountMinor pay = sumZ (map itemAmount (pr_payments i)) /\
       book db' = payAll (map (fun it => (pi_accrualRootId it, itemAmount it)) (pr_payments i)) (book db)).
Proof.
  intros L Hdate. unfold serve. simpl.
  destruct (recordPayment_pre c d i db) as [p|e] eqn:Ep; simpl.
  - assert (is_Some (pp_paidAt p)) as Hp.
    { unfold recordPayment_pre in Ep. inv_ok. exact Hdate. }
    assert (payment_acceptable c d i db) as Hacc by (apply (recordPayment_pre_iff c d i db L); by exists p).
    pose proof Hacc as [_ _ Hne Hok Hs _]. destruct (load_exists _ _ _ Hok) as (loaded & Hl).
    pose proof (proj2 (load_iff db d (pr_payments i) loaded L) (conj Hok Hl)) as Eload.
    pose proof (proj2 (validateSingle_iff db _ _ Hl Hne) Hs) as Hv.
    destruct (validateSingleRecipientAndCurrency loaded) as [[rc cu]|] eqn:Ev; [|done].
    assert (Forall (fun l => lp_accrualRootId l <> "") loaded) as Hids.
    { apply Forall_forall. intros l Hin. destruct (Forall2_elem_r _ _ _ _ Hl Hin) as (it & _ & -> & _ & Hr). by eapply rootOf_nonempty. }
    pose proof (recordPayment_tx_total c d i p db loaded rc cu Eload Ev Hids Hp) as Htx.
    case_bool_decide as Hf.
    + destruct Htx as ([pay rows] & db' & Etx). rewrite Etx. simpl. split; [done|]. split; [done|]. split; [done|].
      intros pay' rows' [= <- <-].
      destruct (recordPayment_book _ _ _ _ _ _ _ _ L Etx) as (loaded' & E3 & _ & _ & _ & _ & Hbook).
      rewrite Eload in E3. injection E3 as <-.
      apply recordPayment_effect in Etx as (loaded2 & ? & ? & ? & E2 & _ & _ & _ & _ & _ & _ & _ & Htot & Href & _ & [EA EP _ _ _ _ _ _ _]).
      rewrite Eload in E2. injection E2 as <-.
      assert (map lp_amountMinor loaded = map itemAmount (pr_payments i)) as Ham.
      { clear -Hl. induction Hl as [|it l items loaded (_ & E & _) _ IH]; [done|]. simpl. by rewrite E, IH. }
      split_and!; try done; [by rewrite Htot, Ham|]. rewrite Hbook. unfold batchOf.
      f_equal. clear -Hl. induction Hl as [|it l items loaded (E1 & E2 & _) _ IH]; [done|]. simpl. by rewrite E1, E2, IH.
    + rewrite Htx. simpl. split; [split; [done|tauto]|]. split; [intros _ _; by eexists|]. done.
  - split; [|split; [|split; [done|done]]].
    + split; [done|]. intros [Hacc _]. apply (recordPayment_pre_iff c d i db L) in Hacc as (p & E & _). congruence.
    + intros Hacc _. apply (recordPayment_pre_iff c d i db L) in Hacc as (p & E & _). congruence.
Qed.

End Payment.

(** The 650 still owed by the sample accrual can be paid in one batch. *)
Lemma record_payment_exact_witness :
  payment_acceptable owner "deal" (samplePayment "wire-2" [("id-5", "650")]) settledDb
  /\ reference_free (samplePayment "wire-2" [("id-5", "650")]) settledDb.
Proof.
  pose proof (@record_payment_exact samplePlatform sampleSha owner "deal" (samplePayment "wire-2" [("id-5", "650")]) settledDb
    settled_ok ltac:(by eexists)) as W.
  assert (is_ok (snd (serve sampleEco (RecordPayment owner "deal" (samplePayment "wire-2" [("id-5", "650")])) settledDb)) = true) as Hok
    by (vm_compute; reflexivity).
  destruct (serve sampleEco (RecordPayment owner "deal" (samplePayment "wire-2" [("id-5", "650")])) settledDb) as [db' a].
  apply W. exact Hok.
Defined.

(** * What the economics handlers answer

    The responses of recordRevenueEvent and adjustLedger agree with the ledger
    they have just written, and getLedger shows a viewer exactly the accruals
    that viewer may see. *)
Import CommissionAccrualRow.
#[local] Open Scope Z_scope.

Section Responses.
Context `{Platform}.

(** ** recordRevenueEvent *)

Lemma all_accruals_fold l st : (forall r, r ∈ l -> entryType r = Ledger.ACCRUAL) ->
  foldl reconcile_step st (map entryLike l) =
  {| l_distributed := l_distributed st + sumZ (map amountMinor l); l_paid := l_paid st;
     l_adjustmentNet := l_adjustmentNet st; l_reversed := l_reversed st |}.
Proof.
  revert st. induction l as [|r l IH]; intros st Hl; simpl; [destruct st; unfold sumZ; simpl; by rewrite Z.add_0_r|].
  rewrite IH by (intros; apply Hl; set_solver). unfold reconcile_step. simpl. rewrite (Hl r) by left. simpl.
  rewrite sumZ_cons. f_equal. lia.
Qed.

(** The response of a committed recordRevenueEvent is reconciled: no
    mismatch, the distributed and the outstanding amount are the event's net
    amount, nothing is paid, and the job enqueued afterwards names the event
    just written, one entry per targeted component of the plan. *)
Theorem revenue_response_reconciled (c : Call) (d : string) (i : RecordRevenueEventRequest) (db0 db db' : Db) (p : RevenuePlan)
    (ev : RevenueEventRow.t) (rows : list t) :
  ledger_ok db -> recordRevenueEvent_pre c d i db0 = Ok p -> recordRevenueEvent_tx c d i p db = Ok ((ev, rows), db') ->
  let r := recordRevenueEvent_finish (ev, rows) in
  reconciled (re_reconciliation r) = true /\ mismatches (re_reconciliation r) = []
  /\ distributedMinor (re_reconciliation r) = RevenueEventRow.netDistributableMinor ev
  /\ outstandingMinor (re_reconciliation r) = RevenueEventRow.netDistributableMinor ev
  /\ paidMinor (re_reconciliation r) = 0
  /\ re_enqueued r = RevenueEventRow.id ev /\ ev ∈ revenueEvents db'
  /\ map componentId rows = map e_componentId (entries (rp_split p)).
Proof.
  intros L Hpre E. pose proof (recordRevenueEvent_plan _ _ _ _ _ Hpre) as G.
  destruct (recordRevenueEvent_appendable _ _ _ _ _ _ _ _ L G E) as [[_ _ EE _ _ _ _ _ _] _].
  destruct G as (G1 & _ & _ & G4 & _).
  apply recordRevenueEvent_effect in E as (t0 & _ & Erows & _ & _ & _ & _ & _ & _ & Hg & Hd & Hn & _).
  assert (sumZ (map amountMinor rows) = RevenueEventRow.netDistributableMinor ev) as Hsum.
  { rewrite Erows, splitRows_sum, Hn. exact G4. }
  unfold recordRevenueEvent_finish, reconcileRevenueEvent. cbn [re_reconciliation i_ledgerEntries i_grossAmountMinor
    i_deductionsMinor i_netDistributableMinor re_enqueued].
  rewrite all_accruals_fold by (intros r Hr; rewrite Erows in Hr; by apply splitRows_elem in Hr as (e & _ & ? & _)).
  cbn [l_distributed l_paid l_adjustmentNet l_reversed reconciled mismatches distributedMinor outstandingMinor paidMinor].
  rewrite !Z.add_0_l, Hsum, Z.eqb_refl. rewrite Hg, Hd, Hn, <- G1, Z.eqb_refl. cbn [negb app].
  split_and!; try done; [lia|rewrite EE; set_solver|].
  rewrite Erows. unfold splitRows. generalize (S (drawn db)) as k. clear. induction (entries (rp_split p)) as [|e es IH]; intros k; [done|].
  simpl. by rewrite IH.
Qed.

(** ** adjustLedger *)

(** The balance adjustLedger answers with is the balance of the accrual in
    the ledger as committed, so the response after the commit cannot fail; the
    owed amount moved by exactly the signed amount and the paid amount not at
    all. *)
Theorem adjust_response_current (c : Call) (d x : string) (i : AdjustLedgerRequest) (db0 db db' : Db) (p : AdjustPlan)
    (out : t * list t) :
  ledger_ok db -> adjustLedger_pre c d x i db0 = Ok p -> adjustLedger_tx c d x i p db = Ok (out, db') ->
  exists before after, balanceOfChain (accrual_listByAccrualRoot db x) = Ok before
    /\ balanceOfChain (accrual_listByAccrualRoot db' x) = Ok after
    /\ adjustLedger_finish out = Ok (fst out, after)
    /\ outstandingAmountMinor after = outstandingAmountMinor before
         + (if bool_decide (ar_direction i = Ledger.CREDIT) then ap_amountMinor p else - ap_amountMinor p)
    /\ paidAmountMinor after = paidAmountMinor before
    /\ (forall y, y <> x -> accrual_listByAccrualRoot db' y = accrual_listByAccrualRoot db y).
Proof.
  intros L Hpre E. destruct out as [entry l]. pose proof (adjustLedger_plan _ _ _ _ _ _ Hpre) as Hpos.
  destruct (adjustLedger_appendable _ _ _ _ _ _ _ _ _ L Hpos E) as (Heff & Happ & root & rest & -> & Hch & _ & _ & _ & Hx).
  pose proof (ledger_append _ _ _ _ _ L Heff Happ) as L'.
  destruct (adjustLedger_refines _ _ _ _ _ _ _ _ _ L Hpos E) as (a & Ha & Hbook).
  assert (chain db' x = (root :: rest) ++ [entry]) as Hch'.
  { rewrite (chain_append _ _ _ _ _ x Heff), Hch. simpl. by rewrite Hx, String.eqb_refl. }
  pose proof (lo_chains _ L x) as W. rewrite Hch in W. pose proof (lo_chains _ L' x) as W'. rewrite Hch' in W'.
  change ((root :: rest) ++ [entry]) with (root :: (rest ++ [entry])) in *.
  destruct (balanceOfChain_wf _ _ _ W) as (b & Hb & _ & Hout & Hpaid & _).
  destruct (balanceOfChain_wf _ _ _ W') as (b' & Hb' & _ & Hout' & Hpaid' & _).
  exists b, b'. rewrite !listByAccrualRoot_chain, Hch, Hch' by done. split; [done|]. split; [done|].
  assert (accountOf root (root :: (rest ++ [entry])) = adjust (ar_direction i) (ap_amountMinor p) (accountOf root (root :: rest))) as Hacc.
  { pose proof (lookup_book db' x L') as E1. rewrite Hbook, lookup_insert_eq, Hch' in E1. cbn [account] in E1. apply (inj Some) in E1.
    rewrite lookup_book, Hch in Ha by done. cbn [account] in Ha. apply (inj Some) in Ha as <-. exact (eq_sym E1). }
  split; [unfold adjustLedger_finish; change ((root :: rest) ++ [entry]) with (root :: (rest ++ [entry])); by rewrite Hb'|].
  rewrite Hout', Hpaid', Hacc, Hout, Hpaid. unfold adjust, outstanding. simpl.
  split; [case_bool_decide; lia|]. split; [done|].
  intros y Hy. rewrite !listByAccrualRoot_chain by done. rewrite (chain_append _ _ _ _ _ y Heff). simpl.
  rewrite Hx, (proj2 (String.eqb_neq x y)) by done. by rewrite app_nil_r.
Qed.

End Responses.

(** ** At the sample run *)

Lemma adjust_response_current_witness :
  exists p out db' before after,
    adjustLedger_pre owner "deal" "id-5" (sampleAdjustment Ledger.DEBIT "150") settledDb = Ok p
    /\ adjustLedger_tx owner "deal" "id-5" (sampleAdjustment Ledger.DEBIT "150") p settledDb = Ok (out, db')
    /\ adjustLedger_finish out = Ok (fst out, after)
    /\ outstandingAmountMinor after = outstandingAmountMinor before + - ap_amountMinor p.
Proof.
  destruct (adjustLedger_pre owner "deal" "id-5" (sampleAdjustment Ledger.DEBIT "150") settledDb) as [p|] eqn:Ep;
    [|vm_compute in Ep; discriminate].
  destruct (adjustLedger_tx owner "deal" "id-5" (sampleAdjustment Ledger.DEBIT "150") p settledDb) as [[out db']|] eqn:Et;
    [|vm_compute in Ep; injection Ep as <-; vm_compute in Et; discriminate].
  destruct (@adjust_response_current samplePlatform owner "deal" "id-5" (sampleAdjustment Ledger.DEBIT "150") settledDb settledDb db' p out
    settled_ok Ep Et) as (before & after & _ & _ & H1 & H2 & _).
  exists p, out, db', before, after. auto.
Defined.

Definition sampleRevenue2 : RecordRevenueEventRequest :=
  {| rr_basis := Schedule.NET_PLATFORM_REVENUE; rr_period := "2026-09"; rr_source := "volume"; rr_grossAmountMinor := "777";
     rr_deductionsMinor := Some "77"; rr_currency := "EUR"; rr_recognizedAt := None |}.

Lemma revenue_response_reconciled_witness :
  exists p ev rows db',
    recordRevenueEvent_pre owner "deal" sampleRevenue2 settledDb = Ok p
    /\ recordRevenueEvent_tx owner "deal" sampleRevenue2 p settledDb = Ok ((ev, rows), db')
    /\ reconciled (re_reconciliation (recordRevenueEvent_finish (ev, rows))) = true.
Proof.
  destruct (recordRevenueEvent_pre owner "deal" sampleRevenue2 settledDb) as [p|] eqn:Ep; [|vm_compute in Ep; discriminate].
  destruct (recordRevenueEvent_tx owner "deal" sampleRevenue2 p settledDb) as [[[ev rows] db']|] eqn:Et;
    [|vm_compute in Ep; injection Ep as <-; vm_compute in Et; discriminate].
  destruct (@revenue_response_reconciled samplePlatform owner "deal" sampleRevenue2 settledDb settledDb db' p ev rows settled_ok Ep Et) as [H1 _].
  exists p, ev, rows, db'. auto.
Defined.

(** * getLedger: who sees which accruals *)
From Stdlib Require Import Sorted.
Import CommissionAccrualRow.
#[local] Open Scope Z_scope.

(** ** Grouping by root *)

Definition ofRoot (x : string) (r : t) : bool := String.eqb (accrualRootId r) x.

(** The groups are the non-empty classes of the rows, in row order. *)
Definition groups_ok (rows : list t) (groups : list (string * list t)) : Prop :=
  NoDup (map fst groups) /\
  (forall k g, (k, g) ∈ groups -> g = List.filter (ofRoot k) rows /\ g <> []) /\
  (forall r, r ∈ rows -> accrualRootId r ∈ map fst groups).

Lemma addToGroup_keys r groups :
  map fst (addToGroup r groups) = map fst groups ++ (if bool_decide (accrualRootId r ∈ map fst groups) then [] else [accrualRootId r]).
Proof.
  induction groups as [|[k g] groups IH]; [done|]. simpl. destruct (String.eqb_spec k (accrualRootId r)) as [->|Hne]; simpl.
  - rewrite bool_decide_true by left. by rewrite app_nil_r.
  - rewrite IH. f_equal. f_equal. repeat case_bool_decide; set_solver.
Qed.

Lemma addToGroup_elem r groups k g : NoDup (map fst groups) -> (k, g) ∈ addToGroup r groups ->
  (k <> accrualRootId r /\ (k, g) ∈ groups)
  \/ (k = accrualRootId r /\ ((exists g0, (k, g0) ∈ groups /\ g = g0 ++ [r]) \/ (k ∉ map fst groups /\ g = [r]))).
Proof.
  induction groups as [|[k0 g0] groups IH]; simpl.
  - intros _ [= -> ->]%list_elem_of_singleton. right. split; [done|]. right. split; [set_solver|done].
  - rewrite NoDup_cons. intros [Hni Hnd]. destruct (String.eqb_spec k0 (accrualRootId r)) as [->|Hne].
    + intros [[= -> ->]|Hin]%elem_of_cons.
      * right. split; [done|]. left. exists g0. split; [left|done].
      * left. split; [|by right]. intros ->. apply Hni, list_elem_of_fmap. by exists (accrualRootId r, g).
    + intros [[= -> ->]|Hin]%elem_of_cons; [left; split; [done|left]|].
      destruct (IH Hnd Hin) as [[? ?]|(-> & [(g1 & Hg1 & ->)|[Hn ->]])].
      * left. split; [done|by right].
      * right. split; [done|]. left. exists g1. split; [by right|done].
      * right. split; [done|]. right. split; [|done]. simpl. rewrite not_elem_of_cons. done.
Qed.

Lemma groupByRoot_ok rows : groups_ok rows (groupByRoot rows).
Proof.
  unfold groupByRoot. cut (forall done_ groups, groups_ok done_ groups ->
    groups_ok (done_ ++ rows) (foldl (fun groups row => addToGroup row groups) groups rows)).
  { intros Hc. apply (Hc [] []). split; [constructor|]. split; set_solver. }
  induction rows as [|r rows IH]; intros done_ groups (Hnd & Hg & Hk); simpl; [by rewrite app_nil_r|].
  rewrite cons_middle, app_assoc. apply IH. split; [|split].
  - rewrite addToGroup_keys. case_bool_decide; [by rewrite app_nil_r|]. apply NoDup_app. split_and!; [done|set_solver|].
    apply NoDup_singleton.
  - intros k g Hin. rewrite List.filter_app. simpl. unfold ofRoot at 2.
    destruct (addToGroup_elem _ _ _ _ Hnd Hin) as [[Hne Hin']|(-> & [(g0 & Hg0 & ->)|[Hn ->]])].
    + destruct (Hg k g Hin') as [-> Hgne]. rewrite (proj2 (String.eqb_neq _ _)) by congruence. by rewrite app_nil_r.
    + destruct (Hg _ _ Hg0) as [-> _]. rewrite String.eqb_refl. split; [done|]. by destruct (List.filter _ done_).
    + rewrite String.eqb_refl, filter_none; [done|]. intros x Hx. apply String.eqb_neq. intros E. apply Hn. rewrite <- E. by apply Hk.
  - intros x [Hx|Hx%list_elem_of_singleton]%elem_of_app; rewrite addToGroup_keys, elem_of_app; [left; by apply Hk|].
    subst x. case_bool_decide; [by left|right; left].
Qed.

(** ** Authorization *)

Definition isCrossOrg (a : Actions.Actor) : bool := has_role CROSS_ORG_ECONOMICS_ROLES (Actions.role a).

(** The ledger needs an active membership, and oversight over all
    organizations or an own accrual under a party role. *)
Definition may_list (a : Actions.Actor) (own : bool) : bool :=
  bool_decide (is_Some (Actions.organizationId a))
  && (isCrossOrg a || has_role LEDGER_PARTY_ROLES (Actions.role a) && own).

Lemma can_ledger_list a own :
  allowed (can a Actions.ledger_list (resource ResourceType.commission_accrual None)
    {| Actions.isSelf := None; Actions.isParticipant := Some (negb (isCrossOrg a) && has_role LEDGER_PARTY_ROLES (Actions.role a) && own) |})
  = may_list a own.
Proof.
  unfold may_list, isCrossOrg. destruct a as [u [o|] [r|] m]; unfold can, resource; simpl; try done.
  destruct r, own; reflexivity.
Qed.

Section View.
Context `{Platform}.

(** ** The view *)

Definition seen (a : Actions.Actor) (r : t) : bool := isCrossOrg a || ownRow a r.

Definition visible (a : Actions.Actor) (d : string) (db : Db) : list t :=
  let all := accrual_listByDealRoom db d in if isCrossOrg a then all else List.filter (ownRow a) all.

Lemma List_filter_perm' {A} (f : A -> bool) l l' : l ≡ₚ l' -> List.filter f l ≡ₚ List.filter f l'.
Proof. apply List_filter_perm. Qed.

Lemma visible_elem a d db r : r ∈ visible a d db <-> r ∈ commissionAccruals db /\ dealRoomId r = d /\ seen a r = true.
Proof.
  unfold visible, seen, accrual_listByDealRoom, findMany.
  destruct (isCrossOrg a); rewrite ?elem_of_filter_list, sort_by_elem, elem_of_filter_list, String.eqb_eq by apply _; naive_solver.
Qed.

Lemma seen_statics a r r' : statics r = statics r' -> seen a r = seen a r' /\ dealRoomId r = dealRoomId r'.
Proof. unfold statics, seen, ownRow. intros [= -> _ _ _ _ -> _ _]. done. Qed.

Lemma chain_statics db x root rest r : ledger_ok db -> chain db x = root :: rest -> r ∈ chain db x -> statics r = statics root.
Proof.
  intros L E Hr. pose proof (lo_chains _ L x) as Hc. rewrite E in Hr, Hc.
  destruct Hc as [|(root' & rest' & [= <- <-] & _ & _ & Hall)]; [done|].
  apply elem_of_cons in Hr as [->|Hr]; [done|]. rewrite Forall_forall in Hall. by destruct (Hall r Hr).
Qed.

(** The visible rows of one accrual are its whole chain or nothing. *)
Lemma visible_chain a d db x root rest : ledger_ok db -> chain db x = root :: rest -> dealRoomId root = d -> seen a root = true ->
  List.filter (ofRoot x) (visible a d db) ≡ₚ chain db x.
Proof.
  intros L E Hd Hs. unfold visible, accrual_listByDealRoom, findMany.
  assert (forall f, (forall r, r ∈ chain db x -> f r = true) -> List.filter (ofRoot x) (List.filter f
    (sort_by (desc row_createdAt) (List.filter (fun e => String.eqb (dealRoomId e) d) (commissionAccruals db)))) ≡ₚ chain db x) as Hall.
  { intros f Hf. rewrite (List_filter_perm' (ofRoot x) _ _ (List_filter_perm' f _ _ (sort_by_perm (desc row_createdAt) _))).
    apply reflexive_eq. unfold chain in *. assert (forall r, r ∈ commissionAccruals db -> accrualRootId r = x -> f r = true /\ dealRoomId r = d) as Hr.
    { intros r Hr Hx. assert (r ∈ chain db x) as Hin by (by apply chain_elem). split; [by apply Hf|].
      destruct (seen_statics a r root (chain_statics _ _ _ _ _ L E Hin)). congruence. }
    clear -Hr. induction (commissionAccruals db) as [|r l IH]; [done|]. simpl. rewrite <- IH by (intros; apply Hr; set_solver).
    destruct (String.eqb_spec (accrualRootId r) x) as [Hx|Hx].
    - destruct (Hr r ltac:(left) Hx) as [H1 H2]. rewrite (proj2 (String.eqb_eq _ _) H2). simpl. rewrite H1. simpl.
      unfold ofRoot at 1. by rewrite (proj2 (String.eqb_eq _ _) Hx).
    - destruct (String.eqb (dealRoomId r) d); [|done]. simpl. destruct (f r); [|done]. simpl. unfold ofRoot at 1.
      by rewrite (proj2 (String.eqb_neq _ _) Hx). }
  destruct (isCrossOrg a) eqn:Ec.
  - specialize (Hall (fun _ => true) ltac:(done)). rewrite (filter_all (fun _ : t => true)) in Hall by done. exact Hall.
  - apply Hall. intros r Hr. destruct (seen_statics a r root (chain_statics _ _ _ _ _ L E Hr)) as [Hsr _].
    rewrite Hs in Hsr. unfold seen in Hsr. by rewrite Ec in Hsr.
Qed.

Lemma account_of_group db x root rest g : ledger_ok db -> chain db x = root :: rest -> g ≡ₚ chain db x ->
  exists b sorted, accrualOfGroup (x, g) = Ok (Some {| w_accrualRootId := x; w_dealRoomId := dealRoomId root;
      w_revenueEventId := revenueEventId root; w_scheduleId := scheduleId root; w_componentId := componentId root;
      w_recipientOrgId := recipientOrgId root; w_claimId := claimId root; w_currency := currency root;
      w_balance := b; w_entries := sorted |}) /\
    sorted ≡ₚ chain db x /\ chronological sorted /\ balanceOfChain (chain db x) = Ok b.
Proof.
  intros L E Hp. pose proof (lo_chains _ L x) as Hc. rewrite E in Hc.
  destruct (balanceOfChain_wf _ _ _ Hc) as (b & Hb & _). rewrite <- E in Hb.
  exists b, (sort_by (asc row_createdAt) g).
  assert (List.find isAccrualRow g = Some root) as Hf.
  { destruct Hc as [|(root' & rest' & [= <- <-] & _ & Hty & Hall)]; [done|].
    destruct (List.find isAccrualRow g) as [r|] eqn:Ef.
    - apply find_some in Ef as [Hin Ht]. apply list_elem_of_In in Hin. rewrite Hp, E in Hin. unfold isAccrualRow in Ht.
      apply bool_decide_eq_true in Ht. apply elem_of_cons in Hin as [->|Hin]; [done|]. rewrite Forall_forall in Hall.
      destruct (Hall r Hin) as [[?|?] _]; congruence.
    - exfalso. assert (root ∈ g) as Hin by (rewrite Hp, E; left). apply list_elem_of_In in Hin.
      pose proof (find_none _ _ Ef root Hin) as Hn. unfold isAccrualRow in Hn. by rewrite bool_decide_true in Hn. }
  assert (sort_by (asc row_createdAt) g ≡ₚ chain db x) as Hs by (by rewrite (sort_by_perm (asc row_createdAt) g)).
  split; [|split; [done|split; [|done]]].
  - unfold accrualOfGroup. rewrite Hf. unfold balanceOfChain in *.
    assert (map entryLike (sort_by (asc row_createdAt) g) ≡ₚ map entryLike (chain db x)) as Hm by (by rewrite Hs).
    by rewrite (accrual_balance_order_free _ _ Hm), Hb.
  - exact (sort_by_sorted (asc row_createdAt) g).
Qed.

Lemma omap_id_elem {A} (l : list (option A)) (w : A) : w ∈ omap (fun x => x) l <-> Some w ∈ l.
Proof. rewrite list_elem_of_omap. naive_solver. Qed.

(** GetLedger is exact and private.  An actor without an active
    membership, without an oversight role and without an own accrual on the
    deal under a party role is refused, whatever the ledger holds.  Everybody
    else receives a list with one entry per accrual of the deal they may see:
    all of them under an oversight role, exactly the ones paid to their own
    organization otherwise.  An entry carries all rows of its accrual in
    order of creation, none of another recipient, and the balance the engine
    computes from them. *)
Theorem get_ledger_exact (a : Actions.Actor) (d : string) (db : Db) :
  ledger_ok db -> is_Some (dealRoom_findById db d) ->
  (may_list a (existsb (ownRow a) (accrual_listByDealRoom db d)) = false ->
     exists m, getLedger a d db = Throw (forbidden m)) /\
  (may_list a (existsb (ownRow a) (accrual_listByDealRoom db d)) = true ->
     exists ws, getLedger a d db = Ok ws /\ NoDup (map w_accrualRootId ws) /\
       (forall x, x ∈ map w_accrualRootId ws <->
          exists root, rootOf db x = Some root /\ dealRoomId root = d /\ seen a root = true) /\
       (forall w, w ∈ ws -> exists root, rootOf db (w_accrualRootId w) = Some root /\
          w_recipientOrgId w = recipientOrgId root /\ w_currency w = currency root /\
          w_entries w ≡ₚ chain db (w_accrualRootId w) /\ chronological (w_entries w) /\
          Forall (fun r => dealRoomId r = d /\ seen a r = true) (w_entries w) /\
          balanceOfChain (chain db (w_accrualRootId w)) = Ok (w_balance w))).
Proof.
  intros L [dr Hdr]. unfold getLedger, loadDealRoom. rewrite Hdr. cbn [rbind]. fold (isCrossOrg a).
  change (if isCrossOrg a then accrual_listByDealRoom db d else List.filter (ownRow a) (accrual_listByDealRoom db d)) with (visible a d db).
  unfold require. rewrite can_ledger_list. destruct (may_list a _); (split; intros [=]); cbn [negb throw_if rbind]; [|by eexists].
  destruct (groupByRoot_ok (visible a d db)) as (Hnd & Hg & Hk).
  set (groups := groupByRoot (visible a d db)) in *. unfold groupIntoAccruals. fold groups.
  (* every group is a whole visible chain *)
  assert (forall x g, (x, g) ∈ groups -> exists root rest, chain db x = root :: rest /\ dealRoomId root = d /\ seen a root = true /\ g ≡ₚ chain db x) as Hgroup.
  { intros x g Hin. destruct (Hg x g Hin) as [-> Hne].
    destruct (List.filter (ofRoot x) (visible a d db)) as [|r l] eqn:Ef; [done|].
    assert (r ∈ visible a d db /\ accrualRootId r = x) as [Hr Hx].
    { assert (r ∈ List.filter (ofRoot x) (visible a d db)) as [Hr Ho]%elem_of_filter_list by (rewrite Ef; left). split; [done|]. by apply String.eqb_eq. }
    apply visible_elem in Hr as (Hr & Hd & Hs). assert (r ∈ chain db x) as Hin' by (by apply chain_elem).
    destruct (chain db x) as [|root rest] eqn:Ec; [set_solver|]. rewrite <- Ec in Hin'.
    destruct (seen_statics a r root (chain_statics _ _ _ _ _ L Ec Hin')) as [Hsr Hdr'].
    exists root, rest. split_and!; [done|congruence|congruence|]. rewrite <- Ef, <- Ec. eapply visible_chain; (done || congruence). }
  (* so grouping never fails and drops nothing *)
  assert (exists accs, mapM_res accrualOfGroup groups = Ok (map Some accs) /\
    Forall2 (fun (g : string * list t) w => w_accrualRootId w = fst g /\ exists root, rootOf db (fst g) = Some root /\ dealRoomId root = d /\ seen a root = true /\
      w_recipientOrgId w = recipientOrgId root /\ w_currency w = currency root /\
      w_entries w ≡ₚ chain db (fst g) /\ chronological (w_entries w) /\ balanceOfChain (chain db (fst g)) = Ok (w_balance w)) groups accs) as (accs & Em & Hall).
  { clear -L Hgroup. induction groups as [|[x g] groups IH]; [by exists []|].
    destruct (Hgroup x g ltac:(left)) as (root & rest & Ec & Hd & Hs & Hp).
    destruct (account_of_group db x root rest g L Ec Hp) as (b & sorted & E & Hso & Hch & Hb).
    destruct IH as (accs & E2 & Hall); [intros; apply Hgroup; by right|].
    eexists (_ :: accs). cbn [mapM_res]. rewrite E. cbn [rbind]. rewrite E2. cbn [rbind map]. split; [reflexivity|]. constructor; [|done].
    simpl. split; [done|]. exists root. split; [unfold rootOf; by rewrite Ec|]. done. }
  rewrite Em. cbn [rbind]. exists accs.
  assert (omap (fun x => x) (map Some accs) = accs) as -> by (clear; induction accs as [|w accs IH]; [done|]; csimpl; by rewrite IH).
  assert (map w_accrualRootId accs = map fst groups) as Hids.
  { clear -Hall. induction Hall as [|g w groups accs [E _] _ IH]; [done|]. simpl. by rewrite E, IH. }
  split; [done|]. rewrite Hids. split; [done|]. split.
  - intros x. split.
    + intros ([x' g] & -> & Hin)%list_elem_of_fmap. destruct (Hgroup x' g Hin) as (root & rest & Ec & Hd & Hs & _).
      exists root. unfold rootOf. simpl. by rewrite Ec.
    + intros (root & (rest & Ec)%rootOf_Some & Hd & Hs). destruct (chain_root db x root rest L Ec) as (Hin & Hid & Hty).
      assert (accrualRootId root = x) as <-.
      { assert (root ∈ chain db x) as [_ ?]%chain_elem by (rewrite Ec; left). done. }
      apply Hk, visible_elem. done.
  - intros w Hw. destruct (Forall2_elem_r _ _ _ _ Hall Hw) as (g & Hin & -> & root & Hroot & Hd & Hs & H1 & H2 & H3 & H4 & H5).
    exists root. split_and!; try done. apply rootOf_Some in Hroot as (rest & Ec). apply Forall_forall. intros r Hr. rewrite H3 in Hr.
    destruct (seen_statics a r root (chain_statics _ _ _ _ _ L Ec Hr)). split; congruence.
Qed.

End View.

Definition agentOf (org : string) : Actions.Actor := actor (sampleCall Roles.CONTRIBUTOR_AGENT org 0).

Lemma get_ledger_exact_witness :
  (exists m, getLedger (agentOf "other") "deal" settledDb = Throw (forbidden m))
  /\ exists ws, getLedger (agentOf "agent") "deal" settledDb = Ok ws /\ NoDup (map w_accrualRootId ws).
Proof.
  assert (is_Some (dealRoom_findById settledDb "deal")) as Hd by (vm_compute; eexists; reflexivity).
  pose proof (@get_ledger_exact samplePlatform (agentOf "other") "deal" settledDb settled_ok Hd) as [W1 _].
  pose proof (@get_ledger_exact samplePlatform (agentOf "agent") "deal" settledDb settled_ok Hd) as [_ W2].
  assert (may_list (agentOf "other") (existsb (ownRow (agentOf "other")) (accrual_listByDealRoom settledDb "deal")) = false) as N
    by (vm_compute; reflexivity).
  assert (may_list (agentOf "agent") (existsb (ownRow (agentOf "agent")) (accrual_listByDealRoom settledDb "deal")) = true) as Y
    by (vm_compute; reflexivity).
  destruct (W2 Y) as (ws & E & Hnd & _). split; [exact (W1 N)|]. exists ws. split; assumption.
Defined.

(** * createSchedule: versions, supersession, and what concurrency can do *)
From stdpp Require Import relations.
Import CommissionScheduleRow.
#[local] Open Scope Z_scope.

Section Schedules.
Context `{Platform}.

(** ** The components of a new schedule *)

(** A stored component carries a rate or a fixed amount, never both. *)
Definition component_typed (c : CommissionComponentRow.t) : Prop :=
  match CommissionComponentRow.componentType c with
  | Ledger.PERCENTAGE_BPS => (exists b, CommissionComponentRow.bps c = Some b /\ 0 <= b <= 10000) /\ CommissionComponentRow.fixedAmountMinor c = None
  | Ledger.FIXED_AMOUNT => (exists a, CommissionComponentRow.fixedAmountMinor c = Some a /\ 0 <= a) /\ CommissionComponentRow.bps c = None
  end.

Record component_of (i : CreateComponentRow) (c : CommissionComponentRow.t) : Prop := {
  co_schedule : CommissionComponentRow.scheduleId c = cc_scheduleId i;
  co_recipient : CommissionComponentRow.recipientOrgId c = cc_recipientOrgId i;
  co_bps : CommissionComponentRow.bps c = cc_bps i;
  co_fixed : CommissionComponentRow.fixedAmountMinor c = cc_fixedAmountMinor i;
  co_typed : component_typed c
}.

Lemma component_create_Ok i db c db' : component_create i db = Ok (c, db') ->
  component_of i c /\ db' = set_commissionComponents (commissionComponents db ++ [c]) (set_drawn (S (drawn db)) db).
Proof.
  unfold component_create. intros E. inv_tx. injection E as <- <-. split; [|by destruct db].
  split; try done. unfold component_typed. simpl. unfold validateComponentTypeFields in *.
  destruct (cc_componentType i); [destruct (cc_bps i) as [b|]|destruct (cc_fixedAmountMinor i) as [a|]]; try done; inv_ok;
    match goal with H : bool_decide (is_Some _) = false |- _ => apply bool_decide_eq_false, eq_None_not_Some in H end.
  - repeat match goal with H : (_ || _) = false |- _ => apply orb_false_iff in H as [? ?] end.
    rewrite !Z.ltb_ge in *. split; [exists b; split; [done|lia]|done].
  - rewrite !Z.ltb_ge in *. split; [exists a; split; [done|lia]|done].
Qed.

Lemma component_createMany_Ok ins db cs db' : component_createMany ins db = Ok (cs, db') ->
  Forall2 component_of ins cs /\ commissionComponents db' = commissionComponents db ++ cs /\
  commissionSchedules db' = commissionSchedules db /\ drawn db' = (length ins + drawn db)%nat.
Proof.
  revert db cs. induction ins as [|i ins IH]; intros db cs E; unfold component_createMany in E; simpl in E; inv_tx.
  - by rewrite app_nil_r.
  - apply component_create_Ok in H0 as [Hc ->]. destruct (IH _ _ H1) as (H2 & H3 & H4 & H5). simpl in *.
    split; [by constructor|]. rewrite H3, H4, H5, <- app_assoc. split_and!; try done; lia.
Qed.

(** ** The whole call *)

(** The table after superseding [previous] and adding [new]. *)
Definition superseded (user : option string) (previous : option t) (l : list t) : list t :=
  match previous with
  | None => l
  | Some q => map (fun s => if byId (id q) s then withStatus Schedule.SUPERSEDED user s else s) l
  end.

Lemma supersede_Ok c previous db u db' : supersede c previous db = Ok (u, db') ->
  commissionSchedules db' = superseded (Some (Actions.userId (actor c))) previous (commissionSchedules db) /\
  commissionComponents db' = commissionComponents db /\ drawn db' = drawn db.
Proof.
  unfold supersede, superseded. destruct previous as [q|]; intros E; inv_tx; [|done].
  unfold schedule_updateStatus in H0. destruct (updateById _ _ _) as [[row l]|] eqn:Eu; [|done].
  apply updateById_Ok in Eu as (r0 & _ & _ & ->). simpl in H0. injection H0 as _ <-. done.
Qed.

Lemma when_present_Ok {A} (o : option string) (f : string -> res (option A)) q :
  when_present o f (Ok None) = Ok (Some q) -> exists x, o = Some x /\ x <> "" /\ f x = Ok (Some q).
Proof.
  unfold when_present. destruct o as [x|]; [|done]. destruct (String.eqb_spec x "") as [|Hx]; [done|]. eauto.
Qed.

(** CreateSchedule versions correctly.  When it commits, the new schedule
    is ACTIVE with a fresh identifier and the requested basis, cap and floor;
    without a predecessor it is version 1 of its own family, with one it is
    the next version of the predecessor's family and the predecessor is
    SUPERSEDED; every other schedule is unchanged.  One typed component is
    stored per requested component (a rate of at most 10000 basis points or a
    non-negative fixed amount, never both), and cap and floor were parsed with
    the cap not below the floor. *)
Theorem create_schedule_exact (c : Call) (d : string) (i : CreateScheduleRequest) (db0 db db' : Db) (p : SchedulePlan) (r : ScheduleDetail) :
  table_ok db (commissionSchedules db) -> createSchedule_pre c d i db0 = Ok p -> createSchedule_tx c d i p db = Ok (r, db') ->
  let s := d_schedule r in
  let user := Some (Actions.userId (actor c)) in
  status s = Schedule.ACTIVE /\ dealRoomId s = d /\ basis s = sr_basis i /\ capBelowFloor (capMinor s) (floorMinor s) = false
  /\ (forall s', s' ∈ commissionSchedules db -> id s' <> id s)
  /\ commissionSchedules db' = superseded user (sp_previous p) (commissionSchedules db) ++ [s]
  /\ match sp_previous p with
     | None => versionNumber s = 1 /\ scheduleFamilyId s = id s /\ previousVersionId s = None
     | Some q => previousVersionId s = Some (id q) /\ dealRoomId q = d /\ status q = Schedule.ACTIVE /\
         exists q', findById (commissionSchedules db) (id q) = Some q' /\
           versionNumber s = versionNumber q' + 1 /\ scheduleFamilyId s = scheduleFamilyId q'
     end
  /\ commissionComponents db' = commissionComponents db ++ d_components r
  /\ length (d_components r) = length (sr_components i)
  /\ Forall (fun k => CommissionComponentRow.scheduleId k = id s /\ component_typed k) (d_components r).
Proof.
  intros T Hpre E.
  assert (capBelowFloor (sp_capMinor p) (sp_floorMinor p) = false /\
    forall q, sp_previous p = Some q -> dealRoomId q = d /\ status q = Schedule.ACTIVE /\ id q <> "") as [Hcap Hprev].
  { unfold createSchedule_pre in Hpre. inv_ok. simpl. split; [done|]. intros q Hq. subst.
    match goal with E : when_present _ _ _ = Ok (Some q) |- _ => apply when_present_Ok in E as (x & _ & Hx & E1) end.
    unfold loadSuperseded in E1. destruct (schedule_findById db0 x) as [q'|] eqn:Ef; [|done]. inv_ok. subst.
    apply findById_Some in Ef as [_ Hid]. rewrite negb_false_iff, String.eqb_eq in *.
    match goal with H : isActive q = true |- _ => apply bool_decide_eq_true in H end.
    simpl in Hid. split_and!; [done|done|congruence]. }
  unfold createSchedule_tx in E.
  apply tbind_Ok in E as (sch & db1 & Hs & E). apply tbind_Ok in E as ([] & db1' & [_ ->]%tlift_Ok & E).
  apply tbind_Ok in E as (act & db2 & Hact & E). apply tbind_Ok in E as (us & db2' & [_ ->]%tlift_Ok & E).
  apply tbind_Ok in E as (rows & db2' & [Hrows ->]%tlift_Ok & E). apply tbind_Ok in E as (comps & db3 & Hcomps & E).
  apply tbind_Ok in E as ([] & db4 & Hsup & E). apply journal_Ok in E as (au & ev & E & _). inv_tx. simpl.
  (* the insert *)
  unfold schedule_create in Hs. apply tbind_Ok in Hs as (i0 & dbx & [= <- <-] & Hs).
  apply tbind_Ok in Hs as ([family version] & dbx & [Hline ->]%tlift_Ok & Hs). simpl in *. injection Hs as <- <-.
  set (new := newScheduleRow _ _ _ _ _) in *.
  assert (forall s', s' ∈ commissionSchedules db -> row_id s' <> row_id new) as Hfresh.
  { intros s' Hs'. pose proof (tb_ids _ _ T) as Hids. rewrite Forall_forall in Hids. destruct (Hids s' Hs') as (n & Hn & ->).
    intros E0. apply newId_inj in E0. lia. }
  (* the activation *)
  unfold schedule_updateStatus in Hact. simpl in Hact. change (id new) with (row_id new) in Hact.
  rewrite (updateById_new _ _ _ Hfresh) in Hact. simpl in Hact. injection Hact as <- <-.
  (* the components and the predecessor *)
  apply component_createMany_Ok in Hcomps as (HF & HC & HS & _). simpl in HC, HS.
  apply supersede_Ok in Hsup as (HS' & HC' & _). rewrite HS in HS'. rewrite HC in HC'.
  split; [done|]. split; [done|]. split; [done|]. split; [done|]. split; [exact Hfresh|]. split; [|split; [|split; [done|split]]].
  - rewrite HS'. unfold superseded. destruct (sp_previous p) as [q|] eqn:Eq; [|done]. rewrite map_app. f_equal. simpl.
    destruct (byId (id q) _) eqn:Eb; [|done]. exfalso. unfold byId in Eb. apply String.eqb_eq in Eb. simpl in Eb.
    unfold schedule_lineage in Hline. simpl in Hline. destruct (String.eqb_spec (id q) ""); [by apply (Hprev q)|].
    destruct (schedule_findById _ _) as [q'|] eqn:Ef; [|done]. apply findById_Some in Ef as [Hin Hid].
    apply (Hfresh q' Hin). rewrite Hid. exact (eq_sym Eb).
  - unfold schedule_lineage in Hline. destruct (sp_previous p) as [q|] eqn:Eq; simpl in Hline.
    + destruct (Hprev q eq_refl) as (Hd & Hst & Hne). rewrite (proj2 (String.eqb_neq _ _) Hne) in Hline.
      destruct (schedule_findById _ _) as [q'|] eqn:Ef; [|done]. injection Hline as <- <-.
      split_and!; try done. exists q'. done.
    + by injection Hline as <- <-.
  - apply Forall2_length in HF. apply mapM_res_Ok, Forall2_length in Hrows. congruence.
  - apply mapM_res_Ok in Hrows. apply Forall_forall. intros k Hk. destruct (Forall2_elem_r _ _ _ _ HF Hk) as (ins & Hin & Hco).
    split; [|by apply Hco]. rewrite (co_schedule _ _ Hco). destruct (Forall2_elem_r _ _ _ _ Hrows Hin) as (ci & _ & Hrow).
    unfold componentRow in Hrow. inv_ok. done.
Qed.

End Schedules.

(** ** At the sample run *)

Definition supersedeSample : CreateScheduleRequest :=
  {| sr_basis := Schedule.NET_PLATFORM_REVENUE; sr_capMinor := Some "900"; sr_floorMinor := Some "100"; sr_survivalMonths := None;
     sr_description := None; sr_supersedesScheduleId := Some "id-0"; sr_components := sr_components sampleSchedule |}.

Lemma scheduledDb_table : table_ok scheduledDb (commissionSchedules scheduledDb).
Proof.
  split; [|repeat constructor; set_solver|repeat constructor; lia|repeat constructor; simpl; lia].
  constructor; [|constructor]. exists 0%nat. split; [vm_compute; lia|reflexivity].
Qed.

Lemma create_schedule_exact_witness :
  exists p r db', createSchedule_pre owner "deal" supersedeSample scheduledDb = Ok p
    /\ createSchedule_tx owner "deal" supersedeSample p scheduledDb = Ok (r, db')
    /\ status (d_schedule r) = Schedule.ACTIVE /\ length (d_components r) = 1%nat.
Proof.
  destruct (createSchedule_pre owner "deal" supersedeSample scheduledDb) as [p|] eqn:Ep; [|vm_compute in Ep; discriminate].
  destruct (createSchedule_tx owner "deal" supersedeSample p scheduledDb) as [[r db']|] eqn:Et;
    [|vm_compute in Ep; injection Ep as <-; vm_compute in Et; discriminate].
  destruct (@create_schedule_exact samplePlatform owner "deal" supersedeSample scheduledDb scheduledDb db' p r scheduledDb_table Ep Et)
    as (H1 & _ & _ & _ & _ & _ & _ & _ & H2 & _).
  exists p, r, db'. split; [reflexivity|]. split; [exact Et|]. split; [exact H1|exact H2].
Defined.

(** The active schedules of the sample deal, as identifier, family and
    version. *)
Definition activeVersions (db : Db) : list (string * string * Z) :=
  map (fun s => (id s, scheduleFamilyId s, versionNumber s)) (List.filter isActive (commissionSchedules db)).

(** The ACTIVE check of createSchedule reads before the transaction and is not
    repeated in it, and nothing serializes the calls: two overlapping requests
    that supersede the same schedule both commit, and the deal room is left
    with two ACTIVE schedules of one family that are both version 2. *)
Lemma supersede_race : exists s : Config sampleEco,
  reaches sampleEco elsewhere (fun _ => True) scheduledDb s /\
  activeVersions (store s) = [("id-4", "id-0", 2); ("id-8", "id-0", 2)].
Proof.
  destruct (overlap sampleEco (CreateSchedule owner "deal" supersedeSample) (CreateSchedule owner "deal" supersedeSample) scheduledDb)
    as [[db' a]|] eqn:E; [|vm_compute in E; discriminate].
  destruct (overlap_steps sampleEco elsewhere (fun _ => True) (start scheduledDb) (CreateSchedule owner "deal" supersedeSample)
    (CreateSchedule owner "deal" supersedeSample) db' a I I eq_refl E) as (ans & R).
  eexists. split; [exact R|]. cbn [store]. vm_compute in E. injection E as <- _. vm_compute. reflexivity.
Qed.

(** recordRevenueEvent checks for an existing event before the transaction
    only, and its insert is not wrapped in [runUniqueConstraintSafe]: of two
    overlapping requests for one deal, period and source the second fails with
    Prisma's P2002, which the error handler answers with a 500. *)
Lemma revenue_race : exists (s : Config sampleEco) ans,
  reaches sampleEco elsewhere (fun _ => True) scheduledDb s /\
  answered s = ans ++ [answer (h := sampleEco) (RecordRevenueEvent owner "deal" sampleRevenue) (Throw (PrismaKnownRequestError "P2002"))].
Proof.
  destruct (overlap sampleEco (RecordRevenueEvent owner "deal" sampleRevenue) (RecordRevenueEvent owner "deal" sampleRevenue) scheduledDb)
    as [[db' a]|] eqn:E; [|vm_compute in E; discriminate].
  destruct (overlap_steps sampleEco elsewhere (fun _ => True) (start scheduledDb) (RecordRevenueEvent owner "deal" sampleRevenue)
    (RecordRevenueEvent owner "deal" sampleRevenue) db' a I I eq_refl E) as (ans & R).
  eexists _, ans. split; [exact R|]. cbn [answered]. vm_compute in E. injection E as _ <-. reflexivity.
Qed.
