(* ===== verification/LockboxRepositories.v ===== *)
(** * packages/db: the repositories of the lockbox tables

    lockbox, lockbox-key-share, lockbox-receipt and lockbox-release-evidence
    .repository.ts, and organization.repository.ts's [findById].  A query
    without [orderBy] answers in the order of insertion here; PostgreSQL
    promises no order, and nothing below depends on one. *)
From S2P Require Import Prelude StableSort DomainStates AuthzMatrix Database ApiShared.

Definition organization_findById (db : Db) (x : string) : option OrganizationRow.t := findById (organizations db) x.

(** ** lockboxRepository *)

Record CreateSealedLockboxInput : Type := {
  sl_id : string;
  sl_sealerOrgId : string;
  sl_relationshipType : Lockbox.LockboxRelationshipType;
  sl_region : Lockbox.LockboxRegion;
  sl_metadataSummary : option string;
  sl_iv : list Z;
  sl_ciphertext : list Z;
  sl_authTag : list Z;
  sl_aad : option (list Z);
  sl_ciphertextHash : string;
  sl_sealedAt : Z;
  sl_createdByUserId : option string;
  sl_createdByOrgId : option string
}.

Definition lockbox_findById (db : Db) (x : string) : option LockboxRow.t := findById (lockboxes db) x.

Definition lockbox_listBySealer (db : Db) (org : string) : list LockboxRow.t :=
  findMany (desc row_createdAt) (fun r => String.eqb (LockboxRow.sealerOrgId r) org) (lockboxes db).

(** [take] defaults to 100. *)
Definition lockbox_list (db : Db) : list LockboxRow.t :=
  take 100 (findMany (desc row_createdAt) (fun _ => true) (lockboxes db)).

Definition newLockboxRow (base : Base) (input : CreateSealedLockboxInput) : LockboxRow.t :=
  {| LockboxRow.id := sl_id input; LockboxRow.sealerOrgId := sl_sealerOrgId input;
     LockboxRow.relationshipType := sl_relationshipType input; LockboxRow.region := sl_region input;
     LockboxRow.status := Lockbox.SEALED; LockboxRow.metadataSummary := sl_metadataSummary input;
     LockboxRow.iv := sl_iv input; LockboxRow.ciphertext := sl_ciphertext input; LockboxRow.authTag := sl_authTag input;
     LockboxRow.aad := sl_aad input; LockboxRow.ciphertextHash := sl_ciphertextHash input; LockboxRow.sealedAt := sl_sealedAt input;
     LockboxRow.withdrawnAt := None; LockboxRow.withdrawnByUserId := None; LockboxRow.withdrawReason := None;
     LockboxRow.recipientOrgId := None; LockboxRow.releasedAt := None; LockboxRow.conditionRef := None; LockboxRow.base := base |}.

Definition lockbox_createSealed (input : CreateSealedLockboxInput) : Tx LockboxRow.t :=
  fun db =>
    let row := newLockboxRow (newBase (sl_createdByUserId input) (sl_createdByOrgId input) Roles.SECRET db) input in
    Ok (row, set_lockboxes (lockboxes db ++ [row]) db).

(** The columns the three updates write; [None] leaves a column alone. *)
Definition lockboxWith (st : Lockbox.LockboxStatus) (user : option string) (withdrawal : option (Z * string * option string))
    (release : option (Z * string * string)) (r : LockboxRow.t) : LockboxRow.t :=
  {| LockboxRow.id := LockboxRow.id r; LockboxRow.sealerOrgId := LockboxRow.sealerOrgId r;
     LockboxRow.relationshipType := LockboxRow.relationshipType r; LockboxRow.region := LockboxRow.region r;
     LockboxRow.status := st; LockboxRow.metadataSummary := LockboxRow.metadataSummary r;
     LockboxRow.iv := LockboxRow.iv r; LockboxRow.ciphertext := LockboxRow.ciphertext r; LockboxRow.authTag := LockboxRow.authTag r;
     LockboxRow.aad := LockboxRow.aad r; LockboxRow.ciphertextHash := LockboxRow.ciphertextHash r; LockboxRow.sealedAt := LockboxRow.sealedAt r;
     LockboxRow.withdrawnAt := match withdrawal with Some (at_, _, _) => Some at_ | None => LockboxRow.withdrawnAt r end;
     LockboxRow.withdrawnByUserId := match withdrawal with Some (_, u, _) => Some u | None => LockboxRow.withdrawnByUserId r end;
     LockboxRow.withdrawReason := match withdrawal with Some (_, _, why) => why | None => LockboxRow.withdrawReason r end;
     LockboxRow.recipientOrgId := match release with Some (_, org, _) => Some org | None => LockboxRow.recipientOrgId r end;
     LockboxRow.releasedAt := match release with Some (at_, _, _) => Some at_ | None => LockboxRow.releasedAt r end;
     LockboxRow.conditionRef := match release with Some (_, _, ref) => Some ref | None => LockboxRow.conditionRef r end;
     LockboxRow.base := touch (LockboxRow.base r) user |}.

Definition lockbox_update (x : string) (f : LockboxRow.t -> LockboxRow.t) : Tx LockboxRow.t :=
  fun db =>
    let! (row, t) := updateById x f (lockboxes db) in
    Ok (row, set_lockboxes t db).

Definition lockbox_updateStatus (x : string) (st : Lockbox.LockboxStatus) (user : option string) : Tx LockboxRow.t :=
  lockbox_update x (lockboxWith st user None None).

Definition lockbox_withdraw (x : string) (withdrawnAt : Z) (user : string) (why : option string) : Tx LockboxRow.t :=
  lockbox_update x (lockboxWith Lockbox.WITHDRAWN (Some user) (Some (withdrawnAt, user, why)) None).

Definition lockbox_markOpened (x : string) (releasedAt : Z) (recipientOrgId conditionRef user : string) : Tx LockboxRow.t :=
  lockbox_update x (lockboxWith Lockbox.OPENED (Some user) None (Some (releasedAt, recipientOrgId, conditionRef))).

(** ** lockboxKeyShareRepository *)

Record CreateLockboxKeyShareInput : Type := {
  ks_lockboxId : string;
  ks_holderRole : Lockbox.LockboxShareRole;
  ks_shareIndex : Z;
  ks_threshold : Z;
  ks_totalShares : Z;
  ks_wrappedShare : list Z;
  ks_shareIv : list Z;
  ks_shareAuthTag : list Z
}.

Section Repositories.
Context `{Platform}.

Definition keyShare_create (input : CreateLockboxKeyShareInput) : Tx unit :=
  let* i := freshId in
  fun db =>
    let row := {|
      LockboxKeyShareRow.id := i; LockboxKeyShareRow.lockboxId := ks_lockboxId input;
      LockboxKeyShareRow.holderRole := ks_holderRole input; LockboxKeyShareRow.shareIndex := ks_shareIndex input;
      LockboxKeyShareRow.threshold := ks_threshold input; LockboxKeyShareRow.totalShares := ks_totalShares input;
      LockboxKeyShareRow.wrappedShare := Some (ks_wrappedShare input); LockboxKeyShareRow.shareIv := Some (ks_shareIv input);
      LockboxKeyShareRow.shareAuthTag := Some (ks_shareAuthTag input); LockboxKeyShareRow.keyVersion := 1;
      LockboxKeyShareRow.createdAt := clock db; LockboxKeyShareRow.destroyedAt := None; LockboxKeyShareRow.destroyedReason := None |} in
    Ok (tt, set_lockboxKeyShares (lockboxKeyShares db ++ [row]) db).

(** [createMany] with one identifier per row *)
Definition keyShare_createMany (inputs : list CreateLockboxKeyShareInput) : Tx unit :=
  do* tmapM keyShare_create inputs; tret tt.

Definition activeShare (x : string) (r : LockboxKeyShareRow.t) : bool :=
  String.eqb (LockboxKeyShareRow.lockboxId r) x && bool_decide (is_Some (LockboxKeyShareRow.wrappedShare r)).

Definition keyShare_findActiveByLockboxAndRoles (db : Db) (x : string) (roles : list Lockbox.LockboxShareRole)
    : list LockboxKeyShareRow.t :=
  List.filter (fun r => activeShare x r && bool_decide (LockboxKeyShareRow.holderRole r ∈ roles)) (lockboxKeyShares db).

Definition destroyedShare (at_ : Z) (why : string) (r : LockboxKeyShareRow.t) : LockboxKeyShareRow.t :=
  {| LockboxKeyShareRow.id := LockboxKeyShareRow.id r; LockboxKeyShareRow.lockboxId := LockboxKeyShareRow.lockboxId r;
     LockboxKeyShareRow.holderRole := LockboxKeyShareRow.holderRole r; LockboxKeyShareRow.shareIndex := LockboxKeyShareRow.shareIndex r;
     LockboxKeyShareRow.threshold := LockboxKeyShareRow.threshold r; LockboxKeyShareRow.totalShares := LockboxKeyShareRow.totalShares r;
     LockboxKeyShareRow.wrappedShare := None; LockboxKeyShareRow.shareIv := None; LockboxKeyShareRow.shareAuthTag := None;
     LockboxKeyShareRow.keyVersion := LockboxKeyShareRow.keyVersion r; LockboxKeyShareRow.createdAt := LockboxKeyShareRow.createdAt r;
     LockboxKeyShareRow.destroyedAt := Some at_; LockboxKeyShareRow.destroyedReason := Some why |}.

(** [updateMany(..).count] *)
Definition keyShare_destroyAllByLockbox (x : string) (destroyedAt : Z) (why : string) : Tx Z :=
  fun db =>
    Ok (Z.of_nat (length (List.filter (activeShare x) (lockboxKeyShares db))),
        set_lockboxKeyShares (map (fun r => if activeShare x r then destroyedShare destroyedAt why r else r) (lockboxKeyShares db)) db).

(** ** lockboxReceiptRepository *)

Definition receipt_create (lockboxId : string) (version : Z) (ciphertextHash sealerOrgId : string) (sealedAt : Z) (signature algorithm : string)
    : Tx LockboxReceiptRow.t :=
  let* i := freshId in
  fun db =>
    let row := {|
      LockboxReceiptRow.id := i; LockboxReceiptRow.lockboxId := lockboxId; LockboxReceiptRow.version := version;
      LockboxReceiptRow.ciphertextHash := ciphertextHash; LockboxReceiptRow.sealerOrgId := sealerOrgId;
      LockboxReceiptRow.sealedAt := sealedAt; LockboxReceiptRow.signature := signature; LockboxReceiptRow.algorithm := algorithm;
      LockboxReceiptRow.createdAt := clock db |} in
    Ok (row, set_lockboxReceipts (lockboxReceipts db ++ [row]) db).

(** [rows[0] ?? null] of the receipts, newest version first *)
Definition receipt_findLatestByLockbox (db : Db) (x : string) : option LockboxReceiptRow.t :=
  head (findMany (desc LockboxReceiptRow.version) (fun r => String.eqb (LockboxReceiptRow.lockboxId r) x) (lockboxReceipts db)).

(** ** lockboxReleaseEvidenceRepository *)

Record CreateLockboxReleaseEvidenceInput : Type := {
  re_lockboxId : string;
  re_recipientOrgId : string;
  re_releasedAt : Z;
  re_authorizedByUserId : string;
  re_authorizedRoles : list string;
  re_conditionRef : string;
  re_ciphertextHash : string;
  re_receiptId : option string
}.

Definition releaseEvidence_create (input : CreateLockboxReleaseEvidenceInput) : Tx LockboxReleaseEvidenceRow.t :=
  let* i := freshId in
  fun db =>
    let row := {|
      LockboxReleaseEvidenceRow.id := i; LockboxReleaseEvidenceRow.lockboxId := re_lockboxId input;
      LockboxReleaseEvidenceRow.recipientOrgId := re_recipientOrgId input; LockboxReleaseEvidenceRow.releasedAt := re_releasedAt input;
      LockboxReleaseEvidenceRow.authorizedByUserId := re_authorizedByUserId input;
      LockboxReleaseEvidenceRow.authorizedRoles := re_authorizedRoles input; LockboxReleaseEvidenceRow.conditionRef := re_conditionRef input;
      LockboxReleaseEvidenceRow.ciphertextHash := re_ciphertextHash input; LockboxReleaseEvidenceRow.receiptId := re_receiptId input;
      LockboxReleaseEvidenceRow.createdAt := clock db |} in
    Ok (row, set_lockboxReleaseEvidence (lockboxReleaseEvidence db ++ [row]) db).

End Repositories.
