(* ===== verification/LockboxService.v ===== *)
(** * apps/api/src/modules/lockbox/service.ts

    Sealing, withdrawing and releasing a lockbox, and the three reads.  Each
    mutation is its checks before the transaction ([_pre]) and its transaction
    ([_tx]).  [seal] draws the identifier, encrypts and signs before its
    transaction; none of that reads the database, so it is the first part of
    [seal_tx].  The AES-256-GCM, SHA-256 and HMAC of node:crypto are
    parameters, the bytes [randomBytes] draws for one [sealPayload] come with
    the request, and the keys come with the configuration. *)
From S2P Require Import Prelude StableSort Lifecycle JsDate DomainStates Money Gf256 Shamir Envelope Receipt.
From S2P Require Import AuthzMatrix Authz JsonText Database ApiShared LockboxRepositories.
From Stdlib Require Import Ascii.
Import Roles Actions.

#[local] Notation text := (list ascii).

(** ** Requests *)

Record LockboxPayload : Type := {
  counterpartyPrivate : string;
  evidenceSummary : string;
  priorDealHistory : string
}.

Record SealLockboxRequest : Type := {
  sq_relationshipType : Lockbox.LockboxRelationshipType;
  sq_region : Lockbox.LockboxRegion;
  sq_metadataSummary : option string;
  sq_payload : LockboxPayload
}.

Record WithdrawLockboxRequest : Type := { wq_withdrawReason : option string }.

Record ReleaseLockboxRequest : Type := { lq_recipientOrgId : string; lq_conditionRef : string }.

(** The key material of packages/config. *)
Record LockboxConfig : Type := {
  lockboxKekSealer : string;
  lockboxKekOperator : string;
  lockboxKekEscrow : string;
  lockboxReceiptHmacKey : string
}.

Definition CROSS_ORG_LOCKBOX_ROLES : list PersonaRole :=
  [PLATFORM_OWNER; MARKETPLACE_OPERATOR; COMPLIANCE_REVIEWER; AUDITOR_READONLY].

Definition RELEASE_AUTHORIZING_ROLES : list Lockbox.LockboxShareRole := [Lockbox.OPERATOR; Lockbox.ESCROW].

(** ** The payload and its bytes *)

(** [Buffer.from(str, "utf8")] *)
Definition utf8Bytes (s : text) : list Z := map code s.
(** [buf.toString("utf8")] of well-formed UTF-8 *)
Definition bytesText (b : list Z) : text := map byte b.

Definition payloadJson (p : LockboxPayload) : Json :=
  JObj [("counterpartyPrivate", JStr (counterpartyPrivate p)); ("evidenceSummary", JStr (evidenceSummary p));
        ("priorDealHistory", JStr (priorDealHistory p))].

Definition serializePayload (p : LockboxPayload) : list Z := utf8Bytes (jsonText (payloadJson p)).

(** [str.length]: UTF-16 code units of UTF-8 text; a four-byte character counts
    two, a continuation byte nothing. *)
Definition utf16Length (s : text) : Z :=
  sumZ (map (fun c => if code c <? 128 then 1 else if code c <? 192 then 0 else if code c <? 240 then 1 else 2) s).

(** [z.string().min(1).max(n)] of one member *)
Definition boundedMember (o : list (string * Json)) (key : string) (n : Z) : option string :=
  match find (fun kv => String.eqb (fst kv) key) o with
  | Some (_, JStr s) => let l := utf16Length (txt s) in if (1 <=? l) && (l <=? n) then Some s else None
  | _ => None
  end.

(** LockboxPayloadSchema *)
Definition parseLockboxPayload (v : Json) : option LockboxPayload :=
  match v with
  | JObj o =>
      match boundedMember o "counterpartyPrivate" 2000, boundedMember o "evidenceSummary" 4000, boundedMember o "priorDealHistory" 4000 with
      | Some c, Some e, Some p => Some {| counterpartyPrivate := c; evidenceSummary := e; priorDealHistory := p |}
      | _, _, _ => None
      end
  | _ => None
  end.

Definition deserializePayload (plaintext : list Z) : res LockboxPayload :=
  match jsonParse (bytesText plaintext) with
  | Some v =>
      match parseLockboxPayload v with
      | Some p => Ok p
      | None => Throw (internal "the resulting content did not match the expected payload shape")
      end
  | None => Throw (internal "the resulting content did not match the expected payload shape")
  end.

Definition lockboxAad (lockboxId : string) : list Z := utf8Bytes (txt lockboxId).

Section Service.
Context `{Platform}
        (config : LockboxConfig)
        (gcm_encrypt : list Z -> list Z -> option (list Z) -> list Z -> list Z * list Z)
        (gcm_decrypt : list Z -> list Z -> option (list Z) -> list Z -> list Z -> option (list Z))
        (sha256_hex : list Z -> string)
        (hmac : list Z -> text -> list Z).

Definition loadRoleKeks : res RoleKeks :=
  let! s := parseKeyHex (Some (lockboxKekSealer config)) "LOCKBOX_KEK_SEALER" in
  let! o := parseKeyHex (Some (lockboxKekOperator config)) "LOCKBOX_KEK_OPERATOR" in
  let! e := parseKeyHex (Some (lockboxKekEscrow config)) "LOCKBOX_KEK_ESCROW" in
  Ok {| k_SEALER := s; k_OPERATOR := o; k_ESCROW := e |}.

Definition loadReceiptHmacKey : res (list Z) := parseKeyHex (Some (lockboxReceiptHmacKey config)) "LOCKBOX_RECEIPT_HMAC_KEY".

Definition loadLockbox (db : Db) (lockboxId : string) : res LockboxRow.t :=
  match lockbox_findById db lockboxId with
  | None => Throw (notFound "Lockbox not found.")
  | Some l => Ok l
  end.

(** ** The reads *)

Definition lockboxService_list (a : Actor) (db : Db) : res (list LockboxRow.t) :=
  do! require (can a lockbox_read_receipt (resource ResourceType.lockbox (organizationId a)) noContext);
  if has_role CROSS_ORG_LOCKBOX_ROLES (role a) then Ok (lockbox_list db)
  else match organizationId a with
       | None => Ok []
       | Some org => Ok (if String.eqb org "" then [] else lockbox_listBySealer db org)
       end.

Definition lockboxService_getById (a : Actor) (lockboxId : string) (db : Db) : res LockboxRow.t :=
  let! lockbox := loadLockbox db lockboxId in
  do! require (can a lockbox_read_receipt (resourceOf ResourceType.lockbox (LockboxRow.id lockbox) (Some (LockboxRow.sealerOrgId lockbox))) noContext);
  Ok lockbox.

Definition getReceipt (a : Actor) (lockboxId : string) (db : Db) : res LockboxReceiptRow.t :=
  let! lockbox := loadLockbox db lockboxId in
  do! require (can a lockbox_read_receipt (resourceOf ResourceType.lockbox (LockboxRow.id lockbox) (Some (LockboxRow.sealerOrgId lockbox))) noContext);
  match receipt_findLatestByLockbox db lockboxId with
  | Some r => Ok r
  | None => Throw (internal "Lockbox has no receipt on record")
  end.

(** ** seal *)

Definition seal_pre (c : Call) (db : Db) : res string :=
  match (if present (organizationId (actor c)) then organizationId (actor c) else None) with
  | None => Throw (forbidden "No active organization membership.")
  | Some org =>
      do! require (can (actor c) lockbox_seal (resource ResourceType.lockbox (Some org)) noContext);
      Ok org
  end.

Definition receiptPayload (lockboxId hash org : string) (sealedAt : Z) : LockboxReceiptPayload :=
  {| lockboxId := lockboxId; ciphertextHash := hash; sealerOrgId := org; sealedAt := toISOString sealedAt; state := "SEALED" |}.

Definition shareInput (x : string) (share : WrappedShare) : CreateLockboxKeyShareInput :=
  {| ks_lockboxId := x; ks_holderRole := Envelope.role share; ks_shareIndex := w_index share; ks_threshold := 2; ks_totalShares := 3;
     ks_wrappedShare := ciphertext (wrapped share); ks_shareIv := iv (wrapped share); ks_shareAuthTag := authTag (wrapped share) |}.

Definition seal_tx (c : Call) (input : SealLockboxRequest) (rnd : SealRandom) (org : string) : Tx LockboxRow.t :=
  let* x := freshId in
  let* keks := tlift loadRoleKeks in
  let* sealed := tlift (sealPayload gcm_encrypt sha256_hex rnd (serializePayload (sq_payload input)) keks (Some (lockboxAad x))) in
  let sealedAt := now c in
  let* key := tlift loadReceiptHmacKey in
  let signature := String.string_of_list_ascii (signReceipt hmac (payload_fields (receiptPayload x (Envelope.ciphertextHash sealed) org sealedAt)) key) in
  let* lockbox := lockbox_createSealed {|
    sl_id := x; sl_sealerOrgId := org; sl_relationshipType := sq_relationshipType input; sl_region := sq_region input;
    sl_metadataSummary := sq_metadataSummary input; sl_iv := s_iv sealed; sl_ciphertext := s_ciphertext sealed;
    sl_authTag := s_authTag sealed; sl_aad := Some (lockboxAad x); sl_ciphertextHash := Envelope.ciphertextHash sealed;
    sl_sealedAt := sealedAt; sl_createdByUserId := Some (userId (actor c)); sl_createdByOrgId := organizationId (actor c) |} in
  do* keyShare_createMany (map (shareInput x) (shares sealed));
  do* receipt_create x 1 (Envelope.ciphertextHash sealed) org sealedAt signature "HMAC-SHA256";
  do* auditWriter (context c) (audit_of c (organizationId (actor c)) "lockbox.sealed" "lockbox" x
        (JObj [("relationshipType", JStr (Lockbox.LockboxRelationshipType_name (sq_relationshipType input)));
               ("region", JStr (Lockbox.LockboxRegion_name (sq_region input)));
               ("ciphertextHash", JStr (Envelope.ciphertextHash sealed)); ("metadataSummary", JOpt (sq_metadataSummary input))]));
  do* timelineWriter (context c) (event_of c "lockbox.sealed" "lockbox" x
        (JObj [("sealerOrgId", JStr org); ("relationshipType", JStr (Lockbox.LockboxRelationshipType_name (sq_relationshipType input)));
               ("region", JStr (Lockbox.LockboxRegion_name (sq_region input))); ("ciphertextHash", JStr (Envelope.ciphertextHash sealed))]));
  tret lockbox.

(** ** withdraw *)

Definition statusName (l : LockboxRow.t) : string := Lockbox.LockboxStatus_name (LockboxRow.status l).

Definition assertWithdrawable (l : LockboxRow.t) : res unit :=
  do! throw_if (negb (Lockbox.canWithdrawFrom (LockboxRow.status l)))
        (conflict "Lockbox cannot be withdrawn from its current state." false);
  Lockbox.assertValidLockboxTransition (statusName l) "WITHDRAWN".

Definition withdraw_pre (c : Call) (lockboxId : string) (db : Db) : res LockboxRow.t :=
  let! lockbox := loadLockbox db lockboxId in
  do! require (can (actor c) Actions.lockbox_withdraw (resourceOf ResourceType.lockbox (LockboxRow.id lockbox) (Some (LockboxRow.sealerOrgId lockbox))) noContext);
  do! assertWithdrawable lockbox;
  Ok lockbox.

(** The row as read under the advisory lock of the lockbox. *)
Definition freshLockbox (lockboxId : string) : Tx LockboxRow.t :=
  fun db =>
    match lockbox_findById db lockboxId with
    | None => Throw (internal "Lockbox disappeared mid-transaction.")
    | Some l => Ok (l, db)
    end.

Definition withdraw_tx (c : Call) (lockboxId : string) (input : WithdrawLockboxRequest) (lockbox : LockboxRow.t) : Tx LockboxRow.t :=
  let* fresh := freshLockbox lockboxId in
  do* tlift (assertWithdrawable fresh);
  let withdrawnAt := now c in
  let* updated := LockboxRepositories.lockbox_withdraw lockboxId withdrawnAt (userId (actor c)) (wq_withdrawReason input) in
  let* destroyedCount := keyShare_destroyAllByLockbox lockboxId withdrawnAt ("withdrawn by sealer org " +:+ default "null" (organizationId (actor c))) in
  do* tlift (throw_if (negb (destroyedCount =? 3)) (internal "Expected to destroy 3 key shares on withdraw"));
  do* auditWriter (context c) (audit_because c (Some (LockboxRow.sealerOrgId lockbox)) "lockbox.withdrawn" "lockbox" lockboxId (wq_withdrawReason input)
        (JObj [("withdrawReason", JOpt (wq_withdrawReason input)); ("sharesDestroyed", JNum destroyedCount)]));
  do* timelineWriter (context c) (event_of c "lockbox.withdrawn" "lockbox" lockboxId (JObj [("withdrawReason", JOpt (wq_withdrawReason input))]));
  tret updated.

(** ** release *)

Record ReleasePlan : Type := { rl_lockbox : LockboxRow.t; rl_keks : RoleKeks }.

Record ReleaseResult : Type := {
  lockbox : LockboxRow.t;
  releaseEvidence : LockboxReleaseEvidenceRow.t;
  disclosedPayload : LockboxPayload
}.

Definition release_pre (c : Call) (lockboxId : string) (input : ReleaseLockboxRequest) (db : Db) : res ReleasePlan :=
  let! lockbox := loadLockbox db lockboxId in
  do! require (can (actor c) lockbox_release (resourceOf ResourceType.lockbox (LockboxRow.id lockbox) (Some (LockboxRow.sealerOrgId lockbox))) noContext);
  do! match organization_findById db (lq_recipientOrgId input) with
      | None => Throw (badRequest "recipientOrgId does not reference a real organization.")
      | Some _ => Ok tt
      end;
  do! Lockbox.assertValidLockboxReleaseCascade (statusName lockbox);
  let! keks := loadRoleKeks in
  Ok {| rl_lockbox := lockbox; rl_keks := keks |}.

(** [toBuffer(row.field!)]: [Buffer.from(null)] is a TypeError. *)
Definition toBuffer (b : option (list Z)) : res (list Z) :=
  match b with Some b => Ok b | None => Throw (TypeError "The first argument must be of type string or an instance of Buffer") end.

Definition wrappedShareOf (row : LockboxKeyShareRow.t) : res WrappedShare :=
  let! ct := toBuffer (LockboxKeyShareRow.wrappedShare row) in
  let! i := toBuffer (LockboxKeyShareRow.shareIv row) in
  let! tag := toBuffer (LockboxKeyShareRow.shareAuthTag row) in
  Ok {| Envelope.role := LockboxKeyShareRow.holderRole row; w_index := LockboxKeyShareRow.shareIndex row;
        wrapped := {| iv := i; ciphertext := ct; authTag := tag |} |}.

Definition envelopeOfRow (l : LockboxRow.t) : AesGcmCiphertext :=
  {| iv := LockboxRow.iv l; ciphertext := LockboxRow.ciphertext l; authTag := LockboxRow.authTag l |}.

(** Whatever [releasePayload] throws becomes one non-retryable 500. *)
Definition openEnvelope (env : AesGcmCiphertext) (ws : list WrappedShare) (keks : RoleKeks) (aad : list Z) : res (list Z) :=
  match releasePayload gcm_decrypt env ws keks (Some aad) with
  | Ok p => Ok p
  | Throw _ => Throw (ProblemError 500 "internal_error" "Lockbox release failed cryptographic verification" false)
  end.

(** The statuses between the current one and FROZEN. *)
Definition remainingHops (st : Lockbox.LockboxStatus) : list Lockbox.LockboxStatus :=
  let startIdx := Lockbox.index_from 0 (Lockbox.LockboxStatus_name st) (map Lockbox.LockboxStatus_name Lockbox.LOCKBOX_RELEASE_CASCADE) in
  removelast (drop (Z.to_nat (startIdx + 1)) Lockbox.LOCKBOX_RELEASE_CASCADE).

Fixpoint walkCascade (x : string) (user : string) (current : Lockbox.LockboxStatus) (hops : list Lockbox.LockboxStatus)
    : Tx Lockbox.LockboxStatus :=
  match hops with
  | [] => tret current
  | next :: rest =>
      do* tlift (Lockbox.assertValidLockboxTransition (Lockbox.LockboxStatus_name current) (Lockbox.LockboxStatus_name next));
      do* lockbox_updateStatus x next (Some user);
      walkCascade x user next rest
  end.

(** The part under the lock that recovers the payload. *)
Definition disclose (lockboxId : string) (keks : RoleKeks) (db : Db) : res (LockboxRow.t * LockboxPayload) :=
  match lockbox_findById db lockboxId with
  | None => Throw (internal "Lockbox disappeared mid-transaction.")
  | Some fresh =>
      do! Lockbox.assertValidLockboxReleaseCascade (statusName fresh);
      let activeShares := keyShare_findActiveByLockboxAndRoles db lockboxId RELEASE_AUTHORIZING_ROLES in
      do! throw_if (Nat.ltb (length activeShares) 2) (conflict "Release requires OPERATOR+ESCROW shares" false);
      let! ws := mapM_res wrappedShareOf activeShares in
      let! plaintext := openEnvelope (envelopeOfRow fresh) ws keks (lockboxAad lockboxId) in
      let! payload := deserializePayload plaintext in
      Ok (fresh, payload)
  end.

Definition authorizedRoleNames : list string := map Lockbox.LockboxShareRole_name RELEASE_AUTHORIZING_ROLES.

Definition release_tx (c : Call) (lockboxId : string) (input : ReleaseLockboxRequest) (p : ReleasePlan) : Tx ReleaseResult :=
  let* (fresh, payload) := fun db => tlift (disclose lockboxId (rl_keks p) db) db in
  let* current := walkCascade lockboxId (userId (actor c)) (LockboxRow.status fresh) (remainingHops (LockboxRow.status fresh)) in
  do* tlift (Lockbox.assertValidLockboxTransition (Lockbox.LockboxStatus_name current) "OPENED");
  let releasedAt := now c in
  let* updated := lockbox_markOpened lockboxId releasedAt (lq_recipientOrgId input) (lq_conditionRef input) (userId (actor c)) in
  let* receipt := treads (fun db => receipt_findLatestByLockbox db lockboxId) in
  let* evidence := releaseEvidence_create {|
    re_lockboxId := lockboxId; re_recipientOrgId := lq_recipientOrgId input; re_releasedAt := releasedAt;
    re_authorizedByUserId := userId (actor c); re_authorizedRoles := authorizedRoleNames; re_conditionRef := lq_conditionRef input;
    re_ciphertextHash := LockboxRow.ciphertextHash fresh; re_receiptId := LockboxReceiptRow.id <$> receipt |} in
  do* auditWriter (context c) (audit_of c (Some (LockboxRow.sealerOrgId (rl_lockbox p))) "lockbox.released" "lockbox" lockboxId
        (JObj [("recipientOrgId", JStr (lq_recipientOrgId input)); ("conditionRef", JStr (lq_conditionRef input));
               ("authorizedRoles", JArr (map JStr authorizedRoleNames)); ("ciphertextHash", JStr (LockboxRow.ciphertextHash fresh))]));
  do* timelineWriter (context c) (event_of c "lockbox.committed" "lockbox" lockboxId
        (JObj [("ciphertextHash", JStr (LockboxRow.ciphertextHash fresh))]));
  do* timelineWriter (context c) (event_of c "lockbox.opened" "lockbox" lockboxId
        (JObj [("recipientOrgId", JStr (lq_recipientOrgId input)); ("conditionRef", JStr (lq_conditionRef input));
               ("authorizedRoles", JArr (map JStr authorizedRoleNames)); ("ciphertextHash", JStr (LockboxRow.ciphertextHash fresh))]));
  tret {| lockbox := updated; releaseEvidence := evidence; disclosedPayload := payload |}.

End Service.
