(* ===== verification/LockboxSystem.v ===== *)
(** * The invariant of the lockbox tables

    What holds of a lockbox between any two transactions: it is the sealing of
    a payload, its three key shares are all there until it is withdrawn and
    all gone afterwards, its one receipt carries a signature of its own
    columns, and it has release evidence, one piece, exactly when it was
    opened. *)
From S2P Require Import Prelude StableSort Lifecycle DomainStates Money Gf256 Shamir Envelope Receipt.
From S2P Require Import AuthzMatrix Authz JsonText Database Tables ApiShared LockboxRepositories LockboxService.
From Stdlib Require Import Ascii.

Section Inv.
Context `{Platform}
        (config : LockboxConfig)
        (gcm_encrypt : list Z -> list Z -> option (list Z) -> list Z -> list Z * list Z)
        (gcm_decrypt : list Z -> list Z -> option (list Z) -> list Z -> list Z -> option (list Z))
        (sha256_hex : list Z -> string)
        (hmac : list Z -> list ascii -> list Z).

(** ** The rows that belong to a lockbox *)

Definition sharesOf (db : Db) (x : string) : list LockboxKeyShareRow.t :=
  List.filter (fun r => String.eqb (LockboxKeyShareRow.lockboxId r) x) (lockboxKeyShares db).
Definition receiptsOf (db : Db) (x : string) : list LockboxReceiptRow.t :=
  List.filter (fun r => String.eqb (LockboxReceiptRow.lockboxId r) x) (lockboxReceipts db).
Definition evidenceOf (db : Db) (x : string) : list LockboxReleaseEvidenceRow.t :=
  List.filter (fun r => String.eqb (LockboxReleaseEvidenceRow.lockboxId r) x) (lockboxReleaseEvidence db).

(** ** One lockbox *)

(** A payload the request schema accepts. *)
Definition acceptable (p : LockboxPayload) : Prop := parseLockboxPayload (payloadJson p) = Some p.

(** The columns of the row are the sealing of [p] under its own identifier. *)
Definition seals (row : LockboxRow.t) (p : LockboxPayload) (ws : list WrappedShare) : Prop :=
  exists keks rnd e, loadRoleKeks config = Ok keks /\ goodSealRandom rnd /\ acceptable p /\
    sealPayload gcm_encrypt sha256_hex rnd (serializePayload p) keks (Some (lockboxAad (LockboxRow.id row))) = Ok e /\
    envelopeOfRow row = envelopeOf e /\ LockboxRow.ciphertextHash row = Envelope.ciphertextHash e /\ ws = shares e.

Definition share_live (w : WrappedShare) (r : LockboxKeyShareRow.t) : Prop := wrappedShareOf r = Ok w.
Definition share_gone (w : WrappedShare) (r : LockboxKeyShareRow.t) : Prop :=
  LockboxKeyShareRow.wrappedShare r = None /\ LockboxKeyShareRow.shareIv r = None /\ LockboxKeyShareRow.shareAuthTag r = None.

Definition shares_kept (st : Lockbox.LockboxStatus) (ws : list WrappedShare) (rs : list LockboxKeyShareRow.t) : Prop :=
  Forall2 (if decide (st = Lockbox.WITHDRAWN) then share_gone else share_live) ws rs.

(** The payload the receipt's own columns and the lockbox determine. *)
Definition receipt_fields (row : LockboxRow.t) : LockboxReceiptPayload :=
  receiptPayload (LockboxRow.id row) (LockboxRow.ciphertextHash row) (LockboxRow.sealerOrgId row) (LockboxRow.sealedAt row).

Definition receipt_of (row : LockboxRow.t) (r : LockboxReceiptRow.t) : Prop :=
  LockboxReceiptRow.ciphertextHash r = LockboxRow.ciphertextHash row /\ LockboxReceiptRow.sealerOrgId r = LockboxRow.sealerOrgId row /\
  LockboxReceiptRow.sealedAt r = LockboxRow.sealedAt row /\
  exists key, loadReceiptHmacKey config = Ok key /\
    LockboxReceiptRow.signature r = String.string_of_list_ascii (signReceipt hmac (payload_fields (receipt_fields row)) key).

Definition evidence_of (row : LockboxRow.t) (vs : list LockboxReleaseEvidenceRow.t) : Prop :=
  match LockboxRow.status row with
  | Lockbox.SEALED | Lockbox.WITHDRAWN => vs = []
  | Lockbox.OPENED => exists v, vs = [v] /\ LockboxRow.recipientOrgId row = Some (LockboxReleaseEvidenceRow.recipientOrgId v) /\
      LockboxReleaseEvidenceRow.ciphertextHash v = LockboxRow.ciphertextHash row
  | _ => False
  end.

Record boxed (db : Db) (row : LockboxRow.t) (p : LockboxPayload) : Prop := {
  bx_shares : exists ws, seals row p ws /\ shares_kept (LockboxRow.status row) ws (sharesOf db (LockboxRow.id row));
  bx_receipt : exists r, receiptsOf db (LockboxRow.id row) = [r] /\ receipt_of row r;
  bx_evidence : evidence_of row (evidenceOf db (LockboxRow.id row))
}.

(** ** All of them *)

Definition owned (db : Db) (x : string) : Prop := x ∈ map LockboxRow.id (lockboxes db).

Record box_ok (db : Db) : Prop := {
  ok_table : table_ok db (lockboxes db);
  ok_shares : Forall (fun r => owned db (LockboxKeyShareRow.lockboxId r)) (lockboxKeyShares db);
  ok_receipts : Forall (fun r => owned db (LockboxReceiptRow.lockboxId r)) (lockboxReceipts db);
  ok_evidence : Forall (fun r => owned db (LockboxReleaseEvidenceRow.lockboxId r)) (lockboxReleaseEvidence db);
  ok_rows : forall row, row ∈ lockboxes db -> exists p, boxed db row p
}.

(** ** Opening a sealed lockbox *)

Lemma keyHex_length hex label k : parseKeyHex hex label = Ok k -> length k = AES_KEY_BYTES.
Proof. intros E. by destruct (proj1 (parseKeyHex_exact hex label) k E). Qed.

Lemma loadRoleKeks_good keks : loadRoleKeks config = Ok keks -> goodKeks keks.
Proof.
  unfold loadRoleKeks. intros (k1 & H1 & E)%rbind_Ok. apply rbind_Ok in E as (k2 & H2 & E). apply rbind_Ok in E as (k3 & H3 & E).
  injection E as <-. intros []; simpl; by eapply keyHex_length.
Qed.

Lemma byte_code c : byte (code c) = c.
Proof. unfold byte, code. rewrite Nat2Z.id. apply Ascii.ascii_nat_embedding. Qed.

Lemma bytesText_utf8 s : bytesText (utf8Bytes s) = s.
Proof. unfold bytesText, utf8Bytes. rewrite map_map, (map_ext _ id); [apply map_id|]. intros c. apply byte_code. Qed.

Lemma payload_roundtrip p : acceptable p -> deserializePayload (serializePayload p) = Ok p.
Proof.
  intros A. unfold deserializePayload, serializePayload. rewrite bytesText_utf8, json_roundtrip by reflexivity. by rewrite A.
Qed.

Hypothesis gcm_ok : gcm_correct gcm_encrypt gcm_decrypt.

Lemma seals_shape row p ws : seals row p ws -> map role ws = Lockbox.LOCKBOX_SHARE_ROLES.
Proof.
  intros (keks & rnd & e & Hk & Hr & _ & He & _ & _ & ->).
  destruct (seal_release gcm_encrypt gcm_decrypt sha256_hex rnd (serializePayload p) keks (Some (lockboxAad (LockboxRow.id row)))
    gcm_ok (loadRoleKeks_good _ Hk) Hr) as (e' & He' & Hroles & _). congruence.
Qed.

Lemma roles_shape (ws : list WrappedShare) : map role ws = Lockbox.LOCKBOX_SHARE_ROLES ->
  exists w1 w2 w3, ws = [w1; w2; w3] /\ role w1 = Lockbox.SEALER /\ role w2 = Lockbox.OPERATOR /\ role w3 = Lockbox.ESCROW.
Proof. destruct ws as [|w1 [|w2 [|w3 [|w4 ws]]]]; try done. intros [= ???]. by exists w1, w2, w3. Qed.

Lemma share_live_role w r : share_live w r -> LockboxKeyShareRow.holderRole r = role w /\ is_Some (LockboxKeyShareRow.wrappedShare r).
Proof.
  unfold share_live, wrappedShareOf, toBuffer. destruct (LockboxKeyShareRow.wrappedShare r); simpl; [|done]. intros E. inv_ok. simpl. split; [done|by eexists].
Qed.

(** The two shares a release combines. *)
Lemma active_shares db x ws : map role ws = Lockbox.LOCKBOX_SHARE_ROLES -> Forall2 share_live ws (sharesOf db x) ->
  exists w2 w3 r2 r3, keyShare_findActiveByLockboxAndRoles db x RELEASE_AUTHORIZING_ROLES = [r2; r3] /\
    share_live w2 r2 /\ share_live w3 r3 /\ [w2; w3] ⊆ ws /\ role w2 = Lockbox.OPERATOR /\ role w3 = Lockbox.ESCROW.
Proof.
  intros (w1 & w2 & w3 & -> & R1 & R2 & R3)%roles_shape HF.
  inversion HF as [|? r1 ? l1 L1 HF1]; subst. inversion HF1 as [|? r2 ? l2 L2 HF2]; subst.
  inversion HF2 as [|? r3 ? l3 L3 HF3]; subst. inversion HF3; subst.
  exists w2, w3, r2, r3. split_and!; [|done|done|set_solver|done|done].
  unfold keyShare_findActiveByLockboxAndRoles.
  assert (forall l, List.filter (fun r => activeShare x r && bool_decide (LockboxKeyShareRow.holderRole r ∈ RELEASE_AUTHORIZING_ROLES)) l
    = List.filter (fun r => bool_decide (is_Some (LockboxKeyShareRow.wrappedShare r)) && bool_decide (LockboxKeyShareRow.holderRole r ∈ RELEASE_AUTHORIZING_ROLES))
        (List.filter (fun r => String.eqb (LockboxKeyShareRow.lockboxId r) x) l)) as ->.
  { intros l. unfold activeShare. induction l as [|r l IH]; [done|]. simpl. destruct (String.eqb _ x); simpl; [|done].
    by rewrite IH. }
  fold (sharesOf db x). match goal with E : _ = sharesOf db x |- _ => rewrite <- E end.
  destruct (share_live_role _ _ L1) as [G1 S1], (share_live_role _ _ L2) as [G2 S2], (share_live_role _ _ L3) as [G3 S3].
  simpl. rewrite G1, G2, G3, R1, R2, R3.
  by rewrite (bool_decide_eq_true_2 _ S1), (bool_decide_eq_true_2 _ S2), (bool_decide_eq_true_2 _ S3).
Qed.

Lemma open_sealed row p ws w2 w3 keks : seals row p ws -> loadRoleKeks config = Ok keks ->
  [w2; w3] ⊆ ws -> role w2 = Lockbox.OPERATOR -> role w3 = Lockbox.ESCROW ->
  openEnvelope gcm_decrypt (envelopeOfRow row) [w2; w3] keks (lockboxAad (LockboxRow.id row)) = Ok (serializePayload p).
Proof.
  intros (keks' & rnd & e & Hk & Hr & _ & He & Henv & _ & ->) Hk' Hsub R2 R3. assert (keks' = keks) as -> by congruence.
  destruct (seal_release gcm_encrypt gcm_decrypt sha256_hex rnd (serializePayload p) keks (Some (lockboxAad (LockboxRow.id row)))
    gcm_ok (loadRoleKeks_good _ Hk) Hr) as (e' & He' & _ & Hrel). assert (e' = e) as -> by congruence.
  unfold openEnvelope. rewrite Henv, Hrel; [done| |done|done].
  apply NoDup_cons. split; [|apply NoDup_singleton]. rewrite list_elem_of_singleton. congruence.
Qed.

(** Under the lock, a sealed lockbox gives back the payload that was sealed. *)
Lemma disclose_boxed db row p keks : boxed db row p -> lockbox_findById db (LockboxRow.id row) = Some row ->
  LockboxRow.status row <> Lockbox.WITHDRAWN -> is_ok (Lockbox.assertValidLockboxReleaseCascade (statusName row)) = true ->
  loadRoleKeks config = Ok keks -> disclose gcm_decrypt (LockboxRow.id row) keks db = Ok (row, p).
Proof.
  intros [(ws & Hs & Hkept) _ _] Hf Hst Hc Hk. unfold shares_kept in Hkept. rewrite decide_False in Hkept by done.
  destruct (active_shares db _ ws (seals_shape _ _ _ Hs) Hkept) as (w2 & w3 & r2 & r3 & Ha & L2 & L3 & Hsub & R2 & R3).
  unfold disclose. rewrite Hf, Ha. destruct (Lockbox.assertValidLockboxReleaseCascade _) as [[]|]; [|done].
  assert (mapM_res wrappedShareOf [r2; r3] = Ok [w2; w3]) as -> by (cbn [mapM_res]; by rewrite L2, L3).
  change (Nat.ltb (length [r2; r3]) 2) with false. cbn [rbind throw_if]. erewrite open_sealed by done. cbn [rbind].
  rewrite payload_roundtrip; [done|]. by destruct Hs as (? & ? & ? & _ & _ & A & _).
Qed.

End Inv.

(** * What each lockbox transaction writes

    For every mutation of the lockbox service, the tables after the
    transaction in terms of the tables before it, given that it commits. *)

Section Effects.
Context `{Platform}
        (config : LockboxConfig)
        (gcm_encrypt : list Z -> list Z -> option (list Z) -> list Z -> list Z * list Z)
        (gcm_decrypt : list Z -> list Z -> option (list Z) -> list Z -> list Z -> option (list Z))
        (sha256_hex : list Z -> string)
        (hmac : list Z -> list ascii -> list Z).

(** ** Updates of one lockbox *)

(** The columns no update touches. *)
Definition sealed_columns (r : LockboxRow.t) :=
  (LockboxRow.id r, LockboxRow.sealerOrgId r, envelopeOfRow r, LockboxRow.ciphertextHash r, LockboxRow.sealedAt r).

Record keeps_seal (f : LockboxRow.t -> LockboxRow.t) : Prop := {
  kp_identity : keeps_identity f;
  kp_columns : forall r, sealed_columns (f r) = sealed_columns r
}.

Lemma lockboxWith_keeps st user wd rl : keeps_seal (lockboxWith st user wd rl).
Proof. split; [|done]. intros r. done. Qed.

Lemma keeps_compose f g : keeps_seal f -> keeps_seal g -> keeps_seal (fun r => g (f r)).
Proof.
  intros [F1 F2] [G1 G2]. split.
  - intros r. rewrite (proj1 (G1 _)), (proj2 (G1 _)). apply F1.
  - intros r. by rewrite G2, F2.
Qed.

Lemma keeps_id : keeps_seal (fun r => r).
Proof. by split. Qed.

Lemma updating_same x (t : list LockboxRow.t) : map (updating x (fun r => r)) t = t.
Proof. rewrite (map_ext _ id); [apply map_id|]. intros r. unfold updating. by destruct (byId x r). Qed.

(** The tables other than the lockboxes. *)
Record box_frame (db db' : Db) : Prop := {
  fr_shares : lockboxKeyShares db' = lockboxKeyShares db;
  fr_receipts : lockboxReceipts db' = lockboxReceipts db;
  fr_evidence : lockboxReleaseEvidence db' = lockboxReleaseEvidence db;
  fr_clock : clock db' = clock db;
  fr_drawn : (drawn db <= drawn db')%nat
}.

Lemma box_frame_refl db : box_frame db db.
Proof. split; (done || lia). Qed.

Lemma box_frame_trans db1 db2 db3 : box_frame db1 db2 -> box_frame db2 db3 -> box_frame db1 db3.
Proof. intros [] []. split; (congruence || lia). Qed.

Lemma lockbox_update_Ok x f db r db' : lockbox_update x f db = Ok (r, db') ->
  exists r0, lockbox_findById db x = Some r0 /\ r = f r0 /\ lockboxes db' = map (updating x f) (lockboxes db) /\ box_frame db db'.
Proof.
  unfold lockbox_update. destruct (updateById x f (lockboxes db)) as [[r' t]|] eqn:E; [|done]. cbn. intros [= <- <-].
  apply updateById_Ok in E as (r0 & Hf & -> & ->). exists r0. split_and!; [done..|]. split; simpl; (done || lia).
Qed.

Lemma walkCascade_Ok x user hops cur db st db' : walkCascade x user cur hops db = Ok (st, db') ->
  exists f, keeps_seal f /\ lockboxes db' = map (updating x f) (lockboxes db) /\ box_frame db db'.
Proof.
  revert cur db. induction hops as [|next hops IH]; intros cur db E; cbn [walkCascade] in E; inv_tx.
  - exists (fun r => r). split_and!; [apply keeps_id|by rewrite updating_same|apply box_frame_refl].
  - apply lockbox_update_Ok in H1 as (r0 & _ & _ & El & Fr1). apply IH in E as (f & K & Ef & Fr2).
    exists (fun r => f (lockboxWith next (Some user) None None r)). split_and!.
    + apply keeps_compose; [apply lockboxWith_keeps|done].
    + rewrite Ef, El, updating_twice; [done|]. apply lockboxWith_keeps.
    + by eapply box_frame_trans.
Qed.

Lemma journalled_frame au ev db : box_frame db (journalled au ev db).
Proof. split; simpl; (done || lia). Qed.

(** ** seal *)

Lemma keyShare_createMany_Ok x ws db u db' : keyShare_createMany (map (shareInput x) ws) db = Ok (u, db') ->
  exists rows, Forall2 (fun w r => LockboxKeyShareRow.lockboxId r = x /\ share_live w r) ws rows /\
    lockboxKeyShares db' = lockboxKeyShares db ++ rows /\ lockboxes db' = lockboxes db /\ lockboxReceipts db' = lockboxReceipts db /\
    lockboxReleaseEvidence db' = lockboxReleaseEvidence db /\ clock db' = clock db /\ (drawn db <= drawn db')%nat.
Proof.
  unfold keyShare_createMany. intros E. inv_tx. match goal with H : tmapM _ _ _ = Ok (?v, _) |- _ => rename H into E; revert E; generalize v; clear v end.
  revert db. induction ws as [|w ws IH]; intros db us E; cbn [map tmapM] in E; inv_tx.
  - exists []. rewrite app_nil_r. split_and!; (done || lia || constructor).
  - unfold keyShare_create in H0. inv_tx. simplify_eq. apply IH in H1 as (rows & HF & Hs & Hl & Hr & He & Hc & Hd).
    eexists (_ :: rows). cbn in Hs, Hl, Hr, He, Hc, Hd. rewrite <- app_assoc in Hs. split_and!; [|exact Hs|done|done|done|done|lia].
    constructor; [|done]. split; [done|]. unfold share_live, wrappedShareOf. cbn. destruct w as [? ? []]. done.
Qed.

Record seal_effect (db db' : Db) (rnd : SealRandom) (p : LockboxPayload) (org : string) (row : LockboxRow.t) : Prop := {
  se_id : LockboxRow.id row = newId (drawn db);
  se_status : LockboxRow.status row = Lockbox.SEALED;
  se_org : LockboxRow.sealerOrgId row = org;
  se_created : row_createdAt row = clock db;
  se_lockboxes : lockboxes db' = lockboxes db ++ [row];
  se_shares : exists keks e rows, loadRoleKeks config = Ok keks /\
    sealPayload gcm_encrypt sha256_hex rnd (serializePayload p) keks (Some (lockboxAad (LockboxRow.id row))) = Ok e /\
    envelopeOfRow row = envelopeOf e /\ LockboxRow.ciphertextHash row = Envelope.ciphertextHash e /\
    lockboxKeyShares db' = lockboxKeyShares db ++ rows /\
    Forall2 (fun w r => LockboxKeyShareRow.lockboxId r = LockboxRow.id row /\ share_live w r) (shares e) rows;
  se_receipt : exists r, lockboxReceipts db' = lockboxReceipts db ++ [r] /\ LockboxReceiptRow.lockboxId r = LockboxRow.id row /\
    receipt_of config hmac row r;
  se_evidence : lockboxReleaseEvidence db' = lockboxReleaseEvidence db;
  se_clock : clock db' = clock db;
  se_drawn : (drawn db < drawn db')%nat
}.

Lemma seal_Ok c input rnd org db row db' : seal_tx config gcm_encrypt sha256_hex hmac c input rnd org db = Ok (row, db') ->
  seal_effect db db' rnd (sq_payload input) org row.
Proof.
  unfold seal_tx. intros E. apply tbind_Ok in E as (x & db1 & Ex & E). unfold freshId in Ex. injection Ex as <- <-.
  apply tbind_Ok in E as (keks & ? & [Hk ->]%tlift_Ok & E). apply tbind_Ok in E as (e & ? & [He ->]%tlift_Ok & E).
  apply tbind_Ok in E as (key & ? & [Hkey ->]%tlift_Ok & E). apply tbind_Ok in E as (row' & db2 & Hrow & E).
  unfold lockbox_createSealed in Hrow. injection Hrow as <- <-.
  apply tbind_Ok in E as (u & db3 & (rows & HF & Hs & Hl & Hr & Hev & Hc & Hd)%keyShare_createMany_Ok & E).
  apply tbind_Ok in E as (r & db4 & Er & E). unfold receipt_create in Er.
  apply tbind_Ok in Er as (i & ? & [= <- <-] & [= <- <-]).
  apply journal_Ok in E as (au & ev & E & _). inv_tx. cbn in Hs, Hl, Hr, Hev, Hc, Hd.
  split; cbn; try done; try lia.
  - by exists keks, e, rows.
  - eexists. split; [by rewrite Hr|]. split; [done|]. split_and!; try done. by exists key.
Qed.

(** ** withdraw *)

Definition destroying (x : string) (at_ : Z) (why : string) (r : LockboxKeyShareRow.t) : LockboxKeyShareRow.t :=
  if activeShare x r then destroyedShare at_ why r else r.

Record withdraw_effect (db db' : Db) (x : string) (row' : LockboxRow.t) : Prop := {
  we_row : exists row f, lockbox_findById db x = Some row /\ assertWithdrawable row = Ok tt /\ keeps_seal f /\
    (forall r, LockboxRow.status (f r) = Lockbox.WITHDRAWN) /\ row' = f row /\ lockboxes db' = map (updating x f) (lockboxes db);
  we_shares : exists at_ why, lockboxKeyShares db' = map (destroying x at_ why) (lockboxKeyShares db);
  we_count : length (List.filter (activeShare x) (lockboxKeyShares db)) = 3%nat;
  we_receipts : lockboxReceipts db' = lockboxReceipts db;
  we_evidence : lockboxReleaseEvidence db' = lockboxReleaseEvidence db;
  we_clock : clock db' = clock db;
  we_drawn : (drawn db <= drawn db')%nat
}.

Lemma withdraw_Ok c x input l db row' db' : withdraw_tx c x input l db = Ok (row', db') -> withdraw_effect db db' x row'.
Proof.
  unfold withdraw_tx. intros E. apply tbind_Ok in E as (fresh & db1 & Ef & E). unfold freshLockbox in Ef.
  destruct (lockbox_findById db x) as [row|] eqn:Hf; [|done]. injection Ef as <- <-.
  apply tbind_Ok in E as ([] & ? & [Hw ->]%tlift_Ok & E).
  apply tbind_Ok in E as (r1 & db2 & (r0 & Hf0 & -> & El & Fr)%lockbox_update_Ok & E). rewrite Hf in Hf0. injection Hf0 as <-.
  apply tbind_Ok in E as (n & db3 & Ed & E). unfold keyShare_destroyAllByLockbox in Ed. injection Ed as <- <-.
  apply tbind_Ok in E as ([] & ? & [Hn%throw_if_Ok ->]%tlift_Ok & E). apply journal_Ok in E as (au & ev & E & _). inv_tx.
  destruct Fr as [F1 F2 F3 F4 F5]. rewrite F1 in Hn. apply negb_false_iff, Z.eqb_eq in Hn.
  split; cbn; try done; try lia.
  - eexists row, _. split_and!; [done|done|apply lockboxWith_keeps|done|done|done].
  - eexists _, _. rewrite F1. done.
Qed.

(** ** release *)

Record release_effect (db db' : Db) (keks : RoleKeks) (x : string) (input : ReleaseLockboxRequest) (res : ReleaseResult) : Prop := {
  le_row : exists row f, disclose gcm_decrypt x keks db = Ok (row, disclosedPayload res) /\ keeps_seal f /\
    (forall r, LockboxRow.status (f r) = Lockbox.OPENED /\ LockboxRow.recipientOrgId (f r) = Some (lq_recipientOrgId input)) /\
    lockbox res = f row /\ lockboxes db' = map (updating x f) (lockboxes db);
  le_shares : lockboxKeyShares db' = lockboxKeyShares db;
  le_receipts : lockboxReceipts db' = lockboxReceipts db;
  le_evidence : exists v, lockboxReleaseEvidence db' = lockboxReleaseEvidence db ++ [v] /\ LockboxReleaseEvidenceRow.lockboxId v = x /\
    LockboxReleaseEvidenceRow.recipientOrgId v = lq_recipientOrgId input /\ releaseEvidence res = v /\
    LockboxReleaseEvidenceRow.ciphertextHash v = LockboxRow.ciphertextHash (lockbox res);
  le_clock : clock db' = clock db;
  le_drawn : (drawn db <= drawn db')%nat
}.

Lemma disclose_find x keks db row p : disclose gcm_decrypt x keks db = Ok (row, p) -> lockbox_findById db x = Some row.
Proof. unfold disclose. destruct (lockbox_findById db x); [|done]. intros E. inv_ok. done. Qed.

Lemma release_Ok c x input p db res db' : release_tx gcm_decrypt c x input p db = Ok (res, db') ->
  release_effect db db' (rl_keks p) x input res.
Proof.
  unfold release_tx. intros E. apply tbind_Ok in E as ([row payload] & ? & [Hd ->]%tlift_Ok & E).
  apply tbind_Ok in E as (cur & db1 & (f & K & Ef & Fr1)%walkCascade_Ok & E).
  apply tbind_Ok in E as ([] & ? & [_ ->]%tlift_Ok & E).
  apply tbind_Ok in E as (r1 & db2 & (r0 & Hf0 & -> & El & Fr2)%lockbox_update_Ok & E).
  pose proof (disclose_find _ _ _ _ _ Hd) as Hf. unfold lockbox_findById in *. rewrite Ef in Hf0.
  rewrite (findById_updating (lockboxes db) x f row (kp_identity _ K) Hf) in Hf0. injection Hf0 as <-.
  apply tbind_Ok in E as (rc & ? & Erc & E). unfold treads in Erc. injection Erc as <- <-.
  apply tbind_Ok in E as (v & db3 & Ev & E). unfold releaseEvidence_create in Ev.
  apply tbind_Ok in Ev as (i & ? & [= <- <-] & [= <- <-]).
  apply journal_Ok in E as (au & ev & E & _). apply tbind_Ok in E as (ev2 & db4 & Ev2 & E).
  unfold timelineWriter, domainEventRepository_write in Ev2. apply tbind_Ok in Ev2 as (i2 & ? & [= <- <-] & [= <- <-]). inv_tx.
  pose proof (box_frame_trans _ _ _ Fr1 Fr2) as [F1 F2 F3 F4 F5].
  split; cbn; try done; try lia.
  - exists row, (fun r => lockboxWith Lockbox.OPENED (Some (Actions.userId (actor c))) None
      (Some (now c, lq_recipientOrgId input, lq_conditionRef input)) (f r)). split_and!; [done| | |done|].
    + apply keeps_compose; [exact K|]. eapply (lockboxWith_keeps Lockbox.OPENED).
    + done.
    + rewrite El, Ef, updating_twice; [done|]. apply K.
  - eexists. split; [by rewrite F3|]. split_and!; [done..|]. simpl. pose proof (kp_columns _ K row) as C. unfold sealed_columns in C. by simplify_eq.
Qed.

End Effects.

(** * The lockbox service as a handler over one database

    Every transaction of the service, and everything else on the platform,
    [carries] the lockboxes: the payload a lockbox seals, its sealed columns
    and, once it left SEALED, its status are the same afterwards. *)
From S2P Require Import Transactions.
#[local] Open Scope Z_scope.

Inductive BoxReq : Type :=
| Seal (c : Call) (input : SealLockboxRequest) (rnd : SealRandom)
| Withdraw (c : Call) (lockboxId : string) (input : WithdrawLockboxRequest)
| Release (c : Call) (lockboxId : string) (input : ReleaseLockboxRequest).

Definition box_plan (r : BoxReq) : Type :=
  match r with Seal _ _ _ => string | Withdraw _ _ _ => LockboxRow.t | Release _ _ _ => ReleasePlan end.

Definition box_out (r : BoxReq) : Type :=
  match r with Seal _ _ _ => LockboxRow.t | Withdraw _ _ _ => LockboxRow.t | Release _ _ _ => ReleaseResult end.

(** What a request must bring: fresh random bytes of the right sizes and a
    payload the request schema accepts. *)
Definition box_sent (r : BoxReq) : Prop :=
  match r with Seal _ input rnd => goodSealRandom rnd /\ acceptable (sq_payload input) | _ => True end.

(** Everything else on the platform leaves the lockbox tables alone. *)
Record box_env (db db' : Db) : Prop := {
  be_lockboxes : lockboxes db' = lockboxes db;
  be_shares : lockboxKeyShares db' = lockboxKeyShares db;
  be_receipts : lockboxReceipts db' = lockboxReceipts db;
  be_evidence : lockboxReleaseEvidence db' = lockboxReleaseEvidence db;
  be_drawn : (drawn db <= drawn db')%nat;
  be_clock : clock db <= clock db'
}.

Section System.
Context `{Platform}
        (config : LockboxConfig)
        (gcm_encrypt : list Z -> list Z -> option (list Z) -> list Z -> list Z * list Z)
        (gcm_decrypt : list Z -> list Z -> option (list Z) -> list Z -> list Z -> option (list Z))
        (sha256_hex : list Z -> string)
        (hmac : list Z -> list ascii -> list Z).

Definition box_pre (r : BoxReq) (db : Db) : res (box_plan r) :=
  match r with
  | Seal c _ _ => seal_pre c db
  | Withdraw c x _ => withdraw_pre c x db
  | Release c x i => release_pre config c x i db
  end.

Definition box_tx (r : BoxReq) : box_plan r -> Tx (box_out r) :=
  match r with
  | Seal c i rnd => seal_tx config gcm_encrypt sha256_hex hmac c i rnd
  | Withdraw c x i => withdraw_tx c x i
  | Release c x i => release_tx gcm_decrypt c x i
  end.

Definition lockbox_service : Handler :=
  {| Req := BoxReq; Plan := box_plan; Out := box_out; Resp := box_out;
     h_pre := box_pre; h_look := fun _ p _ => p; h_tx := box_tx; h_finish := fun _ _ out => Ok out |}.

#[local] Notation boxed := (boxed config gcm_encrypt sha256_hex hmac).
#[local] Notation box_ok := (box_ok config gcm_encrypt sha256_hex hmac).
#[local] Notation seals := (seals config gcm_encrypt sha256_hex).

(** ** What persists *)

Definition succeeds (row row' : LockboxRow.t) : Prop :=
  sealed_columns row' = sealed_columns row /\
  (LockboxRow.status row <> Lockbox.SEALED ->
     LockboxRow.status row' = LockboxRow.status row /\ LockboxRow.recipientOrgId row' = LockboxRow.recipientOrgId row).

Definition carries (db db' : Db) : Prop :=
  forall y row p, lockbox_findById db y = Some row -> boxed db row p ->
    exists row', lockbox_findById db' y = Some row' /\ boxed db' row' p /\ succeeds row row'.

Lemma succeeds_refl row : succeeds row row.
Proof. by split. Qed.

Lemma find_id db x row : lockbox_findById db x = Some row -> LockboxRow.id row = x /\ row ∈ lockboxes db.
Proof.
  unfold lockbox_findById, findById, findUnique. intros (Hin & E)%find_some. unfold byId in E.
  apply String.eqb_eq in E. split; [done|]. by apply list_elem_of_In.
Qed.

Lemma columns_inv row row' : sealed_columns row' = sealed_columns row ->
  LockboxRow.id row' = LockboxRow.id row /\ LockboxRow.sealerOrgId row' = LockboxRow.sealerOrgId row /\
  envelopeOfRow row' = envelopeOfRow row /\ LockboxRow.ciphertextHash row' = LockboxRow.ciphertextHash row /\
  LockboxRow.sealedAt row' = LockboxRow.sealedAt row.
Proof.
  intros E. pose proof (f_equal (fun t => snd (fst (fst t))) E) as E3. cbn [sealed_columns fst snd] in E3.
  unfold sealed_columns in E. split_and!; [congruence|congruence|exact E3|congruence|congruence].
Qed.

Lemma columns_seals row row' p ws : sealed_columns row' = sealed_columns row -> seals row p ws -> seals row' p ws.
Proof. intros (E1 & _ & E3 & E4 & _)%columns_inv. unfold LockboxSystem.seals. by rewrite E1, E3, E4. Qed.

Lemma columns_receipt row row' r : sealed_columns row' = sealed_columns row ->
  receipt_of config hmac row r -> receipt_of config hmac row' r.
Proof. intros (E1 & E2 & _ & E4 & E5)%columns_inv. unfold receipt_of, receipt_fields. by rewrite E1, E2, E4, E5. Qed.

(** The rows kept for a lockbox are the same. *)
Record same_rows (db db' : Db) (x : string) : Prop := {
  sr_shares : sharesOf db' x = sharesOf db x;
  sr_receipts : receiptsOf db' x = receiptsOf db x;
  sr_evidence : evidenceOf db' x = evidenceOf db x
}.

Lemma boxed_frame db db' row p : same_rows db db' (LockboxRow.id row) -> boxed db row p -> boxed db' row p.
Proof. intros [S1 S2 S3] [B1 B2 B3]. split; by rewrite ?S1, ?S2, ?S3. Qed.

Lemma carries_env db db' : box_env db db' -> carries db db'.
Proof.
  intros [E1 E2 E3 E4 _ _] y row p Hf B. exists row. unfold lockbox_findById. rewrite E1. split_and!; [done| |apply succeeds_refl].
  eapply boxed_frame; [|exact B]. split; unfold sharesOf, receiptsOf, evidenceOf; by rewrite ?E2, ?E3, ?E4.
Qed.

(** An update of the lockbox [x] carries every other one. *)
Lemma carries_update db db' x f :
  lockboxes db' = map (updating x f) (lockboxes db) -> keeps_seal f -> (forall y, y <> x -> same_rows db db' y) ->
  (forall row p, lockbox_findById db x = Some row -> boxed db row p -> boxed db' (f row) p /\ succeeds row (f row)) -> carries db db'.
Proof.
  intros El K Hsame Hx y row p Hf B. destruct (decide (y = x)) as [->|Hne].
  - exists (f row). split; [|by apply Hx]. unfold lockbox_findById in *. rewrite El. by apply findById_updating; [apply K|].
  - exists row. unfold lockbox_findById in *. rewrite El, findById_updating_other by (done || apply K).
    split_and!; [done| |apply succeeds_refl]. eapply boxed_frame; [|exact B]. destruct (find_id db y row Hf) as [-> _]. by apply Hsame.
Qed.

(** ** The invariant from [carries] *)

Lemma owned_mono db db' x : map LockboxRow.id (lockboxes db) ⊆ map LockboxRow.id (lockboxes db') -> owned db x -> owned db' x.
Proof. unfold owned. set_solver. Qed.

Lemma find_owned db x : table_ok db (lockboxes db) -> owned db x -> exists row, lockbox_findById db x = Some row.
Proof. intros T (row & -> & Hr)%list_elem_of_fmap. exists row. exact (findById_elem db _ row T Hr). Qed.

Lemma box_ok_find db x row : box_ok db -> lockbox_findById db x = Some row -> exists p, boxed db row p.
Proof. intros B Hf. apply (ok_rows _ _ _ _ _ B). by destruct (find_id _ _ _ Hf). Qed.

Lemma box_ok_carried db db' : box_ok db -> carries db db' -> table_ok db' (lockboxes db') ->
  map LockboxRow.id (lockboxes db) ⊆ map LockboxRow.id (lockboxes db') ->
  (forall row, row ∈ lockboxes db' -> owned db (LockboxRow.id row) \/ exists p, boxed db' row p) ->
  Forall (fun r => owned db' (LockboxKeyShareRow.lockboxId r)) (lockboxKeyShares db') ->
  Forall (fun r => owned db' (LockboxReceiptRow.lockboxId r)) (lockboxReceipts db') ->
  Forall (fun r => owned db' (LockboxReleaseEvidenceRow.lockboxId r)) (lockboxReleaseEvidence db') -> box_ok db'.
Proof.
  intros B C T Hids Hrows H1 H2 H3. split; [done..|]. intros row Hr. destruct (Hrows row Hr) as [Ho|]; [|done].
  destruct (find_owned db _ (ok_table _ _ _ _ _ B) Ho) as (r0 & Hf). destruct (box_ok_find _ _ _ B Hf) as (p & Hp).
  destruct (C _ _ _ Hf Hp) as (r1 & Hf1 & Hb & _). exists p.
  assert (lockbox_findById db' (LockboxRow.id row) = Some row) as E by exact (findById_elem db' _ row T Hr). congruence.
Qed.

(** When only rows of existing lockboxes are rewritten. *)
Lemma box_ok_update db db' x f : box_ok db -> carries db db' -> lockboxes db' = map (updating x f) (lockboxes db) -> keeps_seal f ->
  (drawn db <= drawn db')%nat -> clock db' = clock db ->
  Forall (fun r => owned db (LockboxKeyShareRow.lockboxId r)) (lockboxKeyShares db') ->
  Forall (fun r => owned db (LockboxReceiptRow.lockboxId r)) (lockboxReceipts db') ->
  Forall (fun r => owned db (LockboxReleaseEvidenceRow.lockboxId r)) (lockboxReleaseEvidence db') -> box_ok db'.
Proof.
  intros B C El K Hd Hc H1 H2 H3.
  assert (map LockboxRow.id (lockboxes db') = map LockboxRow.id (lockboxes db)) as Ei.
  { rewrite El, map_map. apply map_ext. intros r. exact (updating_id x f r (kp_identity _ K)). }
  eapply (box_ok_carried db); [done|done| |by rewrite Ei| | | |].
  - rewrite El. apply table_update; [apply K|]. eapply table_same; [apply B|done|lia].
  - intros row Hr. left. unfold owned. rewrite <- Ei. by apply list_elem_of_fmap_2.
  - eapply Forall_impl; [exact H1|]. intros r. apply owned_mono. by rewrite Ei.
  - eapply Forall_impl; [exact H2|]. intros r. apply owned_mono. by rewrite Ei.
  - eapply Forall_impl; [exact H3|]. intros r. apply owned_mono. by rewrite Ei.
Qed.

End System.

(** * Every lockbox transaction keeps the invariant

    Sealing, withdrawing and releasing carry all the lockboxes there are and
    leave the tables in the state [box_ok] describes. *)
#[local] Open Scope Z_scope.

Section Commit.
Context `{Platform}
        (config : LockboxConfig)
        (gcm_encrypt : list Z -> list Z -> option (list Z) -> list Z -> list Z * list Z)
        (gcm_decrypt : list Z -> list Z -> option (list Z) -> list Z -> list Z -> option (list Z))
        (sha256_hex : list Z -> string)
        (hmac : list Z -> list ascii -> list Z).
Hypothesis gcm_ok : gcm_correct gcm_encrypt gcm_decrypt.

#[local] Notation boxed := (boxed config gcm_encrypt sha256_hex hmac).
#[local] Notation box_ok := (box_ok config gcm_encrypt sha256_hex hmac).
#[local] Notation carries := (carries config gcm_encrypt sha256_hex hmac).

(** ** Rows that belong to somebody else *)

Lemma filter_others {A} (key : A -> string) (l rows : list A) y :
  Forall (fun r => key r <> y) rows ->
  List.filter (fun r => String.eqb (key r) y) (l ++ rows) = List.filter (fun r => String.eqb (key r) y) l.
Proof.
  intros HF. rewrite List.filter_app, (filter_none _ rows), app_nil_r; [done|].
  intros r Hr. apply String.eqb_neq. by apply (proj1 (Forall_forall _ _) HF).
Qed.

Lemma filter_mine {A} (key : A -> string) (l rows : list A) y :
  Forall (fun r => key r <> y) l -> Forall (fun r => key r = y) rows ->
  List.filter (fun r => String.eqb (key r) y) (l ++ rows) = rows.
Proof.
  intros H1 H2. rewrite List.filter_app, filter_none, filter_all; [done| |].
  - intros r Hr. apply String.eqb_eq. by apply (proj1 (Forall_forall _ _) H2).
  - intros r Hr. apply String.eqb_neq. by apply (proj1 (Forall_forall _ _) H1).
Qed.

(** ** seal *)

Lemma owned_drawn db x : table_ok db (lockboxes db) -> owned db x -> x <> newId (drawn db).
Proof.
  intros [T _ _ _] (row & -> & Hr)%list_elem_of_fmap. pose proof (proj1 (Forall_forall _ _) T row Hr) as (n & Hn & E).
  change (row_id row) with (LockboxRow.id row) in E. rewrite E. intros E2%newId_inj. lia.
Qed.

Lemma owned_other {A} (key : A -> string) db l x : table_ok db (lockboxes db) -> Forall (fun r => owned db (key r)) l ->
  x = newId (drawn db) -> Forall (fun r => key r <> x) l.
Proof. intros T HF ->. eapply Forall_impl; [exact HF|]. intros r. by apply owned_drawn. Qed.

Lemma seal_boxed db db' rnd p org row : box_ok db -> goodSealRandom rnd -> acceptable p ->
  seal_effect config gcm_encrypt sha256_hex hmac db db' rnd p org row -> boxed db' row p.
Proof.
  intros [T O1 O2 O3 _] Hr Ha [Ei Est _ _ _ (keks & e & rows & Hk & He & Henv & Hh & Hs & HF) (r & Hrc & Hid & Hro) Hev _ _].
  assert (Forall (fun r => LockboxKeyShareRow.lockboxId r = LockboxRow.id row) rows) as HF'.
  { apply Forall_forall. intros r' (w & Hw & E)%(Forall2_elem_r _ _ _ _ HF). apply E. }
  split.
  - exists (shares e). split; [by exists keks, rnd, e|]. unfold shares_kept. rewrite Est, decide_False by done.
    unfold sharesOf. rewrite Hs, (filter_mine LockboxKeyShareRow.lockboxId); [|by eapply owned_other|done].
    eapply Forall2_impl; [exact HF|]. by intros ?? [_ ?].
  - exists r. split; [|done]. unfold receiptsOf. rewrite Hrc. apply (filter_mine LockboxReceiptRow.lockboxId); [by eapply owned_other|].
    by repeat constructor.
  - unfold evidence_of. rewrite Est. unfold evidenceOf. rewrite Hev, <- (app_nil_r (lockboxReleaseEvidence db)).
    apply (filter_mine LockboxReleaseEvidenceRow.lockboxId); [by eapply owned_other|constructor].
Qed.

Lemma seal_carries db db' rnd p org row : box_ok db ->
  seal_effect config gcm_encrypt sha256_hex hmac db db' rnd p org row -> carries db db'.
Proof.
  intros [T _ _ _ _] [Ei _ _ _ El (keks & e & rows & _ & _ & _ & _ & Hs & HF) (r & Hrc & Hid & _) Hev _ _] y row0 p0 Hf B.
  exists row0. unfold lockbox_findById in *. rewrite El. split_and!; [by apply findById_app_other| |apply succeeds_refl].
  destruct (find_id db y row0 Hf) as [Ey Hin].
  assert (LockboxRow.id row <> LockboxRow.id row0) as Hne.
  { rewrite Ei. apply not_eq_sym, owned_drawn; [done|]. by apply list_elem_of_fmap_2. }
  eapply boxed_frame; [|exact B]. split.
  - unfold sharesOf. rewrite Hs. apply (filter_others LockboxKeyShareRow.lockboxId). apply Forall_forall.
    intros r' (w & Hw & E & _)%(Forall2_elem_r _ _ _ _ HF). congruence.
  - unfold receiptsOf. rewrite Hrc. apply (filter_others LockboxReceiptRow.lockboxId). repeat constructor. congruence.
  - unfold evidenceOf. by rewrite Hev.
Qed.

Lemma seal_table db db' rnd p org row : box_ok db ->
  seal_effect config gcm_encrypt sha256_hex hmac db db' rnd p org row -> table_ok db' (lockboxes db').
Proof.
  intros [T _ _ _ _] [Ei _ _ Ec El _ _ _ Hc Hd]. rewrite El. eapply table_append; [exact T| |lia|done]. split.
  - repeat constructor. exists (drawn db). split; [lia|exact Ei].
  - apply NoDup_singleton.
  - by repeat constructor.
Qed.

Lemma seal_keeps db db' rnd p org row : box_ok db -> goodSealRandom rnd -> acceptable p ->
  seal_effect config gcm_encrypt sha256_hex hmac db db' rnd p org row -> box_ok db'.
Proof.
  intros B Hr Ha S. pose proof B as [T O1 O2 O3 _]. pose proof (seal_boxed _ _ _ _ _ _ B Hr Ha S) as Hb.
  assert (map LockboxRow.id (lockboxes db') = map LockboxRow.id (lockboxes db) ++ [LockboxRow.id row]) as Ei.
  { rewrite (se_lockboxes _ _ _ _ _ _ _ _ _ _ S). by rewrite map_app. }
  assert (map LockboxRow.id (lockboxes db) ⊆ map LockboxRow.id (lockboxes db')) as Hsub by (rewrite Ei; set_solver).
  assert (owned db' (LockboxRow.id row)) as Hrow by (unfold owned; rewrite Ei; set_solver).
  eapply (box_ok_carried _ _ _ _ db); [done|by eapply seal_carries|by eapply seal_table|done| | | |].
  - rewrite (se_lockboxes _ _ _ _ _ _ _ _ _ _ S). intros r [Hold| ->%list_elem_of_singleton]%elem_of_app; [left|right; by exists p].
    by apply list_elem_of_fmap_2.
  - destruct (se_shares _ _ _ _ _ _ _ _ _ _ S) as (keks & e & rows & _ & _ & _ & _ & -> & HF). apply Forall_app. split.
    + eapply Forall_impl; [exact O1|]. intros r. by apply owned_mono.
    + apply Forall_forall. intros r (w & _ & E & _)%(Forall2_elem_r _ _ _ _ HF). by rewrite E.
  - destruct (se_receipt _ _ _ _ _ _ _ _ _ _ S) as (r & -> & E & _). apply Forall_app. split; [|constructor; [by rewrite E|done]].
    eapply Forall_impl; [exact O2|]. intros r'. by apply owned_mono.
  - rewrite (se_evidence _ _ _ _ _ _ _ _ _ _ S). eapply Forall_impl; [exact O3|]. intros r. by apply owned_mono.
Qed.

(** ** withdraw *)

(** Only a sealed lockbox can be withdrawn or released. *)
Lemma sealed_unless db row p : boxed db row p ->
  assertWithdrawable row = Ok tt \/ is_ok (Lockbox.assertValidLockboxReleaseCascade (statusName row)) = true ->
  LockboxRow.status row = Lockbox.SEALED.
Proof.
  intros [_ _ Ev]. unfold evidence_of, assertWithdrawable, statusName in *. destruct (LockboxRow.status row); try done; by intros [].
Qed.

Lemma destroying_id x at_ why r : LockboxKeyShareRow.lockboxId (destroying x at_ why r) = LockboxKeyShareRow.lockboxId r.
Proof. unfold destroying. by destruct (activeShare x r). Qed.

Lemma destroying_other x at_ why r : LockboxKeyShareRow.lockboxId r <> x -> destroying x at_ why r = r.
Proof. intros E. unfold destroying, activeShare. by rewrite (proj2 (String.eqb_neq _ _) E). Qed.

Lemma sharesOf_destroying db db' x y at_ why : lockboxKeyShares db' = map (destroying x at_ why) (lockboxKeyShares db) ->
  sharesOf db' y = map (destroying x at_ why) (sharesOf db y).
Proof.
  unfold sharesOf. intros ->. induction (lockboxKeyShares db) as [|r l IH]; [done|]. cbn [map List.filter].
  rewrite destroying_id, IH. by destruct (String.eqb _ y).
Qed.

Lemma sharesOf_elem db y r : r ∈ sharesOf db y -> LockboxKeyShareRow.lockboxId r = y.
Proof. intros [_ E]%elem_of_filter_list. by apply String.eqb_eq. Qed.

Lemma live_gone x at_ why ws rs : Forall2 share_live ws rs -> Forall (fun r => LockboxKeyShareRow.lockboxId r = x) rs ->
  Forall2 share_gone ws (map (destroying x at_ why) rs).
Proof.
  induction 1 as [|w r ws rs L HF IH]; intros Hx; [constructor|]. apply Forall_cons in Hx as [Hr Hx]. constructor; [|by apply IH].
  destruct (share_live_role _ _ L) as [_ S]. unfold destroying, activeShare.
  by rewrite (proj2 (String.eqb_eq _ _) Hr), (bool_decide_eq_true_2 _ S).
Qed.

Lemma withdraw_carries db db' x row' : box_ok db -> withdraw_effect db db' x row' -> carries db db' /\ box_ok db'.
Proof.
  intros B [(row & f & Hf & Hw & K & Hst & -> & El) (at_ & why & Es) _ Er Ee Hc Hd].
  assert (carries db db') as C.
  { eapply (carries_update _ _ _ _ db db' x f); [done|done| |].
    - intros y Hne. split; [|unfold receiptsOf; by rewrite Er|unfold evidenceOf; by rewrite Ee].
      rewrite (sharesOf_destroying _ _ _ _ _ _ Es), (map_ext_in _ id); [apply map_id|].
      intros r Hr. apply destroying_other. unfold id. rewrite (sharesOf_elem db y r); [done|]. by apply list_elem_of_In.
    - intros row0 p Hf0 Hb. rewrite Hf in Hf0. injection Hf0 as <-. pose proof (sealed_unless _ _ _ Hb (or_introl Hw)) as Hs.
      pose proof (kp_columns _ K row) as Hcol. destruct (columns_inv _ _ Hcol) as (Eid & _).
      destruct Hb as [(ws & Hsl & Hk) (r & Hr & Hro) Hev]. split; [|by split; [|rewrite Hs]]. split.
      + exists ws. split; [by eapply columns_seals|]. unfold shares_kept in *. rewrite Hs, decide_False in Hk by done.
        rewrite Hst, decide_True by done. rewrite Eid, (sharesOf_destroying _ _ _ _ _ _ Es).
        apply live_gone; [done|]. destruct (find_id _ _ _ Hf) as [<- _]. apply Forall_forall. intros r'. apply sharesOf_elem.
      + exists r. rewrite Eid. unfold receiptsOf. rewrite Er. split; [done|]. by eapply columns_receipt.
      + unfold evidence_of in *. rewrite Hst, Eid. unfold evidenceOf. rewrite Ee. by rewrite Hs in Hev. }
  split; [done|]. destruct B as [T O1 O2 O3 O4].
  eapply (box_ok_update _ _ _ _ db db' x f); try done.
  - rewrite Es, Forall_map. eapply Forall_impl; [exact O1|]. intros r. simpl. by rewrite destroying_id.
  - by rewrite Er.
  - by rewrite Ee.
Qed.

(** ** release *)

Lemma disclose_cascade db x keks row p : disclose gcm_decrypt x keks db = Ok (row, p) ->
  is_ok (Lockbox.assertValidLockboxReleaseCascade (statusName row)) = true.
Proof.
  unfold disclose. destruct (lockbox_findById db x) as [fresh|]; [|done]. intros ([] & E & E2)%rbind_Ok. inv_ok. by rewrite E.
Qed.

(** What a release discloses is what the lockbox seals. *)
Lemma disclose_sealed db x keks row p p' : lockbox_findById db x = Some row -> boxed db row p -> loadRoleKeks config = Ok keks ->
  disclose gcm_decrypt x keks db = Ok (row, p') -> p' = p.
Proof.
  intros Hf Hb Hk Hd. pose proof (disclose_cascade _ _ _ _ _ Hd) as Hc.
  pose proof (sealed_unless _ _ _ Hb (or_intror Hc)) as Hs. destruct (find_id _ _ _ Hf) as [<- _].
  rewrite (disclose_boxed _ _ _ _ _ gcm_ok db row p keks Hb Hf) in Hd; [congruence|by rewrite Hs|done|done].
Qed.

Lemma release_carries db db' keks x input res : box_ok db -> loadRoleKeks config = Ok keks ->
  release_effect gcm_decrypt db db' keks x input res -> carries db db' /\ box_ok db'.
Proof.
  intros B Hk [(row & f & Hdis & K & Hst & Eres & El) Es Er (v & Ee & Hvx & Hvr & _ & Hvh) Hc Hd].
  pose proof (disclose_find _ _ _ _ _ _ Hdis) as Hf. pose proof (disclose_cascade _ _ _ _ _ Hdis) as Hcas.
  assert (carries db db') as C.
  { eapply (carries_update _ _ _ _ db db' x f); [done|done| |].
    - intros y Hne. split; [unfold sharesOf; by rewrite Es|unfold receiptsOf; by rewrite Er|].
      unfold evidenceOf. rewrite Ee. apply (filter_others LockboxReleaseEvidenceRow.lockboxId). repeat constructor. congruence.
    - intros row0 p Hf0 Hb. rewrite Hf in Hf0. injection Hf0 as <-. pose proof (sealed_unless _ _ _ Hb (or_intror Hcas)) as Hs.
      pose proof (kp_columns _ K row) as Hcol. destruct (columns_inv _ _ Hcol) as (Eid & _ & _ & Eh & _).
      destruct (find_id _ _ _ Hf) as [Ex _]. destruct Hb as [(ws & Hsl & Hkept) (r & Hr & Hro) Hev].
      split; [|by split; [|rewrite Hs]]. split.
      + exists ws. split; [by eapply columns_seals|]. unfold shares_kept in *. rewrite Hs, decide_False in Hkept by done.
        rewrite (proj1 (Hst row)), decide_False, Eid by done. unfold sharesOf. by rewrite Es.
      + exists r. rewrite Eid. unfold receiptsOf. rewrite Er. split; [done|]. by eapply columns_receipt.
      + unfold evidence_of in *. rewrite Hs in Hev. rewrite (proj1 (Hst row)), Eid. exists v. split_and!.
        * unfold evidenceOf in *. rewrite Ee, List.filter_app, Hev. simpl. by rewrite Hvx, Ex, String.eqb_refl.
        * rewrite Hvr. apply Hst.
        * by rewrite Hvh, Eres. }
  split; [done|]. destruct B as [T O1 O2 O3 O4].
  eapply (box_ok_update _ _ _ _ db db' x f); try done.
  - by rewrite Es.
  - by rewrite Er.
  - rewrite Ee. apply Forall_app. split; [done|]. constructor; [|done]. rewrite Hvx.
    destruct (find_id _ _ _ Hf) as [<- Hin]. by apply list_elem_of_fmap_2.
Qed.

End Commit.
