(* ===== verification/LockboxTheorems.v ===== *)
(** * A concrete run of the lockbox service

    One organization seals, another receives.  Toy primitives stand for
    node:crypto: the inputs of the witnesses. *)
From S2P Require Import Prelude DomainStates AuthzMatrix Authz Shamir Envelope Receipt JsonText Database Tables ApiShared.
From S2P Require Import LockboxRepositories LockboxService LockboxSystem Transactions EconomicsTheorems.
From Stdlib Require Import Ascii.
Import Roles Actions.
#[local] Open Scope Z_scope.

(** 64 hexadecimal digits *)
Definition sampleHex (c : ascii) : string := String.string_of_list_ascii (repeat c 64).

Definition sampleConfig : LockboxConfig :=
  {| lockboxKekSealer := sampleHex "1"; lockboxKekOperator := sampleHex "2"; lockboxKekEscrow := sampleHex "3";
     lockboxReceiptHmacKey := sampleHex "4" |}.

Definition sampleDigest (b : list Z) : string := String.string_of_list_ascii (toHex b).

#[global] Notation sampleBox := (lockbox_service sampleConfig toy_encrypt toy_decrypt sampleDigest toy_hmac).
#[global] Notation sampleBoxOk := (box_ok sampleConfig toy_encrypt sampleDigest toy_hmac).

Definition sampleOrganization (x : string) : OrganizationRow.t :=
  {| OrganizationRow.id := x; OrganizationRow.legalName := x; OrganizationRow.displayName := x;
     OrganizationRow.entityType := OrganizationType.MERCHANT; OrganizationRow.country := "DE"; OrganizationRow.registrationId := None;
     OrganizationRow.website := None; OrganizationRow.verificationStatus := VerificationStatus.VERIFIED; OrganizationRow.base := sampleBase |}.

Definition emptyBoxes : Db := set_organizations [sampleOrganization "buyer"] emptyDb.

Definition seller : Call := sampleCall PLATFORM_OWNER "seller" 1000.
Definition operator : Call := sampleCall MARKETPLACE_OPERATOR "desk" 2000.

Definition samplePayload : LockboxPayload :=
  {| counterpartyPrivate := "Acme Ltd"; evidenceSummary := "signed term sheet"; priorDealHistory := "none" |}.

Definition sampleSeal : BoxReq :=
  Seal seller {| sq_relationshipType := Lockbox.ACQUIRER_RELATIONSHIP; sq_region := Lockbox.EU; sq_metadataSummary := None;
                 sq_payload := samplePayload |} toy_random.
Definition sampleRelease (x : string) : BoxReq := Release operator x {| lq_recipientOrgId := "buyer"; lq_conditionRef := "cond-1" |}.
Definition sampleWithdraw (x : string) : BoxReq := Withdraw seller x {| wq_withdrawReason := None |}.

Lemma emptyBoxes_ok : sampleBoxOk emptyBoxes.
Proof. split; try by constructor. - split; repeat constructor. - intros row Hr. by apply elem_of_nil in Hr. Qed.

Lemma toy_random_good : goodSealRandom toy_random.
Proof.
  split_and!; [done| |exact sample_rnd_good]. apply Forall_forall. intros y Hy%list_elem_of_In%repeat_spec. subst. lia.
Qed.

Lemma sampleSeal_sent : box_sent sampleSeal.
Proof. split; [exact toy_random_good|]. unfold acceptable. vm_compute. reflexivity. Qed.

(** ** What the service does with it *)

Definition boxAfter (r : BoxReq) (db : Db) : Db := fst (serve sampleBox r db).

Definition sealedDb : Db := Eval vm_compute in boxAfter sampleSeal emptyBoxes.

Definition sampleBoxRun : list BoxReq := [sampleSeal; sampleRelease "id-0"; sampleWithdraw "id-0"].

Lemma sampleBoxRun_sent : Forall box_sent sampleBoxRun.
Proof. constructor; [exact sampleSeal_sent|]. by repeat constructor. Qed.

Lemma sealedDb_reached : exists s, reaches sampleBox box_env box_sent emptyBoxes s /\ store s = sealedDb.
Proof.
  destruct (serveAll_reaches sampleBox box_env box_sent [sampleSeal] emptyBoxes) as [ans R]; [by constructor; [exact sampleSeal_sent|]|].
  eexists. split; [exact R|]. unfold serveAll. cbn [foldl store]. vm_compute. reflexivity.
Qed.

Example sample_discloses :
  (let! r := snd (serve sampleBox (sampleRelease "id-0") sealedDb) in Ok (disclosedPayload r)) = Ok samplePayload.
Proof. vm_compute. reflexivity. Qed.

Example sample_withdrawn_then_released :
  is_ok (snd (serve sampleBox (sampleRelease "id-0") (boxAfter (sampleWithdraw "id-0") sealedDb))) = false.
Proof. vm_compute. reflexivity. Qed.

(** * What the lockbox service guarantees

    For any number of overlapping requests: the tables are always in the state
    [box_ok] describes; what a release discloses is what was sealed; a
    lockbox is released at most once and never after it was withdrawn; and
    every receipt verifies.  For one request on its own: exactly when it
    succeeds. *)
From S2P Require Import StableSort Lifecycle Money Gf256.
From stdpp Require Import relations.
#[local] Open Scope Z_scope.

Section Theorems.
Context `{Platform}
        (config : LockboxConfig)
        (gcm_encrypt : list Z -> list Z -> option (list Z) -> list Z -> list Z * list Z)
        (gcm_decrypt : list Z -> list Z -> option (list Z) -> list Z -> list Z -> option (list Z))
        (sha256_hex : list Z -> string)
        (hmac : list Z -> list ascii -> list Z).

#[local] Notation service := (lockbox_service config gcm_encrypt gcm_decrypt sha256_hex hmac).
#[local] Notation boxed := (boxed config gcm_encrypt sha256_hex hmac).
#[local] Notation box_ok := (box_ok config gcm_encrypt sha256_hex hmac).
#[local] Notation carries := (carries config gcm_encrypt sha256_hex hmac).
#[local] Notation reach := (reaches service box_env box_sent).

(** The matrix lets the actor do this to the lockbox [x] of [org]. *)
Definition may (c : Call) (a : Actions.Action) (x org : string) : Prop :=
  allowed (can (actor c) a (resourceOf ResourceType.lockbox x (Some org)) noContext) = true.

(** ** What a plan still says later *)

Definition same_box (l : LockboxRow.t) (x : string) (db : Db) : Prop :=
  exists row, lockbox_findById db x = Some row /\ sealed_columns row = sealed_columns l.

Definition box_plan_ok (r : BoxReq) : box_plan r -> Db -> Prop :=
  match r with
  | Seal c i rnd => fun org _ => goodSealRandom rnd /\ acceptable (sq_payload i) /\ Actions.organizationId (actor c) = Some org
  | Withdraw c x _ => fun l db => same_box l x db /\ may c Actions.lockbox_withdraw x (LockboxRow.sealerOrgId l)
  | Release c x i => fun p db => loadRoleKeks config = Ok (rl_keks p) /\ same_box (rl_lockbox p) x db /\
      may c Actions.lockbox_release x (LockboxRow.sealerOrgId (rl_lockbox p))
  end.

Lemma loadLockbox_Ok db x l : loadLockbox db x = Ok l <-> lockbox_findById db x = Some l.
Proof. unfold loadLockbox. destruct (lockbox_findById db x); naive_solver. Qed.

Lemma same_box_here db x l : lockbox_findById db x = Some l -> same_box l x db.
Proof. intros Hf. by exists l. Qed.

Lemma may_found db x l c a u : lockbox_findById db x = Some l ->
  require (can (actor c) a (resourceOf ResourceType.lockbox (LockboxRow.id l) (Some (LockboxRow.sealerOrgId l))) noContext) = Ok u ->
  may c a x (LockboxRow.sealerOrgId l).
Proof. intros Hf Hr%require_Ok. destruct (find_id _ _ _ Hf) as [<- _]. exact Hr. Qed.

Lemma box_plan_pre db r p : box_sent r -> box_pre config r db = Ok p -> box_plan_ok r p db.
Proof.
  destruct r as [c i rnd|c x i|c x i]; simpl; intros Hs E.
  - destruct Hs. split_and!; [done..|]. unfold seal_pre in E. destruct (present _); [|done].
    destruct (Actions.organizationId (actor c)); [|done]. inv_ok. done.
  - unfold withdraw_pre in E. apply rbind_Ok in E as (l & Hl%loadLockbox_Ok & E). apply rbind_Ok in E as (u & Hr & E). inv_ok.
    split; [by apply same_box_here|by eapply may_found].
  - unfold release_pre in E. apply rbind_Ok in E as (l & Hl%loadLockbox_Ok & E). apply rbind_Ok in E as (u & Hr & E).
    apply rbind_Ok in E as (? & _ & E). apply rbind_Ok in E as (? & _ & E). apply rbind_Ok in E as (k & Hk & E). injection E as <-.
    split_and!; [done|by apply same_box_here|by eapply may_found].
Qed.

Hypothesis gcm_ok : gcm_correct gcm_encrypt gcm_decrypt.

Lemma box_tx_carries db r p out db' : box_ok db -> box_plan_ok r p db ->
  h_tx service r p db = Ok (out, db') -> carries db db' /\ box_ok db'.
Proof.
  destruct r as [c i rnd|c x i|c x i]; simpl; intros B J E.
  - destruct J as (Hr & Ha & _). apply seal_Ok in E. split; [by eapply seal_carries|by eapply seal_keeps].
  - apply withdraw_Ok in E. by eapply withdraw_carries.
  - destruct J as (Hk & _). apply release_Ok in E. by eapply release_carries.
Qed.

Lemma box_env_keeps db db' : box_ok db -> box_env db db' -> box_ok db'.
Proof.
  intros B Ev. pose proof (carries_env config gcm_encrypt sha256_hex hmac _ _ Ev) as C. destruct Ev as [E1 E2 E3 E4 E5 E6].
  pose proof B as [T O1 O2 O3 _]. unfold owned in *.
  eapply (box_ok_carried _ _ _ _ db db'); [done|done| |by rewrite E1| | | |].
  - rewrite E1. by eapply table_same.
  - intros row Hr. left. rewrite E1 in Hr. by apply list_elem_of_fmap_2.
  - unfold owned. by rewrite E1, E2.
  - unfold owned. by rewrite E1, E3.
  - unfold owned. by rewrite E1, E4.
Qed.

Lemma same_box_carried db db' l x : box_ok db -> carries db db' -> same_box l x db -> same_box l x db'.
Proof.
  intros B C (row & Hf & E). destruct (box_ok_find _ _ _ _ _ _ _ B Hf) as (p & Hp).
  destruct (C _ _ _ Hf Hp) as (row' & Hf' & _ & [Ec _]). exists row'. split; [done|congruence].
Qed.

Lemma plan_ok_carried db db' r p : box_ok db -> carries db db' -> box_plan_ok r p db -> box_plan_ok r p db'.
Proof.
  intros B C. destruct r; simpl; [done| |]; intros; destruct_and!; split_and!; try done; by eapply same_box_carried.
Qed.

Lemma box_reaches db s : box_ok db -> reach db s -> box_ok (store s).
Proof.
  apply (invariant_reaches service box_env box_sent box_ok box_plan_ok).
  - intros d r p Hs _. by apply box_plan_pre.
  - done.
  - intros d r p out d' B J E. by eapply box_tx_carries.
  - apply box_env_keeps.
  - intros d r p out d' r' p' B J E. destruct (box_tx_carries _ _ _ _ _ B J E). by apply plan_ok_carried.
  - intros d d' r p B Ev. apply plan_ok_carried; [done|by apply carries_env].
Qed.

(** ** What the answers say *)

(** What the store must show for an answer that was given. *)
Definition answer_holds (db : Db) (x : Answer service) : Prop :=
  let (r, a) := x in
  match r return res (box_out r) -> Prop with
  | Seal c i _ => fun a => forall row, a = Ok row ->
      exists row', lockbox_findById db (LockboxRow.id row) = Some row' /\ boxed db row' (sq_payload i) /\
        Actions.organizationId (actor c) = Some (LockboxRow.sealerOrgId row')
  | Withdraw c x _ => fun a => forall row, a = Ok row ->
      exists row', lockbox_findById db x = Some row' /\ LockboxRow.status row' = Lockbox.WITHDRAWN /\
        may c Actions.lockbox_withdraw x (LockboxRow.sealerOrgId row')
  | Release c x i => fun a => forall res, a = Ok res ->
      exists row', lockbox_findById db x = Some row' /\ boxed db row' (disclosedPayload res) /\
        LockboxRow.status row' = Lockbox.OPENED /\ LockboxRow.recipientOrgId row' = Some (lq_recipientOrgId i) /\
        may c Actions.lockbox_release x (LockboxRow.sealerOrgId row')
  end a.

Definition releasedBy (x : string) (a : Answer service) : bool :=
  let (r, a) := a in
  match r return res (box_out r) -> bool with
  | Release _ y _ => fun a => is_ok a && String.eqb y x
  | _ => fun _ => false
  end a.

(** How many of the answers released the lockbox [x]. *)
Definition releases (x : string) (ans : list (Answer service)) : nat := length (List.filter (releasedBy x) ans).

Definition answers_hold (ans : list (Answer service)) (db : Db) : Prop :=
  Forall (answer_holds db) ans /\ forall x, (releases x ans <= length (evidenceOf db x))%nat.

Lemma succeeds_org row row' : succeeds row row' -> LockboxRow.sealerOrgId row' = LockboxRow.sealerOrgId row.
Proof. intros [(_ & E & _)%columns_inv _]. exact E. Qed.

Lemma answer_carried db db' a : box_ok db -> carries db db' -> answer_holds db a -> answer_holds db' a.
Proof.
  intros B C. destruct a as [[c i rnd|c x i|c x i] a]; simpl; intros HA out Ea; specialize (HA out Ea).
  - destruct HA as (row' & Hf & Hb & Ho). destruct (C _ _ _ Hf Hb) as (row2 & Hf2 & Hb2 & S). exists row2.
    by rewrite (succeeds_org _ _ S).
  - destruct HA as (row' & Hf & Hst & Hm). destruct (box_ok_find _ _ _ _ _ _ _ B Hf) as (p & Hp).
    destruct (C _ _ _ Hf Hp) as (row2 & Hf2 & _ & S). exists row2. rewrite (succeeds_org _ _ S). destruct S as [_ [S _]]; [by rewrite Hst|].
    split_and!; [done|congruence|done].
  - destruct HA as (row' & Hf & Hb & Hst & Hrec & Hm). destruct (C _ _ _ Hf Hb) as (row2 & Hf2 & Hb2 & S). exists row2.
    rewrite (succeeds_org _ _ S). destruct S as [_ [S1 S2]]; [by rewrite Hst|]. split_and!; [done|done|congruence|congruence|done].
Qed.

Lemma answer_new db r p out db' : box_ok db -> box_plan_ok r p db ->
  h_tx service r p db = Ok (out, db') -> answer_holds db' (@answer service r (Ok out)).
Proof.
  intros B J E. destruct (box_tx_carries _ _ _ _ _ B J E) as [C B'].
  destruct r as [c i rnd|c x i|c x i]; simpl in *; intros out' [= <-].
  - destruct J as (Hr & Ha & Ho). apply seal_Ok in E. exists out. split_and!.
    + apply (findById_elem db' _ out (ok_table _ _ _ _ _ B')). rewrite (se_lockboxes _ _ _ _ _ _ _ _ _ _ E). set_solver.
    + exact (seal_boxed _ _ _ _ db db' rnd _ _ out B Hr Ha E).
    + rewrite Ho. f_equal. symmetry. apply (se_org _ _ _ _ _ _ _ _ _ _ E).
  - destruct J as ((row0 & Hf0 & Ec) & Hm). apply withdraw_Ok in E. destruct (we_row _ _ _ _ E) as (row & f & Hf & _ & K & Hst & _ & El).
    exists (f row). rewrite Hf in Hf0. injection Hf0 as <-. split_and!.
    + unfold lockbox_findById in *. rewrite El. by apply findById_updating; [apply K|].
    + apply Hst.
    + destruct (columns_inv _ _ (kp_columns _ K row)) as (_ & -> & _). by destruct (columns_inv _ _ Ec) as (_ & -> & _).
  - destruct J as (Hk & (row0 & Hf0 & Ec) & Hm). apply release_Ok in E.
    destruct (le_row _ _ _ _ _ _ _ E) as (row & f & Hd & K & Hst & _ & El).
    pose proof (disclose_find _ _ _ _ _ _ Hd) as Hf. rewrite Hf in Hf0. injection Hf0 as <-.
    destruct (box_ok_find _ _ _ _ _ _ _ B Hf) as (q & Hq).
    assert (disclosedPayload out = q) as -> by (by eapply disclose_sealed).
    assert (lockbox_findById db' x = Some (f row)) as Hf'.
    { unfold lockbox_findById in *. rewrite El. by apply findById_updating; [apply K|]. }
    destruct (C _ _ _ Hf Hq) as (row2 & Hf2 & Hb2 & _). rewrite Hf' in Hf2. injection Hf2 as <-.
    exists (f row). split_and!; [done|done|apply Hst|apply Hst|].
    destruct (columns_inv _ _ (kp_columns _ K row)) as (_ & -> & _). by destruct (columns_inv _ _ Ec) as (_ & -> & _).
Qed.

(** One more piece of evidence for a release, none for anything else. *)
Lemma evidence_counts db r p out db' x : h_tx service r p db = Ok (out, db') ->
  length (evidenceOf db' x) = (length (evidenceOf db x) + if releasedBy x (@answer service r (Ok out)) then 1 else 0)%nat.
Proof.
  destruct r as [c i rnd|c y i|c y i]; simpl; intros E.
  - apply seal_Ok in E. unfold evidenceOf. rewrite (se_evidence _ _ _ _ _ _ _ _ _ _ E). lia.
  - apply withdraw_Ok in E. unfold evidenceOf. rewrite (we_evidence _ _ _ _ E). lia.
  - apply release_Ok in E. destruct (le_evidence _ _ _ _ _ _ _ E) as (v & Ev & Ey & _). unfold evidenceOf.
    rewrite Ev, List.filter_app, List.length_app. simpl. rewrite Ey. by destruct (String.eqb y x).
Qed.

Lemma answers_reach db s : box_ok db -> reach db s -> answers_hold (answered s) (store s).
Proof.
  intros B R. eapply (answers_reaches service box_env box_sent box_ok box_plan_ok) with (K := answers_hold).
  - intros d r p Hs _. by apply box_plan_pre.
  - done.
  - intros d r p out d' B' J E. by eapply box_tx_carries.
  - apply box_env_keeps.
  - intros d r p out d' r' p' B' J E. destruct (box_tx_carries _ _ _ _ _ B' J E). by apply plan_ok_carried.
  - intros d d' r p B' Ev. apply plan_ok_carried; [done|by apply carries_env].
  - intros ans d r p out d' _ B' J E [HF HC]. destruct (box_tx_carries _ _ _ _ _ B' J E) as [C _]. split.
    + apply Forall_app. split; [eapply Forall_impl; [exact HF|]; intros a; by apply answer_carried|].
      constructor; [|done]. by eapply answer_new.
    + intros x. unfold releases. rewrite List.filter_app, List.length_app, (evidence_counts _ _ _ _ _ _ E). specialize (HC x).
      unfold releases in HC. change (h_finish service r p out) with (@Ok (box_out r) out). cbn [List.filter]. destruct (releasedBy x _); simpl; lia.
  - intros ans d r e [HF HC]. split; [apply Forall_app; split; [done|constructor; [by destruct r|done]]|].
    intros x. unfold releases. rewrite List.filter_app, List.length_app. specialize (HC x). unfold releases in HC. destruct r; simpl; lia.
  - intros ans d d' B' Ev [HF HC]. split; [eapply Forall_impl; [exact HF|]; intros a; apply answer_carried; [done|by apply carries_env]|].
    intros x. unfold evidenceOf. rewrite (be_evidence _ _ Ev). apply HC.
  - done.
  - split; [constructor|intros x; apply Nat.le_0_l].
  - done.
Qed.

(** ** The properties *)

(** A lockbox that still has its shares seals one payload. *)
Lemma boxed_payload db row p p' : boxed db row p -> boxed db row p' -> LockboxRow.status row <> Lockbox.WITHDRAWN -> p = p'.
Proof.
  intros [(ws & Hs & Hk) _ _] [(ws' & Hs' & Hk') _ _] Hst. unfold shares_kept in *. rewrite decide_False in Hk by done. rewrite decide_False in Hk' by done.
  destruct (active_shares _ _ gcm_ok db _ ws (seals_shape _ _ _ _ gcm_ok _ _ _ Hs) Hk) as (w2 & w3 & r2 & r3 & Ea & L2 & L3 & Hsub & R2 & R3).
  destruct (active_shares _ _ gcm_ok db _ ws' (seals_shape _ _ _ _ gcm_ok _ _ _ Hs') Hk') as (v2 & v3 & q2 & q3 & Ea' & M2 & M3 & Hsub' & S2 & S3).
  rewrite Ea in Ea'. injection Ea' as <- <-. unfold share_live in *. assert (v2 = w2) as -> by congruence. assert (v3 = w3) as -> by congruence.
  pose proof Hs as (keks & _ & _ & Hkeks & _ & A & _). pose proof Hs' as (_ & _ & _ & _ & _ & A' & _).
  pose proof (open_sealed _ _ _ _ gcm_ok _ _ _ _ _ _ Hs Hkeks Hsub R2 R3) as O.
  pose proof (open_sealed _ _ _ _ gcm_ok _ _ _ _ _ _ Hs' Hkeks Hsub' R2 R3) as O'.
  assert (serializePayload p = serializePayload p') as E by congruence.
  pose proof (payload_roundtrip p A) as P. rewrite E, (payload_roundtrip p' A') in P. by injection P.
Qed.

Lemma releases_at_most_one db s x : box_ok db -> reach db s -> (releases x (answered s) <= 1)%nat.
Proof.
  intros B R. destruct (answers_reach db s B R) as [_ HC]. specialize (HC x). pose proof (box_reaches db s B R) as B'.
  assert (length (evidenceOf (store s) x) <= 1)%nat; [|lia].
  destruct (decide (x ∈ map LockboxRow.id (lockboxes (store s)))) as [(row & Hf)%(find_owned _ _ (ok_table _ _ _ _ _ B'))|Hno].
  - destruct (box_ok_find _ _ _ _ _ _ _ B' Hf) as (p & [_ _ Ev]). destruct (find_id _ _ _ Hf) as [<- _]. unfold evidence_of in Ev.
    destruct (LockboxRow.status row); try done; [rewrite Ev|destruct Ev as (v & -> & _)|rewrite Ev]; simpl; lia.
  - unfold evidenceOf. rewrite filter_none; [simpl; lia|]. intros v Hv. apply String.eqb_neq. intros <-. apply Hno.
    by apply (proj1 (Forall_forall _ _) (ok_evidence _ _ _ _ _ B')).
Qed.

Definition gave (s : Config service) (r : BoxReq) (a : res (box_out r)) : Prop := @answer service r a ∈ answered s.

Lemma gave_holds db s r a : box_ok db -> reach db s -> gave s r a -> answer_holds (store s) (@answer service r a).
Proof. intros B R. destruct (answers_reach db s B R) as [HA _]. apply (proj1 (Forall_forall _ _) HA). Qed.

Lemma gave_seal db s c i rnd row : box_ok db -> reach db s -> gave s (Seal c i rnd) (Ok row) ->
  exists row', lockbox_findById (store s) (LockboxRow.id row) = Some row' /\ boxed (store s) row' (sq_payload i) /\
    Actions.organizationId (actor c) = Some (LockboxRow.sealerOrgId row').
Proof. intros B R G. exact (gave_holds db s _ _ B R G row eq_refl). Qed.

Lemma gave_withdraw db s c x i row : box_ok db -> reach db s -> gave s (Withdraw c x i) (Ok row) ->
  exists row', lockbox_findById (store s) x = Some row' /\ LockboxRow.status row' = Lockbox.WITHDRAWN /\
    may c Actions.lockbox_withdraw x (LockboxRow.sealerOrgId row').
Proof. intros B R G. exact (gave_holds db s _ _ B R G row eq_refl). Qed.

Lemma gave_release db s c x i r : box_ok db -> reach db s -> gave s (Release c x i) (Ok r) ->
  exists row', lockbox_findById (store s) x = Some row' /\ boxed (store s) row' (disclosedPayload r) /\
    LockboxRow.status row' = Lockbox.OPENED /\ may c Actions.lockbox_release x (LockboxRow.sealerOrgId row').
Proof.
  intros B R G. destruct (gave_holds db s _ _ B R G r eq_refl) as (row' & ? & ? & ? & _ & ?). by exists row'.
Qed.

(** C5: the state of every lockbox is sound at all times.  From sound tables,
    after any interleaving of seals, withdrawals, releases and whatever else
    the platform does, every lockbox row is the sealing of a payload under
    its own identifier, is SEALED, OPENED or WITHDRAWN, has its three key
    shares intact until it is withdrawn and all destroyed after, exactly one
    receipt with a signature of its own columns, and one piece of release
    evidence iff it is OPENED. *)
Theorem lockbox_always_sound (db : Db) (s : Config service) : box_ok db -> reach db s -> box_ok (store s).
Proof. apply box_reaches. Qed.

(** C4: what is released is what was sealed, once, and only by authority.  In
    any concurrent run from sound tables: a successful release of a lockbox
    that was sealed in the run discloses exactly the payload of the seal; the
    releaser holds PLATFORM_OWNER or MARKETPLACE_OPERATOR; no lockbox is
    released twice; and a lockbox that was withdrawn, which only its sealer
    can do, is not released. *)
Theorem lockbox_end_to_end (db : Db) (s : Config service) :
  box_ok db -> reach db s ->
  (forall c i rnd row c' i' r, gave s (Seal c i rnd) (Ok row) -> gave s (Release c' (LockboxRow.id row) i') (Ok r) ->
     disclosedPayload r = sq_payload i) /\
  (forall c x i r, gave s (Release c x i) (Ok r) ->
     exists role, Actions.role (actor c) = Some role /\ role ∈ [Roles.PLATFORM_OWNER; Roles.MARKETPLACE_OPERATOR]) /\
  (forall x, (releases x (answered s) <= 1)%nat) /\
  (forall c x i row c' i' r, gave s (Withdraw c x i) (Ok row) -> ~ gave s (Release c' x i') (Ok r)) /\
  (forall c0 i0 rnd row0 c i row, gave s (Seal c0 i0 rnd) (Ok row0) -> gave s (Withdraw c (LockboxRow.id row0) i) (Ok row) ->
     Actions.organizationId (actor c) = Actions.organizationId (actor c0)).
Proof.
  intros B R. split_and!.
  - intros c i rnd row c' i' r (row1 & Hf1 & Hb1 & _)%(gave_seal db) (row2 & Hf2 & Hb2 & Hst & _)%(gave_release db); [|done..].
    rewrite Hf1 in Hf2. injection Hf2 as <-. eapply boxed_payload; [exact Hb2|exact Hb1|by rewrite Hst].
  - intros c x i r (row & _ & _ & _ & Hm)%(gave_release db); [|done..]. by eapply reserved_path.
  - intros x. by apply (releases_at_most_one db s).
  - intros c x i row c' i' r (row1 & Hf1 & Hst1 & _)%(gave_withdraw db) (row2 & Hf2 & _ & Hst2 & _)%(gave_release db); [|done..]. congruence.
  - intros c0 i0 rnd row0 c i row (row1 & Hf1 & _ & Ho)%(gave_seal db) (row2 & Hf2 & _ & Hm)%(gave_withdraw db); [|done..].
    rewrite Ho. rewrite Hf1 in Hf2. injection Hf2 as <-. symmetry. eapply (own_org_path _ _ _ _ Hm). by left.
Qed.

End Theorems.

(** ** On the sample run *)

Lemma lockbox_always_sound_witness :
  exists s, reaches sampleBox box_env box_sent emptyBoxes s /\ store s = serveAll sampleBox sampleBoxRun emptyBoxes /\ sampleBoxOk (store s).
Proof.
  pose proof (serveAll_answers sampleBox box_env box_sent sampleBoxRun emptyBoxes sampleBoxRun_sent) as R.
  eexists. split_and!; [exact R|done|].
  exact (lockbox_always_sound sampleConfig toy_encrypt toy_decrypt sampleDigest toy_hmac toy_correct emptyBoxes _ emptyBoxes_ok R).
Defined.

(** The run seals, releases and then tries to withdraw. *)
Lemma lockbox_end_to_end_witness :
  exists s, reaches sampleBox box_env box_sent emptyBoxes s /\ length (answered s) = 3%nat /\
    (forall c i rnd row c' i' r, @answer sampleBox (Seal c i rnd) (Ok row) ∈ answered s ->
       @answer sampleBox (Release c' (LockboxRow.id row) i') (Ok r) ∈ answered s -> disclosedPayload r = sq_payload i) /\
    (releases sampleConfig toy_encrypt toy_decrypt sampleDigest toy_hmac "id-0" (answered s) <= 1)%nat.
Proof.
  pose proof (serveAll_answers sampleBox box_env box_sent sampleBoxRun emptyBoxes sampleBoxRun_sent) as R.
  eexists. split; [exact R|]. split; [done|].
  destruct (lockbox_end_to_end sampleConfig toy_encrypt toy_decrypt sampleDigest toy_hmac toy_correct emptyBoxes _ emptyBoxes_ok R) as (E & _ & O & _).
  split; [exact E|exact (O "id-0")].
Defined.
