(* ===== verification/LockboxRequests.v ===== *)
(** * When a lockbox request succeeds

    Between transactions the tables satisfy [box_ok]; then a request on its own
    succeeds exactly in the case [accepted] describes, and changes nothing
    otherwise. *)
From S2P Require Import Prelude StableSort Lifecycle DomainStates Money Gf256 Shamir Envelope Receipt.
From S2P Require Import AuthzMatrix Authz JsonText Database Tables ApiShared LockboxRepositories LockboxService.
From S2P Require Import LockboxSystem Transactions LockboxTheorems EconomicsTheorems.
From Stdlib Require Import Ascii.
#[local] Open Scope Z_scope.

Section Requests.
Context `{Platform}
        (config : LockboxConfig)
        (gcm_encrypt : list Z -> list Z -> option (list Z) -> list Z -> list Z * list Z)
        (gcm_decrypt : list Z -> list Z -> option (list Z) -> list Z -> list Z -> option (list Z))
        (sha256_hex : list Z -> string)
        (hmac : list Z -> list ascii -> list Z).

#[local] Notation service := (lockbox_service config gcm_encrypt gcm_decrypt sha256_hex hmac).
#[local] Notation boxed := (boxed config gcm_encrypt sha256_hex hmac).
#[local] Notation box_ok := (box_ok config gcm_encrypt sha256_hex hmac).

(** ** Steps that cannot fail *)

Lemma commits_keyShares l : commits (keyShare_createMany l).
Proof.
  unfold keyShare_createMany. apply commits_bind; [|auto with commits]. apply commits_mapM. intros a db. by eexists _, _.
Qed.

Lemma commits_receipt x v h o t s a : commits (receipt_create x v h o t s a).
Proof. intros db. by eexists _, _. Qed.

Lemma commits_evidence i : commits (releaseEvidence_create i).
Proof. intros db. by eexists _, _. Qed.

Lemma commits_createSealed i : commits (lockbox_createSealed i).
Proof. intros db. by eexists _, _. Qed.

#[local] Hint Resolve commits_keyShares commits_receipt commits_evidence commits_createSealed : commits.
#[local] Hint Extern 1 (forall _, commits _) => intros : commits.

Lemma lockbox_update_run x f db row : lockbox_findById db x = Some row ->
  lockbox_update x f db = Ok (f row, set_lockboxes (map (updating x f) (lockboxes db)) db).
Proof. unfold lockbox_update, updateById, lockbox_findById. by intros ->. Qed.

Lemma find_updated x f db row : keeps_identity f -> lockbox_findById db x = Some row ->
  lockbox_findById (set_lockboxes (map (updating x f) (lockboxes db)) db) x = Some (f row).
Proof. intros K Hf. exact (findById_updating _ _ _ _ K Hf). Qed.

(** ** The transactions *)

Hypothesis gcm_ok : gcm_correct gcm_encrypt gcm_decrypt.

Lemma seal_runs c i rnd org db keks key : goodSealRandom rnd -> loadRoleKeks config = Ok keks -> loadReceiptHmacKey config = Ok key ->
  exists row db', seal_tx config gcm_encrypt sha256_hex hmac c i rnd org db = Ok (row, db').
Proof.
  intros Hr Hk Hh. unfold seal_tx. erewrite tbind_run by done. rewrite Hk, Hh. erewrite tbind_run by done.
  destruct (seal_release gcm_encrypt gcm_decrypt sha256_hex rnd (serializePayload (sq_payload i)) keks (Some (lockboxAad (newId (drawn db))))
    gcm_ok (loadRoleKeks_good _ _ Hk) Hr) as (e & He & _). rewrite He. do 2 erewrite tbind_run by done.
  match goal with |- exists row db', ?m ?d = _ => assert (commits m) as T; [|exact (T d)] end.
  eauto 20 with commits.
Qed.

Lemma active_count db row p : boxed db row p -> LockboxRow.status row <> Lockbox.WITHDRAWN ->
  length (List.filter (activeShare (LockboxRow.id row)) (lockboxKeyShares db)) = 3%nat.
Proof.
  intros [(ws & Hs & Hk) _ _] Hst. unfold shares_kept in Hk. rewrite decide_False in Hk by done.
  assert (List.filter (activeShare (LockboxRow.id row)) (lockboxKeyShares db)
    = List.filter (fun r => bool_decide (is_Some (LockboxKeyShareRow.wrappedShare r))) (sharesOf db (LockboxRow.id row))) as ->.
  { unfold sharesOf, activeShare. induction (lockboxKeyShares db) as [|r l IH]; [done|]. cbn [List.filter].
    destruct (String.eqb _ _); cbn [andb List.filter]; by rewrite IH. }
  rewrite filter_all.
  - rewrite <- (Forall2_length _ _ _ Hk), <- (length_map role ws). by rewrite (seals_shape _ _ _ _ gcm_ok _ _ _ Hs).
  - intros r (w & _ & L)%(Forall2_elem_r _ _ _ _ Hk). apply bool_decide_eq_true. by destruct (share_live_role _ _ L).
Qed.

Lemma withdraw_runs c x i l db row p : box_ok db -> lockbox_findById db x = Some row -> boxed db row p ->
  LockboxRow.status row = Lockbox.SEALED -> exists r db', withdraw_tx c x i l db = Ok (r, db').
Proof.
  intros B Hf Hb Hs. unfold withdraw_tx, freshLockbox.
  rewrite (tbind_run _ _ db row db) by (by rewrite Hf).
  rewrite (tbind_run _ _ db tt db) by (unfold assertWithdrawable, statusName; by rewrite Hs).
  unfold LockboxRepositories.lockbox_withdraw. rewrite (tbind_run _ _ _ _ _ (lockbox_update_run x _ db row Hf)).
  erewrite tbind_run by (unfold keyShare_destroyAllByLockbox; reflexivity). cbn [lockboxKeyShares set_lockboxes].
  destruct (find_id _ _ _ Hf) as [<- _]. rewrite (active_count db row p Hb) by (by rewrite Hs). erewrite tbind_run by done.
  match goal with |- exists r db', ?m ?d = _ => assert (commits m) as T; [|exact (T d)] end.
  eauto with commits.
Qed.

(** The two hops and the opening of a sealed lockbox. *)
Lemma cascade_runs x user db row : lockbox_findById db x = Some row -> LockboxRow.status row = Lockbox.SEALED ->
  exists f, keeps_identity f /\
    walkCascade x user (LockboxRow.status row) (remainingHops (LockboxRow.status row)) db
      = Ok (Lockbox.FROZEN, set_lockboxes (map (updating x f) (lockboxes db)) db).
Proof.
  intros Hf ->. change (remainingHops Lockbox.SEALED) with [Lockbox.COMMITTED; Lockbox.FROZEN].
  set (g := fun st => lockboxWith st (Some user) None None).
  assert (forall st, keeps_identity (g st)) as K by (intros st r; done).
  exists (fun r => g Lockbox.FROZEN (g Lockbox.COMMITTED r)). split; [by intros r|]. cbn [walkCascade].
  erewrite tbind_run by done. rewrite (tbind_run _ _ _ _ _ (lockbox_update_run x (g Lockbox.COMMITTED) db row Hf)).
  erewrite tbind_run by done.
  rewrite (tbind_run _ _ _ _ _ (lockbox_update_run x (g Lockbox.FROZEN) _ _ (find_updated x _ db row (K _) Hf))).
  cbn [lockboxes set_lockboxes]. by rewrite updating_twice.
Qed.

Lemma release_runs c x i p db row payload : lockbox_findById db x = Some row -> boxed db row payload ->
  LockboxRow.status row = Lockbox.SEALED -> loadRoleKeks config = Ok (rl_keks p) ->
  exists r db', release_tx gcm_decrypt c x i p db = Ok (r, db').
Proof.
  intros Hf Hb Hs Hk. unfold release_tx.
  assert (disclose gcm_decrypt x (rl_keks p) db = Ok (row, payload)) as Hd.
  { destruct (find_id _ _ _ Hf) as [<- _]. eapply disclose_boxed; try done; unfold statusName; by rewrite Hs. }
  rewrite (tbind_run _ _ db (row, payload) db) by (by rewrite Hd). cbv beta iota.
  destruct (cascade_runs x (Actions.userId (actor c)) db row Hf Hs) as (f & K & E). rewrite (tbind_run _ _ _ _ _ E).
  erewrite tbind_run by done. unfold lockbox_markOpened.
  rewrite (tbind_run _ _ _ _ _ (lockbox_update_run x _ _ _ (find_updated x f db row K Hf))). erewrite tbind_run by done.
  match goal with |- exists r db', ?m ?d = _ => assert (commits m) as T; [|exact (T d)] end.
  eauto 20 with commits.
Qed.

(** ** The whole request *)

(** The cases in which a request goes through. *)
Definition accepted (r : BoxReq) (db : Db) : Prop :=
  match r with
  | Seal c _ _ => exists org, Actions.organizationId (actor c) = Some org /\ org <> "" /\
      allowed (can (actor c) Actions.lockbox_seal (resource ResourceType.lockbox (Some org)) noContext) = true /\
      is_ok (loadRoleKeks config) = true /\ is_ok (loadReceiptHmacKey config) = true
  | Withdraw c x _ => exists row, lockbox_findById db x = Some row /\ may c Actions.lockbox_withdraw x (LockboxRow.sealerOrgId row) /\
      LockboxRow.status row = Lockbox.SEALED
  | Release c x i => exists row, lockbox_findById db x = Some row /\ may c Actions.lockbox_release x (LockboxRow.sealerOrgId row) /\
      is_Some (organization_findById db (lq_recipientOrgId i)) /\ LockboxRow.status row = Lockbox.SEALED /\ is_ok (loadRoleKeks config) = true
  end.

Lemma is_ok_Ok {A} (m : res A) : is_ok m = true <-> exists a, m = Ok a.
Proof. destruct m; naive_solver. Qed.

Lemma seal_pre_exact c db org : seal_pre c db = Ok org <->
  Actions.organizationId (actor c) = Some org /\ org <> "" /\
  allowed (can (actor c) Actions.lockbox_seal (resource ResourceType.lockbox (Some org)) noContext) = true.
Proof.
  unfold seal_pre, present, when_present. destruct (Actions.organizationId (actor c)) as [o|]; [|naive_solver].
  destruct (String.eqb_spec o "") as [->|Hne]; [naive_solver|]. rewrite rbind_Ok. setoid_rewrite require_Ok. naive_solver.
Qed.

Lemma may_at c a x row : LockboxRow.id row = x ->
  (exists u, require (can (actor c) a (resourceOf ResourceType.lockbox (LockboxRow.id row) (Some (LockboxRow.sealerOrgId row))) noContext) = Ok u)
  <-> may c a x (LockboxRow.sealerOrgId row).
Proof. intros <-. unfold may. setoid_rewrite require_Ok. split; [by intros [_ ?]|by exists tt]. Qed.

Lemma withdraw_pre_exact c x db l : withdraw_pre c x db = Ok l <->
  lockbox_findById db x = Some l /\ may c Actions.lockbox_withdraw x (LockboxRow.sealerOrgId l) /\ assertWithdrawable l = Ok tt.
Proof.
  unfold withdraw_pre. rewrite rbind_Ok. setoid_rewrite loadLockbox_Ok. split.
  - intros (l' & Hf & E). destruct (find_id _ _ _ Hf) as [Ei _]. apply rbind_Ok in E as (u & Hr & E). apply rbind_Ok in E as ([] & Hw & E).
    injection E as <-. split_and!; [done|by apply (may_at _ _ _ _ Ei); exists u|done].
  - intros (Hf & Hm & Hw). destruct (find_id _ _ _ Hf) as [Ei _]. apply (may_at _ _ _ _ Ei) in Hm as (u & Hr). exists l. split; [done|].
    by rewrite Hr, Hw.
Qed.

Lemma release_pre_exact c x i db p : release_pre config c x i db = Ok p <->
  lockbox_findById db x = Some (rl_lockbox p) /\ may c Actions.lockbox_release x (LockboxRow.sealerOrgId (rl_lockbox p)) /\
  is_Some (organization_findById db (lq_recipientOrgId i)) /\
  Lockbox.assertValidLockboxReleaseCascade (statusName (rl_lockbox p)) = Ok tt /\ loadRoleKeks config = Ok (rl_keks p).
Proof.
  unfold release_pre. rewrite rbind_Ok. setoid_rewrite loadLockbox_Ok. split.
  - intros (l & Hf & E). destruct (find_id _ _ _ Hf) as [Ei _]. apply rbind_Ok in E as (u & Hr & E). apply rbind_Ok in E as (? & Ho & E).
    apply rbind_Ok in E as ([] & Hc & E). apply rbind_Ok in E as (k & Hk & E). injection E as <-. simpl.
    split_and!; [done|by apply (may_at _ _ _ _ Ei); exists u| |done|done]. destruct (organization_findById _ _); [by eexists|done].
  - intros (Hf & Hm & (o & Ho) & Hc & Hk). destruct (find_id _ _ _ Hf) as [Ei _]. apply (may_at _ _ _ _ Ei) in Hm as (u & Hr).
    exists (rl_lockbox p). split; [done|]. rewrite Hr, Ho, Hc, Hk. by destruct p.
Qed.

Lemma serve_ok_iff r db : is_ok (snd (serve service r db)) = true <->
  exists p out db', box_pre config r db = Ok p /\ h_tx service r p db = Ok (out, db').
Proof.
  unfold serve. change (h_pre service r db) with (box_pre config r db). destruct (box_pre config r db) as [p|] eqn:E; [|naive_solver].
  destruct (h_tx service r p db) as [[out db']|] eqn:E2; ((split; [|done]) || (split; [done|])).
  - intros _. by exists p, out, db'.
  - intros (p' & out & db' & [= <-] & E3). by rewrite E2 in E3.
Qed.

Lemma accepted_pre r db : box_ok db -> box_sent r -> accepted r db -> exists p out db', box_pre config r db = Ok p /\ h_tx service r p db = Ok (out, db').
Proof.
  intros B Hs. destruct r as [c i rnd|c x i|c x i]; simpl in *.
  - intros (org & Ho & Hne & Ha & (keks & Hk)%is_ok_Ok & (key & Hh)%is_ok_Ok). exists org.
    destruct (seal_runs c i rnd org db keks key) as (row & db' & E); [apply Hs|done|done|]. exists row, db'. split; [by apply seal_pre_exact|done].
  - intros (row & Hf & Hm & Hst). destruct (box_ok_find _ _ _ _ _ _ _ B Hf) as (p & Hb). exists row.
    destruct (withdraw_runs c x i row db row p B Hf Hb Hst) as (r & db' & E). exists r, db'. split; [|done].
    apply withdraw_pre_exact. split_and!; [done..|]. unfold assertWithdrawable, statusName. by rewrite Hst.
  - intros (row & Hf & Hm & Hr & Hst & (keks & Hk)%is_ok_Ok). destruct (box_ok_find _ _ _ _ _ _ _ B Hf) as (p & Hb).
    set (pl := {| rl_lockbox := row; rl_keks := keks |}). exists pl.
    destruct (release_runs c x i pl db row p Hf Hb Hst Hk) as (r & db' & E). exists r, db'. split; [|done].
    apply release_pre_exact. split_and!; [done..| |done]. unfold statusName. simpl. by rewrite Hst.
Qed.

Lemma served_accepted r db p out db' : box_ok db -> box_pre config r db = Ok p -> h_tx service r p db = Ok (out, db') -> accepted r db.
Proof.
  intros B. destruct r as [c i rnd|c x i|c x i]; simpl in *.
  - intros (Ho & Hne & Ha)%seal_pre_exact E. exists p. unfold seal_tx in E. apply tbind_Ok in E as (y & db1 & Ey & E).
    apply tbind_Ok in E as (keks & ? & [Hk _]%tlift_Ok & E). apply tbind_Ok in E as (e & ? & _ & E).
    apply tbind_Ok in E as (key & ? & [Hh _]%tlift_Ok & E). by rewrite Hk, Hh.
  - intros (Hf & Hm & Hw)%withdraw_pre_exact _. destruct (box_ok_find _ _ _ _ _ _ _ B Hf) as (q & Hb).
    exists p. split_and!; [done..|]. eapply sealed_unless; [done|by left].
  - intros (Hf & Hm & Hr & Hc & Hk)%release_pre_exact _. destruct (box_ok_find _ _ _ _ _ _ _ B Hf) as (q & Hb).
    exists (rl_lockbox p). split_and!; [done..| |by rewrite Hk]. eapply sealed_unless; [done|right]. by rewrite Hc.
Qed.

(** C6: a lockbox request succeeds exactly when it should.  On tables that
    satisfy the invariant, sealing succeeds iff the caller has an organization
    allowed to seal and the keys are configured; withdrawing iff the lockbox
    exists, is sealed and the caller may withdraw it; releasing iff, besides,
    the recipient exists and the keys are configured.  A request that fails
    changes nothing. *)
Theorem lockbox_requests_exact (r : BoxReq) (db : Db) :
  box_ok db -> box_sent r ->
  (is_ok (snd (serve service r db)) = true <-> accepted r db) /\
  (is_ok (snd (serve service r db)) = false -> fst (serve service r db) = db).
Proof.
  intros B Hs. split.
  - rewrite serve_ok_iff. split; [intros (p & out & db' & E1 & E2); by eapply served_accepted|by apply accepted_pre].
  - unfold serve. destruct (h_pre service r db) as [p|]; [|done]. by destruct (h_tx service r p db) as [[]|].
Qed.

(** ** Receipts *)

Lemma receipt_found db row p : boxed db row p -> exists r, receipt_findLatestByLockbox db (LockboxRow.id row) = Some r /\ receipt_of config hmac row r.
Proof.
  intros [_ (r & Hr & Ho) _]. exists r. split; [|done]. unfold receipt_findLatestByLockbox, findMany. unfold receiptsOf in Hr. by rewrite Hr.
Qed.

(** Every lockbox has a receipt, and it verifies.  In every reachable
    state, whoever may read the receipts of a lockbox gets one; it shows the
    lockbox's ciphertext hash, sealer and sealing time, and
    [verifyReceipt] accepts its signature under the configured key. *)
Theorem lockbox_receipts_verify (db : Db) (s : Config service) (a : Actions.Actor) (x : string) (row : LockboxRow.t) :
  hmac_bytes hmac -> box_ok db -> reaches service box_env box_sent db s -> lockbox_findById (store s) x = Some row ->
  allowed (can a Actions.lockbox_read_receipt (resourceOf ResourceType.lockbox x (Some (LockboxRow.sealerOrgId row))) noContext) = true ->
  exists r key, getReceipt a x (store s) = Ok r /\ loadReceiptHmacKey config = Ok key /\
    verifyReceipt hmac (payload_fields (receiptPayload x (LockboxReceiptRow.ciphertextHash r) (LockboxReceiptRow.sealerOrgId r)
      (LockboxReceiptRow.sealedAt r))) (txt (LockboxReceiptRow.signature r)) key = true /\
    LockboxReceiptRow.ciphertextHash r = LockboxRow.ciphertextHash row /\ LockboxReceiptRow.sealerOrgId r = LockboxRow.sealerOrgId row /\
    LockboxReceiptRow.sealedAt r = LockboxRow.sealedAt row.
Proof.
  intros Hb B R Hf Ha. pose proof (box_reaches _ _ _ _ _ gcm_ok db s B R) as B'.
  destruct (box_ok_find _ _ _ _ _ _ _ B' Hf) as (p & Hp). destruct (receipt_found _ _ _ Hp) as (r & Hr & E1 & E2 & E3 & key & Hk & Esig).
  destruct (find_id _ _ _ Hf) as [Ei _]. exists r, key. split_and!; [|done| |done..].
  - unfold getReceipt, loadLockbox. rewrite Hf. cbn [rbind]. rewrite Ei, (proj2 (require_Ok _ tt) Ha), <- Ei. cbn [rbind]. by rewrite Hr.
  - rewrite Esig, E1, E2, E3. unfold txt. rewrite String.list_ascii_of_string_of_list_ascii. unfold receipt_fields. rewrite Ei.
    by apply verify_signed.
Qed.

End Requests.

(** ** On the sample run *)

Lemma sealedDb_ok : sampleBoxOk sealedDb.
Proof.
  destruct sealedDb_reached as (s & R & E). rewrite <- E.
  exact (box_reaches sampleConfig toy_encrypt toy_decrypt sampleDigest toy_hmac toy_correct emptyBoxes s emptyBoxes_ok R).
Qed.

Lemma lockbox_requests_exact_witness : is_ok (snd (serve sampleBox (sampleRelease "id-0") sealedDb)) = true.
Proof.
  apply (proj1 (lockbox_requests_exact sampleConfig toy_encrypt toy_decrypt sampleDigest toy_hmac toy_correct (sampleRelease "id-0") sealedDb sealedDb_ok I)).
  eexists. split_and!; [vm_compute; reflexivity|vm_compute; reflexivity|eexists; vm_compute; reflexivity|reflexivity|vm_compute; reflexivity].
Defined.

Lemma lockbox_receipts_verify_witness : exists s r, reaches sampleBox box_env box_sent emptyBoxes s /\
  getReceipt (actor operator) "id-0" (store s) = Ok r.
Proof.
  destruct sealedDb_reached as (s & R & E).
  assert (exists row, lockbox_findById (store s) "id-0" = Some row /\ LockboxRow.sealerOrgId row = "seller") as (row & Hf & Ho).
  { rewrite E. eexists. split; [vm_compute; reflexivity|vm_compute; reflexivity]. }
  destruct (lockbox_receipts_verify sampleConfig toy_encrypt toy_decrypt sampleDigest toy_hmac toy_correct emptyBoxes s (actor operator) "id-0" row
    toy_hmac_bytes emptyBoxes_ok R Hf) as (r & key & Hg & _).
  - rewrite Ho. vm_compute. reflexivity.
  - exists s, r. split; [exact R|exact Hg].
Defined.
