(* ===== verification/ClaimRepositories.v ===== *)
(** * packages/db: the repositories of the claim tables

    claim, claim-evidence, claim-decision and claim-dispute .repository.ts,
    and opportunity.repository.ts's [findById].  A score breakdown is stored
    as the record packages/attribution computed; [breakdownJson] is the object
    the shape guard sees. *)
From S2P Require Import Prelude StableSort DomainStates AuthzMatrix JsNumber JsonText Attribution Database ApiShared.

Definition opportunity_findById (db : Db) (x : string) : option OpportunityRow.t := findById (opportunities db) x.

(** ** claimRepository *)

Record CreateFiledClaimInput : Type := {
  cf_id : string;
  cf_claimantOrgId : string;
  cf_claimantUserId : string;
  cf_subjectOrgId : string;
  cf_relationshipType : string;
  cf_directnessTier : ClaimVocabulary.DirectnessTier;
  cf_opportunityId : option string;
  cf_claimScope : Json;
  cf_priorCommercialHistoryMonths : Z;
  cf_submissionLagDays : Z;
  cf_createdByUserId : option string;
  cf_createdByOrgId : option string
}.

Record MarkClaimScoredInput : Type := {
  ms_scoreBreakdown : ClaimScoreBreakdown;
  ms_scoreTotal : jsnum;
  ms_algorithmVersion : string;
  ms_inputVersions : list string;
  ms_scoredAt : Z;
  ms_provisionalExpiresAt : option Z;
  ms_updatedByUserId : option string
}.

Definition claim_findById (db : Db) (x : string) : option ClaimRow.t := findById (claims db) x.

Definition claim_listByClaimant (db : Db) (org : string) : list ClaimRow.t :=
  findMany (desc row_createdAt) (fun c => String.eqb (ClaimRow.claimantOrgId c) org) (claims db).

Definition claim_listBySubject (db : Db) (org : string) (opportunity : option string) : list ClaimRow.t :=
  take 500 (findMany (asc row_createdAt)
    (fun c => String.eqb (ClaimRow.subjectOrgId c) org && bool_decide (ClaimRow.opportunityId c = opportunity)) (claims db)).

Definition claim_list (db : Db) : list ClaimRow.t :=
  take 100 (findMany (desc row_createdAt) (fun _ => true) (claims db)).

Definition newClaimRow (base : Base) (input : CreateFiledClaimInput) : ClaimRow.t :=
  {| ClaimRow.id := cf_id input; ClaimRow.claimantOrgId := cf_claimantOrgId input; ClaimRow.claimantUserId := cf_claimantUserId input;
     ClaimRow.subjectOrgId := cf_subjectOrgId input; ClaimRow.relationshipType := cf_relationshipType input;
     ClaimRow.directnessTier := cf_directnessTier input; ClaimRow.opportunityId := cf_opportunityId input;
     ClaimRow.claimScope := cf_claimScope input; ClaimRow.status := Claim.FILED;
     ClaimRow.priorCommercialHistoryMonths := cf_priorCommercialHistoryMonths input;
     ClaimRow.submissionLagDays := cf_submissionLagDays input; ClaimRow.scoreBreakdown := None; ClaimRow.scoreTotal := None;
     ClaimRow.algorithmVersion := None; ClaimRow.inputVersions := []; ClaimRow.scoredAt := None;
     ClaimRow.provisionalExpiresAt := None; ClaimRow.base := base |}.

Definition claim_create (input : CreateFiledClaimInput) : Tx ClaimRow.t :=
  do* tlift (assertJsonSafePlainObject (cf_claimScope input) "claimScope");
  fun db =>
    let row := newClaimRow (newBase (cf_createdByUserId input) (cf_createdByOrgId input) Roles.RESTRICTED db) input in
    Ok (row, set_claims (claims db ++ [row]) db).

Definition claim_update (x : string) (f : ClaimRow.t -> ClaimRow.t) : Tx ClaimRow.t :=
  fun db =>
    let! (row, t) := updateById x f (claims db) in
    Ok (row, set_claims t db).

(** Status, base columns and, when scoring, the score columns. *)
Definition claimWith (st : Claim.ClaimStatus) (user : option string) (score : option MarkClaimScoredInput) (c : ClaimRow.t) : ClaimRow.t :=
  {| ClaimRow.id := ClaimRow.id c; ClaimRow.claimantOrgId := ClaimRow.claimantOrgId c; ClaimRow.claimantUserId := ClaimRow.claimantUserId c;
     ClaimRow.subjectOrgId := ClaimRow.subjectOrgId c; ClaimRow.relationshipType := ClaimRow.relationshipType c;
     ClaimRow.directnessTier := ClaimRow.directnessTier c; ClaimRow.opportunityId := ClaimRow.opportunityId c;
     ClaimRow.claimScope := ClaimRow.claimScope c; ClaimRow.status := st;
     ClaimRow.priorCommercialHistoryMonths := ClaimRow.priorCommercialHistoryMonths c;
     ClaimRow.submissionLagDays := ClaimRow.submissionLagDays c;
     ClaimRow.scoreBreakdown := match score with Some s => Some (ms_scoreBreakdown s) | None => ClaimRow.scoreBreakdown c end;
     ClaimRow.scoreTotal := match score with Some s => Some (ms_scoreTotal s) | None => ClaimRow.scoreTotal c end;
     ClaimRow.algorithmVersion := match score with Some s => Some (ms_algorithmVersion s) | None => ClaimRow.algorithmVersion c end;
     ClaimRow.inputVersions := match score with Some s => ms_inputVersions s | None => ClaimRow.inputVersions c end;
     ClaimRow.scoredAt := match score with Some s => Some (ms_scoredAt s) | None => ClaimRow.scoredAt c end;
     ClaimRow.provisionalExpiresAt := match score with Some s => ms_provisionalExpiresAt s | None => ClaimRow.provisionalExpiresAt c end;
     ClaimRow.base := touch (ClaimRow.base c) user |}.

Definition contributionJson (c : ClaimEvidenceContribution) : Json :=
  JObj [("index", JNum (index c)); ("evidenceType", JStr (c_evidenceType c)); ("verificationState", JStr (c_verificationState c));
        ("basePoints", JFloat (basePoints c)); ("multiplier", JFloat (multiplier c)); ("contribution", JFloat (contribution c))].

Definition optionalNumber (key : string) (o : option jsnum) : list (string * Json) :=
  match o with Some x => [(key, JFloat x)] | None => [] end.

Definition breakdownJson (b : ClaimScoreBreakdown) : Json :=
  JObj ([("history", JFloat (history b)); ("proximity", JFloat (proximity b)); ("evidence", JFloat (evidence b)); ("time", JFloat (time b));
         ("weighted", JFloat (weighted b)); ("total", JFloat (total b))]
        ++ optionalNumber "cappedFrom" (cappedFrom b) ++ optionalNumber "evidenceRawTotal" (evidenceRawTotal b)
        ++ [("evidenceBreakdown", JArr (map contributionJson (evidenceBreakdown b)));
            ("algorithmVersion", JStr (algorithmVersion b)); ("inputVersions", JArr (map JStr (b_inputVersions b)))]).

Definition claim_markScored (x : string) (input : MarkClaimScoredInput) : Tx ClaimRow.t :=
  do* tlift (assertJsonSafePlainObject (breakdownJson (ms_scoreBreakdown input)) "scoreBreakdown");
  do* tlift (assertStringArray (JArr (map JStr (ms_inputVersions input))) "inputVersions");
  claim_update x (claimWith Claim.SCORED (ms_updatedByUserId input) (Some input)).

Definition claim_updateStatus (x : string) (st : Claim.ClaimStatus) (user : option string) : Tx ClaimRow.t :=
  claim_update x (claimWith st user None).

(** ** claimEvidenceRepository *)

Record CreateClaimEvidenceInput : Type := {
  ce_id : string;
  ce_claimId : string;
  ce_evidenceType : ClaimVocabulary.ClaimEvidenceType;
  ce_assertedFact : string;
  ce_verificationState : ClaimVocabulary.EvidenceVerificationState;
  ce_evidenceRef : option string;
  ce_createdByUserId : option string;
  ce_createdByOrgId : option string
}.

Definition claimEvidence_listByClaim (db : Db) (x : string) : list ClaimEvidenceRow.t :=
  findMany (asc row_createdAt) (fun e => String.eqb (ClaimEvidenceRow.claimId e) x) (claimEvidence db).

Definition newClaimEvidenceRow (db : Db) (input : CreateClaimEvidenceInput) : ClaimEvidenceRow.t :=
  {| ClaimEvidenceRow.id := ce_id input; ClaimEvidenceRow.claimId := ce_claimId input; ClaimEvidenceRow.evidenceType := ce_evidenceType input;
     ClaimEvidenceRow.assertedFact := ce_assertedFact input; ClaimEvidenceRow.verificationState := ce_verificationState input;
     ClaimEvidenceRow.evidenceRef := ce_evidenceRef input;
     ClaimEvidenceRow.base := newBase (ce_createdByUserId input) (ce_createdByOrgId input) Roles.RESTRICTED db |}.

Definition claimEvidence_createMany (inputs : list CreateClaimEvidenceInput) : Tx Z :=
  fun db => Ok (Z.of_nat (length inputs), set_claimEvidence (claimEvidence db ++ map (newClaimEvidenceRow db) inputs) db).

(** ** claimDecisionRepository *)

Record CreateClaimDecisionInput : Type := {
  cd_claimId : string;
  cd_disputeId : option string;
  cd_decision : ClaimDecision.ClaimDecisionOutcome;
  cd_scoreBreakdown : ClaimScoreBreakdown;
  cd_algorithmVersion : string;
  cd_reviewerUserId : string;
  cd_reviewerOrgId : string;
  cd_reason : string
}.

Definition claimDecision_listByClaim (db : Db) (x : string) : list ClaimDecisionRow.t :=
  findMany (desc row_createdAt) (fun d => String.eqb (ClaimDecisionRow.claimId d) x) (claimDecisions db).

(** [create] with [newClaimDecisionId()]; [now] is its [new Date()]. *)
Definition claimDecision_create `{Platform} (now : Z) (input : CreateClaimDecisionInput) : Tx ClaimDecisionRow.t :=
  let* i := freshId in
  do* tlift (assertJsonSafePlainObject (breakdownJson (cd_scoreBreakdown input)) "scoreBreakdown");
  fun db =>
    let row := {|
      ClaimDecisionRow.id := i; ClaimDecisionRow.claimId := cd_claimId input; ClaimDecisionRow.disputeId := cd_disputeId input;
      ClaimDecisionRow.decision := cd_decision input; ClaimDecisionRow.scoreBreakdown := cd_scoreBreakdown input;
      ClaimDecisionRow.algorithmVersion := cd_algorithmVersion input; ClaimDecisionRow.ruleVersion := "attribution-rules-v1";
      ClaimDecisionRow.reviewerUserId := cd_reviewerUserId input; ClaimDecisionRow.reviewerOrgId := cd_reviewerOrgId input;
      ClaimDecisionRow.reason := cd_reason input; ClaimDecisionRow.appealStatus := ClaimDecision.NONE;
      ClaimDecisionRow.effectiveFrom := now; ClaimDecisionRow.effectiveTo := None;
      ClaimDecisionRow.base := newBase None None Roles.RESTRICTED db |} in
    Ok (row, set_claimDecisions (claimDecisions db ++ [row]) db).

(** [decisions.reduce]: the first among those with the latest [createdAt] *)
Definition latestClaimDecision (decisions : list ClaimDecisionRow.t) : option ClaimDecisionRow.t :=
  match decisions with
  | [] => None
  | d0 :: rest => Some (foldl (fun latest d => if row_createdAt latest <? row_createdAt d then d else latest) d0 rest)
  end.

(** ** claimDisputeRepository *)

Record CreateClaimDisputeInput : Type := {
  cx_id : string;
  cx_claimId : string;
  cx_challengerOrgId : string;
  cx_challengerUserId : string;
  cx_basis : string;
  cx_evidence : list Json;
  cx_createdByUserId : option string;
  cx_createdByOrgId : option string
}.

Definition claimDispute_listByClaim (db : Db) (x : string) : list ClaimDisputeRow.t :=
  findMany (desc row_createdAt) (fun d => String.eqb (ClaimDisputeRow.claimId d) x) (claimDisputes db).

Definition openOn (x : string) (d : ClaimDisputeRow.t) : bool :=
  String.eqb (ClaimDisputeRow.claimId d) x && bool_decide (ClaimDisputeRow.status d = ClaimDispute.OPEN).

Definition claimDispute_findOpenByClaim (db : Db) (x : string) : option ClaimDisputeRow.t := findUnique (openOn x) (claimDisputes db).

Definition claimDispute_create (input : CreateClaimDisputeInput) : Tx ClaimDisputeRow.t :=
  do* tlift (assertJsonSafeObjectArray (JArr (cx_evidence input)) "evidence");
  fun db =>
    let row := {|
      ClaimDisputeRow.id := cx_id input; ClaimDisputeRow.claimId := cx_claimId input;
      ClaimDisputeRow.challengerOrgId := cx_challengerOrgId input; ClaimDisputeRow.challengerUserId := cx_challengerUserId input;
      ClaimDisputeRow.basis := cx_basis input; ClaimDisputeRow.evidence := cx_evidence input;
      ClaimDisputeRow.status := ClaimDispute.OPEN; ClaimDisputeRow.resolution := None;
      ClaimDisputeRow.base := newBase (cx_createdByUserId input) (cx_createdByOrgId input) Roles.RESTRICTED db |} in
    Ok (row, set_claimDisputes (claimDisputes db ++ [row]) db).

Definition decidedDispute (r : ClaimDispute.ClaimDisputeResolution) (user : option string) (d : ClaimDisputeRow.t) : ClaimDisputeRow.t :=
  {| ClaimDisputeRow.id := ClaimDisputeRow.id d; ClaimDisputeRow.claimId := ClaimDisputeRow.claimId d;
     ClaimDisputeRow.challengerOrgId := ClaimDisputeRow.challengerOrgId d; ClaimDisputeRow.challengerUserId := ClaimDisputeRow.challengerUserId d;
     ClaimDisputeRow.basis := ClaimDisputeRow.basis d; ClaimDisputeRow.evidence := ClaimDisputeRow.evidence d;
     ClaimDisputeRow.status := ClaimDispute.DECIDED; ClaimDisputeRow.resolution := Some r;
     ClaimDisputeRow.base := touch (ClaimDisputeRow.base d) user |}.

Definition claimDispute_markDecided (x : string) (r : ClaimDispute.ClaimDisputeResolution) (user : option string) : Tx ClaimDisputeRow.t :=
  fun db =>
    let! (row, t) := updateById x (decidedDispute r user) (claimDisputes db) in
    Ok (row, set_claimDisputes t db).
