(* ===== verification/ClaimService.v ===== *)
(** * apps/api/src/modules/claims/service.ts

    Filing (with its score), disputing and deciding attribution claims, and
    the two reads.  A mutation is its reads and checks before the transaction
    ([_pre]) and its transaction ([_tx]); an identifier drawn and a score
    computed between the two are the first part of the transaction, since
    neither reads the database. *)
From S2P Require Import Prelude StableSort Lifecycle JsDate DomainStates JsNumber AuthzMatrix Authz JsonText.
From S2P Require Import Attribution Database ApiShared LockboxRepositories ClaimRepositories.
Import Roles Actions.

(** ** Requests *)

Record ClaimEvidenceItemInput : Type := {
  i_evidenceType : ClaimVocabulary.ClaimEvidenceType;
  i_assertedFact : string;
  i_verificationState : option ClaimVocabulary.EvidenceVerificationState;
  i_evidenceRef : option string
}.

Record CreateClaimRequest : Type := {
  cr_subjectOrgId : string;
  cr_relationshipType : string;
  cr_directnessTier : ClaimVocabulary.DirectnessTier;
  cr_opportunityId : option string;
  cr_claimScope : option Json;
  cr_priorCommercialHistoryMonths : Z;
  cr_submissionLagDays : Z;
  cr_evidenceItems : list ClaimEvidenceItemInput
}.

Record FileClaimDisputeRequest : Type := { fd_basis : string; fd_evidence : option (list Json) }.

Record DecideClaimRequest : Type := { dr_decision : ClaimDecision.ClaimDecisionOutcome; dr_reason : string }.

Definition CROSS_ORG_CLAIM_READ_ROLES : list PersonaRole :=
  [PLATFORM_OWNER; MARKETPLACE_OPERATOR; PARTNERSHIP_LEAD; UNDERWRITING_ANALYST; COMPLIANCE_REVIEWER; FINANCE_OPERATOR; AUDITOR_READONLY].

Definition PROVISIONAL_WINDOW_DAYS : Z := 30.

Definition decisionEventType (d : ClaimDecision.ClaimDecisionOutcome) : string :=
  if bool_decide (d = ClaimDecision.VERIFIED) then "claim.verified"
  else if bool_decide (d = ClaimDecision.PARTIAL) then "claim.partial"
  else "claim.rejected".

Definition disputeResolutionFor (d : ClaimDecision.ClaimDecisionOutcome) : ClaimDispute.ClaimDisputeResolution :=
  if bool_decide (d = ClaimDecision.VERIFIED) then ClaimDispute.UPHELD_ORIGINAL
  else if bool_decide (d = ClaimDecision.PARTIAL) then ClaimDispute.PARTIAL_ATTRIBUTION
  else ClaimDispute.REJECTED_ORIGINAL.

(** [input.decision] as the claim's next status: the names agree. *)
Definition outcomeStatus (d : ClaimDecision.ClaimDecisionOutcome) : Claim.ClaimStatus :=
  match d with
  | ClaimDecision.VERIFIED => Claim.VERIFIED
  | ClaimDecision.PARTIAL => Claim.PARTIAL
  | ClaimDecision.REJECTED => Claim.REJECTED
  end.

Definition claimStatusName (c : ClaimRow.t) : string := Claim.ClaimStatus_name (ClaimRow.status c).

Definition computeDisputeStanding (challengerOrgId : string) (claim : ClaimRow.t) (db : Db) : bool :=
  if String.eqb (ClaimRow.subjectOrgId claim) challengerOrgId then true
  else existsb (fun c => String.eqb (ClaimRow.claimantOrgId c) challengerOrgId && negb (String.eqb (ClaimRow.id c) (ClaimRow.id claim)))
         (claim_listBySubject db (ClaimRow.subjectOrgId claim) (ClaimRow.opportunityId claim)).

Record ClaimDetail : Type := {
  d_claim : ClaimRow.t;
  d_evidence : list ClaimEvidenceRow.t;
  d_decisions : list ClaimDecisionRow.t;
  d_disputes : list ClaimDisputeRow.t;
  d_rank : option ClaimRankEntry
}.

Definition loadClaim (db : Db) (claimId : string) : res ClaimRow.t :=
  match claim_findById db claimId with
  | None => Throw (notFound "Claim not found.")
  | Some c => Ok c
  end.

Definition claimResource (c : ClaimRow.t) : Resource := resourceOf ResourceType.claim (ClaimRow.id c) (Some (ClaimRow.claimantOrgId c)).

Section Service.
Context `{Platform}.

(** ** The reads *)

Definition claimsService_list (a : Actor) (db : Db) : res (list ClaimRow.t) :=
  do! require (can a claim_list (resource ResourceType.claim (organizationId a)) noContext);
  if has_role CROSS_ORG_CLAIM_READ_ROLES (role a) then Ok (ClaimRepositories.claim_list db)
  else match organizationId a with
       | None => Ok []
       | Some org => Ok (if String.eqb org "" then [] else claim_listByClaimant db org)
       end.

(** [Date.parse] *)
Definition Date_parse (s : string) : jsnum := match parseDate s with Some t => num_of_Z t | None => SpecFloat.S754_nan end.

Definition rankable (c : ClaimRow.t) : option RankableClaim :=
  match ClaimRow.scoreTotal c with
  | Some t => Some {| claimId := ClaimRow.id c; s_total := t; submittedAt := toISOString (row_createdAt c) |}
  | None => None
  end.

Definition claimRank (db : Db) (claim : ClaimRow.t) : res (option ClaimRankEntry) :=
  let competing := claim_listBySubject db (ClaimRow.subjectOrgId claim) (ClaimRow.opportunityId claim) in
  match omap rankable competing with
  | [] => Ok None
  | rs =>
      let! ranked := rankClaims Date_parse rs in
      Ok (List.find (fun r => String.eqb (r_claimId r) (ClaimRow.id claim)) ranked)
  end.

Definition claimsService_getById (a : Actor) (claimId : string) (db : Db) : res ClaimDetail :=
  let! claim := loadClaim db claimId in
  do! require (can a claim_read (claimResource claim) noContext);
  let! rank := if has_role CROSS_ORG_CLAIM_READ_ROLES (role a) then claimRank db claim else Ok None in
  Ok {| d_claim := claim; d_evidence := claimEvidence_listByClaim db claimId; d_decisions := claimDecision_listByClaim db claimId;
        d_disputes := claimDispute_listByClaim db claimId; d_rank := rank |}.

(** ** create *)

Definition createClaim_pre (c : Call) (input : CreateClaimRequest) (db : Db) : res string :=
  match (if present (organizationId (actor c)) then organizationId (actor c) else None) with
  | None => Throw (forbidden "No active organization membership.")
  | Some org =>
      do! require (can (actor c) Actions.claim_create (resource ResourceType.claim (Some org)) noContext);
      do! match organization_findById db (cr_subjectOrgId input) with
          | None => Throw (badRequest "subjectOrgId does not reference a real organization.")
          | Some _ => Ok tt
          end;
      do! when_present (cr_opportunityId input)
            (fun x => match opportunity_findById db x with
                      | None => Throw (badRequest "opportunityId does not reference a real opportunity.")
                      | Some _ => Ok tt
                      end) (Ok tt);
      Ok org
  end.

Definition itemState (i : ClaimEvidenceItemInput) : ClaimVocabulary.EvidenceVerificationState :=
  default ClaimVocabulary.SELF_REPORTED (i_verificationState i).

Definition scoringItem (i : ClaimEvidenceItemInput) : ClaimEvidenceInput :=
  {| Attribution.evidenceType := ClaimVocabulary.ClaimEvidenceType_name (i_evidenceType i);
     Attribution.verificationState := ClaimVocabulary.EvidenceVerificationState_name (itemState i) |}.

Definition scoringInput (x : string) (input : CreateClaimRequest) : ClaimScoringInput :=
  {| Attribution.priorCommercialHistoryMonths := num_of_Z (cr_priorCommercialHistoryMonths input);
     Attribution.directnessTier := ClaimVocabulary.DirectnessTier_name (cr_directnessTier input);
     Attribution.evidenceItems := map scoringItem (cr_evidenceItems input);
     Attribution.submissionLagDays := num_of_Z (cr_submissionLagDays input);
     Attribution.inputVersions := Some ["claim-scoring-input:" +:+ x +:+ ":v1"] |}.

Definition evidenceInput (c : Call) (x : string) (i : ClaimEvidenceItemInput) : Tx CreateClaimEvidenceInput :=
  let* e := freshId in
  tret {| ce_id := e; ce_claimId := x; ce_evidenceType := i_evidenceType i; ce_assertedFact := i_assertedFact i;
          ce_verificationState := itemState i; ce_evidenceRef := i_evidenceRef i;
          ce_createdByUserId := Some (userId (actor c)); ce_createdByOrgId := organizationId (actor c) |}.

(** [if (input.evidenceItems.length > 0) {..}] *)
Definition createEvidence (c : Call) (x : string) (items : list ClaimEvidenceItemInput) : Tx Z :=
  match items with
  | [] => tret 0
  | _ => let* inputs := tmapM (evidenceInput c x) items in claimEvidence_createMany inputs
  end.

Definition createClaim_tx (c : Call) (input : CreateClaimRequest) (org : string) : Tx ClaimRow.t :=
  let* x := freshId in
  let* breakdown := tlift (scoreClaim (scoringInput x input)) in
  let* filed := ClaimRepositories.claim_create {|
    cf_id := x; cf_claimantOrgId := org; cf_claimantUserId := userId (actor c); cf_subjectOrgId := cr_subjectOrgId input;
    cf_relationshipType := cr_relationshipType input; cf_directnessTier := cr_directnessTier input;
    cf_opportunityId := cr_opportunityId input; cf_claimScope := default (JObj []) (cr_claimScope input);
    cf_priorCommercialHistoryMonths := cr_priorCommercialHistoryMonths input; cf_submissionLagDays := cr_submissionLagDays input;
    cf_createdByUserId := Some (userId (actor c)); cf_createdByOrgId := organizationId (actor c) |} in
  do* tlift (Claim.assertValidClaimTransition (claimStatusName filed) "SCORED");
  do* createEvidence c x (cr_evidenceItems input);
  let scoredAt := now c in
  let* scored := claim_markScored x {|
    ms_scoreBreakdown := breakdown; ms_scoreTotal := Attribution.total breakdown;
    ms_algorithmVersion := Attribution.algorithmVersion breakdown;
    ms_inputVersions := b_inputVersions breakdown; ms_scoredAt := scoredAt;
    ms_provisionalExpiresAt := Some (scoredAt + PROVISIONAL_WINDOW_DAYS * 24 * 60 * 60 * 1000);
    ms_updatedByUserId := Some (userId (actor c)) |} in
  let tier := JStr (ClaimVocabulary.DirectnessTier_name (cr_directnessTier input)) in
  let scoreRef := JObj [("scoreTotal", JFloat (Attribution.total breakdown)); ("algorithmVersion", JStr (Attribution.algorithmVersion breakdown))] in
  do* auditWriter (context c) (audit_of c (organizationId (actor c)) "claim.submitted" "claim" x
        (JObj [("subjectOrgId", JStr (cr_subjectOrgId input)); ("relationshipType", JStr (cr_relationshipType input)); ("directnessTier", tier);
               ("opportunityId", JOpt (cr_opportunityId input)); ("evidenceItemCount", JNum (Z.of_nat (length (cr_evidenceItems input))))]));
  do* timelineWriter (context c) (event_of c "claim.submitted" "claim" x
        (JObj [("claimantOrgId", JOpt (organizationId (actor c))); ("subjectOrgId", JStr (cr_subjectOrgId input));
               ("relationshipType", JStr (cr_relationshipType input)); ("directnessTier", tier); ("opportunityId", JOpt (cr_opportunityId input))]));
  do* auditWriter (context c) (audit_of c (organizationId (actor c)) "claim.scored" "claim" x scoreRef);
  do* timelineWriter (context c) (event_of c "claim.scored" "claim" x scoreRef);
  tret scored.

(** ** fileDispute *)

(** An open dispute is refused before the transition is: DISPUTED to DISPUTED
    would be a 400. *)
Definition assertDisputable (claimId : string) (claim : ClaimRow.t) (db : Db) : res unit :=
  do! match claimDispute_findOpenByClaim db claimId with
      | Some _ => Throw (conflict "This claim already has an open dispute." false)
      | None => Ok tt
      end;
  Claim.assertValidClaimTransition (claimStatusName claim) "DISPUTED".

Definition fileDispute_pre (c : Call) (claimId : string) (db : Db) : res (string * ClaimRow.t) :=
  match (if present (organizationId (actor c)) then organizationId (actor c) else None) with
  | None => Throw (forbidden "No active organization membership.")
  | Some org =>
      let! claim := loadClaim db claimId in
      do! throw_if (String.eqb (ClaimRow.claimantOrgId claim) org) (badRequest "Cannot dispute your own claim");
      let standing := computeDisputeStanding org claim db in
      do! require (can (actor c) claim_dispute (claimResource claim) {| isSelf := None; isParticipant := Some standing |});
      do! assertDisputable claimId claim db;
      Ok (org, claim)
  end.

(** The row as read under the advisory lock of the claim. *)
Definition freshClaim (claimId : string) : Tx ClaimRow.t :=
  fun db =>
    match claim_findById db claimId with
    | None => Throw (internal "Claim disappeared mid-transaction.")
    | Some c => Ok (c, db)
    end.

Definition fileDispute_tx (c : Call) (claimId : string) (input : FileClaimDisputeRequest) (p : string * ClaimRow.t) : Tx ClaimDisputeRow.t :=
  let (org, claim) := p in
  let* disputeId := freshId in
  let* fresh := freshClaim claimId in
  do* (fun db => tlift (assertDisputable claimId fresh db) db);
  let* dispute := claimDispute_create {|
    cx_id := disputeId; cx_claimId := claimId; cx_challengerOrgId := org; cx_challengerUserId := userId (actor c);
    cx_basis := fd_basis input; cx_evidence := default [] (fd_evidence input);
    cx_createdByUserId := Some (userId (actor c)); cx_createdByOrgId := organizationId (actor c) |} in
  do* claim_updateStatus claimId Claim.DISPUTED (Some (userId (actor c)));
  do* auditWriter (context c) (audit_because c (Some (ClaimRow.claimantOrgId claim)) "claim.disputed" "claim" claimId (Some (fd_basis input))
        (JObj [("challengerOrgId", JOpt (organizationId (actor c))); ("disputeId", JStr disputeId)]));
  do* timelineWriter (context c) (event_of c "claim.disputed" "claim" claimId
        (JObj [("challengerOrgId", JOpt (organizationId (actor c))); ("basis", JStr (fd_basis input))]));
  tret dispute.

(** ** decide *)

(** The checks made both before and inside the transaction. *)
Definition decidable (claim : ClaimRow.t) (d : ClaimDecision.ClaimDecisionOutcome) : res (ClaimScoreBreakdown * string) :=
  do! throw_if (negb (bool_decide (ClaimRow.status claim = Claim.SCORED)) && negb (bool_decide (ClaimRow.status claim = Claim.DISPUTED)))
        (conflict "Claim cannot be decided from its current status" false);
  do! Claim.assertValidClaimTransition (claimStatusName claim) (ClaimDecision.ClaimDecisionOutcome_name d);
  match ClaimRow.scoreBreakdown claim, ClaimRow.algorithmVersion claim with
  | Some b, Some v => if String.eqb v "" then Throw (internal "Claim has no scoreBreakdown/algorithmVersion to snapshot.") else Ok (b, v)
  | _, _ => Throw (internal "Claim has no scoreBreakdown/algorithmVersion to snapshot.")
  end.

Definition decide_pre (c : Call) (claimId : string) (input : DecideClaimRequest) (db : Db) : res ClaimRow.t :=
  let! claim := loadClaim db claimId in
  do! require (can (actor c) claim_decide (claimResource claim) noContext);
  do! throw_if (bool_decide (organizationId (actor c) = Some (ClaimRow.claimantOrgId claim)))
        (forbidden "Cannot decide a claim your own organization filed");
  let! _ := decidable claim (dr_decision input) in
  Ok claim.

Definition openDispute (claimId : string) (claim : ClaimRow.t) (db : Db) : res (option ClaimDisputeRow.t) :=
  if bool_decide (ClaimRow.status claim = Claim.DISPUTED) then
    match claimDispute_findOpenByClaim db claimId with
    | None => Throw (internal "Claim is DISPUTED but has no open dispute row")
    | Some d => Ok (Some d)
    end
  else Ok None.

(** [actor.organizationId!] *)
Definition reviewerOrg (c : Call) : res string :=
  match organizationId (actor c) with
  | Some org => Ok org
  | None => Throw (PrismaClientValidationError "reviewerOrgId")
  end.

(** [if (freshOpenDispute) {..}] *)
Definition resolveDispute (c : Call) (claimId claimantOrgId : string) (input : DecideClaimRequest) (o : option ClaimDisputeRow.t) : Tx unit :=
  match o with
  | None => tret tt
  | Some dispute =>
      let resolution := disputeResolutionFor (dr_decision input) in
      let resolutionName := JStr (ClaimDispute.ClaimDisputeResolution_name resolution) in
      do* claimDispute_markDecided (ClaimDisputeRow.id dispute) resolution (Some (userId (actor c)));
      do* auditWriter (context c) (audit_because c (Some claimantOrgId) "claim.dispute_decided" "claim_dispute" (ClaimDisputeRow.id dispute)
            (Some (dr_reason input)) (JObj [("resolution", resolutionName); ("reviewerOrgId", JOpt (organizationId (actor c)))]));
      do* timelineWriter (context c) (event_of c "claim.dispute_decided" "claim" claimId
            (JObj [("disputeId", JStr (ClaimDisputeRow.id dispute)); ("resolution", resolutionName);
                   ("reviewerOrgId", JOpt (organizationId (actor c)))]));
      tret tt
  end.

Definition decide_tx (c : Call) (claimId : string) (input : DecideClaimRequest) : Tx ClaimDecisionRow.t :=
  let* fresh := freshClaim claimId in
  let* (breakdown, algorithm) := tlift (decidable fresh (dr_decision input)) in
  let* dispute := fun db => tlift (openDispute claimId fresh db) db in
  let* reviewer := tlift (reviewerOrg c) in
  let* decisionRow := claimDecision_create (now c) {|
    cd_claimId := claimId; cd_disputeId := ClaimDisputeRow.id <$> dispute; cd_decision := dr_decision input;
    cd_scoreBreakdown := breakdown; cd_algorithmVersion := algorithm; cd_reviewerUserId := userId (actor c);
    cd_reviewerOrgId := reviewer; cd_reason := dr_reason input |} in
  do* claim_updateStatus claimId (outcomeStatus (dr_decision input)) (Some (userId (actor c)));
  do* resolveDispute c claimId (ClaimRow.claimantOrgId fresh) input dispute;
  do* auditWriter (context c) (audit_because c (Some (ClaimRow.claimantOrgId fresh)) (decisionEventType (dr_decision input)) "claim" claimId
        (Some (dr_reason input)) (JObj [("decision", JStr (ClaimDecision.ClaimDecisionOutcome_name (dr_decision input)));
                                        ("reviewerOrgId", JOpt (organizationId (actor c)))]));
  do* timelineWriter (context c) (event_of c (decisionEventType (dr_decision input)) "claim" claimId
        (JObj [("reviewerOrgId", JOpt (organizationId (actor c))); ("reason", JStr (dr_reason input));
               ("disputeId", JOpt (ClaimDisputeRow.id <$> dispute))]));
  tret decisionRow.

End Service.
