(* ===== verification/ClaimSpec.v ===== *)
(** * What the claims service promises

    The life of an attribution claim without tables: it is filed with its
    score, may be decided once, and then disputed and decided again, round
    after round.  Its status is a function of that history.  The service
    refines this ([ClaimTheorems]); what every history guarantees is shown
    here by rule induction. *)
From S2P Require Import Prelude DomainStates Attribution ClaimService.
From stdpp Require Import relations.
#[local] Open Scope Z_scope.

(** An outcome and the organization that decided it. *)
Definition Verdict : Type := ClaimDecision.ClaimDecisionOutcome * string.

Record Round : Type := { rd_challenger : string; rd_verdict : option Verdict }.

Record History : Type := {
  h_claimant : string;
  h_subject : string;
  h_score : option ClaimScoreBreakdown;
  h_first : option Verdict;
  h_rounds : list Round
}.

Definition verdictStatus (v : Verdict) : Claim.ClaimStatus := outcomeStatus (fst v).

Definition h_status (h : History) : Claim.ClaimStatus :=
  match last (h_rounds h) with
  | Some r => match rd_verdict r with Some v => verdictStatus v | None => Claim.DISPUTED end
  | None => match h_first h with Some v => verdictStatus v | None => Claim.SCORED end
  end.

Definition with_rounds (rs : list Round) (h : History) : History :=
  {| h_claimant := h_claimant h; h_subject := h_subject h; h_score := h_score h; h_first := h_first h; h_rounds := rs |}.
Definition with_first (v : Verdict) (h : History) : History :=
  {| h_claimant := h_claimant h; h_subject := h_subject h; h_score := h_score h; h_first := Some v; h_rounds := h_rounds h |}.

(** One act on one claim. *)
Inductive claim_step : History -> History -> Prop :=
| step_dispute h challenger :
    challenger <> h_claimant h -> h_status h ∈ [Claim.SCORED; Claim.VERIFIED; Claim.PARTIAL] ->
    claim_step h (with_rounds (h_rounds h ++ [{| rd_challenger := challenger; rd_verdict := None |}]) h)
| step_decide h v :
    snd v <> h_claimant h -> h_status h = Claim.SCORED ->
    claim_step h (with_first v h)
| step_settle h rs challenger v :
    snd v <> h_claimant h -> h_rounds h = rs ++ [{| rd_challenger := challenger; rd_verdict := None |}] ->
    claim_step h (with_rounds (rs ++ [{| rd_challenger := challenger; rd_verdict := Some v |}]) h).

Notation Claims := (gmap string History).

Inductive claims_step : Claims -> Claims -> Prop :=
| claims_file m x h :
    m !! x = None -> h_first h = None -> h_rounds h = [] -> is_Some (h_score h) ->
    claims_step m (<[x := h]> m)
| claims_act m x h h' :
    m !! x = Some h -> claim_step h h' ->
    claims_step m (<[x := h']> m).

(** ** What every history guarantees *)

(** Disputes are settled one after another, and nobody judges or disputes a
    claim of their own. *)
Record history_ok (h : History) : Prop := {
  hk_settled : forall rs r, h_rounds h = rs ++ [r] -> Forall (fun r => is_Some (rd_verdict r)) rs;
  hk_first : forall v, h_first h = Some v -> snd v <> h_claimant h;
  hk_rounds : Forall (fun r => rd_challenger r <> h_claimant h /\ (forall v, rd_verdict r = Some v -> snd v <> h_claimant h)) (h_rounds h)
}.

Lemma last_snoc_rounds h rs r : h_rounds h = rs ++ [r] ->
  h_status h = match rd_verdict r with Some v => verdictStatus v | None => Claim.DISPUTED end.
Proof. intros E. unfold h_status. by rewrite E, last_snoc. Qed.

Lemma verdict_not_open v : verdictStatus v <> Claim.DISPUTED /\ verdictStatus v <> Claim.SCORED.
Proof. destruct v as [[] ?]; by split. Qed.

(** Only a claim nobody ever touched is SCORED. *)
Lemma status_scored h : h_status h = Claim.SCORED <-> h_first h = None /\ h_rounds h = [].
Proof.
  unfold h_status. destruct (h_rounds h) as [|r rs] using rev_ind.
  - simpl. destruct (h_first h) as [v|]; [|done]. split; [by intros E%verdict_not_open|by intros [? _]].
  - rewrite last_snoc. split; [|intros [_ E]; by destruct rs]. destruct (rd_verdict r) as [v|]; [by intros E%verdict_not_open|done].
Qed.

Lemma status_disputed h : h_status h = Claim.DISPUTED <-> exists rs c, h_rounds h = rs ++ [{| rd_challenger := c; rd_verdict := None |}].
Proof.
  unfold h_status. destruct (h_rounds h) as [|r rs] using rev_ind.
  - simpl. split; [|intros (rs & c & E); by destruct rs]. destruct (h_first h) as [v|]; [|done]. by intros E%verdict_not_open.
  - rewrite last_snoc. split.
    + destruct r as [c [v|]]; simpl; [by intros E%verdict_not_open|]. intros _. by exists rs, c.
    + intros (rs' & c & [_ ->]%app_inj_tail). done.
Qed.

Lemma not_disputed_settled h : history_ok h -> h_status h <> Claim.DISPUTED -> Forall (fun r => is_Some (rd_verdict r)) (h_rounds h).
Proof.
  intros [Hs _ _] Hd. remember (h_rounds h) as l eqn:E. destruct l as [|r rs _] using rev_ind; [constructor|].
  apply Forall_app. split; [by eapply Hs|]. constructor; [|done]. destruct r as [c [v|]]; [by eexists|].
  destruct Hd. apply status_disputed. by exists rs, c.
Qed.

Lemma claim_step_ok h h' : history_ok h -> claim_step h h' -> history_ok h'.
Proof.
  intros K St. pose proof K as [Hs Hf Hr]. destruct St as [h c Hc Hst|h v Hv Hst|h rs c v Hv E]; split; simpl; try done.
  - intros rs r [<- _]%app_inj_tail. apply not_disputed_settled; [done|]. intros E. rewrite E in Hst. set_solver.
  - apply Forall_app. split; [done|]. by constructor.
  - by intros v' [= <-].
  - intros rs' r [<- _]%app_inj_tail. by eapply Hs.
  - rewrite E in Hr. apply Forall_app in Hr as [Hrs [[Hch _] _]%Forall_cons]. apply Forall_app. split; [done|].
    constructor; [|done]. split; [done|]. by intros v' [= <-].
Qed.

Definition claims_safe (m : Claims) : Prop := map_Forall (fun _ h => history_ok h) m.

Lemma claims_step_safe m m' : claims_safe m -> claims_step m m' -> claims_safe m'.
Proof.
  intros Hm St. destruct St as [m x h _ Hf Hr _|m x h h' Hx St]; apply map_Forall_insert_2; try done.
  - split; rewrite ?Hf, ?Hr; [intros rs r E; by destruct rs|done|constructor].
  - eapply claim_step_ok; [|done]. by apply (Hm x).
Qed.

Lemma claims_run_safe m m' : claims_safe m -> rtc claims_step m m' -> claims_safe m'.
Proof. intros Hm R. induction R as [m|m m1 m2 St _ IH]; [done|]. apply IH. by eapply claims_step_safe. Qed.

(** Who filed what about whom, and its score, never change. *)
Definition filing (h : History) : string * string * option ClaimScoreBreakdown := (h_claimant h, h_subject h, h_score h).

(** What one claim may become: the filing stays, the first verdict stays, rounds
    are only added, a settled round stays, and a rejected claim stays as it is. *)
Record later (h h' : History) : Prop := {
  lt_filing : filing h' = filing h;
  lt_first : forall v, h_first h = Some v -> h_first h' = Some v;
  lt_rounds : forall i r v, h_rounds h !! i = Some r -> rd_verdict r = Some v -> h_rounds h' !! i = Some r;
  lt_challengers : map rd_challenger (h_rounds h) `prefix_of` map rd_challenger (h_rounds h');
  lt_rejected : h_status h = Claim.REJECTED -> h' = h
}.

Lemma later_refl h : later h h.
Proof. split; done. Qed.

Lemma later_trans h1 h2 h3 : later h1 h2 -> later h2 h3 -> later h1 h3.
Proof.
  intros [A1 A2 A3 A4 A5] [B1 B2 B3 B4 B5]. split; [congruence|eauto|eauto|by etransitivity|].
  intros E. rewrite (A5 E) in *. by apply B5.
Qed.

Lemma claim_step_later h h' : claim_step h h' -> later h h'.
Proof.
  intros St. destruct St as [h c Hc Hst|h v Hv Hst|h rs c v Hv E]; split; simpl; try done.
  - intros i r v Hi _. by apply lookup_app_l_Some.
  - rewrite map_app. by eexists.
  - intros E. rewrite E in Hst. set_solver.
  - intros v' E. apply status_scored in Hst as [? _]. congruence.
  - congruence.
  - intros i r w. rewrite E. destruct (decide (i < length rs)%nat) as [Hi|Hi].
    + by rewrite !lookup_app_l by lia.
    + rewrite lookup_app_r by lia. intros [_ <-]%list_lookup_singleton_Some. done.
  - rewrite E, !map_app. done.
  - rewrite (last_snoc_rounds _ _ _ E). done.
Qed.

Lemma claims_step_later m m' x h : claims_step m m' -> m !! x = Some h -> exists h', m' !! x = Some h' /\ later h h'.
Proof.
  intros St Hx. destruct St as [m y g Hy _ _ _|m y g g' Hy St]; destruct (decide (y = x)) as [->|Hne].
  - congruence.
  - exists h. rewrite lookup_insert_ne by done. split; [done|apply later_refl].
  - exists g'. rewrite lookup_insert_eq. split; [done|]. assert (g = h) as <- by congruence. by apply claim_step_later.
  - exists h. rewrite lookup_insert_ne by done. split; [done|apply later_refl].
Qed.

Lemma claims_run_later m m' x h : rtc claims_step m m' -> m !! x = Some h -> exists h', m' !! x = Some h' /\ later h h'.
Proof.
  intros R. revert h. induction R as [m|m m1 m2 St _ IH]; intros h Hx; [exists h; split; [done|apply later_refl]|].
  destruct (claims_step_later _ _ _ _ St Hx) as (h1 & H1 & L1). destruct (IH _ H1) as (h2 & H2 & L2).
  exists h2. split; [done|by eapply later_trans].
Qed.
