(* ===== verification/ClaimInvariant.v ===== *)
(** * The claim tables as histories

    The abstraction of the claim, dispute and decision tables to [ClaimSpec],
    and what holds of the tables between any two transactions. *)
From S2P Require Import Prelude StableSort Lifecycle DomainStates JsNumber AuthzMatrix JsonText Attribution Database Tables ApiShared.
From S2P Require Import ClaimRepositories ClaimService ClaimSpec.
#[local] Open Scope Z_scope.

Section Inv.
Context `{Platform}.

(** ** Rows of one claim *)

Definition disputesOf (db : Db) (x : string) : list ClaimDisputeRow.t :=
  List.filter (fun d => String.eqb (ClaimDisputeRow.claimId d) x) (claimDisputes db).
Definition evidenceOfClaim (db : Db) (x : string) : list ClaimEvidenceRow.t :=
  List.filter (fun e => String.eqb (ClaimEvidenceRow.claimId e) x) (claimEvidence db).

Definition verdictOf (v : ClaimDecisionRow.t) : Verdict := (ClaimDecisionRow.decision v, ClaimDecisionRow.reviewerOrgId v).

Definition settles (disputeId : string) (v : ClaimDecisionRow.t) : bool := bool_decide (ClaimDecisionRow.disputeId v = Some disputeId).
Definition judges (x : string) (v : ClaimDecisionRow.t) : bool :=
  String.eqb (ClaimDecisionRow.claimId v) x && bool_decide (ClaimDecisionRow.disputeId v = None).

Definition verdictOn (db : Db) (disputeId : string) : option Verdict := verdictOf <$> List.find (settles disputeId) (claimDecisions db).
Definition firstVerdict (db : Db) (x : string) : option Verdict := verdictOf <$> List.find (judges x) (claimDecisions db).

Definition roundOf (db : Db) (d : ClaimDisputeRow.t) : Round :=
  {| rd_challenger := ClaimDisputeRow.challengerOrgId d; rd_verdict := verdictOn db (ClaimDisputeRow.id d) |}.

(** ** The abstraction *)

Definition history (db : Db) (c : ClaimRow.t) : History :=
  {| h_claimant := ClaimRow.claimantOrgId c; h_subject := ClaimRow.subjectOrgId c; h_score := ClaimRow.scoreBreakdown c;
     h_first := firstVerdict db (ClaimRow.id c); h_rounds := map (roundOf db) (disputesOf db (ClaimRow.id c)) |}.

Definition claimBook (db : Db) : Claims := list_to_map (map (fun c => (ClaimRow.id c, history db c)) (claims db)).

Lemma claimBook_lookup db x : claimBook db !! x = history db <$> claim_findById db x.
Proof.
  unfold claimBook, claim_findById, findById, findUnique, byId. induction (claims db) as [|c l IH]; [done|].
  cbn [map list_to_map foldr fst snd List.find]. change (row_id c) with (ClaimRow.id c). destruct (String.eqb_spec (ClaimRow.id c) x) as [->|Hne].
  - by rewrite lookup_insert_eq.
  - by rewrite lookup_insert_ne.
Qed.

(** ** The score can be recomputed *)

Definition scoringItemOf (e : ClaimEvidenceRow.t) : ClaimEvidenceInput :=
  {| Attribution.evidenceType := ClaimVocabulary.ClaimEvidenceType_name (ClaimEvidenceRow.evidenceType e);
     Attribution.verificationState := ClaimVocabulary.EvidenceVerificationState_name (ClaimEvidenceRow.verificationState e) |}.

Definition scoringInputOf (db : Db) (c : ClaimRow.t) : ClaimScoringInput :=
  {| Attribution.priorCommercialHistoryMonths := num_of_Z (ClaimRow.priorCommercialHistoryMonths c);
     Attribution.directnessTier := ClaimVocabulary.DirectnessTier_name (ClaimRow.directnessTier c);
     Attribution.evidenceItems := map scoringItemOf (evidenceOfClaim db (ClaimRow.id c));
     Attribution.submissionLagDays := num_of_Z (ClaimRow.submissionLagDays c);
     Attribution.inputVersions := Some (ClaimRow.inputVersions c) |}.

(** The stored score is the score of the stored evidence, in a shape the JSON
    column takes. *)
Definition scored (db : Db) (c : ClaimRow.t) : Prop :=
  exists b, scoreClaim (scoringInputOf db c) = Ok b /\ ClaimRow.scoreBreakdown c = Some b /\
    ClaimRow.scoreTotal c = Some (Attribution.total b) /\ ClaimRow.algorithmVersion c = Some (Attribution.algorithmVersion b) /\
    json_safe (breakdownJson b) = true.

(** ** The invariant *)

Definition claimKnown (db : Db) (x : string) : Prop := x ∈ map ClaimRow.id (claims db).

(** A dispute says of itself what the decisions say of it. *)
Definition dispute_agrees (db : Db) (d : ClaimDisputeRow.t) : Prop :=
  ClaimDisputeRow.status d = match verdictOn db (ClaimDisputeRow.id d) with Some _ => ClaimDispute.DECIDED | None => ClaimDispute.OPEN end /\
  ClaimDisputeRow.resolution d = (fun v => disputeResolutionFor (fst v)) <$> verdictOn db (ClaimDisputeRow.id d).

(** A decision belongs to a claim of somebody else's, quotes its score, and, if
    it settles a dispute, one on the same claim. *)
Definition decision_sound (db : Db) (v : ClaimDecisionRow.t) : Prop :=
  (exists c, claim_findById db (ClaimDecisionRow.claimId v) = Some c /\
     ClaimDecisionRow.reviewerOrgId v <> ClaimRow.claimantOrgId c /\
     Some (ClaimDecisionRow.scoreBreakdown v) = ClaimRow.scoreBreakdown c) /\
  (forall x, ClaimDecisionRow.disputeId v = Some x ->
     exists d, d ∈ claimDisputes db /\ ClaimDisputeRow.id d = x /\ ClaimDisputeRow.claimId d = ClaimDecisionRow.claimId v).

Record claim_sound (db : Db) (c : ClaimRow.t) : Prop := {
  cs_status : ClaimRow.status c = h_status (history db c);
  cs_history : history_ok (history db c);
  cs_scored : scored db c
}.

Record claims_ok (db : Db) : Prop := {
  co_table : table_ok db (claims db);
  co_disputes : table_ok db (claimDisputes db);
  co_known : Forall (fun d => claimKnown db (ClaimDisputeRow.claimId d)) (claimDisputes db);
  co_evidence : Forall (fun e => claimKnown db (ClaimEvidenceRow.claimId e)) (claimEvidence db);
  co_agree : Forall (dispute_agrees db) (claimDisputes db);
  co_decisions : Forall (decision_sound db) (claimDecisions db);
  co_rows : forall c, c ∈ claims db -> claim_sound db c
}.

(** ** Reading it *)

Lemma find_claim db x c : claim_findById db x = Some c -> ClaimRow.id c = x /\ c ∈ claims db.
Proof.
  unfold claim_findById, findById, findUnique. intros (Hin & E)%find_some. unfold byId in E.
  apply String.eqb_eq in E. split; [done|]. by apply list_elem_of_In.
Qed.

Lemma find_filter {A} (p q : A -> bool) l : List.find (fun a => p a && q a) l = List.find q (List.filter p l).
Proof. induction l as [|a l IH]; [done|]. cbn [List.find List.filter]. destruct (p a); simpl; [by destruct (q a)|done]. Qed.

Lemma find_last {A} (q : A -> bool) l a : Forall (fun b => q b = false) l -> List.find q (l ++ [a]) = if q a then Some a else None.
Proof. induction 1 as [|b l Hb _ IH]; [done|]. cbn [app List.find]. by rewrite Hb. Qed.

Definition isOpen (d : ClaimDisputeRow.t) : bool := bool_decide (ClaimDisputeRow.status d = ClaimDispute.OPEN).

Lemma disputesOf_elem db x d : d ∈ disputesOf db x <-> d ∈ claimDisputes db /\ ClaimDisputeRow.claimId d = x.
Proof. unfold disputesOf. by rewrite elem_of_filter_list, String.eqb_eq. Qed.

Lemma agrees_open db d : dispute_agrees db d -> isOpen d = false <-> is_Some (rd_verdict (roundOf db d)).
Proof.
  intros [E _]. unfold isOpen. rewrite E. simpl. destruct (verdictOn db _) as [v|]; [split; [by eexists|done]|].
  split; [done|by intros [? ?]].
Qed.

(** The open dispute of a claim is its last one, and there is one exactly when
    the claim is DISPUTED. *)
Lemma findOpen_spec db c d : claims_ok db -> c ∈ claims db ->
  claimDispute_findOpenByClaim db (ClaimRow.id c) = Some d <->
  ClaimRow.status c = Claim.DISPUTED /\ (exists ds, disputesOf db (ClaimRow.id c) = ds ++ [d]).
Proof.
  intros K Hc. destruct (co_rows _ K c Hc) as [Est Hh _]. rewrite Est.
  assert (Forall (dispute_agrees db) (disputesOf db (ClaimRow.id c))) as Ha.
  { apply Forall_forall. intros d' [Hd _]%disputesOf_elem. by apply (proj1 (Forall_forall _ _) (co_agree _ K)). }
  unfold claimDispute_findOpenByClaim, findUnique, openOn. rewrite find_filter. fold (disputesOf db (ClaimRow.id c)).
  change (List.find (fun d => bool_decide (ClaimDisputeRow.status d = ClaimDispute.OPEN))) with (List.find isOpen).
  remember (disputesOf db (ClaimRow.id c)) as l eqn:El. assert (h_rounds (history db c) = map (roundOf db) l) as Er by (by rewrite El).
  clear El. destruct l as [|d0 l _] using rev_ind.
  { split; [done|]. intros [_ (ds & E)]. by destruct ds. }
  rewrite map_app in Er. pose proof (hk_settled _ Hh _ _ Er) as Hl. rewrite (last_snoc_rounds _ _ _ Er).
  apply Forall_app in Ha as [Ha [Ha0 _]%Forall_cons]. rewrite find_last.
  - pose proof (agrees_open _ _ Ha0) as O. destruct (isOpen d0).
    + destruct (rd_verdict (roundOf db d0)) as [v|]; [destruct O as [_ O]; discriminate O; by eexists|]. split.
      * intros [= ->]. split; [done|by exists l].
      * intros [_ (ds & [_ ->]%app_inj_tail)]. done.
    + destruct (proj1 O eq_refl) as (v & ->). split; [done|]. by intros [E%verdict_not_open _].
  - apply Forall_forall. intros d' Hd'. apply (agrees_open db); [by apply (proj1 (Forall_forall _ _) Ha)|].
    apply (proj1 (Forall_forall _ _) Hl). by apply list_elem_of_fmap_2.
Qed.

End Inv.

(** * What each claim transaction writes

    For every mutation of the claims service, the tables after the
    transaction in terms of the tables before it, given that it commits. *)
#[local] Open Scope Z_scope.

Section Effects.
Context `{Platform}.

(** Status updates leave the filing and the score alone. *)
Definition with_status (st : Claim.ClaimStatus) (user : option string) : ClaimRow.t -> ClaimRow.t := claimWith st user None.

Lemma with_status_identity st u : keeps_identity (with_status st u).
Proof. done. Qed.

Lemma claim_update_Ok x f db r db' : claim_update x f db = Ok (r, db') ->
  exists r0, claim_findById db x = Some r0 /\ r = f r0 /\ db' = set_claims (map (updating x f) (claims db)) db.
Proof.
  unfold claim_update. destruct (updateById x f (claims db)) as [[r' t]|] eqn:E; [|done]. cbn. intros [= <- <-].
  apply updateById_Ok in E as (r0 & Hf & -> & ->). by exists r0.
Qed.

(** ** create *)

Record create_effect (db db' : Db) (input : CreateClaimRequest) (org : string) (row : ClaimRow.t) : Prop := {
  ne_id : ClaimRow.id row = newId (drawn db);
  ne_created : row_createdAt row = clock db;
  ne_status : ClaimRow.status row = Claim.SCORED;
  ne_claimant : ClaimRow.claimantOrgId row = org;
  ne_claims : claims db' = claims db ++ [row];
  ne_score : exists b evs, scoreClaim (scoringInput (ClaimRow.id row) input) = Ok b /\
    ClaimRow.scoreBreakdown row = Some b /\ ClaimRow.scoreTotal row = Some (Attribution.total b) /\
    ClaimRow.algorithmVersion row = Some (Attribution.algorithmVersion b) /\
    ClaimRow.inputVersions row = ["claim-scoring-input:" +:+ ClaimRow.id row +:+ ":v1"] /\
    ClaimRow.priorCommercialHistoryMonths row = cr_priorCommercialHistoryMonths input /\
    ClaimRow.submissionLagDays row = cr_submissionLagDays input /\ ClaimRow.directnessTier row = cr_directnessTier input /\
    json_safe (breakdownJson b) = true /\
    claimEvidence db' = claimEvidence db ++ evs /\
    Forall2 (fun i e => ClaimEvidenceRow.claimId e = ClaimRow.id row /\ scoringItemOf e = scoringItem i) (cr_evidenceItems input) evs;
  ne_disputes : claimDisputes db' = claimDisputes db;
  ne_decisions : claimDecisions db' = claimDecisions db;
  ne_clock : clock db' = clock db;
  ne_drawn : (drawn db < drawn db')%nat
}.

(** Only identifiers were drawn. *)
Definition only_drawn (db db' : Db) : Prop := exists n, (drawn db <= n)%nat /\ db' = set_drawn n db.

Lemma evidenceInputs_Ok c x items db ins db' : tmapM (evidenceInput c x) items db = Ok (ins, db') ->
  only_drawn db db' /\
  Forall2 (fun i e => ce_claimId e = x /\ ce_evidenceType e = i_evidenceType i /\ ce_verificationState e = itemState i) items ins.
Proof.
  revert db ins. induction items as [|i items IH]; intros db ins E; cbn [tmapM] in E; inv_tx.
  - split; [|constructor]. exists (drawn db'). split; [lia|by destruct db'].
  - unfold evidenceInput in H0. inv_tx. simplify_eq. apply IH in H1 as [(n & Hn & ->) HF]. cbn in Hn. split; [|by constructor].
    exists n. split; [lia|done].
Qed.

Lemma evidenceRows_Ok c x items db u db' : createEvidence c x items db = Ok (u, db') ->
  exists evs n, (drawn db <= n)%nat /\ db' = set_claimEvidence (claimEvidence db ++ evs) (set_drawn n db) /\
    Forall2 (fun i e => ClaimEvidenceRow.claimId e = x /\ scoringItemOf e = scoringItem i) items evs.
Proof.
  unfold createEvidence. intros E. destruct items as [|i items].
  - injection E as <- <-. exists [], (drawn db). rewrite app_nil_r. split_and!; [lia|by destruct db|constructor].
  - apply tbind_Ok in E as (ins & db1 & E1 & E). apply evidenceInputs_Ok in E1 as [(n & Hn & ->) HF].
    injection E as <- <-. eexists _, n. split_and!; [done|done|]. rewrite Forall2_fmap_r. eapply Forall2_impl; [exact HF|].
    intros i' e (E1 & E2 & E3). split; [done|]. unfold scoringItemOf, scoringItem. simpl. by rewrite E2, E3.
Qed.

Lemma create_Ok c input org db row db' :
  (forall r, r ∈ claims db -> ClaimRow.id r <> newId (drawn db)) ->
  createClaim_tx c input org db = Ok (row, db') -> create_effect db db' input org row.
Proof.
  intros Hfresh E. unfold createClaim_tx in E. apply tbind_Ok in E as (x & db1 & [= <- <-] & E).
  apply tbind_Ok in E as (b & ? & [Hb ->]%tlift_Ok & E).
  apply tbind_Ok in E as (filed & db2 & Ef & E). unfold ClaimRepositories.claim_create in Ef.
  apply tbind_Ok in Ef as (? & ? & [_ ->]%tlift_Ok & [= <- <-]).
  apply tbind_Ok in E as (? & ? & [_ ->]%tlift_Ok & E).
  apply tbind_Ok in E as (? & db3 & (evs & n & Hn & -> & HF)%evidenceRows_Ok & E). cbn in Hn.
  apply tbind_Ok in E as (scored & db4 & Es & E). unfold claim_markScored in Es.
  apply tbind_Ok in Es as ([] & ? & [[_ Hsafe]%safe_object_spec ->]%tlift_Ok & Es).
  apply tbind_Ok in Es as (? & ? & [_ ->]%tlift_Ok & Es). unfold claim_update in Es. cbn [claims set_claims set_claimEvidence set_drawn] in Es.
  match type of Es with context [updateById ?i ?f (?l ++ [?r])] =>
    pose proof (updateById_new f l r Hfresh) as Eu; change (row_id r) with i in Eu; rewrite Eu in Es end.
  cbn in Es. injection Es as <- <-.
  apply journal_Ok in E as (au & ev & E & _). apply journal_Ok in E as (au2 & ev2 & E & _). inv_tx.
  split; cbn; try done; [|lia]. exists b, evs. split_and!; try done.
  assert (b_inputVersions b = ["claim-scoring-input:" +:+ newId (drawn db) +:+ ":v1"]) as ->; [|done].
  clear -Hb. unfold scoreClaim in Hb. repeat (apply rbind_Ok in Hb as (? & _ & Hb)). by injection Hb as <-.
Qed.

(** ** fileDispute *)

Record dispute_effect (db db' : Db) (x org : string) (d : ClaimDisputeRow.t) : Prop := {
  pe_claim : exists c, claim_findById db x = Some c /\ claimDispute_findOpenByClaim db x = None /\
    is_ok (Claim.assertValidClaimTransition (claimStatusName c) "DISPUTED") = true;
  pe_claims : exists u, claims db' = map (updating x (with_status Claim.DISPUTED u)) (claims db);
  pe_dispute : ClaimDisputeRow.id d = newId (drawn db) /\ ClaimDisputeRow.claimId d = x /\ ClaimDisputeRow.challengerOrgId d = org /\
    ClaimDisputeRow.status d = ClaimDispute.OPEN /\ ClaimDisputeRow.resolution d = None /\ row_createdAt d = clock db;
  pe_disputes : claimDisputes db' = claimDisputes db ++ [d];
  pe_decisions : claimDecisions db' = claimDecisions db;
  pe_evidence : claimEvidence db' = claimEvidence db;
  pe_clock : clock db' = clock db;
  pe_drawn : (drawn db < drawn db')%nat
}.

Lemma dispute_Ok c x input p db d db' : fileDispute_tx c x input p db = Ok (d, db') -> dispute_effect db db' x (fst p) d.
Proof.
  destruct p as [org claim]. unfold fileDispute_tx. intros E. apply tbind_Ok in E as (i & db1 & [= <- <-] & E).
  apply tbind_Ok in E as (fresh & db1 & Ef & E). unfold freshClaim in Ef.
  match type of Ef with context [claim_findById ?d x] => destruct (claim_findById d x) as [row|] eqn:Hf; [|done] end. injection Ef as <- <-.
  apply tbind_Ok in E as (? & ? & [Ha ->]%tlift_Ok & E). unfold assertDisputable in Ha.
  apply rbind_Ok in Ha as (? & Ho & Ht). apply tbind_Ok in E as (d' & db2 & Ed & E). unfold claimDispute_create in Ed.
  apply tbind_Ok in Ed as (? & ? & [_ ->]%tlift_Ok & [= <- <-]).
  apply tbind_Ok in E as (r1 & db3 & (r0 & _ & _ & ->)%claim_update_Ok & E). apply journal_Ok in E as (au & ev & E & _). inv_tx.
  split; cbn; try done; [| |lia].
  - exists row. split; [exact Hf|]. split; [|by rewrite Ht]. unfold claimDispute_findOpenByClaim, findUnique in *. cbn [claimDisputes set_drawn] in Ho.
    by destruct (List.find (openOn x) (claimDisputes db)).
  - by eexists.
Qed.

(** ** decide *)

Definition decided_dispute (x : string) (claim : ClaimRow.t) (db db' : Db) (o : ClaimDecision.ClaimDecisionOutcome) (disputeId : option string) : Prop :=
  match disputeId with
  | None => ClaimRow.status claim = Claim.SCORED /\ claimDisputes db' = claimDisputes db
  | Some y => ClaimRow.status claim = Claim.DISPUTED /\
      exists d u, claimDispute_findOpenByClaim db x = Some d /\ ClaimDisputeRow.id d = y /\
        claimDisputes db' = map (updating y (decidedDispute (disputeResolutionFor o) u)) (claimDisputes db)
  end.

Record decide_effect (db db' : Db) (c : Call) (x : string) (o : ClaimDecision.ClaimDecisionOutcome) (v : ClaimDecisionRow.t) : Prop := {
  de_claim : exists claim, claim_findById db x = Some claim /\
    Some (ClaimDecisionRow.scoreBreakdown v) = ClaimRow.scoreBreakdown claim /\
    decided_dispute x claim db db' o (ClaimDecisionRow.disputeId v);
  de_claims : exists u, claims db' = map (updating x (with_status (outcomeStatus o) u)) (claims db);
  de_decision : ClaimDecisionRow.claimId v = x /\ ClaimDecisionRow.decision v = o /\
    Actions.organizationId (actor c) = Some (ClaimDecisionRow.reviewerOrgId v);
  de_decisions : claimDecisions db' = claimDecisions db ++ [v];
  de_evidence : claimEvidence db' = claimEvidence db;
  de_clock : clock db' = clock db;
  de_drawn : (drawn db < drawn db')%nat
}.

Lemma decidable_Ok claim o bv : decidable claim o = Ok bv ->
  (ClaimRow.status claim = Claim.SCORED \/ ClaimRow.status claim = Claim.DISPUTED) /\ ClaimRow.scoreBreakdown claim = Some (fst bv).
Proof.
  unfold decidable. intros ([] & Hs%throw_if_Ok & E)%rbind_Ok. apply rbind_Ok in E as (? & _ & E). split.
  - apply andb_false_iff in Hs as [Hs%negb_false_iff%bool_decide_eq_true|Hs%negb_false_iff%bool_decide_eq_true]; tauto.
  - destruct (ClaimRow.scoreBreakdown claim), (ClaimRow.algorithmVersion claim) as [v|]; try done. destruct (String.eqb v ""); [done|].
    by injection E as <-.
Qed.

Lemma markDecided_Ok y r u db d db' : claimDispute_markDecided y r u db = Ok (d, db') ->
  db' = set_claimDisputes (map (updating y (decidedDispute r u)) (claimDisputes db)) db.
Proof.
  unfold claimDispute_markDecided. destruct (updateById y _ (claimDisputes db)) as [[r' t]|] eqn:E; [|done]. cbn. intros [= <- <-].
  by apply updateById_Ok in E as (r0 & _ & _ & ->).
Qed.

(** The tables a resolved dispute leaves alone. *)
Record beside_disputes (db db' : Db) : Prop := {
  bd_claims : claims db' = claims db;
  bd_decisions : claimDecisions db' = claimDecisions db;
  bd_evidence : claimEvidence db' = claimEvidence db;
  bd_clock : clock db' = clock db;
  bd_drawn : (drawn db <= drawn db')%nat
}.

Lemma resolveDispute_Ok c x org input od db u db' : resolveDispute c x org input od db = Ok (u, db') ->
  beside_disputes db db' /\
  match od with
  | None => claimDisputes db' = claimDisputes db
  | Some d => exists u, claimDisputes db' =
      map (updating (ClaimDisputeRow.id d) (decidedDispute (disputeResolutionFor (dr_decision input)) u)) (claimDisputes db)
  end.
Proof.
  unfold resolveDispute. destruct od as [d|].
  - intros (? & db1 & ->%markDecided_Ok & E)%tbind_Ok. apply journal_Ok in E as (au & ev & E & _). inv_tx.
    split; [split; cbn; (done || lia)|by eexists].
  - intros [= _ <-]. split; [split; (done || lia)|done].
Qed.

Lemma decide_Ok c x input db v db' : decide_tx c x input db = Ok (v, db') -> decide_effect db db' c x (dr_decision input) v.
Proof.
  unfold decide_tx. intros E. apply tbind_Ok in E as (fresh & db1 & Ef & E). unfold freshClaim in Ef.
  destruct (claim_findById db x) as [row|] eqn:Hf; [|done]. injection Ef as <- <-.
  apply tbind_Ok in E as ([b a] & ? & [Hd ->]%tlift_Ok & E). apply decidable_Ok in Hd as [Hst Hb].
  apply tbind_Ok in E as (od & ? & [Ho ->]%tlift_Ok & E). apply tbind_Ok in E as (rv & ? & [Hr ->]%tlift_Ok & E).
  apply tbind_Ok in E as (v' & db2 & Ev & E). unfold claimDecision_create in Ev.
  apply tbind_Ok in Ev as (i & ? & [= <- <-] & Ev). apply tbind_Ok in Ev as (? & ? & [_ ->]%tlift_Ok & [= <- <-]).
  apply tbind_Ok in E as (r1 & db3 & (r0 & _ & _ & ->)%claim_update_Ok & E).
  apply tbind_Ok in E as (? & db4 & ([B1 B2 B3 B4 B5] & Hdis)%resolveDispute_Ok & E).
  apply journal_Ok in E as (au & ev & E & _). inv_tx. cbn in B1, B2, B3, B4, B5, Hdis.
  split; cbn; try done; try lia.
  - exists row. split_and!; [done|by rewrite Hb|]. unfold openDispute in Ho. unfold decided_dispute. destruct Hst as [Hst|Hst]; rewrite Hst in Ho.
    + injection Ho as <-. done.
    + destruct (claimDispute_findOpenByClaim db x) as [d|] eqn:Hopen; [|done]. injection Ho as <-. simpl. destruct Hdis as (u & Hdis).
      split; [done|]. by exists d, u.
  - by eexists.
  - split_and!; [done..|]. unfold reviewerOrg in Hr. destruct (Actions.organizationId (actor c)); [by injection Hr as <-|done].
Qed.

End Effects.
