(* ===== verification/ClaimCommit.v ===== *)
(** * A filed claim can be scored and stored

    What the request schema admits is what [scoreClaim] accepts, and the
    breakdown it returns passes the shape guard of the JSON column. *)
From S2P Require Import Prelude Lifecycle JsNumber NumOrder DomainStates JsonText Attribution.
From S2P Require Import ClaimRepositories ClaimService.
#[local] Open Scope Z_scope.

(** ** The input *)

Definition scorableNumber (z : Z) : bool := num_valid (num_of_Z z) && num_isFinite (num_of_Z z) && negb (nlt (num_of_Z z) nzero).

Lemma scorable_numbers : forallb scorableNumber (seqZ 0 3651) = true.
Proof. vm_compute. reflexivity. Qed.

Lemma scorable_number z : 0 <= z <= 3650 -> num_valid (num_of_Z z) = true /\ finiteNonNeg (num_of_Z z).
Proof.
  intros Hz. pose proof scorable_numbers as F. rewrite forallb_forall in F. specialize (F z). unfold scorableNumber in F.
  rewrite !andb_true_iff, negb_true_iff in F. destruct F as [[V I] N]; [|by repeat split].
  apply list_elem_of_In, elem_of_seqZ. lia.
Qed.

Lemma scoringItem_recognized i : recognizedItem (scoringItem i).
Proof.
  unfold scoringItem, recognizedItem. simpl. split; [by destruct (i_evidenceType i)|by destruct (itemState i)].
Qed.

Lemma scoringInput_good x input : 0 <= cr_priorCommercialHistoryMonths input <= 600 -> 0 <= cr_submissionLagDays input <= 3650 ->
  wellTyped (scoringInput x input) /\ scorable (scoringInput x input).
Proof.
  intros Hm Hl. destruct (scorable_number (cr_priorCommercialHistoryMonths input)) as [Vm Fm]; [lia|].
  destruct (scorable_number (cr_submissionLagDays input)) as [Vl Fl]; [lia|]. split; (split; [done|split; [done|]]).
  - apply Forall_forall. intros it (i & -> & _)%list_elem_of_fmap. apply scoringItem_recognized.
  - simpl. by destruct (cr_directnessTier input).
Qed.

(** ** The breakdown *)

Lemma upto_finite b x : upto b x -> num_isFinite x = true.
Proof. intros T%upto_tame. by destruct T as [[_ F] _]. Qed.

Lemma contribution_safe c : num_isFinite (basePoints c) = true -> num_isFinite (multiplier c) = true ->
  num_isFinite (contribution c) = true -> json_safe (contributionJson c) = true.
Proof. intros E1 E2 E3. unfold contributionJson. cbn [json_safe forallb fst snd]. by rewrite E1, E2, E3. Qed.

(** The points of a kind of evidence in a state. *)
Definition itemFinite (t v : string) : bool :=
  match literal_index evidenceBasePoints t, literal_index evidenceVerificationMultiplier v with
  | Some bp, Some mu => num_isFinite bp && num_isFinite mu && num_isFinite (round1 (nmul bp mu))
  | _, _ => true
  end.

Lemma items_finite : forallb (fun t => forallb (itemFinite t) EVIDENCE_VERIFICATION_STATES) CLAIM_EVIDENCE_TYPES = true.
Proof. vm_compute. reflexivity. Qed.

Lemma scoreItem_safe ix it c : recognizedItem it -> scoreItem ix it = Ok c -> json_safe (contributionJson c) = true.
Proof.
  intros [Ht Hv]. apply existsb_eqb in Ht, Hv. pose proof items_finite as F. rewrite forallb_forall in F.
  specialize (F _ (proj1 (list_elem_of_In _ _) Ht)). rewrite forallb_forall in F. specialize (F _ (proj1 (list_elem_of_In _ _) Hv)).
  unfold itemFinite in F. unfold scoreItem. destruct (literal_index evidenceBasePoints _) as [bp|]; [|done].
  destruct (literal_index evidenceVerificationMultiplier _) as [mu|]; [|done]. intros [= <-].
  rewrite !andb_true_iff in F. destruct F as [[? ?] ?]. by apply contribution_safe.
Qed.

Lemma mapItems_safe l : Forall recognizedItem l -> forall ix cs, mapItems ix l = Ok cs ->
  Forall (fun c => json_safe (contributionJson c) = true) cs.
Proof.
  induction 1 as [|it l Hit Hl IH]; intros ix cs; cbn [mapItems]; [by intros [= <-]|].
  intros (c & Hc & (cs' & Hcs & [= <-])%rbind_Ok)%rbind_Ok. constructor; [by eapply scoreItem_safe|by eapply IH].
Qed.

(** The three numbers of a breakdown that may be absent. *)
Definition optional_finite (o : option jsnum) : Prop := forall x, o = Some x -> num_isFinite x = true.

Lemma optional_safe key o : key ∉ DANGEROUS_JSON_KEYS -> optional_finite o ->
  forallb (fun kv => negb (bool_decide (fst kv ∈ DANGEROUS_JSON_KEYS)) && json_safe (snd kv)) (optionalNumber key o) = true.
Proof.
  intros Hk Hf. destruct o as [x|]; [|done]. simpl. rewrite (bool_decide_eq_false_2 _ Hk), (Hf x eq_refl). done.
Qed.

Lemma breakdown_safe b : Forall (upto hundred) [history b; proximity b; evidence b; time b; weighted b; total b] ->
  optional_finite (cappedFrom b) -> optional_finite (evidenceRawTotal b) ->
  Forall (fun c => json_safe (contributionJson c) = true) (evidenceBreakdown b) -> json_safe (breakdownJson b) = true.
Proof.
  intros HF Hc He Hi. repeat (apply Forall_cons in HF as [?%upto_finite HF]). unfold breakdownJson. cbn [json_safe].
  rewrite !forallb_app, (optional_safe "cappedFrom"), (optional_safe "evidenceRawTotal") by (done || set_solver).
  assert (json_safe (JArr (map contributionJson (evidenceBreakdown b))) = true) as Hjs.
  { simpl. rewrite forallb_forall. intros v Hv. apply in_map_iff in Hv as (c & <- & Hin%list_elem_of_In).
    by apply (proj1 (Forall_forall _ _) Hi). }
  assert (json_safe (JArr (map JStr (b_inputVersions b))) = true) as Hvs.
  { simpl. rewrite forallb_forall. intros v Hv. by apply in_map_iff in Hv as (s & <- & _). }
  cbn [forallb fst snd]. rewrite Hjs, Hvs. cbn [json_safe]. repeat match goal with H : num_isFinite _ = true |- _ => rewrite H; clear H end. done.
Qed.

Lemma score_breakdown i b : scoreClaim i = Ok b -> exists ev, scoreEvidence (evidenceItems i) = Ok ev /\
  evidenceBreakdown b = items ev /\ evidenceRawTotal b = (if nlt (e_total ev) (rawTotal ev) then Some (rawTotal ev) else None).
Proof.
  unfold scoreClaim. intros E. do 4 (apply rbind_Ok in E as (? & _ & E)). apply rbind_Ok in E as (ev & Ev & E).
  apply rbind_Ok in E as (? & _ & E). injection E as <-. by exists ev.
Qed.

Lemma score_json_safe i b : wellTyped i -> scorable i -> scoreClaim i = Ok b -> json_safe (breakdownJson b) = true.
Proof.
  intros Ht Hs Hb. pose proof (score_range i b Ht Hs Hb) as Hr.
  destruct (scoreClaim_value i Ht Hs) as (_ & b' & _ & Eb & _ & _ & _ & _ & _ & E6 & E7 & _). rewrite Hb in Eb. injection Eb as <-.
  destruct (score_breakdown i b Hb) as (ev & Ev & Ei & Er). destruct Ht as (_ & _ & Hit).
  destruct (scoreEvidence_recognized _ Hit) as (ev' & Ev' & _ & Hraw & _). rewrite Ev in Ev'. injection Ev' as <-.
  assert (Forall (upto hundred) [history b; proximity b; evidence b; time b; weighted b; total b]) as Hall.
  { change [history b; proximity b; evidence b; time b; weighted b; total b] with ([history b; proximity b; evidence b; time b; weighted b] ++ [total b]).
    apply Forall_app. split; [done|]. constructor; [|done]. rewrite E6. case_bool_decide; [split; [const_tame|split; const_le]|].
    rewrite Forall_forall in Hr. apply Hr. set_solver. }
  apply breakdown_safe; [done|..].
  - intros x E. rewrite E7 in E. destruct (_ && _); [|done]. injection E as <-. rewrite Forall_forall in Hr.
    apply (upto_finite hundred), Hr. set_solver.
  - intros x E. rewrite Er in E. destruct (nlt (e_total ev) (rawTotal ev)); [|done]. injection E as <-. exact (upto_finite _ _ Hraw).
  - rewrite Ei. unfold scoreEvidence in Ev. apply rbind_Ok in Ev as (cs & Hcs & [= <-]). by eapply mapItems_safe.
Qed.

(** A score names the algorithm of this version. *)
Lemma score_algorithm i b : scoreClaim i = Ok b -> algorithmVersion b = ATTRIBUTION_algorithmVersion.
Proof.
  unfold scoreClaim. intros E. do 6 (apply rbind_Ok in E as (? & _ & E)). by injection E as <-.
Qed.

Lemma claim_scores x input : 0 <= cr_priorCommercialHistoryMonths input <= 600 -> 0 <= cr_submissionLagDays input <= 3650 ->
  exists b, scoreClaim (scoringInput x input) = Ok b /\ json_safe (breakdownJson b) = true /\
    b_inputVersions b = ["claim-scoring-input:" +:+ x +:+ ":v1"].
Proof.
  intros Hm Hl. destruct (scoringInput_good x input Hm Hl) as [Ht Hs].
  destruct (scoreClaim_value _ Ht Hs) as (_ & b & _ & Eb & _). exists b. split_and!; [done|by eapply score_json_safe|].
  clear -Eb. unfold scoreClaim in Eb. do 6 (apply rbind_Ok in Eb as (? & _ & Eb)). by injection Eb as <-.
Qed.

(** * Every claim transaction is an act on histories

    What each transaction does to the history of every claim, that it keeps
    [claims_ok], and the step of [ClaimSpec] it is. *)
From S2P Require Import StableSort AuthzMatrix Database.
From S2P Require Import Tables ApiShared ClaimSpec ClaimInvariant.
#[local] Open Scope Z_scope.

Section Commit.
Context `{Platform}.

(** ** Histories read few columns *)

Lemma find_snoc {A} (p : A -> bool) l a : List.find p (l ++ [a]) = match List.find p l with Some b => Some b | None => if p a then Some a else None end.
Proof. induction l as [|b l IH]; [done|]. cbn [app List.find]. by destruct (p b). Qed.

Definition rounds (db : Db) (x : string) : list Round := map (roundOf db) (disputesOf db x).

Lemma verdictOn_snoc db db' v y : claimDecisions db' = claimDecisions db ++ [v] ->
  verdictOn db' y = match verdictOn db y with Some w => Some w | None => if settles y v then Some (verdictOf v) else None end.
Proof. intros E. unfold verdictOn. rewrite E, find_snoc. destruct (List.find _ _); simpl; [done|]. by destruct (settles y v). Qed.

Lemma firstVerdict_snoc db db' v x : claimDecisions db' = claimDecisions db ++ [v] ->
  firstVerdict db' x = match firstVerdict db x with Some w => Some w | None => if judges x v then Some (verdictOf v) else None end.
Proof. intros E. unfold firstVerdict. rewrite E, find_snoc. destruct (List.find _ _); simpl; [done|]. by destruct (judges x v). Qed.

Lemma verdictOn_same db db' y : claimDecisions db' = claimDecisions db -> verdictOn db' y = verdictOn db y.
Proof. unfold verdictOn. by intros ->. Qed.

Lemma agree_same db db' d : verdictOn db' (ClaimDisputeRow.id d) = verdictOn db (ClaimDisputeRow.id d) -> dispute_agrees db d -> dispute_agrees db' d.
Proof. unfold dispute_agrees. by intros ->. Qed.

Lemma history_cong db db' c : firstVerdict db' (ClaimRow.id c) = firstVerdict db (ClaimRow.id c) ->
  rounds db' (ClaimRow.id c) = rounds db (ClaimRow.id c) -> history db' c = history db c.
Proof. unfold history, rounds. by intros -> ->. Qed.

(** A status update does not show in the history. *)
Lemma history_with_status db st u c : history db (with_status st u c) = history db c.
Proof. done. Qed.

Lemma scored_cong db db' c c' : scoringInputOf db' c' = scoringInputOf db c -> ClaimRow.scoreBreakdown c' = ClaimRow.scoreBreakdown c ->
  ClaimRow.scoreTotal c' = ClaimRow.scoreTotal c -> ClaimRow.algorithmVersion c' = ClaimRow.algorithmVersion c -> scored db c -> scored db' c'.
Proof. unfold scored. by intros -> -> -> ->. Qed.

Lemma scored_with_status db db' st u c : claimEvidence db' = claimEvidence db -> scored db c -> scored db' (with_status st u c).
Proof. intros E. apply scored_cong; try done. unfold scoringInputOf, evidenceOfClaim. by rewrite E. Qed.

(** ** The book *)

Lemma find_with_status x st u db db' c : claims db' = map (updating x (with_status st u)) (claims db) ->
  claim_findById db x = Some c -> claim_findById db' x = Some (with_status st u c).
Proof. intros E Hf. unfold claim_findById in *. rewrite E. by apply findById_updating. Qed.

Lemma find_with_status_other x st u db db' y : claims db' = map (updating x (with_status st u)) (claims db) -> y <> x ->
  claim_findById db' y = claim_findById db y.
Proof. intros E Hne. unfold claim_findById. rewrite E. by apply findById_updating_other. Qed.

Lemma book_update x st u db db' c : claims db' = map (updating x (with_status st u)) (claims db) ->
  (forall c', c' ∈ claims db -> ClaimRow.id c' <> x -> history db' c' = history db c') -> claim_findById db x = Some c ->
  claimBook db' = <[x := history db' c]> (claimBook db).
Proof.
  intros E Hh Hf. apply map_eq. intros y. rewrite claimBook_lookup. destruct (decide (y = x)) as [->|Hne].
  - rewrite lookup_insert_eq, (find_with_status _ _ _ _ _ _ E Hf). done.
  - rewrite lookup_insert_ne, claimBook_lookup, (find_with_status_other _ _ _ _ _ _ E Hne) by done.
    destruct (claim_findById db y) as [c'|] eqn:Hf'; [|done]. simpl. f_equal.
    destruct (find_claim _ _ _ Hf') as [<- Hin]. by apply Hh.
Qed.

(** ** Known identifiers *)

Lemma known_find db x : table_ok db (claims db) -> claimKnown db x -> exists c, claim_findById db x = Some c.
Proof. intros T (c & -> & Hc)%list_elem_of_fmap. exists c. exact (findById_elem db _ c T Hc). Qed.

Lemma known_not_fresh db x : table_ok db (claims db) -> claimKnown db x -> x <> newId (drawn db).
Proof.
  intros [T _ _ _] (row & -> & Hr)%list_elem_of_fmap. pose proof (proj1 (Forall_forall _ _) T row Hr) as (n & Hn & E).
  change (row_id row) with (ClaimRow.id row) in E. rewrite E. intros E2%newId_inj. lia.
Qed.

Lemma dispute_not_fresh db d : table_ok db (claimDisputes db) -> d ∈ claimDisputes db -> ClaimDisputeRow.id d <> newId (drawn db).
Proof.
  intros [T _ _ _] Hd. pose proof (proj1 (Forall_forall _ _) T d Hd) as (n & Hn & E).
  change (row_id d) with (ClaimDisputeRow.id d) in E. rewrite E. intros E2%newId_inj. lia.
Qed.

Lemma decision_known db v : decision_sound db v -> claimKnown db (ClaimDecisionRow.claimId v).
Proof. intros [(c & Hf & _) _]. destruct (find_claim _ _ _ Hf) as [<- Hin]. by apply list_elem_of_fmap_2. Qed.

Lemma dispute_same_id db d d' : table_ok db (claimDisputes db) -> d ∈ claimDisputes db -> d' ∈ claimDisputes db ->
  ClaimDisputeRow.id d = ClaimDisputeRow.id d' -> d = d'.
Proof. intros [_ Nd _ _] Hd Hd' E. exact (NoDup_map_inj row_id _ _ _ Nd Hd Hd' E). Qed.

(** A claim with a fresh identifier has no history yet. *)
Lemma no_verdict db x : claims_ok db -> ~ claimKnown db x -> firstVerdict db x = None /\ disputesOf db x = [].
Proof.
  intros K Hx. split.
  - unfold firstVerdict. destruct (List.find _ _) as [v|] eqn:E; [|done]. apply find_some in E as [Hv%list_elem_of_In E].
    unfold judges in E. apply andb_true_iff in E as [E%String.eqb_eq _]. destruct Hx. rewrite <- E.
    apply decision_known. by apply (proj1 (Forall_forall _ _) (co_decisions _ K)).
  - apply filter_none. intros d Hd. apply String.eqb_neq. intros <-. apply Hx. by apply (proj1 (Forall_forall _ _) (co_known _ K)).
Qed.

Lemma no_settlement db x : claims_ok db -> (forall d, d ∈ claimDisputes db -> ClaimDisputeRow.id d <> x) -> verdictOn db x = None.
Proof.
  intros K Hx. unfold verdictOn. destruct (List.find _ _) as [v|] eqn:E; [|done]. apply find_some in E as [Hv%list_elem_of_In E].
  unfold settles in E. apply bool_decide_eq_true in E. destruct (proj1 (Forall_forall _ _) (co_decisions _ K) v Hv) as [_ Hd].
  destruct (Hd _ E) as (d & Hin & Ei & _). by destruct (Hx d Hin).
Qed.

(** Soundness of a decision survives when claims keep what it quotes. *)
Lemma decision_carried db db' v :
  (forall x c, claim_findById db x = Some c -> exists c', claim_findById db' x = Some c' /\
     ClaimRow.claimantOrgId c' = ClaimRow.claimantOrgId c /\ ClaimRow.scoreBreakdown c' = ClaimRow.scoreBreakdown c) ->
  (forall d, d ∈ claimDisputes db -> exists d', d' ∈ claimDisputes db' /\ ClaimDisputeRow.id d' = ClaimDisputeRow.id d /\
     ClaimDisputeRow.claimId d' = ClaimDisputeRow.claimId d) ->
  decision_sound db v -> decision_sound db' v.
Proof.
  intros Hc Hd [(c & Hf & Hne & Hs) Hx]. split.
  - destruct (Hc _ _ Hf) as (c' & Hf' & E1 & E2). exists c'. by rewrite E1, E2.
  - intros x E. destruct (Hx x E) as (d & Hin & E1 & E2). destruct (Hd d Hin) as (d' & Hin' & E3 & E4). exists d'. split_and!; [done|congruence|congruence].
Qed.

Lemma keeps_quotes x st u db db' : claims db' = map (updating x (with_status st u)) (claims db) ->
  forall y c, claim_findById db y = Some c -> exists c', claim_findById db' y = Some c' /\
     ClaimRow.claimantOrgId c' = ClaimRow.claimantOrgId c /\ ClaimRow.scoreBreakdown c' = ClaimRow.scoreBreakdown c.
Proof.
  intros E y c Hf. destruct (decide (y = x)) as [->|Hne].
  - exists (with_status st u c). split; [by eapply find_with_status|done].
  - exists c. by rewrite (find_with_status_other _ _ _ _ _ _ E Hne).
Qed.

Lemma known_update x st u db db' y : claims db' = map (updating x (with_status st u)) (claims db) -> claimKnown db' y <-> claimKnown db y.
Proof.
  intros E. unfold claimKnown. rewrite E, map_map. rewrite (map_ext _ ClaimRow.id); [done|]. intros c. exact (updating_id x _ c (with_status_identity st u)).
Qed.

(** ** create *)

Lemma create_history db db' input org row c : claims_ok db -> create_effect db db' input org row -> history db' c = history db c.
Proof.
  intros K E. apply history_cong; [unfold firstVerdict|unfold rounds, disputesOf, roundOf, verdictOn];
    by rewrite ?(ne_decisions _ _ _ _ _ E), ?(ne_disputes _ _ _ _ _ E).
Qed.

Lemma create_evidence db db' input org row : claims_ok db -> create_effect db db' input org row ->
  map scoringItemOf (evidenceOfClaim db' (ClaimRow.id row)) = map scoringItem (cr_evidenceItems input) /\
  (forall x, claimKnown db x -> evidenceOfClaim db' x = evidenceOfClaim db x).
Proof.
  intros K [Ei _ _ _ _ (b & evs & _ & _ & _ & _ & _ & _ & _ & _ & _ & Ee & HF) _ _ _ _].
  assert (forall x, List.filter (fun e => String.eqb (ClaimEvidenceRow.claimId e) x) evs = if String.eqb (ClaimRow.id row) x then evs else []) as Hev.
  { intros x. destruct (String.eqb_spec (ClaimRow.id row) x) as [<-|Hne]; [apply filter_all|apply filter_none];
      intros e (i & _ & E1 & _)%(Forall2_elem_r _ _ _ _ HF); [by apply String.eqb_eq|apply String.eqb_neq; congruence]. }
  unfold evidenceOfClaim. rewrite Ee. split.
  - rewrite List.filter_app, Hev, String.eqb_refl, filter_none; simpl.
    + clear -HF. induction HF as [|i e l k [_ E] _ IH]; [done|]. simpl. by rewrite E, IH.
    + intros e He. apply String.eqb_neq. rewrite Ei. apply known_not_fresh; [apply K|]. by apply (proj1 (Forall_forall _ _) (co_evidence _ K)).
  - intros x Hx. rewrite List.filter_app, Hev. destruct (String.eqb_spec (ClaimRow.id row) x) as [<-|]; [|by rewrite app_nil_r].
    destruct (known_not_fresh _ _ (co_table _ K) Hx Ei).
Qed.

Lemma create_sound db db' input org row c : claims_ok db -> create_effect db db' input org row -> c ∈ claims db' -> claim_sound db' c.
Proof.
  intros K E Hc. destruct (create_evidence _ _ _ _ _ K E) as [Enew Eold]. rewrite (ne_claims _ _ _ _ _ E) in Hc.
  apply elem_of_app in Hc as [Hc| ->%list_elem_of_singleton].
  - destruct (co_rows _ K c Hc) as [S1 S2 S3]. split; [by rewrite (create_history _ _ _ _ _ _ K E)..|].
    eapply scored_cong; [|done..|exact S3]. unfold scoringInputOf. rewrite Eold; [done|]. by apply list_elem_of_fmap_2.
  - assert (history db' row = {| h_claimant := ClaimRow.claimantOrgId row; h_subject := ClaimRow.subjectOrgId row;
      h_score := ClaimRow.scoreBreakdown row; h_first := None; h_rounds := [] |}) as Eh.
    { rewrite (create_history _ _ _ _ _ _ K E). unfold history. destruct (no_verdict db (ClaimRow.id row) K) as [-> ->]; [|done].
      intros Hk. exact (known_not_fresh _ _ (co_table _ K) Hk (ne_id _ _ _ _ _ E)). }
    split; rewrite ?Eh.
    + exact (ne_status _ _ _ _ _ E).
    + split; simpl; [intros rs r E2; by destruct rs|done|constructor].
    + destruct (ne_score _ _ _ _ _ E) as (b & evs & Hb & E1 & E2 & E3 & E4 & E5 & E6 & E7 & E8 & _). exists b. split_and!; [|done..].
      rewrite <- Hb. unfold scoringInputOf, scoringInput. by rewrite E4, E5, E6, E7, Enew.
Qed.

Lemma create_commits db db' input org row : claims_ok db -> create_effect db db' input org row ->
  claims_ok db' /\ claims_step (claimBook db) (claimBook db').
Proof.
  intros K E. pose proof E as [Ei Ec _ _ El (b & evs & Hb & Es & _ & _ & _ & _ & _ & _ & _ & Ee & HF) Ed Ev Hclk Hdr].
  assert (forall y c, claim_findById db y = Some c -> claim_findById db' y = Some c) as Hold.
  { intros y c Hf. unfold claim_findById in *. rewrite El. by apply findById_app_other. }
  assert (forall x, claimKnown db x -> claimKnown db' x) as Hk by (intros x; unfold claimKnown; rewrite El, map_app; set_solver).
  assert (claim_findById db' (ClaimRow.id row) = Some row /\ claim_findById db (ClaimRow.id row) = None) as [Hnew Hno].
  { split.
    - unfold claim_findById. rewrite El. apply (findById_app_new (claims db) (ClaimRow.id row) row); [|done]. intros y Hy.
      change (ClaimRow.id y <> ClaimRow.id row). rewrite Ei. apply known_not_fresh; [apply K|]. by apply list_elem_of_fmap_2.
    - destruct (claim_findById db _) as [c|] eqn:Hf; [|done]. destruct (find_claim _ _ _ Hf) as [E1 Hin].
      destruct (known_not_fresh db (ClaimRow.id c) (co_table _ K)); [by apply list_elem_of_fmap_2|congruence]. }
  split; [split|].
  - rewrite El. eapply table_append; [apply K| |lia|done]. split; [|apply NoDup_singleton|by repeat constructor].
    repeat constructor. exists (drawn db). split; [lia|exact Ei].
  - rewrite Ed. eapply table_same; [apply K|lia|lia].
  - rewrite Ed. eapply Forall_impl; [exact (co_known _ K)|]. intros d. apply Hk.
  - rewrite Ee. apply Forall_app. split; [eapply Forall_impl; [exact (co_evidence _ K)|]; intros e; apply Hk|].
    apply Forall_forall. intros e (i & _ & E1 & _)%(Forall2_elem_r _ _ _ _ HF). unfold claimKnown. rewrite E1, El, map_app. set_solver.
  - rewrite Ed. eapply Forall_impl; [exact (co_agree _ K)|]. intros d. apply agree_same. by apply verdictOn_same.
  - rewrite Ev. eapply Forall_impl; [exact (co_decisions _ K)|]. intros v. apply decision_carried.
    + intros x c Hf. exists c. by rewrite (Hold _ _ Hf).
    + intros d Hd. exists d. by rewrite Ed.
  - intros c. by eapply create_sound.
  - assert (claimBook db' = <[ClaimRow.id row := history db' row]> (claimBook db)) as ->.
    { apply map_eq. intros y. rewrite claimBook_lookup. destruct (decide (y = ClaimRow.id row)) as [->|Hne].
      - by rewrite lookup_insert_eq, Hnew.
      - rewrite lookup_insert_ne, claimBook_lookup by done. destruct (claim_findById db y) as [c|] eqn:Hf.
        + rewrite (Hold _ _ Hf). simpl. by rewrite (create_history _ _ _ _ _ _ K E).
        + unfold claim_findById in *. rewrite El. destruct (findById (claims db ++ [row]) y) as [c|] eqn:Hf'; [|done].
          unfold findById, findUnique in *. rewrite find_snoc, Hf in Hf'. unfold byId in Hf'. change (row_id row) with (ClaimRow.id row) in Hf'.
          destruct (String.eqb_spec (ClaimRow.id row) y); [congruence|done]. }
    rewrite (create_history _ _ _ _ _ _ K E). assert (~ claimKnown db (ClaimRow.id row)) as Hnk.
    { intros Hkn. exact (known_not_fresh _ _ (co_table _ K) Hkn Ei). }
    destruct (no_verdict db _ K Hnk) as [N1 N2]. apply claims_file.
    + by rewrite claimBook_lookup, Hno.
    + done.
    + simpl. by rewrite N2.
    + simpl. rewrite Es. by eexists.
Qed.

(** ** fileDispute *)

(** The shape both status updates share: the claim [x] takes the status its
    new history has, everybody else keeps theirs. *)
Lemma act_commits db db' x st u c h' : claims_ok db -> claim_findById db x = Some c ->
  claims db' = map (updating x (with_status st u)) (claims db) -> claimEvidence db' = claimEvidence db ->
  table_ok db' (claimDisputes db') -> (drawn db <= drawn db')%nat -> clock db' = clock db ->
  Forall (fun d => claimKnown db (ClaimDisputeRow.claimId d)) (claimDisputes db') ->
  Forall (dispute_agrees db') (claimDisputes db') -> Forall (decision_sound db') (claimDecisions db') ->
  (forall c', c' ∈ claims db -> ClaimRow.id c' <> x -> history db' c' = history db c') ->
  history db' c = h' -> claim_step (history db c) h' -> h_status h' = st ->
  claims_ok db' /\ claims_step (claimBook db) (claimBook db').
Proof.
  intros K Hf El Ee T Hd Hc Hk Ha Hv Hh Eh St Est. split; [split; try done|].
  - rewrite El. apply table_update; [apply with_status_identity|]. eapply table_same; [apply K|done|lia].
  - eapply Forall_impl; [exact Hk|]. intros d. by apply (known_update x st u).
  - rewrite Ee. eapply Forall_impl; [exact (co_evidence _ K)|]. intros e. by apply (known_update x st u).
  - intros c'. rewrite El. intros [[Hin Hne]|(c0 & Hin & Ei & ->)]%updating_elem.
    + destruct (co_rows _ K c' Hin) as [S1 S2 S3]. rewrite <- (Hh c' Hin Hne) in S1, S2. split; [done|done|].
      eapply scored_cong; [|done..|exact S3]. unfold scoringInputOf, evidenceOfClaim. by rewrite Ee.
    + assert (c0 = c) as ->. { unfold claim_findById in Hf. rewrite <- Ei, (findById_elem db _ c0 (co_table _ K) Hin) in Hf. by injection Hf. }
      destruct (co_rows _ K c Hin) as [S1 S2 S3]. split.
      * change (history db' (with_status st u c)) with (history db' c). rewrite Eh. by rewrite Est.
      * change (history db' (with_status st u c)) with (history db' c). rewrite Eh. by eapply claim_step_ok.
      * by apply (scored_with_status db).
  - rewrite (book_update x st u db db' c El Hh Hf), Eh. eapply claims_act; [|exact St]. by rewrite claimBook_lookup, Hf.
Qed.

Lemma history_frame db db' y c : ClaimRow.id c = y -> firstVerdict db' y = firstVerdict db y ->
  disputesOf db' y = disputesOf db y -> (forall d, d ∈ disputesOf db y -> verdictOn db' (ClaimDisputeRow.id d) = verdictOn db (ClaimDisputeRow.id d)) ->
  history db' c = history db c.
Proof.
  intros <- E1 E2 E3. apply history_cong; [done|]. unfold rounds. rewrite E2. apply map_ext_in. intros d Hd%list_elem_of_In.
  unfold roundOf. by rewrite E3.
Qed.

Lemma dispute_commits db db' x org d c : claims_ok db -> claim_findById db x = Some c -> org <> ClaimRow.claimantOrgId c ->
  dispute_effect db db' x org d -> claims_ok db' /\ claims_step (claimBook db) (claimBook db').
Proof.
  intros K Hf Horg [(c' & Hf' & Hopen & Htr) (u & El) (Ei & Ex & Eo & Eopen & Eres & Eat) Ed Ev Ee Hclk Hdr].
  rewrite Hf in Hf'. injection Hf' as <-. destruct (find_claim _ _ _ Hf) as [Eid Hin]. destruct (co_rows _ K c Hin) as [S1 S2 S3].
  assert (forall y, verdictOn db' y = verdictOn db y) as Ev' by (intros y; by apply verdictOn_same).
  assert (verdictOn db' (ClaimDisputeRow.id d) = None) as Enone.
  { rewrite Ev', Ei. apply no_settlement; [done|]. intros d' Hd'. apply dispute_not_fresh; [apply K|done]. }
  assert (disputesOf db' x = disputesOf db x ++ [d]) as Edx.
  { unfold disputesOf. rewrite Ed, List.filter_app. simpl. by rewrite Ex, String.eqb_refl. }
  eapply (act_commits db db' x Claim.DISPUTED u c
    (with_rounds (h_rounds (history db c) ++ [{| rd_challenger := org; rd_verdict := None |}]) (history db c))); try done.
  - rewrite Ed. eapply table_append; [apply K| |lia|done]. split; [|apply NoDup_singleton|by repeat constructor].
    repeat constructor. exists (drawn db). split; [lia|exact Ei].
  - lia.
  - rewrite Ed. apply Forall_app. split; [exact (co_known _ K)|]. constructor; [|done]. rewrite Ex, <- Eid. by apply list_elem_of_fmap_2.
  - rewrite Ed. apply Forall_app. split; [eapply Forall_impl; [exact (co_agree _ K)|]; intros d'; apply agree_same, Ev'|].
    constructor; [|done]. unfold dispute_agrees. by rewrite Enone, Eopen, Eres.
  - rewrite Ev. eapply Forall_impl; [exact (co_decisions _ K)|]. intros v. apply decision_carried; [by eapply keeps_quotes|].
    intros d' Hd'. exists d'. rewrite Ed. split; [set_solver|done].
  - intros c' _ Hne. eapply history_frame; [done|unfold firstVerdict; by rewrite Ev| |by intros].
    unfold disputesOf. rewrite Ed, List.filter_app. simpl. rewrite Ex, (proj2 (String.eqb_neq x _)), app_nil_r; congruence.
  - unfold history, with_rounds. cbn [h_claimant h_subject h_score h_first h_rounds]. rewrite Eid, Edx, map_app. cbn [map].
    change (roundOf db' d) with {| rd_challenger := ClaimDisputeRow.challengerOrgId d; rd_verdict := verdictOn db' (ClaimDisputeRow.id d) |}.
    rewrite Enone, Eo.
    rewrite (map_ext (roundOf db') (roundOf db)) by (intros d'; unfold roundOf; by rewrite Ev'). unfold firstVerdict. by rewrite Ev.
  - apply (step_dispute (history db c) org); [done|]. rewrite <- S1. unfold claimStatusName in Htr.
    clear -Htr.
    destruct (ClaimRow.status c); first [discriminate Htr|by apply (bool_decide_eq_true_1 _)].
  - unfold h_status. simpl. by rewrite last_snoc.
Qed.

(** ** decide *)

Lemma decided_keeps r u : keeps_identity (decidedDispute r u).
Proof. done. Qed.

Lemma disputesOf_updating db db' y r u z : claimDisputes db' = map (updating y (decidedDispute r u)) (claimDisputes db) ->
  disputesOf db' z = map (updating y (decidedDispute r u)) (disputesOf db z).
Proof.
  unfold disputesOf. intros ->. induction (claimDisputes db) as [|d l IH]; [done|]. cbn [map List.filter].
  assert (ClaimDisputeRow.claimId (updating y (decidedDispute r u) d) = ClaimDisputeRow.claimId d) as ->.
  { unfold updating. by destruct (byId y d). }
  rewrite IH. by destruct (String.eqb _ z).
Qed.

Lemma roundOf_updating db y r u d : roundOf db (updating y (decidedDispute r u) d) = roundOf db d.
Proof. unfold updating. by destruct (byId y d). Qed.

Lemma decision_added db db' c v x o claim : claims_ok db -> claim_findById db x = Some claim ->
  Actions.organizationId (actor c) <> Some (ClaimRow.claimantOrgId claim) -> decide_effect db db' c x o v ->
  (forall d, d ∈ claimDisputes db -> exists d', d' ∈ claimDisputes db' /\ ClaimDisputeRow.id d' = ClaimDisputeRow.id d /\
     ClaimDisputeRow.claimId d' = ClaimDisputeRow.claimId d) ->
  (forall y, ClaimDecisionRow.disputeId v = Some y -> exists d, d ∈ claimDisputes db /\ ClaimDisputeRow.id d = y /\ ClaimDisputeRow.claimId d = x) ->
  Forall (decision_sound db') (claimDecisions db').
Proof.
  intros K Hf Hne [(c' & Hf' & Hs & _) (u & El) (Ex & Eo & Er) Ev _ _ _] Hd Hy. rewrite Hf in Hf'. injection Hf' as <-.
  rewrite Ev. apply Forall_app. split; [eapply Forall_impl; [exact (co_decisions _ K)|]; intros w; by apply decision_carried; [eapply keeps_quotes|]|].
  constructor; [|done]. split.
  - exists (with_status (outcomeStatus o) u claim). rewrite Ex. split; [by eapply find_with_status|]. split; [|done]. simpl. congruence.
  - intros y E. destruct (Hy y E) as (d & Hin & E1 & E2). destruct (Hd d Hin) as (d' & Hin' & E3 & E4). exists d'. split_and!; [done|congruence|congruence].
Qed.

(** The first verdict on a claim. *)
Lemma decide_first db db' c v x o claim : claims_ok db -> claim_findById db x = Some claim ->
  Actions.organizationId (actor c) <> Some (ClaimRow.claimantOrgId claim) -> decide_effect db db' c x o v ->
  ClaimRow.status claim = Claim.SCORED -> claimDisputes db' = claimDisputes db -> ClaimDecisionRow.disputeId v = None ->
  claims_ok db' /\ claims_step (claimBook db) (claimBook db').
Proof.
  intros K Hf Hne E Hst Ed Enone. pose proof E as [_ (u & El) (Ex & Eo & Er) Ev Ee Hclk Hdr].
  destruct (find_claim _ _ _ Hf) as [Eid Hin]. destruct (co_rows _ K claim Hin) as [S1 S2 S3].
  assert (h_first (history db claim) = None /\ h_rounds (history db claim) = []) as [Hfirst Hrounds] by (apply status_scored; congruence).
  assert (forall y, verdictOn db' y = verdictOn db y) as Ev'.
  { intros y. rewrite (verdictOn_snoc db db' v y Ev). destruct (verdictOn db y); [done|]. unfold settles. by rewrite Enone. }
  eapply (act_commits db db' x (outcomeStatus o) u claim (with_first (verdictOf v) (history db claim))); try done.
  - rewrite Ed. eapply table_same; [apply K|lia|lia].
  - lia.
  - rewrite Ed. exact (co_known _ K).
  - rewrite Ed. eapply Forall_impl; [exact (co_agree _ K)|]. intros d. apply agree_same, Ev'.
  - eapply decision_added; [done..| |]; [intros d Hd; exists d; by rewrite Ed|by rewrite Enone].
  - intros c' _ Hc'. eapply history_frame; [done| |unfold disputesOf; by rewrite Ed|intros d _; apply Ev'].
    rewrite (firstVerdict_snoc db db' v _ Ev). unfold judges. rewrite Ex, (proj2 (String.eqb_neq x _)) by congruence.
    by destruct (firstVerdict db _).
  - unfold history, with_first. cbn [h_claimant h_subject h_score h_first h_rounds]. f_equal.
    + rewrite (firstVerdict_snoc db db' v _ Ev). change (firstVerdict db (ClaimRow.id claim)) with (h_first (history db claim)).
      rewrite Hfirst. unfold judges. by rewrite Ex, Eid, String.eqb_refl, Enone.
    + unfold disputesOf. rewrite Ed. apply map_ext. intros d. unfold roundOf. by rewrite Ev'.
  - apply step_decide; [|congruence]. simpl. congruence.
  - unfold h_status, with_first. cbn [h_rounds h_first]. rewrite Hrounds. simpl. unfold verdictStatus. simpl. by rewrite Eo.
Qed.

(** The verdict on the open dispute. *)
Lemma decide_settle db db' c v x o claim d u' : claims_ok db -> claim_findById db x = Some claim ->
  Actions.organizationId (actor c) <> Some (ClaimRow.claimantOrgId claim) -> decide_effect db db' c x o v ->
  ClaimRow.status claim = Claim.DISPUTED -> claimDispute_findOpenByClaim db x = Some d ->
  ClaimDecisionRow.disputeId v = Some (ClaimDisputeRow.id d) ->
  claimDisputes db' = map (updating (ClaimDisputeRow.id d) (decidedDispute (disputeResolutionFor o) u')) (claimDisputes db) ->
  claims_ok db' /\ claims_step (claimBook db) (claimBook db').
Proof.
  intros K Hf Hne E Hst Hopen Edis Ed. pose proof E as [_ (u & El) (Ex & Eo & Er) Ev Ee Hclk Hdr].
  destruct (find_claim _ _ _ Hf) as [Eid Hin]. destruct (co_rows _ K claim Hin) as [S1 S2 S3].
  pose proof Hopen as Hopen'. rewrite <- Eid in Hopen'. apply (findOpen_spec db claim d K Hin) in Hopen' as [_ (ds & Eds)].
  assert (d ∈ claimDisputes db /\ ClaimDisputeRow.claimId d = x) as [Hd Edx].
  { rewrite <- Eid. apply disputesOf_elem. rewrite Eds. set_solver. }
  assert (h_rounds (history db claim) = map (roundOf db) ds ++ [roundOf db d]) as Erounds by (simpl; by rewrite Eds, map_app).
  assert (verdictOn db (ClaimDisputeRow.id d) = None) as Enone.
  { pose proof Hst as Hst'. rewrite S1 in Hst'. rewrite (last_snoc_rounds _ _ _ Erounds) in Hst'. simpl in Hst'.
    destruct (verdictOn db _) as [w|]; [by apply verdict_not_open in Hst'|done]. }
  assert (verdictOn db' (ClaimDisputeRow.id d) = Some (verdictOf v)) as Esome.
  { rewrite (verdictOn_snoc db db' v _ Ev), Enone. unfold settles. by rewrite bool_decide_eq_true_2. }
  assert (forall d', d' ∈ claimDisputes db -> d' <> d -> verdictOn db' (ClaimDisputeRow.id d') = verdictOn db (ClaimDisputeRow.id d')) as Eother.
  { intros d' Hd' Hdd. rewrite (verdictOn_snoc db db' v _ Ev). destruct (verdictOn db (ClaimDisputeRow.id d')); [done|].
    destruct (settles (ClaimDisputeRow.id d') v) eqn:Es; [|done]. apply bool_decide_eq_true_1 in Es. rewrite Edis in Es. injection Es as Ei.
    destruct Hdd. symmetry. exact (dispute_same_id _ _ _ (co_disputes _ K) Hd Hd' Ei). }
  assert (Forall (fun d' => verdictOn db' (ClaimDisputeRow.id d') = verdictOn db (ClaimDisputeRow.id d')) ds) as Eds'.
  { pose proof (hk_settled _ S2 _ _ Erounds) as Hset. rewrite Forall_map in Hset. eapply Forall_impl; [exact Hset|].
    intros d' (w & Hw). simpl in Hw. by rewrite (verdictOn_snoc db db' v _ Ev), Hw. }
  eapply (act_commits db db' x (outcomeStatus o) u claim
    (with_rounds (map (roundOf db) ds ++ [{| rd_challenger := ClaimDisputeRow.challengerOrgId d; rd_verdict := Some (verdictOf v) |}]) (history db claim))); try done.
  - rewrite Ed. apply table_update; [apply decided_keeps|]. eapply table_same; [apply K|lia|lia].
  - lia.
  - rewrite Ed, Forall_map. eapply Forall_impl; [exact (co_known _ K)|]. intros d'. simpl. unfold updating. by destruct (byId _ d').
  - rewrite Ed. apply Forall_forall. intros d' [[Hd' Hi]|(d0 & Hd0 & Ei & ->)]%updating_elem.
    + apply (agree_same db); [|by apply (proj1 (Forall_forall _ _) (co_agree _ K))]. apply Eother; [done|]. by intros ->.
    + assert (d0 = d) as -> by (exact (dispute_same_id _ _ _ (co_disputes _ K) Hd0 Hd Ei)). split; simpl; rewrite Esome; [done|]. simpl. by rewrite Eo.
  - eapply decision_added; [done..| |].
    + intros d' Hd'. exists (updating (ClaimDisputeRow.id d) (decidedDispute (disputeResolutionFor o) u') d'). rewrite Ed.
      split; [by apply list_elem_of_fmap_2|]. unfold updating. by destruct (byId _ d').
    + rewrite Edis. intros y [= <-]. by exists d.
  - intros c' Hc' Hcx. apply history_cong.
    + rewrite (firstVerdict_snoc db db' v _ Ev). unfold judges. rewrite Edis, andb_false_r. by destruct (firstVerdict db _).
    + unfold rounds. rewrite (disputesOf_updating _ _ _ _ _ _ Ed), map_map. apply map_ext_in. intros d' [Hd' Ex']%list_elem_of_In%disputesOf_elem.
      rewrite roundOf_updating. unfold roundOf. rewrite Eother; [done|done|]. intros ->. congruence.
  - unfold history, with_rounds. cbn [h_claimant h_subject h_score h_first h_rounds]. f_equal.
    + rewrite (firstVerdict_snoc db db' v _ Ev). unfold judges. rewrite Edis, andb_false_r. by destruct (firstVerdict db _).
    + rewrite (disputesOf_updating _ _ _ _ _ _ Ed), map_map, Eds, map_app. cbn [map]. f_equal.
      * apply map_ext_in. intros d' Hd'%list_elem_of_In. rewrite roundOf_updating. unfold roundOf. by rewrite (proj1 (Forall_forall _ _) Eds' d' Hd').
      * rewrite roundOf_updating. unfold roundOf. by rewrite Esome.
  - apply (step_settle (history db claim) _ (ClaimDisputeRow.challengerOrgId d) (verdictOf v)); [simpl; congruence|].
    rewrite Erounds. f_equal. unfold roundOf. by rewrite Enone.
  - unfold h_status, with_rounds. cbn [h_rounds]. rewrite last_snoc. simpl. unfold verdictStatus. simpl. by rewrite Eo.
Qed.

Lemma decide_commits db db' c v x o claim : claims_ok db -> claim_findById db x = Some claim ->
  Actions.organizationId (actor c) <> Some (ClaimRow.claimantOrgId claim) -> decide_effect db db' c x o v ->
  claims_ok db' /\ claims_step (claimBook db) (claimBook db').
Proof.
  intros K Hf Hne E. destruct (de_claim _ _ _ _ _ _ E) as (c' & Hf' & _ & Hd). rewrite Hf in Hf'. injection Hf' as <-.
  unfold decided_dispute in Hd. destruct (ClaimDecisionRow.disputeId v) as [y|] eqn:Ey.
  - destruct Hd as (Hst & d & u & Ho & <- & Ed). by eapply decide_settle.
  - destruct Hd as [Hst Ed]. by eapply decide_first.
Qed.

End Commit.
