(* ===== verification/ClaimSystem.v ===== *)
(** * The claims service as a handler over one database

    What a plan read before the transaction still says afterwards, and the two
    obligations of [Transactions]: every transaction keeps [claims_ok] and is
    a step of [ClaimSpec]. *)
From S2P Require Import Prelude StableSort Lifecycle DomainStates JsNumber AuthzMatrix Authz JsonText Attribution Database.
From S2P Require Import Tables ApiShared ClaimRepositories ClaimService ClaimSpec ClaimInvariant ClaimCommit Transactions.
From stdpp Require Import relations.
#[local] Open Scope Z_scope.

Inductive ClaimReq : Type :=
| FileClaim (c : Call) (input : CreateClaimRequest)
| Dispute (c : Call) (claimId : string) (input : FileClaimDisputeRequest)
| Decide (c : Call) (claimId : string) (input : DecideClaimRequest).

Definition claim_plan (r : ClaimReq) : Type :=
  match r with FileClaim _ _ => string | Dispute _ _ _ => (string * ClaimRow.t)%type | Decide _ _ _ => ClaimRow.t end.

Definition claim_out (r : ClaimReq) : Type :=
  match r with FileClaim _ _ => ClaimRow.t | Dispute _ _ _ => ClaimDisputeRow.t | Decide _ _ _ => ClaimDecisionRow.t end.

(** What the request schema of contracts/src/claim.ts bounds. *)
Definition claim_sent (r : ClaimReq) : Prop :=
  match r with
  | FileClaim _ i => 0 <= cr_priorCommercialHistoryMonths i <= 600 /\ 0 <= cr_submissionLagDays i <= 3650
  | _ => True
  end.

(** Everything else on the platform leaves the claim tables alone. *)
Record claim_env (db db' : Db) : Prop := {
  ce_claims : claims db' = claims db;
  ce_evidence : claimEvidence db' = claimEvidence db;
  ce_decisions : claimDecisions db' = claimDecisions db;
  ce_disputes : claimDisputes db' = claimDisputes db;
  ce_drawn : (drawn db <= drawn db')%nat;
  ce_clock : clock db <= clock db'
}.

Section System.
Context `{Platform}.

Definition claim_pre (r : ClaimReq) (db : Db) : res (claim_plan r) :=
  match r with
  | FileClaim c i => createClaim_pre c i db
  | Dispute c x _ => fileDispute_pre c x db
  | Decide c x i => decide_pre c x i db
  end.

Definition claim_tx (r : ClaimReq) : claim_plan r -> Tx (claim_out r) :=
  match r with
  | FileClaim c i => createClaim_tx c i
  | Dispute c x i => fileDispute_tx c x i
  | Decide c x i => fun _ => decide_tx c x i
  end.

Definition claims_service : Handler :=
  {| Req := ClaimReq; Plan := claim_plan; Out := claim_out; Resp := claim_out;
     h_pre := claim_pre; h_look := fun _ p _ => p; h_tx := claim_tx; h_finish := fun _ _ out => Ok out |}.

(** ** What a plan still says later *)

Definition claimed_by (db : Db) (x org : string) : Prop := exists h, claimBook db !! x = Some h /\ h_claimant h = org.

Definition claim_plan_ok (r : ClaimReq) : claim_plan r -> Db -> Prop :=
  match r with
  | FileClaim c _ => fun org _ => Actions.organizationId (actor c) = Some org
  | Dispute c x _ => fun p db => claimed_by db x (ClaimRow.claimantOrgId (snd p)) /\ fst p <> ClaimRow.claimantOrgId (snd p)
  | Decide c x _ => fun claim db => claimed_by db x (ClaimRow.claimantOrgId claim) /\
      Actions.organizationId (actor c) <> Some (ClaimRow.claimantOrgId claim)
  end.

Lemma loadClaim_Ok db x c : loadClaim db x = Ok c <-> claim_findById db x = Some c.
Proof. unfold loadClaim. destruct (claim_findById db x); naive_solver. Qed.

Lemma claimed_here db x c : claim_findById db x = Some c -> claimed_by db x (ClaimRow.claimantOrgId c).
Proof. intros Hf. exists (history db c). by rewrite claimBook_lookup, Hf. Qed.

Lemma claimed_find db x org : claimed_by db x org -> exists c, claim_findById db x = Some c /\ ClaimRow.claimantOrgId c = org.
Proof. intros (h & E & <-). rewrite claimBook_lookup in E. apply fmap_Some in E as (c & Hf & ->). by exists c. Qed.

Lemma claimed_later db db' x org : rtc claims_step (claimBook db) (claimBook db') -> claimed_by db x org -> claimed_by db' x org.
Proof.
  intros R (h & E & <-). destruct (claims_run_later _ _ _ _ R E) as (h' & E' & L). exists h'. split; [done|].
  pose proof (lt_filing _ _ L) as F. unfold filing in F. congruence.
Qed.

Lemma claim_plan_pre db r p : claim_pre r db = Ok p -> claim_plan_ok r p db.
Proof.
  destruct r as [c i|c x i|c x i]; simpl; intros E.
  - unfold createClaim_pre in E. destruct (present _); [|done]. destruct (Actions.organizationId (actor c)); [|done].
    apply rbind_Ok in E as (? & _ & E). apply rbind_Ok in E as (? & _ & E). apply rbind_Ok in E as (? & _ & E). congruence.
  - unfold fileDispute_pre in E. destruct (present _); [|done]. destruct (Actions.organizationId (actor c)) as [org|]; [|done].
    apply rbind_Ok in E as (claim & Hl%loadClaim_Ok & E). apply rbind_Ok in E as (? & Ho%throw_if_Ok & E).
    apply rbind_Ok in E as (? & _ & E). apply rbind_Ok in E as (? & _ & E). injection E as <-. simpl.
    split; [by apply claimed_here|]. apply String.eqb_neq in Ho. congruence.
  - unfold decide_pre in E. apply rbind_Ok in E as (claim & Hl%loadClaim_Ok & E). apply rbind_Ok in E as (? & _ & E).
    apply rbind_Ok in E as (? & Ho%throw_if_Ok & E). apply rbind_Ok in E as (? & _ & E). injection E as <-.
    split; [by apply claimed_here|]. by apply bool_decide_eq_false in Ho.
Qed.

Lemma claim_plan_later db db' r p : rtc claims_step (claimBook db) (claimBook db') -> claim_plan_ok r p db -> claim_plan_ok r p db'.
Proof. intros R. destruct r; simpl; [done| |]; (intros [Hc ?]; split; [by eapply claimed_later|done]). Qed.

(** ** The two obligations *)

Lemma claim_tx_commits db r p out db' : claims_ok db -> claim_plan_ok r p db -> claim_tx r p db = Ok (out, db') ->
  claims_ok db' /\ claims_step (claimBook db) (claimBook db').
Proof.
  intros K. destruct r as [c i|c x i|c x i]; simpl.
  - intros _ E. eapply create_commits; [done|]. eapply create_Ok; [|exact E]. intros r Hr.
    apply known_not_fresh; [apply K|]. by apply list_elem_of_fmap_2.
  - intros [(row & Hf & Ec)%claimed_find Hne] E%dispute_Ok. eapply dispute_commits; [done|exact Hf| |exact E]; congruence.
  - intros [(row & Hf & Ec)%claimed_find Hne] E%decide_Ok. eapply decide_commits; [done|exact Hf| |exact E]; congruence.
Qed.

Lemma claim_env_book db db' : claim_env db db' -> claimBook db' = claimBook db.
Proof.
  intros [E1 _ E3 E4 _ _]. unfold claimBook. rewrite E1. f_equal. apply map_ext. intros c. f_equal.
  apply history_cong; [unfold firstVerdict|unfold rounds, disputesOf, roundOf, verdictOn]; by rewrite ?E3, ?E4.
Qed.

Lemma claim_env_keeps db db' : claims_ok db -> claim_env db db' -> claims_ok db'.
Proof.
  intros [T1 T2 K1 K2 K3 K4 K5] [E1 E2 E3 E4 E5 E6].
  assert (forall c, history db' c = history db c) as Eh.
  { intros c. apply history_cong; [unfold firstVerdict|unfold rounds, disputesOf, roundOf, verdictOn]; by rewrite ?E3, ?E4. }
  split; rewrite ?E1, ?E2, ?E3, ?E4; [by eapply table_same..| | | | |].
  - unfold claimKnown in *. by rewrite E1.
  - unfold claimKnown in *. by rewrite E1.
  - eapply Forall_impl; [exact K3|]. intros d. apply agree_same. by apply verdictOn_same.
  - eapply Forall_impl; [exact K4|]. intros v. apply decision_carried; [|intros d Hd; exists d; by rewrite E4].
    intros x c Hf. exists c. unfold claim_findById in *. by rewrite E1.
  - intros c Hc. destruct (K5 c Hc) as [S1 S2 S3]. split; rewrite ?Eh; [done|done|].
    eapply scored_cong; [|done..|exact S3]. unfold scoringInputOf, evidenceOfClaim. by rewrite E2.
Qed.

#[local] Notation reach := (reaches claims_service claim_env claim_sent).

Lemma claim_J_tx db r p out db' r' p' : claims_ok db -> claim_plan_ok r p db -> claim_tx r p db = Ok (out, db') ->
  claim_plan_ok r' p' db -> claim_plan_ok r' p' db'.
Proof. intros K J E. apply claim_plan_later. apply rtc_once. by eapply claim_tx_commits. Qed.

Lemma claim_J_env db db' r p : claim_env db db' -> claim_plan_ok r p db -> claim_plan_ok r p db'.
Proof. intros Ev. apply claim_plan_later. by rewrite (claim_env_book _ _ Ev). Qed.

Lemma claim_wf db s : claims_ok db -> reach db s -> wf claims_service claims_ok claim_plan_ok s.
Proof.
  apply wf_reaches.
  - intros d r p _ _. by apply claim_plan_pre.
  - done.
  - intros d r p out d' K J E. by eapply claim_tx_commits.
  - apply claim_env_keeps.
  - apply claim_J_tx.
  - intros d d' r p _. apply claim_J_env.
Qed.

Lemma claims_reach db s : claims_ok db -> reach db s -> claims_ok (store s).
Proof. intros K R. by destruct (claim_wf db s K R). Qed.

(** Between any two moments of a run. *)
Lemma claims_between db s s' : claims_ok db -> reach db s -> rtc (step claims_service claim_env claim_sent) s s' ->
  rtc claims_step (claimBook (store s)) (claimBook (store s')).
Proof.
  intros K R R'. eapply (simulation_between claims_service claim_env claim_sent claims_ok claim_plan_ok); [..|by apply (claim_wf db)|exact R'].
  - intros d r p _ _. by apply claim_plan_pre.
  - done.
  - intros d r p out d' K' J E. by eapply claim_tx_commits.
  - apply claim_env_keeps.
  - apply claim_J_tx.
  - intros d d' r p _. apply claim_J_env.
  - intros d r p out d' K' J E. apply rtc_once. by eapply claim_tx_commits.
  - intros d d' _ Ev. by rewrite (claim_env_book _ _ Ev).
Qed.

End System.
