(* ===== verification/ClaimRequests.v ===== *)
(** * When a claim request succeeds

    Between transactions the tables satisfy [claims_ok]; then a request on its
    own succeeds exactly in the case [claim_accepted] describes, and changes
    nothing otherwise. *)
From S2P Require Import Prelude StableSort Lifecycle DomainStates JsNumber AuthzMatrix Authz JsonText Attribution Database.
From S2P Require Import Tables ApiShared LockboxRepositories ClaimRepositories ClaimService ClaimSpec ClaimInvariant ClaimCommit.
From S2P Require Import ClaimSystem Transactions.
#[local] Open Scope Z_scope.

Section Requests.
Context `{Platform}.

(** ** Steps that cannot fail *)

Lemma commits_createEvidence c x items : commits (createEvidence c x items).
Proof.
  unfold createEvidence. destruct items as [|i items]; [apply commits_ret|]. apply commits_bind.
  - apply commits_mapM. intros j db. by eexists _, _.
  - intros l db. by eexists _, _.
Qed.

#[local] Hint Extern 1 (forall _, commits _) => intros : commits.

Lemma claim_update_run x f db row : claim_findById db x = Some row ->
  claim_update x f db = Ok (f row, set_claims (map (updating x f) (claims db)) db).
Proof. unfold claim_update, updateById, claim_findById. by intros ->. Qed.

Lemma safe_object v f : is_object v = true -> json_safe v = true -> assertJsonSafePlainObject v f = Ok tt.
Proof. intros. by apply safe_object_spec. Qed.

Lemma disputable c : is_ok (Claim.assertValidClaimTransition (claimStatusName c) "DISPUTED") = true
  <-> ClaimRow.status c ∈ [Claim.SCORED; Claim.VERIFIED; Claim.PARTIAL].
Proof. unfold claimStatusName. destruct (ClaimRow.status c); (split; [intros E; try discriminate E; set_solver|intros E; try reflexivity; set_solver]). Qed.

Lemma assertDisputable_Ok x c db : assertDisputable x c db = Ok tt <->
  claimDispute_findOpenByClaim db x = None /\ ClaimRow.status c ∈ [Claim.SCORED; Claim.VERIFIED; Claim.PARTIAL].
Proof.
  unfold assertDisputable. rewrite <- disputable. destruct (claimDispute_findOpenByClaim db x); [naive_solver|]. simpl.
  destruct (Claim.assertValidClaimTransition _ _) as [[]|]; naive_solver.
Qed.

(** ** The transactions *)

Definition scopeOk (input : CreateClaimRequest) : Prop :=
  is_object (default (JObj []) (cr_claimScope input)) = true /\ json_safe (default (JObj []) (cr_claimScope input)) = true.

Lemma evidence_then {A} c x items (k : Z -> Tx A) db :
  (forall u db', claims db' = claims db -> exists a db2, k u db' = Ok (a, db2)) ->
  exists a db2, tbind (createEvidence c x items) k db = Ok (a, db2).
Proof.
  intros Hk. destruct (commits_createEvidence c x items db) as (u & db' & E). rewrite (tbind_run _ _ _ _ _ E). apply Hk.
  by apply evidenceRows_Ok in E as (evs & n & _ & -> & _).
Qed.

Lemma find_appended l row : exists row', findById (l ++ [row]) (ClaimRow.id row) = Some row'.
Proof.
  unfold findById, findUnique. rewrite find_snoc. destruct (List.find _ l) as [r|]; [by exists r|]. exists row.
  unfold byId. change (row_id row) with (ClaimRow.id row). by rewrite String.eqb_refl.
Qed.

Lemma markScored_run x input db row : claim_findById db x = Some row -> json_safe (breakdownJson (ms_scoreBreakdown input)) = true ->
  exists row' db', claim_markScored x input db = Ok (row', db').
Proof.
  intros Hf Hs. unfold claim_markScored. rewrite (safe_object (breakdownJson _) _ eq_refl Hs). erewrite tbind_run by done.
  rewrite (proj2 (string_array_spec _ _)) by (by eexists). erewrite tbind_run by done.
  rewrite (claim_update_run _ _ _ _ Hf). by eexists _, _.
Qed.

Lemma create_runs c input org db : claim_sent (FileClaim c input) -> scopeOk input ->
  exists row db', createClaim_tx c input org db = Ok (row, db').
Proof.
  intros [Hm Hl] [So Ss]. unfold createClaim_tx. erewrite tbind_run by done.
  destruct (claim_scores (newId (drawn db)) input Hm Hl) as (b & Hb & Hsafe & Hv). rewrite Hb. erewrite tbind_run by done.
  unfold ClaimRepositories.claim_create. cbn [cf_claimScope]. rewrite (safe_object _ _ So Ss).
  erewrite tbind_run; [|erewrite tbind_run by done; reflexivity]. erewrite tbind_run by done.
  apply evidence_then. intros u db' Ec. cbn [claims set_claims] in Ec.
  match type of Ec with claims db' = ?l ++ [?r] => destruct (find_appended l r) as (row' & Hf) end. rewrite <- Ec in Hf.
  match goal with |- context [claim_markScored ?x ?i] => destruct (markScored_run x i db' row' Hf Hsafe) as (r2 & db2 & E2) end.
  rewrite (tbind_run _ _ _ _ _ E2).
  match goal with |- exists row db', ?m ?d = _ => assert (commits m) as T; [|exact (T d)] end. eauto 20 with commits.
Qed.

Lemma dispute_runs c x input p db claim : claim_findById db x = Some claim -> assertDisputable x claim db = Ok tt ->
  forallb (fun e => is_object e && json_safe e) (default [] (fd_evidence input)) = true ->
  exists d db', fileDispute_tx c x input p db = Ok (d, db').
Proof.
  destruct p as [org claim0]. intros Hf Hd He. unfold fileDispute_tx. erewrite tbind_run by done. unfold freshClaim.
  set (db1 := set_drawn (S (drawn db)) db).
  rewrite (tbind_run _ _ db1 claim db1) by (change (claim_findById db1 x) with (claim_findById db x); by rewrite Hf).
  rewrite (tbind_run _ _ db1 tt db1) by (change (assertDisputable x claim db1) with (assertDisputable x claim db); by rewrite Hd).
  unfold claimDispute_create. cbn [cx_evidence]. rewrite (proj2 (safe_array_spec _ _)) by (by eexists).
  erewrite tbind_run; [|erewrite tbind_run by done; reflexivity].
  unfold claim_updateStatus. erewrite tbind_run; [|by apply claim_update_run].
  match goal with |- exists d db', ?m ?d = _ => assert (commits m) as T; [|exact (T d)] end. eauto 20 with commits.
Qed.

(** ** Deciding *)

Lemma decidable_run db claim o : claim_sound db claim -> ClaimRow.status claim ∈ [Claim.SCORED; Claim.DISPUTED] ->
  exists bv, decidable claim o = Ok bv /\ json_safe (breakdownJson (fst bv)) = true.
Proof.
  intros [_ _ (b & Hb & E1 & E2 & E3 & Hsafe)] Hst. exists (b, Attribution.algorithmVersion b). split; [|done]. unfold decidable.
  rewrite E1, E3, (score_algorithm _ _ Hb). unfold claimStatusName.
  assert (ClaimRow.status claim = Claim.SCORED \/ ClaimRow.status claim = Claim.DISPUTED) as [->| ->] by set_solver; by destruct o.
Qed.

Lemma decidable_status claim o bv : decidable claim o = Ok bv -> ClaimRow.status claim ∈ [Claim.SCORED; Claim.DISPUTED].
Proof. intros [[E|E] _]%decidable_Ok; rewrite E; set_solver. Qed.

Lemma openDispute_run db claim : claims_ok db -> claim ∈ claims db -> exists o, openDispute (ClaimRow.id claim) claim db = Ok o /\
  forall d, o = Some d -> d ∈ claimDisputes db.
Proof.
  intros K Hin. unfold openDispute. case_bool_decide as Hst; [|by exists None].
  destruct (co_rows _ K claim Hin) as [S1 _ _]. pose proof Hst as Hd. rewrite S1 in Hd. apply status_disputed in Hd as (rs & ch & Er).
  simpl in Er. remember (disputesOf db (ClaimRow.id claim)) as l eqn:El. destruct l as [|d ds _] using rev_ind; [by destruct rs|]. clear Er.
  destruct (claimDispute_findOpenByClaim db (ClaimRow.id claim)) as [d'|] eqn:Ho.
  - exists (Some d'). split; [done|]. intros d2 [= <-]. apply find_some in Ho as [Ho _]. by apply list_elem_of_In.
  - exfalso. assert (claimDispute_findOpenByClaim db (ClaimRow.id claim) = Some d) as E; [|congruence].
    apply (findOpen_spec db claim d K Hin). split; [done|]. by exists ds.
Qed.

Lemma resolve_runs c x org input o db : (forall d, o = Some d -> table_ok db (claimDisputes db) /\ d ∈ claimDisputes db) ->
  exists u db', resolveDispute c x org input o db = Ok (u, db').
Proof.
  intros Ho. unfold resolveDispute. destruct o as [d|]; [|by eexists _, _]. destruct (Ho d eq_refl) as [T Hd].
  assert (findById (claimDisputes db) (ClaimDisputeRow.id d) = Some d) as Hf by exact (findById_elem db _ d T Hd).
  erewrite tbind_run; [|unfold claimDispute_markDecided, updateById; rewrite Hf; reflexivity].
  match goal with |- exists d db', ?m ?d = _ => assert (commits m) as HT; [|exact (HT d)] end. eauto 20 with commits.
Qed.

Lemma decide_runs c x input db claim org : claims_ok db -> claim_findById db x = Some claim ->
  ClaimRow.status claim ∈ [Claim.SCORED; Claim.DISPUTED] -> Actions.organizationId (actor c) = Some org ->
  exists v db', decide_tx c x input db = Ok (v, db').
Proof.
  intros K Hf Hst Horg. destruct (find_claim _ _ _ Hf) as [Ex Hin]. subst x.
  destruct (decidable_run db claim (dr_decision input) (co_rows _ K claim Hin) Hst) as ([b a] & Hd & Hsafe).
  destruct (openDispute_run db claim K Hin) as (o & Ho & Hoin). unfold decide_tx, freshClaim.
  rewrite (tbind_run _ _ db claim db) by (by rewrite Hf). rewrite Hd. erewrite tbind_run by done. cbv beta iota.
  rewrite (tbind_run _ _ db o db) by (by rewrite Ho). unfold reviewerOrg. rewrite Horg. erewrite tbind_run by done.
  unfold claimDecision_create. cbn [cd_scoreBreakdown]. rewrite (safe_object (breakdownJson _) _ eq_refl Hsafe).
  erewrite tbind_run; [|erewrite tbind_run by done; erewrite tbind_run by done; reflexivity].
  unfold claim_updateStatus. erewrite tbind_run; [|by apply claim_update_run].
  match goal with |- context [tbind (resolveDispute ?c ?x ?g ?i ?o) _ ?d] =>
    destruct (resolve_runs c x g i o d) as (u & db2 & E2); [|rewrite (tbind_run _ _ _ _ _ E2)] end.
  - intros d Hd'. split; [|by apply Hoin]. eapply (table_same db); [apply K|simpl; lia|simpl; lia].
  - match goal with |- exists d db', ?m ?d = _ => assert (commits m) as T; [|exact (T d)] end. eauto 20 with commits.
Qed.

(** ** The whole request *)

(** The cases in which a request goes through. *)
Definition claim_accepted (r : ClaimReq) (db : Db) : Prop :=
  match r with
  | FileClaim c i => exists org, Actions.organizationId (actor c) = Some org /\ org <> "" /\
      allowed (can (actor c) Actions.claim_create (resource ResourceType.claim (Some org)) noContext) = true /\
      is_Some (organization_findById db (cr_subjectOrgId i)) /\
      (forall x, cr_opportunityId i = Some x -> x <> "" -> is_Some (opportunity_findById db x)) /\ scopeOk i
  | Dispute c x i => exists org claim, Actions.organizationId (actor c) = Some org /\ org <> "" /\ claim_findById db x = Some claim /\
      org <> ClaimRow.claimantOrgId claim /\
      allowed (can (actor c) Actions.claim_dispute (claimResource claim)
        {| Actions.isSelf := None; Actions.isParticipant := Some (computeDisputeStanding org claim db) |}) = true /\
      ClaimRow.status claim ∈ [Claim.SCORED; Claim.VERIFIED; Claim.PARTIAL] /\
      forallb (fun e => is_object e && json_safe e) (default [] (fd_evidence i)) = true
  | Decide c x _ => exists org claim, Actions.organizationId (actor c) = Some org /\ claim_findById db x = Some claim /\
      org <> ClaimRow.claimantOrgId claim /\
      allowed (can (actor c) Actions.claim_decide (claimResource claim) noContext) = true /\
      ClaimRow.status claim ∈ [Claim.SCORED; Claim.DISPUTED]
  end.

Lemma present_org c org : Actions.organizationId (actor c) = Some org -> present (Actions.organizationId (actor c)) = true <-> org <> "".
Proof. intros ->. unfold present, when_present. destruct (String.eqb_spec org ""); naive_solver. Qed.

Lemma create_pre_exact c i db org : createClaim_pre c i db = Ok org <->
  Actions.organizationId (actor c) = Some org /\ org <> "" /\
  allowed (can (actor c) Actions.claim_create (resource ResourceType.claim (Some org)) noContext) = true /\
  is_Some (organization_findById db (cr_subjectOrgId i)) /\
  (forall x, cr_opportunityId i = Some x -> x <> "" -> is_Some (opportunity_findById db x)).
Proof.
  unfold createClaim_pre. destruct (Actions.organizationId (actor c)) as [o|] eqn:Eo; [|by split; [|intros [? _]]].
  unfold present, when_present. destruct (String.eqb_spec o "") as [->|Hne]; [by split; [|intros ([= <-] & ? & _)]|].
  rewrite rbind_Ok. setoid_rewrite require_Ok. destruct (organization_findById db (cr_subjectOrgId i)) as [s|].
  - destruct (cr_opportunityId i) as [y|]; [destruct (String.eqb_spec y "") as [->|Hy]|]; simpl; [naive_solver| |naive_solver].
    destruct (opportunity_findById db y) eqn:Ey; simpl; [naive_solver|]. split; [naive_solver|].
    intros (_ & _ & _ & _ & Ho). destruct (Ho y eq_refl Hy) as [? ?]. congruence.
  - simpl. split; [naive_solver|]. intros (_ & _ & _ & [? ?] & _). done.
Qed.

Lemma dispute_pre_exact c x db p : fileDispute_pre c x db = Ok p <->
  Actions.organizationId (actor c) = Some (fst p) /\ fst p <> "" /\ claim_findById db x = Some (snd p) /\
  fst p <> ClaimRow.claimantOrgId (snd p) /\
  allowed (can (actor c) Actions.claim_dispute (claimResource (snd p))
    {| Actions.isSelf := None; Actions.isParticipant := Some (computeDisputeStanding (fst p) (snd p) db) |}) = true /\
  assertDisputable x (snd p) db = Ok tt.
Proof.
  unfold fileDispute_pre. destruct (Actions.organizationId (actor c)) as [o|] eqn:Eo; [|by split; [|intros [? _]]].
  unfold present, when_present. destruct (String.eqb_spec o "") as [->|Hne]; [by split; [|intros ([= <-] & ? & _)]|].
  rewrite rbind_Ok. setoid_rewrite loadClaim_Ok. split.
  - intros (l & Hf & E). apply rbind_Ok in E as (? & Hc%throw_if_Ok & E). apply rbind_Ok in E as (? & Hr%require_Ok & E).
    apply rbind_Ok in E as ([] & Hd & E). injection E as <-. simpl. apply String.eqb_neq in Hc. by split_and!.
  - destruct p as [org l]. simpl. intros ([= ->] & _ & Hf & Hc & Ha & Hd). exists l. split; [done|].
    apply not_eq_sym, String.eqb_neq in Hc. rewrite Hc. simpl. by rewrite (proj2 (require_Ok _ tt) Ha), Hd.
Qed.

Lemma decide_pre_exact c x i db l : decide_pre c x i db = Ok l <->
  claim_findById db x = Some l /\ allowed (can (actor c) Actions.claim_decide (claimResource l) noContext) = true /\
  Actions.organizationId (actor c) <> Some (ClaimRow.claimantOrgId l) /\ is_ok (decidable l (dr_decision i)) = true.
Proof.
  unfold decide_pre. rewrite rbind_Ok. setoid_rewrite loadClaim_Ok. split.
  - intros (l' & Hf & E). apply rbind_Ok in E as (? & Hr%require_Ok & E). apply rbind_Ok in E as (? & Hc%throw_if_Ok & E).
    apply rbind_Ok in E as (bv & Hd & E). injection E as <-. apply bool_decide_eq_false in Hc. by rewrite Hd.
  - intros (Hf & Ha & Hc & Hd). exists l. split; [done|]. rewrite (proj2 (require_Ok _ tt) Ha), (bool_decide_eq_false_2 _ Hc). simpl.
    by destruct (decidable l (dr_decision i)).
Qed.

Lemma fresh_not_open db x claim : claims_ok db -> claim_findById db x = Some claim ->
  ClaimRow.status claim ∈ [Claim.SCORED; Claim.VERIFIED; Claim.PARTIAL] -> claimDispute_findOpenByClaim db x = None.
Proof.
  intros K Hf Hst. destruct (find_claim _ _ _ Hf) as [<- Hin]. destruct (claimDispute_findOpenByClaim db _) as [d|] eqn:E; [|done].
  apply (findOpen_spec db claim d K Hin) in E as [E _]. rewrite E in Hst. set_solver.
Qed.

Lemma claim_accepted_runs r db : claims_ok db -> claim_sent r -> claim_accepted r db ->
  exists p out db', claim_pre r db = Ok p /\ claim_tx r p db = Ok (out, db').
Proof.
  intros K Hs. destruct r as [c i|c x i|c x i]; simpl.
  - intros (org & Ho & Hne & Ha & Hsub & Hopp & Hsc). exists org. destruct (create_runs c i org db Hs Hsc) as (row & db' & E).
    exists row, db'. split; [by apply create_pre_exact|done].
  - intros (org & claim & Ho & Hne & Hf & Hc & Ha & Hst & He). exists (org, claim).
    assert (assertDisputable x claim db = Ok tt) as Hd by (apply assertDisputable_Ok; split; [by eapply fresh_not_open|done]).
    destruct (dispute_runs c x i (org, claim) db claim Hf Hd He) as (d & db' & E). exists d, db'. split; [by apply dispute_pre_exact|done].
  - intros (org & claim & Ho & Hf & Hc & Ha & Hst). exists claim.
    destruct (decide_runs c x i db claim org K Hf Hst Ho) as (v & db' & E). exists v, db'. split; [|done].
    destruct (find_claim _ _ _ Hf) as [_ Hin]. destruct (decidable_run db claim (dr_decision i) (co_rows _ K claim Hin) Hst) as (bv & Hd & _).
    apply decide_pre_exact. split_and!; [done|done|congruence|by rewrite Hd].
Qed.

Lemma claim_ran_accepted r db p out db' : claims_ok db -> claim_pre r db = Ok p -> claim_tx r p db = Ok (out, db') -> claim_accepted r db.
Proof.
  intros K. destruct r as [c i|c x i|c x i]; simpl.
  - intros (Ho & Hne & Ha & Hsub & Hopp)%create_pre_exact E. exists p. split_and!; [done..|]. unfold createClaim_tx in E.
    apply tbind_Ok in E as (y & db1 & _ & E). apply tbind_Ok in E as (b & ? & _ & E). apply tbind_Ok in E as (row & db2 & Ef & _).
    unfold ClaimRepositories.claim_create in Ef. apply tbind_Ok in Ef as ([] & ? & [Hg _]%tlift_Ok & _). by apply safe_object_spec in Hg.
  - intros (Ho & Hne & Hf & Hc & Ha & Hd)%dispute_pre_exact E. destruct p as [org claim]. simpl in *. exists org, claim.
    apply assertDisputable_Ok in Hd as [_ Hst]. split_and!; [done..|]. unfold fileDispute_tx in E.
    do 3 apply tbind_Ok in E as (? & ? & _ & E). apply tbind_Ok in E as (d & db1 & Ed & _). unfold claimDispute_create in Ed.
    apply tbind_Ok in Ed as ([] & ? & [Hg _]%tlift_Ok & _). apply safe_array_spec in Hg as (l & [= <-] & Hg). exact Hg.
  - intros (Hf & Ha & Hc & Hd)%decide_pre_exact E. destruct (decidable p (dr_decision i)) as [bv|] eqn:Ed; [|done].
    apply decide_Ok in E. destruct (de_decision _ _ _ _ _ _ E) as (_ & _ & Ho). exists (ClaimDecisionRow.reviewerOrgId out), p.
    split_and!; [done|done|congruence|done|by eapply decidable_status].
Qed.

Lemma serve_claim_iff r db : is_ok (snd (serve claims_service r db)) = true <->
  exists p out db', claim_pre r db = Ok p /\ claim_tx r p db = Ok (out, db').
Proof.
  unfold serve. change (h_pre claims_service r db) with (claim_pre r db). destruct (claim_pre r db) as [p|] eqn:E; [|naive_solver].
  change (h_tx claims_service r p db) with (claim_tx r p db).
  destruct (claim_tx r p db) as [[out db']|] eqn:E2; ((split; [|done]) || (split; [done|])).
  - intros _. by exists p, out, db'.
  - intros (p' & out & db' & [= <-] & E3). by rewrite E2 in E3.
Qed.

End Requests.
