(* ===== verification/ClaimTheorems.v ===== *)
(** * What the claims service guarantees

    For any number of overlapping requests: the tables are always in the state
    [claims_ok] describes and every change is a step of the abstract claim
    book, so that verdicts are final.  For one request on its own: exactly
    when it succeeds, by whom, and what a read shows. *)
From S2P Require Import Prelude StableSort Lifecycle DomainStates JsNumber AuthzMatrix Authz JsonText Attribution Database.
From S2P Require Import Tables ApiShared LockboxRepositories ClaimRepositories ClaimService ClaimSpec ClaimInvariant.
From S2P Require Import ClaimCommit ClaimSystem ClaimRequests Transactions EconomicsTheorems LockboxTheorems.
From stdpp Require Import relations.
#[local] Open Scope Z_scope.

Section Theorems.
Context `{Platform}.

#[local] Notation reach := (reaches claims_service claim_env claim_sent).
#[local] Notation later_than := (rtc (step claims_service claim_env claim_sent)).

Definition openDisputes (db : Db) (x : string) : list ClaimDisputeRow.t := List.filter isOpen (disputesOf db x).

Lemma open_disputes db c : claims_ok db -> c ∈ claims db ->
  openDisputes db (ClaimRow.id c) = [] \/ exists d, openDisputes db (ClaimRow.id c) = [d].
Proof.
  intros K Hc. destruct (co_rows _ K c Hc) as [_ Hh _]. unfold openDisputes.
  assert (forall l, l `prefix_of` disputesOf db (ClaimRow.id c) -> Forall (fun d => is_Some (rd_verdict (roundOf db d))) l -> List.filter isOpen l = []) as Hset.
  { intros l [k Hl] HF. apply filter_none. intros d Hd. apply (agrees_open db); [|by apply (proj1 (Forall_forall _ _) HF)].
    apply (proj1 (Forall_forall _ _) (co_agree _ K)). apply (disputesOf_elem db (ClaimRow.id c) d). rewrite Hl. set_solver. }
  remember (disputesOf db (ClaimRow.id c)) as l eqn:El. destruct l as [|d l _] using rev_ind; [by left|].
  assert (h_rounds (history db c) = map (roundOf db) l ++ [roundOf db d]) as Er by (simpl; by rewrite <- El, map_app).
  pose proof (hk_settled _ Hh _ _ Er) as HF. rewrite Forall_map in HF. rewrite List.filter_app, (Hset l) by (by eexists || done). simpl.
  destruct (isOpen d); [right; by exists d|by left].
Qed.

(** C7: the state of every claim is sound at all times.  From sound tables,
    after any interleaving of filings, disputes, decisions and whatever else
    the platform does: the status of every claim is the one its decisions and
    disputes say (never FILED, EXPIRED or WITHDRAWN between transactions);
    its stored score is the score of its stored evidence; each decision was
    made by an organization other than the claimant and quotes that score; a
    dispute is DECIDED, with the resolution of its decision, exactly when a
    decision settles it; and a claim has at most one open dispute, and one
    exactly when it is DISPUTED. *)
Theorem claims_always_sound (db : Db) (s : Config claims_service) : claims_ok db -> reach db s ->
  claims_ok (store s) /\
  (forall c, c ∈ claims (store s) ->
     (length (openDisputes (store s) (ClaimRow.id c)) <= 1)%nat /\
     (ClaimRow.status c = Claim.DISPUTED <-> is_Some (claimDispute_findOpenByClaim (store s) (ClaimRow.id c))) /\
     ClaimRow.status c ∉ [Claim.FILED; Claim.EXPIRED; Claim.WITHDRAWN]).
Proof.
  intros K R. pose proof (claims_reach db s K R) as K'. split; [done|]. intros c Hc. split_and!.
  - destruct (open_disputes _ c K' Hc) as [->|[d ->]]; simpl; lia.
  - split; [|intros [d Hd]; by apply (findOpen_spec _ c d K' Hc) in Hd as [? _]]. intros Hst.
    destruct (openDispute_run _ c K' Hc) as (o & Ho & _). unfold openDispute in Ho. rewrite bool_decide_eq_true_2 in Ho by done.
    destruct (claimDispute_findOpenByClaim _ _) as [d|]; [by eexists|done].
  - destruct (co_rows _ K' c Hc) as [-> _ _]. unfold h_status, verdictStatus, outcomeStatus.
    destruct (last _) as [r|]; [destruct (rd_verdict r) as [[[] ?]|]|destruct (h_first _) as [[[] ?]|]]; set_solver.
Qed.

(** C8: the service refines the abstract claim book, and verdicts are final.
    Between any two moments of any concurrent run from sound tables, the
    tables go from one claim book to another by steps of [ClaimSpec]; a claim
    of the first is still there in the second, with the same claimant,
    subject and score; its verdicts and settled disputes are unchanged, its
    disputes in the order they were filed; and a REJECTED claim has not
    changed at all. *)
Theorem claims_refine_history (db : Db) (s s' : Config claims_service) : claims_ok db -> reach db s -> later_than s s' ->
  rtc claims_step (claimBook (store s)) (claimBook (store s')) /\
  (forall x c, claim_findById (store s) x = Some c ->
     exists c', claim_findById (store s') x = Some c' /\ later (history (store s) c) (history (store s') c') /\
       ClaimRow.scoreBreakdown c' = ClaimRow.scoreBreakdown c /\
       (ClaimRow.status c = Claim.REJECTED -> ClaimRow.status c' = Claim.REJECTED)).
Proof.
  intros K R R'. pose proof (claims_between db s s' K R R') as Sim. split; [done|]. intros x c Hf.
  destruct (claims_run_later _ _ x (history (store s) c) Sim) as (h' & Hh & L); [by rewrite claimBook_lookup, Hf|].
  rewrite claimBook_lookup in Hh. apply fmap_Some in Hh as (c' & Hf' & ->). exists c'. split_and!; [done|done| |].
  - pose proof (lt_filing _ _ L) as F. unfold filing in F. simpl in F. congruence.
  - intros Hst. pose proof (claims_reach db s K R) as K1. assert (reach db s') as R2 by (unfold reaches in *; by etransitivity).
    pose proof (claims_reach db s' K R2) as K2. destruct (find_claim _ _ _ Hf) as [_ Hin], (find_claim _ _ _ Hf') as [_ Hin'].
    destruct (co_rows _ K1 c Hin) as [E1 _ _], (co_rows _ K2 c' Hin') as [E2 _ _]. rewrite E2, (lt_rejected _ _ L) by congruence. congruence.
Qed.

(** C9: a claim request succeeds exactly when it should.  On sound tables,
    filing succeeds iff the caller has an organization allowed to file, the
    subject and the opportunity named exist and the scope is a storable
    object; disputing iff the claim exists and is SCORED, VERIFIED or
    PARTIAL, belongs to somebody else and the caller has standing; deciding
    iff the claim exists, is SCORED or DISPUTED, belongs to somebody else and
    the caller may decide.  A request that fails changes nothing. *)
Theorem claim_requests_exact (r : ClaimReq) (db : Db) :
  claims_ok db -> claim_sent r ->
  (is_ok (snd (serve claims_service r db)) = true <-> claim_accepted r db) /\
  (is_ok (snd (serve claims_service r db)) = false -> fst (serve claims_service r db) = db).
Proof.
  intros K Hs. split.
  - rewrite serve_claim_iff. split; [intros (p & out & db' & E1 & E2); by eapply claim_ran_accepted|by apply claim_accepted_runs].
  - unfold serve. destruct (h_pre claims_service r db) as [p|]; [|done]. by destruct (h_tx claims_service r p db) as [[]|].
Qed.

(** ** Who sees and does what *)

Import Roles Actions.

Definition reviewer (a : Actor) : Prop := has_role CROSS_ORG_CLAIM_READ_ROLES (role a) = true.

(** A reader of a claim that is not of its own organization is a reviewer. *)
Lemma claim_reader a c : allowed (can a claim_read (claimResource c) noContext) = true ->
  reviewer a \/ organizationId a = Some (ClaimRow.claimantOrgId c).
Proof.
  intros (r & org & Hr & Ho & _ & Hp)%can_paths. destruct Hp as [Hc|[[? _]|[_ [= ->]]]]; [left|done|by right].
  unfold reviewer. rewrite Hr. by destruct r.
Qed.

Lemma challenger_standing c org claim s : allowed (can (actor c) claim_dispute (claimResource claim)
    {| isSelf := None; isParticipant := Some s |}) = true -> organizationId (actor c) = Some org -> org <> ClaimRow.claimantOrgId claim -> s = true.
Proof.
  intros (r & org' & Hr & Ho & _ & Hp)%can_paths Horg Hne. destruct Hp as [Hc|[[? _]|[_ Hp]]]; [by destruct r|by destruct s|].
  simpl in Hp. congruence.
Qed.

Lemma standing_spec org claim db : computeDisputeStanding org claim db = true ->
  ClaimRow.subjectOrgId claim = org \/
  exists c, c ∈ claims db /\ ClaimRow.claimantOrgId c = org /\ ClaimRow.id c <> ClaimRow.id claim /\
    ClaimRow.subjectOrgId c = ClaimRow.subjectOrgId claim /\ ClaimRow.opportunityId c = ClaimRow.opportunityId claim.
Proof.
  unfold computeDisputeStanding. destruct (String.eqb_spec (ClaimRow.subjectOrgId claim) org) as [->|_]; [by left|].
  intros (c & Hc & [E1%String.eqb_eq E2%negb_true_iff%String.eqb_neq]%andb_true_iff)%existsb_exists. right. exists c.
  apply list_elem_of_In in Hc. unfold claim_listBySubject in Hc. apply subseteq_take, findMany_elem in Hc as [Hin P].
  apply andb_true_iff in P as [P1%String.eqb_eq P2%bool_decide_eq_true]. by split_and!.
Qed.

(** C10: who may act on a claim, and what a read shows.  A dispute that is
    filed comes from an organization that is not the claimant and is either
    the subject of the claim or the claimant of a competing claim about the
    same subject and opportunity; a decision from a PLATFORM_OWNER,
    MARKETPLACE_OPERATOR, PARTNERSHIP_LEAD or COMPLIANCE_REVIEWER of another
    organization than the claimant's.  Somebody who is not a reviewer lists
    only the claims of their own organization, reads only those, and never
    sees how a claim ranks against competing ones. *)
Theorem claim_authority (db : Db) (c : Call) (x : string) :
  (forall i d db', serve claims_service (Dispute c x i) db = (db', Ok d) ->
     exists org claim, organizationId (actor c) = Some org /\ claim_findById db x = Some claim /\ org <> ClaimRow.claimantOrgId claim /\
       (ClaimRow.subjectOrgId claim = org \/
        exists other, other ∈ claims db /\ ClaimRow.claimantOrgId other = org /\ ClaimRow.id other <> ClaimRow.id claim /\
          ClaimRow.subjectOrgId other = ClaimRow.subjectOrgId claim /\ ClaimRow.opportunityId other = ClaimRow.opportunityId claim)) /\
  (forall i v db', serve claims_service (Decide c x i) db = (db', Ok v) ->
     exists r claim, role (actor c) = Some r /\ r ∈ [PLATFORM_OWNER; MARKETPLACE_OPERATOR; PARTNERSHIP_LEAD; COMPLIANCE_REVIEWER] /\
       claim_findById db x = Some claim /\ organizationId (actor c) <> Some (ClaimRow.claimantOrgId claim)) /\
  (forall l claim, ~ reviewer (actor c) -> claimsService_list (actor c) db = Ok l -> claim ∈ l ->
     organizationId (actor c) = Some (ClaimRow.claimantOrgId claim)) /\
  (forall d, ~ reviewer (actor c) -> claimsService_getById (actor c) x db = Ok d ->
     organizationId (actor c) = Some (ClaimRow.claimantOrgId (d_claim d)) /\ d_rank d = None).
Proof.
  split_and!.
  - intros i d db' E. assert (is_ok (snd (serve claims_service (Dispute c x i) db)) = true) as Hok by (by rewrite E).
    apply serve_claim_iff in Hok as ([org claim] & d' & db2 & (Ho & _ & Hf & Hne & Ha & _)%dispute_pre_exact & _). simpl in *.
    exists org, claim. split_and!; [done..|]. apply standing_spec. by eapply challenger_standing.
  - intros i v db' E. assert (is_ok (snd (serve claims_service (Decide c x i) db)) = true) as Hok by (by rewrite E).
    apply serve_claim_iff in Hok as (claim & v' & db2 & (Hf & Ha & Hne & _)%decide_pre_exact & _).
    destruct (reserved_path _ _ _ _ _ Ha eq_refl) as (r & Hr & Hin). by exists r, claim.
  - intros l claim Hrev E Hin. unfold claimsService_list in E. apply rbind_Ok in E as (? & _ & E). unfold reviewer in Hrev.
    destruct (has_role _ _); [done|]. destruct (organizationId (actor c)) as [org|]; injection E as <-; [|by apply elem_of_nil in Hin].
    destruct (String.eqb org ""); [by apply elem_of_nil in Hin|]. apply findMany_elem in Hin as [_ Ho%String.eqb_eq]. by rewrite Ho.
  - intros d Hrev E. unfold claimsService_getById in E. apply rbind_Ok in E as (claim & _ & E). apply rbind_Ok in E as (? & Ha%require_Ok & E).
    pose proof (claim_reader _ _ Ha) as [?|Ho]; [done|]. unfold reviewer in Hrev. destruct (has_role _ _); [done|]. injection E as <-. done.
Qed.

End Theorems.

(** ** On a sample run

    One organization files about another, the other disputes, the platform
    decides. *)

Import Roles Actions.

Definition claimDb : Db := set_organizations [sampleOrganization "agent"; sampleOrganization "subject"; sampleOrganization "desk"] emptyDb.

Definition agent : Call := sampleCall CONTRIBUTOR_AGENT "agent" 1000.
Definition subject : Call := sampleCall MERCHANT_PSP_USER "subject" 2000.
Definition desk : Call := sampleCall MARKETPLACE_OPERATOR "desk" 3000.

Definition sampleFiling : ClaimReq :=
  FileClaim agent {| cr_subjectOrgId := "subject"; cr_relationshipType := "introduction"; cr_directnessTier := ClaimVocabulary.D5;
    cr_opportunityId := None; cr_claimScope := None; cr_priorCommercialHistoryMonths := 12; cr_submissionLagDays := 3;
    cr_evidenceItems := [ {| i_evidenceType := ClaimVocabulary.CONTRACT; i_assertedFact := "signed"; i_verificationState := None;
                             i_evidenceRef := None |} ] |}.
Definition sampleDispute : ClaimReq := Dispute subject "id-0" {| fd_basis := "no introduction"; fd_evidence := None |}.
Definition sampleDecision (o : ClaimDecision.ClaimDecisionOutcome) : ClaimReq := Decide desk "id-0" {| dr_decision := o; dr_reason := "reviewed" |}.

Definition sampleClaimRun : list ClaimReq := [sampleFiling; sampleDispute; sampleDecision ClaimDecision.REJECTED].

Definition claimAfter (r : ClaimReq) (db : Db) : Db := fst (serve claims_service r db).
Definition filedDb : Db := Eval vm_compute in claimAfter sampleFiling claimDb.

Lemma claimDb_ok : claims_ok claimDb.
Proof. split; try by constructor. - split; repeat constructor. - split; repeat constructor. - intros row Hr. by apply elem_of_nil in Hr. Qed.

Lemma sampleClaimRun_sent : Forall claim_sent sampleClaimRun.
Proof. repeat constructor; simpl; lia. Qed.

Lemma sampleFiling_sent : Forall claim_sent [sampleFiling].
Proof. repeat constructor; simpl; lia. Qed.

Lemma filedDb_reached : exists s, reaches claims_service claim_env claim_sent claimDb s /\ store s = filedDb.
Proof.
  pose proof (serveAll_answers claims_service claim_env claim_sent [sampleFiling] claimDb sampleFiling_sent) as R.
  eexists. split; [exact R|]. vm_compute. reflexivity.
Qed.

Lemma filedDb_ok : claims_ok filedDb.
Proof. destruct filedDb_reached as (s & R & <-). exact (claims_reach claimDb s claimDb_ok R). Qed.

Example sample_claim_statuses :
  map ClaimRow.status (claims filedDb) = [Claim.SCORED] /\
  map ClaimRow.status (claims (claimAfter sampleDispute filedDb)) = [Claim.DISPUTED] /\
  map ClaimRow.status (claims (serveAll claims_service sampleClaimRun claimDb)) = [Claim.REJECTED].
Proof. vm_compute. done. Qed.

Lemma claims_always_sound_witness :
  exists s, reaches claims_service claim_env claim_sent claimDb s /\ store s = serveAll claims_service sampleClaimRun claimDb /\ claims_ok (store s).
Proof.
  pose proof (serveAll_answers claims_service claim_env claim_sent sampleClaimRun claimDb sampleClaimRun_sent) as R.
  eexists. split; [exact R|]. split; [reflexivity|]. exact (proj1 (claims_always_sound claimDb _ claimDb_ok R)).
Defined.

(** The claim filed first is the claim found after the dispute. *)
Lemma claims_refine_history_witness :
  exists (s : Config claims_service) c c', store s = filedDb /\ claim_findById filedDb "id-0" = Some c /\
    claim_findById (serveAll claims_service [sampleDispute] filedDb) "id-0" = Some c' /\
    ClaimRow.scoreBreakdown c' = ClaimRow.scoreBreakdown c.
Proof.
  pose proof (serveAll_answers claims_service claim_env claim_sent [sampleFiling] claimDb sampleFiling_sent) as R.
  match type of R with reaches _ _ _ _ ?s => pose (s1 := s) end.
  assert (store s1 = filedDb) as Es by (vm_compute; reflexivity).
  assert (Forall claim_sent [sampleDispute]) as Hs by (repeat constructor).
  pose proof (serveAll_steps claims_service claim_env claim_sent [sampleDispute] s1 Hs eq_refl) as R2.
  destruct (claims_refine_history claimDb s1 _ claimDb_ok R R2) as [_ F]. rewrite Es in F.
  destruct (claim_findById filedDb "id-0") as [c|] eqn:Hc; [|exfalso; vm_compute in Hc; discriminate Hc].
  destruct (F "id-0" c Hc) as (c' & Hc' & _ & Eb & _). exists s1, c, c'. split; [exact Es|]. split; [reflexivity|]. split; [exact Hc'|exact Eb].
Defined.

Lemma claim_requests_exact_witness : is_ok (snd (serve claims_service sampleDispute filedDb)) = true.
Proof.
  apply (proj1 (claim_requests_exact sampleDispute filedDb filedDb_ok I)).
  exists "subject". eexists. split_and!; [reflexivity|discriminate|vm_compute; reflexivity|vm_compute; discriminate|vm_compute; reflexivity| |reflexivity].
  vm_compute. constructor.
Defined.
