(* ===== verification/TradeRepositories.v ===== *)
(** * packages/db: the repositories of requests for quotes

    rfq, rfq-version, rfq-recipient, quote and opportunity .repository.ts, and
    organization.repository.ts's [findManyByIds].  A [create] on a table with
    a composite unique key throws P2002 when the key is taken. *)
From S2P Require Import Prelude StableSort DomainStates AuthzMatrix JsonText Database ApiShared ClaimRepositories.

Definition P2002 : exn := PrismaKnownRequestError "P2002".

(** ** organizationRepository *)

Definition organization_findManyByIds (db : Db) (ids : list string) : list OrganizationRow.t :=
  match ids with
  | [] => []
  | _ => List.filter (fun o => existsb (String.eqb (OrganizationRow.id o)) ids) (organizations db)
  end.

(** ** opportunityRepository *)

Definition opportunity_listByOwnerOrg (db : Db) (org : string) : list OpportunityRow.t :=
  findMany (desc row_createdAt)
    (fun o => String.eqb (OpportunityRow.ownerOrgId o) org && negb (bool_decide (OpportunityRow.status o = Opportunity.CLOSED)))
    (opportunities db).

Definition opportunityWith (st : Opportunity.OpportunityStatus) (user : option string) (o : OpportunityRow.t) : OpportunityRow.t :=
  {| OpportunityRow.id := OpportunityRow.id o; OpportunityRow.ownerOrgId := OpportunityRow.ownerOrgId o;
     OpportunityRow.opportunityType := OpportunityRow.opportunityType o; OpportunityRow.requestedService := OpportunityRow.requestedService o;
     OpportunityRow.status := st; OpportunityRow.currency := OpportunityRow.currency o;
     OpportunityRow.totalPaymentVolumeMinor := OpportunityRow.totalPaymentVolumeMinor o;
     OpportunityRow.totalCardGpvMinor := OpportunityRow.totalCardGpvMinor o;
     OpportunityRow.eligibleCardGpvMinor := OpportunityRow.eligibleCardGpvMinor o;
     OpportunityRow.offeredCardGpvMinor := OpportunityRow.offeredCardGpvMinor o;
     OpportunityRow.movableNowMinor := OpportunityRow.movableNowMinor o; OpportunityRow.movable30dMinor := OpportunityRow.movable30dMinor o;
     OpportunityRow.movable90dMinor := OpportunityRow.movable90dMinor o; OpportunityRow.jurisdictions := OpportunityRow.jurisdictions o;
     OpportunityRow.mccs := OpportunityRow.mccs o; OpportunityRow.base := touch (OpportunityRow.base o) user |}.

Definition opportunity_updateStatus (x : string) (st : Opportunity.OpportunityStatus) (user : option string) : Tx OpportunityRow.t :=
  fun db =>
    let! (row, t) := updateById x (opportunityWith st user) (opportunities db) in
    Ok (row, set_opportunities t db).

(** ** rfqRepository *)

Record CreateRfqInput : Type := {
  ri_opportunityId : string;
  ri_status : option Rfq.RfqStatus;
  ri_dueAt : Z;
  ri_createdByUserId : option string;
  ri_createdByOrgId : option string
}.

Definition rfq_findById (db : Db) (x : string) : option RFQRow.t := findById (rfqs db) x.

Definition rfq_listByOpportunity (db : Db) (x : string) : list RFQRow.t :=
  findMany (desc row_createdAt) (fun r => String.eqb (RFQRow.opportunityId r) x) (rfqs db).

Definition rfq_list (db : Db) : list RFQRow.t := take 100 (findMany (desc row_createdAt) (fun _ => true) (rfqs db)).

Definition overdueStatuses : list Rfq.RfqStatus := [Rfq.SENT; Rfq.ACKNOWLEDGED; Rfq.QUESTIONS; Rfq.QUOTED].

Definition rfq_listOverdue (db : Db) (now : Z) (limit : nat) : list RFQRow.t :=
  take limit (findMany (asc RFQRow.dueAt)
    (fun r => (RFQRow.dueAt r <? now) && bool_decide (RFQRow.status r ∈ overdueStatuses)) (rfqs db)).

Definition rfq_listByInvitedProvider (db : Db) (org : string) : list RFQRow.t :=
  findMany (desc row_createdAt)
    (fun r => existsb (fun p => String.eqb (RFQRecipientRow.rfqId p) (RFQRow.id r) && String.eqb (RFQRecipientRow.providerOrgId p) org)
                (rfqRecipients db)) (rfqs db).

Definition rfqWith (st : Rfq.RfqStatus) (user : option string) (r : RFQRow.t) : RFQRow.t :=
  {| RFQRow.id := RFQRow.id r; RFQRow.opportunityId := RFQRow.opportunityId r; RFQRow.status := st; RFQRow.dueAt := RFQRow.dueAt r;
     RFQRow.currentVersionNumber := RFQRow.currentVersionNumber r; RFQRow.base := touch (RFQRow.base r) user |}.

Definition rfq_updateStatus (x : string) (st : Rfq.RfqStatus) (user : option string) : Tx RFQRow.t :=
  fun db =>
    let! (row, t) := updateById x (rfqWith st user) (rfqs db) in
    Ok (row, set_rfqs t db).

(** ** rfqVersionRepository *)

Record CreateRfqVersionInput : Type := {
  rv_rfqId : string;
  rv_versionNumber : Z;
  rv_packetType : option PacketType.t;
  rv_disclosureSnapshot : Json;
  rv_changeSummary : option string;
  rv_createdByUserId : option string;
  rv_createdByOrgId : option string
}.

Definition versionOf (rfqId : string) (n : Z) (v : RFQVersionRow.t) : bool :=
  String.eqb (RFQVersionRow.rfqId v) rfqId && (RFQVersionRow.versionNumber v =? n).

Definition rfqVersion_findByRfqAndVersion (db : Db) (rfqId : string) (n : Z) : option RFQVersionRow.t :=
  findUnique (versionOf rfqId n) (rfqVersions db).

(** ** rfqRecipientRepository *)

Record CreateRfqRecipientInput : Type := {
  rr_rfqId : string;
  rr_providerOrgId : string;
  rr_createdByUserId : option string;
  rr_createdByOrgId : option string
}.

Definition invites (rfqId org : string) (p : RFQRecipientRow.t) : bool :=
  String.eqb (RFQRecipientRow.rfqId p) rfqId && String.eqb (RFQRecipientRow.providerOrgId p) org.

Definition rfqRecipient_findByRfqAndProviderOrg (db : Db) (rfqId org : string) : option RFQRecipientRow.t :=
  findUnique (invites rfqId org) (rfqRecipients db).

Definition rfqRecipient_listByRfq (db : Db) (rfqId : string) : list RFQRecipientRow.t :=
  findMany (asc row_createdAt) (fun p => String.eqb (RFQRecipientRow.rfqId p) rfqId) (rfqRecipients db).

(** [extra.declineReason ? {..} : {}]; nobody passes [acknowledgedAt]. *)
Definition recipientWith (st : RfqRecipient.RfqRecipientState) (user declineReason : option string) (p : RFQRecipientRow.t) : RFQRecipientRow.t :=
  {| RFQRecipientRow.id := RFQRecipientRow.id p; RFQRecipientRow.rfqId := RFQRecipientRow.rfqId p;
     RFQRecipientRow.providerOrgId := RFQRecipientRow.providerOrgId p; RFQRecipientRow.state := st;
     RFQRecipientRow.acknowledgedAt := RFQRecipientRow.acknowledgedAt p;
     RFQRecipientRow.declineReason := when_present declineReason Some (RFQRecipientRow.declineReason p);
     RFQRecipientRow.base := touch (RFQRecipientRow.base p) user |}.

Definition rfqRecipient_updateState (x : string) (st : RfqRecipient.RfqRecipientState) (user declineReason : option string) : Tx RFQRecipientRow.t :=
  fun db =>
    let! (row, t) := updateById x (recipientWith st user declineReason) (rfqRecipients db) in
    Ok (row, set_rfqRecipients t db).

(** ** quoteRepository *)

Record CreateQuoteInput : Type := {
  qi_rfqId : string;
  qi_rfqRecipientId : string;
  qi_providerOrgId : string;
  qi_quoteVersion : Z;
  qi_currency : string;
  qi_validUntil : Z;
  qi_terms : Json;
  qi_createdByUserId : option string;
  qi_createdByOrgId : option string
}.

Definition quote_findById (db : Db) (x : string) : option QuoteRow.t := findById (quotes db) x.

Definition quote_listByRfq (db : Db) (rfqId : string) : list QuoteRow.t :=
  findMany (cmp_lex (cmp_on QuoteRow.providerOrgId String.compare) (asc QuoteRow.quoteVersion))
    (fun q => String.eqb (QuoteRow.rfqId q) rfqId) (quotes db).

Definition nextQuoteVersion (db : Db) (recipientId : string) : Z :=
  match findMany (desc QuoteRow.quoteVersion) (fun q => String.eqb (QuoteRow.rfqRecipientId q) recipientId) (quotes db) with
  | latest :: _ => QuoteRow.quoteVersion latest + 1
  | [] => 1
  end.

Definition quoteVersionTaken (recipientId : string) (n : Z) (q : QuoteRow.t) : bool :=
  String.eqb (QuoteRow.rfqRecipientId q) recipientId && (QuoteRow.quoteVersion q =? n).

Definition quoteWith (st : Quote.QuoteStatus) (user : option string) (q : QuoteRow.t) : QuoteRow.t :=
  {| QuoteRow.id := QuoteRow.id q; QuoteRow.rfqId := QuoteRow.rfqId q; QuoteRow.rfqRecipientId := QuoteRow.rfqRecipientId q;
     QuoteRow.providerOrgId := QuoteRow.providerOrgId q; QuoteRow.quoteVersion := QuoteRow.quoteVersion q;
     QuoteRow.currency := QuoteRow.currency q; QuoteRow.status := st; QuoteRow.validUntil := QuoteRow.validUntil q;
     QuoteRow.submittedAt := QuoteRow.submittedAt q; QuoteRow.terms := QuoteRow.terms q; QuoteRow.base := touch (QuoteRow.base q) user |}.

Definition quote_updateStatus (x : string) (st : Quote.QuoteStatus) (user : option string) : Tx QuoteRow.t :=
  fun db =>
    let! (row, t) := updateById x (quoteWith st user) (quotes db) in
    Ok (row, set_quotes t db).

(** ** The creates *)

Section Create.
Context `{Platform}.

Definition rfq_create (input : CreateRfqInput) : Tx RFQRow.t :=
  let* i := freshId in
  fun db =>
    let row := {| RFQRow.id := i; RFQRow.opportunityId := ri_opportunityId input; RFQRow.status := default Rfq.DRAFT (ri_status input);
      RFQRow.dueAt := ri_dueAt input; RFQRow.currentVersionNumber := 1;
      RFQRow.base := newBase (ri_createdByUserId input) (ri_createdByOrgId input) Roles.DEAL_ROOM db |} in
    Ok (row, set_rfqs (rfqs db ++ [row]) db).

Definition rfqVersion_create (input : CreateRfqVersionInput) : Tx RFQVersionRow.t :=
  do* tlift (assertJsonSafePlainObject (rv_disclosureSnapshot input) "RFQVersion.disclosureSnapshot");
  let* i := freshId in
  fun db =>
    match rfqVersion_findByRfqAndVersion db (rv_rfqId input) (rv_versionNumber input) with
    | Some _ => Throw P2002
    | None =>
        let row := {| RFQVersionRow.id := i; RFQVersionRow.rfqId := rv_rfqId input; RFQVersionRow.versionNumber := rv_versionNumber input;
          RFQVersionRow.packetType := default PacketType.QUALIFIED_RFQ (rv_packetType input);
          RFQVersionRow.disclosureSnapshot := rv_disclosureSnapshot input; RFQVersionRow.changeSummary := rv_changeSummary input;
          RFQVersionRow.base := newBase (rv_createdByUserId input) (rv_createdByOrgId input) Roles.DEAL_ROOM db |} in
        Ok (row, set_rfqVersions (rfqVersions db ++ [row]) db)
    end.

Definition rfqRecipient_create (input : CreateRfqRecipientInput) : Tx RFQRecipientRow.t :=
  let* i := freshId in
  fun db =>
    match rfqRecipient_findByRfqAndProviderOrg db (rr_rfqId input) (rr_providerOrgId input) with
    | Some _ => Throw P2002
    | None =>
        let row := {| RFQRecipientRow.id := i; RFQRecipientRow.rfqId := rr_rfqId input; RFQRecipientRow.providerOrgId := rr_providerOrgId input;
          RFQRecipientRow.state := RfqRecipient.INVITED; RFQRecipientRow.acknowledgedAt := None; RFQRecipientRow.declineReason := None;
          RFQRecipientRow.base := newBase (rr_createdByUserId input) (rr_createdByOrgId input) Roles.DEAL_ROOM db |} in
        Ok (row, set_rfqRecipients (rfqRecipients db ++ [row]) db)
    end.

Definition quote_create (input : CreateQuoteInput) : Tx QuoteRow.t :=
  do* tlift (assertJsonSafePlainObject (qi_terms input) "Quote.terms");
  let* i := freshId in
  fun db =>
    if existsb (quoteVersionTaken (qi_rfqRecipientId input) (qi_quoteVersion input)) (quotes db) then Throw P2002
    else
      let row := {| QuoteRow.id := i; QuoteRow.rfqId := qi_rfqId input; QuoteRow.rfqRecipientId := qi_rfqRecipientId input;
        QuoteRow.providerOrgId := qi_providerOrgId input; QuoteRow.quoteVersion := qi_quoteVersion input; QuoteRow.currency := qi_currency input;
        QuoteRow.status := Quote.SUBMITTED; QuoteRow.validUntil := qi_validUntil input; QuoteRow.submittedAt := clock db;
        QuoteRow.terms := qi_terms input;
        QuoteRow.base := newBase (qi_createdByUserId input) (qi_createdByOrgId input) Roles.RESTRICTED db |} in
      Ok (row, set_quotes (quotes db ++ [row]) db).

End Create.

(** * packages/db: the repositories of deal rooms

    deal-room, deal-room-participant, deal-condition and deal-decision
    .repository.ts and domain-event.repository.ts's [listByAggregates].  A
    deal room is unique per request for quotes and per selected quote; a
    participant per deal room and organization. *)
From S2P Require Import EconomicsRepositories.

(** ** dealRoomRepository *)

Record CreateDealRoomInput : Type := {
  dc_opportunityId : string;
  dc_rfqId : string;
  dc_selectedQuoteId : string;
  dc_merchantOrgId : string;
  dc_providerOrgId : string;
  dc_createdByUserId : option string;
  dc_createdByOrgId : option string
}.

Definition dealRoom_listByOrg (db : Db) (org : string) : list DealRoomRow.t :=
  findMany (desc row_createdAt) (fun d => String.eqb (DealRoomRow.merchantOrgId d) org || String.eqb (DealRoomRow.providerOrgId d) org)
    (dealRooms db).

Definition dealRoom_list (db : Db) : list DealRoomRow.t := take 100 (findMany (desc row_createdAt) (fun _ => true) (dealRooms db)).

Definition dealTaken (rfqId quoteId : string) (d : DealRoomRow.t) : bool :=
  String.eqb (DealRoomRow.rfqId d) rfqId || String.eqb (DealRoomRow.selectedQuoteId d) quoteId.

Definition dealRoomWith (st : DealRoom.DealRoomStatus) (user : option string) (d : DealRoomRow.t) : DealRoomRow.t :=
  {| DealRoomRow.id := DealRoomRow.id d; DealRoomRow.opportunityId := DealRoomRow.opportunityId d; DealRoomRow.rfqId := DealRoomRow.rfqId d;
     DealRoomRow.selectedQuoteId := DealRoomRow.selectedQuoteId d; DealRoomRow.merchantOrgId := DealRoomRow.merchantOrgId d;
     DealRoomRow.providerOrgId := DealRoomRow.providerOrgId d; DealRoomRow.status := st; DealRoomRow.nextAction := DealRoomRow.nextAction d;
     DealRoomRow.base := touch (DealRoomRow.base d) user |}.

Definition dealRoom_updateStatus (x : string) (st : DealRoom.DealRoomStatus) (user : option string) : Tx DealRoomRow.t :=
  fun db =>
    let! (row, t) := updateById x (dealRoomWith st user) (dealRooms db) in
    Ok (row, set_dealRooms t db).

(** ** dealRoomParticipantRepository *)

Record CreateDealRoomParticipantInput : Type := {
  dp_dealRoomId : string;
  dp_organizationId : string;
  dp_participantRole : ParticipantRole.t;
  dp_createdByUserId : option string;
  dp_createdByOrgId : option string
}.

Definition participates (dealRoomId org : string) (p : DealRoomParticipantRow.t) : bool :=
  String.eqb (DealRoomParticipantRow.dealRoomId p) dealRoomId && String.eqb (DealRoomParticipantRow.organizationId p) org.

Definition participant_findByDealRoomAndOrg (db : Db) (dealRoomId org : string) : option DealRoomParticipantRow.t :=
  findUnique (participates dealRoomId org) (dealRoomParticipants db).

Definition participant_listByDealRoom (db : Db) (x : string) : list DealRoomParticipantRow.t :=
  findMany (asc row_createdAt) (fun p => String.eqb (DealRoomParticipantRow.dealRoomId p) x) (dealRoomParticipants db).

(** ** dealConditionRepository *)

Record CreateDealConditionInput : Type := {
  dn_dealRoomId : string;
  dn_description : string;
  dn_ownerOrgId : string;
  dn_evidenceRef : option string;
  dn_dueAt : option Z;
  dn_blocking : option bool;
  dn_createdByUserId : option string;
  dn_createdByOrgId : option string
}.

Definition condition_findById (db : Db) (x : string) : option DealConditionRow.t := findById (dealConditions db) x.

Definition condition_listByDealRoom (db : Db) (x : string) : list DealConditionRow.t :=
  findMany (asc row_createdAt) (fun n => String.eqb (DealConditionRow.dealRoomId n) x) (dealConditions db).

Definition conditionWith (st : DealCondition.DealConditionState) (note user : option string) (n : DealConditionRow.t) : DealConditionRow.t :=
  {| DealConditionRow.id := DealConditionRow.id n; DealConditionRow.dealRoomId := DealConditionRow.dealRoomId n;
     DealConditionRow.description := DealConditionRow.description n; DealConditionRow.ownerOrgId := DealConditionRow.ownerOrgId n;
     DealConditionRow.evidenceRef := DealConditionRow.evidenceRef n; DealConditionRow.dueAt := DealConditionRow.dueAt n;
     DealConditionRow.state := st; DealConditionRow.blocking := DealConditionRow.blocking n; DealConditionRow.resolutionNote := note;
     DealConditionRow.base := touch (DealConditionRow.base n) user |}.

Definition condition_updateState (x : string) (st : DealCondition.DealConditionState) (note user : option string) : Tx DealConditionRow.t :=
  fun db =>
    let! (row, t) := updateById x (conditionWith st note user) (dealConditions db) in
    Ok (row, set_dealConditions t db).

(** ** dealDecisionRepository *)

Record CreateDealDecisionInput : Type := {
  dd_dealRoomId : string;
  dd_decisionType : DealCondition.DealDecisionType;
  dd_reason : string;
  dd_relatedQuoteId : option string;
  dd_comparisonSnapshot : option Json;
  dd_actorUserId : option string;
  dd_actorOrgId : option string;
  dd_actorRole : option Roles.PersonaRole;
  dd_createdByUserId : option string;
  dd_createdByOrgId : option string
}.

Definition decision_listByDealRoom (db : Db) (x : string) : list DealDecisionRow.t :=
  findMany (asc DealDecisionRow.decidedAt) (fun d => String.eqb (DealDecisionRow.dealRoomId d) x) (dealDecisions db).

(** ** domainEventRepository *)

Definition domainEvent_listByAggregates (db : Db) (aggregates : list (string * string)) : list DomainEventRow.t :=
  match aggregates with
  | [] => []
  | _ => findMany (asc DomainEventRow.occurredAt)
           (fun e => existsb (fun a => String.eqb (DomainEventRow.aggregateType e) (fst a) && String.eqb (DomainEventRow.aggregateId e) (snd a))
                       aggregates) (domainEvents db)
  end.

(** ** The creates *)

Section Create.
Context `{Platform}.

Definition dealRoom_create (input : CreateDealRoomInput) : Tx DealRoomRow.t :=
  let* i := freshId in
  fun db =>
    if existsb (dealTaken (dc_rfqId input) (dc_selectedQuoteId input)) (dealRooms db) then Throw P2002
    else
      let row := {| DealRoomRow.id := i; DealRoomRow.opportunityId := dc_opportunityId input; DealRoomRow.rfqId := dc_rfqId input;
        DealRoomRow.selectedQuoteId := dc_selectedQuoteId input; DealRoomRow.merchantOrgId := dc_merchantOrgId input;
        DealRoomRow.providerOrgId := dc_providerOrgId input; DealRoomRow.status := DealRoom.OPEN; DealRoomRow.nextAction := None;
        DealRoomRow.base := newBase (dc_createdByUserId input) (dc_createdByOrgId input) Roles.DEAL_ROOM db |} in
      Ok (row, set_dealRooms (dealRooms db ++ [row]) db).

Definition participant_create (input : CreateDealRoomParticipantInput) : Tx DealRoomParticipantRow.t :=
  let* i := freshId in
  fun db =>
    match participant_findByDealRoomAndOrg db (dp_dealRoomId input) (dp_organizationId input) with
    | Some _ => Throw P2002
    | None =>
        let row := {| DealRoomParticipantRow.id := i; DealRoomParticipantRow.dealRoomId := dp_dealRoomId input;
          DealRoomParticipantRow.organizationId := dp_organizationId input; DealRoomParticipantRow.participantRole := dp_participantRole input;
          DealRoomParticipantRow.base := newBase (dp_createdByUserId input) (dp_createdByOrgId input) Roles.DEAL_ROOM db |} in
        Ok (row, set_dealRoomParticipants (dealRoomParticipants db ++ [row]) db)
    end.

Definition condition_create (input : CreateDealConditionInput) : Tx DealConditionRow.t :=
  let* i := freshId in
  fun db =>
    let row := {| DealConditionRow.id := i; DealConditionRow.dealRoomId := dn_dealRoomId input; DealConditionRow.description := dn_description input;
      DealConditionRow.ownerOrgId := dn_ownerOrgId input; DealConditionRow.evidenceRef := dn_evidenceRef input;
      DealConditionRow.dueAt := dn_dueAt input; DealConditionRow.state := DealCondition.PENDING;
      DealConditionRow.blocking := default true (dn_blocking input); DealConditionRow.resolutionNote := None;
      DealConditionRow.base := newBase (dn_createdByUserId input) (dn_createdByOrgId input) Roles.DEAL_ROOM db |} in
    Ok (row, set_dealConditions (dealConditions db ++ [row]) db).

Definition decision_create (input : CreateDealDecisionInput) : Tx DealDecisionRow.t :=
  do* tlift match dd_comparisonSnapshot input with
            | Some s => assertJsonSafePlainObject s "DealDecision.comparisonSnapshot"
            | None => Ok tt
            end;
  let* i := freshId in
  fun db =>
    let row := {| DealDecisionRow.id := i; DealDecisionRow.dealRoomId := dd_dealRoomId input; DealDecisionRow.decisionType := dd_decisionType input;
      DealDecisionRow.reason := dd_reason input; DealDecisionRow.relatedQuoteId := dd_relatedQuoteId input;
      DealDecisionRow.comparisonSnapshot := dd_comparisonSnapshot input; DealDecisionRow.decidedAt := clock db;
      DealDecisionRow.actorUserId := dd_actorUserId input; DealDecisionRow.actorOrgId := dd_actorOrgId input;
      DealDecisionRow.actorRole := dd_actorRole input;
      DealDecisionRow.base := newBase (dd_createdByUserId input) (dd_createdByOrgId input) Roles.DEAL_ROOM db |} in
    Ok (row, set_dealDecisions (dealDecisions db ++ [row]) db).

End Create.
