(* ===== verification/RfqService.v ===== *)
(** * apps/api/src/modules/rfqs/service.ts

    Requests for quotes: sending them, declining, quoting, withdrawing a quote
    and selecting one, which opens the deal room; and the two reads.  A
    mutation is its reads and checks before the transaction ([_pre]) and its
    transaction ([_tx]).  The enqueueing of the expiry timer after [create]
    is output only. *)
From S2P Require Import Prelude StableSort DomainStates AuthzMatrix Authz JsDate JsonText Database ApiShared.
From S2P Require Import EconomicsRepositories ClaimRepositories TradeRepositories.
Import Roles Actions.

(** ** Requests *)

Record CreateRfqRequest : Type := {
  rq_opportunityId : string;
  rq_providerOrgIds : list string;
  rq_dueAt : string;
  rq_packetType : option PacketType.t;
  rq_disclosureSnapshot : Json
}.

Record SubmitQuoteRequest : Type := { uq_currency : string; uq_validUntil : string; uq_terms : Json }.

Record SelectQuoteRequest : Type := { xq_quoteId : string; xq_reason : string }.

Definition CROSS_ORG_RFQ_ROLES : list PersonaRole := [PLATFORM_OWNER; MARKETPLACE_OPERATOR; COMPLIANCE_REVIEWER; AUDITOR_READONLY].

Record RfqDetail : Type := {
  f_rfq : RFQRow.t;
  f_merchantOrgId : string;
  f_version : option RFQVersionRow.t;
  f_recipients : list RFQRecipientRow.t;
  f_quotes : list QuoteRow.t
}.

(** P2002 anywhere in the transaction becomes a retryable conflict. *)
Definition uniqueSafe {A} (m : Tx A) (conflictMessage : string) : Tx A := fun db => runUniqueConstraintSafe (m db) conflictMessage.

Definition rfqStatusName (r : RFQRow.t) : string := Rfq.RfqStatus_name (RFQRow.status r).
Definition quoteStatusName (q : QuoteRow.t) : string := Quote.QuoteStatus_name (QuoteRow.status q).
Definition opportunityStatusName (o : OpportunityRow.t) : string := Opportunity.OpportunityStatus_name (OpportunityRow.status o).
Definition recipientStateName (p : RFQRecipientRow.t) : string := RfqRecipient.RfqRecipientState_name (RFQRecipientRow.state p).

(** The RFQ and its opportunity, which every handler loads first. *)
Definition loadRfq (db : Db) (x : string) : res (RFQRow.t * OpportunityRow.t) :=
  match rfq_findById db x with
  | None => Throw (notFound "RFQ not found.")
  | Some rfq =>
      match opportunity_findById db (RFQRow.opportunityId rfq) with
      | None => Throw (internal "RFQ references a missing opportunity.")
      | Some opportunity => Ok (rfq, opportunity)
      end
  end.

(** [actor.organizationId ? await find(..) : null] *)
Definition myInvitation (a : Actor) (x : string) (db : Db) : option RFQRecipientRow.t :=
  when_present (organizationId a) (rfqRecipient_findByRfqAndProviderOrg db x) None.

Definition rfqResource (rfq : RFQRow.t) (opportunity : OpportunityRow.t) : Resource :=
  resourceOf ResourceType.rfq (RFQRow.id rfq) (Some (OpportunityRow.ownerOrgId opportunity)).

Definition participant (p : option RFQRecipientRow.t) : AuthContext :=
  {| isSelf := None; isParticipant := Some (bool_decide (is_Some p)) |}.

(** ** The reads *)

Definition rfqsService_getById (a : Actor) (x : string) (db : Db) : res RfqDetail :=
  let! (rfq, opportunity) := loadRfq db x in
  do! require (can a rfq_read (rfqResource rfq opportunity) (participant (myInvitation a x db)));
  Ok {| f_rfq := rfq; f_merchantOrgId := OpportunityRow.ownerOrgId opportunity;
        f_version := rfqVersion_findByRfqAndVersion db x (RFQRow.currentVersionNumber rfq);
        f_recipients := rfqRecipient_listByRfq db x; f_quotes := quote_listByRfq db x |}.

Definition rfqsService_list (a : Actor) (db : Db) : res (list RFQRow.t) :=
  do! require (can a Actions.rfq_list (resource ResourceType.rfq (organizationId a)) {| isSelf := None; isParticipant := Some true |});
  if has_role CROSS_ORG_RFQ_ROLES (role a) then Ok (TradeRepositories.rfq_list db)
  else if bool_decide (role a = Some ACQUIRER_PROVIDER_USER) && present (organizationId a)
  then Ok (default [] (rfq_listByInvitedProvider db <$> organizationId a))
  else Ok (when_present (organizationId a)
             (fun org => concat (map (fun o => rfq_listByOpportunity db (OpportunityRow.id o)) (opportunity_listByOwnerOrg db org))) []).

Section Service.
Context `{Platform}.

(** ** create *)

Definition createRfq_pre (c : Call) (input : CreateRfqRequest) (db : Db) : res OpportunityRow.t :=
  match opportunity_findById db (rq_opportunityId input) with
  | None => Throw (notFound "Opportunity not found.")
  | Some opportunity =>
      do! require (can (actor c) Actions.rfq_create (resource ResourceType.rfq (Some (OpportunityRow.ownerOrgId opportunity))) noContext);
      do! throw_if (negb (bool_decide (OpportunityRow.status opportunity = Opportunity.MATCH_READY))
                    && negb (bool_decide (OpportunityRow.status opportunity = Opportunity.INVITED)))
            (badRequest ("Opportunity must be MATCH_READY or INVITED to receive an RFQ (current status: " +:+ opportunityStatusName opportunity +:+ ")."));
      do! throw_if (negb (Nat.eqb (length (organization_findManyByIds db (rq_providerOrgIds input))) (length (rq_providerOrgIds input))))
            (badRequest "One or more invited provider organizations do not exist.");
      Ok opportunity
  end.

(** [new Date(str)] as the value of a column: Prisma refuses an Invalid Date. *)
Definition dateColumn (s field : string) : res Z :=
  match parseDate s with Some t => Ok t | None => Throw (PrismaClientValidationError field) end.

Definition createRfq_tx (c : Call) (input : CreateRfqRequest) (opportunity : OpportunityRow.t) : Tx RfqDetail :=
  let* dueAt := tlift (dateColumn (rq_dueAt input) "dueAt") in
  let* rfq := TradeRepositories.rfq_create {| ri_opportunityId := OpportunityRow.id opportunity; ri_status := Some Rfq.SENT; ri_dueAt := dueAt;
    ri_createdByUserId := Some (userId (actor c)); ri_createdByOrgId := organizationId (actor c) |} in
  let* version := rfqVersion_create {| rv_rfqId := RFQRow.id rfq; rv_versionNumber := 1; rv_packetType := rq_packetType input;
    rv_disclosureSnapshot := rq_disclosureSnapshot input; rv_changeSummary := None;
    rv_createdByUserId := Some (userId (actor c)); rv_createdByOrgId := organizationId (actor c) |} in
  let* recipients := tmapM (fun org => rfqRecipient_create {| rr_rfqId := RFQRow.id rfq; rr_providerOrgId := org;
    rr_createdByUserId := Some (userId (actor c)); rr_createdByOrgId := organizationId (actor c) |}) (rq_providerOrgIds input) in
  do* (if bool_decide (OpportunityRow.status opportunity = Opportunity.MATCH_READY)
       then do* tlift (Opportunity.assertValidOpportunityTransition "MATCH_READY" "INVITED");
            do* opportunity_updateStatus (OpportunityRow.id opportunity) Opportunity.INVITED (Some (userId (actor c))); tret tt
       else tret tt);
  let orgs := JArr (map JStr (rq_providerOrgIds input)) in
  do* auditWriter (context c) (audit_of c (Some (OpportunityRow.ownerOrgId opportunity)) "rfq.created" "rfq" (RFQRow.id rfq)
        (JObj [("opportunityId", JStr (OpportunityRow.id opportunity)); ("providerOrgIds", orgs);
               ("dueAt", JStr (toISOString (RFQRow.dueAt rfq)))]));
  do* timelineWriter (context c) (event_of c "rfq.sent" "rfq" (RFQRow.id rfq)
        (JObj [("opportunityId", JStr (OpportunityRow.id opportunity)); ("recipientOrgIds", orgs); ("versionNumber", JNum 1)]));
  tret {| f_rfq := rfq; f_merchantOrgId := OpportunityRow.ownerOrgId opportunity; f_version := Some version;
          f_recipients := recipients; f_quotes := [] |}.

(** ** decline *)

Definition notInvited : exn := notFound "You are not an invited recipient of this RFQ.".

Record InvitedPlan : Type := { ip_rfq : RFQRow.t; ip_opportunity : OpportunityRow.t; ip_recipient : RFQRecipientRow.t }.

(** The common start of [decline] and [submitQuote]: an invited provider whose
    invitation may move to [to]. *)
Definition invited_pre (c : Call) (action : Action) (x : string) (to : string) (db : Db) : res InvitedPlan :=
  let! (rfq, opportunity) := loadRfq db x in
  let recipient := myInvitation (actor c) x db in
  do! require (can (actor c) action (rfqResource rfq opportunity) (participant recipient));
  match recipient with
  | None => Throw notInvited
  | Some p =>
      do! RfqRecipient.assertValidRfqRecipientTransition (recipientStateName p) to;
      Ok {| ip_rfq := rfq; ip_opportunity := opportunity; ip_recipient := p |}
  end.

Definition decline_pre (c : Call) (x : string) (db : Db) : res InvitedPlan := invited_pre c rfq_decline x "DECLINED" db.

Definition decline_tx (c : Call) (declineReason : string) (p : InvitedPlan) : Tx RFQRecipientRow.t :=
  let rfq := RFQRow.id (ip_rfq p) in
  let provider := JStr (RFQRecipientRow.providerOrgId (ip_recipient p)) in
  let* updated := rfqRecipient_updateState (RFQRecipientRow.id (ip_recipient p)) RfqRecipient.DECLINED (Some (userId (actor c))) (Some declineReason) in
  do* auditWriter (context c) (audit_because c (Some (OpportunityRow.ownerOrgId (ip_opportunity p))) "rfq.declined" "rfq" rfq (Some declineReason)
        (JObj [("providerOrgId", provider)]));
  do* timelineWriter (context c) (event_of c "rfq.declined" "rfq" rfq (JObj [("providerOrgId", provider); ("declineReason", JStr declineReason)]));
  tret updated.

(** ** submitQuote *)

Definition submitQuote_pre (c : Call) (x : string) (db : Db) : res InvitedPlan := invited_pre c rfq_submit_quote x "QUOTED" db.

Definition freshRfq (x : string) : Tx RFQRow.t :=
  fun db =>
    match rfq_findById db x with
    | None => Throw (internal "RFQ disappeared mid-transaction.")
    | Some r => Ok (r, db)
    end.

Definition closedToQuotes : list Rfq.RfqStatus := [Rfq.SELECTED; Rfq.DECLINED; Rfq.EXPIRED].

(** [actor.organizationId!] *)
Definition actorOrg (c : Call) : res string :=
  match organizationId (actor c) with Some org => Ok org | None => Throw (PrismaClientValidationError "providerOrgId") end.

Definition submitQuote_body (c : Call) (input : SubmitQuoteRequest) (p : InvitedPlan) : Tx QuoteRow.t :=
  let user := Some (userId (actor c)) in
  let* fresh := freshRfq (RFQRow.id (ip_rfq p)) in
  do* tlift (throw_if (bool_decide (RFQRow.status fresh ∈ closedToQuotes)) (conflict ("This RFQ is no longer accepting quotes (status: " +:+ rfqStatusName fresh +:+ ").") false));
  let* quoteVersion := treads (fun db => nextQuoteVersion db (RFQRecipientRow.id (ip_recipient p))) in
  let* org := tlift (actorOrg c) in
  let* validUntil := tlift (dateColumn (uq_validUntil input) "validUntil") in
  let* quote := quote_create {| qi_rfqId := RFQRow.id (ip_rfq p); qi_rfqRecipientId := RFQRecipientRow.id (ip_recipient p);
    qi_providerOrgId := org; qi_quoteVersion := quoteVersion; qi_currency := uq_currency input; qi_validUntil := validUntil;
    qi_terms := uq_terms input; qi_createdByUserId := user; qi_createdByOrgId := organizationId (actor c) |} in
  do* (if bool_decide (RFQRecipientRow.state (ip_recipient p) = RfqRecipient.QUOTED) then tret tt
       else do* rfqRecipient_updateState (RFQRecipientRow.id (ip_recipient p)) RfqRecipient.QUOTED user None; tret tt);
  do* (if bool_decide (RFQRow.status fresh = Rfq.QUOTED) then tret tt
       else do* tlift (Rfq.assertValidRfqTransition (rfqStatusName fresh) "QUOTED");
            do* rfq_updateStatus (RFQRow.id (ip_rfq p)) Rfq.QUOTED user; tret tt);
  do* (if bool_decide (OpportunityRow.status (ip_opportunity p) = Opportunity.INVITED)
       then do* tlift (Opportunity.assertValidOpportunityTransition "INVITED" "QUOTED");
            do* opportunity_updateStatus (OpportunityRow.id (ip_opportunity p)) Opportunity.QUOTED user; tret tt
       else tret tt);
  let payload := JObj [("quoteId", JStr (QuoteRow.id quote)); ("providerOrgId", JOpt (organizationId (actor c))); ("quoteVersion", JNum quoteVersion)] in
  do* auditWriter (context c) (audit_of c (Some (OpportunityRow.ownerOrgId (ip_opportunity p))) "quote.submitted" "rfq" (RFQRow.id (ip_rfq p)) payload);
  do* timelineWriter (context c) (event_of c "quote.submitted" "rfq" (RFQRow.id (ip_rfq p)) payload);
  tret quote.

Definition submitQuote_tx (c : Call) (input : SubmitQuoteRequest) (p : InvitedPlan) : Tx QuoteRow.t :=
  uniqueSafe (submitQuote_body c input p) "A quote submission for this RFQ is already being processed — retry once it completes.".

(** ** withdrawQuote *)

Record QuotePlan : Type := { qp_rfq : RFQRow.t; qp_opportunity : OpportunityRow.t; qp_quote : QuoteRow.t; qp_considered : list string }.

Definition quoteOf (db : Db) (rfq : RFQRow.t) (quoteId : string) : res QuoteRow.t :=
  match quote_findById db quoteId with
  | None => Throw (notFound "Quote not found on this RFQ.")
  | Some q => if String.eqb (QuoteRow.rfqId q) (RFQRow.id rfq) then Ok q else Throw (notFound "Quote not found on this RFQ.")
  end.

Definition withdrawQuote_pre (c : Call) (x quoteId : string) (db : Db) : res QuotePlan :=
  let! (rfq, opportunity) := loadRfq db x in
  let! quote := quoteOf db rfq quoteId in
  do! require (can (actor c) rfq_withdraw_quote (rfqResource rfq opportunity) (participant (myInvitation (actor c) x db)));
  do! throw_if (negb (bool_decide (Some (QuoteRow.providerOrgId quote) = organizationId (actor c))))
        (forbidden "You may only withdraw your own quote.");
  do! Quote.assertValidQuoteTransition (quoteStatusName quote) "WITHDRAWN";
  Ok {| qp_rfq := rfq; qp_opportunity := opportunity; qp_quote := quote; qp_considered := [] |}.

(** The quote as read under the lock, which must still be allowed to move. *)
Definition freshQuote (x to : string) : Tx QuoteRow.t :=
  fun db =>
    match quote_findById db x with
    | None => Throw (internal "Quote disappeared mid-transaction.")
    | Some q => do! Quote.assertValidQuoteTransition (quoteStatusName q) to; Ok (q, db)
    end.

Definition withdrawQuote_tx (c : Call) (p : QuotePlan) : Tx QuoteRow.t :=
  let quote := qp_quote p in
  do* freshQuote (QuoteRow.id quote) "WITHDRAWN";
  let* updated := quote_updateStatus (QuoteRow.id quote) Quote.WITHDRAWN (Some (userId (actor c))) in
  do* auditWriter (context c) (audit_of c (Some (OpportunityRow.ownerOrgId (qp_opportunity p))) "quote.withdrawn" "rfq" (RFQRow.id (qp_rfq p))
        (JObj [("quoteId", JStr (QuoteRow.id quote))]));
  do* timelineWriter (context c) (event_of c "quote.withdrawn" "rfq" (RFQRow.id (qp_rfq p))
        (JObj [("quoteId", JStr (QuoteRow.id quote)); ("providerOrgId", JStr (QuoteRow.providerOrgId quote))]));
  tret updated.

(** ** selectQuote *)

Definition selectQuote_pre (c : Call) (x : string) (input : SelectQuoteRequest) (db : Db) : res QuotePlan :=
  let! (rfq, opportunity) := loadRfq db x in
  do! require (can (actor c) rfq_select_quote (rfqResource rfq opportunity) noContext);
  let! quote := quoteOf db rfq (xq_quoteId input) in
  do! Quote.assertValidQuoteTransition (quoteStatusName quote) "SELECTED";
  do! Rfq.assertValidRfqTransition (rfqStatusName rfq) "SELECTED";
  do! Opportunity.assertValidOpportunityTransition (opportunityStatusName opportunity) "SELECTED";
  Ok {| qp_rfq := rfq; qp_opportunity := opportunity; qp_quote := quote;
        qp_considered := map QuoteRow.id (quote_listByRfq db (RFQRow.id rfq)) |}.

Definition selectQuote_body (c : Call) (input : SelectQuoteRequest) (p : QuotePlan) : Tx DealRoomRow.t :=
  let user := Some (userId (actor c)) in
  let org := organizationId (actor c) in
  let rfq := RFQRow.id (qp_rfq p) in
  let opportunity := OpportunityRow.id (qp_opportunity p) in
  let merchant := OpportunityRow.ownerOrgId (qp_opportunity p) in
  do* freshQuote (QuoteRow.id (qp_quote p)) "SELECTED";
  let* selected := quote_updateStatus (QuoteRow.id (qp_quote p)) Quote.SELECTED user in
  let provider := QuoteRow.providerOrgId selected in
  let selectedId := JStr (QuoteRow.id selected) in
  do* rfq_updateStatus rfq Rfq.SELECTED user;
  do* opportunity_updateStatus opportunity Opportunity.SELECTED user;
  let* dealRoom := dealRoom_create {| dc_opportunityId := opportunity; dc_rfqId := rfq; dc_selectedQuoteId := QuoteRow.id selected;
    dc_merchantOrgId := merchant; dc_providerOrgId := provider; dc_createdByUserId := user; dc_createdByOrgId := org |} in
  let deal := DealRoomRow.id dealRoom in
  do* participant_create {| dp_dealRoomId := deal; dp_organizationId := merchant; dp_participantRole := ParticipantRole.MERCHANT;
    dp_createdByUserId := user; dp_createdByOrgId := org |};
  do* participant_create {| dp_dealRoomId := deal; dp_organizationId := provider; dp_participantRole := ParticipantRole.PROVIDER;
    dp_createdByUserId := user; dp_createdByOrgId := org |};
  let* decisionRow := decision_create {| dd_dealRoomId := deal; dd_decisionType := DealCondition.QUOTE_SELECTED; dd_reason := xq_reason input;
    dd_relatedQuoteId := Some (QuoteRow.id selected);
    dd_comparisonSnapshot := Some (JObj [("consideredQuoteIds", JArr (map JStr (qp_considered p))); ("selectedQuoteId", selectedId)]);
    dd_actorUserId := user; dd_actorOrgId := org; dd_actorRole := role (actor c); dd_createdByUserId := user; dd_createdByOrgId := org |} in
  do* auditWriter (context c) (audit_because c (Some merchant) "rfq.quote_selected" "rfq" rfq (Some (xq_reason input))
        (JObj [("selectedQuoteId", selectedId); ("dealRoomId", JStr deal)]));
  do* timelineWriter (context c) (event_of c "quote.selected" "rfq" rfq (JObj [("quoteId", selectedId); ("dealRoomId", JStr deal)]));
  do* timelineWriter (context c) (event_of c "deal.opened" "deal_room" deal
        (JObj [("opportunityId", JStr opportunity); ("rfqId", JStr rfq); ("selectedQuoteId", selectedId);
               ("merchantOrgId", JStr merchant); ("providerOrgId", JStr provider)]));
  do* timelineWriter (context c) (event_of c "deal.participant_added" "deal_room" deal
        (JObj [("organizationId", JStr merchant); ("participantRole", JStr "MERCHANT")]));
  do* timelineWriter (context c) (event_of c "deal.participant_added" "deal_room" deal
        (JObj [("organizationId", JStr provider); ("participantRole", JStr "PROVIDER")]));
  do* timelineWriter (context c) (event_of c "deal.decision_recorded" "deal_room" deal
        (JObj [("decisionId", JStr (DealDecisionRow.id decisionRow)); ("decisionType", JStr "QUOTE_SELECTED"); ("relatedQuoteId", selectedId)]));
  tret dealRoom.

Definition selectQuote_tx (c : Call) (input : SelectQuoteRequest) (p : QuotePlan) : Tx DealRoomRow.t :=
  uniqueSafe (selectQuote_body c input p) "This RFQ's quote selection is already being processed — retry once it completes.".

End Service.

(** * apps/worker/src/jobs/rfq-expiry.job.ts

    Expires an overdue request for quotes, one transaction each under the
    advisory lock on its identifier.  The sweep runs them one after another;
    here over one database, in a run each is a step of its own. *)
From S2P Require Import Receipt JsonText Idempotency.
From Stdlib Require Import Ascii.

Record RfqExpiryJobResult : Type := { x_scanned : Z; x_expired : Z }.

Definition EXPIRABLE_STATUSES : list Rfq.RfqStatus := [Rfq.SENT; Rfq.ACKNOWLEDGED; Rfq.QUESTIONS; Rfq.QUOTED].

Section Job.
Context `{Platform} (sha256_hex : list ascii -> string).

(** What runs under [withJobIdempotency]. *)
Definition expireRfq (x dueAtForKey : string) (fromStatus : Rfq.RfqStatus) : Tx Json :=
  let payload := JObj [("from", JStr (Rfq.RfqStatus_name fromStatus)); ("dueAt", JStr dueAtForKey)] in
  do* tlift (Rfq.assertValidRfqTransition (Rfq.RfqStatus_name fromStatus) "EXPIRED");
  do* rfq_updateStatus x Rfq.EXPIRED None;
  do* auditRepository_write
    {| a_actorUserId := None; a_actorOrgId := None; a_actorRole := None; a_subjectOrgId := None; a_action := "rfq.expired";
       a_resourceType := "rfq"; a_resourceId := Some x; a_beforeValue := None; a_afterValue := Some payload; a_reason := None |} None;
  do* domainEventRepository_write
    {| t_eventType := "rfq.expired"; t_aggregateType := "rfq"; t_aggregateId := x; t_payload := Some payload;
       t_actorUserId := None; t_actorOrgId := None; t_actorRole := None |} None;
  tret (JObj [("expired", JBool true)]).

Definition expireOne (x dueAtForKey : string) (now : Z) : Tx bool :=
  fun db =>
    match rfq_findById db x with
    | None => Ok (false, db)
    | Some fresh =>
        if negb (bool_decide (RFQRow.status fresh ∈ EXPIRABLE_STATUSES)) then Ok (false, db)
        else
          (do* withJobIdempotency sha256_hex
                 {| ji_scope := "worker.rfq-expiry"; ji_key := x +:+ ":" +:+ dueAtForKey;
                    ji_requestPayload := JObj [("rfqId", JStr x); ("dueAt", JStr dueAtForKey);
                                               ("fromStatus", JStr (Rfq.RfqStatus_name (RFQRow.status fresh)))] |}
                 now (expireRfq x dueAtForKey (RFQRow.status fresh));
           tret true) db
    end.

(** The reads of a job for one RFQ, before its transaction: the result when
    there is nothing to do, or the key's due date. *)
Definition expiryJob_pre (x : string) (now : Z) (db : Db) : RfqExpiryJobResult + string :=
  match rfq_findById db x with
  | None => inl {| x_scanned := 0; x_expired := 0 |}
  | Some rfq => if now <? RFQRow.dueAt rfq then inl {| x_scanned := 1; x_expired := 0 |} else inr (toISOString (RFQRow.dueAt rfq))
  end.

Definition expiryJob_tx (x : string) (now : Z) (p : RfqExpiryJobResult + string) : Tx RfqExpiryJobResult :=
  match p with
  | inl r => tret r
  | inr dueAt => let* expired := expireOne x dueAt now in tret {| x_scanned := 1; x_expired := if expired then 1 else 0 |}
  end.

(** The sweep: each [expireOne] commits before the next starts, and an error
    ends the sweep with what was committed so far. *)
Fixpoint expireEach (l : list RFQRow.t) (now : Z) (db : Db) : Db * res Z :=
  match l with
  | [] => (db, Ok 0)
  | rfq :: l' =>
      match expireOne (RFQRow.id rfq) (toISOString (RFQRow.dueAt rfq)) now db with
      | Throw e => (db, Throw e)
      | Ok (expired, db1) =>
          let (db2, n) := expireEach l' now db1 in
          (db2, let! n := n in Ok ((if expired then 1 else 0) + n))
      end
  end.

Definition rfqExpirySweep (now : Z) (db : Db) : Db * res RfqExpiryJobResult :=
  let overdue := rfq_listOverdue db now 500 in
  let (db', n) := expireEach overdue now db in
  (db', let! n := n in Ok {| x_scanned := Z.of_nat (length overdue); x_expired := n |}).

End Job.
