(* ===== verification/DealService.v ===== *)
(** * apps/api/src/modules/deals/service.ts

    What the two counterparties do in a deal room: conditions, decisions, and
    the reads. *)
From S2P Require Import Prelude StableSort DomainStates AuthzMatrix Authz JsonText Database ApiShared EconomicsRepositories.
From S2P Require Import TradeRepositories RfqService.
Import Roles Actions.

Record PostConditionRequest : Type := {
  pc_description : string;
  pc_ownerOrgId : string;
  pc_evidenceRef : option string;
  pc_dueAt : option string;
  pc_blocking : option bool
}.

(** [z.enum(["SATISFIED", "WAIVED", "REJECTED"])] *)
Inductive ResolvedState : Type := SATISFIED | WAIVED | REJECTED.

Definition resolvedState (s : ResolvedState) : DealCondition.DealConditionState :=
  match s with SATISFIED => DealCondition.SATISFIED | WAIVED => DealCondition.WAIVED | REJECTED => DealCondition.REJECTED end.

Record ResolveConditionRequest : Type := { vc_state : ResolvedState; vc_resolutionNote : option string }.

(** [z.enum(["APPROVAL", "DECLINE", "EXCEPTION"])] *)
Inductive RecordedDecision : Type := APPROVAL | DECLINE | EXCEPTION.

Definition recordedDecision (d : RecordedDecision) : DealCondition.DealDecisionType :=
  match d with APPROVAL => DealCondition.APPROVAL | DECLINE => DealCondition.DECLINE | EXCEPTION => DealCondition.EXCEPTION end.

Record RecordDecisionRequest : Type := { dq_decisionType : RecordedDecision; dq_reason : string }.

Definition CROSS_ORG_DEAL_ROLES : list PersonaRole := [PLATFORM_OWNER; MARKETPLACE_OPERATOR; COMPLIANCE_REVIEWER; AUDITOR_READONLY].

Record DealRoomDetail : Type := {
  g_dealRoom : DealRoomRow.t;
  g_participants : list DealRoomParticipantRow.t;
  g_conditions : list DealConditionRow.t;
  g_decisions : list DealDecisionRow.t
}.

Definition dealStatusName (d : DealRoomRow.t) : string := DealRoom.DealRoomStatus_name (DealRoomRow.status d).

Definition loadDealRoomAndAuthContext (a : Actor) (x : string) (db : Db) : res (DealRoomRow.t * bool) :=
  match dealRoom_findById db x with
  | None => Throw (notFound "Deal room not found.")
  | Some dealRoom =>
      Ok (dealRoom, bool_decide (is_Some (when_present (organizationId a) (participant_findByDealRoomAndOrg db x) None)))
  end.

(** Load the room and ask [can] about it. *)
Definition authorizedRoom (a : Actor) (action : Action) (x : string) (db : Db) : res DealRoomRow.t :=
  let! (dealRoom, isParticipant) := loadDealRoomAndAuthContext a x db in
  do! require (can a action (resourceOf ResourceType.deal_room (DealRoomRow.id dealRoom) (Some (DealRoomRow.merchantOrgId dealRoom)))
                 {| isSelf := None; isParticipant := Some isParticipant |});
  Ok dealRoom.

(** ** The reads *)

Definition dealsService_getById (a : Actor) (x : string) (db : Db) : res DealRoomDetail :=
  let! dealRoom := authorizedRoom a deal_read x db in
  Ok {| g_dealRoom := dealRoom; g_participants := participant_listByDealRoom db x; g_conditions := condition_listByDealRoom db x;
        g_decisions := decision_listByDealRoom db x |}.

Definition dealsService_list (a : Actor) (db : Db) : res (list DealRoomRow.t) :=
  do! require (can a deal_list (resource ResourceType.deal_room (organizationId a)) {| isSelf := None; isParticipant := Some true |});
  if has_role CROSS_ORG_DEAL_ROLES (role a) then Ok (dealRoom_list db)
  else Ok (when_present (organizationId a) (dealRoom_listByOrg db) []).

Definition dealsService_getTimeline (a : Actor) (x : string) (db : Db) : res (list DomainEventRow.t) :=
  let! dealRoom := authorizedRoom a deal_read x db in
  Ok (domainEvent_listByAggregates db [("deal_room", DealRoomRow.id dealRoom); ("rfq", DealRoomRow.rfqId dealRoom)]).

Section Service.
Context `{Platform}.

(** ** postCondition *)

Definition postCondition_pre (c : Call) (x : string) (input : PostConditionRequest) (db : Db) : res DealRoomRow.t :=
  let! dealRoom := authorizedRoom (actor c) deal_post_condition x db in
  do! throw_if (negb (String.eqb (pc_ownerOrgId input) (DealRoomRow.merchantOrgId dealRoom))
                && negb (String.eqb (pc_ownerOrgId input) (DealRoomRow.providerOrgId dealRoom)))
        (badRequest "ownerOrgId must be one of this deal room's two counterparties.");
  Ok dealRoom.

Definition freshDealRoom (x : string) : Tx DealRoomRow.t :=
  fun db =>
    match dealRoom_findById db x with
    | None => Throw (internal "Deal room disappeared mid-transaction.")
    | Some d => Ok (d, db)
    end.

Definition postCondition_tx (c : Call) (input : PostConditionRequest) (dealRoom : DealRoomRow.t) : Tx DealConditionRow.t :=
  let deal := DealRoomRow.id dealRoom in
  let* dueAt := tlift (when_present (pc_dueAt input) (fun s => let! t := dateColumn s "dueAt" in Ok (Some t)) (Ok None)) in
  let* condition := condition_create {| dn_dealRoomId := deal; dn_description := pc_description input; dn_ownerOrgId := pc_ownerOrgId input;
    dn_evidenceRef := pc_evidenceRef input; dn_dueAt := dueAt; dn_blocking := Some (default true (pc_blocking input));
    dn_createdByUserId := Some (userId (actor c)); dn_createdByOrgId := organizationId (actor c) |} in
  let* fresh := freshDealRoom deal in
  let stageChanged := bool_decide (DealRoomRow.status fresh = DealRoom.OPEN) in
  do* (if stageChanged
       then do* tlift (DealRoom.assertValidDealRoomTransition "OPEN" "CONDITIONS");
            do* dealRoom_updateStatus deal DealRoom.CONDITIONS (Some (userId (actor c))); tret tt
       else tret tt);
  let payload := JObj [("conditionId", JStr (DealConditionRow.id condition)); ("ownerOrgId", JStr (DealConditionRow.ownerOrgId condition));
                       ("blocking", JBool (DealConditionRow.blocking condition))] in
  do* auditWriter (context c) (audit_of c (Some (DealRoomRow.merchantOrgId dealRoom)) "deal.condition_posted" "deal_room" deal payload);
  do* timelineWriter (context c) (event_of c "deal.condition_created" "deal_room" deal payload);
  do* (if stageChanged
       then do* timelineWriter (context c) (event_of c "deal.stage_changed" "deal_room" deal
                  (JObj [("from", JStr "OPEN"); ("to", JStr "CONDITIONS")])); tret tt
       else tret tt);
  tret condition.

(** ** resolveCondition *)

Definition conditionStateName (n : DealConditionRow.t) : string := DealCondition.DealConditionState_name (DealConditionRow.state n).

Definition assertResolvable (n : DealConditionRow.t) (s : ResolvedState) : res unit :=
  DealCondition.assertValidDealConditionTransition (conditionStateName n) (DealCondition.DealConditionState_name (resolvedState s)).

Definition resolveCondition_pre (c : Call) (x conditionId : string) (input : ResolveConditionRequest) (db : Db) : res (DealRoomRow.t * DealConditionRow.t) :=
  let! dealRoom := authorizedRoom (actor c) deal_resolve_condition x db in
  match condition_findById db conditionId with
  | None => Throw (notFound "Condition not found on this deal room.")
  | Some condition =>
      do! throw_if (negb (String.eqb (DealConditionRow.dealRoomId condition) (DealRoomRow.id dealRoom)))
            (notFound "Condition not found on this deal room.");
      do! assertResolvable condition (vc_state input);
      Ok (dealRoom, condition)
  end.

Definition freshCondition (x : string) (s : ResolvedState) : Tx DealConditionRow.t :=
  fun db =>
    match condition_findById db x with
    | None => Throw (internal "Condition disappeared mid-transaction.")
    | Some n => do! assertResolvable n s; Ok (n, db)
    end.

Definition audit_change (c : Call) (subject : option string) (action resourceType resourceId : string) (why : option string) (before after : Json)
    : AuditWriteInput :=
  {| a_actorUserId := Some (userId (actor c)); a_actorOrgId := organizationId (actor c); a_actorRole := role (actor c);
     a_subjectOrgId := subject; a_action := action; a_resourceType := resourceType; a_resourceId := Some resourceId;
     a_beforeValue := Some before; a_afterValue := Some after; a_reason := why |}.

Definition resolveCondition_tx (c : Call) (input : ResolveConditionRequest) (p : DealRoomRow.t * DealConditionRow.t) : Tx DealConditionRow.t :=
  let (dealRoom, condition) := p in
  do* freshCondition (DealConditionRow.id condition) (vc_state input);
  let* updated := condition_updateState (DealConditionRow.id condition) (resolvedState (vc_state input)) (vc_resolutionNote input)
                    (Some (userId (actor c))) in
  do* auditWriter (context c) (audit_change c (Some (DealRoomRow.merchantOrgId dealRoom)) "deal.condition_resolved" "deal_room" (DealRoomRow.id dealRoom)
        (vc_resolutionNote input) (JObj [("state", JStr (conditionStateName condition))]) (JObj [("state", JStr (conditionStateName updated))]));
  do* timelineWriter (context c) (event_of c "deal.condition_resolved" "deal_room" (DealRoomRow.id dealRoom)
        (JObj [("conditionId", JStr (DealConditionRow.id updated)); ("state", JStr (conditionStateName updated))]));
  tret updated.

(** ** recordDecision *)

Definition computeNextStatus (d : RecordedDecision) (current : DealRoom.DealRoomStatus) : option DealRoom.DealRoomStatus :=
  match d, current with
  | APPROVAL, (DealRoom.OPEN | DealRoom.CONDITIONS) => Some DealRoom.APPROVED
  | DECLINE, (DealRoom.OPEN | DealRoom.CONDITIONS) => Some DealRoom.DECLINED
  | _, _ => None
  end.

Definition assertStage (dealRoom : DealRoomRow.t) (next : option DealRoom.DealRoomStatus) : res unit :=
  match next with
  | Some s => DealRoom.assertValidDealRoomTransition (dealStatusName dealRoom) (DealRoom.DealRoomStatus_name s)
  | None => Ok tt
  end.

Definition recordDecision_pre (c : Call) (x : string) (input : RecordDecisionRequest) (db : Db) : res DealRoomRow.t :=
  let! dealRoom := authorizedRoom (actor c) deal_record_decision x db in
  do! assertStage dealRoom (computeNextStatus (dq_decisionType input) (DealRoomRow.status dealRoom));
  Ok dealRoom.

Definition recordDecision_tx (c : Call) (input : RecordDecisionRequest) (dealRoom : DealRoomRow.t) : Tx DealDecisionRow.t :=
  let deal := DealRoomRow.id dealRoom in
  let* fresh := freshDealRoom deal in
  let nextStatus := computeNextStatus (dq_decisionType input) (DealRoomRow.status fresh) in
  do* tlift (assertStage fresh nextStatus);
  let* decisionRow := decision_create {| dd_dealRoomId := deal; dd_decisionType := recordedDecision (dq_decisionType input);
    dd_reason := dq_reason input; dd_relatedQuoteId := None; dd_comparisonSnapshot := None; dd_actorUserId := Some (userId (actor c));
    dd_actorOrgId := organizationId (actor c); dd_actorRole := role (actor c);
    dd_createdByUserId := Some (userId (actor c)); dd_createdByOrgId := organizationId (actor c) |} in
  do* (match nextStatus with
       | Some s => do* dealRoom_updateStatus deal s (Some (userId (actor c))); tret tt
       | None => tret tt
       end);
  let typeName := JStr (DealCondition.DealDecisionType_name (recordedDecision (dq_decisionType input))) in
  do* auditWriter (context c) (audit_because c (Some (DealRoomRow.merchantOrgId dealRoom)) "deal.decision_recorded" "deal_room" deal
        (Some (dq_reason input))
        (JObj [("decisionId", JStr (DealDecisionRow.id decisionRow)); ("decisionType", typeName);
               ("nextStatus", JOpt (DealRoom.DealRoomStatus_name <$> nextStatus))]));
  do* timelineWriter (context c) (event_of c "deal.decision_recorded" "deal_room" deal
        (JObj [("decisionId", JStr (DealDecisionRow.id decisionRow)); ("decisionType", typeName)]));
  do* (match nextStatus with
       | Some s => do* timelineWriter (context c) (event_of c "deal.stage_changed" "deal_room" deal
                     (JObj [("from", JStr (dealStatusName fresh)); ("to", JStr (DealRoom.DealRoomStatus_name s))])); tret tt
       | None => tret tt
       end);
  tret decisionRow.

End Service.
