(* ===== verification/TradeSpec.v ===== *)
(** * What the RFQ and deal services promise

    The market without tables: requests for quotes, invitations, offers, deals
    with their members, conditions and rulings.  [market_step] is one act of
    the services on it; [market_ok] what every market keeps, and [market_later]
    what one market may become, are shown by rule induction.  The services
    refine it ([TradeTheorems]). *)
From S2P Require Import Prelude Lifecycle DomainStates Database Tables.
From stdpp Require Import relations.
#[local] Open Scope Z_scope.

Record Request : Type := { rq_opportunity : string; rq_merchant : option string; rq_status : Rfq.RfqStatus }.
Record Invitation : Type := { in_request : string; in_provider : string; in_state : RfqRecipient.RfqRecipientState }.
Record Offer : Type := { of_request : string; of_invitation : string; of_provider : string; of_version : Z; of_status : Quote.QuoteStatus }.
Record Deal : Type := { de_request : string; de_offer : string; de_merchant : string; de_provider : string; de_stage : DealRoom.DealRoomStatus }.
Record Member : Type := { me_deal : string; me_org : string; me_role : ParticipantRole.t }.
Record Condition : Type := { cn_deal : string; cn_owner : string; cn_state : DealCondition.DealConditionState }.
Record Ruling : Type := { ru_deal : string; ru_type : DealCondition.DealDecisionType; ru_offer : option string }.

Record Market : Type := {
  requests : gmap string Request;
  invitations : gmap string Invitation;
  offers : gmap string Offer;
  deals : gmap string Deal;
  members : gmap string Member;
  conditions : gmap string Condition;
  rulings : gmap string Ruling
}.

(** ** Changes of one row *)

Definition at_status (st : Rfq.RfqStatus) (r : Request) : Request :=
  {| rq_opportunity := rq_opportunity r; rq_merchant := rq_merchant r; rq_status := st |}.
Definition answered_as (st : RfqRecipient.RfqRecipientState) (i : Invitation) : Invitation :=
  {| in_request := in_request i; in_provider := in_provider i; in_state := st |}.
Definition offered_as (st : Quote.QuoteStatus) (o : Offer) : Offer :=
  {| of_request := of_request o; of_invitation := of_invitation o; of_provider := of_provider o; of_version := of_version o; of_status := st |}.
Definition at_stage (st : DealRoom.DealRoomStatus) (d : Deal) : Deal :=
  {| de_request := de_request d; de_offer := de_offer d; de_merchant := de_merchant d; de_provider := de_provider d; de_stage := st |}.
Definition resolved_as (st : DealCondition.DealConditionState) (n : Condition) : Condition :=
  {| cn_deal := cn_deal n; cn_owner := cn_owner n; cn_state := st |}.

Definition with_requests (t : gmap string Request) (m : Market) : Market :=
  {| requests := t; invitations := invitations m; offers := offers m; deals := deals m; members := members m; conditions := conditions m; rulings := rulings m |}.
Definition with_invitations (t : gmap string Invitation) (m : Market) : Market :=
  {| requests := requests m; invitations := t; offers := offers m; deals := deals m; members := members m; conditions := conditions m; rulings := rulings m |}.
Definition with_offers (t : gmap string Offer) (m : Market) : Market :=
  {| requests := requests m; invitations := invitations m; offers := t; deals := deals m; members := members m; conditions := conditions m; rulings := rulings m |}.
Definition with_deals (t : gmap string Deal) (m : Market) : Market :=
  {| requests := requests m; invitations := invitations m; offers := offers m; deals := t; members := members m; conditions := conditions m; rulings := rulings m |}.
Definition with_members (t : gmap string Member) (m : Market) : Market :=
  {| requests := requests m; invitations := invitations m; offers := offers m; deals := deals m; members := t; conditions := conditions m; rulings := rulings m |}.
Definition with_conditions (t : gmap string Condition) (m : Market) : Market :=
  {| requests := requests m; invitations := invitations m; offers := offers m; deals := deals m; members := members m; conditions := t; rulings := rulings m |}.
Definition with_rulings (t : gmap string Ruling) (m : Market) : Market :=
  {| requests := requests m; invitations := invitations m; offers := offers m; deals := deals m; members := members m; conditions := conditions m; rulings := t |}.

(** ** Keys *)

Definition invitation_key (i : Invitation) : option (string * string) := Some (in_request i, in_provider i).
Definition offer_key (o : Offer) : option (string * Z) := Some (of_invitation o, of_version o).
Definition deal_key (d : Deal) : option string := Some (de_request d).
Definition member_key (e : Member) : option (string * string) := Some (me_deal e, me_org e).
(** a deal is opened by one selection only *)
Definition ruling_key (u : Ruling) : option string :=
  match ru_type u with DealCondition.QUOTE_SELECTED => Some (ru_deal u) | _ => None end.

Definition party (d : Deal) (org : string) : Prop := org = de_merchant d \/ org = de_provider d.

Definition closed : list Rfq.RfqStatus := [Rfq.SELECTED; Rfq.DECLINED; Rfq.EXPIRED].

(** What selecting an offer writes. *)
Record Selection : Type := { se_deal : string; se_merchant_member : string; se_provider_member : string; se_ruling : string }.

Definition selected (k : Selection) (x : string) (o : Offer) (r : Request) (merchant : string) (m : Market) : Market :=
  {| requests := <[of_request o := at_status Rfq.SELECTED r]> (requests m);
     invitations := invitations m;
     offers := <[x := offered_as Quote.SELECTED o]> (offers m);
     deals := <[se_deal k := {| de_request := of_request o; de_offer := x; de_merchant := merchant; de_provider := of_provider o;
                                de_stage := DealRoom.OPEN |}]> (deals m);
     members := <[se_provider_member k := {| me_deal := se_deal k; me_org := of_provider o; me_role := ParticipantRole.PROVIDER |}]>
                  (<[se_merchant_member k := {| me_deal := se_deal k; me_org := merchant; me_role := ParticipantRole.MERCHANT |}]> (members m));
     conditions := conditions m;
     rulings := <[se_ruling k := {| ru_deal := se_deal k; ru_type := DealCondition.QUOTE_SELECTED; ru_offer := Some x |}]> (rulings m) |}.

(** ** One act *)

Inductive market_step : Market -> Market -> Prop :=
| step_request m x r :
    requests m !! x = None -> rq_status r = Rfq.SENT -> is_Some (rq_merchant r) ->
    market_step m (with_requests (<[x := r]> (requests m)) m)
| step_invite m x i :
    invitations m !! x = None -> is_Some (requests m !! in_request i) -> in_state i = RfqRecipient.INVITED ->
    free invitation_key (invitations m) (in_request i, in_provider i) ->
    market_step m (with_invitations (<[x := i]> (invitations m)) m)
| step_answer m x i st :
    invitations m !! x = Some i -> st ∈ [RfqRecipient.DECLINED; RfqRecipient.QUOTED] ->
    market_step m (with_invitations (<[x := answered_as st i]> (invitations m)) m)
| step_offer m x o i r :
    offers m !! x = None -> invitations m !! of_invitation o = Some i -> of_request o = in_request i -> of_provider o = in_provider i ->
    requests m !! of_request o = Some r -> rq_status r ∉ closed -> of_status o = Quote.SUBMITTED -> 1 <= of_version o ->
    free offer_key (offers m) (of_invitation o, of_version o) ->
    market_step m (with_offers (<[x := o]> (offers m)) m)
| step_status m x r st :
    requests m !! x = Some r -> edge (rq_status r) st -> st ∈ [Rfq.QUOTED; Rfq.EXPIRED] ->
    market_step m (with_requests (<[x := at_status st r]> (requests m)) m)
| step_withdraw m x o :
    offers m !! x = Some o -> of_status o = Quote.SUBMITTED ->
    market_step m (with_offers (<[x := offered_as Quote.WITHDRAWN o]> (offers m)) m)
| step_select m k x o r merchant :
    offers m !! x = Some o -> of_status o = Quote.SUBMITTED -> requests m !! of_request o = Some r -> rq_merchant r = Some merchant ->
    merchant <> of_provider o -> free deal_key (deals m) (of_request o) ->
    deals m !! se_deal k = None -> members m !! se_merchant_member k = None -> members m !! se_provider_member k = None ->
    se_merchant_member k <> se_provider_member k -> rulings m !! se_ruling k = None ->
    market_step m (selected k x o r merchant m)
| step_condition m x n d :
    conditions m !! x = None -> deals m !! cn_deal n = Some d -> party d (cn_owner n) -> cn_state n = DealCondition.PENDING ->
    market_step m (with_conditions (<[x := n]> (conditions m)) m)
| step_resolve m x n st :
    conditions m !! x = Some n -> edge (cn_state n) st ->
    market_step m (with_conditions (<[x := resolved_as st n]> (conditions m)) m)
| step_ruling m x u d :
    rulings m !! x = None -> deals m !! ru_deal u = Some d -> ru_type u <> DealCondition.QUOTE_SELECTED -> ru_offer u = None ->
    market_step m (with_rulings (<[x := u]> (rulings m)) m)
| step_stage m x d st :
    deals m !! x = Some d -> edge (de_stage d) st ->
    market_step m (with_deals (<[x := at_stage st d]> (deals m)) m).

(** ** What one market may become *)


Definition request_columns (r : Request) := (rq_opportunity r, rq_merchant r).
Definition invitation_columns (i : Invitation) := (in_request i, in_provider i).
Definition offer_columns (o : Offer) := (of_request o, of_invitation o, of_provider o, of_version o).
Definition deal_columns (d : Deal) := (de_request d, de_offer d, de_merchant d, de_provider d).
Definition condition_columns (n : Condition) := (cn_deal n, cn_owner n).

(** A selected request, an offer that is no longer SUBMITTED, members and
    rulings never change; deals and conditions move along their tables. *)
Definition request_later (r r' : Request) : Prop :=
  request_columns r' = request_columns r /\ (rq_status r = Rfq.SELECTED -> r' = r).
Definition invitation_later (i i' : Invitation) : Prop := invitation_columns i' = invitation_columns i.
Definition offer_later (o o' : Offer) : Prop :=
  offer_columns o' = offer_columns o /\ (of_status o <> Quote.SUBMITTED -> o' = o).
Definition deal_later (d d' : Deal) : Prop :=
  deal_columns d' = deal_columns d /\ reachable (de_stage d) (de_stage d').
Definition condition_later (n n' : Condition) : Prop :=
  condition_columns n' = condition_columns n /\ reachable (cn_state n) (cn_state n').

#[export] Instance request_later_pre : PreOrder request_later.
Proof. split; [done|]. intros r1 r2 r3 [A1 A2] [B1 B2]. split; [congruence|]. intros E. rewrite (A2 E) in *. auto. Qed.
#[export] Instance invitation_later_pre : PreOrder invitation_later.
Proof. split; [done|]. intros ???. unfold invitation_later. congruence. Qed.
#[export] Instance offer_later_pre : PreOrder offer_later.
Proof. split; [done|]. intros r1 r2 r3 [A1 A2] [B1 B2]. split; [congruence|]. intros E. rewrite (A2 E) in *. auto. Qed.
#[export] Instance deal_later_pre : PreOrder deal_later.
Proof. split; [by split|]. intros d1 d2 d3 [A1 A2] [B1 B2]. split; [congruence|by etransitivity]. Qed.
#[export] Instance condition_later_pre : PreOrder condition_later.
Proof. split; [by split|]. intros d1 d2 d3 [A1 A2] [B1 B2]. split; [congruence|by etransitivity]. Qed.

Record market_later (m m' : Market) : Prop := {
  ml_requests : map_later request_later (requests m) (requests m');
  ml_invitations : map_later invitation_later (invitations m) (invitations m');
  ml_offers : map_later offer_later (offers m) (offers m');
  ml_deals : map_later deal_later (deals m) (deals m');
  ml_members : map_later eq (members m) (members m');
  ml_conditions : map_later condition_later (conditions m) (conditions m');
  ml_rulings : map_later eq (rulings m) (rulings m')
}.

#[export] Instance market_later_pre : PreOrder market_later.
Proof.
  split; [intros m; split; reflexivity|]. intros m1 m2 m3 [] []. split; by etransitivity.
Qed.

#[local] Hint Resolve map_later_new same_rows : market.

Ltac same_tables := split; cbn; try (apply same_rows; apply _).

Lemma market_step_later m m' : market_step m m' -> market_later m m'.
Proof.
  destruct 1 as [m x r Hx _ _|m x i Hx _ _ _|m x i st Hx _|m x o i r Hx _ _ _ _ _ _ _ _|m x r st Hx He _|m x o Hx Hst
    |m k x o r merchant Ho Hst Hr Hm Hne Hf Hd Hm1 Hm2 Hmm Hu|m x n d Hx _ _ _|m x n st Hx He|m x u d Hx _ _ _|m x d st Hx He];
    same_tables; try (by apply (map_later_new _ _ _ _ Hx)).
  - by apply (map_later_set _ _ _ _ _ Hx).
  - apply (map_later_set _ _ _ _ _ Hx). split; [done|]. intros E. rewrite E in He. by apply elem_of_nil in He.
  - apply (map_later_set _ _ _ _ _ Hx). split; [done|]. congruence.
  - apply (map_later_set _ _ _ _ _ Hr). split; [done|]. intros E. destruct r; unfold at_status; simpl in *; congruence.
  - apply (map_later_set _ _ _ _ _ Ho). split; [done|]. congruence.
  - exact (map_later_new _ _ _ _ Hd).
  - exact (map_later_new2 _ _ _ _ _ _ Hm1 Hm2 Hmm).
  - exact (map_later_new _ _ _ _ Hu).
  - apply (map_later_set _ _ _ _ _ Hx). split; [done|]. by apply rtc_once.
  - apply (map_later_set _ _ _ _ _ Hx). split; [done|]. by apply rtc_once.
Qed.

Lemma market_run_later m m' : rtc market_step m m' -> market_later m m'.
Proof. induction 1 as [m|m m1 m2 St _ IH]; [done|]. etransitivity; [by apply market_step_later|done]. Qed.

(** ** What every market keeps *)

Definition request_ok (m : Market) (x : string) (r : Request) : Prop :=
  is_Some (rq_merchant r) /\ (rq_status r = Rfq.SELECTED -> exists y d, deals m !! y = Some d /\ de_request d = x).

Definition invitation_ok (m : Market) (i : Invitation) : Prop := is_Some (requests m !! in_request i).

Definition offer_ok (m : Market) (x : string) (o : Offer) : Prop :=
  (exists i, invitations m !! of_invitation o = Some i /\ of_request o = in_request i /\ of_provider o = in_provider i) /\
  1 <= of_version o /\
  (of_status o = Quote.SELECTED -> exists y d, deals m !! y = Some d /\ de_offer d = x).

(** A deal was opened by selecting an offer of its request, between the
    merchant of the request and the provider of the offer. *)
Record deal_ok (m : Market) (y : string) (d : Deal) : Prop := {
  dk_offer : exists o, offers m !! de_offer d = Some o /\ of_status o = Quote.SELECTED /\
    of_request o = de_request d /\ of_provider o = de_provider d;
  dk_request : exists r, requests m !! de_request d = Some r /\ rq_status r = Rfq.SELECTED /\ rq_merchant r = Some (de_merchant d);
  dk_parties : de_merchant d <> de_provider d;
  dk_merchant : exists a, members m !! a = Some {| me_deal := y; me_org := de_merchant d; me_role := ParticipantRole.MERCHANT |};
  dk_provider : exists a, members m !! a = Some {| me_deal := y; me_org := de_provider d; me_role := ParticipantRole.PROVIDER |};
  dk_ruling : exists a, rulings m !! a = Some {| ru_deal := y; ru_type := DealCondition.QUOTE_SELECTED; ru_offer := Some (de_offer d) |}
}.

Definition member_ok (m : Market) (e : Member) : Prop :=
  exists d, deals m !! me_deal e = Some d /\
    (me_org e = de_merchant d /\ me_role e = ParticipantRole.MERCHANT \/ me_org e = de_provider d /\ me_role e = ParticipantRole.PROVIDER).

Definition condition_ok (m : Market) (n : Condition) : Prop := exists d, deals m !! cn_deal n = Some d /\ party d (cn_owner n).

Definition ruling_ok (m : Market) (u : Ruling) : Prop :=
  exists d, deals m !! ru_deal u = Some d /\
    ru_offer u = match ru_type u with DealCondition.QUOTE_SELECTED => Some (de_offer d) | _ => None end.

Record market_ok (m : Market) : Prop := {
  mk_requests : map_Forall (request_ok m) (requests m);
  mk_invitations : map_Forall (fun _ => invitation_ok m) (invitations m);
  mk_offers : map_Forall (offer_ok m) (offers m);
  mk_deals : map_Forall (deal_ok m) (deals m);
  mk_members : map_Forall (fun _ => member_ok m) (members m);
  mk_conditions : map_Forall (fun _ => condition_ok m) (conditions m);
  mk_rulings : map_Forall (fun _ => ruling_ok m) (rulings m);
  mk_one_invitation : unique invitation_key (invitations m);
  mk_one_version : unique offer_key (offers m);
  mk_one_deal : unique deal_key (deals m);
  mk_one_member : unique member_key (members m);
  mk_one_selection : unique ruling_key (rulings m)
}.

(** *** Each clause survives later changes of the other rows *)

Section Stable.
Context {m m' : Market} (L : market_later m m').

Lemma deal_stays y d : deals m !! y = Some d -> exists d', deals m' !! y = Some d' /\ deal_columns d' = deal_columns d.
Proof using L. intros (d' & Hd & E & _)%(ml_deals _ _ L). eauto. Qed.

Lemma request_stable x r : request_ok m x r -> request_ok m' x r.
Proof using L.
  intros [Hm Hs]. split; [done|]. intros (y & d & Hd & E)%Hs. destruct (deal_stays y d Hd) as (d' & Hd' & [=]). exists y, d'. split; [done|congruence].
Qed.

Lemma invitation_stable i : invitation_ok m i -> invitation_ok m' i.
Proof using L. intros [r (r' & Hr & _)%(ml_requests _ _ L)]. by exists r'. Qed.

Lemma offer_stable x o : offer_ok m x o -> offer_ok m' x o.
Proof using L.
  intros ((i & Hi & E1 & E2) & Hv & Hs). apply (ml_invitations _ _ L) in Hi as (i' & Hi & [= E3 E4]). split_and!; [|done|].
  - exists i'. split_and!; [done|congruence..].
  - intros (y & d & Hd & E)%Hs. destruct (deal_stays y d Hd) as (d' & Hd' & [=]). exists y, d'. split; [done|congruence].
Qed.

Lemma deal_stable y d : deal_ok m y d -> deal_ok m' y d.
Proof using L.
  intros [(o & Ho & Eo & E1 & E2) (r & Hr & Er & E3) Hne (a & Ha) (b & Hb) (u & Hu)].
  apply (ml_offers _ _ L) in Ho as (o' & Ho & _ & Fo). apply (ml_requests _ _ L) in Hr as (r' & Hr & _ & Fr).
  apply (ml_members _ _ L) in Ha as (? & Ha & <-), Hb as (? & Hb & <-). apply (ml_rulings _ _ L) in Hu as (? & Hu & <-).
  rewrite (Fr Er) in Hr. rewrite Fo in Ho by congruence. split; eauto.
Qed.

Lemma member_stable e : member_ok m e -> member_ok m' e.
Proof using L. intros (d & Hd & E). destruct (deal_stays _ _ Hd) as (d' & Hd' & [=]). exists d'. split; [done|]. naive_solver congruence. Qed.

Lemma condition_stable n : condition_ok m n -> condition_ok m' n.
Proof using L. intros (d & Hd & E). destruct (deal_stays _ _ Hd) as (d' & Hd' & [=]). exists d'. split; [done|]. unfold party in *. naive_solver congruence. Qed.

Lemma ruling_stable u : ruling_ok m u -> ruling_ok m' u.
Proof using L.
  intros (d & Hd & E). destruct (deal_stays _ _ Hd) as (d' & Hd' & [=]). exists d'. split; [done|]. rewrite E. by destruct (ru_type u); f_equal.
Qed.
End Stable.

(** *** The rule induction *)

(** Closes a clause about a table the step leaves alone. *)
Ltac kept K L :=
  first
  [ exact (mk_one_invitation _ K) | exact (mk_one_version _ K) | exact (mk_one_deal _ K) | exact (mk_one_member _ K) | exact (mk_one_selection _ K)
  | exact (map_Forall_impl _ _ _ (mk_requests _ K) (fun x r => request_stable L x r))
  | exact (map_Forall_impl _ _ _ (mk_invitations _ K) (fun x i => invitation_stable L i))
  | exact (map_Forall_impl _ _ _ (mk_offers _ K) (fun x o => offer_stable L x o))
  | exact (map_Forall_impl _ _ _ (mk_deals _ K) (fun x d => deal_stable L x d))
  | exact (map_Forall_impl _ _ _ (mk_members _ K) (fun x e => member_stable L e))
  | exact (map_Forall_impl _ _ _ (mk_conditions _ K) (fun x n => condition_stable L n))
  | exact (map_Forall_impl _ _ _ (mk_rulings _ K) (fun x u => ruling_stable L u)) ].

(** ... and, for a table with one new or changed row, leaves that row. *)
Ltac one_row K L := first [kept K L | apply map_Forall_insert_2; [|kept K L]].

Lemma step_request_ok m x r : market_ok m -> requests m !! x = None -> rq_status r = Rfq.SENT -> is_Some (rq_merchant r) ->
  market_ok (with_requests (<[x := r]> (requests m)) m).
Proof.
  intros K Hx Hs Hm. pose proof (market_step_later _ _ (step_request m x r Hx Hs Hm)) as L. split; cbn; one_row K L.
  split; [done|]. congruence.
Qed.

Lemma step_invite_ok m x i : market_ok m -> invitations m !! x = None -> is_Some (requests m !! in_request i) ->
  in_state i = RfqRecipient.INVITED -> free invitation_key (invitations m) (in_request i, in_provider i) ->
  market_ok (with_invitations (<[x := i]> (invitations m)) m).
Proof.
  intros K Hx Hr Hs Hf. pose proof (market_step_later _ _ (step_invite m x i Hx Hr Hs Hf)) as L. split; cbn; try one_row K L.
  - exact Hr.
  - apply unique_new; [exact (mk_one_invitation _ K)|]. by intros k [= <-].
Qed.

Lemma step_answer_ok m x i st : market_ok m -> invitations m !! x = Some i -> st ∈ [RfqRecipient.DECLINED; RfqRecipient.QUOTED] ->
  market_ok (with_invitations (<[x := answered_as st i]> (invitations m)) m).
Proof.
  intros K Hx Hs. pose proof (market_step_later _ _ (step_answer m x i st Hx Hs)) as L. split; cbn; try one_row K L.
  - exact (mk_invitations _ K x i Hx).
  - by apply (unique_set _ _ _ i); [exact (mk_one_invitation _ K)|..].
Qed.

Lemma step_offer_ok m x o i r : market_ok m -> offers m !! x = None -> invitations m !! of_invitation o = Some i ->
  of_request o = in_request i -> of_provider o = in_provider i -> requests m !! of_request o = Some r -> rq_status r ∉ closed ->
  of_status o = Quote.SUBMITTED -> 1 <= of_version o -> free offer_key (offers m) (of_invitation o, of_version o) ->
  market_ok (with_offers (<[x := o]> (offers m)) m).
Proof.
  intros K Hx Hi E1 E2 Hr Hc Hs Hv Hf. pose proof (market_step_later _ _ (step_offer m x o i r Hx Hi E1 E2 Hr Hc Hs Hv Hf)) as L.
  split; cbn; try one_row K L.
  - split_and!; [by exists i|done|]. congruence.
  - apply unique_new; [exact (mk_one_version _ K)|]. by intros k [= <-].
Qed.

Lemma step_status_ok m x r st : market_ok m -> requests m !! x = Some r -> edge (rq_status r) st -> st ∈ [Rfq.QUOTED; Rfq.EXPIRED] ->
  market_ok (with_requests (<[x := at_status st r]> (requests m)) m).
Proof.
  intros K Hx He Hs. pose proof (market_step_later _ _ (step_status m x r st Hx He Hs)) as L. split; cbn; one_row K L.
  destruct (mk_requests _ K x r Hx) as [Hm _]. split; [done|]. simpl. intros ->. set_solver.
Qed.

Lemma step_withdraw_ok m x o : market_ok m -> offers m !! x = Some o -> of_status o = Quote.SUBMITTED ->
  market_ok (with_offers (<[x := offered_as Quote.WITHDRAWN o]> (offers m)) m).
Proof.
  intros K Hx Hs. pose proof (market_step_later _ _ (step_withdraw m x o Hx Hs)) as L. split; cbn; try one_row K L.
  - destruct (mk_offers _ K x o Hx) as (Hi & Hv & _). split_and!; done.
  - by apply (unique_set _ _ _ o); [exact (mk_one_version _ K)|..].
Qed.

Lemma step_condition_ok m x n d : market_ok m -> conditions m !! x = None -> deals m !! cn_deal n = Some d -> party d (cn_owner n) ->
  cn_state n = DealCondition.PENDING -> market_ok (with_conditions (<[x := n]> (conditions m)) m).
Proof.
  intros K Hx Hd Hp Hs. pose proof (market_step_later _ _ (step_condition m x n d Hx Hd Hp Hs)) as L. split; cbn; one_row K L.
  by exists d.
Qed.

Lemma step_resolve_ok m x n st : market_ok m -> conditions m !! x = Some n -> edge (cn_state n) st ->
  market_ok (with_conditions (<[x := resolved_as st n]> (conditions m)) m).
Proof.
  intros K Hx He. pose proof (market_step_later _ _ (step_resolve m x n st Hx He)) as L. split; cbn; one_row K L.
  exact (mk_conditions _ K x n Hx).
Qed.

Lemma step_ruling_ok m x u d : market_ok m -> rulings m !! x = None -> deals m !! ru_deal u = Some d ->
  ru_type u <> DealCondition.QUOTE_SELECTED -> ru_offer u = None -> market_ok (with_rulings (<[x := u]> (rulings m)) m).
Proof.
  intros K Hx Hd Ht Ho. pose proof (market_step_later _ _ (step_ruling m x u d Hx Hd Ht Ho)) as L. split; cbn; try one_row K L.
  - exists d. split; [done|]. rewrite Ho. by destruct (ru_type u).
  - apply unique_new; [exact (mk_one_selection _ K)|]. unfold ruling_key. by destruct (ru_type u).
Qed.

Lemma step_stage_ok m x d st : market_ok m -> deals m !! x = Some d -> edge (de_stage d) st ->
  market_ok (with_deals (<[x := at_stage st d]> (deals m)) m).
Proof.
  intros K Hx He. pose proof (market_step_later _ _ (step_stage m x d st Hx He)) as L. split; cbn; try one_row K L.
  - pose proof (deal_stable L x d (mk_deals _ K x d Hx)) as [H1 H2 H3 H4 H5 H6]. by split.
  - by apply (unique_set _ _ _ d); [exact (mk_one_deal _ K)|..].
Qed.

(** No member and no opening ruling names a deal that does not exist. *)
Lemma no_members m y : market_ok m -> deals m !! y = None -> forall org, free member_key (members m) (y, org).
Proof. intros K Hy org x e He [= Ed Eo]. destruct (mk_members _ K x e He) as (d & Hd & _). congruence. Qed.

Lemma no_opening m y : market_ok m -> deals m !! y = None -> free ruling_key (rulings m) y.
Proof.
  intros K Hy x u Hu E. destruct (mk_rulings _ K x u Hu) as (d & Hd & _). unfold ruling_key in E.
  destruct (ru_type u); congruence.
Qed.

Lemma step_select_ok m k x o r merchant : market_ok m -> offers m !! x = Some o -> of_status o = Quote.SUBMITTED ->
  requests m !! of_request o = Some r -> rq_merchant r = Some merchant -> merchant <> of_provider o ->
  free deal_key (deals m) (of_request o) -> deals m !! se_deal k = None -> members m !! se_merchant_member k = None ->
  members m !! se_provider_member k = None -> se_merchant_member k <> se_provider_member k -> rulings m !! se_ruling k = None ->
  market_ok (selected k x o r merchant m).
Proof.
  intros K Ho Hst Hr Hm Hne Hf Hd Hm1 Hm2 Hmm Hu.
  pose proof (market_step_later _ _ (step_select m k x o r merchant Ho Hst Hr Hm Hne Hf Hd Hm1 Hm2 Hmm Hu)) as L.
  split; cbn; try one_row K L.
  - split; [by eexists|]. intros _. eexists (se_deal k), _. split; [apply lookup_insert_eq|done].
  - destruct (offer_stable L x o (mk_offers _ K x o Ho)) as (Hi & Hv & _). split_and!; [done..|]. intros _.
    eexists (se_deal k), _. split; [apply lookup_insert_eq|done].
  - split; cbn; [| |done|..].
    + eexists. split; [apply lookup_insert_eq|done].
    + eexists. split; [apply lookup_insert_eq|done].
    + exists (se_merchant_member k). rewrite lookup_insert_ne by done. apply lookup_insert_eq.
    + exists (se_provider_member k). apply lookup_insert_eq.
    + exists (se_ruling k). apply lookup_insert_eq.
  - apply map_Forall_insert_2; [|apply map_Forall_insert_2; [|kept K L]]; (eexists; split; [apply lookup_insert_eq|]); [by right|by left].
  - eexists. split; [apply lookup_insert_eq|done].
  - by apply (unique_set _ _ _ o); [exact (mk_one_version _ K)|..].
  - apply unique_new; [exact (mk_one_deal _ K)|]. by intros ? [= <-].
  - apply unique_new; [apply unique_new; [exact (mk_one_member _ K)|]|]; intros ? [= <-].
    + by apply no_members.
    + intros y e [[<- <-]|[_ He]]%lookup_insert_Some; [by intros [= ->]|]. by apply (no_members m (se_deal k) K Hd _ y).
  - apply unique_new; [exact (mk_one_selection _ K)|]. intros ? [= <-]. by apply no_opening.
Qed.

Lemma market_step_ok m m' : market_ok m -> market_step m m' -> market_ok m'.
Proof.
  intros K St. destruct St.
  - by apply step_request_ok.
  - by apply step_invite_ok.
  - by apply step_answer_ok.
  - by eapply step_offer_ok.
  - by apply step_status_ok.
  - by apply step_withdraw_ok.
  - by apply step_select_ok.
  - by eapply step_condition_ok.
  - by apply step_resolve_ok.
  - by eapply step_ruling_ok.
  - by apply step_stage_ok.
Qed.

Lemma market_run_ok m m' : market_ok m -> rtc market_step m m' -> market_ok m'.
Proof. intros K R. induction R as [m|m m1 m2 St _ IH]; [done|]. apply IH. by eapply market_step_ok. Qed.

(** *** Consequences *)

(** At most one offer of a request is ever selected. *)
Lemma one_selected m x y o1 o2 : market_ok m -> offers m !! x = Some o1 -> offers m !! y = Some o2 ->
  of_status o1 = Quote.SELECTED -> of_status o2 = Quote.SELECTED -> of_request o1 = of_request o2 -> x = y.
Proof.
  intros K H1 H2 S1 S2 E.
  destruct (mk_offers _ K x o1 H1) as (_ & _ & F1), (mk_offers _ K y o2 H2) as (_ & _ & F2).
  destruct (F1 S1) as (z & d1 & D1 & <-), (F2 S2) as (w & d2 & D2 & <-).
  destruct (dk_offer _ _ _ (mk_deals _ K z d1 D1)) as (p1 & P1 & _ & E1 & _), (dk_offer _ _ _ (mk_deals _ K w d2 D2)) as (p2 & P2 & _ & E2 & _).
  assert (z = w) as -> by (apply (mk_one_deal _ K z w d1 d2 (de_request d1)); unfold deal_key; congruence). congruence.
Qed.

(** The members of a deal are its two parties. *)
Lemma members_parties m y d org : market_ok m -> deals m !! y = Some d ->
  party d org <-> exists x role, members m !! x = Some {| me_deal := y; me_org := org; me_role := role |}.
Proof.
  intros K Hd. destruct (mk_deals _ K y d Hd) as [_ _ _ (a & Ha) (b & Hb) _]. split.
  - intros [->| ->]; eauto.
  - intros (x & role & He). destruct (mk_members _ K x _ He) as (d' & Hd' & E). simpl in *. unfold party. naive_solver congruence.
Qed.
