(* ===== verification/TradeBook.v ===== *)
(** * The RFQ and deal tables as a market

    The abstraction of the tables to [TradeSpec], and what each repository
    call does to it: a [create] inserts one row under a fresh identifier, an
    [update] replaces one. *)
From S2P Require Import Prelude StableSort Lifecycle DomainStates AuthzMatrix JsonText Database Tables ApiShared.
From S2P Require Import EconomicsRepositories ClaimRepositories LockboxRepositories TradeRepositories TradeSpec.
#[local] Open Scope Z_scope.

(** ** The market of a database *)

Definition ownerOf (db : Db) (x : string) : option string := OpportunityRow.ownerOrgId <$> opportunity_findById db x.

Definition requestOf (db : Db) (r : RFQRow.t) : Request :=
  {| rq_opportunity := RFQRow.opportunityId r; rq_merchant := ownerOf db (RFQRow.opportunityId r); rq_status := RFQRow.status r |}.
Definition invitationOf (p : RFQRecipientRow.t) : Invitation :=
  {| in_request := RFQRecipientRow.rfqId p; in_provider := RFQRecipientRow.providerOrgId p; in_state := RFQRecipientRow.state p |}.
Definition offerOf (q : QuoteRow.t) : Offer :=
  {| of_request := QuoteRow.rfqId q; of_invitation := QuoteRow.rfqRecipientId q; of_provider := QuoteRow.providerOrgId q;
     of_version := QuoteRow.quoteVersion q; of_status := QuoteRow.status q |}.
Definition dealOf (d : DealRoomRow.t) : Deal :=
  {| de_request := DealRoomRow.rfqId d; de_offer := DealRoomRow.selectedQuoteId d; de_merchant := DealRoomRow.merchantOrgId d;
     de_provider := DealRoomRow.providerOrgId d; de_stage := DealRoomRow.status d |}.
Definition memberOf (p : DealRoomParticipantRow.t) : Member :=
  {| me_deal := DealRoomParticipantRow.dealRoomId p; me_org := DealRoomParticipantRow.organizationId p;
     me_role := DealRoomParticipantRow.participantRole p |}.
Definition conditionOf (n : DealConditionRow.t) : Condition :=
  {| cn_deal := DealConditionRow.dealRoomId n; cn_owner := DealConditionRow.ownerOrgId n; cn_state := DealConditionRow.state n |}.
Definition rulingOf (u : DealDecisionRow.t) : Ruling :=
  {| ru_deal := DealDecisionRow.dealRoomId u; ru_type := DealDecisionRow.decisionType u; ru_offer := DealDecisionRow.relatedQuoteId u |}.

Definition market (db : Db) : Market :=
  {| requests := book (requestOf db) (rfqs db); invitations := book invitationOf (rfqRecipients db); offers := book offerOf (quotes db);
     deals := book dealOf (dealRooms db); members := book memberOf (dealRoomParticipants db);
     conditions := book conditionOf (dealConditions db); rulings := book rulingOf (dealDecisions db) |}.

Section Tables.
Context `{Platform}.

(** The version rows belong to requests, whose identifiers were all drawn. *)
Definition versions_drawn (n : nat) (l : list RFQVersionRow.t) : Prop := Forall (fun v => drawnIn 0 n (RFQVersionRow.rfqId v)) l.

Lemma versions_later n m l : (n <= m)%nat -> versions_drawn n l -> versions_drawn m l.
Proof. intros Hle F. eapply Forall_impl; [exact F|]. intros v. by apply drawnIn_weaken. Qed.

Record trade_tables (db : Db) : Prop := {
  tt_rfqs : table_ok db (rfqs db);
  tt_recipients : table_ok db (rfqRecipients db);
  tt_quotes : table_ok db (quotes db);
  tt_deals : table_ok db (dealRooms db);
  tt_participants : table_ok db (dealRoomParticipants db);
  tt_conditions : table_ok db (dealConditions db);
  tt_decisions : table_ok db (dealDecisions db);
  tt_versions : versions_drawn (drawn db) (rfqVersions db)
}.

(** Between transactions. *)
Record trade_ok (db : Db) : Prop := { to_tables : trade_tables db; to_market : market_ok (market db) }.

(** ** What leaves the market alone *)

Record beside (db db' : Db) : Prop := {
  be_rfqs : rfqs db' = rfqs db;
  be_recipients : rfqRecipients db' = rfqRecipients db;
  be_quotes : quotes db' = quotes db;
  be_deals : dealRooms db' = dealRooms db;
  be_participants : dealRoomParticipants db' = dealRoomParticipants db;
  be_conditions : dealConditions db' = dealConditions db;
  be_decisions : dealDecisions db' = dealDecisions db;
  be_versions : rfqVersions db' = rfqVersions db;
  be_owners : forall x, ownerOf db' x = ownerOf db x;
  be_drawn : (drawn db <= drawn db')%nat;
  be_clock : clock db' = clock db
}.

Lemma beside_refl db : beside db db.
Proof. by split. Qed.

Lemma beside_trans db1 db2 db3 : beside db1 db2 -> beside db2 db3 -> beside db1 db3.
Proof. intros [] []. split; (lia || congruence). Qed.

Lemma beside_tables db db' : beside db db' -> trade_tables db -> trade_tables db'.
Proof.
  intros [E1 E2 E3 E4 E5 E6 E7 E8 _ Hd Hc] [T1 T2 T3 T4 T5 T6 T7 T8].
  split; rewrite ?E1, ?E2, ?E3, ?E4, ?E5, ?E6, ?E7, ?E8; first [eapply table_same; [eassumption|done|lia] | by eapply versions_later].
Qed.

Lemma beside_market db db' : beside db db' -> market db' = market db.
Proof.
  intros [E1 E2 E3 E4 E5 E6 E7 _ Eo _ _]. unfold market. rewrite E1, E2, E3, E4, E5, E6, E7. f_equal.
  apply book_ext. intros r _. unfold requestOf. by rewrite Eo.
Qed.

Lemma audit_beside i c db a db' : auditRepository_write i c db = Ok (a, db') -> beside db db'.
Proof. unfold auditRepository_write. intros E. inv_tx. simplify_eq. split; cbn; (done || lia). Qed.

Lemma event_beside i c db e db' : domainEventRepository_write i c db = Ok (e, db') -> beside db db'.
Proof. unfold domainEventRepository_write. intros E. inv_tx. simplify_eq. split; cbn; (done || lia). Qed.

Lemma opportunity_keeps st u : keeps_identity (opportunityWith st u).
Proof. done. Qed.

(** Only the status of an opportunity changes. *)
Lemma opportunity_beside x st u db o db' : opportunity_updateStatus x st u db = Ok (o, db') -> beside db db'.
Proof.
  unfold opportunity_updateStatus. destruct (updateById x _ (opportunities db)) as [[r t]|] eqn:E; [|done]. cbn. intros [= <- <-].
  apply updateById_Ok in E as (r0 & Hf & -> & ->). split; try done. intros y. unfold ownerOf, opportunity_findById. cbn [opportunities set_opportunities].
  destruct (decide (x = y)) as [<-|Hne].
  - rewrite Hf. pose proof (findById_updating _ _ _ _ (opportunity_keeps st u) Hf) as E. unfold updating in E. by rewrite E.
  - pose proof (findById_updating_other (opportunities db) x y _ (opportunity_keeps st u) Hne) as E. unfold updating in E. by rewrite E.
Qed.

(** A version of a request that exists. *)
Lemma version_aside i db v db' : trade_tables db -> drawnIn 0 (drawn db) (rv_rfqId i) -> rfqVersion_create i db = Ok (v, db') ->
  trade_tables db' /\ market db' = market db /\ (forall x, ownerOf db' x = ownerOf db x) /\ (drawn db <= drawn db')%nat /\ clock db' = clock db.
Proof.
  intros [] Hi E. unfold rfqVersion_create in E. inv_tx. destruct (rfqVersion_findByRfqAndVersion _ _ _); [done|]. simplify_eq.
  split_and!; try done; [|cbn; lia]. split; cbn; try (eapply table_same; [eassumption|cbn; lia|cbn; lia]).
  apply Forall_app. split; [eapply versions_later; [|eassumption]; lia|]. repeat constructor. cbn. eapply drawnIn_weaken; [| |exact Hi]; lia.
Qed.

(** ** Creates *)

(** What a create does: [get] and [put] name its table in the market. *)
Record creates {V} (get : Market -> gmap string V) (put : gmap string V -> Market -> Market) (x : string) (v : V) (db db' : Db) : Prop := {
  cr_tables : trade_tables db';
  cr_id : x = newId (drawn db);
  cr_fresh : get (market db) !! x = None;
  cr_market : market db' = put (<[x := v]> (get (market db))) (market db);
  cr_owners : forall y, ownerOf db' y = ownerOf db y;
  cr_drawn : drawn db' = S (drawn db);
  cr_clock : clock db' = clock db
}.

(** [E] gives the row and the new database; [f] is the abstraction of its table [t]. *)
Ltac solve_create T t f r E :=
  let Er := fresh "Er" in let Ed := fresh "Ed" in let Ei := fresh "Ei" in let Ec := fresh "Ec" in
  injection E as Er Ed; rewrite Er in Ed;
  assert (row_id r = newId (drawn _)) as Ei by (by rewrite <- Er);
  assert (row_createdAt r = clock _) as Ec by (by rewrite <- Er);
  match goal with |- creates _ _ _ ?v _ _ => replace v with (f r) by (by rewrite <- Er) end;
  clear Er; subst;
  split;
  [ split; first [by apply (table_snoc _ _ _ _ t) | (eapply table_same; [apply T|cbn; lia|cbn; lia]) | (eapply versions_later; [|apply T]; cbn; lia)] | exact Ei
  | exact (proj1 (book_new f _ _ _ t Ei))
  | match goal with |- _ = ?put _ ?m => exact (f_equal (fun b => put b m) (proj2 (book_new f _ _ _ t Ei))) end
  | done | done | done ].

Lemma rfq_creates i db r db' : trade_tables db -> TradeRepositories.rfq_create i db = Ok (r, db') ->
  creates requests with_requests (RFQRow.id r)
    {| rq_opportunity := ri_opportunityId i; rq_merchant := ownerOf db (ri_opportunityId i); rq_status := default Rfq.DRAFT (ri_status i) |} db db'.
Proof.
  intros T E. unfold TradeRepositories.rfq_create in E. inv_tx. solve_create T (tt_rfqs _ T) (requestOf db) r E.
Qed.

Lemma recipient_creates i db p db' : trade_tables db -> rfqRecipient_create i db = Ok (p, db') ->
  creates invitations with_invitations (RFQRecipientRow.id p)
    {| in_request := rr_rfqId i; in_provider := rr_providerOrgId i; in_state := RfqRecipient.INVITED |} db db' /\
  free invitation_key (invitations (market db)) (rr_rfqId i, rr_providerOrgId i).
Proof.
  intros T E. unfold rfqRecipient_create in E. inv_tx. unfold rfqRecipient_findByRfqAndProviderOrg, findUnique in E. cbn [rfqRecipients set_drawn] in E.
  destruct (List.find _ (rfqRecipients db)) as [|] eqn:Hf; [done|]. split.
  - solve_create T (tt_recipients _ T) invitationOf p E.
  - intros y w (a & Ha & ->)%book_Some [= E1 E2]. apply findById_Some in Ha as [Ha%list_elem_of_In _].
    pose proof (find_none _ _ Hf a Ha) as Hn. unfold invites in Hn. rewrite E1, E2, !String.eqb_refl in Hn. discriminate Hn.
Qed.

Lemma quote_creates i db q db' : trade_tables db -> quote_create i db = Ok (q, db') ->
  creates offers with_offers (QuoteRow.id q)
    {| of_request := qi_rfqId i; of_invitation := qi_rfqRecipientId i; of_provider := qi_providerOrgId i; of_version := qi_quoteVersion i;
       of_status := Quote.SUBMITTED |} db db' /\
  free offer_key (offers (market db)) (qi_rfqRecipientId i, qi_quoteVersion i).
Proof.
  intros T E. unfold quote_create in E. inv_tx. cbn [quotes set_drawn] in E.
  destruct (existsb _ (quotes db)) eqn:Hf; [done|]. split.
  - solve_create T (tt_quotes _ T) offerOf q E.
  - intros y w (a & Ha & ->)%book_Some [= E1 E2]. apply findById_Some in Ha as [Ha%list_elem_of_In _].
    rewrite (proj2 (existsb_exists _ _)) in Hf; [done|]. exists a. split; [done|]. unfold quoteVersionTaken. rewrite E1, E2, String.eqb_refl.
    by apply Z.eqb_eq.
Qed.

Lemma deal_creates i db d db' : trade_tables db -> dealRoom_create i db = Ok (d, db') ->
  creates deals with_deals (DealRoomRow.id d)
    {| de_request := dc_rfqId i; de_offer := dc_selectedQuoteId i; de_merchant := dc_merchantOrgId i; de_provider := dc_providerOrgId i;
       de_stage := DealRoom.OPEN |} db db' /\
  free deal_key (deals (market db)) (dc_rfqId i).
Proof.
  intros T E. unfold dealRoom_create in E. inv_tx. cbn [dealRooms set_drawn] in E.
  destruct (existsb _ (dealRooms db)) eqn:Hf; [done|]. split.
  - solve_create T (tt_deals _ T) dealOf d E.
  - intros y w (a & Ha & ->)%book_Some [= E1]. apply findById_Some in Ha as [Ha%list_elem_of_In _].
    rewrite (proj2 (existsb_exists _ _)) in Hf; [done|]. exists a. split; [done|]. unfold dealTaken. by rewrite E1, String.eqb_refl.
Qed.

Lemma participant_creates i db p db' : trade_tables db -> participant_create i db = Ok (p, db') ->
  creates members with_members (DealRoomParticipantRow.id p)
    {| me_deal := dp_dealRoomId i; me_org := dp_organizationId i; me_role := dp_participantRole i |} db db' /\
  free member_key (members (market db)) (dp_dealRoomId i, dp_organizationId i).
Proof.
  intros T E. unfold participant_create in E. inv_tx. unfold participant_findByDealRoomAndOrg, findUnique in E. cbn [dealRoomParticipants set_drawn] in E.
  destruct (List.find _ (dealRoomParticipants db)) as [|] eqn:Hf; [done|]. split.
  - solve_create T (tt_participants _ T) memberOf p E.
  - intros y w (a & Ha & ->)%book_Some [= E1 E2]. apply findById_Some in Ha as [Ha%list_elem_of_In _].
    pose proof (find_none _ _ Hf a Ha) as Hn. unfold participates in Hn. rewrite E1, E2, !String.eqb_refl in Hn. discriminate Hn.
Qed.

Lemma condition_creates i db n db' : trade_tables db -> condition_create i db = Ok (n, db') ->
  creates conditions with_conditions (DealConditionRow.id n)
    {| cn_deal := dn_dealRoomId i; cn_owner := dn_ownerOrgId i; cn_state := DealCondition.PENDING |} db db'.
Proof. intros T E. unfold condition_create in E. inv_tx. solve_create T (tt_conditions _ T) conditionOf n E. Qed.

Lemma decision_creates i db u db' : trade_tables db -> decision_create i db = Ok (u, db') ->
  creates rulings with_rulings (DealDecisionRow.id u)
    {| ru_deal := dd_dealRoomId i; ru_type := dd_decisionType i; ru_offer := dd_relatedQuoteId i |} db db'.
Proof. intros T E. unfold decision_create in E. inv_tx. solve_create T (tt_decisions _ T) rulingOf u E. Qed.

(** ** Updates *)

(** What an update by identifier does. *)
Record updates {V} (get : Market -> gmap string V) (put : gmap string V -> Market -> Market) (x : string) (g : V -> V) (db db' : Db) : Prop := {
  up_tables : trade_tables db';
  up_row : exists v, get (market db) !! x = Some v /\ market db' = put (<[x := g v]> (get (market db))) (market db);
  up_owners : forall y, ownerOf db' y = ownerOf db y;
  up_drawn : drawn db' = drawn db;
  up_clock : clock db' = clock db
}.

Ltac solve_update T f E :=
  let r0 := fresh "r" in let Hf := fresh "Hf" in
  match type of E with context [updateById ?x ?h ?t] => destruct (updateById x h t) as [[? ?]|] eqn:Eu; [|done]; cbn in E;
    injection E as <- <-; apply updateById_Ok in Eu as (r0 & Hf & -> & ->);
    split;
    [ split; [..|exact (tt_versions _ T)]; (eapply table_same; [first [apply T | exact (table_update _ _ x h (fun _ => conj eq_refl eq_refl) ltac:(apply T))]|cbn; lia|cbn; lia])
    | exists (f r0); split;
      [ apply (proj2 (book_Some f t x (f r0))); by exists r0
      | match goal with |- _ = ?put _ ?m => exact (f_equal (fun b => put b m) (book_updating f t x h r0 (fun _ => conj eq_refl eq_refl) Hf)) end ]
    | done | done | done ]
  end.

Lemma rfq_updates x st u db r db' : trade_tables db -> rfq_updateStatus x st u db = Ok (r, db') ->
  updates requests with_requests x (at_status st) db db'.
Proof. intros T E. unfold rfq_updateStatus in E. solve_update T (requestOf db) E. Qed.

Lemma recipient_updates x st u why db p db' : trade_tables db -> rfqRecipient_updateState x st u why db = Ok (p, db') ->
  updates invitations with_invitations x (answered_as st) db db'.
Proof. intros T E. unfold rfqRecipient_updateState in E. solve_update T invitationOf E. Qed.

Lemma quote_updates x st u db q db' : trade_tables db -> quote_updateStatus x st u db = Ok (q, db') ->
  updates offers with_offers x (offered_as st) db db' /\
  exists q0, quote_findById db x = Some q0 /\ q = quoteWith st u q0.
Proof.
  intros T E. split.
  - unfold quote_updateStatus in E. solve_update T offerOf E.
  - unfold quote_updateStatus in E. destruct (updateById x _ (quotes db)) as [[r t]|] eqn:Eu; [|done]. cbn in E. injection E as <- <-.
    apply updateById_Ok in Eu as (r0 & Hf & -> & _). by exists r0.
Qed.

Lemma deal_updates x st u db d db' : trade_tables db -> dealRoom_updateStatus x st u db = Ok (d, db') ->
  updates deals with_deals x (at_stage st) db db'.
Proof. intros T E. unfold dealRoom_updateStatus in E. solve_update T dealOf E. Qed.

Lemma condition_updates x st note u db n db' : trade_tables db -> condition_updateState x st note u db = Ok (n, db') ->
  updates conditions with_conditions x (resolved_as st) db db'.
Proof. intros T E. unfold condition_updateState in E. solve_update T conditionOf E. Qed.

End Tables.
