(* ===== verification/TradeEffects.v ===== *)
(** * Every RFQ and deal transaction is a run of market steps

    What a plan read before the transaction must still say when it starts, and
    that the transaction then turns the market of the database into a later
    one by steps of [TradeSpec]. *)
From S2P Require Import Prelude StableSort Lifecycle DomainStates AuthzMatrix Authz JsDate JsonText Database Tables ApiShared Idempotency.
From S2P Require Import EconomicsRepositories ClaimRepositories LockboxRepositories TradeRepositories RfqService DealService.
From S2P Require Import TradeSpec TradeBook.
From Stdlib Require Import Ascii.
From stdpp Require Import relations.
#[local] Open Scope Z_scope.

Section Effects.
Context `{Platform} (sha256_hex : list ascii -> string).

(** ** Transactions as runs *)

Record acts (db db' : Db) : Prop := {
  ac_tables : trade_tables db';
  ac_steps : rtc market_step (market db) (market db');
  ac_owners : forall x, ownerOf db' x = ownerOf db x;
  ac_drawn : (drawn db <= drawn db')%nat;
  ac_clock : clock db' = clock db
}.

Lemma acts_refl db : trade_tables db -> acts db db.
Proof. by split. Qed.

Lemma acts_trans db1 db2 db3 : acts db1 db2 -> acts db2 db3 -> acts db1 db3.
Proof. intros [] []. split; [done|by etransitivity|congruence|lia|congruence]. Qed.

Lemma acts_beside db db' : trade_tables db -> beside db db' -> acts db db'.
Proof.
  intros T B. split; [by eapply beside_tables|by rewrite (beside_market _ _ B)|apply B..].
Qed.

Lemma acts_ok db db' : market_ok (market db) -> acts db db' -> market_ok (market db').
Proof. intros K A. eapply market_run_ok; [exact K|apply A]. Qed.

Lemma acts_later db db' : acts db db' -> market_later (market db) (market db').
Proof. intros A. apply market_run_later, A. Qed.

Lemma acts_creates {V} get put x (v : V) db db' : creates get put x v db db' ->
  market_step (market db) (put (<[x := v]> (get (market db))) (market db)) -> acts db db'.
Proof. intros [T _ _ E Eo Ed Ec] St. split; [done|rewrite E; by apply rtc_once|done|lia|done]. Qed.

Lemma acts_updates {V} get put x (g : V -> V) db db' : updates get put x g db db' ->
  (forall v, get (market db) !! x = Some v -> market_step (market db) (put (<[x := g v]> (get (market db))) (market db))) -> acts db db'.
Proof. intros [T (v & Hv & E) Eo Ed Ec] St. split; [done|rewrite E; by apply rtc_once, St|done|lia|done]. Qed.

(** The audit and timeline entries at the end of a transaction. *)
Lemma acts_journal {A} ai ei ac ec (k : Tx A) db a db' : trade_tables db ->
  (do* auditRepository_write ai ac; do* domainEventRepository_write ei ec; k) db = Ok (a, db') ->
  exists db1, acts db db1 /\ k db1 = Ok (a, db').
Proof.
  intros T E. apply tbind_Ok in E as (? & d1 & B1%audit_beside & E). apply tbind_Ok in E as (? & d2 & B2%event_beside & E).
  exists d2. split; [|done]. apply acts_beside; [done|]. by eapply beside_trans.
Qed.

Lemma acts_event {A} ei ec (k : Tx A) db a db' : trade_tables db -> (do* domainEventRepository_write ei ec; k) db = Ok (a, db') ->
  exists db1, acts db db1 /\ k db1 = Ok (a, db').
Proof. intros T E. apply tbind_Ok in E as (? & d1 & B%event_beside & E). exists d1. split; [by apply acts_beside|done]. Qed.

(** ** What a plan relies on *)

Definition opportunity_known (o : OpportunityRow.t) (db : Db) : Prop := ownerOf db (OpportunityRow.id o) = Some (OpportunityRow.ownerOrgId o).

(** The invitation read before the transaction. *)
Definition invited_known (p : InvitedPlan) (m : Market) : Prop :=
  exists i, invitations m !! RFQRecipientRow.id (ip_recipient p) = Some i /\ in_request i = RFQRow.id (ip_rfq p) /\
    in_provider i = RFQRecipientRow.providerOrgId (ip_recipient p).

(** The quote, on the RFQ of the opportunity's owner. *)
Definition quote_known (p : QuotePlan) (m : Market) : Prop :=
  exists o r, offers m !! QuoteRow.id (qp_quote p) = Some o /\ of_request o = RFQRow.id (qp_rfq p) /\
    requests m !! RFQRow.id (qp_rfq p) = Some r /\ rq_merchant r = Some (OpportunityRow.ownerOrgId (qp_opportunity p)).

Definition owner_known (org : string) (d : DealRoomRow.t) (m : Market) : Prop :=
  exists e, deals m !! DealRoomRow.id d = Some e /\ party e org.

Section Later.
Context {m m' : Market} (L : market_later m m').

Lemma invited_later p : invited_known p m -> invited_known p m'.
Proof using L. intros (i & (i' & Hi & [=])%(ml_invitations _ _ L) & E1 & E2). exists i'. split_and!; [done|congruence..]. Qed.

Lemma quote_later p : quote_known p m -> quote_known p m'.
Proof using L.
  intros (o & r & (o' & Ho & [= E1 _] & _)%(ml_offers _ _ L) & E2 & (r' & Hr & [= _ E3] & _)%(ml_requests _ _ L) & E4).
  exists o', r'. split_and!; [done|congruence|done|congruence].
Qed.

Lemma owner_later org d : owner_known org d m -> owner_known org d m'.
Proof using L.
  intros (e & (e' & He & [= _ _ E1 E2] & _)%(ml_deals _ _ L) & Hp). exists e'. split; [done|]. unfold party in *. by rewrite E1, E2.
Qed.
End Later.

(** The two branches of the conditional that [E] runs. *)
Ltac branch E := match type of E with (if ?b then _ else _) _ = _ => destruct b eqn:? end.

(** ** createRfq *)

Lemma recipients_act c x orgs db l db' : trade_tables db -> market_ok (market db) -> is_Some (requests (market db) !! x) ->
  tmapM (fun org => rfqRecipient_create {| rr_rfqId := x; rr_providerOrgId := org;
    rr_createdByUserId := Some (Actions.userId (actor c)); rr_createdByOrgId := Actions.organizationId (actor c) |}) orgs db = Ok (l, db') -> acts db db'.
Proof.
  revert db l. induction orgs as [|org orgs IH]; intros db l T K Hx E; cbn [tmapM] in E.
  - injection E as _ <-. by apply acts_refl.
  - apply tbind_Ok in E as (p & d1 & Ep & E). apply tbind_Ok in E as (ps & d2 & Eps & E). injection E as _ <-.
    destruct (recipient_creates _ _ _ _ T Ep) as [C Hfree]. assert (acts db d1) as A.
    { eapply acts_creates; [exact C|]. apply step_invite; [apply (cr_fresh _ _ _ _ _ _ C)|done|done|done]. }
    eapply acts_trans; [exact A|]. eapply IH; [apply A|by eapply acts_ok| |exact Eps].
    destruct Hx as [r Hr]. destruct (ml_requests _ _ (acts_later _ _ A) _ _ Hr) as (r' & Hr' & _). by exists r'.
Qed.

Lemma create_acts c input o db d db' : trade_ok db -> opportunity_known o db -> createRfq_tx c input o db = Ok (d, db') -> acts db db'.
Proof.
  intros [T K] Ho E. unfold createRfq_tx in E. apply tbind_Ok in E as (due & ? & [_ ->]%tlift_Ok & E).
  apply tbind_Ok in E as (rfq & d1 & C%(rfq_creates _ _ _ _ T) & E). cbn in C. rewrite Ho in C.
  assert (acts db d1) as A1. { eapply acts_creates; [exact C|]. apply step_request; [apply (cr_fresh _ _ _ _ _ _ C)|done|by eexists]. }
  apply tbind_Ok in E as (v & d2 & Ev & E). eapply (version_aside _ d1 v d2 (ac_tables _ _ A1)) in Ev as (T2 & M2 & O2 & D2 & C2).
  2: { exists (drawn db). rewrite (cr_drawn _ _ _ _ _ _ C). split; [lia|]. exact (cr_id _ _ _ _ _ _ C). }
  assert (acts db d2) as A2 by (eapply acts_trans; [exact A1|]; split; [done|by rewrite M2|done..]).
  apply tbind_Ok in E as (ps & d3 & Eps & E). assert (acts db d3) as A3.
  { eapply acts_trans; [exact A2|]. eapply recipients_act; [apply A2|by eapply acts_ok| |exact Eps].
    rewrite M2, (cr_market _ _ _ _ _ _ C). cbn. rewrite lookup_insert_eq. by eexists. }
  apply tbind_Ok in E as (? & d4 & Eopp & E). assert (acts db d4) as A4.
  { eapply acts_trans; [exact A3|]. apply acts_beside; [apply A3|]. branch Eopp; [|injection Eopp as _ <-; apply beside_refl].
    apply tbind_Ok in Eopp as (? & ? & [_ ->]%tlift_Ok & Eopp). apply tbind_Ok in Eopp as (? & ? & B2%opportunity_beside & Eopp). injection Eopp as _ <-. done. }
  apply acts_journal in E as (d5 & A5 & E); [|apply A4]. injection E as _ <-. by eapply acts_trans.
Qed.

(** ** decline *)

Lemma answer_acts x st u why db p db' i : trade_tables db -> invitations (market db) !! x = Some i ->
  st ∈ [RfqRecipient.DECLINED; RfqRecipient.QUOTED] -> rfqRecipient_updateState x st u why db = Ok (p, db') -> acts db db'.
Proof.
  intros T Hi Hst E. eapply acts_updates; [by eapply recipient_updates|]. intros v Hv. by apply step_answer.
Qed.

Lemma decline_acts c why p db r db' : trade_ok db -> invited_known p (market db) -> decline_tx c why p db = Ok (r, db') -> acts db db'.
Proof.
  intros [T K] (i & Hi & _) E. unfold decline_tx in E. apply tbind_Ok in E as (r' & d1 & Ea & E).
  assert (acts db d1) as A by (eapply answer_acts; [done|exact Hi| |exact Ea]; set_solver).
  apply acts_journal in E as (d2 & A2 & E); [|apply A]. injection E as _ <-. by eapply acts_trans.
Qed.

(** ** submitQuote *)

Lemma next_version db x : trade_ok db -> 1 <= nextQuoteVersion db x.
Proof.
  intros [T K]. unfold nextQuoteVersion. destruct (findMany _ _ _) as [|q l] eqn:E; [done|].
  assert (q ∈ quotes db) as Hq by (eapply findMany_elem; rewrite E; left).
  pose proof (book_row offerOf db _ q (tt_quotes _ T) Hq) as Hb. destruct (mk_offers _ K _ _ Hb) as (_ & Hv & _). simpl in Hv. lia.
Qed.

Lemma find_request db x r : rfq_findById db x = Some r -> requests (market db) !! x = Some (requestOf db r).
Proof. unfold rfq_findById. intros Hf. cbn. by rewrite book_lookup, Hf. Qed.

(** The status guard of a transaction is an edge of the table. *)
Lemma rfq_edge a b : is_ok (Rfq.assertValidRfqTransition (Rfq.RfqStatus_name a) (Rfq.RfqStatus_name b)) = true -> edge a b.
Proof.
  unfold Rfq.assertValidRfqTransition.
  change (Rfq.RfqStatus_name a) with (enum_name a). change (Rfq.RfqStatus_name b) with (enum_name b).
  rewrite assertTransition_names. case_bool_decide as Hd; [tauto|done].
Qed.

Lemma submit_acts c input p db q db' : trade_ok db -> invited_known p (market db) ->
  Actions.organizationId (actor c) = Some (RFQRecipientRow.providerOrgId (ip_recipient p)) -> submitQuote_tx c input p db = Ok (q, db') -> acts db db'.
Proof.
  intros [T K] (i & Hi & E1 & E2) Hme E. unfold submitQuote_tx, uniqueSafe in E. apply runUniqueConstraintSafe_Ok in E.
  unfold submitQuote_body in E. apply tbind_Ok in E as (fresh & ? & Ef & E). unfold freshRfq in Ef.
  destruct (rfq_findById db _) as [r|] eqn:Hf; [|done]. injection Ef as <- <-. apply find_request in Hf.
  apply tbind_Ok in E as (? & ? & [Hopen%throw_if_Ok%bool_decide_eq_false ->]%tlift_Ok & E).
  apply tbind_Ok in E as (n & ? & En & E). injection En as <- <-.
  apply tbind_Ok in E as (org & ? & [Eorg ->]%tlift_Ok & E). unfold actorOrg in Eorg. rewrite Hme in Eorg. injection Eorg as <-.
  apply tbind_Ok in E as (valid & ? & [_ ->]%tlift_Ok & E). apply tbind_Ok in E as (q' & d1 & Eq & E).
  destruct (quote_creates _ _ _ _ T Eq) as [C Hfree]. cbn in C, Hfree. assert (acts db d1) as A1.
  { eapply acts_creates; [exact C|]. eapply step_offer with (i := i) (r := requestOf db r); cbn [of_invitation of_request of_provider of_status of_version];
      [apply (cr_fresh _ _ _ _ _ _ C)|done|done|done|done|done|done|by apply next_version|done]. }
  apply tbind_Ok in E as (? & d2 & Er & E). assert (acts d1 d2 /\ requests (market d2) = requests (market db)) as [A2 R2].
  { assert (requests (market d1) = requests (market db)) as R1 by (by rewrite (cr_market _ _ _ _ _ _ C)).
    branch Er; [injection Er as _ <-; split; [apply acts_refl, A1|done]|].
    apply tbind_Ok in Er as (? & ? & Er & Er'). injection Er' as _ <-. split.
    - eapply answer_acts; [apply A1| | |exact Er]; [|set_solver]. rewrite (cr_market _ _ _ _ _ _ C). exact Hi.
    - destruct (up_row _ _ _ _ _ _ (recipient_updates _ _ _ _ _ _ _ (ac_tables _ _ A1) Er)) as (v & _ & ->). exact R1. }
  apply tbind_Ok in E as (? & d3 & Es & E). assert (acts d2 d3) as A3.
  { branch Es; [injection Es as _ <-; apply acts_refl, A2|].
    apply tbind_Ok in Es as (? & ? & [Hs ->]%tlift_Ok & Es). apply tbind_Ok in Es as (? & ? & Es & Es'). injection Es' as _ <-.
    eapply acts_updates; [eapply rfq_updates; [apply A2|exact Es]|]. intros v Hv. rewrite R2, Hf in Hv. injection Hv as <-.
    apply step_status; [by rewrite R2| |set_solver]. apply (rfq_edge (RFQRow.status r) Rfq.QUOTED). unfold rfqStatusName in Hs. cbn in *. by rewrite Hs. }
  apply tbind_Ok in E as (? & d4 & Eo & E). assert (acts d3 d4) as A4.
  { apply acts_beside; [apply A3|]. branch Eo; [|injection Eo as _ <-; apply beside_refl].
    apply tbind_Ok in Eo as (? & ? & [_ ->]%tlift_Ok & Eo). apply tbind_Ok in Eo as (? & ? & B%opportunity_beside & Eo). injection Eo as _ <-. done. }
  apply acts_journal in E as (d5 & A5 & E); [|apply A4]. injection E as _ <-. eauto using acts_trans.
Qed.

(** ** withdrawQuote *)

Lemma freshQuote_Ok x to db q db' : freshQuote x (Quote.QuoteStatus_name to) db = Ok (q, db') ->
  db' = db /\ quote_findById db x = Some q /\ edge (QuoteRow.status q) to.
Proof.
  unfold freshQuote. destruct (quote_findById db x) as [q'|]; [|done]. unfold Quote.assertValidQuoteTransition, quoteStatusName.
  change (Quote.QuoteStatus_name (QuoteRow.status q')) with (enum_name (QuoteRow.status q')). change (Quote.QuoteStatus_name to) with (enum_name to).
  rewrite assertTransition_names. case_bool_decide as Hd; [|done]. cbn. intros [= <- <-]. tauto.
Qed.

Lemma quote_edge_submitted (a b : Quote.QuoteStatus) : edge a b -> a = Quote.SUBMITTED.
Proof. destruct a; [done|..]; intros Hd%elem_of_nil; done. Qed.

Lemma withdraw_acts c p db q db' : trade_ok db -> withdrawQuote_tx c p db = Ok (q, db') -> acts db db'.
Proof.
  intros [T K] E. unfold withdrawQuote_tx in E.
  apply tbind_Ok in E as (q0 & ? & (-> & Hf & Hs%quote_edge_submitted)%(freshQuote_Ok _ Quote.WITHDRAWN) & E).
  apply tbind_Ok in E as (q1 & d1 & [U _]%(quote_updates _ _ _ _ _ _ T) & E).
  assert (acts db d1) as A.
  { eapply acts_updates; [exact U|]. intros v Hv. apply step_withdraw; [done|]. cbn in Hv. rewrite book_lookup in Hv.
    unfold quote_findById in Hf. rewrite Hf in Hv. by injection Hv as <-. }
  apply acts_journal in E as (d2 & A2 & E); [|apply A]. injection E as _ <-. by eapply acts_trans.
Qed.

(** ** selectQuote *)

(** What no write of a transaction touches. *)
Record frame (db db' : Db) : Prop := {
  fr_owners : forall x, ownerOf db' x = ownerOf db x;
  fr_drawn : (drawn db <= drawn db')%nat;
  fr_clock : clock db' = clock db
}.

Lemma frame_trans db1 db2 db3 : frame db1 db2 -> frame db2 db3 -> frame db1 db3.
Proof. intros [] []. split; (lia || congruence). Qed.
Lemma frame_creates {V} get put x (v : V) db db' : creates get put x v db db' -> frame db db'.
Proof. intros []. split; (done || lia). Qed.
Lemma frame_updates {V} get put x (g : V -> V) db db' : updates get put x g db db' -> frame db db'.
Proof. intros []. split; (done || lia). Qed.
Lemma frame_beside db db' : beside db db' -> frame db db'.
Proof. intros []. split; (done || lia). Qed.

Lemma free_not {V K} (key : V -> option K) t k x v k' : free key t k -> t !! x = Some v -> key v = Some k' -> k <> k'.
Proof. intros F Hx E ->. by apply (F x v Hx). Qed.

(** The quote a selection finds is the one the plan read. *)
Lemma found_offer p db q : quote_known p (market db) -> quote_findById db (QuoteRow.id (qp_quote p)) = Some q ->
  QuoteRow.id q = QuoteRow.id (qp_quote p) /\ QuoteRow.rfqId q = RFQRow.id (qp_rfq p).
Proof.
  intros (o & r & Ho & E1 & _) Hf. pose proof Hf as [_ Ei]%findById_Some. cbn in Ho. rewrite book_lookup in Ho. unfold quote_findById in Hf.
  rewrite Hf in Ho. injection Ho as <-. done.
Qed.

(** The writes of a selection up to its journal: the one step. *)
Lemma selection_acts p db q u1 u2 u3 s d1 r d2 o d3 room d4 e1 d5 e2 d6 v d7 i4 i5 i6 i7 :
  let x := QuoteRow.id (qp_quote p) in let rfq := RFQRow.id (qp_rfq p) in let merchant := OpportunityRow.ownerOrgId (qp_opportunity p) in
  trade_tables db -> quote_known p (market db) -> quote_findById db x = Some q -> QuoteRow.status q = Quote.SUBMITTED ->
  quote_updateStatus x Quote.SELECTED u1 db = Ok (s, d1) -> rfq_updateStatus rfq Rfq.SELECTED u2 d1 = Ok (r, d2) ->
  opportunity_updateStatus (OpportunityRow.id (qp_opportunity p)) Opportunity.SELECTED u3 d2 = Ok (o, d3) ->
  dealRoom_create i4 d3 = Ok (room, d4) -> participant_create i5 d4 = Ok (e1, d5) -> participant_create i6 d5 = Ok (e2, d6) ->
  decision_create i7 d6 = Ok (v, d7) ->
  (dc_rfqId i4, dc_selectedQuoteId i4, dc_merchantOrgId i4, dc_providerOrgId i4) = (rfq, x, merchant, QuoteRow.providerOrgId q) ->
  (dp_dealRoomId i5, dp_organizationId i5, dp_participantRole i5) = (DealRoomRow.id room, merchant, ParticipantRole.MERCHANT) ->
  (dp_dealRoomId i6, dp_organizationId i6, dp_participantRole i6) = (DealRoomRow.id room, QuoteRow.providerOrgId q, ParticipantRole.PROVIDER) ->
  (dd_dealRoomId i7, dd_decisionType i7, dd_relatedQuoteId i7) = (DealRoomRow.id room, DealCondition.QUOTE_SELECTED, Some x) ->
  acts db d7.
Proof.
  intros x rfq merchant T Hk Hf Hs Eq Er Eo Ed Ee1 Ee2 Ev [= I1 I2 I3 I4] [= I5 I6 I7] [= I8 I9 I10] [= I11 I12 I13].
  destruct (found_offer p db q Hk Hf) as [Ei Ex]. destruct Hk as (ov & rq & Hof & _ & Hrq & Hm).
  destruct (quote_updates _ _ _ _ _ _ T Eq) as [U1 _]. pose proof (rfq_updates _ _ _ _ _ _ (up_tables _ _ _ _ _ _ U1) Er) as U2.
  apply opportunity_beside in Eo. pose proof (beside_tables _ _ Eo (up_tables _ _ _ _ _ _ U2)) as T3.
  destruct (deal_creates _ _ _ _ T3 Ed) as [C4 F4]. destruct (participant_creates _ _ _ _ (cr_tables _ _ _ _ _ _ C4) Ee1) as [C5 F5].
  destruct (participant_creates _ _ _ _ (cr_tables _ _ _ _ _ _ C5) Ee2) as [C6 F6].
  pose proof (decision_creates _ _ _ _ (cr_tables _ _ _ _ _ _ C6) Ev) as C7.
  rewrite I1, I2, I3, I4 in C4. rewrite I1 in F4. rewrite I5, I6, I7 in C5. rewrite I8, I9, I10 in C6. rewrite I8, I9 in F6. rewrite I11, I12, I13 in C7.
  pose proof (frame_trans _ _ _ (frame_updates _ _ _ _ _ _ U1) (frame_trans _ _ _ (frame_updates _ _ _ _ _ _ U2) (frame_beside _ _ Eo))) as G1.
  pose proof (frame_trans _ _ _ (frame_creates _ _ _ _ _ _ C4) (frame_trans _ _ _ (frame_creates _ _ _ _ _ _ C5)
    (frame_trans _ _ _ (frame_creates _ _ _ _ _ _ C6) (frame_creates _ _ _ _ _ _ C7)))) as G2.
  pose proof (frame_trans _ _ _ G1 G2) as [Fo Fd Fc]. clear G1 G2.
  destruct (up_row _ _ _ _ _ _ U1) as (w1 & Hw1 & M1). cbn in Hw1. rewrite book_lookup in Hw1. unfold quote_findById in Hf. fold x in Hf.
  rewrite Hf in Hw1. injection Hw1 as <-. destruct (up_row _ _ _ _ _ _ U2) as (w2 & Hw2 & M2). rewrite M1 in Hw2. cbn [requests with_offers] in Hw2.
  assert (w2 = rq) as -> by (fold rfq in Hrq; congruence). clear Hof ov.
  assert (offers (market db) !! x = Some (offerOf q)) as Ho by (cbn; by rewrite book_lookup, Hf).
  pose proof (beside_market _ _ Eo) as M3. pose proof (cr_market _ _ _ _ _ _ C4) as M4. pose proof (cr_market _ _ _ _ _ _ C5) as M5.
  pose proof (cr_market _ _ _ _ _ _ C6) as M6. pose proof (cr_market _ _ _ _ _ _ C7) as M7.
  pose proof (cr_fresh _ _ _ _ _ _ C4) as N4. pose proof (cr_fresh _ _ _ _ _ _ C5) as N5.
  pose proof (cr_fresh _ _ _ _ _ _ C6) as N6. pose proof (cr_fresh _ _ _ _ _ _ C7) as N7.
  rewrite M5 in F6, N6. rewrite M6, M5, M4, M3, M2, M1 in N7. rewrite M4, M3, M2, M1 in N5, N6, F6. rewrite M3, M2, M1 in N4, F4.
  cbn [members with_members with_deals with_requests with_offers deals rulings with_rulings] in N4, N5, N6, N7, F4, F6.
  apply lookup_insert_None in N6 as [N6 N6'].
  set (k := {| se_deal := DealRoomRow.id room; se_merchant_member := DealRoomParticipantRow.id e1;
               se_provider_member := DealRoomParticipantRow.id e2; se_ruling := DealDecisionRow.id v |}).
  assert (market d7 = selected k x (offerOf q) rq merchant (market db)) as M.
  { rewrite M7, M6, M5, M4, M3, M2, M1. unfold selected. cbn [of_request offerOf]. rewrite Ex. reflexivity. }
  split; [apply C7| |done|done|done]. rewrite M. apply rtc_once. apply step_select; cbn [of_request of_status offerOf of_provider]; rewrite ?Ex; try done.
  pose proof (free_not _ _ _ _ _ _ F6 (lookup_insert_eq _ _ _) eq_refl) as Hne. cbn in Hne. congruence.
Qed.

Lemma select_acts c input p db d db' : trade_ok db -> quote_known p (market db) -> selectQuote_tx c input p db = Ok (d, db') -> acts db db'.
Proof.
  intros [T K] Hk E. unfold selectQuote_tx, uniqueSafe in E. apply runUniqueConstraintSafe_Ok in E. unfold selectQuote_body in E.
  apply tbind_Ok in E as (q & ? & (-> & Hf & Hs%quote_edge_submitted)%(freshQuote_Ok _ Quote.SELECTED) & E).
  apply tbind_Ok in E as (sel & d1 & Eq & E). destruct (quote_updates _ _ _ _ _ _ T Eq) as [_ (q0 & Hf' & Esel)].
  assert (q0 = q) as -> by congruence. assert (QuoteRow.id sel = QuoteRow.id (qp_quote p)) as Eid.
  { rewrite Esel. exact (proj1 (found_offer p db q Hk Hf)). }
  assert (QuoteRow.providerOrgId sel = QuoteRow.providerOrgId q) as Ep by (by rewrite Esel). clear Esel. rewrite Eid, Ep in E.
  apply tbind_Ok in E as (r & d2 & Er & E). apply tbind_Ok in E as (o & d3 & Eo & E). apply tbind_Ok in E as (room & d4 & Ed & E).
  apply tbind_Ok in E as (e1 & d5 & Ee1 & E). apply tbind_Ok in E as (e2 & d6 & Ee2 & E). apply tbind_Ok in E as (v & d7 & Ev & E).
  pose proof (selection_acts p db q _ _ _ _ _ _ _ _ _ _ _ _ _ _ _ _ _ _ _ _ _ T Hk Hf Hs Eq Er Eo Ed Ee1 Ee2 Ev eq_refl eq_refl eq_refl eq_refl) as A.
  clear -A E. apply acts_journal in E as (e & B & E); [|apply A]. assert (acts db e) as A1 by (by eapply acts_trans). clear A B.
  do 4 (apply acts_event in E as (? & ? & E); [|by match goal with A : acts db _ |- _ => apply A end];
    match goal with A : acts db ?y, B : acts ?y ?z |- _ => pose proof (acts_trans _ _ _ A B); clear A B end).
  by injection E as _ <-.
Qed.

(** ** Deal rooms *)

Lemma freshDealRoom_Ok x db d db' : freshDealRoom x db = Ok (d, db') -> db' = db /\ deals (market db) !! x = Some (dealOf d).
Proof.
  unfold freshDealRoom. destruct (dealRoom_findById db x) as [d'|] eqn:Hf; [|done]. intros [= <- <-]. split; [done|].
  unfold dealRoom_findById in Hf. cbn. by rewrite book_lookup, Hf.
Qed.

Lemma deal_edge a b : DealRoom.assertValidDealRoomTransition (DealRoom.DealRoomStatus_name a) (DealRoom.DealRoomStatus_name b) = Ok tt -> edge a b.
Proof.
  unfold DealRoom.assertValidDealRoomTransition. change (DealRoom.DealRoomStatus_name a) with (enum_name a).
  change (DealRoom.DealRoomStatus_name b) with (enum_name b). rewrite assertTransition_names. case_bool_decide as Hd; [tauto|done].
Qed.

Lemma stage_acts x st u db d db' e : trade_tables db -> deals (market db) !! x = Some e -> edge (de_stage e) st ->
  dealRoom_updateStatus x st u db = Ok (d, db') -> acts db db'.
Proof.
  intros T He Hs E. eapply acts_updates; [by eapply deal_updates|]. intros v Hv. assert (v = e) as -> by congruence. by apply step_stage.
Qed.

Lemma post_acts c input d db n db' : trade_ok db -> owner_known (pc_ownerOrgId input) d (market db) ->
  postCondition_tx c input d db = Ok (n, db') -> acts db db'.
Proof.
  intros [T K] (e & He & Hp) E. unfold postCondition_tx in E. apply tbind_Ok in E as (due & ? & [_ ->]%tlift_Ok & E).
  apply tbind_Ok in E as (n' & d1 & C%(condition_creates _ _ _ _ T) & E). cbn in C. assert (acts db d1) as A1.
  { eapply acts_creates; [exact C|]. by apply (step_condition _ _ _ e); [apply (cr_fresh _ _ _ _ _ _ C)|..]. }
  apply tbind_Ok in E as (fresh & ? & [-> Hf]%freshDealRoom_Ok & E).
  apply tbind_Ok in E as (? & d2 & Es & E). assert (acts db d2) as A2.
  { branch Es; [|by injection Es as _ <-]. apply bool_decide_eq_true in Heqb.
    apply tbind_Ok in Es as (? & ? & [Ht ->]%tlift_Ok & Es). apply tbind_Ok in Es as (? & ? & Es & Es'). injection Es' as _ <-.
    eapply acts_trans; [exact A1|]. eapply stage_acts; [apply A1|exact Hf| |exact Es]. cbn [de_stage dealOf]. rewrite Heqb. by apply deal_edge. }
  apply acts_journal in E as (d3 & A3 & E); [|apply A2]. apply tbind_Ok in E as (? & d4 & Es' & E). injection E as _ <-.
  eapply acts_trans; [exact A2|]. eapply acts_trans; [exact A3|].
  branch Es'; [|injection Es' as _ <-; apply acts_refl, A3]. apply acts_event in Es' as (d5 & A5 & Es'); [|apply A3]. by injection Es' as _ <-.
Qed.

Lemma freshCondition_Ok x s db n db' : freshCondition x s db = Ok (n, db') ->
  db' = db /\ conditions (market db) !! x = Some (conditionOf n) /\ edge (DealConditionRow.state n) (resolvedState s).
Proof.
  unfold freshCondition. destruct (condition_findById db x) as [n'|] eqn:Hf; [|done]. unfold assertResolvable, conditionStateName, DealCondition.assertValidDealConditionTransition.
  change (DealCondition.DealConditionState_name (DealConditionRow.state n')) with (enum_name (DealConditionRow.state n')).
  change (DealCondition.DealConditionState_name (resolvedState s)) with (enum_name (resolvedState s)).
  rewrite assertTransition_names. case_bool_decide as Hd; [|done]. cbn. intros [= <- <-]. split_and!; [done| |tauto].
  unfold condition_findById in Hf. by rewrite book_lookup, Hf.
Qed.

Lemma resolve_acts c input p db n db' : trade_ok db -> resolveCondition_tx c input p db = Ok (n, db') -> acts db db'.
Proof.
  intros [T K] E. destruct p as [d n0]. unfold resolveCondition_tx in E.
  apply tbind_Ok in E as (f & ? & (-> & Hf & He)%freshCondition_Ok & E).
  apply tbind_Ok in E as (n' & d1 & U%(condition_updates _ _ _ _ _ _ _ T) & E). assert (acts db d1) as A1.
  { eapply acts_updates; [exact U|]. intros v Hv. rewrite Hf in Hv. injection Hv as <-. by apply step_resolve. }
  apply acts_journal in E as (d2 & A2 & E); [|apply A1]. injection E as _ <-. by eapply acts_trans.
Qed.

Lemma recorded_not_opening t : recordedDecision t <> DealCondition.QUOTE_SELECTED.
Proof. by destruct t. Qed.

Lemma record_acts c input d db u db' : trade_ok db -> recordDecision_tx c input d db = Ok (u, db') -> acts db db'.
Proof.
  intros [T K] E. unfold recordDecision_tx in E. apply tbind_Ok in E as (fresh & ? & [-> Hf]%freshDealRoom_Ok & E).
  apply tbind_Ok in E as ([] & ? & [Hst ->]%tlift_Ok & E).
  apply tbind_Ok in E as (u' & d1 & C%(decision_creates _ _ _ _ T) & E). cbn in C. assert (acts db d1) as A1.
  { eapply acts_creates; [exact C|]. apply (step_ruling _ _ _ (dealOf fresh)); [apply (cr_fresh _ _ _ _ _ _ C)|done|apply recorded_not_opening|done]. }
  set (next := computeNextStatus _ _) in *. clearbody next.
  apply tbind_Ok in E as (? & d2 & Es & E). assert (acts db d2) as A2.
  { destruct next as [st|]; [|by injection Es as _ <-]. apply tbind_Ok in Es as (? & ? & Es & Es'). injection Es' as _ <-.
    eapply acts_trans; [exact A1|]. eapply stage_acts with (e := dealOf fresh); [apply A1| |exact (deal_edge _ _ Hst)|exact Es]. by rewrite (cr_market _ _ _ _ _ _ C). }
  apply acts_journal in E as (d3 & A3 & E); [|apply A2]. apply tbind_Ok in E as (? & d4 & Es' & E). injection E as _ <-.
  eapply acts_trans; [exact A2|]. eapply acts_trans; [exact A3|].
  destruct next; [|injection Es' as _ <-; apply acts_refl, A3]. apply acts_event in Es' as (d5 & A5 & Es'); [|apply A3]. by injection Es' as _ <-.
Qed.

(** ** The expiry job *)

Lemma recordResult_beside info t r db v db' : recordResult sha256_hex info t r db = Ok (v, db') -> beside db db'.
Proof.
  unfold recordResult, idempotency_reserve, idempotency_complete. unfold tbind at 1. cbn [freshId].
  destruct (idempotency_find _ _ _); cbn; [by intros [= <- <-]|].
  destruct (updateById _ _ _) as [[row t']|]; [|done]. cbn. intros [= <- <-]. split; cbn; (done || lia).
Qed.

Lemma job_acts info t m db v db' : trade_tables db -> (forall r d, m db = Ok (r, d) -> acts db d) ->
  withJobIdempotency sha256_hex info t m db = Ok (v, db') -> acts db db'.
Proof.
  intros T Hm. unfold withJobIdempotency.
  assert (forall v db', tbind m (recordResult sha256_hex info t) db = Ok (v, db') -> acts db db') as Run.
  { intros w d2 (r & d1 & E1 & E2%recordResult_beside)%tbind_Ok. apply Hm in E1 as A. eapply acts_trans; [exact A|]. by apply acts_beside; [apply A|]. }
  destruct (idempotency_find _ _ _) as [k|]; [|by apply Run]. destruct (IdempotencyKeyRow.responseStatus k); [|by apply Run].
  destruct (throw_if _ _); [|done]. cbn. intros [= _ <-]. by apply acts_refl.
Qed.

Lemma expire_acts x t p db r db' : trade_ok db -> expiryJob_tx sha256_hex x t p db = Ok (r, db') -> acts db db'.
Proof.
  intros [T K] E. destruct p as [r0|due]; simpl in E; [injection E as _ <-; by apply acts_refl|].
  apply tbind_Ok in E as (b & d1 & E & E'). injection E' as _ <-. unfold expireOne in E.
  destruct (rfq_findById db x) as [rfq|] eqn:Hf; [|injection E as _ <-; by apply acts_refl]. apply find_request in Hf.
  destruct (negb _); [injection E as _ <-; by apply acts_refl|]. apply tbind_Ok in E as (? & d2 & E & E'). injection E' as _ <-.
  eapply job_acts; [done| |exact E]. intros j d Eh. unfold expireRfq in Eh. apply tbind_Ok in Eh as (? & ? & [Ht ->]%tlift_Ok & Eh).
  apply tbind_Ok in Eh as (r' & d3 & U%(rfq_updates _ _ _ _ _ _ T) & Eh). assert (acts db d3) as A.
  { eapply acts_updates; [exact U|]. intros v Hv. rewrite Hf in Hv. injection Hv as <-. apply step_status; [done| |set_solver].
    apply (rfq_edge _ Rfq.EXPIRED). cbn. cbn in Ht. by rewrite Ht. }
  apply acts_journal in Eh as (d4 & A4 & Eh); [|apply A]. injection Eh as _ <-. by eapply acts_trans.
Qed.

End Effects.
