(* ===== verification/TradeSystem.v ===== *)
(** * The RFQ and deal services and the expiry job over one database

    The handler of [Transactions]: nine kinds of request.  What a plan read
    before the transaction still says afterwards, and the two obligations:
    every transaction keeps [trade_ok] and is a run of [market_step]. *)
From S2P Require Import Prelude StableSort Lifecycle DomainStates AuthzMatrix Authz JsDate JsonText Database Tables ApiShared Idempotency.
From S2P Require Import EconomicsRepositories ClaimRepositories LockboxRepositories TradeRepositories RfqService DealService.
From S2P Require Import TradeSpec TradeBook TradeEffects Transactions.
From Stdlib Require Import Ascii.
From stdpp Require Import relations.
#[local] Open Scope Z_scope.

Inductive TradeReq : Type :=
| CreateRfq (c : Call) (input : CreateRfqRequest)
| DeclineRfq (c : Call) (rfqId : string) (declineReason : string)
| SubmitQuote (c : Call) (rfqId : string) (input : SubmitQuoteRequest)
| WithdrawQuote (c : Call) (rfqId quoteId : string)
| SelectQuote (c : Call) (rfqId : string) (input : SelectQuoteRequest)
| PostCondition (c : Call) (dealId : string) (input : PostConditionRequest)
| ResolveCondition (c : Call) (dealId conditionId : string) (input : ResolveConditionRequest)
| RecordDecision (c : Call) (dealId : string) (input : RecordDecisionRequest)
| ExpireRfq (rfqId : string) (now : Z).

Definition trade_plan (r : TradeReq) : Type :=
  match r with
  | CreateRfq _ _ => OpportunityRow.t
  | DeclineRfq _ _ _ | SubmitQuote _ _ _ => InvitedPlan
  | WithdrawQuote _ _ _ | SelectQuote _ _ _ => QuotePlan
  | PostCondition _ _ _ | RecordDecision _ _ _ => DealRoomRow.t
  | ResolveCondition _ _ _ _ => (DealRoomRow.t * DealConditionRow.t)%type
  | ExpireRfq _ _ => (RfqExpiryJobResult + string)%type
  end.

Definition trade_out (r : TradeReq) : Type :=
  match r with
  | CreateRfq _ _ => RfqDetail
  | DeclineRfq _ _ _ => RFQRecipientRow.t
  | SubmitQuote _ _ _ | WithdrawQuote _ _ _ => QuoteRow.t
  | SelectQuote _ _ _ => DealRoomRow.t
  | PostCondition _ _ _ | ResolveCondition _ _ _ _ => DealConditionRow.t
  | RecordDecision _ _ _ => DealDecisionRow.t
  | ExpireRfq _ _ => RfqExpiryJobResult
  end.

(** Everything else on the platform leaves these tables alone, and an
    opportunity with its owner. *)
Record trade_env (db db' : Db) : Prop := {
  te_rfqs : rfqs db' = rfqs db;
  te_recipients : rfqRecipients db' = rfqRecipients db;
  te_quotes : quotes db' = quotes db;
  te_deals : dealRooms db' = dealRooms db;
  te_participants : dealRoomParticipants db' = dealRoomParticipants db;
  te_conditions : dealConditions db' = dealConditions db;
  te_decisions : dealDecisions db' = dealDecisions db;
  te_versions : rfqVersions db' = rfqVersions db;
  te_owners : forall x org, ownerOf db x = Some org -> ownerOf db' x = Some org;
  te_drawn : (drawn db <= drawn db')%nat;
  te_clock : clock db <= clock db'
}.

Section System.
Context `{Platform} (sha256_hex : list ascii -> string).

Definition trade_pre (r : TradeReq) (db : Db) : res (trade_plan r) :=
  match r with
  | CreateRfq c i => createRfq_pre c i db
  | DeclineRfq c x _ => decline_pre c x db
  | SubmitQuote c x _ => submitQuote_pre c x db
  | WithdrawQuote c x q => withdrawQuote_pre c x q db
  | SelectQuote c x i => selectQuote_pre c x i db
  | PostCondition c x i => postCondition_pre c x i db
  | ResolveCondition c x n i => resolveCondition_pre c x n i db
  | RecordDecision c x i => recordDecision_pre c x i db
  | ExpireRfq x t => Ok (expiryJob_pre x t db)
  end.

Definition trade_tx (r : TradeReq) : trade_plan r -> Tx (trade_out r) :=
  match r with
  | CreateRfq c i => createRfq_tx c i
  | DeclineRfq c _ why => decline_tx c why
  | SubmitQuote c _ i => submitQuote_tx c i
  | WithdrawQuote c _ _ => withdrawQuote_tx c
  | SelectQuote c _ i => selectQuote_tx c i
  | PostCondition c _ i => postCondition_tx c i
  | ResolveCondition c _ _ i => resolveCondition_tx c i
  | RecordDecision c _ i => recordDecision_tx c i
  | ExpireRfq x t => expiryJob_tx sha256_hex x t
  end.

Definition trade_service : Handler :=
  {| Req := TradeReq; Plan := trade_plan; Out := trade_out; Resp := trade_out;
     h_pre := trade_pre; h_look := fun _ p _ => p; h_tx := trade_tx; h_finish := fun _ _ out => Ok out |}.

(** ** What a plan still says later *)

Definition trade_plan_ok (r : TradeReq) : trade_plan r -> Db -> Prop :=
  match r with
  | CreateRfq _ _ => opportunity_known
  | DeclineRfq _ _ _ => fun p db => invited_known p (market db)
  | SubmitQuote c _ _ => fun p db => invited_known p (market db) /\
      Actions.organizationId (actor c) = Some (RFQRecipientRow.providerOrgId (ip_recipient p))
  | SelectQuote _ _ _ => fun p db => quote_known p (market db)
  | PostCondition _ _ i => fun d db => owner_known (pc_ownerOrgId i) d (market db)
  | _ => fun _ _ => True
  end.

Lemma loadRfq_Ok db x rfq o : loadRfq db x = Ok (rfq, o) <->
  rfq_findById db x = Some rfq /\ opportunity_findById db (RFQRow.opportunityId rfq) = Some o.
Proof.
  unfold loadRfq. destruct (rfq_findById db x) as [r|]; [|naive_solver].
  destruct (opportunity_findById db (RFQRow.opportunityId r)) eqn:E; naive_solver congruence.
Qed.

Lemma find_owner db x o : opportunity_findById db x = Some o -> ownerOf db x = Some (OpportunityRow.ownerOrgId o) /\ OpportunityRow.id o = x.
Proof. unfold ownerOf. intros Hf. rewrite Hf. split; [done|]. by apply findById_Some in Hf as [_ ?]. Qed.

Lemma myInvitation_Some a x db p : myInvitation a x db = Some p ->
  p ∈ rfqRecipients db /\ RFQRecipientRow.rfqId p = x /\ Actions.organizationId a = Some (RFQRecipientRow.providerOrgId p).
Proof.
  unfold myInvitation, when_present. destruct (Actions.organizationId a) as [org|]; [|done]. destruct (String.eqb org ""); [done|].
  intros [Hin%list_elem_of_In Hp]%find_some. unfold invites in Hp. apply andb_true_iff in Hp as [->%String.eqb_eq <-%String.eqb_eq]. done.
Qed.

Lemma invited_pre_Ok c action x to db p : trade_ok db -> invited_pre c action x to db = Ok p ->
  invited_known p (market db) /\ Actions.organizationId (actor c) = Some (RFQRecipientRow.providerOrgId (ip_recipient p)).
Proof.
  intros [T K] E. unfold invited_pre in E. apply rbind_Ok in E as ([rfq o] & [Hr Ho]%loadRfq_Ok & E). apply rbind_Ok in E as (? & _ & E).
  destruct (myInvitation (actor c) x db) as [q|] eqn:Hq; [|done]. apply rbind_Ok in E as (? & _ & [= <-]).
  apply myInvitation_Some in Hq as (Hin & Ex & Eorg). split; [|done]. exists (invitationOf q). cbn [ip_recipient ip_rfq].
  split_and!; [exact (book_row invitationOf db _ q (tt_recipients _ T) Hin)| |done]. apply findById_Some in Hr as [_ Ei]. cbn. rewrite Ex. by rewrite <- Ei.
Qed.

Lemma quote_known_pre db x rfq o quoteId q l : loadRfq db x = Ok (rfq, o) -> quoteOf db rfq quoteId = Ok q ->
  quote_known {| qp_rfq := rfq; qp_opportunity := o; qp_quote := q; qp_considered := l |} (market db).
Proof.
  intros [Hr Ho]%loadRfq_Ok Hq. unfold quoteOf in Hq. destruct (quote_findById db quoteId) as [q'|] eqn:Hf; [|done].
  destruct (String.eqb_spec (QuoteRow.rfqId q') (RFQRow.id rfq)) as [E|]; [|done]. injection Hq as ->.
  pose proof Hr as [_ Ei]%findById_Some. pose proof Hf as [_ Eq]%findById_Some. change (row_id rfq) with (RFQRow.id rfq) in Ei.
  change (row_id q) with (QuoteRow.id q) in Eq. exists (offerOf q), (requestOf db rfq). cbn [qp_quote qp_rfq qp_opportunity]. split_and!.
  - unfold quote_findById in Hf. cbn. by rewrite book_lookup, Eq, Hf.
  - done.
  - rewrite Ei. by apply find_request.
  - by apply find_owner in Ho as [? _].
Qed.

Lemma authorizedRoom_Ok a action x db d : authorizedRoom a action x db = Ok d -> dealRoom_findById db x = Some d.
Proof.
  unfold authorizedRoom, loadDealRoomAndAuthContext. destruct (dealRoom_findById db x) as [d'|]; [|done]. cbn.
  intros (? & _ & [= <-])%rbind_Ok. done.
Qed.

Lemma trade_plan_pre db r p : trade_ok db -> trade_pre r db = Ok p -> trade_plan_ok r p db.
Proof.
  intros K. destruct r as [c i|c x why|c x i|c x q|c x i|c x i|c x n i|c x i|x t]; simpl; intros E; try done.
  - unfold createRfq_pre in E. destruct (opportunity_findById db _) as [o|] eqn:Ho; [|done].
    do 3 (apply rbind_Ok in E as (? & _ & E)). injection E as <-. unfold opportunity_known.
    apply find_owner in Ho as [Ho Ei]. by rewrite Ei.
  - by eapply invited_pre_Ok.
  - by eapply invited_pre_Ok.
  - unfold selectQuote_pre in E. apply rbind_Ok in E as ([rfq o] & Hl & E). apply rbind_Ok in E as (? & _ & E).
    apply rbind_Ok in E as (q & Hq & E). do 3 (apply rbind_Ok in E as (? & _ & E)). injection E as <-. by eapply quote_known_pre.
  - unfold postCondition_pre in E. apply rbind_Ok in E as (d & Hd%authorizedRoom_Ok & E).
    apply rbind_Ok in E as (? & Ho%throw_if_Ok & [= <-]). pose proof Hd as [_ Ei]%findById_Some. change (row_id d) with (DealRoomRow.id d) in Ei.
    exists (dealOf d). split; [unfold dealRoom_findById in Hd; cbn; by rewrite book_lookup, Ei, Hd|].
    apply andb_false_iff in Ho as [Ho%negb_false_iff%String.eqb_eq|Ho%negb_false_iff%String.eqb_eq]; [by left|by right].
Qed.

(** A plan survives any change to a later market that keeps the owners. *)
Lemma trade_plan_later db db' r p : market_later (market db) (market db') -> (forall x org, ownerOf db x = Some org -> ownerOf db' x = Some org) ->
  trade_plan_ok r p db -> trade_plan_ok r p db'.
Proof.
  intros L Ho. destruct r; simpl; try done.
  - apply Ho.
  - by apply invited_later.
  - intros [Hi ?]. split; [by apply (invited_later L)|done].
  - by apply quote_later.
  - by apply owner_later.
Qed.

(** ** The two obligations *)

Lemma trade_tx_acts db r p out db' : trade_ok db -> trade_plan_ok r p db -> trade_tx r p db = Ok (out, db') -> acts db db'.
Proof.
  intros K. destruct r; simpl.
  - by apply create_acts.
  - by apply decline_acts.
  - intros [? ?]. by apply submit_acts.
  - intros _. by apply withdraw_acts.
  - by apply select_acts.
  - by apply post_acts.
  - intros _. by apply resolve_acts.
  - intros _. by apply record_acts.
  - intros _. by apply expire_acts.
Qed.

Lemma acts_trade_ok db db' : trade_ok db -> acts db db' -> trade_ok db'.
Proof. intros [T K] A. split; [apply A|by eapply acts_ok]. Qed.

Lemma trade_env_market db db' : trade_ok db -> trade_env db db' -> market db' = market db.
Proof.
  intros [T K] [E1 E2 E3 E4 E5 E6 E7 _ Eo _ _]. unfold market. rewrite E1, E2, E3, E4, E5, E6, E7. f_equal.
  apply book_ext. intros r Hr. destruct (mk_requests _ K _ _ (book_row (requestOf db) db _ r (tt_rfqs _ T) Hr)) as [[org Horg] _].
  unfold requestOf. cbn in Horg. by rewrite Horg, (Eo _ _ Horg).
Qed.

Lemma trade_env_keeps db db' : trade_ok db -> trade_env db db' -> trade_ok db'.
Proof.
  intros K Ev. split; [|rewrite (trade_env_market _ _ K Ev); apply K]. destruct K as [[] _], Ev as [E1 E2 E3 E4 E5 E6 E7 E8 _ Hd Hc].
  split; rewrite ?E1, ?E2, ?E3, ?E4, ?E5, ?E6, ?E7, ?E8; first [by eapply table_same|by eapply versions_later].
Qed.

Lemma trade_J_tx db r p out db' r' p' : trade_ok db -> trade_plan_ok r p db -> trade_tx r p db = Ok (out, db') ->
  trade_plan_ok r' p' db -> trade_plan_ok r' p' db'.
Proof.
  intros K J E. pose proof (trade_tx_acts _ _ _ _ _ K J E) as A. apply trade_plan_later; [by apply acts_later|]. intros x org. by rewrite (ac_owners _ _ A).
Qed.

Lemma trade_J_env db db' r p : trade_ok db -> trade_env db db' -> trade_plan_ok r p db -> trade_plan_ok r p db'.
Proof. intros K Ev. apply trade_plan_later; [by rewrite (trade_env_market _ _ K Ev)|apply Ev]. Qed.

#[local] Notation anyone := (fun _ : TradeReq => True).
#[local] Notation reach := (reaches trade_service trade_env anyone).

Lemma trade_wf db s : trade_ok db -> reach db s -> wf trade_service trade_ok trade_plan_ok s.
Proof.
  apply wf_reaches.
  - intros d r p _. apply trade_plan_pre.
  - done.
  - intros d r p out d' K J E. eapply acts_trade_ok; [done|]. by eapply trade_tx_acts.
  - apply trade_env_keeps.
  - apply trade_J_tx.
  - apply trade_J_env.
Qed.

Lemma trade_reach db s : trade_ok db -> reach db s -> trade_ok (store s).
Proof. intros K R. by destruct (trade_wf db s K R). Qed.

(** Between any two moments of a run. *)
Lemma trade_between db s s' : trade_ok db -> reach db s -> rtc (step trade_service trade_env anyone) s s' ->
  rtc market_step (market (store s)) (market (store s')).
Proof.
  intros K R R'. eapply (simulation_between trade_service trade_env anyone trade_ok trade_plan_ok); [..|by apply (trade_wf db)|exact R'].
  - intros d r p _. apply trade_plan_pre.
  - done.
  - intros d r p out d' K' J E. eapply acts_trade_ok; [done|]. by eapply trade_tx_acts.
  - apply trade_env_keeps.
  - apply trade_J_tx.
  - apply trade_J_env.
  - intros d r p out d' K' J E. by apply (trade_tx_acts _ _ _ _ _ K' J E).
  - intros d d' K' Ev. by rewrite (trade_env_market _ _ K' Ev).
Qed.

(** One request on its own. *)
Lemma serve_acts db r : trade_ok db -> acts db (fst (serve trade_service r db)).
Proof.
  intros K. unfold serve. cbn [h_pre h_tx trade_service]. destruct (trade_pre r db) as [p|] eqn:Ep; [|apply acts_refl, K].
  destruct (trade_tx r p db) as [[out db']|] eqn:Et; [|apply acts_refl, K]. eapply trade_tx_acts; [done| |exact Et]. by apply trade_plan_pre.
Qed.

(** The sweep, like the requests it stands for. *)
Lemma sweep_acts l t db : trade_ok db -> acts db (fst (expireEach sha256_hex l t db)).
Proof.
  revert db. induction l as [|rfq l IH]; intros db K; cbn [expireEach]; [apply acts_refl, K|].
  destruct (expireOne _ _ _ _ _) as [[b db1]|] eqn:E; [|apply acts_refl, K].
  assert (acts db db1) as A.
  { eapply (expire_acts sha256_hex (RFQRow.id rfq) t (inr (toISOString (RFQRow.dueAt rfq))) db); [done|]. simpl. by rewrite (tbind_run _ _ _ _ _ E). }
  pose proof (IH db1 (acts_trade_ok _ _ K A)) as A2. destruct (expireEach _ l t db1) as [db2 n]. by eapply acts_trans.
Qed.

End System.
