(* ===== verification/TradeRequests.v ===== *)
(** * When an RFQ or deal request succeeds

    On [trade_ok] tables a request on its own succeeds exactly in the case
    [trade_accepted] describes, and changes nothing otherwise. *)
From S2P Require Import Prelude StableSort Lifecycle DomainStates AuthzMatrix Authz JsDate Receipt JsonText Database Tables ApiShared Idempotency.
From S2P Require Import EconomicsRepositories ClaimRepositories LockboxRepositories TradeRepositories RfqService DealService.
From S2P Require Import TradeSpec TradeBook TradeEffects TradeSystem Transactions.
From Stdlib Require Import Ascii.
#[local] Open Scope Z_scope.

Section Requests.
Context `{Platform} (sha256_hex : list ascii -> string).

(** ** The status guards *)

Lemma decline_guard s : RfqRecipient.assertValidRfqRecipientTransition (RfqRecipient.RfqRecipientState_name s) "DECLINED" = Ok tt <->
  s ∈ [RfqRecipient.INVITED; RfqRecipient.ACKNOWLEDGED; RfqRecipient.QUOTED].
Proof. destruct s; (split; [intros E; first [discriminate E|set_solver]|intros E; first [reflexivity|set_solver]]). Qed.

Lemma quote_guard s : RfqRecipient.assertValidRfqRecipientTransition (RfqRecipient.RfqRecipientState_name s) "QUOTED" = Ok tt <->
  s ∈ [RfqRecipient.INVITED; RfqRecipient.ACKNOWLEDGED].
Proof. destruct s; (split; [intros E; first [discriminate E|set_solver]|intros E; first [reflexivity|set_solver]]). Qed.

Lemma withdraw_guard s : Quote.assertValidQuoteTransition (Quote.QuoteStatus_name s) "WITHDRAWN" = Ok tt <-> s = Quote.SUBMITTED.
Proof. destruct s; (split; [intros E; first [discriminate E|done]|intros E; first [reflexivity|discriminate E]]). Qed.

Lemma select_guard s : Quote.assertValidQuoteTransition (Quote.QuoteStatus_name s) "SELECTED" = Ok tt <-> s = Quote.SUBMITTED.
Proof. destruct s; (split; [intros E; first [discriminate E|done]|intros E; first [reflexivity|discriminate E]]). Qed.

Lemma selected_guard s : Rfq.assertValidRfqTransition (Rfq.RfqStatus_name s) "SELECTED" = Ok tt <-> s = Rfq.QUOTED.
Proof. destruct s; (split; [intros E; first [discriminate E|done]|intros E; first [reflexivity|discriminate E]]). Qed.

Lemma opportunity_selectable s : Opportunity.assertValidOpportunityTransition (Opportunity.OpportunityStatus_name s) "SELECTED" = Ok tt <->
  s ∈ [Opportunity.QUOTED; Opportunity.ACTIVATING].
Proof. destruct s; (split; [intros E; first [discriminate E|set_solver]|intros E; first [reflexivity|set_solver]]). Qed.

(** An RFQ that takes quotes. *)
Definition open_for_quotes : list Rfq.RfqStatus := [Rfq.SENT; Rfq.ACKNOWLEDGED; Rfq.QUESTIONS; Rfq.QUOTED].

Lemma open_not_closed s : s ∈ open_for_quotes -> s ∉ closedToQuotes.
Proof. unfold open_for_quotes, closedToQuotes. destruct s; set_solver. Qed.

Lemma quoted_guard s : s ∉ closedToQuotes -> Rfq.assertValidRfqTransition (Rfq.RfqStatus_name s) "QUOTED" = Ok tt <-> s ∈ open_for_quotes.
Proof. destruct s; (intros Hs; split; [intros E; first [discriminate E|set_solver]|intros E; first [reflexivity|set_solver]]). Qed.

Lemma resolve_guard s r : DealCondition.assertValidDealConditionTransition (DealCondition.DealConditionState_name s)
  (DealCondition.DealConditionState_name (resolvedState r)) = Ok tt <-> s = DealCondition.PENDING.
Proof. destruct s, r; (split; [intros E; first [discriminate E|done]|intros E; first [reflexivity|discriminate E]]). Qed.

(** A decision moves only rooms that may move. *)
Lemma stage_guard d dealRoom : assertStage dealRoom (computeNextStatus d (DealRoomRow.status dealRoom)) = Ok tt.
Proof. unfold assertStage, dealStatusName. by destruct d, (DealRoomRow.status dealRoom). Qed.

(** ** The reads before the transactions *)

Definition invited_ready (c : Call) (action : Actions.Action) (x : string) (states : list RfqRecipient.RfqRecipientState) (db : Db) (p : InvitedPlan) : Prop :=
  rfq_findById db x = Some (ip_rfq p) /\ opportunity_findById db (RFQRow.opportunityId (ip_rfq p)) = Some (ip_opportunity p) /\
  myInvitation (actor c) x db = Some (ip_recipient p) /\
  allowed (can (actor c) action (rfqResource (ip_rfq p) (ip_opportunity p)) (participant (Some (ip_recipient p)))) = true /\
  RFQRecipientRow.state (ip_recipient p) ∈ states.

Lemma invited_pre_exact c action x to states db p :
  (forall s, RfqRecipient.assertValidRfqRecipientTransition (RfqRecipient.RfqRecipientState_name s) to = Ok tt <-> s ∈ states) ->
  invited_pre c action x to db = Ok p <-> invited_ready c action x states db p.
Proof.
  intros G. unfold invited_pre, invited_ready. rewrite rbind_Ok. split.
  - intros ([rfq o] & [Hr Ho]%loadRfq_Ok & E). apply rbind_Ok in E as (? & Ha%require_Ok & E).
    destruct (myInvitation (actor c) x db) as [q|]; [|done]. apply rbind_Ok in E as ([] & Hs%G & [= <-]). done.
  - intros (Hr & Ho & Hq & Ha & Hs). exists (ip_rfq p, ip_opportunity p). split; [by apply loadRfq_Ok|]. rewrite Hq.
    rewrite (proj2 (require_Ok _ tt) Ha). cbn [rbind]. unfold recipientStateName. rewrite (proj2 (G _) Hs). by destruct p.
Qed.

Definition quote_ready (x quoteId : string) (db : Db) (p : QuotePlan) : Prop :=
  rfq_findById db x = Some (qp_rfq p) /\ opportunity_findById db (RFQRow.opportunityId (qp_rfq p)) = Some (qp_opportunity p) /\
  quote_findById db quoteId = Some (qp_quote p) /\ QuoteRow.rfqId (qp_quote p) = x /\ QuoteRow.status (qp_quote p) = Quote.SUBMITTED.

Lemma quoteOf_Ok db rfq x q : rfq_findById db x = Some rfq -> forall y, quoteOf db rfq y = Ok q <-> quote_findById db y = Some q /\ QuoteRow.rfqId q = x.
Proof.
  intros [_ Ei]%findById_Some y. change (row_id rfq) with (RFQRow.id rfq) in Ei. unfold quoteOf. rewrite Ei.
  destruct (quote_findById db y) as [q'|]; [|naive_solver]. destruct (String.eqb_spec (QuoteRow.rfqId q') x); naive_solver.
Qed.

Lemma withdrawQuote_pre_exact c x quoteId db p : withdrawQuote_pre c x quoteId db = Ok p <->
  quote_ready x quoteId db p /\ qp_considered p = [] /\ Actions.organizationId (actor c) = Some (QuoteRow.providerOrgId (qp_quote p)) /\
  allowed (can (actor c) Actions.rfq_withdraw_quote (rfqResource (qp_rfq p) (qp_opportunity p)) (participant (myInvitation (actor c) x db))) = true.
Proof.
  unfold withdrawQuote_pre, quote_ready. rewrite rbind_Ok. split.
  - intros ([rfq o] & [Hr Ho]%loadRfq_Ok & E). apply rbind_Ok in E as (q & [Hq Ex]%(quoteOf_Ok _ _ _ _ Hr) & E).
    apply rbind_Ok in E as (? & Ha%require_Ok & E). apply rbind_Ok in E as (? & Hown%throw_if_Ok & E).
    apply rbind_Ok in E as ([] & Hs%withdraw_guard & [= <-]). apply negb_false_iff, bool_decide_eq_true in Hown. by split_and!.
  - intros ((Hr & Ho & Hq & Ex & Hs) & Hc & Hown & Ha). exists (qp_rfq p, qp_opportunity p). split; [by apply loadRfq_Ok|].
    rewrite (proj2 (quoteOf_Ok _ _ _ (qp_quote p) Hr quoteId)) by done. cbn [rbind]. rewrite (proj2 (require_Ok _ tt) Ha). cbn [rbind].
    rewrite Hown, bool_decide_eq_true_2 by done. cbn [negb throw_if rbind]. unfold quoteStatusName. rewrite (proj2 (withdraw_guard _) Hs).
    destruct p; simpl in *. by subst.
Qed.

Lemma select_pre_exact c x input db p : selectQuote_pre c x input db = Ok p <->
  quote_ready x (xq_quoteId input) db p /\ qp_considered p = map QuoteRow.id (quote_listByRfq db x) /\
  RFQRow.status (qp_rfq p) = Rfq.QUOTED /\ OpportunityRow.status (qp_opportunity p) ∈ [Opportunity.QUOTED; Opportunity.ACTIVATING] /\
  allowed (can (actor c) Actions.rfq_select_quote (rfqResource (qp_rfq p) (qp_opportunity p)) noContext) = true.
Proof.
  unfold selectQuote_pre, quote_ready. rewrite rbind_Ok. split.
  - intros ([rfq o] & [Hr Ho]%loadRfq_Ok & E). apply rbind_Ok in E as (? & Ha%require_Ok & E).
    apply rbind_Ok in E as (q & [Hq Ex]%(quoteOf_Ok _ _ _ _ Hr) & E). apply rbind_Ok in E as ([] & Hs%select_guard & E).
    apply rbind_Ok in E as ([] & Hs2%selected_guard & E). apply rbind_Ok in E as ([] & Hs3%opportunity_selectable & [= <-]).
    pose proof Hr as [_ Ei]%findById_Some. change (row_id rfq) with (RFQRow.id rfq) in Ei. cbn [qp_rfq qp_opportunity qp_quote qp_considered].
    rewrite Ei. by split_and!.
  - intros ((Hr & Ho & Hq & Ex & Hs) & Hc & Hs2 & Hs3 & Ha). exists (qp_rfq p, qp_opportunity p). split; [by apply loadRfq_Ok|].
    rewrite (proj2 (require_Ok _ tt) Ha). cbn [rbind]. rewrite (proj2 (quoteOf_Ok _ _ _ (qp_quote p) Hr (xq_quoteId input))) by done. cbn [rbind].
    unfold quoteStatusName, rfqStatusName, opportunityStatusName. rewrite (proj2 (select_guard _) Hs), (proj2 (selected_guard _) Hs2), (proj2 (opportunity_selectable _) Hs3).
    cbn [rbind]. pose proof Hr as [_ Ei]%findById_Some. change (row_id (qp_rfq p)) with (RFQRow.id (qp_rfq p)) in Ei. rewrite Ei, <- Hc. by destruct p.
Qed.

Definition room_ready (c : Call) (action : Actions.Action) (x : string) (db : Db) (d : DealRoomRow.t) : Prop :=
  dealRoom_findById db x = Some d /\
  allowed (can (actor c) action (resourceOf ResourceType.deal_room x (Some (DealRoomRow.merchantOrgId d)))
    {| Actions.isSelf := None;
       Actions.isParticipant := Some (bool_decide (is_Some (when_present (Actions.organizationId (actor c)) (participant_findByDealRoomAndOrg db x) None))) |}) = true.

Lemma room_exact c action x db d : authorizedRoom (actor c) action x db = Ok d <-> room_ready c action x db d.
Proof.
  unfold authorizedRoom, loadDealRoomAndAuthContext, room_ready. destruct (dealRoom_findById db x) as [d'|] eqn:Hf; [|naive_solver].
  pose proof Hf as [_ Ei]%findById_Some. change (row_id d') with (DealRoomRow.id d') in Ei. cbn [rbind]. rewrite rbind_Ok, Ei. split.
  - intros (u & Ha%require_Ok & [= <-]). done.
  - intros [[= <-] Ha]. exists tt. split; [by apply require_Ok|done].
Qed.

Lemma post_pre_exact c x input db d : postCondition_pre c x input db = Ok d <->
  room_ready c Actions.deal_post_condition x db d /\ party (dealOf d) (pc_ownerOrgId input).
Proof.
  unfold postCondition_pre. rewrite rbind_Ok. setoid_rewrite room_exact. unfold party. cbn [de_merchant de_provider dealOf]. split.
  - intros (d' & Hr & E). apply rbind_Ok in E as (? & Ho%throw_if_Ok & [= <-]). split; [done|].
    apply andb_false_iff in Ho as [Ho%negb_false_iff%String.eqb_eq|Ho%negb_false_iff%String.eqb_eq]; tauto.
  - intros [Hr Ho]. exists d. split; [done|]. rewrite (proj2 (throw_if_Ok _ _ tt)); [done|].
    apply andb_false_iff. destruct Ho as [->| ->]; rewrite String.eqb_refl; [by left|by right].
Qed.

Lemma resolve_pre_exact c x y input db p : resolveCondition_pre c x y input db = Ok p <->
  room_ready c Actions.deal_resolve_condition x db (fst p) /\ condition_findById db y = Some (snd p) /\
  DealConditionRow.dealRoomId (snd p) = x /\ DealConditionRow.state (snd p) = DealCondition.PENDING.
Proof.
  unfold resolveCondition_pre. rewrite rbind_Ok. setoid_rewrite room_exact. split.
  - intros (d & Hr & E). destruct (condition_findById db y) as [n|]; [|done]. apply rbind_Ok in E as (? & Ho%throw_if_Ok & E).
    apply rbind_Ok in E as ([] & Hs%resolve_guard & [= <-]). apply negb_false_iff, String.eqb_eq in Ho.
    pose proof Hr as [[_ Ei]%findById_Some _]. change (row_id d) with (DealRoomRow.id d) in Ei. cbn [fst snd]. split_and!; [done..|congruence|done].
  - intros (Hr & Hf & Ex & Hs). exists (fst p). split; [done|]. rewrite Hf. pose proof Hr as [[_ Ei]%findById_Some _].
    change (row_id (fst p)) with (DealRoomRow.id (fst p)) in Ei. rewrite Ei, Ex, String.eqb_refl. cbn [negb throw_if rbind].
    unfold assertResolvable, conditionStateName. rewrite (proj2 (resolve_guard _ _) Hs). by destruct p.
Qed.

Lemma record_pre_exact c x input db d : recordDecision_pre c x input db = Ok d <-> room_ready c Actions.deal_record_decision x db d.
Proof.
  unfold recordDecision_pre. rewrite rbind_Ok. setoid_rewrite room_exact. split.
  - intros (d' & Hr & E). rewrite stage_guard in E. by injection E as <-.
  - intros Hr. exists d. by rewrite stage_guard.
Qed.

Lemma create_pre_exact' c input db o : createRfq_pre c input db = Ok o <->
  opportunity_findById db (rq_opportunityId input) = Some o /\
  allowed (can (actor c) Actions.rfq_create (resource ResourceType.rfq (Some (OpportunityRow.ownerOrgId o))) noContext) = true /\
  OpportunityRow.status o ∈ [Opportunity.MATCH_READY; Opportunity.INVITED] /\
  length (organization_findManyByIds db (rq_providerOrgIds input)) = length (rq_providerOrgIds input).
Proof.
  unfold createRfq_pre. destruct (opportunity_findById db _) as [o'|]; [|naive_solver]. rewrite rbind_Ok. setoid_rewrite require_Ok. split.
  - intros (? & Ha & E). apply rbind_Ok in E as (? & Hs%throw_if_Ok & E). apply rbind_Ok in E as (? & Hl%throw_if_Ok & [= <-]).
    apply negb_false_iff, Nat.eqb_eq in Hl. split_and!; [done..| |done].
    apply andb_false_iff in Hs as [Hs%negb_false_iff%bool_decide_eq_true|Hs%negb_false_iff%bool_decide_eq_true]; rewrite Hs; set_solver.
  - intros ([= <-] & Ha & Hs & Hl). exists tt. split; [done|]. rewrite Hl, Nat.eqb_refl.
    assert (OpportunityRow.status o' = Opportunity.MATCH_READY \/ OpportunityRow.status o' = Opportunity.INVITED) as [->| ->] by set_solver; done.
Qed.

(** ** The transactions go through *)

Lemma updateById_run {R} `{Row R} x (f : R -> R) t r : findById t x = Some r -> updateById x f t = Ok (f r, map (updating x f) t).
Proof. unfold updateById. by intros ->. Qed.

Lemma rfq_run x st u db r : findById (rfqs db) x = Some r ->
  rfq_updateStatus x st u db = Ok (rfqWith st u r, set_rfqs (map (updating x (rfqWith st u)) (rfqs db)) db).
Proof. unfold rfq_updateStatus. intros Hf. by rewrite (updateById_run _ _ _ _ Hf). Qed.

Lemma recipient_run x st u why db p : findById (rfqRecipients db) x = Some p ->
  rfqRecipient_updateState x st u why db = Ok (recipientWith st u why p, set_rfqRecipients (map (updating x (recipientWith st u why)) (rfqRecipients db)) db).
Proof. unfold rfqRecipient_updateState. intros Hf. by rewrite (updateById_run _ _ _ _ Hf). Qed.

Lemma quote_run x st u db q : findById (quotes db) x = Some q ->
  quote_updateStatus x st u db = Ok (quoteWith st u q, set_quotes (map (updating x (quoteWith st u)) (quotes db)) db).
Proof. unfold quote_updateStatus. intros Hf. by rewrite (updateById_run _ _ _ _ Hf). Qed.

Lemma opportunity_run x st u db o : findById (opportunities db) x = Some o ->
  opportunity_updateStatus x st u db = Ok (opportunityWith st u o, set_opportunities (map (updating x (opportunityWith st u)) (opportunities db)) db).
Proof. unfold opportunity_updateStatus. intros Hf. by rewrite (updateById_run _ _ _ _ Hf). Qed.

Lemma deal_run x st u db d : findById (dealRooms db) x = Some d ->
  dealRoom_updateStatus x st u db = Ok (dealRoomWith st u d, set_dealRooms (map (updating x (dealRoomWith st u)) (dealRooms db)) db).
Proof. unfold dealRoom_updateStatus. intros Hf. by rewrite (updateById_run _ _ _ _ Hf). Qed.

Lemma condition_run x st note u db n : findById (dealConditions db) x = Some n ->
  condition_updateState x st note u db = Ok (conditionWith st note u n, set_dealConditions (map (updating x (conditionWith st note u)) (dealConditions db)) db).
Proof. unfold condition_updateState. intros Hf. by rewrite (updateById_run _ _ _ _ Hf). Qed.

(** What remains is a journal. *)
Ltac journal := match goal with |- exists d db', ?m ?d = _ => assert (commits m) as HT; [eauto 20 with commits|exact (HT d)] end.

#[local] Hint Extern 1 (forall _, commits _) => intros : commits.

Lemma own_id {R} `{Row R} (t : list R) x r : findById t x = Some r -> findById t (row_id r) = Some r.
Proof. intros Hf. pose proof Hf as [_ Ei]%findById_Some. by rewrite Ei. Qed.

Lemma invitation_found db c x p : trade_ok db -> myInvitation (actor c) x db = Some p -> findById (rfqRecipients db) (RFQRecipientRow.id p) = Some p.
Proof. intros [T _] (Hin & _)%myInvitation_Some. exact (findById_elem db _ p (tt_recipients _ T) Hin). Qed.

Lemma decline_runs c x why states db p : trade_ok db -> invited_ready c Actions.rfq_decline x states db p ->
  exists r db', decline_tx c why p db = Ok (r, db').
Proof.
  intros K (_ & _ & Hq & _). unfold decline_tx. erewrite tbind_run by exact (recipient_run _ _ _ _ _ _ (invitation_found _ _ _ _ K Hq)). journal.
Qed.

(** The next version of an invitation's quotes is not taken. *)
Lemma next_version_free db x : existsb (quoteVersionTaken x (nextQuoteVersion db x)) (quotes db) = false.
Proof.
  apply not_true_is_false. intros (q & Hq & E)%existsb_exists. unfold quoteVersionTaken in E. apply andb_true_iff in E as [Ex Ev%Z.eqb_eq].
  assert (q ∈ findMany (desc QuoteRow.quoteVersion) (fun q => String.eqb (QuoteRow.rfqRecipientId q) x) (quotes db)) as Hin.
  { apply sort_by_elem, list_elem_of_In, filter_In. done. }
  unfold nextQuoteVersion in Ev. destruct (findMany _ _ _) as [|a l] eqn:El; [by apply elem_of_nil in Hin|].
  assert (QuoteRow.quoteVersion q <= QuoteRow.quoteVersion a); [|lia].
  pose proof (sort_by_sorted (desc QuoteRow.quoteVersion) (List.filter (fun q => String.eqb (QuoteRow.rfqRecipientId q) x) (quotes db))) as S.
  unfold findMany in El. rewrite El in S. apply StronglySorted_inv in S as [_ Fa]. apply elem_of_cons in Hin as [->|Hin]; [lia|].
  pose proof (proj1 (Forall_forall _ _) Fa q Hin) as Hc. unfold cmp_le, desc, cmp_desc, cmp_on in Hc.
  by apply Z.compare_le_iff.
Qed.

Definition storable (v : Json) : Prop := is_object v = true /\ json_safe v = true.
Definition validDate (s : string) : Prop := is_Some (parseDate s).

Lemma storable_ok v f : storable v -> assertJsonSafePlainObject v f = Ok tt.
Proof. apply safe_object_spec. Qed.

Lemma date_ok s f : validDate s -> exists t, dateColumn s f = Ok t.
Proof. intros [t Ht]. exists t. unfold dateColumn. by rewrite Ht. Qed.

Lemma quote_create_run i db : storable (qi_terms i) -> existsb (quoteVersionTaken (qi_rfqRecipientId i) (qi_quoteVersion i)) (quotes db) = false ->
  exists q, quote_create i db = Ok (q, set_quotes (quotes db ++ [q]) (set_drawn (S (drawn db)) db)).
Proof.
  intros Ht Hv. unfold quote_create. rewrite (storable_ok _ _ Ht). erewrite tbind_run by done. erewrite tbind_run by done.
  cbn [quotes set_drawn]. rewrite Hv. by eexists.
Qed.

Lemma submit_runs c x input db p : trade_ok db -> invited_ready c Actions.rfq_submit_quote x [RfqRecipient.INVITED; RfqRecipient.ACKNOWLEDGED] db p ->
  RFQRow.status (ip_rfq p) ∈ open_for_quotes -> validDate (uq_validUntil input) -> storable (uq_terms input) ->
  exists q db', submitQuote_tx c input p db = Ok (q, db').
Proof.
  intros K (Hr & Ho & Hq & _ & Hs) Hopen [valid Hvalid]%(fun H => date_ok _ "validUntil" H) Hterms.
  pose proof (invitation_found _ _ _ _ K Hq) as Hp. apply myInvitation_Some in Hq as (_ & _ & Horg).
  assert (RFQRow.status (ip_rfq p) ∉ closedToQuotes) as Hcl by (by apply open_not_closed).
  unfold submitQuote_tx, uniqueSafe. cut (exists q db', submitQuote_body c input p db = Ok (q, db')).
  { intros (q & db' & ->). by eexists _, _. }
  pose proof (own_id _ _ _ Hr) as Hr'. change (row_id (ip_rfq p)) with (RFQRow.id (ip_rfq p)) in Hr'.
  pose proof (own_id _ _ _ Ho) as Ho'. change (row_id (ip_opportunity p)) with (OpportunityRow.id (ip_opportunity p)) in Ho'.
  unfold submitQuote_body. rewrite (tbind_run _ _ db (ip_rfq p) db) by (unfold freshRfq, rfq_findById; by rewrite Hr').
  rewrite (bool_decide_eq_false_2 _ Hcl). erewrite tbind_run by done. erewrite tbind_run by done.
  unfold actorOrg. rewrite Horg. erewrite tbind_run by done. rewrite Hvalid. erewrite tbind_run by done.
  match goal with |- context [quote_create ?i] => destruct (quote_create_run i db Hterms (next_version_free db _)) as (q & Eq) end.
  rewrite (tbind_run _ _ _ _ _ Eq). clear Eq. rewrite (bool_decide_eq_false_2 (RFQRecipientRow.state (ip_recipient p) = RfqRecipient.QUOTED)) by (intros E; rewrite E in Hs; set_solver).
  erewrite tbind_run; [|erewrite tbind_run; [|apply recipient_run; exact Hp]; reflexivity].
  match goal with |- context [if ?b then tret tt else ?m] => set (upd := if b then tret tt else m) end.
  assert (forall d, rfqs d = rfqs db -> exists d', upd d = Ok (tt, d') /\ opportunities d' = opportunities d) as U.
  { intros d Ed. unfold upd. case_bool_decide as Hst; [by exists d|]. unfold rfqStatusName. rewrite (proj2 (quoted_guard _ Hcl) Hopen). erewrite tbind_run by done.
    erewrite tbind_run; [|apply rfq_run; by rewrite Ed]. by eexists. }
  clearbody upd. match goal with |- context [tbind upd _ ?d] => destruct (U d eq_refl) as (d2 & E2 & Eo2); rewrite (tbind_run _ _ _ _ _ E2) end.
  cbn [opportunities set_rfqRecipients set_quotes set_drawn] in Eo2. case_bool_decide as Hinv.
  - erewrite tbind_run; [|erewrite tbind_run by done; erewrite tbind_run; [|apply opportunity_run; by rewrite Eo2]; reflexivity]. journal.
  - journal.
Qed.

Lemma freshQuote_run x to db q : findById (quotes db) x = Some q -> Quote.assertValidQuoteTransition (quoteStatusName q) to = Ok tt ->
  freshQuote x to db = Ok (q, db).
Proof. unfold freshQuote, quote_findById. intros -> ->. done. Qed.

Lemma withdrawQuote_runs c x quoteId db p : quote_ready x quoteId db p -> exists q db', withdrawQuote_tx c p db = Ok (q, db').
Proof.
  intros (_ & _ & Hq & _ & Hs). pose proof (own_id _ _ _ Hq) as Hq'. unfold withdrawQuote_tx.
  erewrite tbind_run by exact (freshQuote_run _ _ _ _ Hq' (proj2 (withdraw_guard _) Hs)).
  erewrite tbind_run by exact (quote_run _ _ _ _ _ Hq'). journal.
Qed.

(** ** Selecting *)

Lemma find_offer db x q : quote_findById db x = Some q -> offers (market db) !! x = Some (offerOf q).
Proof. unfold quote_findById. intros Hf. cbn. by rewrite book_lookup, Hf. Qed.


Lemma deal_free db x p y : trade_ok db -> quote_ready x y db p -> RFQRow.status (qp_rfq p) = Rfq.QUOTED ->
  existsb (dealTaken (RFQRow.id (qp_rfq p)) (QuoteRow.id (qp_quote p))) (dealRooms db) = false.
Proof.
  intros [T K] (Hr & _ & Hq & _ & Hs) Hst. apply not_true_is_false. intros (d & Hd%list_elem_of_In & E)%existsb_exists.
  destruct (mk_deals _ K _ _ (book_row dealOf db _ d (tt_deals _ T) Hd)) as [(o & Ho & So & _) (r & Hrq & Sr & _) _ _ _ _].
  pose proof (own_id _ _ _ Hr) as Hr'. pose proof (own_id _ _ _ Hq) as Hq'.
  unfold dealTaken in E. apply orb_true_iff in E as [E%String.eqb_eq|E%String.eqb_eq].
  - cbn [de_request dealOf] in Hrq. rewrite E in Hrq. pose proof (find_request _ _ _ Hr') as E2. change (row_id (qp_rfq p)) with (RFQRow.id (qp_rfq p)) in E2. rewrite E2 in Hrq. injection Hrq as <-. simpl in Sr. congruence.
  - cbn [de_offer dealOf] in Ho. rewrite E in Ho. pose proof (find_offer _ _ _ Hq') as E2. change (row_id (qp_quote p)) with (QuoteRow.id (qp_quote p)) in E2. rewrite E2 in Ho. injection Ho as <-. simpl in So. congruence.
Qed.

Lemma no_participants db x : trade_ok db -> deals (market db) !! x = None -> forall e, e ∈ dealRoomParticipants db -> DealRoomParticipantRow.dealRoomId e <> x.
Proof.
  intros [T K] Hx e He <-. destruct (mk_members _ K _ _ (book_row memberOf db _ e (tt_participants _ T) He)) as (d & Hd & _). cbn [me_deal memberOf] in Hd. congruence.
Qed.

Lemma participant_run i db : (forall e, e ∈ dealRoomParticipants db -> DealRoomParticipantRow.dealRoomId e = dp_dealRoomId i ->
    DealRoomParticipantRow.organizationId e <> dp_organizationId i) ->
  exists e, participant_create i db = Ok (e, set_dealRoomParticipants (dealRoomParticipants db ++ [e]) (set_drawn (S (drawn db)) db)) /\
    DealRoomParticipantRow.organizationId e = dp_organizationId i.
Proof.
  intros Hf. unfold participant_create. erewrite tbind_run by done. unfold participant_findByDealRoomAndOrg, findUnique.
  cbn [dealRoomParticipants set_drawn]. destruct (List.find _ (dealRoomParticipants db)) as [e|] eqn:E; [|by eexists].
  apply find_some in E as [He%list_elem_of_In Ep]. unfold participates in Ep. apply andb_true_iff in Ep as [E1%String.eqb_eq E2%String.eqb_eq].
  by destruct (Hf e He E1).
Qed.

Lemma deal_create_run i db : existsb (dealTaken (dc_rfqId i) (dc_selectedQuoteId i)) (dealRooms db) = false ->
  exists d, dealRoom_create i db = Ok (d, set_dealRooms (dealRooms db ++ [d]) (set_drawn (S (drawn db)) db)) /\ DealRoomRow.id d = newId (drawn db).
Proof. intros Hf. unfold dealRoom_create. erewrite tbind_run by done. cbn [dealRooms set_drawn]. rewrite Hf. by eexists. Qed.

Lemma considered_safe (l : list string) y : json_safe (JObj [("consideredQuoteIds", JArr (map JStr l)); ("selectedQuoteId", JStr y)]) = true.
Proof. cbn. rewrite andb_true_r. induction l as [|a l IH]; [done|]. exact IH. Qed.

Lemma decision_create_run i db : (forall s, dd_comparisonSnapshot i = Some s -> storable s) -> exists u db', decision_create i db = Ok (u, db').
Proof.
  intros Hs. unfold decision_create. destruct (dd_comparisonSnapshot i) as [s|].
  - rewrite (storable_ok _ _ (Hs s eq_refl)). erewrite tbind_run by done. by eexists _, _.
  - by eexists _, _.
Qed.

Lemma select_runs c x input db p : trade_ok db -> quote_ready x (xq_quoteId input) db p -> RFQRow.status (qp_rfq p) = Rfq.QUOTED ->
  OpportunityRow.ownerOrgId (qp_opportunity p) <> QuoteRow.providerOrgId (qp_quote p) ->
  exists d db', selectQuote_tx c input p db = Ok (d, db').
Proof.
  intros K Hready Hst Hne. pose proof Hready as (Hr & Ho & Hq & _ & Hs). pose proof (deal_free _ _ _ _ K Hready Hst) as Hfree.
  pose proof (own_id _ _ _ Hr) as Hr'. pose proof (own_id _ _ _ Ho) as Ho'. pose proof (own_id _ _ _ Hq) as Hq'.
  assert (deals (market db) !! newId (drawn db) = None) as Hnew.
  { destruct (deals (market db) !! newId (drawn db)) as [d|] eqn:E; [|done]. apply book_Some in E as (d0 & [Hin Ei]%findById_Some & _).
    pose proof (proj1 (Forall_forall _ _) (tb_ids _ _ (tt_deals _ (to_tables _ K))) d0 Hin) as (n & Hn & En). rewrite Ei in En.
    apply newId_inj in En. lia. }
  pose proof (no_participants _ _ K Hnew) as Hnop.
  unfold selectQuote_tx, uniqueSafe. cut (exists d db', selectQuote_body c input p db = Ok (d, db')). { intros (d & db' & ->). by eexists _, _. }
  unfold selectQuote_body. erewrite tbind_run by exact (freshQuote_run _ _ _ _ Hq' (proj2 (select_guard _) Hs)).
  erewrite tbind_run by exact (quote_run _ _ _ _ _ Hq'). erewrite tbind_run; [|apply rfq_run; exact Hr'].
  erewrite tbind_run; [|apply opportunity_run; exact Ho'].
  match goal with |- context [tbind (dealRoom_create ?i) _ ?d] => destruct (deal_create_run i d Hfree) as (room & E & Eid) end.
  rewrite (tbind_run _ _ _ _ _ E). clear E. cbn [drawn set_opportunities set_rfqs set_quotes] in Eid. rewrite Eid.
  match goal with |- context [tbind (participant_create ?i) _ ?d] => destruct (participant_run i d) as (e1 & E & Eo1) end.
  { intros e He E. by destruct (Hnop e He). }
  rewrite (tbind_run _ _ _ _ _ E). clear E. cbn [dp_organizationId] in Eo1.
  match goal with |- context [tbind (participant_create ?i) _ ?d] => destruct (participant_run i d) as (e2 & E & _) end.
  { intros e [He|He%list_elem_of_singleton]%elem_of_app E; [by destruct (Hnop e He)|]. subst e. cbn [dp_organizationId]. rewrite Eo1. exact Hne. }
  rewrite (tbind_run _ _ _ _ _ E). clear E.
  match goal with |- context [tbind (decision_create ?i) _ ?d] => destruct (decision_create_run i d) as (u & d' & E) end.
  { intros s [= <-]. split; [done|]. apply considered_safe. }
  rewrite (tbind_run _ _ _ _ _ E). clear E. journal.
Qed.

(** ** Deal rooms *)

Lemma freshDealRoom_run x db d : dealRoom_findById db x = Some d -> freshDealRoom x db = Ok (d, db).
Proof. unfold freshDealRoom. by intros ->. Qed.

Definition dueAtOk (s : option string) : Prop := forall v, s = Some v -> v <> "" -> validDate v.

Lemma due_ok s : dueAtOk s -> exists t, when_present s (fun s => let! t := dateColumn s "dueAt" in Ok (Some t)) (Ok None) = Ok t.
Proof.
  intros Hd. unfold when_present. destruct s as [v|]; [|by eexists]. destruct (String.eqb_spec v ""); [by eexists|].
  destruct (date_ok v "dueAt" (Hd v eq_refl n)) as [t ->]. by eexists.
Qed.

Lemma condition_create_run i db :
  exists n, condition_create i db = Ok (n, set_dealConditions (dealConditions db ++ [n]) (set_drawn (S (drawn db)) db)).
Proof. unfold condition_create. erewrite tbind_run by done. by eexists. Qed.

Lemma post_runs c x input db d : dealRoom_findById db x = Some d -> dueAtOk (pc_dueAt input) -> exists n db', postCondition_tx c input d db = Ok (n, db').
Proof.
  intros Hf [due Hdue]%due_ok. pose proof (own_id _ _ _ Hf) as Hf'. unfold postCondition_tx. rewrite Hdue. erewrite tbind_run by done.
  match goal with |- context [condition_create ?i] => destruct (condition_create_run i db) as (n & E) end. rewrite (tbind_run _ _ _ _ _ E). clear E.
  erewrite tbind_run; [|apply freshDealRoom_run; exact Hf'].
  destruct (bool_decide (DealRoomRow.status d = DealRoom.OPEN)).
  - erewrite tbind_run; [|erewrite tbind_run by done; erewrite tbind_run; [|apply deal_run; exact Hf']; reflexivity]. journal.
  - erewrite tbind_run by done. journal.
Qed.

Lemma resolveCondition_runs c y input db p : condition_findById db y = Some (snd p) -> DealConditionRow.state (snd p) = DealCondition.PENDING ->
  exists n db', resolveCondition_tx c input p db = Ok (n, db').
Proof.
  destruct p as [d n]. cbn [snd]. intros Hf Hs. pose proof (own_id _ _ _ Hf) as Hf'. change (row_id n) with (DealConditionRow.id n) in Hf'. unfold resolveCondition_tx.
  erewrite tbind_run.
  2: { unfold freshCondition, condition_findById. rewrite Hf'. unfold assertResolvable, conditionStateName.
       rewrite (proj2 (resolve_guard _ _) Hs). reflexivity. }
  erewrite tbind_run; [|apply condition_run; exact Hf']. journal.
Qed.

Lemma record_runs c x input db d : dealRoom_findById db x = Some d -> exists u db', recordDecision_tx c input d db = Ok (u, db').
Proof.
  intros Hf. pose proof (own_id _ _ _ Hf) as Hf'. unfold recordDecision_tx. erewrite tbind_run; [|apply freshDealRoom_run; exact Hf'].
  rewrite stage_guard. erewrite tbind_run by done. unfold decision_create. cbn [dd_comparisonSnapshot].
  erewrite tbind_run; [|erewrite tbind_run by done; erewrite tbind_run by done; reflexivity].
  destruct (computeNextStatus _ _) as [st|].
  - erewrite tbind_run; [|erewrite tbind_run; [|apply deal_run; exact Hf']; reflexivity]. journal.
  - erewrite tbind_run by done. journal.
Qed.

(** ** Sending *)

Lemma recipients_run c x orgs db : NoDup orgs ->
  (forall p, p ∈ rfqRecipients db -> RFQRecipientRow.rfqId p = x -> RFQRecipientRow.providerOrgId p ∉ orgs) ->
  exists l db', tmapM (fun org => rfqRecipient_create {| rr_rfqId := x; rr_providerOrgId := org;
    rr_createdByUserId := Some (Actions.userId (actor c)); rr_createdByOrgId := Actions.organizationId (actor c) |}) orgs db = Ok (l, db') /\
    opportunities db' = opportunities db.
Proof.
  intros Hnd. revert db. induction Hnd as [|org orgs Horg Hnd IH]; intros db Hf; cbn [tmapM]; [by eexists _, _|].
  match goal with |- context [rfqRecipient_create ?i] =>
    assert (exists p, rfqRecipient_create i db = Ok (p, set_rfqRecipients (rfqRecipients db ++ [p]) (set_drawn (S (drawn db)) db)) /\
      RFQRecipientRow.providerOrgId p = org) as (p & E & Ep) end.
  { unfold rfqRecipient_create. erewrite tbind_run by done. unfold rfqRecipient_findByRfqAndProviderOrg, findUnique. cbn [rfqRecipients set_drawn].
    destruct (List.find _ (rfqRecipients db)) as [q|] eqn:Hq; [|by eexists]. apply find_some in Hq as [Hq%list_elem_of_In Ei].
    unfold invites in Ei. apply andb_true_iff in Ei as [E1%String.eqb_eq E2%String.eqb_eq]. destruct (Hf q Hq E1). cbn in E2. rewrite E2. left. }
  rewrite (tbind_run _ _ _ _ _ E). clear E. match goal with |- context [tbind (tmapM _ orgs) _ ?d] => destruct (IH d) as (l & db' & E & Eo) end.
  { intros q [Hq|Hq%list_elem_of_singleton]%elem_of_app Ex; [intros Hin; apply (Hf q Hq Ex); by right|]. subst q. by rewrite Ep. }
  rewrite (tbind_run _ _ _ _ _ E). by eexists _, _.
Qed.

Lemma new_request_unknown db : trade_ok db -> requests (market db) !! newId (drawn db) = None.
Proof.
  intros [T _]. destruct (requests (market db) !! newId (drawn db)) as [r|] eqn:E; [|done]. apply book_Some in E as (r0 & [Hin Ei]%findById_Some & _).
  pose proof (proj1 (Forall_forall _ _) (tb_ids _ _ (tt_rfqs _ T)) r0 Hin) as (n & Hn & En). rewrite Ei in En. apply newId_inj in En. lia.
Qed.

Lemma createRfq_runs c input db o : trade_ok db -> opportunity_findById db (rq_opportunityId input) = Some o ->
  validDate (rq_dueAt input) -> storable (rq_disclosureSnapshot input) -> NoDup (rq_providerOrgIds input) ->
  exists d db', createRfq_tx c input o db = Ok (d, db').
Proof.
  intros K Ho [due Hdue]%(fun H => date_ok _ "dueAt" H) Hsnap Hnd. pose proof (own_id _ _ _ Ho) as Ho'. unfold createRfq_tx.
  rewrite Hdue. erewrite tbind_run by done. unfold TradeRepositories.rfq_create. erewrite tbind_run; [|erewrite tbind_run by done; reflexivity].
  unfold rfqVersion_create. cbn [rv_disclosureSnapshot RFQRow.id]. rewrite (storable_ok _ _ Hsnap). erewrite tbind_run.
  2: { erewrite tbind_run by done. erewrite tbind_run by done. unfold rfqVersion_findByRfqAndVersion, findUnique. cbn [rfqVersions set_drawn set_rfqs rv_rfqId].
       destruct (List.find _ (rfqVersions db)) as [v|] eqn:Hv; [|reflexivity]. exfalso. apply find_some in Hv as [Hv%list_elem_of_In Ev].
       unfold versionOf in Ev. apply andb_true_iff in Ev as [Ev%String.eqb_eq _].
       pose proof (proj1 (Forall_forall _ _) (tt_versions _ (to_tables _ K)) v Hv) as (n & Hn & En). rewrite En in Ev. apply newId_inj in Ev. lia. }
  match goal with |- context [tbind (tmapM _ _) _ ?d] => destruct (recipients_run c (newId (drawn db)) (rq_providerOrgIds input) d Hnd) as (l & d2 & E & Eo) end.
  { intros p Hp Ex. pose proof (mk_invitations _ (to_market _ K) _ _ (book_row invitationOf db _ p (tt_recipients _ (to_tables _ K)) Hp)) as [r Hr].
    cbn [in_request invitationOf] in Hr. rewrite Ex, (new_request_unknown db K) in Hr. done. }
  rewrite (tbind_run _ _ _ _ _ E). clear E. cbn [opportunities set_rfqVersions set_drawn set_rfqs] in Eo.
  destruct (bool_decide (OpportunityRow.status o = Opportunity.MATCH_READY)).
  - erewrite tbind_run; [|erewrite tbind_run by done; erewrite tbind_run; [|apply opportunity_run; rewrite Eo; exact Ho']; reflexivity]. journal.
  - erewrite tbind_run by done. journal.
Qed.

(** ** Expiring *)

Definition expiryKey (x dueAt : string) : string := x +:+ ":" +:+ dueAt.
Definition expiryPayload (x dueAt : string) (r : RFQRow.t) : Json :=
  JObj [("rfqId", JStr x); ("dueAt", JStr dueAt); ("fromStatus", JStr (Rfq.RfqStatus_name (RFQRow.status r)))].

(** The result stored for this key, if any, is the result of this request. *)
Definition stored_result_agrees (x dueAt : string) (r : RFQRow.t) (db : Db) : Prop :=
  forall k, idempotency_find db "worker.rfq-expiry" (expiryKey x dueAt) = Some k -> IdempotencyKeyRow.responseStatus k <> None ->
    IdempotencyKeyRow.requestHash k = hashPayload sha256_hex (expiryPayload x dueAt r).

Definition expiry_clear (x : string) (t : Z) (db : Db) : Prop :=
  forall r, rfq_findById db x = Some r -> RFQRow.dueAt r <= t -> RFQRow.status r ∈ EXPIRABLE_STATUSES ->
    stored_result_agrees x (toISOString (RFQRow.dueAt r)) r db.

Lemma recordResult_run info t v db : exists db', recordResult sha256_hex info t v db = Ok (v, db').
Proof.
  unfold recordResult, idempotency_reserve, idempotency_complete, tbind, freshId.
  destruct (idempotency_find _ _ _); cbn -[updateById]; [by eexists|].
  unfold updateById, findById. cbn [idempotencyKeys set_idempotencyKeys set_drawn]. unfold findUnique.
  match goal with |- context [List.find (byId ?x) (?l ++ [?r])] => assert (exists a, List.find (byId x) (l ++ [r]) = Some a) as (a & ->) end.
  { induction (idempotencyKeys db) as [|k l IH]; cbn [app List.find]; unfold byId at 1; cbn; [rewrite String.eqb_refl; by eexists|].
    destruct (String.eqb _ _); [by eexists|exact IH]. }
  by eexists.
Qed.

Lemma expirable_guard s : s ∈ EXPIRABLE_STATUSES -> Rfq.assertValidRfqTransition (Rfq.RfqStatus_name s) "EXPIRED" = Ok tt.
Proof. unfold EXPIRABLE_STATUSES. destruct s; intros Hs; first [reflexivity|set_solver]. Qed.

Lemma job_run info t m db : (exists v db', m db = Ok (v, db')) ->
  (forall k, idempotency_find db (ji_scope info) (ji_key info) = Some k -> IdempotencyKeyRow.responseStatus k <> None ->
     IdempotencyKeyRow.requestHash k = hashPayload sha256_hex (ji_requestPayload info)) <->
  exists v db', withJobIdempotency sha256_hex info t m db = Ok (v, db').
Proof.
  intros (v & d1 & Em). unfold withJobIdempotency.
  assert (exists v db', tbind m (recordResult sha256_hex info t) db = Ok (v, db')) as Run.
  { rewrite (tbind_run _ _ _ _ _ Em). destruct (recordResult_run info t v d1) as (d2 & E). by eexists _, _. }
  destruct (idempotency_find _ _ _) as [k|]; [|split; [intros _; exact Run|done]].
  destruct (IdempotencyKeyRow.responseStatus k) as [s|] eqn:Es; [|split; [intros _; exact Run|intros _ k' [= <-] Hn; congruence]].
  split.
  - intros Hk. rewrite (Hk k eq_refl) by congruence. rewrite String.eqb_refl. by eexists _, _.
  - intros (w & d2 & E) k' [= <-] _. destruct (String.eqb_spec (IdempotencyKeyRow.requestHash k) (hashPayload sha256_hex (ji_requestPayload info))); [done|discriminate E].
Qed.

Lemma expireRfq_run x due r db : rfq_findById db x = Some r -> RFQRow.status r ∈ EXPIRABLE_STATUSES ->
  exists v db', expireRfq x due (RFQRow.status r) db = Ok (v, db').
Proof.
  intros Hf Hs. unfold expireRfq. rewrite (expirable_guard _ Hs). erewrite tbind_run by done.
  erewrite tbind_run; [|apply rfq_run; exact Hf]. journal.
Qed.

Lemma expire_exact x t db : expiry_clear x t db <-> exists r db', expiryJob_tx sha256_hex x t (expiryJob_pre x t db) db = Ok (r, db').
Proof.
  unfold expiry_clear, expiryJob_pre, expiryJob_tx. destruct (rfq_findById db x) as [r|] eqn:Hf; [|split; [intros _; by eexists _, _|done]].
  destruct (Z.ltb_spec t (RFQRow.dueAt r)) as [Hlt|Hge]; [split; [intros _; by eexists _, _|intros _ r' [= <-]; lia]|].
  unfold expireOne. destruct (decide (RFQRow.status r ∈ EXPIRABLE_STATUSES)) as [Hs|Hs].
  - pose proof (job_run {| ji_scope := "worker.rfq-expiry"; ji_key := x +:+ ":" +:+ toISOString (RFQRow.dueAt r);
      ji_requestPayload := expiryPayload x (toISOString (RFQRow.dueAt r)) r |} t _ db (expireRfq_run x (toISOString (RFQRow.dueAt r)) r db Hf Hs)) as J.
    unfold expiryPayload in J. unfold tbind at 1. rewrite Hf, bool_decide_eq_true_2 by done. cbn [negb]. unfold tbind. split.
    + intros Hc. destruct (proj1 J) as (v & db' & ->); [exact (Hc r eq_refl Hge Hs)|]. by eexists _, _.
    + intros (o & d & E) r' [= <-] _ _. refine (proj2 J _). destruct (withJobIdempotency _ _ _ _ db) as [[v d1]|] eqn:E1; [|discriminate E].
      by eexists _, _.
  - split; [intros _|intros _ r' [= <-] _ ?; done]. unfold tbind. rewrite Hf, bool_decide_eq_false_2 by done. by eexists _, _.
Qed.

(** ** The cases in which a request goes through *)

Definition trade_accepted (r : TradeReq) (db : Db) : Prop :=
  match r with
  | CreateRfq c i => exists o, opportunity_findById db (rq_opportunityId i) = Some o /\
      allowed (can (actor c) Actions.rfq_create (resource ResourceType.rfq (Some (OpportunityRow.ownerOrgId o))) noContext) = true /\
      OpportunityRow.status o ∈ [Opportunity.MATCH_READY; Opportunity.INVITED] /\
      length (organization_findManyByIds db (rq_providerOrgIds i)) = length (rq_providerOrgIds i) /\
      NoDup (rq_providerOrgIds i) /\ validDate (rq_dueAt i) /\ storable (rq_disclosureSnapshot i)
  | DeclineRfq c x _ => exists p, invited_ready c Actions.rfq_decline x [RfqRecipient.INVITED; RfqRecipient.ACKNOWLEDGED; RfqRecipient.QUOTED] db p
  | SubmitQuote c x i => exists p, invited_ready c Actions.rfq_submit_quote x [RfqRecipient.INVITED; RfqRecipient.ACKNOWLEDGED] db p /\
      RFQRow.status (ip_rfq p) ∈ open_for_quotes /\ validDate (uq_validUntil i) /\ storable (uq_terms i)
  | WithdrawQuote c x q => exists p, quote_ready x q db p /\ Actions.organizationId (actor c) = Some (QuoteRow.providerOrgId (qp_quote p)) /\
      allowed (can (actor c) Actions.rfq_withdraw_quote (rfqResource (qp_rfq p) (qp_opportunity p)) (participant (myInvitation (actor c) x db))) = true
  | SelectQuote c x i => exists p, quote_ready x (xq_quoteId i) db p /\ RFQRow.status (qp_rfq p) = Rfq.QUOTED /\
      OpportunityRow.status (qp_opportunity p) ∈ [Opportunity.QUOTED; Opportunity.ACTIVATING] /\
      allowed (can (actor c) Actions.rfq_select_quote (rfqResource (qp_rfq p) (qp_opportunity p)) noContext) = true /\
      OpportunityRow.ownerOrgId (qp_opportunity p) <> QuoteRow.providerOrgId (qp_quote p)
  | PostCondition c x i => exists d, room_ready c Actions.deal_post_condition x db d /\ party (dealOf d) (pc_ownerOrgId i) /\ dueAtOk (pc_dueAt i)
  | ResolveCondition c x y _ => exists d n, room_ready c Actions.deal_resolve_condition x db d /\ condition_findById db y = Some n /\
      DealConditionRow.dealRoomId n = x /\ DealConditionRow.state n = DealCondition.PENDING
  | RecordDecision c x _ => exists d, room_ready c Actions.deal_record_decision x db d
  | ExpireRfq x t => expiry_clear x t db
  end.

Lemma trade_accepted_runs r db : trade_ok db -> trade_accepted r db ->
  exists p out db', trade_pre r db = Ok p /\ trade_tx sha256_hex r p db = Ok (out, db').
Proof.
  intros K. destruct r as [c i|c x why|c x i|c x q|c x i|c x i|c x y i|c x i|x t]; simpl.
  - intros (o & Ho & Ha & Hs & Hl & Hnd & Hd & Hsn). destruct (createRfq_runs c i db o K Ho Hd Hsn Hnd) as (d & db' & E).
    exists o, d, db'. split; [by apply create_pre_exact'|done].
  - intros (p & Hp). destruct (decline_runs c x why _ db p K Hp) as (r & db' & E). exists p, r, db'. split; [|done].
    by apply (invited_pre_exact _ _ _ _ _ _ _ decline_guard).
  - intros (p & Hp & Hs & Hd & Ht). destruct (submit_runs c x i db p K Hp Hs Hd Ht) as (r & db' & E). exists p, r, db'. split; [|done].
    by apply (invited_pre_exact _ _ _ _ _ _ _ quote_guard).
  - intros (p & Hp & Ho & Ha). set (p' := {| qp_rfq := qp_rfq p; qp_opportunity := qp_opportunity p; qp_quote := qp_quote p; qp_considered := [] |}).
    destruct (withdrawQuote_runs c x q db p' Hp) as (r & db' & E). exists p', r, db'. split; [|done]. by apply withdrawQuote_pre_exact.
  - intros (p & Hp & Hs & Hso & Ha & Hne).
    set (p' := {| qp_rfq := qp_rfq p; qp_opportunity := qp_opportunity p; qp_quote := qp_quote p; qp_considered := map QuoteRow.id (quote_listByRfq db x) |}).
    destruct (select_runs c x i db p' K Hp Hs Hne) as (r & db' & E). exists p', r, db'. split; [|done]. by apply select_pre_exact.
  - intros (d & Hr & Hp & Hd). destruct (post_runs c x i db d (proj1 Hr) Hd) as (n & db' & E). exists d, n, db'. split; [|done]. by apply post_pre_exact.
  - intros (d & n & Hr & Hf & Ex & Hs). destruct (resolveCondition_runs c y i db (d, n) Hf Hs) as (n' & db' & E). exists (d, n), n', db'. split; [|done].
    by apply resolve_pre_exact.
  - intros (d & Hr). destruct (record_runs c x i db d (proj1 Hr)) as (u & db' & E). exists d, u, db'. split; [|done]. by apply record_pre_exact.
  - intros (r & db' & E)%expire_exact. by exists (expiryJob_pre x t db), r, db'.
Qed.

(** ** ... and in no other *)

Lemma date_valid s f t : dateColumn s f = Ok t -> validDate s.
Proof. unfold dateColumn, validDate. destruct (parseDate s); [by eexists|done]. Qed.

Lemma sent_distinct c x orgs db l db' :
  tmapM (fun org => rfqRecipient_create {| rr_rfqId := x; rr_providerOrgId := org;
    rr_createdByUserId := Some (Actions.userId (actor c)); rr_createdByOrgId := Actions.organizationId (actor c) |}) orgs db = Ok (l, db') ->
  NoDup orgs /\ forall p, p ∈ rfqRecipients db -> RFQRecipientRow.rfqId p = x -> RFQRecipientRow.providerOrgId p ∉ orgs.
Proof.
  revert db l db'. induction orgs as [|org orgs IH]; intros db l db' E; cbn [tmapM] in E; [split; [constructor|by intros ? _ _ ?%elem_of_nil]|].
  apply tbind_Ok in E as (p & d1 & Ep & E). apply tbind_Ok in E as (ps & d2 & Eps & _). apply IH in Eps as [Hnd Hf].
  unfold rfqRecipient_create in Ep. apply tbind_Ok in Ep as (i & ? & [= <- <-] & Ep).
  unfold rfqRecipient_findByRfqAndProviderOrg, findUnique in Ep. cbn [rfqRecipients set_drawn] in Ep.
  destruct (List.find _ (rfqRecipients db)) as [|] eqn:Hn; [done|]. injection Ep as <- <-. cbn [rfqRecipients set_rfqRecipients] in Hf. split.
  - constructor; [|done]. exact (Hf _ (proj2 (elem_of_app _ _ _) (or_intror (list_elem_of_here _ _))) eq_refl).
  - intros q Hq Ex [Eq|Hin]%elem_of_cons; [|refine (Hf q _ Ex Hin); apply elem_of_app; by left].
    apply list_elem_of_In in Hq. pose proof (find_none _ _ Hn q Hq) as Hi. unfold invites in Hi. cbn in Hi. rewrite Ex, Eq, !String.eqb_refl in Hi. discriminate Hi.
Qed.

Lemma two_participants i j d4 d5 d6 e1 e2 : participant_create i d4 = Ok (e1, d5) -> participant_create j d5 = Ok (e2, d6) ->
  dp_dealRoomId i = dp_dealRoomId j -> dp_organizationId i <> dp_organizationId j.
Proof.
  intros E1 E2 Ed Eo. unfold participant_create in E1, E2. apply tbind_Ok in E1 as (? & ? & [= <- <-] & E1). apply tbind_Ok in E2 as (? & ? & [= <- <-] & E2).
  destruct (participant_findByDealRoomAndOrg _ _ _) as [|]; [done|]. injection E1 as <- <-.
  unfold participant_findByDealRoomAndOrg, findUnique in E2. cbn [dealRoomParticipants set_drawn set_dealRoomParticipants] in E2.
  destruct (List.find _ _) eqn:Hn in E2; [done|]. eapply find_none in Hn; [|apply in_app_iff; right; by left].
  unfold participates in Hn. cbn in Hn. rewrite Ed, Eo, !String.eqb_refl in Hn. discriminate Hn.
Qed.

Lemma create_ran c input db o d db' : createRfq_tx c input o db = Ok (d, db') ->
  NoDup (rq_providerOrgIds input) /\ validDate (rq_dueAt input) /\ storable (rq_disclosureSnapshot input).
Proof.
  intros E. unfold createRfq_tx in E. apply tbind_Ok in E as (due & ? & [Hd%date_valid ->]%tlift_Ok & E).
  apply tbind_Ok in E as (rfq & d1 & _ & E). apply tbind_Ok in E as (v & d2 & Ev & E). apply tbind_Ok in E as (l & d3 & [Hnd _]%sent_distinct & _).
  split_and!; [done..|]. unfold rfqVersion_create in Ev. apply tbind_Ok in Ev as ([] & ? & [Hs _]%tlift_Ok & _). by apply safe_object_spec in Hs.
Qed.

Lemma submit_ran c x input db p q db' : rfq_findById db x = Some (ip_rfq p) -> submitQuote_tx c input p db = Ok (q, db') ->
  RFQRow.status (ip_rfq p) ∈ open_for_quotes /\ validDate (uq_validUntil input) /\ storable (uq_terms input).
Proof.
  intros Hr E. unfold submitQuote_tx, uniqueSafe in E. apply runUniqueConstraintSafe_Ok in E. unfold submitQuote_body in E.
  apply tbind_Ok in E as (fresh & ? & Ef & E). unfold freshRfq, rfq_findById in Ef. pose proof (own_id _ _ _ Hr) as Hr'.
  change (row_id (ip_rfq p)) with (RFQRow.id (ip_rfq p)) in Hr'. rewrite Hr' in Ef. injection Ef as <- <-.
  apply tbind_Ok in E as (? & ? & [Hopen%throw_if_Ok%bool_decide_eq_false ->]%tlift_Ok & E).
  apply tbind_Ok in E as (n & ? & En & E). injection En as _ <-. apply tbind_Ok in E as (org & ? & [_ ->]%tlift_Ok & E).
  apply tbind_Ok in E as (valid & ? & [Hd%date_valid ->]%tlift_Ok & E). apply tbind_Ok in E as (q' & d1 & Eq & E).
  apply tbind_Ok in E as (? & d2 & _ & E). apply tbind_Ok in E as (? & d3 & Es & _). split_and!; [|done|].
  - match type of Es with (if ?b then _ else _) _ = _ => destruct b eqn:Heqb end; [apply bool_decide_eq_true in Heqb; rewrite Heqb; set_solver|]. apply tbind_Ok in Es as ([] & ? & [Hs _]%tlift_Ok & _).
    by apply quoted_guard.
  - unfold quote_create in Eq. apply tbind_Ok in Eq as ([] & ? & [Hs _]%tlift_Ok & _). by apply safe_object_spec in Hs.
Qed.

Lemma select_ran c x input db p d db' : quote_findById db x = Some (qp_quote p) -> selectQuote_tx c input p db = Ok (d, db') ->
  OpportunityRow.ownerOrgId (qp_opportunity p) <> QuoteRow.providerOrgId (qp_quote p).
Proof.
  intros Hq E. unfold selectQuote_tx, uniqueSafe in E. apply runUniqueConstraintSafe_Ok in E. unfold selectQuote_body in E.
  apply tbind_Ok in E as (q & ? & (-> & Hf & _)%(freshQuote_Ok _ Quote.SELECTED) & E). apply tbind_Ok in E as (sel & d1 & Eq & E).
  pose proof (own_id _ _ _ Hq) as Hq'. change (row_id (qp_quote p)) with (QuoteRow.id (qp_quote p)) in Hq'. rewrite (quote_run _ _ _ _ _ Hq') in Eq.
  injection Eq as <- <-. apply tbind_Ok in E as (r & d2 & _ & E). apply tbind_Ok in E as (o & d3 & _ & E).
  apply tbind_Ok in E as (room & d4 & _ & E). apply tbind_Ok in E as (e1 & d5 & Ee1 & E). apply tbind_Ok in E as (e2 & d6 & Ee2 & _).
  exact (two_participants _ _ _ _ _ _ _ Ee1 Ee2 eq_refl).
Qed.

Lemma post_ran c input db d n db' : postCondition_tx c input d db = Ok (n, db') -> dueAtOk (pc_dueAt input).
Proof.
  unfold postCondition_tx. intros (due & ? & [Hd _]%tlift_Ok & _)%tbind_Ok v Ev Hne. rewrite Ev in Hd. unfold when_present in Hd.
  rewrite (proj2 (String.eqb_neq v "") Hne) in Hd. apply rbind_Ok in Hd as (t & Ht%date_valid & _). done.
Qed.

Lemma trade_ran_accepted r db p out db' : trade_pre r db = Ok p -> trade_tx sha256_hex r p db = Ok (out, db') -> trade_accepted r db.
Proof.
  destruct r as [c i|c x why|c x i|c x q|c x i|c x i|c x y i|c x i|x t]; simpl.
  - intros (Ho & Ha & Hs & Hl)%create_pre_exact' (Hnd & Hd & Hsn)%create_ran. by exists p.
  - intros Hp%(invited_pre_exact _ _ _ _ _ _ _ decline_guard) _. by exists p.
  - intros Hp%(invited_pre_exact _ _ _ _ _ _ _ quote_guard) E. exists p. split; [done|]. by apply (submit_ran c x i db p out db' (proj1 Hp)).
  - intros (Hp & _ & Ho & Ha)%withdrawQuote_pre_exact _. by exists p.
  - intros (Hp & _ & Hs & Hso & Ha)%select_pre_exact E. exists p. split_and!; [done..|].
    pose proof Hp as (_ & _ & Hq & _). by apply (select_ran c _ i db p out db' Hq).
  - intros [Hr Hp]%post_pre_exact E%post_ran. by exists p.
  - intros (Hr & Hf & Ex & Hs)%resolve_pre_exact _. by exists (fst p), (snd p).
  - intros Hr%record_pre_exact _. by exists p.
  - intros [= <-] E. apply expire_exact. by exists out, db'.
Qed.

Lemma serve_trade_iff r db : is_ok (snd (serve (trade_service sha256_hex) r db)) = true <->
  exists p out db', trade_pre r db = Ok p /\ trade_tx sha256_hex r p db = Ok (out, db').
Proof.
  unfold serve. change (h_pre (trade_service sha256_hex) r db) with (trade_pre r db). destruct (trade_pre r db) as [p|] eqn:E; [|naive_solver].
  change (h_tx (trade_service sha256_hex) r p db) with (trade_tx sha256_hex r p db).
  destruct (trade_tx sha256_hex r p db) as [[out db']|] eqn:E2; ((split; [|done]) || (split; [done|])).
  - intros _. by exists p, out, db'.
  - intros (p' & out & db' & [= <-] & E3). by rewrite E2 in E3.
Qed.

Lemma serve_accepted_iff r db : trade_ok db -> is_ok (snd (serve (trade_service sha256_hex) r db)) = true <-> trade_accepted r db.
Proof.
  intros K. rewrite serve_trade_iff. split; [intros (p & out & db' & Ep & Et); by eapply trade_ran_accepted|by apply trade_accepted_runs].
Qed.

End Requests.
