(* ===== verification/TradeResponses.v ===== *)
(** * apps/api/src/modules/rfqs/mapper.ts and deals/mapper.ts

    What the routes put on the wire: the JSON object of each row, keys in
    order, a property that is [undefined] left out; and which quotes of a
    request a viewer gets to see.  [updatedAt] is a column that the database
    client maintains and no row of [Database] carries: a parameter. *)
From S2P Require Import Prelude StableSort DomainStates AuthzMatrix Authz JsDate JsonText Database ApiShared EconomicsRepositories.
From S2P Require Import TradeRepositories RfqService DealService.
Import Roles Actions.

(** ** rfqs/mapper.ts *)

(** [CROSS_ORG_RFQ_ROLES], declared in the mapper once more. *)
Definition SEES_ALL_QUOTES : list PersonaRole := [PLATFORM_OWNER; MARKETPLACE_OPERATOR; COMPLIANCE_REVIEWER; AUDITOR_READONLY].

Definition JDate (t : option Z) : Json := match t with Some t => JStr (toISOString t) | None => JNull end.

(** a property whose value may be [undefined] *)
Definition field_if (k : string) (v : option Json) : list (string * Json) := match v with Some v => [(k, v)] | None => [] end.

Definition packetTypeName (p : PacketType.t) : string :=
  match p with PacketType.MATCH_SUMMARY => "MATCH_SUMMARY" | PacketType.QUALIFIED_RFQ => "QUALIFIED_RFQ"
  | PacketType.DUE_DILIGENCE => "DUE_DILIGENCE" | PacketType.RESTRICTED => "RESTRICTED" end.

Definition toRfqVersionDTO (v : RFQVersionRow.t) : Json :=
  JObj [("id", JStr (RFQVersionRow.id v)); ("rfqId", JStr (RFQVersionRow.rfqId v)); ("versionNumber", JNum (RFQVersionRow.versionNumber v));
        ("packetType", JStr (packetTypeName (RFQVersionRow.packetType v))); ("disclosureSnapshot", RFQVersionRow.disclosureSnapshot v);
        ("changeSummary", JOpt (RFQVersionRow.changeSummary v)); ("createdAt", JStr (toISOString (createdAt (RFQVersionRow.base v))))].

Definition toRfqRecipientDTO (p : RFQRecipientRow.t) (providerOrg : option OrganizationRow.t) : Json :=
  JObj ([("id", JStr (RFQRecipientRow.id p)); ("rfqId", JStr (RFQRecipientRow.rfqId p)); ("providerOrgId", JStr (RFQRecipientRow.providerOrgId p))]
        ++ field_if "providerDisplayName" ((fun o => JStr (OrganizationRow.displayName o)) <$> providerOrg)
        ++ [("state", JStr (recipientStateName p)); ("acknowledgedAt", JDate (RFQRecipientRow.acknowledgedAt p));
            ("declineReason", JOpt (RFQRecipientRow.declineReason p))]).

Definition toQuoteDTO (q : QuoteRow.t) : Json :=
  JObj [("id", JStr (QuoteRow.id q)); ("rfqId", JStr (QuoteRow.rfqId q)); ("rfqRecipientId", JStr (QuoteRow.rfqRecipientId q));
        ("providerOrgId", JStr (QuoteRow.providerOrgId q)); ("quoteVersion", JNum (QuoteRow.quoteVersion q)); ("currency", JStr (QuoteRow.currency q));
        ("status", JStr (quoteStatusName q)); ("validUntil", JStr (toISOString (QuoteRow.validUntil q)));
        ("submittedAt", JStr (toISOString (QuoteRow.submittedAt q))); ("terms", QuoteRow.terms q)].

Definition filterQuotesForViewer (a : Actor) (merchantOrgId : string) (quotes : list QuoteRow.t) : list QuoteRow.t :=
  let seesEverything := bool_decide (organizationId a = Some merchantOrgId) || has_role SEES_ALL_QUOTES (role a) in
  if seesEverything then quotes
  else List.filter (fun q => bool_decide (Some (QuoteRow.providerOrgId q) = organizationId a)) quotes.

Record RfqDTOOpts : Type := {
  fo_version : option RFQVersionRow.t;
  fo_recipients : option (list RFQRecipientRow.t);
  fo_quotes : option (list QuoteRow.t)
}.

Definition toRfqDTO (r : RFQRow.t) (opts : RfqDTOOpts) : Json :=
  JObj ([("id", JStr (RFQRow.id r)); ("opportunityId", JStr (RFQRow.opportunityId r)); ("status", JStr (rfqStatusName r));
         ("dueAt", JStr (toISOString (RFQRow.dueAt r))); ("currentVersionNumber", JNum (RFQRow.currentVersionNumber r))]
        ++ field_if "currentVersion" (toRfqVersionDTO <$> fo_version opts)
        ++ field_if "recipients" ((fun l => JArr (map (fun p => toRfqRecipientDTO p None) l)) <$> fo_recipients opts)
        ++ field_if "quotes" ((fun l => JArr (map toQuoteDTO l)) <$> fo_quotes opts)
        ++ [("privacyClass", JStr (DisclosureClass_name (Database.privacyClass (RFQRow.base r))))]).

(** ** The bodies of rfqs/routes.ts *)

Definition get_rfqs (a : Actor) (db : Db) : res Json :=
  let! l := rfqsService_list a db in
  Ok (JObj [("rfqs", JArr (map (fun r => toRfqDTO r {| fo_version := None; fo_recipients := None; fo_quotes := None |}) l))]).

Definition visibleQuotes (a : Actor) (detail : RfqDetail) : list QuoteRow.t := filterQuotesForViewer a (f_merchantOrgId detail) (f_quotes detail).

Definition get_rfq (a : Actor) (x : string) (db : Db) : res Json :=
  let! detail := rfqsService_getById a x db in
  Ok (toRfqDTO (f_rfq detail)
        {| fo_version := f_version detail; fo_recipients := Some (f_recipients detail); fo_quotes := Some (visibleQuotes a detail) |}).

Definition created_rfq (detail : RfqDetail) : Json :=
  toRfqDTO (f_rfq detail) {| fo_version := f_version detail; fo_recipients := Some (f_recipients detail); fo_quotes := Some [] |}.

(** ** deals/mapper.ts *)

Definition participantRoleName (r : ParticipantRole.t) : string :=
  match r with ParticipantRole.MERCHANT => "MERCHANT" | ParticipantRole.PROVIDER => "PROVIDER" | ParticipantRole.OPERATOR => "OPERATOR" end.

Definition toDealRoomParticipantDTO (p : DealRoomParticipantRow.t) (org : option OrganizationRow.t) : Json :=
  JObj ([("id", JStr (DealRoomParticipantRow.id p)); ("dealRoomId", JStr (DealRoomParticipantRow.dealRoomId p));
         ("organizationId", JStr (DealRoomParticipantRow.organizationId p))]
        ++ field_if "organizationDisplayName" ((fun o => JStr (OrganizationRow.displayName o)) <$> org)
        ++ [("participantRole", JStr (participantRoleName (DealRoomParticipantRow.participantRole p)))]).

Definition toDealDecisionDTO (u : DealDecisionRow.t) : Json :=
  JObj [("id", JStr (DealDecisionRow.id u)); ("dealRoomId", JStr (DealDecisionRow.dealRoomId u));
        ("decisionType", JStr (DealCondition.DealDecisionType_name (DealDecisionRow.decisionType u))); ("reason", JStr (DealDecisionRow.reason u));
        ("relatedQuoteId", JOpt (DealDecisionRow.relatedQuoteId u)); ("actorOrgId", JOpt (DealDecisionRow.actorOrgId u));
        ("actorRole", JOpt (PersonaRole_name <$> DealDecisionRow.actorRole u)); ("decidedAt", JStr (toISOString (DealDecisionRow.decidedAt u)))].

Definition toTimelineEventDTO (e : DomainEventRow.t) : Json :=
  JObj [("id", JStr (DomainEventRow.id e)); ("eventType", JStr (DomainEventRow.eventType e)); ("aggregateType", JStr (DomainEventRow.aggregateType e));
        ("aggregateId", JStr (DomainEventRow.aggregateId e)); ("payload", default JNull (DomainEventRow.payload e));
        ("occurredAt", JStr (toISOString (DomainEventRow.occurredAt e))); ("actorOrgId", JOpt (DomainEventRow.actorOrgId e));
        ("actorRole", JOpt (PersonaRole_name <$> DomainEventRow.actorRole e))].

Record DealRoomDTOOpts : Type := {
  do_participants : option (list DealRoomParticipantRow.t);
  do_conditions : option (list DealConditionRow.t);
  do_decisions : option (list DealDecisionRow.t)
}.

Section Conditions.
Variable updatedAt : DealConditionRow.t -> Z.

Definition toDealConditionDTO (n : DealConditionRow.t) : Json :=
  JObj [("id", JStr (DealConditionRow.id n)); ("dealRoomId", JStr (DealConditionRow.dealRoomId n)); ("description", JStr (DealConditionRow.description n));
        ("ownerOrgId", JStr (DealConditionRow.ownerOrgId n)); ("evidenceRef", JOpt (DealConditionRow.evidenceRef n)); ("dueAt", JDate (DealConditionRow.dueAt n));
        ("state", JStr (conditionStateName n)); ("blocking", JBool (DealConditionRow.blocking n)); ("resolutionNote", JOpt (DealConditionRow.resolutionNote n));
        ("updatedAt", JStr (toISOString (updatedAt n)))].

Definition toDealRoomDTO (d : DealRoomRow.t) (opts : DealRoomDTOOpts) : Json :=
  JObj ([("id", JStr (DealRoomRow.id d)); ("opportunityId", JStr (DealRoomRow.opportunityId d)); ("rfqId", JStr (DealRoomRow.rfqId d));
         ("selectedQuoteId", JStr (DealRoomRow.selectedQuoteId d)); ("merchantOrgId", JStr (DealRoomRow.merchantOrgId d));
         ("providerOrgId", JStr (DealRoomRow.providerOrgId d)); ("status", JStr (dealStatusName d)); ("nextAction", JOpt (DealRoomRow.nextAction d))]
        ++ field_if "participants" ((fun l => JArr (map (fun p => toDealRoomParticipantDTO p None) l)) <$> do_participants opts)
        ++ field_if "conditions" ((fun l => JArr (map toDealConditionDTO l)) <$> do_conditions opts)
        ++ field_if "decisions" ((fun l => JArr (map toDealDecisionDTO l)) <$> do_decisions opts)).

End Conditions.

(** ** Whose quotes a response carries *)

Lemma filterQuotes_spec a merchant l q : q ∈ filterQuotesForViewer a merchant l <->
  q ∈ l /\ (organizationId a = Some merchant \/ (exists r, role a = Some r /\ r ∈ SEES_ALL_QUOTES) \/ organizationId a = Some (QuoteRow.providerOrgId q)).
Proof.
  unfold filterQuotesForViewer. assert (has_role SEES_ALL_QUOTES (role a) = true <-> exists r, role a = Some r /\ r ∈ SEES_ALL_QUOTES) as R.
  { unfold has_role. destruct (role a) as [r|]; [rewrite bool_decide_eq_true|]; naive_solver. }
  destruct (bool_decide (organizationId a = Some merchant)) eqn:E1; [apply bool_decide_eq_true in E1; cbn [orb]; tauto|].
  apply bool_decide_eq_false in E1. destruct (has_role SEES_ALL_QUOTES (role a)); cbn [orb]; [tauto|].
  rewrite elem_of_filter_list, bool_decide_eq_true. assert (~ exists r, role a = Some r /\ r ∈ SEES_ALL_QUOTES) by (intros H; by apply R in H). naive_solver.
Qed.
