(* ===== verification/TradeSample.v ===== *)
(** * A sample market

    One opportunity of a merchant, two invited providers, a quote each, one
    selected, and the deal room: the inputs of the witnesses; and what happens
    when requests overlap. *)
From S2P Require Import Prelude StableSort Lifecycle DomainStates AuthzMatrix Authz JsDate Receipt JsonText Database Tables ApiShared Idempotency.
From S2P Require Import EconomicsRepositories LockboxRepositories TradeRepositories RfqService DealService.
From S2P Require Import TradeSpec TradeBook TradeEffects TradeSystem TradeRequests Transactions EconomicsTheorems LockboxTheorems.
Import Roles Actions.
#[local] Open Scope Z_scope.

(** A platform that knows one date. *)
Definition autumn : string := "2026-09-01T00:00:00.000Z".

#[export] Instance tradePlatform : Platform.
Proof.
  refine {| newId n := "id-" +:+ pretty n; parseDate s := if String.eqb s autumn then Some 1788220800000 else None; collate := String.compare |}. by intros n E.
Defined.

Definition sampleOpportunity : OpportunityRow.t :=
  {| OpportunityRow.id := "opp"; OpportunityRow.ownerOrgId := "merchant"; OpportunityRow.opportunityType := OpportunityType.ACQUIRING;
     OpportunityRow.requestedService := "acquiring"; OpportunityRow.status := Opportunity.MATCH_READY; OpportunityRow.currency := "EUR";
     OpportunityRow.totalPaymentVolumeMinor := 100; OpportunityRow.totalCardGpvMinor := 100; OpportunityRow.eligibleCardGpvMinor := 100;
     OpportunityRow.offeredCardGpvMinor := 100; OpportunityRow.movableNowMinor := 100; OpportunityRow.movable30dMinor := 100;
     OpportunityRow.movable90dMinor := 100; OpportunityRow.jurisdictions := ["DE"]; OpportunityRow.mccs := ["5734"]; OpportunityRow.base := sampleBase |}.

Definition marketDb : Db :=
  set_opportunities [sampleOpportunity] (set_organizations (map sampleOrganization ["merchant"; "provider"; "rival"; "desk"]) emptyDb).

Definition clerk : Call := sampleCall MARKETPLACE_OPERATOR "desk" 1000.
Definition merchant : Call := sampleCall MERCHANT_PSP_USER "merchant" 2000.
Definition provider : Call := sampleCall ACQUIRER_PROVIDER_USER "provider" 3000.
Definition rival : Call := sampleCall ACQUIRER_PROVIDER_USER "rival" 4000.

Definition sampleSend : TradeReq :=
  CreateRfq clerk {| rq_opportunityId := "opp"; rq_providerOrgIds := ["provider"; "rival"]; rq_dueAt := autumn; rq_packetType := None;
                     rq_disclosureSnapshot := JObj [("need", JStr "acquiring")] |}.
Definition sampleQuote (c : Call) (rfqId : string) : TradeReq :=
  SubmitQuote c rfqId {| uq_currency := "EUR"; uq_validUntil := autumn; uq_terms := JObj [("rateBps", JNum 25)] |}.
Definition sampleSelect (rfqId quoteId : string) : TradeReq := SelectQuote merchant rfqId {| xq_quoteId := quoteId; xq_reason := "best rate" |}.
Definition samplePost (x : string) : TradeReq :=
  PostCondition provider x {| pc_description := "KYC file"; pc_ownerOrgId := "merchant"; pc_evidenceRef := None; pc_dueAt := None; pc_blocking := None |}.
Definition sampleRule (x : string) (d : RecordedDecision) : TradeReq := RecordDecision merchant x {| dq_decisionType := d; dq_reason := "agreed" |}.

Notation sampleTrade := (trade_service sampleSha).
Notation anyone := (fun _ : TradeReq => True).

Definition traded (r : TradeReq) (db : Db) : Db := fst (serve sampleTrade r db).
Definition answered_ok (r : TradeReq) (db : Db) : bool := is_ok (snd (serve sampleTrade r db)).

(** Sent to both; quoted by both; the first quote selected. *)
Definition sentDb : Db := Eval vm_compute in traded sampleSend marketDb.
Definition quotedDb : Db := Eval vm_compute in traded (sampleQuote rival "id-0") (traded (sampleQuote provider "id-0") sentDb).
Definition selectedDb : Db := Eval vm_compute in traded (sampleSelect "id-0" "id-6") quotedDb.

Definition sampleTradeRun : list TradeReq :=
  [sampleSend; sampleQuote provider "id-0"; sampleQuote rival "id-0"; sampleSelect "id-0" "id-6"; samplePost "id-12"; sampleRule "id-12" APPROVAL].

Lemma marketDb_ok : trade_ok marketDb.
Proof.
  split; [split; try (split; by constructor); constructor|].
  split; first [intros x v Hv; exact (False_ind _ (lookup_empty_Some _ _ Hv)) | intros x y v w k Hv; exact (False_ind _ (lookup_empty_Some _ _ Hv))].
Qed.

Lemma any_sent l : Forall anyone l.
Proof. by apply Forall_true. Qed.

Lemma sampleTrade_reached rs : exists s, reaches sampleTrade trade_env anyone marketDb s /\ store s = serveAll sampleTrade rs marketDb.
Proof. eexists. split; [exact (serveAll_answers sampleTrade trade_env anyone rs marketDb (any_sent rs))|reflexivity]. Qed.

Lemma sample_trade_ok rs : trade_ok (serveAll sampleTrade rs marketDb).
Proof. destruct (sampleTrade_reached rs) as (s & R & <-). exact (trade_reach sampleSha marketDb s marketDb_ok R). Qed.

Lemma sentDb_ok : trade_ok sentDb.
Proof. replace sentDb with (serveAll sampleTrade [sampleSend] marketDb) by (vm_compute; reflexivity). apply sample_trade_ok. Qed.
Lemma quotedDb_ok : trade_ok quotedDb.
Proof.
  replace quotedDb with (serveAll sampleTrade [sampleSend; sampleQuote provider "id-0"; sampleQuote rival "id-0"] marketDb) by (vm_compute; reflexivity).
  apply sample_trade_ok.
Qed.

Example sample_statuses :
  map RFQRow.status (rfqs sentDb) = [Rfq.SENT] /\ map RFQRow.status (rfqs quotedDb) = [Rfq.QUOTED] /\
  map RFQRow.status (rfqs selectedDb) = [Rfq.SELECTED] /\
  map QuoteRow.status (quotes selectedDb) = [Quote.SELECTED; Quote.SUBMITTED] /\
  map DealRoomRow.id (dealRooms selectedDb) = ["id-12"].
Proof. vm_compute. done. Qed.

(** ** What the code lets happen *)

(** A withdrawn quote cannot be replaced: the invitation stays QUOTED, which
    takes no further quote. *)
Example no_second_quote :
  answered_ok (WithdrawQuote provider "id-0" "id-6") quotedDb = true /\
  answered_ok (sampleQuote provider "id-0") (traded (WithdrawQuote provider "id-0" "id-6") quotedDb) = false /\
  answered_ok (sampleQuote provider "id-0") quotedDb = false.
Proof. vm_compute. done. Qed.

(** An APPROVAL does not look at the conditions: the room is APPROVED with a
    blocking condition still PENDING. *)
Example approved_with_pending_condition :
  let db := traded (sampleRule "id-12" APPROVAL) (traded (samplePost "id-12") selectedDb) in
  map DealRoomRow.status (dealRooms db) = [DealRoom.APPROVED] /\
  map DealConditionRow.state (dealConditions db) = [DealCondition.PENDING] /\ map DealConditionRow.blocking (dealConditions db) = [true].
Proof. vm_compute. done. Qed.

(** A decline and a quote of the same provider that overlap leave a DECLINED
    invitation QUOTED, which its table does not allow. *)
Example declined_then_quoted :
  match overlap sampleTrade (DeclineRfq provider "id-0" "no appetite") (sampleQuote provider "id-0") sentDb with
  | Some (db, a) => is_ok a = true /\ map RFQRecipientRow.state (rfqRecipients db) = [RfqRecipient.QUOTED; RfqRecipient.INVITED] /\
      map RFQRecipientRow.declineReason (rfqRecipients db) = [Some "no appetite"; None] /\ length (quotes db) = 1%nat
  | None => False
  end /\ successors RfqRecipient.DECLINED = [].
Proof. vm_compute. done. Qed.

(** The expiry of a request and the selection of its quote that overlap leave
    an EXPIRED request SELECTED. *)
Example expired_then_selected :
  match overlap sampleTrade (ExpireRfq "id-0" 1788220800001) (sampleSelect "id-0" "id-6") quotedDb with
  | Some (db, a) => is_ok a = true /\ map RFQRow.status (rfqs db) = [Rfq.SELECTED] /\
      existsb (fun e => String.eqb (DomainEventRow.eventType e) "rfq.expired") (domainEvents db) = true
  | None => False
  end /\ successors Rfq.EXPIRED = [].
Proof. vm_compute. done. Qed.

(** Two requests of one opportunity, each quoted: two selections that overlap
    open two deal rooms for it, though a selection alone refuses the second. *)
Definition twoRfqs : Db :=
  Eval vm_compute in serveAll sampleTrade [sampleSend; sampleSend; sampleQuote provider "id-0"; sampleQuote rival "id-6"] marketDb.

Example two_deals_for_one_opportunity :
  answered_ok (sampleSelect "id-6" "id-15") (traded (sampleSelect "id-0" "id-12") twoRfqs) = false /\
  match overlap sampleTrade (sampleSelect "id-0" "id-12") (sampleSelect "id-6" "id-15") twoRfqs with
  | Some (db, a) => is_ok a = true /\ map DealRoomRow.opportunityId (dealRooms db) = ["opp"; "opp"]
  | None => False
  end.
Proof. vm_compute. done. Qed.
