(* ===== verification/TradeTheorems.v ===== *)
(** * What the RFQ and deal services guarantee

    For any number of overlapping requests, the expiry job among them: the
    tables are always a sound market, and every change is a run of steps of
    the abstract market, so that a selection is final.  For one request on its
    own: exactly when it succeeds, who may make it, and what a read shows. *)
From S2P Require Import Prelude StableSort Lifecycle DomainStates AuthzMatrix Authz JsDate Receipt JsonText Database Tables ApiShared Idempotency.
From S2P Require Import EconomicsRepositories ClaimRepositories LockboxRepositories TradeRepositories RfqService DealService.
From S2P Require Import TradeSpec TradeBook TradeEffects TradeSystem TradeRequests TradeResponses Transactions EconomicsTheorems TradeSample.
From Stdlib Require Import Ascii.
From stdpp Require Import relations.
Import Roles Actions Matrix.
#[local] Open Scope Z_scope.

(** ** Who may do what *)

(** The roles with authority over other organizations' requests and deals. *)
Definition desk_of (a : Action) : list PersonaRole :=
  match a with
  | rfq_read | deal_read => [PLATFORM_OWNER; MARKETPLACE_OPERATOR; COMPLIANCE_REVIEWER; AUDITOR_READONLY]
  | Actions.rfq_create | deal_post_condition | deal_resolve_condition | deal_record_decision => [PLATFORM_OWNER; MARKETPLACE_OPERATOR]
  | rfq_decline | rfq_submit_quote | rfq_withdraw_quote | rfq_select_quote => [PLATFORM_OWNER]
  | _ => PERSONA_ROLES
  end.

Definition at_desk (a : Action) (actor : Actor) : Prop := exists r, role actor = Some r /\ r ∈ desk_of a.

Lemma trade_path actor a res ctx : allowed (can actor a res ctx) = true ->
  at_desk a actor \/ truthy (isParticipant ctx) = true \/ (exists org, organizationId actor = Some org /\ ownerOrgId res = Some org).
Proof.
  intros (r & org & Hr & Ho & _ & Hp)%can_paths. destruct Hp as [Hc|[[Hp _]|[_ Hp]]]; [left|by right; left|right; right; by exists org].
  exists r. split; [done|]. pose proof (all_roles_actions (fun r a => implb (has a (crossOrgActions (AUTHORITY_MATRIX r))) (inOpt (Some (desk_of a)) r))
    ltac:(vm_compute; reflexivity) r a) as H1. cbv beta in H1. rewrite Hc in H1. by apply bool_decide_eq_true in H1.
Qed.

Section Theorems.
Context `{Platform} (sha256_hex : list ascii -> string).

#[local] Notation anyone := (fun _ : TradeReq => True).
#[local] Notation service := (trade_service sha256_hex).
#[local] Notation reach := (reaches service trade_env anyone).
#[local] Notation later_than := (rtc (step service trade_env anyone)).

(** ** From the market back to the rows *)

Lemma row_at {R} `{Row R} {V} (f : R -> V) t x v : book f t !! x = Some v -> exists r, r ∈ t /\ row_id r = x /\ v = f r.
Proof. intros (r & [Hin Ei]%findById_Some & ->)%book_Some. eauto. Qed.

Lemma parties_participate db d org : trade_ok db -> d ∈ dealRooms db ->
  is_Some (participant_findByDealRoomAndOrg db (DealRoomRow.id d) org) <-> org = DealRoomRow.merchantOrgId d \/ org = DealRoomRow.providerOrgId d.
Proof.
  intros [T K] Hd. pose proof (book_row dealOf db _ d (tt_deals _ T) Hd) as Hb.
  etransitivity; [|symmetry; exact (members_parties _ _ _ org K Hb)]. unfold participant_findByDealRoomAndOrg, findUnique. split.
  - intros [e He]. apply find_some in He as [He%list_elem_of_In Ep]. unfold participates in Ep.
    apply andb_true_iff in Ep as [E1%String.eqb_eq E2%String.eqb_eq]. exists (DealRoomParticipantRow.id e), (DealRoomParticipantRow.participantRole e).
    pose proof (book_row memberOf db _ e (tt_participants _ T) He) as Hm. unfold memberOf in Hm at 2. rewrite E1, E2 in Hm. exact Hm.
  - intros (x & rl & Hx). apply row_at in Hx as (e & He & _ & [= E1 E2 _]). destruct (List.find _ _) as [e'|] eqn:Hn; [by eexists|].
    apply list_elem_of_In in He. pose proof (find_none _ _ Hn e He) as Hf. unfold participates in Hf.
    change (row_id d) with (DealRoomRow.id d) in E1. rewrite <- E1, <- E2, !String.eqb_refl in Hf. discriminate Hf.
Qed.

(** What a deal room was opened on. *)
Definition opened_on (db : Db) (d : DealRoomRow.t) : Prop :=
  (exists q, q ∈ quotes db /\ QuoteRow.id q = DealRoomRow.selectedQuoteId d /\ QuoteRow.status q = Quote.SELECTED /\
     QuoteRow.rfqId q = DealRoomRow.rfqId d /\ QuoteRow.providerOrgId q = DealRoomRow.providerOrgId d) /\
  (exists r, r ∈ rfqs db /\ RFQRow.id r = DealRoomRow.rfqId d /\ RFQRow.status r = Rfq.SELECTED /\
     ownerOf db (RFQRow.opportunityId r) = Some (DealRoomRow.merchantOrgId d)) /\
  DealRoomRow.merchantOrgId d <> DealRoomRow.providerOrgId d.

Lemma deal_opened_on db d : trade_ok db -> d ∈ dealRooms db -> opened_on db d.
Proof.
  intros [T K] Hd. destruct (mk_deals _ K _ _ (book_row dealOf db _ d (tt_deals _ T) Hd)) as [(o & Ho & So & E1 & E2) (r & Hr & Sr & Em) Hne _ _ _].
  apply row_at in Ho as (q & Hq & Eq & ->), Hr as (rq & Hrq & Er & ->). split_and!; [exists q|exists rq|exact Hne]; by split_and!.
Qed.

Lemma selected_has_deal db r : trade_ok db -> r ∈ rfqs db -> RFQRow.status r = Rfq.SELECTED <-> exists d, d ∈ dealRooms db /\ DealRoomRow.rfqId d = RFQRow.id r.
Proof.
  intros [T K] Hr. pose proof (book_row (requestOf db) db _ r (tt_rfqs _ T) Hr) as Hb. split.
  - intros Hs. destruct (mk_requests _ K _ _ Hb) as [_ F]. destruct (F Hs) as (y & d & Hd & E). apply row_at in Hd as (d' & Hin & _ & ->). by exists d'.
  - intros (d & Hd & E). destruct (mk_deals _ K _ _ (book_row dealOf db _ d (tt_deals _ T) Hd)) as [_ (r' & Hr' & Sr & _) _ _ _ _].
    cbn [de_request dealOf] in Hr'. rewrite E in Hr'. change (requests (market db) !! RFQRow.id r = Some (requestOf db r)) in Hb. rewrite Hb in Hr'. by injection Hr' as <-.
Qed.

(** C11: the market is sound at all times.  From sound tables, after any
    interleaving of RFQs sent, declined, quoted, withdrawn, selected and
    expired and of conditions and decisions in deal rooms: an RFQ has at most
    one SELECTED quote, and is SELECTED exactly when it has a deal room, of
    which there is one at most; a deal room was opened on a SELECTED quote of
    its RFQ, between the owner of the RFQ's opportunity and the quote's
    provider, two different organizations; these two and nobody else are its
    participants; and every condition is owed by one of them. *)
Theorem trade_always_sound (db : Db) (s : Config service) : trade_ok db -> reach db s ->
  trade_ok (store s) /\
  (forall q1 q2, q1 ∈ quotes (store s) -> q2 ∈ quotes (store s) -> QuoteRow.status q1 = Quote.SELECTED -> QuoteRow.status q2 = Quote.SELECTED ->
     QuoteRow.rfqId q1 = QuoteRow.rfqId q2 -> QuoteRow.id q1 = QuoteRow.id q2) /\
  (forall r, r ∈ rfqs (store s) -> RFQRow.status r = Rfq.SELECTED <-> exists d, d ∈ dealRooms (store s) /\ DealRoomRow.rfqId d = RFQRow.id r) /\
  (forall d1 d2, d1 ∈ dealRooms (store s) -> d2 ∈ dealRooms (store s) -> DealRoomRow.rfqId d1 = DealRoomRow.rfqId d2 -> DealRoomRow.id d1 = DealRoomRow.id d2) /\
  (forall d, d ∈ dealRooms (store s) -> opened_on (store s) d /\
     forall org, is_Some (participant_findByDealRoomAndOrg (store s) (DealRoomRow.id d) org) <->
       org = DealRoomRow.merchantOrgId d \/ org = DealRoomRow.providerOrgId d) /\
  (forall n, n ∈ dealConditions (store s) -> exists d, d ∈ dealRooms (store s) /\ DealRoomRow.id d = DealConditionRow.dealRoomId n /\
     (DealConditionRow.ownerOrgId n = DealRoomRow.merchantOrgId d \/ DealConditionRow.ownerOrgId n = DealRoomRow.providerOrgId d)).
Proof.
  intros K0 R. pose proof (trade_reach sha256_hex db s K0 R) as KK. pose proof KK as [T K]. split_and!; [done|..].
  - intros q1 q2 H1 H2 S1 S2 E.
    exact (one_selected _ _ _ _ _ K (book_row offerOf _ _ q1 (tt_quotes _ T) H1) (book_row offerOf _ _ q2 (tt_quotes _ T) H2) S1 S2 E).
  - intros r Hr. by apply selected_has_deal.
  - intros d1 d2 H1 H2 E. apply (mk_one_deal _ K _ _ _ _ (DealRoomRow.rfqId d1) (book_row dealOf _ _ d1 (tt_deals _ T) H1) (book_row dealOf _ _ d2 (tt_deals _ T) H2));
      unfold deal_key; simpl; congruence.
  - intros d Hd. split; [by apply deal_opened_on|]. intros org. by apply parties_participate.
  - intros n Hn. destruct (mk_conditions _ K _ _ (book_row conditionOf _ _ n (tt_conditions _ T) Hn)) as (d & Hd & Hp).
    apply row_at in Hd as (d' & Hin & Ed & ->). exists d'. split_and!; [done|exact Ed|exact Hp].
Qed.

(** C12: the services refine the abstract market, and a selection is final.
    Between any two moments of any concurrent run from sound tables, the
    tables go from one market to another by steps of [TradeSpec]; so every
    quote of the first moment is still there with its RFQ, provider and
    version, and one that is no longer SUBMITTED has kept its status; every
    deal room is still there on the same quote between the same
    organizations, its status moved along the table of deal-states.ts only;
    and every decision stands as it was recorded. *)
Theorem trade_refines_market (db : Db) (s s' : Config service) : trade_ok db -> reach db s -> later_than s s' ->
  rtc market_step (market (store s)) (market (store s')) /\
  (forall q, q ∈ quotes (store s) -> exists q', q' ∈ quotes (store s') /\ QuoteRow.id q' = QuoteRow.id q /\
     offer_columns (offerOf q') = offer_columns (offerOf q) /\ (QuoteRow.status q <> Quote.SUBMITTED -> QuoteRow.status q' = QuoteRow.status q)) /\
  (forall d, d ∈ dealRooms (store s) -> exists d', d' ∈ dealRooms (store s') /\ DealRoomRow.id d' = DealRoomRow.id d /\
     deal_columns (dealOf d') = deal_columns (dealOf d) /\ reachable (DealRoomRow.status d) (DealRoomRow.status d')) /\
  (forall u, u ∈ dealDecisions (store s) -> exists u', u' ∈ dealDecisions (store s') /\ DealDecisionRow.id u' = DealDecisionRow.id u /\
     rulingOf u' = rulingOf u).
Proof.
  intros K0 R R'. pose proof (trade_between sha256_hex db s s' K0 R R') as Sim. pose proof (trade_reach sha256_hex db s K0 R) as [T _].
  pose proof (market_run_later _ _ Sim) as L. split_and!; [done|..].
  - intros q Hq. destruct (ml_offers _ _ L _ _ (book_row offerOf _ _ q (tt_quotes _ T) Hq)) as (o & Ho & E & F).
    apply row_at in Ho as (q' & Hq' & Ei & ->). exists q'. split_and!; [done|exact Ei|exact E|]. intros Hs. specialize (F Hs). by injection F.
  - intros d Hd. destruct (ml_deals _ _ L _ _ (book_row dealOf _ _ d (tt_deals _ T) Hd)) as (e & He & E & F).
    apply row_at in He as (d' & Hd' & Ei & ->). exists d'. by split_and!.
  - intros u Hu. destruct (ml_rulings _ _ L _ _ (book_row rulingOf _ _ u (tt_decisions _ T) Hu)) as (e & He & E).
    apply row_at in He as (u' & Hu' & Ei & ->). exists u'. by split_and!.
Qed.

(** C13: a request succeeds exactly when it should.  On sound tables each of
    the nine requests on its own succeeds iff [trade_accepted] says so: an RFQ
    is sent for a MATCH_READY or INVITED opportunity to distinct existing
    providers; an invitation is declined from INVITED, ACKNOWLEDGED or QUOTED
    and quoted from INVITED or ACKNOWLEDGED while the RFQ is open; a quote is
    withdrawn by its provider or selected for its merchant while it is
    SUBMITTED, the RFQ QUOTED and the two organizations different; a
    condition is owed by a party and resolved once from PENDING; a decision
    is always recorded.  A refused request leaves the database as it was, and
    an accepted one leaves it sound. *)
Theorem trade_requests_exact (r : TradeReq) (db : Db) : trade_ok db ->
  (is_ok (snd (serve service r db)) = true <-> trade_accepted sha256_hex r db) /\
  (is_ok (snd (serve service r db)) = false -> fst (serve service r db) = db) /\
  trade_ok (fst (serve service r db)).
Proof.
  intros K. split_and!; [by apply serve_accepted_iff| |eapply acts_trade_ok; [done|by apply serve_acts]].
  unfold serve. destruct (h_pre service r db) as [p|]; [|done]. destruct (h_tx service r p db) as [[out db']|]; done.
Qed.

(** ** One request *)

Lemma trade_served_accepted r db db' a : trade_ok db -> serve service r db = (db', Ok a) -> trade_accepted sha256_hex r db.
Proof. intros K E. apply (serve_accepted_iff sha256_hex r db K). by rewrite E. Qed.

Definition of_party (a : Actor) (d : DealRoomRow.t) : Prop :=
  exists org, organizationId a = Some org /\ (org = DealRoomRow.merchantOrgId d \/ org = DealRoomRow.providerOrgId d).

Lemma room_actor db c action x d : trade_ok db -> room_ready c action x db d -> at_desk action (actor c) \/ of_party (actor c) d.
Proof.
  intros K [Hf Ha]. destruct (trade_path _ _ _ _ Ha) as [?|[Hp|(org & Ho & [= E])]]; [by left| |right; exists org; by rewrite E; tauto].
  right. cbn [isParticipant truthy] in Hp. apply bool_decide_eq_true in Hp. unfold when_present in Hp.
  destruct (organizationId (actor c)) as [org|] eqn:Ho; [|by destruct Hp]. destruct (String.eqb org ""); [by destruct Hp|]. exists org. split; [done|].
  pose proof Hf as [Hin Ei]%findById_Some. change (row_id d) with (DealRoomRow.id d) in Ei. rewrite <- Ei in Hp. by apply (parties_participate db d org K Hin).
Qed.

(** The room a deal request names. *)
Definition deal_request (r : TradeReq) : option (Call * Action * string) :=
  match r with
  | PostCondition c x _ => Some (c, deal_post_condition, x)
  | ResolveCondition c x _ _ => Some (c, deal_resolve_condition, x)
  | RecordDecision c x _ => Some (c, deal_record_decision, x)
  | _ => None
  end.

(** C15: who trades.  An RFQ is sent by the desk only; declined or quoted only
    by an organization invited to it; a quote is withdrawn only by the
    organization that made it, and selected only for the organization that
    owns the opportunity or by the platform owner; and a deal room is changed
    only by its two parties or the desk. *)
Theorem trade_authority (r : TradeReq) (db db' : Db) (a : Resp service r) : trade_ok db -> serve service r db = (db', Ok a) ->
  match r with
  | CreateRfq c _ => at_desk Actions.rfq_create (actor c)
  | DeclineRfq c x _ | SubmitQuote c x _ =>
      exists p, p ∈ rfqRecipients db /\ RFQRecipientRow.rfqId p = x /\ organizationId (actor c) = Some (RFQRecipientRow.providerOrgId p)
  | WithdrawQuote c x y => exists q, quote_findById db y = Some q /\ QuoteRow.rfqId q = x /\ organizationId (actor c) = Some (QuoteRow.providerOrgId q)
  | SelectQuote c x _ => at_desk rfq_select_quote (actor c) \/
      exists rfq o, rfq_findById db x = Some rfq /\ opportunity_findById db (RFQRow.opportunityId rfq) = Some o /\
        organizationId (actor c) = Some (OpportunityRow.ownerOrgId o)
  | ExpireRfq _ _ => True
  | _ => forall c action x, deal_request r = Some (c, action, x) ->
      exists d, dealRoom_findById db x = Some d /\ (at_desk action (actor c) \/ of_party (actor c) d)
  end.
Proof.
  intros K E. apply (trade_served_accepted _ _ _ _ K) in E. destruct r as [c i|c x why|c x i|c x q|c x i|c x i|c x y i|c x i|x t]; cbn [trade_accepted] in E.
  - destruct E as (o & Ho & Ha & _). exact (reserved_path _ _ _ _ _ Ha eq_refl).
  - destruct E as (p & _ & _ & Hq & _). exists (ip_recipient p). by apply myInvitation_Some in Hq.
  - destruct E as (p & (_ & _ & Hq & _) & _). exists (ip_recipient p). by apply myInvitation_Some in Hq.
  - destruct E as (p & (_ & _ & Hq & Ex & _) & Ho & _). by exists (qp_quote p).
  - destruct E as (p & (Hr & Ho & _) & _ & _ & Ha & _). destruct (trade_path _ _ _ _ Ha) as [?|[Hp|(org & Hrole & [= Hw])]]; [by left|done|].
    right. exists (qp_rfq p), (qp_opportunity p). split_and!; [done..|congruence].
  - destruct E as (d & Hr & _). intros c' act x' [= <- <- <-]. exists d. split; [apply Hr|by eapply room_actor].
  - destruct E as (d & n & Hr & _). intros c' act x' [= <- <- <-]. exists d. split; [apply Hr|by eapply room_actor].
  - destruct E as (d & Hr). intros c' act x' [= <- <- <-]. exists d. split; [apply Hr|by eapply room_actor].
  - done.
Qed.

(** C14: quotes are sealed.  The response of GET /rfqs/:id goes only to the
    desk, to the owner of the opportunity and to an invited provider; it
    carries the quotes on the RFQ, all of them for the desk and the owner,
    and for a provider its own and no other.  A deal room is read only by the
    desk and by its two parties, and a party lists its own deal rooms only. *)
Theorem quotes_sealed (a : Actor) (x : string) (db : Db) : trade_ok db ->
  (forall detail, rfqsService_getById a x db = Ok detail ->
     (at_desk rfq_read a \/ organizationId a = Some (f_merchantOrgId detail) \/
      exists p, p ∈ rfqRecipients db /\ RFQRecipientRow.rfqId p = x /\ organizationId a = Some (RFQRecipientRow.providerOrgId p)) /\
     (forall q, q ∈ visibleQuotes a detail <->
        q ∈ quotes db /\ QuoteRow.rfqId q = x /\
        (organizationId a = Some (f_merchantOrgId detail) \/ at_desk rfq_read a \/ organizationId a = Some (QuoteRow.providerOrgId q)))) /\
  (forall detail, dealsService_getById a x db = Ok detail -> at_desk deal_read a \/ of_party a (g_dealRoom detail)) /\
  (forall l d, ~ at_desk deal_read a -> dealsService_list a db = Ok l -> d ∈ l -> of_party a d).
Proof.
  intros K. split_and!.
  - intros detail E. unfold rfqsService_getById in E. apply rbind_Ok in E as ([rfq o] & [Hr Ho]%loadRfq_Ok & E).
    apply rbind_Ok in E as (? & Ha%require_Ok & [= <-]). cbn [f_merchantOrgId f_quotes]. split.
    + destruct (trade_path _ _ _ _ Ha) as [?|[Hp|(org & Hrole & [= Hw])]]; [by left| |right; left; congruence].
      right; right. cbn [isParticipant participant truthy] in Hp. apply bool_decide_eq_true in Hp as [p Hp]. apply myInvitation_Some in Hp. eauto.
    + intros q. unfold visibleQuotes. cbn [f_merchantOrgId f_quotes]. rewrite filterQuotes_spec. unfold quote_listByRfq, findMany.
      rewrite sort_by_elem, elem_of_filter_list, String.eqb_eq. unfold at_desk. cbn [desk_of]. tauto.
  - intros detail E. unfold dealsService_getById in E. apply rbind_Ok in E as (d & Hr & [= <-]). cbn [g_dealRoom].
    pose (c := {| actor := a; context := {| requestId := ""; correlationId := ""; ApiShared.ipClass := ""; ApiShared.userAgentClass := "" |}; now := 0 |}).
    apply (room_exact c) in Hr. by apply (room_actor db c deal_read x d K).
  - intros l d Hdesk E Hin. unfold dealsService_list in E. apply rbind_Ok in E as (? & _ & E).
    destruct (has_role CROSS_ORG_DEAL_ROLES (role a)) eqn:Hr.
    { destruct Hdesk. unfold has_role in Hr. destruct (role a) as [r|] eqn:Er; [|done]. apply bool_decide_eq_true in Hr. by exists r. }
    injection E as <-. unfold when_present in Hin. destruct (organizationId a) as [org|] eqn:Ho; [|by apply elem_of_nil in Hin].
    destruct (String.eqb org ""); [by apply elem_of_nil in Hin|]. apply findMany_elem in Hin as [_ Hp]. exists org. split; [done|].
    apply orb_true_iff in Hp as [->%String.eqb_eq| ->%String.eqb_eq]; tauto.
Qed.

(** ** The expiry job *)

Lemma expireRfq_rfqs y due st db v db' : expireRfq y due st db = Ok (v, db') -> rfqs db' = map (updating y (rfqWith Rfq.EXPIRED None)) (rfqs db).
Proof.
  unfold expireRfq. intros E. apply tbind_Ok in E as (? & ? & [_ ->]%tlift_Ok & E). apply tbind_Ok in E as (r & d1 & Eu & E).
  unfold rfq_updateStatus in Eu. destruct (updateById y _ (rfqs db)) as [[r0 t]|] eqn:Et; [|done]. cbn in Eu. injection Eu as <- <-.
  apply updateById_Ok in Et as (r1 & _ & _ & ->). apply tbind_Ok in E as (? & d2 & B%audit_beside & E). apply tbind_Ok in E as (? & d3 & B2%event_beside & E).
  injection E as _ <-. rewrite (be_rfqs _ _ B2), (be_rfqs _ _ B). reflexivity.
Qed.

(** C16: an overdue request expires, once.  The job on an RFQ past its due
    date, in an expirable status and not handled before, always succeeds: it
    reports one RFQ scanned and expired, leaves that RFQ EXPIRED and every
    other one untouched; and running the job on it again, then or at any
    later time, reports nothing expired and changes nothing. *)
Theorem expiry_settles (db : Db) (x : string) (t : Z) (r : RFQRow.t) : trade_ok db -> rfq_findById db x = Some r ->
  RFQRow.dueAt r <= t -> RFQRow.status r ∈ EXPIRABLE_STATUSES ->
  idempotency_find db "worker.rfq-expiry" (expiryKey x (toISOString (RFQRow.dueAt r))) = None ->
  exists db', serve service (ExpireRfq x t) db = (db', Ok {| x_scanned := 1; x_expired := 1 |}) /\
    rfq_findById db' x = Some (rfqWith Rfq.EXPIRED None r) /\
    (forall y, y <> x -> rfq_findById db' y = rfq_findById db y) /\
    (forall t', t <= t' -> serve service (ExpireRfq x t') db' = (db', Ok {| x_scanned := 1; x_expired := 0 |})).
Proof.
  intros K Hf Hdue Hs Hkey. destruct (expireRfq_run x (toISOString (RFQRow.dueAt r)) r db Hf Hs) as (v & d1 & E1).
  pose (due := toISOString (RFQRow.dueAt r)).
  pose (info := {| ji_scope := "worker.rfq-expiry"; ji_key := expiryKey x due; ji_requestPayload := expiryPayload x due r |}).
  destruct (recordResult_run sha256_hex info t v d1) as (d2 & E2). pose proof (be_rfqs _ _ (recordResult_beside sha256_hex _ _ _ _ _ _ E2)) as R2.
  pose proof (expireRfq_rfqs _ _ _ _ _ _ E1) as R1. rewrite R1 in R2.
  assert (forall t', expiryJob_pre x t' db = if t' <? RFQRow.dueAt r then inl {| x_scanned := 1; x_expired := 0 |} else inr (toISOString (RFQRow.dueAt r))) as Pre.
  { intros t'. unfold expiryJob_pre. by rewrite Hf. }
  assert (rfq_findById d2 x = Some (rfqWith Rfq.EXPIRED None r)) as Hx.
  { unfold rfq_findById in *. rewrite R2. by apply findById_updating. }
  exists d2. split_and!; [|done| |].
  - unfold serve. cbn [h_pre h_tx h_finish trade_service trade_pre trade_tx]. rewrite Pre, (proj2 (Z.ltb_ge _ _) Hdue). cbn [expiryJob_tx].
    unfold expireOne. unfold tbind at 1. rewrite Hf, bool_decide_eq_true_2 by done. cbn [negb].
    unfold withJobIdempotency. cbn [ji_scope ji_key]. unfold expiryKey in Hkey. unfold tbind at 1. rewrite Hkey.
    rewrite (tbind_run _ _ _ _ _ E1). unfold info, due, expiryKey, expiryPayload in E2. rewrite E2. done.
  - intros y Hy. unfold rfq_findById. rewrite R2. by apply findById_updating_other.
  - intros t' Ht. unfold serve. cbn [h_pre h_tx h_finish trade_service trade_pre trade_tx]. unfold expiryJob_pre. rewrite Hx. cbn [RFQRow.dueAt rfqWith].
    rewrite (proj2 (Z.ltb_ge t' (RFQRow.dueAt r))) by lia. cbn [expiryJob_tx]. unfold expireOne. unfold tbind at 1. by rewrite Hx.
Qed.

End Theorems.

(** ** Witnesses on the sample market *)

Lemma trade_always_sound_witness :
  exists s, reaches sampleTrade trade_env anyone marketDb s /\ store s = serveAll sampleTrade sampleTradeRun marketDb /\ trade_ok (store s).
Proof.
  pose proof (serveAll_answers sampleTrade trade_env anyone sampleTradeRun marketDb (any_sent _)) as R.
  eexists. split; [exact R|]. split; [reflexivity|]. exact (proj1 (trade_always_sound sampleSha marketDb _ marketDb_ok R)).
Defined.

(** The deal room of the selection is still there after the decision. *)
Lemma trade_refines_market_witness :
  exists (s : Config sampleTrade) d d', store s = selectedDb /\ d ∈ dealRooms selectedDb /\
    d' ∈ dealRooms (serveAll sampleTrade [sampleRule "id-12" APPROVAL] selectedDb) /\ DealRoomRow.id d' = DealRoomRow.id d /\
    reachable (DealRoomRow.status d) (DealRoomRow.status d').
Proof.
  pose proof (serveAll_answers sampleTrade trade_env anyone
    [sampleSend; sampleQuote provider "id-0"; sampleQuote rival "id-0"; sampleSelect "id-0" "id-6"] marketDb (any_sent _)) as R.
  match type of R with reaches _ _ _ _ ?s => pose (s1 := s) end.
  assert (store s1 = selectedDb) as Es by (vm_compute; reflexivity).
  pose proof (serveAll_steps sampleTrade trade_env anyone [sampleRule "id-12" APPROVAL] s1 (any_sent _) eq_refl) as R2.
  destruct (trade_refines_market sampleSha marketDb s1 _ marketDb_ok R R2) as (_ & _ & F & _). rewrite Es in F.
  destruct (dealRooms selectedDb) as [|d l] eqn:Hd; [exfalso; vm_compute in Hd; discriminate Hd|].
  destruct (F d ltac:(left)) as (d' & Hd' & Ei & _ & Hr). exists s1, d, d'. split; [exact Es|]. split; [left|]. split; [exact Hd'|]. split; [exact Ei|exact Hr].
Defined.

Lemma trade_requests_exact_witness : is_ok (snd (serve sampleTrade (sampleSelect "id-0" "id-6") quotedDb)) = true /\
  trade_accepted sampleSha (sampleSelect "id-0" "id-6") quotedDb.
Proof.
  assert (is_ok (snd (serve sampleTrade (sampleSelect "id-0" "id-6") quotedDb)) = true) as Hok by (vm_compute; reflexivity).
  split; [exact Hok|]. exact (proj1 (proj1 (trade_requests_exact sampleSha (sampleSelect "id-0" "id-6") quotedDb quotedDb_ok)) Hok).
Defined.

Lemma trade_authority_witness : exists p, p ∈ rfqRecipients sentDb /\ RFQRecipientRow.rfqId p = "id-0" /\ RFQRecipientRow.providerOrgId p = "provider".
Proof.
  destruct (serve sampleTrade (sampleQuote provider "id-0") sentDb) as [db' [q|e]] eqn:E; [|exfalso; vm_compute in E; discriminate E].
  pose proof (trade_authority sampleSha (sampleQuote provider "id-0") sentDb db' q sentDb_ok E) as (p & Hp & Ex & Eo).
  exists p. split; [exact Hp|]. split; [exact Ex|]. injection Eo as Eo. symmetry. exact Eo.
Defined.

(** Both providers quoted; the one sees one quote. *)
Lemma quotes_sealed_witness : exists detail, rfqsService_getById (actor provider) "id-0" quotedDb = Ok detail /\
  length (f_quotes detail) = 2%nat /\ map QuoteRow.providerOrgId (visibleQuotes (actor provider) detail) = ["provider"] /\
  forall q, q ∈ visibleQuotes (actor provider) detail -> QuoteRow.rfqId q = "id-0".
Proof.
  destruct (rfqsService_getById (actor provider) "id-0" quotedDb) as [detail|e] eqn:E; [|exfalso; vm_compute in E; discriminate E].
  exists detail. split; [reflexivity|].
  pose proof (proj2 (proj1 (quotes_sealed (actor provider) "id-0" quotedDb quotedDb_ok) detail E)) as F.
  split; [|split]; [..|intros q Hq; apply F in Hq as (_ & Hq & _); exact Hq]; vm_compute in E; injection E as <-; vm_compute; reflexivity.
Defined.

Lemma expiry_settles_witness : exists db', serve sampleTrade (ExpireRfq "id-0" 1788220800000) quotedDb = (db', Ok {| x_scanned := 1; x_expired := 1 |}).
Proof.
  destruct (rfq_findById quotedDb "id-0") as [r|] eqn:Hr; [|exfalso; vm_compute in Hr; discriminate Hr].
  assert (RFQRow.dueAt r <= 1788220800000 /\ RFQRow.status r = Rfq.QUOTED /\
    idempotency_find quotedDb "worker.rfq-expiry" (expiryKey "id-0" (toISOString (RFQRow.dueAt r))) = None) as (H1 & H2 & H3).
  { vm_compute in Hr. injection Hr as <-. split; [discriminate|]. split; vm_compute; reflexivity. }
  destruct (expiry_settles sampleSha quotedDb "id-0" 1788220800000 r quotedDb_ok Hr H1) as (db' & E & _); [|exact H3|exists db'; exact E].
  rewrite H2. unfold EXPIRABLE_STATUSES. set_solver.
Defined.
