(* ===== verification/PassportRepositories.v ===== *)
(** * packages/db: the repositories of passports

    passport, fact, evidence and readiness-result .repository.ts.  A passport
    is unique to its organization, a fact to its passport and key; evidence
    and readiness results are only ever appended. *)
From S2P Require Import Prelude StableSort DomainStates AuthzMatrix JsNumber JsonText Database ApiShared.

(** ** passportRepository *)

Record CreatePassportInput : Type := {
  pp_organizationId : string;
  pp_createdByUserId : option string;
  pp_createdByOrgId : option string
}.

Definition passport_findById (db : Db) (x : string) : option PassportRow.t := findById (passports db) x.

Definition ofOrganization (org : string) (p : PassportRow.t) : bool := String.eqb (PassportRow.organizationId p) org.

Definition passport_findByOrganizationId (db : Db) (org : string) : option PassportRow.t := findUnique (ofOrganization org) (passports db).

(** [{ limit?: number }], 100 by default *)
Definition passport_list (db : Db) (limit : option nat) : list PassportRow.t :=
  take (default 100%nat limit) (findMany (desc row_createdAt) (fun _ => true) (passports db)).

Definition passportWith (st : Passport.PassportStatus) (user : option string) (t : Z) (p : PassportRow.t) : PassportRow.t :=
  {| PassportRow.id := PassportRow.id p; PassportRow.organizationId := PassportRow.organizationId p; PassportRow.status := st;
     PassportRow.updatedAt := t; PassportRow.base := touch (PassportRow.base p) user |}.

Definition passport_updateStatus (x : string) (st : Passport.PassportStatus) (user : option string) : Tx PassportRow.t :=
  fun db =>
    let! (row, t) := updateById x (passportWith st user (clock db)) (passports db) in
    Ok (row, set_passports t db).

(** ** factRepository *)

Record UpsertFactInput : Type := {
  fi_passportId : string;
  fi_sectionType : Provenance.PassportSectionType;
  fi_fieldKey : string;
  fi_normalizedValue : option Json;
  fi_verification : option Provenance.FactProvenance;
  fi_evidenceId : option string;
  fi_createdByUserId : option string;
  fi_createdByOrgId : option string;
  fi_updatedByUserId : option string
}.

(** The order of an enum column is the order of its values in the schema. *)
Definition section_rank (s : Provenance.PassportSectionType) : Z :=
  match s with
  | Provenance.IDENTITY => 0 | Provenance.RELATIONSHIP_HISTORY => 1 | Provenance.PROCESSING_METRICS => 2
  | Provenance.RISK => 3 | Provenance.COMMERCIAL => 4 | Provenance.TECHNICAL => 5
  end.

Definition factKey (passportId key : string) (f : FactRow.t) : bool :=
  String.eqb (FactRow.passportId f) passportId && String.eqb (FactRow.fieldKey f) key.

Definition factWith (i : UpsertFactInput) (value : Json) (t : Z) (f : FactRow.t) : FactRow.t :=
  {| FactRow.id := FactRow.id f; FactRow.passportId := FactRow.passportId f; FactRow.sectionType := fi_sectionType i;
     FactRow.fieldKey := FactRow.fieldKey f; FactRow.normalizedValue := value;
     FactRow.verification := default Provenance.SELF_REPORTED (fi_verification i); FactRow.evidenceId := fi_evidenceId i;
     FactRow.updatedAt := t; FactRow.base := touch (FactRow.base f) (fi_updatedByUserId i) |}.

(** ** evidenceRepository *)

Record CreateEvidenceInput : Type := {
  ei_passportId : string;
  ei_type : EvidenceSourceKind.t;
  ei_objectRef : string;
  ei_checksum : option string;
  ei_issuer : option string;
  ei_collectedAt : Z;
  ei_expiresAt : option Z;
  ei_createdByUserId : option string;
  ei_createdByOrgId : option string
}.

Definition evidence_findById (db : Db) (x : string) : option EvidenceRow.t := findById (passportEvidence db) x.

Definition evidence_listByPassport (db : Db) (x : string) : list EvidenceRow.t :=
  take 500 (findMany (desc row_createdAt) (fun e => String.eqb (EvidenceRow.passportId e) x) (passportEvidence db)).

(** ** readinessResultRepository *)

Record CreateReadinessResultInput : Type := {
  ci_passportId : string;
  ci_score : jsnum;
  ci_blockers : list Json;
  ci_warnings : list Json;
  ci_ruleVersion : string;
  ci_algorithmVersion : string;
  ci_inputVersions : list string;
  ci_computedAt : Z;
  ci_createdByUserId : option string;
  ci_createdByOrgId : option string;
  ci_sourceType : option SourceType.t
}.

Definition resultOf (x : string) (r : ReadinessResultRow.t) : bool := String.eqb (ReadinessResultRow.passportId r) x.

Definition readiness_findLatestByPassport (db : Db) (x : string) : option ReadinessResultRow.t :=
  head (findMany (desc ReadinessResultRow.computedAt) (resultOf x) (readinessResults db)).

Section Create.
Context `{Platform}.

(** [organizationId] is unique. *)
Definition passport_create (input : CreatePassportInput) : Tx PassportRow.t :=
  let* i := freshId in
  fun db =>
    match passport_findByOrganizationId db (pp_organizationId input) with
    | Some _ => Throw (PrismaKnownRequestError "P2002")
    | None =>
        let row := {|
          PassportRow.id := i; PassportRow.organizationId := pp_organizationId input; PassportRow.status := Passport.DRAFT;
          PassportRow.updatedAt := clock db;
          PassportRow.base := newBase (pp_createdByUserId input) (pp_createdByOrgId input) Roles.MEMBER_MARKET db |} in
        Ok (row, set_passports (passports db ++ [row]) db)
    end.

Definition fact_listByPassport (db : Db) (x : string) : list FactRow.t :=
  findMany (cmp_lex (asc (fun f => section_rank (FactRow.sectionType f))) (cmp_on FactRow.fieldKey collate))
    (fun f => String.eqb (FactRow.passportId f) x) (facts db).

Definition fact_upsertByFieldKey (input : UpsertFactInput) : Tx FactRow.t :=
  do* tlift (assertJsonSerializableValue (fi_normalizedValue input) ("Fact(" +:+ fi_fieldKey input +:+ ").normalizedValue"));
  let value := default JNull (fi_normalizedValue input) in
  fun db =>
    match findUnique (factKey (fi_passportId input) (fi_fieldKey input)) (facts db) with
    | Some f =>
        let! (row, t) := updateById (FactRow.id f) (factWith input value (clock db)) (facts db) in
        Ok (row, set_facts t db)
    | None =>
        (let* i := freshId in
         fun db =>
           let row := {|
             FactRow.id := i; FactRow.passportId := fi_passportId input; FactRow.sectionType := fi_sectionType input;
             FactRow.fieldKey := fi_fieldKey input; FactRow.normalizedValue := value;
             FactRow.verification := default Provenance.SELF_REPORTED (fi_verification input); FactRow.evidenceId := fi_evidenceId input;
             FactRow.updatedAt := clock db;
             FactRow.base := newBase (fi_createdByUserId input) (fi_createdByOrgId input) Roles.MEMBER_MARKET db |} in
           Ok (row, set_facts (facts db ++ [row]) db)) db
    end.

Definition evidence_create (input : CreateEvidenceInput) : Tx EvidenceRow.t :=
  let* i := freshId in
  fun db =>
    let row := {|
      EvidenceRow.id := i; EvidenceRow.passportId := ei_passportId input; EvidenceRow.type := ei_type input;
      EvidenceRow.objectRef := ei_objectRef input; EvidenceRow.checksum := ei_checksum input; EvidenceRow.issuer := ei_issuer input;
      EvidenceRow.collectedAt := ei_collectedAt input; EvidenceRow.expiresAt := ei_expiresAt input;
      EvidenceRow.base := newBase (ei_createdByUserId input) (ei_createdByOrgId input) Roles.RESTRICTED db |} in
    Ok (row, set_passportEvidence (passportEvidence db ++ [row]) db).

Definition resultBase (input : CreateReadinessResultInput) (db : Db) : Base :=
  let b := newBase (ci_createdByUserId input) (ci_createdByOrgId input) Roles.MEMBER_MARKET db in
  {| createdAt := createdAt b; createdByUserId := createdByUserId b; createdByOrgId := createdByOrgId b;
     updatedByUserId := updatedByUserId b; version := version b; privacyClass := privacyClass b;
     sourceType := default SourceType.PLATFORM (ci_sourceType input); sourceReference := sourceReference b |}.

Definition readiness_create (input : CreateReadinessResultInput) : Tx ReadinessResultRow.t :=
  do* tlift (assertJsonSafeObjectArray (JArr (ci_blockers input)) "ReadinessResult.blockers");
  do* tlift (assertJsonSafeObjectArray (JArr (ci_warnings input)) "ReadinessResult.warnings");
  do* tlift (assertStringArray (JArr (map JStr (ci_inputVersions input))) "ReadinessResult.inputVersions");
  let* i := freshId in
  fun db =>
    let row := {|
      ReadinessResultRow.id := i; ReadinessResultRow.passportId := ci_passportId input; ReadinessResultRow.score := ci_score input;
      ReadinessResultRow.blockers := ci_blockers input; ReadinessResultRow.warnings := ci_warnings input;
      ReadinessResultRow.ruleVersion := ci_ruleVersion input; ReadinessResultRow.algorithmVersion := ci_algorithmVersion input;
      ReadinessResultRow.inputVersions := ci_inputVersions input; ReadinessResultRow.computedAt := ci_computedAt input;
      ReadinessResultRow.base := resultBase input db |} in
    Ok (row, set_readinessResults (readinessResults db ++ [row]) db).

End Create.
