(* ===== verification/PassportService.v ===== *)
(** * Passports: apps/api/src/modules/passport/service.ts and the readiness job

    The passport of an organization: its facts, the evidence behind them, and
    the readiness computed from both.  [recomputeReadinessAndStatus] is where
    the service's mutations converge; [recomputePassport] is the copy of it in
    apps/worker/src/jobs/passport-readiness.job.ts.  Both run under the
    advisory lock on the passport's identifier.  Enqueueing the job after a
    commit is output only. *)
From S2P Require Import Prelude StableSort DomainStates AuthzMatrix Authz JsNumber Evidence Receipt JsonText Database ApiShared Idempotency.
From S2P Require Import RfqService PassportRepositories.
From Stdlib Require Import Ascii.
Import Roles Actions.

Record UpsertFactRequest : Type := {
  uf_sectionType : Provenance.PassportSectionType;
  uf_fieldKey : string;
  uf_normalizedValue : option Json;
  uf_verification : option Provenance.FactProvenance;
  uf_evidenceId : option string
}.

Record CreateEvidenceRequest : Type := {
  ce_type : EvidenceSourceKind.t;
  ce_objectRef : string;
  ce_checksum : option string;
  ce_issuer : option string;
  ce_collectedAt : string;
  ce_expiresAt : option string
}.

Record VerifyPassportRequest : Type := { vp_reason : string }.

Definition CROSS_ORG_PASSPORT_READ_ROLES : list PersonaRole :=
  [PLATFORM_OWNER; MARKETPLACE_OPERATOR; PARTNERSHIP_LEAD; UNDERWRITING_ANALYST; COMPLIANCE_REVIEWER; AUDITOR_READONLY].

Definition READINESS_STALE_AFTER_DAYS : Z := 90.

Record PassportDetail : Type := {
  pd_passport : PassportRow.t;
  pd_facts : list FactRow.t;
  pd_evidence : list EvidenceRow.t;
  pd_readiness : option ReadinessResultRow.t
}.

Definition passportResource (p : PassportRow.t) : Resource :=
  resourceOf ResourceType.passport (PassportRow.id p) (Some (PassportRow.organizationId p)).

Definition statusName (p : PassportRow.t) : string := Passport.PassportStatus_name (PassportRow.status p).

(** ** Snapshots *)

Definition is_null (v : Json) : bool := match v with JNull => true | _ => false end.

(** A fact, with the [expiresAt] of its evidence. *)
Definition snapshot (f : FactRow.t) (e : option EvidenceRow.t) : FactSnapshot :=
  {| fieldKey := FactRow.fieldKey f; Evidence.sectionType := FactRow.sectionType f; hasValue := negb (is_null (FactRow.normalizedValue f));
     verification := FactRow.verification f; Evidence.expiresAt := e ≫= EvidenceRow.expiresAt; Evidence.updatedAt := FactRow.updatedAt f |}.

Definition buildSnapshots (l : list (FactRow.t * option EvidenceRow.t)) : list FactSnapshot := map (fun '(f, e) => snapshot f e) l.

(** A blocker or a warning as it is stored. *)
Definition noticeJson (n : Notice) : Json :=
  JObj [("fieldKey", JStr (n_fieldKey n)); ("sectionType", JStr (Provenance.PassportSectionType_name (n_sectionType n)));
        ("message", JStr (n_message n))].

Definition counted (l : list Notice) : Json := JNum (Z.of_nat (length l)).

(** [isPassportReadinessStale(status, latest.computedAt, now, 90)] *)
Definition isStale (st : Passport.PassportStatus) (r : ReadinessResultRow.t) (now : Z) : res bool :=
  Passport.isPassportReadinessStale st (Some (ReadinessResultRow.computedAt r)) now READINESS_STALE_AFTER_DAYS.

Definition resultInput (x : string) (result : ReadinessResultShape) (now : Z) (user org : option string) (source : option SourceType.t)
    : CreateReadinessResultInput :=
  {| ci_passportId := x; ci_score := score result; ci_blockers := map noticeJson (blockers result); ci_warnings := map noticeJson (warnings result);
     ci_ruleVersion := ruleVersion result; ci_algorithmVersion := algorithmVersion result; ci_inputVersions := r_inputVersions result;
     ci_computedAt := now; ci_createdByUserId := user; ci_createdByOrgId := org; ci_sourceType := source |}.

Section Service.
Context `{Platform}.

(** ** recomputeReadinessAndStatus *)

Definition factsWithEvidence (db : Db) (x : string) : list (FactRow.t * option EvidenceRow.t) :=
  map (fun f => (f, when_present (FactRow.evidenceId f) (evidence_findById db) None)) (fact_listByPassport db x).

Definition factVersion (f : FactRow.t) : string := "fact:" +:+ FactRow.id f +:+ ":v" +:+ pretty (version (FactRow.base f)).

(** The two journal entries of a recompute, by [user] for [org] without a role. *)
Definition readinessAudit (p : PassportRow.t) (user org : option string) (after : Json) : AuditWriteInput :=
  {| a_actorUserId := user; a_actorOrgId := org; a_actorRole := None; a_subjectOrgId := Some (PassportRow.organizationId p);
     a_action := "passport.readiness_computed"; a_resourceType := "passport"; a_resourceId := Some (PassportRow.id p);
     a_beforeValue := None; a_afterValue := Some after; a_reason := None |}.
Definition passportEvent (p : PassportRow.t) (eventType : string) (user org : option string) (payload : Json) : TimelineWriteInput :=
  {| t_eventType := eventType; t_aggregateType := "passport"; t_aggregateId := PassportRow.id p; t_payload := Some payload;
     t_actorUserId := user; t_actorOrgId := org; t_actorRole := None |}.
Definition statusChange (p : PassportRow.t) (to : Passport.PassportStatus) : Json :=
  JObj [("from", JStr (statusName p)); ("to", JStr (Passport.PassportStatus_name to))].

Definition recomputeReadinessAndStatus (passport : PassportRow.t) (now : Z) (actorUserId actorOrgId : string) (context : RequestContext)
    : Tx (ReadinessResultRow.t * Passport.PassportStatus) :=
  let* factsWith := treads (fun db => factsWithEvidence db (PassportRow.id passport)) in
  let* result := tlift (computeReadiness (buildSnapshots factsWith) now (map (fun fe => factVersion (fst fe)) factsWith) requiredFacts) in
  let blocked := isReadinessBlocked result in
  let user := Some actorUserId in
  let org := Some actorOrgId in
  let* readiness := readiness_create (resultInput (PassportRow.id passport) result now user org None) in
  let counts := [("score", JFloat (score result)); ("blockerCount", counted (blockers result)); ("warningCount", counted (warnings result))] in
  do* auditWriter context (readinessAudit passport user org (JObj counts));
  do* timelineWriter context (passportEvent passport "passport.readiness_computed" user org
        (JObj (counts ++ [("algorithmVersion", JStr (algorithmVersion result))])));
  let targetStatus := Passport.targetStatusAfterRecompute (PassportRow.status passport) (Nat.ltb 0 (length factsWith)) blocked in
  do* (if bool_decide (targetStatus = PassportRow.status passport) then tret tt
       else
         do* tlift (Passport.assertValidPassportTransition (statusName passport) (Passport.PassportStatus_name targetStatus));
         do* passport_updateStatus (PassportRow.id passport) targetStatus user;
         do* timelineWriter context (passportEvent passport "passport.status_changed" user org (statusChange passport targetStatus));
         tret tt);
  tret (readiness, targetStatus).

(** ** The reads: [loadDetailWithStalenessCheck] *)

Record ReadPlan : Type := { rp_passport : PassportRow.t; rp_latest : option ReadinessResultRow.t; rp_stale : bool }.

Definition loadDetail_pre (c : Call) (passport : PassportRow.t) (db : Db) : res ReadPlan :=
  do! require (can (actor c) passport_read (passportResource passport) noContext);
  let latest := readiness_findLatestByPassport db (PassportRow.id passport) in
  let! stale := match latest with Some l => isStale (PassportRow.status passport) l (now c) | None => Ok false end in
  Ok {| rp_passport := passport; rp_latest := latest; rp_stale := stale |}.

(** The passport and the readiness the response shows.  The transaction runs
    only when what was read first looks stale. *)
Definition loadDetail_tx (c : Call) (p : ReadPlan) : Tx (PassportRow.t * option ReadinessResultRow.t) :=
  if rp_stale p then
    fun db =>
      match passport_findById db (PassportRow.id (rp_passport p)) with
      | None => Ok ((rp_passport p, rp_latest p), db)
      | Some fresh =>
          match readiness_findLatestByPassport db (PassportRow.id (rp_passport p)) with
          | None => Ok ((fresh, rp_latest p), db)
          | Some freshReadiness =>
              let! stale := isStale (PassportRow.status fresh) freshReadiness (now c) in
              if stale then
                (do* tlift (Passport.assertValidPassportTransition (statusName fresh) "STALE");
                 let* updated := passport_updateStatus (PassportRow.id (rp_passport p)) Passport.STALE None in
                 tret (updated, Some freshReadiness)) db
              else Ok ((fresh, Some freshReadiness), db)
          end
      end
  else tret (rp_passport p, rp_latest p).

(** The two lists, read after the transaction. *)
Definition passportDetail (shown : PassportRow.t * option ReadinessResultRow.t) (db : Db) : PassportDetail :=
  {| pd_passport := fst shown; pd_facts := fact_listByPassport db (PassportRow.id (fst shown));
     pd_evidence := evidence_listByPassport db (PassportRow.id (fst shown)); pd_readiness := snd shown |}.

Definition getById_pre (c : Call) (x : string) (db : Db) : res ReadPlan :=
  match passport_findById db x with
  | None => Throw (notFound "Passport not found.")
  | Some passport => loadDetail_pre c passport db
  end.

Definition getByOrganizationId_pre (c : Call) (org : string) (db : Db) : res ReadPlan :=
  match passport_findByOrganizationId db org with
  | None => Throw (notFound "No Passport exists yet for this organization.")
  | Some passport => loadDetail_pre c passport db
  end.

Definition passportService_list (a : Actor) (db : Db) : res (list PassportRow.t) :=
  do! require (can a Actions.passport_list (resource ResourceType.passport (organizationId a)) noContext);
  if has_role CROSS_ORG_PASSPORT_READ_ROLES (role a) then Ok (PassportRepositories.passport_list db None)
  else Ok (when_present (organizationId a)
             (fun org => match passport_findByOrganizationId db org with Some own => [own] | None => [] end) []).

(** ** create *)

Definition createPassport_pre (c : Call) (db : Db) : res string :=
  when_present (organizationId (actor c))
    (fun org =>
       do! require (can (actor c) Actions.passport_create (resource ResourceType.passport (organizationId (actor c))) noContext);
       match passport_findByOrganizationId db org with
       | Some _ => Throw (conflict "This organization already has a Passport — use the existing one." false)
       | None => Ok org
       end)
    (Throw (forbidden "Actor has no active organization membership.")).

(** The plan is the actor's organization. *)
Definition createPassport_tx (c : Call) (org : string) : Tx PassportRow.t :=
  let user := userId (actor c) in
  let* created := PassportRepositories.passport_create
    {| pp_organizationId := org; pp_createdByUserId := Some user; pp_createdByOrgId := organizationId (actor c) |} in
  let payload := JObj [("organizationId", JStr org)] in
  do* auditWriter (context c) (audit_of c (Some org) "passport.created" "passport" (PassportRow.id created) payload);
  do* timelineWriter (context c) (event_of c "passport.created" "passport" (PassportRow.id created) payload);
  do* recomputeReadinessAndStatus created (now c) user org (context c);
  tret created.

(** ** upsertFact *)

(** Load the passport and ask [can] about it. *)
Definition authorizedPassport (a : Actor) (action : Action) (x : string) (db : Db) : res PassportRow.t :=
  match passport_findById db x with
  | None => Throw (notFound "Passport not found.")
  | Some passport => do! require (can a action (passportResource passport) noContext); Ok passport
  end.

Definition ownEvidence (x : string) (db : Db) (e : string) : res unit :=
  match evidence_findById db e with
  | Some ev => throw_if (negb (String.eqb (EvidenceRow.passportId ev) x))
                 (badRequest "evidenceId does not reference evidence belonging to this Passport.")
  | None => Throw (badRequest "evidenceId does not reference evidence belonging to this Passport.")
  end.

Definition upsertFact_pre (c : Call) (x : string) (input : UpsertFactRequest) (db : Db) : res PassportRow.t :=
  let! passport := authorizedPassport (actor c) passport_update x db in
  do! when_present (uf_evidenceId input) (ownEvidence x db) (Ok tt);
  Ok passport.

Definition freshPassport (x : string) : Tx PassportRow.t :=
  fun db =>
    match passport_findById db x with
    | None => Throw (internal "Passport disappeared mid-transaction.")
    | Some p => Ok (p, db)
    end.

Record UpsertFactResult : Type := { fr_fact : FactRow.t; fr_readiness : ReadinessResultRow.t; fr_status : Passport.PassportStatus }.

Definition upsertFact_tx (c : Call) (x : string) (input : UpsertFactRequest) (passport : PassportRow.t) : Tx UpsertFactResult :=
  let user := userId (actor c) in
  let* fresh := freshPassport x in
  let* fact := fact_upsertByFieldKey {| fi_passportId := x; fi_sectionType := uf_sectionType input; fi_fieldKey := uf_fieldKey input;
    fi_normalizedValue := uf_normalizedValue input; fi_verification := Some (default Provenance.SELF_REPORTED (uf_verification input));
    fi_evidenceId := uf_evidenceId input; fi_createdByUserId := Some user; fi_createdByOrgId := organizationId (actor c);
    fi_updatedByUserId := Some user |} in
  let payload := JObj [("fieldKey", JStr (uf_fieldKey input)); ("sectionType", JStr (Provenance.PassportSectionType_name (uf_sectionType input)));
                       ("verification", JStr (Provenance.FactProvenance_name (FactRow.verification fact)))] in
  do* auditWriter (context c) (audit_of c (Some (PassportRow.organizationId passport)) "passport.fact_updated" "passport" x payload);
  do* timelineWriter (context c) (event_of c "passport.fact_updated" "passport" x payload);
  let* (readiness, newStatus) := recomputeReadinessAndStatus fresh (now c) user (PassportRow.organizationId fresh) (context c) in
  tret {| fr_fact := fact; fr_readiness := readiness; fr_status := newStatus |}.

(** ** addEvidence *)

Definition addEvidence_pre (c : Call) (x : string) (db : Db) : res PassportRow.t := authorizedPassport (actor c) passport_update x db.

Definition addEvidence_tx (c : Call) (x : string) (input : CreateEvidenceRequest) (passport : PassportRow.t) : Tx EvidenceRow.t :=
  let* collectedAt := tlift (dateColumn (ce_collectedAt input) "collectedAt") in
  let* expiresAt := tlift (when_present (ce_expiresAt input) (fun s => let! t := dateColumn s "expiresAt" in Ok (Some t)) (Ok None)) in
  let* evidence := evidence_create {| ei_passportId := x; ei_type := ce_type input; ei_objectRef := ce_objectRef input;
    ei_checksum := ce_checksum input; ei_issuer := ce_issuer input; ei_collectedAt := collectedAt; ei_expiresAt := expiresAt;
    ei_createdByUserId := Some (userId (actor c)); ei_createdByOrgId := organizationId (actor c) |} in
  let payload := JObj [("evidenceId", JStr (EvidenceRow.id evidence)); ("type", JStr (EvidenceSourceKind.name (EvidenceRow.type evidence)))] in
  do* auditWriter (context c) (audit_of c (Some (PassportRow.organizationId passport)) "passport.evidence_added" "passport" x payload);
  do* timelineWriter (context c) (event_of c "passport.evidence_added" "passport" x payload);
  tret evidence.

(** ** verify *)

Definition mustBeReady (p : PassportRow.t) : res unit :=
  throw_if (negb (bool_decide (PassportRow.status p = Passport.READY)))
    (conflict ("Passport cannot be verified from its current status (" +:+ statusName p +:+ "); must be READY.") false).

Definition verify_pre (c : Call) (x : string) (db : Db) : res PassportRow.t :=
  let! passport := authorizedPassport (actor c) passport_verify x db in
  do! mustBeReady passport;
  Ok passport.

Definition verify_tx (c : Call) (x : string) (input : VerifyPassportRequest) (passport : PassportRow.t) : Tx PassportRow.t :=
  let* fresh := freshPassport x in
  do* tlift (mustBeReady fresh);
  do* tlift (Passport.assertValidPassportTransition (statusName fresh) "VERIFIED");
  let* updated := passport_updateStatus x Passport.VERIFIED (Some (userId (actor c))) in
  do* auditWriter (context c) (audit_because c (Some (PassportRow.organizationId passport)) "passport.verified" "passport" x (Some (vp_reason input))
        (JObj [("reviewerOrgId", JOpt (organizationId (actor c)))]));
  do* timelineWriter (context c) (event_of c "passport.verified" "passport" x
        (JObj [("reviewerOrgId", JOpt (organizationId (actor c))); ("reason", JStr (vp_reason input))]));
  tret updated.

(** ** passport-readiness.job.ts *)

Record PassportReadinessJobResult : Type := { y_scanned : Z; y_recomputed : Z }.

(** [new Map(evidenceEntries)], over the facts whose [evidenceId] is not null *)
Definition evidenceMap (db : Db) (l : list FactRow.t) : gmap string (option EvidenceRow.t) :=
  foldl (fun m f => match FactRow.evidenceId f with Some e => <[e := evidence_findById db e]> m | None => m end) ∅ l.

(** [f.evidenceId ? (evidenceById.get(f.evidenceId) ?? null) : null] *)
Definition mappedEvidence (m : gmap string (option EvidenceRow.t)) (f : FactRow.t) : option EvidenceRow.t :=
  when_present (FactRow.evidenceId f) (fun e => default None (m !! e)) None.

Definition freshness_name (c : Freshness.FreshnessClass) : string := Freshness.FreshnessClass_name c.

(** One entry of [inputVersions]: the job's carries the freshness. *)
Definition jobFactVersion (now : Z) (f : FactRow.t) (e : option EvidenceRow.t) : string :=
  factVersion f +:+ ":" +:+ freshness_name (classifyFactFreshness (e ≫= EvidenceRow.expiresAt) now factFreshnessWarnWithinDays).

Section Job.
Context (sha256_hex : list ascii -> string).

(** What runs under [withJobIdempotency]. *)
Definition recomputeBody (passport : PassportRow.t) (snapshots : list FactSnapshot) (inputVersions : list string) (factCount : nat) (now : Z)
    : Tx Json :=
  let* result := tlift (computeReadiness snapshots now inputVersions requiredFacts) in
  let blocked := isReadinessBlocked result in
  do* readiness_create (resultInput (PassportRow.id passport) result now None None (Some SourceType.SYSTEM));
  let counts := [("score", JFloat (score result)); ("blockerCount", counted (blockers result)); ("warningCount", counted (warnings result))] in
  do* auditRepository_write (readinessAudit passport None None (JObj (counts ++ [("trigger", JStr "worker")]))) None;
  do* domainEventRepository_write (passportEvent passport "passport.readiness_computed" None None
        (JObj (counts ++ [("algorithmVersion", JStr (algorithmVersion result))]))) None;
  let targetStatus := Passport.targetStatusAfterRecompute (PassportRow.status passport) (Nat.ltb 0 factCount) blocked in
  do* (if bool_decide (targetStatus = PassportRow.status passport) then tret tt
       else
         do* tlift (Passport.assertValidPassportTransition (statusName passport) (Passport.PassportStatus_name targetStatus));
         do* passport_updateStatus (PassportRow.id passport) targetStatus None;
         do* domainEventRepository_write (passportEvent passport "passport.status_changed" None None (statusChange passport targetStatus)) None;
         tret tt);
  tret (JObj [("recomputed", JBool true)]).

(** [inputVersions.join(",") || "no-facts"] *)
Definition versionsKey (inputVersions : list string) : string :=
  let joined := String.concat "," inputVersions in
  if String.eqb joined "" then "no-facts" else joined.

Definition readinessInfo (passport : PassportRow.t) (inputVersions : list string) : JobIdempotencyInfo :=
  {| ji_scope := "worker.passport-readiness";
     ji_key := PassportRow.id passport +:+ ":" +:+ statusName passport +:+ ":" +:+ versionsKey inputVersions;
     ji_requestPayload := JObj [("passportId", JStr (PassportRow.id passport)); ("status", JStr (statusName passport));
                                ("inputVersions", JArr (map JStr inputVersions))] |}.

Definition recomputePassport (x : string) (now : Z) : Tx unit :=
  fun db =>
    match passport_findById db x with
    | None => Ok (tt, db)
    | Some passport =>
        let l := fact_listByPassport db (PassportRow.id passport) in
        let m := evidenceMap db l in
        let snapshots := map (fun f => snapshot f (mappedEvidence m f)) l in
        let inputVersions := map (fun f => jobFactVersion now f (mappedEvidence m f)) l in
        (do* withJobIdempotency sha256_hex (readinessInfo passport inputVersions) now
               (recomputeBody passport snapshots inputVersions (length l) now);
         tret tt) db
    end.

(** The job for one passport; its result when there is nothing to do. *)
Definition readinessJob_pre (x : string) (db : Db) : PassportReadinessJobResult + unit :=
  match passport_findById db x with
  | None => inl {| y_scanned := 0; y_recomputed := 0 |}
  | Some _ => inr tt
  end.

Definition readinessJob_tx (x : string) (now : Z) (p : PassportReadinessJobResult + unit) : Tx PassportReadinessJobResult :=
  match p with
  | inl r => tret r
  | inr _ => do* recomputePassport x now; tret {| y_scanned := 1; y_recomputed := 1 |}
  end.

(** The sweep. *)
Definition needsSweepRecompute (st : Passport.PassportStatus) (latest : option ReadinessResultRow.t) (now : Z) : res bool :=
  match latest with
  | None => Ok true
  | Some r => if bool_decide (st = Passport.STALE) then Ok true else isStale st r now
  end.

(** Each recompute commits before the next passport is looked at. *)
Fixpoint recomputeEach (l : list PassportRow.t) (now : Z) (db : Db) : Db * res Z :=
  match l with
  | [] => (db, Ok 0)
  | passport :: l' =>
      match needsSweepRecompute (PassportRow.status passport) (readiness_findLatestByPassport db (PassportRow.id passport)) now with
      | Throw e => (db, Throw e)
      | Ok false => recomputeEach l' now db
      | Ok true =>
          match recomputePassport (PassportRow.id passport) now db with
          | Throw e => (db, Throw e)
          | Ok (_, db1) =>
              let (db2, n) := recomputeEach l' now db1 in
              (db2, let! n := n in Ok (n + 1))
          end
      end
  end.

Definition readinessSweep (now : Z) (db : Db) : Db * res PassportReadinessJobResult :=
  let all := PassportRepositories.passport_list db (Some 500%nat) in
  let (db', n) := recomputeEach all now db in
  (db', let! n := n in Ok {| y_scanned := Z.of_nat (length all); y_recomputed := n |}).

End Job.
End Service.
