(* ===== verification/PassportSpec.v ===== *)
(** * What the passport service promises

    The registry without tables: who holds a passport and in which status,
    what is stated in it, the documents behind the statements, and every
    assessment made so far.  [registry_step] is one act of the service or the
    job on it; what every registry keeps ([registry_ok]) and what it may
    become ([registry_later]) are shown by rule induction. *)
From S2P Require Import Prelude Lifecycle DomainStates JsNumber Evidence JsonText Database Tables.
From stdpp Require Import relations.
#[local] Open Scope Z_scope.

Record Holder : Type := { ho_org : string; ho_status : Passport.PassportStatus }.
Record Statement : Type := {
  sm_section : Provenance.PassportSectionType; sm_value : Json; sm_provenance : Provenance.FactProvenance; sm_evidence : option string
}.
Record Document : Type := { dc_passport : string; dc_object : string; dc_checksum : option string; dc_expires : option Z }.
Record Assessment : Type := { as_passport : string; as_at : Z; as_blocked : bool }.

(** A statement is known by its passport and its key. *)
Record Registry : Type := {
  holders : gmap string Holder;
  statements : gmap (string * string) Statement;
  documents : gmap string Document;
  assessments : list Assessment
}.

Definition has_status (st : Passport.PassportStatus) (h : Holder) : Holder := {| ho_org := ho_org h; ho_status := st |}.

(** ** Readiness *)

(** The expiry of the document behind a statement. *)
Definition expiry (g : Registry) (s : Statement) : option Z := (sm_evidence s ≫= (fun e => documents g !! e)) ≫= dc_expires.

(** A requirement is met by a statement with a value whose document has not expired. *)
Definition meets (g : Registry) (x : string) (t : Z) (req : RequiredFact) : Prop :=
  exists s, statements g !! (x, r_fieldKey req) = Some s /\ sm_value s <> JNull /\
    classifyFactFreshness (expiry g s) t factFreshnessWarnWithinDays <> Freshness.STALE.

Definition cleared (g : Registry) (x : string) (t : Z) : Prop :=
  forall req, req ∈ requiredFacts -> r_blocking req = true -> meets g x t req.

Definition has_statement (g : Registry) (x : string) : Prop := exists key, is_Some (statements g !! (x, key)).

Definition about (x : string) (a : Assessment) : bool := String.eqb (as_passport a) x.

(** [a] is the last assessment of [x]. *)
Definition assessed (g : Registry) (x : string) (a : Assessment) : Prop := last (List.filter (about x) (assessments g)) = Some a.

Definition STALE_AFTER : Z := 90 * Passport.MS_PER_DAY.

(** ** One act *)

Definition state (x key : string) (s : Statement) (g : Registry) : Registry :=
  {| holders := holders g; statements := <[(x, key) := s]> (statements g); documents := documents g; assessments := assessments g |}.

(** Assess at [t]; [has] says whether anything is stated. *)
Definition assess (x : string) (h : Holder) (t : Z) (has b : bool) (g : Registry) : Registry :=
  {| holders := <[x := has_status (Passport.targetStatusAfterRecompute (ho_status h) has b) h]> (holders g);
     statements := statements g; documents := documents g;
     assessments := assessments g ++ [{| as_passport := x; as_at := t; as_blocked := b |}] |}.

Definition file (e : string) (d : Document) (g : Registry) : Registry :=
  {| holders := holders g; statements := statements g; documents := <[e := d]> (documents g); assessments := assessments g |}.

Definition move (x : string) (st : Passport.PassportStatus) (h : Holder) (g : Registry) : Registry :=
  {| holders := <[x := has_status st h]> (holders g); statements := statements g; documents := documents g; assessments := assessments g |}.

Definition open (x org : string) (t : Z) (g : Registry) : Registry :=
  {| holders := <[x := {| ho_org := org; ho_status := Passport.DRAFT |}]> (holders g); statements := statements g; documents := documents g;
     assessments := assessments g ++ [{| as_passport := x; as_at := t; as_blocked := true |}] |}.

Inductive registry_step : Registry -> Registry -> Prop :=
| step_open g x org t :
    holders g !! x = None -> (forall y h, holders g !! y = Some h -> ho_org h <> org) ->
    registry_step g (open x org t g)
| step_state g x h key s t b :
    holders g !! x = Some h -> (forall e, sm_evidence s = Some e -> exists d, documents g !! e = Some d /\ dc_passport d = x) ->
    (b = false <-> cleared (state x key s g) x t) ->
    registry_step g (assess x h t true b (state x key s g))
| step_assess g x h t has b :
    holders g !! x = Some h -> (has = true <-> has_statement g x) -> (b = false <-> cleared g x t) ->
    registry_step g (assess x h t has b g)
| step_file g e d :
    documents g !! e = None -> is_Some (holders g !! dc_passport d) ->
    registry_step g (file e d g)
| step_verify g x h :
    holders g !! x = Some h -> ho_status h = Passport.READY ->
    registry_step g (move x Passport.VERIFIED h g)
| step_age g x h t :
    holders g !! x = Some h -> ho_status h ∈ [Passport.READY; Passport.VERIFIED] ->
    (forall a, a ∈ assessments g -> as_passport a = x -> as_at a + STALE_AFTER < t) ->
    registry_step g (move x Passport.STALE h g).

(** ** What a registry may become *)

Definition holder_later (h h' : Holder) : Prop := ho_org h' = ho_org h /\ reachable (ho_status h) (ho_status h').

#[export] Instance holder_later_pre : PreOrder holder_later.
Proof. split; [by split|]. intros h1 h2 h3 [A1 A2] [B1 B2]. split; [congruence|by etransitivity]. Qed.

Record registry_later (g g' : Registry) : Prop := {
  rl_holders : map_later holder_later (holders g) (holders g');
  rl_statements : forall k, is_Some (statements g !! k) -> is_Some (statements g' !! k);
  rl_documents : map_later eq (documents g) (documents g');
  rl_assessments : assessments g `prefix_of` assessments g'
}.

#[export] Instance registry_later_pre : PreOrder registry_later.
Proof. split; [intros g; split; try reflexivity; done|]. intros g1 g2 g3 [] []. split; try (by etransitivity). auto. Qed.

Lemma target_moves st has b : reachable st (Passport.targetStatusAfterRecompute st has b).
Proof.
  assert (Passport.targetStatusAfterRecompute st has b = st \/ edge st (Passport.targetStatusAfterRecompute st has b)) as [->|He].
  - apply (passport_recompute_legal st has b).
  - apply rtc_refl.
  - by apply rtc_once.
Qed.

Lemma assess_later g x h t has b : holders g !! x = Some h -> registry_later g (assess x h t has b g).
Proof.
  intros Hx. split; cbn; try done; [|by eexists].
  apply (map_later_set _ _ _ _ _ Hx). split; [done|apply target_moves].
Qed.

Lemma move_later g x h st : holders g !! x = Some h -> edge (ho_status h) st -> registry_later g (move x st h g).
Proof. intros Hx He. split; cbn; try done. apply (map_later_set _ _ _ _ _ Hx). split; [done|by apply rtc_once]. Qed.

Lemma registry_step_later g g' : registry_step g g' -> registry_later g g'.
Proof.
  destruct 1 as [g x org t Hx _|g x h key s t b Hx _ _|g x h t has b Hx _ _|g e d He _|g x h Hx Hst|g x h t Hx Hst _].
  - split; cbn; try done; [exact (map_later_new _ _ _ _ Hx)|by eexists].
  - etransitivity; [|by apply assess_later]. split; cbn; try done. intros k Hk.
    destruct (decide ((x, key) = k)) as [<-|Hne]; [rewrite lookup_insert_eq; by eexists|by rewrite lookup_insert_ne].
  - by apply assess_later.
  - split; cbn; try done. exact (map_later_new _ _ _ _ He).
  - apply move_later; [done|]. rewrite Hst. unfold edge. cbn. set_solver.
  - apply move_later; [done|]. unfold edge. apply elem_of_cons in Hst as [->|Hst%list_elem_of_singleton]; [|rewrite Hst]; cbn; set_solver.
Qed.

Lemma registry_run_later g g' : rtc registry_step g g' -> registry_later g g'.
Proof. induction 1 as [g|g g1 g2 St _ IH]; [done|]. etransitivity; [by apply registry_step_later|done]. Qed.

(** ** What every registry keeps *)

(** What the status says about the last assessment. *)
Definition fits (st : Passport.PassportStatus) (blocked : bool) : Prop :=
  match st with
  | Passport.DRAFT | Passport.INCOMPLETE => blocked = true
  | Passport.READY | Passport.VERIFIED | Passport.STALE => blocked = false
  | Passport.SUSPENDED => True
  end.

(** The last assessment still says what the statements say. *)
Definition standing (g : Registry) (x : string) (h : Holder) : Prop :=
  (exists a, assessed g x a /\ (as_blocked a = false <-> cleared g x (as_at a)) /\ fits (ho_status h) (as_blocked a)) /\
  (ho_status h = Passport.DRAFT -> ~ has_statement g x).

Definition statement_ok (g : Registry) (k : string * string) (s : Statement) : Prop :=
  is_Some (holders g !! fst k) /\ forall e, sm_evidence s = Some e -> exists d, documents g !! e = Some d /\ dc_passport d = fst k.

Record registry_ok (g : Registry) : Prop := {
  rk_holders : map_Forall (standing g) (holders g);
  rk_statements : map_Forall (statement_ok g) (statements g);
  rk_documents : map_Forall (fun _ d => is_Some (holders g !! dc_passport d)) (documents g);
  rk_assessments : Forall (fun a => is_Some (holders g !! as_passport a)) (assessments g);
  rk_one_passport : unique (fun h => Some (ho_org h)) (holders g)
}.

(** *** Readiness depends on the statements of the passport and their documents *)

Lemma meets_frame g g' x t req :
  (forall key, statements g' !! (x, key) = statements g !! (x, key)) ->
  (forall key s, statements g !! (x, key) = Some s -> expiry g' s = expiry g s) ->
  meets g x t req <-> meets g' x t req.
Proof.
  intros Hs He. unfold meets. rewrite Hs. split; intros (s & Hk & Hv & Hf); exists s; (split; [done|split; [done|]]).
  - by rewrite (He _ _ Hk).
  - by rewrite <- (He _ _ Hk).
Qed.

Lemma cleared_frame g g' x t :
  (forall key, statements g' !! (x, key) = statements g !! (x, key)) ->
  (forall key s, statements g !! (x, key) = Some s -> expiry g' s = expiry g s) ->
  cleared g x t <-> cleared g' x t.
Proof. intros Hs He. unfold cleared. by setoid_rewrite (meets_frame g g' x t _ Hs He). Qed.

Lemma standing_frame g g' x h :
  (forall key, statements g' !! (x, key) = statements g !! (x, key)) ->
  (forall key s, statements g !! (x, key) = Some s -> expiry g' s = expiry g s) ->
  List.filter (about x) (assessments g') = List.filter (about x) (assessments g) ->
  standing g x h -> standing g' x h.
Proof.
  intros Hs He Ha [(a & Hl & Hc & Hf) Hd]. split.
  - exists a. unfold assessed. rewrite Ha. split; [done|]. by rewrite <- (cleared_frame g g' x _ Hs He).
  - intros E [key Hk]. rewrite Hs in Hk. apply (Hd E). by exists key.
Qed.

Lemma about_snoc x l a : List.filter (about x) (l ++ [a]) = List.filter (about x) l ++ (if String.eqb (as_passport a) x then [a] else []).
Proof. rewrite List.filter_app. simpl. unfold about at 2. by destruct (String.eqb (as_passport a) x). Qed.

Lemma about_other x y l t b : x <> y -> List.filter (about y) (l ++ [{| as_passport := x; as_at := t; as_blocked := b |}]) = List.filter (about y) l.
Proof. intros Hne. rewrite about_snoc. simpl. rewrite (proj2 (String.eqb_neq _ _) Hne). apply app_nil_r. Qed.

Lemma assessed_new g x t b st : holders g !! x = Some st ->
  last (List.filter (about x) (assessments g ++ [{| as_passport := x; as_at := t; as_blocked := b |}])) = Some {| as_passport := x; as_at := t; as_blocked := b |}.
Proof. intros _. rewrite about_snoc. simpl. rewrite String.eqb_refl. apply last_snoc. Qed.

(** Changing the status only. *)
Lemma move_standing g x y h st h' : standing g y h' -> standing (move x st h g) y h'.
Proof. by apply standing_frame. Qed.

Lemma holder_stays (t : gmap string Holder) x h y : is_Some (t !! y) -> is_Some (<[x := h]> t !! y).
Proof. intros Hy. destruct (decide (x = y)) as [<-|Hne]; [rewrite lookup_insert_eq; by eexists|by rewrite lookup_insert_ne]. Qed.

Lemma target_fits st has b : fits (Passport.targetStatusAfterRecompute st has b) b.
Proof. by destruct st, has, b. Qed.

Lemma target_draft st has b : Passport.targetStatusAfterRecompute st has b = Passport.DRAFT -> has = false.
Proof. by destruct st, has, b. Qed.

(** The assessed passport stands, the others as before. *)
Lemma assess_standing g x h t has b : holders g !! x = Some h -> (b = false <-> cleared g x t) -> (has = false -> ~ has_statement g x) ->
  (forall y h', x <> y -> holders g !! y = Some h' -> standing g y h') ->
  map_Forall (standing (assess x h t has b g)) (holders (assess x h t has b g)).
Proof.
  intros Hx Hb Hh Hy y h' Hl. cbn [holders assess] in Hl. destruct (decide (x = y)) as [<-|Hne].
  - rewrite lookup_insert_eq in Hl. injection Hl as <-. split.
    + exists {| as_passport := x; as_at := t; as_blocked := b |}. unfold assessed. cbn [assessments assess as_at as_blocked ho_status has_status].
      rewrite (assessed_new g x t b h Hx). split; [done|]. split; [exact Hb|apply target_fits].
    + cbn [ho_status has_status]. intros E%target_draft. by apply Hh.
  - rewrite lookup_insert_ne in Hl by done. eapply standing_frame; [..|by apply Hy]; try done. cbn [assessments assess]. by apply about_other.
Qed.

Lemma assess_ok g x h t has b : holders g !! x = Some h -> (b = false <-> cleared g x t) -> (has = false -> ~ has_statement g x) ->
  (forall y h', x <> y -> holders g !! y = Some h' -> standing g y h') ->
  map_Forall (statement_ok g) (statements g) -> map_Forall (fun _ d => is_Some (holders g !! dc_passport d)) (documents g) ->
  Forall (fun a => is_Some (holders g !! as_passport a)) (assessments g) -> unique (fun h => Some (ho_org h)) (holders g) ->
  registry_ok (assess x h t has b g).
Proof.
  intros Hx Hb Hh Hy Hs Hd Ha Hu. split; [by apply assess_standing|..]; cbn [holders statements documents assessments assess].
  - intros k s Hk. destruct (Hs k s Hk) as [H1 H2]. split; [by apply holder_stays|exact H2].
  - intros e d He. by apply holder_stays, (Hd e d).
  - apply Forall_app. split; [|repeat constructor; cbn; rewrite lookup_insert_eq; by eexists].
    eapply Forall_impl; [exact Ha|]. intros a. by apply holder_stays.
  - by apply (unique_set _ _ _ h).
Qed.

Lemma move_ok g x h st : registry_ok g -> holders g !! x = Some h -> st <> Passport.DRAFT ->
  (forall b, fits (ho_status h) b -> fits st b) -> registry_ok (move x st h g).
Proof.
  intros [K1 K2 K3 K4 K5] Hx Hst Hf. split; cbn [holders statements documents assessments move].
  - intros y h' [[<- <-]|[Hne Hl]]%lookup_insert_Some; [|by apply move_standing, K1].
    apply move_standing. destruct (K1 x h Hx) as [(a & Ha & Hc & Hfa) _]. split; [|done]. exists a. split_and!; [done|done|by apply Hf].
  - intros k s Hk. destruct (K2 k s Hk) as [H1 H2]. split; [by apply holder_stays|exact H2].
  - intros e d He. by apply holder_stays, (K3 e d).
  - eapply Forall_impl; [exact K4|]. intros a. by apply holder_stays.
  - by apply (unique_set _ _ _ h).
Qed.

Lemma no_requirement_met_empty g x t : ~ has_statement g x -> ~ cleared g x t.
Proof.
  intros Hn Hc. assert (required "legalEntityConfirmed" Provenance.IDENTITY true "Legal entity / registration confirmed" ∈ requiredFacts) as Hr by left.
  destruct (Hc _ Hr eq_refl) as (s & Hs & _). apply Hn. eexists. by eexists.
Qed.

Lemma state_cases g x key s k v : statements (state x key s g) !! k = Some v -> (k = (x, key) /\ v = s) \/ (k <> (x, key) /\ statements g !! k = Some v).
Proof. cbn [statements state]. intros [[<- <-]|[? ?]]%lookup_insert_Some; [by left|right; by split]. Qed.

Lemma registry_step_ok g g' : registry_ok g -> registry_step g g' -> registry_ok g'.
Proof.
  intros K St. destruct St as [g x org t Hx Ho|g x h key s t b Hx He Hb|g x h t has b Hx Hh Hb|g e d He Hd|g x h Hx Hst|g x h t Hx Hst _].
  - destruct K as [K1 K2 K3 K4 K5]. assert (~ has_statement g x) as Hn.
    { intros [key [s Hs]]. destruct (K2 _ _ Hs) as [[h Hh] _]. cbn in Hh. congruence. }
    assert (forall y, x = y -> List.filter (about y) (assessments g) = []) as Hno.
    { intros y <-. destruct (List.filter (about x) (assessments g)) as [|a l] eqn:E; [done|exfalso].
      assert (In a (List.filter (about x) (assessments g))) as [Hin Ha]%filter_In by (rewrite E; by left).
      apply list_elem_of_In in Hin. destruct (proj1 (Forall_forall _ _) K4 a Hin) as [h Hh]. unfold about in Ha. apply String.eqb_eq in Ha. congruence. }
    split; cbn [holders statements documents assessments open].
    + intros y h' [[<- <-]|[Hne Hl]]%lookup_insert_Some.
      * split; [|done]. exists {| as_passport := x; as_at := t; as_blocked := true |}. unfold assessed. cbn [assessments open as_at as_blocked ho_status].
        rewrite about_snoc. cbn [as_passport]. rewrite String.eqb_refl, last_snoc. split_and!; [done| |done].
        split; [done|]. intros Hc. exfalso. exact (no_requirement_met_empty g x t Hn Hc).
      * eapply standing_frame; [..|by apply K1]; try done. cbn [assessments open]. by apply about_other.
    + intros k v Hk. destruct (K2 k v Hk) as [H1 H2]. split; [by apply holder_stays|exact H2].
    + intros e d He. by apply holder_stays, (K3 e d).
    + apply Forall_app. split; [|repeat constructor; cbn; rewrite lookup_insert_eq; by eexists].
      eapply Forall_impl; [exact K4|]. intros a. by apply holder_stays.
    + apply unique_new; [done|]. intros k [= <-] y h Hy [= E]. by apply (Ho y h Hy).
  - destruct K as [K1 K2 K3 K4 K5]. apply assess_ok; try done.
    + intros y h' Hne Hl. eapply standing_frame; [..|by apply K1]; try done.
      intros key'. cbn [statements state]. rewrite lookup_insert_ne; [done|congruence].
    + intros k v [[-> ->]|[_ Hk]]%state_cases; [by split; [eexists|]|by apply K2].
  - destruct K as [K1 K2 K3 K4 K5]. apply assess_ok; try done; [|by intros y h' _ Hl; apply K1].
    intros E Hs. apply Hh in Hs. congruence.
  - destruct K as [K1 K2 K3 K4 K5].
    assert (forall k s, statements g !! k = Some s -> expiry (file e d g) s = expiry g s) as Hex.
    { intros k s Hs. unfold expiry. destruct (sm_evidence s) as [e'|] eqn:Ee; [|done]. cbn. destruct (proj2 (K2 k s Hs) e' Ee) as (d' & Hd' & _).
      rewrite lookup_insert_ne; [done|]. congruence. }
    split; cbn [holders statements documents assessments file]; try done.
    + intros y h' Hl. eapply standing_frame; [..|by apply K1]; try done. intros key s Hs. by apply (Hex (y, key)).
    + intros k s Hk. destruct (K2 k s Hk) as [H1 H2]. split; [done|]. intros e' Ee. destruct (H2 e' Ee) as (d' & Hd' & Ep). exists d'. split; [|done].
      cbn [documents file]. rewrite lookup_insert_ne; [done|]. congruence.
    + intros e' d' [[<- <-]|[_ Hl]]%lookup_insert_Some; [done|by apply (K3 e')].
  - apply move_ok; [done..|]. intros b. by rewrite Hst.
  - apply move_ok; [done..|]. intros b. apply elem_of_cons in Hst as [->|Hst%list_elem_of_singleton]; [done|by rewrite Hst].
Qed.

Lemma registry_run_ok g g' : registry_ok g -> rtc registry_step g g' -> registry_ok g'.
Proof. intros K R. induction R as [g|g g1 g2 St _ IH]; [done|]. by apply IH, (registry_step_ok g). Qed.
