(* ===== verification/PassportBook.v ===== *)
(** * The passport tables as a registry

    The abstraction of the four tables to [PassportSpec], the engine's answer
    read off it, and what each repository call does to it. *)
From S2P Require Import Prelude StableSort Lifecycle DomainStates AuthzMatrix Authz JsNumber Evidence JsonText Database Tables ApiShared Idempotency.
From S2P Require Import PassportRepositories PassportService PassportSpec.
From stdpp Require Import relations.
#[local] Open Scope Z_scope.

Definition holderOf (p : PassportRow.t) : Holder := {| ho_org := PassportRow.organizationId p; ho_status := PassportRow.status p |}.
Definition statementOf (f : FactRow.t) : Statement :=
  {| sm_section := FactRow.sectionType f; sm_value := FactRow.normalizedValue f; sm_provenance := FactRow.verification f;
     sm_evidence := when_present (FactRow.evidenceId f) Some None |}.
Definition documentOf (e : EvidenceRow.t) : Document :=
  {| dc_passport := EvidenceRow.passportId e; dc_object := EvidenceRow.objectRef e; dc_checksum := EvidenceRow.checksum e;
     dc_expires := EvidenceRow.expiresAt e |}.
Definition assessmentOf (r : ReadinessResultRow.t) : Assessment :=
  {| as_passport := ReadinessResultRow.passportId r; as_at := ReadinessResultRow.computedAt r;
     as_blocked := negb (Nat.eqb (length (ReadinessResultRow.blockers r)) 0) |}.

Definition fact_key (f : FactRow.t) : string * string := (FactRow.passportId f, FactRow.fieldKey f).

Definition factBook (t : list FactRow.t) : gmap (string * string) Statement := list_to_map (map (fun f => (fact_key f, statementOf f)) t).

Definition registry (db : Db) : Registry :=
  {| holders := book holderOf (passports db); statements := factBook (facts db); documents := book documentOf (passportEvidence db);
     assessments := map assessmentOf (readinessResults db) |}.

(** ** Facts by key *)

Lemma factKey_spec x k f : factKey x k f = true <-> fact_key f = (x, k).
Proof.
  unfold factKey, fact_key. rewrite andb_true_iff, !String.eqb_eq. split; [by intros [-> ->]|by intros [= -> ->]].
Qed.

Lemma factBook_find t x k : factBook t !! (x, k) = statementOf <$> findUnique (factKey x k) t.
Proof.
  unfold factBook, findUnique. induction t as [|f t IH]; [done|]. cbn [map list_to_map foldr fst snd List.find].
  destruct (factKey x k f) eqn:E.
  - apply factKey_spec in E as ->. by rewrite lookup_insert_eq.
  - rewrite lookup_insert_ne; [exact IH|]. intros E'. apply factKey_spec in E'. congruence.
Qed.

Lemma factBook_Some t x k s : factBook t !! (x, k) = Some s -> exists f, f ∈ t /\ fact_key f = (x, k) /\ s = statementOf f.
Proof.
  rewrite factBook_find. intros (f & Hf & ->)%fmap_Some. apply find_some in Hf as [Hin Hk]. exists f.
  split_and!; [by apply list_elem_of_In|by apply factKey_spec|done].
Qed.

Lemma factBook_row t f : NoDup (map fact_key t) -> f ∈ t -> factBook t !! fact_key f = Some (statementOf f).
Proof.
  intros Nd Hf. unfold factBook. apply elem_of_list_to_map_1; [by rewrite map_map|].
  apply list_elem_of_fmap. by exists f.
Qed.

Lemma factBook_none t x k : factBook t !! (x, k) = None -> forall f, f ∈ t -> fact_key f <> (x, k).
Proof.
  rewrite factBook_find. intros Hn%fmap_None f Hf%list_elem_of_In Ek. pose proof (find_none _ _ Hn f Hf) as Hk.
  apply factKey_spec in Ek. congruence.
Qed.

Section Tables.
Context `{Platform}.

Record passport_tables (db : Db) : Prop := {
  pt_passports : table_ok db (passports db);
  pt_facts : table_ok db (facts db);
  pt_evidence : table_ok db (passportEvidence db);
  pt_results : table_ok db (readinessResults db);
  pt_keys : NoDup (map fact_key (facts db))
}.

(** What the service sees of a passport. *)
Definition snapshots (db : Db) (x : string) : list FactSnapshot := buildSnapshots (factsWithEvidence db x).

(** A stored result is what the engine answers on the facts of the passport at
    the time it was computed. *)
Definition says (db : Db) (x : string) (r : ReadinessResultRow.t) : Prop :=
  exists res, computeReadiness (snapshots db x) (ReadinessResultRow.computedAt r) (ReadinessResultRow.inputVersions r) requiredFacts = Ok res /\
    ReadinessResultRow.score r = score res /\ ReadinessResultRow.blockers r = map noticeJson (blockers res) /\
    ReadinessResultRow.warnings r = map noticeJson (warnings res).

Definition lastResult (db : Db) (x : string) : option ReadinessResultRow.t := last (List.filter (resultOf x) (readinessResults db)).

Record passport_ok (db : Db) : Prop := {
  po_tables : passport_tables db;
  po_registry : registry_ok (registry db);
  po_current : forall x r, lastResult db x = Some r -> says db x r
}.

(** ** The engine on the registry *)

Lemma fact_list_elem db x f : f ∈ fact_listByPassport db x <-> f ∈ facts db /\ FactRow.passportId f = x.
Proof.
  unfold fact_listByPassport, findMany. rewrite sort_by_elem, elem_of_filter_list, String.eqb_eq. tauto.
Qed.

Lemma fact_list_perm db x : Permutation (fact_listByPassport db x) (List.filter (fun f => String.eqb (FactRow.passportId f) x) (facts db)).
Proof. apply sort_by_perm. Qed.

Lemma snapshot_key l : map fieldKey (buildSnapshots l) = map (fun fe => FactRow.fieldKey (fst fe)) l.
Proof. unfold buildSnapshots. rewrite map_map. apply map_ext. by intros [f e]. Qed.

Lemma filter_keys_NoDup x t : NoDup (map fact_key t) -> NoDup (map FactRow.fieldKey (List.filter (fun f => String.eqb (FactRow.passportId f) x) t)).
Proof.
  intros Nd. induction t as [|f t IH]; [constructor|]. cbn [map] in Nd. apply NoDup_cons in Nd as [Hf Nd]. cbn [List.filter].
  destruct (String.eqb_spec (FactRow.passportId f) x) as [E|]; [|by apply IH]. cbn [map]. apply NoDup_cons. split; [|by apply IH].
  intros (g & Eg & Hg)%list_elem_of_fmap. apply elem_of_filter_list in Hg as [Hg Hx%String.eqb_eq]. apply Hf.
  apply list_elem_of_fmap. exists g. split; [|done]. unfold fact_key. congruence.
Qed.

Lemma snapshots_NoDup db x : passport_tables db -> NoDup (map fieldKey (snapshots db x)).
Proof.
  intros T. unfold snapshots, factsWithEvidence. rewrite snapshot_key, map_map. cbn [fst].
  rewrite (fact_list_perm db x). apply filter_keys_NoDup, T.
Qed.

Lemma engine_answers db x t vs : passport_tables db -> exists res, computeReadiness (snapshots db x) t vs requiredFacts = Ok res.
Proof.
  intros T. pose proof (proj2 (proj1 (readiness_spec (snapshots db x) t vs requiredFacts)) (snapshots_NoDup db x T)) as Hok.
  destruct (computeReadiness _ _ _ _) as [res|]; [by exists res|done].
Qed.

Lemma snapshots_elem db x n : n ∈ snapshots db x <->
  exists f, f ∈ facts db /\ FactRow.passportId f = x /\ n = snapshot f (when_present (FactRow.evidenceId f) (evidence_findById db) None).
Proof.
  unfold snapshots, buildSnapshots, factsWithEvidence. rewrite map_map, list_elem_of_fmap. setoid_rewrite fact_list_elem. naive_solver.
Qed.

Lemma snapshot_expiry db f : Evidence.expiresAt (snapshot f (when_present (FactRow.evidenceId f) (evidence_findById db) None)) = expiry (registry db) (statementOf f).
Proof.
  unfold snapshot, expiry, statementOf, evidence_findById, when_present. cbn [Evidence.expiresAt sm_evidence].
  destruct (FactRow.evidenceId f) as [e|]; [|done]. destruct (String.eqb e ""); [done|]. cbn [registry documents]. cbn. rewrite book_lookup.
  by destruct (findById (passportEvidence db) e).
Qed.

Lemma is_null_spec v : is_null v = false <-> v <> JNull.
Proof. by destruct v. Qed.

(** The engine's requirement is the registry's. *)
Lemma requirement_meets db x t req : passport_tables db -> requirementMet (snapshots db x) t req <-> meets (registry db) x t req.
Proof.
  intros T. unfold requirementMet, presentFact, meets. split.
  - intros (n & (Hn & Ek & Hv) & Hf). apply snapshots_elem in Hn as (f & Hin & Hx & ->). exists (statementOf f).
    rewrite snapshot_expiry in Hf. cbn [fieldKey snapshot hasValue] in Ek, Hv. apply negb_true_iff, is_null_spec in Hv. split_and!; [|done..].
    cbn [statements registry]. rewrite <- Ek, <- Hx. exact (factBook_row (facts db) f (pt_keys _ T) Hin).
  - intros (s & Hs & Hv & Hf). apply factBook_Some in Hs as (f & Hin & [= Hx Ek] & ->).
    eexists. split_and!; [apply snapshots_elem; by exists f|done| |].
    + cbn [hasValue snapshot]. by apply negb_true_iff, is_null_spec.
    + by rewrite snapshot_expiry.
Qed.

Lemma engine_cleared db x t vs res : passport_tables db -> computeReadiness (snapshots db x) t vs requiredFacts = Ok res ->
  isReadinessBlocked res = false <-> cleared (registry db) x t.
Proof.
  intros T E. rewrite (proj1 (proj2 (readiness_spec _ _ _ _) res E)). unfold cleared.
  setoid_rewrite (fun req => requirement_meets db x t req T). done.
Qed.

Lemma has_facts db x : Nat.ltb 0 (length (factsWithEvidence db x)) = true <-> has_statement (registry db) x.
Proof.
  unfold factsWithEvidence. rewrite length_map, Nat.ltb_lt. unfold has_statement. cbn [statements registry]. split.
  - intros Hl. destruct (fact_listByPassport db x) as [|f l] eqn:E; [simpl in Hl; lia|]. clear Hl.
    assert (f ∈ facts db /\ FactRow.passportId f = x) as [Hf <-] by (apply fact_list_elem; rewrite E; left).
    exists (FactRow.fieldKey f). destruct (factBook (facts db) !! _) eqn:En; [by eexists|].
    by destruct (factBook_none _ _ _ En f Hf).
  - intros (k & s & Hs). apply factBook_Some in Hs as (f & Hf & [= Hx _] & _).
    assert (f ∈ fact_listByPassport db x) as Hin by (by apply fact_list_elem). destruct (fact_listByPassport db x); [by apply elem_of_nil in Hin|simpl; lia].
Qed.

(** ** What a recompute writes *)

Record result_written (x : string) (now : Z) (db : Db) (res : ReadinessResultShape) (r : ReadinessResultRow.t) : Prop := {
  rw_id : row_id r = newId (drawn db);
  rw_created : row_createdAt r = clock db;
  rw_passport : ReadinessResultRow.passportId r = x;
  rw_computed : ReadinessResultRow.computedAt r = now;
  rw_score : ReadinessResultRow.score r = score res;
  rw_blockers : ReadinessResultRow.blockers r = map noticeJson (blockers res);
  rw_warnings : ReadinessResultRow.warnings r = map noticeJson (warnings res);
  rw_versions : ReadinessResultRow.inputVersions r = r_inputVersions res
}.

(** The passport read under the lock was rated at [now], and got [st]. *)
Record rated (p : PassportRow.t) (now : Z) (st : Passport.PassportStatus) (db db' : Db) : Prop := {
  rt_facts : facts db' = facts db;
  rt_evidence : passportEvidence db' = passportEvidence db;
  rt_passports : exists u t, passports db' =
    if bool_decide (st = PassportRow.status p) then passports db else map (updating (PassportRow.id p) (passportWith st u t)) (passports db);
  rt_result : exists res r, readinessResults db' = readinessResults db ++ [r] /\ result_written (PassportRow.id p) now db res r /\
    computeReadiness (snapshots db (PassportRow.id p)) now (r_inputVersions res) requiredFacts = Ok res /\
    st = Passport.targetStatusAfterRecompute (PassportRow.status p) (Nat.ltb 0 (length (factsWithEvidence db (PassportRow.id p)))) (isReadinessBlocked res);
  rt_drawn : (drawn db < drawn db')%nat;
  rt_clock : clock db' = clock db
}.

Lemma readiness_create_Ok x result now u o s db r db' : readiness_create (resultInput x result now u o s) db = Ok (r, db') ->
  db' = set_readinessResults (readinessResults db ++ [r]) (set_drawn (S (drawn db)) db) /\ result_written x now db result r.
Proof.
  unfold readiness_create. intros E. apply tbind_Ok in E as (? & ? & [_ ->]%tlift_Ok & E). apply tbind_Ok in E as (? & ? & [_ ->]%tlift_Ok & E).
  apply tbind_Ok in E as (? & ? & [_ ->]%tlift_Ok & E). apply tbind_Ok in E as (i & d & [= <- <-] & E). injection E as <- <-. by split.
Qed.

Lemma passport_update_Ok x st u db p db' : passport_updateStatus x st u db = Ok (p, db') ->
  db' = set_passports (map (updating x (passportWith st u (clock db))) (passports db)) db /\
  exists p0, findById (passports db) x = Some p0 /\ p = passportWith st u (clock db) p0.
Proof.
  unfold passport_updateStatus. destruct (updateById x _ (passports db)) as [[r t]|] eqn:Eu; [|done]. cbn. intros [= <- <-].
  apply updateById_Ok in Eu as (r0 & Hf & -> & ->). split; [done|]. by exists r0.
Qed.

Lemma engine_versions l t vs reqs res : computeReadiness l t vs reqs = Ok res -> r_inputVersions res = vs.
Proof. unfold computeReadiness. destruct (throw_if _ _); [|done]. by intros [= <-]. Qed.

(** From the last journal entry of a recompute to its end. *)
Lemma status_written p st u i c db (a : unit) db' :
  (if bool_decide (st = PassportRow.status p) then tret tt
   else do* tlift (Passport.assertValidPassportTransition (statusName p) (Passport.PassportStatus_name st));
        do* passport_updateStatus (PassportRow.id p) st u;
        do* domainEventRepository_write i c; tret tt) db = Ok (a, db') ->
  exists db1, aside db1 db' /\ exists v t,
    db1 = set_passports (if bool_decide (st = PassportRow.status p) then passports db else map (updating (PassportRow.id p) (passportWith st v t)) (passports db)) db.
Proof.
  case_bool_decide as Hst; intros E.
  - injection E as _ <-. exists db. split; [apply aside_refl|]. exists None, 0. by destruct db.
  - apply tbind_Ok in E as (? & ? & [_ ->]%tlift_Ok & E). apply tbind_Ok in E as (q & d & [-> _]%passport_update_Ok & E).
    apply tbind_Ok in E as (? & d2 & A%event_aside & E). injection E as _ <-. eexists. split; [exact A|]. by eexists _, _.
Qed.

Lemma rated_from p now db res r d1 d2 d3 db' st : result_written (PassportRow.id p) now db res r ->
  computeReadiness (snapshots db (PassportRow.id p)) now (r_inputVersions res) requiredFacts = Ok res ->
  st = Passport.targetStatusAfterRecompute (PassportRow.status p) (Nat.ltb 0 (length (factsWithEvidence db (PassportRow.id p)))) (isReadinessBlocked res) ->
  d1 = set_readinessResults (readinessResults db ++ [r]) (set_drawn (S (drawn db)) db) -> aside d1 d2 ->
  (exists v t, d3 = set_passports (if bool_decide (st = PassportRow.status p) then passports d2 else map (updating (PassportRow.id p) (passportWith st v t)) (passports d2)) d2) ->
  aside d3 db' -> rated p now st db db'.
Proof.
  intros W Ec Est -> (a & e & k & n & Hn & ->) (v & t & ->) (a' & e' & k' & n' & Hn' & ->). cbn in Hn, Hn'. split; cbn; try done; [by exists v, t| |lia].
  exists res, r. split_and!; done.
Qed.

Lemma recompute_rated p now user org ctx db r st db' : recomputeReadinessAndStatus p now user org ctx db = Ok ((r, st), db') -> rated p now st db db'.
Proof.
  unfold recomputeReadinessAndStatus. intros E. apply tbind_Ok in E as (l & d & [= <- <-] & E).
  apply tbind_Ok in E as (res & ? & [Ec ->]%tlift_Ok & E). apply tbind_Ok in E as (row & d1 & [E1 W]%readiness_create_Ok & E).
  apply journal_aside in E as (d2 & A2 & E). apply tbind_Ok in E as ([] & d3 & Es & E). injection E as <- Est <-.
  apply status_written in Es as (d2' & A3 & Hs). eapply rated_from; [exact W| |by rewrite <- Est|exact E1|exact A2| |exact A3].
  - rewrite (engine_versions _ _ _ _ _ Ec). exact Ec.
  - rewrite <- Est. exact Hs.
Qed.

(** *** The job reads the same evidence *)

Lemma evidenceMap_found db l f e : f ∈ l -> FactRow.evidenceId f = Some e -> evidenceMap db l !! e = Some (evidence_findById db e).
Proof.
  unfold evidenceMap. induction l as [|g l IH] using rev_ind; [by intros ?%elem_of_nil|]. rewrite foldl_app. cbn [foldl].
  intros [Hf|Hf%list_elem_of_singleton]%elem_of_app Ee.
  - specialize (IH Hf Ee). destruct (FactRow.evidenceId g) as [e'|]; [|exact IH].
    destruct (decide (e' = e)) as [->|Hne]; [by rewrite lookup_insert_eq|by rewrite lookup_insert_ne].
  - subst g. rewrite Ee. by rewrite lookup_insert_eq.
Qed.

Lemma job_evidence db l f : f ∈ l -> mappedEvidence (evidenceMap db l) f = when_present (FactRow.evidenceId f) (evidence_findById db) None.
Proof.
  intros Hf. unfold mappedEvidence, when_present. destruct (FactRow.evidenceId f) as [e|] eqn:Ee; [|done]. destruct (String.eqb e ""); [done|].
  by rewrite (evidenceMap_found db l f e Hf Ee).
Qed.

Lemma job_snapshots db x : let l := fact_listByPassport db x in
  map (fun f => snapshot f (mappedEvidence (evidenceMap db l) f)) l = snapshots db x.
Proof.
  cbv zeta. unfold snapshots, buildSnapshots, factsWithEvidence. rewrite map_map. apply map_ext_in. intros f Hf%list_elem_of_In. by rewrite (job_evidence db _ f Hf).
Qed.

Lemma body_rated p now vs db v db' :
  recomputeBody p (snapshots db (PassportRow.id p)) vs (length (fact_listByPassport db (PassportRow.id p))) now db = Ok (v, db') ->
  exists st, rated p now st db db'.
Proof.
  unfold recomputeBody. intros E. apply tbind_Ok in E as (res & ? & [Ec ->]%tlift_Ok & E).
  apply tbind_Ok in E as (row & d1 & [E1 W]%readiness_create_Ok & E). apply journal_aside in E as (d2 & A2 & E).
  apply tbind_Ok in E as ([] & d3 & Es & E). injection E as _ <-. apply status_written in Es as (d2' & A3 & Hs).
  eexists. eapply rated_from; [exact W| | |exact E1|exact A2|exact Hs|exact A3].
  - rewrite (engine_versions _ _ _ _ _ Ec). exact Ec.
  - unfold factsWithEvidence. by rewrite length_map.
Qed.

(** Rated by the job, or nothing happened. *)
Lemma job_rated (sha256_hex : list Ascii.ascii -> string) x now db v db' : recomputePassport sha256_hex x now db = Ok (v, db') ->
  db' = db \/ exists p st db1, passport_findById db x = Some p /\ rated p now st db db1 /\ aside db1 db'.
Proof.
  unfold recomputePassport. destruct (passport_findById db x) as [p|] eqn:Hp; [|intros [= _ <-]; by left].
  intros E. apply tbind_Ok in E as (j & d & E & E'). injection E' as _ <-.
  apply withJobIdempotency_Ok in E as [->|(r & d1 & E & A)]; [by left|right].
  rewrite job_snapshots in E. apply body_rated in E as [st E]. by exists p, st, d1.
Qed.

(** ** What a rating does to the registry *)

Lemma passport_found db p : passport_tables db -> p ∈ passports db -> holders (registry db) !! PassportRow.id p = Some (holderOf p).
Proof. intros T Hp. exact (book_row holderOf db (passports db) p (pt_passports _ T) Hp). Qed.

Lemma passport_keeps st u t : keeps_identity (passportWith st u t).
Proof. done. Qed.

Lemma passports_later db x st u t : passport_tables db -> table_ok db (map (updating x (passportWith st u t)) (passports db)).
Proof. intros T. exact (table_update db (passports db) x (passportWith st u t) (passport_keeps st u t) (pt_passports _ T)). Qed.

Lemma rated_tables p now st db db' : passport_tables db -> rated p now st db db' -> passport_tables db'.
Proof.
  intros T [E1 E2 (u & t & E3) (res & r & E4 & W & _) Hd Hc]. pose proof T as [T1 T2 T3 T4 T5]. split.
  - rewrite E3. destruct (bool_decide _); (apply (table_same db); [|lia|lia]); [done|by apply passports_later].
  - rewrite E1. eapply table_same; [done|lia|lia].
  - rewrite E2. eapply table_same; [done|lia|lia].
  - rewrite E4. eapply table_append; [done| |lia|done]. split; [|by constructor; [apply not_elem_of_nil|constructor]|].
    + repeat constructor. exists (drawn db). rewrite (rw_id _ _ _ _ _ W). split; [lia|done].
    + repeat constructor. exact (rw_created _ _ _ _ _ W).
  - by rewrite E1.
Qed.

Lemma blocked_result x now db res r : result_written x now db res r ->
  assessmentOf r = {| as_passport := x; as_at := now; as_blocked := isReadinessBlocked res |}.
Proof.
  intros [_ _ E1 E2 _ E3 _ _]. unfold assessmentOf. rewrite E1, E2, E3, length_map. unfold isReadinessBlocked. f_equal.
  by destruct (blockers res).
Qed.

Lemma book_status db x st u t p : passport_tables db -> p ∈ passports db -> PassportRow.id p = x ->
  book holderOf (map (updating x (passportWith st u t)) (passports db)) = <[x := has_status st (holderOf p)]> (book holderOf (passports db)).
Proof.
  intros T Hp <-. apply (book_updating holderOf _ _ (passportWith st u t) p (passport_keeps st u t)).
  exact (findById_elem db (passports db) p (pt_passports _ T) Hp).
Qed.

Lemma rated_registry p now st db db' : passport_tables db -> p ∈ passports db -> rated p now st db db' ->
  exists has b, registry db' = assess (PassportRow.id p) (holderOf p) now has b (registry db) /\
    (has = true <-> has_statement (registry db) (PassportRow.id p)) /\ (b = false <-> cleared (registry db) (PassportRow.id p) now) /\
    st = Passport.targetStatusAfterRecompute (PassportRow.status p) has b.
Proof.
  intros T Hp [E1 E2 (u & t & E3) (res & r & E4 & W & Ec & Est) _ _]. eexists _, (isReadinessBlocked res).
  split_and!; [|apply has_facts|by eapply engine_cleared|exact Est]. unfold registry, assess. cbn [holders statements documents assessments ho_status holderOf].
  rewrite E1, E2, E3, E4, map_app. cbn [map]. rewrite (blocked_result _ _ _ _ _ W), <- Est. f_equal.
  case_bool_decide as Hst; [|by apply book_status]. symmetry. apply insert_id. rewrite Hst.
  exact (passport_found db p T Hp).
Qed.

(** The snapshots of a passport depend on its facts and their evidence. *)
Lemma snapshots_same db db' x : facts db' = facts db -> passportEvidence db' = passportEvidence db -> snapshots db' x = snapshots db x.
Proof. unfold snapshots, factsWithEvidence, fact_listByPassport, evidence_findById. by intros -> ->. Qed.

Lemma lastResult_snoc db db' r y : readinessResults db' = readinessResults db ++ [r] ->
  lastResult db' y = if String.eqb (ReadinessResultRow.passportId r) y then Some r else lastResult db y.
Proof.
  unfold lastResult. intros ->. rewrite List.filter_app. simpl. unfold resultOf at 2.
  destruct (String.eqb (ReadinessResultRow.passportId r) y); [by rewrite last_snoc|by rewrite app_nil_r].
Qed.

Lemma rated_current p now st db db' : (forall y r, y <> PassportRow.id p -> lastResult db y = Some r -> says db y r) -> rated p now st db db' ->
  forall y r, lastResult db' y = Some r -> says db' y r.
Proof.
  intros Old [E1 E2 _ (res & r0 & E4 & W & Ec & _) _ _] y r. rewrite (lastResult_snoc db db' r0 y E4), (rw_passport _ _ _ _ _ W).
  unfold says. rewrite (snapshots_same db db' y E1 E2). destruct (String.eqb_spec (PassportRow.id p) y) as [<-|Hne].
  - intros [= <-]. exists res. rewrite (rw_computed _ _ _ _ _ W), (rw_versions _ _ _ _ _ W). split; [done|].
    split_and!; [apply (rw_score _ _ _ _ _ W)|apply (rw_blockers _ _ _ _ _ W)|apply (rw_warnings _ _ _ _ _ W)].
  - intros Hl. exact (Old y r (not_eq_sym Hne) Hl).
Qed.
End Tables.
