(* ===== verification/PassportSystem.v ===== *)
(** * The passport service and the readiness job over one database

    Every transaction keeps [passport_ok] and is a run of [registry_step]; the
    handler of [Transactions] with its seven kinds of request; what a plan
    read before the transaction still says afterwards. *)
From S2P Require Import Prelude StableSort Lifecycle DomainStates AuthzMatrix Authz JsNumber Evidence JsonText Database Tables ApiShared Idempotency.
From S2P Require Import RfqService PassportRepositories PassportService PassportSpec PassportBook Transactions.
From Stdlib Require Import Ascii Sorted.
From stdpp Require Import relations.
#[local] Open Scope Z_scope.

Section Effects.
Context `{Platform} (sha256_hex : list ascii -> string).

(** ** Transactions as runs *)

Record keeps (db db' : Db) : Prop := {
  kp_ok : passport_ok db';
  kp_steps : rtc registry_step (registry db) (registry db');
  kp_drawn : (drawn db <= drawn db')%nat;
  kp_clock : clock db' = clock db
}.

Lemma keeps_refl db : passport_ok db -> keeps db db.
Proof. by split. Qed.

Lemma keeps_trans db1 db2 db3 : keeps db1 db2 -> keeps db2 db3 -> keeps db1 db3.
Proof. intros [] []. split; [done|by etransitivity|lia|congruence]. Qed.

Lemma aside_tables db db' : passport_tables db -> aside db db' -> passport_tables db'.
Proof.
  intros [T1 T2 T3 T4 T5] (a & e & k & n & Hn & ->). split; cbn; try done; by eapply table_same; [eassumption|cbn; lia|cbn; lia].
Qed.

Lemma aside_registry db db' : aside db db' -> registry db' = registry db.
Proof. by intros (a & e & k & n & _ & ->). Qed.

Lemma aside_says db db' x r : aside db db' -> says db' x r <-> says db x r.
Proof. by intros (a & e & k & n & _ & ->). Qed.

Lemma aside_last db db' x : aside db db' -> lastResult db' x = lastResult db x.
Proof. by intros (a & e & k & n & _ & ->). Qed.

Lemma aside_numbers db db' : aside db db' -> (drawn db <= drawn db')%nat /\ clock db' = clock db.
Proof. by intros (a & e & k & n & Hn & ->). Qed.

Lemma aside_ok db db' : passport_ok db -> aside db db' -> passport_ok db'.
Proof.
  intros [T K C] A. split; [by eapply aside_tables|by rewrite (aside_registry _ _ A)|].
  intros x r. rewrite (aside_last _ _ _ A), (aside_says _ _ _ _ A). apply C.
Qed.

Lemma aside_keeps db db' : passport_ok db -> aside db db' -> keeps db db'.
Proof.
  intros K A. destruct (aside_numbers _ _ A). split; [by eapply aside_ok|by rewrite (aside_registry _ _ A)|done|done].
Qed.

(** ** Rating *)

Lemma found_row db x p : passport_findById db x = Some p -> p ∈ passports db /\ PassportRow.id p = x.
Proof. intros [Hp Ei]%findById_Some. by split. Qed.

Lemma rated_keeps p x now st db db' : passport_ok db -> passport_findById db x = Some p -> rated p now st db db' -> keeps db db'.
Proof.
  intros [T K C] [Hp <-]%found_row R. destruct (rated_registry p now st db db' T Hp R) as (has & b & E & Hh & Hb & _).
  assert (registry_step (registry db) (registry db')) as St by (rewrite E; apply step_assess; [by apply passport_found|done|done]).
  split; [split|by apply rtc_once|apply Nat.lt_le_incl, R|apply R].
  - by eapply rated_tables.
  - by eapply registry_step_ok.
  - apply (rated_current p now st db db'); [|done]. intros y r _. apply C.
Qed.

Lemma job_keeps x now db v db' : passport_ok db -> recomputePassport sha256_hex x now db = Ok (v, db') -> keeps db db'.
Proof.
  intros K [->|(p & st & d1 & Hp & R & A)]%job_rated; [by apply keeps_refl|].
  pose proof (rated_keeps _ _ _ _ _ _ K Hp R) as K1. eapply keeps_trans; [exact K1|]. by apply aside_keeps; [apply K1|].
Qed.

Lemma readinessJob_keeps x now p db r db' : passport_ok db -> readinessJob_tx sha256_hex x now p db = Ok (r, db') -> keeps db db'.
Proof.
  intros K E. destruct p as [r0|[]]; simpl in E; [injection E as _ <-; by apply keeps_refl|].
  apply tbind_Ok in E as ([] & d & E & E'). injection E' as _ <-. by eapply job_keeps.
Qed.

(** ** Stating a fact *)

Lemma filter_updating {R} `{Row R} (q : R -> bool) (t : list R) x f :
  (forall r, r ∈ t -> row_id r = x -> q r = false /\ q (f r) = false) -> List.filter q (map (updating x f) t) = List.filter q t.
Proof.
  intros Hq. induction t as [|r t IH]; [done|]. cbn [map List.filter]. rewrite IH by (intros; apply Hq; [by right|done]).
  unfold updating, byId. destruct (String.eqb_spec (row_id r) x) as [E|]; [|done].
  destruct (Hq r ltac:(left) E) as [-> ->]. done.
Qed.

Lemma fact_keeps i v c : keeps_identity (factWith i v c).
Proof. done. Qed.

Lemma keys_updating t x i v c : map fact_key (map (updating x (factWith i v c)) t) = map fact_key t.
Proof. rewrite map_map. apply map_ext. intros f. unfold updating. by destruct (byId x f). Qed.

Lemma factBook_updating db t f i v c : table_ok db t -> NoDup (map fact_key t) -> f ∈ t ->
  factBook (map (updating (FactRow.id f) (factWith i v c)) t) = <[fact_key f := statementOf (factWith i v c f)]> (factBook t).
Proof.
  intros T Nd Hf. set (u := updating (FactRow.id f) (factWith i v c)).
  assert (NoDup (map fact_key (map u t))) as Nd' by (unfold u; by rewrite keys_updating).
  apply map_eq. intros k. destruct (decide (fact_key f = k)) as [<-|Hne].
  - rewrite lookup_insert_eq. assert (u f = factWith i v c f) as Eu by (unfold u; by apply updating_hit).
    rewrite <- Eu. change (fact_key f) with (fact_key (factWith i v c f)). rewrite <- Eu. apply factBook_row; [done|]. by apply list_elem_of_fmap_2.
  - rewrite lookup_insert_ne by done. destruct k as [y k]. destruct (factBook t !! (y, k)) as [s|] eqn:E.
    + apply factBook_Some in E as (g & Hg & Eg & ->). assert (u g = g) as Eu.
      { unfold u. apply updating_miss. intros E. apply Hne. rewrite <- Eg. f_equal.
        pose proof (findById_elem db t g T Hg) as H1. pose proof (findById_elem db t f T Hf) as H2. change (row_id f) with (FactRow.id f) in H2. congruence. }
      rewrite <- Eg. rewrite <- Eu at 1 2. apply factBook_row; [done|]. by apply list_elem_of_fmap_2.
    + destruct (factBook (map u t) !! (y, k)) as [s|] eqn:E2; [|done]. apply factBook_Some in E2 as (g & Hg & Eg & _).
      assert ((y, k) ∈ map fact_key (map u t)) as Hk by (rewrite <- Eg; by apply list_elem_of_fmap_2).
      unfold u in Hk. rewrite keys_updating in Hk. apply list_elem_of_fmap in Hk as (g' & Eg' & Hg'). by destruct (factBook_none _ _ _ E g' Hg').
Qed.

Lemma factBook_snoc t f : factBook t !! fact_key f = None -> factBook (t ++ [f]) = <[fact_key f := statementOf f]> (factBook t).
Proof.
  intros Hn. unfold factBook in *. rewrite map_app, list_to_map_app. cbn. rewrite <- insert_union_r; [by rewrite map_union_empty|done].
Qed.

(** What an upsert does. *)
Record upserted (i : UpsertFactInput) (s : Statement) (db db' : Db) : Prop := {
  us_tables : passport_tables db';
  us_registry : registry db' = state (fi_passportId i) (fi_fieldKey i) s (registry db);
  us_others : forall y, y <> fi_passportId i -> snapshots db' y = snapshots db y;
  us_passports : passports db' = passports db;
  us_results : readinessResults db' = readinessResults db;
  us_drawn : (drawn db <= drawn db')%nat;
  us_clock : clock db' = clock db
}.

Definition input_statement (i : UpsertFactInput) : Statement :=
  {| sm_section := fi_sectionType i; sm_value := default JNull (fi_normalizedValue i);
     sm_provenance := default Provenance.SELF_REPORTED (fi_verification i); sm_evidence := when_present (fi_evidenceId i) Some None |}.

Lemma snapshots_filter db db' y : passportEvidence db' = passportEvidence db ->
  List.filter (fun f => String.eqb (FactRow.passportId f) y) (facts db') = List.filter (fun f => String.eqb (FactRow.passportId f) y) (facts db) ->
  snapshots db' y = snapshots db y.
Proof. unfold snapshots, factsWithEvidence, fact_listByPassport, findMany, evidence_findById. by intros -> ->. Qed.

Lemma fact_upserted i db f db' : passport_tables db -> fact_upsertByFieldKey i db = Ok (f, db') ->
  upserted i (input_statement i) db db' /\ FactRow.verification f = default Provenance.SELF_REPORTED (fi_verification i).
Proof.
  intros T E. unfold fact_upsertByFieldKey in E. apply tbind_Ok in E as (? & ? & [_ ->]%tlift_Ok & E).
  destruct (findUnique (factKey (fi_passportId i) (fi_fieldKey i)) (facts db)) as [g|] eqn:Eg.
  - destruct (updateById _ _ _) as [[r t]|] eqn:Eu; [|done]. cbn in E. injection E as <- <-.
    apply updateById_Ok in Eu as (r0 & Hr0 & -> & ->). pose proof Eg as Eg'. apply find_some in Eg' as [Hg%list_elem_of_In Hk%factKey_spec].
    pose proof (findById_elem db (facts db) g (pt_facts _ T) Hg) as Hr. change (row_id g) with (FactRow.id g) in Hr. rewrite Hr in Hr0. injection Hr0 as <-.
    split; [|done]. destruct T as [T1 T2 T3 T4 T5]. split; cbn [passports facts passportEvidence readinessResults drawn clock set_facts]; try done.
    + split; cbn [passports facts passportEvidence readinessResults set_facts].
      * by apply (table_same db); cbn; [|lia|lia].
      * apply (table_same db); cbn; [|lia|lia]. exact (table_update db (facts db) (FactRow.id g) (factWith i (default JNull (fi_normalizedValue i)) (clock db)) (fact_keeps i _ _) T2).
      * by apply (table_same db); cbn; [|lia|lia].
      * by apply (table_same db); cbn; [|lia|lia].
      * change (NoDup (map fact_key (map (updating (FactRow.id g) (factWith i (default JNull (fi_normalizedValue i)) (clock db))) (facts db)))).
        by rewrite keys_updating.
    + unfold registry, state. cbn. f_equal. rewrite <- Hk. exact (factBook_updating db (facts db) g i _ (clock db) T2 T5 Hg).
    + intros y Hy. apply snapshots_filter; [done|]. cbn [facts set_facts]. apply (filter_updating _ (facts db) (FactRow.id g)).
      intros h Hh Eh. assert (h = g) as ->. { pose proof (findById_elem db (facts db) h T2 Hh) as H1. rewrite Eh in H1. congruence. }
      injection Hk as Ep _. cbn. rewrite Ep. split; by apply String.eqb_neq.
  - apply tbind_Ok in E as (x1 & d & [= <- <-] & E). injection E as <- <-. split; [|done]. destruct T as [T1 T2 T3 T4 T5].
    assert (factBook (facts db) !! (fi_passportId i, fi_fieldKey i) = None) as Hn by (by rewrite factBook_find, Eg).
    split; cbn [passports facts passportEvidence readinessResults drawn clock set_facts set_drawn]; try done; [| | |lia].
    + split; cbn; try (by eapply table_same; [eassumption|cbn; lia|cbn; lia]).
      * by eapply (table_snoc db).
      * rewrite map_app. apply NoDup_app. split_and!; [done| |apply NoDup_singleton].
        intros k (h & -> & Hh)%list_elem_of_fmap Hk%list_elem_of_singleton. by destruct (factBook_none _ _ _ Hn h Hh).
    + unfold registry, state. cbn. f_equal. by apply factBook_snoc.
    + intros y Hy. apply snapshots_filter; [done|]. cbn [facts set_facts]. rewrite List.filter_app. simpl.
      rewrite (proj2 (String.eqb_neq _ _)) by congruence. apply app_nil_r.
Qed.

(** ** What a plan relies on *)

(** The passport read before the transaction, as its holder is now. *)
Definition loaded (p : PassportRow.t) (g : Registry) : Prop :=
  exists h, holders g !! PassportRow.id p = Some h /\ ho_org h = PassportRow.organizationId p.

(** The evidence a fact cites is the passport's. *)
Definition cites (x : string) (e : option string) (g : Registry) : Prop :=
  forall y, when_present e Some None = Some y -> exists d, documents g !! y = Some d /\ dc_passport d = x.

Lemma loaded_later g g' p : registry_later g g' -> loaded p g -> loaded p g'.
Proof. intros L (h & (h' & Hh & E & _)%(rl_holders _ _ L) & Eo). exists h'. split; [done|congruence]. Qed.

Lemma cites_later g g' x e : registry_later g g' -> cites x e g -> cites x e g'.
Proof. intros L Hc y Hy. destruct (Hc y Hy) as (d & (d' & Hd & <-)%(rl_documents _ _ L) & Ed). by exists d. Qed.

Lemma keeps_later db db' : keeps db db' -> registry_later (registry db) (registry db').
Proof. intros K. apply registry_run_later, K. Qed.

(** ** The transactions *)

Lemma freshPassport_Ok x db p db' : freshPassport x db = Ok (p, db') -> passport_findById db x = Some p /\ db' = db.
Proof. unfold freshPassport. destruct (passport_findById db x); [|done]. by intros [= <- <-]. Qed.

Lemma upsertFact_keeps c x i p db r db' : passport_ok db -> cites x (uf_evidenceId i) (registry db) ->
  upsertFact_tx c x i p db = Ok (r, db') -> keeps db db'.
Proof.
  intros K Hc E. pose proof K as [T KR C]. unfold upsertFact_tx in E. apply tbind_Ok in E as (f & ? & [Hf ->]%freshPassport_Ok & E).
  apply tbind_Ok in E as (row & d1 & [U _]%(fact_upserted _ _ _ _ T) & E). apply journal_aside in E as (d2 & A & E).
  apply tbind_Ok in E as ([rd st] & d3 & R%recompute_rated & E). injection E as _ <-.
  destruct U as [T1 E1 Eo Ep Er Hd1 Hc1]. cbn [fi_passportId fi_fieldKey] in E1, Eo. set (s := input_statement _) in E1.
  pose proof (aside_tables _ _ T1 A) as T2. pose proof (aside_numbers _ _ A) as [Hd2 Hc2]. apply found_row in Hf as [Hf <-].
  assert (f ∈ passports d2) as Hf2 by (destruct A as (a & e & k & n & _ & ->); cbn; by rewrite Ep).
  destruct (rated_registry f _ st d2 d3 T2 Hf2 R) as (has & b & E3 & Hh & Hb & _). rewrite (aside_registry _ _ A), E1 in E3, Hh, Hb.
  assert (has = true) as ->. { apply Hh. exists (uf_fieldKey i). unfold state. cbn. rewrite lookup_insert_eq. by eexists. }
  assert (registry_step (registry db) (registry d3)) as St.
  { rewrite E3. apply step_state; [by apply passport_found| |exact Hb]. intros e He. by apply Hc. }
  split; [split|by apply rtc_once|pose proof (rt_drawn _ _ _ _ _ R); lia|rewrite (rt_clock _ _ _ _ _ R); congruence].
  - by eapply rated_tables.
  - by eapply registry_step_ok.
  - apply (rated_current f (now c) st d2 d3); [|done]. intros y r0 Hy Hl. rewrite (aside_last _ _ _ A) in Hl. apply (aside_says _ _ _ _ A).
    unfold lastResult in Hl. rewrite Er in Hl. unfold says. rewrite (Eo y Hy). by apply C.
Qed.

Lemma created_passport org u o db p db' : passport_tables db -> PassportRepositories.passport_create {| pp_organizationId := org; pp_createdByUserId := u; pp_createdByOrgId := o |} db = Ok (p, db') ->
  db' = set_passports (passports db ++ [p]) (set_drawn (S (drawn db)) db) /\ row_id p = newId (drawn db) /\ row_createdAt p = clock db /\
  holderOf p = {| ho_org := org; ho_status := Passport.DRAFT |} /\ free (fun h => Some (ho_org h)) (holders (registry db)) org.
Proof.
  intros T E. unfold PassportRepositories.passport_create in E. apply tbind_Ok in E as (i & d & [= <- <-] & E).
  cbn [pp_organizationId] in E. destruct (passport_findByOrganizationId _ org) as [|] eqn:Hn; [done|]. injection E as <- <-. split_and!; try done.
  intros y h (q & Hq & ->)%book_Some [= Eo]. apply findById_Some in Hq as [Hq%list_elem_of_In _]. unfold passport_findByOrganizationId, findUnique in Hn.
  pose proof (find_none _ _ Hn q Hq) as Hf. unfold ofOrganization in Hf. rewrite Eo, String.eqb_refl in Hf. discriminate Hf.
Qed.

Lemma create_keeps c org db p db' : passport_ok db -> createPassport_tx c org db = Ok (p, db') -> keeps db db'.
Proof.
  intros K E. pose proof K as [T KR C]. unfold createPassport_tx in E.
  apply tbind_Ok in E as (q & d1 & (E1 & Ei & Ec & Eh & Hfree)%(created_passport _ _ _ _ _ _ T) & E). apply journal_aside in E as (d2 & A & E).
  apply tbind_Ok in E as ([rd st] & d3 & R%recompute_rated & E). injection E as _ <-.
  assert (passport_tables d1) as T1.
  { destruct T as [T1 T2 T3 T4 T5]. rewrite E1. split; cbn; try done; try (by eapply table_same; [eassumption|cbn; lia|cbn; lia]). by eapply (table_snoc db). }
  pose proof (aside_tables _ _ T1 A) as T2. pose proof (aside_numbers _ _ A) as [Hd2 Hc2].
  destruct (book_new holderOf db (passports db) q (pt_passports _ T) Ei) as [Hnew Hbook]. change (row_id q) with (PassportRow.id q) in Hnew, Hbook.
  assert (registry d1 = move (PassportRow.id q) Passport.DRAFT (holderOf q) (registry db)) as Er1.
  { rewrite E1. unfold registry, move, has_status. cbn [holders statements documents assessments passports facts passportEvidence readinessResults set_passports set_passportEvidence set_drawn]. by rewrite Hbook, Eh. }
  assert (~ has_statement (registry db) (PassportRow.id q)) as Hnone.
  { intros [k [s Hs]]. destruct (rk_statements _ KR _ _ Hs) as [[h Hh] _]. cbn in Hh. congruence. }
  assert (q ∈ passports d2) as Hq2 by (destruct A as (a & e & k & n & _ & ->); rewrite E1; cbn; apply elem_of_app; right; left).
  destruct (rated_registry q _ st d2 d3 T2 Hq2 R) as (has & b & E3 & Hh & Hb & _). rewrite (aside_registry _ _ A), Er1 in E3, Hh, Hb.
  assert (has = false) as -> by (destruct has; [exfalso; by apply Hnone, Hh|done]).
  assert (b = true) as ->. { destruct b; [done|]. exfalso. apply (no_requirement_met_empty (registry db) (PassportRow.id q) (now c) Hnone). by apply Hb. }
  assert (registry d3 = open (PassportRow.id q) org (now c) (registry db)) as E4.
  { rewrite E3, Eh. unfold assess, open, move, has_status. cbn. f_equal. by rewrite insert_insert_eq. }
  assert (registry_step (registry db) (registry d3)) as St by (rewrite E4; apply step_open; [done|intros y h Hy Ho; by destruct (Hfree y h Hy); rewrite Ho]).
  split; [split|by apply rtc_once|pose proof (rt_drawn _ _ _ _ _ R); rewrite E1 in Hd2; cbn in Hd2; lia|rewrite (rt_clock _ _ _ _ _ R), Hc2, E1; done].
  - by eapply rated_tables.
  - by eapply registry_step_ok.
  - apply (rated_current q (now c) st d2 d3); [|done]. intros y r0 Hy Hl. rewrite (aside_last _ _ _ A) in Hl. apply (aside_says _ _ _ _ A).
    rewrite E1 in Hl |- *. by apply C.
Qed.

Lemma snapshots_file db db' y e : passport_ok db -> facts db' = facts db -> passportEvidence db' = passportEvidence db ++ [e] ->
  snapshots db' y = snapshots db y.
Proof.
  intros [T K _] Ef Ee. unfold snapshots, factsWithEvidence, fact_listByPassport. rewrite Ef. f_equal. apply map_ext_in. intros f Hf%list_elem_of_In.
  f_equal. apply (fact_list_elem db) in Hf as [Hf _]. destruct (rk_statements _ K _ _ (factBook_row _ f (pt_keys _ T) Hf)) as [_ Hd].
  unfold statementOf in Hd. cbn [sm_evidence] in Hd. unfold when_present, evidence_findById in *. destruct (FactRow.evidenceId f) as [i|]; [|done].
  destruct (String.eqb i ""); [done|]. destruct (Hd i eq_refl) as (d & Hi & _). cbn in Hi. apply book_Some in Hi as (r & Hr & _).
  rewrite Hr, Ee. by apply findById_app_other.
Qed.

Lemma addEvidence_keeps c x i p db e db' : passport_ok db -> is_Some (holders (registry db) !! x) -> addEvidence_tx c x i p db = Ok (e, db') -> keeps db db'.
Proof.
  intros K Hx E. pose proof K as [T KR C]. unfold addEvidence_tx in E. apply tbind_Ok in E as (ct & ? & [_ ->]%tlift_Ok & E).
  apply tbind_Ok in E as (et & ? & [_ ->]%tlift_Ok & E). apply tbind_Ok in E as (row & d1 & Ec & E). apply journal_aside in E as (d2 & A & E).
  injection E as _ <-. unfold evidence_create in Ec. apply tbind_Ok in Ec as (n & d & [= <- <-] & Ec). injection Ec as Er Ed. rewrite Er in Ed.
  assert (row_id row = newId (drawn db)) as Ei by (by rewrite <- Er). assert (row_createdAt row = clock db) as Et by (by rewrite <- Er).
  assert (EvidenceRow.passportId row = x) as Ex by (by rewrite <- Er). clear Er. subst d1.
  destruct (book_new documentOf db (passportEvidence db) row (pt_evidence _ T) Ei) as [Hnew Hbook].
  assert (registry_step (registry db) (file (row_id row) (documentOf row) (registry db))) as St by (apply step_file; [done|by rewrite <- Ex in Hx]).
  set (d1 := set_passportEvidence _ _) in A. assert (keeps db d1) as K1.
  { assert (registry d1 = file (row_id row) (documentOf row) (registry db)) as Er by (unfold registry, file, d1; cbn [holders statements documents assessments passports facts passportEvidence readinessResults set_passports set_passportEvidence set_drawn]; by rewrite Hbook).
    split; [split|rewrite Er; by apply rtc_once|cbn; lia|done].
    - destruct T as [T1 T2 T3 T4 T5]. split; cbn; try done; try (by eapply table_same; [eassumption|cbn; lia|cbn; lia]). by eapply (table_snoc db).
    - rewrite Er. by eapply registry_step_ok.
    - intros y r Hl. unfold says. rewrite (snapshots_file db d1 y row K eq_refl eq_refl). by apply C. }
  eapply keeps_trans; [exact K1|]. by apply aside_keeps; [apply K1|].
Qed.

(** ** Changing the status alone *)

Lemma move_keeps p x st u t db : passport_ok db -> passport_findById db x = Some p ->
  registry_step (registry db) (move x st (holderOf p) (registry db)) -> keeps db (set_passports (map (updating x (passportWith st u t)) (passports db)) db).
Proof.
  intros [T K C] [Hp <-]%found_row St.
  assert (registry (set_passports (map (updating (PassportRow.id p) (passportWith st u t)) (passports db)) db) = move (PassportRow.id p) st (holderOf p) (registry db)) as E.
  { unfold registry, move. cbn. f_equal. by apply book_status. }
  split; [split|by rewrite E; apply rtc_once|done|done].
  - destruct T as [T1 T2 T3 T4 T5]. split; cbn; try done; try (by eapply table_same; [eassumption|cbn; lia|cbn; lia]).
    apply (table_same db); cbn; [|lia|lia]. apply (passports_later db); by split.
  - rewrite E. by eapply registry_step_ok.
  - exact C.
Qed.

Lemma mustBeReady_Ok p u : mustBeReady p = Ok u <-> PassportRow.status p = Passport.READY.
Proof. unfold mustBeReady. rewrite throw_if_Ok, negb_false_iff, bool_decide_eq_true. done. Qed.

Lemma verify_keeps c x i p db q db' : passport_ok db -> verify_tx c x i p db = Ok (q, db') -> keeps db db'.
Proof.
  intros K E. unfold verify_tx in E. apply tbind_Ok in E as (f & ? & [Hf ->]%freshPassport_Ok & E).
  apply tbind_Ok in E as (? & ? & [Hr%mustBeReady_Ok ->]%tlift_Ok & E). apply tbind_Ok in E as (? & ? & [_ ->]%tlift_Ok & E).
  apply tbind_Ok in E as (row & d1 & [-> _]%passport_update_Ok & E). apply journal_aside in E as (d2 & A & E). injection E as _ <-.
  pose proof Hf as [Hin Ei]%found_row. assert (keeps db (set_passports (map (updating x (passportWith Passport.VERIFIED (Some (Actions.userId (actor c))) (clock db))) (passports db)) db)) as K1.
  { apply (move_keeps f); [done|done|]. apply step_verify; [|done]. rewrite <- Ei. apply passport_found; [apply K|done]. }
  eapply keeps_trans; [exact K1|]. by apply aside_keeps; [apply K1|].
Qed.

(** The latest result is the one with the greatest [computedAt]. *)
Lemma latest_greatest db x r : readiness_findLatestByPassport db x = Some r -> ReadinessResultRow.passportId r = x /\ r ∈ readinessResults db /\
  forall s, s ∈ readinessResults db -> ReadinessResultRow.passportId s = x -> ReadinessResultRow.computedAt s <= ReadinessResultRow.computedAt r.
Proof.
  unfold readiness_findLatestByPassport, findMany. intros Hh.
  pose proof (sort_by_sorted (desc ReadinessResultRow.computedAt) (List.filter (resultOf x) (readinessResults db))) as Hs.
  assert (forall s, s ∈ sort_by (desc ReadinessResultRow.computedAt) (List.filter (resultOf x) (readinessResults db)) <->
    s ∈ readinessResults db /\ ReadinessResultRow.passportId s = x) as Hin.
  { intros s. rewrite sort_by_elem, elem_of_filter_list. unfold resultOf. by rewrite String.eqb_eq. }
  destruct (sort_by _ _) as [|r' l]; [done|]. injection Hh as ->. split_and!; [apply Hin; left|apply Hin; left|].
  intros s Hs1 Hs2. assert (s ∈ r :: l) as Hm by (by apply Hin). apply elem_of_cons in Hm as [->|Hm]; [lia|].
  apply StronglySorted_inv in Hs as [_ Hall]. exact (proj1 (Forall_forall _ _) Hall s Hm).
Qed.

Lemma isStale_true st r now b : isStale st r now = Ok b ->
  b = true <-> st ∈ [Passport.READY; Passport.VERIFIED] /\ ReadinessResultRow.computedAt r + STALE_AFTER < now.
Proof.
  unfold isStale, Passport.isPassportReadinessStale, STALE_AFTER, READINESS_STALE_AFTER_DAYS. cbn [Z.leb Z.compare].
  destruct (negb (bool_decide (st = Passport.READY)) && negb (bool_decide (st = Passport.VERIFIED))) eqn:E; intros [= <-].
  - split; [done|]. intros [Hs _]. apply andb_true_iff in E as [E1%negb_true_iff%bool_decide_eq_false E2%negb_true_iff%bool_decide_eq_false]. set_solver.
  - rewrite Z.ltb_lt. apply andb_false_iff in E.
    assert (st ∈ [Passport.READY; Passport.VERIFIED]) as Hs.
    { destruct E as [E|E]; apply negb_false_iff, bool_decide_eq_true in E; rewrite E; set_solver. }
    split; [intros; split; [done|lia]|intros [_ ?]; lia].
Qed.

Lemma isStale_total st r now : exists b, isStale st r now = Ok b.
Proof. unfold isStale, Passport.isPassportReadinessStale. cbn. destruct (_ && _); eauto. Qed.

Lemma read_keeps c p db out db' : passport_ok db -> loadDetail_tx c p db = Ok (out, db') -> keeps db db'.
Proof.
  intros K E. unfold loadDetail_tx in E. destruct (rp_stale p); [|injection E as _ <-; by apply keeps_refl].
  destruct (passport_findById db _) as [f|] eqn:Hf; [|injection E as _ <-; by apply keeps_refl].
  destruct (readiness_findLatestByPassport db _) as [r|] eqn:Hr; [|injection E as _ <-; by apply keeps_refl].
  apply rbind_Ok in E as (b & Hb & E). destruct b; [|injection E as _ <-; by apply keeps_refl].
  pose proof (proj1 (isStale_true _ _ _ _ Hb) eq_refl) as [Hst Hold]. apply latest_greatest in Hr as (_ & _ & Hmax).
  apply tbind_Ok in E as (? & ? & [_ ->]%tlift_Ok & E). apply tbind_Ok in E as (q & d & [-> _]%passport_update_Ok & E). injection E as _ <-.
  pose proof Hf as [Hin Ei]%found_row. apply (move_keeps f); [done|done|]. apply (step_age _ _ _ (now c)).
  - rewrite <- Ei. apply passport_found; [apply K|done].
  - exact Hst.
  - intros a Ha Ex. apply list_elem_of_fmap in Ha as (s & -> & Hs). cbn in Ex |- *. specialize (Hmax s Hs Ex). lia.
Qed.
End Effects.

(** ** The handler *)

Inductive PassportReq : Type :=
| CreatePassport (c : Call)
| UpsertFact (c : Call) (passportId : string) (input : UpsertFactRequest)
| AddEvidence (c : Call) (passportId : string) (input : CreateEvidenceRequest)
| VerifyPassport (c : Call) (passportId : string) (input : VerifyPassportRequest)
| ReadPassport (c : Call) (passportId : string)
| ReadByOrganization (c : Call) (org : string)
| RecomputePassport (passportId : string) (now : Z).

Definition passport_plan (r : PassportReq) : Type :=
  match r with
  | CreatePassport _ => string
  | UpsertFact _ _ _ | AddEvidence _ _ _ | VerifyPassport _ _ _ => PassportRow.t
  | ReadPassport _ _ | ReadByOrganization _ _ => ReadPlan
  | RecomputePassport _ _ => (PassportReadinessJobResult + unit)%type
  end.

(** A read answers with the passport and the readiness it shows; the facts and
    the evidence of the response are [passportDetail] of these. *)
Definition passport_out (r : PassportReq) : Type :=
  match r with
  | CreatePassport _ | VerifyPassport _ _ _ => PassportRow.t
  | UpsertFact _ _ _ => UpsertFactResult
  | AddEvidence _ _ _ => EvidenceRow.t
  | ReadPassport _ _ | ReadByOrganization _ _ => (PassportRow.t * option ReadinessResultRow.t)%type
  | RecomputePassport _ _ => PassportReadinessJobResult
  end.

(** Everything else on the platform leaves the four tables alone. *)
Record passport_env (db db' : Db) : Prop := {
  pe_passports : passports db' = passports db;
  pe_facts : facts db' = facts db;
  pe_evidence : passportEvidence db' = passportEvidence db;
  pe_results : readinessResults db' = readinessResults db;
  pe_drawn : (drawn db <= drawn db')%nat;
  pe_clock : clock db <= clock db'
}.

Section System.
Context `{Platform} (sha256_hex : list ascii -> string).

Definition passport_pre (r : PassportReq) (db : Db) : res (passport_plan r) :=
  match r with
  | CreatePassport c => createPassport_pre c db
  | UpsertFact c x i => upsertFact_pre c x i db
  | AddEvidence c x _ => addEvidence_pre c x db
  | VerifyPassport c x _ => verify_pre c x db
  | ReadPassport c x => getById_pre c x db
  | ReadByOrganization c org => getByOrganizationId_pre c org db
  | RecomputePassport x _ => Ok (readinessJob_pre x db)
  end.

Definition passport_tx (r : PassportReq) : passport_plan r -> Tx (passport_out r) :=
  match r with
  | CreatePassport c => createPassport_tx c
  | UpsertFact c x i => upsertFact_tx c x i
  | AddEvidence c x i => addEvidence_tx c x i
  | VerifyPassport c x i => verify_tx c x i
  | ReadPassport c _ | ReadByOrganization c _ => loadDetail_tx c
  | RecomputePassport x t => readinessJob_tx sha256_hex x t
  end.

Definition passport_service : Handler :=
  {| Req := PassportReq; Plan := passport_plan; Out := passport_out; Resp := passport_out;
     h_pre := passport_pre; h_look := fun _ p _ => p; h_tx := passport_tx; h_finish := fun _ _ out => Ok out |}.

(** ** What a plan still says later *)

Definition passport_plan_ok (r : PassportReq) : passport_plan r -> Db -> Prop :=
  match r with
  | UpsertFact _ x i => fun _ db => cites x (uf_evidenceId i) (registry db)
  | AddEvidence _ x _ => fun _ db => is_Some (holders (registry db) !! x)
  | VerifyPassport c x _ => fun p db => PassportRow.id p = x /\ loaded p (registry db) /\
      allowed (can (actor c) Actions.passport_verify (passportResource p) noContext) = true
  | _ => fun _ _ => True
  end.

Lemma authorizedPassport_Ok a act x db p : authorizedPassport a act x db = Ok p <->
  passport_findById db x = Some p /\ allowed (can a act (passportResource p) noContext) = true.
Proof.
  unfold authorizedPassport. destruct (passport_findById db x) as [q|]; [|naive_solver]. rewrite rbind_Ok. setoid_rewrite require_Ok. naive_solver.
Qed.

Lemma ownEvidence_Ok x db e u : ownEvidence x db e = Ok u <-> exists r, evidence_findById db e = Some r /\ EvidenceRow.passportId r = x.
Proof.
  unfold ownEvidence. destruct (evidence_findById db e) as [r|]; [|naive_solver].
  rewrite throw_if_Ok, negb_false_iff, String.eqb_eq. naive_solver.
Qed.

Lemma passport_held db x p : passport_ok db -> passport_findById db x = Some p -> holders (registry db) !! x = Some (holderOf p).
Proof. intros K [Hp <-]%found_row. apply passport_found; [apply K|done]. Qed.

Lemma passport_plan_pre db r p : passport_ok db -> passport_pre r db = Ok p -> passport_plan_ok r p db.
Proof.
  intros K. destruct r as [c|c x i|c x i|c x i|c x|c org|x t]; simpl; intros E; try done.
  - unfold upsertFact_pre in E. apply rbind_Ok in E as (q & _ & E). apply rbind_Ok in E as ([] & Ev & _).
    intros y Hy. unfold when_present in *. destruct (uf_evidenceId i) as [e|]; [|done]. destruct (String.eqb e ""); [done|]. injection Hy as <-.
    apply ownEvidence_Ok in Ev as (r & Hr & Ex). exists (documentOf r). split; [|done]. unfold evidence_findById in Hr. cbn. by rewrite book_lookup, Hr.
  - unfold addEvidence_pre in E. apply authorizedPassport_Ok in E as [Hp _]. eexists. exact (passport_held _ _ _ K Hp).
  - unfold verify_pre in E. apply rbind_Ok in E as (q & [Hp Ha]%authorizedPassport_Ok & E). apply rbind_Ok in E as (? & _ & [= <-]).
    pose proof Hp as [_ Ei]%found_row. split_and!; [done| |done]. exists (holderOf q). rewrite Ei. split; [by apply passport_held|done].
Qed.

Lemma passport_plan_later db db' r p : registry_later (registry db) (registry db') -> passport_plan_ok r p db -> passport_plan_ok r p db'.
Proof.
  intros L. destruct r; simpl; try done.
  - by apply cites_later.
  - intros [h (h' & Hh & _)%(rl_holders _ _ L)]. by exists h'.
  - intros (Ei & Hl & Ha). split_and!; [done|by eapply loaded_later|done].
Qed.

(** ** The two obligations *)

Lemma passport_tx_keeps db r p out db' : passport_ok db -> passport_plan_ok r p db -> passport_tx r p db = Ok (out, db') -> keeps db db'.
Proof.
  intros K. destruct r; simpl.
  - intros _. by apply create_keeps.
  - by apply upsertFact_keeps.
  - by apply addEvidence_keeps.
  - intros _. by apply verify_keeps.
  - intros _. by apply read_keeps.
  - intros _. by apply read_keeps.
  - intros _. by apply readinessJob_keeps.
Qed.

Lemma passport_env_registry db db' : passport_env db db' -> registry db' = registry db.
Proof. intros [E1 E2 E3 E4 _ _]. unfold registry. by rewrite E1, E2, E3, E4. Qed.

Lemma passport_env_keeps db db' : passport_ok db -> passport_env db db' -> passport_ok db'.
Proof.
  intros [[T1 T2 T3 T4 T5] K C] Ev. pose proof Ev as [E1 E2 E3 E4 Hd Hc]. split.
  - split; rewrite ?E1, ?E2, ?E3, ?E4; first [by eapply table_same|done].
  - by rewrite (passport_env_registry _ _ Ev).
  - intros x r. unfold lastResult, says. rewrite E4, (snapshots_same db db' x E2 E3). apply C.
Qed.

Lemma passport_J_tx db r p out db' r' p' : passport_ok db -> passport_plan_ok r p db -> passport_tx r p db = Ok (out, db') ->
  passport_plan_ok r' p' db -> passport_plan_ok r' p' db'.
Proof. intros K J E. apply passport_plan_later, keeps_later. by eapply passport_tx_keeps. Qed.

Lemma passport_J_env db db' r p : passport_ok db -> passport_env db db' -> passport_plan_ok r p db -> passport_plan_ok r p db'.
Proof. intros K Ev. apply passport_plan_later. by rewrite (passport_env_registry _ _ Ev). Qed.

#[local] Notation anyone := (fun _ : PassportReq => True).
#[local] Notation reach := (reaches passport_service passport_env anyone).

Lemma passport_wf db s : passport_ok db -> reach db s -> wf passport_service passport_ok passport_plan_ok s.
Proof.
  apply wf_reaches.
  - intros d r p _. apply passport_plan_pre.
  - done.
  - intros d r p out d' K J E. by apply (passport_tx_keeps d r p out d' K J E).
  - apply passport_env_keeps.
  - apply passport_J_tx.
  - apply passport_J_env.
Qed.

Lemma passport_reach db s : passport_ok db -> reach db s -> passport_ok (store s).
Proof. intros K R. by destruct (passport_wf db s K R). Qed.

(** Between any two moments of a run. *)
Lemma passport_between db s s' : passport_ok db -> reach db s -> rtc (step passport_service passport_env anyone) s s' ->
  rtc registry_step (registry (store s)) (registry (store s')).
Proof.
  intros K R R'. eapply (simulation_between passport_service passport_env anyone passport_ok passport_plan_ok); [..|by apply (passport_wf db)|exact R'].
  - intros d r p _. apply passport_plan_pre.
  - done.
  - intros d r p out d' K' J E. by apply (passport_tx_keeps d r p out d' K' J E).
  - apply passport_env_keeps.
  - apply passport_J_tx.
  - apply passport_J_env.
  - intros d r p out d' K' J E. by apply (passport_tx_keeps d r p out d' K' J E).
  - intros d d' K' Ev. by rewrite (passport_env_registry _ _ Ev).
Qed.

Lemma serve_keeps db r : passport_ok db -> keeps db (fst (serve passport_service r db)).
Proof.
  intros K. unfold serve. cbn [h_pre h_tx passport_service]. destruct (passport_pre r db) as [p|] eqn:Ep; [|by apply keeps_refl].
  destruct (passport_tx r p db) as [[out db']|] eqn:Et; [|by apply keeps_refl]. eapply passport_tx_keeps; [done| |exact Et]. by apply passport_plan_pre.
Qed.

(** The sweep, like the jobs it stands for. *)
Lemma sweep_keeps l t db : passport_ok db -> keeps db (fst (recomputeEach sha256_hex l t db)).
Proof.
  revert db. induction l as [|p l IH]; intros db K; cbn [recomputeEach]; [by apply keeps_refl|].
  destruct (needsSweepRecompute _ _ _) as [[|]|]; [|by apply IH|by apply keeps_refl].
  destruct (recomputePassport _ _ _ _) as [[u db1]|] eqn:E; [|by apply keeps_refl].
  assert (keeps db db1) as A by (by eapply job_keeps). pose proof (IH db1 (kp_ok _ _ A)) as A2.
  destruct (recomputeEach _ l t db1) as [db2 n]. by eapply keeps_trans.
Qed.

End System.
