(* ===== verification/PassportRequests.v ===== *)
(** * When a passport request succeeds

    On [passport_ok] tables a request on its own succeeds exactly in the case
    [passport_accepted] describes, and changes nothing otherwise. *)
From S2P Require Import Prelude StableSort Lifecycle DomainStates AuthzMatrix Authz JsNumber Evidence JsonText Database Tables ApiShared Idempotency.
From S2P Require Import RfqService PassportRepositories PassportService PassportSpec PassportBook PassportSystem Transactions.
From Stdlib Require Import Ascii.
#[local] Open Scope Z_scope.

Section Requests.
Context `{Platform} (sha256_hex : list ascii -> string).

(** ** Bodies that go through *)

Definition goes_through {A} (m : Tx A) (db : Db) : Prop := exists a db', m db = Ok (a, db').

Lemma through_bind {A B} (m : Tx A) (k : A -> Tx B) db a db1 : m db = Ok (a, db1) -> goes_through (k a) db1 -> goes_through (tbind m k) db.
Proof. intros E (b & db2 & Ek). exists b, db2. by rewrite (tbind_run _ _ _ _ _ E). Qed.

Lemma through_lift {A B} (m : res A) (k : A -> Tx B) db a : m = Ok a -> goes_through (k a) db -> goes_through (tbind (tlift m) k) db.
Proof. intros ->. by apply through_bind. Qed.

Lemma through_ret {A} (a : A) db : goes_through (tret a) db.
Proof. by eexists _, _. Qed.

Lemma through_audit {B} i c (k : AuditEventRow.t -> Tx B) db : (forall a db1, aside db db1 -> goes_through (k a) db1) ->
  goes_through (tbind (auditRepository_write i c) k) db.
Proof. intros Hk. destruct (commits_audit i c db) as (a & db1 & E). eapply through_bind; [exact E|]. apply Hk. by eapply audit_aside. Qed.

Lemma through_event {B} i c (k : DomainEventRow.t -> Tx B) db : (forall a db1, aside db db1 -> goes_through (k a) db1) ->
  goes_through (tbind (domainEventRepository_write i c) k) db.
Proof. intros Hk. destruct (commits_event i c db) as (a & db1 & E). eapply through_bind; [exact E|]. apply Hk. by eapply event_aside. Qed.

Lemma aside_passports db db' : aside db db' -> passports db' = passports db.
Proof. by intros (a & e & k & n & _ & ->). Qed.

(** ** What is stored is storable *)

Lemma notice_safe n : is_object (noticeJson n) && json_safe (noticeJson n) = true.
Proof. done. Qed.

Lemma notices_safe l f : assertJsonSafeObjectArray (JArr (map noticeJson l)) f = Ok tt.
Proof.
  apply safe_array_spec. exists (map noticeJson l). split; [done|]. induction l as [|n l IH]; [done|]. cbn [map forallb]. by rewrite notice_safe, IH.
Qed.

Lemma versions_safe l f : assertStringArray (JArr (map JStr l)) f = Ok tt.
Proof. apply string_array_spec. by exists l. Qed.

Lemma readiness_create_run x result now u o s db : exists r,
  readiness_create (resultInput x result now u o s) db = Ok (r, set_readinessResults (readinessResults db ++ [r]) (set_drawn (S (drawn db)) db)).
Proof.
  eexists. unfold readiness_create. cbn [ci_blockers ci_warnings ci_inputVersions resultInput].
  rewrite (tbind_run _ _ _ tt db) by (unfold tlift; by rewrite notices_safe). rewrite (tbind_run _ _ _ tt db) by (unfold tlift; by rewrite notices_safe).
  rewrite (tbind_run _ _ _ tt db) by (unfold tlift; by rewrite versions_safe). by rewrite (tbind_run _ _ _ _ _ eq_refl).
Qed.

Lemma passport_update_run x st u db p : findById (passports db) x = Some p -> exists q d, passport_updateStatus x st u db = Ok (q, d).
Proof. intros Hf. unfold passport_updateStatus, updateById. rewrite Hf. by eexists _, _. Qed.

Lemma recompute_guard st has b : Passport.targetStatusAfterRecompute st has b <> st ->
  Passport.assertValidPassportTransition (Passport.PassportStatus_name st) (Passport.PassportStatus_name (Passport.targetStatusAfterRecompute st has b)) = Ok tt.
Proof. by destruct st, has, b. Qed.

(** ** A recompute always goes through *)

Lemma status_through p has b u i c db : is_Some (findById (passports db) (PassportRow.id p)) ->
  let st := Passport.targetStatusAfterRecompute (PassportRow.status p) has b in
  goes_through (if bool_decide (st = PassportRow.status p) then tret tt
   else do* tlift (Passport.assertValidPassportTransition (statusName p) (Passport.PassportStatus_name st));
        do* passport_updateStatus (PassportRow.id p) st u;
        do* domainEventRepository_write i c; tret tt) db.
Proof.
  intros [q Hq] st. case_bool_decide as Hst; [apply through_ret|]. eapply through_lift; [by apply recompute_guard|].
  destruct (passport_update_run (PassportRow.id p) st u db q Hq) as (r & d & E). eapply through_bind; [exact E|].
  apply through_event. intros ???. apply through_ret.
Qed.

Lemma status_then {A} (k : unit -> Tx A) m db : goes_through m db -> (forall db1, goes_through (k tt) db1) -> goes_through (tbind m k) db.
Proof. intros ([] & d & E) Hk. by eapply through_bind. Qed.

Lemma recompute_through p now u o c db : passport_tables db -> is_Some (findById (passports db) (PassportRow.id p)) ->
  goes_through (recomputeReadinessAndStatus p now u o c) db.
Proof.
  intros T Hp. unfold recomputeReadinessAndStatus. eapply through_bind; [reflexivity|].
  destruct (engine_answers db (PassportRow.id p) now (map (fun fe => factVersion (fst fe)) (factsWithEvidence db (PassportRow.id p))) T) as [res Er].
  eapply through_lift; [exact Er|]. destruct (readiness_create_run (PassportRow.id p) res now (Some u) (Some o) None db) as [r Ec].
  eapply through_bind; [exact Ec|]. apply through_audit. intros ? d1 A1. apply through_event. intros ? d2 A2.
  eapply status_then; [|intros; apply through_ret]. apply status_through. by rewrite (aside_passports _ _ A2), (aside_passports _ _ A1).
Qed.

Lemma body_through p vs n now db : passport_tables db -> is_Some (findById (passports db) (PassportRow.id p)) ->
  goes_through (recomputeBody p (snapshots db (PassportRow.id p)) vs n now) db.
Proof.
  intros T Hp. unfold recomputeBody. destruct (engine_answers db (PassportRow.id p) now vs T) as [res Er].
  eapply through_lift; [exact Er|]. destruct (readiness_create_run (PassportRow.id p) res now None None (Some SourceType.SYSTEM) db) as [r Ec].
  eapply through_bind; [exact Ec|]. apply through_audit. intros ? d1 A1. apply through_event. intros ? d2 A2.
  eapply status_then; [|intros; apply through_ret]. apply status_through. by rewrite (aside_passports _ _ A2), (aside_passports _ _ A1).
Qed.

(** ** The requests *)

(** A value a fact can hold. *)
Definition statable (v : option Json) : Prop := exists j, v = Some j /\ j <> JNull /\ json_safe j = true.

Lemma statable_Ok v f : assertJsonSerializableValue v f = Ok tt <-> statable v.
Proof.
  unfold assertJsonSerializableValue, statable. destruct v as [j|]; [|naive_solver].
  destruct j; try (rewrite assertJsonSerializable_spec; naive_solver). naive_solver.
Qed.

Definition date_ok (s : string) : Prop := is_Some (parseDate s).
Definition optional_date_ok (s : option string) : Prop := when_present s date_ok True.

(** A passport the caller may act on. *)
Definition may_act (c : Call) (action : Actions.Action) (x : string) (db : Db) (p : PassportRow.t) : Prop :=
  passport_findById db x = Some p /\ allowed (can (actor c) action (passportResource p) noContext) = true.

(** The job's key was not used for something else. *)
Definition key_free (x : string) (now : Z) (db : Db) : Prop :=
  forall p, passport_findById db x = Some p ->
    let l := fact_listByPassport db x in
    let info := readinessInfo p (map (fun f => jobFactVersion now f (mappedEvidence (evidenceMap db l) f)) l) in
    forall k st, idempotency_find db (ji_scope info) (ji_key info) = Some k -> IdempotencyKeyRow.responseStatus k = Some st ->
      IdempotencyKeyRow.requestHash k = hashPayload sha256_hex (ji_requestPayload info).

Definition passport_accepted (r : PassportReq) (db : Db) : Prop :=
  match r with
  | CreatePassport c =>
      exists org, Actions.organizationId (actor c) = Some org /\ org <> "" /\
        allowed (can (actor c) Actions.passport_create (resource ResourceType.passport (Some org)) noContext) = true /\
        passport_findByOrganizationId db org = None
  | UpsertFact c x i =>
      (exists p, may_act c Actions.passport_update x db p) /\ statable (uf_normalizedValue i) /\
      when_present (uf_evidenceId i) (fun e => exists r, evidence_findById db e = Some r /\ EvidenceRow.passportId r = x) True
  | AddEvidence c x i =>
      (exists p, may_act c Actions.passport_update x db p) /\ date_ok (ce_collectedAt i) /\ optional_date_ok (ce_expiresAt i)
  | VerifyPassport c x _ => exists p, may_act c Actions.passport_verify x db p /\ PassportRow.status p = Passport.READY
  | ReadPassport c x => exists p, may_act c Actions.passport_read x db p
  | ReadByOrganization c org =>
      exists p, passport_findByOrganizationId db org = Some p /\ allowed (can (actor c) Actions.passport_read (passportResource p) noContext) = true
  | RecomputePassport x t => key_free x t db
  end.

Lemma date_column s f : (exists t, dateColumn s f = Ok t) <-> date_ok s.
Proof. unfold dateColumn, date_ok. destruct (parseDate s); split; [by eexists|by eexists|by intros []|by intros []]. Qed.

Lemma optional_date s f : (exists t, when_present s (fun s => let! t := dateColumn s f in Ok (Some t)) (Ok None) = Ok t) <-> optional_date_ok s.
Proof.
  unfold optional_date_ok, when_present. destruct s as [s|]; [|by split; [|eexists]]. destruct (String.eqb s ""); [by split; [|eexists]|].
  rewrite <- (date_column s f). destruct (dateColumn s f) as [t|]; cbn; split; [by exists t|by eexists|by intros []|by intros []].
Qed.

Lemma cited_Ok x db e : when_present e (ownEvidence x db) (Ok tt) = Ok tt <->
  when_present e (fun e => exists r, evidence_findById db e = Some r /\ EvidenceRow.passportId r = x) True.
Proof.
  unfold when_present. destruct e as [e|]; [|done]. destruct (String.eqb e ""); [done|]. apply ownEvidence_Ok.
Qed.

(** ** Each request goes through when accepted *)

Lemma found_unique db p : passport_tables db -> p ∈ passports db -> findById (passports db) (PassportRow.id p) = Some p.
Proof. intros T Hp. exact (findById_elem db (passports db) p (pt_passports _ T) Hp). Qed.

Lemma create_through c org db : passport_ok db -> passport_findByOrganizationId db org = None -> goes_through (createPassport_tx c org) db.
Proof.
  intros K Hn. unfold createPassport_tx.
  assert (exists p d, PassportRepositories.passport_create {| pp_organizationId := org; pp_createdByUserId := Some (Actions.userId (actor c));
    pp_createdByOrgId := Actions.organizationId (actor c) |} db = Ok (p, d)) as (p & d & E).
  { unfold PassportRepositories.passport_create. rewrite (tbind_run _ _ _ _ _ eq_refl). cbn [pp_organizationId].
    change (passport_findByOrganizationId (set_drawn (S (drawn db)) db) org) with (passport_findByOrganizationId db org). rewrite Hn. by eexists _, _. }
  eapply through_bind; [exact E|]. apply (created_passport _ _ _ _ _ _ (po_tables _ K)) in E as (Ed & Ei & Ec & _).
  apply through_audit. intros ? d1 A1. apply through_event. intros ? d2 A2.
  assert (passport_tables d) as T1.
  { destruct K as [[T1 T2 T3 T4 T5] _ _]. rewrite Ed. split; cbn; try done; try (by eapply table_same; [eassumption|cbn; lia|cbn; lia]). by eapply (table_snoc db). }
  pose proof (aside_tables _ _ (aside_tables _ _ T1 A1) A2) as T2.
  assert (p ∈ passports d2) as Hp. { rewrite (aside_passports _ _ A2), (aside_passports _ _ A1), Ed. cbn. apply elem_of_app; right; left. }
  assert (goes_through (recomputeReadinessAndStatus p (now c) (Actions.userId (actor c)) org (context c)) d2) as (r & d3 & Er).
  { apply recompute_through; [done|]. rewrite (found_unique _ _ T2 Hp). by eexists. }
  eapply through_bind; [exact Er|]. apply through_ret.
Qed.

Lemma upsert_row_run i db : passport_tables db -> statable (fi_normalizedValue i) -> exists f d, fact_upsertByFieldKey i db = Ok (f, d).
Proof.
  intros T Hv. unfold fact_upsertByFieldKey. erewrite tbind_run; [|unfold tlift; by rewrite (proj2 (statable_Ok _ _) Hv)].
  destruct (findUnique _ _) as [f|] eqn:Hf; [|by eexists _, _]. unfold updateById. apply find_some in Hf as [Hf%list_elem_of_In _].
  pose proof (findById_elem db (facts db) f (pt_facts _ T) Hf) as E. change (row_id f) with (FactRow.id f) in E. rewrite E. by eexists _, _.
Qed.

Lemma upsert_through c x i p db : passport_ok db -> is_Some (passport_findById db x) -> statable (uf_normalizedValue i) ->
  goes_through (upsertFact_tx c x i p) db.
Proof.
  intros K [f Hf] Hv. unfold upsertFact_tx. eapply through_bind; [unfold freshPassport; by rewrite Hf|].
  set (fi := {| fi_passportId := x |}). destruct (upsert_row_run fi db (po_tables _ K) Hv) as (row & d & E). eapply through_bind; [exact E|].
  apply (fact_upserted _ _ _ _ (po_tables _ K)) in E as [[T1 _ _ Ep _ _ _] _].
  apply through_audit. intros ? d1 A1. apply through_event. intros ? d2 A2.
  assert (goes_through (recomputeReadinessAndStatus f (now c) (Actions.userId (actor c)) (PassportRow.organizationId f) (context c)) d2) as ([rd st] & d3 & Er).
  { apply recompute_through; [by eapply aside_tables; [eapply aside_tables|]|].
    rewrite (aside_passports _ _ A2), (aside_passports _ _ A1), Ep. pose proof Hf as [_ <-]%found_row. by exists f. }
  eapply through_bind; [exact Er|]. apply through_ret.
Qed.

Lemma evidence_through c x i p db : date_ok (ce_collectedAt i) -> optional_date_ok (ce_expiresAt i) -> goes_through (addEvidence_tx c x i p) db.
Proof.
  intros [t Ht]%(date_column _ "collectedAt") [u Hu]%(optional_date _ "expiresAt"). unfold addEvidence_tx.
  eapply through_lift; [exact Ht|]. eapply through_lift; [exact Hu|]. eapply through_bind; [reflexivity|].
  apply through_audit. intros ???. apply through_event. intros ???. apply through_ret.
Qed.

Lemma verify_through c x i p q db : passport_findById db x = Some q -> PassportRow.status q = Passport.READY -> goes_through (verify_tx c x i p) db.
Proof.
  intros Hq Hs. unfold verify_tx. eapply through_bind; [unfold freshPassport; by rewrite Hq|].
  apply (through_lift _ _ _ tt); [by apply mustBeReady_Ok|]. apply (through_lift _ _ _ tt); [unfold statusName; by rewrite Hs|].
  destruct (passport_update_run x Passport.VERIFIED (Some (Actions.userId (actor c))) db q Hq) as (r & d & E). eapply through_bind; [exact E|].
  apply through_audit. intros ???. apply through_event. intros ???. apply through_ret.
Qed.

Lemma stale_guard st : st ∈ [Passport.READY; Passport.VERIFIED] ->
  Passport.assertValidPassportTransition (Passport.PassportStatus_name st) "STALE" = Ok tt.
Proof. intros [->|[->|[]%elem_of_nil]%elem_of_cons]%elem_of_cons; done. Qed.

Lemma read_through c p db : goes_through (loadDetail_tx c p) db.
Proof.
  unfold loadDetail_tx. destruct (rp_stale p); [|apply through_ret]. unfold goes_through.
  destruct (passport_findById db _) as [f|] eqn:Hf; [|by eexists _, _]. destruct (readiness_findLatestByPassport db _) as [r|]; [|by eexists _, _].
  destruct (isStale_total (PassportRow.status f) r (now c)) as [b Hb]. rewrite Hb. cbn [rbind]. destruct b; [|by eexists _, _].
  pose proof (proj1 (isStale_true _ _ _ _ Hb) eq_refl) as [Hst _]. apply (through_lift _ _ _ tt); [by apply stale_guard|].
  destruct (passport_update_run _ Passport.STALE None db f Hf) as (q & d & E). eapply through_bind; [exact E|]. apply through_ret.
Qed.

Lemma recordResult_through info t v db : goes_through (recordResult sha256_hex info t v) db.
Proof.
  unfold goes_through, recordResult, idempotency_reserve. unfold tbind at 1. cbn [freshId].
  destruct (idempotency_find _ _ _) as [k|] eqn:Hk; [by eexists _, _|]. unfold idempotency_complete. set (row := {| IdempotencyKeyRow.id := _ |}).
  cbn [idempotencyKeys set_idempotencyKeys]. unfold updateById. destruct (findById _ _) as [r|] eqn:Hf; [by eexists _, _|].
  exfalso. apply (findById_None _ _ row) in Hf; [done|]. apply elem_of_app. right. left.
Qed.

Lemma job_through x t db : passport_ok db -> is_Some (passport_findById db x) ->
  goes_through (recomputePassport sha256_hex x t) db <-> key_free x t db.
Proof.
  intros K [p Hp]. pose proof Hp as [_ <-]%found_row. unfold goes_through, recomputePassport, key_free. rewrite Hp. cbv zeta.
  rewrite job_snapshots. set (l := fact_listByPassport db (PassportRow.id p)). set (vs := map _ l). set (info := readinessInfo _ _). split.
  - intros (u & d' & E) p' [= <-] k st Hk Hst. fold l vs info in Hk |- *. apply tbind_Ok in E as (w & d1 & E & _).
    unfold withJobIdempotency in E. rewrite Hk, Hst in E.
    destruct (String.eqb_spec (IdempotencyKeyRow.requestHash k) (hashPayload sha256_hex (ji_requestPayload info))) as [Eh|Hne]; [exact Eh|done].
  - intros Hfree. specialize (Hfree p eq_refl). fold l vs info in Hfree.
    assert (exists w d1, withJobIdempotency sha256_hex info t (recomputeBody p (snapshots db (PassportRow.id p)) vs (length l) t) db = Ok (w, d1)) as (w & d1 & E).
    { assert (goes_through (let* result := recomputeBody p (snapshots db (PassportRow.id p)) vs (length l) t in recordResult sha256_hex info t result) db) as Run.
      { destruct (body_through p vs (length l) t db (po_tables _ K)) as (w & d1 & E1); [by exists p|]. eapply through_bind; [exact E1|]. apply recordResult_through. }
      unfold withJobIdempotency. destruct (idempotency_find db (ji_scope info) (ji_key info)) as [k|] eqn:Hk; [|exact Run].
      destruct (IdempotencyKeyRow.responseStatus k) as [st|] eqn:Hst; [|exact Run].
      rewrite (Hfree k st eq_refl Hst), String.eqb_refl. by eexists _, _. }
    eexists _, _. rewrite (tbind_run _ _ _ _ _ E). done.
Qed.

(** ** The reads before the transaction *)

Lemma createPassport_pre_exact c db org : createPassport_pre c db = Ok org <->
  Actions.organizationId (actor c) = Some org /\ org <> "" /\
  allowed (can (actor c) Actions.passport_create (resource ResourceType.passport (Some org)) noContext) = true /\
  passport_findByOrganizationId db org = None.
Proof.
  unfold createPassport_pre, when_present. destruct (Actions.organizationId (actor c)) as [o|]; [|naive_solver].
  destruct (String.eqb_spec o "") as [->|Hne]; [naive_solver|]. rewrite rbind_Ok. setoid_rewrite require_Ok.
  destruct (passport_findByOrganizationId db o) eqn:Hf; [naive_solver congruence|naive_solver].
Qed.

Lemma upsertFact_pre_exact c x i db p : upsertFact_pre c x i db = Ok p <-> may_act c Actions.passport_update x db p /\
  when_present (uf_evidenceId i) (fun e => exists r, evidence_findById db e = Some r /\ EvidenceRow.passportId r = x) True.
Proof.
  unfold upsertFact_pre, may_act. rewrite rbind_Ok. setoid_rewrite rbind_Ok. setoid_rewrite authorizedPassport_Ok. rewrite <- cited_Ok.
  split; [intros (q & Hq & [] & Hc & [= <-])|intros [Hq Hc]]; [done|]. exists p. split; [done|]. by exists tt.
Qed.

Lemma verify_pre_exact c x db p : verify_pre c x db = Ok p <-> may_act c Actions.passport_verify x db p /\ PassportRow.status p = Passport.READY.
Proof.
  unfold verify_pre, may_act. rewrite rbind_Ok. setoid_rewrite rbind_Ok. setoid_rewrite authorizedPassport_Ok. setoid_rewrite mustBeReady_Ok.
  split; [intros (q & Hq & [] & Hs & [= <-])|intros [Hq Hs]]; [done|]. exists p. split; [done|]. by exists tt.
Qed.

Lemma detail_pre_exact c p db : (exists q, loadDetail_pre c p db = Ok q) <-> allowed (can (actor c) Actions.passport_read (passportResource p) noContext) = true.
Proof.
  unfold loadDetail_pre. split.
  - by intros (q & ([] & Ha%require_Ok & _)%rbind_Ok).
  - intros Ha. rewrite (proj2 (require_Ok _ tt) Ha). cbn [rbind]. destruct (readiness_findLatestByPassport db _) as [r|]; [|by eexists].
    destruct (isStale_total (PassportRow.status p) r (now c)) as [b ->]. by eexists.
Qed.

Lemma getById_pre_exact c x db : (exists q, getById_pre c x db = Ok q) <-> exists p, may_act c Actions.passport_read x db p.
Proof.
  unfold getById_pre, may_act. destruct (passport_findById db x) as [p|]; [|naive_solver]. rewrite detail_pre_exact. naive_solver.
Qed.

Lemma getByOrganization_pre_exact c org db : (exists q, getByOrganizationId_pre c org db = Ok q) <->
  exists p, passport_findByOrganizationId db org = Some p /\ allowed (can (actor c) Actions.passport_read (passportResource p) noContext) = true.
Proof.
  unfold getByOrganizationId_pre. destruct (passport_findByOrganizationId db org) as [p|]; [|naive_solver]. rewrite detail_pre_exact. naive_solver.
Qed.

(** ** What ran was accepted *)

Lemma upsert_ran c x i p db r db' : upsertFact_tx c x i p db = Ok (r, db') -> statable (uf_normalizedValue i).
Proof.
  unfold upsertFact_tx. intros E. apply tbind_Ok in E as (f & ? & _ & E). apply tbind_Ok in E as (row & d & E & _).
  unfold fact_upsertByFieldKey in E. apply tbind_Ok in E as ([] & ? & [Hv _]%tlift_Ok & _). by apply statable_Ok in Hv.
Qed.

Lemma evidence_ran c x i p db r db' : addEvidence_tx c x i p db = Ok (r, db') -> date_ok (ce_collectedAt i) /\ optional_date_ok (ce_expiresAt i).
Proof.
  unfold addEvidence_tx. intros E. apply tbind_Ok in E as (t & ? & [Ht _]%tlift_Ok & E). apply tbind_Ok in E as (u & ? & [Hu _]%tlift_Ok & _).
  split; [by apply (date_column _ "collectedAt"); exists t|by apply (optional_date _ "expiresAt"); exists u].
Qed.

Lemma job_accepted x t db : passport_ok db ->
  goes_through (readinessJob_tx sha256_hex x t (readinessJob_pre x db)) db <-> key_free x t db.
Proof.
  intros K. unfold readinessJob_pre. destruct (passport_findById db x) as [p|] eqn:Hp; cbn [readinessJob_tx].
  - rewrite <- (job_through x t db K ltac:(by exists p)). split; [intros (a & d & ([] & d1 & E & _)%tbind_Ok); by eexists _, _|].
    intros ([] & d & E). eapply through_bind; [exact E|]. apply through_ret.
  - split; [intros _ p; by rewrite Hp|intros _; apply through_ret].
Qed.

(** A plan read just now runs exactly when the rest of the condition holds. *)
Lemma passport_runs r p db : passport_ok db -> passport_pre r db = Ok p -> goes_through (passport_tx sha256_hex r p) db <-> passport_accepted r db.
Proof.
  intros K. destruct r as [c|c x i|c x i|c x i|c x|c org|x t]; cbn [passport_pre passport_tx passport_accepted]; intros Ep.
  - apply createPassport_pre_exact in Ep. split; [intros _; by exists p|intros _; apply create_through; [done|apply Ep]].
  - apply upsertFact_pre_exact in Ep as [Hm Hc]. split; [intros (r & d & Hv%upsert_ran); split_and!; [by exists p|done|done]|].
    intros (_ & Hv & _). apply upsert_through; [done| |done]. exists p. apply Hm.
  - apply authorizedPassport_Ok in Ep as Hm. split; [intros (r & d & Hv%evidence_ran); split; [by exists p|done]|].
    intros (_ & H1 & H2). by apply evidence_through.
  - apply verify_pre_exact in Ep as [Hm Hs]. split; [intros _; by exists p|intros _; by apply (verify_through c x i p p db (proj1 Hm))].
  - split; [intros _; apply getById_pre_exact; by exists p|intros _; apply read_through].
  - split; [intros _; apply getByOrganization_pre_exact; by exists p|intros _; apply read_through].
  - injection Ep as <-. by apply job_accepted.
Qed.

Lemma accepted_reads r db : passport_accepted r db -> exists p, passport_pre r db = Ok p.
Proof.
  destruct r as [c|c x i|c x i|c x i|c x|c org|x t]; cbn [passport_pre passport_accepted].
  - intros (org & Ho). exists org. by apply createPassport_pre_exact.
  - intros ([p Hm] & _ & Hc). exists p. by apply upsertFact_pre_exact.
  - intros ([p Hm] & _). exists p. by apply authorizedPassport_Ok.
  - intros (p & Hm & Hs). exists p. by apply verify_pre_exact.
  - by intros Hp%getById_pre_exact.
  - by intros Hp%getByOrganization_pre_exact.
  - intros _. by eexists.
Qed.

Lemma serve_passport_iff r db : passport_ok db -> is_ok (snd (serve (passport_service sha256_hex) r db)) = true <-> passport_accepted r db.
Proof.
  intros K. unfold serve. cbn [h_pre h_tx h_finish passport_service]. destruct (passport_pre r db) as [p|e] eqn:Ep.
  - rewrite <- (passport_runs r p db K Ep). unfold goes_through. destruct (passport_tx sha256_hex r p db) as [[a d]|]; cbn; naive_solver.
  - cbn. split; [done|]. intros [q Hq]%accepted_reads. congruence.
Qed.

End Requests.
