(* ===== verification/PassportEffects.v ===== *)
(** * What the passport requests leave alone

    Two facts about the rows that the registry does not carry: only [verify]
    makes a passport VERIFIED, and what is stored in the JSON columns always
    has the shape its reader expects. *)
From S2P Require Import Prelude StableSort Lifecycle DomainStates AuthzMatrix Authz JsNumber Evidence JsonText Database Tables ApiShared Idempotency.
From S2P Require Import RfqService PassportRepositories PassportService PassportSpec PassportBook PassportSystem PassportRequests Transactions.
From Stdlib Require Import Ascii.
#[local] Open Scope Z_scope.

(** ** Shapes *)

(** A value a fact holds: neither null nor anything JSON cannot say. *)
Definition value_ok (j : Json) : Prop := j <> JNull /\ json_safe j = true.

(** ReadinessItemSchema, for a requirement of the engine. *)
Definition item_ok (j : Json) : Prop :=
  exists req k, req ∈ requiredFacts /\
    j = JObj [("fieldKey", JStr (r_fieldKey req)); ("sectionType", JStr (Provenance.PassportSectionType_name (r_sectionType req)));
              ("message", JStr (messageOf req k))].

Definition result_ok (r : ReadinessResultRow.t) : Prop :=
  Forall item_ok (ReadinessResultRow.blockers r) /\ Forall item_ok (ReadinessResultRow.warnings r) /\
  exists k, 0 <= k <= 8 /\ ReadinessResultRow.score r = scoreOf k 8.

(** *** The engine's notices *)

Lemma contribution_items m now req : req ∈ requiredFacts ->
  Forall (fun n => item_ok (noticeJson n)) (contribution m now req).1.1 /\ Forall (fun n => item_ok (noticeJson n)) (contribution m now req).1.2.
Proof.
  intros Hr. assert (forall k, item_ok (noticeJson (notice req k))) as Hn by (intros k; exists req, k; by split).
  unfold contribution. repeat case_match; cbn; split; repeat constructor; auto.
Qed.

Lemma items_of_loop m now reqs (f : list Notice * list Notice * Z -> list Notice) :
  (forall req, req ∈ reqs -> Forall (fun n => item_ok (noticeJson n)) (f (contribution m now req))) ->
  Forall item_ok (map noticeJson (concat (map (fun q => f (contribution m now q)) reqs))).
Proof.
  intros Hf. apply Forall_fmap. induction reqs as [|q reqs IH]; [constructor|]. cbn [map concat]. apply Forall_app.
  split; [apply Hf; left|apply IH; intros req Hr; apply Hf; by right].
Qed.

Lemma notices_items l now vs reqs res : (forall req, req ∈ reqs -> req ∈ requiredFacts) -> computeReadiness l now vs reqs = Ok res ->
  Forall item_ok (map noticeJson (blockers res)) /\ Forall item_ok (map noticeJson (warnings res)).
Proof.
  intros Hr. unfold computeReadiness. destruct (throw_if _ _); cbn [rbind]; [|done]. intros [= <-]. cbn [blockers warnings].
  rewrite readiness_loop. cbn [l_blockers l_warnings app].
  split; [apply (items_of_loop _ _ _ (fun c => c.1.1))|apply (items_of_loop _ _ _ (fun c => c.1.2))]; intros req Hq; by apply contribution_items, Hr.
Qed.

Lemma present_bound (p : RequiredFact -> bool) : 0 <= Z.of_nat (length (List.filter p requiredFacts)) <= 8.
Proof. pose proof (List.filter_length_le p requiredFacts) as Hl. change (length requiredFacts) with 8%nat in Hl. lia. Qed.

Lemma engine_items l now vs res : computeReadiness l now vs requiredFacts = Ok res ->
  Forall item_ok (map noticeJson (blockers res)) /\ Forall item_ok (map noticeJson (warnings res)) /\ exists k, 0 <= k <= 8 /\ score res = scoreOf k 8.
Proof.
  intros E. destruct (notices_items l now vs requiredFacts res ltac:(done) E) as [B1 B2]. split_and!; [done..|].
  exists (Z.of_nat (length (List.filter (isPresent l) requiredFacts))). split; [apply present_bound|]. exact (readiness_score _ _ _ _ _ E).
Qed.

Section Effects.
Context `{Platform} (sha256_hex : list ascii -> string).

Record typed (db : Db) : Prop := {
  ty_values : map_Forall (fun _ s => value_ok (sm_value s)) (statements (registry db));
  ty_results : Forall result_ok (readinessResults db)
}.

Definition verified (db : Db) (x : string) : Prop := exists p, p ∈ passports db /\ PassportRow.id p = x /\ PassportRow.status p = Passport.VERIFIED.

Definition no_new_verified (db db' : Db) : Prop := forall x, verified db' x -> verified db x.

Record tame (db db' : Db) : Prop := {
  tm_verified : no_new_verified db db';
  tm_typed : typed db -> typed db'
}.

Lemma tame_trans db1 db2 db3 : tame db1 db2 -> tame db2 db3 -> tame db1 db3.
Proof. intros [V1 T1] [V2 T2]. split; [intros x Hx; auto|auto]. Qed.

(** The same rows of the tables that matter. *)
Lemma tame_same db db' : passports db' = passports db -> facts db' = facts db -> readinessResults db' = readinessResults db -> tame db db'.
Proof.
  intros E1 E2 E3. split; [intros x; unfold verified; by rewrite E1|]. intros [T1 T2]. split; [|by rewrite E3].
  unfold registry in *. cbn [statements] in *. by rewrite E2.
Qed.

Lemma tame_refl db : tame db db.
Proof. by apply tame_same. Qed.

Lemma aside_tame db db' : aside db db' -> tame db db'.
Proof. intros (a & e & k & n & _ & ->). by apply tame_same. Qed.

Lemma target_verified st has b : Passport.targetStatusAfterRecompute st has b = Passport.VERIFIED -> st = Passport.VERIFIED.
Proof. by destruct st, has, b. Qed.

Lemma updating_unverified t x st u c q : st <> Passport.VERIFIED -> q ∈ map (updating x (passportWith st u c)) t ->
  PassportRow.status q = Passport.VERIFIED -> q ∈ t.
Proof.
  intros Hst (q0 & -> & Hq)%list_elem_of_fmap Hv. unfold updating in *. by destruct (byId x q0).
Qed.

Lemma rated_tame p now st db db' : rated p now st db db' -> tame db db'.
Proof.
  intros [E1 E2 (u & t & E3) (res & r & E4 & W & Ec & Est) _ _]. split.
  - intros x (q & Hq & Ex & Ev). exists q. split; [|done]. rewrite E3 in Hq. case_bool_decide as Hs; [done|].
    eapply updating_unverified; [|exact Hq|exact Ev]. intros E. apply Hs. rewrite E. symmetry. eapply target_verified. by rewrite <- Est.
  - intros [T1 T2]. split; [unfold registry in *; cbn [statements] in *; by rewrite E1|]. rewrite E4. apply Forall_app. split; [done|].
    apply Forall_singleton. destruct (engine_items _ _ _ _ Ec) as (B1 & B2 & B3). unfold result_ok.
    by rewrite (rw_blockers _ _ _ _ _ W), (rw_warnings _ _ _ _ _ W), (rw_score _ _ _ _ _ W).
Qed.

Lemma stale_tame x u t db : tame db (set_passports (map (updating x (passportWith Passport.STALE u t)) (passports db)) db).
Proof.
  split; [|by intros [T1 T2]; split]. intros y (q & Hq & Ex & Ev). exists q. split; [|done]. exact (updating_unverified (passports db) x Passport.STALE u t q ltac:(done) Hq Ev).
Qed.

(** ** Each transaction *)

Lemma create_tame c org db p db' : passport_ok db -> createPassport_tx c org db = Ok (p, db') -> tame db db'.
Proof.
  intros K E. unfold createPassport_tx in E.
  apply tbind_Ok in E as (q & d1 & (-> & _ & _ & Eh & _)%(created_passport _ _ _ _ _ _ (po_tables _ K)) & E). apply journal_aside in E as (d2 & A & E).
  apply tbind_Ok in E as ([rd st] & d3 & R%recompute_rated & E). injection E as _ <-.
  eapply tame_trans; [|eapply tame_trans; [by apply aside_tame|by eapply rated_tame]].
  split; [|by intros [T1 T2]; split]. intros x (r & Hr & Ex & Ev). exists r. split; [|done]. cbn in Hr.
  apply elem_of_app in Hr as [Hr|Hr%list_elem_of_singleton]; [done|]. subst r. injection Eh as _ Es. congruence.
Qed.

Lemma upsert_tame c x i p db r db' : passport_ok db -> upsertFact_tx c x i p db = Ok (r, db') -> tame db db'.
Proof.
  intros K E. pose proof (upsert_ran _ _ _ _ _ _ _ E) as (j & Ej & Hj). unfold upsertFact_tx in E.
  apply tbind_Ok in E as (f & ? & [Hf ->]%freshPassport_Ok & E).
  apply tbind_Ok in E as (row & d1 & [U _]%(fact_upserted _ _ _ _ (po_tables _ K)) & E). apply journal_aside in E as (d2 & A & E).
  apply tbind_Ok in E as ([rd st] & d3 & R%recompute_rated & E). injection E as _ <-.
  eapply tame_trans; [|eapply tame_trans; [by apply aside_tame|by eapply rated_tame]].
  destruct U as [_ E1 _ Ep Er _ _]. split; [intros y; unfold verified; by rewrite Ep|]. intros [T1 T2]. split; [|by rewrite Er].
  rewrite E1. cbn [statements state]. apply map_Forall_insert_2; [|done]. cbn. by rewrite Ej.
Qed.

Lemma evidence_tame c x i p db r db' : addEvidence_tx c x i p db = Ok (r, db') -> tame db db'.
Proof.
  intros E. unfold addEvidence_tx in E. apply tbind_Ok in E as (ct & ? & [_ ->]%tlift_Ok & E).
  apply tbind_Ok in E as (et & ? & [_ ->]%tlift_Ok & E). apply tbind_Ok in E as (row & d1 & Ec & E). apply journal_aside in E as (d2 & A & E).
  injection E as _ <-. unfold evidence_create in Ec. apply tbind_Ok in Ec as (n & d & [= <- <-] & Ec). injection Ec as _ <-.
  eapply tame_trans; [|by apply aside_tame]. by apply tame_same.
Qed.

Lemma read_tame c p db out db' : loadDetail_tx c p db = Ok (out, db') -> tame db db'.
Proof.
  unfold loadDetail_tx. intros E. destruct (rp_stale p); [|injection E as _ <-; apply tame_refl].
  destruct (passport_findById db _) as [f|]; [|injection E as _ <-; apply tame_refl].
  destruct (readiness_findLatestByPassport db _) as [r|]; [|injection E as _ <-; apply tame_refl].
  apply rbind_Ok in E as (b & Hb & E). destruct b; [|injection E as _ <-; apply tame_refl].
  apply tbind_Ok in E as (? & ? & [_ ->]%tlift_Ok & E). apply tbind_Ok in E as (q & d & [-> _]%passport_update_Ok & E). injection E as _ <-.
  apply stale_tame.
Qed.

Lemma job_tame x t p db r db' : readinessJob_tx sha256_hex x t p db = Ok (r, db') -> tame db db'.
Proof.
  intros E. destruct p as [r0|[]]; simpl in E; [injection E as _ <-; apply tame_refl|].
  apply tbind_Ok in E as ([] & d & [->|(p & st & d1 & _ & R & A)]%job_rated & E); injection E as _ <-; [apply tame_refl|].
  eapply tame_trans; [by eapply rated_tame|by apply aside_tame].
Qed.

Lemma verify_typed c x i p db r db' : verify_tx c x i p db = Ok (r, db') -> typed db -> typed db'.
Proof.
  intros E. unfold verify_tx in E. apply tbind_Ok in E as (f & ? & [_ ->]%freshPassport_Ok & E).
  apply tbind_Ok in E as (? & ? & [_ ->]%tlift_Ok & E). apply tbind_Ok in E as (? & ? & [_ ->]%tlift_Ok & E).
  apply tbind_Ok in E as (row & d1 & [-> _]%passport_update_Ok & E). apply journal_aside in E as (d2 & A%aside_tame & E). injection E as _ <-.
  intros [T1 T2]. apply (tm_typed _ _ A). by split.
Qed.

(** What verifying does to the VERIFIED ones. *)
Lemma verify_verified c x i p db r db' y : verify_tx c x i p db = Ok (r, db') -> verified db' y -> y = x \/ verified db y.
Proof.
  intros E. unfold verify_tx in E. apply tbind_Ok in E as (f & ? & [_ ->]%freshPassport_Ok & E).
  apply tbind_Ok in E as (? & ? & [_ ->]%tlift_Ok & E). apply tbind_Ok in E as (? & ? & [_ ->]%tlift_Ok & E).
  apply tbind_Ok in E as (row & d1 & [-> _]%passport_update_Ok & E). apply journal_aside in E as (d2 & A%aside_tame & E). injection E as _ <-.
  intros (q & Hq & Ey & Ev)%(tm_verified _ _ A). cbn in Hq. apply list_elem_of_fmap in Hq as (q0 & -> & Hq). unfold updating in *.
  destruct (byId x q0) eqn:Eb; [|right; by exists q0]. left. unfold byId in Eb. apply String.eqb_eq in Eb. cbn in Ey, Eb. congruence.
Qed.

Definition is_verify (r : PassportReq) : bool := match r with VerifyPassport _ _ _ => true | _ => false end.

Lemma passport_tx_tame r p db out db' : passport_ok db -> is_verify r = false -> passport_tx sha256_hex r p db = Ok (out, db') -> tame db db'.
Proof.
  intros K. destruct r as [c|c x i|c x i|c x i|c x|c org|x t]; simpl; intros Hv E; try done.
  - by eapply create_tame.
  - by eapply upsert_tame.
  - by eapply evidence_tame.
  - by eapply read_tame.
  - by eapply read_tame.
  - by eapply job_tame.
Qed.

Lemma passport_tx_typed r p db out db' : passport_ok db -> passport_tx sha256_hex r p db = Ok (out, db') -> typed db -> typed db'.
Proof.
  intros K E. destruct (is_verify r) eqn:Ev; [destruct r; try done; by eapply verify_typed|].
  by apply (tm_typed _ _ (passport_tx_tame r p db out db' K Ev E)).
Qed.

Lemma env_tame db db' : passport_env db db' -> tame db db'.
Proof. intros [E1 E2 _ E4 _ _]. by apply tame_same. Qed.

End Effects.
