(* ===== verification/PassportTheorems.v ===== *)
(** * Passports: the theorems

    A sample passport; what holds in every reachable state, what one request
    does; the witnesses on the sample. *)
From S2P Require Import Prelude StableSort Lifecycle DomainStates AuthzMatrix Authz JsNumber Evidence Receipt JsonText Database Tables ApiShared.
From S2P Require Import Idempotency RfqService PassportRepositories PassportService PassportSpec PassportBook PassportSystem PassportRequests Transactions.
From S2P Require Import EconomicsTheorems LockboxTheorems TradeSample PassportEffects.
From Stdlib Require Import Ascii.
From stdpp Require Import relations.
Import Roles Actions.
Import Roles Actions Matrix.
#[local] Open Scope Z_scope.

(** ** A sample passport

    A merchant opens a passport, states the six blocking facts and is
    verified: the inputs of the witnesses; and what the job and the service do
    that their comments do not say. *)

Definition holderCall (t : Z) : Call := sampleCall MERCHANT_PSP_USER "merchant" t.
Definition reviewer (t : Z) : Call := sampleCall COMPLIANCE_REVIEWER "desk" t.
Definition outsider (t : Z) : Call := sampleCall ACQUIRER_PROVIDER_USER "provider" t.

Definition aFact (k : string) (e : option string) : UpsertFactRequest :=
  {| uf_sectionType := Provenance.IDENTITY; uf_fieldKey := k; uf_normalizedValue := Some (JStr "confirmed"); uf_verification := None; uf_evidenceId := e |}.

Definition stating (x : string) (t : Z) : list PassportReq :=
  map (fun req => UpsertFact (holderCall t) x (aFact (r_fieldKey req) None)) (List.filter r_blocking requiredFacts).

Definition samplePassport : PassportReq := CreatePassport (holderCall 1000).
Definition sampleVerify (x : string) (t : Z) : PassportReq := VerifyPassport (reviewer t) x {| vp_reason := "documents checked" |}.
Definition sampleEvidence (x : string) : PassportReq :=
  AddEvidence (holderCall 1500) x {| ce_type := EvidenceSourceKind.FILE; ce_objectRef := "s3://file"; ce_checksum := None; ce_issuer := None;
    ce_collectedAt := autumn; ce_expiresAt := Some autumn |}.

Notation samplePassports := (passport_service sampleSha).
Notation any_passport := (fun _ : PassportReq => True).

Definition held (r : PassportReq) (db : Db) : Db := fst (serve samplePassports r db).
Definition held_ok (r : PassportReq) (db : Db) : bool := is_ok (snd (serve samplePassports r db)).

Definition openDb : Db := Eval vm_compute in held samplePassport emptyDb.
Definition readyDb : Db := Eval vm_compute in serveAll samplePassports (stating "id-0" 2000) openDb.
Definition verifiedDb : Db := Eval vm_compute in held (sampleVerify "id-0" 3000) readyDb.

Lemma emptyDb_passport_ok : passport_ok emptyDb.
Proof.
  split; [split; try (split; by constructor); constructor| |done].
  split; first [apply List.Forall_nil | intros x v Hv; exact (False_ind _ (lookup_empty_Some _ _ Hv))
    | intros x y v w k Hv; exact (False_ind _ (lookup_empty_Some _ _ Hv))].
Qed.

Lemma any_passports l : Forall any_passport l.
Proof. by apply Forall_true. Qed.

Lemma passports_reached rs : exists s, reaches samplePassports passport_env any_passport emptyDb s /\ store s = serveAll samplePassports rs emptyDb.
Proof. eexists. split; [exact (serveAll_answers samplePassports passport_env any_passport rs emptyDb (any_passports rs))|reflexivity]. Qed.

Lemma sample_passport_ok rs : passport_ok (serveAll samplePassports rs emptyDb).
Proof. destruct (passports_reached rs) as (s & R & <-). exact (passport_reach sampleSha emptyDb s emptyDb_passport_ok R). Qed.

Lemma readyDb_ok : passport_ok readyDb.
Proof. replace readyDb with (serveAll samplePassports (samplePassport :: stating "id-0" 2000) emptyDb) by (vm_compute; reflexivity). apply sample_passport_ok. Qed.

Definition statuses (db : Db) : list Passport.PassportStatus := map PassportRow.status (passports db).

Example passport_statuses :
  statuses openDb = [Passport.DRAFT] /\ statuses readyDb = [Passport.READY] /\ statuses verifiedDb = [Passport.VERIFIED] /\
  length (readinessResults verifiedDb) = 7%nat.
Proof. vm_compute. done. Qed.

(** ** What the code lets happen *)

(** The job's idempotency key is the status and the facts, and a stored key is
    never too old: the first recompute of the aged passport takes it back to
    READY, the second one, after it aged again, is answered from the stored
    key and the passport stays STALE. *)
Definition aged (x : string) (t : Z) : list PassportReq := [ReadPassport (reviewer t) x; RecomputePassport x t].

Example second_ageing_is_final :
  let first := serveAll samplePassports (aged "id-0" 8000000000) readyDb in
  statuses (held (ReadPassport (reviewer 8000000000) "id-0") readyDb) = [Passport.STALE] /\
  statuses first = [Passport.READY] /\
  statuses (serveAll samplePassports (aged "id-0" 16000000000) first) = [Passport.STALE] /\
  held_ok (RecomputePassport "id-0" 16000000000) (held (ReadPassport (reviewer 16000000000) "id-0") first) = true.
Proof. vm_compute. done. Qed.

(** A fact whose document expires: the passport is READY while it is valid and
    can be verified after it expired, for [verify] computes nothing. *)
Definition cited (x e : string) : PassportReq :=
  UpsertFact (holderCall 2500) x (aFact "legalEntityConfirmed" (Some e)).

Definition lapsedDb : Db :=
  Eval vm_compute in
    let db := held (sampleEvidence "id-0") readyDb in
    match passportEvidence db with e :: _ => held (cited "id-0" (EvidenceRow.id e)) db | [] => db end.

Definition after_expiry : Z := 1788220800001.

Example verified_on_expired_evidence :
  statuses lapsedDb = [Passport.READY] /\
  map EvidenceRow.expiresAt (passportEvidence lapsedDb) = [Some 1788220800000] /\
  statuses (held (sampleVerify "id-0" after_expiry) lapsedDb) = [Passport.VERIFIED] /\
  statuses (held (RecomputePassport "id-0" after_expiry) lapsedDb) = [Passport.INCOMPLETE].
Proof. vm_compute. done. Qed.

(** Filing a document leaves the readiness history as it was. *)
Example evidence_recomputes_nothing :
  held_ok (sampleEvidence "id-0") readyDb = true /\
  readinessResults (held (sampleEvidence "id-0") readyDb) = readinessResults readyDb.
Proof. vm_compute. done. Qed.

(** A read that ages the passport changes it without a journal entry, even for
    a role that may only read. *)
Example a_read_writes :
  let auditor := sampleCall AUDITOR_READONLY "audit" 8000000000 in
  let db := held (ReadPassport auditor "id-0") readyDb in
  statuses db = [Passport.STALE] /\ auditEvents db = auditEvents readyDb /\ domainEvents db = domainEvents readyDb.
Proof. vm_compute. done. Qed.

(** The client says how well its own fact is verified. *)
Example self_verified_fact :
  let fact := {| uf_sectionType := Provenance.RISK; uf_fieldKey := "riskProfileSummary"; uf_normalizedValue := Some (JStr "low");
                 uf_verification := Some Provenance.OPERATOR_VERIFIED; uf_evidenceId := None |} in
  let db := held (UpsertFact (holderCall 1200) "id-0" fact) openDb in
  map FactRow.verification (facts db) = [Provenance.OPERATOR_VERIFIED] /\
  map AuditEventRow.actorRole (auditEvents openDb) = [Some MERCHANT_PSP_USER; None].
Proof. vm_compute. done. Qed.

(** Others may not. *)
Example outsiders_are_refused :
  held_ok (ReadPassport (outsider 2000) "id-0") openDb = false /\ held_ok (sampleVerify "id-0" 2000) openDb = false /\
  held_ok samplePassport openDb = false /\ held_ok (VerifyPassport (holderCall 3000) "id-0" {| vp_reason := "me" |}) readyDb = false.
Proof. vm_compute. done. Qed.

(** ** What the passport service and the readiness job guarantee

    For any number of overlapping requests, reads and jobs: a passport is
    READY or beyond only on a computed readiness without blockers, and every
    change is a run of the abstract registry; only a reviewer's request makes
    a passport VERIFIED; what is stored has its schema.  For one request:
    exactly when it succeeds, and that the job computes what the API does. *)

(** Who may declare a passport verified. *)
Definition REVIEWERS : list PersonaRole := [PLATFORM_OWNER; MARKETPLACE_OPERATOR; COMPLIANCE_REVIEWER].
Definition is_reviewer (a : Actor) : Prop := exists r, role a = Some r /\ r ∈ REVIEWERS.

Lemma verify_role a res ctx : allowed (can a passport_verify res ctx) = true -> is_reviewer a.
Proof.
  intros (r & org & Hr & _ & Ha & _)%can_paths. exists r. split; [done|].
  pose proof (all_roles_actions (fun r a => implb (has a (allowedActions (AUTHORITY_MATRIX r)) && is_action a passport_verify) (inOpt (Some REVIEWERS) r))
    ltac:(vm_compute; reflexivity) r passport_verify) as H1. cbv beta in H1. rewrite Ha in H1. unfold is_action in H1. rewrite (bool_decide_eq_true_2 _ eq_refl) in H1. by apply bool_decide_eq_true in H1.
Qed.

Section Theorems.
Context `{Platform} (sha256_hex : list ascii -> string).

#[local] Notation anyone := (fun _ : PassportReq => True).
#[local] Notation service := (passport_service sha256_hex).
#[local] Notation reach := (reaches service passport_env anyone).
#[local] Notation later_than := (rtc (step service passport_env anyone)).

(** ** From the registry back to the rows *)

Lemma about_results x l : List.filter (about x) (map assessmentOf l) = map assessmentOf (List.filter (resultOf x) l).
Proof.
  induction l as [|r l IH]; [done|]. cbn [map List.filter]. unfold about at 1, resultOf at 1. cbn [as_passport assessmentOf].
  destruct (String.eqb (ReadinessResultRow.passportId r) x); [cbn [map]; by rewrite IH|done].
Qed.

Lemma assessed_result db x a : assessed (registry db) x a <-> exists r, lastResult db x = Some r /\ a = assessmentOf r.
Proof.
  unfold assessed, lastResult. cbn [assessments registry]. rewrite about_results. change (map assessmentOf) with (fmap (M := list) assessmentOf).
  rewrite fmap_last. destruct (last _); cbn; naive_solver.
Qed.

Lemma holder_passport db x h : holders (registry db) !! x = Some h -> exists p, p ∈ passports db /\ PassportRow.id p = x /\ h = holderOf p.
Proof. intros (p & [Hin Ei]%findById_Some & ->)%book_Some. eauto. Qed.

Lemma blocked_nil r : as_blocked (assessmentOf r) = false <-> ReadinessResultRow.blockers r = [].
Proof. cbn [as_blocked assessmentOf]. destruct (ReadinessResultRow.blockers r); done. Qed.

Lemma cleared_requirements db x t : passport_tables db -> cleared (registry db) x t <->
  forall req, req ∈ requiredFacts -> r_blocking req = true -> requirementMet (snapshots db x) t req.
Proof. intros T. unfold cleared. by setoid_rewrite (fun req => requirement_meets db x t req T). Qed.

(** What a passport's status says: its last readiness is what the engine
    answers on its present facts, and has blockers exactly as the status says. *)
Record passport_sound (db : Db) (p : PassportRow.t) (r : ReadinessResultRow.t) : Prop := {
  ps_last : lastResult db (PassportRow.id p) = Some r;
  ps_says : says db (PassportRow.id p) r;
  ps_clear : ReadinessResultRow.blockers r = [] <->
    forall req, req ∈ requiredFacts -> r_blocking req = true ->
      requirementMet (snapshots db (PassportRow.id p)) (ReadinessResultRow.computedAt r) req;
  ps_ready : PassportRow.status p ∈ [Passport.READY; Passport.VERIFIED; Passport.STALE] -> ReadinessResultRow.blockers r = [];
  ps_unready : PassportRow.status p ∈ [Passport.DRAFT; Passport.INCOMPLETE] -> ReadinessResultRow.blockers r <> [];
  ps_draft : PassportRow.status p = Passport.DRAFT -> fact_listByPassport db (PassportRow.id p) = []
}.

Lemma passport_stands db p : passport_ok db -> p ∈ passports db -> exists r, passport_sound db p r.
Proof.
  intros [T K C] Hp. destruct (rk_holders _ K _ _ (passport_found db p T Hp)) as [(a & (r & Hl & ->)%assessed_result & Hc & Hf) Hd].
  cbn [ho_status holderOf] in Hf, Hd. rewrite blocked_nil, (cleared_requirements _ _ _ T) in Hc. exists r. split; [done|by apply C|exact Hc|..].
  - intros Hs. apply blocked_nil. destruct (PassportRow.status p); try done; by repeat (apply elem_of_cons in Hs as [?|Hs]); try done; apply elem_of_nil in Hs.
  - intros Hs E%blocked_nil. rewrite E in Hf. destruct (PassportRow.status p); try done; by repeat (apply elem_of_cons in Hs as [?|Hs]); try done; apply elem_of_nil in Hs.
  - intros E. specialize (Hd E). destruct (fact_listByPassport db (PassportRow.id p)) as [|f l] eqn:El; [done|exfalso]. apply Hd, has_facts.
    unfold factsWithEvidence. by rewrite El.
Qed.

(** C17: a passport's status is always backed.  From sound tables, after any
    interleaving of passports opened, facts stated, evidence filed,
    verifications, reads and recompute jobs: an organization has at most one
    passport; every passport has a last readiness, which is what the engine
    answers at its time on the facts the passport has now; that readiness has
    no blocker exactly when every blocking requirement is met by a stated
    fact whose evidence has not expired; it has none while the passport is
    READY, VERIFIED or STALE and one at least while it is DRAFT or
    INCOMPLETE; and a DRAFT passport states nothing. *)
Theorem passports_always_sound (db : Db) (s : Config service) : passport_ok db -> reach db s ->
  passport_ok (store s) /\
  (forall p1 p2, p1 ∈ passports (store s) -> p2 ∈ passports (store s) -> PassportRow.organizationId p1 = PassportRow.organizationId p2 ->
     PassportRow.id p1 = PassportRow.id p2) /\
  (forall p, p ∈ passports (store s) -> exists r, passport_sound (store s) p r).
Proof.
  intros K0 R. pose proof (passport_reach sha256_hex db s K0 R) as K. split_and!; [done| |intros p Hp; by apply passport_stands].
  intros p1 p2 H1 H2 E. pose proof (passport_found _ _ (po_tables _ K) H1) as L1. pose proof (passport_found _ _ (po_tables _ K) H2) as L2.
  apply (rk_one_passport _ (po_registry _ K) _ _ _ _ (PassportRow.organizationId p1) L1 L2); cbn; congruence.
Qed.

(** C18: the service and the job refine the abstract registry.  Between any
    two moments of any concurrent run from sound tables, the tables go from
    one registry to another by steps of [PassportSpec]; so every passport is
    still there, held by the same organization, its status moved along the
    table of passport-states.ts only; what is stated stays stated; filed
    documents stay as they were; and the history of assessments only grows. *)
Theorem passports_refine_registry (db : Db) (s s' : Config service) : passport_ok db -> reach db s -> later_than s s' ->
  rtc registry_step (registry (store s)) (registry (store s')) /\
  (forall p, p ∈ passports (store s) -> exists p', p' ∈ passports (store s') /\ PassportRow.id p' = PassportRow.id p /\
     PassportRow.organizationId p' = PassportRow.organizationId p /\ reachable (PassportRow.status p) (PassportRow.status p')) /\
  (forall f, f ∈ facts (store s) -> exists f', f' ∈ facts (store s') /\ fact_key f' = fact_key f) /\
  (forall e, e ∈ passportEvidence (store s) -> exists e', e' ∈ passportEvidence (store s') /\ EvidenceRow.id e' = EvidenceRow.id e /\
     documentOf e' = documentOf e) /\
  map assessmentOf (readinessResults (store s)) `prefix_of` map assessmentOf (readinessResults (store s')).
Proof.
  intros K0 R R'. pose proof (passport_between sha256_hex db s s' K0 R R') as Sim. destruct (passport_reach sha256_hex db s K0 R) as [T _ _].
  pose proof (registry_run_later _ _ Sim) as L. split_and!; [done|..|exact (rl_assessments _ _ L)].
  - intros p Hp. destruct (rl_holders _ _ L _ _ (passport_found _ p T Hp)) as (h & (p' & Hp' & Ei & ->)%holder_passport & E & F). by exists p'.
  - intros f Hf. destruct (rl_statements _ _ L (fact_key f)) as [v Hv]; [exists (statementOf f); exact (factBook_row _ f (pt_keys _ T) Hf)|].
    unfold fact_key in Hv. apply factBook_Some in Hv as (f' & Hf' & E & _). by exists f'.
  - intros e He. destruct (rl_documents _ _ L _ _ (book_row documentOf _ _ e (pt_evidence _ T) He)) as (d & (e' & [Hin Ei]%findById_Some & ->)%book_Some & E).
    exists e'. by split_and!.
Qed.

(** C19: a request succeeds exactly when it should.  On sound tables each of
    the seven requests on its own succeeds iff [passport_accepted] says so: an
    organization without a passport opens one; the holder states a storable
    value, citing evidence of that passport if any; evidence has dates that
    parse; a READY passport is verified by who may; a passport is read by who
    may; and the job always runs unless its key was used with other contents.
    A refused request leaves the database as it was, an accepted one leaves
    it sound. *)
Theorem passport_requests_exact (r : PassportReq) (db : Db) : passport_ok db ->
  (is_ok (snd (serve service r db)) = true <-> passport_accepted sha256_hex r db) /\
  (is_ok (snd (serve service r db)) = false -> fst (serve service r db) = db) /\
  passport_ok (fst (serve service r db)).
Proof.
  intros K. split_and!; [by apply serve_passport_iff| |by apply serve_keeps].
  unfold serve. destruct (h_pre service r db) as [p|]; [|done]. destruct (h_tx service r p db) as [[out db']|]; done.
Qed.

(** ** Verification *)

(** A reviewer asked for it and was answered. *)
Definition vouched (ans : list (Answer service)) (x : string) : Prop :=
  exists c i out, @answer service (VerifyPassport c x i) (Ok out) ∈ ans /\ is_reviewer (actor c).

Definition all_vouched (ans : list (Answer service)) (db : Db) : Prop := forall x, verified db x -> vouched ans x.

Lemma vouched_more ans a x : vouched ans x -> vouched (ans ++ [a]) x.
Proof. intros (c & i & out & Hin & Hc). exists c, i, out. split; [apply elem_of_app; by left|done]. Qed.

Lemma vouched_commit ans db r p out db' : passport_ok db -> passport_plan_ok r p db -> passport_tx sha256_hex r p db = Ok (out, db') ->
  all_vouched ans db -> all_vouched (ans ++ [@answer service r (Ok out)]) db'.
Proof.
  intros K J E Hv x Hx. destruct (is_verify r) eqn:Er.
  - destruct r as [| | |c y i| | |]; try done. cbn [passport_tx passport_plan_ok] in *. destruct J as (_ & _ & Ha).
    destruct (verify_verified c y i p db out db' x E Hx) as [->|Hold]; [|by apply vouched_more, Hv].
    exists c, i, out. split; [apply elem_of_app; right; left|by eapply verify_role].
  - apply vouched_more, Hv. by apply (tm_verified _ _ (passport_tx_tame sha256_hex r p db out db' K Er E)).
Qed.

(** C20: verification is never automatic.  Started from sound tables where no
    passport is VERIFIED, in every reachable state a VERIFIED passport owes it
    to a verification request that was answered with success, made by a
    platform owner, a marketplace operator or a compliance reviewer; and its
    last readiness has no blocker. *)
Theorem verified_by_a_reviewer (db : Db) (s : Config service) (p : PassportRow.t) : passport_ok db -> (forall x, ~ verified db x) -> reach db s ->
  p ∈ passports (store s) -> PassportRow.status p = Passport.VERIFIED ->
  vouched (answered s) (PassportRow.id p) /\
  exists r, lastResult (store s) (PassportRow.id p) = Some r /\ ReadinessResultRow.blockers r = [].
Proof.
  intros K0 Hn R Hp Hs. split.
  - assert (all_vouched (answered s) (store s)) as Hv; [|apply Hv; by exists p].
    apply (answers_reaches service passport_env anyone passport_ok passport_plan_ok) with (db := db); try done.
    + intros d r q _. apply passport_plan_pre.
    + intros d r q out d' K J E. by apply (passport_tx_keeps sha256_hex d r q out d' K J E).
    + apply passport_env_keeps.
    + apply passport_J_tx.
    + apply passport_J_env.
    + intros ans d r q out d' _ K J E. by apply (vouched_commit ans d r q out d' K J E).
    + intros ans d r e Hd x Hx. by apply vouched_more, Hd.
    + intros ans d d' _ Ev Hd x Hx. apply Hd. by apply (tm_verified _ _ (env_tame _ _ Ev)).
    + intros x Hx. by destruct (Hn x).
  - pose proof (passport_reach sha256_hex db s K0 R) as K. destruct (passport_stands _ p K Hp) as [r []]. exists r. split; [done|].
    apply ps_ready0. rewrite Hs. set_solver.
Qed.

(** C21: the JSON columns have their types.  Started from sound tables whose
    columns have them, in every reachable state: every stored fact value is
    JSON and not null; every stored blocker and warning is an object of
    exactly the three strings of ReadinessItemSchema, for a requirement of
    readiness.ts and with one of its four messages; and every score is one
    of the nine the eight requirements allow. *)
Theorem stored_json_typed (db : Db) (s : Config service) : passport_ok db -> typed db -> reach db s ->
  (forall f, f ∈ facts (store s) -> value_ok (FactRow.normalizedValue f)) /\
  (forall r, r ∈ readinessResults (store s) -> result_ok r).
Proof.
  intros K0 T0 R. assert (passport_ok (store s) /\ typed (store s)) as [[T _ _] [V W]].
  { apply (invariant_reaches service passport_env anyone (fun d => passport_ok d /\ typed d) passport_plan_ok) with (db := db); try done.
    - intros d r q _ [K _]. by apply passport_plan_pre.
    - intros d r q out d' [K Ty] J E. split; [by apply (passport_tx_keeps sha256_hex d r q out d' K J E)|exact (passport_tx_typed sha256_hex r q d out d' K E Ty)].
    - intros d d' [K Ty] Ev. split; [by eapply passport_env_keeps|by apply (tm_typed _ _ (env_tame _ _ Ev))].
    - intros d r q out d' r' q' [K _] J E. by apply (passport_J_tx sha256_hex d r q out d' r' q' K J E).
    - intros d d' r q [K _]. by apply passport_J_env. }
  split; [|by apply Forall_forall]. intros f Hf. exact (V _ _ (factBook_row _ f (pt_keys _ T) Hf)).
Qed.

(** ** The job and the service *)

Lemma engine_same l t reqs vs vs' res res' : computeReadiness l t vs reqs = Ok res -> computeReadiness l t vs' reqs = Ok res' ->
  score res = score res' /\ blockers res = blockers res' /\ warnings res = warnings res'.
Proof. unfold computeReadiness. destruct (throw_if _ _); cbn [rbind]; [|done]. by intros [= <-] [= <-]. Qed.

Lemma rated_last p now st db db' : rated p now st db db' -> exists res r, lastResult db' (PassportRow.id p) = Some r /\
  result_written (PassportRow.id p) now db res r /\
  computeReadiness (snapshots db (PassportRow.id p)) now (r_inputVersions res) requiredFacts = Ok res.
Proof.
  intros [_ _ _ (res & r & E & W & Ec & _) _ _]. exists res, r. split_and!; [|done..].
  rewrite (lastResult_snoc _ _ _ _ E), (rw_passport _ _ _ _ _ W), String.eqb_refl. done.
Qed.

Definition same_readiness (r r' : ReadinessResultRow.t) : Prop :=
  ReadinessResultRow.score r = ReadinessResultRow.score r' /\ ReadinessResultRow.blockers r = ReadinessResultRow.blockers r' /\
  ReadinessResultRow.warnings r = ReadinessResultRow.warnings r' /\ ReadinessResultRow.computedAt r = ReadinessResultRow.computedAt r'.

Lemma rated_same p now st st' db d1 d2 : passport_tables db -> p ∈ passports db -> rated p now st db d1 -> rated p now st' db d2 ->
  registry d1 = registry d2 /\ exists r r', lastResult d1 (PassportRow.id p) = Some r /\ lastResult d2 (PassportRow.id p) = Some r' /\ same_readiness r r'.
Proof.
  intros T Hp R1 R2. split.
  - destruct (rated_registry p now st db d1 T Hp R1) as (h1 & b1 & -> & H1 & B1 & _).
    destruct (rated_registry p now st' db d2 T Hp R2) as (h2 & b2 & -> & H2 & B2 & _).
    assert (h1 = h2) as -> by (apply eq_true_iff_eq; by rewrite H1, H2). assert (b1 = b2) as -> by (apply eq_true_iff_eq; by rewrite <- !not_false_iff_true, B1, B2). done.
  - destruct (rated_last _ _ _ _ _ R1) as (res & r & L1 & W1 & E1). destruct (rated_last _ _ _ _ _ R2) as (res' & r' & L2 & W2 & E2).
    destruct (engine_same _ _ _ _ _ _ _ E1 E2) as (Es & Eb & Ew). exists r, r'. split_and!; [done|done|].
    destruct W1, W2. unfold same_readiness. split_and!; congruence.
Qed.

(** What this run of the job goes by: the key of the passport, its status and
    the facts with their freshness at [t]. *)
Definition jobInfo (p : PassportRow.t) (t : Z) (db : Db) : JobIdempotencyInfo :=
  let l := fact_listByPassport db (PassportRow.id p) in
  readinessInfo p (map (fun f => jobFactVersion t f (mappedEvidence (evidenceMap db l) f)) l).

(** No result is stored under that key; a key that is only reserved does not
    count. *)
Definition unanswered (p : PassportRow.t) (t : Z) (db : Db) : Prop :=
  forall k, idempotency_find db (ji_scope (jobInfo p t db)) (ji_key (jobInfo p t db)) = Some k -> IdempotencyKeyRow.responseStatus k = None.

Lemma unanswered_runs p t db : passport_ok db -> passport_findById db (PassportRow.id p) = Some p -> unanswered p t db ->
  exists st d d2, recomputePassport sha256_hex (PassportRow.id p) t db = Ok (tt, d2) /\ rated p t st db d /\ aside d d2.
Proof.
  intros K Hp Hfree. assert (is_Some (passport_findById db (PassportRow.id p))) as Hs by (by exists p). unfold recomputePassport. rewrite Hp. cbv zeta. rewrite job_snapshots.
  set (l := fact_listByPassport db (PassportRow.id p)). set (vs := map _ l).
  destruct (body_through p vs (length l) t db (po_tables _ K) Hs) as (w & d & E). pose proof (body_rated _ _ _ _ _ _ E) as [st R].
  destruct (recordResult_through sha256_hex (jobInfo p t db) t w d) as (v & d2 & E2). exists st, d, d2. split_and!; [|done|by eapply recordResult_aside].
  assert (tbind (recomputeBody p (snapshots db (PassportRow.id p)) vs (length l) t) (recordResult sha256_hex (jobInfo p t db) t) db = Ok (v, d2)) as Run
    by (by rewrite (tbind_run _ _ _ _ _ E)).
  assert (withJobIdempotency sha256_hex (jobInfo p t db) t (recomputeBody p (snapshots db (PassportRow.id p)) vs (length l) t) db = Ok (v, d2)) as W.
  { unfold withJobIdempotency. destruct (idempotency_find _ _ _) as [k|] eqn:Hk; [rewrite (Hfree k Hk)|]; exact Run. }
  by rewrite (tbind_run _ _ _ _ _ W).
Qed.

Lemma answered_replays p t db k st : passport_findById db (PassportRow.id p) = Some p ->
  idempotency_find db (ji_scope (jobInfo p t db)) (ji_key (jobInfo p t db)) = Some k -> IdempotencyKeyRow.responseStatus k = Some st ->
  IdempotencyKeyRow.requestHash k = hashPayload sha256_hex (ji_requestPayload (jobInfo p t db)) ->
  recomputePassport sha256_hex (PassportRow.id p) t db = Ok (tt, db).
Proof.
  intros Hp Hk Hst Eh. unfold recomputePassport. rewrite Hp. cbv zeta. fold (jobInfo p t db). unfold tbind, withJobIdempotency.
  by rewrite Hk, Hst, Eh, String.eqb_refl.
Qed.

(** C22: the job computes what the API computes, once per key.  On sound
    tables, for a passport there is, the recompute of the service succeeds
    whoever calls it.  If no result is stored under the key of this run of the
    job (this passport, its status, and its facts with their freshness at that
    time), the job at the same time succeeds too, and both leave the same
    registry (the same status among it) and a last readiness with the same
    score, blockers, warnings and time.  If a result for the same payload is
    stored under it, the job reports success and changes nothing, whatever the
    status is now: stored keys are never too old, so a passport that ages a
    second time with the same facts is not recomputed
    ([second_ageing_is_final]). *)
Theorem readiness_job_agrees (db : Db) (x : string) (p : PassportRow.t) (t : Z) (user org : string) (ctx : RequestContext) :
  passport_ok db -> passport_findById db x = Some p ->
  exists r st d1, recomputeReadinessAndStatus p t user org ctx db = Ok ((r, st), d1) /\
    (unanswered p t db -> exists d2, recomputePassport sha256_hex x t db = Ok (tt, d2) /\ registry d1 = registry d2 /\
       exists r1 r2, lastResult d1 x = Some r1 /\ lastResult d2 x = Some r2 /\ same_readiness r1 r2) /\
    (forall k status, idempotency_find db (ji_scope (jobInfo p t db)) (ji_key (jobInfo p t db)) = Some k ->
       IdempotencyKeyRow.responseStatus k = Some status ->
       IdempotencyKeyRow.requestHash k = hashPayload sha256_hex (ji_requestPayload (jobInfo p t db)) ->
       recomputePassport sha256_hex x t db = Ok (tt, db)).
Proof.
  intros K Hp. pose proof Hp as [Hin Ei]%found_row. subst x. assert (is_Some (passport_findById db (PassportRow.id p))) as Hs by (by exists p).
  destruct (recompute_through p t user org ctx db (po_tables _ K) Hs) as ([r st] & d1 & E1). exists r, st, d1. split_and!; [done| |].
  - intros Hfree. destruct (unanswered_runs p t db K Hp Hfree) as (st2 & d & d2 & E2 & R2 & A). pose proof (recompute_rated _ _ _ _ _ _ _ _ _ E1) as R1.
    destruct (rated_same p t st st2 db d1 d (po_tables _ K) Hin R1 R2) as [Er (r1 & r2 & L1 & L2 & Same)]. exists d2. split_and!; [done|by rewrite (aside_registry _ _ A)|].
    exists r1, r2. by rewrite (aside_last _ _ _ A).
  - intros k status. by apply answered_replays.
Qed.

End Theorems.

(** ** Witnesses on the sample passport *)

Definition sampleRun : list PassportReq := samplePassport :: stating "id-0" 2000 ++ [sampleVerify "id-0" 3000].

Lemma sampleRun_reached : exists s, reaches samplePassports passport_env any_passport emptyDb s /\ store s = verifiedDb.
Proof.
  destruct (passports_reached sampleRun) as (s & R & E). exists s. split; [exact R|]. rewrite E. vm_compute. reflexivity.
Qed.

Lemma empty_unverified x : ~ verified emptyDb x.
Proof. by intros (p & Hp%elem_of_nil & _). Qed.

Lemma empty_typed : typed emptyDb.
Proof. split; [intros k v Hv; exact (False_ind _ (lookup_empty_Some _ _ Hv))|apply List.Forall_nil]. Qed.

Lemma passports_always_sound_witness : passport_ok verifiedDb /\ exists p r, p ∈ passports verifiedDb /\ PassportRow.status p = Passport.VERIFIED /\
  lastResult verifiedDb (PassportRow.id p) = Some r /\ ReadinessResultRow.blockers r = [].
Proof.
  destruct sampleRun_reached as (s & R & Es). destruct (passports_always_sound sampleSha emptyDb s emptyDb_passport_ok R) as (K & _ & F).
  rewrite Es in K, F. split; [exact K|].
  destruct (passports verifiedDb) as [|p l] eqn:Hp; [exfalso; vm_compute in Hp; discriminate Hp|].
  assert (PassportRow.status p = Passport.VERIFIED) as Hs by (vm_compute in Hp; injection Hp as <- _; reflexivity).
  destruct (F p ltac:(left)) as [r []]. exists p, r. split; [left|]. split; [exact Hs|]. split; [exact ps_last0|]. apply ps_ready0. rewrite Hs. set_solver.
Defined.

Lemma passports_refine_registry_witness : exists p p', p ∈ passports readyDb /\ p' ∈ passports verifiedDb /\
  PassportRow.organizationId p' = PassportRow.organizationId p /\ reachable (PassportRow.status p) (PassportRow.status p').
Proof.
  pose proof (serveAll_answers samplePassports passport_env any_passport (samplePassport :: stating "id-0" 2000) emptyDb (any_passports _)) as R.
  match type of R with reaches _ _ _ _ ?s => pose (s1 := s) end.
  assert (store s1 = readyDb) as Es by (vm_compute; reflexivity).
  pose proof (serveAll_steps samplePassports passport_env any_passport [sampleVerify "id-0" 3000] s1 (any_passports _) eq_refl) as R2.
  match type of R2 with rtc _ _ ?s => pose (s2 := s) end.
  assert (store s2 = verifiedDb) as Es2 by (vm_compute; reflexivity).
  destruct (passports_refine_registry sampleSha emptyDb s1 s2 emptyDb_passport_ok R R2) as (_ & F & _). rewrite Es, Es2 in F.
  destruct (passports readyDb) as [|p l] eqn:Hp; [exfalso; vm_compute in Hp; discriminate Hp|].
  destruct (F p ltac:(left)) as (p' & Hp' & _ & Eo & Hr). exists p, p'. split; [left|]. split; [exact Hp'|]. split; [exact Eo|exact Hr].
Defined.

Lemma passport_requests_exact_witness : is_ok (snd (serve samplePassports (sampleVerify "id-0" 3000) readyDb)) = true /\
  passport_accepted sampleSha (sampleVerify "id-0" 3000) readyDb.
Proof.
  assert (is_ok (snd (serve samplePassports (sampleVerify "id-0" 3000) readyDb)) = true) as Hok by (vm_compute; reflexivity).
  split; [exact Hok|]. exact (proj1 (proj1 (passport_requests_exact sampleSha (sampleVerify "id-0" 3000) readyDb readyDb_ok)) Hok).
Defined.

Lemma verified_by_a_reviewer_witness : exists p (s : Config samplePassports), p ∈ passports verifiedDb /\ store s = verifiedDb /\
  vouched sampleSha (answered s) (PassportRow.id p).
Proof.
  destruct sampleRun_reached as (s & R & Es).
  destruct (passports verifiedDb) as [|p l] eqn:Hp; [exfalso; vm_compute in Hp; discriminate Hp|].
  assert (PassportRow.status p = Passport.VERIFIED) as Hs by (vm_compute in Hp; injection Hp as <- _; reflexivity).
  assert (p ∈ passports (store s)) as Hin by (rewrite Es, Hp; left).
  exists p, s. split; [left|]. split; [exact Es|].
  exact (proj1 (verified_by_a_reviewer sampleSha emptyDb s p emptyDb_passport_ok empty_unverified R Hin Hs)).
Defined.

Lemma stored_json_typed_witness : length (readinessResults verifiedDb) = 7%nat /\ forall r, r ∈ readinessResults verifiedDb -> result_ok r.
Proof.
  destruct sampleRun_reached as (s & R & Es). split; [vm_compute; reflexivity|]. rewrite <- Es.
  exact (proj2 (stored_json_typed sampleSha emptyDb s emptyDb_passport_ok empty_typed R)).
Defined.

(** The first run of the job, and the same passport aged again, whose key is
    answered: it stays STALE. *)
Definition agedAgain : Db := Eval vm_compute in
  held (ReadPassport (reviewer 16000000000) "id-0") (serveAll samplePassports (aged "id-0" 8000000000) readyDb).

Definition ageRun : Z := 16000000000.

Lemma agedAgain_ok : passport_ok agedAgain.
Proof.
  destruct (passports_reached (samplePassport :: stating "id-0" 2000 ++ aged "id-0" 8000000000 ++ [ReadPassport (reviewer ageRun) "id-0"])) as (s & R & E).
  pose proof (passport_reach sampleSha emptyDb s emptyDb_passport_ok R) as K. rewrite E in K.
  assert (agedAgain = serveAll samplePassports (samplePassport :: stating "id-0" 2000 ++ aged "id-0" 8000000000 ++ [ReadPassport (reviewer ageRun) "id-0"]) emptyDb)
    as -> by (vm_compute; reflexivity). exact K.
Qed.

Definition storedAnswer (p : PassportRow.t) : option IdempotencyKeyRow.t :=
  idempotency_find agedAgain (ji_scope (jobInfo p ageRun agedAgain)) (ji_key (jobInfo p ageRun agedAgain)).

Lemma readiness_job_agrees_witness :
  (exists p d2, passport_findById readyDb "id-0" = Some p /\ recomputePassport sampleSha "id-0" 5000 readyDb = Ok (tt, d2) /\
     exists r st d1, recomputeReadinessAndStatus p 5000 "user" "merchant" (context (holderCall 5000)) readyDb = Ok ((r, st), d1) /\ registry d1 = registry d2) /\
  statuses agedAgain = [Passport.STALE] /\ recomputePassport sampleSha "id-0" ageRun agedAgain = Ok (tt, agedAgain).
Proof.
  split; [|split; [vm_compute; reflexivity|]].
  - assert (forall p, unanswered p 5000 readyDb) as Hu by (intros p k Hk; discriminate Hk).
    destruct (passport_findById readyDb "id-0") as [p|] eqn:Hp; [|exfalso; vm_compute in Hp; discriminate Hp].
    destruct (readiness_job_agrees sampleSha readyDb "id-0" p 5000 "user" "merchant" (context (holderCall 5000)) readyDb_ok Hp)
      as (r & st & d1 & E1 & Agree & _). destruct (Agree (Hu p)) as (d2 & E2 & E3 & _).
    exists p, d2. split; [reflexivity|]. split; [exact E2|]. exists r, st, d1. split; [exact E1|exact E3].
  - destruct (passport_findById agedAgain "id-0") as [p|] eqn:Hp; [|exfalso; vm_compute in Hp; discriminate Hp].
    destruct (readiness_job_agrees sampleSha agedAgain "id-0" p ageRun "user" "merchant" (context (holderCall ageRun)) agedAgain_ok Hp)
      as (_ & _ & _ & _ & _ & Replay).
    destruct (storedAnswer p) as [k|] eqn:Hk; [|exfalso; vm_compute in Hp; injection Hp as <-; vm_compute in Hk; discriminate Hk].
    destruct (IdempotencyKeyRow.responseStatus k) as [status|] eqn:Hst;
      [|exfalso; vm_compute in Hp; injection Hp as <-; vm_compute in Hk; injection Hk as <-; vm_compute in Hst; discriminate Hst].
    apply (Replay k status Hk Hst). vm_compute in Hp. injection Hp as <-. vm_compute in Hk. injection Hk as <-. vm_compute. reflexivity.
Defined.
