(* ===== verification/IdentityRepositories.v ===== *)
(** * packages/db: the repositories of users, memberships and sessions

    user, membership and session .repository.ts.  An email, a session's token
    hash and a membership's organization, user and role are unique (P2002);
    a membership's user must exist (P2003; the service has read its
    organization).
    [new Date()] in a repository is an argument. *)
From S2P Require Import Prelude StableSort Money DomainStates AuthzMatrix JsonText Database ApiShared LockboxRepositories.
From Stdlib Require Import Ascii.

(** ** userRepository *)

Definition ascii_lower (c : ascii) : ascii :=
  let n := N_of_ascii c in if ((65 <=? n) && (n <=? 90))%N then ascii_of_N (n + 32) else c.

Fixpoint map_string (f : ascii -> ascii) (s : string) : string :=
  match s with EmptyString => EmptyString | String c s' => String (f c) (map_string f s') end.

(** [email.trim().toLowerCase()]; an email that passes [.email()] is ASCII. *)
Definition canonicalEmail (email : string) : string :=
  map_string ascii_lower (String.string_of_list_ascii (trim (String.list_ascii_of_string email))).

Definition user_findByEmail (db : Db) (email : string) : option UserRow.t :=
  findUnique (fun u => String.eqb (UserRow.email u) (canonicalEmail email)) (users db).

Definition loggedIn (t : Z) (u : UserRow.t) : UserRow.t :=
  {| UserRow.id := UserRow.id u; UserRow.email := UserRow.email u; UserRow.passwordHash := UserRow.passwordHash u;
     UserRow.status := UserRow.status u; UserRow.mfaEnabled := UserRow.mfaEnabled u; UserRow.lastLoginAt := Some t; UserRow.base := UserRow.base u |}.

Definition user_recordLogin (x : string) (t : Z) : Tx UserRow.t :=
  fun db => let! (row, tab) := updateById x (loggedIn t) (users db) in Ok (row, set_users tab db).

(** ** membershipRepository *)

Record CreateMembershipInput : Type := {
  cm_organizationId : string;
  cm_userId : string;
  cm_role : Roles.PersonaRole;
  cm_status : MembershipStatus.t;
  cm_invitationSource : option string;
  cm_createdByUserId : option string;
  cm_createdByOrgId : option string
}.

Definition membership_findById (db : Db) (x : string) : option MembershipRow.t := findById (organizationMemberships db) x.

(** [status: "ACTIVE"] and not past [effectiveTo] *)
Definition in_effect (t : Z) (m : MembershipRow.t) : bool :=
  bool_decide (MembershipRow.status m = MembershipStatus.ACTIVE) &&
  match MembershipRow.effectiveTo m with None => true | Some e => (t <? e)%Z end.

Definition membership_findActiveByUserAndOrg (db : Db) (userId organizationId : string) (t : Z) : option MembershipRow.t :=
  head (findMany (desc MembershipRow.effectiveFrom)
    (fun m => String.eqb (MembershipRow.userId m) userId && String.eqb (MembershipRow.organizationId m) organizationId && in_effect t m)
    (organizationMemberships db)).

Definition holds (userId organizationId : string) (role : Roles.PersonaRole) (m : MembershipRow.t) : bool :=
  String.eqb (MembershipRow.organizationId m) organizationId && String.eqb (MembershipRow.userId m) userId && bool_decide (MembershipRow.role m = role).

Definition membership_findByUserOrgRole (db : Db) (userId organizationId : string) (role : Roles.PersonaRole) : option MembershipRow.t :=
  findUnique (holds userId organizationId role) (organizationMemberships db).

Definition membership_listByUser (db : Db) (userId : string) : list MembershipRow.t :=
  findMany (asc MembershipRow.effectiveFrom)
    (fun m => String.eqb (MembershipRow.userId m) userId && bool_decide (MembershipRow.status m ∈ [MembershipStatus.ACTIVE; MembershipStatus.INVITED]))
    (organizationMemberships db).

Definition membership_listByOrganization (db : Db) (organizationId : string) : list MembershipRow.t :=
  findMany (asc MembershipRow.effectiveFrom)
    (fun m => String.eqb (MembershipRow.organizationId m) organizationId &&
              bool_decide (MembershipRow.status m ∈ [MembershipStatus.ACTIVE; MembershipStatus.INVITED; MembershipStatus.SUSPENDED]))
    (organizationMemberships db).

(** The columns [updateStatus] and [reactivate] write. *)
Definition membershipWith (st : MembershipStatus.t) (source : option string) (from : Z) (to retired : option Z) (user : option string)
    (m : MembershipRow.t) : MembershipRow.t :=
  {| MembershipRow.id := MembershipRow.id m; MembershipRow.organizationId := MembershipRow.organizationId m; MembershipRow.userId := MembershipRow.userId m;
     MembershipRow.role := MembershipRow.role m; MembershipRow.status := st; MembershipRow.invitationSource := source; MembershipRow.effectiveFrom := from;
     MembershipRow.effectiveTo := to; MembershipRow.retiredAt := retired; MembershipRow.base := touch (MembershipRow.base m) user |}.

Definition withStatus (st : MembershipStatus.t) (user : option string) (t : Z) (m : MembershipRow.t) : MembershipRow.t :=
  let closed := if bool_decide (st = MembershipStatus.REVOKED) then Some t else None in
  membershipWith st (MembershipRow.invitationSource m) (MembershipRow.effectiveFrom m) closed closed user m.

Definition membership_updateStatus (x : string) (st : MembershipStatus.t) (user : option string) (t : Z) : Tx MembershipRow.t :=
  fun db => let! (row, tab) := updateById x (withStatus st user t) (organizationMemberships db) in Ok (row, set_organizationMemberships tab db).

Definition reactivated (st : MembershipStatus.t) (source user : option string) (t : Z) (m : MembershipRow.t) : MembershipRow.t :=
  membershipWith st source t None None user m.

Definition membership_reactivate (x : string) (st : MembershipStatus.t) (source user : option string) (t : Z) : Tx MembershipRow.t :=
  fun db => let! (row, tab) := updateById x (reactivated st source user t) (organizationMemberships db) in Ok (row, set_organizationMemberships tab db).

(** ** sessionRepository *)

Record CreateSessionInput : Type := {
  cs_userId : string;
  cs_tokenHash : string;
  cs_activeMembershipId : option string;
  cs_expiresAt : Z;
  cs_ipClass : option string;
  cs_userAgentClass : option string
}.

Record SessionWithContext : Type := { sc_session : SessionRow.t; sc_user : UserRow.t; sc_activeMembership : option MembershipRow.t }.

(** A session's user and membership are foreign keys: the rows are there. *)
Definition session_findByTokenHash (db : Db) (tokenHash : string) : option SessionWithContext :=
  s ← findUnique (fun s => String.eqb (SessionRow.tokenHash s) tokenHash) (sessions db);
  u ← findById (users db) (SessionRow.userId s);
  Some {| sc_session := s; sc_user := u; sc_activeMembership := SessionRow.activeMembershipId s ≫= membership_findById db |}.

Definition sessionWith (m : option string) (revoked seen : option Z) (s : SessionRow.t) : SessionRow.t :=
  {| SessionRow.id := SessionRow.id s; SessionRow.userId := SessionRow.userId s; SessionRow.tokenHash := SessionRow.tokenHash s;
     SessionRow.activeMembershipId := m; SessionRow.createdAt := SessionRow.createdAt s; SessionRow.expiresAt := SessionRow.expiresAt s;
     SessionRow.revokedAt := revoked; SessionRow.lastSeenAt := seen; SessionRow.ipClass := SessionRow.ipClass s;
     SessionRow.userAgentClass := SessionRow.userAgentClass s |}.

Definition session_update (x : string) (f : SessionRow.t -> SessionRow.t) : Tx SessionRow.t :=
  fun db => let! (row, tab) := updateById x f (sessions db) in Ok (row, set_sessions tab db).

Definition seen (t : Z) (s : SessionRow.t) : SessionRow.t := sessionWith (SessionRow.activeMembershipId s) (SessionRow.revokedAt s) (Some t) s.
Definition switched (m : string) (s : SessionRow.t) : SessionRow.t := sessionWith (Some m) (SessionRow.revokedAt s) (SessionRow.lastSeenAt s) s.
Definition revoked (t : Z) (s : SessionRow.t) : SessionRow.t := sessionWith (SessionRow.activeMembershipId s) (Some t) (SessionRow.lastSeenAt s) s.

Definition session_touchLastSeen (x : string) (t : Z) : Tx SessionRow.t := session_update x (seen t).
Definition session_updateActiveMembership (x m : string) : Tx SessionRow.t := session_update x (switched m).
Definition session_revoke (x : string) (t : Z) : Tx SessionRow.t := session_update x (revoked t).

(** [where: { userId, revokedAt: null }] *)
Definition live_of (userId : string) (s : SessionRow.t) : bool :=
  String.eqb (SessionRow.userId s) userId && match SessionRow.revokedAt s with None => true | Some _ => false end.

Definition session_revokeAllForUser (userId : string) (t : Z) : Tx nat :=
  fun db => Ok (length (List.filter (live_of userId) (sessions db)),
                set_sessions (map (fun s => if live_of userId s then revoked t s else s) (sessions db)) db).

Section Identity.
Context `{Platform}.

Definition membership_create (i : CreateMembershipInput) (t : Z) : Tx MembershipRow.t :=
  let* x := freshId in
  fun db =>
    match membership_findByUserOrgRole db (cm_userId i) (cm_organizationId i) (cm_role i) with
    | Some _ => Throw (PrismaKnownRequestError "P2002")
    | None =>
        do! throw_if (bool_decide (findById (users db) (cm_userId i) = None)) (PrismaKnownRequestError "P2003");
        let row := {| MembershipRow.id := x; MembershipRow.organizationId := cm_organizationId i; MembershipRow.userId := cm_userId i;
          MembershipRow.role := cm_role i; MembershipRow.status := cm_status i; MembershipRow.invitationSource := cm_invitationSource i;
          MembershipRow.effectiveFrom := t; MembershipRow.effectiveTo := None; MembershipRow.retiredAt := None;
          MembershipRow.base := newBase (cm_createdByUserId i) (cm_createdByOrgId i) Roles.RESTRICTED db |} in
        Ok (row, set_organizationMemberships (organizationMemberships db ++ [row]) db)
    end.

Definition session_create (i : CreateSessionInput) : Tx SessionRow.t :=
  let* x := freshId in
  fun db =>
    match findUnique (fun s => String.eqb (SessionRow.tokenHash s) (cs_tokenHash i)) (sessions db) with
    | Some _ => Throw (PrismaKnownRequestError "P2002")
    | None =>
        let row := {| SessionRow.id := x; SessionRow.userId := cs_userId i; SessionRow.tokenHash := cs_tokenHash i;
          SessionRow.activeMembershipId := cs_activeMembershipId i; SessionRow.createdAt := clock db; SessionRow.expiresAt := cs_expiresAt i;
          SessionRow.revokedAt := None; SessionRow.lastSeenAt := None; SessionRow.ipClass := cs_ipClass i;
          SessionRow.userAgentClass := cs_userAgentClass i |} in
        Ok (row, set_sessions (sessions db ++ [row]) db)
    end.

End Identity.
