(* ===== verification/IdentityService.v ===== *)
(** * Sign-in, sessions and memberships

    apps/api/src/plugins/auth.ts, shared/session.ts, modules/auth and
    modules/memberships.  Every request carries a session cookie; the plugin
    makes an [Actor] of it, and that actor is what the services ask [can]
    about.  bcrypt's comparison and the HMAC of a token are parameters.  The
    auth service runs outside a transaction: its statements are one step here,
    for none of them reads what another request of the step writes.  The
    membership service looks for an earlier membership of the same user and
    role inside its transaction and without a lock; what it found is an
    argument of the writes ([invite], [regrant]). *)
From S2P Require Import Prelude StableSort DomainStates AuthzMatrix Authz JsonText Database ApiShared LockboxRepositories RfqService IdentityRepositories.
Import Roles Actions.
#[local] Open Scope Z_scope.

Definition SESSION_TTL_MS : Z := 24 * 60 * 60 * 1000.

Definition sessionExpiryFromNow (now : Z) : Z := now + SESSION_TTL_MS.

(** [timingSafeEqual] of two buffers of one length is equality. *)
Definition csrfTokensMatch (a b : option string) : bool :=
  when_present a (fun a => when_present b (String.eqb a) false) false.

Definition MUTATING_METHODS : list string := ["POST"; "PATCH"; "PUT"; "DELETE"].

Definition requireCsrf (method : string) (sessionCookie csrfCookie csrfHeader : option string) : res unit :=
  if negb (bool_decide (method ∈ MUTATING_METHODS)) then Ok tt
  else if negb (present sessionCookie) then Ok tt
  else throw_if (negb (csrfTokensMatch csrfCookie csrfHeader))
         (ProblemError 403 "csrf_check_failed" "Missing or mismatched CSRF token for a cookie-authenticated mutation." false).

(** What the plugin hangs on the request: [sessionId], [authUser], [actor]. *)
Record Visitor : Type := { vi_sessionId : string; vi_user : UserRow.t; vi_actor : Actor }.

(** The cookie, the request's context and its time. *)
Record Cookie : Type := { ck_token : option string; ck_context : RequestContext; ck_now : Z }.

Section Service.
Context `{Platform} (verifyPassword : string -> string -> bool) (hashSessionToken : string -> string).

(** ** plugins/auth.ts *)

(** A membership counts only while it is ACTIVE. *)
Definition activeMembership (s : SessionWithContext) : option MembershipRow.t :=
  match sc_activeMembership s with
  | Some m => if bool_decide (MembershipRow.status m = MembershipStatus.ACTIVE) then Some m else None
  | None => None
  end.

Definition actorOf (s : SessionWithContext) : Actor :=
  let membership := activeMembership s in
  {| userId := UserRow.id (sc_user s); organizationId := MembershipRow.organizationId <$> membership;
     role := MembershipRow.role <$> membership; membershipId := MembershipRow.id <$> membership |}.

Definition resolveVisitor (k : Cookie) (db : Db) : option Visitor :=
  when_present (ck_token k)
    (fun rawToken =>
       match session_findByTokenHash db (hashSessionToken rawToken) with
       | None => None
       | Some s =>
           match SessionRow.revokedAt (sc_session s) with
           | Some _ => None
           | None =>
               if SessionRow.expiresAt (sc_session s) <=? ck_now k then None
               else Some {| vi_sessionId := SessionRow.id (sc_session s); vi_user := sc_user s; vi_actor := actorOf s |}
           end
       end) None.

(** The onRequest hook, which also notes when the session was last seen. *)
Definition onRequest_touch (k : Cookie) (v : option Visitor) : Tx (option Visitor) :=
  match v with
  | None => tret None
  | Some v => do* session_touchLastSeen (vi_sessionId v) (ck_now k); tret (Some v)
  end.

Definition onRequest (k : Cookie) : Tx (option Visitor) := fun db => onRequest_touch k (resolveVisitor k db) db.

Definition requireAuth (k : Cookie) (db : Db) : res Visitor :=
  match resolveVisitor k db with Some v => Ok v | None => Throw (unauthorized "Authentication required") end.

Definition callOf (k : Cookie) (v : Visitor) : Call := {| actor := vi_actor v; context := ck_context k; now := ck_now k |}.

(** ** authService *)

Definition INVALID_CREDENTIALS : string := "Invalid email or password.".

Record LoginPlan : Type := { lp_user : UserRow.t; lp_memberships : list MembershipRow.t; lp_active : option MembershipRow.t }.

Record LoginResult : Type := {
  lr_user : UserRow.t; lr_session : SessionRow.t; lr_rawToken : string;
  lr_memberships : list MembershipRow.t; lr_activeMembership : option MembershipRow.t
}.

Definition is_active_member (m : MembershipRow.t) : bool := bool_decide (MembershipRow.status m = MembershipStatus.ACTIVE).

Definition login_pre (email password : string) (db : Db) : res LoginPlan :=
  match user_findByEmail db email with
  | None => Throw (unauthorized INVALID_CREDENTIALS)
  | Some user =>
      do! throw_if (negb (verifyPassword password (UserRow.passwordHash user))) (unauthorized INVALID_CREDENTIALS);
      do! match UserRow.status user with
          | UserStatus.ACTIVE => Ok tt
          | _ => Throw (unauthorized "This account is not active. Contact your organization administrator.")
          end;
      let memberships := membership_listByUser db (UserRow.id user) in
      Ok {| lp_user := user; lp_memberships := memberships; lp_active := List.find is_active_member memberships |}
  end.

(** The journal entry of a change to the user's own sign-in. *)
Definition auth_audit (user action : string) (m : option MembershipRow.t) : AuditWriteInput :=
  {| a_actorUserId := Some user; a_actorOrgId := MembershipRow.organizationId <$> m; a_actorRole := MembershipRow.role <$> m;
     a_subjectOrgId := MembershipRow.organizationId <$> m; a_action := action; a_resourceType := "user"; a_resourceId := Some user;
     a_beforeValue := None; a_afterValue := None; a_reason := None |}.

(** [rawToken] is what [generateSessionToken] drew. *)
Definition login_tx (rawToken : string) (ctx : RequestContext) (t : Z) (p : LoginPlan) : Tx LoginResult :=
  let user := lp_user p in
  let* session := session_create {| cs_userId := UserRow.id user; cs_tokenHash := hashSessionToken rawToken;
    cs_activeMembershipId := MembershipRow.id <$> lp_active p; cs_expiresAt := sessionExpiryFromNow t;
    cs_ipClass := Some (ipClass ctx); cs_userAgentClass := Some (userAgentClass ctx) |} in
  do* user_recordLogin (UserRow.id user) t;
  do* auditWriter ctx (auth_audit (UserRow.id user) "auth.login" (lp_active p));
  tret {| lr_user := user; lr_session := session; lr_rawToken := rawToken; lr_memberships := lp_memberships p; lr_activeMembership := lp_active p |}.

Definition logout_tx (k : Cookie) (v : Visitor) : Tx unit :=
  do* session_revoke (vi_sessionId v) (ck_now k);
  do* auditWriter (ck_context k) (auth_audit (UserRow.id (vi_user v)) "auth.logout" None);
  tret tt.

Record SwitchPlan : Type := { sp_visitor : Visitor; sp_membership : MembershipRow.t }.

Definition switchOrg_pre (k : Cookie) (org : string) (db : Db) : res SwitchPlan :=
  let! v := requireAuth k db in
  match membership_findActiveByUserAndOrg db (UserRow.id (vi_user v)) org (ck_now k) with
  | None => Throw (forbidden "You do not have an active membership in that organization.")
  | Some m => Ok {| sp_visitor := v; sp_membership := m |}
  end.

(** The membership, read again after the writes: they stand whether or not it
    is found. *)
Definition switchOrg_tx (k : Cookie) (org : string) (p : SwitchPlan) : Tx (option MembershipRow.t) :=
  let user := UserRow.id (vi_user (sp_visitor p)) in
  let m := sp_membership p in
  do* session_updateActiveMembership (vi_sessionId (sp_visitor p)) (MembershipRow.id m);
  do* auditWriter (ck_context k)
        {| a_actorUserId := Some user; a_actorOrgId := Some org; a_actorRole := Some (MembershipRow.role m); a_subjectOrgId := Some org;
           a_action := "auth.switch_org"; a_resourceType := "user"; a_resourceId := Some user;
           a_beforeValue := None; a_afterValue := None; a_reason := None |};
  let* memberships := treads (fun db => membership_listByUser db user) in
  tret (List.find (fun x => String.eqb (MembershipRow.id x) (MembershipRow.id m)) memberships).

Definition switchOrg_finish (out : option MembershipRow.t) : res MembershipRow.t :=
  match out with
  | Some m => Ok m
  | None => Throw (internal "Membership vanished between lookup and refetch — this should be unreachable.")
  end.

(** ** auth/routes.ts: what the client is told about its session *)

Record SessionResponse : Type := {
  sr_userId : string; sr_email : string;
  sr_activeMembershipId : option string; sr_activeOrganizationId : option string; sr_activeRole : option PersonaRole;
  sr_memberships : list MembershipRow.t
}.

Definition toSessionResponse (user : UserRow.t) (memberships : list MembershipRow.t) (activeMembershipId : option string) : SessionResponse :=
  let active := List.find (fun m => bool_decide (Some (MembershipRow.id m) = activeMembershipId)) memberships in
  {| sr_userId := UserRow.id user; sr_email := UserRow.email user; sr_activeMembershipId := MembershipRow.id <$> active;
     sr_activeOrganizationId := MembershipRow.organizationId <$> active; sr_activeRole := MembershipRow.role <$> active;
     sr_memberships := memberships |}.

(** GET /auth/session *)
Definition get_session (v : Visitor) (db : Db) : SessionResponse :=
  toSessionResponse (vi_user v) (membership_listByUser db (UserRow.id (vi_user v))) (membershipId (vi_actor v)).

(** POST /auth/switch-org, after the switch *)
Definition switched_session (v : Visitor) (org : string) (db : Db) : SessionResponse :=
  let memberships := membership_listByUser db (UserRow.id (vi_user v)) in
  let active := List.find (fun m => String.eqb (MembershipRow.organizationId m) org) memberships in
  toSessionResponse (vi_user v) memberships (MembershipRow.id <$> active).

(** ** membershipsService *)

Definition membershipResource (m : MembershipRow.t) : Resource :=
  resourceOf ResourceType.membership (MembershipRow.id m) (Some (MembershipRow.organizationId m)).

Definition membershipsService_list (a : Actor) (org : string) (db : Db) : res (list MembershipRow.t) :=
  do! require (can a membership_list (resource ResourceType.membership (Some org)) noContext);
  Ok (membership_listByOrganization db org).

Record CreateMembershipRequest : Type := { mr_userId : string; mr_role : PersonaRole; mr_invitationSource : option string }.

Definition createMembership_pre (c : Call) (org : string) (db : Db) : res unit :=
  do! require (can (actor c) Actions.membership_create (resource ResourceType.membership (Some org)) noContext);
  match organization_findById db org with
  | None => Throw (notFound "Organization not found.")
  | Some _ => Ok tt
  end.

Definition membership_audit (c : Call) (org action x : string) (before after : option Json) (why : option string) : AuditWriteInput :=
  {| a_actorUserId := Some (userId (actor c)); a_actorOrgId := organizationId (actor c); a_actorRole := role (actor c);
     a_subjectOrgId := Some org; a_action := action; a_resourceType := "membership"; a_resourceId := Some x;
     a_beforeValue := before; a_afterValue := after; a_reason := why |}.

(** [findByUserOrgRole] in the transaction of an invitation.  No lock is held:
    what it saw may have changed when the writes below are done. *)
Definition invite_prior (org : string) (input : CreateMembershipRequest) (db : Db) : option MembershipRow.t :=
  membership_findByUserOrgRole db (mr_userId input) org (mr_role input).

Definition invite_input (c : Call) (org : string) (input : CreateMembershipRequest) : CreateMembershipInput :=
  {| cm_organizationId := org; cm_userId := mr_userId input; cm_role := mr_role input; cm_status := MembershipStatus.INVITED;
     cm_invitationSource := mr_invitationSource input; cm_createdByUserId := Some (userId (actor c)); cm_createdByOrgId := organizationId (actor c) |}.

(** The row an invitation leaves, and the name of what was done, given the row
    it found. *)
Definition invite (c : Call) (org : string) (input : CreateMembershipRequest) (existing : option MembershipRow.t) : Tx (MembershipRow.t * string) :=
  match existing with
  | Some existing =>
      if bool_decide (MembershipRow.status existing = MembershipStatus.REVOKED) then
        let* m := membership_reactivate (MembershipRow.id existing) MembershipStatus.INVITED (mr_invitationSource input) (Some (userId (actor c))) (now c) in
        tret (m, "membership.reactivated")
      else tlift (Throw (conflict ("A membership already exists for this user/role in this organization (status: "
                             +:+ MembershipStatus.name (MembershipRow.status existing) +:+ ").") false))
  | None =>
      let* m := IdentityRepositories.membership_create (invite_input c org input) (now c) in
      tret (m, "membership.created")
  end.

Definition createMembership_tx (c : Call) (org : string) (input : CreateMembershipRequest) (existing : option MembershipRow.t) : Tx MembershipRow.t :=
  uniqueSafe
    (let* (m, action) := invite c org input existing in
     do* auditWriter (context c) (membership_audit c org action (MembershipRow.id m) None
           (Some (JObj [("role", JStr (PersonaRole_name (MembershipRow.role m))); ("status", JStr (MembershipStatus.name (MembershipRow.status m)));
                        ("userId", JStr (MembershipRow.userId m))])) None);
     tret m)
    "A membership already exists for this user/role in this organization (created concurrently).".

(** Load the membership and ask [can] about it. *)
Definition authorizedMembership (a : Actor) (action : Action) (x : string) (db : Db) : res MembershipRow.t :=
  match membership_findById db x with
  | None => Throw (notFound "Membership not found.")
  | Some existing => do! require (can a action (membershipResource existing) noContext); Ok existing
  end.

Definition updateStatus_tx (c : Call) (x : string) (status : MembershipStatus.t) (existing : MembershipRow.t) : Tx MembershipRow.t :=
  let* updated := membership_updateStatus x status (Some (userId (actor c))) (now c) in
  do* (if bool_decide (status = MembershipStatus.ACTIVE) then tret tt
       else do* session_revokeAllForUser (MembershipRow.userId existing) (now c); tret tt);
  let was := MembershipStatus.name (MembershipRow.status existing) in
  do* auditWriter (context c) (membership_audit c (MembershipRow.organizationId existing) "membership.status_changed" x
        (Some (JObj [("status", JStr was)])) (Some (JObj [("status", JStr (MembershipStatus.name (MembershipRow.status updated)))]))
        (Some ("status: " +:+ was +:+ " -> " +:+ MembershipStatus.name status)));
  tret updated.

Definition updateRole_pre (c : Call) (x : string) (newRole : PersonaRole) (db : Db) : res MembershipRow.t :=
  let! existing := authorizedMembership (actor c) membership_update_role x db in
  do! throw_if (bool_decide (MembershipRow.role existing = newRole)) (badRequest "New role is the same as the current role.");
  Ok existing.

(** The row of the new role: the revoked one again, or a new one. *)
Definition regrant_source (existing : MembershipRow.t) : option string := Some ("role-change-from:" +:+ MembershipRow.id existing).

Definition regrant_input (c : Call) (existing : MembershipRow.t) (newRole : PersonaRole) : CreateMembershipInput :=
  {| cm_organizationId := MembershipRow.organizationId existing; cm_userId := MembershipRow.userId existing; cm_role := newRole;
     cm_status := MembershipStatus.ACTIVE; cm_invitationSource := regrant_source existing; cm_createdByUserId := Some (userId (actor c));
     cm_createdByOrgId := organizationId (actor c) |}.

(** [priorAtNewRole], found in the transaction without a lock. *)
Definition regrant_prior (newRole : PersonaRole) (existing : MembershipRow.t) (db : Db) : option MembershipRow.t :=
  membership_findByUserOrgRole db (MembershipRow.userId existing) (MembershipRow.organizationId existing) newRole.

Definition regrant (c : Call) (existing : MembershipRow.t) (newRole : PersonaRole) (prior : option MembershipRow.t) : Tx MembershipRow.t :=
  match prior with
  | Some prior =>
      if bool_decide (MembershipRow.status prior = MembershipStatus.REVOKED)
      then membership_reactivate (MembershipRow.id prior) MembershipStatus.ACTIVE (regrant_source existing) (Some (userId (actor c))) (now c)
      else IdentityRepositories.membership_create (regrant_input c existing newRole) (now c)
  | None => IdentityRepositories.membership_create (regrant_input c existing newRole) (now c)
  end.

Definition roleJson (m : MembershipRow.t) : Json :=
  JObj [("role", JStr (PersonaRole_name (MembershipRow.role m))); ("membershipId", JStr (MembershipRow.id m))].

Definition updateRole_tx (c : Call) (newRole : PersonaRole) (existing : MembershipRow.t) (prior : option MembershipRow.t) : Tx MembershipRow.t :=
  uniqueSafe
    (do* membership_updateStatus (MembershipRow.id existing) MembershipStatus.REVOKED (Some (userId (actor c))) (now c);
     do* session_revokeAllForUser (MembershipRow.userId existing) (now c);
     let* next := regrant c existing newRole prior in
     do* auditWriter (context c) (membership_audit c (MembershipRow.organizationId existing) "membership.role_changed" (MembershipRow.id next)
           (Some (roleJson existing)) (Some (roleJson next))
           (Some ("role: " +:+ PersonaRole_name (MembershipRow.role existing) +:+ " -> " +:+ PersonaRole_name newRole)));
     tret next)
    (quoted ["A membership already exists at role "; PersonaRole_name newRole; " for this user in this organization (created concurrently)."]).

End Service.
