(* ===== verification/IdentityBook.v ===== *)
(** * Sign-in and memberships: the abstract roster and the tables

    The roster and its steps, without tables; then the roster the membership
    and session tables hold and what each repository call does to it. *)
From S2P Require Import Prelude AuthzMatrix Database Tables StableSort DomainStates Authz JsonText ApiShared Idempotency LockboxRepositories RfqService.
From S2P Require Import IdentityRepositories IdentityService.
From stdpp Require Import relations.
From Stdlib Require Import Sorted.
#[local] Open Scope Z_scope.

(** ** What sign-in and memberships promise

    The roster without tables: who is a member of which organization in which
    role and standing, and which sittings (sessions) are open for whom.
    [roster_step] is one act of the auth and membership services; a standing
    other than ACTIVE that the operator sets closes every sitting of the user
    in the same act, an invitation closes none. *)

Record Member : Type := { mb_user : string; mb_org : string; mb_role : Roles.PersonaRole; mb_status : MembershipStatus.t }.
Record Sitting : Type := { st_user : string; st_token : string; st_member : option string; st_open : bool }.
Record Roster : Type := { members : gmap string Member; sittings : gmap string Sitting }.

(** One membership per user, organization and role; one sitting per token. *)
Definition seat_key (m : Member) : option (string * string * Roles.PersonaRole) := Some (mb_user m, mb_org m, mb_role m).
Definition token_key (v : Sitting) : option string := Some (st_token v).

Definition standing_of (st : MembershipStatus.t) (m : Member) : Member :=
  {| mb_user := mb_user m; mb_org := mb_org m; mb_role := mb_role m; mb_status := st |}.

Definition closed (v : Sitting) : Sitting := {| st_user := st_user v; st_token := st_token v; st_member := st_member v; st_open := false |}.
Definition pointed (y : string) (v : Sitting) : Sitting :=
  {| st_user := st_user v; st_token := st_token v; st_member := Some y; st_open := st_open v |}.
Definition close (u : string) (v : Sitting) : Sitting := if String.eqb (st_user v) u then closed v else v.

Definition enrol (x : string) (m : Member) (g : Roster) : Roster := {| members := <[x := m]> (members g); sittings := sittings g |}.
Definition seat (s : string) (v : Sitting) (g : Roster) : Roster := {| members := members g; sittings := <[s := v]> (sittings g) |}.
Definition shut (u : string) (g : Roster) : Roster := {| members := members g; sittings := close u <$> sittings g |}.

(** The membership a sitting acts under belongs to its user. *)
Definition own_member (g : Roster) (v : Sitting) : Prop :=
  forall y, st_member v = Some y -> exists m, members g !! y = Some m /\ mb_user m = st_user v.

(** The place of a membership to be granted: unused, or one of the same seat.
    The services take the latter only if they saw it revoked; they hold no
    lock, so by the time they write it may have any standing. *)
Definition open_seat (g : Roster) (y : string) (m : Member) : Prop :=
  (members g !! y = None /\ forall k, seat_key m = Some k -> free seat_key (members g) k) \/
  (exists old, members g !! y = Some old /\ seat_key m = seat_key old).

Inductive roster_step : Roster -> Roster -> Prop :=
| step_invite g y m :
    open_seat g y m -> mb_status m = MembershipStatus.INVITED -> roster_step g (enrol y m g)
| step_activate g x m :
    members g !! x = Some m -> roster_step g (enrol x (standing_of MembershipStatus.ACTIVE m) g)
| step_lower g x m st :
    members g !! x = Some m -> st <> MembershipStatus.ACTIVE -> roster_step g (shut (mb_user m) (enrol x (standing_of st m) g))
| step_regrant g x m y n :
    members g !! x = Some m -> mb_user n = mb_user m -> mb_org n = mb_org m -> mb_role n <> mb_role m -> mb_status n = MembershipStatus.ACTIVE ->
    open_seat g y n ->
    roster_step g (enrol y n (shut (mb_user m) (enrol x (standing_of MembershipStatus.REVOKED m) g)))
| step_open g s v :
    sittings g !! s = None -> free token_key (sittings g) (st_token v) -> own_member g v -> roster_step g (seat s v g)
| step_close g s v :
    sittings g !! s = Some v -> roster_step g (seat s (closed v) g)
| step_point g s v y m :
    sittings g !! s = Some v -> members g !! y = Some m -> mb_user m = st_user v -> roster_step g (seat s (pointed y v) g).

(** ** What a roster may become *)

Definition member_later (m m' : Member) : Prop := seat_key m' = seat_key m.
Definition sitting_later (v v' : Sitting) : Prop := st_user v' = st_user v /\ st_token v' = st_token v /\ (st_open v = false -> st_open v' = false).

#[export] Instance member_later_pre : PreOrder member_later.
Proof. split; [done|]. intros m1 m2 m3. unfold member_later. congruence. Qed.

#[export] Instance sitting_later_pre : PreOrder sitting_later.
Proof. split; [done|]. intros v1 v2 v3 (A1 & A2 & A3) (B1 & B2 & B3). split_and!; [congruence|congruence|auto]. Qed.

Record roster_later (g g' : Roster) : Prop := {
  rl_members : map_later member_later (members g) (members g');
  rl_sittings : map_later sitting_later (sittings g) (sittings g')
}.

#[export] Instance roster_later_pre : PreOrder roster_later.
Proof. split; [intros g; by split|]. intros g1 g2 g3 [] []. split; by etransitivity. Qed.

Lemma standing_open g x m st : members g !! x = Some m -> open_seat g x (standing_of st m).
Proof. intros Hx. right. by exists m. Qed.

Lemma enrol_later g y m : open_seat g y m -> roster_later g (enrol y m g).
Proof.
  intros Hy. split; [|done]. destruct Hy as [[Hn _]|(old & Ho & E)]; [exact (map_later_new _ _ _ _ Hn)|exact (map_later_set _ _ _ _ _ Ho E)].
Qed.

Lemma shut_later u g : roster_later g (shut u g).
Proof.
  split; [done|]. intros s v Hv. exists (close u v). cbn. rewrite lookup_fmap, Hv. split; [done|]. unfold close. by destruct (String.eqb _ _).
Qed.

(** Revoking one membership leaves the place of the other role open. *)
Lemma still_open g u x m y n : members g !! x = Some m -> mb_role n <> mb_role m -> open_seat g y n ->
  open_seat (shut u (enrol x (standing_of MembershipStatus.REVOKED m) g)) y n.
Proof.
  intros Hx Er [[Hn Hf]|(old & Ho & E)].
  - left. cbn. assert (x <> y) as Hne by (intros ->; congruence). split; [by rewrite lookup_insert_ne|].
    intros k Hk z w [[<- <-]|[_ Hz]]%lookup_insert_Some; [|by apply (Hf k Hk z w)]. injection Hk as <-. unfold seat_key. cbn. congruence.
  - right. exists old. split; [|done]. cbn. rewrite lookup_insert_ne; [done|]. intros ->. unfold seat_key in E. congruence.
Qed.

Lemma roster_step_later g g' : roster_step g g' -> roster_later g g'.
Proof.
  destruct 1 as [g y m Hy _|g x m Hx|g x m st Hx _|g x m y n Hx Eu Eo Er _ Hy|g s v Hs _ _|g s v Hs|g s v y m Hs _ _].
  - by apply enrol_later.
  - by apply enrol_later, standing_open.
  - etransitivity; [by apply (enrol_later g x (standing_of st m)), standing_open|apply shut_later].
  - etransitivity; [by apply (enrol_later g x (standing_of MembershipStatus.REVOKED m)), standing_open|].
    etransitivity; [apply shut_later|]. by apply enrol_later, still_open.
  - split; [done|]. exact (map_later_new _ _ _ _ Hs).
  - split; [done|]. by apply (map_later_set _ _ _ _ _ Hs).
  - split; [done|]. by apply (map_later_set _ _ _ _ _ Hs).
Qed.

Lemma roster_run_later g g' : rtc roster_step g g' -> roster_later g g'.
Proof. induction 1 as [g|g g1 g2 St _ IH]; [done|]. etransitivity; [by apply roster_step_later|done]. Qed.

(** ** What every roster keeps *)

Record roster_ok (g : Roster) : Prop := {
  rk_one_seat : unique seat_key (members g);
  rk_one_token : unique token_key (sittings g);
  rk_own : map_Forall (fun _ v => own_member g v) (sittings g)
}.

Lemma own_later g g' v : roster_later g g' -> own_member g v -> own_member g' v.
Proof. intros L Hv y Hy. destruct (Hv y Hy) as (m & (m' & Hm' & E)%(rl_members _ _ L) & Eu). exists m'. split; [done|]. unfold member_later, seat_key in E. congruence. Qed.

Lemma enrol_unique g y m : unique seat_key (members g) -> open_seat g y m -> unique seat_key (members (enrol y m g)).
Proof. intros U [[_ Hn]|(old & Ho & E)]; cbn; [by apply unique_new|by apply (unique_set _ _ _ old)]. Qed.

Lemma shut_token u g : unique token_key (sittings g) -> unique token_key (sittings (shut u g)).
Proof.
  intros U x y v w k. cbn. rewrite !lookup_fmap. intros (v0 & Hv & ->)%fmap_Some (w0 & Hw & ->)%fmap_Some Kv Kw.
  assert (forall v, token_key (close u v) = token_key v) as E by (intros a; unfold close; by destruct (String.eqb _ _)).
  rewrite E in Kv, Kw. by apply (U x y v0 w0 k).
Qed.

Lemma shut_own u g : map_Forall (fun _ v => own_member g v) (sittings g) -> map_Forall (fun _ v => own_member (shut u g) v) (sittings (shut u g)).
Proof.
  intros F s v. cbn. rewrite lookup_fmap. intros (v0 & Hv & ->)%fmap_Some y Hy. unfold close in *.
  destruct (String.eqb (st_user v0) u); by apply (F s v0 Hv).
Qed.

Lemma enrol_ok g y m : roster_ok g -> open_seat g y m -> roster_ok (enrol y m g).
Proof.
  intros [K1 K2 K3] Hy. split; [by apply enrol_unique|done|]. intros s v Hv. apply (own_later g); [by apply enrol_later|by apply (K3 s)].
Qed.

Lemma shut_ok u g : roster_ok g -> roster_ok (shut u g).
Proof. intros [K1 K2 K3]. split; [done|by apply shut_token|by apply shut_own]. Qed.

Lemma seat_ok g s v v' : roster_ok g -> sittings g !! s = Some v -> st_token v' = st_token v -> own_member g v' -> roster_ok (seat s v' g).
Proof.
  intros [K1 K2 K3] Hs E Ho. split; [done|cbn; apply (unique_set _ _ _ v); [done|done|unfold token_key; congruence]|].
  intros x w. cbn. intros [[<- <-]|[_ Hw]]%lookup_insert_Some; [done|by apply (K3 x)].
Qed.

Lemma roster_step_ok g g' : roster_ok g -> roster_step g g' -> roster_ok g'.
Proof.
  intros K St. destruct St as [g y m Hy _|g x m Hx|g x m st Hx _|g x m y n Hx Eu Eo Er Ea Hy|g s v Hs Hf Hv|g s v Hs|g s v y m Hs Hm E].
  - by apply enrol_ok.
  - by apply enrol_ok, standing_open.
  - by apply shut_ok, enrol_ok, standing_open.
  - apply enrol_ok; [by apply shut_ok, enrol_ok, standing_open|by apply still_open].
  - destruct K as [K1 K2 K3]. split; [done|cbn; apply unique_new; [done|by intros k [= <-]]|].
    intros x w. cbn. intros [[<- <-]|[_ Hw]]%lookup_insert_Some; [done|by apply (K3 x)].
  - apply (seat_ok g s v); [done|done|done|]. exact (rk_own _ K s v Hs).
  - apply (seat_ok g s v); [done|done|done|]. intros z [= <-]. by exists m.
Qed.

Lemma roster_run_ok g g' : roster_ok g -> rtc roster_step g g' -> roster_ok g'.
Proof. intros K R. induction R as [g|g g1 g2 St _ IH]; [done|]. by apply IH, (roster_step_ok g). Qed.

(** ** The membership and session tables as a roster

    The abstraction of the two tables to [Roster], and what each
    repository call does to it. *)

Definition memberOf (m : MembershipRow.t) : Member :=
  {| mb_user := MembershipRow.userId m; mb_org := MembershipRow.organizationId m; mb_role := MembershipRow.role m;
     mb_status := MembershipRow.status m |}.
Definition sittingOf (s : SessionRow.t) : Sitting :=
  {| st_user := SessionRow.userId s; st_token := SessionRow.tokenHash s; st_member := SessionRow.activeMembershipId s;
     st_open := match SessionRow.revokedAt s with None => true | Some _ => false end |}.

Definition roster (db : Db) : Roster :=
  {| members := book memberOf (organizationMemberships db); sittings := book sittingOf (sessions db) |}.

(** A membership ends exactly when it is revoked. *)
Definition ended (m : MembershipRow.t) : Prop :=
  (MembershipRow.effectiveTo m = None <-> MembershipRow.status m <> MembershipStatus.REVOKED) /\
  MembershipRow.retiredAt m = MembershipRow.effectiveTo m.

(** ** A table changed row by row *)

Section Map.
Context `{Platform} {R : Type} `{Row R}.

Lemma findById_map (t : list R) x f : keeps_identity f -> findById (map f t) x = f <$> findById t x.
Proof.
  intros K. induction t as [|r t IH]; [done|]. cbn [map]. rewrite !findById_cons, (proj1 (K r)), IH. by destruct (String.eqb _ _).
Qed.

Lemma book_map {V} (g : R -> V) (h : V -> V) t f : keeps_identity f -> (forall r, g (f r) = h (g r)) -> book g (map f t) = h <$> book g t.
Proof.
  intros K E. apply map_eq. intros x. rewrite lookup_fmap, !book_lookup, (findById_map _ _ _ K).
  destruct (findById t x) as [r|]; cbn; [by rewrite E|done].
Qed.

Lemma table_map db (t : list R) f : keeps_identity f -> table_ok db t -> table_ok db (map f t).
Proof.
  intros K [T1 T2 T3 T4]. split.
  - rewrite Forall_map. eapply Forall_impl; [exact T1|]. intros r. cbn. by rewrite (proj1 (K r)).
  - rewrite map_map. rewrite (map_ext _ row_id); [done|]. intros r. apply K.
  - unfold chronological in *. clear T1 T2 T4. induction T3 as [|r t T3 IH Hr]; [constructor|]. cbn. constructor; [done|]. rewrite Forall_map. eapply Forall_impl; [exact Hr|].
    intros r'. cbn. by rewrite !(proj2 (K _)).
  - rewrite Forall_map. eapply Forall_impl; [exact T4|]. intros r. cbn. by rewrite (proj2 (K r)).
Qed.
End Map.

Section Identity.
Context `{Platform}.

Record identity_tables (db : Db) : Prop := {
  it_members : table_ok db (organizationMemberships db);
  it_sessions : table_ok db (sessions db);
  it_ended : Forall ended (organizationMemberships db)
}.

Record identity_ok (db : Db) : Prop := { io_tables : identity_tables db; io_roster : roster_ok (roster db) }.

(** What an operation leaves behind, with [log] added to the journal. *)
Record leaves (db db' : Db) (g : Roster) (log : list AuditEventRow.t) : Prop := {
  lv_tables : identity_tables db';
  lv_roster : roster db' = g;
  lv_log : auditEvents db' = auditEvents db ++ log;
  lv_drawn : (drawn db <= drawn db')%nat;
  lv_clock : clock db' = clock db
}.

Lemma leaves_trans db1 db2 db3 g2 g3 l1 l2 : leaves db1 db2 g2 l1 -> leaves db2 db3 g3 l2 -> leaves db1 db3 g3 (l1 ++ l2).
Proof. intros [A1 A2 A3 A4 A5] [B1 B2 B3 B4 B5]. split; [done|done|by rewrite B3, A3, app_assoc|lia|congruence]. Qed.

Lemma leaves_refl db : identity_tables db -> leaves db db (roster db) [].
Proof. intros T. by split; [| |rewrite app_nil_r| |]. Qed.

(** The tables as they were, under a later number. *)
Lemma tables_later db db' : identity_tables db -> organizationMemberships db' = organizationMemberships db -> sessions db' = sessions db ->
  (drawn db <= drawn db')%nat -> clock db <= clock db' -> identity_tables db'.
Proof. intros [T1 T2 T3] E1 E2 Hd Hc. split; rewrite ?E1, ?E2; [by eapply table_same|by eapply table_same|done]. Qed.

(** *** The journal *)

Record written (i : AuditWriteInput) (a : AuditEventRow.t) : Prop := {
  wr_action : AuditEventRow.action a = a_action i;
  wr_resource : AuditEventRow.resourceId a = a_resourceId i;
  wr_user : AuditEventRow.actorUserId a = a_actorUserId i;
  wr_role : AuditEventRow.actorRole a = a_actorRole i;
  wr_after : AuditEventRow.afterValue a = a_afterValue i
}.

Lemma audit_leaves ctx i db a db' : identity_tables db -> auditWriter ctx i db = Ok (a, db') -> leaves db db' (roster db) [a] /\ written i a.
Proof.
  intros T E. unfold auditWriter, auditRepository_write in E. apply tbind_Ok in E as (x & d & [= <- <-] & E). injection E as <- <-.
  split; [|by split]. split; cbn; try done; [by apply (tables_later db); cbn; first [done|lia]|lia].
Qed.

(** *** Memberships *)

Lemma member_found db x m : membership_findById db x = Some m ->
  members (roster db) !! x = Some (memberOf m) /\ MembershipRow.id m = x /\ m ∈ organizationMemberships db.
Proof.
  intros Hm. pose proof Hm as [Hin Ei]%findById_Some. split_and!; [|done|done].
  cbn. rewrite book_lookup. unfold membership_findById in Hm. by rewrite Hm.
Qed.

Lemma members_row db m : identity_tables db -> m ∈ organizationMemberships db -> members (roster db) !! MembershipRow.id m = Some (memberOf m).
Proof. intros T Hm. exact (book_row memberOf db _ m (it_members _ T) Hm). Qed.

Lemma membershipWith_keeps st src from to ret u : keeps_identity (membershipWith st src from to ret u).
Proof. done. Qed.

Definition ends_well (st : MembershipStatus.t) (to ret : option Z) : Prop := (to = None <-> st <> MembershipStatus.REVOKED) /\ ret = to.

Lemma member_updated x st src from to ret u db m : identity_tables db -> membership_findById db x = Some m ->
  (forall m, ends_well st (to m) (ret m)) ->
  leaves db (set_organizationMemberships (map (updating x (fun m => membershipWith st (src m) (from m) (to m) (ret m) u m)) (organizationMemberships db)) db)
    (enrol x (standing_of st (memberOf m)) (roster db)) [].
Proof.
  intros [T1 T2 T3] Hm He. split; cbn [auditEvents drawn clock set_organizationMemberships]; try done; [| |by rewrite app_nil_r].
  - split; cbn [organizationMemberships sessions set_organizationMemberships].
    + apply (table_same db); cbn; [|lia|lia]. by apply (table_update db).
    + by apply (table_same db); cbn; [|lia|lia].
    + rewrite Forall_map. eapply Forall_impl; [exact T3|]. intros r Hr. cbn. unfold updating. destruct (byId x r); [|done]. exact (He r).
  - unfold roster, enrol. cbn [members sittings organizationMemberships sessions set_organizationMemberships]. f_equal.
    rewrite (book_updating memberOf _ x _ m); [done|done|exact Hm].
Qed.

Lemma updateStatus_leaves x st u t db m' db' : identity_tables db -> membership_updateStatus x st u t db = Ok (m', db') ->
  exists m, membership_findById db x = Some m /\ m' = withStatus st u t m /\ leaves db db' (enrol x (standing_of st (memberOf m)) (roster db)) [].
Proof.
  intros T E. unfold membership_updateStatus in E. apply rbind_Ok in E as ([r tab] & E & [= <- <-]).
  apply updateById_Ok in E as (m & Hm & -> & ->). exists m. split_and!; [done|done|].
  apply (member_updated x st MembershipRow.invitationSource MembershipRow.effectiveFrom (fun _ => if bool_decide (st = MembershipStatus.REVOKED) then Some t else None)
    (fun _ => if bool_decide (st = MembershipStatus.REVOKED) then Some t else None)); [done|done|].
  intros _. split; [|done]. case_bool_decide; naive_solver.
Qed.

Lemma reactivate_leaves x st src u t db m' db' : identity_tables db -> st <> MembershipStatus.REVOKED -> membership_reactivate x st src u t db = Ok (m', db') ->
  exists m, membership_findById db x = Some m /\ m' = reactivated st src u t m /\ leaves db db' (enrol x (standing_of st (memberOf m)) (roster db)) [].
Proof.
  intros T Hst E. unfold membership_reactivate in E. apply rbind_Ok in E as ([r tab] & E & [= <- <-]).
  apply updateById_Ok in E as (m & Hm & -> & ->). exists m. split_and!; [done|done|].
  apply (member_updated x st (fun _ => src) (fun _ => t) (fun _ => None) (fun _ => None)); [done|done|]. intros _. by split.
Qed.

Lemma holds_spec u org r m : holds u org r m = true <-> seat_key (memberOf m) = Some (u, org, r).
Proof.
  unfold holds, seat_key. rewrite !andb_true_iff, !String.eqb_eq, bool_decide_eq_true. cbn. split; [by intros [[-> ->] ->]|by intros [= -> -> ->]].
Qed.

Lemma seat_free db u org r : membership_findByUserOrgRole db u org r = None -> free seat_key (members (roster db)) (u, org, r).
Proof.
  intros Hn x v (m & [Hm%list_elem_of_In _]%findById_Some & ->)%book_Some Hk. pose proof (find_none _ _ Hn m Hm) as Hf.
  apply holds_spec in Hk. congruence.
Qed.

Lemma seat_taken db u org r m : identity_tables db -> membership_findByUserOrgRole db u org r = Some m ->
  membership_findById db (MembershipRow.id m) = Some m /\ seat_key (memberOf m) = Some (u, org, r).
Proof.
  intros T [Hm%list_elem_of_In Hk%holds_spec]%find_some. split; [|done]. exact (findById_elem db _ m (it_members _ T) Hm).
Qed.

Lemma membership_create_leaves i t db m db' : identity_tables db -> cm_status i <> MembershipStatus.REVOKED -> IdentityRepositories.membership_create i t db = Ok (m, db') ->
  membership_findByUserOrgRole db (cm_userId i) (cm_organizationId i) (cm_role i) = None /\
  members (roster db) !! MembershipRow.id m = None /\
  memberOf m = {| mb_user := cm_userId i; mb_org := cm_organizationId i; mb_role := cm_role i; mb_status := cm_status i |} /\
  leaves db db' (enrol (MembershipRow.id m) (memberOf m) (roster db)) [].
Proof.
  intros [T1 T2 T3] Hst E. unfold IdentityRepositories.membership_create in E. apply tbind_Ok in E as (x & d & [= <- <-] & E).
  cbv beta in E. match type of E with match ?f with _ => _ end = _ => destruct f as [|] eqn:Hn; [done|] end.
  apply rbind_Ok in E as (? & _ & E). injection E as Em <-. split; [done|].
  assert (row_id m = newId (drawn db)) as Ei by (by rewrite <- Em). assert (row_createdAt m = clock db) as Ec by (by rewrite <- Em).
  destruct (book_new memberOf db (organizationMemberships db) m T1 Ei) as [Hnew Hbook]. split_and!; [done|by rewrite <- Em|].
  rewrite Em. split; cbn [auditEvents drawn clock set_organizationMemberships set_drawn]; [| |by rewrite app_nil_r|lia|done].
  - split; cbn [organizationMemberships sessions set_organizationMemberships set_drawn].
    + by apply (table_snoc db).
    + by apply (table_same db); cbn; [|lia|lia].
    + rewrite Forall_app, Forall_singleton. split; [done|]. rewrite <- Em. split; [|done]. cbn. naive_solver.
  - unfold roster, enrol. cbn [members sittings organizationMemberships sessions set_organizationMemberships set_drawn]. f_equal. exact Hbook.
Qed.

(** *** Sessions *)

Lemma session_row db s : identity_tables db -> s ∈ sessions db -> sittings (roster db) !! SessionRow.id s = Some (sittingOf s).
Proof. intros T Hs. exact (book_row sittingOf db _ s (it_sessions _ T) Hs). Qed.

(** A change of the sessions that keeps identities. *)
Lemma sessions_mapped db f h : identity_tables db -> keeps_identity f -> (forall s, sittingOf (f s) = h (sittingOf s)) ->
  leaves db (set_sessions (map f (sessions db)) db) {| members := members (roster db); sittings := h <$> sittings (roster db) |} [].
Proof.
  intros [T1 T2 T3] K E. split; cbn [auditEvents drawn clock set_sessions]; try done; [| |by rewrite app_nil_r].
  - split; cbn [organizationMemberships sessions set_sessions]; [by apply (table_same db); cbn; [|lia|lia]| |done].
    apply (table_same db); cbn; [|lia|lia]. by apply (table_map db).
  - unfold roster. cbn [members sittings organizationMemberships sessions set_sessions]. f_equal. by apply book_map.
Qed.

Lemma revokeAll_leaves u t db n db' : identity_tables db -> session_revokeAllForUser u t db = Ok (n, db') -> leaves db db' (shut u (roster db)) [].
Proof.
  intros T E. injection E as _ <-. apply (sessions_mapped db (fun s => if live_of u s then revoked t s else s) (close u)); [done|..].
  - intros s. by destruct (live_of u s).
  - intros s. unfold live_of, close. cbn [st_user sittingOf]. destruct (String.eqb (SessionRow.userId s) u); [|done].
    destruct s as [? ? ? ? ? ? [|] ? ? ?]; done.
Qed.

Lemma session_update_leaves x f h db s db' : identity_tables db -> keeps_identity f -> (forall s, sittingOf (f s) = h (sittingOf s)) ->
  session_update x f db = Ok (s, db') ->
  exists s0, findById (sessions db) x = Some s0 /\ s = f s0 /\ leaves db db' (seat x (h (sittingOf s0)) (roster db)) [].
Proof.
  intros [T1 T2 T3] K Eh E. unfold session_update in E. apply rbind_Ok in E as ([r tab] & E & [= <- <-]).
  apply updateById_Ok in E as (s0 & Hs & -> & ->). exists s0. split_and!; [done|done|].
  split; cbn [auditEvents drawn clock set_sessions]; try done; [| |by rewrite app_nil_r].
  - split; cbn [organizationMemberships sessions set_sessions]; [by apply (table_same db); cbn; [|lia|lia]| |done].
    apply (table_same db); cbn; [|lia|lia]. by apply (table_update db (sessions db) x f K).
  - unfold roster, seat. cbn [members sittings organizationMemberships sessions set_sessions]. f_equal. rewrite <- Eh.
    exact (book_updating sittingOf (sessions db) x f s0 K Hs).
Qed.

Lemma session_create_leaves i db s db' : identity_tables db -> session_create i db = Ok (s, db') ->
  sittings (roster db) !! SessionRow.id s = None /\ free token_key (sittings (roster db)) (cs_tokenHash i) /\
  sittingOf s = {| st_user := cs_userId i; st_token := cs_tokenHash i; st_member := cs_activeMembershipId i; st_open := true |} /\
  leaves db db' (seat (SessionRow.id s) (sittingOf s) (roster db)) [].
Proof.
  intros [T1 T2 T3] E. unfold session_create in E. apply tbind_Ok in E as (x & d & [= <- <-] & E).
  match type of E with match ?f with _ => _ end = _ => destruct f as [|] eqn:Hn; [done|] end. injection E as Es <-.
  assert (row_id s = newId (drawn db)) as Ei by (by rewrite <- Es). assert (row_createdAt s = clock db) as Ec by (by rewrite <- Es).
  destruct (book_new sittingOf db (sessions db) s T2 Ei) as [Hnew Hbook]. split_and!; [done| |by rewrite <- Es|].
  - intros y v (s' & [Hs'%list_elem_of_In _]%findById_Some & ->)%book_Some [= Hk]. pose proof (find_none _ _ Hn s' Hs') as Hf. cbv beta in Hf.
    rewrite Hk, String.eqb_refl in Hf. discriminate Hf.
  - rewrite Es. split; cbn [auditEvents drawn clock set_sessions set_drawn]; [| |by rewrite app_nil_r|lia|done].
    + split; cbn [organizationMemberships sessions set_sessions set_drawn]; [by apply (table_same db); cbn; [|lia|lia]|by apply (table_snoc db)|done].
    + unfold roster, seat. cbn [members sittings organizationMemberships sessions set_sessions set_drawn]. f_equal. exact Hbook.
Qed.

Lemma recordLogin_leaves x t db u db' : identity_tables db -> user_recordLogin x t db = Ok (u, db') -> leaves db db' (roster db) [].
Proof.
  intros T E. unfold user_recordLogin in E. apply rbind_Ok in E as ([r tab] & _ & [= _ <-]).
  split; cbn; try done; [by apply (tables_later db); cbn; first [done|lia]|by rewrite app_nil_r].
Qed.

End Identity.
