(* ===== verification/IdentitySystem.v ===== *)
(** * Sign-in and memberships over one database

    Every transaction keeps [identity_ok], is a run of [roster_step] and makes
    a membership ACTIVE only with a journal entry of someone who may; the
    handler of [Transactions] with its eight kinds of request; what a plan
    read before the transaction still says afterwards. *)
From S2P Require Import Prelude StableSort DomainStates AuthzMatrix Authz JsonText Database Tables ApiShared Idempotency.
From S2P Require Import LockboxRepositories RfqService EconomicsTheorems LockboxTheorems IdentityRepositories IdentityService IdentityBook Transactions.
From stdpp Require Import relations.
Import Roles Actions Matrix.
#[local] Open Scope Z_scope.

(** ** Who may grant *)

Definition OPERATORS : list PersonaRole := [PLATFORM_OWNER; MARKETPLACE_OPERATOR].

Definition one_of (roles : list PersonaRole) (a : Actor) : Prop := exists r, role a = Some r /\ r ∈ roles.

Definition grant_roles (a : Action) : option (list PersonaRole) :=
  match a with
  | membership_create | membership_update_status => Some OPERATORS
  | membership_update_role => Some [PLATFORM_OWNER]
  | _ => None
  end.

Lemma grant_role a act roles res ctx : grant_roles act = Some roles -> allowed (can a act res ctx) = true -> one_of roles a.
Proof.
  intros Hg (r & org & Hr & _ & Ha & _)%can_paths. exists r. split; [done|].
  pose proof (all_roles_actions (fun r a => implb (has a (allowedActions (AUTHORITY_MATRIX r))) match grant_roles a with Some l => inOpt (Some l) r | None => true end)
    ltac:(vm_compute; reflexivity) r act) as H1. cbv beta in H1. rewrite Ha, Hg in H1. by apply bool_decide_eq_true in H1.
Qed.

(** A journal entry that makes membership [x] count. *)
Definition grants (x : string) (a : AuditEventRow.t) : Prop :=
  AuditEventRow.resourceId a = Some x /\
  ((AuditEventRow.action a = "membership.status_changed" /\ exists r, AuditEventRow.actorRole a = Some r /\ r ∈ OPERATORS) \/
   (AuditEventRow.action a = "membership.role_changed" /\ AuditEventRow.actorRole a = Some PLATFORM_OWNER)).

(** Whoever is ACTIVE now was before, or [log] says who granted it. *)
Definition earned (g g' : Roster) (log : list AuditEventRow.t) : Prop :=
  forall x m, members g' !! x = Some m -> mb_status m = MembershipStatus.ACTIVE -> members g !! x = Some m \/ Exists (grants x) log.

Lemma earned_same g g' log : members g' = members g -> earned g g' log.
Proof. intros E x m. rewrite E. by left. Qed.

Lemma earned_not_active g g' y n log : members g' = <[y := n]> (members g) -> mb_status n <> MembershipStatus.ACTIVE -> earned g g' log.
Proof. intros E Hn x m. rewrite E. intros [[<- <-]|[_ Hm]]%lookup_insert_Some ?; [done|by left]. Qed.

Section Effects.
Context `{Platform} (verifyPassword : string -> string -> bool) (hashSessionToken : string -> string).

(** ** Transactions as runs *)

Record identity_does (db db' : Db) (log : list AuditEventRow.t) : Prop := {
  id_ok : identity_ok db';
  id_steps : rtc roster_step (roster db) (roster db');
  id_log : auditEvents db' = auditEvents db ++ log;
  id_earned : earned (roster db) (roster db') log;
  id_drawn : (drawn db <= drawn db')%nat;
  id_clock : clock db' = clock db
}.

Lemma does_leaves db db' g log : identity_ok db -> leaves db db' g log -> rtc roster_step (roster db) g -> earned (roster db) g log -> identity_does db db' log.
Proof.
  intros [T K] [T' <- L D C] St Ea. split; [split; [done|by apply (roster_run_ok (roster db))]|done|done|done|done|done].
Qed.

Lemma does_nothing db : identity_ok db -> identity_does db db [].
Proof. intros K. apply (does_leaves db db (roster db)); [done|by apply leaves_refl, K|done|by apply earned_same]. Qed.

Lemma seat_same g s v : sittings g !! s = Some v -> seat s v g = g.
Proof. intros Hs. destruct g as [m t]. unfold seat. cbn in *. by rewrite insert_id. Qed.

Lemma session_found db x s : findById (sessions db) x = Some s -> sittings (roster db) !! x = Some (sittingOf s).
Proof. intros Hs. cbn. by rewrite book_lookup, Hs. Qed.

(** ** What a plan relies on *)

Definition member_as (m : MembershipRow.t) (g : Roster) : Prop :=
  exists mb, members g !! MembershipRow.id m = Some mb /\ seat_key mb = seat_key (memberOf m).

Definition sits (v : Visitor) (g : Roster) : Prop :=
  exists w, sittings g !! vi_sessionId v = Some w /\ st_user w = UserRow.id (vi_user v).

Lemma member_as_later g g' m : roster_later g g' -> member_as m g -> member_as m g'.
Proof. intros L (mb & (mb' & Hb & E)%(rl_members _ _ L) & Es). exists mb'. split; [done|]. unfold member_later in E. congruence. Qed.

Lemma sits_later g g' v : roster_later g g' -> sits v g -> sits v g'.
Proof. intros L (w & (w' & Hw & E & _)%(rl_sittings _ _ L) & Eu). exists w'. split; [done|congruence]. Qed.

Lemma member_now db m x : membership_findById db x = Some m -> member_as m (roster db) /\ MembershipRow.id m = x.
Proof. intros (Hm & <- & _)%member_found. split; [by exists (memberOf m)|done]. Qed.

(** ** The transactions *)

Lemma visit_does k v db out db' : identity_ok db -> onRequest_touch k v db = Ok (out, db') -> identity_does db db' [].
Proof.
  intros K E. destruct v as [v|]; [|injection E as _ <-; by apply does_nothing]. cbn [onRequest_touch] in E.
  apply tbind_Ok in E as (s & d & E & E2). injection E2 as _ <-.
  apply (session_update_leaves _ (seen (ck_now k)) (fun w => w)) in E as (s0 & Hs & _ & L); [|apply K|done|done].
  rewrite (seat_same _ _ _ (session_found _ _ _ Hs)) in L.
  by apply (does_leaves db d (roster db)); [done|done|done|apply earned_same].
Qed.

Lemma login_does raw ctx t p db out db' : identity_ok db ->
  (forall m, lp_active p = Some m -> member_as m (roster db) /\ MembershipRow.userId m = UserRow.id (lp_user p)) ->
  login_tx hashSessionToken raw ctx t p db = Ok (out, db') -> exists a, identity_does db db' [a].
Proof.
  intros K Hp E. pose proof K as [T KR]. unfold login_tx in E. apply tbind_Ok in E as (s & d1 & (Hn & Hf & Es & L1)%session_create_leaves & E); [|done].
  apply tbind_Ok in E as (u & d2 & L2%recordLogin_leaves & E); [|apply L1].
  apply tbind_Ok in E as (a & d3 & [L3 _]%audit_leaves & E); [|apply L2]. injection E as _ <-.
  rewrite (lv_roster _ _ _ _ L2), (lv_roster _ _ _ _ L1) in L3. exists a.
  apply (does_leaves db d3 (seat (SessionRow.id s) (sittingOf s) (roster db))); [done|exact (leaves_trans _ _ _ _ _ _ _ (leaves_trans _ _ _ _ _ _ _ L1 L2) L3)| |by apply earned_same].
  apply rtc_once, step_open; [done|rewrite Es; exact Hf|]. rewrite Es. intros y Hy. cbn in Hy |- *.
  destruct (lp_active p) as [m|]; [|done]. injection Hy as <-. destruct (Hp m eq_refl) as [(mb & Hb & Ek) Eu]. exists mb. split; [done|].
  unfold seat_key in Ek. cbn in Ek. congruence.
Qed.

Lemma logout_does k v db out db' : identity_ok db -> logout_tx k v db = Ok (out, db') -> exists a, identity_does db db' [a] /\
  exists w, sittings (roster db) !! vi_sessionId v = Some w /\ sittings (roster db') = <[vi_sessionId v := closed w]> (sittings (roster db)).
Proof.
  intros K E. unfold logout_tx in E. apply tbind_Ok in E as (s & d1 & E1 & E).
  apply (session_update_leaves _ (revoked (ck_now k)) closed) in E1 as (s0 & Hs & _ & L1); [|apply K|done|done].
  apply tbind_Ok in E as (a & d2 & [L2 _]%audit_leaves & E); [|apply L1]. injection E as _ <-.
  rewrite (lv_roster _ _ _ _ L1) in L2. exists a. split; [|exists (sittingOf s0); split; [by apply session_found|by rewrite (lv_roster _ _ _ _ L2)]].
  apply (does_leaves db d2 (seat (vi_sessionId v) (closed (sittingOf s0)) (roster db))); [done|exact (leaves_trans _ _ _ _ _ _ _ L1 L2)| |by apply earned_same].
  apply rtc_once, step_close. by apply session_found.
Qed.

Lemma switchOrg_does k org p db out db' : identity_ok db -> sits (sp_visitor p) (roster db) ->
  member_as (sp_membership p) (roster db) -> MembershipRow.userId (sp_membership p) = UserRow.id (vi_user (sp_visitor p)) ->
  switchOrg_tx k org p db = Ok (out, db') -> exists a, identity_does db db' [a].
Proof.
  intros K (w & Hw & Eu) (mb & Hb & Ek) Em E. unfold switchOrg_tx in E. apply tbind_Ok in E as (s & d1 & E1 & E).
  apply (session_update_leaves _ (switched (MembershipRow.id (sp_membership p))) (pointed (MembershipRow.id (sp_membership p)))) in E1 as (s0 & Hs & _ & L1); [|apply K|done|done].
  apply tbind_Ok in E as (a & d2 & [L2 _]%audit_leaves & E); [|apply L1]. apply tbind_Ok in E as (l & d3 & [= _ <-] & [= _ <-]).
  rewrite (lv_roster _ _ _ _ L1) in L2. exists a.
  match type of L1 with leaves _ _ ?g _ => apply (does_leaves db d2 g) end; [done|exact (leaves_trans _ _ _ _ _ _ _ L1 L2)| |by apply earned_same].
  apply session_found in Hs. apply rtc_once, (step_point _ _ _ _ mb); [done|done|]. unfold seat_key in Ek. cbn in Ek. congruence.
Qed.

Lemma reinvite_open db x m st : membership_findById db x = Some m -> open_seat (roster db) x (standing_of st (memberOf m)).
Proof. intros (Hm & _ & _)%member_found. by apply standing_open. Qed.

Lemma create_open db m u org r st : membership_findByUserOrgRole db u org r = None -> members (roster db) !! MembershipRow.id m = None ->
  memberOf m = {| mb_user := u; mb_org := org; mb_role := r; mb_status := st |} -> open_seat (roster db) (MembershipRow.id m) (memberOf m).
Proof. intros Hf Hn Em. left. split; [done|]. rewrite Em. intros k [= <-]. exact (seat_free _ _ _ _ Hf). Qed.

Lemma invite_leaves c org i old db m action db' : identity_tables db -> invite c org i old db = Ok ((m, action), db') ->
  exists y n, leaves db db' (enrol y n (roster db)) [] /\ open_seat (roster db) y n /\ mb_status n = MembershipStatus.INVITED.
Proof.
  intros T E. unfold invite in E. destruct old as [old|].
  - case_bool_decide as Hr; [|done]. apply tbind_Ok in E as (r & d & E1 & [= _ _ <-]).
    apply reactivate_leaves in E1 as (m0 & Hm & _ & L1); [|done|done].
    exists (MembershipRow.id old), (standing_of MembershipStatus.INVITED (memberOf m0)). split_and!; [done|by apply reinvite_open|done].
  - apply tbind_Ok in E as (r & d & E1 & [= _ _ <-]). apply membership_create_leaves in E1 as (Hf & Hnew & Em & L1); [|done|done].
    exists (MembershipRow.id r), (memberOf r). split_and!; [done|by eapply create_open|by rewrite Em].
Qed.

Lemma invite_does c org i old db m db' : identity_ok db -> createMembership_tx c org i old db = Ok (m, db') -> exists a, identity_does db db' [a].
Proof.
  intros K E. pose proof K as [T KR]. unfold createMembership_tx, uniqueSafe in E. apply runUniqueConstraintSafe_Ok in E.
  apply tbind_Ok in E as ([m' action] & d1 & E1 & E). apply tbind_Ok in E as (a & d2 & E2 & E). injection E as _ <-. exists a.
  destruct (invite_leaves _ _ _ _ _ _ _ _ T E1) as (y & n & L1 & Hv & Hn). apply audit_leaves in E2 as [L2 _]; [|apply L1]. rewrite (lv_roster _ _ _ _ L1) in L2.
  apply (does_leaves db d2 (enrol y n (roster db))); [done|exact (leaves_trans _ _ _ _ _ _ _ L1 L2)|by apply rtc_once, step_invite|].
  apply (earned_not_active _ _ y n); [done|by rewrite Hn].
Qed.

Lemma updateStatus_does c x st ex db m db' : identity_ok db -> MembershipRow.id ex = x -> member_as ex (roster db) -> one_of OPERATORS (actor c) ->
  updateStatus_tx c x st ex db = Ok (m, db') -> exists a, identity_does db db' [a] /\
  (st <> MembershipStatus.ACTIVE -> sittings (roster db') = close (MembershipRow.userId m) <$> sittings (roster db)).
Proof.
  intros K Ex (mb & Hb & Ek) Hop E. pose proof K as [T KR]. unfold updateStatus_tx in E.
  apply tbind_Ok in E as (r & d1 & (m0 & Hm & -> & L1)%updateStatus_leaves & E); [|done].
  apply tbind_Ok in E as ([] & d2 & E2 & E). apply tbind_Ok in E as (a & d3 & E3 & E). injection E as <- <-. exists a.
  apply member_found in Hm as (Hm & _ & _). rewrite Ex, Hm in Hb. injection Hb as <-.
  assert (MembershipRow.userId ex = mb_user (memberOf m0)) as Eu by (unfold seat_key in Ek; cbn in *; congruence).
  case_bool_decide as Hst.
  - injection E2 as <-. apply audit_leaves in E3 as [L3 W]; [|apply L1]. rewrite (lv_roster _ _ _ _ L1) in L3. subst st. split; [|done].
    match type of L1 with leaves _ _ ?g _ => apply (does_leaves db d3 g) end; [done|exact (leaves_trans _ _ _ _ _ _ _ L1 L3)|by apply rtc_once, step_activate|].
    intros y n. cbn. intros [[<- <-]|[_ Hn]]%lookup_insert_Some _; [|by left]. right. left. split; [apply W|left]. split; [apply W|].
    destruct Hop as (r & Hr & Hin). exists r. split; [|done]. rewrite (wr_role _ _ W). exact Hr.
  - apply tbind_Ok in E2 as (n & d & L2%revokeAll_leaves & [= <-]); [|apply L1]. apply audit_leaves in E3 as [L3 _]; [|apply L2].
    rewrite (lv_roster _ _ _ _ L1) in L2. rewrite (lv_roster _ _ _ _ L2) in L3. rewrite Eu in L2, L3. split; [|intros _; by rewrite (lv_roster _ _ _ _ L3)].
    match type of L2 with leaves _ _ ?g _ => apply (does_leaves db d3 g) end; [done|exact (leaves_trans _ _ _ _ _ _ _ (leaves_trans _ _ _ _ _ _ _ L1 L2) L3)|by apply rtc_once, step_lower|].
    by apply (earned_not_active _ _ x (standing_of st (memberOf m0))).
Qed.

(** A membership seen earlier in the seat of a user, organization and role. *)
Definition seen_in (old : option MembershipRow.t) (u org : string) (r : PersonaRole) (g : Roster) : Prop :=
  forall m, old = Some m -> member_as m g /\ seat_key (memberOf m) = Some (u, org, r).

Lemma seen_later g g' old u org r : roster_later g g' -> seen_in old u org r g -> seen_in old u org r g'.
Proof. intros L Hs m Hm. destruct (Hs m Hm) as [A B]. split; [by eapply member_as_later|done]. Qed.

Lemma seen_now db u org r : identity_tables db -> seen_in (membership_findByUserOrgRole db u org r) u org r (roster db).
Proof. intros T m [Hm Hk]%seat_taken; [|done]. split; [by apply member_now in Hm as [? _]|done]. Qed.

(** Where a new role lands. *)
Lemma regrant_leaves c ex r old db m db' : identity_tables db ->
  seen_in old (MembershipRow.userId ex) (MembershipRow.organizationId ex) r (roster db) -> regrant c ex r old db = Ok (m, db') ->
  exists n, leaves db db' (enrol (MembershipRow.id m) n (roster db)) [] /\ open_seat (roster db) (MembershipRow.id m) n /\
    n = {| mb_user := MembershipRow.userId ex; mb_org := MembershipRow.organizationId ex; mb_role := r; mb_status := MembershipStatus.ACTIVE |} /\
    MembershipRow.userId m = MembershipRow.userId ex.
Proof.
  intros T Hs E. assert (IdentityRepositories.membership_create (regrant_input c ex r) (now c) db = Ok (m, db') ->
    exists n, leaves db db' (enrol (MembershipRow.id m) n (roster db)) [] /\ open_seat (roster db) (MembershipRow.id m) n /\
    n = {| mb_user := MembershipRow.userId ex; mb_org := MembershipRow.organizationId ex; mb_role := r; mb_status := MembershipStatus.ACTIVE |} /\
    MembershipRow.userId m = MembershipRow.userId ex) as New.
  { intros E'. apply membership_create_leaves in E' as (Hf & Hnew & Em & L); [|done|done]. exists (memberOf m).
    split_and!; [done|by eapply create_open|exact Em|exact (f_equal mb_user Em)]. }
  unfold regrant in E. destruct old as [old|]; [case_bool_decide as Hr|by apply New]; [|by apply New].
  apply reactivate_leaves in E as (m0 & Hm & -> & L); [|done|done]. destruct (Hs old eq_refl) as [(mb & Hb & Ek) Hk].
  pose proof (member_found _ _ _ Hm) as (Hm' & Ei & _). rewrite Hm' in Hb. injection Hb as <-. rewrite Hk in Ek. unfold seat_key in Ek. cbn in Ek. injection Ek as E1 E2 E3.
  exists (standing_of MembershipStatus.ACTIVE (memberOf m0)). cbn [reactivated membershipWith MembershipRow.id MembershipRow.userId].
  rewrite Ei. split_and!; [done|by apply reinvite_open|unfold standing_of; cbn; congruence|done].
Qed.

(** A place open after the revocation was open before. *)
Lemma was_open g u x m y n : members g !! x = Some m -> mb_role n <> mb_role m ->
  open_seat (shut u (enrol x (standing_of MembershipStatus.REVOKED m) g)) y n -> open_seat g y n.
Proof.
  intros Hx Er [[Hn Hf]|(old & Ho & E)]; cbn in *.
  - apply lookup_insert_None in Hn as [Hn Hne]. left. split; [done|]. intros k Hk z w Hz Kz. destruct (decide (x = z)) as [<-|Hxz].
    + rewrite Hx in Hz. injection Hz as <-. apply (Hf k Hk x (standing_of MembershipStatus.REVOKED m)); [by rewrite lookup_insert_eq|exact Kz].
    + apply (Hf k Hk z w); [by rewrite lookup_insert_ne|done].
  - apply lookup_insert_Some in Ho as [[<- <-]|[_ Ho]]; [|right; by exists old]. unfold seat_key in E. cbn in E. congruence.
Qed.

Lemma updateRole_does c r ex old db m db' : identity_ok db -> member_as ex (roster db) -> MembershipRow.role ex <> r -> one_of [PLATFORM_OWNER] (actor c) ->
  seen_in old (MembershipRow.userId ex) (MembershipRow.organizationId ex) r (roster db) -> updateRole_tx c r ex old db = Ok (m, db') -> exists a, identity_does db db' [a] /\
  sittings (roster db') = close (MembershipRow.userId m) <$> sittings (roster db).
Proof.
  intros K (mb & Hb & Ek) Hr Hop Hseen E. pose proof K as [T KR]. unfold updateRole_tx, uniqueSafe in E. apply runUniqueConstraintSafe_Ok in E.
  apply tbind_Ok in E as (? & d1 & (m0 & Hm & _ & L1)%updateStatus_leaves & E); [|done].
  apply tbind_Ok in E as (? & d2 & L2%revokeAll_leaves & E); [|apply L1]. apply member_found in Hm as (Hm & _ & _).
  apply tbind_Ok in E as (next & d3 & (n & L3 & Hv & En & Em)%regrant_leaves & E); [|apply L2|].
  2: { apply (seen_later (roster db)); [|done]. rewrite (lv_roster _ _ _ _ L2), (lv_roster _ _ _ _ L1).
    etransitivity; [by apply enrol_later, standing_open|apply shut_later]. }
  apply tbind_Ok in E as (a & d4 & [L4 W]%audit_leaves & E); [|apply L3]. injection E as <- <-. exists a.
  rewrite Hm in Hb. injection Hb as <-.
  assert (MembershipRow.userId ex = mb_user (memberOf m0) /\ MembershipRow.organizationId ex = mb_org (memberOf m0) /\ MembershipRow.role ex = mb_role (memberOf m0)) as (Eu & Eo & Ero)
    by (unfold seat_key in Ek; cbn in *; split_and!; congruence).
  rewrite (lv_roster _ _ _ _ L1), Eu in L2. rewrite (lv_roster _ _ _ _ L2) in L3, Hv. rewrite (lv_roster _ _ _ _ L3) in L4.
  assert (mb_role n <> mb_role (memberOf m0)) as Hrn by (rewrite En; cbn; cbn in Ero; congruence).
  pose proof (was_open _ _ _ _ _ _ Hm Hrn Hv) as Hv0.
  pose proof (leaves_trans _ _ _ _ _ _ _ (leaves_trans _ _ _ _ _ _ _ (leaves_trans _ _ _ _ _ _ _ L1 L2) L3) L4) as L.
  split; [|rewrite (lv_roster _ _ _ _ L4), Em, Eu; done].
  match type of L3 with leaves _ _ ?g _ => apply (does_leaves db d4 g) end; [done|exact L|..].
  - apply rtc_once, step_regrant; [done|by rewrite En|by rewrite En|done|by rewrite En|done].
  - intros y w. cbn. intros [[<- <-]|[_ [[<- <-]|[_ Hw]]%lookup_insert_Some]]%lookup_insert_Some Ha; [|done|by left].
    right. left. split; [apply W|right]. split; [apply W|]. destruct Hop as (r0 & Hr0 & ->%list_elem_of_singleton). rewrite (wr_role _ _ W). exact Hr0.
Qed.

End Effects.

(** ** The handler *)

Inductive IdentityReq : Type :=
| Visit (k : Cookie)
| Login (email password rawToken : string) (ctx : RequestContext) (t : Z)
| Logout (k : Cookie)
| SwitchOrg (k : Cookie) (org : string)
| ListMemberships (k : Cookie) (org : string)
| CreateMembership (k : Cookie) (org : string) (input : CreateMembershipRequest)
| UpdateMembershipStatus (k : Cookie) (membershipId : string) (status : MembershipStatus.t)
| UpdateMembershipRole (k : Cookie) (membershipId : string) (newRole : PersonaRole).

(** What the invitation and the change of role read before they write, the
    last of it inside the transaction. *)
Record InvitePlan : Type := { ip_call : Call; ip_prior : option MembershipRow.t }.
Record RolePlan : Type := { rp_call : Call; rp_existing : MembershipRow.t; rp_prior : option MembershipRow.t }.

Definition identity_plan (r : IdentityReq) : Type :=
  match r with
  | Visit _ => option Visitor
  | Login _ _ _ _ _ => LoginPlan
  | Logout _ => Visitor
  | SwitchOrg _ _ => SwitchPlan
  | ListMemberships _ _ => list MembershipRow.t
  | CreateMembership _ _ _ => InvitePlan
  | UpdateMembershipStatus _ _ _ => (Call * MembershipRow.t)%type
  | UpdateMembershipRole _ _ _ => RolePlan
  end.

Definition identity_out (r : IdentityReq) : Type :=
  match r with
  | Visit _ => option Visitor
  | Login _ _ _ _ _ => LoginResult
  | Logout _ => unit
  | SwitchOrg _ _ => option MembershipRow.t
  | ListMemberships _ _ => list MembershipRow.t
  | CreateMembership _ _ _ | UpdateMembershipStatus _ _ _ | UpdateMembershipRole _ _ _ => MembershipRow.t
  end.

Definition identity_resp (r : IdentityReq) : Type :=
  match r with SwitchOrg _ _ => MembershipRow.t | _ => identity_out r end.

(** Everything else on the platform leaves users, memberships and sessions
    alone and only appends to the journal. *)
Record identity_env (db db' : Db) : Prop := {
  ie_users : users db' = users db;
  ie_members : organizationMemberships db' = organizationMemberships db;
  ie_sessions : sessions db' = sessions db;
  ie_log : exists log, auditEvents db' = auditEvents db ++ log;
  ie_drawn : (drawn db <= drawn db')%nat;
  ie_clock : clock db <= clock db'
}.

(** ** What the reads return *)

Lemma when_present_Some {A} s (f : string -> option A) a : when_present s f None = Some a -> exists t, s = Some t /\ t <> "" /\ f t = Some a.
Proof. unfold when_present. destruct s as [t|]; [|done]. destruct (String.eqb_spec t ""); [done|]. eauto. Qed.

Lemma authorizedMembership_Ok a act x db m : authorizedMembership a act x db = Ok m <->
  membership_findById db x = Some m /\ allowed (can a act (membershipResource m) noContext) = true.
Proof.
  unfold authorizedMembership. destruct (membership_findById db x) as [q|]; [|naive_solver]. rewrite rbind_Ok. setoid_rewrite require_Ok. naive_solver.
Qed.

Lemma updateRole_pre_Ok c x r db m : updateRole_pre c x r db = Ok m <->
  membership_findById db x = Some m /\ allowed (can (actor c) membership_update_role (membershipResource m) noContext) = true /\ MembershipRow.role m <> r.
Proof.
  unfold updateRole_pre. rewrite rbind_Ok. setoid_rewrite authorizedMembership_Ok. setoid_rewrite rbind_Ok. setoid_rewrite throw_if_Ok.
  setoid_rewrite bool_decide_eq_false. split; [intros (q & (A & B) & ? & C & [= ->]); by split|intros (A & B & C); exists m; split; [done|]; by exists tt].
Qed.

Lemma findActive_Some db u org t m : membership_findActiveByUserAndOrg db u org t = Some m ->
  m ∈ organizationMemberships db /\ MembershipRow.userId m = u /\ MembershipRow.organizationId m = org /\ in_effect t m = true.
Proof.
  unfold membership_findActiveByUserAndOrg. intros Hh. assert (m ∈ findMany (desc MembershipRow.effectiveFrom)
    (fun m => String.eqb (MembershipRow.userId m) u && String.eqb (MembershipRow.organizationId m) org && in_effect t m) (organizationMemberships db)) as Hm.
  { destruct (findMany _ _ _); [done|]. injection Hh as ->. left. }
  apply findMany_elem in Hm as [Hm Hp]. rewrite !andb_true_iff, !String.eqb_eq in Hp. tauto.
Qed.

Lemma list_member `{Platform} db u m : identity_tables db -> m ∈ membership_listByUser db u -> member_as m (roster db) /\ MembershipRow.userId m = u.
Proof.
  intros T [Hm [Eu _]%andb_true_iff]%findMany_elem. split; [|by apply String.eqb_eq]. exists (memberOf m). split; [by apply members_row|done].
Qed.

Section System.
Context `{Platform} (verifyPassword : string -> string -> bool) (hashSessionToken : string -> string).

Definition identity_pre (r : IdentityReq) (db : Db) : res (identity_plan r) :=
  match r with
  | Visit k => Ok (resolveVisitor hashSessionToken k db)
  | Login email password _ _ _ => login_pre verifyPassword email password db
  | Logout k => requireAuth hashSessionToken k db
  | SwitchOrg k org => switchOrg_pre hashSessionToken k org db
  | ListMemberships k org => let! v := requireAuth hashSessionToken k db in membershipsService_list (vi_actor v) org db
  | CreateMembership k org input =>
      let! v := requireAuth hashSessionToken k db in
      do! createMembership_pre (callOf k v) org db;
      Ok {| ip_call := callOf k v; ip_prior := invite_prior org input db |}
  | UpdateMembershipStatus k x _ =>
      let! v := requireAuth hashSessionToken k db in
      let! ex := authorizedMembership (vi_actor v) membership_update_status x db in
      Ok (callOf k v, ex)
  | UpdateMembershipRole k x newRole =>
      let! v := requireAuth hashSessionToken k db in
      let! ex := updateRole_pre (callOf k v) x newRole db in
      Ok {| rp_call := callOf k v; rp_existing := ex; rp_prior := regrant_prior newRole ex db |}
  end.

(** The two finds of the membership service are done again, any time before
    the commit. *)
Definition identity_look (r : IdentityReq) : identity_plan r -> Db -> identity_plan r :=
  match r return identity_plan r -> Db -> identity_plan r with
  | CreateMembership _ org input => fun p db => {| ip_call := ip_call p; ip_prior := invite_prior org input db |}
  | UpdateMembershipRole _ _ newRole => fun p db =>
      {| rp_call := rp_call p; rp_existing := rp_existing p; rp_prior := regrant_prior newRole (rp_existing p) db |}
  | Visit _ | Login _ _ _ _ _ | Logout _ | SwitchOrg _ _ | ListMemberships _ _ | UpdateMembershipStatus _ _ _ => fun p _ => p
  end.

Definition identity_tx (r : IdentityReq) : identity_plan r -> Tx (identity_out r) :=
  match r with
  | Visit k => onRequest_touch k
  | Login _ _ raw ctx t => login_tx hashSessionToken raw ctx t
  | Logout k => logout_tx k
  | SwitchOrg k org => switchOrg_tx k org
  | ListMemberships _ _ => fun l => tret l
  | CreateMembership _ org input => fun p => createMembership_tx (ip_call p) org input (ip_prior p)
  | UpdateMembershipStatus _ x st => fun p => updateStatus_tx p.1 x st p.2
  | UpdateMembershipRole _ _ newRole => fun p => updateRole_tx (rp_call p) newRole (rp_existing p) (rp_prior p)
  end.

Definition identity_finish (r : IdentityReq) (p : identity_plan r) : identity_out r -> res (identity_resp r) :=
  match r return identity_out r -> res (identity_resp r) with
  | SwitchOrg _ _ => switchOrg_finish
  | Visit _ | Login _ _ _ _ _ | Logout _ | ListMemberships _ _ | CreateMembership _ _ _ | UpdateMembershipStatus _ _ _
  | UpdateMembershipRole _ _ _ => fun out => Ok out
  end.

Definition identity_service : Handler :=
  {| Req := IdentityReq; Plan := identity_plan; Out := identity_out; Resp := identity_resp;
     h_pre := identity_pre; h_look := identity_look; h_tx := identity_tx; h_finish := identity_finish |}.

(** ** What a plan still says later *)

Definition identity_plan_ok (r : IdentityReq) : identity_plan r -> Db -> Prop :=
  match r with
  | Login _ _ _ _ _ => fun p db => forall m, lp_active p = Some m -> member_as m (roster db) /\ MembershipRow.userId m = UserRow.id (lp_user p)
  | SwitchOrg _ _ => fun p db => sits (sp_visitor p) (roster db) /\ member_as (sp_membership p) (roster db) /\
      MembershipRow.userId (sp_membership p) = UserRow.id (vi_user (sp_visitor p))
  | UpdateMembershipStatus _ x _ => fun p db => MembershipRow.id p.2 = x /\ member_as p.2 (roster db) /\ one_of OPERATORS (actor p.1)
  | UpdateMembershipRole _ _ newRole => fun p db => member_as (rp_existing p) (roster db) /\ MembershipRow.role (rp_existing p) <> newRole /\
      one_of [PLATFORM_OWNER] (actor (rp_call p)) /\
      seen_in (rp_prior p) (MembershipRow.userId (rp_existing p)) (MembershipRow.organizationId (rp_existing p)) newRole (roster db)
  | Visit _ | Logout _ | ListMemberships _ _ | CreateMembership _ _ _ => fun _ _ => True
  end.

(** What a cookie resolves to. *)
Record resolves (k : Cookie) (db : Db) (v : Visitor) (s : SessionRow.t) : Prop := {
  rv_token : exists tok, ck_token k = Some tok /\ tok <> "" /\ SessionRow.tokenHash s = hashSessionToken tok;
  rv_session : s ∈ sessions db;
  rv_id : vi_sessionId v = SessionRow.id s;
  rv_user : findById (users db) (SessionRow.userId s) = Some (vi_user v);
  rv_open : SessionRow.revokedAt s = None;
  rv_fresh : ck_now k < SessionRow.expiresAt s;
  rv_actor : vi_actor v = actorOf {| sc_session := s; sc_user := vi_user v; sc_activeMembership := SessionRow.activeMembershipId s ≫= membership_findById db |}
}.

Lemma resolve_Some k db v : resolveVisitor hashSessionToken k db = Some v -> exists s, resolves k db v s.
Proof. clear verifyPassword.
  unfold resolveVisitor. intros (tok & Ek & Ht & E)%when_present_Some. unfold session_findByTokenHash, findUnique in E.
  destruct (List.find _ _) as [s|] eqn:Hs; [|done]. simpl in E.
  destruct (findById (users db) _) as [u|] eqn:Hu; [|done]. simpl in E. apply find_some in Hs as [Hin%list_elem_of_In Eh%String.eqb_eq].
  destruct (SessionRow.revokedAt s) eqn:Hr; [done|]. destruct (SessionRow.expiresAt s <=? ck_now k) eqn:He; [done|]. injection E as <-.
  exists s. split; try done; [by exists tok|by apply Z.leb_gt in He].
Qed.

Lemma requireAuth_Ok k db v : requireAuth hashSessionToken k db = Ok v <-> resolveVisitor hashSessionToken k db = Some v.
Proof. clear verifyPassword. unfold requireAuth. destruct (resolveVisitor _ _ _); naive_solver. Qed.

Lemma resolves_sits k db v s : identity_tables db -> resolves k db v s -> sits v (roster db).
Proof. clear verifyPassword.
  intros T [_ Hs Ei Hu _ _ _]. exists (sittingOf s). rewrite Ei. split; [by apply session_row|]. apply findById_Some in Hu as [_ Hu]. done.
Qed.

Lemma login_pre_Ok e pw db p : login_pre verifyPassword e pw db = Ok p <->
  exists u, user_findByEmail db e = Some u /\ verifyPassword pw (UserRow.passwordHash u) = true /\ UserRow.status u = UserStatus.ACTIVE /\
    p = {| lp_user := u; lp_memberships := membership_listByUser db (UserRow.id u);
           lp_active := List.find is_active_member (membership_listByUser db (UserRow.id u)) |}.
Proof. clear hashSessionToken.
  unfold login_pre. destruct (user_findByEmail db e) as [u|]; [|naive_solver]. rewrite rbind_Ok. setoid_rewrite throw_if_Ok.
  setoid_rewrite negb_false_iff. setoid_rewrite rbind_Ok. split.
  - intros (? & Hv & ? & Hs & [= <-]). exists u. split_and!; [done|done|by destruct (UserRow.status u)|done].
  - intros (? & [= <-] & Hv & Hs & ->). exists tt. split; [done|]. exists tt. by rewrite Hs.
Qed.

Lemma identity_plan_pre db r p : identity_ok db -> identity_pre r db = Ok p -> identity_plan_ok r p db.
Proof.
  intros [T K]. destruct r as [k|e pw raw ctx t|k|k org|k org|k org i|k x st|k x nr]; simpl; intros E; try done.
  - apply login_pre_Ok in E as (u & _ & _ & _ & ->). cbn. intros m [Hm%list_elem_of_In _]%find_some. by apply list_member.
  - unfold switchOrg_pre in E. apply rbind_Ok in E as (v & (s & Hv)%requireAuth_Ok%resolve_Some & E).
    destruct (membership_findActiveByUserAndOrg _ _ _ _) as [m|] eqn:Hm; [|done]. injection E as <-. cbn.
    apply findActive_Some in Hm as (Hm & Eu & _ & _). split_and!; [by eapply resolves_sits|exists (memberOf m); split; [by apply members_row|done]|done].
  - apply rbind_Ok in E as (v & _ & E). apply rbind_Ok in E as (ex & [Hm Ha]%authorizedMembership_Ok & [= <-]). cbn.
    destruct (member_now _ _ _ Hm). split_and!; [done|done|]. by apply (grant_role (vi_actor v) membership_update_status _ _ _ eq_refl Ha).
  - apply rbind_Ok in E as (v & _ & E). apply rbind_Ok in E as (ex & (Hm & Ha & Hr)%updateRole_pre_Ok & [= <-]). cbn.
    destruct (member_now _ _ _ Hm). split_and!; [done|done| |by apply seen_now]. by apply (grant_role (vi_actor v) membership_update_role _ _ _ eq_refl Ha).
Qed.

Lemma identity_plan_look db r p : identity_ok db -> identity_plan_ok r p db -> identity_plan_ok r (identity_look r p db) db.
Proof. intros [T _]. destruct r; cbn; try done. intros (A & B & C & _). split_and!; [done|done|done|by apply seen_now]. Qed.

Lemma identity_plan_later db db' r p : roster_later (roster db) (roster db') -> identity_plan_ok r p db -> identity_plan_ok r p db'.
Proof.
  intros L. destruct r; simpl; try done.
  - intros Hp m Hm. destruct (Hp m Hm) as [A B]. split; [by eapply member_as_later|done].
  - intros (A & B & C). split_and!; [by eapply sits_later|by eapply member_as_later|done].
  - intros (A & B & C). split_and!; [done|by eapply member_as_later|done].
  - intros (A & B & C & D). split_and!; [by eapply member_as_later|done|done|by eapply seen_later].
Qed.

(** ** The obligations of [Transactions] *)

Lemma identity_tx_does db r p out db' : identity_ok db -> identity_plan_ok r p db -> identity_tx r p db = Ok (out, db') ->
  exists log, identity_does db db' log.
Proof.
  intros K. destruct r as [k|e pw raw ctx t|k|k org|k org|k org i|k x st|k x nr]; simpl; intros J E.
  - eexists. by eapply visit_does.
  - destruct (login_does _ _ _ _ _ _ _ _ K J E) as [a D]. by exists [a].
  - destruct (logout_does _ _ _ _ _ K E) as (a & D & _). by exists [a].
  - destruct J as (A & B & C). destruct (switchOrg_does _ _ _ _ _ _ K A B C E) as [a D]. by exists [a].
  - injection E as _ <-. exists []. by apply does_nothing.
  - destruct (invite_does _ _ _ _ _ _ _ K E) as [a D]. by exists [a].
  - destruct J as (A & B & C). destruct (updateStatus_does _ _ _ _ _ _ _ K A B C E) as (a & D & _). by exists [a].
  - destruct J as (A & B & C & S). destruct (updateRole_does _ _ _ _ _ _ _ K A B C S E) as (a & D & _). by exists [a].
Qed.

Lemma identity_env_roster db db' : identity_env db db' -> roster db' = roster db.
Proof. intros [_ E1 E2 _ _ _]. unfold roster. by rewrite E1, E2. Qed.

(** [identity_ok], and every ACTIVE membership that [g0] has not is journaled. *)
Record identity_good (g0 : Roster) (db : Db) : Prop := {
  ig_ok : identity_ok db;
  ig_earned : earned g0 (roster db) (auditEvents db)
}.

Lemma good_tx g0 db r p out db' : identity_good g0 db -> identity_plan_ok r p db -> identity_tx r p db = Ok (out, db') -> identity_good g0 db'.
Proof.
  intros [K Ea] J E. destruct (identity_tx_does _ _ _ _ _ K J E) as [log [K' _ El Ea' _ _]]. split; [done|].
  intros x m Hm Hs. rewrite El, Exists_app. destruct (Ea' x m Hm Hs) as [Hm'|]; [|by right; right]. destruct (Ea x m Hm' Hs); [by left|by right; left].
Qed.

Lemma good_env g0 db db' : identity_good g0 db -> identity_env db db' -> identity_good g0 db'.
Proof.
  intros [[T K] Ea] Ev. pose proof Ev as [_ E1 E2 [log El] Hd Hc]. split; [split|].
  - by apply (tables_later db).
  - by rewrite (identity_env_roster _ _ Ev).
  - rewrite (identity_env_roster _ _ Ev), El. intros x m Hm Hs. rewrite Exists_app. destruct (Ea x m Hm Hs); [by left|by right; left].
Qed.

Lemma identity_J_tx g0 db r p out db' r' p' : identity_good g0 db -> identity_plan_ok r p db -> identity_tx r p db = Ok (out, db') ->
  identity_plan_ok r' p' db -> identity_plan_ok r' p' db'.
Proof. intros [K _] J E. destruct (identity_tx_does _ _ _ _ _ K J E) as [log D]. apply identity_plan_later, roster_run_later, D. Qed.

Lemma identity_J_env g0 db db' r p : identity_good g0 db -> identity_env db db' -> identity_plan_ok r p db -> identity_plan_ok r p db'.
Proof. intros K Ev. apply identity_plan_later. by rewrite (identity_env_roster _ _ Ev). Qed.

Lemma good_start db : identity_ok db -> identity_good (roster db) db.
Proof. intros K. split; [done|]. intros x m Hm _. by left. Qed.

#[local] Notation anyone := (fun _ : IdentityReq => True).
#[local] Notation reach := (reaches identity_service identity_env anyone).

Lemma identity_wf g0 db s : identity_good g0 db -> reach db s -> wf identity_service (identity_good g0) identity_plan_ok s.
Proof.
  apply wf_reaches.
  - intros d r p _ [K _]. by apply identity_plan_pre.
  - intros d r p [K _]. by apply identity_plan_look.
  - intros d r p out d'. apply good_tx.
  - apply good_env.
  - apply identity_J_tx.
  - apply identity_J_env.
Qed.

Lemma identity_reach db s : identity_ok db -> reach db s -> identity_good (roster db) (store s).
Proof. intros K R. by destruct (identity_wf (roster db) db s (good_start db K) R). Qed.

(** Between any two moments of a run. *)
Lemma identity_between g0 s s' : wf identity_service (identity_good g0) identity_plan_ok s -> rtc (step identity_service identity_env anyone) s s' ->
  rtc roster_step (roster (store s)) (roster (store s')).
Proof.
  apply (simulation_between identity_service identity_env anyone (identity_good g0) identity_plan_ok).
  - intros d r p _ [K _]. by apply identity_plan_pre.
  - intros d r p [K _]. by apply identity_plan_look.
  - intros d r p out d'. apply good_tx.
  - apply good_env.
  - apply identity_J_tx.
  - apply identity_J_env.
  - intros d r p out d' [K _] J E. destruct (identity_tx_does _ _ _ _ _ K J E) as [log D]. apply D.
  - intros d d' _ Ev. by rewrite (identity_env_roster _ _ Ev).
Qed.

End System.
