(* ===== verification/IdentityRequests.v ===== *)
(** * When a sign-in or membership request succeeds

    On [identity_ok] tables a request on its own succeeds exactly in the case
    [identity_accepted] describes. *)
From S2P Require Import Prelude StableSort DomainStates AuthzMatrix Authz JsonText Database Tables ApiShared Idempotency.
From S2P Require Import LockboxRepositories RfqService EconomicsTheorems IdentityRepositories IdentityService IdentityBook IdentitySystem PassportRequests Transactions.
Import Roles Actions.
#[local] Open Scope Z_scope.

Section Bodies.
Context `{Platform}.

(** The user can be given the role in the organization: they had it and it was
    revoked, or they never had it and exist. *)
Definition grantable (db : Db) (u org : string) (r : PersonaRole) : Prop :=
  match membership_findByUserOrgRole db u org r with
  | Some m => MembershipRow.status m = MembershipStatus.REVOKED
  | None => is_Some (findById (users db) u)
  end.

(** ** Bodies that go through *)

Lemma through_unique {A} (m : Tx A) msg db : goes_through (uniqueSafe m msg) db <-> goes_through m db.
Proof. unfold goes_through, uniqueSafe. by setoid_rewrite runUniqueConstraintSafe_Ok. Qed.

Lemma through_written {B} ctx i (k : AuditEventRow.t -> Tx B) db : (forall a d, goes_through (k a) d) -> goes_through (tbind (auditWriter ctx i) k) db.
Proof. intros Hk. apply through_audit. intros a d _. apply Hk. Qed.

Lemma through_inv {A B} (m : Tx A) (k : A -> Tx B) db : goes_through (tbind m k) db -> exists a d, m db = Ok (a, d) /\ goes_through (k a) d.
Proof. intros (b & db' & (a & d & E & Ek)%tbind_Ok). exists a, d. split; [done|]. by exists b, db'. Qed.

Lemma session_update_run x f db s : findById (sessions db) x = Some s -> exists s' d, session_update x f db = Ok (s', d).
Proof. intros Hs. unfold session_update, updateById. rewrite Hs. by eexists _, _. Qed.

Lemma member_update_run x st u t db m : membership_findById db x = Some m -> exists d, membership_updateStatus x st u t db = Ok (withStatus st u t m, d).
Proof. unfold membership_findById. intros Hm. unfold membership_updateStatus, updateById. rewrite Hm. by eexists. Qed.

Lemma reactivate_run x st src u t db m : membership_findById db x = Some m -> goes_through (membership_reactivate x st src u t) db.
Proof. unfold membership_findById. intros Hm. unfold goes_through, membership_reactivate, updateById. rewrite Hm. by eexists _, _. Qed.

Lemma create_run i t db : goes_through (IdentityRepositories.membership_create i t) db <->
  membership_findByUserOrgRole db (cm_userId i) (cm_organizationId i) (cm_role i) = None /\ is_Some (findById (users db) (cm_userId i)).
Proof.
  unfold goes_through, IdentityRepositories.membership_create. setoid_rewrite (tbind_run _ _ _ _ _ eq_refl).
  change (membership_findByUserOrgRole (set_drawn (S (drawn db)) db)) with (membership_findByUserOrgRole db).
  change (users (set_drawn (S (drawn db)) db)) with (users db).
  destruct (membership_findByUserOrgRole _ _ _ _) as [m|]; [naive_solver|]. destruct (findById (users db) (cm_userId i)) as [u|] eqn:Hu.
  - split; [by eexists|]. intros _. by eexists _, _.
  - split; [by intros (? & ? & ?)|by intros [_ []]].
Qed.

(** What a grant needs. *)
Lemma invite_run c org i db : identity_tables db -> goes_through (invite c org i (invite_prior org i db)) db <-> grantable db (mr_userId i) org (mr_role i).
Proof.
  intros T. unfold invite, invite_prior, grantable, goes_through. destruct (membership_findByUserOrgRole db _ _ _) as [m|] eqn:Hf.
  - case_bool_decide as Hs; [|by split; [intros (? & ? & ?)|]]. split; [done|intros _]. destruct (seat_taken _ _ _ _ _ T Hf) as [Hm _].
    destruct (reactivate_run (MembershipRow.id m) MembershipStatus.INVITED (mr_invitationSource i) (Some (userId (actor c))) (now c) db m Hm) as (r & d & E).
    rewrite (tbind_run _ _ _ _ _ E). by eexists _, _.
  - match goal with |- context [tbind ?m ?f db] => assert (goes_through m db <-> is_Some (findById (users db) (mr_userId i))) as E by (rewrite create_run; cbn; naive_solver) end.
    rewrite <- E. split.
    + intros (a & d & (r & d1 & E1 & _)%tbind_Ok). by exists r, d1.
    + intros (r & d & E1). rewrite (tbind_run _ _ _ _ _ E1). by eexists _, _.
Qed.

Lemma regrant_run c ex nr db : identity_tables db -> goes_through (regrant c ex nr (regrant_prior nr ex db)) db <->
  grantable db (MembershipRow.userId ex) (MembershipRow.organizationId ex) nr.
Proof.
  intros T. unfold goes_through, regrant, regrant_prior, grantable. destruct (membership_findByUserOrgRole db _ _ _) as [m|] eqn:Hf; [case_bool_decide as Hs|].
  - split; [done|intros _]. destruct (seat_taken _ _ _ _ _ T Hf) as [Hm _]. by eapply reactivate_run.
  - split; [|done]. intros [Hn _]%create_run. cbn in Hn. congruence.
  - change (goes_through (IdentityRepositories.membership_create (regrant_input c ex nr) (now c)) db <-> is_Some (findById (users db) (MembershipRow.userId ex))).
    rewrite create_run. cbn. naive_solver.
Qed.

(** ** Reads *)

Lemma findMany_intro {R} order (q : R -> bool) t r : r ∈ t -> q r = true -> r ∈ findMany order q t.
Proof. intros Hr Hq. unfold findMany. apply sort_by_elem, elem_of_filter_list. by split. Qed.

Lemma in_effect_active db m t : identity_tables db -> m ∈ organizationMemberships db -> in_effect t m = true <-> MembershipRow.status m = MembershipStatus.ACTIVE.
Proof.
  intros T Hm. pose proof (proj1 (Forall_forall _ _) (it_ended _ T) m Hm) as [He _]. unfold in_effect. rewrite andb_true_iff, bool_decide_eq_true.
  split; [tauto|]. intros Hs. split; [done|]. by rewrite (proj2 He) by congruence.
Qed.

Lemma findActive_exists db u org t : identity_tables db -> (exists m, membership_findActiveByUserAndOrg db u org t = Some m) <->
  exists m, m ∈ organizationMemberships db /\ MembershipRow.userId m = u /\ MembershipRow.organizationId m = org /\ MembershipRow.status m = MembershipStatus.ACTIVE.
Proof.
  intros T. split.
  - intros (m & (Hm & Eu & Eo & He)%findActive_Some). exists m. split_and!; [done|done|done|by apply (in_effect_active db m t T Hm)].
  - intros (m & Hm & Eu & Eo & Hs). unfold membership_findActiveByUserAndOrg.
    match goal with |- exists x, head ?l = _ => assert (m ∈ l) as Hl end.
    { apply findMany_intro; [done|]. rewrite (proj2 (String.eqb_eq _ _) Eu), (proj2 (String.eqb_eq _ _) Eo). by apply (in_effect_active db m t T Hm). }
    destruct (findMany _ _ _) as [|x l]; [by apply elem_of_nil in Hl|by exists x].
Qed.

Lemma createMembership_pre_Ok c org db u : createMembership_pre c org db = Ok u <->
  allowed (can (actor c) Actions.membership_create (resource ResourceType.membership (Some org)) noContext) = true /\ is_Some (organization_findById db org).
Proof.
  unfold createMembership_pre. rewrite rbind_Ok. setoid_rewrite require_Ok. destruct (organization_findById db org) as [o|]; destruct u; [|split; [naive_solver|by intros [_ []]]].
  split; [naive_solver|]. intros [Ha _]. by exists tt.
Qed.

(** ** The plan's transaction *)

Lemma findUnique_map {R} (q : R -> bool) (g : R -> R) t : (forall r, q (g r) = q r) -> findUnique q (map g t) = g <$> findUnique q t.
Proof. intros E. unfold findUnique. induction t as [|r t IH]; [done|]. cbn. rewrite E, IH. by destruct (q r). Qed.

(** Revoking one role leaves the place of another as it was. *)
Lemma place_revoked db x u t ctx n m u' t' w org r d1 d2 : identity_tables db -> membership_findById db x = Some m -> MembershipRow.role m <> r ->
  membership_updateStatus x MembershipStatus.REVOKED u t db = Ok (ctx, d1) -> session_revokeAllForUser u' t' d1 = Ok (n, d2) ->
  membership_findByUserOrgRole d2 w org r = membership_findByUserOrgRole db w org r /\ users d2 = users db.
Proof.
  intros T Hm Hr E1 [= _ <-]. unfold membership_updateStatus in E1. apply rbind_Ok in E1 as ([r' tab] & E1 & [= _ <-]).
  apply updateById_Ok in E1 as (m0 & _ & _ & ->). split; [|done]. unfold membership_findByUserOrgRole.
  cbn [organizationMemberships users set_sessions set_organizationMemberships].
  change (map (fun r0 => if byId x r0 then withStatus MembershipStatus.REVOKED u t r0 else r0) (organizationMemberships db))
    with (map (updating x (withStatus MembershipStatus.REVOKED u t)) (organizationMemberships db)).
  rewrite findUnique_map by (intros y; unfold updating; by destruct (byId x y)).
  destruct (findUnique (holds w org r) (organizationMemberships db)) as [y|] eqn:Hf; cbn [fmap option_fmap option_map]; [|done].
  pose proof (seat_taken db w org r y T Hf) as [Hy Hk]. rewrite updating_miss; [done|]. intros E. change (row_id y) with (MembershipRow.id y) in E.
  rewrite E, Hm in Hy. injection Hy as <-. unfold seat_key in Hk. cbn in Hk. congruence.
Qed.

Lemma updateRole_runs c x nr db ex : identity_tables db -> membership_findById db x = Some ex -> MembershipRow.role ex <> nr ->
  goes_through (updateRole_tx c nr ex (regrant_prior nr ex db)) db <-> grantable db (MembershipRow.userId ex) (MembershipRow.organizationId ex) nr.
Proof.
  intros T Hm Hr. unfold updateRole_tx. rewrite through_unique. pose proof (member_found _ _ _ Hm) as (_ & Ei & _). rewrite <- Ei in Hm.
  destruct (member_update_run (MembershipRow.id ex) MembershipStatus.REVOKED (Some (userId (actor c))) (now c) db ex Hm) as [d1 E1].
  destruct (session_revokeAllForUser (MembershipRow.userId ex) (now c) d1) as [[n d2]|] eqn:E2; [|done].
  destruct (place_revoked _ _ _ _ _ _ _ _ _ (MembershipRow.userId ex) (MembershipRow.organizationId ex) nr _ _ T Hm Hr E1 E2) as [Hg Hu].
  assert (regrant_prior nr ex db = regrant_prior nr ex d2) as -> by (symmetry; exact Hg).
  assert (grantable db (MembershipRow.userId ex) (MembershipRow.organizationId ex) nr <-> grantable d2 (MembershipRow.userId ex) (MembershipRow.organizationId ex) nr)
    as -> by (unfold grantable; by rewrite Hg, Hu).
  assert (identity_tables d2) as T2.
  { apply (revokeAll_leaves (MembershipRow.userId ex) (now c) d1 n d2); [|exact E2]. by pose proof E1 as (? & _ & _ & [? _ _ _ _])%(updateStatus_leaves _ _ _ _ _ _ _ T). }
  rewrite <- (regrant_run c ex nr d2 T2). split.
  - intros Hb. apply through_inv in Hb as (? & ? & E1' & Hb). rewrite E1 in E1'. injection E1' as <- <-.
    apply through_inv in Hb as (? & ? & E2' & Hb). rewrite E2 in E2'. injection E2' as <- <-.
    apply through_inv in Hb as (r & d & E & _). by exists r, d.
  - intros (r & d & E). eapply through_bind; [exact E1|]. eapply through_bind; [exact E2|]. eapply through_bind; [exact E|].
    apply through_written. intros ??. apply through_ret.
Qed.

Lemma updateStatus_runs c x st db ex : membership_findById db x = Some ex -> goes_through (updateStatus_tx c x st ex) db.
Proof.
  intros Hm. unfold updateStatus_tx. destruct (member_update_run x st (Some (userId (actor c))) (now c) db ex Hm) as [d1 E1].
  eapply through_bind; [exact E1|]. assert (exists d2, (if bool_decide (st = MembershipStatus.ACTIVE) then tret tt
    else (do* session_revokeAllForUser (MembershipRow.userId ex) (now c); tret tt)) d1 = Ok (tt, d2)) as [d2 E2] by (case_bool_decide; by eexists).
  eapply through_bind; [exact E2|]. apply through_written. intros ??. apply through_ret.
Qed.

Lemma createMembership_runs c org i db : identity_tables db -> goes_through (createMembership_tx c org i (invite_prior org i db)) db <-> grantable db (mr_userId i) org (mr_role i).
Proof.
  intros T. unfold createMembership_tx. rewrite through_unique, <- (invite_run c org i db T). split.
  - intros ([m a] & d & E & _)%through_inv. by exists (m, a), d.
  - intros ([m a] & d & E). eapply through_bind; [exact E|]. apply through_written. intros ??. apply through_ret.
Qed.

End Bodies.

Section Requests.
Context `{Platform} (verifyPassword : string -> string -> bool) (hashSessionToken : string -> string).

#[local] Notation service := (identity_service verifyPassword hashSessionToken).

Definition signed_in (k : Cookie) (db : Db) (v : Visitor) : Prop := resolveVisitor hashSessionToken k db = Some v.

(** A membership the visitor may act on. *)
Definition may_manage (v : Visitor) (act : Action) (x : string) (db : Db) (m : MembershipRow.t) : Prop :=
  membership_findById db x = Some m /\ allowed (can (vi_actor v) act (membershipResource m) noContext) = true.

Definition unused_token (db : Db) (h : string) : Prop := findUnique (fun s => String.eqb (SessionRow.tokenHash s) h) (sessions db) = None.

Definition identity_accepted (r : IdentityReq) (db : Db) : Prop :=
  match r with
  | Visit _ => True
  | Login email password raw _ _ =>
      (exists u, user_findByEmail db email = Some u /\ verifyPassword password (UserRow.passwordHash u) = true /\ UserRow.status u = UserStatus.ACTIVE) /\
      unused_token db (hashSessionToken raw)
  | Logout k => exists v, signed_in k db v
  | SwitchOrg k org => exists v, signed_in k db v /\
      exists m, m ∈ organizationMemberships db /\ MembershipRow.userId m = UserRow.id (vi_user v) /\ MembershipRow.organizationId m = org /\
        MembershipRow.status m = MembershipStatus.ACTIVE
  | ListMemberships k org => exists v, signed_in k db v /\
      allowed (can (vi_actor v) membership_list (resource ResourceType.membership (Some org)) noContext) = true
  | CreateMembership k org i => (exists v, signed_in k db v /\
      allowed (can (vi_actor v) Actions.membership_create (resource ResourceType.membership (Some org)) noContext) = true) /\
      is_Some (organization_findById db org) /\ grantable db (mr_userId i) org (mr_role i)
  | UpdateMembershipStatus k x _ => exists v m, signed_in k db v /\ may_manage v membership_update_status x db m
  | UpdateMembershipRole k x newRole => exists v m, signed_in k db v /\ may_manage v membership_update_role x db m /\
      MembershipRow.role m <> newRole /\ grantable db (MembershipRow.userId m) (MembershipRow.organizationId m) newRole
  end.

Lemma sitting_row k db v s : identity_tables db -> resolves hashSessionToken k db v s -> findById (sessions db) (vi_sessionId v) = Some s.
Proof. clear verifyPassword. intros T [_ Hs -> _ _ _ _]. exact (findById_elem db _ s (it_sessions _ T) Hs). Qed.

Lemma requireAuth_signed k db v : requireAuth hashSessionToken k db = Ok v <-> signed_in k db v.
Proof. clear verifyPassword. apply requireAuth_Ok. Qed.

Definition answers (r : IdentityReq) (p : identity_plan r) (db : Db) : Prop :=
  exists out d, identity_tx hashSessionToken r p db = Ok (out, d) /\ is_ok (identity_finish r p out) = true.

Lemma login_runs raw ctx t p db : identity_tables db -> is_Some (findById (users db) (UserRow.id (lp_user p))) ->
  goes_through (login_tx hashSessionToken raw ctx t p) db <-> unused_token db (hashSessionToken raw).
Proof. clear verifyPassword.
  intros T [u Hu]. unfold unused_token. split.
  - intros (s & d & E & _)%through_inv. unfold session_create in E. apply tbind_Ok in E as (x & d1 & [= <- <-] & E). cbn [cs_tokenHash] in E.
    match type of E with match ?f with _ => _ end = _ => destruct f as [|] eqn:Hn; [done|] end. exact Hn.
  - intros Hn. unfold login_tx. assert (exists s, session_create {| cs_userId := UserRow.id (lp_user p); cs_tokenHash := hashSessionToken raw;
      cs_activeMembershipId := MembershipRow.id <$> lp_active p; cs_expiresAt := sessionExpiryFromNow t; cs_ipClass := Some (ipClass ctx);
      cs_userAgentClass := Some (userAgentClass ctx) |} db = Ok (s, set_sessions (sessions db ++ [s]) (set_drawn (S (drawn db)) db))) as [s Es].
    { eexists. unfold session_create. rewrite (tbind_run _ _ _ _ _ eq_refl). cbn [cs_tokenHash].
      change (sessions (set_drawn (S (drawn db)) db)) with (sessions db). by rewrite Hn. }
    eapply through_bind; [exact Es|]. assert (exists u' d, user_recordLogin (UserRow.id (lp_user p)) t (set_sessions (sessions db ++ [s]) (set_drawn (S (drawn db)) db)) = Ok (u', d)) as (u' & d & Eu).
    { unfold user_recordLogin, updateById. cbn [users set_sessions set_drawn]. rewrite Hu. by eexists _, _. }
    eapply through_bind; [exact Eu|]. apply through_written. intros ??. apply through_ret.
Qed.

Lemma switchOrg_answers k org p db s m : identity_tables db -> findById (sessions db) (vi_sessionId (sp_visitor p)) = Some s ->
  sp_membership p = m -> m ∈ organizationMemberships db -> MembershipRow.userId m = UserRow.id (vi_user (sp_visitor p)) ->
  MembershipRow.status m = MembershipStatus.ACTIVE -> answers (SwitchOrg k org) p db.
Proof. clear verifyPassword.
  intros T Hs Em Hm Eu Ha. unfold answers. cbn [identity_tx identity_finish]. unfold switchOrg_tx. cbv zeta. rewrite Em.
  destruct (session_update_run (vi_sessionId (sp_visitor p)) (switched (MembershipRow.id m)) db s Hs) as (s' & d & E).
  setoid_rewrite (tbind_run _ _ _ _ _ E). pose proof E as (s0 & _ & _ & L)%(session_update_leaves _ _ (pointed (MembershipRow.id m))); [|done|done|done].
  destruct (commits_audit {| a_actorUserId := Some (UserRow.id (vi_user (sp_visitor p))); a_actorOrgId := Some org; a_actorRole := Some (MembershipRow.role m);
    a_subjectOrgId := Some org; a_action := "auth.switch_org"; a_resourceType := "user"; a_resourceId := Some (UserRow.id (vi_user (sp_visitor p)));
    a_beforeValue := None; a_afterValue := None; a_reason := None |} (Some (ck_context k)) d) as (a & d2 & E2).
  setoid_rewrite (tbind_run _ _ _ _ _ E2). eexists _, _. split; [reflexivity|].
  assert (organizationMemberships d2 = organizationMemberships db) as Et.
  { pose proof (audit_aside _ _ _ _ _ E2) as (? & ? & ? & ? & _ & ->). unfold session_update in E. by apply rbind_Ok in E as ([? ?] & _ & [= _ <-]). }
  unfold membership_listByUser. rewrite Et. match goal with |- is_ok (switchOrg_finish (List.find ?q ?l)) = true => assert (m ∈ l) as Hl; [|destruct (List.find q l) eqn:Hf; [done|]] end.
  - apply findMany_intro; [done|]. rewrite (proj2 (String.eqb_eq _ _) Eu), Ha. by rewrite bool_decide_eq_true_2 by set_solver.
  - exfalso. apply list_elem_of_In in Hl. pose proof (find_none _ _ Hf m Hl) as Hne. cbv beta in Hne. by rewrite String.eqb_refl in Hne.
Qed.

(** ** Each request *)

Lemma answers_plain r p db : (forall out, is_ok (identity_finish r p out) = true) -> answers r p db <-> goes_through (identity_tx hashSessionToken r p) db.
Proof. clear verifyPassword. intros Hf. split; [intros (out & d & E & _)|intros (out & d & E)]; by exists out, d. Qed.

Lemma switch_answers k org p db : identity_ok db -> identity_pre verifyPassword hashSessionToken (SwitchOrg k org) db = Ok p -> answers (SwitchOrg k org) p db.
Proof.
  intros [T K] Ep. cbn [identity_pre] in Ep. unfold switchOrg_pre in Ep. apply rbind_Ok in Ep as (v & Hv%requireAuth_signed & Ep). pose proof Hv as [s Hs]%resolve_Some.
  destruct (membership_findActiveByUserAndOrg _ _ _ _) as [m|] eqn:Hm; [|done]. injection Ep as <-. pose proof Hm as (Hin & Eu & Eo & He)%findActive_Some.
  apply (in_effect_active db) in He; [|done|done]. by apply (switchOrg_answers k org _ db s m); [|eapply sitting_row| | | |].
Qed.

Lemma identity_runs r p db : identity_ok db -> identity_pre verifyPassword hashSessionToken r db = Ok p -> answers r p db <-> identity_accepted r db.
Proof.
  intros [T K]. destruct r as [k|e pw raw ctx t|k|k org|k org|k org i|k x st|k x nr]; cbn [identity_pre]; intros Ep.
  1-3, 5-8: rewrite answers_plain by done; cbn [identity_tx identity_accepted].
  - injection Ep as <-. split; [done|intros _]. destruct (resolveVisitor _ _ _) as [v|] eqn:Hv; [|apply through_ret]. apply resolve_Some in Hv as [s Hv].
    destruct (session_update_run (vi_sessionId v) (seen (ck_now k)) db s (sitting_row _ _ _ _ T Hv)) as (s' & d & E). eapply through_bind; [exact E|]. apply through_ret.
  - apply login_pre_Ok in Ep as (u & Hu & Hp & Hs & ->). set (p := {| lp_user := u |}).
    assert (is_Some (findById (users db) (UserRow.id (lp_user p)))) as Hf.
    { pose proof Hu as [Hin%list_elem_of_In _]%find_some. cbn [lp_user p]. destruct (findById (users db) (UserRow.id u)) as [|] eqn:Hf; [done|]. by apply (findById_None _ _ u) in Hf. }
    rewrite (login_runs raw ctx t p db T Hf). by split; [intros Hn; split; [exists u|]|intros [_ Hn]].
  - apply requireAuth_signed in Ep. split; [by exists p|intros _]. pose proof Ep as [s Hv]%resolve_Some.
    destruct (session_update_run (vi_sessionId p) (revoked (ck_now k)) db s (sitting_row _ _ _ _ T Hv)) as (s' & d & E). eapply through_bind; [exact E|].
    apply through_written. intros ??. apply through_ret.
  - apply rbind_Ok in Ep as (v & Hv%requireAuth_signed & Ep). unfold membershipsService_list in Ep. apply rbind_Ok in Ep as ([] & Ha%require_Ok & _).
    split; [by exists v|intros _; apply through_ret].
  - apply rbind_Ok in Ep as (v & Hv%requireAuth_signed & Ep). apply rbind_Ok in Ep as ([] & [Ha Ho]%createMembership_pre_Ok & [= <-]).
    cbn [ip_call ip_prior]. rewrite createMembership_runs by done. split; [intros Hg; split_and!; [by exists v|done|done]|by intros (_ & _ & Hg)].
  - apply rbind_Ok in Ep as (v & Hv%requireAuth_signed & Ep). apply rbind_Ok in Ep as (m & [Hm Ha]%authorizedMembership_Ok & [= <-]).
    split; [intros _; by exists v, m|intros _; by apply updateStatus_runs].
  - apply rbind_Ok in Ep as (v & Hv%requireAuth_signed & Ep). apply rbind_Ok in Ep as (m & (Hm & Ha & Hr)%updateRole_pre_Ok & [= <-]).
    cbn [rp_call rp_existing rp_prior]. rewrite (updateRole_runs _ x) by done. split; [intros Hg; by exists v, m|].
    intros (v' & m' & _ & [Hm' _] & _ & Hg). rewrite Hm in Hm'. by injection Hm' as <-.
  - split; [intros _|intros _; by apply switch_answers].
    unfold switchOrg_pre in Ep. apply rbind_Ok in Ep as (v & Hv%requireAuth_signed & Ep). exists v. split; [done|].
    apply (findActive_exists _ _ _ (ck_now k)); [done|]. destruct (membership_findActiveByUserAndOrg _ _ _ _) as [m|]; [by exists m|done].
Qed.

Lemma accepted_plans r db : identity_ok db -> identity_accepted r db -> exists p, identity_pre verifyPassword hashSessionToken r db = Ok p.
Proof.
  intros [T _]. destruct r as [k|e pw raw ctx t|k|k org|k org|k org i|k x st|k x nr]; cbn [identity_pre identity_accepted].
  - by eexists.
  - intros [(u & Hu & Hp & Hs) _]. eexists. apply login_pre_Ok. by exists u.
  - intros [v Hv]. exists v. by apply requireAuth_signed.
  - intros (v & Hv & Hm). apply (findActive_exists _ _ _ (ck_now k)) in Hm as [m Hm]; [|done]. unfold switchOrg_pre. rewrite (proj2 (requireAuth_signed _ _ _) Hv). cbn [rbind].
    rewrite Hm. by eexists.
  - intros (v & Hv & Ha). rewrite (proj2 (requireAuth_signed _ _ _) Hv). cbn [rbind]. unfold membershipsService_list. rewrite (proj2 (require_Ok _ tt) Ha). by eexists.
  - intros ((v & Hv & Ha) & Ho & _). rewrite (proj2 (requireAuth_signed _ _ _) Hv). cbn [rbind]. rewrite (proj2 (createMembership_pre_Ok (callOf k v) org db tt) (conj Ha Ho)). by eexists.
  - intros (v & m & Hv & Hm). rewrite (proj2 (requireAuth_signed _ _ _) Hv). cbn [rbind]. rewrite (proj2 (authorizedMembership_Ok _ _ _ _ _) Hm). by eexists.
  - intros (v & m & Hv & [Hm Ha] & Hr & _). rewrite (proj2 (requireAuth_signed _ _ _) Hv). cbn [rbind].
    rewrite (proj2 (updateRole_pre_Ok (callOf k v) x nr db m) (conj Hm (conj Ha Hr))). by eexists.
Qed.

Lemma serve_identity_iff r db : identity_ok db -> is_ok (snd (serve service r db)) = true <-> identity_accepted r db.
Proof.
  intros K. unfold serve. cbn [h_pre h_tx h_finish identity_service]. destruct (identity_pre verifyPassword hashSessionToken r db) as [p|e] eqn:Ep.
  - rewrite <- (identity_runs r p db K Ep). unfold answers. destruct (identity_tx hashSessionToken r p db) as [[a d]|]; cbn [snd]; naive_solver.
  - cbn. split; [done|]. intros [q Hq]%(accepted_plans _ _ K). congruence.
Qed.

End Requests.
