(* ===== verification/IdentityTheorems.v ===== *)
(** * Sign-in and memberships: the theorems

    A sample tenant; what holds in every reachable state, what one request
    does; the witnesses on the sample. *)
From S2P Require Import Prelude StableSort DomainStates AuthzMatrix Authz JsonText Database Tables ApiShared Idempotency LockboxRepositories RfqService.
From S2P Require Import IdentityRepositories IdentityService IdentityBook IdentitySystem Transactions EconomicsTheorems LockboxTheorems TradeSample.
From S2P Require Import IdentityRequests.
From stdpp Require Import relations.
Import Roles Actions.
#[local] Open Scope Z_scope.

(** ** A sample tenant

    The platform owner signs in, invites an operator and activates them: the
    inputs of the witnesses; and what the services let happen that their
    comments do not say. *)

Definition sampleUser (x : string) : UserRow.t :=
  {| UserRow.id := x; UserRow.email := x +:+ "@tol.example"; UserRow.passwordHash := x; UserRow.status := UserStatus.ACTIVE;
     UserRow.mfaEnabled := false; UserRow.lastLoginAt := None; UserRow.base := sampleBase |}.

Definition founder : MembershipRow.t :=
  {| MembershipRow.id := "id-0"; MembershipRow.organizationId := "hq"; MembershipRow.userId := "owner"; MembershipRow.role := PLATFORM_OWNER;
     MembershipRow.status := MembershipStatus.ACTIVE; MembershipRow.invitationSource := None; MembershipRow.effectiveFrom := 0;
     MembershipRow.effectiveTo := None; MembershipRow.retiredAt := None; MembershipRow.base := sampleBase |}.

Definition tenantDb : Db :=
  set_drawn 1 (set_organizationMemberships [founder] (set_users (map sampleUser ["owner"; "clerk"; "friend"])
    (set_organizations (map sampleOrganization ["hq"]) emptyDb))).

Definition samePassword (password hash : string) : bool := String.eqb password hash.
Definition sampleHash (token : string) : string := "hashed " +:+ token.

Notation sampleIdentity := (identity_service samePassword sampleHash).
Notation any_visitor := (fun _ : IdentityReq => True).

Definition sampleContext : RequestContext := {| requestId := "r"; correlationId := "c"; ipClass := "private"; userAgentClass := "browser" |}.
Definition bearing (tok : string) (t : Z) : Cookie := {| ck_token := Some tok; ck_context := sampleContext; ck_now := t |}.
Definition signing (who tok : string) (t : Z) : IdentityReq := Login (who +:+ "@TOL.example") who tok sampleContext t.
Definition inviting (tok who : string) (r : PersonaRole) : IdentityReq :=
  CreateMembership (bearing tok 2000) "hq" {| mr_userId := who; mr_role := r; mr_invitationSource := None |}.
Definition setting (tok x : string) (st : MembershipStatus.t) : IdentityReq := UpdateMembershipStatus (bearing tok 3000) x st.

Definition visited (r : IdentityReq) (db : Db) : Db := fst (serve sampleIdentity r db).
Definition visited_ok (r : IdentityReq) (db : Db) : bool := is_ok (snd (serve sampleIdentity r db)).

Definition operatorRun : list IdentityReq :=
  [signing "owner" "t0" 1000; inviting "t0" "clerk" MARKETPLACE_OPERATOR; setting "t0" "id-3" MembershipStatus.ACTIVE; signing "clerk" "t1" 3500].

Definition operatorDb : Db := Eval vm_compute in serveAll sampleIdentity operatorRun tenantDb.

Definition standing (db : Db) : list (string * PersonaRole * MembershipStatus.t) :=
  map (fun m => (MembershipRow.userId m, MembershipRow.role m, MembershipRow.status m)) (organizationMemberships db).

Example operator_stands :
  standing operatorDb = [("owner", PLATFORM_OWNER, MembershipStatus.ACTIVE); ("clerk", MARKETPLACE_OPERATOR, MembershipStatus.ACTIVE)] /\
  map (fun s => (SessionRow.userId s, SessionRow.revokedAt s)) (sessions operatorDb) = [("owner", None); ("clerk", None)].
Proof. vm_compute. done. Qed.

Lemma tenantDb_ok : identity_ok tenantDb.
Proof.
  split; [split|split].
  - split; [|apply NoDup_singleton|repeat constructor|by repeat constructor]. repeat constructor. exists 0%nat. split; [cbn; lia|done].
  - split; [by constructor|constructor|constructor|by constructor].
  - repeat constructor. all: done.
  - intros x y v w k. change (members (roster tenantDb)) with (<["id-0" := memberOf founder]> (∅ : gmap string Member)). rewrite insert_empty.
    by intros [<- _]%lookup_singleton_Some [<- _]%lookup_singleton_Some _ _.
  - intros x y v w k Hv; exact (False_ind _ (lookup_empty_Some _ _ Hv)).
  - intros x v Hv; exact (False_ind _ (lookup_empty_Some _ _ Hv)).
Qed.

Lemma visitors_reached rs : exists s, reaches sampleIdentity identity_env any_visitor tenantDb s /\ store s = serveAll sampleIdentity rs tenantDb.
Proof. eexists. split; [exact (serveAll_answers sampleIdentity identity_env any_visitor rs tenantDb (Forall_true _ _ (fun _ => I)))|reflexivity]. Qed.

(** ** What the code lets happen *)

(** Only a platform owner may change a role, but the operator the owner
    appointed may invite a user as platform owner and activate them. *)
Example operator_makes_an_owner :
  standing (serveAll sampleIdentity [inviting "t1" "friend" PLATFORM_OWNER; setting "t1" "id-8" MembershipStatus.ACTIVE] operatorDb) =
    standing operatorDb ++ [("friend", PLATFORM_OWNER, MembershipStatus.ACTIVE)] /\
  visited_ok (UpdateMembershipRole (bearing "t1" 3000) "id-3" PLATFORM_OWNER) operatorDb = false.
Proof. vm_compute. done. Qed.

(** A membership can be set from any status to any other: REVOKED to ACTIVE
    too, without an invitation. *)
Example revoked_comes_back :
  let gone := visited (setting "t0" "id-3" MembershipStatus.REVOKED) operatorDb in
  map snd (standing gone) = [MembershipStatus.ACTIVE; MembershipStatus.REVOKED] /\
  map snd (standing (visited (setting "t0" "id-3" MembershipStatus.ACTIVE) gone)) = [MembershipStatus.ACTIVE; MembershipStatus.ACTIVE].
Proof. vm_compute. done. Qed.

(** A user with an older INVITED role and an ACTIVE one in the organization:
    after a switch to it the session acts as the ACTIVE one, and the client is
    told the other. *)
Definition twoRoles : Db := Eval vm_compute in
  serveAll sampleIdentity
    [signing "owner" "t0" 1000; inviting "t0" "clerk" COMPLIANCE_REVIEWER;
     CreateMembership (bearing "t0" 2500) "hq" {| mr_userId := "clerk"; mr_role := MARKETPLACE_OPERATOR; mr_invitationSource := None |};
     setting "t0" "id-5" MembershipStatus.ACTIVE; signing "clerk" "t2" 5000; SwitchOrg (bearing "t2" 6000) "hq"] tenantDb.

Definition told (tok : string) (db : Db) : option (option PersonaRole * option PersonaRole) :=
  match resolveVisitor sampleHash (bearing tok 7000) db with
  | Some v => Some (role (vi_actor v), sr_activeRole (switched_session v "hq" db))
  | None => None
  end.

Example switch_tells_another_role :
  standing twoRoles = [("owner", PLATFORM_OWNER, MembershipStatus.ACTIVE); ("clerk", COMPLIANCE_REVIEWER, MembershipStatus.INVITED);
                       ("clerk", MARKETPLACE_OPERATOR, MembershipStatus.ACTIVE)] /\
  told "t2" twoRoles = Some (Some MARKETPLACE_OPERATOR, Some COMPLIANCE_REVIEWER).
Proof. vm_compute. done. Qed.

Example unknown_user_invited :
  snd (serve sampleIdentity (inviting "t0" "nobody" MERCHANT_PSP_USER) operatorDb) = Throw (PrismaKnownRequestError "P2003").
Proof. vm_compute. done. Qed.

(** A switch that overlaps the revocation of the membership: the session was
    moved, and the answer is an internal error. *)
Example switch_during_revocation :
  match overlap sampleIdentity (setting "t0" "id-3" MembershipStatus.REVOKED) (SwitchOrg (bearing "t1" 3000) "hq") operatorDb with
  | Some (db, Throw (ProblemError 500 _ _ _)) => map AuditEventRow.action (auditEvents db) = map AuditEventRow.action (auditEvents operatorDb) ++ ["membership.status_changed"; "auth.switch_org"]
  | _ => False
  end.
Proof. vm_compute. done. Qed.

(** Two invitations of a revoked member that overlap: one commits, the member
    is activated and signs in, and the other, which had seen the membership
    revoked, commits: the membership falls back to INVITED, its session stays
    open, and a request with it acts under no role. *)
Definition revokedDb : Db := Eval vm_compute in visited (setting "t0" "id-3" MembershipStatus.REVOKED) operatorDb.
Definition invitedAgain : IdentityReq := inviting "t0" "clerk" MARKETPLACE_OPERATOR.
Definition backAtWork : list IdentityReq := [invitedAgain; setting "t0" "id-3" MembershipStatus.ACTIVE; signing "clerk" "t5" 4000].

Definition acting (tok : string) (db : Db) : option (option PersonaRole) := (fun v => role (vi_actor v)) <$> resolveVisitor sampleHash (bearing tok 5000) db.

Example stale_invitation_demotes :
  standing (serveAll sampleIdentity backAtWork revokedDb) = standing operatorDb /\
  acting "t5" (serveAll sampleIdentity backAtWork revokedDb) = Some (Some MARKETPLACE_OPERATOR) /\
  match delayed sampleIdentity invitedAgain backAtWork revokedDb with
  | Some db => standing db = [("owner", PLATFORM_OWNER, MembershipStatus.ACTIVE); ("clerk", MARKETPLACE_OPERATOR, MembershipStatus.INVITED)] /\
      acting "t5" db = Some None
  | None => False
  end.
Proof. vm_compute. done. Qed.

(** Others may not. *)
Example strangers_are_refused :
  visited_ok (signing "clerk" "t3" 1000) tenantDb = true /\
  visited_ok (Login "clerk@tol.example" "wrong" "t3" sampleContext 1000) tenantDb = false /\
  visited_ok (inviting "t9" "friend" PLATFORM_OWNER) operatorDb = false /\
  visited_ok (Logout (bearing "t1" 90000000)) operatorDb = false.
Proof. vm_compute. done. Qed.

(** ** What sign-in and memberships guarantee

    For any number of overlapping sign-ins, visits, switches and membership
    changes: an actor acts under a membership that is ACTIVE now and belongs
    to the user of an open session; the tables are a run of the abstract
    roster; a closed session stays closed; and nobody becomes ACTIVE
    without a journal entry of someone who may grant it.  For one request:
    exactly when it succeeds. *)

Section Theorems.
Context `{Platform} (verifyPassword : string -> string -> bool) (hashSessionToken : string -> string).

#[local] Notation anyone := (fun _ : IdentityReq => True).
#[local] Notation service := (identity_service verifyPassword hashSessionToken).
#[local] Notation reach := (reaches service identity_env anyone).
#[local] Notation later_than := (rtc (step service identity_env anyone)).

Lemma identity_reached db s : identity_ok db -> reach db s -> identity_ok (store s).
Proof. intros K R. by destruct (identity_reach verifyPassword hashSessionToken db s K R). Qed.

Lemma later_roster db s s' : identity_ok db -> reach db s -> later_than s s' -> rtc roster_step (roster (store s)) (roster (store s')).
Proof. intros K R. apply (identity_between verifyPassword hashSessionToken (roster db)). by apply (identity_wf verifyPassword hashSessionToken _ db s (good_start db K)). Qed.

Lemma reach_later db s s' : reach db s -> later_than s s' -> reach db s'.
Proof. intros R R'. unfold reaches in *. by etransitivity. Qed.

(** ** Who a request acts as *)

(** The organization and role of an actor, from one ACTIVE membership of its
    user; or none of the three. *)
Definition acts_under (db : Db) (a : Actor) : Prop :=
  (organizationId a = None /\ role a = None /\ membershipId a = None) \/
  exists m, m ∈ organizationMemberships db /\ MembershipRow.status m = MembershipStatus.ACTIVE /\ MembershipRow.userId m = userId a /\
    MembershipRow.effectiveTo m = None /\ organizationId a = Some (MembershipRow.organizationId m) /\ role a = Some (MembershipRow.role m) /\
    membershipId a = Some (MembershipRow.id m).

Lemma actor_acts db k v s : identity_ok db -> resolves hashSessionToken k db v s -> userId (vi_actor v) = SessionRow.userId s /\ acts_under db (vi_actor v).
Proof.
  intros [T K] [_ Hs _ Hu _ _ ->]. split; [by apply findById_Some in Hu as [_ Hu]|]. unfold actorOf, acts_under. cbn [userId organizationId role membershipId sc_user].
  destruct (activeMembership _) as [m|] eqn:Hm; [right|by left]. unfold activeMembership in Hm. cbn [sc_activeMembership] in Hm.
  destruct (SessionRow.activeMembershipId s) as [x|] eqn:Ex; [|done]. cbn [mbind option_bind] in Hm. destruct (membership_findById db x) as [m'|] eqn:Hx; [|done].
  case_bool_decide as Ha; [|done]. injection Hm as ->. exists m. pose proof Hx as (Hx' & Ei & Hin)%member_found. split_and!; try done.
  - destruct (rk_own _ K _ _ (session_row db s T Hs) x Ex) as (mb & Hb & Eu). rewrite Hx' in Hb. injection Hb as <-. cbn in Eu.
    apply findById_Some in Hu as [_ Hu]. change (UserRow.id (vi_user v) = SessionRow.userId s) in Hu. congruence.
  - pose proof (proj1 (Forall_forall _ _) (it_ended _ T) m Hin) as [He _]. apply He. congruence.
Qed.

(** C23: an actor is what its membership is now.  From sound tables, after any
    interleaving of sign-ins, visits, sign-outs, switches and membership
    changes, a cookie is resolved only by an open, unexpired session with the
    hash of its token, to that session's user; and the organization and role
    the request acts with are those of one membership, which is that user's,
    ACTIVE at this moment and not ended; or the request has none. *)
Theorem actor_is_active_member (db : Db) (s : Config service) (k : Cookie) (v : Visitor) : identity_ok db -> reach db s ->
  resolveVisitor hashSessionToken k (store s) = Some v ->
  (exists row tok, row ∈ sessions (store s) /\ ck_token k = Some tok /\ SessionRow.tokenHash row = hashSessionToken tok /\
     SessionRow.revokedAt row = None /\ ck_now k < SessionRow.expiresAt row /\ SessionRow.userId row = userId (vi_actor v)) /\
  acts_under (store s) (vi_actor v).
Proof.
  intros K0 R Hv. pose proof (identity_reached db s K0 R) as K. apply resolve_Some in Hv as [row Hv]. destruct (actor_acts _ _ _ _ K Hv) as [Eu Ha].
  split; [|done]. destruct Hv as [(tok & Ek & _ & Et) Hs _ _ Ho Hf _]. by exists row, tok.
Qed.

(** C26: memberships and sessions refine the abstract roster.  Between any two
    moments of any concurrent run from sound tables, the tables go from one
    roster to another by steps of the abstract roster, where the row an
    invitation or a new role takes may have changed since it was found revoked
    (the services hold no lock there); so a membership keeps its
    user, organization and role for good (a role changes only by revoking one
    membership and granting another), a user has at most one membership per
    organization and role, a token opens at most one session, and a session
    keeps its user and token and is never opened again. *)
Theorem identity_refines_roster (db : Db) (s s' : Config service) : identity_ok db -> reach db s -> later_than s s' ->
  rtc roster_step (roster (store s)) (roster (store s')) /\
  (forall m, m ∈ organizationMemberships (store s) -> exists m', m' ∈ organizationMemberships (store s') /\ MembershipRow.id m' = MembershipRow.id m /\
     seat_key (memberOf m') = seat_key (memberOf m)) /\
  (forall m1 m2, m1 ∈ organizationMemberships (store s') -> m2 ∈ organizationMemberships (store s') -> seat_key (memberOf m1) = seat_key (memberOf m2) ->
     MembershipRow.id m1 = MembershipRow.id m2) /\
  (forall v, v ∈ sessions (store s) -> exists v', v' ∈ sessions (store s') /\ SessionRow.id v' = SessionRow.id v /\ sitting_later (sittingOf v) (sittingOf v')) /\
  (forall v1 v2, v1 ∈ sessions (store s') -> v2 ∈ sessions (store s') -> SessionRow.tokenHash v1 = SessionRow.tokenHash v2 -> SessionRow.id v1 = SessionRow.id v2).
Proof.
  intros K0 R R'. pose proof (later_roster db s s' K0 R R') as Sim. destruct (identity_reached db s K0 R) as [T K].
  pose proof (roster_run_later _ _ Sim) as L. assert (identity_ok (store s')) as [T' K'] by (apply (identity_reached db); [done|by eapply reach_later]).
  split_and!; [done|..].
  - intros m Hm. destruct (rl_members _ _ L _ _ (members_row _ m T Hm)) as (mb & (m' & [Hin Ei]%findById_Some & ->)%book_Some & E). by exists m'.
  - intros m1 m2 H1 H2 E. by apply (rk_one_seat _ K' _ _ _ _ _ (members_row _ m1 T' H1) (members_row _ m2 T' H2) eq_refl).
  - intros v Hv. destruct (rl_sittings _ _ L _ _ (session_row _ v T Hv)) as (w & (v' & [Hin Ei]%findById_Some & ->)%book_Some & E). by exists v'.
  - intros v1 v2 H1 H2 E. apply (rk_one_token _ K' _ _ _ _ (SessionRow.tokenHash v1) (session_row _ v1 T' H1) (session_row _ v2 T' H2)); unfold token_key; cbn; congruence.
Qed.

(** GET /auth/session tells the client what it acts as. *)
Lemma session_response_truthful db k v : identity_ok db -> resolveVisitor hashSessionToken k db = Some v ->
  let r := get_session v db in
  sr_userId r = userId (vi_actor v) /\ sr_activeMembershipId r = membershipId (vi_actor v) /\
  sr_activeOrganizationId r = organizationId (vi_actor v) /\ sr_activeRole r = role (vi_actor v).
Proof.
  intros K [s Hv]%resolve_Some. destruct (actor_acts _ _ _ _ K Hv) as [Eu Ha]. cbv zeta.
  assert (UserRow.id (vi_user v) = userId (vi_actor v)) as Ei by (destruct Hv as [_ _ _ _ _ _ ->]; done).
  unfold get_session, toSessionResponse. cbn [sr_userId sr_activeMembershipId sr_activeOrganizationId sr_activeRole]. split; [done|].
  destruct Ha as [(-> & -> & ->)|(m & Hm & Hs & Em & _ & -> & -> & ->)].
  - destruct (List.find _ _) as [m|] eqn:Hf; [|done]. apply find_some in Hf as [_ Hf%bool_decide_eq_true]. done.
  - rewrite Ei. destruct (List.find _ _) as [m'|] eqn:Hf.
    + apply find_some in Hf as [Hin%list_elem_of_In [= Eid]%bool_decide_eq_true]. apply findMany_elem in Hin as [Hin _].
      pose proof (members_row db m (io_tables _ K) Hm) as E1. pose proof (members_row db m' (io_tables _ K) Hin) as E2. rewrite Eid in E2. rewrite E2 in E1.
      injection E1 as _ Eo Er _. cbn. by rewrite Eid, Eo, Er.
    + exfalso. assert (m ∈ membership_listByUser db (userId (vi_actor v))) as Hl.
      { apply findMany_intro; [done|]. rewrite (proj2 (String.eqb_eq _ _) Em), Hs. by rewrite bool_decide_eq_true_2 by set_solver. }
      apply list_elem_of_In in Hl. pose proof (find_none _ _ Hf m Hl) as Hn. cbv beta in Hn. by rewrite bool_decide_eq_true_2 in Hn.
Qed.

(** A mutation with a session cookie needs the token in cookie and header. *)
Lemma requireCsrf_Ok method session cookie header u : requireCsrf method session cookie header = Ok u <->
  method ∉ MUTATING_METHODS \/ present session = false \/ exists t, t <> "" /\ cookie = Some t /\ header = Some t.
Proof.
  destruct u. unfold requireCsrf. destruct (bool_decide (method ∈ MUTATING_METHODS)) eqn:Hm; [apply bool_decide_eq_true in Hm|apply bool_decide_eq_false in Hm; naive_solver].
  destruct (present session) eqn:Hp; [|naive_solver]. cbn [negb]. rewrite throw_if_Ok, negb_false_iff. unfold csrfTokensMatch, when_present.
  destruct cookie as [a|]; [|naive_solver]. destruct (String.eqb_spec a "") as [->|Ha]; [naive_solver|].
  destruct header as [b|]; [|naive_solver]. destruct (String.eqb_spec b "") as [->|Hb]; [naive_solver|]. rewrite String.eqb_eq. naive_solver.
Qed.

(** ** Closing sessions *)

(** The sessions a request that succeeded has closed. *)
Definition closes (r : IdentityReq) : identity_plan r -> identity_out r -> SessionRow.t -> Prop :=
  match r with
  | Logout _ => fun v _ row => SessionRow.id row = vi_sessionId v
  | UpdateMembershipStatus _ _ st => fun _ m row => st <> MembershipStatus.ACTIVE /\ SessionRow.userId row = MembershipRow.userId m
  | UpdateMembershipRole _ _ _ => fun _ m row => SessionRow.userId row = MembershipRow.userId m
  | _ => fun _ _ _ => False
  end.

Lemma closes_sitting db r p out db' row : identity_ok db -> identity_plan_ok r p db -> identity_tx hashSessionToken r p db = Ok (out, db') ->
  row ∈ sessions db -> closes r p out row -> exists w, sittings (roster db') !! SessionRow.id row = Some w /\ st_token w = SessionRow.tokenHash row /\ st_open w = false.
Proof.
  intros K J E Hrow Hc. pose proof (session_row db row (io_tables _ K) Hrow) as Hs.
  assert (forall u, SessionRow.userId row = u -> sittings (roster db') = close u <$> sittings (roster db) ->
    exists w, sittings (roster db') !! SessionRow.id row = Some w /\ st_token w = SessionRow.tokenHash row /\ st_open w = false) as Shut.
  { intros u <- Er. exists (closed (sittingOf row)). rewrite Er, lookup_fmap, Hs. cbn. unfold close. cbn [st_user sittingOf]. by rewrite String.eqb_refl. }
  destruct r as [k|e pw raw ctx t|k|k org|k org|k org i|k x st|k x nr]; cbn [identity_plan_ok identity_tx closes] in *; try done.
  - destruct (logout_does _ _ _ _ _ K E) as (a & _ & w & Hw & Er). rewrite Hc in *. rewrite Hs in Hw. injection Hw as <-.
    exists (closed (sittingOf row)). rewrite Er, lookup_insert_eq. done.
  - destruct J as (A & B & C). destruct (updateStatus_does _ _ _ _ _ _ _ K A B C E) as (a & _ & Er). destruct Hc as [Hst Hu]. by apply (Shut _ Hu), Er.
  - destruct J as (A & B & C & S). destruct (updateRole_does _ _ _ _ _ _ _ K A B C S E) as (a & _ & Er). by apply (Shut _ Hc).
Qed.

(** C24: taking rights away takes effect at once and for good.  In any
    concurrent run from sound tables, when a sign-out, a change of a
    membership to anything but ACTIVE, or a change of role commits, the
    sessions it closes (that session; every session of that user) are never
    resolved again: at no later moment, at no time, does a request with that
    token act for anybody, whatever else was in flight. *)
Theorem revocation_takes_effect (db : Db) (s s' : Config service) (l1 l2 : list (Started service)) (r : IdentityReq) (p : identity_plan r) (out : identity_out r) (db' : Db)
    (row : SessionRow.t) (k : Cookie) (tok : string) : identity_ok db -> reach db s ->
  inflight s = l1 ++ @started service r p :: l2 -> identity_tx hashSessionToken r p (store s) = Ok (out, db') ->
  row ∈ sessions (store s) -> closes r p out row ->
  later_than {| store := db'; inflight := l1 ++ l2; answered := answered s ++ [@answer service r (identity_finish r p out)] |} s' ->
  ck_token k = Some tok -> hashSessionToken tok = SessionRow.tokenHash row ->
  resolveVisitor hashSessionToken k (store s') = None.
Proof.
  intros K0 R Hin E Hrow Hc R' Ek Eh. pose proof (identity_wf verifyPassword hashSessionToken _ db s (good_start db K0) R) as W.
  destruct (wf_commit_plan _ _ _ _ _ _ _ _ W Hin) as [J _]. pose proof (identity_reached db s K0 R) as K.
  destruct (closes_sitting _ _ _ _ _ _ K J E Hrow Hc) as (w & Hw & Et & Eo).
  assert (reach db {| store := db'; inflight := l1 ++ l2; answered := answered s ++ [@answer service r (identity_finish r p out)] |}) as R1.
  { eapply rtc_r; [exact R|]. exact (step_commit service identity_env anyone s l1 l2 r p out db' Hin E). }
  pose proof (later_roster db _ _ K0 R1 R') as Sim. cbn [store] in Sim. assert (identity_ok (store s')) as [T' K'] by (apply (identity_reached db); [done|by eapply reach_later]).
  destruct (rl_sittings _ _ (roster_run_later _ _ Sim) _ _ Hw) as (w' & Hw' & _ & Et' & Eo').
  destruct (resolveVisitor hashSessionToken k (store s')) as [v|] eqn:Hv; [exfalso|done]. apply resolve_Some in Hv as [row' [(tok' & Ek' & _ & Etok) Hr' _ _ Ho _ _]].
  assert (tok' = tok) as -> by congruence. pose proof (session_row _ row' T' Hr') as Hs'.
  assert (SessionRow.id row' = SessionRow.id row) as Ei by (apply (rk_one_token _ K' _ _ _ _ (SessionRow.tokenHash row) Hs' Hw'); unfold token_key; cbn; congruence).
  rewrite Ei, Hw' in Hs'. injection Hs' as ->. specialize (Eo' Eo). cbn in Eo'. by rewrite Ho in Eo'.
Qed.

(** C25: nobody becomes a member by themselves.  In any concurrent run from
    sound tables, a membership that is ACTIVE was ACTIVE in the same seat at
    the start, or the journal holds an entry on it: a change of status by a
    platform owner or marketplace operator, or a change of role by a platform
    owner. *)
Theorem activations_journaled (db : Db) (s : Config service) (m : MembershipRow.t) : identity_ok db -> reach db s ->
  m ∈ organizationMemberships (store s) -> MembershipRow.status m = MembershipStatus.ACTIVE ->
  (exists m0, m0 ∈ organizationMemberships db /\ MembershipRow.id m0 = MembershipRow.id m /\ memberOf m0 = memberOf m) \/
  exists a, a ∈ auditEvents (store s) /\ grants (MembershipRow.id m) a.
Proof.
  intros K0 R Hm Hs. destruct (identity_reach verifyPassword hashSessionToken db s K0 R) as [[T K] Ea].
  destruct (Ea _ _ (members_row _ m T Hm) Hs) as [(m0 & [Hin Ei]%findById_Some & E)%book_Some|(a & Hin & Hg)%Exists_exists].
  - left. by exists m0.
  - right. by exists a.
Qed.

(** ** One request *)

Lemma serve_identity_ok r db : identity_ok db -> identity_ok (fst (serve service r db)).
Proof.
  intros K. unfold serve. cbn [h_pre h_tx identity_service]. destruct (identity_pre verifyPassword hashSessionToken r db) as [p|] eqn:Ep; [|done].
  destruct (identity_tx hashSessionToken r p db) as [[out db']|] eqn:Et; [|done]. destruct (identity_tx_does _ db r p out db' K (identity_plan_pre _ _ db r p K Ep) Et) as [log D]. apply D.
Qed.

(** Who may call a membership operation. *)
Definition needs_grantor (r : IdentityReq) : option (Cookie * list PersonaRole) :=
  match r with
  | CreateMembership k _ _ | UpdateMembershipStatus k _ _ => Some (k, OPERATORS)
  | UpdateMembershipRole k _ _ => Some (k, [PLATFORM_OWNER])
  | _ => None
  end.

Lemma accepted_grantor r db k roles : identity_accepted verifyPassword hashSessionToken r db -> needs_grantor r = Some (k, roles) ->
  exists v, resolveVisitor hashSessionToken k db = Some v /\ one_of roles (vi_actor v).
Proof.
  intros Ha Hn. destruct r as [|?|?|?|?|k' org i|k' x st|k' x nr]; try done; injection Hn as <- <-; cbn [identity_accepted] in Ha.
  - destruct Ha as ((v & Hv & Ha) & _). exists v. split; [exact Hv|]. by eapply (grant_role _ Actions.membership_create).
  - destruct Ha as (v & m & Hv & _ & Ha). exists v. split; [exact Hv|]. by eapply (grant_role _ membership_update_status).
  - destruct Ha as (v & m & Hv & (_ & Ha) & _). exists v. split; [exact Hv|]. by eapply (grant_role _ membership_update_role).
Qed.

(** C27: a request succeeds exactly when it should.  On sound tables each of
    the eight requests on its own succeeds iff [identity_accepted] says so:
    a sign-in needs an ACTIVE user and its password; a sign-out or a switch a
    session, and the switch an ACTIVE membership there; an invitation, a
    change of status and a change of role an actor who may, and a seat that
    is free or was revoked; the last three are for platform owners and, but
    for roles, marketplace operators.  A sign-in is refused alike for an
    unknown email and for a wrong password.  A refused request changes
    nothing, and every request leaves the tables sound. *)
Theorem identity_requests_exact (r : IdentityReq) (db : Db) : identity_ok db ->
  (is_ok (snd (serve service r db)) = true <-> identity_accepted verifyPassword hashSessionToken r db) /\
  (is_ok (snd (serve service r db)) = false -> fst (serve service r db) = db) /\
  identity_ok (fst (serve service r db)) /\
  (forall k roles, is_ok (snd (serve service r db)) = true -> needs_grantor r = Some (k, roles) ->
     exists v, resolveVisitor hashSessionToken k db = Some v /\ one_of roles (vi_actor v)) /\
  (forall e1 e2 pw1 pw2 raw ctx t u, user_findByEmail db e1 = None -> user_findByEmail db e2 = Some u -> verifyPassword pw2 (UserRow.passwordHash u) = false ->
     snd (serve service (Login e1 pw1 raw ctx t) db) = snd (serve service (Login e2 pw2 raw ctx t) db)).
Proof.
  intros K. pose proof (serve_identity_iff verifyPassword hashSessionToken r db K) as Iff. split_and!; [done|..|by apply serve_identity_ok| |].
  - intros Hf. unfold serve in *. destruct (h_pre service r db) as [p|] eqn:Ep; [|done]. destruct (h_tx service r p db) as [[out db']|] eqn:Et; [|done].
    exfalso. assert (answers hashSessionToken r p db) as (out' & d & E & Hok).
    { destruct (decide (is_ok (identity_finish r p out) = true)) as [Hok|Hn]; [by exists out, db'|].
      destruct r as [k|e pw raw ctx t|k|k org|k org|k org i|k x st|k x nr]; try (by destruct Hn). apply (switch_answers verifyPassword hashSessionToken k org p db K Ep). }
    change (h_tx service r p db) with (identity_tx hashSessionToken r p db) in Et. rewrite Et in E. injection E as <- <-. cbn in Hf. rewrite Hok in Hf. done.
  - intros k roles Hok%Iff. by apply accepted_grantor.
  - intros e1 e2 pw1 pw2 raw ctx t u H1 H2 Hp. unfold serve. cbn [h_pre identity_service identity_pre]. unfold login_pre. by rewrite H1, H2, Hp.
Qed.

End Theorems.

(** ** Witnesses on the sample tenant *)

Lemma operatorDb_reached : exists s, reaches sampleIdentity identity_env any_visitor tenantDb s /\ store s = operatorDb /\ inflight s = [].
Proof.
  exists {| store := serveAll sampleIdentity operatorRun tenantDb; inflight := []; answered := answersAll sampleIdentity operatorRun tenantDb |}.
  split; [exact (serveAll_answers sampleIdentity identity_env any_visitor operatorRun tenantDb (Forall_true _ _ (fun _ => I)))|]. split; [vm_compute; reflexivity|reflexivity].
Qed.

Lemma operatorDb_ok : identity_ok operatorDb.
Proof. destruct operatorDb_reached as (s & R & <- & _). exact (identity_reached samePassword sampleHash tenantDb s tenantDb_ok R). Qed.

Definition clerkVisit : option Visitor := Eval vm_compute in resolveVisitor sampleHash (bearing "t1" 4000) operatorDb.

Lemma actor_is_active_member_witness : exists v, resolveVisitor sampleHash (bearing "t1" 4000) operatorDb = Some v /\
  role (vi_actor v) = Some MARKETPLACE_OPERATOR /\ acts_under operatorDb (vi_actor v).
Proof.
  destruct operatorDb_reached as (s & R & Es & _).
  destruct clerkVisit as [v|] eqn:Ev; [|exfalso; vm_compute in Ev; discriminate Ev].
  assert (resolveVisitor sampleHash (bearing "t1" 4000) operatorDb = Some v) as Hv by (rewrite <- Ev; vm_compute; reflexivity).
  exists v. split; [exact Hv|]. split; [vm_compute in Ev; injection Ev as <-; reflexivity|]. rewrite <- Es in Hv |- *.
  exact (proj2 (actor_is_active_member samePassword sampleHash tenantDb s (bearing "t1" 4000) v tenantDb_ok R Hv)).
Defined.

Definition suspendedDb : Db := Eval vm_compute in visited (setting "t0" "id-3" MembershipStatus.SUSPENDED) operatorDb.

Lemma identity_refines_roster_witness : rtc roster_step (roster operatorDb) (roster suspendedDb) /\
  map SessionRow.revokedAt (sessions suspendedDb) = [None; Some 3000].
Proof.
  split; [|vm_compute; reflexivity]. destruct operatorDb_reached as (s & R & Es & Ei).
  pose proof (serveAll_steps sampleIdentity identity_env any_visitor [setting "t0" "id-3" MembershipStatus.SUSPENDED] s (Forall_true _ _ (fun _ => I)) Ei) as R2.
  match type of R2 with rtc _ _ ?s => pose (s2 := s) end. change (rtc (step sampleIdentity identity_env any_visitor) s s2) in R2.
  assert (store s2 = suspendedDb) as Es2 by (cbn [store s2]; rewrite Es; vm_compute; reflexivity).
  pose proof (proj1 (identity_refines_roster samePassword sampleHash tenantDb s s2 tenantDb_ok R R2)) as W. rewrite Es, Es2 in W. exact W.
Defined.

(** The owner's suspension of the clerk, between its reads and its writes. *)
Definition suspension : IdentityReq := setting "t0" "id-3" MembershipStatus.SUSPENDED.
Definition suspensionPlan : option (identity_plan suspension) := Eval vm_compute in
  match identity_pre samePassword sampleHash suspension operatorDb with Ok p => Some p | Throw _ => None end.
Definition suspensionOut (p : identity_plan suspension) : option (identity_out suspension * Db) :=
  match identity_tx sampleHash suspension p operatorDb with Ok x => Some x | Throw _ => None end.
Definition clerkSession : option SessionRow.t := Eval vm_compute in nth_error (sessions operatorDb) 1.

Lemma revocation_takes_effect_witness : is_Some (resolveVisitor sampleHash (bearing "t1" 3999) operatorDb) /\
  exists p out db', suspensionPlan = Some p /\ suspensionOut p = Some (out, db') /\ resolveVisitor sampleHash (bearing "t1" 4000) db' = None.
Proof.
  split; [eexists; vm_compute; reflexivity|]. destruct operatorDb_reached as (s & R & Es & Ei).
  destruct suspensionPlan as [p|] eqn:Ep; [|exfalso; vm_compute in Ep; discriminate Ep].
  destruct (suspensionOut p) as [[out db']|] eqn:Eo; [|exfalso; vm_compute in Ep; injection Ep as <-; vm_compute in Eo; discriminate Eo].
  destruct clerkSession as [row|] eqn:Er; [|exfalso; vm_compute in Er; discriminate Er].
  exists p, out, db'. split; [reflexivity|]. split; [exact Eo|].
  assert (identity_pre samePassword sampleHash suspension operatorDb = Ok p) as Hp by (vm_compute in Ep; injection Ep as <-; vm_compute; reflexivity).
  assert (identity_tx sampleHash suspension p (store s) = Ok (out, db')) as Ht.
  { rewrite Es. unfold suspensionOut in Eo. destruct (identity_tx sampleHash suspension p operatorDb); [congruence|discriminate Eo]. }
  assert (MembershipRow.userId out = "clerk") as Eu.
  { vm_compute in Ep. injection Ep as <-. vm_compute in Eo. injection Eo as <- _. reflexivity. }
  assert (SessionRow.userId row = "clerk" /\ SessionRow.tokenHash row = "hashed t1") as [Eru Ert] by (vm_compute in Er; injection Er as <-; split; reflexivity).
  assert (row ∈ sessions (store s)) as Hrow.
  { rewrite Es. apply list_elem_of_In, (nth_error_In _ 1). rewrite <- Er. vm_compute. reflexivity. }
  set (s1 := {| store := store s; inflight := [@started sampleIdentity suspension p]; answered := answered s |}).
  assert (reaches sampleIdentity identity_env any_visitor tenantDb s1) as R1.
  { eapply rtc_r; [exact R|]. rewrite <- Es in Hp.
    pose proof (step_read sampleIdentity identity_env any_visitor s suspension p I Hp) as S. rewrite Ei in S. exact S. }
  exact (revocation_takes_effect samePassword sampleHash tenantDb s1
    {| store := db'; inflight := [] ++ []; answered := answered s1 ++ [@answer sampleIdentity suspension (identity_finish suspension p out)] |}
    [] [] suspension p out db' row (bearing "t1" 4000) "t1" tenantDb_ok R1 eq_refl Ht Hrow
    (conj (fun E : MembershipStatus.SUSPENDED = MembershipStatus.ACTIVE => ltac:(discriminate E)) (eq_trans Eru (eq_sym Eu))) (rtc_refl _ _) eq_refl (eq_sym Ert)).
Defined.

Lemma activations_journaled_witness : exists m a, m ∈ organizationMemberships operatorDb /\ MembershipRow.userId m = "clerk" /\
  a ∈ auditEvents operatorDb /\ grants (MembershipRow.id m) a.
Proof.
  destruct operatorDb_reached as (s & R & Es & _).
  destruct (nth_error (organizationMemberships operatorDb) 1) as [m|] eqn:Em; [|exfalso; vm_compute in Em; discriminate Em].
  assert (m ∈ organizationMemberships (store s)) as Hin by (rewrite Es; apply list_elem_of_In, (nth_error_In _ 1); exact Em).
  assert (MembershipRow.userId m = "clerk" /\ MembershipRow.status m = MembershipStatus.ACTIVE /\ MembershipRow.id m = "id-3") as (Eu & Ha & Ei).
  { vm_compute in Em. injection Em as <-. repeat split; reflexivity. }
  destruct (activations_journaled samePassword sampleHash tenantDb s m tenantDb_ok R Hin Ha) as [(m0 & Hm0 & E0 & _)|(a & Hj & Hg)].
  - exfalso. rewrite Ei in E0. apply list_elem_of_singleton in Hm0. rewrite Hm0 in E0. discriminate E0.
  - exists m, a. rewrite Es in Hin, Hj. split; [exact Hin|]. split; [exact Eu|]. split; [exact Hj|exact Hg].
Defined.

Lemma identity_requests_exact_witness : is_ok (snd (serve sampleIdentity suspension operatorDb)) = true /\
  identity_accepted samePassword sampleHash suspension operatorDb.
Proof.
  assert (is_ok (snd (serve sampleIdentity suspension operatorDb)) = true) as Hok by (vm_compute; reflexivity).
  split; [exact Hok|]. exact (proj1 (proj1 (identity_requests_exact samePassword sampleHash suspension operatorDb operatorDb_ok)) Hok).
Defined.
