(* ===== verification/SupplyRepositories.v ===== *)
(** * packages/db: the repositories of supply and demand

    opportunity, volume-slice, capacity-profile and match-result
    .repository.ts.  A volume slice is unique per opportunity, jurisdiction,
    mcc, card origin, channel and period; integers must fit their columns.
    Rule results and breakdowns are stored as the engine's records; what the
    JSON guards see of them is [ruleJson] and [breakdownJson]. *)
From S2P Require Import Prelude StableSort DomainStates AuthzMatrix JsNumber Money Eligibility MatchScoring JsonText Database ApiShared TradeRepositories.
#[local] Open Scope Z_scope.

(** ** Integer columns

    An [Int] column is PostgreSQL's int4, a [BigInt] column its int8.  Prisma
    refuses a row with a value that does not fit (it documents "Value out of
    range for the type", P2020); the callers translate P2002 alone, so which
    code it is does not matter to them. *)

Definition int4 (z : Z) : bool := (-2 ^ 31 <=? z) && (z <? 2 ^ 31).
Definition int8 (z : Z) : bool := (-2 ^ 63 <=? z) && (z <? 2 ^ 63).

Definition assertColumns (ints bigints : list Z) : res unit :=
  throw_if (negb (forallb int4 ints && forallb int8 bigints)) (PrismaKnownRequestError "P2020").

(** ** opportunityRepository *)

Record CreateOpportunityInput : Type := {
  co_ownerOrgId : string;
  co_opportunityType : OpportunityType.t;
  co_requestedService : string;
  co_currency : string;
  co_totalPaymentVolumeMinor : Z;
  co_totalCardGpvMinor : Z;
  co_eligibleCardGpvMinor : Z;
  co_offeredCardGpvMinor : Z;
  co_movableNowMinor : Z;
  co_movable30dMinor : Z;
  co_movable90dMinor : Z;
  co_jurisdictions : list string;
  co_mccs : list string;
  co_createdByUserId : option string;
  co_createdByOrgId : option string
}.

Definition opportunity_list (db : Db) (limit : nat) : list OpportunityRow.t :=
  take limit (findMany (desc row_createdAt) (fun _ => true) (opportunities db)).

(** ** volumeSliceRepository *)

Definition volumeSlice_listByOpportunity `{Platform} (db : Db) (x : string) : list VolumeSliceRow.t :=
  findMany (cmp_lex (cmp_on VolumeSliceRow.jurisdiction collate) (cmp_lex (cmp_on VolumeSliceRow.mcc collate) (cmp_on VolumeSliceRow.period collate)))
    (fun s => String.eqb (VolumeSliceRow.opportunityId s) x) (volumeSlices db).

Record CreateVolumeSliceInput : Type := {
  cv_opportunityId : string;
  cv_slice : VolumeSliceInput;
  cv_createdByUserId : option string;
  cv_createdByOrgId : option string
}.

(** The unique index. *)
Definition sliceKey (s : VolumeSliceRow.t) : string * (string * string * string * string * string) :=
  (VolumeSliceRow.opportunityId s,
   (VolumeSliceRow.jurisdiction s, VolumeSliceRow.mcc s, VolumeSliceRow.cardOrigin s, VolumeSliceRow.channel s, VolumeSliceRow.period s)).

Definition volumeSlice_deleteAllByOpportunity (x : string) : Tx nat :=
  fun db => Ok (length (List.filter (fun s => String.eqb (VolumeSliceRow.opportunityId s) x) (volumeSlices db)),
                set_volumeSlices (List.filter (fun s => negb (String.eqb (VolumeSliceRow.opportunityId s) x)) (volumeSlices db)) db).

(** ** capacityProfileRepository *)

Record CreateCapacityProfileInput : Type := {
  cc_providerOrgId : string;
  cc_asOf : Z;
  cc_freshnessClass : Freshness.FreshnessClass;
  cc_acceptingNewVolume : bool;
  cc_jurisdictions : list string;
  cc_mccsAccepted : list string;
  cc_mccsExcluded : list string;
  cc_currency : string;
  cc_monthlyCapacityMinor : Z;
  cc_minTicketMinor : option Z;
  cc_maxTicketMinor : option Z;
  cc_maxChargebackBps : option Z;
  cc_maxFraudBps : option Z;
  cc_maxRefundBps : option Z;
  cc_settlementRail : string;
  cc_settlementCadenceDays : option Z;
  cc_commercialTerms : option CommercialTerms;
  cc_createdByUserId : option string;
  cc_createdByOrgId : option string
}.

Definition capacity_findById (db : Db) (x : string) : option CapacityProfileRow.t := findById (capacityProfiles db) x.

Definition activeProfile (c : CapacityProfileRow.t) : bool := bool_decide (CapacityProfileRow.status c = RecordStatus.ACTIVE).

Definition capacity_listByProviderOrg (db : Db) (org : string) : list CapacityProfileRow.t :=
  findMany (desc row_createdAt) (fun c => String.eqb (CapacityProfileRow.providerOrgId c) org && activeProfile c) (capacityProfiles db).

Definition capacity_list (db : Db) (limit : nat) : list CapacityProfileRow.t :=
  take limit (findMany (desc row_createdAt) activeProfile (capacityProfiles db)).

Definition withFreshness (f : Freshness.FreshnessClass) (user : option string) (c : CapacityProfileRow.t) : CapacityProfileRow.t :=
  {| CapacityProfileRow.id := CapacityProfileRow.id c; CapacityProfileRow.providerOrgId := CapacityProfileRow.providerOrgId c;
     CapacityProfileRow.asOf := CapacityProfileRow.asOf c; CapacityProfileRow.freshnessClass := f;
     CapacityProfileRow.acceptingNewVolume := CapacityProfileRow.acceptingNewVolume c; CapacityProfileRow.jurisdictions := CapacityProfileRow.jurisdictions c;
     CapacityProfileRow.mccsAccepted := CapacityProfileRow.mccsAccepted c; CapacityProfileRow.mccsExcluded := CapacityProfileRow.mccsExcluded c;
     CapacityProfileRow.currency := CapacityProfileRow.currency c; CapacityProfileRow.monthlyCapacityMinor := CapacityProfileRow.monthlyCapacityMinor c;
     CapacityProfileRow.minTicketMinor := CapacityProfileRow.minTicketMinor c; CapacityProfileRow.maxTicketMinor := CapacityProfileRow.maxTicketMinor c;
     CapacityProfileRow.maxChargebackBps := CapacityProfileRow.maxChargebackBps c; CapacityProfileRow.maxFraudBps := CapacityProfileRow.maxFraudBps c;
     CapacityProfileRow.maxRefundBps := CapacityProfileRow.maxRefundBps c; CapacityProfileRow.settlementRail := CapacityProfileRow.settlementRail c;
     CapacityProfileRow.settlementCadenceDays := CapacityProfileRow.settlementCadenceDays c; CapacityProfileRow.commercialTerms := CapacityProfileRow.commercialTerms c;
     CapacityProfileRow.status := CapacityProfileRow.status c; CapacityProfileRow.base := touch (CapacityProfileRow.base c) user |}.

Definition capacity_updateFreshnessClass (x : string) (f : Freshness.FreshnessClass) (user : option string) : Tx CapacityProfileRow.t :=
  fun db => let! (row, t) := updateById x (withFreshness f user) (capacityProfiles db) in Ok (row, set_capacityProfiles t db).

Definition strings (l : list string) : Json := JArr (map JStr l).

Definition PricingModel_name (m : PricingModel) : string :=
  match m with blended => "blended" | interchange_plus => "interchange_plus" | flat => "flat" end.

Definition termsJson (t : CommercialTerms) : Json :=
  JObj [("mdrBps", JNum (ct_mdrBps t)); ("fixedFeeMinor", JNum (ct_fixedFeeMinor t)); ("model", JStr (PricingModel_name (ct_model t)))].

(** ** matchResultRepository *)

Record CreateMatchResultInput : Type := {
  cx_opportunityId : string;
  cx_capacityId : string;
  cx_eligible : bool;
  cx_eligibilityResults : list RuleResult;
  cx_ruleVersion : string;
  cx_rankingBreakdown : option MatchRankingBreakdown;
  cx_rank : option Z;
  cx_totalScore : option jsnum;
  cx_algorithmVersion : option string;
  cx_inputVersions : list string;
  cx_evaluatedAt : Z;
  cx_createdByUserId : option string;
  cx_createdByOrgId : option string
}.

(** The message of a finding is not modelled: a string. *)
Definition ruleJson (r : RuleResult) : Json :=
  JObj [("rule", JStr (EligibilityRuleFamily_name (Eligibility.rule r))); ("code", JStr (Eligibility.code r));
        ("status", JStr (RuleResultStatus_name (Eligibility.status r))); ("blocking", JBool (blocking r)); ("overridable", JBool (overridable r))].

Definition factorJson (f : RankingFactorContribution) : Json :=
  JObj [("score", JFloat (score f)); ("weight", JFloat (weight f)); ("contribution", JFloat (f_contribution f))].

Definition breakdownJson (b : MatchRankingBreakdown) : Json :=
  JObj [("factors", JArr (map factorJson (factors b))); ("total", JFloat (m_total b)); ("algorithmVersion", JStr (m_algorithmVersion b));
        ("inputVersions", strings (m_inputVersions b))].

Definition ofOpportunity (x : string) (m : MatchResultRow.t) : bool := String.eqb (MatchResultRow.opportunityId m) x.

(** [groupBy] and [_max]: no evaluation of the same capacity is later. *)
Definition latestOf (l : list MatchResultRow.t) (m : MatchResultRow.t) : bool :=
  forallb (fun m' => negb (String.eqb (MatchResultRow.capacityId m') (MatchResultRow.capacityId m)) ||
                     (MatchResultRow.evaluatedAt m' <=? MatchResultRow.evaluatedAt m)) l.

(** The first row of each capacity. *)
Fixpoint firstOfEachCapacity (seen : list string) (l : list MatchResultRow.t) : list MatchResultRow.t :=
  match l with
  | [] => []
  | m :: rest =>
      if bool_decide (MatchResultRow.capacityId m ∈ seen) then firstOfEachCapacity seen rest
      else m :: firstOfEachCapacity (MatchResultRow.capacityId m :: seen) rest
  end.

Definition rankOrInfinity (m : MatchResultRow.t) : jsnum := match MatchResultRow.rank m with Some r => num_of_Z r | None => S754_infinity false end.

Definition compareResults (a b : MatchResultRow.t) : jsnum :=
  if negb (Bool.eqb (MatchResultRow.eligible a) (MatchResultRow.eligible b)) then num_of_Z (if MatchResultRow.eligible a then (-1) else 1)
  else
    let rankDelta := nsub (rankOrInfinity a) (rankOrInfinity b) in
    if negb (neq rankDelta nzero) then rankDelta
    else match String.compare (MatchResultRow.capacityId a) (MatchResultRow.capacityId b) with Lt => num_of_Z (-1) | Gt => num_of_Z 1 | Eq => num_of_Z 0 end.

Definition matchResult_listLatestByOpportunity `{Platform} (db : Db) (x : string) : list MatchResultRow.t :=
  let mine := List.filter (ofOpportunity x) (matchResults db) in
  let rows := findMany (cmp_lex (desc MatchResultRow.evaluatedAt) (cmp_on MatchResultRow.id collate)) (latestOf mine) mine in
  sort_by (fun a b => cmp_of_num (compareResults a b)) (firstOfEachCapacity [] rows).

Section Supply.
Context `{Platform}.

Definition opportunity_bigints (i : CreateOpportunityInput) : list Z :=
  [co_totalPaymentVolumeMinor i; co_totalCardGpvMinor i; co_eligibleCardGpvMinor i; co_offeredCardGpvMinor i; co_movableNowMinor i;
   co_movable30dMinor i; co_movable90dMinor i].

Definition opportunity_create (i : CreateOpportunityInput) : Tx OpportunityRow.t :=
  do* tlift (assertStringArray (strings (co_jurisdictions i)) "Opportunity.jurisdictions");
  do* tlift (assertStringArray (strings (co_mccs i)) "Opportunity.mccs");
  do* tlift (assertColumns [] (opportunity_bigints i));
  let* x := freshId in
  fun db =>
    let row := {| OpportunityRow.id := x; OpportunityRow.ownerOrgId := co_ownerOrgId i; OpportunityRow.opportunityType := co_opportunityType i;
      OpportunityRow.requestedService := co_requestedService i; OpportunityRow.status := Opportunity.DRAFT; OpportunityRow.currency := co_currency i;
      OpportunityRow.totalPaymentVolumeMinor := co_totalPaymentVolumeMinor i; OpportunityRow.totalCardGpvMinor := co_totalCardGpvMinor i;
      OpportunityRow.eligibleCardGpvMinor := co_eligibleCardGpvMinor i; OpportunityRow.offeredCardGpvMinor := co_offeredCardGpvMinor i;
      OpportunityRow.movableNowMinor := co_movableNowMinor i; OpportunityRow.movable30dMinor := co_movable30dMinor i;
      OpportunityRow.movable90dMinor := co_movable90dMinor i; OpportunityRow.jurisdictions := co_jurisdictions i; OpportunityRow.mccs := co_mccs i;
      OpportunityRow.base := newBase (co_createdByUserId i) (co_createdByOrgId i) Roles.MEMBER_MARKET db |} in
    Ok (row, set_opportunities (opportunities db ++ [row]) db).

Definition volumeSlice_create (i : CreateVolumeSliceInput) : Tx VolumeSliceRow.t :=
  do* tlift (assertColumns [] [Money.amountMinor (cv_slice i)]);
  let* x := freshId in
  fun db =>
    let s := cv_slice i in
    let row := {| VolumeSliceRow.id := x; VolumeSliceRow.opportunityId := cv_opportunityId i; VolumeSliceRow.jurisdiction := Money.jurisdiction s;
      VolumeSliceRow.mcc := Money.mcc s; VolumeSliceRow.cardOrigin := Money.cardOrigin s; VolumeSliceRow.channel := Money.channel s;
      VolumeSliceRow.currency := Money.currency s; VolumeSliceRow.amountMinor := Money.amountMinor s; VolumeSliceRow.period := Money.period s;
      VolumeSliceRow.base := newBase (cv_createdByUserId i) (cv_createdByOrgId i) Roles.RESTRICTED db |} in
    if bool_decide (sliceKey row ∈ map sliceKey (volumeSlices db)) then Throw (DuplicateVolumeSliceCellError (cellKey s))
    else Ok (row, set_volumeSlices (volumeSlices db ++ [row]) db).

Definition capacity_ints (i : CreateCapacityProfileInput) : list Z :=
  [default 0 (cc_minTicketMinor i); default 0 (cc_maxTicketMinor i); default 0 (cc_maxChargebackBps i); default 0 (cc_maxFraudBps i);
   default 0 (cc_maxRefundBps i); default 1 (cc_settlementCadenceDays i)].

Definition capacity_create (i : CreateCapacityProfileInput) : Tx CapacityProfileRow.t :=
  do* tlift (assertStringArray (strings (cc_jurisdictions i)) "CapacityProfile.jurisdictions");
  do* tlift (assertStringArray (strings (cc_mccsAccepted i)) "CapacityProfile.mccsAccepted");
  do* tlift (assertStringArray (strings (cc_mccsExcluded i)) "CapacityProfile.mccsExcluded");
  do* tlift (match cc_commercialTerms i with None => Ok tt | Some t => assertJsonSafePlainObject (termsJson t) "CapacityProfile.commercialTerms" end);
  do* tlift (assertColumns (capacity_ints i) [cc_monthlyCapacityMinor i]);
  let* x := freshId in
  fun db =>
    let row := {| CapacityProfileRow.id := x; CapacityProfileRow.providerOrgId := cc_providerOrgId i; CapacityProfileRow.asOf := cc_asOf i;
      CapacityProfileRow.freshnessClass := cc_freshnessClass i; CapacityProfileRow.acceptingNewVolume := cc_acceptingNewVolume i;
      CapacityProfileRow.jurisdictions := cc_jurisdictions i; CapacityProfileRow.mccsAccepted := cc_mccsAccepted i;
      CapacityProfileRow.mccsExcluded := cc_mccsExcluded i; CapacityProfileRow.currency := cc_currency i;
      CapacityProfileRow.monthlyCapacityMinor := cc_monthlyCapacityMinor i; CapacityProfileRow.minTicketMinor := default 0 (cc_minTicketMinor i);
      CapacityProfileRow.maxTicketMinor := default 0 (cc_maxTicketMinor i); CapacityProfileRow.maxChargebackBps := default 0 (cc_maxChargebackBps i);
      CapacityProfileRow.maxFraudBps := default 0 (cc_maxFraudBps i); CapacityProfileRow.maxRefundBps := default 0 (cc_maxRefundBps i);
      CapacityProfileRow.settlementRail := cc_settlementRail i; CapacityProfileRow.settlementCadenceDays := default 1 (cc_settlementCadenceDays i);
      CapacityProfileRow.commercialTerms := cc_commercialTerms i; CapacityProfileRow.status := RecordStatus.ACTIVE;
      CapacityProfileRow.base := newBase (cc_createdByUserId i) (cc_createdByOrgId i) Roles.RESTRICTED db |} in
    Ok (row, set_capacityProfiles (capacityProfiles db ++ [row]) db).

Definition is_present {A} (o : option A) : bool := match o with Some _ => true | None => false end.

Definition hasRankingData (i : CreateMatchResultInput) : bool :=
  is_present (cx_rankingBreakdown i) || is_present (cx_rank i) || is_present (cx_totalScore i) || is_present (cx_algorithmVersion i).
Definition hasAllRankingData (i : CreateMatchResultInput) : bool :=
  is_present (cx_rankingBreakdown i) && is_present (cx_rank i) && is_present (cx_totalScore i) && is_present (cx_algorithmVersion i).

Definition matchResult_create (i : CreateMatchResultInput) : Tx MatchResultRow.t :=
  do* tlift (assertJsonSafeObjectArray (JArr (map ruleJson (cx_eligibilityResults i))) "MatchResult.eligibilityResults");
  do* tlift (assertStringArray (strings (cx_inputVersions i)) "MatchResult.inputVersions");
  do* tlift (throw_if (negb (cx_eligible i) && hasRankingData i) (MatchResultInputError "ranking fields must be null/omitted when eligible is false"));
  do* tlift (throw_if (cx_eligible i && negb (hasAllRankingData i)) (MatchResultInputError "ranking fields must ALL be present when eligible is true"));
  do* tlift (match cx_eligible i, cx_rankingBreakdown i with
             | true, Some b => assertJsonSafePlainObject (breakdownJson b) "MatchResult.rankingBreakdown"
             | _, _ => Ok tt
             end);
  let* x := freshId in
  fun db =>
    let row := {| MatchResultRow.id := x; MatchResultRow.opportunityId := cx_opportunityId i; MatchResultRow.capacityId := cx_capacityId i;
      MatchResultRow.eligible := cx_eligible i; MatchResultRow.eligibilityResults := cx_eligibilityResults i; MatchResultRow.ruleVersion := cx_ruleVersion i;
      MatchResultRow.rankingBreakdown := cx_rankingBreakdown i; MatchResultRow.rank := cx_rank i; MatchResultRow.totalScore := cx_totalScore i;
      MatchResultRow.algorithmVersion := cx_algorithmVersion i; MatchResultRow.inputVersions := cx_inputVersions i;
      MatchResultRow.evaluatedAt := cx_evaluatedAt i; MatchResultRow.base := newBase (cx_createdByUserId i) (cx_createdByOrgId i) Roles.RESTRICTED db |} in
    Ok (row, set_matchResults (matchResults db ++ [row]) db).

End Supply.
