(* ===== verification/SupplyService.v ===== *)
(** * Opportunities, capacity and matching

    apps/api/src/modules/opportunities, capacity and matching (service.ts),
    and capacity-freshness.job.ts.  Reads return
    [res]; a mutation is its [_pre] and its [_tx].  Numbers of the rows'
    integer columns are [num_of_Z] to the engines. *)
From S2P Require Import Prelude StableSort DomainStates AuthzMatrix Authz JsNumber Money Eligibility MatchScoring Evidence JsDate JsonText Database ApiShared Idempotency.
From S2P Require Import ClaimRepositories TradeRepositories PassportRepositories SupplyRepositories.
From Stdlib Require Import Ascii.
Import Roles Actions.
#[local] Open Scope Z_scope.

Definition in_roles (roles : list PersonaRole) (a : Actor) : bool := match role a with Some r => bool_decide (r ∈ roles) | None => false end.

(** [if (!actor.organizationId) throw ...] *)
Definition ownOrganization (a : Actor) : res string :=
  when_present (organizationId a) Ok (Throw (forbidden "Actor has no active organization membership.")).

Section Service.
Context `{Platform}.

(** ** opportunitiesService *)

Definition CROSS_ORG_OPPORTUNITY_ROLES : list PersonaRole :=
  [PLATFORM_OWNER; MARKETPLACE_OPERATOR; COMPLIANCE_REVIEWER; UNDERWRITING_ANALYST; AUDITOR_READONLY].

(** The opportunity, if the actor may do this to it. *)
Definition authorizedOpportunity (a : Actor) (action : Action) (x : string) (db : Db) : res OpportunityRow.t :=
  match opportunity_findById db x with
  | None => Throw (notFound "Opportunity not found.")
  | Some o => do! require (can a action (resourceOf ResourceType.opportunity x (Some (OpportunityRow.ownerOrgId o))) noContext); Ok o
  end.

Definition opportunitiesService_getById (a : Actor) (x : string) (db : Db) : res OpportunityRow.t := authorizedOpportunity a opportunity_read x db.

Definition opportunitiesService_list (a : Actor) (db : Db) : res (list OpportunityRow.t) :=
  do! require (can a Actions.opportunity_list (resource ResourceType.opportunity (organizationId a)) noContext);
  if in_roles CROSS_ORG_OPPORTUNITY_ROLES a then Ok (SupplyRepositories.opportunity_list db 100)
  else Ok (when_present (organizationId a) (opportunity_listByOwnerOrg db) []).

Record CreateOpportunityRequest : Type := {
  oq_opportunityType : OpportunityType.t;
  oq_requestedService : string;
  oq_currency : string;
  oq_totalPaymentVolumeMinor : option string;
  oq_totalCardGpvMinor : option string;
  oq_eligibleCardGpvMinor : option string;
  oq_offeredCardGpvMinor : option string;
  oq_movableNowMinor : option string;
  oq_movable30dMinor : option string;
  oq_movable90dMinor : option string;
  oq_jurisdictions : option (list string);
  oq_mccs : option (list string)
}.

Definition createOpportunity_pre (c : Call) (db : Db) : res string :=
  let! org := ownOrganization (actor c) in
  do! require (can (actor c) Actions.opportunity_create (resource ResourceType.opportunity (Some org)) noContext);
  Ok org.

Definition OpportunityType_name (t : OpportunityType.t) : string :=
  match t with
  | OpportunityType.ACQUIRING => "ACQUIRING"
  | OpportunityType.PSP_ROUTING => "PSP_ROUTING"
  | OpportunityType.BACKUP_PROCESSING => "BACKUP_PROCESSING"
  end.

Definition createOpportunity_tx (c : Call) (i : CreateOpportunityRequest) (org : string) : Tx OpportunityRow.t :=
  let* total := tlift (parseBigIntMinorUnits (oq_totalPaymentVolumeMinor i) "totalPaymentVolumeMinor") in
  let* card := tlift (parseBigIntMinorUnits (oq_totalCardGpvMinor i) "totalCardGpvMinor") in
  let* eligibleCard := tlift (parseBigIntMinorUnits (oq_eligibleCardGpvMinor i) "eligibleCardGpvMinor") in
  let* offered := tlift (parseBigIntMinorUnits (oq_offeredCardGpvMinor i) "offeredCardGpvMinor") in
  let* movableNow := tlift (parseBigIntMinorUnits (oq_movableNowMinor i) "movableNowMinor") in
  let* movable30d := tlift (parseBigIntMinorUnits (oq_movable30dMinor i) "movable30dMinor") in
  let* movable90d := tlift (parseBigIntMinorUnits (oq_movable90dMinor i) "movable90dMinor") in
  let* created := SupplyRepositories.opportunity_create {| co_ownerOrgId := org; co_opportunityType := oq_opportunityType i;
    co_requestedService := oq_requestedService i; co_currency := oq_currency i; co_totalPaymentVolumeMinor := total; co_totalCardGpvMinor := card;
    co_eligibleCardGpvMinor := eligibleCard; co_offeredCardGpvMinor := offered; co_movableNowMinor := movableNow; co_movable30dMinor := movable30d;
    co_movable90dMinor := movable90d; co_jurisdictions := default [] (oq_jurisdictions i); co_mccs := default [] (oq_mccs i);
    co_createdByUserId := Some (userId (actor c)); co_createdByOrgId := Some org |} in
  do* auditWriter (context c) (audit_of c (Some org) "opportunity.created" "opportunity" (OpportunityRow.id created)
        (JObj [("opportunityType", JStr (OpportunityType_name (OpportunityRow.opportunityType created)));
               ("requestedService", JStr (OpportunityRow.requestedService created));
               ("status", JStr (Opportunity.OpportunityStatus_name (OpportunityRow.status created)))]));
  tret created.

Definition summaryOf (o : OpportunityRow.t) : OpportunityVolumeSummary :=
  {| s_currency := OpportunityRow.currency o; Money.offeredCardGpvMinor := OpportunityRow.offeredCardGpvMinor o;
     Money.movableNowMinor := OpportunityRow.movableNowMinor o; Money.movable30dMinor := OpportunityRow.movable30dMinor o;
     Money.movable90dMinor := OpportunityRow.movable90dMinor o |}.

Definition sliceOf (s : VolumeSliceRow.t) : VolumeSliceInput :=
  {| Money.jurisdiction := VolumeSliceRow.jurisdiction s; Money.mcc := VolumeSliceRow.mcc s; Money.cardOrigin := VolumeSliceRow.cardOrigin s;
     Money.channel := VolumeSliceRow.channel s; Money.period := VolumeSliceRow.period s; Money.currency := VolumeSliceRow.currency s;
     Money.amountMinor := VolumeSliceRow.amountMinor s |}.

Definition reconcileVolume (o : OpportunityRow.t) (slices : list VolumeSliceRow.t) : res VolumeReconciliationResult :=
  reconcileOpportunityVolume (map sliceOf slices) (summaryOf o).

Definition getVolumeSlices (a : Actor) (x : string) (db : Db) : res (list VolumeSliceRow.t * VolumeReconciliationResult) :=
  let! o := authorizedOpportunity a opportunity_read x db in
  let slices := volumeSlice_listByOpportunity db x in
  let! reconciliation := reconcileVolume o slices in
  Ok (slices, reconciliation).

Record SliceRequest : Type := {
  sl_jurisdiction : string; sl_mcc : string; sl_cardOrigin : string; sl_channel : string; sl_amountMinor : string; sl_period : string
}.

Definition sliceInput (currency : string) (s : SliceRequest) : res VolumeSliceInput :=
  let! amount := parseBigIntMinorUnits (Some (sl_amountMinor s)) "amountMinor" in
  Ok {| Money.jurisdiction := sl_jurisdiction s; Money.mcc := sl_mcc s; Money.cardOrigin := sl_cardOrigin s; Money.channel := sl_channel s;
        Money.period := sl_period s; Money.currency := currency; Money.amountMinor := amount |}.

Record ReplacePlan : Type := { rl_opportunity : OpportunityRow.t; rl_reconciliation : VolumeReconciliationResult; rl_toInsert : list VolumeSliceInput }.

Definition replaceVolumeSlices_pre (c : Call) (x : string) (input : list SliceRequest) (db : Db) : res ReplacePlan :=
  let! o := authorizedOpportunity (actor c) opportunity_update x db in
  let! slices := mapM_res (sliceInput (OpportunityRow.currency o)) input in
  let! reconciliation := reconcileOpportunityVolume slices (summaryOf o) in
  Ok {| rl_opportunity := o; rl_reconciliation := reconciliation; rl_toInsert := firstOfEachCell ∅ slices |}.

(** The rows of the new breakdown. *)
Definition insertSlices (c : Call) (x : string) (slices : list VolumeSliceInput) : Tx (list VolumeSliceRow.t) :=
  tmapM (fun s => volumeSlice_create {| cv_opportunityId := x; cv_slice := s; cv_createdByUserId := Some (userId (actor c));
                                        cv_createdByOrgId := organizationId (actor c) |}) slices.

Definition replaceVolumeSlices_tx (c : Call) (x : string) (p : ReplacePlan) : Tx (list VolumeSliceRow.t) :=
  do* volumeSlice_deleteAllByOpportunity x;
  let* rows := insertSlices c x (rl_toInsert p) in
  do* auditWriter (context c) (audit_of c (Some (OpportunityRow.ownerOrgId (rl_opportunity p))) "opportunity.volume_slices_replaced" "opportunity" x
        (JObj [("sliceCount", JNum (Z.of_nat (length rows))); ("reconciled", JBool (reconciled (rl_reconciliation p)));
               ("mismatchCount", JNum (Z.of_nat (length (mismatches (rl_reconciliation p)))))]));
  tret rows.

(** ** capacityService *)

Definition CROSS_ORG_CAPACITY_ROLES : list PersonaRole :=
  [PLATFORM_OWNER; MARKETPLACE_OPERATOR; PARTNERSHIP_LEAD; COMPLIANCE_REVIEWER; AUDITOR_READONLY].

Definition SourceType_name (s : SourceType.t) : string :=
  match s with
  | SourceType.PLATFORM => "PLATFORM" | SourceType.IMPORT => "IMPORT" | SourceType.CONNECTOR => "CONNECTOR"
  | SourceType.MIGRATION => "MIGRATION" | SourceType.SYSTEM => "SYSTEM"
  end.

Definition liveFreshness (c : CapacityProfileRow.t) (now : Z) : Freshness.FreshnessClass :=
  classifyCapacityFreshness {| Evidence.asOf := CapacityProfileRow.asOf c; Evidence.sourceType := SourceType_name (Database.sourceType (CapacityProfileRow.base c)) |}
    now capacityFreshnessWindowDays.

Record CapacityProfileWithLiveFreshness : Type := { lf_profile : CapacityProfileRow.t; lf_freshnessClass : Freshness.FreshnessClass }.

Definition withLiveFreshness (now : Z) (c : CapacityProfileRow.t) : CapacityProfileWithLiveFreshness :=
  {| lf_profile := c; lf_freshnessClass := liveFreshness c now |}.

Definition capacityService_getById (c : Call) (x : string) (db : Db) : res CapacityProfileWithLiveFreshness :=
  match capacity_findById db x with
  | None => Throw (notFound "Capacity profile not found.")
  | Some p =>
      do! require (can (actor c) capacity_read (resourceOf ResourceType.capacity_profile x (Some (CapacityProfileRow.providerOrgId p))) noContext);
      Ok (withLiveFreshness (now c) p)
  end.

Definition capacityService_list (c : Call) (db : Db) : res (list CapacityProfileWithLiveFreshness) :=
  do! require (can (actor c) Actions.capacity_list (resource ResourceType.capacity_profile (organizationId (actor c))) noContext);
  let profiles := if in_roles CROSS_ORG_CAPACITY_ROLES (actor c) then SupplyRepositories.capacity_list db 100
                  else when_present (organizationId (actor c)) (capacity_listByProviderOrg db) [] in
  Ok (map (withLiveFreshness (now c)) profiles).

Record CreateCapacityProfileRequest : Type := {
  cq_acceptingNewVolume : option bool;
  cq_jurisdictions : option (list string);
  cq_mccsAccepted : option (list string);
  cq_mccsExcluded : option (list string);
  cq_currency : string;
  cq_monthlyCapacityMinor : option string;
  cq_minTicketMinor : option Z;
  cq_maxTicketMinor : option Z;
  cq_maxChargebackBps : option Z;
  cq_maxFraudBps : option Z;
  cq_maxRefundBps : option Z;
  cq_settlementRail : string;
  cq_settlementCadenceDays : option Z;
  cq_commercialTerms : option CommercialTerms
}.

Definition createCapacity_pre (c : Call) (i : CreateCapacityProfileRequest) : res (string * Z) :=
  let! org := ownOrganization (actor c) in
  do! require (can (actor c) Actions.capacity_create (resource ResourceType.capacity_profile (Some org)) noContext);
  let! monthly := parseBigIntMinorUnits (cq_monthlyCapacityMinor i) "monthlyCapacityMinor" in
  Ok (org, monthly).

Definition createCapacity_tx (c : Call) (i : CreateCapacityProfileRequest) (p : string * Z) : Tx CapacityProfileWithLiveFreshness :=
  let fresh := classifyCapacityFreshness {| Evidence.asOf := now c; Evidence.sourceType := "PLATFORM" |} (now c) capacityFreshnessWindowDays in
  let* created := SupplyRepositories.capacity_create {| cc_providerOrgId := p.1; cc_asOf := now c; cc_freshnessClass := fresh;
    cc_acceptingNewVolume := default true (cq_acceptingNewVolume i); cc_jurisdictions := default [] (cq_jurisdictions i);
    cc_mccsAccepted := default [] (cq_mccsAccepted i); cc_mccsExcluded := default [] (cq_mccsExcluded i); cc_currency := cq_currency i;
    cc_monthlyCapacityMinor := p.2; cc_minTicketMinor := cq_minTicketMinor i; cc_maxTicketMinor := cq_maxTicketMinor i;
    cc_maxChargebackBps := cq_maxChargebackBps i; cc_maxFraudBps := cq_maxFraudBps i; cc_maxRefundBps := cq_maxRefundBps i;
    cc_settlementRail := cq_settlementRail i; cc_settlementCadenceDays := cq_settlementCadenceDays i; cc_commercialTerms := cq_commercialTerms i;
    cc_createdByUserId := Some (userId (actor c)); cc_createdByOrgId := organizationId (actor c) |} in
  do* auditWriter (context c) (audit_of c (Some p.1) "capacity_profile.created" "capacity_profile" (CapacityProfileRow.id created)
        (JObj [("freshnessClass", JStr (Freshness.FreshnessClass_name (CapacityProfileRow.freshnessClass created)));
               ("currency", JStr (CapacityProfileRow.currency created))]));
  tret {| lf_profile := created; lf_freshnessClass := fresh |}.

(** ** matchingService *)

Definition CROSS_ORG_MATCH_READ_ROLES : list PersonaRole :=
  [PLATFORM_OWNER; MARKETPLACE_OPERATOR; PARTNERSHIP_LEAD; UNDERWRITING_ANALYST; COMPLIANCE_REVIEWER; AUDITOR_READONLY].
Definition MAX_CANDIDATE_CAPACITIES : nat := 500.
Definition MATCH_READINESS_STALE_AFTER_DAYS : Z := 90.

Record EvaluateMatchesRequest : Type := { eq_averageTicketMinor : option Z; eq_requiredSettlementRail : option string }.

Definition toMatchOpportunityInput (o : OpportunityRow.t) : MatchOpportunityInput :=
  {| o_id := OpportunityRow.id o; o_currency := OpportunityRow.currency o; o_jurisdictions := OpportunityRow.jurisdictions o;
     Eligibility.mccs := OpportunityRow.mccs o; Eligibility.movable30dMinor := OpportunityRow.movable30dMinor o |}.

Definition toMatchTerms (t : CommercialTerms) : MatchCommercialTerms :=
  {| mdrBps := num_of_Z (ct_mdrBps t); fixedFeeMinor := num_of_Z (ct_fixedFeeMinor t); model := ct_model t |}.

Definition toMatchCapacityInput (c : CapacityProfileRow.t) (fresh : Freshness.FreshnessClass) : MatchCapacityInput :=
  {| c_id := CapacityProfileRow.id c; c_currency := CapacityProfileRow.currency c; c_jurisdictions := CapacityProfileRow.jurisdictions c;
     Eligibility.mccsAccepted := CapacityProfileRow.mccsAccepted c; Eligibility.mccsExcluded := CapacityProfileRow.mccsExcluded c;
     Eligibility.acceptingNewVolume := CapacityProfileRow.acceptingNewVolume c;
     Eligibility.monthlyCapacityMinor := CapacityProfileRow.monthlyCapacityMinor c;
     Eligibility.minTicketMinor := num_of_Z (CapacityProfileRow.minTicketMinor c); Eligibility.maxTicketMinor := num_of_Z (CapacityProfileRow.maxTicketMinor c);
     Eligibility.maxChargebackBps := num_of_Z (CapacityProfileRow.maxChargebackBps c); Eligibility.maxFraudBps := num_of_Z (CapacityProfileRow.maxFraudBps c);
     Eligibility.maxRefundBps := num_of_Z (CapacityProfileRow.maxRefundBps c); Eligibility.settlementRail := CapacityProfileRow.settlementRail c;
     Eligibility.settlementCadenceDays := num_of_Z (CapacityProfileRow.settlementCadenceDays c);
     Eligibility.freshnessClass := Freshness.FreshnessClass_name fresh;
     Eligibility.commercialTerms := toMatchTerms <$> CapacityProfileRow.commercialTerms c |}.

(** [undefined] when the organization has no passport. *)
Definition liveProviderPassportStatus (org : string) (now : Z) (db : Db) : res (option Passport.PassportStatus) :=
  match passport_findByOrganizationId db org with
  | None => Ok None
  | Some p =>
      match readiness_findLatestByPassport db (PassportRow.id p) with
      | None => Ok (Some (PassportRow.status p))
      | Some latest =>
          let! stale := Passport.isPassportReadinessStale (PassportRow.status p) (Some (ReadinessResultRow.computedAt latest)) now MATCH_READINESS_STALE_AFTER_DAYS in
          Ok (Some (if stale then Passport.STALE else PassportRow.status p))
      end
  end.

Definition versionOf (kind x : string) (v : Z) : string := kind +:+ ":" +:+ x +:+ ":v" +:+ pretty v.

Definition baseInputVersions (o : OpportunityRow.t) : list string := [versionOf "opportunity" (OpportunityRow.id o) (version (OpportunityRow.base o))].

Definition matchContext (t : Z) (passport : option Passport.PassportStatus) (i : EvaluateMatchesRequest) (rail : option string) (versions : list string) : MatchContext :=
  {| Eligibility.now := t; providerPassportStatus := passport; merchantRiskProfile := None; averageTicketMinor := num_of_Z <$> eq_averageTicketMinor i;
     requiredSettlementRail := rail; complianceHold := None; Eligibility.ruleVersion := None; Eligibility.inputVersions := Some versions |}.

Record Evaluated : Type := { ev_capacity : CapacityProfileRow.t; ev_input : MatchCapacityInput; ev_eligibility : EligibilityResult }.

Definition evaluateCandidate (o : OpportunityRow.t) (i : EvaluateMatchesRequest) (t : Z) (db : Db) (c : CapacityProfileRow.t) : res Evaluated :=
  let fresh := liveFreshness c t in
  let! passport := liveProviderPassportStatus (CapacityProfileRow.providerOrgId c) t db in
  let input := toMatchCapacityInput c fresh in
  let! e := evaluateEligibility (toMatchOpportunityInput o) input
    (matchContext t passport i (eq_requiredSettlementRail i)
      (baseInputVersions o ++ [versionOf "capacity" (CapacityProfileRow.id c) (version (CapacityProfileRow.base c))])) in
  Ok {| ev_capacity := c; ev_input := input; ev_eligibility := e |}.

Record EvaluatePlan : Type := { ep_opportunity : OpportunityRow.t; ep_evaluated : list Evaluated; ep_ranked : list RankedMatch }.

Definition isEligible (e : Evaluated) : bool := Eligibility.eligible (ev_eligibility e).

Definition evaluate_pre (c : Call) (x : string) (i : EvaluateMatchesRequest) (db : Db) : res EvaluatePlan :=
  match opportunity_findById db x with
  | None => Throw (notFound "Opportunity not found.")
  | Some o =>
      do! require (can (actor c) matching_evaluate (resource ResourceType.match_result (Some (OpportunityRow.ownerOrgId o))) noContext);
      do! throw_if (negb (bool_decide (OpportunityRow.status o = Opportunity.MATCH_READY)) && negb (bool_decide (OpportunityRow.status o = Opportunity.INVITED)))
            (badRequest ("Opportunity must be MATCH_READY or INVITED to evaluate matches (current status: "
                         +:+ Opportunity.OpportunityStatus_name (OpportunityRow.status o) +:+ ")."));
      let! evaluated := mapM_res (evaluateCandidate o i (now c) db) (SupplyRepositories.capacity_list db MAX_CANDIDATE_CAPACITIES) in
      let eligibleEntries := List.filter isEligible evaluated in
      let! ranked := match eligibleEntries with
                     | [] => Ok []
                     | _ => rankMatches (toMatchOpportunityInput o) (map ev_input eligibleEntries) (matchContext (now c) None i None (baseInputVersions o))
                     end in
      Ok {| ep_opportunity := o; ep_evaluated := evaluated; ep_ranked := ranked |}
  end.

(** [rankByCapacityId.get(id)]: the last entry of a [Map] with that key. *)
Definition rankEntry (ranked : list RankedMatch) (x : string) : option RankedMatch := List.find (fun r => String.eqb (capacityId r) x) (rev ranked).

Definition matchInput (c : Call) (p : EvaluatePlan) (e : Evaluated) : CreateMatchResultInput :=
  let r := rankEntry (ep_ranked p) (CapacityProfileRow.id (ev_capacity e)) in
  {| cx_opportunityId := OpportunityRow.id (ep_opportunity p); cx_capacityId := CapacityProfileRow.id (ev_capacity e);
     cx_eligible := isEligible e; cx_eligibilityResults := results (ev_eligibility e); cx_ruleVersion := e_ruleVersion (ev_eligibility e);
     cx_rankingBreakdown := breakdown <$> r; cx_rank := m_rank <$> r; cx_totalScore := (fun r => m_total (breakdown r)) <$> r;
     cx_algorithmVersion := (fun r => m_algorithmVersion (breakdown r)) <$> r; cx_inputVersions := e_inputVersions (ev_eligibility e);
     cx_evaluatedAt := now c; cx_createdByUserId := Some (userId (actor c)); cx_createdByOrgId := Some (OpportunityRow.ownerOrgId (ep_opportunity p)) |}.

Definition evaluationJson (p : EvaluatePlan) : Json :=
  JObj [("opportunityId", JStr (OpportunityRow.id (ep_opportunity p))); ("candidateCount", JNum (Z.of_nat (length (ep_evaluated p))));
        ("eligibleCount", JNum (Z.of_nat (length (List.filter isEligible (ep_evaluated p))))); ("ruleVersion", JStr MATCHING_ruleVersion);
        ("algorithmVersion", JStr MATCHING_algorithmVersion)].

Definition evaluate_tx (c : Call) (p : EvaluatePlan) : Tx (list MatchResultRow.t) :=
  let* created := tmapM (fun e => matchResult_create (matchInput c p e)) (ep_evaluated p) in
  do* auditWriter (context c)
        {| a_actorUserId := Some (userId (actor c)); a_actorOrgId := organizationId (actor c); a_actorRole := role (actor c);
           a_subjectOrgId := Some (OpportunityRow.ownerOrgId (ep_opportunity p)); a_action := "matching.evaluated"; a_resourceType := "match_result";
           a_resourceId := None; a_beforeValue := None; a_afterValue := Some (evaluationJson p); a_reason := None |};
  do* timelineWriter (context c) (event_of c "match.computed" "opportunity" (OpportunityRow.id (ep_opportunity p)) (evaluationJson p));
  tret created.

Definition matchingService_list (a : Actor) (x : string) (db : Db) : res (list MatchResultRow.t) :=
  match opportunity_findById db x with
  | None => Throw (notFound "Opportunity not found.")
  | Some o =>
      do! require (can a match_list (resource ResourceType.match_result (Some (OpportunityRow.ownerOrgId o))) {| isSelf := None; isParticipant := Some true |});
      let all := matchResult_listLatestByOpportunity db x in
      if in_roles CROSS_ORG_MATCH_READ_ROLES a then Ok all
      else if bool_decide (organizationId a = Some (OpportunityRow.ownerOrgId o)) then Ok all
      else if in_roles [ACQUIRER_PROVIDER_USER] a then
        Ok (when_present (organizationId a)
              (fun org => let mine := map CapacityProfileRow.id (capacity_listByProviderOrg db org) in
                          List.filter (fun m => bool_decide (MatchResultRow.capacityId m ∈ mine)) all) [])
      else Ok []
  end.

(** ** capacity-freshness.job.ts *)

Section Job.
Context (sha256_hex : list ascii -> string).

Definition freshnessInfo (fresh : CapacityProfileRow.t) (to : Freshness.FreshnessClass) : JobIdempotencyInfo :=
  let t := toISOString (CapacityProfileRow.asOf fresh) in
  {| ji_scope := "worker.capacity-freshness";
     ji_key := CapacityProfileRow.id fresh +:+ ":" +:+ t +:+ ":" +:+ Freshness.FreshnessClass_name to;
     ji_requestPayload := JObj [("profileId", JStr (CapacityProfileRow.id fresh)); ("asOf", JStr t);
                                ("newFreshnessClass", JStr (Freshness.FreshnessClass_name to))] |}.

(** What runs under [withJobIdempotency]. *)
Definition reclassifyBody (fresh : CapacityProfileRow.t) (to : Freshness.FreshnessClass) (trigger : string) : Tx Json :=
  do* capacity_updateFreshnessClass (CapacityProfileRow.id fresh) to None;
  do* domainEventRepository_write
        {| t_eventType := "capacity_profile.freshness_recomputed"; t_aggregateType := "capacity_profile"; t_aggregateId := CapacityProfileRow.id fresh;
           t_payload := Some (JObj [("providerOrgId", JStr (CapacityProfileRow.providerOrgId fresh));
             ("previousFreshnessClass", JStr (Freshness.FreshnessClass_name (CapacityProfileRow.freshnessClass fresh)));
             ("newFreshnessClass", JStr (Freshness.FreshnessClass_name to)); ("trigger", JStr trigger)]);
           t_actorUserId := None; t_actorOrgId := None; t_actorRole := None |} None;
  tret (JObj [("reclassified", JBool true)]).

Definition recomputeOne (x : string) (now : Z) (trigger : string) : Tx bool :=
  fun db =>
    match capacity_findById db x with
    | None => Ok (false, db)
    | Some fresh =>
        let to := liveFreshness fresh now in
        if bool_decide (to = CapacityProfileRow.freshnessClass fresh) then Ok (false, db)
        else (do* withJobIdempotency sha256_hex (freshnessInfo fresh to) now (reclassifyBody fresh to trigger); tret true) db
    end.

Record CapacityFreshnessJobResult : Type := { z_scanned : Z; z_reclassified : Z }.

(** The job for one profile; its result when there is none. *)
Definition freshnessJob_pre (x : string) (db : Db) : CapacityFreshnessJobResult + unit :=
  match capacity_findById db x with
  | None => inl {| z_scanned := 0; z_reclassified := 0 |}
  | Some _ => inr tt
  end.

Definition freshnessJob_tx (x : string) (now : Z) (p : CapacityFreshnessJobResult + unit) : Tx CapacityFreshnessJobResult :=
  match p with
  | inl r => tret r
  | inr _ => let* changed := recomputeOne x now "event" in tret {| z_scanned := 1; z_reclassified := if changed then 1 else 0 |}
  end.

(** The sweep: each profile commits before the next one is looked at. *)
Fixpoint reclassifyEach (l : list CapacityProfileRow.t) (now : Z) (db : Db) : Db * res Z :=
  match l with
  | [] => (db, Ok 0)
  | profile :: l' =>
      match recomputeOne (CapacityProfileRow.id profile) now "sweep" db with
      | Throw e => (db, Throw e)
      | Ok (changed, db1) =>
          let (db2, n) := reclassifyEach l' now db1 in
          (db2, let! n := n in Ok (n + if changed then 1 else 0))
      end
  end.

Definition freshnessSweep (now : Z) (db : Db) : Db * res CapacityFreshnessJobResult :=
  let profiles := SupplyRepositories.capacity_list db 500 in
  let (db', n) := reclassifyEach profiles now db in
  (db', let! n := n in Ok {| z_scanned := Z.of_nat (length profiles); z_reclassified := n |}).

End Job.
End Service.
