(* ===== verification/MarketService.v ===== *)
(** * The visible market

    apps/api/src/modules/marketplace (service.ts and mapper.ts): one redacted
    catalog, the same for every viewer.  A field of a record about to be
    redacted is a [FieldValue]; [undefined] is a key the redaction dropped. *)
From S2P Require Import Prelude StableSort DomainStates AuthzMatrix Authz JsNumber Money Eligibility MatchScoring Database ApiShared.
From S2P Require Import SupplyRepositories SupplyService.
Import Roles Actions.
#[local] Open Scope Z_scope.

Inductive VolumeBand : Type := UNDER_100K | B100K_1M | B1M_5M | B5M_20M | B20M_PLUS.
Inductive RiskTier : Type := LOW | MODERATE | ELEVATED.

Definition bandVolume (amountMinor : Z) : VolumeBand :=
  if amountMinor <? 10000000 then UNDER_100K
  else if amountMinor <? 100000000 then B100K_1M
  else if amountMinor <? 500000000 then B1M_5M
  else if amountMinor <? 2000000000 then B5M_20M
  else B20M_PLUS.

(** The three columns are 32-bit integers, whose sum a number holds exactly. *)
Definition bandRiskTier (maxChargebackBps maxFraudBps maxRefundBps : Z) : RiskTier :=
  let total := maxChargebackBps + maxFraudBps + maxRefundBps in
  if total <=? 300 then LOW else if total <=? 700 then MODERATE else ELEVATED.

Inductive FieldValue : Type :=
| FText (s : string)
| FTexts (l : list string)
| FBool (b : bool)
| FInt (n : Z)
| FFreshness (f : Freshness.FreshnessClass)
| FType (t : OpportunityType.t)
| FStatus (s : Opportunity.OpportunityStatus)
| FBand (b : VolumeBand)
| FTier (t : RiskTier)
| FTerms (t : option CommercialTerms).

(** [visible.key] *)
Definition visibleField (visible : list (string * FieldValue)) (key : string) : option FieldValue :=
  snd <$> List.find (fun kv => String.eqb (fst kv) key) visible.

Definition asText (v : option FieldValue) : option string := match v with Some (FText s) => Some s | _ => None end.
Definition asTexts (v : option FieldValue) : option (list string) := match v with Some (FTexts l) => Some l | _ => None end.
Definition asBool (v : option FieldValue) : option bool := match v with Some (FBool b) => Some b | _ => None end.
Definition asFreshness (v : option FieldValue) : option Freshness.FreshnessClass := match v with Some (FFreshness f) => Some f | _ => None end.
Definition asType (v : option FieldValue) : option OpportunityType.t := match v with Some (FType t) => Some t | _ => None end.
Definition asStatus (v : option FieldValue) : option Opportunity.OpportunityStatus := match v with Some (FStatus s) => Some s | _ => None end.
Definition asBand (v : option FieldValue) : option VolumeBand := match v with Some (FBand b) => Some b | _ => None end.
Definition asTier (v : option FieldValue) : option RiskTier := match v with Some (FTier t) => Some t | _ => None end.

Definition CAPACITY_MARKET_FIELD_CLASSES : gmap string string :=
  list_to_map [("providerOrgId", "RESTRICTED"); ("freshnessClass", "MEMBER_MARKET"); ("acceptingNewVolume", "MEMBER_MARKET");
    ("jurisdictions", "MEMBER_MARKET"); ("mccsAccepted", "MEMBER_MARKET"); ("currency", "MEMBER_MARKET"); ("monthlyCapacityBand", "MEMBER_MARKET");
    ("riskTier", "MEMBER_MARKET"); ("monthlyCapacityMinor", "SECRET"); ("minTicketMinor", "RESTRICTED"); ("maxTicketMinor", "RESTRICTED");
    ("maxChargebackBps", "RESTRICTED"); ("maxFraudBps", "RESTRICTED"); ("maxRefundBps", "RESTRICTED"); ("settlementRail", "RESTRICTED");
    ("settlementCadenceDays", "RESTRICTED"); ("commercialTerms", "SECRET")].

Definition capacityFields (p : CapacityProfileRow.t) (live : Freshness.FreshnessClass) : list (string * FieldValue) :=
  [("providerOrgId", FText (CapacityProfileRow.providerOrgId p)); ("freshnessClass", FFreshness live);
   ("acceptingNewVolume", FBool (CapacityProfileRow.acceptingNewVolume p)); ("jurisdictions", FTexts (CapacityProfileRow.jurisdictions p));
   ("mccsAccepted", FTexts (CapacityProfileRow.mccsAccepted p)); ("currency", FText (CapacityProfileRow.currency p));
   ("monthlyCapacityBand", FBand (bandVolume (CapacityProfileRow.monthlyCapacityMinor p)));
   ("riskTier", FTier (bandRiskTier (CapacityProfileRow.maxChargebackBps p) (CapacityProfileRow.maxFraudBps p) (CapacityProfileRow.maxRefundBps p)));
   ("monthlyCapacityMinor", FText (pretty (CapacityProfileRow.monthlyCapacityMinor p))); ("minTicketMinor", FInt (CapacityProfileRow.minTicketMinor p));
   ("maxTicketMinor", FInt (CapacityProfileRow.maxTicketMinor p)); ("maxChargebackBps", FInt (CapacityProfileRow.maxChargebackBps p));
   ("maxFraudBps", FInt (CapacityProfileRow.maxFraudBps p)); ("maxRefundBps", FInt (CapacityProfileRow.maxRefundBps p));
   ("settlementRail", FText (CapacityProfileRow.settlementRail p)); ("settlementCadenceDays", FInt (CapacityProfileRow.settlementCadenceDays p));
   ("commercialTerms", FTerms (CapacityProfileRow.commercialTerms p))].

Record MarketplaceCapacityCard : Type := {
  k_cardId : string;
  k_freshnessClass : Freshness.FreshnessClass;
  k_acceptingNewVolume : bool;
  k_jurisdictions : list string;
  k_mccsAccepted : list string;
  k_currency : string;
  k_monthlyCapacityBand : VolumeBand;
  k_riskTier : RiskTier
}.

Definition toMarketplaceCapacityCard (a : Actor) (p : CapacityProfileRow.t) (live : Freshness.FreshnessClass) : res (option MarketplaceCapacityCard) :=
  let! visible := redactFields a (resourceOf ResourceType.capacity_profile (CapacityProfileRow.id p) None) (capacityFields p live)
                    CAPACITY_MARKET_FIELD_CLASSES (Some "SECRET") in
  let v := visibleField visible in
  Ok (freshnessClass ← asFreshness (v "freshnessClass");
      acceptingNewVolume ← asBool (v "acceptingNewVolume");
      jurisdictions ← asTexts (v "jurisdictions");
      mccsAccepted ← asTexts (v "mccsAccepted");
      currency ← asText (v "currency");
      monthlyCapacityBand ← asBand (v "monthlyCapacityBand");
      riskTier ← asTier (v "riskTier");
      Some {| k_cardId := CapacityProfileRow.id p; k_freshnessClass := freshnessClass; k_acceptingNewVolume := acceptingNewVolume;
              k_jurisdictions := jurisdictions; k_mccsAccepted := mccsAccepted; k_currency := currency;
              k_monthlyCapacityBand := monthlyCapacityBand; k_riskTier := riskTier |}).

Definition OPPORTUNITY_MARKET_FIELD_CLASSES : gmap string string :=
  list_to_map [("ownerOrgId", "RESTRICTED"); ("opportunityType", "MEMBER_MARKET"); ("status", "MEMBER_MARKET"); ("currency", "MEMBER_MARKET");
    ("jurisdictions", "MEMBER_MARKET"); ("mccs", "MEMBER_MARKET"); ("offeredVolumeBand", "MEMBER_MARKET"); ("totalPaymentVolumeMinor", "SECRET");
    ("totalCardGpvMinor", "SECRET"); ("eligibleCardGpvMinor", "SECRET"); ("offeredCardGpvMinor", "SECRET"); ("movableNowMinor", "RESTRICTED");
    ("movable30dMinor", "RESTRICTED"); ("movable90dMinor", "RESTRICTED")].

Definition opportunityFields (o : OpportunityRow.t) : list (string * FieldValue) :=
  [("ownerOrgId", FText (OpportunityRow.ownerOrgId o)); ("opportunityType", FType (OpportunityRow.opportunityType o));
   ("status", FStatus (OpportunityRow.status o)); ("currency", FText (OpportunityRow.currency o));
   ("jurisdictions", FTexts (OpportunityRow.jurisdictions o)); ("mccs", FTexts (OpportunityRow.mccs o));
   ("offeredVolumeBand", FBand (bandVolume (OpportunityRow.offeredCardGpvMinor o)));
   ("totalPaymentVolumeMinor", FText (pretty (OpportunityRow.totalPaymentVolumeMinor o)));
   ("totalCardGpvMinor", FText (pretty (OpportunityRow.totalCardGpvMinor o))); ("eligibleCardGpvMinor", FText (pretty (OpportunityRow.eligibleCardGpvMinor o)));
   ("offeredCardGpvMinor", FText (pretty (OpportunityRow.offeredCardGpvMinor o))); ("movableNowMinor", FText (pretty (OpportunityRow.movableNowMinor o)));
   ("movable30dMinor", FText (pretty (OpportunityRow.movable30dMinor o))); ("movable90dMinor", FText (pretty (OpportunityRow.movable90dMinor o)))].

Record MarketplaceOpportunityCard : Type := {
  w_cardId : string;
  w_opportunityType : OpportunityType.t;
  w_status : Opportunity.OpportunityStatus;
  w_currency : string;
  w_jurisdictions : list string;
  w_mccs : list string;
  w_offeredVolumeBand : VolumeBand
}.

Definition toMarketplaceOpportunityCard (a : Actor) (o : OpportunityRow.t) : res (option MarketplaceOpportunityCard) :=
  let! visible := redactFields a (resourceOf ResourceType.opportunity (OpportunityRow.id o) None) (opportunityFields o)
                    OPPORTUNITY_MARKET_FIELD_CLASSES (Some "SECRET") in
  let v := visibleField visible in
  Ok (opportunityType ← asType (v "opportunityType");
      status ← asStatus (v "status");
      currency ← asText (v "currency");
      jurisdictions ← asTexts (v "jurisdictions");
      mccs ← asTexts (v "mccs");
      offeredVolumeBand ← asBand (v "offeredVolumeBand");
      Some {| w_cardId := OpportunityRow.id o; w_opportunityType := opportunityType; w_status := status; w_currency := currency;
              w_jurisdictions := jurisdictions; w_mccs := mccs; w_offeredVolumeBand := offeredVolumeBand |}).

(** [.filter((card) => card !== null)] *)
Definition notNull {A} (l : list (option A)) : list A := omap (fun x => x) l.

(** ** marketplaceService *)

Definition listCapacity (c : Call) (db : Db) : res (list MarketplaceCapacityCard) :=
  do! require (can (actor c) capacity_browse_market (resource ResourceType.capacity_profile None) noContext);
  let! cards := mapM_res (fun p => toMarketplaceCapacityCard (actor c) p (liveFreshness p (now c))) (SupplyRepositories.capacity_list db 500) in
  Ok (notNull cards).

Definition listOpportunities (a : Actor) (db : Db) : res (list MarketplaceOpportunityCard) :=
  do! require (can a opportunity_browse_market (resource ResourceType.opportunity None) noContext);
  let! cards := mapM_res (toMarketplaceOpportunityCard a) (SupplyRepositories.opportunity_list db 500) in
  Ok (notNull cards).
