(* ===== verification/SupplyBook.v ===== *)
(** * Supply and demand: the abstract exchange and the tables

    The exchange and its steps, without tables; then the exchange four tables
    hold and what each repository call does to it. *)
From S2P Require Import Prelude DomainStates Eligibility Database Tables SupplyService StableSort Money JsonText ApiShared Idempotency SupplyRepositories.
From stdpp Require Import relations.
From Stdlib Require Import Sorted.
#[local] Open Scope Z_scope.

(** ** What the exchange promises

    Supply and demand without tables: which demands are open, which capacities
    are listed, how much of a demand each cell of its breakdown holds, and the
    matches made so far.  [exchange_step] is one act of the opportunity,
    capacity and matching services or of the freshness job. *)

(** Jurisdiction, mcc, card origin, channel and period. *)
Definition Cell : Type := string * string * string * string * string.

Record Demand : Type := { dm_owner : string; dm_currency : string }.

Record Exchange : Type := {
  demands : gmap string Demand;
  listings : gmap string CapacityProfileRow.t;
  volumes : gmap (string * Cell) (string * Z);
  matchings : list MatchResultRow.t
}.

(** A listing under another freshness class: nothing else changes but its bookkeeping. *)
Definition relabelled (f : Freshness.FreshnessClass) (b : Base) (c : CapacityProfileRow.t) : CapacityProfileRow.t :=
  {| CapacityProfileRow.id := CapacityProfileRow.id c; CapacityProfileRow.providerOrgId := CapacityProfileRow.providerOrgId c;
     CapacityProfileRow.asOf := CapacityProfileRow.asOf c; CapacityProfileRow.freshnessClass := f;
     CapacityProfileRow.acceptingNewVolume := CapacityProfileRow.acceptingNewVolume c; CapacityProfileRow.jurisdictions := CapacityProfileRow.jurisdictions c;
     CapacityProfileRow.mccsAccepted := CapacityProfileRow.mccsAccepted c; CapacityProfileRow.mccsExcluded := CapacityProfileRow.mccsExcluded c;
     CapacityProfileRow.currency := CapacityProfileRow.currency c; CapacityProfileRow.monthlyCapacityMinor := CapacityProfileRow.monthlyCapacityMinor c;
     CapacityProfileRow.minTicketMinor := CapacityProfileRow.minTicketMinor c; CapacityProfileRow.maxTicketMinor := CapacityProfileRow.maxTicketMinor c;
     CapacityProfileRow.maxChargebackBps := CapacityProfileRow.maxChargebackBps c; CapacityProfileRow.maxFraudBps := CapacityProfileRow.maxFraudBps c;
     CapacityProfileRow.maxRefundBps := CapacityProfileRow.maxRefundBps c; CapacityProfileRow.settlementRail := CapacityProfileRow.settlementRail c;
     CapacityProfileRow.settlementCadenceDays := CapacityProfileRow.settlementCadenceDays c; CapacityProfileRow.commercialTerms := CapacityProfileRow.commercialTerms c;
     CapacityProfileRow.status := CapacityProfileRow.status c; CapacityProfileRow.base := b |}.

(** The stored class was the live one at some time. *)
Definition honest (c : CapacityProfileRow.t) : Prop := exists t, CapacityProfileRow.freshnessClass c = liveFreshness c t.

(** Eligible exactly when nothing blocks, and ranked exactly when eligible. *)
Definition sound_match (m : MatchResultRow.t) : Prop :=
  (MatchResultRow.eligible m = true <-> forall r, r ∈ MatchResultRow.eligibilityResults m -> blocks r = false) /\
  (MatchResultRow.eligible m = true -> is_Some (MatchResultRow.rankingBreakdown m) /\ is_Some (MatchResultRow.rank m) /\
     is_Some (MatchResultRow.totalScore m) /\ is_Some (MatchResultRow.algorithmVersion m)) /\
  (MatchResultRow.eligible m = false -> MatchResultRow.rankingBreakdown m = None /\ MatchResultRow.rank m = None /\
     MatchResultRow.totalScore m = None /\ MatchResultRow.algorithmVersion m = None).

(** The eligible ones of one evaluation have the ranks 1, 2, ... *)
Definition ranked_batch (l : list MatchResultRow.t) : Prop :=
  let e := List.filter MatchResultRow.eligible l in map MatchResultRow.rank e ≡ₚ map (fun n => Some (Z.of_nat n)) (seq 1 (length e)).

Definition open_demand (x : string) (d : Demand) (g : Exchange) : Exchange :=
  {| demands := <[x := d]> (demands g); listings := listings g; volumes := volumes g; matchings := matchings g |}.
Definition list_capacity (x : string) (c : CapacityProfileRow.t) (g : Exchange) : Exchange :=
  {| demands := demands g; listings := <[x := c]> (listings g); volumes := volumes g; matchings := matchings g |}.
Definition restate (x : string) (l : list (Cell * (string * Z))) (g : Exchange) : Exchange :=
  {| demands := demands g; listings := listings g;
     volumes := list_to_map (map (fun kv => ((x, fst kv), snd kv)) l) ∪ filter (fun kv => fst (fst kv) <> x) (volumes g); matchings := matchings g |}.
Definition record_matches (l : list MatchResultRow.t) (g : Exchange) : Exchange :=
  {| demands := demands g; listings := listings g; volumes := volumes g; matchings := matchings g ++ l |}.

(** One evaluation of demand [x] at [t]. *)
Record evaluation (g : Exchange) (x : string) (t : Z) (l : list MatchResultRow.t) : Prop := {
  en_of : Forall (fun m => MatchResultRow.opportunityId m = x /\ MatchResultRow.evaluatedAt m = t) l;
  en_sound : Forall sound_match l;
  en_listed : Forall (fun m => is_Some (listings g !! MatchResultRow.capacityId m)) l;
  en_once : NoDup (map MatchResultRow.capacityId l);
  en_ranked : ranked_batch l
}.

Inductive exchange_step : Exchange -> Exchange -> Prop :=
| step_demand g x d :
    demands g !! x = None -> exchange_step g (open_demand x d g)
| step_list g x c :
    listings g !! x = None -> honest c -> exchange_step g (list_capacity x c g)
| step_reclassify g x c f b :
    listings g !! x = Some c -> honest (relabelled f b c) -> exchange_step g (list_capacity x (relabelled f b c) g)
| step_restate g x d l :
    demands g !! x = Some d -> NoDup (map fst l) -> Forall (fun kv => fst (snd kv) = dm_currency d) l ->
    exchange_step g (restate x l g)
| step_evaluate g x t l :
    is_Some (demands g !! x) -> evaluation g x t l -> exchange_step g (record_matches l g).

(** ** What an exchange may become *)

Record exchange_later (g g' : Exchange) : Prop := {
  xl_demands : map_later eq (demands g) (demands g');
  xl_listings : map_later (fun c c' => exists f b, c' = relabelled f b c) (listings g) (listings g');
  xl_matchings : exists l, matchings g' = matchings g ++ l
}.

#[export] Instance relabelled_pre : PreOrder (fun c c' => exists f b, c' = relabelled f b c).
Proof.
  split.
  - intros c. exists (CapacityProfileRow.freshnessClass c), (CapacityProfileRow.base c). by destruct c.
  - intros c1 c2 c3 (f & b & ->) (f' & b' & ->). by exists f', b'.
Qed.

#[export] Instance exchange_later_pre : PreOrder exchange_later.
Proof.
  split.
  - intros g. split; [done|done|]. exists []. by rewrite app_nil_r.
  - intros g1 g2 g3 [A1 A2 [l1 A3]] [B1 B2 [l2 B3]]. split; [by etransitivity|by etransitivity|]. exists (l1 ++ l2). by rewrite B3, A3, app_assoc.
Qed.

Lemma nothing_matched g : exists l, matchings g = matchings g ++ l.
Proof. exists []. by rewrite app_nil_r. Qed.
#[local] Hint Resolve nothing_matched : core.

Lemma exchange_step_later g g' : exchange_step g g' -> exchange_later g g'.
Proof.
  destruct 1 as [g x d Hx|g x c Hx _|g x c f b Hx _|g x d l _ _ _|g x t l _ _]; (split; cbn; [| |by auto || by exists l]); try reflexivity.
  - by apply map_later_new; [apply _|].
  - by apply map_later_new; [apply relabelled_pre|].
  - apply (map_later_set _ _ _ c); [done|]. by exists f, b.
Qed.

Lemma exchange_run_later g g' : rtc exchange_step g g' -> exchange_later g g'.
Proof. induction 1 as [g|g g1 g2 St _ IH]; [done|]. etransitivity; [by apply exchange_step_later|done]. Qed.

(** ** What every exchange keeps *)

Definition in_currency (g : Exchange) (k : string * Cell) (v : string * Z) : Prop := exists d, demands g !! fst k = Some d /\ fst v = dm_currency d.

Definition known_match (g : Exchange) (m : MatchResultRow.t) : Prop :=
  is_Some (demands g !! MatchResultRow.opportunityId m) /\ is_Some (listings g !! MatchResultRow.capacityId m).

Record exchange_ok (g : Exchange) : Prop := {
  xo_currency : map_Forall (in_currency g) (volumes g);
  xo_honest : map_Forall (fun _ => honest) (listings g);
  xo_sound : Forall sound_match (matchings g);
  xo_known : Forall (known_match g) (matchings g)
}.

Lemma in_currency_later g g' k v : exchange_later g g' -> in_currency g k v -> in_currency g' k v.
Proof. intros L (d & Hd & E). destruct (xl_demands _ _ L _ _ Hd) as (d' & Hd' & <-). by exists d. Qed.

Lemma known_later g g' m : exchange_later g g' -> known_match g m -> known_match g' m.
Proof.
  intros L [[d Hd] [c Hc]]. destruct (xl_demands _ _ L _ _ Hd) as (d' & Hd' & _). destruct (xl_listings _ _ L _ _ Hc) as (c' & Hc' & _). by split; [exists d'|exists c'].
Qed.

Lemma breakdown_restated g x l k v : volumes (restate x l g) !! k = Some v ->
  (fst k = x /\ (snd k, v) ∈ l) \/ (fst k <> x /\ volumes g !! k = Some v).
Proof.
  cbn. intros [Hl|[_ Hb]]%lookup_union_Some_raw.
  - left. apply elem_of_list_to_map_2, list_elem_of_fmap in Hl as ([c w] & [= -> ->] & Hin). by split.
  - right. apply map_lookup_filter_Some in Hb as [Hb Hne]. by split.
Qed.

Lemma exchange_step_ok g g' : exchange_ok g -> exchange_step g g' -> exchange_ok g'.
Proof.
  intros [K1 K2 K3 K4] St. pose proof (exchange_step_later _ _ St) as L.
  assert (map_Forall (in_currency g') (volumes g) /\ Forall (known_match g') (matchings g)) as [B1 B4].
  { split; [intros k v Hk; by apply (in_currency_later g), K1|]. eapply Forall_impl; [exact K4|]. intros m. by apply known_later. }
  destruct St as [g x d Hx|g x c Hx Hc|g x c f b Hx Hc|g x d l Hx Nd Hl|g x t l Hx Hl]; split; cbn; try done.
  - intros y w. by intros [[<- <-]|[_ ?%K2]]%lookup_insert_Some.
  - intros y w. by intros [[<- <-]|[_ ?%K2]]%lookup_insert_Some.
  - intros [y k] v [[E Hin]|[_ Hb]]%breakdown_restated; [|by apply B1]. cbn in E. subst y. exists d. split; [done|].
    exact (proj1 (Forall_forall _ _) Hl _ Hin).
  - apply Forall_app. split; [done|apply Hl].
  - apply Forall_app. split; [done|]. destruct Hl as [H1 _ H3 _ _]. apply Forall_forall. intros m Hm. split; cbn.
    + destruct (proj1 (Forall_forall _ _) H1 m Hm) as [-> _]. done.
    + exact (proj1 (Forall_forall _ _) H3 m Hm).
Qed.

Lemma exchange_run_ok g g' : exchange_ok g -> rtc exchange_step g g' -> exchange_ok g'.
Proof. intros K R. induction R as [g|g g1 g2 St _ IH]; [done|]. by apply IH, (exchange_step_ok g). Qed.

(** ** The supply and demand tables as an exchange

    The abstraction of four tables to [Exchange], and what each repository
    call does to it. *)

Definition demandOf (o : OpportunityRow.t) : Demand := {| dm_owner := OpportunityRow.ownerOrgId o; dm_currency := OpportunityRow.currency o |}.

Definition cellOf (s : VolumeSliceInput) : Cell := (Money.jurisdiction s, Money.mcc s, Money.cardOrigin s, Money.channel s, Money.period s).
Definition sliceEntry (s : VolumeSliceInput) : Cell * (string * Z) := (cellOf s, (Money.currency s, Money.amountMinor s)).
Definition rowEntry (s : VolumeSliceRow.t) : (string * Cell) * (string * Z) := (sliceKey s, (VolumeSliceRow.currency s, VolumeSliceRow.amountMinor s)).

Definition exchange (db : Db) : Exchange :=
  {| demands := book demandOf (opportunities db); listings := book (fun c => c) (capacityProfiles db);
     volumes := list_to_map (map rowEntry (volumeSlices db)); matchings := matchResults db |}.

(** Distinct keys are distinct cells. *)
Lemma cells_distinct l : NoDup (map cellKey l) -> NoDup (map cellOf l).
Proof.
  intros Nd. induction l as [|s l IH]; cbn in *; [constructor|]. apply NoDup_cons in Nd as [Hs Nd]. apply NoDup_cons. split; [|by apply IH].
  intros (s' & E & Hs')%list_elem_of_fmap. apply Hs. assert (cellKey s = cellKey s') as ->; [|by apply list_elem_of_fmap_2].
  unfold cellOf in E. injection E as E1 E2 E3 E4 E5. unfold cellKey. by rewrite E1, E2, E3, E4, E5.
Qed.

Lemma table_filter {R} `{Platform, Row R} db p (t : list R) : table_ok db t -> table_ok db (List.filter p t).
Proof.
  intros [T1 T2 T3 T4]. assert (forall r, r ∈ List.filter p t -> r ∈ t) as Sub by (intros r [? _]%elem_of_filter_list; done). split.
  - apply Forall_forall. intros r Hr%Sub. by apply (proj1 (Forall_forall _ _) T1).
  - clear - T2. induction t as [|r t IH]; cbn in *; [constructor|]. apply NoDup_cons in T2 as [Hr T2]. destruct (p r); [|by apply IH].
    cbn. apply NoDup_cons. split; [|by apply IH]. intros (r' & E & [Hr' _]%elem_of_filter_list)%list_elem_of_fmap. apply Hr. rewrite E. by apply list_elem_of_fmap_2.
  - by apply chronological_filter.
  - apply Forall_forall. intros r Hr%Sub. by apply (proj1 (Forall_forall _ _) T4).
Qed.

Section Book.
Context `{Platform}.

Record supply_tables (db : Db) : Prop := {
  st_opportunities : table_ok db (opportunities db);
  st_profiles : table_ok db (capacityProfiles db);
  st_slices : table_ok db (volumeSlices db);
  st_matches : table_ok db (matchResults db);
  st_cells : NoDup (map sliceKey (volumeSlices db))
}.

Record supply_ok (db : Db) : Prop := { so_tables : supply_tables db; so_exchange : exchange_ok (exchange db) }.

(** What an operation leaves behind. *)
Record leaves (db db' : Db) (g : Exchange) : Prop := {
  lv_tables : supply_tables db';
  lv_exchange : exchange db' = g;
  lv_drawn : (drawn db <= drawn db')%nat;
  lv_clock : clock db' = clock db
}.

Lemma supply_leaves_trans db1 db2 db3 g2 g3 : leaves db1 db2 g2 -> leaves db2 db3 g3 -> leaves db1 db3 g3.
Proof. intros [A1 A2 A3 A4] [B1 B2 B3 B4]. split; [done|done|lia|congruence]. Qed.

Lemma supply_leaves_refl db : supply_tables db -> leaves db db (exchange db).
Proof. done. Qed.

(** A later moment with the same rows. *)
Lemma leaves_same db db' : supply_tables db -> opportunities db' = opportunities db -> capacityProfiles db' = capacityProfiles db ->
  volumeSlices db' = volumeSlices db -> matchResults db' = matchResults db -> (drawn db <= drawn db')%nat -> clock db' = clock db ->
  leaves db db' (exchange db).
Proof.
  intros [T1 T2 T3 T4 T5] E1 E2 E3 E4 Hd Hc. split; [|unfold exchange; by rewrite E1, E2, E3, E4|done|done].
  split; rewrite ?E1, ?E2, ?E3, ?E4; try done; (apply (table_same db); [done|done|lia]).
Qed.

Lemma aside_leaves db db' : supply_tables db -> aside db db' -> leaves db db' (exchange db).
Proof. intros T (a & e & k & n & Hn & ->). by apply leaves_same. Qed.

Lemma supply_audit_leaves ctx i db a db' : supply_tables db -> auditWriter ctx i db = Ok (a, db') -> leaves db db' (exchange db).
Proof. intros T E%audit_aside. by apply aside_leaves. Qed.

Lemma event_leaves i ctx db e db' : supply_tables db -> domainEventRepository_write i ctx db = Ok (e, db') -> leaves db db' (exchange db).
Proof. intros T E%event_aside. by apply aside_leaves. Qed.

(** The tables a creation does not touch. *)
Ltac others db := apply (table_same db); [done|cbn; lia|cbn; lia].

Lemma opportunity_create_leaves i db o db' : supply_tables db -> opportunity_create i db = Ok (o, db') ->
  demands (exchange db) !! OpportunityRow.id o = None /\ demandOf o = {| dm_owner := co_ownerOrgId i; dm_currency := co_currency i |} /\
  leaves db db' (open_demand (OpportunityRow.id o) (demandOf o) (exchange db)).
Proof.
  intros [T1 T2 T3 T4 T5] E. unfold opportunity_create in E. do 3 (apply tbind_Ok in E as (? & ? & [_ ->]%tlift_Ok & E)). apply tbind_Ok in E as (fresh & d & [= <- <-] & E). cbv zeta in E. injection E as Eo <-.
  assert (row_id o = newId (drawn db)) as Ei by (by rewrite <- Eo). assert (row_createdAt o = clock db) as Ec by (by rewrite <- Eo).
  destruct (book_new demandOf db (opportunities db) o T1 Ei) as [Hn Hb]. split_and!; [exact Hn|by rewrite <- Eo|]. rewrite Eo.
  split; cbn; [|unfold exchange, open_demand; cbn; by f_equal|lia|done].
  split; cbn; [|others db|others db|others db|done]. by apply (table_snoc db).
Qed.

Lemma capacity_create_leaves i db c db' : supply_tables db -> capacity_create i db = Ok (c, db') ->
  listings (exchange db) !! CapacityProfileRow.id c = None /\ CapacityProfileRow.asOf c = cc_asOf i /\
  CapacityProfileRow.freshnessClass c = cc_freshnessClass i /\ Database.sourceType (CapacityProfileRow.base c) = SourceType.PLATFORM /\
  leaves db db' (list_capacity (CapacityProfileRow.id c) c (exchange db)).
Proof.
  intros [T1 T2 T3 T4 T5] E. unfold capacity_create in E. do 5 (apply tbind_Ok in E as (? & ? & [_ ->]%tlift_Ok & E)).
  apply tbind_Ok in E as (fresh & d & [= <- <-] & E). cbv zeta in E. injection E as Eo <-.
  assert (row_id c = newId (drawn db)) as Ei by (by rewrite <- Eo). assert (row_createdAt c = clock db) as Ec by (by rewrite <- Eo).
  destruct (book_new (fun c => c) db (capacityProfiles db) c T2 Ei) as [Hn Hb]. split_and!; [exact Hn|by rewrite <- Eo|by rewrite <- Eo|by rewrite <- Eo|]. rewrite Eo.
  split; cbn; [|unfold exchange, list_capacity; cbn; by f_equal|lia|done].
  split; cbn; [others db| |others db|others db|done]. by apply (table_snoc db).
Qed.

Lemma withFreshness_relabels f u c : withFreshness f u c = relabelled f (touch (CapacityProfileRow.base c) u) c.
Proof. done. Qed.

Lemma updateFreshnessClass_leaves x f u db c db' : supply_tables db -> capacity_updateFreshnessClass x f u db = Ok (c, db') ->
  exists c0, capacity_findById db x = Some c0 /\ c = withFreshness f u c0 /\ leaves db db' (list_capacity x c (exchange db)).
Proof.
  intros [T1 T2 T3 T4 T5] E. unfold capacity_updateFreshnessClass in E. apply rbind_Ok in E as ([r tab] & E & [= <- <-]).
  apply updateById_Ok in E as (c0 & Hc & -> & ->). exists c0. split_and!; [done|done|].
  assert (keeps_identity (withFreshness f u)) as K by done.
  split; cbn; [|unfold exchange, list_capacity; cbn; f_equal; exact (book_updating (fun c => c) _ x _ c0 K Hc)|done|done].
  split; cbn; [others db| |others db|others db|done]. apply (table_same db); [exact (table_update db (capacityProfiles db) x _ K T2)|cbn; lia|cbn; lia].
Qed.

(** ** Breakdowns *)

Lemma rows_lookup l k v : NoDup (map sliceKey l) -> list_to_map (M := gmap _ _) (map rowEntry l) !! k = Some v <-> exists s, s ∈ l /\ rowEntry s = (k, v).
Proof.
  intros Nd. rewrite <- elem_of_list_to_map by (rewrite <- list_fmap_compose; exact Nd). rewrite list_elem_of_fmap. naive_solver.
Qed.

Lemma keys_filter p t : NoDup (map sliceKey t) -> NoDup (map sliceKey (List.filter p t)).
Proof.
  intros Nv. induction t as [|s t IH]; cbn in *; [constructor|]. apply NoDup_cons in Nv as [Hs Nv]. destruct (p s); [|by apply IH].
  cbn. apply NoDup_cons. split; [|by apply IH]. intros (r & E & [Hr _]%elem_of_filter_list)%list_elem_of_fmap. apply Hs. rewrite E. by apply list_elem_of_fmap_2.
Qed.

Lemma breakdown_filter p t : NoDup (map sliceKey t) -> (forall s s', sliceKey s = sliceKey s' -> p s = p s') ->
  forall k v, list_to_map (M := gmap _ _) (map rowEntry (List.filter p t)) !! k = Some v <->
    list_to_map (M := gmap _ _) (map rowEntry t) !! k = Some v /\ forall s, sliceKey s = k -> p s = true.
Proof.
  intros Nd Hp k v. assert (NoDup (map sliceKey (List.filter p t))) as Nk by (by apply keys_filter).
  rewrite !rows_lookup by done. setoid_rewrite elem_of_filter_list. split.
  - intros (s & [Hs Ps] & [= <- <-]). split; [by exists s|]. intros s' E. by rewrite (Hp _ _ E).
  - intros [(s & Hs & E) Pk]. exists s. split; [|done]. split; [done|]. apply Pk. by injection E.
Qed.

Lemma delete_leaves x db n db' : supply_tables db -> volumeSlice_deleteAllByOpportunity x db = Ok (n, db') ->
  leaves db db' (restate x [] (exchange db)).
Proof.
  intros [T1 T2 T3 T4 T5] [= _ <-]. split; [|unfold exchange, restate; cbn; f_equal|done|done].
  - split; cbn; [others db|others db| |others db|by apply keys_filter]. apply (table_same db); [by apply table_filter|cbn; lia|cbn; lia].
  - rewrite (left_id_L ∅ _). apply map_eq. intros [y k]. apply option_eq. intros v. rewrite map_lookup_filter_Some.
    rewrite breakdown_filter; [|done|intros s s' [= -> _ _ _ _ _]; done]. cbn. split; intros [Hb Hx]; (split; [done|]).
    + destruct (proj1 (rows_lookup _ _ _ T5) Hb) as (s & _ & [= E Ek _]). specialize (Hx s (f_equal2 pair E Ek)). apply negb_true_iff, String.eqb_neq in Hx. congruence.
    + intros s [= -> _]. by apply negb_true_iff, String.eqb_neq.
Qed.

Lemma restated_lookup x l g k v : NoDup (map fst l) -> (k, v) ∈ l -> volumes (restate x l g) !! (x, k) = Some v.
Proof.
  intros Nd Hin. cbn. apply lookup_union_Some_l, elem_of_list_to_map.
  - change (NoDup (map fst (map (fun kv : Cell * (string * Z) => ((x, fst kv), snd kv)) l))). rewrite map_map. cbn [fst snd].
    rewrite <- (map_map fst (pair x)). apply (NoDup_fmap_2 (pair x)), Nd.
  - apply list_elem_of_fmap. by exists (k, v).
Qed.

(** One more cell. *)
Definition hold (k : string * Cell) (v : string * Z) (g : Exchange) : Exchange :=
  {| demands := demands g; listings := listings g; volumes := <[k := v]> (volumes g); matchings := matchings g |}.

Lemma restate_snoc x l k v g : k ∉ map fst l -> restate x (l ++ [(k, v)]) g = hold (x, k) v (restate x l g).
Proof.
  intros Hk. unfold restate, hold. cbn. f_equal. rewrite map_app. cbn [map fst snd]. rewrite list_to_map_snoc; [by rewrite insert_union_l|].
  intros (kv & E & Hkv)%list_elem_of_fmap. apply Hk. apply list_elem_of_fmap in Hkv as ([k' v'] & -> & Hin). injection E as ->. apply list_elem_of_fmap. by exists (k', v').
Qed.

Lemma slice_create_leaves i db s db' l g : supply_tables db -> exchange db = restate (cv_opportunityId i) l g -> NoDup (map fst l) ->
  volumeSlice_create i db = Ok (s, db') ->
  rowEntry s = ((cv_opportunityId i, cellOf (cv_slice i)), snd (sliceEntry (cv_slice i))) /\
  NoDup (map fst (l ++ [sliceEntry (cv_slice i)])) /\ leaves db db' (restate (cv_opportunityId i) (l ++ [sliceEntry (cv_slice i)]) g).
Proof.
  intros T Ex Nd E. pose proof T as [T1 T2 T3 T4 T5]. unfold volumeSlice_create in E. apply tbind_Ok in E as (? & ? & [_ ->]%tlift_Ok & E).
  apply tbind_Ok in E as (fresh & d & [= <- <-] & E). cbv zeta in E. case_bool_decide as Hk; [done|]. injection E as Es <-.
  assert (row_id s = newId (drawn db)) as Ei by (by rewrite <- Es). assert (row_createdAt s = clock db) as Ec by (by rewrite <- Es).
  assert (rowEntry s = ((cv_opportunityId i, cellOf (cv_slice i)), snd (sliceEntry (cv_slice i)))) as Er by (by rewrite <- Es).
  rewrite Es in Hk |- *. assert (cellOf (cv_slice i) ∉ map fst l) as Hl.
  { intros Hin. apply Hk. cbn. assert (is_Some (volumes (exchange db) !! (cv_opportunityId i, cellOf (cv_slice i)))) as [v Hv].
    { rewrite Ex. apply list_elem_of_fmap in Hin as ([k w] & Ek & Hin). exists w. rewrite Ek. by apply restated_lookup. }
    apply rows_lookup in Hv as (s' & Hs' & E'); [|done]. apply list_elem_of_fmap. exists s'. split; [|done].
    apply (f_equal fst) in Er, E'. cbn in Er, E'. by rewrite Er, E'. }
  split_and!; [done| |].
  - rewrite map_app. apply NoDup_app. split_and!; [done| |apply NoDup_singleton]. intros k Hin ->%list_elem_of_singleton. done.
  - split; [| |cbn; lia|done].
    + split; cbn; [others db|others db| |others db|]; [by apply (table_snoc db)|]. rewrite map_app. apply NoDup_app. split_and!; [done| |apply NoDup_singleton].
      intros k Hin ->%list_elem_of_singleton. done.
    + change (sliceEntry (cv_slice i)) with (cellOf (cv_slice i), snd (sliceEntry (cv_slice i))). rewrite restate_snoc, <- Ex by done.
      unfold exchange, hold. cbn [demands listings volumes matchings volumeSlices opportunities capacityProfiles matchResults set_volumeSlices set_drawn].
      f_equal. rewrite map_app. cbn [map]. rewrite Er. apply list_to_map_snoc.
      intros (kv & E & Hkv)%list_elem_of_fmap. apply Hk. apply list_elem_of_fmap in Hkv as (s' & -> & Hs'). apply list_elem_of_fmap. exists s'. split; [|done].
      apply (f_equal fst) in Er. cbn in Er, E. by rewrite Er, E.
Qed.
Lemma slice_appended i db s db' : volumeSlice_create i db = Ok (s, db') -> volumeSlices db' = volumeSlices db ++ [s].
Proof.
  intros E. unfold volumeSlice_create in E. apply tbind_Ok in E as (u & e & [_ ->]%tlift_Ok & E). apply tbind_Ok in E as (x & d & [= <- <-] & E). cbv zeta in E.
  case_bool_decide; [done|]. injection E as <- <-. done.
Qed.

Lemma insertSlices_leaves c x slices g : forall l db rows db', supply_tables db -> exchange db = restate x l g -> NoDup (map fst l) ->
  insertSlices c x slices db = Ok (rows, db') ->
  NoDup (map fst (l ++ map sliceEntry slices)) /\ map rowEntry rows = map (fun s => ((x, cellOf s), snd (sliceEntry s))) slices /\
  volumeSlices db' = volumeSlices db ++ rows /\ leaves db db' (restate x (l ++ map sliceEntry slices) g).
Proof.
  unfold insertSlices. induction slices as [|s slices IH]; intros l db rows db' T Ex Nd E; cbn [tmapM] in E.
  - injection E as <- <-. rewrite !app_nil_r. split_and!; [done|done|done|]. by rewrite <- Ex.
  - apply tbind_Ok in E as (row & d1 & E1 & E). apply tbind_Ok in E as (rows' & d2 & E2 & E). injection E as <- <-.
    match type of E1 with volumeSlice_create ?i _ = _ => pose proof (slice_create_leaves i db row d1 l g T Ex Nd E1) as (Er & Nd1 & L1) end. cbn [cv_opportunityId cv_slice] in *.
    destruct (IH _ _ _ _ (lv_tables _ _ _ L1) (lv_exchange _ _ _ L1) Nd1 E2) as (Nd2 & Er2 & Ev & L2). rewrite <- app_assoc in Nd2, L2. split_and!.
    + exact Nd2.
    + cbn [map]. by rewrite Er, Er2.
    + rewrite Ev, (slice_appended _ _ _ _ E1), <- app_assoc. done.
    + by eapply supply_leaves_trans.
Qed.

(** ** Matches *)

(** The row of a result. *)
Record of_input (i : CreateMatchResultInput) (m : MatchResultRow.t) : Prop := {
  oi_opportunity : MatchResultRow.opportunityId m = cx_opportunityId i;
  oi_capacity : MatchResultRow.capacityId m = cx_capacityId i;
  oi_at : MatchResultRow.evaluatedAt m = cx_evaluatedAt i;
  oi_eligible : MatchResultRow.eligible m = cx_eligible i;
  oi_results : MatchResultRow.eligibilityResults m = cx_eligibilityResults i;
  oi_rank : MatchResultRow.rank m = cx_rank i;
  oi_total : MatchResultRow.totalScore m = cx_totalScore i;
  oi_ranking : (MatchResultRow.eligible m = true -> is_Some (MatchResultRow.rankingBreakdown m) /\ is_Some (MatchResultRow.rank m) /\
                  is_Some (MatchResultRow.totalScore m) /\ is_Some (MatchResultRow.algorithmVersion m)) /\
               (MatchResultRow.eligible m = false -> MatchResultRow.rankingBreakdown m = None /\ MatchResultRow.rank m = None /\
                  MatchResultRow.totalScore m = None /\ MatchResultRow.algorithmVersion m = None)
}.

Lemma is_present_iff {A} (o : option A) : (is_present o = true <-> is_Some o) /\ (is_present o = false <-> o = None).
Proof. destruct o as [a|]; cbn; split; split; done. Qed.

Lemma matchResult_create_leaves i db m db' : supply_tables db -> matchResult_create i db = Ok (m, db') ->
  of_input i m /\ leaves db db' (record_matches [m] (exchange db)).
Proof.
  intros [T1 T2 T3 T4 T5] E. unfold matchResult_create in E. do 2 (apply tbind_Ok in E as (? & ? & [_ ->]%tlift_Ok & E)).
  apply tbind_Ok in E as (? & ? & [G1%throw_if_Ok ->]%tlift_Ok & E). apply tbind_Ok in E as (? & ? & [G2%throw_if_Ok ->]%tlift_Ok & E).
  apply tbind_Ok in E as (? & ? & [_ ->]%tlift_Ok & E). apply tbind_Ok in E as (fresh & d & [= <- <-] & E). cbv zeta in E. injection E as Em <-. split.
  - rewrite <- Em. split; cbn; try done. clear Em. unfold hasRankingData, hasAllRankingData in *.
    destruct (cx_eligible i); cbn in *; (split; intros Hel; [|]); try discriminate Hel;
      rewrite ?negb_false_iff, ?andb_true_iff, ?orb_false_iff in *; rewrite ?(proj1 (is_present_iff _)), ?(proj2 (is_present_iff _)) in *; tauto.
  - assert (row_id m = newId (drawn db)) as Ei by (by rewrite <- Em). assert (row_createdAt m = clock db) as Ec by (by rewrite <- Em). rewrite Em.
    split; cbn; [|done|lia|done]. split; cbn; [others db|others db|others db| |done]. by apply (table_snoc db).
Qed.

Lemma tmapM_matches (f : Evaluated -> CreateMatchResultInput) l : forall db rows db', supply_tables db ->
  tmapM (fun e => matchResult_create (f e)) l db = Ok (rows, db') ->
  Forall2 (fun e m => of_input (f e) m) l rows /\ leaves db db' (record_matches rows (exchange db)).
Proof.
  induction l as [|e l IH]; intros db rows db' T E; cbn [tmapM] in E.
  - injection E as <- <-. split; [constructor|]. replace (record_matches [] (exchange db)) with (exchange db); [by apply supply_leaves_refl|].
    unfold record_matches. rewrite app_nil_r. by destruct (exchange db).
  - apply tbind_Ok in E as (m & d1 & [O1 L1]%matchResult_create_leaves & E); [|done]. apply tbind_Ok in E as (ms & d2 & E2 & E). injection E as <- <-.
    destruct (IH _ _ _ (lv_tables _ _ _ L1) E2) as [O2 L2]. split; [by constructor|]. rewrite (lv_exchange _ _ _ L1) in L2.
    replace (record_matches (m :: ms) (exchange db)) with (record_matches ms (record_matches [m] (exchange db))); [by eapply supply_leaves_trans|].
    unfold record_matches. cbn. by rewrite <- app_assoc.
Qed.
End Book.
