(* ===== verification/SupplySystem.v ===== *)
(** * The supply services and the freshness job over one database

    The handler of [Transactions]: five kinds of request.  What a plan read
    before the transaction still says afterwards, and the two obligations:
    every transaction keeps [supply_ok] and is a run of [exchange_step]. *)
From S2P Require Import Prelude StableSort DomainStates AuthzMatrix Authz Money Eligibility MatchScoring JsonText Database Tables ApiShared Idempotency.
From S2P Require Import ClaimRepositories EconomicsTheorems SupplyRepositories SupplyService SupplyBook Transactions.
From Stdlib Require Import Ascii Sorted.
From stdpp Require Import relations.
Import Roles Actions.
#[local] Open Scope Z_scope.

(** ** What an evaluation plans *)

Definition ev_id (e : Evaluated) : string := CapacityProfileRow.id (ev_capacity e).

Definition planRank (p : EvaluatePlan) (e : Evaluated) : option Z := m_rank <$> rankEntry (ep_ranked p) (ev_id e).

Record plan_sound (p : EvaluatePlan) : Prop := {
  ps_eligible : Forall (fun e => isEligible e = true <-> forall r, r ∈ results (ev_eligibility e) -> blocks r = false) (ep_evaluated p);
  ps_once : NoDup (map ev_id (ep_evaluated p));
  ps_ranks : let l := List.filter isEligible (ep_evaluated p) in map (planRank p) l ≡ₚ map (fun n => Some (Z.of_nat n)) (seq 1 (length l))
}.

Lemma rankMatchEntries_ids srt l i : map capacityId (rankMatchEntries srt i l) = map fst l.
Proof. revert i. induction l as [|e l IH]; intros i; [done|]. cbn. by rewrite IH. Qed.

Lemma rankMatchEntries_ranks srt l i : map m_rank (rankMatchEntries srt (Z.of_nat i) l) = map Z.of_nat (seq (S i) (length l)).
Proof.
  revert i. induction l as [|e l IH]; intros i; [done|]. cbn [rankMatchEntries map length seq m_rank]. f_equal; [lia|].
  replace (Z.of_nat i + 1) with (Z.of_nat (S i)) by lia. apply IH.
Qed.

(** [Map.get] on a list of distinct keys. *)
Lemma rankEntry_ranks l : NoDup (map capacityId l) -> map (fun x => m_rank <$> rankEntry l x) (map capacityId l) = map (fun r => Some (m_rank r)) l.
Proof.
  intros Nd. rewrite map_map. apply map_ext_in. intros r Hr%list_elem_of_In. unfold rankEntry.
  assert (exists r', List.find (fun r' => String.eqb (capacityId r') (capacityId r)) (rev l) = Some r') as [r' Hf].
  { destruct (List.find _ _) as [r'|] eqn:Hf; [by exists r'|]. assert (In r (rev l)) as Hin by (apply in_rev; rewrite rev_involutive; by apply list_elem_of_In).
    pose proof (find_none _ _ Hf r Hin) as Hx. cbv beta in Hx. by rewrite String.eqb_refl in Hx. }
  rewrite Hf. cbn. apply find_some in Hf as [Hin%in_rev%list_elem_of_In E%String.eqb_eq]. do 2 f_equal.
  clear - Nd Hr Hin E. induction l as [|a l IH]; [by apply elem_of_nil in Hr|]. cbn in Nd. apply NoDup_cons in Nd as [Ha Nd].
  apply elem_of_cons in Hr as [->|Hr], Hin as [->|Hin]; [done| | |by apply IH].
  - destruct Ha. rewrite <- E. by apply list_elem_of_fmap_2.
  - destruct Ha. rewrite E. by apply list_elem_of_fmap_2.
Qed.

Lemma scored_ids o ctx caps es : mapM_res (fun c => let! b := scoreMatch o c ctx in Ok (c_id c, b)) caps = Ok es -> map fst es = map c_id caps.
Proof.
  revert es. induction caps as [|c caps IH]; intros es; cbn; [by intros [= <-]|].
  intros (e & (b & _ & [= <-])%rbind_Ok & (es' & E & [= <-])%rbind_Ok)%rbind_Ok. cbn. by rewrite (IH _ E).
Qed.

Lemma rankMatches_ranks o ctx caps entries : rankMatches o caps ctx = Ok entries -> NoDup (map c_id caps) ->
  map (fun x => m_rank <$> rankEntry entries x) (map c_id caps) ≡ₚ map (fun n => Some (Z.of_nat n)) (seq 1 (length caps)).
Proof.
  unfold rankMatches. intros (es & Es & [= <-])%rbind_Ok Nd. set (srt := sort_by _ es).
  assert (srt ≡ₚ es) as Hs by apply sort_by_perm. pose proof (scored_ids _ _ _ _ Es) as Ei.
  assert (map capacityId (rankMatchEntries srt 0 srt) ≡ₚ map c_id caps) as Hp by (by rewrite rankMatchEntries_ids, Hs, Ei).
  rewrite <- Hp. rewrite rankEntry_ranks by (by rewrite Hp). rewrite <- (map_map m_rank Some), <- (map_map Z.of_nat Some).
  pose proof (rankMatchEntries_ranks srt srt 0) as Er. change (Z.of_nat 0) with 0 in Er. rewrite Er. replace (length srt) with (length caps); [done|].
  rewrite Hs. by rewrite <- (length_map fst), Ei, length_map.
Qed.

Lemma mapM_res_Forall2 {A B} (f : A -> res B) l r : mapM_res f l = Ok r -> Forall2 (fun a b => f a = Ok b) l r.
Proof.
  revert r. induction l as [|a l IH]; intros r; cbn; [intros [= <-]; constructor|].
  intros (b & Eb & (bs & Ebs & [= <-])%rbind_Ok)%rbind_Ok. constructor; [done|by apply IH].
Qed.

Section Plan.
Context `{Platform}.

Lemma candidate_Ok o i t db c e : evaluateCandidate o i t db c = Ok e ->
  ev_capacity e = c /\ c_id (ev_input e) = ev_id e /\ ev_input e = toMatchCapacityInput c (liveFreshness c t) /\
  exists passport, liveProviderPassportStatus (CapacityProfileRow.providerOrgId c) t db = Ok passport /\
    evaluateEligibility (toMatchOpportunityInput o) (ev_input e)
      (matchContext t passport i (eq_requiredSettlementRail i)
        (baseInputVersions o ++ [versionOf "capacity" (CapacityProfileRow.id c) (version (CapacityProfileRow.base c))])) = Ok (ev_eligibility e).
Proof.
  unfold evaluateCandidate. intros (passport & Ep & (el & Ee & [= <-])%rbind_Ok)%rbind_Ok. cbn. split_and!; [done|done|done|]. by exists passport.
Qed.

Lemma eligible_unblocked o c ctx r : evaluateEligibility o c ctx = Ok r -> eligible r = true <-> forall x, x ∈ results r -> blocks x = false.
Proof. intros (v & k & f & _ & _ & _ & Hres & Hb & _ & ->)%evaluate_inv. by rewrite Hb, filter_nil_iff. Qed.

Lemma profiles_once db n : supply_tables db -> NoDup (map CapacityProfileRow.id (SupplyRepositories.capacity_list db n)).
Proof.
  intros T. unfold SupplyRepositories.capacity_list, findMany. set (l := sort_by _ _).
  assert (NoDup (map CapacityProfileRow.id l)) as Nd by (unfold l; rewrite sort_by_perm; apply (tb_distinct _ _ (table_filter db activeProfile _ (st_profiles _ T)))).
  rewrite <- (take_drop n l), map_app in Nd. by apply NoDup_app in Nd as [? _].
Qed.

Lemma profiles_listed db n c : supply_tables db -> c ∈ SupplyRepositories.capacity_list db n ->
  listings (exchange db) !! CapacityProfileRow.id c = Some c /\ activeProfile c = true.
Proof.
  intros T [Hc Ha]%subseteq_take%findMany_elem. split; [|done]. exact (book_row (fun c => c) db _ c (st_profiles _ T) Hc).
Qed.

(** What an evaluation reads. *)
Record evaluation_read (c : Call) (x : string) (i : EvaluateMatchesRequest) (db : Db) (p : EvaluatePlan) : Prop := {
  er_opportunity : opportunity_findById db x = Some (ep_opportunity p);
  er_allowed : allowed (can (actor c) matching_evaluate (resource ResourceType.match_result (Some (OpportunityRow.ownerOrgId (ep_opportunity p)))) noContext) = true;
  er_status : OpportunityRow.status (ep_opportunity p) = Opportunity.MATCH_READY \/ OpportunityRow.status (ep_opportunity p) = Opportunity.INVITED;
  er_evaluated : Forall2 (fun c' e => evaluateCandidate (ep_opportunity p) i (now c) db c' = Ok e) (SupplyRepositories.capacity_list db MAX_CANDIDATE_CAPACITIES) (ep_evaluated p);
  er_ranked : rankMatches (toMatchOpportunityInput (ep_opportunity p)) (map ev_input (List.filter isEligible (ep_evaluated p)))
                (matchContext (now c) None i None (baseInputVersions (ep_opportunity p))) = Ok (ep_ranked p)
}.

Lemma evaluate_pre_Ok c x i db p : evaluate_pre c x i db = Ok p -> evaluation_read c x i db p.
Proof.
  unfold evaluate_pre. destruct (opportunity_findById db x) as [o|] eqn:Ho; [|done].
  intros (u & Ha%require_Ok & (u' & Hs%throw_if_Ok & (es & Ee%mapM_res_Forall2 & (rs & Er & [= <-])%rbind_Ok)%rbind_Ok)%rbind_Ok)%rbind_Ok.
  split; cbn; [done|done| |done|].
  - apply andb_false_iff in Hs as [Hs|Hs]; apply negb_false_iff, bool_decide_eq_true in Hs; tauto.
  - destruct (List.filter isEligible es) as [|e l]; [injection Er as <-; done|done].
Qed.

Lemma evaluated_ids c x i db p : evaluation_read c x i db p ->
  map ev_id (ep_evaluated p) = map CapacityProfileRow.id (SupplyRepositories.capacity_list db MAX_CANDIDATE_CAPACITIES).
Proof.
  intros [_ _ _ F _]. induction F as [|c' e l es (Ec & _)%candidate_Ok F IH]; [done|]. cbn. rewrite IH. unfold ev_id. by rewrite Ec.
Qed.

Lemma evaluation_sound c x i db p : supply_tables db -> evaluation_read c x i db p -> plan_sound p.
Proof.
  intros T R. pose proof (evaluated_ids _ _ _ _ _ R) as Ei. destruct R as [_ _ _ F Er].
  assert (NoDup (map ev_id (ep_evaluated p))) as Nd by (rewrite Ei; by apply profiles_once).
  assert (forall e, e ∈ ep_evaluated p -> exists c', evaluateCandidate (ep_opportunity p) i (now c) db c' = Ok e) as Hc.
  { intros e He. apply list_elem_of_lookup in He as [k Hk]. destruct (Forall2_lookup_r _ _ _ _ _ F Hk) as (c' & _ & E). by exists c'. }
  split; [|done|].
  - apply Forall_forall. intros e (c' & (_ & _ & _ & ps & _ & Ee)%candidate_Ok)%Hc. by apply (eligible_unblocked _ _ _ _ Ee).
  - cbv zeta. set (l := List.filter isEligible _) in *. assert (map c_id (map ev_input l) = map ev_id l) as Em.
    { rewrite map_map. apply map_ext_in. intros e [He _]%list_elem_of_In%elem_of_filter_list. by apply Hc in He as (c' & (_ & E & _)%candidate_Ok). }
    pose proof (rankMatches_ranks _ _ _ _ Er) as Hr. rewrite Em, length_map, map_map in Hr. apply Hr.
    clear - Nd. unfold l. clear l. induction (ep_evaluated p) as [|e t IH]; cbn in *; [constructor|]. apply NoDup_cons in Nd as [He Nd]. destruct (isEligible e); [|by apply IH].
    cbn. apply NoDup_cons. split; [|by apply IH]. intros (e' & E & [He' _]%elem_of_filter_list)%list_elem_of_fmap. apply He. rewrite E. by apply list_elem_of_fmap_2.
Qed.
End Plan.

(** ** Transactions as runs *)

Section Effects.
Context `{Platform} (sha256_hex : list ascii -> string).

Record acts (db db' : Db) : Prop := {
  ac_tables : supply_tables db';
  ac_run : rtc exchange_step (exchange db) (exchange db');
  ac_drawn : (drawn db <= drawn db')%nat;
  ac_clock : clock db' = clock db
}.

Lemma acts_leaves db db' g : leaves db db' g -> rtc exchange_step (exchange db) g -> acts db db'.
Proof. intros [T <- D C] R. by split. Qed.

Lemma acts_nothing db : supply_tables db -> acts db db.
Proof. intros T. by apply (acts_leaves db db (exchange db)). Qed.

Lemma createOpportunity_acts c i org db o db' : supply_tables db -> createOpportunity_tx c i org db = Ok (o, db') -> acts db db'.
Proof.
  intros T E. unfold createOpportunity_tx in E. do 7 (apply tbind_Ok in E as (? & ? & [_ ->]%tlift_Ok & E)).
  apply tbind_Ok in E as (o' & d1 & (Hn & _ & L1)%opportunity_create_leaves & E); [|done].
  apply tbind_Ok in E as (a & d2 & L2%supply_audit_leaves & [= <- <-]); [|apply L1]. rewrite (lv_exchange _ _ _ L1) in L2.
  apply (acts_leaves _ _ _ (supply_leaves_trans _ _ _ _ _ L1 L2)). by apply rtc_once, step_demand.
Qed.

Lemma createCapacity_acts c i p db v db' : supply_tables db -> createCapacity_tx c i p db = Ok (v, db') -> acts db db'.
Proof.
  intros T E. unfold createCapacity_tx in E. cbv zeta in E.
  apply tbind_Ok in E as (row & d1 & (Hn & Ea & Ef & Es & L1)%capacity_create_leaves & E); [|done].
  apply tbind_Ok in E as (a & d2 & L2%supply_audit_leaves & [= <- <-]); [|apply L1]. rewrite (lv_exchange _ _ _ L1) in L2.
  apply (acts_leaves _ _ _ (supply_leaves_trans _ _ _ _ _ L1 L2)). apply rtc_once, step_list; [done|]. exists (now c).
  unfold liveFreshness. by rewrite Ea, Ef, Es.
Qed.

(** The breakdown a plan is about to store. *)
Definition storable_slices (x : string) (l : list VolumeSliceInput) (g : Exchange) : Prop :=
  exists d, demands g !! x = Some d /\ Forall (fun s => Money.currency s = dm_currency d) l.

Lemma restate_twice x l g : restate x l (restate x [] g) = restate x l g.
Proof.
  unfold restate. cbn. f_equal. rewrite (left_id_L ∅ _), map_filter_filter. f_equal. apply map_filter_ext. naive_solver.
Qed.

Lemma replace_leaves c x p db rows db' : supply_tables db -> replaceVolumeSlices_tx c x p db = Ok (rows, db') ->
  NoDup (map cellOf (rl_toInsert p)) /\ map rowEntry rows = map (fun s => ((x, cellOf s), snd (sliceEntry s))) (rl_toInsert p) /\
  volumeSlices db' = List.filter (fun s => negb (String.eqb (VolumeSliceRow.opportunityId s) x)) (volumeSlices db) ++ rows /\
  leaves db db' (restate x (map sliceEntry (rl_toInsert p)) (exchange db)).
Proof.
  intros T E. unfold replaceVolumeSlices_tx in E. apply tbind_Ok in E as (n & d1 & E1 & E).
  pose proof (delete_leaves _ _ _ _ T E1) as L1. injection E1 as _ E1.
  apply tbind_Ok in E as (rows' & d2 & E2 & E).
  pose proof (insertSlices_leaves c x (rl_toInsert p) (exchange db) [] d1 rows' d2 (lv_tables _ _ _ L1) (lv_exchange _ _ _ L1) (NoDup_nil_2) E2) as (Nd & Er & Ev & L2).
  cbn [app] in Nd, L2. rewrite map_map in Nd.
  apply tbind_Ok in E as (a & d3 & E3 & [= <- <-]). pose proof E3 as (e & ev & k & m & Hm & Ed)%audit_aside. apply supply_audit_leaves in E3 as L3; [|apply L2].
  rewrite (lv_exchange _ _ _ L2) in L3. split_and!; [exact Nd|done| |].
  - rewrite Ed. cbn. rewrite Ev, <- E1. done.
  - eapply supply_leaves_trans; [exact L1|]. by eapply supply_leaves_trans.
Qed.

Lemma replace_acts c x p db rows db' : supply_tables db -> storable_slices x (rl_toInsert p) (exchange db) ->
  replaceVolumeSlices_tx c x p db = Ok (rows, db') -> acts db db'.
Proof.
  intros T (d & Hd & Hc) (Nd & _ & _ & L)%replace_leaves; [|done]. apply (acts_leaves _ _ _ L), rtc_once, (step_restate _ _ d); [done| |].
  - rewrite map_map. exact Nd.
  - by apply Forall_map.
Qed.

(** *** An evaluation *)

Definition plan_known (p : EvaluatePlan) (g : Exchange) : Prop :=
  is_Some (demands g !! OpportunityRow.id (ep_opportunity p)) /\ Forall (fun e => is_Some (listings g !! ev_id e)) (ep_evaluated p).

Lemma evaluate_leaves c p db rows db' : supply_tables db -> evaluate_tx c p db = Ok (rows, db') ->
  Forall2 (fun e m => of_input (matchInput c p e) m) (ep_evaluated p) rows /\ leaves db db' (record_matches rows (exchange db)).
Proof.
  intros T E. unfold evaluate_tx in E. apply tbind_Ok in E as (ms & d1 & [F L1]%tmapM_matches & E); [|done].
  apply tbind_Ok in E as (a & d2 & L2%supply_audit_leaves & E); [|apply L1]. apply tbind_Ok in E as (e & d3 & L3%event_leaves & [= <- <-]); [|apply L2].
  split; [done|]. rewrite (lv_exchange _ _ _ L2), (lv_exchange _ _ _ L1) in L3. rewrite (lv_exchange _ _ _ L1) in L2.
  eapply supply_leaves_trans; [exact L1|]. by eapply supply_leaves_trans.
Qed.

Lemma rows_of_plan c p rows : Forall2 (fun e m => of_input (matchInput c p e) m) (ep_evaluated p) rows ->
  map MatchResultRow.capacityId rows = map ev_id (ep_evaluated p) /\
  map MatchResultRow.rank (List.filter MatchResultRow.eligible rows) = map (planRank p) (List.filter isEligible (ep_evaluated p)).
Proof.
  induction 1 as [|e m es ms O F [IH1 IH2]]; [done|]. cbn. rewrite IH1, (oi_capacity _ _ O), (oi_eligible _ _ O). split; [done|]. cbn.
  destruct (isEligible e); [|done]. cbn. by rewrite IH2, (oi_rank _ _ O).
Qed.

Lemma rows_evaluation c p rows g : plan_sound p -> plan_known p g ->
  Forall2 (fun e m => of_input (matchInput c p e) m) (ep_evaluated p) rows -> evaluation g (OpportunityRow.id (ep_opportunity p)) (now c) rows.
Proof.
  intros [S1 S2 S3] [_ Hk] F. pose proof (rows_of_plan _ _ _ F) as [Ec Er].
  assert (forall m, m ∈ rows -> exists e, e ∈ ep_evaluated p /\ of_input (matchInput c p e) m) as Back.
  { intros m Hm. apply list_elem_of_lookup in Hm as [k Hm]. destruct (Forall2_lookup_r _ _ _ _ _ F Hm) as (e & He & O). exists e. split; [by eapply list_elem_of_lookup_2|done]. }
  split; [apply Forall_forall..| |].
  - intros m (e & _ & O)%Back. by rewrite (oi_opportunity _ _ O), (oi_at _ _ O).
  - intros m (e & He & O)%Back. split; [|apply O]. rewrite (oi_eligible _ _ O), (oi_results _ _ O). exact (proj1 (Forall_forall _ _) S1 e He).
  - intros m (e & He & O)%Back. rewrite (oi_capacity _ _ O). exact (proj1 (Forall_forall _ _) Hk e He).
  - by rewrite Ec.
  - unfold ranked_batch. cbv zeta in *. rewrite Er. rewrite <- (length_map MatchResultRow.rank), Er, length_map. exact S3.
Qed.

Lemma evaluate_acts c p db rows db' : supply_tables db -> plan_sound p -> plan_known p (exchange db) -> evaluate_tx c p db = Ok (rows, db') -> acts db db'.
Proof.
  intros T S K [F L]%evaluate_leaves; [|done]. apply (acts_leaves _ _ _ L), rtc_once, (step_evaluate _ (OpportunityRow.id (ep_opportunity p)) (now c)); [apply K|].
  exact (rows_evaluation _ _ _ _ S K F).
Qed.

(** *** The job *)

(** A profile keeps its class, or takes the live one. *)
Lemma recomputeOne_leaves x t trigger db b db' : supply_tables db -> recomputeOne sha256_hex x t trigger db = Ok (b, db') ->
  leaves db db' (exchange db) \/
  exists c, capacity_findById db x = Some c /\ b = true /\ leaves db db' (list_capacity x (withFreshness (liveFreshness c t) None c) (exchange db)).
Proof.
  intros T E. unfold recomputeOne in E. destruct (capacity_findById db x) as [c|] eqn:Hc; [|injection E as <- <-; left; by apply supply_leaves_refl].
  cbv zeta in E. case_bool_decide as Hf; [injection E as <- <-; left; by apply supply_leaves_refl|].
  apply tbind_Ok in E as (j & d & E & [= <- <-]). apply withJobIdempotency_Ok in E as [->|(r & d1 & E & A)]; [left; by apply supply_leaves_refl|]. right.
  exists c. split_and!; [done|done|]. unfold reclassifyBody in E. pose proof Hc as [_ Ei]%findById_Some. change (row_id c) with (CapacityProfileRow.id c) in Ei.
  apply tbind_Ok in E as (c' & d2 & (c0 & Hc0 & -> & L1)%updateFreshnessClass_leaves & E); [|done]. rewrite Ei, Hc in Hc0. injection Hc0 as <-. rewrite Ei in L1.
  apply tbind_Ok in E as (e & d3 & L2%event_leaves & [= _ <-]); [|apply L1]. apply aside_leaves in A; [|apply L2].
  rewrite (lv_exchange _ _ _ L2), (lv_exchange _ _ _ L1) in A. rewrite (lv_exchange _ _ _ L1) in L2. eapply supply_leaves_trans; [exact L1|]. by eapply supply_leaves_trans.
Qed.

Lemma profile_known db x c : capacity_findById db x = Some c -> listings (exchange db) !! x = Some c.
Proof. intros Hc. cbn. rewrite book_lookup. unfold capacity_findById in Hc. by rewrite Hc. Qed.

Lemma live_honest c t u : honest (withFreshness (liveFreshness c t) u c).
Proof. by exists t. Qed.

Lemma recomputeOne_acts x t trigger db b db' : supply_tables db -> recomputeOne sha256_hex x t trigger db = Ok (b, db') -> acts db db'.
Proof.
  intros T [L|(c & Hc & _ & L)]%recomputeOne_leaves; [by apply (acts_leaves _ _ _ L)| |done]. apply (acts_leaves _ _ _ L), rtc_once.
  rewrite withFreshness_relabels. apply step_reclassify; [by apply profile_known|]. by exists t.
Qed.

Lemma freshness_acts x t p db r db' : supply_tables db -> freshnessJob_tx sha256_hex x t p db = Ok (r, db') -> acts db db'.
Proof.
  intros T E. destruct p as [r'|u]; cbn in E; [injection E as _ <-; by apply acts_nothing|].
  apply tbind_Ok in E as (b & d & E & [= _ <-]). by apply recomputeOne_acts in E.
Qed.
End Effects.

(** ** The handler *)

Inductive SupplyReq : Type :=
| CreateOpportunity (c : Call) (input : CreateOpportunityRequest)
| ReplaceVolumeSlices (c : Call) (opportunityId : string) (input : list SliceRequest)
| CreateCapacity (c : Call) (input : CreateCapacityProfileRequest)
| Evaluate (c : Call) (opportunityId : string) (input : EvaluateMatchesRequest)
| RecomputeFreshness (profileId : string) (now : Z).

Definition supply_plan (r : SupplyReq) : Type :=
  match r with
  | CreateOpportunity _ _ => string
  | ReplaceVolumeSlices _ _ _ => ReplacePlan
  | CreateCapacity _ _ => (string * Z)%type
  | Evaluate _ _ _ => EvaluatePlan
  | RecomputeFreshness _ _ => (CapacityFreshnessJobResult + unit)%type
  end.

Definition supply_out (r : SupplyReq) : Type :=
  match r with
  | CreateOpportunity _ _ => OpportunityRow.t
  | ReplaceVolumeSlices _ _ _ => list VolumeSliceRow.t
  | CreateCapacity _ _ => CapacityProfileWithLiveFreshness
  | Evaluate _ _ _ => list MatchResultRow.t
  | RecomputeFreshness _ _ => CapacityFreshnessJobResult
  end.

Definition supply_resp (r : SupplyReq) : Type :=
  match r with ReplaceVolumeSlices _ _ _ => (list VolumeSliceRow.t * VolumeReconciliationResult)%type | _ => supply_out r end.

(** Everything else on the platform leaves profiles, slices and matches alone,
    and opportunities with their owners and currencies. *)
Record supply_env `{Platform} (db db' : Db) : Prop := {
  se_profiles : capacityProfiles db' = capacityProfiles db;
  se_slices : volumeSlices db' = volumeSlices db;
  se_matches : matchResults db' = matchResults db;
  se_demands : book demandOf (opportunities db') = book demandOf (opportunities db);
  se_opportunities : table_ok db' (opportunities db');
  se_drawn : (drawn db <= drawn db')%nat;
  se_clock : clock db <= clock db'
}.

Section System.
Context `{Platform} (sha256_hex : list ascii -> string).

Definition supply_pre (r : SupplyReq) (db : Db) : res (supply_plan r) :=
  match r with
  | CreateOpportunity c _ => createOpportunity_pre c db
  | ReplaceVolumeSlices c x i => replaceVolumeSlices_pre c x i db
  | CreateCapacity c i => createCapacity_pre c i
  | Evaluate c x i => evaluate_pre c x i db
  | RecomputeFreshness x _ => Ok (freshnessJob_pre x db)
  end.

Definition supply_tx (r : SupplyReq) : supply_plan r -> Tx (supply_out r) :=
  match r with
  | CreateOpportunity c i => createOpportunity_tx c i
  | ReplaceVolumeSlices c x _ => replaceVolumeSlices_tx c x
  | CreateCapacity c i => createCapacity_tx c i
  | Evaluate c _ _ => evaluate_tx c
  | RecomputeFreshness x t => freshnessJob_tx sha256_hex x t
  end.

Definition supply_finish (r : SupplyReq) : supply_plan r -> supply_out r -> res (supply_resp r) :=
  match r return supply_plan r -> supply_out r -> res (supply_resp r) with
  | ReplaceVolumeSlices _ _ _ => fun p rows => Ok (rows, rl_reconciliation p)
  | CreateOpportunity _ _ | CreateCapacity _ _ | Evaluate _ _ _ | RecomputeFreshness _ _ => fun _ out => Ok out
  end.

Definition supply_service : Handler :=
  {| Req := SupplyReq; Plan := supply_plan; Out := supply_out; Resp := supply_resp;
     h_pre := supply_pre; h_look := fun _ p _ => p; h_tx := supply_tx; h_finish := supply_finish |}.

(** ** What a plan still says later *)

Definition supply_plan_ok (r : SupplyReq) : supply_plan r -> Db -> Prop :=
  match r with
  | ReplaceVolumeSlices _ x _ => fun p db => storable_slices x (rl_toInsert p) (exchange db)
  | Evaluate _ _ _ => fun p db => plan_sound p /\ plan_known p (exchange db)
  | CreateOpportunity _ _ | CreateCapacity _ _ | RecomputeFreshness _ _ => fun _ _ => True
  end.

Lemma demand_known db x o : opportunity_findById db x = Some o -> demands (exchange db) !! x = Some (demandOf o).
Proof. intros Ho. cbn. rewrite book_lookup. unfold opportunity_findById in Ho. by rewrite Ho. Qed.

Lemma sliceInputs_Ok cur input slices : mapM_res (sliceInput cur) input = Ok slices -> Forall (fun s => Money.currency s = cur) slices.
Proof.
  intros F%mapM_res_Forall2. induction F as [|i s l ls (n & _ & [= <-])%rbind_Ok F IH]; [constructor|]. by constructor.
Qed.

Lemma firstOfEachCell_sub seen l s : s ∈ firstOfEachCell seen l -> s ∈ l.
Proof.
  revert seen. induction l as [|a l IH]; intros seen; cbn; [done|]. case_bool_decide; [intros ?%IH; by right|].
  intros [->|?%IH]%elem_of_cons; [left|by right].
Qed.

Lemma authorizedOpportunity_Ok a act x db o : authorizedOpportunity a act x db = Ok o <->
  opportunity_findById db x = Some o /\ allowed (can a act (resourceOf ResourceType.opportunity x (Some (OpportunityRow.ownerOrgId o))) noContext) = true.
Proof.
  unfold authorizedOpportunity. destruct (opportunity_findById db x) as [q|]; [|naive_solver]. rewrite rbind_Ok. setoid_rewrite require_Ok. naive_solver.
Qed.

Lemma read_known c x i db p : supply_tables db -> evaluation_read c x i db p -> plan_known p (exchange db).
Proof.
  intros T E. split.
  - pose proof (er_opportunity _ _ _ _ _ E) as Ho. pose proof Ho as [_ Ei]%findById_Some. change (row_id (ep_opportunity p)) with (OpportunityRow.id (ep_opportunity p)) in Ei.
    rewrite Ei. eexists. by apply demand_known.
  - pose proof (evaluated_ids _ _ _ _ _ E) as Ei. apply Forall_forall. intros e He. apply (list_elem_of_fmap_2 ev_id) in He. change (ev_id <$> ep_evaluated p) with (map ev_id (ep_evaluated p)) in He.
    rewrite Ei in He. apply list_elem_of_fmap in He as (c' & -> & [Hc _]%profiles_listed); [by eexists|done].
Qed.

Lemma supply_plan_pre db r p : supply_ok db -> supply_pre r db = Ok p -> supply_plan_ok r p db.
Proof.
  intros [T K]. destruct r as [c i|c x i|c i|c x i|x t]; simpl; intros E; try done.
  - unfold replaceVolumeSlices_pre in E. apply rbind_Ok in E as (o & [Ho _]%authorizedOpportunity_Ok & (l & Hl%sliceInputs_Ok & (r & _ & [= <-])%rbind_Ok)%rbind_Ok).
    exists (demandOf o). split; [by apply demand_known|]. cbn. apply Forall_forall. intros s Hs%firstOfEachCell_sub. exact (proj1 (Forall_forall _ _) Hl s Hs).
  - apply evaluate_pre_Ok in E. split; [by apply (evaluation_sound _ _ _ _ _ T E)|by eapply read_known].
Qed.

(** Plans survive any later exchange. *)
Lemma supply_plan_later db db' r p : exchange_later (exchange db) (exchange db') -> supply_plan_ok r p db -> supply_plan_ok r p db'.
Proof.
  intros [L1 L2 _]. destruct r as [c i|c x i|c i|c x i|x t]; simpl; try done.
  - intros (d & (d' & Hd & <-)%L1 & F). by exists d.
  - intros [S [[d (d' & Hd & <-)%L1] F]]. split; [done|]. split; [by exists d|]. eapply Forall_impl; [exact F|]. intros e [c' (c2 & Hc & _)%L2]. by exists c2.
Qed.

Lemma supply_tx_acts db r p out db' : supply_ok db -> supply_plan_ok r p db -> supply_tx r p db = Ok (out, db') -> acts db db'.
Proof.
  intros [T K]. destruct r as [c i|c x i|c i|c x i|x t]; simpl.
  - intros _. by apply createOpportunity_acts.
  - by apply replace_acts.
  - intros _. by apply createCapacity_acts.
  - intros [? ?]. by apply evaluate_acts.
  - intros _. by apply freshness_acts.
Qed.

Lemma acts_supply_ok db db' : supply_ok db -> acts db db' -> supply_ok db'.
Proof. intros [T K] [T' R _ _]. split; [done|by apply (exchange_run_ok (exchange db))]. Qed.

Lemma supply_env_exchange db db' : supply_env db db' -> exchange db' = exchange db.
Proof. intros [E1 E2 E3 E4 _ _ _]. unfold exchange. by rewrite E1, E2, E3, E4. Qed.

Lemma supply_env_keeps db db' : supply_ok db -> supply_env db db' -> supply_ok db'.
Proof.
  intros [[T1 T2 T3 T4 T5] K] Ev. split; [|by rewrite (supply_env_exchange _ _ Ev)]. destruct Ev as [E1 E2 E3 _ E5 Hd Hc].
  split; rewrite ?E1, ?E2, ?E3; try done; by apply (table_same db).
Qed.

Lemma supply_J_tx db r p out db' r' p' : supply_ok db -> supply_plan_ok r p db -> supply_tx r p db = Ok (out, db') ->
  supply_plan_ok r' p' db -> supply_plan_ok r' p' db'.
Proof. intros K J E. apply supply_plan_later, exchange_run_later. by apply (supply_tx_acts _ _ _ _ _ K J E). Qed.

Lemma supply_J_env db db' r p : supply_ok db -> supply_env db db' -> supply_plan_ok r p db -> supply_plan_ok r p db'.
Proof. intros _ Ev. apply supply_plan_later. by rewrite (supply_env_exchange _ _ Ev). Qed.

#[local] Notation anyone := (fun _ : SupplyReq => True).
#[local] Notation reach := (reaches supply_service supply_env anyone).

Lemma supply_wf db s : supply_ok db -> reach db s -> wf supply_service supply_ok supply_plan_ok s.
Proof.
  apply wf_reaches.
  - intros d r p _. apply supply_plan_pre.
  - done.
  - intros d r p out d' K J E. eapply acts_supply_ok; [done|]. by eapply supply_tx_acts.
  - apply supply_env_keeps.
  - apply supply_J_tx.
  - apply supply_J_env.
Qed.

Lemma supply_reach db s : supply_ok db -> reach db s -> supply_ok (store s).
Proof. intros K R. by destruct (supply_wf db s K R). Qed.

(** Between any two moments of a run. *)
Lemma supply_between db s s' : supply_ok db -> reach db s -> rtc (step supply_service supply_env anyone) s s' ->
  rtc exchange_step (exchange (store s)) (exchange (store s')).
Proof.
  intros K R R'. eapply (simulation_between supply_service supply_env anyone supply_ok supply_plan_ok); [..|by apply (supply_wf db)|exact R'].
  - intros d r p _. apply supply_plan_pre.
  - done.
  - intros d r p out d' K' J E. eapply acts_supply_ok; [done|]. by eapply supply_tx_acts.
  - apply supply_env_keeps.
  - apply supply_J_tx.
  - apply supply_J_env.
  - intros d r p out d' K' J E. by apply (supply_tx_acts _ _ _ _ _ K' J E).
  - intros d d' K' Ev. by rewrite (supply_env_exchange _ _ Ev).
Qed.

(** One request on its own. *)
Lemma serve_supply_acts db r : supply_ok db -> acts db (fst (serve supply_service r db)).
Proof.
  intros K. unfold serve. cbn [h_pre h_tx supply_service]. destruct (supply_pre r db) as [p|] eqn:Ep; [|apply acts_nothing, K].
  destruct (supply_tx r p db) as [[out db']|] eqn:Et; [|apply acts_nothing, K]. eapply supply_tx_acts; [done| |exact Et]. by apply supply_plan_pre.
Qed.

(** The sweep, like the jobs it stands for. *)
Lemma freshness_sweep_acts l t db : supply_ok db -> acts db (fst (reclassifyEach sha256_hex l t db)).
Proof.
  revert db. induction l as [|c l IH]; intros db K; cbn [reclassifyEach]; [apply acts_nothing, K|].
  destruct (recomputeOne _ _ _ _ _) as [[b db1]|] eqn:E; [|apply acts_nothing, K].
  apply recomputeOne_acts in E as A; [|apply K]. pose proof (IH db1 (acts_supply_ok _ _ K A)) as A2. destruct (reclassifyEach _ l t db1) as [db2 n].
  destruct A as [_ R1 D1 C1], A2 as [T2 R2 D2 C2]. split; [done|by etransitivity|cbn in *; lia|cbn in *; congruence].
Qed.
End System.
