(* ===== verification/SupplyRequests.v ===== *)
(** * When a supply request succeeds

    What the matching engine does with stored rows; then, for each of the five
    requests, the exact case in which it succeeds. *)
From S2P Require Import Prelude StableSort DomainStates AuthzMatrix Authz JsNumber NumOrder Money Eligibility MatchScoring JsonText Database Tables.
From S2P Require Import ApiShared ClaimRepositories EconomicsTheorems PassportRequests SupplyRepositories SupplyService SupplyBook SupplySystem.
From S2P Require Import Idempotency TradeRequests IdentityRequests Transactions.
From Stdlib Require Import Ascii.
Import Roles Actions.
#[local] Open Scope Z_scope.

(** ** The matching engine on stored rows

    On the values the columns and the wire contract admit ([fits]), the engine
    evaluates a capacity exactly when it is [usable]: its rail is not blank and
    its greatest ticket, when there is one, is not below the least.  What it
    then returns can be stored. *)

(** ** Integer columns as numbers *)

Definition int32 (z : Z) : Prop := 0 <= z < 2 ^ 31.

Lemma small_int z : int32 z -> 0 <= z <= 2 ^ 53 /\ Z.abs z <= 2 ^ 53.
Proof. unfold int32. lia. Qed.

Lemma nlt_int a b : Z.abs a <= 2 ^ 53 -> Z.abs b <= 2 ^ 53 -> nlt (num_of_Z a) (num_of_Z b) = (a <? b).
Proof.
  intros [Da Sa]%int_double [Db Sb]%int_double. apply Bool.eq_true_iff_eq. rewrite <- (not_false_iff_true (nlt _ _)), nlt_false by done.
  unfold num_le. rewrite Sa, Sb, Z.ltb_lt. split; [|intros Hlt (_ & _ & Hle); nia]. intros Hn. destruct (Z.lt_ge_cases a b); [done|]. destruct Hn. split_and!; [done..|nia].
Qed.

Lemma neq_int a : Z.abs a <= 2 ^ 53 -> neq (num_of_Z a) nzero = true <-> a = 0.
Proof.
  intros [Da Sa]%int_double. destruct (int_double 0 ltac:(lia)) as [D0 S0]. change nzero with (num_of_Z 0). rewrite (neq_true _ _ Da D0), Sa, S0.
  split; [nia|intros ->; done].
Qed.

Lemma finite_int z : 0 <= z <= 2 ^ 53 -> finiteNonNeg (num_of_Z z).
Proof.
  intros Hz. destruct (int_double z ltac:(lia)) as [D _]. split; [apply D|]. change nzero with (num_of_Z 0). rewrite nlt_int by lia. apply Z.ltb_ge. lia.
Qed.

Lemma column_int z : int32 z -> columnNumber (num_of_Z z).
Proof. unfold int32. intros Hz. apply num_of_Z_upto; [lia|lia|const_tame]. Qed.

Lemma ceiling_int z : int32 z -> ceilingColumn (num_of_Z z).
Proof. unfold int32, ceilingColumn. intros Hz. rewrite nlt_int by lia. intros H%Z.ltb_lt. apply num_of_Z_le; lia. Qed.

(** ** What rows hold *)

Record fits (c : CapacityProfileRow.t) : Prop := {
  ft_currency : String.length (CapacityProfileRow.currency c) = 3%nat;
  ft_monthly : 0 <= CapacityProfileRow.monthlyCapacityMinor c < 2 ^ 63;
  ft_minTicket : int32 (CapacityProfileRow.minTicketMinor c);
  ft_maxTicket : int32 (CapacityProfileRow.maxTicketMinor c);
  ft_chargeback : int32 (CapacityProfileRow.maxChargebackBps c);
  ft_fraud : int32 (CapacityProfileRow.maxFraudBps c);
  ft_refund : int32 (CapacityProfileRow.maxRefundBps c);
  ft_cadence : int32 (CapacityProfileRow.settlementCadenceDays c);
  ft_mccs : arrayLength (CapacityProfileRow.mccsAccepted c);
  ft_terms : forall t, CapacityProfileRow.commercialTerms c = Some t -> int32 (ct_mdrBps t)
}.

Record fits_demand (o : OpportunityRow.t) : Prop := {
  fd_currency : String.length (OpportunityRow.currency o) = 3%nat;
  fd_movable : 0 <= OpportunityRow.movable30dMinor o < 2 ^ 63;
  fd_mccs : arrayLength (OpportunityRow.mccs o);
  fd_jurisdictions : arrayLength (OpportunityRow.jurisdictions o)
}.

Record fitting (db : Db) : Prop := {
  fg_profiles : Forall fits (capacityProfiles db);
  fg_demands : Forall fits_demand (opportunities db)
}.

Definition fits_ticket (i : EvaluateMatchesRequest) : Prop := forall t, eq_averageTicketMinor i = Some t -> 0 <= t <= 2 ^ 53.

(** What the engine asks of a capacity beyond that. *)
Definition usable (c : CapacityProfileRow.t) : Prop :=
  isBlank (CapacityProfileRow.settlementRail c) = false /\
  (CapacityProfileRow.maxTicketMinor c = 0 \/ CapacityProfileRow.minTicketMinor c <= CapacityProfileRow.maxTicketMinor c).

Lemma class_name (f : Freshness.FreshnessClass) : Freshness.FreshnessClass_name f ∈ map fst scoreByFreshness.
Proof. destruct f; cbn; set_solver. Qed.

Section Engine.
Context (o : OpportunityRow.t) (Ho : fits_demand o) (i : EvaluateMatchesRequest) (Hi : fits_ticket i).

Lemma evaluates_usable c f t passport rail versions : fits c ->
  is_ok (evaluateEligibility (toMatchOpportunityInput o) (toMatchCapacityInput c f) (matchContext t passport i rail versions)) = true <-> usable c.
Proof.
  intros F. rewrite (proj1 (eligibility_total _ _ _)). unfold wellFormed, usable, toMatchOpportunityInput, toMatchCapacityInput, matchContext. cbn.
  pose proof (small_int _ (ft_minTicket _ F)) as Mi. pose proof (small_int _ (ft_maxTicket _ F)) as Ma.
  rewrite neq_int, nlt_int, Z.ltb_ge by tauto. split; [tauto|]. intros [Hr Ht].
  split_and!; first [done|apply F|apply Ho|apply finite_int, small_int, F|by exists f|idtac].
  intros x Hx. destruct (eq_averageTicketMinor i) as [v|] eqn:Ev; [|done]. injection Hx as <-. by apply finite_int, Hi.
Qed.

Lemma scores_stored c f t rail versions : fits c -> candidate (toMatchOpportunityInput o) (matchContext t None i rail versions) (toMatchCapacityInput c f).
Proof.
  intros F. split; [|apply class_name]. unfold rankable, toMatchOpportunityInput, toMatchCapacityInput, matchContext. cbn.
  pose proof (ft_monthly _ F) as Hm. pose proof (fd_movable _ Ho) as Hd.
  split_and!; first [apply Ho|apply F|lia|apply column_int, F|apply ceiling_int, F|idtac].
  - intros mt Hmt. destruct (CapacityProfileRow.commercialTerms c) as [ct|] eqn:Ec; [|done]. injection Hmt as <-. cbn. apply column_int, (ft_terms _ F ct Ec).
  - done.
Qed.
End Engine.

(** ** What it returns is storable *)

Lemma finding_safe r : is_object (ruleJson r) && json_safe (ruleJson r) = true.
Proof. done. Qed.

Lemma findings_safe l f : assertJsonSafeObjectArray (JArr (map ruleJson l)) f = Ok tt.
Proof.
  apply safe_array_spec. exists (map ruleJson l). split; [done|]. induction l as [|n l IH]; [done|]. cbn [map forallb]. by rewrite finding_safe, IH.
Qed.

Lemma strings_safe l f : assertStringArray (strings l) f = Ok tt.
Proof. apply string_array_spec. by exists l. Qed.

Lemma score_finite b x : upto b x -> num_isFinite x = true.
Proof. intros (_ & [_ [_ D]]%num_le_double & _). apply D. Qed.

Lemma factor_safe f : factorOk f -> json_safe (factorJson f) = true.
Proof.
  intros (Hs & Ew & Ec). assert (num_isFinite (f_contribution f) = true) as Hc.
  { pose proof (contribution_range (factor f) (score f) Hs) as (_ & _ & [_ [_ D]]%num_le_double & _). cbn [contribute f_contribution] in D. by rewrite Ec, Ew. }
  cbn. rewrite (score_finite _ _ Hs), Hc, Ew. by destruct (factor f).
Qed.

Lemma array_safe {A} (g : A -> Json) l : (forall x, x ∈ l -> json_safe (g x) = true) -> json_safe (JArr (map g l)) = true.
Proof. intros Hg. cbn. apply forallb_forall. intros j (x & <- & Hx%list_elem_of_In)%in_map_iff. by apply Hg. Qed.

Lemma ranking_safe o c ctx b f : candidate o ctx c -> scoreMatch o c ctx = Ok b -> assertJsonSafePlainObject (breakdownJson b) f = Ok tt.
Proof.
  intros [Hr Hf] E. destruct (match_scored o c ctx Hr Hf) as (b' & E' & _ & Fs & _ & [_ Dt]%num_le_double & _). rewrite E in E'. injection E' as <-.
  apply safe_object_spec. split; [done|].
  assert (json_safe (JArr (map factorJson (factors b))) = true) as E1 by (apply array_safe; intros fc Hin; apply factor_safe; exact (proj1 (Forall_forall _ _) Fs _ Hin)).
  assert (json_safe (strings (m_inputVersions b)) = true) as E2 by (by apply array_safe).
  unfold breakdownJson. cbn [json_safe forallb fst snd] in E1, E2 |- *. by rewrite E1, E2, (proj2 Dt).
Qed.

(** ** When a supply request succeeds

    On [supply_ok] tables whose rows hold what the columns and the wire
    contract admit, a request on its own succeeds exactly in the case
    [supply_accepted] describes. *)

(** ** Reads *)

Lemma mapM_res_ok {A B} (f : A -> res B) l : is_ok (mapM_res f l) = true <-> Forall (fun a => is_ok (f a) = true) l.
Proof.
  induction l as [|a l IH]; cbn; [by split; constructor|]. rewrite Forall_cons, <- IH. destruct (f a) as [b|]; cbn; [|naive_solver].
  destruct (mapM_res f l); cbn; naive_solver.
Qed.

(** An amount of minor units on the wire; absent, it is zero. *)
Definition amount_of (s : option string) : option Z :=
  match s with
  | None => Some 0
  | Some s => n ← string_to_bigint s; if 0 <=? n then Some n else None
  end.

Lemma amount_parsed s f n : parseBigIntMinorUnits s f = Ok n <-> amount_of s = Some n.
Proof.
  destruct s as [s|]; cbn; [|naive_solver]. destruct (string_to_bigint s) as [z|]; cbn; [|naive_solver]. unfold assertBigIntMinorUnits.
  destruct (Z.ltb_spec z 0), (Z.leb_spec 0 z); cbn; try lia; naive_solver.
Qed.

Lemma amount_runs s f : is_Some (amount_of s) -> exists n, parseBigIntMinorUnits s f = Ok n.
Proof. intros [n Hn]. exists n. by apply amount_parsed. Qed.

(** An amount that its [BigInt] column can hold. *)
Definition storable (s : option string) : Prop := exists n, amount_of s = Some n /\ n < 2 ^ 63.

Lemma amount_nonneg s n : amount_of s = Some n -> 0 <= n.
Proof. destruct s as [s|]; cbn; [|intros [= <-]; lia]. destruct (string_to_bigint s) as [z|]; cbn; [|done]. destruct (Z.leb_spec 0 z); naive_solver. Qed.

Lemma int8_spec n : 0 <= n -> int8 n = true <-> n < 2 ^ 63.
Proof. unfold int8. rewrite andb_true_iff, Z.leb_le, Z.ltb_lt. lia. Qed.

Lemma columns_hold ints bigints : assertColumns ints bigints = Ok tt <-> Forall (fun z => int4 z = true) ints /\ Forall (fun z => int8 z = true) bigints.
Proof. unfold assertColumns. rewrite throw_if_Ok, negb_false_iff, andb_true_iff, !forallb_forall, !Forall_forall. by setoid_rewrite list_elem_of_In. Qed.

Lemma own_organization a org : ownOrganization a = Ok org <-> organizationId a = Some org /\ org <> "".
Proof.
  unfold ownOrganization, when_present. destruct (organizationId a) as [v|]; [|naive_solver]. destruct (String.eqb_spec v ""); naive_solver.
Qed.

Section Bodies.
Context `{Platform}.

(** ** Bodies that go through *)

Definition OPPORTUNITY_AMOUNTS (i : CreateOpportunityRequest) : list (option string) :=
  [oq_totalPaymentVolumeMinor i; oq_totalCardGpvMinor i; oq_eligibleCardGpvMinor i; oq_offeredCardGpvMinor i; oq_movableNowMinor i;
   oq_movable30dMinor i; oq_movable90dMinor i].

Lemma opportunity_create_through i db : goes_through (SupplyRepositories.opportunity_create i) db <-> Forall (fun z => int8 z = true) (opportunity_bigints i).
Proof.
  unfold SupplyRepositories.opportunity_create. split.
  - intros Hb. do 2 (apply through_inv in Hb as (? & ? & [_ ->]%tlift_Ok & Hb)). apply through_inv in Hb as ([] & ? & [Hc ->]%tlift_Ok & _).
    by apply columns_hold in Hc as [_ Hc].
  - intros F. do 2 (eapply through_lift; [apply strings_safe|]). eapply through_lift; [by apply columns_hold|].
    unfold goes_through. setoid_rewrite (tbind_run _ _ _ _ _ eq_refl). by eexists _, _.
Qed.

Lemma storable_iff s n : amount_of s = Some n -> int8 n = true <-> storable s.
Proof. intros Hn. rewrite int8_spec by (by eapply amount_nonneg). unfold storable. rewrite Hn. naive_solver. Qed.

Lemma createOpportunity_runs c i org db : goes_through (createOpportunity_tx c i org) db <-> Forall storable (OPPORTUNITY_AMOUNTS i).
Proof.
  unfold createOpportunity_tx, OPPORTUNITY_AMOUNTS. split.
  - intros Hb. do 7 (apply through_inv in Hb as (? & ? & E & Hb); let F := fresh "F" in apply tlift_Ok in E as [F ->]; apply amount_parsed, storable_iff in F).
    apply through_inv in Hb as (o & d & E' & _). pose proof (proj1 (opportunity_create_through _ _) (ex_intro _ o (ex_intro _ d E'))) as Hf.
    cbn in Hf. do 7 (apply Forall_cons in Hf as [? Hf]).
    repeat (constructor; [tauto|]). constructor.
  - rewrite !Forall_cons. intros ((? & E1 & L1) & (? & E2 & L2) & (? & E3 & L3) & (? & E4 & L4) & (? & E5 & L5) & (? & E6 & L6) & (? & E7 & L7) & _).
    do 7 (eapply through_lift; [apply amount_parsed; eassumption|]).
    match goal with |- goes_through (tbind (SupplyRepositories.opportunity_create ?j) _) _ =>
      assert (goes_through (SupplyRepositories.opportunity_create j) db) as (r & d & E) end.
    { apply opportunity_create_through. cbn. repeat (constructor; [apply int8_spec; [by eapply amount_nonneg|done]|]). constructor. }
    eapply through_bind; [exact E|]. apply through_written. intros ??. apply through_ret.
Qed.

(** *** Breakdowns *)

Lemma sliceInputs_nonneg cur input l : mapM_res (sliceInput cur) input = Ok l -> Forall (fun s => 0 <= Money.amountMinor s) l.
Proof.
  intros F%mapM_res_Forall2. induction F as [|i s is_ l (n & Hn%parseBigIntMinorUnits_nonneg & [= <-])%rbind_Ok F IH]; by constructor.
Qed.

(** What a breakdown stores: the first slice of each cell. *)
Lemma replace_pre_exact c x input db p : replaceVolumeSlices_pre c x input db = Ok p <->
  exists o slices r, authorizedOpportunity (actor c) opportunity_update x db = Ok o /\ mapM_res (sliceInput (OpportunityRow.currency o)) input = Ok slices /\
    reconcileOpportunityVolume slices (summaryOf o) = Ok r /\ p = {| rl_opportunity := o; rl_reconciliation := r; rl_toInsert := firstOfEachCell ∅ slices |}.
Proof.
  unfold replaceVolumeSlices_pre. split.
  - intros (o & Ho & (l & El & (r & Hr & [= <-])%rbind_Ok)%rbind_Ok)%rbind_Ok. by exists o, l, r.
  - intros (o & l & r & Ho & El & Hr & ->). rewrite Ho. cbn [rbind]. rewrite El. cbn [rbind]. by rewrite Hr.
Qed.

Lemma reconcile_runs cur input slices o : mapM_res (sliceInput cur) input = Ok slices -> exists r, reconcileOpportunityVolume slices (summaryOf o) = Ok r.
Proof. intros E. rewrite reconcile_value by (by eapply sliceInputs_nonneg). by eexists. Qed.

(** An inserted slice fits the column of its amount. *)
Definition slice_fits (s : VolumeSliceInput) : Prop := int8 (Money.amountMinor s) = true.

Lemma slice_column i : assertColumns [] [Money.amountMinor (cv_slice i)] = Ok tt <-> slice_fits (cv_slice i).
Proof. rewrite columns_hold, Forall_singleton. split; [by intros [_ F]|by split]. Qed.

Lemma insert_through c x l : forall db, NoDup (map cellOf l) -> (forall s v, s ∈ l -> v ∈ volumeSlices db -> sliceKey v <> (x, cellOf s)) ->
  Forall slice_fits l -> goes_through (insertSlices c x l) db.
Proof.
  unfold insertSlices. induction l as [|s l IH]; intros db Nd Hf F; cbn [tmapM]; [apply through_ret|]. cbn in Nd. apply NoDup_cons in Nd as [Hs Nd].
  apply Forall_cons in F as [Fs F].
  match goal with |- goes_through (tbind (volumeSlice_create ?i) _) _ => assert (exists r d, volumeSlice_create i db = Ok (r, d) /\ sliceKey r = (x, cellOf s)) as (r & d & E & Er) end.
  { match goal with |- context [volumeSlice_create ?i] => pose proof (proj2 (slice_column i) Fs) as Hc end.
    unfold volumeSlice_create. rewrite Hc. setoid_rewrite (tbind_run _ _ _ _ _ eq_refl). cbv zeta. setoid_rewrite (tbind_run _ _ _ _ _ eq_refl). rewrite bool_decide_eq_false_2; [by eexists _, _|].
    intros (v & Ev & Hv)%list_elem_of_fmap. by apply (Hf s v); [left| |]. }
  eapply through_bind; [exact E|]. assert (volumeSlices d = volumeSlices db ++ [r]) as Ed by (by eapply slice_appended).
  destruct (IH d Nd) as (rs & d2 & E2); [|done|eapply through_bind; [exact E2|apply through_ret]].
  intros s' v Hs' Hv. rewrite Ed in Hv. apply elem_of_app in Hv as [Hv| ->%list_elem_of_singleton]; [by apply Hf; [right|]|].
  rewrite Er. intros [= Ec]. apply Hs. apply list_elem_of_fmap. exists s'. split; [|done]. unfold cellOf. congruence.
Qed.

Lemma inserted_fit c x l : forall db, goes_through (insertSlices c x l) db -> Forall slice_fits l.
Proof.
  unfold insertSlices. induction l as [|s l IH]; intros db Hb; cbn [tmapM] in Hb; [done|].
  apply through_inv in Hb as (r & d & E & (rs & d2 & E2 & _)%through_inv). constructor; [|apply (IH d); by exists rs, d2].
  unfold volumeSlice_create in E. by apply tbind_Ok in E as ([] & e & [Hc%slice_column _]%tlift_Ok & _).
Qed.

Lemma replace_through c x p db : NoDup (map cellKey (rl_toInsert p)) -> goes_through (replaceVolumeSlices_tx c x p) db <-> Forall slice_fits (rl_toInsert p).
Proof.
  intros Nd%cells_distinct. unfold replaceVolumeSlices_tx. split.
  - intros Hb. apply through_inv in Hb as (? & ? & _ & (rows & d & E & _)%through_inv). eapply inserted_fit. by exists rows, d.
  - intros F. eapply through_bind; [reflexivity|].
    match goal with |- goes_through _ ?d => destruct (insert_through c x (rl_toInsert p) d Nd) as (rows & d2 & E); [|done|] end.
    + intros s v _ Hv. cbn in Hv. apply elem_of_filter_list in Hv as [_ Hne%negb_true_iff%String.eqb_neq]. by intros [= ? _].
    + eapply through_bind; [exact E|]. apply through_written. intros ??. apply through_ret.
Qed.

Lemma replace_exact c x input db : (exists p, replaceVolumeSlices_pre c x input db = Ok p /\ goes_through (replaceVolumeSlices_tx c x p) db) <->
  exists o, authorizedOpportunity (actor c) opportunity_update x db = Ok o /\
    exists slices, mapM_res (sliceInput (OpportunityRow.currency o)) input = Ok slices /\ Forall slice_fits (firstOfEachCell ∅ slices).
Proof.
  setoid_rewrite replace_pre_exact. split.
  - intros (p & (o & l & r & Ho & El & Hr & ->) & Hb). apply replace_through in Hb; [|apply firstOfEachCell_keys]. exists o. split; [done|]. by exists l.
  - intros (o & Ho & l & El & F). destruct (reconcile_runs _ _ _ o El) as [r Hr].
    eexists. split; [by exists o, l, r|]. apply replace_through; [apply firstOfEachCell_keys|done].
Qed.

(** *** Profiles *)

(** The integers a new profile stores in [Int] columns. *)
Definition PROFILE_INTS (i : CreateCapacityProfileRequest) : list Z :=
  [default 0 (cq_minTicketMinor i); default 0 (cq_maxTicketMinor i); default 0 (cq_maxChargebackBps i); default 0 (cq_maxFraudBps i);
   default 0 (cq_maxRefundBps i); default 1 (cq_settlementCadenceDays i)].

Lemma createCapacity_through c i p db : goes_through (createCapacity_tx c i p) db <-> Forall (fun z => int4 z = true) (PROFILE_INTS i) /\ int8 p.2 = true.
Proof.
  unfold createCapacity_tx. cbv zeta. rewrite <- (Forall_singleton (fun z => int8 z = true)).
  change (PROFILE_INTS i) with (capacity_ints {| cc_providerOrgId := p.1; cc_asOf := now c; cc_freshnessClass := Freshness.UNKNOWN;
    cc_acceptingNewVolume := true; cc_jurisdictions := []; cc_mccsAccepted := []; cc_mccsExcluded := []; cc_currency := "";
    cc_monthlyCapacityMinor := p.2; cc_minTicketMinor := cq_minTicketMinor i; cc_maxTicketMinor := cq_maxTicketMinor i;
    cc_maxChargebackBps := cq_maxChargebackBps i; cc_maxFraudBps := cq_maxFraudBps i; cc_maxRefundBps := cq_maxRefundBps i;
    cc_settlementRail := ""; cc_settlementCadenceDays := cq_settlementCadenceDays i; cc_commercialTerms := None;
    cc_createdByUserId := None; cc_createdByOrgId := None |}). rewrite <- columns_hold. split.
  - intros (row & d & E & _)%through_inv. unfold SupplyRepositories.capacity_create in E. do 4 (apply tbind_Ok in E as (? & ? & [_ ->]%tlift_Ok & E)).
    by apply tbind_Ok in E as ([] & ? & [Hc _]%tlift_Ok & _).
  - intros Hc. match goal with |- goes_through (tbind (SupplyRepositories.capacity_create ?j) _) _ => assert (goes_through (SupplyRepositories.capacity_create j) db) as (r & d & E) end.
    { unfold SupplyRepositories.capacity_create. do 3 (eapply through_lift; [apply strings_safe|]).
      eapply through_lift; [cbn [cc_commercialTerms]; instantiate (1 := tt); destruct (cq_commercialTerms i) as [t|]; [by apply safe_object_spec|done]|].
      eapply through_lift; [exact Hc|]. unfold goes_through. setoid_rewrite (tbind_run _ _ _ _ _ eq_refl). by eexists _, _. }
    eapply through_bind; [exact E|]. apply through_written. intros ??. apply through_ret.
Qed.

Lemma createCapacity_pre_exact c i org n : createCapacity_pre c i = Ok (org, n) <->
  organizationId (actor c) = Some org /\ org <> "" /\
  allowed (can (actor c) Actions.capacity_create (resource ResourceType.capacity_profile (Some org)) noContext) = true /\
  amount_of (cq_monthlyCapacityMinor i) = Some n.
Proof.
  unfold createCapacity_pre. rewrite rbind_Ok. setoid_rewrite own_organization. setoid_rewrite rbind_Ok. setoid_rewrite require_Ok.
  setoid_rewrite rbind_Ok. setoid_rewrite amount_parsed. split; [intros (q & [? ?] & [] & ? & m & ? & [= -> ->]); done|].
  intros (H1 & H2 & H3 & H4). exists org. split; [done|]. exists tt. split; [done|]. by exists n.
Qed.
(** *** Evaluations *)

Lemma rankMatches_ids o caps ctx entries : rankMatches o caps ctx = Ok entries -> map capacityId entries ≡ₚ map c_id caps.
Proof.
  unfold rankMatches. intros (es & Es & [= <-])%rbind_Ok. rewrite rankMatchEntries_ids, <- (scored_ids _ _ _ _ Es). by rewrite sort_by_perm.
Qed.

Lemma ranked_scored o caps ctx entries r : rankMatches o caps ctx = Ok entries -> r ∈ entries ->
  exists c, c ∈ caps /\ scoreMatch o c ctx = Ok (breakdown r).
Proof.
  unfold rankMatches. intros (es & Es%mapM_res_Forall2 & [= <-])%rbind_Ok [k Hk]%list_elem_of_lookup. rewrite rankMatchEntries_lookup in Hk.
  set (srt := sort_by _ es) in *. destruct (srt !! k) as [e|] eqn:He; [|done]. injection Hk as <-. cbn.
  assert (e ∈ es) as Hin by (apply list_elem_of_lookup_2 in He; unfold srt in He; by apply sort_by_elem in He).
  apply list_elem_of_lookup in Hin as [j Hj]. destruct (Forall2_lookup_r _ _ _ _ _ Es Hj) as (c & Hc & E). exists c. split; [by eapply list_elem_of_lookup_2|].
  apply rbind_Ok in E as (b & E & [= <-]). exact E.
Qed.

Lemma passport_status_runs org t db : exists s, liveProviderPassportStatus org t db = Ok s.
Proof.
  unfold liveProviderPassportStatus. destruct (PassportRepositories.passport_findByOrganizationId _ _) as [p|]; [|by eexists].
  destruct (PassportRepositories.readiness_findLatestByPassport _ _) as [r|]; [|by eexists].
  unfold Passport.isPassportReadinessStale, MATCH_READINESS_STALE_AFTER_DAYS. cbn [Z.leb Z.compare]. destruct (_ && _); by eexists.
Qed.

Lemma found_fits db x o : fitting db -> opportunity_findById db x = Some o -> fits_demand o.
Proof. intros [_ F] [Ho _]%findById_Some. exact (proj1 (Forall_forall _ _) F o Ho). Qed.

Lemma listed_fits db n c : fitting db -> c ∈ SupplyRepositories.capacity_list db n -> fits c.
Proof. intros [F _] [Hc _]%subseteq_take%findMany_elem. exact (proj1 (Forall_forall _ _) F c Hc). Qed.

Lemma candidate_usable o i t db c : fits_demand o -> fits_ticket i -> fits c -> is_ok (evaluateCandidate o i t db c) = true <-> usable c.
Proof.
  intros Fo Fi Fc. unfold evaluateCandidate. destruct (passport_status_runs (CapacityProfileRow.providerOrgId c) t db) as [s Es]. rewrite Es. cbn [rbind].
  rewrite <- (evaluates_usable o Fo i Fi c (liveFreshness c t) t s (eq_requiredSettlementRail i)
    (baseInputVersions o ++ [versionOf "capacity" (CapacityProfileRow.id c) (version (CapacityProfileRow.base c))]) Fc).
  by destruct (evaluateEligibility _ _ _).
Qed.

Lemma read_candidates c x i db p : fitting db -> evaluation_read c x i db p -> forall e, e ∈ ep_evaluated p ->
  candidate (toMatchOpportunityInput (ep_opportunity p)) (matchContext (now c) None i None (baseInputVersions (ep_opportunity p))) (ev_input e).
Proof.
  intros Ft [Ho _ _ F _] e He. apply list_elem_of_lookup in He as [k Hk]. destruct (Forall2_lookup_r _ _ _ _ _ F Hk) as (c' & Hc' & (_ & _ & -> & _)%candidate_Ok).
  apply scores_stored; [by eapply found_fits|]. eapply listed_fits; [done|by eapply list_elem_of_lookup_2].
Qed.

Lemma evaluate_pre_exact c x i db : fitting db -> fits_ticket i -> is_ok (evaluate_pre c x i db) = true <->
  exists o, opportunity_findById db x = Some o /\
    allowed (can (actor c) matching_evaluate (resource ResourceType.match_result (Some (OpportunityRow.ownerOrgId o))) noContext) = true /\
    (OpportunityRow.status o = Opportunity.MATCH_READY \/ OpportunityRow.status o = Opportunity.INVITED) /\
    Forall usable (SupplyRepositories.capacity_list db MAX_CANDIDATE_CAPACITIES).
Proof.
  intros Ft Fi. split.
  - destruct (evaluate_pre c x i db) as [p|] eqn:E; [|done]. intros _. apply evaluate_pre_Ok in E as R. pose proof R as [Ho Ha Hs F _].
    exists (ep_opportunity p). split_and!; [done..|]. apply Forall_forall. intros c' Hc'. apply list_elem_of_lookup in Hc' as Hk. destruct Hk as [k Hk].
    destruct (Forall2_lookup_l _ _ _ _ _ F Hk) as (e & _ & Ee). apply (candidate_usable (ep_opportunity p) i (now c) db c'); [by eapply found_fits|done|by eapply listed_fits|by rewrite Ee].
  - intros (o & Ho & Ha & Hs & F). unfold evaluate_pre. rewrite Ho, (proj2 (require_Ok _ tt) Ha). cbn [rbind].
    assert (negb (bool_decide (OpportunityRow.status o = Opportunity.MATCH_READY)) && negb (bool_decide (OpportunityRow.status o = Opportunity.INVITED)) = false) as ->.
    { destruct Hs as [->| ->]; done. }
    cbn [throw_if rbind]. assert (is_ok (mapM_res (evaluateCandidate o i (now c) db) (SupplyRepositories.capacity_list db MAX_CANDIDATE_CAPACITIES)) = true) as Hm.
    { apply mapM_res_ok, Forall_forall. intros c' Hc'. apply candidate_usable; [by eapply found_fits|done|by eapply listed_fits|]. exact (proj1 (Forall_forall _ _) F c' Hc'). }
    destruct (mapM_res _ _) as [es|] eqn:Ee; [|done]. cbn [rbind]. clear Hm.
    assert (Forall (candidate (toMatchOpportunityInput o) (matchContext (now c) None i None (baseInputVersions o))) (map ev_input (List.filter isEligible es))) as Fc.
    { apply Forall_map, Forall_forall. intros e [He _]%elem_of_filter_list. apply mapM_res_Forall2 in Ee. apply list_elem_of_lookup in He as [k Hk].
      destruct (Forall2_lookup_r _ _ _ _ _ Ee Hk) as (c' & Hc' & (_ & _ & -> & _)%candidate_Ok). apply scores_stored; [by eapply found_fits|].
      eapply listed_fits; [done|by eapply list_elem_of_lookup_2]. }
    destruct (rank_matches_exact _ _ _ Fc) as (srt & entries & Er & _). destruct (List.filter isEligible es) as [|e l]; [done|]. by rewrite Er.
Qed.
(** The capacities that were ranked are the eligible ones. *)
Lemma ranked_eligible c x i db p : supply_tables db -> evaluation_read c x i db p -> forall e, e ∈ ep_evaluated p ->
  is_Some (rankEntry (ep_ranked p) (ev_id e)) <-> isEligible e = true.
Proof.
  intros T R e He. pose proof (ps_once _ (evaluation_sound _ _ _ _ _ T R)) as Nd.
  assert (map capacityId (ep_ranked p) ≡ₚ map ev_id (List.filter isEligible (ep_evaluated p))) as Hp.
  { rewrite (rankMatches_ids _ _ _ _ (er_ranked _ _ _ _ _ R)), map_map. rewrite (map_ext_in _ ev_id); [done|]. intros e' [He' _]%list_elem_of_In%elem_of_filter_list.
    apply list_elem_of_lookup in He' as [k Hk]. by destruct (Forall2_lookup_r _ _ _ _ _ (er_evaluated _ _ _ _ _ R) Hk) as (c' & _ & (_ & Ei & _)%candidate_Ok). }
  assert (is_Some (rankEntry (ep_ranked p) (ev_id e)) <-> ev_id e ∈ map capacityId (ep_ranked p)) as ->.
  { unfold rankEntry. split.
    - intros [r [Hr%in_rev%list_elem_of_In E%String.eqb_eq]%find_some]. rewrite <- E. by apply list_elem_of_fmap_2.
    - intros (r & E & Hr)%list_elem_of_fmap. destruct (List.find _ _) as [r'|] eqn:Hf; [by eexists|]. apply list_elem_of_In, in_rev in Hr.
      rewrite E in Hf. pose proof (find_none _ _ Hf r Hr) as Hx. cbv beta in Hx. by rewrite String.eqb_refl in Hx. }
  rewrite Hp, list_elem_of_fmap. split; [|intros Hel; exists e; split; [done|by apply elem_of_filter_list]].
  intros (e' & E & [He' Hel]%elem_of_filter_list). by rewrite (NoDup_map_inj ev_id (ep_evaluated p) e e' Nd He He' E).
Qed.

Lemma result_through c x i db p e d : supply_tables db -> fitting db -> evaluation_read c x i db p -> e ∈ ep_evaluated p ->
  goes_through (matchResult_create (matchInput c p e)) d.
Proof.
  intros T Ft R He. pose proof (ranked_eligible _ _ _ _ _ T R e He) as Hr. unfold matchResult_create, matchInput. cbv zeta.
  cbn [cx_eligible cx_eligibilityResults cx_inputVersions]. fold (ev_id e) in *. eapply through_lift; [apply findings_safe|]. eapply through_lift; [apply strings_safe|].
  destruct (isEligible e) eqn:Eel.
  - destruct (proj2 Hr eq_refl) as [r Er]. unfold hasRankingData, hasAllRankingData. cbn [cx_rankingBreakdown cx_rank cx_totalScore cx_algorithmVersion].
    rewrite Er. cbn [fmap option_fmap option_map is_present andb orb negb throw_if].
    do 2 (eapply through_lift; [reflexivity|]). eapply through_lift.
    { unfold rankEntry in Er. apply find_some in Er as [Hin%in_rev%list_elem_of_In _].
      destruct (ranked_scored _ _ _ _ _ (er_ranked _ _ _ _ _ R) Hin) as (m & (e' & -> & [He' _]%elem_of_filter_list)%list_elem_of_fmap & Es).
      exact (ranking_safe _ _ _ _ _ (read_candidates _ _ _ _ _ Ft R e' He') Es). }
    unfold goes_through. setoid_rewrite (tbind_run _ _ _ _ _ eq_refl). by eexists _, _.
  - assert (rankEntry (ep_ranked p) (ev_id e) = None) as Er by (destruct (rankEntry _ _); [discriminate (proj1 Hr (mk_is_Some _ _ eq_refl))|done]).
    unfold hasRankingData, hasAllRankingData. cbn [cx_rankingBreakdown cx_rank cx_totalScore cx_algorithmVersion]. rewrite Er.
    cbn [fmap option_fmap option_map is_present andb orb negb throw_if]. do 3 (eapply through_lift; [reflexivity|]).
    unfold goes_through. setoid_rewrite (tbind_run _ _ _ _ _ eq_refl). by eexists _, _.
Qed.

Lemma tmapM_through {A B} (f : A -> Tx B) l : (forall a d, a ∈ l -> goes_through (f a) d) -> forall d, goes_through (tmapM f l) d.
Proof.
  induction l as [|a l IH]; intros Hf d; cbn [tmapM]; [apply through_ret|]. destruct (Hf a d) as (b & d1 & E); [left|]. eapply through_bind; [exact E|].
  destruct (IH (fun a d Ha => Hf a d (list_elem_of_further _ _ _ Ha)) d1) as (bs & d2 & E2). eapply through_bind; [exact E2|apply through_ret].
Qed.

Lemma evaluate_through c x i db p d : supply_tables db -> fitting db -> evaluation_read c x i db p -> goes_through (evaluate_tx c p) d.
Proof.
  intros T Ft R. unfold evaluate_tx. destruct (tmapM_through (fun e => matchResult_create (matchInput c p e)) (ep_evaluated p)) with (d := d) as (ms & d1 & E).
  { intros e d' He. by eapply result_through. }
  eapply through_bind; [exact E|]. apply through_written. intros ??. apply through_event. intros ???. apply through_ret.
Qed.
End Bodies.

(** ** The requests *)

(** ** Requests keep the rows fitting *)

(** What the wire contract admits (packages/contracts: opportunity.ts,
    capacity.ts, matching.ts; currencies of three ASCII characters).  It sets
    no upper bound on amounts, tickets and days. *)
Definition fitting_request (r : SupplyReq) : Prop :=
  match r with
  | CreateOpportunity _ i => String.length (oq_currency i) = 3%nat /\ (length (default [] (oq_jurisdictions i)) <= 50)%nat /\
      (length (default [] (oq_mccs i)) <= 50)%nat
  | CreateCapacity _ i => String.length (cq_currency i) = 3%nat /\ (length (default [] (cq_mccsAccepted i)) <= 50)%nat /\
      Forall (fun z => 0 <= z) (PROFILE_INTS i) /\ (forall t, cq_commercialTerms i = Some t -> 0 <= ct_mdrBps t <= 1000000)
  | Evaluate _ _ i => fits_ticket i
  | ReplaceVolumeSlices _ _ _ | RecomputeFreshness _ _ => True
  end.

Section Keeps.
Context `{Platform} (sha256_hex : list ascii -> string).

Definition keeps_fit {A} (m : Tx A) : Prop := forall db a db', fitting db -> m db = Ok (a, db') -> fitting db'.

Lemma keeps_bind {A B} (m : Tx A) (k : A -> Tx B) : keeps_fit m -> (forall a, keeps_fit (k a)) -> keeps_fit (tbind m k).
Proof. intros Hm Hk db b db' Ft (a & d & E & Ek)%tbind_Ok. eapply Hk; [|done]. by eapply Hm. Qed.

Lemma keeps_ret {A} (a : A) : keeps_fit (tret a).
Proof. by intros db b db' Ft [= _ <-]. Qed.

Lemma keeps_lift {A B} (m : res A) (k : A -> Tx B) : (forall a, m = Ok a -> keeps_fit (k a)) -> keeps_fit (tbind (tlift m) k).
Proof. intros Hk db b db' Ft (a & d & [E ->]%tlift_Ok & Ek)%tbind_Ok. by eapply Hk. Qed.

Lemma fitting_same db db' : fitting db -> capacityProfiles db' = capacityProfiles db -> opportunities db' = opportunities db -> fitting db'.
Proof. intros [F1 F2] E1 E2. by split; rewrite ?E1, ?E2. Qed.

Lemma fitting_aside db db' : fitting db -> aside db db' -> fitting db'.
Proof. intros Ft (a & e & k & n & _ & ->). by apply (fitting_same db). Qed.

Lemma keeps_audit c i : keeps_fit (auditWriter c i).
Proof. intros db a db' Ft E%audit_aside. by eapply fitting_aside. Qed.

Lemma keeps_event c i : keeps_fit (domainEventRepository_write i c).
Proof. intros db a db' Ft E%event_aside. by eapply fitting_aside. Qed.

Lemma keeps_tmapM {A B} (f : A -> Tx B) l : (forall a, keeps_fit (f a)) -> keeps_fit (tmapM f l).
Proof.
  intros Hf. induction l as [|a l IH]; cbn [tmapM]; [apply keeps_ret|].
  apply keeps_bind; [done|]. intros b. apply keeps_bind; [done|]. intros bs. apply keeps_ret.
Qed.

Lemma keeps_slice i : keeps_fit (volumeSlice_create i).
Proof. intros db s db' Ft E. pose proof (slice_appended _ _ _ _ E). unfold volumeSlice_create in E.
  apply tbind_Ok in E as (u & e & [_ ->]%tlift_Ok & E). apply tbind_Ok in E as (x & d & [= <- <-] & E). cbv zeta in E. case_bool_decide; [done|]. injection E as _ <-.
  by apply (fitting_same db).
Qed.

Lemma keeps_result i : keeps_fit (matchResult_create i).
Proof.
  unfold matchResult_create. do 5 (apply keeps_lift; intros [] _). intros db m db' Ft (x & d & [= <- <-] & E)%tbind_Ok. injection E as _ <-. by apply (fitting_same db).
Qed.

(** *** Creations *)

Lemma keeps_opportunity i : String.length (co_currency i) = 3%nat -> (length (co_jurisdictions i) <= 50)%nat -> (length (co_mccs i) <= 50)%nat ->
  0 <= co_movable30dMinor i -> keeps_fit (SupplyRepositories.opportunity_create i).
Proof.
  intros Hc Hj Hm H30. unfold SupplyRepositories.opportunity_create. do 2 (apply keeps_lift; intros [] _). apply keeps_lift. intros [] [_ F]%columns_hold.
  intros db o db' [F1 F2] (x & d & [= <- <-] & E)%tbind_Ok. injection E as _ <-. split; [exact F1|]. cbn. apply Forall_app. split; [exact F2|].
  constructor; [|constructor]. do 6 (apply Forall_cons in F as [?Hq F]). split; cbn; [done|split; [done|by apply int8_spec]|..]; unfold arrayLength; lia.
Qed.

Lemma small_column z : 0 <= z -> int4 z = true -> int32 z.
Proof. unfold int4, int32. rewrite andb_true_iff, Z.ltb_lt. lia. Qed.

Lemma keeps_capacity i : String.length (cc_currency i) = 3%nat -> (length (cc_mccsAccepted i) <= 50)%nat -> 0 <= cc_monthlyCapacityMinor i ->
  Forall (fun z => 0 <= z) (capacity_ints i) -> (forall t, cc_commercialTerms i = Some t -> 0 <= ct_mdrBps t <= 1000000) ->
  keeps_fit (SupplyRepositories.capacity_create i).
Proof.
  intros Hc Hm Hmo Hn Ht. unfold SupplyRepositories.capacity_create. do 4 (apply keeps_lift; intros [] _). apply keeps_lift. intros [] [F4 F8]%columns_hold.
  intros db o db' [F1 F2] (x & d & [= <- <-] & E)%tbind_Ok. injection E as _ <-. split; [|exact F2]. cbn. apply Forall_app. split; [exact F1|].
  constructor; [|constructor]. apply Forall_cons in F8 as [F8 _].
  do 6 (apply Forall_cons in F4 as [?Hi F4]; apply Forall_cons in Hn as [?Hp Hn]).
  split; cbn; [done|split; [done|by apply int8_spec]|by apply small_column..|unfold arrayLength; lia|]. intros t E. specialize (Ht t E). unfold int32. lia.
Qed.

(** *** The five transactions *)

Lemma keeps_create c i org : fitting_request (CreateOpportunity c i) -> keeps_fit (createOpportunity_tx c i org).
Proof.
  intros (Hc & Hj & Hm). unfold createOpportunity_tx. do 7 (apply keeps_lift; let z := fresh "z" in let E := fresh "E" in intros z E; apply amount_parsed, amount_nonneg in E).
  apply keeps_bind; [by apply keeps_opportunity|]. intros o. apply keeps_bind; [apply keeps_audit|]. intros a. apply keeps_ret.
Qed.

Lemma keeps_profile c i p : fitting_request (CreateCapacity c i) -> 0 <= p.2 -> keeps_fit (createCapacity_tx c i p).
Proof.
  intros (Hc & Hm & Hn & Ht) Hp. unfold createCapacity_tx. cbv zeta. apply keeps_bind; [by apply keeps_capacity|].
  intros o. apply keeps_bind; [apply keeps_audit|]. intros a. apply keeps_ret.
Qed.

Lemma keeps_replace c x p : keeps_fit (replaceVolumeSlices_tx c x p).
Proof.
  unfold replaceVolumeSlices_tx. apply keeps_bind; [intros db n db' Ft [= _ <-]; by apply (fitting_same db)|]. intros n.
  apply keeps_bind; [apply keeps_tmapM; intros s; apply keeps_slice|]. intros rows. apply keeps_bind; [apply keeps_audit|]. intros a. apply keeps_ret.
Qed.

Lemma keeps_evaluate c p : keeps_fit (evaluate_tx c p).
Proof.
  unfold evaluate_tx. apply keeps_bind; [apply keeps_tmapM; intros e; apply keeps_result|]. intros rows.
  apply keeps_bind; [apply keeps_audit|]. intros a. apply keeps_bind; [apply keeps_event|]. intros e. apply keeps_ret.
Qed.

Lemma fits_relabelled f u c : fits c -> fits (withFreshness f u c).
Proof. by intros []. Qed.

Lemma keeps_reclassify c f trigger : keeps_fit (reclassifyBody c f trigger).
Proof.
  unfold reclassifyBody. apply keeps_bind.
  - intros db r db' [F1 F2] E. unfold capacity_updateFreshnessClass in E. apply rbind_Ok in E as ([r' t] & E & [= _ <-]).
    apply updateById_Ok in E as (c0 & _ & _ & ->). split; [|exact F2]. cbn. rewrite Forall_map. eapply Forall_impl; [exact F1|]. intros c' Hc. cbv beta.
    case_match; [by apply fits_relabelled|done].
  - intros r. apply keeps_bind; [apply keeps_event|]. intros e. apply keeps_ret.
Qed.

Lemma keeps_recompute x t p : keeps_fit (freshnessJob_tx sha256_hex x t p).
Proof.
  destruct p as [r|u]; cbn [freshnessJob_tx]; [apply keeps_ret|]. apply keeps_bind; [|intros b; apply keeps_ret].
  intros db b db' Ft E. unfold recomputeOne in E. destruct (capacity_findById db x) as [c|]; [|by injection E as _ <-].
  cbv zeta in E. case_bool_decide; [by injection E as _ <-|]. apply tbind_Ok in E as (v & d & E & [= _ <-]).
  apply withJobIdempotency_Ok in E as [->|(r & d1 & E & A)]; [done|]. eapply fitting_aside; [|exact A]. by eapply keeps_reclassify.
Qed.

Lemma serve_keeps_fitting r db : fitting db -> fitting_request r -> fitting (fst (serve (supply_service sha256_hex) r db)).
Proof.
  intros Ft Fr. unfold serve. destruct (h_pre (supply_service sha256_hex) r db) as [p|] eqn:Ep; [|done].
  destruct (h_tx (supply_service sha256_hex) r p db) as [[out db']|] eqn:E; [|done]. cbn [fst].
  destruct r as [c i|c x i|c i|c x i|x t]; cbn [h_pre h_tx supply_service supply_pre supply_tx] in *.
  - by eapply keeps_create.
  - by eapply keeps_replace.
  - destruct p as [org n]. apply createCapacity_pre_exact in Ep as (_ & _ & _ & Hn%amount_nonneg). eapply (keeps_profile c i (org, n)); [done|exact Hn|exact Ft|exact E].
  - by eapply keeps_evaluate.
  - by eapply keeps_recompute.
Qed.
End Keeps.

Section Requests.
Context `{Platform} (sha256_hex : list ascii -> string).

(** Nothing else was recorded under the job's key. *)
Definition recompute_clear (x : string) (t : Z) (db : Db) : Prop :=
  forall c, capacity_findById db x = Some c -> liveFreshness c t <> CapacityProfileRow.freshnessClass c ->
    forall k, idempotency_find db (ji_scope (freshnessInfo c (liveFreshness c t))) (ji_key (freshnessInfo c (liveFreshness c t))) = Some k ->
      IdempotencyKeyRow.responseStatus k <> None ->
      IdempotencyKeyRow.requestHash k = hashPayload sha256_hex (ji_requestPayload (freshnessInfo c (liveFreshness c t))).

Lemma reclassifyBody_through c to trigger db : capacity_findById db (CapacityProfileRow.id c) = Some c -> goes_through (reclassifyBody c to trigger) db.
Proof.
  unfold capacity_findById. intros Hc. unfold reclassifyBody. eapply through_bind; [unfold capacity_updateFreshnessClass, updateById; rewrite Hc; reflexivity|].
  apply through_event. intros ???. apply through_ret.
Qed.

Lemma recompute_exact x t trigger db : goes_through (recomputeOne sha256_hex x t trigger) db <-> recompute_clear x t db.
Proof.
  unfold goes_through, recomputeOne, recompute_clear. destruct (capacity_findById db x) as [c|] eqn:Hc; [|split; [done|by eexists _, _]].
  cbv zeta. case_bool_decide as Hf; [split; [intros _ c' [= <-]; done|by eexists _, _]|].
  assert (exists v d, reclassifyBody c (liveFreshness c t) trigger db = Ok (v, d)) as Hb.
  { apply reclassifyBody_through. pose proof Hc as [_ Ei]%findById_Some. change (row_id c) with (CapacityProfileRow.id c) in Ei. by rewrite Ei. }
  pose proof (job_run sha256_hex (freshnessInfo c (liveFreshness c t)) t _ db Hb) as J. split.
  - intros (b & d & (j & d1 & E & _)%tbind_Ok) c' [= <-] _. apply J. by exists j, d1.
  - intros Hk. destruct (proj1 J (Hk c eq_refl Hf)) as (v & d & E). exists true, d. by rewrite (tbind_run _ _ _ _ _ E).
Qed.

Definition supply_accepted (r : SupplyReq) (db : Db) : Prop :=
  match r with
  | CreateOpportunity c i => exists org, organizationId (actor c) = Some org /\ org <> "" /\
      allowed (can (actor c) Actions.opportunity_create (resource ResourceType.opportunity (Some org)) noContext) = true /\
      Forall storable (OPPORTUNITY_AMOUNTS i)
  | ReplaceVolumeSlices c x i => exists o, opportunity_findById db x = Some o /\
      allowed (can (actor c) opportunity_update (resourceOf ResourceType.opportunity x (Some (OpportunityRow.ownerOrgId o))) noContext) = true /\
      exists slices, mapM_res (sliceInput (OpportunityRow.currency o)) i = Ok slices /\ Forall slice_fits (firstOfEachCell ∅ slices)
  | CreateCapacity c i => exists org, organizationId (actor c) = Some org /\ org <> "" /\
      allowed (can (actor c) Actions.capacity_create (resource ResourceType.capacity_profile (Some org)) noContext) = true /\
      storable (cq_monthlyCapacityMinor i) /\ Forall (fun z => int4 z = true) (PROFILE_INTS i)
  | Evaluate c x i => exists o, opportunity_findById db x = Some o /\
      allowed (can (actor c) matching_evaluate (resource ResourceType.match_result (Some (OpportunityRow.ownerOrgId o))) noContext) = true /\
      (OpportunityRow.status o = Opportunity.MATCH_READY \/ OpportunityRow.status o = Opportunity.INVITED) /\
      Forall usable (SupplyRepositories.capacity_list db MAX_CANDIDATE_CAPACITIES)
  | RecomputeFreshness x t => recompute_clear x t db
  end.

Notation service := (supply_service sha256_hex).

Lemma serve_ok r db : is_ok (snd (serve service r db)) = true <-> exists p, h_pre service r db = Ok p /\ goes_through (h_tx service r p) db.
Proof.
  unfold serve. destruct (h_pre service r db) as [p|] eqn:Ep; [|naive_solver]. destruct (h_tx service r p db) as [[out db']|] eqn:Et.
  - split; [intros _; exists p; split; [done|by exists out, db']|intros _]. cbn [snd]. by destruct r.
  - split; [done|]. intros (p' & [= <-] & out & db' & E). congruence.
Qed.

Lemma is_ok_iff {A} (m : res A) : is_ok m = true <-> exists a, m = Ok a.
Proof. destruct m; cbn; naive_solver. Qed.

Lemma supply_accepted_iff r db : supply_tables db -> fitting db -> fitting_request r -> is_ok (snd (serve service r db)) = true <-> supply_accepted r db.
Proof.
  intros T Ft Fr. rewrite serve_ok. destruct r as [c i|c x i|c i|c x i|x t]; cbn [h_pre h_tx supply_service supply_pre supply_tx supply_accepted].
  - setoid_rewrite createOpportunity_runs. unfold createOpportunity_pre. setoid_rewrite rbind_Ok. setoid_rewrite own_organization. setoid_rewrite rbind_Ok. setoid_rewrite require_Ok.
    split; [intros (org & (o & [Ho Hn] & [] & Ha & [= ->]) & F); by exists org|]. intros (org & Ho & Hn & Ha & F). exists org. split; [|done]. exists org. split; [done|]. by exists tt.
  - etransitivity; [exact (replace_exact c x i db)|]. setoid_rewrite authorizedOpportunity_Ok. naive_solver.
  - setoid_rewrite createCapacity_through. split.
    + intros ([org n] & (Ho & Hn & Ha & Em)%createCapacity_pre_exact & F & F8). exists org. split_and!; [done..|by eapply storable_iff|done].
    + intros (org & Ho & Hn & Ha & Hs & F). pose proof Hs as (n & Em & _). exists (org, n). split; [by apply createCapacity_pre_exact|].
      split; [done|by apply (storable_iff (cq_monthlyCapacityMinor i))].
  - rewrite <- (evaluate_pre_exact c x i db Ft Fr), is_ok_iff. split; [intros (p & E & _); by exists p|]. intros [p E]. exists p. split; [done|].
    apply evaluate_pre_Ok in E. by eapply evaluate_through.
  - rewrite <- (recompute_exact x t "event" db). unfold freshnessJob_pre. destruct (capacity_findById db x) as [c|] eqn:Hc.
    + split; [intros (p & [= <-] & (b & d & E & _)%through_inv); by exists b, d|]. intros (b & d & E). exists (inr tt). split; [done|]. cbn.
      eapply through_bind; [exact E|apply through_ret].
    + split; [intros _; unfold recomputeOne; exists false, db; by rewrite Hc|]. intros _. eexists. split; [done|]. apply through_ret.
Qed.
End Requests.
