(* ===== verification/SupplyFacts.v ===== *)
(** * What one supply request does, and what the market shows

    The cards of the visible market; breakdowns, evaluations and the freshness
    job one at a time. *)
From S2P Require Import Prelude StableSort DomainStates AuthzMatrix Authz JsNumber Eligibility MatchScoring Database Tables ApiShared EconomicsTheorems.
From S2P Require Import PassportRequests SupplyRepositories SupplyService SupplySystem SupplyRequests MarketService NumOrder Money JsonText Idempotency.
From S2P Require Import ClaimRepositories IdentityRequests TradeRequests SupplyBook Transactions.
From Stdlib Require Import Ascii Sorted.
From stdpp Require Import relations.
Import Roles Actions Matrix.
Import Roles Actions.
#[local] Open Scope Z_scope.

(** ** What the visible market shows

    Every card is a function of the safe columns of its row, whoever looks: the
    redaction lets the seven (six) market fields through for every role and the
    card has no place for another. *)

(** The card of a row. *)
Definition capacityCard (t : Z) (p : CapacityProfileRow.t) : MarketplaceCapacityCard :=
  {| k_cardId := CapacityProfileRow.id p; k_freshnessClass := liveFreshness p t; k_acceptingNewVolume := CapacityProfileRow.acceptingNewVolume p;
     k_jurisdictions := CapacityProfileRow.jurisdictions p; k_mccsAccepted := CapacityProfileRow.mccsAccepted p; k_currency := CapacityProfileRow.currency p;
     k_monthlyCapacityBand := bandVolume (CapacityProfileRow.monthlyCapacityMinor p);
     k_riskTier := bandRiskTier (CapacityProfileRow.maxChargebackBps p) (CapacityProfileRow.maxFraudBps p) (CapacityProfileRow.maxRefundBps p) |}.

Definition opportunityCard (o : OpportunityRow.t) : MarketplaceOpportunityCard :=
  {| w_cardId := OpportunityRow.id o; w_opportunityType := OpportunityRow.opportunityType o; w_status := OpportunityRow.status o;
     w_currency := OpportunityRow.currency o; w_jurisdictions := OpportunityRow.jurisdictions o; w_mccs := OpportunityRow.mccs o;
     w_offeredVolumeBand := bandVolume (OpportunityRow.offeredCardGpvMinor o) |}.

(** A record nobody owns is seen at MEMBER_MARKET or above by every role. *)
Definition ceiling_of (r : PersonaRole) : DisclosureClass :=
  if bool_decide (r = PLATFORM_OWNER) then SECRET else default MEMBER_MARKET (CROSS_ORG_CEILING r).

Lemma market_ceiling a r t x : role a = Some r -> maxVisibleClass (fieldPolicy a (resourceOf t x None)) = ceiling_of r.
Proof.
  intros Hr. unfold fieldPolicy, ceiling_of, resourceOf. cbn [ownerOrgId]. rewrite Hr. rewrite (bool_decide_eq_false_2 (None <> None /\ _)) by tauto.
  rewrite orb_false_r. destruct r; reflexivity.
Qed.

(** The market fields survive every ceiling a role has. *)
Lemma capacity_visible {V} max (v1 v2 v3 v4 v5 v6 v7 v8 v9 v10 v11 v12 v13 v14 v15 v16 v17 : V) : max <> PUBLIC_MARKET ->
  exists out, foldM_res (redact_step CAPACITY_MARKET_FIELD_CLASSES "SECRET" max) []
    [("providerOrgId", v1); ("freshnessClass", v2); ("acceptingNewVolume", v3); ("jurisdictions", v4); ("mccsAccepted", v5); ("currency", v6);
     ("monthlyCapacityBand", v7); ("riskTier", v8); ("monthlyCapacityMinor", v9); ("minTicketMinor", v10); ("maxTicketMinor", v11);
     ("maxChargebackBps", v12); ("maxFraudBps", v13); ("maxRefundBps", v14); ("settlementRail", v15); ("settlementCadenceDays", v16);
     ("commercialTerms", v17)] = Ok out /\
  map (fun k => snd <$> List.find (fun kv => String.eqb (fst kv) k) out)
    ["freshnessClass"; "acceptingNewVolume"; "jurisdictions"; "mccsAccepted"; "currency"; "monthlyCapacityBand"; "riskTier"]
  = map Some [v2; v3; v4; v5; v6; v7; v8].
Proof. intros Hm. destruct max; [done|..]; eexists; (split; [vm_compute; reflexivity|reflexivity]). Qed.

Lemma opportunity_visible {V} max (v1 v2 v3 v4 v5 v6 v7 v8 v9 v10 v11 v12 v13 v14 : V) : max <> PUBLIC_MARKET ->
  exists out, foldM_res (redact_step OPPORTUNITY_MARKET_FIELD_CLASSES "SECRET" max) []
    [("ownerOrgId", v1); ("opportunityType", v2); ("status", v3); ("currency", v4); ("jurisdictions", v5); ("mccs", v6); ("offeredVolumeBand", v7);
     ("totalPaymentVolumeMinor", v8); ("totalCardGpvMinor", v9); ("eligibleCardGpvMinor", v10); ("offeredCardGpvMinor", v11);
     ("movableNowMinor", v12); ("movable30dMinor", v13); ("movable90dMinor", v14)] = Ok out /\
  map (fun k => snd <$> List.find (fun kv => String.eqb (fst kv) k) out)
    ["opportunityType"; "status"; "currency"; "jurisdictions"; "mccs"; "offeredVolumeBand"] = map Some [v2; v3; v4; v5; v6; v7].
Proof. intros Hm. destruct max; [done|..]; eexists; (split; [vm_compute; reflexivity|reflexivity]). Qed.

Lemma ceiling_not_public r : ceiling_of r <> PUBLIC_MARKET.
Proof. by destruct r. Qed.

Lemma capacity_card_exact a r p t : role a = Some r -> toMarketplaceCapacityCard a p (liveFreshness p t) = Ok (Some (capacityCard t p)).
Proof.
  intros Hr. unfold toMarketplaceCapacityCard, redactFields, capacityFields. cbv zeta. rewrite (market_ceiling a r _ _ Hr). cbn [default resourceOf privacyClass].
  match goal with |- context [foldM_res _ _ [(_, ?v1); (_, ?v2); (_, ?v3); (_, ?v4); (_, ?v5); (_, ?v6); (_, ?v7); (_, ?v8); (_, ?v9); (_, ?v10); (_, ?v11); (_, ?v12);
    (_, ?v13); (_, ?v14); (_, ?v15); (_, ?v16); (_, ?v17)]] =>
    destruct (capacity_visible (ceiling_of r) v1 v2 v3 v4 v5 v6 v7 v8 v9 v10 v11 v12 v13 v14 v15 v16 v17 (ceiling_not_public r)) as (out & E & F) end.
  cbn [map] in F. injection F as F1 F2 F3 F4 F5 F6 F7. etransitivity; [apply (f_equal (fun m => rbind m _) E)|]. cbn [rbind]. unfold visibleField.
  by rewrite F1, F2, F3, F4, F5, F6, F7.
Qed.

Lemma opportunity_card_exact a r o : role a = Some r -> toMarketplaceOpportunityCard a o = Ok (Some (opportunityCard o)).
Proof.
  intros Hr. unfold toMarketplaceOpportunityCard, redactFields, opportunityFields. cbv zeta. rewrite (market_ceiling a r _ _ Hr). cbn [default resourceOf privacyClass].
  match goal with |- context [foldM_res _ _ [(_, ?v1); (_, ?v2); (_, ?v3); (_, ?v4); (_, ?v5); (_, ?v6); (_, ?v7); (_, ?v8); (_, ?v9); (_, ?v10); (_, ?v11); (_, ?v12);
    (_, ?v13); (_, ?v14)]] =>
    destruct (opportunity_visible (ceiling_of r) v1 v2 v3 v4 v5 v6 v7 v8 v9 v10 v11 v12 v13 v14 (ceiling_not_public r)) as (out & E & F) end.
  cbn [map] in F. injection F as F1 F2 F3 F4 F5 F6. etransitivity; [apply (f_equal (fun m => rbind m _) E)|]. cbn [rbind]. unfold visibleField.
  by rewrite F1, F2, F3, F4, F5, F6.
Qed.

Lemma cards_exact {A B} (f : A -> res (option B)) (g : A -> B) l : (forall a, f a = Ok (Some (g a))) ->
  (let! cards := mapM_res f l in Ok (notNull cards)) = Ok (map g l).
Proof.
  intros Hf. assert (mapM_res f l = Ok (map (fun a => Some (g a)) l)) as ->.
  { induction l as [|a l IH]; [done|]. cbn. by rewrite Hf, IH. }
  cbn. f_equal. unfold notNull. induction l as [|a l IH]; [done|]. cbn. by rewrite IH.
Qed.

(** *** Who may browse *)

Definition a_member (a : Actor) : Prop := is_Some (role a) /\ is_Some (organizationId a).

Lemma browse_allowed a act res : act ∈ browseActions -> type res = ACTION_RESOURCE_TYPE act -> allowed (can a act res noContext) = true <-> a_member a.
Proof.
  intros Hact Ht. assert (act = opportunity_browse_market \/ act = capacity_browse_market) as Hb.
  { unfold browseActions in Hact. apply elem_of_cons in Hact as [?|Hact]; [by left|]. right. by apply list_elem_of_singleton in Hact. }
  rewrite can_allowed. split; [intros (_ & r & org & Hr & Ho & _); by split; eexists|]. intros [[r Hr] [org Ho]]. split; [done|]. exists r, org.
  assert (has act (allowedActions (AUTHORITY_MATRIX r)) = true /\ has act (crossOrgActions (AUTHORITY_MATRIX r)) = true) as [H1%has_true H2%has_true].
  { destruct Hb as [Ea|Ea]; rewrite Ea; destruct r; vm_compute; done. }
  split_and!; [done|done|done| |by left]. intros ->. by destruct Hb.
Qed.

Lemma list_capacity_exact c db : listCapacity c db =
  (do! require (can (actor c) capacity_browse_market (resource ResourceType.capacity_profile None) noContext);
   Ok (map (capacityCard (now c)) (SupplyRepositories.capacity_list db 500))).
Proof.
  unfold listCapacity. destruct (require (can (actor c) _ _ _)) as [[]|] eqn:E; [|done]. cbn [rbind]. apply require_Ok in E.
  apply can_allowed in E as (_ & r & org & Hr & _). apply cards_exact. intros p. by apply (capacity_card_exact _ r).
Qed.

Lemma list_opportunities_exact a db : listOpportunities a db =
  (do! require (can a opportunity_browse_market (resource ResourceType.opportunity None) noContext);
   Ok (map opportunityCard (SupplyRepositories.opportunity_list db 500))).
Proof.
  unfold listOpportunities. destruct (require (can a _ _ _)) as [[]|] eqn:E; [|done]. cbn [rbind]. apply require_Ok in E.
  apply can_allowed in E as (_ & r & org & Hr & _). apply cards_exact. intros p. by apply (opportunity_card_exact _ r).
Qed.

(** *** Listings of rows that look alike *)

Lemma insert_related {A} (R : A -> A -> Prop) (cmp : A -> A -> comparison) x x' l l' :
  (forall a a' b b', R a a' -> R b b' -> cmp a b = cmp a' b') -> R x x' -> Forall2 R l l' -> Forall2 R (insert_by cmp x l) (insert_by cmp x' l').
Proof.
  intros Hc Hx F. induction F as [|y y' l l' Hy F IH]; cbn; [by repeat constructor|]. rewrite (Hc x x' y y') by done.
  destruct (cmp x' y'); repeat (constructor; try done).
Qed.

Lemma sort_related {A} (R : A -> A -> Prop) (cmp : A -> A -> comparison) l l' :
  (forall a a' b b', R a a' -> R b b' -> cmp a b = cmp a' b') -> Forall2 R l l' -> Forall2 R (sort_by cmp l) (sort_by cmp l').
Proof. intros Hc F. induction F as [|y y' l l' Hy F IH]; cbn; [constructor|]. by apply insert_related. Qed.

Lemma findMany_related {A} (R : A -> A -> Prop) (cmp : A -> A -> comparison) (q : A -> bool) l l' :
  (forall a a' b b', R a a' -> R b b' -> cmp a b = cmp a' b') -> (forall a a', R a a' -> q a = q a') -> Forall2 R l l' ->
  Forall2 R (findMany cmp q l) (findMany cmp q l').
Proof.
  intros Hc Hq F. apply sort_related; [done|]. induction F as [|y y' l l' Hy F IH]; cbn; [constructor|]. rewrite (Hq y y') by done. destruct (q y'); [by constructor|done].
Qed.

(** Two rows the market at [t] cannot tell apart. *)
Definition alike_capacity (t : Z) (c c' : CapacityProfileRow.t) : Prop :=
  capacityCard t c = capacityCard t c' /\ row_createdAt c = row_createdAt c' /\ activeProfile c = activeProfile c'.
Definition alike_opportunity (o o' : OpportunityRow.t) : Prop := opportunityCard o = opportunityCard o' /\ row_createdAt o = row_createdAt o'.

Lemma cards_alike {A B} (R : A -> A -> Prop) (g : A -> B) l l' : (forall a a', R a a' -> g a = g a') -> Forall2 R l l' -> map g l = map g l'.
Proof. intros Hg F. induction F as [|y y' l l' Hy F IH]; [done|]. cbn. by rewrite IH, (Hg _ _ Hy). Qed.

Lemma capacities_alike t db db' : Forall2 (alike_capacity t) (capacityProfiles db) (capacityProfiles db') ->
  map (capacityCard t) (SupplyRepositories.capacity_list db 500) = map (capacityCard t) (SupplyRepositories.capacity_list db' 500).
Proof.
  intros F. apply (cards_alike (alike_capacity t)); [by intros ?? [? _]|]. apply Forall2_take, findMany_related; [|by intros ?? (_ & _ & ?)|done].
  intros a a' b b' (_ & Ea & _) (_ & Eb & _). unfold desc, cmp_desc, cmp_on. by rewrite Ea, Eb.
Qed.

Lemma opportunities_alike db db' : Forall2 alike_opportunity (opportunities db) (opportunities db') ->
  map opportunityCard (SupplyRepositories.opportunity_list db 500) = map opportunityCard (SupplyRepositories.opportunity_list db' 500).
Proof.
  intros F. apply (cards_alike alike_opportunity); [by intros ?? [? _]|]. apply Forall2_take, findMany_related; [|done|done].
  intros a a' b b' (_ & Ea) (_ & Eb). unfold desc, cmp_desc, cmp_on. by rewrite Ea, Eb.
Qed.

(** ** What one supply request does

    The breakdown that is stored and read back, the evaluation that is listed,
    and the class the freshness job leaves behind. *)

Section Facts.
Context `{Platform} (sha256_hex : list ascii -> string).
#[local] Notation service := (supply_service sha256_hex).

(** ** Breakdowns *)

(** A reconciled breakdown reconciles in any order. *)
Lemma reconciled_any_order l l' summary r : reconcileOpportunityVolume l summary = Ok r -> reconciled r = true -> l' ≡ₚ l ->
  reconcileOpportunityVolume l' summary = Ok r.
Proof.
  intros E Hr Hp. destruct (decide (Forall (fun s => 0 <= Money.amountMinor s) l)) as [F|F]; [|by rewrite reconcile_negative in E].
  pose proof (proj1 (reconciled_iff _ _ _ E) Hr) as (Nd & Fc & Hs & Hm1 & Hm2).
  assert (Forall (fun s => 0 <= Money.amountMinor s) l') as F' by (by rewrite Hp).
  pose proof (reconcile_value l' summary F') as E'. pose proof (reconcile_value l summary F) as E0. cbv zeta in E', E0. rewrite E in E0. injection E0 as E0.
  match type of E' with _ = Ok ?x => set (r' := x) in * end. assert (reconciled r' = true) as Hr'.
  { apply (reconciled_iff _ _ _ E'). split_and!; [by rewrite Hp|by rewrite Hp| |lia|lia..]. rewrite <- Hs. unfold sumZ. by rewrite Hp. }
  rewrite E'. f_equal. rewrite E0 in Hr |- *. unfold r' in Hr' |- *. cbn [reconciled] in Hr, Hr'. apply Nat.eqb_eq, length_zero_iff_nil in Hr, Hr'.
  rewrite Hr, Hr'. f_equal. by rewrite Hp.
Qed.

Lemma insertSlices_demands c x l db rows db' : insertSlices c x l db = Ok (rows, db') -> opportunities db' = opportunities db.
Proof.
  unfold insertSlices. revert db rows. induction l as [|s l IH]; intros db rows; cbn [tmapM]; [by intros [= _ <-]|].
  intros (r & d1 & E1 & (rs & d2 & E2 & [= _ <-])%tbind_Ok)%tbind_Ok. rewrite (IH _ _ E2). unfold volumeSlice_create in E1.
  apply tbind_Ok in E1 as (u & e & [_ ->]%tlift_Ok & E1). apply tbind_Ok in E1 as (y & d & [= <- <-] & E1). cbv zeta in E1. case_bool_decide; [done|]. by injection E1 as _ <-.
Qed.

Lemma served_replace c x input db rows rec db' : serve service (ReplaceVolumeSlices c x input) db = (db', Ok (rows, rec)) ->
  exists p, replaceVolumeSlices_pre c x input db = Ok p /\ rec = rl_reconciliation p /\ replaceVolumeSlices_tx c x p db = Ok (rows, db').
Proof.
  unfold serve. cbn [h_pre h_tx h_finish supply_service supply_pre supply_tx supply_finish]. destruct (replaceVolumeSlices_pre c x input db) as [p|]; [|done].
  destruct (replaceVolumeSlices_tx c x p db) as [[out d]|] eqn:E; [|done]. intros [= <- <- <-]. by exists p.
Qed.

Definition of_demand (y : string) (s : VolumeSliceRow.t) : bool := String.eqb (VolumeSliceRow.opportunityId s) y.

Lemma listed_slices db y : volumeSlice_listByOpportunity db y =
  sort_by (cmp_lex (cmp_on VolumeSliceRow.jurisdiction collate) (cmp_lex (cmp_on VolumeSliceRow.mcc collate) (cmp_on VolumeSliceRow.period collate)))
    (List.filter (of_demand y) (volumeSlices db)).
Proof. done. Qed.

Lemma kept_rows x y t : List.filter (of_demand y) (List.filter (fun s => negb (String.eqb (VolumeSliceRow.opportunityId s) x)) t) =
  if bool_decide (y = x) then [] else List.filter (of_demand y) t.
Proof.
  unfold of_demand. induction t as [|s t IH]; [by case_bool_decide|]. cbn. destruct (String.eqb_spec (VolumeSliceRow.opportunityId s) x) as [->|Hne]; cbn; rewrite IH.
  - case_bool_decide as Hd; [done|]. by rewrite (proj2 (String.eqb_neq x y)) by congruence.
  - case_bool_decide as Hd; [by rewrite (proj2 (String.eqb_neq _ y)) by congruence|done].
Qed.

Lemma rows_demand x rows l : map rowEntry rows = map (fun s => ((x, cellOf s), snd (sliceEntry s))) l -> Forall (fun r => VolumeSliceRow.opportunityId r = x) rows.
Proof.
  intros E. apply Forall_forall. intros r Hr. apply (list_elem_of_fmap_2 rowEntry) in Hr. change (rowEntry <$> rows) with (map rowEntry rows) in Hr. rewrite E in Hr.
  apply list_elem_of_fmap in Hr as (s & Es & _). by injection Es as ->.
Qed.

Lemma own_rows x rows : Forall (fun r => VolumeSliceRow.opportunityId r = x) rows -> List.filter (of_demand x) rows = rows.
Proof. unfold of_demand. induction 1 as [|r rows E F IH]; [done|]. cbn. by rewrite E, String.eqb_refl, IH. Qed.

Lemma other_rows x y rows : y <> x -> Forall (fun r => VolumeSliceRow.opportunityId r = x) rows -> List.filter (of_demand y) rows = [].
Proof. unfold of_demand. intros Hne. induction 1 as [|r rows E F IH]; [done|]. cbn. by rewrite (proj2 (String.eqb_neq _ y)) by congruence. Qed.

(** What a replacement leaves in the table. *)
Lemma replaced_rows c x p db rows db' : supply_tables db -> replaceVolumeSlices_tx c x p db = Ok (rows, db') ->
  map sliceOf rows = rl_toInsert p /\ volumeSlice_listByOpportunity db' x ≡ₚ rows /\ opportunities db' = opportunities db /\
  forall y, y <> x -> volumeSlice_listByOpportunity db' y = volumeSlice_listByOpportunity db y.
Proof.
  intros T E. pose proof (replace_leaves _ _ _ _ _ _ T E) as (_ & Er & Ev & _). pose proof (rows_demand _ _ _ Er) as Fr.
  split_and!.
  - clear - Er. revert Er. generalize (rl_toInsert p). induction rows as [|r rows IH]; intros [|s l] Er; try discriminate Er; [done|]. cbn in Er |- *.
    injection Er as E1 E2 E3 E4 E5 E6 E7 E8 Er. rewrite (IH _ Er). f_equal. destruct s. cbn in *. unfold sliceOf. by f_equal.
  - rewrite listed_slices. by rewrite sort_by_perm, Ev, List.filter_app, kept_rows, bool_decide_eq_true_2, own_rows.
  - unfold replaceVolumeSlices_tx in E. apply tbind_Ok in E as (n & d1 & [= _ <-] & E). apply tbind_Ok in E as (rows' & d2 & E2 & E).
    apply tbind_Ok in E as (a & d3 & (e & ev & k & m & Hm & Ed)%audit_aside & [= <- <-]). rewrite Ed. cbn. by rewrite (insertSlices_demands _ _ _ _ _ _ E2).
  - intros y Hne. rewrite !listed_slices. f_equal. rewrite Ev, List.filter_app, (kept_rows x y), (bool_decide_eq_false_2 (y = x)), (other_rows x y rows Hne Fr) by exact Hne.
    by rewrite app_nil_r.
Qed.
(** ** Evaluations *)

Lemma served_evaluate c x i db rows db' : serve service (Evaluate c x i) db = (db', Ok rows) ->
  exists p, evaluation_read c x i db p /\ evaluate_tx c p db = Ok (rows, db').
Proof.
  unfold serve. cbn [h_pre h_tx h_finish supply_service supply_pre supply_tx supply_finish]. destruct (evaluate_pre c x i db) as [p|] eqn:Ep; [|done].
  destruct (evaluate_tx c p db) as [[out d]|] eqn:E; [|done]. intros [= <- <-]. exists p. split; [by apply evaluate_pre_Ok|done].
Qed.

(** What the hard rules ask, of the profile as it is at [t]. *)
Definition suitable (db : Db) (o : OpportunityRow.t) (i : EvaluateMatchesRequest) (t : Z) (c : CapacityProfileRow.t) : Prop :=
  exists passport, liveProviderPassportStatus (CapacityProfileRow.providerOrgId c) t db = Ok passport /\
    admissible (toMatchOpportunityInput o) (toMatchCapacityInput c (liveFreshness c t))
      (matchContext t passport i (eq_requiredSettlementRail i)
        (baseInputVersions o ++ [versionOf "capacity" (CapacityProfileRow.id c) (version (CapacityProfileRow.base c))])).

Lemma candidate_suitable o i t db c e : evaluateCandidate o i t db c = Ok e -> isEligible e = true <-> suitable db o i t c.
Proof.
  intros (_ & _ & Ei & passport & Ep & Ee)%candidate_Ok. rewrite Ei in Ee. unfold isEligible. rewrite (eligible_exact _ _ _ _ Ee). unfold suitable. split.
  - intros Ha. by exists passport.
  - intros (p' & Ep' & Ha). rewrite Ep in Ep'. injection Ep' as ->. done.
Qed.

Lemma evaluated_rows c x i db p rows : evaluation_read c x i db p -> Forall2 (fun e m => of_input (matchInput c p e) m) (ep_evaluated p) rows ->
  Forall2 (fun c' m => MatchResultRow.capacityId m = CapacityProfileRow.id c' /\ MatchResultRow.opportunityId m = x /\ MatchResultRow.evaluatedAt m = now c /\
    (MatchResultRow.eligible m = true <-> suitable db (ep_opportunity p) i (now c) c')) (SupplyRepositories.capacity_list db MAX_CANDIDATE_CAPACITIES) rows.
Proof.
  intros R F. pose proof (er_opportunity _ _ _ _ _ R) as [_ Ex]%findById_Some. change (row_id (ep_opportunity p)) with (OpportunityRow.id (ep_opportunity p)) in Ex.
  pose proof (er_evaluated _ _ _ _ _ R) as G. revert rows F. induction G as [|c' e l es He G IH]; intros rows F; inversion F as [|? m ? ms O F']; subst; constructor; [|by apply IH].
  rewrite (oi_capacity _ _ O), (oi_opportunity _ _ O), (oi_at _ _ O), (oi_eligible _ _ O). cbn. pose proof (candidate_Ok _ _ _ _ _ _ He) as (-> & _).
  split_and!; [done|done|done|]. by apply candidate_suitable.
Qed.

Lemma sorted_lookup {A} (R : A -> A -> Prop) l i j a b : StronglySorted R l -> l !! i = Some a -> l !! j = Some b -> (i < j)%nat -> R a b.
Proof.
  intros Hs. revert i j. induction Hs as [|y l Hs IH Hy]; intros [|i] [|j] Ha Hb Hlt; try done; try lia.
  - injection Ha as <-. exact (proj1 (Forall_forall _ _) Hy b (list_elem_of_lookup_2 l j b Hb)).
  - apply (IH i j); [done|done|lia].
Qed.

(** A better rank is not a lower total. *)
Lemma ranked_totals o ctx caps entries r1 r2 : Forall (candidate o ctx) caps -> rankMatches o caps ctx = Ok entries -> r1 ∈ entries -> r2 ∈ entries ->
  m_rank r1 < m_rank r2 -> num_le (m_total (MatchScoring.breakdown r2)) (m_total (MatchScoring.breakdown r1)).
Proof.
  intros Fc Er [k1 H1]%list_elem_of_lookup [k2 H2]%list_elem_of_lookup Hlt.
  destruct (rank_matches_exact o ctx caps Fc) as (srt & es & Er' & Hp & Hs & Hlen & Hsc & Hk & _). rewrite Er in Er'. injection Er' as <-.
  assert (length srt = length entries) as El by (rewrite Hlen, <- (length_map c_id), <- Hp; by rewrite length_map).
  destruct (lookup_lt_is_Some_2 srt k1) as [e1 He1]; [rewrite El; by eapply lookup_lt_Some|]. destruct (lookup_lt_is_Some_2 srt k2) as [e2 He2]; [rewrite El; by eapply lookup_lt_Some|].
  destruct (Hk k1 e1 r1 He1 H1) as (_ & R1 & -> & _). destruct (Hk k2 e2 r2 He2 H2) as (_ & R2 & -> & _).
  assert (forall e, e ∈ srt -> tame (m_total (snd e))) as Ht.
  { intros e (cc & Hcc & _ & Esc)%Hsc. destruct (candidate_scored o ctx cc (proj1 (Forall_forall _ _) Fc cc Hcc)) as (b & Eb & Tb). rewrite Esc in Eb. by injection Eb as ->. }
  assert (cmp_le matchOrder e1 e2) as Hle by (apply (sorted_lookup _ srt k1 k2 e1 e2 Hs He1 He2); lia).
  pose proof (Ht _ (list_elem_of_lookup_2 _ _ _ He1)) as [D1 _]. pose proof (Ht _ (list_elem_of_lookup_2 _ _ _ He2)) as [D2 _].
  split_and!; [done|done|]. unfold cmp_le, matchOrder, cmp_lex, cmp_desc, cmp_on, cmp_then, matchTotal in Hle.
  destruct (Z.compare_spec (num_scaled (m_total (snd e2))) (num_scaled (m_total (snd e1)))); [lia|lia|done].
Qed.

(** *** What is listed afterwards *)

Lemma firstOfEach_sub seen l m : m ∈ firstOfEachCapacity seen l -> m ∈ l.
Proof.
  revert seen. induction l as [|a l IH]; intros seen; cbn; [done|]. case_bool_decide; [intros ?%IH; by right|].
  intros [->|?%IH]%elem_of_cons; [left|by right].
Qed.

Lemma firstOfEach_only seen l m : (forall m', m' ∈ l -> MatchResultRow.capacityId m' = MatchResultRow.capacityId m -> m' = m) ->
  MatchResultRow.capacityId m ∉ seen -> m ∈ l -> m ∈ firstOfEachCapacity seen l.
Proof.
  revert seen. induction l as [|a l IH]; intros seen Hu Hs Hin; cbn; [done|].
  assert (forall m', m' ∈ l -> MatchResultRow.capacityId m' = MatchResultRow.capacityId m -> m' = m) as Hu' by (intros m' Hm'; by apply Hu; right).
  destruct (decide (MatchResultRow.capacityId a = MatchResultRow.capacityId m)) as [Ec|Hne].
  { rewrite (Hu a ltac:(left) Ec), bool_decide_eq_false_2 by done. left. }
  apply elem_of_cons in Hin as [<-|Hin]; [done|]. case_bool_decide; [by apply IH|]. right. apply IH; [done| |done].
  by intros [?|?]%elem_of_cons.
Qed.

(** Evaluations that are the latest of their demand are the ones listed. *)
Lemma latest_listed db db' x t rows : matchResults db' = matchResults db ++ rows ->
  Forall (fun m => MatchResultRow.opportunityId m = x /\ MatchResultRow.evaluatedAt m = t) rows -> NoDup (map MatchResultRow.capacityId rows) ->
  (forall m, m ∈ matchResults db -> MatchResultRow.opportunityId m = x -> MatchResultRow.evaluatedAt m < t) ->
  forall m, m ∈ matchResult_listLatestByOpportunity db' x /\ MatchResultRow.capacityId m ∈ map MatchResultRow.capacityId rows <-> m ∈ rows.
Proof.
  intros E F Nd Old. set (mine := List.filter (ofOpportunity x) (matchResults db')).
  assert (forall m, m ∈ mine <-> m ∈ matchResults db' /\ MatchResultRow.opportunityId m = x) as Mine.
  { intros m. unfold mine. rewrite elem_of_filter_list. unfold ofOpportunity. by rewrite String.eqb_eq. }
  assert (forall m, m ∈ rows -> m ∈ mine) as New.
  { intros m Hm. apply Mine. rewrite E. split; [apply elem_of_app; by right|]. exact (proj1 (proj1 (Forall_forall _ _) F m Hm)). }
  assert (forall m, m ∈ rows -> MatchResultRow.evaluatedAt m = t) as At by (intros m Hm; exact (proj2 (proj1 (Forall_forall _ _) F m Hm))).
  assert (forall m m', m ∈ rows -> m' ∈ mine -> latestOf mine m' = true -> MatchResultRow.capacityId m' = MatchResultRow.capacityId m -> m' = m) as Top.
  { intros m m' Hm Hm' Hl Ec. unfold latestOf in Hl. pose proof (proj1 (forallb_forall _ _) Hl m (proj1 (list_elem_of_In _ _) (New m Hm))) as Hx. cbv beta in Hx.
    rewrite Ec, String.eqb_refl in Hx. cbn in Hx. apply Z.leb_le in Hx. apply Mine in Hm' as [Hm' Ex]. rewrite E in Hm'. apply elem_of_app in Hm' as [Hm'|Hm'].
    - pose proof (Old m' Hm' Ex). rewrite (At m Hm) in Hx. lia.
    - by apply (NoDup_map_inj MatchResultRow.capacityId rows m' m). }
  intros m. unfold matchResult_listLatestByOpportunity. fold mine. rewrite sort_by_elem. split.
  - intros [[Hm Hl]%firstOfEach_sub%findMany_elem (m0 & Ec & H0)%list_elem_of_fmap]. by rewrite (Top m0 m).
  - intros Hm. split; [|by apply list_elem_of_fmap_2]. apply firstOfEach_only; [|apply not_elem_of_nil|].
    + intros m' [Hm' Hl]%findMany_elem. by apply Top.
    + apply findMany_intro; [by apply New|]. unfold latestOf. apply forallb_forall. intros m' Hm'%list_elem_of_In.
      destruct (String.eqb_spec (MatchResultRow.capacityId m') (MatchResultRow.capacityId m)); [cbn|done]. apply Z.leb_le. rewrite (At m Hm).
      apply Mine in Hm' as [Hm' Ex]. rewrite E in Hm'. apply elem_of_app in Hm' as [Hm'|Hm']; [specialize (Old _ Hm' Ex); lia|by rewrite (At m' Hm')].
Qed.

Lemma evaluated_matches c p db rows db' : supply_tables db -> evaluate_tx c p db = Ok (rows, db') -> matchResults db' = matchResults db ++ rows.
Proof. intros T [_ L]%evaluate_leaves; [|done]. exact (f_equal matchings (lv_exchange _ _ _ L)). Qed.

(** ** The job *)

(** No result was recorded under the job's key. *)
Definition unclaimed (c : CapacityProfileRow.t) (t : Z) (db : Db) : Prop :=
  forall k, idempotency_find db (ji_scope (freshnessInfo c (liveFreshness c t))) (ji_key (freshnessInfo c (liveFreshness c t))) = Some k ->
    IdempotencyKeyRow.responseStatus k = None.

Lemma unclaimed_runs info t (m : Tx Json) db v d : (forall k, idempotency_find db (ji_scope info) (ji_key info) = Some k -> IdempotencyKeyRow.responseStatus k = None) ->
  m db = Ok (v, d) -> exists w d', withJobIdempotency sha256_hex info t m db = Ok (w, d') /\ aside d d'.
Proof.
  intros Hk Em. destruct (recordResult_run sha256_hex info t v d) as (d' & E). exists v, d'. split; [|by eapply recordResult_aside].
  unfold withJobIdempotency. destruct (idempotency_find _ _ _) as [k|]; [rewrite (Hk k eq_refl)|]; rewrite (tbind_run _ _ _ _ _ Em); exact E.
Qed.

Lemma job_writes x t db c : capacity_findById db x = Some c -> unclaimed c t db -> liveFreshness c t <> CapacityProfileRow.freshnessClass c ->
  exists db', serve service (RecomputeFreshness x t) db = (db', Ok {| z_scanned := 1; z_reclassified := 1 |}) /\
    capacityProfiles db' = map (updating x (withFreshness (liveFreshness c t) None)) (capacityProfiles db).
Proof.
  intros Hc Hu Hne. pose proof Hc as [_ Ei]%findById_Some. change (row_id c) with (CapacityProfileRow.id c) in Ei.
  assert (exists v d, reclassifyBody c (liveFreshness c t) "event" db = Ok (v, d) /\
    capacityProfiles d = map (updating x (withFreshness (liveFreshness c t) None)) (capacityProfiles db)) as (v & d & Eb & Ep).
  { destruct (reclassifyBody_through c (liveFreshness c t) "event" db) as (v & d & E); [by rewrite Ei|]. exists v, d. split; [done|].
    unfold reclassifyBody in E. apply tbind_Ok in E as (c' & d2 & E1 & E). unfold capacity_updateFreshnessClass in E1. apply rbind_Ok in E1 as ([r tab] & E1 & [= _ <-]).
    rewrite Ei in E1. unfold capacity_findById in Hc. rewrite (updateById_run _ _ _ _ Hc) in E1. injection E1 as _ <-.
    apply tbind_Ok in E as (e & d3 & (a1 & e1 & k1 & n1 & _ & ->)%event_aside & [= _ <-]). done. }
  destruct (unclaimed_runs _ t _ db v d Hu Eb) as (w & d' & Ew & (a1 & e1 & k1 & n1 & _ & Ed)). exists d'. split; [|by rewrite Ed].
  assert (recomputeOne sha256_hex x t "event" db = Ok (true, d')) as Er.
  { unfold recomputeOne. rewrite Hc. cbv zeta. rewrite bool_decide_eq_false_2 by done. by rewrite (tbind_run _ _ _ _ _ Ew). }
  unfold serve. cbn [h_pre h_tx h_finish supply_service supply_pre supply_tx supply_finish]. unfold freshnessJob_pre. rewrite Hc. cbn [freshnessJob_tx].
  by rewrite (tbind_run _ _ _ _ _ Er).
Qed.

Lemma job_rests x t db c : capacity_findById db x = Some c -> liveFreshness c t = CapacityProfileRow.freshnessClass c ->
  serve service (RecomputeFreshness x t) db = (db, Ok {| z_scanned := 1; z_reclassified := 0 |}).
Proof.
  intros Hc He. assert (recomputeOne sha256_hex x t "event" db = Ok (false, db)) as Er.
  { unfold recomputeOne. rewrite Hc. cbv zeta. by rewrite bool_decide_eq_true_2. }
  unfold serve. cbn [h_pre h_tx h_finish supply_service supply_pre supply_tx supply_finish]. unfold freshnessJob_pre. rewrite Hc. cbn [freshnessJob_tx].
  by rewrite (tbind_run _ _ _ _ _ Er).
Qed.

Lemma live_relabelled f u c t : liveFreshness (withFreshness f u c) t = liveFreshness c t.
Proof. done. Qed.
End Facts.
