(* ===== verification/SupplyTheorems.v ===== *)
(** * Opportunities, capacity and matching: the theorems

    A sample exchange; what holds in every reachable state, what one request
    does; the witnesses on the sample. *)
From S2P Require Import Prelude StableSort DomainStates AuthzMatrix Authz JsNumber Money Eligibility MatchScoring JsonText Database Tables ApiShared.
From S2P Require Import Idempotency EconomicsTheorems LockboxTheorems TradeSample SupplyRepositories SupplyService MarketService SupplyBook SupplySystem.
From S2P Require Import SupplyRequests Transactions NumOrder ClaimRepositories PassportRequests IdentityRequests SupplyFacts.
From Stdlib Require Import Ascii.
From stdpp Require Import relations.
Import Roles Actions.
#[local] Open Scope Z_scope.

(** ** A sample exchange

    One opportunity, the breakdown of its volume, the profiles of two
    providers, an evaluation: the inputs of the witnesses; and what the code
    lets happen. *)

Definition theDemand : OpportunityRow.t :=
  {| OpportunityRow.id := "id-0"; OpportunityRow.ownerOrgId := "merchant"; OpportunityRow.opportunityType := OpportunityType.ACQUIRING;
     OpportunityRow.requestedService := "acquiring"; OpportunityRow.status := Opportunity.MATCH_READY; OpportunityRow.currency := "EUR";
     OpportunityRow.totalPaymentVolumeMinor := 100; OpportunityRow.totalCardGpvMinor := 100; OpportunityRow.eligibleCardGpvMinor := 100;
     OpportunityRow.offeredCardGpvMinor := 100; OpportunityRow.movableNowMinor := 100; OpportunityRow.movable30dMinor := 100;
     OpportunityRow.movable90dMinor := 100; OpportunityRow.jurisdictions := ["DE"]; OpportunityRow.mccs := ["5734"]; OpportunityRow.base := sampleBase |}.

Definition verifiedPassport (org : string) : PassportRow.t :=
  {| PassportRow.id := "passport of " +:+ org; PassportRow.organizationId := org; PassportRow.status := Passport.VERIFIED;
     PassportRow.updatedAt := 0; PassportRow.base := sampleBase |}.

Definition supplyDb : Db :=
  set_drawn 1 (set_passports (map verifiedPassport ["provider"; "rival"]) (set_opportunities [theDemand]
    (set_organizations (map sampleOrganization ["merchant"; "provider"; "rival"; "desk"]) emptyDb))).

Notation sampleSupply := (supply_service sampleSha).
Notation any_supply := (fun _ : SupplyReq => True).

Definition sliceOn (mcc origin amount : string) : SliceRequest :=
  {| sl_jurisdiction := "DE"; sl_mcc := mcc; sl_cardOrigin := origin; sl_channel := "ECOM"; sl_amountMinor := amount; sl_period := "2026-08" |}.
Definition breaking (l : list SliceRequest) : SupplyReq := ReplaceVolumeSlices merchant "id-0" l.
Definition inTwo : SupplyReq := breaking [sliceOn "5734" "DOMESTIC" "60"; sliceOn "5734" "CROSS_BORDER" "40"].
Definition byCountry : SupplyReq := breaking [sliceOn "5411" "DOMESTIC" "100"].

Definition profileOf (rail : string) (monthly : string) (tickets : option Z * option Z) : CreateCapacityProfileRequest :=
  {| cq_acceptingNewVolume := None; cq_jurisdictions := Some ["DE"]; cq_mccsAccepted := Some ["5734"]; cq_mccsExcluded := None; cq_currency := "EUR";
     cq_monthlyCapacityMinor := Some monthly; cq_minTicketMinor := tickets.1; cq_maxTicketMinor := tickets.2; cq_maxChargebackBps := Some 100;
     cq_maxFraudBps := None; cq_maxRefundBps := None; cq_settlementRail := rail; cq_settlementCadenceDays := None; cq_commercialTerms := None |}.
Definition offering (c : Call) (monthly : string) : SupplyReq := CreateCapacity c (profileOf "SEPA" monthly (Some 1, Some 50)).
Definition noTickets : EvaluateMatchesRequest := {| eq_averageTicketMinor := None; eq_requiredSettlementRail := None |}.
Definition theEvaluation : SupplyReq := Evaluate clerk "id-0" noTickets.

Definition supplied (r : SupplyReq) (db : Db) : Db := fst (serve sampleSupply r db).
Definition supplied_ok (r : SupplyReq) (db : Db) : bool := is_ok (snd (serve sampleSupply r db)).

Definition listedRun : list SupplyReq := [inTwo; offering provider "1000"; offering rival "10"].
Definition listedDb : Db := Eval vm_compute in serveAll sampleSupply listedRun supplyDb.
Definition matchedDb : Db := Eval vm_compute in supplied theEvaluation listedDb.

Definition outcome (m : MatchResultRow.t) : string * bool * option Z := (MatchResultRow.capacityId m, MatchResultRow.eligible m, MatchResultRow.rank m).

(** The rival's capacity is too small. *)
Example sample_supply_exact :
  map (fun s => (VolumeSliceRow.cardOrigin s, VolumeSliceRow.amountMinor s)) (volumeSlices matchedDb) = [("DOMESTIC", 60); ("CROSS_BORDER", 40)] /\
  map CapacityProfileRow.providerOrgId (capacityProfiles matchedDb) = ["provider"; "rival"] /\
  map outcome (matchResults matchedDb) = [("id-4", true, Some 1); ("id-6", false, None)].
Proof. vm_compute. done. Qed.

Lemma supplyDb_ok : supply_ok supplyDb.
Proof.
  split; [split|split].
  - split; [|apply NoDup_singleton|repeat constructor|by repeat constructor]. repeat constructor. exists 0%nat. split; [cbn; lia|done].
  - by split; constructor.
  - by split; constructor.
  - by split; constructor.
  - constructor.
  - intros k v Hv; exact (False_ind _ (lookup_empty_Some _ _ Hv)).
  - intros k v Hv; exact (False_ind _ (lookup_empty_Some _ _ Hv)).
  - constructor.
  - constructor.
Qed.

Lemma supplied_reached rs : exists s, reaches sampleSupply supply_env any_supply supplyDb s /\ store s = serveAll sampleSupply rs supplyDb /\ inflight s = [].
Proof. eexists. split; [exact (serveAll_answers sampleSupply supply_env any_supply rs supplyDb (Forall_true _ _ (fun _ => I)))|done]. Qed.

Lemma listedDb_reached : exists s, reaches sampleSupply supply_env any_supply supplyDb s /\ store s = listedDb /\ inflight s = [].
Proof. destruct (supplied_reached listedRun) as (s & R & E & F). exists s. split; [exact R|]. rewrite E. split; [vm_compute; reflexivity|exact F]. Qed.

Lemma listedDb_ok : supply_ok listedDb.
Proof. destruct listedDb_reached as (s & R & <- & _). exact (supply_reach sampleSha supplyDb s supplyDb_ok R). Qed.

Lemma listedDb_fitting : fitting listedDb.
Proof.
  split.
  - repeat (constructor; [split; first [reflexivity|unfold int32, arrayLength; cbn; lia|intros t Ht; discriminate Ht]|]). constructor.
  - constructor; [split; first [reflexivity|unfold arrayLength; cbn; lia]|constructor].
Qed.

(** ** What the code lets happen *)

(** The contract takes a least ticket above the greatest, and a rail of
    blanks; no evaluation succeeds with such a profile among the candidates,
    for any opportunity. *)
Definition badTickets : SupplyReq := CreateCapacity rival (profileOf "SEPA" "10" (Some 50, Some 1)).
Definition badRail : SupplyReq := CreateCapacity rival (profileOf " " "10" (None, None)).

Example one_profile_blocks_everyone :
  supplied_ok theEvaluation listedDb = true /\
  map (fun bad => (supplied_ok bad listedDb, supplied_ok theEvaluation (supplied bad listedDb))) [badTickets; badRail] = [(true, false); (true, false)].
Proof. vm_compute. done. Qed.

(** Ineligible results are not listed by capacity id: the difference of two
    infinite ranks is NaN, which a sort takes for equal. *)
Definition inThree : SupplyReq := breaking [sliceOn "5734" "DOMESTIC" "60"; sliceOn "5734" "CROSS_BORDER" "30"; sliceOn "5411" "DOMESTIC" "10"].

Example ineligible_untied :
  let db := supplied theEvaluation (serveAll sampleSupply [inThree; offering provider "20"; offering rival "10"] supplyDb) in
  map outcome (matchResults db) = [("id-5", false, None); ("id-7", false, None)] /\
  map outcome (matchResult_listLatestByOpportunity db "id-0") = [("id-7", false, None); ("id-5", false, None)].
Proof. vm_compute. done. Qed.

(** Amounts the contract admits and no column holds: the service parses them,
    the insert is refused, and nothing translates the error. *)
Example wide_amounts_are_refused :
  snd (serve sampleSupply (offering provider "9223372036854775808") listedDb) = Throw (PrismaKnownRequestError "P2020") /\
  snd (serve sampleSupply (CreateCapacity rival (profileOf "SEPA" "10" (Some 2147483648, None))) listedDb) = Throw (PrismaKnownRequestError "P2020") /\
  snd (serve sampleSupply (breaking [sliceOn "5734" "DOMESTIC" "9223372036854775808"]) listedDb) = Throw (PrismaKnownRequestError "P2020") /\
  supplied_ok (offering provider "9223372036854775807") listedDb = true.
Proof. vm_compute. done. Qed.

(** A job whose clock runs behind another's takes the class back; when the
    class is due again the key of its first recording is still there: the job
    reports a reclassification and stores nothing. *)
Example replayed_job_stores_nothing :
  let db := serveAll sampleSupply [RecomputeFreshness "id-4" 8000000000; RecomputeFreshness "id-4" 4000] listedDb in
  let (db', r) := serve sampleSupply (RecomputeFreshness "id-4" 8000000000) db in
  r = Ok {| z_scanned := 1; z_reclassified := 1 |} /\
  (fun c => (CapacityProfileRow.freshnessClass c, liveFreshness c 8000000000)) <$> capacity_findById db' "id-4" = Some (Freshness.FRESH, Freshness.STALE).
Proof. vm_compute. done. Qed.

(** ** Opportunities, capacity and matching: the theorems

    What holds in every reachable state of the supply services and the
    freshness job, what one request does, and the witnesses on the sample
    exchange. *)

Section Theorems.
Context `{Platform} (sha256_hex : list ascii -> string).
#[local] Notation service := (supply_service sha256_hex).
#[local] Notation anyone := (fun _ : SupplyReq => True).
#[local] Notation reach := (reaches service supply_env anyone).

(** ** Every reachable state *)

Lemma slice_owned db s : supply_ok db -> s ∈ volumeSlices db ->
  exists o, opportunity_findById db (VolumeSliceRow.opportunityId s) = Some o /\ VolumeSliceRow.currency s = OpportunityRow.currency o.
Proof.
  intros [T [K _ _ _]] Hs. assert (volumes (exchange db) !! sliceKey s = Some (snd (rowEntry s))) as Hk by (apply rows_lookup; [apply T|by exists s]).
  destruct (K _ _ Hk) as (d & (o & Ho & ->)%book_Some & E). by exists o.
Qed.

Lemma match_owned db m : supply_ok db -> m ∈ matchResults db ->
  sound_match m /\ is_Some (opportunity_findById db (MatchResultRow.opportunityId m)) /\ is_Some (capacity_findById db (MatchResultRow.capacityId m)).
Proof.
  intros [T [_ _ S Kn]] Hm. split; [exact (proj1 (Forall_forall _ _) S m Hm)|]. pose proof (proj1 (Forall_forall _ _) Kn m Hm) as [[d (o & Ho & _)%book_Some] [d' (c & Hc & _)%book_Some]].
  split; by eexists.
Qed.

Lemma profile_honest db c : supply_ok db -> c ∈ capacityProfiles db -> honest c.
Proof.
  intros [T [_ K _ _]] Hc. apply (K (CapacityProfileRow.id c) c), profile_known. exact (findById_elem db _ _ (st_profiles _ T) Hc).
Qed.

(** C28: the tables of supply and demand are always sound.  In every state
    reachable from sound tables, with any requests in flight and any other
    service at work: no two slices of an opportunity hold the same cell, and a
    slice is in its opportunity's currency; a match is of an opportunity and a
    profile there are, eligible exactly when none of its findings blocks, and
    has rank, score, breakdown and algorithm exactly when eligible; and the
    stored freshness class of a profile was its live class at some time. *)
Theorem supply_always_sound (db : Db) (s : Config service) : supply_ok db -> reach db s ->
  NoDup (map sliceKey (volumeSlices (store s))) /\
  (forall v, v ∈ volumeSlices (store s) ->
     exists o, opportunity_findById (store s) (VolumeSliceRow.opportunityId v) = Some o /\ VolumeSliceRow.currency v = OpportunityRow.currency o) /\
  (forall m, m ∈ matchResults (store s) ->
     is_Some (opportunity_findById (store s) (MatchResultRow.opportunityId m)) /\ is_Some (capacity_findById (store s) (MatchResultRow.capacityId m)) /\
     (MatchResultRow.eligible m = true <-> forall r, r ∈ MatchResultRow.eligibilityResults m -> blocks r = false) /\
     (MatchResultRow.eligible m = true -> is_Some (MatchResultRow.rankingBreakdown m) /\ is_Some (MatchResultRow.rank m) /\
        is_Some (MatchResultRow.totalScore m) /\ is_Some (MatchResultRow.algorithmVersion m)) /\
     (MatchResultRow.eligible m = false -> MatchResultRow.rankingBreakdown m = None /\ MatchResultRow.rank m = None /\
        MatchResultRow.totalScore m = None /\ MatchResultRow.algorithmVersion m = None)) /\
  (forall c, c ∈ capacityProfiles (store s) -> exists t, CapacityProfileRow.freshnessClass c = liveFreshness c t).
Proof.
  intros K R. pose proof (supply_reach sha256_hex db s K R) as K'. split_and!; [apply K'|..].
  - intros v. by apply slice_owned.
  - intros m Hm. destruct (match_owned _ _ K' Hm) as ((S1 & S2 & S3) & Ho & Hc). done.
  - intros c. by apply profile_honest.
Qed.

(** C29: the services refine the exchange.  Between any two moments of a run
    the tables have gone through steps of [exchange_step]: opening a demand,
    listing a capacity, taking its live class, restating a breakdown as a
    whole, recording one ranked evaluation.  So no match is ever rewritten or
    dropped, no profile changes but its class, and no opportunity its owner or
    currency. *)
Theorem supply_refines_exchange (db : Db) (s s' : Config service) : supply_ok db -> reach db s -> rtc (step service supply_env anyone) s s' ->
  rtc exchange_step (exchange (store s)) (exchange (store s')) /\
  (exists later, matchResults (store s') = matchResults (store s) ++ later) /\
  (forall x c, capacity_findById (store s) x = Some c -> exists f b, capacity_findById (store s') x = Some (relabelled f b c)) /\
  (forall x o, opportunity_findById (store s) x = Some o ->
     exists o', opportunity_findById (store s') x = Some o' /\ OpportunityRow.ownerOrgId o' = OpportunityRow.ownerOrgId o /\ OpportunityRow.currency o' = OpportunityRow.currency o).
Proof.
  intros K R R'. pose proof (supply_between sha256_hex db s s' K R R') as Run. pose proof (exchange_run_later _ _ Run) as [L1 L2 L3]. split_and!; [exact Run|exact L3|..].
  - intros x c Hc%profile_known. destruct (L2 _ _ Hc) as (c' & (c'' & Hc'' & E)%book_Some & f & b & E'). exists f, b. rewrite <- E', E. exact Hc''.
  - intros x o Ho%demand_known. destruct (L1 _ _ Ho) as (d & (o' & Ho' & E)%book_Some & E'). exists o'. split; [exact Ho'|]. rewrite <- E' in E. unfold demandOf in E. by injection E.
Qed.

(** C30: a request succeeds exactly when it should.  On sound tables whose
    rows hold what the columns and the contract admit, each of the five
    requests, as the wire contract lets it through, succeeds on its own iff
    [supply_accepted] says so: a creation needs an actor who may, amounts
    that parse, are not negative and fit an int8, and a profile tickets and
    days that fit an int4, for the contract sets no upper bound; a breakdown
    an actor who may, amounts that parse, and amounts that fit in the slices
    that are stored, the first of each cell; an evaluation an actor who may, an
    opportunity that is MATCH_READY or INVITED, and not one candidate profile
    with a blank rail or tickets the wrong way round; the job a key nobody
    used for something else.  A refused request changes nothing, and every
    request leaves the tables sound and their rows such that this holds of the
    next one. *)
Theorem supply_requests_exact (r : SupplyReq) (db : Db) : supply_ok db -> fitting db -> fitting_request r ->
  (is_ok (snd (serve service r db)) = true <-> supply_accepted sha256_hex r db) /\
  (is_ok (snd (serve service r db)) = false -> fst (serve service r db) = db) /\
  supply_ok (fst (serve service r db)) /\ fitting (fst (serve service r db)).
Proof.
  intros K Ft Fr. split_and!.
  - apply supply_accepted_iff; [apply K|done|done].
  - unfold serve. destruct (h_pre service r db) as [p|]; [|done]. destruct (h_tx service r p db) as [[out db']|]; [|done]. cbn. by destruct r.
  - apply (acts_supply_ok db); [done|]. by apply serve_supply_acts.
  - by apply serve_keeps_fitting.
Qed.

(** ** One evaluation *)

Lemma row_ranking c p e m : of_input (matchInput c p e) m ->
  MatchResultRow.rank m = m_rank <$> rankEntry (ep_ranked p) (ev_id e) /\
  MatchResultRow.totalScore m = (fun r => m_total (MatchScoring.breakdown r)) <$> rankEntry (ep_ranked p) (ev_id e).
Proof. intros O. by rewrite (oi_rank _ _ O), (oi_total _ _ O). Qed.

Lemma rankEntry_elem l x r : rankEntry l x = Some r -> r ∈ l.
Proof. unfold rankEntry. by intros [Hin%in_rev%list_elem_of_In _]%find_some. Qed.

Lemma rows_totals c x i db p rows m1 m2 r1 r2 t1 t2 : fitting db -> evaluation_read c x i db p ->
  Forall2 (fun e m => of_input (matchInput c p e) m) (ep_evaluated p) rows -> m1 ∈ rows -> m2 ∈ rows ->
  MatchResultRow.rank m1 = Some r1 -> MatchResultRow.rank m2 = Some r2 -> MatchResultRow.totalScore m1 = Some t1 -> MatchResultRow.totalScore m2 = Some t2 ->
  r1 < r2 -> num_le t2 t1.
Proof.
  intros Ft R F [k1 H1]%list_elem_of_lookup [k2 H2]%list_elem_of_lookup.
  destruct (Forall2_lookup_r _ _ _ _ _ F H1) as (e1 & _ & [-> ->]%row_ranking), (Forall2_lookup_r _ _ _ _ _ F H2) as (e2 & _ & [-> ->]%row_ranking).
  destruct (rankEntry _ (ev_id e1)) as [a1|] eqn:A1; [|done]. destruct (rankEntry _ (ev_id e2)) as [a2|] eqn:A2; [|done]. cbn. intros [= <-] [= <-] [= <-] [= <-].
  refine (ranked_totals _ _ _ _ a1 a2 _ (er_ranked _ _ _ _ _ R) (rankEntry_elem _ _ _ A1) (rankEntry_elem _ _ _ A2)).
  apply Forall_map, Forall_forall. intros e [He _]%elem_of_filter_list. by eapply read_candidates.
Qed.

(** C31: an evaluation is the engine's, ranked and listed.  A served
    evaluation has, in order, one result for each of the (at most 500) active
    profiles, of this opportunity and this time, and a result is eligible iff
    the profile meets the hard rules as it is now, live freshness and live
    passport status included.  The eligible ones have the ranks 1, 2, ...
    without gap, and a better rank never has the lower total.  The results
    are appended to those before; when those are earlier, the listing of the
    opportunity shows, of the evaluated profiles, exactly the new results. *)
Theorem evaluation_exact (db db' : Db) (c : Call) (x : string) (i : EvaluateMatchesRequest) (rows : list MatchResultRow.t) :
  supply_ok db -> fitting db -> serve service (Evaluate c x i) db = (db', Ok rows) ->
  exists o, opportunity_findById db x = Some o /\
    Forall2 (fun c' m => MatchResultRow.capacityId m = CapacityProfileRow.id c' /\ MatchResultRow.opportunityId m = x /\ MatchResultRow.evaluatedAt m = now c /\
        (MatchResultRow.eligible m = true <-> suitable db o i (now c) c')) (SupplyRepositories.capacity_list db MAX_CANDIDATE_CAPACITIES) rows /\
    ranked_batch rows /\
    (forall m1 m2 r1 r2 t1 t2, m1 ∈ rows -> m2 ∈ rows -> MatchResultRow.rank m1 = Some r1 -> MatchResultRow.rank m2 = Some r2 ->
        MatchResultRow.totalScore m1 = Some t1 -> MatchResultRow.totalScore m2 = Some t2 -> r1 < r2 -> num_le t2 t1) /\
    matchResults db' = matchResults db ++ rows /\
    ((forall m, m ∈ matchResults db -> MatchResultRow.opportunityId m = x -> MatchResultRow.evaluatedAt m < now c) ->
     forall m, m ∈ matchResult_listLatestByOpportunity db' x /\ MatchResultRow.capacityId m ∈ map MatchResultRow.capacityId rows <-> m ∈ rows).
Proof.
  intros [T K] Ft (p & R & E)%served_evaluate. pose proof (evaluate_leaves _ _ _ _ _ T E) as [F _]. pose proof (evaluated_matches _ _ _ _ _ T E) as Em.
  assert (evaluation (exchange db) (OpportunityRow.id (ep_opportunity p)) (now c) rows) as Ev.
  { apply (rows_evaluation c p); [by eapply evaluation_sound|by eapply read_known|done]. }
  pose proof (er_opportunity _ _ _ _ _ R) as Ho. pose proof Ho as [_ Ei]%findById_Some. change (row_id (ep_opportunity p)) with (OpportunityRow.id (ep_opportunity p)) in Ei.
  exists (ep_opportunity p). split_and!; [done|by eapply evaluated_rows|apply Ev| |done|].
  - intros m1 m2 r1 r2 t1 t2. by eapply rows_totals.
  - intros Old m. apply (latest_listed db db' x (now c) rows Em); [|apply Ev|done]. rewrite <- Ei. apply Ev.
Qed.

(** ** One profile the engine refuses *)

(** Such a request the wire contract takes. *)
Definition stops (i : CreateCapacityProfileRequest) : Prop :=
  isBlank (cq_settlementRail i) = true \/
  exists least greatest, cq_minTicketMinor i = Some least /\ cq_maxTicketMinor i = Some greatest /\ 0 < greatest < least /\ least <= 2 ^ 53.

Definition stopping (c : CapacityProfileRow.t) : Prop :=
  isBlank (CapacityProfileRow.settlementRail c) = true \/ 0 < CapacityProfileRow.maxTicketMinor c < CapacityProfileRow.minTicketMinor c /\ CapacityProfileRow.minTicketMinor c <= 2 ^ 53.

Lemma stopping_relabelled f b c : stopping (relabelled f b c) <-> stopping c.
Proof. done. Qed.

Lemma stopping_refused o i t db c e : stopping c -> evaluateCandidate o i t db c <> Ok e.
Proof.
  intros S (_ & _ & Ei & passport & _ & Ee)%candidate_Ok. rewrite Ei in Ee.
  match type of Ee with evaluateEligibility ?a ?b ?d = _ => pose proof (proj1 (proj1 (eligibility_total a b d))) as W; rewrite Ee in W; specialize (W eq_refl) end.
  destruct W as (_ & _ & _ & Hr & _ & _ & _ & _ & Ht & _). change (isBlank (CapacityProfileRow.settlementRail c) = false) in Hr.
  change (JsNumber.neq (num_of_Z (CapacityProfileRow.maxTicketMinor c)) nzero = true \/
    nlt (num_of_Z (CapacityProfileRow.maxTicketMinor c)) (num_of_Z (CapacityProfileRow.minTicketMinor c)) = false) in Ht. destruct S as [Hb|[[H0 Hlt] Hs]]; [by rewrite Hb in Hr|].
  destruct Ht as [Ht|Ht]; [apply neq_int in Ht; lia|]. rewrite nlt_int in Ht by lia. apply Z.ltb_ge in Ht. lia.
Qed.

Lemma stopped_evaluation db c x i cap : cap ∈ SupplyRepositories.capacity_list db MAX_CANDIDATE_CAPACITIES -> stopping cap ->
  fst (serve service (Evaluate c x i) db) = db /\ is_ok (snd (serve service (Evaluate c x i) db)) = false.
Proof.
  intros Hin S. unfold serve. cbn [h_pre supply_service supply_pre]. destruct (evaluate_pre c x i db) as [p|] eqn:E; [|done].
  exfalso. apply evaluate_pre_Ok in E as [_ _ _ F _]. apply list_elem_of_lookup in Hin as [k Hk]. destruct (Forall2_lookup_l _ _ _ _ _ F Hk) as (e & _ & Ee).
  exact (stopping_refused _ _ _ _ _ _ S Ee).
Qed.

Definition active_profiles (db : Db) : nat := length (List.filter activeProfile (capacityProfiles db)).

Lemma all_candidates db c : (active_profiles db <= MAX_CANDIDATE_CAPACITIES)%nat -> c ∈ capacityProfiles db -> activeProfile c = true ->
  c ∈ SupplyRepositories.capacity_list db MAX_CANDIDATE_CAPACITIES.
Proof.
  intros Hn Hc Ha. unfold SupplyRepositories.capacity_list. rewrite take_ge; [by apply findMany_intro|]. unfold findMany. by rewrite sort_by_perm.
Qed.

Lemma created_profile c i db v : supply_tables db -> snd (serve service (CreateCapacity c i) db) = Ok v ->
  exists row, capacity_findById (fst (serve service (CreateCapacity c i) db)) (CapacityProfileRow.id row) = Some row /\
    activeProfile row = true /\ (stops i -> stopping row).
Proof.
  intros T. unfold serve. cbn [h_pre h_tx h_finish supply_service supply_pre supply_tx supply_finish]. destruct (createCapacity_pre c i) as [p|]; [|done].
  destruct (createCapacity_tx c i p db) as [[out d]|] eqn:E; [|done]. intros [= ->]. cbn [fst]. unfold createCapacity_tx in E. cbv zeta in E.
  apply tbind_Ok in E as (row & d1 & E1 & E). pose proof (capacity_create_leaves _ _ _ _ T E1) as (_ & _ & _ & _ & L1).
  apply tbind_Ok in E as (a & d2 & L2%supply_audit_leaves & [= _ <-]); [|apply L1]. exists row. split_and!.
  - assert (listings (exchange d2) !! CapacityProfileRow.id row = Some row) as Hl by (rewrite (lv_exchange _ _ _ L2), (lv_exchange _ _ _ L1); cbn; apply lookup_insert_eq).
    apply book_Some in Hl as (r & Hr & ->). exact Hr.
  - unfold SupplyRepositories.capacity_create in E1. do 5 (apply tbind_Ok in E1 as (? & ? & [_ ->]%tlift_Ok & E1)).
    apply tbind_Ok in E1 as (fresh & d3 & [= <- <-] & E1). cbv zeta in E1. by injection E1 as <- _.
  - unfold SupplyRepositories.capacity_create in E1. do 5 (apply tbind_Ok in E1 as (? & ? & [_ ->]%tlift_Ok & E1)).
    apply tbind_Ok in E1 as (fresh & d3 & [= <- <-] & E1). cbv zeta in E1. injection E1 as <- _. intros [Hb|(a1 & b1 & Ea & Eb & Hlt & Hs)]; [by left|right].
    cbn. by rewrite Ea, Eb.
Qed.

(** C32: one bad profile stops matching for everyone.  Once a provider's
    creation of a profile with a blank rail, or with a greatest ticket below
    the least, was accepted, then in every state reached from there, as long
    as at most 500 profiles are active, every evaluation of every opportunity
    by anyone is refused and changes nothing. *)
Theorem one_bad_profile_stops_matching (db : Db) (s : Config service) (provider : Call) (i : CreateCapacityProfileRequest) (v : CapacityProfileWithLiveFreshness) :
  supply_ok db -> snd (serve service (CreateCapacity provider i) db) = Ok v -> stops i ->
  reach (fst (serve service (CreateCapacity provider i) db)) s -> (active_profiles (store s) <= MAX_CANDIDATE_CAPACITIES)%nat ->
  forall (c : Call) (x : string) (r : EvaluateMatchesRequest),
    fst (serve service (Evaluate c x r) (store s)) = store s /\ is_ok (snd (serve service (Evaluate c x r) (store s))) = false.
Proof.
  intros K Ev Hs R Hn c x r. destruct (created_profile _ _ _ _ (so_tables _ K) Ev) as (row & Hr & Ha & St). set (db1 := fst (serve service (CreateCapacity provider i) db)) in *.
  assert (supply_ok db1) as K1 by (by apply (acts_supply_ok db), serve_supply_acts).
  pose proof (supply_between sha256_hex db1 _ s K1 (rtc_refl _ _) R) as Run. pose proof (xl_listings _ _ (exchange_run_later _ _ Run)) as L.
  destruct (L _ _ (profile_known _ _ _ Hr)) as (row' & (q & Hq & ->)%book_Some & f & b & E). apply findById_Some in Hq as [Hq _].
  apply (stopped_evaluation _ _ _ _ q); [apply all_candidates; [done|done|]|]; rewrite E; [exact Ha|by apply stopping_relabelled, St].
Qed.

(** ** One breakdown *)

(** C33: a breakdown is stored and read back.  A served replacement stores
    the first slice of each cell of what was sent, in the opportunity's
    currency, and reports the reconciliation of all that was sent; the
    breakdown of every other opportunity stays; and what is listed afterwards
    is what was stored.  When the report says reconciled, nothing was
    dropped, and a reader gets the rows with the same report. *)
Theorem volume_breakdown_roundtrip (db db' : Db) (c : Call) (x : string) (input : list SliceRequest) (rows : list VolumeSliceRow.t)
    (report : VolumeReconciliationResult) :
  supply_ok db -> serve service (ReplaceVolumeSlices c x input) db = (db', Ok (rows, report)) ->
  exists o slices, opportunity_findById db x = Some o /\ mapM_res (sliceInput (OpportunityRow.currency o)) input = Ok slices /\
    reconcileOpportunityVolume slices (summaryOf o) = Ok report /\ map sliceOf rows = firstOfEachCell ∅ slices /\
    volumeSlice_listByOpportunity db' x ≡ₚ rows /\
    (forall y, y <> x -> volumeSlice_listByOpportunity db' y = volumeSlice_listByOpportunity db y) /\
    (reconciled report = true -> map sliceOf rows = slices /\
       forall a, allowed (can a opportunity_read (resourceOf ResourceType.opportunity x (Some (OpportunityRow.ownerOrgId o))) noContext) = true ->
         exists l, getVolumeSlices a x db' = Ok (l, report) /\ l ≡ₚ rows).
Proof.
  intros [T K] (p & Ep & -> & E)%served_replace. pose proof (replaced_rows _ _ _ _ _ _ T E) as (Es & Hp & Eo & Oth).
  unfold replaceVolumeSlices_pre in Ep. apply rbind_Ok in Ep as (o & [Ho _]%authorizedOpportunity_Ok & (slices & Hl & (r & Hr & [= <-])%rbind_Ok)%rbind_Ok).
  cbn [rl_toInsert rl_reconciliation] in *. exists o, slices. split_and!; [done..|].
  intros Hok. pose proof (proj1 (reconciled_iff _ _ _ Hr) Hok) as (Nd & _). rewrite firstOfEachCell_id in Es; [|done|apply Forall_forall; intros s _; apply not_elem_of_empty].
  split; [done|]. intros a Ha. exists (volumeSlice_listByOpportunity db' x). split; [|done]. unfold getVolumeSlices.
  assert (authorizedOpportunity a opportunity_read x db' = Ok o) as ->.
  { apply authorizedOpportunity_Ok. split; [|done]. unfold opportunity_findById in *. by rewrite Eo. }
  cbn [rbind]. unfold reconcileVolume. rewrite (reconciled_any_order slices _ _ r Hr Hok); [done|]. rewrite Hp. by rewrite Es.
Qed.

(** ** The market *)

(** C34: the market shows the cards of the rows and nothing else.  A member
    of an organization, and nobody else, gets one card for each of the newest
    500 rows, whose contents are the same for every member: the id, the
    volume as one of five bands, the risk ceilings as one of three tiers and
    the other safe columns.  So two databases whose rows differ only in what
    the cards leave out (who the provider or owner is, exact amounts, tickets,
    rails, commercial terms) cannot be told apart through it. *)
Theorem market_cards_noninterference (c : Call) (db db' : Db) :
  (is_ok (listCapacity c db) = true <-> a_member (actor c)) /\ (is_ok (listOpportunities (actor c) db) = true <-> a_member (actor c)) /\
  (a_member (actor c) -> listCapacity c db = Ok (map (capacityCard (now c)) (SupplyRepositories.capacity_list db 500)) /\
     listOpportunities (actor c) db = Ok (map opportunityCard (SupplyRepositories.opportunity_list db 500))) /\
  (Forall2 (alike_capacity (now c)) (capacityProfiles db) (capacityProfiles db') -> listCapacity c db = listCapacity c db') /\
  (Forall2 alike_opportunity (opportunities db) (opportunities db') -> listOpportunities (actor c) db = listOpportunities (actor c) db').
Proof.
  assert (capacity_browse_market ∈ browseActions /\ opportunity_browse_market ∈ browseActions) as [B1 B2] by (split; [right; left|left]).
  pose proof (browse_allowed (actor c) _ (resource ResourceType.capacity_profile None) B1 eq_refl) as Hc.
  pose proof (browse_allowed (actor c) _ (resource ResourceType.opportunity None) B2 eq_refl) as Ho.
  assert (forall act res A (v : A), is_ok (do! require (can (actor c) act res noContext); Ok v) = allowed (can (actor c) act res noContext)) as Req.
  { intros act res A v. unfold require. by destruct (allowed (can (actor c) act res noContext)). }
  split_and!.
  - by rewrite list_capacity_exact, Req.
  - by rewrite list_opportunities_exact, Req.
  - intros Hm. rewrite list_capacity_exact, list_opportunities_exact. by rewrite (proj2 (require_Ok _ tt) (proj2 Hc Hm)), (proj2 (require_Ok _ tt) (proj2 Ho Hm)).
  - intros F. by rewrite !list_capacity_exact, (capacities_alike _ _ _ F).
  - intros F. by rewrite !list_opportunities_exact, (opportunities_alike _ _ F).
Qed.

(** ** The freshness job *)

(** C35: the job stores the class a reader computes.  For a profile there is,
    with no result under the job's key, the job succeeds; it reports a
    reclassification iff the stored class was not the live one; afterwards
    the profile differs in nothing but class and bookkeeping, its stored
    class is the live class any reader is given at that time, the other
    profiles are untouched, and the job at that time again changes nothing. *)
Theorem freshness_job_agrees (db : Db) (x : string) (cap : CapacityProfileRow.t) (t : Z) :
  capacity_findById db x = Some cap -> unclaimed cap t db ->
  exists db' cap' b, serve service (RecomputeFreshness x t) db =
      (db', Ok {| z_scanned := 1; z_reclassified := if bool_decide (liveFreshness cap t = CapacityProfileRow.freshnessClass cap) then 0 else 1 |}) /\
    capacity_findById db' x = Some cap' /\ cap' = relabelled (liveFreshness cap t) b cap /\
    (forall c v, now c = t -> capacityService_getById c x db' = Ok v -> lf_freshnessClass v = CapacityProfileRow.freshnessClass (lf_profile v)) /\
    (forall y, y <> x -> capacity_findById db' y = capacity_findById db y) /\
    serve service (RecomputeFreshness x t) db' = (db', Ok {| z_scanned := 1; z_reclassified := 0 |}).
Proof.
  intros Hc Hu.
  assert (forall d cap', capacity_findById d x = Some cap' -> CapacityProfileRow.freshnessClass cap' = liveFreshness cap' t ->
    forall c v, now c = t -> capacityService_getById c x d = Ok v -> lf_freshnessClass v = CapacityProfileRow.freshnessClass (lf_profile v)) as Read.
  { intros d cap' Hd Hf c v <- E. unfold capacityService_getById in E. rewrite Hd in E. apply rbind_Ok in E as ([] & _ & [= <-]). cbn. congruence. }
  case_bool_decide as Hl.
  - exists db, cap, (CapacityProfileRow.base cap). split_and!; [by apply (job_rests sha256_hex x t db cap)|done| |by eapply Read|done|by apply (job_rests sha256_hex x t db cap)].
    rewrite Hl. by destruct cap.
  - destruct (job_writes sha256_hex x t db cap Hc Hu Hl) as (db' & E & Ed).
    assert (keeps_identity (withFreshness (liveFreshness cap t) None)) as Kp by done.
    assert (capacity_findById db' x = Some (withFreshness (liveFreshness cap t) None cap)) as Hc'.
    { unfold capacity_findById. rewrite Ed. by apply findById_updating. }
    exists db', (withFreshness (liveFreshness cap t) None cap), (touch (CapacityProfileRow.base cap) None).
    split_and!; [done|done|done|by eapply Read| |by apply (job_rests sha256_hex x t db' _ Hc')].
    intros y Hy. unfold capacity_findById. rewrite Ed. apply findById_updating_other; [done|congruence].
Qed.
End Theorems.

(** ** Witnesses on the sample exchange *)

Lemma supply_always_sound_witness : exists m, m ∈ matchResults matchedDb /\ MatchResultRow.eligible m = true /\
  (forall r, r ∈ MatchResultRow.eligibilityResults m -> blocks r = false) /\ is_Some (MatchResultRow.rank m).
Proof.
  destruct (supplied_reached (listedRun ++ [theEvaluation])) as (s & R & Es & _).
  assert (store s = matchedDb) as E by (rewrite Es; vm_compute; reflexivity).
  destruct (matchResults matchedDb) as [|m l] eqn:Em; [exfalso; vm_compute in Em; discriminate Em|].
  assert (MatchResultRow.eligible m = true) as Hel by (vm_compute in Em; injection Em as <- _; reflexivity).
  assert (m ∈ matchResults (store s)) as Hin by (rewrite E, Em; left).
  destruct (supply_always_sound sampleSha supplyDb s supplyDb_ok R) as (_ & _ & S & _). destruct (S m Hin) as (_ & _ & Iff & Hr & _).
  exists m. split; [left|]. split; [exact Hel|]. split; [exact (proj1 Iff Hel)|]. exact (proj1 (proj2 (Hr Hel))).
Defined.

Lemma supply_refines_exchange_witness : rtc exchange_step (exchange listedDb) (exchange matchedDb) /\ length (matchResults matchedDb) = 2%nat.
Proof.
  split; [|vm_compute; reflexivity]. destruct listedDb_reached as (s & R & Es & Ei).
  pose proof (serveAll_steps sampleSupply supply_env any_supply [theEvaluation] s (Forall_true _ _ (fun _ => I)) Ei) as R2.
  match type of R2 with rtc _ _ ?s => pose (s2 := s) end. change (rtc (step sampleSupply supply_env any_supply) s s2) in R2.
  assert (store s2 = matchedDb) as Es2 by (cbn [store s2]; rewrite Es; vm_compute; reflexivity).
  pose proof (proj1 (supply_refines_exchange sampleSha supplyDb s s2 supplyDb_ok R R2)) as W. rewrite Es, Es2 in W. exact W.
Defined.

Lemma supply_requests_exact_witness : supply_accepted sampleSha theEvaluation listedDb.
Proof.
  refine (proj1 (proj1 (supply_requests_exact sampleSha theEvaluation listedDb listedDb_ok listedDb_fitting (fun t Ht => ltac:(discriminate Ht)))) _).
  vm_compute. reflexivity.
Defined.

Definition servedRows : list MatchResultRow.t := Eval vm_compute in match snd (serve sampleSupply theEvaluation listedDb) with Ok rows => rows | Throw _ => [] end.

Lemma evaluation_exact_witness : map outcome servedRows = [("id-4", true, Some 1); ("id-6", false, None)] /\
  forall m, m ∈ matchResult_listLatestByOpportunity matchedDb "id-0" /\ MatchResultRow.capacityId m ∈ map MatchResultRow.capacityId servedRows <-> m ∈ servedRows.
Proof.
  split; [vm_compute; reflexivity|].
  assert (serve sampleSupply theEvaluation listedDb = (matchedDb, Ok servedRows)) as E by (vm_compute; reflexivity).
  destruct (evaluation_exact sampleSha listedDb matchedDb clerk "id-0" noTickets servedRows listedDb_ok listedDb_fitting E) as (o & _ & _ & _ & _ & _ & Latest).
  apply Latest. intros m Hm. exfalso. change (matchResults listedDb) with (@nil MatchResultRow.t) in Hm. by apply elem_of_nil in Hm.
Defined.

Definition badProfile : option CapacityProfileWithLiveFreshness := Eval vm_compute in match snd (serve sampleSupply badTickets listedDb) with Ok v => Some v | Throw _ => None end.

Lemma one_bad_profile_stops_matching_witness : is_ok (snd (serve sampleSupply theEvaluation listedDb)) = true /\
  forall c x r, is_ok (snd (serve sampleSupply (Evaluate c x r) (supplied badTickets listedDb))) = false.
Proof.
  split; [vm_compute; reflexivity|]. intros c x r.
  destruct badProfile as [v|] eqn:Ev; [|exfalso; vm_compute in Ev; discriminate Ev].
  assert (snd (serve sampleSupply badTickets listedDb) = Ok v) as E by (vm_compute in Ev; injection Ev as <-; vm_compute; reflexivity).
  pose (s := {| store := supplied badTickets listedDb; inflight := []; answered := [] |} : Config sampleSupply).
  refine (proj2 (one_bad_profile_stops_matching sampleSha listedDb s rival (profileOf "SEPA" "10" (Some 50, Some 1)) v listedDb_ok E _ (rtc_refl _ _) _ c x r)).
  - right. exists 50, 1. split_and!; first [reflexivity|lia].
  - assert (active_profiles (supplied badTickets listedDb) = 3%nat) as Hn by (vm_compute; reflexivity). cbn [store s]. rewrite Hn. unfold MAX_CANDIDATE_CAPACITIES. lia.
Defined.

Definition storedSlices : option (list VolumeSliceRow.t * VolumeReconciliationResult) := Eval vm_compute in
  match snd (serve sampleSupply inTwo supplyDb) with Ok r => Some r | Throw _ => None end.

Lemma volume_breakdown_roundtrip_witness : exists rows report l, storedSlices = Some (rows, report) /\ reconciled report = true /\
  getVolumeSlices (actor merchant) "id-0" (supplied inTwo supplyDb) = Ok (l, report) /\ l ≡ₚ rows.
Proof.
  destruct storedSlices as [[rows report]|] eqn:Er; [|exfalso; vm_compute in Er; discriminate Er].
  assert (serve sampleSupply inTwo supplyDb = (supplied inTwo supplyDb, Ok (rows, report))) as E by (vm_compute in Er; injection Er as <- <-; vm_compute; reflexivity).
  assert (reconciled report = true) as Hok by (vm_compute in Er; injection Er as _ <-; reflexivity).
  destruct (volume_breakdown_roundtrip sampleSha supplyDb _ merchant "id-0" _ rows report supplyDb_ok E) as (o & slices & Ho & _ & _ & _ & _ & _ & Back).
  assert (o = theDemand) as Eo by (vm_compute in Ho; injection Ho as <-; reflexivity).
  destruct (proj2 (Back Hok) (actor merchant)) as (l & El & Hp); [rewrite Eo; vm_compute; reflexivity|].
  exists rows, report, l. split; [reflexivity|]. split; [exact Hok|]. split; [exact El|exact Hp].
Defined.

(** The same profiles of another provider, with other tickets. *)
Definition otherListings : Db := Eval vm_compute in
  serveAll sampleSupply [inTwo; CreateCapacity rival (profileOf "SWIFT" "1000" (Some 2, Some 9)); CreateCapacity provider (profileOf "SEPA" "10" (None, None))] supplyDb.

Lemma market_cards_noninterference_witness : is_ok (listCapacity merchant listedDb) = true /\
  map CapacityProfileRow.providerOrgId (capacityProfiles otherListings) = ["rival"; "provider"] /\ listCapacity merchant listedDb = listCapacity merchant otherListings.
Proof.
  split; [vm_compute; reflexivity|]. split; [vm_compute; reflexivity|].
  apply (market_cards_noninterference merchant listedDb otherListings). repeat constructor.
Defined.

Lemma freshness_job_agrees_witness : exists cap db', capacity_findById listedDb "id-4" = Some cap /\
  liveFreshness cap 8000000000 = Freshness.STALE /\
  serve sampleSupply (RecomputeFreshness "id-4" 8000000000) listedDb = (db', Ok {| z_scanned := 1; z_reclassified := 1 |}) /\
  CapacityProfileRow.freshnessClass <$> capacity_findById db' "id-4" = Some Freshness.STALE.
Proof.
  destruct (capacity_findById listedDb "id-4") as [cap|] eqn:Hc; [|exfalso; vm_compute in Hc; discriminate Hc].
  assert (liveFreshness cap 8000000000 = Freshness.STALE /\ CapacityProfileRow.freshnessClass cap = Freshness.FRESH) as [Hl Hf].
  { vm_compute in Hc. injection Hc as <-. split; vm_compute; reflexivity. }
  assert (unclaimed cap 8000000000 listedDb) as Hu by (intros k Hk; discriminate Hk).
  destruct (freshness_job_agrees sampleSha listedDb "id-4" cap 8000000000 Hc Hu) as (db' & cap' & b & E & Hc' & Ec & _). rewrite Hl, Hf in E. rewrite Hl in Ec.
  exists cap, db'. split; [reflexivity|]. split; [exact Hl|]. split; [exact E|]. rewrite Hc', Ec. reflexivity.
Defined.
